(* ===== verification/_CoqProject ===== *)
-Q . S2P
Prelude.v
Bytes.v
Text.v
SidModel.v
StorageKeys.v
StorageTxn.v
MemStore.v
TxnContract.v
FdbStore.v
FdbProofs.v
FdbSpec.v
IdentityCore.v
RidPool.v
RidProofs.v
RidSpec.v
IdentityMap.v
IdentityProofs.v
Repl.v
Raft.v
RaftProofs.v
Ber.v
LdapFilter.v
LdapFilterProofs.v
LdapTypes.v
LdapProofs.v
LdapHandler.v
LdapHandlerProofs.v
LdapServer.v
LdapServerProofs.v
Utf16.v
Ndr.v
Rpc.v
RpcProofs.v
Drs.v
DrsProofs.v
Preg.v
PregProofs.v
PolicyCore.v
PolicySpec.v
Smb.v
SmbMessages.v
SmbProofs.v
SmbSpec.v
SmbServer.v
SmbServerProofs.v
SmbClient.v
SmbSystem.v
KdcCrypto.v
KdcKeys.v
Hsm.v
Kdc.v
KdcWire.v
KdcWireProofs.v
KdcHandlers.v
KdcSpec.v
Krbtgt.v
Kpasswd.v
KpasswdSpec.v
Pac.v
PacProofs.v
PacSpec.v
PacValidator.v
Ntlm.v
NtlmSpec.v
Schema.v
SchemaSpec.v
Ca.v
CaSpec.v
Acme.v
AcmeSpec.v
Operator.v
OperatorSpec.v
Admx.v
AdmxSpec.v
Executor.v
ExecutorSpec.v
Monitor.v
MonitorSpec.v
Sdk.v
