(* ===== verification/Prelude.v ===== *)
(** * Adrian: a verification of a domain controller

    Adrian is an Active-Directory-compatible domain controller, a Rust
    workspace under [src/rust/crates].  This development models the crates that
    carry its persistent state, its replication, its LDAP service, its schema,
    its file service, its Kerberos KDC and NTLM client, its certificate authority
    with its ACME server, its policy tools, its Kubernetes operator, its monitor
    and its client library, function by function, and proves what a client of
    each relies on.

    ** The program and the files that model it

    - [adrian-sid]: security identifiers.  [SidModel]: the record [Sid], its
      constructors and classifiers, the MS-DTYP binary form and the SDDL string
      form.
    - [adrian-storage-core]: the key space and the transaction traits.
      [StorageKeys]: subspaces, sentinel attributes, key codecs, prefix ranges,
      distinguished names, objects, errors.  [StorageTxn]: the traits [ReadTxn]
      and [WriteTxn] as classes, the default methods of
      [DirectoryTransaction] as functions over them.
    - [adrian-storage-testkit]: the in-memory backend.  [MemStore]: the shared
      key-value map, snapshot reads, write-sets, staged atomic adds, commit,
      and the direct object indexes.  [TxnContract]: the class [TxnLaws], which
      says what a client of a write transaction may rely on, and its instance.
    - [adrian-storage-fdb]: the directory store.  [FdbStore]: the [FdbTxn]
      wrapper, [get], [get_by_dn], [put], [delete], tombstones and attribute
      rows, in the default build (the [fdb] cargo feature off).  [FdbProofs]:
      its lemmas and invariant.  [FdbSpec]: its contract.
    - [adrian-identity-core]: identity types.  [IdentityCore]: principal types,
      errors, [uuid_to_uid], and [DynWriteTxn], the [Box<dyn WriteTxn>] the
      identity crates hold.
    - [adrian-identity-ridpool]: RID allocation.  [RidPool]: the pool record and
      its codec, the two allocators, reclaim, [assign_sid].  [RidProofs]: its
      lemmas.  [RidSpec]: the class [RidPoolLaws] and the contract.
    - [adrian-identity-fdb]: the SID/UUID/UID mapping.  [IdentityMap]: keys,
      caches, lookups, [insert], [remove], [allocate_uid].  [IdentityProofs]:
      the refinement to a partial bijection.
    - [adrian-repl-core]: [Repl]: the replication data model and
      [resolve_conflict].
    - [adrian-raft]: [Raft]: log frames, UTD vectors, the three RPC handlers of
      [ManualRaftReplicator] and the operations of [RaftDirectoryReplicator].
      [RaftProofs]: their theorems.
    - [adrian-directory-service]: the LDAP server.  [Ber] ([ber.rs]): BER tags,
      lengths, integers and TLVs.  [LdapFilter] ([filter.rs]): search filters,
      their BER form, their text form and its parser; [LdapFilterProofs]: their
      theorems.  [LdapTypes] ([types.rs]): every protocol operation, controls
      and the message envelope; [LdapProofs]: the lemmas of the codec.
      [LdapHandler] ([handler.rs], [lib.rs]): bind, search, modify, add and
      delete over the class [DirectoryStore], which the directory store and the
      in-memory store instantiate; [LdapHandlerProofs]: their theorems.
      [LdapServer] ([server.rs]): message framing, dispatch, and the connection
      loop as a step relation with reads of any size; [LdapServerProofs]: its
      theorems.
    - [adrian-dcerpc]: DCE/RPC.  [Ndr] ([ndr.rs]): the aligned writer and reader,
      and the two judgements the codecs are proved with, [Reads] (a reader
      inverts a writer) and [Yields] (a reader is total).  [Rpc] ([pdu.rs],
      [transport.rs]): the PDUs and the client side of a connection;
      [RpcProofs]: their theorems.
    - [adrian-drsuapi]: Active Directory replication.  [Drs]: the MS-DRSR
      structures, extension negotiation, the up-to-dateness vector, the handlers
      of bind and GetNCChanges; [DrsProofs]: their theorems.
    - [adrian-schema-traits], [adrian-schema-compiler]: the schema.  [Schema]: the
      projection, the baseline schema, the compiler over any directory store and
      the validation of objects; [SchemaSpec]: their theorems.
    - [adrian-policy-preg]: registry policy files.  [Preg]: the record format and
      the typed values; [PregProofs]: their theorems.
    - [adrian-policy-core]: [PolicyCore]: policy documents, validation and
      rollback, and the compilers of a declarative policy to a registry file, a
      configuration profile and an authselect profile; [PolicySpec]: their theorems.
    - [adrian-policy-executor]: [Executor]: the files written for Windows, macOS
      and Linux; [ExecutorSpec]: what they read back as.
    - [adrian-admx-compiler]: [Admx]: the template parser as a step on the events
      of the XML reader, and the translation to a declarative policy; [AdmxSpec]:
      its theorems.
    - [adrian-smb-core]: the SMB2 protocol.  [Smb]: constants, the byte reader
      and writer, the header; [SmbMessages]: negotiate contexts, every request
      and response, the transform header, the pre-authentication hash and the
      NetBIOS frames; [SmbProofs], [SmbSpec]: their lemmas and theorems.
    - [adrian-smb-server]: [SmbServer]: the virtual file systems (a heap of
      shares, since sessions and open files alias them), the connection state,
      one definition per handler, the dispatcher and the connection loop;
      [SmbServerProofs]: its invariant and theorems.
    - [adrian-smb-client]: [SmbClient]: every call over an abstract peer.
      [SmbSystem]: the client with a server connection as its peer.
    - [adrian-hsm]: [Hsm]: the key store interface as a class, and the software
      implementation.
    - [adrian-kdc]: the Kerberos KDC.  [KdcCrypto] ([crypto.rs]): AES-CBC with
      ciphertext stealing and the etype 18 format over an abstract block cipher
      and MAC.  [KdcKeys] ([key_derivation.rs]): n-fold and the usage keys.
      [Kdc] ([lib.rs]): etypes and errors.  [KdcWire] ([wire.rs] and the message
      types of [handlers.rs]): the messages and their conversions to and from the
      structures of the ASN.1 crate, whose DER codec is the class [Rasn];
      [KdcWireProofs]: their round trips from [RasnLaws].  [KdcHandlers]
      ([store.rs], [handlers.rs]): the principal store, pre-authentication and
      the two exchanges in a monad over clock, randomness and metrics; [KdcSpec]:
      their theorems.  [Krbtgt] ([krbtgt.rs], [gmsa.rs]): rotation of the
      ticket-granting key and managed passwords.  [Kpasswd] ([kpasswd.rs]): the
      password change service over any directory store and key store;
      [KpasswdSpec]: its theorems.  [Pac] ([pac.rs]): the PAC, its builder and
      signatures; [PacProofs], [PacSpec]: its lemmas and theorems.
    - [adrian-pac-validator]: [PacValidator]: the service-side parser and
      checks, with its theorems.
    - [adrian-ntlm-client]: [Ntlm]: the three messages, the responses, the channel
      binding and the client; [NtlmSpec]: a server that checks the proof and
      reads the blob as MS-NLMP documents it, and its theorems.
    - [adrian-ca]: [Ca]: profiles, requests, issuing, revocation and the
      revocation list; [CaSpec]: what a certificate certifies, and its theorems.
    - [adrian-acme-server]: [Acme]: every handler as a transition of the server
      on one request; [AcmeSpec]: the clients, and its theorems.
    - [adrian-operator]: [Operator]: snapshots, the decision, the manifests and
      the reconcile pass over any cluster (the class [Kubernetes]), the generated
      resource definition and Helm chart; [OperatorSpec]: what an API server
      stores and refuses of what it is sent ([Server]), and its theorems.
    - [adrian-monitor]: [Monitor]: the metrics registry and its text exposition,
      audit events and sinks; [MonitorSpec]: the reference samples.
    - [adrian-sdk]: [Sdk]: the module traits as records of operations, the
      builder, and the Kerberos module, which drives the handler of
      [KdcHandlers], with its theorem.

    The directory store, the RID allocators and the identity mapping run over
    one key-value map through the transaction traits; they are proved against
    [TxnLaws], which the backends discharge.  [Prelude], [Bytes], [Text]
    and [Utf16] hold what the components share: outcomes, machine integers, byte
    codecs, the ordered key space, and the string functions of the standard
    library.

    ** How Rust is represented

    - A fallible function returns [Result]: [Ok], [Err], or [Panic].  [Panic]
      is an arithmetic overflow under the dev profile or a slice or range out
      of bounds, so a theorem that concludes [Ok] also says there is no panic.
    - [u8] is [byte], wider unsigned integers are [Z] with their range stated
      ([is_u32], [is_u64] and the like) and their wrap-around, saturation or
      panic written out.  A [Uuid] is its 128-bit value.  A [String] is its
      UTF-8 bytes.
    - [BTreeMap] and [HashMap] are [gmap]; a [BTreeMap] scan lists the map in key
      order ([btree_iter] of [Bytes]).  Where the code takes the first entry
      of a [HashMap] iteration, that choice is an argument.
    - State behind a lock or an [Arc] is passed in and returned.  The key-value
      map is shared by all clones of a store, so operations thread one map and
      transactions carry the snapshot they took.  A write transaction returns
      its successor; an [Err] drops it with its staged writes.
    - Every modelled function is total.  Where a Rust loop or recursion is not
      structural (UTF-8 and decimal printing in [Text], the loops of [Ber], the
      filter decoder and parser, [serve_rounds], the context decoder and the
      connection loop of SMB, the carry loop and the greatest common divisor of
      [KdcKeys], the block counter of [Krbtgt]) the model recurses on a number
      of rounds that is the length of the input or the width of the integer;
      each round consumes a byte or a digit, and lemmas show that the bound is
      enough: the result is never the one of running out of rounds.  The class
      walk of [Schema] has a round per class and superclass edge, and
      [SchemaSpec] shows that its queue is then empty.

    ** What the theorems show

    - SIDs: the binary codec accepts exactly the encodings of well-formed SIDs
      and is self-delimiting; the string form round-trips; a SID splits into
      its domain and RID.
    - Keys: each codec is exact, prefix ranges hold exactly the keys with the
      prefix, object keys are ordered as (DNT, attribute, value).
    - Transactions: the write-set refines the list of operations applied to the
      snapshot; concurrent atomic adds sum; where an overflow at commit leaves
      a part of the transaction applied.
    - Directory store: every reachable store satisfies the invariant that ties
      the UUID index, the object rows and the DNT counter together; reads never
      fail; [put] then [get] returns the object; [delete] leaves the tombstone;
      other objects are untouched; what a second [put] leaves behind.
    - RIDs: a batch is a run of single allocations; a fresh pool counts up; pools
      of different domains and machines are disjoint and independent; reclaim
      resets one pool, and which keys it misses; the duplicate two interleaved
      allocations can return.
    - Identity mapping: the operations implement a partial bijection for any
      eviction choice; what [allocate_uid] returns.
    - Replication: conflict resolution is a strict total order, so replicas
      converge; one vote per term; [append_entries] and its log; catch-up; log
      frames and UTD vectors; what resends and the commit index do.
    - LDAP: TLV framing, minimal integers; filters and messages decode from their
      encodings whatever bytes follow, decoding is total; printed filters parse
      back; the substring matcher equals its specification; modify, bind; the
      connection loop terminates and its effect does not depend on how the input
      is cut into reads; what subtree search, add and modify get wrong.
    - RPC and DRSUAPI: NDR values round-trip at every alignment and reading is
      total; PDUs and replication messages decode from their encodings; calls
      are answered in order, and which requests lose their frame; the UTD vector
      is a join; bind and GetNCChanges from wire bytes to wire bytes, and why
      paging makes no progress.
    - Schema: validation ends and accepts exactly the objects that the classes
      allow; the baseline schema is closed, and what its objects must carry.
    - Policy: parsing a registry file is total; exactly which files and values
      read back; what the compilers write is what a reader finds, on every
      platform, and where it is not what the policy model promises; templates parse to their policies, and which parts are lost.
    - SMB: what the peer decodes of every request, which is the request if its
      buffers fit in their length fields; every response decodes from its
      encoding, and which negotiate response does not; decoding is total; the pre-authentication
      hash commits to the transcript; every command keeps the connection
      consistent and leaves other sessions and shares alone; exactly when a
      write panics; the loop does not depend on how the input is cut into reads;
      a client's handshake, create, write and read succeed against the server
      and return the bytes of the file.
    - Kerberos: ciphertext stealing is a permutation and decryption accepts
      exactly what encryption makes; n-fold is a one's complement sum, and which
      key usages share keys; every message decodes from its encoding; exactly
      which AS and TGS requests are answered, with what, and what the TGS does
      not check; a client with its key obtains a service ticket the service can
      open; rotations keep the key store and the manager in step when they do
      not overlap; what a password change requires, that it cannot be replayed
      for five minutes, and what its MAC does not bind; a PAC the KDC builds
      parses and verifies, and why the validator rejects it; why the client
      library never obtains a ticket.
    - NTLM: a client with credentials answers every well-formed challenge with a
      proof that verifies, and with a blob whose attributes a server does not find
      at their documented place; parsing any bytes is total.
    - Certificates: when a certificate is issued (for dates that a certificate
      represents exactly), what it says and under which form of signature, its
      serial numbers and the revocation list; an ACME request has an effect only
      once and only signed, a client is led from an account to its certificate,
      and what a finalize request does not check.
    - Operator: once every controller had a pass the cluster is what the
      resources ask for and stays so, and which resources are patched in every
      pass all the same; which passes fail forever; what the generated manifests
      lack.
    - Monitor: a scrape shows exactly the counts, sums and last values of the
      operations performed.

    ** What is not modelled

    [real_fdb] (a client of the FoundationDB library), lock poisoning, logging,
    the conversions to [openraft] types and [async] scheduling inside one
    operation (operations are atomic except where a theorem interleaves their
    transactions), the TCP listeners and failing writes of the servers, and the
    DCE/RPC server endpoint, a stub in the source.  The connections of the SMB
    model do not share files concurrently; concurrent ACME requests are not
    interleaved; the watch loop of the operator is that of the controller runtime.

    What the source calls and does not contain is a parameter, with the laws it
    relies on as named hypotheses or classes that samples instantiate:
    [serde_json], the DER codecs of [rasn], the XML reader, base64, the YAML
    printer, AES, HMAC, MD4, MD5, SHA-2, PBKDF2, AES-GCM and the signatures of
    [ring], Unicode case mapping, [f64], the calendar of [chrono], the HTTP layer
    of [axum], and the Kubernetes API server.

    Left out are the crates without logic of their own: the command line front
    end, the foreign function bindings of the client library, PKCS#11, the stubs
    ([adrian-policy-cel], [adrian-gpo-translate], [adrian-claims-engine],
    [adrian-federation-shim], [adrian-wcce-bridge], [adrian-migrate],
    [adrian-print-service], [adrian-kdc-interop], [adrian-auth-core]), which
    answer errors or only declare types, and the test kits. *)

From Stdlib Require Export ZArith Lia.
From Stdlib Require Export Init.Byte Strings.Byte.
From stdpp Require Export base tactics gmap sorting numbers option strings.
From stdpp Require Export list.

#[global] Open Scope Z_scope.

(** ** Outcomes of a Rust function

    A fallible Rust function returns [Ok] or [Err]; it may also panic (an
    arithmetic overflow under the dev profile, an out-of-range slice, an
    inverted [BTreeMap::range]).  [Panic] is an outcome of its own, so that a
    theorem with an [Ok] conclusion also states that the code does not panic. *)
Inductive Result (E A : Type) : Type :=
| Ok (a : A)
| Err (e : E)
| Panic.
Arguments Ok {E A} a.
Arguments Err {E A} e.
Arguments Panic {E A}.

Definition rbind {E A B} (r : Result E A) (f : A -> Result E B) : Result E B :=
  match r with Ok a => f a | Err e => Err e | Panic => Panic end.

(** [map_err]: the error conversion of Rust's [Result::map_err]. *)
Definition map_err {E F A} (f : E -> F) (r : Result E A) : Result F A :=
  match r with Ok a => Ok a | Err e => Err (f e) | Panic => Panic end.

(** [ok_or]: [Option::ok_or_else]. *)
Definition ok_or {E A} (o : option A) (e : E) : Result E A :=
  match o with Some a => Ok a | None => Err e end.

(** [ok]: [Result::ok]; a panic is not caught by it, but the functions it is
    applied to here return [Ok] or [Err]. *)
Definition is_ok {E A} (r : Result E A) : bool :=
  match r with Ok _ => true | _ => false end.

Declare Scope adrian_scope.
Delimit Scope adrian_scope with adrian.
Notation "'let?' x := e 'in' k" := (rbind e (fun x => k))
  (at level 10, x pattern, e at level 200, k at level 200,
   format "'[v' 'let?'  x  :=  e  'in' '/' k ']'") : adrian_scope.
#[global] Open Scope adrian_scope.

#[global] Instance result_eq_dec {E A} `{EqDecision E, EqDecision A} :
  EqDecision (Result E A).
Proof. solve_decision. Defined.

Lemma Ok_inj {E A} (a b : A) : @Ok E A a = Ok b -> a = b.
Proof. congruence. Qed.
Lemma rbind_Ok_inv {E A B} (r : Result E A) (f : A -> Result E B) b :
  rbind r f = Ok b -> exists a, r = Ok a /\ f a = Ok b.
Proof. destruct r; simpl; naive_solver. Qed.

Lemma map_err_Ok_inv {E F A} (f : E -> F) (r : Result E A) a :
  map_err f r = Ok a -> r = Ok a.
Proof. destruct r; simpl; naive_solver. Qed.

(** ** Machine integers

    A [w]-bit unsigned integer is a [Z] in [0, 2^w); the casts and the
    saturating and checked operations of the code are written out. *)
Definition is_uint (w : Z) (z : Z) : Prop := 0 <= z < 2 ^ w.
Abbreviation is_u8 := (is_uint 8).
Abbreviation is_u16 := (is_uint 16).
Abbreviation is_u32 := (is_uint 32).
Abbreviation is_u64 := (is_uint 64).
Abbreviation is_u128 := (is_uint 128).
Definition is_i64 (z : Z) : Prop := - 2 ^ 63 <= z < 2 ^ 63.

(** [z as uW]: truncation. *)
Definition as_uint (w z : Z) : Z := z mod 2 ^ w.
Abbreviation as_u8 := (as_uint 8).
Abbreviation as_u16 := (as_uint 16).
Abbreviation as_u32 := (as_uint 32).
Abbreviation as_u64 := (as_uint 64).

(** [z as i64]: two's complement reinterpretation. *)
Definition as_i64 (z : Z) : Z :=
  let m := z mod 2 ^ 64 in if m <? 2 ^ 63 then m else m - 2 ^ 64.

Definition u32_MAX : Z := 2 ^ 32 - 1.
Definition i64_MAX : Z := 2 ^ 63 - 1.
Definition u32_saturating_add (a b : Z) : Z := Z.min (a + b) u32_MAX.
Definition u32_saturating_sub (a b : Z) : Z := Z.max (a - b) 0.
Definition u32_saturating_mul (a b : Z) : Z := Z.min (a * b) u32_MAX.

(** [div_ceil] on unsigned integers. *)
Definition div_ceil (a b : Z) : Z := (a + b - 1) / b.

(** [i64::checked_add]. *)
Definition i64_checked_add (a b : Z) : option Z :=
  if (- 2 ^ 63 <=? a + b) && (a + b <? 2 ^ 63) then Some (a + b) else None.

(** [a + b] on [i64] under the dev profile: overflow panics. *)
Definition i64_add {E} (a b : Z) : Result E Z :=
  match i64_checked_add a b with Some c => Ok c | None => Panic end.

(** [a + b] on [u64] under the dev profile: overflow panics. *)
Definition u64_add {E} (a b : Z) : Result E Z :=
  if a + b <? 2 ^ 64 then Ok (a + b) else Panic.

(** [+], [-] and [*] on a [w]-bit unsigned integer under the dev profile. *)
Definition uint_add {E} (w a b : Z) : Result E Z := if a + b <? 2 ^ w then Ok (a + b) else Panic.
Definition uint_sub {E} (a b : Z) : Result E Z := if b <=? a then Ok (a - b) else Panic.
Definition uint_mul {E} (w a b : Z) : Result E Z := if a * b <? 2 ^ w then Ok (a * b) else Panic.

(** [checked_add] and [checked_mul] on a [w]-bit unsigned integer. *)
Definition uint_checked_add (w a b : Z) : option Z := if a + b <? 2 ^ w then Some (a + b) else None.
Definition uint_checked_mul (w a b : Z) : option Z := if a * b <? 2 ^ w then Some (a * b) else None.

#[global] Instance is_uint_dec w z : Decision (is_uint w z).
Proof. unfold is_uint; apply _. Defined.
#[global] Instance is_i64_dec z : Decision (is_i64 z).
Proof. unfold is_i64; apply _. Defined.

(** The development's hint database: facts about widths, lengths and lookups. *)
Create HintDb adrian.

(** [uint]: arithmetic goals about machine integers. *)
Ltac unfold_ints :=
  unfold is_uint, is_i64, as_uint, as_i64, u32_saturating_add,
    u32_saturating_sub, u32_saturating_mul, u32_MAX, i64_MAX in *;
  change (2 ^ 8) with 256 in *; change (2 ^ 16) with 65536 in *;
  change (2 ^ 32) with 4294967296 in *;
  change (2 ^ 63) with 9223372036854775808 in *;
  change (2 ^ 64) with 18446744073709551616 in *;
  change (2 ^ 128) with 340282366920938463463374607431768211456 in *.
Ltac uint := unfold_ints; repeat case_match; try lia.

(** Inverts every [rbind] and [map_err] equation that ends in [Ok]. *)
Ltac inv_ok :=
  repeat match goal with
  | H : rbind _ _ = Ok _ |- _ =>
      let a := fresh "a" in let H1 := fresh "Hr" in
      apply rbind_Ok_inv in H as (a & H1 & H); cbv beta in H
  | H : map_err _ _ = Ok _ |- _ => apply map_err_Ok_inv in H
  | H : Ok _ = Ok _ |- _ => injection H as H; subst
  | H : Err _ = Ok _ |- _ => discriminate H
  | H : Panic = Ok _ |- _ => discriminate H
  end.

Lemma as_uint_id w z : is_uint w z -> as_uint w z = z.
Proof. unfold as_uint, is_uint. intros. by apply Z.mod_small. Qed.

Lemma as_uint_range w z : 0 <= w -> is_uint w (as_uint w z).
Proof. unfold as_uint, is_uint. intros. apply Z.mod_pos_bound. lia. Qed.

Lemma as_i64_id z : is_i64 z -> as_i64 z = z.
Proof.
  unfold as_i64, is_i64. intros. destruct (Z.le_gt_cases 0 z).
  - rewrite Z.mod_small by lia. case_match; lia.
  - assert (z mod 2 ^ 64 = z + 2 ^ 64) as ->.
    { rewrite <-(Z.mod_add z 1) by lia. apply Z.mod_small. lia. }
    case_match; lia.
Qed.

Lemma i64_checked_add_Some a b : is_i64 (a + b) -> i64_checked_add a b = Some (a + b).
Proof. unfold i64_checked_add, is_i64. intros. case_match; [done|]. lia. Qed.

Lemma uint_add_Ok {E} w a b : a + b < 2 ^ w -> @uint_add E w a b = Ok (a + b).
Proof. unfold uint_add. intros. by rewrite (proj2 (Z.ltb_lt _ _)). Qed.
Lemma uint_mul_Ok {E} w a b : a * b < 2 ^ w -> @uint_mul E w a b = Ok (a * b).
Proof. unfold uint_mul. intros. by rewrite (proj2 (Z.ltb_lt _ _)). Qed.
Lemma uint_sub_Ok {E} a b : b <= a -> @uint_sub E a b = Ok (a - b).
Proof. unfold uint_sub. intros. by rewrite (proj2 (Z.leb_le _ _)). Qed.

(** [(a << n) | b] for [b] below [2^n]. *)
Lemma lor_shiftl n a b : 0 <= n -> 0 <= b < 2 ^ n -> Z.lor (Z.shiftl a n) b = a * 2 ^ n + b.
Proof.
  intros Hn Hb. rewrite Z.shiftl_mul_pow2 by lia.
  assert (Z.land (a * 2 ^ n) b = 0) as H0; [|pose proof (Z.add_lor_land (a * 2 ^ n) b); lia].
  apply Z.bits_inj'. intros i Hi. rewrite Z.land_spec, Z.bits_0. destruct (Z.lt_ge_cases i n).
  - by rewrite Z.mul_pow2_bits_low by lia.
  - by rewrite <-(Z.mod_small b (2 ^ n)), Z.mod_pow2_bits_high, andb_false_r by lia.
Qed.

#[export] Hint Resolve as_uint_id as_uint_range as_i64_id : adrian.

(** ** Lists and options *)

Lemma imap_const_length {A B} (f : nat -> A -> B) (l : list A) :
  length (imap f l) = length l.
Proof. apply length_imap. Qed.

(** Splitting equal concatenations at equal prefix lengths. *)
Lemma app_split {A} (a b c d : list A) :
  length a = length c -> a ++ b = c ++ d -> a = c /\ b = d.
Proof. intros. by apply app_inj_1. Qed.

(** ** Reachability: reflexive-transitive closure is stdpp's [rtc]. *)
Lemma rtc_invariant {S} (R : S -> S -> Prop) (I : S -> Prop) :
  (forall s s', I s -> R s s' -> I s') ->
  forall s s', rtc R s s' -> I s -> I s'.
Proof. intros HI s s' Hs. induction Hs; eauto. Qed.
