(* ===== verification/Bytes.v ===== *)
(** * Bytes: byte strings, endian codecs and the ordered key space

    Rust's [u8] is [Byte.byte]; [&[u8]] and [Vec<u8>] are [list byte].  The
    file defines the standard library's [to_be_bytes] / [from_be_bytes] /
    [to_le_bytes] / [from_le_bytes], the lexicographic order [Vec<u8>] has as a
    [BTreeMap] key, and the map itself: a [gmap] listed in key order. *)
From S2P Require Import Prelude.

Definition b2z (b : byte) : Z := Z.of_N (Byte.to_N b).
Definition z2b (z : Z) : byte :=
  match Byte.of_N (Z.to_N (z mod 256)) with Some b => b | None => x00 end.

Abbreviation bytes := (list byte).

(** The bytes of an ASCII literal ([b"next_rid"]). *)
Definition lit (s : string) : bytes := String.list_byte_of_string s.

#[global] Instance byte_eq_dec : EqDecision byte := Byte.byte_eq_dec.

Lemma b2z_range b : 0 <= b2z b < 256.
Proof. unfold b2z. pose proof (Byte.to_N_bounded b). lia. Qed.

Lemma z2b_b2z b : z2b (b2z b) = b.
Proof.
  unfold z2b. rewrite Z.mod_small by apply b2z_range.
  unfold b2z. by rewrite N2Z.id, Byte.of_to_N.
Qed.

Lemma b2z_z2b z : b2z (z2b z) = z mod 256.
Proof.
  unfold z2b. pose proof (Z.mod_pos_bound z 256).
  destruct (Byte.of_N _) as [b|] eqn:Hb.
  - apply Byte.to_of_N in Hb. unfold b2z. rewrite Hb. lia.
  - apply Byte.of_N_None_iff in Hb. lia.
Qed.

#[global] Instance b2z_inj : Inj (=) (=) b2z.
Proof. intros a b H. by rewrite <-(z2b_b2z a), <-(z2b_b2z b), H. Qed.

#[global] Instance byte_countable : Countable byte :=
  inj_countable' b2z z2b z2b_b2z.

(** ** Endian codecs *)

Fixpoint to_le (n : nat) (z : Z) : bytes :=
  match n with O => [] | S n => z2b z :: to_le n (z / 256) end.
Fixpoint of_le (l : bytes) : Z :=
  match l with [] => 0 | b :: l => b2z b + 256 * of_le l end.
Definition to_be (n : nat) (z : Z) : bytes := rev (to_le n z).
Definition of_be (l : bytes) : Z := of_le (rev l).

(** [i64::to_be_bytes] and [i64::from_be_bytes]. *)
Definition i64_to_be (z : Z) : bytes := to_be 8 z.
Definition i64_of_be (l : bytes) : Z := as_i64 (of_be l).

Lemma length_to_le n z : length (to_le n z) = n.
Proof. revert z; induction n; simpl; auto. Qed.
Lemma length_to_be n z : length (to_be n z) = n.
Proof. unfold to_be. by rewrite length_rev, length_to_le. Qed.

Lemma of_le_range l : 0 <= of_le l < 256 ^ Z.of_nat (length l).
Proof.
  induction l as [|b l IH]; cbn [of_le length]; [simpl; lia|].
  rewrite Nat2Z.inj_succ, Z.pow_succ_r by lia. pose proof (b2z_range b). lia.
Qed.
Lemma of_be_range l : 0 <= of_be l < 256 ^ Z.of_nat (length l).
Proof. unfold of_be. rewrite <-(length_rev l). apply of_le_range. Qed.

Lemma of_to_le n z : of_le (to_le n z) = z mod 256 ^ Z.of_nat n.
Proof.
  revert z. induction n as [|n IH]; intros z; cbn [of_le to_le].
  { by rewrite Z.mod_1_r. }
  rewrite IH, b2z_z2b, Nat2Z.inj_succ, Z.pow_succ_r by lia.
  rewrite Z.rem_mul_r by lia. lia.
Qed.
Lemma to_of_le l n : length l = n -> to_le n (of_le l) = l.
Proof.
  intros <-. induction l as [|b l IH]; cbn [of_le to_le length]; [done|].
  pose proof (b2z_range b). f_equal.
  - apply (inj b2z). rewrite b2z_z2b, Z.mul_comm, Z.mod_add, Z.mod_small; lia.
  - rewrite Z.mul_comm, Z.div_add, (Z.div_small (b2z b)) by lia. done.
Qed.

Lemma of_to_be n z : of_be (to_be n z) = z mod 256 ^ Z.of_nat n.
Proof. unfold of_be, to_be. by rewrite rev_involutive, of_to_le. Qed.
Lemma to_of_be l n : length l = n -> to_be n (of_be l) = l.
Proof.
  intros. unfold of_be, to_be. rewrite to_of_le by (by rewrite length_rev).
  apply rev_involutive.
Qed.
Lemma of_to_be_id n z : 0 <= z < 256 ^ Z.of_nat n -> of_be (to_be n z) = z.
Proof. intros. rewrite of_to_be. by apply Z.mod_small. Qed.
Lemma of_to_le_id n z : 0 <= z < 256 ^ Z.of_nat n -> of_le (to_le n z) = z.
Proof. intros. rewrite of_to_le. by apply Z.mod_small. Qed.

Lemma to_be_inj n a b :
  0 <= a < 256 ^ Z.of_nat n -> 0 <= b < 256 ^ Z.of_nat n ->
  to_be n a = to_be n b -> a = b.
Proof. intros Ha Hb H. rewrite <-(of_to_be_id n a), <-(of_to_be_id n b), H by done. done. Qed.

Lemma of_be_snoc l b : of_be (l ++ [b]) = 256 * of_be l + b2z b.
Proof. unfold of_be. rewrite rev_unit. cbn [of_le]. lia. Qed.
Lemma of_be_cons b l : of_be (b :: l) = b2z b * 256 ^ Z.of_nat (length l) + of_be l.
Proof.
  unfold of_be. cbn [rev]. induction (rev l) as [|c k IH] eqn:E in l |- *.
  { apply (f_equal length) in E. rewrite length_rev in E. destruct l; [|done]. cbn. lia. }
  destruct l as [|x l' _] using rev_ind; [done|]. rewrite rev_unit in E.
  injection E as -> <-. cbn [app of_le]. rewrite (IH l' eq_refl).
  rewrite length_app, Nat2Z.inj_add, Z.pow_add_r by lia. cbn [length].
  change (256 ^ Z.of_nat 1) with 256. lia.
Qed.
Lemma of_to_be_u8 z : is_u8 z -> of_be (to_be 1 z) = z.
Proof. intros. apply of_to_be_id. uint. Qed.
Lemma of_to_be_u16 z : is_u16 z -> of_be (to_be 2 z) = z.
Proof. intros. apply of_to_be_id. uint. Qed.
Lemma of_to_be_u32 z : is_u32 z -> of_be (to_be 4 z) = z.
Proof. intros. apply of_to_be_id. uint. Qed.
Lemma of_to_be_u64 z : is_u64 z -> of_be (to_be 8 z) = z.
Proof. intros. apply of_to_be_id. uint. Qed.
Lemma of_to_be_u128 z : is_u128 z -> of_be (to_be 16 z) = z.
Proof. intros. apply of_to_be_id. uint. Qed.
Lemma of_to_le_u32 z : is_u32 z -> of_le (to_le 4 z) = z.
Proof. intros. apply of_to_le_id. uint. Qed.

Lemma i64_of_to_be z : is_i64 z -> i64_of_be (i64_to_be z) = z.
Proof.
  intros. unfold i64_of_be, i64_to_be. rewrite of_to_be.
  rewrite <-(as_i64_id z) at 2 by done. unfold as_i64. cbn.
  by rewrite Z.mod_mod by lia.
Qed.
Lemma i64_of_be_range l : length l = 8%nat -> is_i64 (i64_of_be l).
Proof.
  intros Hl. unfold i64_of_be, as_i64. pose proof (of_be_range l) as Hr.
  rewrite Hl in Hr. cbn in Hr. rewrite Z.mod_small by lia. uint.
Qed.

Create Rewrite HintDb len.
#[export] Hint Rewrite @length_to_le @length_to_be @length_app @length_cons
  @length_nil @length_take @length_drop @length_rev : len.
#[export] Hint Resolve of_to_be_u8 of_to_be_u16 of_to_be_u32 of_to_be_u64
  of_to_be_u128 of_to_le_u32 i64_of_to_be : adrian.

(** Length goals over byte strings. *)
Ltac len := repeat progress (autorewrite with len in *; cbn [length] in * ); lia.

Lemma to_le_snoc n z :
  to_le (S n) z = to_le n z ++ [z2b (z / 256 ^ Z.of_nat n)].
Proof.
  revert z. induction n as [|n IH]; intros z.
  { simpl. by rewrite Z.div_1_r. }
  cbn [to_le app]. f_equal. rewrite Nat2Z.inj_succ, Z.pow_succ_r by lia.
  rewrite <-Z.div_div by lia. apply IH.
Qed.
Lemma to_be_cons n z :
  to_be (S n) z = z2b (z / 256 ^ Z.of_nat n) :: to_be n z.
Proof. unfold to_be. by rewrite to_le_snoc, rev_app_distr. Qed.

#[global] Arguments to_le : simpl never.
#[global] Arguments to_be : simpl never.
#[global] Arguments of_be : simpl never.
#[global] Arguments drop {_} _ _ : simpl never.
#[global] Arguments take {_} _ _ : simpl never.

(** Fields of a fixed-layout record. *)
Lemma sub_app (x y z l : bytes) i n :
  l = x ++ y ++ z -> length x = i -> length y = n -> take n (drop i l) = y.
Proof. intros -> <- <-. by rewrite drop_app_length, take_app_length. Qed.
Lemma sub_app_end (x y l : bytes) i n :
  l = x ++ y -> length x = i -> length y = n -> take n (drop i l) = y.
Proof. intros -> <- <-. by rewrite drop_app_length, take_ge. Qed.
Lemma drop_app_end (x y l : bytes) i :
  l = x ++ y -> length x = i -> drop i l = y.
Proof. intros -> <-. by rewrite drop_app_length. Qed.
Lemma field_split (l : bytes) i n :
  drop i l = take n (drop i l) ++ drop (i + n) l.
Proof. by rewrite <-drop_drop, take_drop. Qed.

(** ** Lexicographic order on keys ([Ord] of [Vec<u8>]) *)

Fixpoint key_ltb (a b : bytes) : bool :=
  match a, b with
  | _, [] => false
  | [], _ :: _ => true
  | x :: a, y :: b => (b2z x <? b2z y) || ((b2z x =? b2z y) && key_ltb a b)
  end.
Definition key_lt (a b : bytes) : Prop := key_ltb a b = true.
Definition key_le (a b : bytes) : Prop := key_ltb b a = false.

#[global] Instance key_lt_dec a b : Decision (key_lt a b).
Proof. unfold key_lt; apply _. Defined.
#[global] Instance key_le_dec a b : Decision (key_le a b).
Proof. unfold key_le; apply _. Defined.

Lemma key_ltb_cons x y a b :
  key_lt (x :: a) (y :: b) <-> b2z x < b2z y \/ (x = y /\ key_lt a b).
Proof.
  unfold key_lt. simpl. rewrite orb_true_iff, andb_true_iff, Z.ltb_lt, Z.eqb_eq.
  split; intros [|[H ?]]; auto; right; split; try done.
  - by apply (inj b2z).
  - by subst.
Qed.

Lemma key_lt_irrefl a : ~ key_lt a a.
Proof. induction a; [done|]. rewrite key_ltb_cons. intros [|[]]; [lia|done]. Qed.

Lemma key_lt_trans a b c : key_lt a b -> key_lt b c -> key_lt a c.
Proof.
  revert b c. induction a as [|x a IH]; intros [|y b] [|z c]; try done.
  rewrite !key_ltb_cons. intros [?|[-> ?]] [?|[-> ?]]; eauto; left; lia.
Qed.

Lemma key_lt_total a b : key_lt a b \/ a = b \/ key_lt b a.
Proof.
  revert b. induction a as [|x a IH]; intros [|y b]; auto.
  { by left. } { by right; right. }
  rewrite !key_ltb_cons.
  destruct (Z.lt_trichotomy (b2z x) (b2z y)) as [|[E|]]; auto.
  apply (inj b2z) in E. subst. destruct (IH b) as [|[->|]]; auto.
Qed.

Lemma key_le_lteq a b : key_le a b <-> key_lt a b \/ a = b.
Proof.
  unfold key_le, key_lt. split.
  - intros H. destruct (key_lt_total a b) as [|[|H']]; auto. congruence.
  - intros [H| ->]; apply not_true_is_false; intros H'.
    + by apply (key_lt_irrefl a), (key_lt_trans a b a).
    + by apply (key_lt_irrefl b).
Qed.
Lemma key_nlt_le a b : ~ key_lt a b <-> key_le b a.
Proof. unfold key_lt, key_le. by rewrite not_true_iff_false. Qed.
Lemma key_le_lt_trans a b c : key_le a b -> key_lt b c -> key_lt a c.
Proof. rewrite key_le_lteq. intros [?| ->]; eauto using key_lt_trans. Qed.
Lemma key_lt_le_trans a b c : key_lt a b -> key_le b c -> key_lt a c.
Proof. rewrite key_le_lteq. intros ? [?| <-]; eauto using key_lt_trans. Qed.

#[global] Instance key_le_total : Total key_le.
Proof. intros a b. rewrite !key_le_lteq. destruct (key_lt_total a b) as [|[]]; auto. Qed.
#[global] Instance key_le_trans : Transitive key_le.
Proof.
  intros a b c. rewrite !key_le_lteq.
  intros [?| ->] [?| ->]; eauto using key_lt_trans.
Qed.
#[global] Instance key_le_antisym : AntiSymm (=) key_le.
Proof.
  intros a b. rewrite !key_le_lteq. intros [?|?] [?|?]; auto.
  exfalso. by apply (key_lt_irrefl a), (key_lt_trans a b a).
Qed.

(** A key below every extension of a prefix. *)
Lemma key_le_app a b : key_le a (a ++ b).
Proof.
  unfold key_le. induction a as [|x a IH]; simpl; [by destruct b|].
  rewrite Z.ltb_irrefl, Z.eqb_refl. done.
Qed.
Lemma key_lt_app_l p a b : key_lt (p ++ a) (p ++ b) <-> key_lt a b.
Proof.
  induction p as [|x p IH]; [done|]. simpl. rewrite key_ltb_cons, IH.
  split; [intros [|[]]; [lia|done]|auto].
Qed.
(** Keys that differ within their first components stay in that order. *)
Lemma key_lt_app_r a b c d :
  length a = length b -> key_lt a b -> key_lt (a ++ c) (b ++ d).
Proof.
  revert b. induction a as [|x a IH]; intros [|y b]; try done. simpl.
  rewrite !key_ltb_cons. intros [=]. intros [?|[-> ?]]; auto.
Qed.
Lemma key_lt_app_iff a b c d :
  length a = length b ->
  key_lt (a ++ c) (b ++ d) <-> key_lt a b \/ (a = b /\ key_lt c d).
Proof.
  revert b. induction a as [|x a IH]; intros [|y b]; try done; simpl.
  { intros _. split; [auto|intros [|[]]; done]. }
  intros [=]. rewrite !key_ltb_cons, IH by done. split.
  - intros [?|[-> [?|[-> ?]]]]; auto.
  - intros [[?|[-> ?]]|[[= -> ->] ?]]; auto.
Qed.

(** Fixed-width big-endian encoding preserves the numeric order. *)
Lemma to_be_lt n a b :
  0 <= a < 256 ^ Z.of_nat n -> 0 <= b < 256 ^ Z.of_nat n ->
  key_lt (to_be n a) (to_be n b) <-> a < b.
Proof.
  revert a b. induction n as [|n IH]; intros a b Ha Hb.
  { simpl in Ha, Hb. unfold key_lt; simpl. split; [done|lia]. }
  rewrite Nat2Z.inj_succ, Z.pow_succ_r in Ha, Hb by lia.
  set (p := 256 ^ Z.of_nat n) in *. assert (0 < p) by (apply Z.pow_pos_nonneg; lia).
  assert (forall z, 0 <= z < 256 * p -> b2z (z2b (z / p)) = z / p) as Hd.
  { intros z Hz. rewrite b2z_z2b. apply Z.mod_small. split.
    - apply Z.div_pos; lia. - apply Z.div_lt_upper_bound; lia. }
  assert (forall z, to_be n z = to_be n (z mod p)) as Hm.
  { intros z. rewrite <-(to_of_be (to_be n z) n) by apply length_to_be.
    by rewrite of_to_be. }
  rewrite !to_be_cons, key_ltb_cons. fold p. rewrite (Hm a), (Hm b), !Hd by lia.
  rewrite IH by (apply Z.mod_pos_bound; lia).
  pose proof (Z.div_mod a p). pose proof (Z.div_mod b p).
  pose proof (Z.mod_pos_bound a p). pose proof (Z.mod_pos_bound b p).
  assert (z2b (a / p) = z2b (b / p) <-> a / p = b / p) as ->.
  { split; [|by intros ->]. intros E%(f_equal b2z). by rewrite !Hd in E by lia. }
  split; intros; nia.
Qed.

(** ** [BTreeMap<Vec<u8>, V>]: a finite map listed in key order *)

Abbreviation kvmap := (gmap bytes bytes).

Section btree.
Context {V : Type}.
Implicit Types (m : gmap bytes V) (l : list (bytes * V)).

Definition entry_le (x y : bytes * V) : Prop := key_le x.1 y.1.

(** [BTreeMap::iter]. *)
Definition btree_iter m : list (bytes * V) := merge_sort entry_le (map_to_list m).

Definition in_range (b e k : bytes) : bool := negb (key_ltb k b) && key_ltb k e.

(** [BTreeMap::range(b..e)] for [b <= e]. *)
Definition btree_range m (b e : bytes) : list (bytes * V) :=
  List.filter (fun kv => in_range b e kv.1) (btree_iter m).

#[local] Instance entry_le_total : Total entry_le.
Proof. intros x y. apply key_le_total. Qed.
#[local] Instance entry_le_trans : Transitive entry_le.
Proof. intros x y z. apply key_le_trans. Qed.

Lemma in_range_spec b e k : in_range b e k = true <-> key_le b k /\ key_lt k e.
Proof.
  unfold in_range, key_le, key_lt. rewrite andb_true_iff, negb_true_iff. done.
Qed.

Lemma elem_of_btree_range m b e k v :
  (k, v) ∈ btree_range m b e <-> m !! k = Some v /\ key_le b k /\ key_lt k e.
Proof.
  unfold btree_range, btree_iter.
  rewrite list_elem_of_In, filter_In, <-list_elem_of_In, merge_sort_Permutation.
  rewrite elem_of_map_to_list. simpl. by rewrite in_range_spec.
Qed.

Lemma btree_iter_sorted m : StronglySorted entry_le (btree_iter m).
Proof. apply StronglySorted_merge_sort; apply _. Qed.

Lemma btree_range_sorted m b e : StronglySorted entry_le (btree_range m b e).
Proof.
  unfold btree_range. generalize (btree_iter_sorted m).
  induction 1 as [|x l Hs IH Hf]; simpl; [constructor|].
  case_match; [|done]. constructor; [done|].
  rewrite Forall_forall in *. intros y Hy.
  apply Hf. rewrite list_elem_of_In, filter_In in Hy.
  apply list_elem_of_In. tauto.
Qed.

Lemma btree_range_NoDup m b e : NoDup (btree_range m b e).*1.
Proof.
  unfold btree_range, btree_iter.
  assert (NoDup (merge_sort entry_le (map_to_list m)).*1) as H.
  { rewrite merge_sort_Permutation. apply NoDup_fst_map_to_list. }
  revert H. generalize (merge_sort entry_le (map_to_list m)).
  induction l as [|x l IH]; simpl; [done|]. rewrite NoDup_cons. intros [Hx Hl].
  case_match; [|auto]. simpl. rewrite NoDup_cons. split; [|auto].
  contradict Hx. apply list_elem_of_fmap in Hx as (y & Ey & Hy).
  apply list_elem_of_fmap. exists y. split; [done|].
  apply list_elem_of_In, filter_In in Hy. apply list_elem_of_In. tauto.
Qed.

(** A range listing is determined by its entries: any list of exactly the
    entries of the range, strictly sorted by key, is the listing. *)
Lemma btree_range_unique m b e l :
  StronglySorted (fun x y => key_lt x.1 y.1) l ->
  (forall k v, (k, v) ∈ l <-> m !! k = Some v /\ key_le b k /\ key_lt k e) ->
  btree_range m b e = l.
Proof.
  intros Hs Hl. apply (StronglySorted_unique_strong entry_le).
  - intros [k1 v1] [k2 v2] H1 H2 H12 H21.
    assert (k1 = k2) as -> by (by apply (anti_symm key_le)).
    apply elem_of_btree_range in H1 as [? _]. apply Hl in H2 as [? _]. congruence.
  - apply btree_range_sorted.
  - clear Hl. induction Hs as [|x l Hs IH Hf]; constructor; [done|].
    eapply Forall_impl; [done|]. simpl. intros y Hy. apply key_le_lteq. auto.
  - apply NoDup_Permutation.
    + apply (NoDup_fmap_1 fst), btree_range_NoDup.
    + clear Hl. induction Hs as [|x l Hs IH Hf]; constructor; [|done].
      rewrite Forall_forall in Hf. intros Hx. by apply Hf, key_lt_irrefl in Hx.
    + intros [k v]. by rewrite elem_of_btree_range, Hl.
Qed.
End btree.

#[export] Hint Resolve btree_range_sorted btree_range_NoDup : adrian.

(** ** DER codecs as parameters

    The crates encode their ASN.1 structures with [rasn].  The codec of a structure
    is a parameter, the class [Der]; the law a proof uses says that the values of a
    set decode from their encodings.  [countable_der] is a codec that has the law. *)
Class Der (A : Type) := { der_encode : A -> option bytes; der_decode : bytes -> option A }.

Definition der_law {A} `{!Der A} (ok : A -> Prop) : Prop := forall a, ok a -> exists b, der_encode a = Some b /\ der_decode b = Some a.

Lemma der_law_encode {A} `{!Der A} (ok : A -> Prop) a : der_law ok -> ok a -> is_Some (der_encode a).
Proof. intros Hl Ha. destruct (Hl a Ha) as (b & -> & _). by eexists. Qed.

(** ** A codec that satisfies the law

    For a countable structure: its encoding is its number, a byte per bit. *)
Fixpoint pos_bytes (p : positive) : bytes :=
  match p with xH => [] | xO p => x00 :: pos_bytes p | xI p => x01 :: pos_bytes p end.
Fixpoint bytes_pos (b : bytes) : positive :=
  match b with [] => xH | x :: b => if bool_decide (x = x00) then xO (bytes_pos b) else xI (bytes_pos b) end.
Lemma bytes_pos_bytes p : bytes_pos (pos_bytes p) = p.
Proof. induction p as [p IH|p IH|]; cbn; by rewrite ?IH. Qed.
Definition countable_der (A : Type) `{Countable A} : Der A :=
  {| der_encode a := Some (pos_bytes (encode a)); der_decode b := decode (bytes_pos b) |}.
Lemma countable_der_law (A : Type) `{Countable A} (ok : A -> Prop) : @der_law A (countable_der A) ok.
Proof. intros a _. eexists. split; [reflexivity|]. cbn. by rewrite bytes_pos_bytes, decode_encode. Qed.
Ltac record_countable f g := apply (inj_countable' f g); by intros [].
