(* ===== verification/Text.v ===== *)
(** * Text: the standard library's string functions the code uses

    A Rust [String] is its UTF-8 bytes.  The file defines [str::split],
    [strip_prefix], the integer parsers ([str::parse], [from_str_radix]) and
    printers ([{}] and [{:X}] of unsigned integers), UTF-8 validation
    ([String::from_utf8]) and its lossy form, with their round trips, the ASCII
    case functions, [starts_with], [ends_with] and [find]. *)
From S2P Require Import Prelude Bytes.

(** ** Slicing: [&buf[i..j]] panics out of range. *)
Definition slice {E} (l : bytes) (i j : nat) : Result E bytes :=
  if ((i <=? j) && (j <=? length l))%nat then Ok (take (j - i) (drop i l)) else Panic.

Lemma slice_Ok {E} (l : bytes) i j :
  (i <= j <= length l)%nat -> @slice E l i j = Ok (take (j - i) (drop i l)).
Proof.
  intros. unfold slice. destruct (_ && _) eqn:Hc; [done|].
  apply andb_false_iff in Hc as [Hc|Hc]; apply Nat.leb_gt in Hc; lia.
Qed.

Lemma slice_app {E} (a b c : bytes) i j :
  length a = i -> length b = (j - i)%nat -> (i <= j)%nat -> @slice E (a ++ b ++ c) i j = Ok b.
Proof.
  intros <- Hb Hij. rewrite slice_Ok by len.
  by rewrite drop_app_length, <-Hb, take_app_length.
Qed.

(** ** Iterating a fallible function ([collect::<Result<Vec<_>, _>>]). *)
Fixpoint rmap {E A B} (f : A -> Result E B) (l : list A) : Result E (list B) :=
  match l with
  | [] => Ok []
  | x :: l => let? y := f x in let? ys := rmap f l in Ok (y :: ys)
  end.

Lemma rmap_Ok {E A B} (f : A -> Result E B) (g : A -> B) l :
  (forall x, x ∈ l -> f x = Ok (g x)) -> rmap f l = Ok (g <$> l).
Proof.
  induction l as [|x l IH]; intros H; [done|]. simpl.
  rewrite H by left. simpl. rewrite IH; [done|]. intros; apply H; by right.
Qed.

(** ** [str::split(char)] for a one-byte separator. *)
Fixpoint split_on (sep : byte) (s : bytes) : list bytes :=
  match s with
  | [] => [[]]
  | c :: s =>
      if decide (c = sep) then [] :: split_on sep s
      else match split_on sep s with
           | [] => [[c]]
           | w :: ws => (c :: w) :: ws
           end
  end.

Definition join_with (sep : byte) (ws : list bytes) : bytes :=
  match ws with
  | [] => []
  | w :: ws => w ++ concat (map (fun w => sep :: w) ws)
  end.

Lemma split_on_word sep w : sep ∉ w -> split_on sep w = [w].
Proof.
  induction w as [|c w IH]; intros Hw; [done|]. simpl.
  rewrite decide_False by set_solver. rewrite IH by set_solver. done.
Qed.
Lemma split_on_app sep w s :
  sep ∉ w -> split_on sep (w ++ sep :: s) = w :: split_on sep s.
Proof.
  induction w as [|c w IH]; intros Hw; simpl.
  - by rewrite decide_True.
  - rewrite decide_False by set_solver. rewrite IH by set_solver. done.
Qed.
Lemma split_join sep ws :
  ws <> [] -> Forall (fun w => sep ∉ w) ws -> split_on sep (join_with sep ws) = ws.
Proof.
  intros Hne Hws. destruct Hws as [|w ws Hw Hws]; [done|]. clear Hne. simpl.
  revert w Hw. induction Hws as [|v ws Hv Hws IH]; intros w Hw; simpl.
  - rewrite app_nil_r. by apply split_on_word.
  - rewrite split_on_app by done. f_equal. by apply IH.
Qed.

(** A text of lines, each ended by a line feed. *)
Definition text_line (s : bytes) : bytes := s ++ [x0a].
Definition text_lines (text : bytes) : list bytes := split_on x0a text.
Lemma text_lines_of ls : Forall (fun l => x0a ∉ l) ls -> text_lines (concat (map text_line ls)) = ls ++ [[]].
Proof.
  unfold text_lines. induction 1 as [|l ls Hl _ IH]; [done|]. cbn [map concat]. unfold text_line at 1. rewrite <-app_assoc. cbn [app].
  rewrite split_on_app by done. by rewrite IH.
Qed.

Fixpoint strip_prefix (p s : bytes) : option bytes :=
  match p, s with
  | [], _ => Some s
  | c :: p, d :: s => if decide (c = d) then strip_prefix p s else None
  | _ :: _, [] => None
  end.

(** ** Digits *)

Definition digit_val (b : byte) : option Z :=
  let z := b2z b in
  if (48 <=? z) && (z <=? 57) then Some (z - 48)
  else if (65 <=? z) && (z <=? 90) then Some (z - 55)
  else if (97 <=? z) && (z <=? 122) then Some (z - 87)
  else None.

(** [char::to_digit(radix)]. *)
Definition to_digit (radix : Z) (b : byte) : option Z :=
  match digit_val b with
  | Some d => if d <? radix then Some d else None
  | None => None
  end.

Fixpoint digits_val (radix acc : Z) (s : bytes) : option Z :=
  match s with
  | [] => Some acc
  | b :: s => match to_digit radix b with
              | Some d => digits_val radix (acc * radix + d) s
              | None => None
              end
  end.

(** [uW::from_str_radix]: one leading [+] is accepted, the empty string and a
    lone sign are not, and a value that does not fit is an error. *)
Definition from_str_radix (w radix : Z) (s : bytes) : option Z :=
  let ds := match s with
            | b :: _ :: _ => if decide (b = z2b 43) then drop 1 s else s
            | _ => s
            end in
  match ds with
  | [] => None
  | _ => match digits_val radix 0 ds with
         | Some z => if z <? 2 ^ w then Some z else None
         | None => None
         end
  end.

Lemma digits_val_nonneg radix acc s z :
  0 <= radix -> 0 <= acc -> digits_val radix acc s = Some z -> 0 <= z.
Proof.
  intros Hr. revert acc. induction s as [|b s IH]; intros acc Ha H; simpl in H; [by simplify_eq|].
  destruct (to_digit radix b) as [d|] eqn:Hd; [|done]. apply IH in H; [done|].
  assert (0 <= d); [|nia]. unfold to_digit, digit_val in Hd. pose proof (b2z_range b).
  repeat case_match; simplify_eq; lia.
Qed.
Lemma from_str_radix_range w radix s z :
  0 <= radix -> from_str_radix w radix s = Some z -> is_uint w z.
Proof.
  intros Hr H. unfold from_str_radix in H.
  destruct (match s with b :: _ :: _ => _ | _ => _ end) as [|c ds]; [done|].
  destruct (digits_val radix 0 (c :: ds)) as [v|] eqn:Hv; [|done].
  apply digits_val_nonneg in Hv; [|done..].
  destruct (Z.ltb_spec v (2 ^ w)); simplify_eq. done.
Qed.

(** Printing: [digit_char] is upper case, as [{:X}]. *)
Definition digit_char (d : Z) : byte := z2b (if d <? 10 then 48 + d else 55 + d).
Fixpoint print_digits (fuel : nat) (radix z : Z) : bytes :=
  match fuel with
  | O => []
  | S fuel =>
      if z <? radix then [digit_char z]
      else print_digits fuel radix (z / radix) ++ [digit_char (z mod radix)]
  end.
(** The number of binary digits bounds the number of digits in any radix. *)
Definition print_radix (radix z : Z) : bytes := print_digits (S (Z.to_nat (Z.log2 z))) radix z.
Definition print_dec : Z -> bytes := print_radix 10.
Definition print_hex : Z -> bytes := print_radix 16.

Lemma digit_char_val radix d :
  0 <= d < radix -> radix <= 16 -> to_digit radix (digit_char d) = Some d.
Proof.
  intros Hd Hr. unfold to_digit, digit_val, digit_char. rewrite b2z_z2b.
  destruct (d <? 10) eqn:Hlt.
  - rewrite Z.mod_small by lia. rewrite (proj2 (Z.leb_le 48 _)) by lia.
    rewrite (proj2 (Z.leb_le _ 57)) by lia. cbn -[Z.sub].
    replace (48 + d - 48) with d by lia. case_match; [done|lia].
  - rewrite Z.mod_small by lia.
    rewrite (proj2 (Z.leb_gt _ 57)), andb_false_r by lia.
    rewrite (proj2 (Z.leb_le 65 _)), (proj2 (Z.leb_le _ 90)) by lia. cbn -[Z.sub].
    replace (55 + d - 55) with d by lia. case_match; [done|lia].
Qed.

Lemma digit_char_range radix d :
  0 <= d < radix -> radix <= 16 -> 48 <= b2z (digit_char d) <= 70.
Proof.
  intros. unfold digit_char. rewrite b2z_z2b. case_match; rewrite Z.mod_small; lia.
Qed.

Lemma digits_val_app radix acc s t z :
  digits_val radix acc s = Some z -> digits_val radix acc (s ++ t) = digits_val radix z t.
Proof.
  revert acc. induction s as [|b s IH]; simpl; intros acc H; [by simplify_eq|].
  case_match; [auto|done].
Qed.

Section print.
Context (radix : Z) (Hradix : 2 <= radix <= 16).

Lemma print_digits_val fuel z :
  0 <= z < 2 ^ Z.of_nat fuel -> digits_val radix 0 (print_digits fuel radix z) = Some z.
Proof.
  revert z. induction fuel as [|fuel IH]; intros z Hz.
  { simpl in Hz. replace z with 0 by lia. done. }
  simpl. case_match.
  - simpl. rewrite digit_char_val by lia. done.
  - rewrite Nat2Z.inj_succ, Z.pow_succ_r in Hz by lia.
    pose proof (Z.div_mod z radix). pose proof (Z.mod_pos_bound z radix).
    assert (0 < 2 ^ Z.of_nat fuel) by (apply Z.pow_pos_nonneg; lia).
    erewrite digits_val_app.
    2:{ apply IH. split; [apply Z.div_pos; lia|]. apply Z.div_lt_upper_bound; nia. }
    simpl. rewrite digit_char_val by lia. f_equal. lia.
Qed.

Lemma print_digits_Forall fuel z :
  0 <= z -> Forall (fun b => 48 <= b2z b <= 70) (print_digits fuel radix z).
Proof.
  revert z. induction fuel as [|fuel IH]; intros z Hz; simpl; [done|].
  case_match.
  - apply Forall_singleton, (digit_char_range radix); lia.
  - apply Forall_app. split; [apply IH, Z.div_pos; lia|].
    pose proof (Z.mod_pos_bound z radix).
    apply Forall_singleton, (digit_char_range radix); lia.
Qed.

Lemma print_radix_nonempty z : print_radix radix z <> [].
Proof. unfold print_radix. simpl. case_match; [done|]. by destruct (print_digits _ _ _). Qed.

Lemma print_radix_chars z : 0 <= z -> Forall (fun b => 48 <= b2z b <= 70) (print_radix radix z).
Proof. apply print_digits_Forall. Qed.

(** Parsing what was printed gives the number back. *)
Lemma from_str_print w z :
  is_uint w z -> from_str_radix w radix (print_radix radix z) = Some z.
Proof.
  intros [Hz Hw]. unfold from_str_radix.
  pose proof (print_radix_chars z Hz) as Hc.
  assert (digits_val radix 0 (print_radix radix z) = Some z) as Hd.
  { apply print_digits_val. rewrite Nat2Z.inj_succ, Z2Nat.id by apply Z.log2_nonneg.
    destruct (Z.eq_dec z 0) as [->|]; [simpl; lia|]. split; [done|].
    apply Z.log2_spec. lia. }
  pose proof (print_radix_nonempty z) as Hne.
  destruct (print_radix radix z) as [|b s]; [done|].
  replace (match s with [] => b :: s | _ :: _ => _ end) with (b :: s).
  2:{ destruct s; [done|]. rewrite decide_False; [done|]. intros ->.
      apply Forall_cons in Hc as [Hc _]. rewrite b2z_z2b in Hc.
      change (43 mod 256) with 43 in Hc. lia. }
  rewrite Hd. rewrite (proj2 (Z.ltb_lt _ _)) by done. done.
Qed.
End print.

(** ** UTF-8 *)

(** The outcome of decoding at the head of a byte string: a well-formed
    character of [n] bytes, or an ill-formed prefix of [n] bytes (the maximal
    subpart the lossy decoder replaces by one U+FFFD). *)
Inductive Utf8Step :=
| Utf8Char (n : nat)
| Utf8Bad (n : nat).

Definition between (lo hi : Z) (b : byte) : bool := (lo <=? b2z b) && (b2z b <=? hi).
Definition utf8_cont (l : bytes) (i : nat) : bool :=
  match l !! i with Some b => between 128 191 b | None => false end.
Definition utf8_second (lo hi : Z) (l : bytes) : bool :=
  match l !! 1%nat with Some b => between lo hi b | None => false end.

Definition utf8_step3 (lo hi : Z) (l : bytes) : Utf8Step :=
  if negb (utf8_second lo hi l) then Utf8Bad 1
  else if negb (utf8_cont l 2) then Utf8Bad 2 else Utf8Char 3.
Definition utf8_step4 (lo hi : Z) (l : bytes) : Utf8Step :=
  if negb (utf8_second lo hi l) then Utf8Bad 1
  else if negb (utf8_cont l 2) then Utf8Bad 2
  else if negb (utf8_cont l 3) then Utf8Bad 3 else Utf8Char 4.

Definition utf8_step (b : byte) (l : bytes) : Utf8Step :=
  let z := b2z b in
  if z <? 128 then Utf8Char 1
  else if z <? 194 then Utf8Bad 1
  else if z <? 224 then (if utf8_cont l 1 then Utf8Char 2 else Utf8Bad 1)
  else if z =? 224 then utf8_step3 160 191 l
  else if z =? 237 then utf8_step3 128 159 l
  else if z <? 240 then utf8_step3 128 191 l
  else if z =? 240 then utf8_step4 144 191 l
  else if z <? 244 then utf8_step4 128 191 l
  else if z =? 244 then utf8_step4 128 143 l
  else Utf8Bad 1.

Fixpoint utf8_valid_fuel (fuel : nat) (l : bytes) : bool :=
  match fuel, l with
  | _, [] => true
  | O, _ => false
  | S fuel, b :: _ =>
      match utf8_step b l with
      | Utf8Char n => utf8_valid_fuel fuel (drop n l)
      | Utf8Bad _ => false
      end
  end.
(** [str::from_utf8(l).is_ok()]: each step consumes a byte, so the length is
    enough fuel. *)
Definition utf8_valid (l : bytes) : bool := utf8_valid_fuel (length l) l.

(** U+FFFD. *)
Definition replacement : bytes := [xef; xbf; xbd].

Fixpoint from_utf8_lossy_fuel (fuel : nat) (l : bytes) : bytes :=
  match fuel, l with
  | _, [] => []
  | O, _ => []
  | S fuel, b :: _ =>
      match utf8_step b l with
      | Utf8Char n => take n l ++ from_utf8_lossy_fuel fuel (drop n l)
      | Utf8Bad n => replacement ++ from_utf8_lossy_fuel fuel (drop n l)
      end
  end.
(** [String::from_utf8_lossy]. *)
Definition from_utf8_lossy (l : bytes) : bytes := from_utf8_lossy_fuel (length l) l.

(** [String::from_utf8]. *)
Definition from_utf8 (l : bytes) : option bytes := if utf8_valid l then Some l else None.

Lemma utf8_valid_lossy_fuel fuel l :
  utf8_valid_fuel fuel l = true -> from_utf8_lossy_fuel fuel l = l.
Proof.
  revert l. induction fuel as [|fuel IH]; intros [|b l] H; try done. simpl in *.
  destruct (utf8_step b (b :: l)) as [n|n]; [|done]. rewrite IH by done. apply take_drop.
Qed.
(** Lossy decoding is the identity on well-formed text. *)
Lemma from_utf8_lossy_id l : utf8_valid l = true -> from_utf8_lossy l = l.
Proof. apply utf8_valid_lossy_fuel. Qed.
Lemma from_utf8_Some l : utf8_valid l = true -> from_utf8 l = Some l.
Proof. unfold from_utf8. by intros ->. Qed.

(** ASCII text is well-formed. *)
Lemma utf8_valid_ascii l : Forall (fun b => b2z b < 128) l -> utf8_valid l = true.
Proof.
  unfold utf8_valid. induction 1 as [|b l Hb Hl IH]; [done|].
  cbn [length utf8_valid_fuel]. unfold utf8_step.
  rewrite (proj2 (Z.ltb_lt _ _)) by done. done.
Qed.

(** ** Case and substrings *)

Definition ascii_lower (b : byte) : byte :=
  if (65 <=? b2z b) && (b2z b <=? 90) then z2b (b2z b + 32) else b.
Definition to_ascii_lowercase (s : bytes) : bytes := map ascii_lower s.
Definition eq_ignore_ascii_case (a b : bytes) : bool :=
  bool_decide (to_ascii_lowercase a = to_ascii_lowercase b).
Definition starts_with (s p : bytes) : bool :=
  match strip_prefix p s with Some _ => true | None => false end.
Definition ends_with (s p : bytes) : bool := starts_with (rev s) (rev p).
(** [str::find]: the offset of the first occurrence. *)
Fixpoint find_sub (s p : bytes) : option nat :=
  if starts_with s p then Some 0%nat
  else match s with [] => None | _ :: s => option_map S (find_sub s p) end.
(** [str::rfind] of an ASCII character. *)
Fixpoint rfind (c : byte) (s : bytes) : option nat :=
  match s with
  | [] => None
  | b :: s => match rfind c s with Some i => Some (S i) | None => if bool_decide (b = c) then Some 0%nat else None end
  end.
Definition contains_byte (s : bytes) (b : byte) : bool := bool_decide (b ∈ s).

Lemma starts_with_iff s p : starts_with s p = true <-> exists r, s = p ++ r.
Proof.
  unfold starts_with. revert s. induction p as [|b p IH]; intros s; cbn [strip_prefix app]; [split; [eauto|done]|].
  destruct s as [|c s]; [split; [done|by intros [r [=]]]|]. case_decide as E.
  - subst. rewrite IH. split; intros [r H]; exists r; congruence.
  - split; [done|]. intros [r [= ? _]]. congruence.
Qed.
Lemma ends_with_iff s p : ends_with s p = true <-> exists x, s = x ++ p.
Proof.
  unfold ends_with. rewrite starts_with_iff. split; intros [x H].
  - exists (rev x). apply (f_equal (@rev byte)) in H. by rewrite rev_involutive, rev_app_distr, rev_involutive in H.
  - exists (rev x). by rewrite H, rev_app_distr.
Qed.
Lemma rfind_none c s : c ∉ s -> rfind c s = None.
Proof. induction s as [|b s IH]; intros Hs; cbn [rfind]; [done|]. apply not_elem_of_cons in Hs as [Hb Hs]. rewrite IH by done. by rewrite bool_decide_false. Qed.
Lemma rfind_app c p s : c ∉ s -> rfind c (p ++ c :: s) = Some (length p).
Proof.
  intros Hs. induction p as [|b p IH]; cbn [app rfind length]; [rewrite (rfind_none c s Hs); by rewrite bool_decide_eq_true_2|]. by rewrite IH.
Qed.
(** The last occurrence splits the text. *)
Lemma rfind_split c s : match rfind c s with
                        | Some i => exists p r, s = p ++ c :: r /\ c ∉ r /\ length p = i
                        | None => c ∉ s
                        end.
Proof.
  induction s as [|b s IH]; cbn [rfind]; [by apply not_elem_of_nil|]. destruct (rfind c s) as [i|].
  - destruct IH as (p & r & -> & Hr & <-). by exists (b :: p), r.
  - case_bool_decide as E; [subst; by exists [], s|]. apply not_elem_of_cons. by split; [congruence|].
Qed.
