(* ===== verification/SidModel.v ===== *)
(** * SidModel: security identifiers (crate [adrian-sid])

    The [Sid] record, its constructors and classifiers, the MS-DTYP binary
    form ([Sid::to_bytes], [Sid::from_bytes]) and the SDDL string form
    ([Display], [FromStr]).  [sid_wf] is what the Rust types and
    [Sid::new] guarantee: a 6-byte authority and at most 15 [u32]
    sub-authorities. *)
From S2P Require Import Prelude Bytes Text.

Definition MAX_SUB_AUTHORITIES : nat := 15.
Definition SID_REVISION : Z := 1.
Definition SID_BINARY_HEADER_LEN : nat := 8.
Definition MAX_DECIMAL_AUTHORITY : Z := u32_MAX.

(** Identifier authorities (arrays of six bytes). *)
Definition SECURITY_NULL_SID_AUTHORITY : bytes := [x00; x00; x00; x00; x00; x00].
Definition SECURITY_WORLD_SID_AUTHORITY : bytes := [x00; x00; x00; x00; x00; x01].
Definition SECURITY_LOCAL_SID_AUTHORITY : bytes := [x00; x00; x00; x00; x00; x02].
Definition SECURITY_CREATOR_SID_AUTHORITY : bytes := [x00; x00; x00; x00; x00; x03].
Definition SECURITY_NT_AUTHORITY : bytes := [x00; x00; x00; x00; x00; x05].

Definition DOMAIN_SID_MARKER : Z := 21.
Definition BUILTIN_DOMAIN_MARKER : Z := 32.
Definition BUILTIN_RID_ADMINS : Z := 544.
Definition BUILTIN_RID_USERS : Z := 545.
Definition BUILTIN_RID_GUESTS : Z := 546.
Definition SECURITY_ANONYMOUS_LOGON_RID : Z := 7.
Definition SECURITY_AUTHENTICATED_USER_RID : Z := 11.
Definition SECURITY_LOCAL_SYSTEM_RID : Z := 18.
Definition SECURITY_LOCAL_SERVICE_RID : Z := 19.
Definition SECURITY_NETWORK_SERVICE_RID : Z := 20.

Record Sid := mkSid {
  identifier_authority : bytes;
  sub_authorities : list Z;
}.

Inductive SidError :=
| Truncated
| TrailingBytes (n : nat)
| UnsupportedRevision (r : Z)
| TooManySubAuthorities (n : nat)
| InvalidString (s : bytes).

#[global] Instance Sid_eq_dec : EqDecision Sid.
Proof. solve_decision. Defined.
#[global] Instance SidError_eq_dec : EqDecision SidError.
Proof. solve_decision. Defined.
#[global] Instance Sid_countable : Countable Sid.
Proof.
  apply (inj_countable' (fun s => (identifier_authority s, sub_authorities s))
           (fun p => mkSid p.1 p.2)).
  by intros [].
Defined.

Definition sid_wf (s : Sid) : Prop :=
  length (identifier_authority s) = 6%nat /\
  (length (sub_authorities s) <= MAX_SUB_AUTHORITIES)%nat /\
  Forall (is_u32) (sub_authorities s).
#[global] Instance sid_wf_dec s : Decision (sid_wf s).
Proof. unfold sid_wf; apply _. Defined.

Definition Sid_new (identifier_authority : bytes) (sub_authorities : list Z) : Result SidError Sid :=
  if (MAX_SUB_AUTHORITIES <? length sub_authorities)%nat
  then Err (TooManySubAuthorities (length sub_authorities))
  else Ok (mkSid identifier_authority sub_authorities).

Definition Sid_new_unchecked (identifier_authority : bytes) (sub_authorities : list Z) : Sid :=
  mkSid identifier_authority sub_authorities.

Definition sub_authority_count (s : Sid) : nat := length (sub_authorities s).

Definition authority_value (s : Sid) : Z := of_be ([x00; x00] ++ identifier_authority s).

Definition rid (s : Sid) : option Z := last (sub_authorities s).

Definition domain_sid (s : Sid) : option Sid :=
  if (length (sub_authorities s) <? 2)%nat then None
  else Some (Sid_new_unchecked (identifier_authority s)
               (take (length (sub_authorities s) - 1) (sub_authorities s))).

Definition Sid_to_bytes (s : Sid) : Result SidError bytes :=
  if (MAX_SUB_AUTHORITIES <? length (sub_authorities s))%nat
  then Err (TooManySubAuthorities (length (sub_authorities s)))
  else
    let count := as_u8 (Z.of_nat (length (sub_authorities s))) in
    Ok ([z2b SID_REVISION] ++ [z2b count] ++ identifier_authority s
        ++ concat (map (to_le 4) (sub_authorities s))).

(** One iteration of the sub-authority loop: [buf[off..off + 4]]. *)
Definition read_sub_authority (buf : bytes) (i : nat) : Result SidError Z :=
  let off := (8 + 4 * i)%nat in
  let? four := slice buf off (off + 4) in
  Ok (of_le four).

Definition Sid_from_bytes (buf : bytes) : Result SidError Sid :=
  if (length buf <? SID_BINARY_HEADER_LEN)%nat then Err Truncated
  else
    let? revision := slice buf 0 1 in
    if negb (of_be revision =? SID_REVISION)
    then Err (UnsupportedRevision (of_be revision))
    else
      let? count_byte := slice buf 1 2 in
      let count := Z.to_nat (of_be count_byte) in
      if (MAX_SUB_AUTHORITIES <? count)%nat then Err (TooManySubAuthorities count)
      else
        let expected_len := (SID_BINARY_HEADER_LEN + 4 * count)%nat in
        if (length buf <? expected_len)%nat then Err Truncated
        else if (expected_len <? length buf)%nat
        then Err (TrailingBytes (length buf - expected_len))
        else
          let? authority := slice buf 2 8 in
          let? subs := rmap (read_sub_authority buf) (seq 0 count) in
          Ok (mkSid authority subs).

(** ** Well-known SIDs *)
Definition null_sid : Sid := Sid_new_unchecked SECURITY_NULL_SID_AUTHORITY [0].
Definition everyone : Sid := Sid_new_unchecked SECURITY_WORLD_SID_AUTHORITY [0].
Definition local : Sid := Sid_new_unchecked SECURITY_LOCAL_SID_AUTHORITY [0].
Definition creator_owner : Sid := Sid_new_unchecked SECURITY_CREATOR_SID_AUTHORITY [0].
Definition anonymous_logon : Sid :=
  Sid_new_unchecked SECURITY_NT_AUTHORITY [SECURITY_ANONYMOUS_LOGON_RID].
Definition authenticated_users : Sid :=
  Sid_new_unchecked SECURITY_NT_AUTHORITY [SECURITY_AUTHENTICATED_USER_RID].
Definition local_system : Sid :=
  Sid_new_unchecked SECURITY_NT_AUTHORITY [SECURITY_LOCAL_SYSTEM_RID].
Definition local_service : Sid :=
  Sid_new_unchecked SECURITY_NT_AUTHORITY [SECURITY_LOCAL_SERVICE_RID].
Definition network_service : Sid :=
  Sid_new_unchecked SECURITY_NT_AUTHORITY [SECURITY_NETWORK_SERVICE_RID].
Definition builtin_administrators : Sid :=
  Sid_new_unchecked SECURITY_NT_AUTHORITY [BUILTIN_DOMAIN_MARKER; BUILTIN_RID_ADMINS].
Definition builtin_users : Sid :=
  Sid_new_unchecked SECURITY_NT_AUTHORITY [BUILTIN_DOMAIN_MARKER; BUILTIN_RID_USERS].
Definition builtin_guests : Sid :=
  Sid_new_unchecked SECURITY_NT_AUTHORITY [BUILTIN_DOMAIN_MARKER; BUILTIN_RID_GUESTS].

(** ** Classification *)
Definition is_nt_authority (s : Sid) : bool :=
  bool_decide (identifier_authority s = SECURITY_NT_AUTHORITY).
Definition is_builtin (s : Sid) : bool :=
  is_nt_authority s && bool_decide (head (sub_authorities s) = Some BUILTIN_DOMAIN_MARKER).
Definition is_domain_sid (s : Sid) : bool :=
  is_nt_authority s && (length (sub_authorities s) =? 4)%nat
  && bool_decide (sub_authorities s !! 0%nat = Some DOMAIN_SID_MARKER).
Definition is_domain_account_sid (s : Sid) : bool :=
  is_nt_authority s && (length (sub_authorities s) =? 5)%nat
  && bool_decide (sub_authorities s !! 0%nat = Some DOMAIN_SID_MARKER).
Definition is_well_known_singleton (s : Sid) : bool :=
  negb (is_domain_sid s) && negb (is_domain_account_sid s) && negb (is_builtin s)
  && (length (sub_authorities s) <=? 1)%nat.

(** ** SDDL string form *)
Definition dash : byte := z2b 45.

(** [Display::fmt]. *)
Definition Sid_fmt (s : Sid) : bytes :=
  let auth := authority_value s in
  lit "S-" ++ print_dec SID_REVISION
  ++ (if auth <=? MAX_DECIMAL_AUTHORITY then lit "-" ++ print_dec auth
      else lit "-0x" ++ print_hex auth)
  ++ concat (map (fun sa => lit "-" ++ print_dec sa) (sub_authorities s)).

Definition parse_authority (s auth_str : bytes) : Result SidError Z :=
  match (match strip_prefix (lit "0x") auth_str with
         | Some h => Some h
         | None => strip_prefix (lit "0X") auth_str
         end) with
  | Some hex_str => ok_or (from_str_radix 64 16 hex_str) (InvalidString s)
  | None => ok_or (from_str_radix 64 10 auth_str) (InvalidString s)
  end.

(** [FromStr::from_str]. *)
Definition Sid_from_str (s : bytes) : Result SidError Sid :=
  match split_on dash s with
  | p0 :: p1 :: p2 :: rest =>
      if negb (bool_decide (p0 = lit "S")) then Err (InvalidString s)
      else
        let? revision := ok_or (from_str_radix 8 10 p1) (InvalidString s) in
        if negb (revision =? SID_REVISION) then Err (UnsupportedRevision revision)
        else
          let? auth := parse_authority s p2 in
          if 2 ^ 48 - 1 <? auth then Err (InvalidString s)
          else
            let? subs := rmap (fun p => ok_or (from_str_radix 32 10 p) (InvalidString s)) rest in
            if (MAX_SUB_AUTHORITIES <? length subs)%nat
            then Err (TooManySubAuthorities (length subs))
            else Ok (mkSid (drop 2 (to_be 8 auth)) subs)
  | _ => Err (InvalidString s)
  end.

(** [TryFrom<&[u8]>]. *)
Definition Sid_try_from (buf : bytes) : Result SidError Sid := Sid_from_bytes buf.

(** ** Lemmas: the binary form *)

Abbreviation subs_bytes subs := (concat (map (to_le 4) subs)).

Lemma length_subs_bytes (subs : list Z) : length (subs_bytes subs) = (4 * length subs)%nat.
Proof.
  induction subs as [|z l IH]; [done|].
  cbn [map concat length]. rewrite length_app, IH, length_to_le. lia.
Qed.
#[export] Hint Rewrite length_subs_bytes : len.

(** Every [4 n]-byte string is the encoding of [n] sub-authorities. *)
Lemma subs_bytes_surj n (l : bytes) :
  length l = (4 * n)%nat ->
  exists subs, length subs = n /\ Forall is_u32 subs /\ l = subs_bytes subs.
Proof.
  revert l. induction n as [|n IH]; intros l Hl.
  { exists []. destruct l; [done|]. simpl in Hl; lia. }
  destruct (IH (drop 4 l)) as (subs & Hn & Hf & Hs); [len|].
  exists (of_le (take 4 l) :: subs). split_and!; [simpl; lia| |].
  - constructor; [|done]. pose proof (of_le_range (take 4 l)) as Hr.
    rewrite length_take in Hr. replace (4 `min` length l)%nat with 4%nat in Hr by lia.
    cbn in Hr. uint.
  - cbn [map concat]. rewrite to_of_le by len. rewrite <-Hs. symmetry. apply take_drop.
Qed.

(** Reading back the sub-authorities after an eight-byte header. *)
Lemma read_subs hdr subs (i : nat) :
  length hdr = (8 + 4 * i)%nat -> Forall is_u32 subs ->
  rmap (read_sub_authority (hdr ++ subs_bytes subs)) (seq i (length subs)) = Ok subs.
Proof.
  intros Hh Hf. revert hdr i Hh. induction Hf as [|z subs Hz Hf IH]; intros hdr i Hh; [done|].
  cbn [length seq rmap map concat]. unfold read_sub_authority at 1.
  rewrite (slice_app hdr (to_le 4 z)) by len. cbn [rbind].
  rewrite of_to_le_u32 by done.
  rewrite app_assoc, (IH (hdr ++ to_le 4 z) (S i)) by len. done.
Qed.

Lemma Sid_to_bytes_wf s :
  sid_wf s ->
  Sid_to_bytes s = Ok ([z2b SID_REVISION] ++ [z2b (Z.of_nat (length (sub_authorities s)))]
                       ++ identifier_authority s ++ subs_bytes (sub_authorities s)).
Proof.
  intros (Ha & Hn & Hf). unfold Sid_to_bytes, MAX_SUB_AUTHORITIES in *.
  rewrite (proj2 (Nat.ltb_ge _ _)) by lia.
  rewrite as_uint_id by (uint; lia). done.
Qed.

Lemma b2z_small z : 0 <= z < 256 -> of_be [z2b z] = z.
Proof. intros. unfold of_be. simpl. rewrite b2z_z2b, Z.mod_small; lia. Qed.

(** [from_bytes] on a well-formed header followed by any bytes. *)
Lemma Sid_from_bytes_header (n : nat) auth rest :
  (n <= MAX_SUB_AUTHORITIES)%nat -> length auth = 6%nat ->
  Sid_from_bytes ([z2b SID_REVISION] ++ [z2b (Z.of_nat n)] ++ auth ++ rest) =
  if (length rest <? 4 * n)%nat then Err Truncated
  else if (4 * n <? length rest)%nat then Err (TrailingBytes (length rest - 4 * n))
  else rbind (rmap (read_sub_authority
                      ([z2b SID_REVISION] ++ [z2b (Z.of_nat n)] ++ auth ++ rest)) (seq 0 n))
             (fun subs => Ok (mkSid auth subs)).
Proof.
  unfold MAX_SUB_AUTHORITIES. intros Hn Ha. unfold Sid_from_bytes, SID_BINARY_HEADER_LEN.
  set (buf := _ ++ _). assert (length buf = (8 + length rest)%nat) as Hl.
  { subst buf. len. }
  rewrite (proj2 (Nat.ltb_ge _ _)) by lia.
  assert (slice (E:=SidError) buf 0 1 = Ok [z2b SID_REVISION]) as ->.
  { apply (slice_app [] [z2b SID_REVISION] ([z2b (Z.of_nat n)] ++ auth ++ rest)); simpl; lia. }
  assert (slice (E:=SidError) buf 1 2 = Ok [z2b (Z.of_nat n)]) as ->.
  { apply (slice_app [z2b SID_REVISION] [z2b (Z.of_nat n)] (auth ++ rest)); simpl; lia. }
  assert (slice (E:=SidError) buf 2 8 = Ok auth) as ->.
  { apply (slice_app [z2b SID_REVISION; z2b (Z.of_nat n)] auth rest); simpl; lia. }
  cbn [rbind]. rewrite !b2z_small by (unfold SID_REVISION; lia). simpl negb. cbv iota.
  rewrite Nat2Z.id. rewrite (proj2 (Nat.ltb_ge MAX_SUB_AUTHORITIES n)) by (unfold MAX_SUB_AUTHORITIES; lia).
  rewrite Hl. replace (8 + length rest - (8 + 4 * n))%nat with (length rest - 4 * n)%nat by lia.
  done.
Qed.

Lemma Sid_from_bytes_encoded auth subs :
  length auth = 6%nat -> (length subs <= MAX_SUB_AUTHORITIES)%nat -> Forall is_u32 subs ->
  Sid_from_bytes ([z2b SID_REVISION] ++ [z2b (Z.of_nat (length subs))] ++ auth ++ subs_bytes subs)
  = Ok (mkSid auth subs).
Proof.
  intros Ha Hn Hf. rewrite Sid_from_bytes_header by done.
  rewrite length_subs_bytes, Nat.ltb_irrefl.
  change (?a ++ ?b ++ ?c ++ ?d) with ((a ++ b ++ c) ++ d).
  rewrite read_subs by (done || len). done.
Qed.

(** The shape of every buffer that [from_bytes] does not reject at its header. *)
Lemma Sid_buffer_shape (buf : bytes) :
  (length buf < 8)%nat \/ exists r c (auth rest : bytes),
    buf = [r] ++ [c] ++ auth ++ rest /\ length auth = 6%nat.
Proof.
  destruct (Nat.lt_ge_cases (length buf) 8); [by left|right].
  destruct buf as [|r [|c l]]; simpl in *; try lia.
  exists r, c, (take 6 l), (drop 6 l). split; [|len].
  simpl. by rewrite take_drop.
Qed.

(** A byte equal to a count or revision is that number's encoding. *)
Lemma byte_of_be c z : of_be [c] = z -> c = z2b z.
Proof. unfold of_be. simpl. intros <-. by rewrite Z.add_0_r, z2b_b2z. Qed.

Lemma Sid_from_bytes_inv buf s :
  Sid_from_bytes buf = Ok s ->
  sid_wf s /\ buf = [z2b SID_REVISION] ++ [z2b (Z.of_nat (length (sub_authorities s)))]
                    ++ identifier_authority s ++ subs_bytes (sub_authorities s).
Proof.
  intros H. destruct (Sid_buffer_shape buf) as [Hs|(r & c & auth & rest & -> & Ha)].
  { unfold Sid_from_bytes, SID_BINARY_HEADER_LEN in H. by rewrite (proj2 (Nat.ltb_lt _ _)) in H. }
  assert (of_be [r] = SID_REVISION /\ (Z.to_nat (of_be [c]) <= MAX_SUB_AUTHORITIES)%nat) as [Hr Hc].
  { unfold Sid_from_bytes in H. case_match; [done|]. cbn [slice] in H.
    rewrite (slice_app [] [r] ([c] ++ auth ++ rest)) in H by (simpl; lia). cbn [rbind] in H.
    destruct (Z.eqb_spec (of_be [r]) SID_REVISION) as [E|]; [|done]. split; [done|].
    simpl negb in H. cbv iota in H.
    rewrite (slice_app [r] [c] (auth ++ rest)) in H by (simpl; lia). cbn [rbind] in H.
    by destruct (Nat.ltb_spec MAX_SUB_AUTHORITIES (Z.to_nat (of_be [c]))). }
  apply byte_of_be in Hr as ->. pose proof (of_be_range [c]) as Hcr.
  set (n := Z.to_nat (of_be [c])) in *.
  assert (c = z2b (Z.of_nat n)) as Hcn by (apply byte_of_be; lia).
  clearbody n. subst c.
  rewrite Sid_from_bytes_header in H by done.
  destruct (Nat.ltb_spec (length rest) (4 * n)); [done|].
  destruct (Nat.ltb_spec (4 * n) (length rest)); [done|].
  destruct (subs_bytes_surj n rest) as (subs & Hn & Hf & ->); [lia|]. subst n.
  change (?a ++ ?b ++ ?c ++ ?d) with ((a ++ b ++ c) ++ d) in H.
  rewrite read_subs in H by (done || len). injection H as <-. done.
Qed.

(** Proper extensions of a well-formed encoding are rejected. *)
Lemma Sid_from_bytes_app s b extra :
  Sid_from_bytes b = Ok s -> extra <> [] ->
  Sid_from_bytes (b ++ extra) = Err (TrailingBytes (length extra)).
Proof.
  intros (Hw & ->)%Sid_from_bytes_inv Hne. destruct Hw as (Ha & Hn & Hf).
  rewrite <-!app_assoc, Sid_from_bytes_header by done.
  assert (length extra <> 0)%nat by (by destruct extra).
  rewrite length_app, length_subs_bytes.
  rewrite (proj2 (Nat.ltb_ge _ _)), (proj2 (Nat.ltb_lt _ _)) by lia.
  do 2 f_equal. lia.
Qed.

(** The encodings of distinct SIDs are never prefixes of one another. *)
Lemma Sid_to_bytes_prefix_free a b ba bb x y :
  sid_wf a -> sid_wf b -> Sid_to_bytes a = Ok ba -> Sid_to_bytes b = Ok bb ->
  ba ++ x = bb ++ y -> a = b.
Proof.
  intros Hwa Hwb. rewrite !Sid_to_bytes_wf by done. intros [= <-] [= <-].
  destruct a as [aa sa], b as [ab sb], Hwa as (Ha & Hna & Hfa), Hwb as (Hb & Hnb & Hfb).
  unfold MAX_SUB_AUTHORITIES in *. cbn [identifier_authority sub_authorities] in *.
  cbn [app]. intros [= Hn H]. apply (f_equal b2z) in Hn.
  rewrite !b2z_z2b, !Z.mod_small in Hn by lia. apply Nat2Z.inj in Hn.
  rewrite <-!app_assoc in H. apply app_split in H as [-> H]; [|lia].
  f_equal. clear Ha Hb Hna Hnb.
  revert sb Hn Hfb H. induction Hfa as [|z sa Hz Hfa IH]; intros [|z' sb] Hn Hfb H; try done.
  apply Forall_cons in Hfb as [Hz' Hfb]. cbn [map concat] in H. rewrite <-!app_assoc in H.
  apply app_split in H as [E H]; [|by rewrite !length_to_le].
  apply (f_equal of_le) in E. rewrite !of_to_le_u32 in E by done. subst.
  f_equal. apply IH; auto.
Qed.

(** ** Lemmas: the string form *)

(** The binary form of a well-formed SID. *)
Definition sid_enc (s : Sid) : bytes :=
  [z2b SID_REVISION] ++ [z2b (Z.of_nat (length (sub_authorities s)))]
    ++ identifier_authority s ++ subs_bytes (sub_authorities s).
#[global] Arguments sid_enc : simpl never.

Lemma Sid_to_bytes_enc s : sid_wf s -> Sid_to_bytes s = Ok (sid_enc s).
Proof. intros H. by rewrite Sid_to_bytes_wf. Qed.
Lemma Sid_from_bytes_enc s : sid_wf s -> Sid_from_bytes (sid_enc s) = Ok s.
Proof. destruct s as [auth subs]. intros (? & ? & ?). by apply Sid_from_bytes_encoded. Qed.
Lemma sid_enc_prefix_free a b x y :
  sid_wf a -> sid_wf b -> sid_enc a ++ x = sid_enc b ++ y -> a = b /\ x = y.
Proof.
  intros Ha Hb E. assert (a = b) as ->.
  { by apply (Sid_to_bytes_prefix_free a b (sid_enc a) (sid_enc b) x y); [| |apply Sid_to_bytes_wf..|]. }
  split; [done|]. by apply app_inv_head in E.
Qed.

Lemma authority_value_be s :
  length (identifier_authority s) = 6%nat ->
  authority_value s = of_be (identifier_authority s) /\ is_uint 48 (authority_value s).
Proof.
  intros Ha. assert (authority_value s = of_be (identifier_authority s)) as E.
  { unfold authority_value, of_be. rewrite rev_app_distr.
    change (rev [x00; x00]) with [x00; x00]. generalize (rev (identifier_authority s)).
    induction l as [|b l IH]; cbn [of_le app]; [done|]. by rewrite IH. }
  split; [done|]. rewrite E. pose proof (of_be_range (identifier_authority s)) as Hr.
  by rewrite Ha in Hr.
Qed.

Lemma drop_to_be_authority l : length l = 6%nat -> drop 2 (to_be 8 (of_be l)) = l.
Proof.
  intros Hl. rewrite (to_be_cons 7), (to_be_cons 6). cbn [drop]. by apply to_of_be.
Qed.

Lemma dash_not_printed radix z :
  2 <= radix <= 16 -> 0 <= z -> dash ∉ print_radix radix z.
Proof.
  intros Hr Hz Hin. pose proof (print_radix_chars radix Hr z Hz) as Hf.
  rewrite Forall_forall in Hf. apply Hf in Hin. unfold dash in Hin.
  rewrite b2z_z2b in Hin. change (45 mod 256) with 45 in Hin. lia.
Qed.

(** The text of the authority component. *)
Definition authority_text (auth : Z) : bytes :=
  if auth <=? MAX_DECIMAL_AUTHORITY then print_dec auth else lit "0x" ++ print_hex auth.

Lemma Sid_fmt_join s :
  Sid_fmt s = join_with dash (lit "S" :: print_dec SID_REVISION
                :: authority_text (authority_value s) :: map print_dec (sub_authorities s)).
Proof.
  unfold Sid_fmt, authority_text, join_with. cbn [map concat].
  change (lit "S-") with (lit "S" ++ [dash]). change (lit "-0x") with (dash :: lit "0x").
  change (lit "-") with [dash].
  rewrite <-!app_assoc. f_equal. cbn [app]. do 2 f_equal.
  rewrite map_map. case_match; cbn [app]; by rewrite <-?app_assoc.
Qed.

(** A decimal numeral is not taken for a hexadecimal one. *)
Lemma print_dec_not_hex p z :
  0 <= z -> p = lit "0x" \/ p = lit "0X" -> strip_prefix p (print_dec z) = None.
Proof.
  intros Hz Hp. pose proof (print_radix_chars 10 ltac:(lia) z Hz) as Hf. fold print_dec in Hf.
  destruct (print_dec z) as [|b0 [|b1 l]]; [by destruct Hp as [-> | ->]| |].
  - destruct Hp as [-> | ->]; simpl; case_decide; done.
  - apply Forall_cons in Hf as [_ Hf]. apply Forall_cons in Hf as [Hb _].
    destruct Hp as [-> | ->]; simpl; case_decide; try done; case_decide; try done;
      subst b1; cbv in Hb; destruct Hb as [_ Hb]; by destruct Hb.
Qed.

Lemma parse_authority_text s auth :
  is_uint 48 auth -> parse_authority s (authority_text auth) = Ok auth.
Proof.
  intros Ha. assert (is_u64 auth) by (uint; lia).
  unfold parse_authority, authority_text. destruct (Z.leb_spec auth MAX_DECIMAL_AUTHORITY).
  - rewrite !print_dec_not_hex by (auto; uint). unfold print_dec.
    by rewrite (from_str_print 10) by (done || lia).
  - change (strip_prefix (lit "0x") (lit "0x" ++ ?h)) with (Some h). unfold print_hex.
    by rewrite (from_str_print 16) by (done || lia).
Qed.

Lemma authority_text_no_dash auth : 0 <= auth -> dash ∉ authority_text auth.
Proof.
  intros. unfold authority_text. case_match.
  - apply dash_not_printed; lia.
  - rewrite not_elem_of_app. split; [|apply dash_not_printed; lia].
    unfold lit, dash. by apply (bool_decide_unpack _).
Qed.

Lemma Sid_from_str_fmt s : sid_wf s -> Sid_from_str (Sid_fmt s) = Ok s.
Proof.
  intros (Ha & Hn & Hf). destruct (authority_value_be s Ha) as [Hav Hau].
  unfold Sid_from_str. rewrite Sid_fmt_join at 1. rewrite split_join; [|done|].
  2:{ constructor; [by apply (bool_decide_unpack _)|].
      constructor; [apply dash_not_printed; unfold SID_REVISION; lia|].
      constructor; [apply authority_text_no_dash; uint|].
      apply Forall_fmap. eapply Forall_impl; [exact Hf|].
      intros z Hz. apply dash_not_printed; uint. }
  rewrite bool_decide_true by done. simpl negb. cbv iota. unfold print_dec at 1.
  rewrite from_str_print by (lia || done). cbn [ok_or rbind]. simpl negb. cbv iota.
  rewrite parse_authority_text by done. cbn [rbind].
  rewrite (proj2 (Z.ltb_ge _ _)) by uint.
  rewrite (rmap_Ok _ (fun p => default 0 (from_str_radix 32 10 p))).
  2:{ intros p Hp. apply list_elem_of_fmap in Hp as (z & -> & Hz).
      rewrite Forall_forall in Hf. unfold print_dec. by rewrite from_str_print by (lia || auto). }
  cbn [rbind]. rewrite length_fmap, length_map.
  rewrite (proj2 (Nat.ltb_ge _ _)) by done. f_equal. destruct s as [auth subs].
  cbn [identifier_authority sub_authorities] in *. rewrite Hav, drop_to_be_authority by done.
  f_equal. rewrite <-list_fmap_compose. clear Hn Ha Hav Hau. induction Hf as [|z l Hz Hf IH]; [done|].
  rewrite fmap_cons. f_equal; [|exact IH]. unfold compose, print_dec.
  by rewrite from_str_print by (lia || done).
Qed.

Lemma Sid_from_str_wf s r : Sid_from_str s = Ok r -> sid_wf r.
Proof.
  unfold Sid_from_str. destruct (split_on dash s) as [|p0 [|p1 [|p2 rest]]]; try done.
  intros H. case_match; [done|]. inv_ok. case_match; [done|]. inv_ok.
  case_match; [done|]. inv_ok. case_match; [done|]. inv_ok.
  match goal with E : rmap _ _ = Ok ?l |- _ => rename l into subs; rename E into Hm end.
  match goal with E : (_ <? length _)%nat = false |- _ => apply Nat.ltb_ge in E end.
  split_and!; [|done|].
  - cbn [identifier_authority]. by rewrite length_drop, length_to_be.
  - cbn [sub_authorities]. clear -Hm. revert subs Hm.
    induction rest as [|p rest IH]; intros subs Hm; cbn [rmap] in Hm; inv_ok; constructor;
      [|by eapply IH].
    destruct (from_str_radix 32 10 p) as [z|] eqn:Hz; [|done]. cbn in *. simplify_eq.
    by apply from_str_radix_range in Hz.
Qed.

(** [from_bytes] never reads out of range. *)
Lemma Sid_from_bytes_no_panic buf : Sid_from_bytes buf <> Panic.
Proof.
  destruct (Sid_buffer_shape buf) as [Hs|(r & c & auth & rest & -> & Ha)].
  { unfold Sid_from_bytes, SID_BINARY_HEADER_LEN. by rewrite (proj2 (Nat.ltb_lt _ _)). }
  unfold Sid_from_bytes, SID_BINARY_HEADER_LEN. case_match; [done|].
  rewrite (slice_app [] [r] ([c] ++ auth ++ rest)) by (simpl; lia). cbn [rbind].
  case_match; [done|].
  rewrite (slice_app [r] [c] (auth ++ rest)) by (simpl; lia). cbn [rbind].
  set (n := Z.to_nat (of_be [c])). clearbody n. case_match; [done|].
  destruct (Nat.ltb_spec (length ([r] ++ [c] ++ auth ++ rest)) (8 + 4 * n)); [done|].
  case_match; [done|].
  rewrite (slice_app [r; c] auth rest) by (simpl; lia). cbn [rbind].
  rewrite (rmap_Ok _ (fun i => of_le (take 4 (drop (8 + 4 * i) ([r] ++ [c] ++ auth ++ rest))))).
  { done. }
  intros i [_ Hi]%elem_of_seq. unfold read_sub_authority. rewrite slice_Ok by lia.
  cbn [rbind]. by replace (8 + 4 * i + 4 - (8 + 4 * i))%nat with 4%nat by lia.
Qed.

Lemma Sid_from_bytes_prefix s p q :
  Sid_from_bytes (p ++ q) = Ok s -> q <> [] -> Sid_from_bytes p = Err Truncated.
Proof.
  intros H Hq. assert (length q <> 0)%nat as Hq0 by (by destruct q).
  destruct (Sid_from_bytes_inv _ _ H) as [(Ha & Hn & Hf) E]. clear H.
  destruct (Sid_buffer_shape p) as [Hp|(r & c & auth & rest & -> & Hauth)].
  { unfold Sid_from_bytes, SID_BINARY_HEADER_LEN. by rewrite (proj2 (Nat.ltb_lt _ _)). }
  rewrite <-!app_assoc in E. injection E as -> -> E.
  apply app_split in E as [-> E]; [|lia]. rewrite Sid_from_bytes_header by done.
  apply (f_equal length) in E. rewrite length_app, length_subs_bytes in E.
  by rewrite (proj2 (Nat.ltb_lt _ _)) by lia.
Qed.

(** ** Properties *)

(** The binary SID codec is a bijection: [from_bytes] never panics, and it
    accepts a buffer with SID [s] exactly when [s] is a well-formed SID (six
    authority bytes, at most 15 [u32] sub-authorities) whose [to_bytes] is that
    buffer. *)
Theorem sid_bytes_iff (buf : bytes) (s : Sid) :
  Sid_from_bytes buf <> Panic /\
  (Sid_from_bytes buf = Ok s <-> sid_wf s /\ Sid_to_bytes s = Ok buf).
Proof.
  split; [apply Sid_from_bytes_no_panic|]. split.
  - intros [Hw ->]%Sid_from_bytes_inv. by rewrite Sid_to_bytes_wf.
  - intros [Hw E]. rewrite Sid_to_bytes_wf in E by done. injection E as <-.
    destruct s as [auth subs], Hw as (? & ? & ?). by apply Sid_from_bytes_encoded.
Qed.

(** The binary form is self-delimiting: a blob with bytes appended to a
    valid SID is rejected with the number of smuggled bytes, and every proper
    prefix of a valid SID is rejected as truncated. *)
Theorem sid_bytes_self_delimiting (s : Sid) (b : bytes) :
  Sid_from_bytes b = Ok s ->
  (forall extra, extra <> [] -> Sid_from_bytes (b ++ extra) = Err (TrailingBytes (length extra))) /\
  (forall p q, b = p ++ q -> q <> [] -> Sid_from_bytes p = Err Truncated).
Proof.
  intros H. split.
  - intros extra. by apply (Sid_from_bytes_app s).
  - intros p q ->. by apply Sid_from_bytes_prefix with (s := s).
Qed.

(** The SDDL string form round-trips: printing then parsing gives the SID
    back exactly when it is well formed, and the parser only ever returns
    well-formed SIDs (so every accepted spelling, hexadecimal, padded or
    signed, has a canonical form that parses to the same SID). *)
Theorem sid_string_roundtrip (s : Sid) :
  (sid_wf s <-> Sid_from_str (Sid_fmt s) = Ok s) /\
  (forall text, Sid_from_str text = Ok s -> sid_wf s).
Proof.
  split; [split|]; [apply Sid_from_str_fmt | eauto using Sid_from_str_wf | eauto using Sid_from_str_wf].
Qed.

Lemma last_take_snoc {A} (l : list A) :
  (1 <= length l)%nat -> exists x, last l = Some x /\ l = take (length l - 1) l ++ [x].
Proof.
  destruct l as [|x l _] using rev_ind; [simpl; lia|]. intros _. exists x.
  rewrite last_snoc, length_app. simpl. replace (length l + 1 - 1)%nat with (length l) by lia.
  by rewrite take_app_length.
Qed.

(** A SID with at least two sub-authorities splits into its domain SID and
    its RID, and nothing else has a domain SID; for a domain account SID
    [S-1-5-21-X-Y-Z-RID] that domain SID is recognised as one, and no SID is
    both a domain SID and a domain account SID. *)
Theorem domain_sid_rid_split (s : Sid) :
  (domain_sid s = None <-> (sub_authority_count s < 2)%nat) /\
  (forall d, domain_sid s = Some d -> exists r, rid s = Some r /\
     s = mkSid (identifier_authority d) (sub_authorities d ++ [r])) /\
  (is_domain_account_sid s = true -> exists d, domain_sid s = Some d /\ is_domain_sid d = true) /\
  ~ (is_domain_sid s = true /\ is_domain_account_sid s = true).
Proof.
  unfold domain_sid, sub_authority_count. split_and!.
  - case_match eqn:Hl; [apply Nat.ltb_lt in Hl|apply Nat.ltb_ge in Hl]; naive_solver lia.
  - intros d. case_match eqn:Hl; [done|]. apply Nat.ltb_ge in Hl. intros [= <-].
    destruct (last_take_snoc (sub_authorities s)) as (r & Hr & E); [lia|].
    exists r. split; [done|]. cbn [identifier_authority sub_authorities Sid_new_unchecked].
    rewrite <-E. by destruct s.
  - unfold is_domain_account_sid, is_domain_sid, is_nt_authority. intros H.
    apply andb_prop in H as [[H1 H2]%andb_prop H3]. apply Nat.eqb_eq in H2.
    rewrite H2. cbn [Nat.ltb Nat.leb]. eexists; split; [done|].
    cbn [identifier_authority sub_authorities Sid_new_unchecked].
    rewrite H1, length_take, H2. simpl. apply bool_decide_eq_true in H3.
    rewrite lookup_take_lt by lia. by apply bool_decide_eq_true.
  - unfold is_domain_account_sid, is_domain_sid. rewrite !andb_true_iff, !Nat.eqb_eq. lia.
Qed.

(** A concrete domain account SID used by the witnesses. *)
Definition sample_domain : Sid :=
  mkSid SECURITY_NT_AUTHORITY [21; 3623811015; 3361044348; 30300820].

Lemma sid_bytes_self_delimiting_witness :
  exists b, Sid_from_bytes b = Ok sample_domain /\
    Sid_from_bytes (b ++ [xff; xee]) = Err (TrailingBytes 2).
Proof.
  exists (default [] (match Sid_to_bytes sample_domain with Ok b => Some b | _ => None end)).
  split; [vm_compute; reflexivity|].
  apply (sid_bytes_self_delimiting sample_domain); [vm_compute; reflexivity | discriminate].
Defined.
