(* ===== verification/StorageKeys.v ===== *)
(** * StorageKeys: the tuple-layer key space (crate [adrian-storage-core])

    Subspaces, sentinel attributes, key ranges and the fixed-width big-endian
    key codecs of the directory store.  A [Uuid] is its 128-bit value; its
    bytes are the big-endian encoding. *)
From S2P Require Import Prelude Bytes Text.

Abbreviation Dnt := Z.
Abbreviation AttributeId := Z.
Abbreviation ValueIndex := Z.
Abbreviation Uuid := Z.

(** [Uuid::as_bytes] and [Uuid::from_bytes]. *)
Definition uuid_as_bytes (u : Uuid) : bytes := to_be 16 u.
Definition uuid_from_bytes (l : bytes) : Uuid := of_be l.

Inductive Subspace :=
| Objects | LinkTable | SdTable | SchemaCache | UtdVectorSub | RidPool | Tombstones
| AuditLog | CaDb | Sigstore | Federation | FileGateway | IdentityMappingSub
| MemberOfCache | TokenGroupsCache | ObjectUuidIndex | ObjectDnIndex.

Definition subspace_u8 (s : Subspace) : Z :=
  match s with
  | Objects => 1 | LinkTable => 2 | SdTable => 3 | SchemaCache => 4 | UtdVectorSub => 5
  | RidPool => 6 | Tombstones => 7 | AuditLog => 8 | CaDb => 9 | Sigstore => 10
  | Federation => 11 | FileGateway => 12 | IdentityMappingSub => 13 | MemberOfCache => 14
  | TokenGroupsCache => 15 | ObjectUuidIndex => 16 | ObjectDnIndex => 17
  end.
Definition subspace_byte (s : Subspace) : byte := z2b (subspace_u8 s).

#[global] Instance Subspace_eq_dec : EqDecision Subspace.
Proof. solve_decision. Defined.

Definition DNT_COUNTER_SENTINEL_ATTR : AttributeId := 0xFFFFFFFF.
Definition DNT_COUNTER_NAME : bytes := lit "next_dnt".
Definition DN_ATTR_SENTINEL : AttributeId := 0xFFFFFFFE.
Definition UUID_ATTR_SENTINEL : AttributeId := 0xFFFFFFFD.
Definition DNT_ATTR_SENTINEL : AttributeId := 0xFFFFFFFC.
Definition LINK_FORWARD_MARKER : byte := x00.
Definition LINK_REVERSE_MARKER : byte := x01.

(** ** Key ranges *)

(** The loop of [strinc] walks back from the last byte; [l] is the part of the
    prefix not yet walked, last byte first. *)
Fixpoint strinc_walk (l : bytes) : option bytes :=
  match l with
  | [] => None
  | b :: l => if decide (b = xff) then strinc_walk l else Some (z2b (b2z b + 1) :: l)
  end.
Definition strinc (prefix : bytes) : option bytes :=
  match prefix with
  | [] => None
  | _ => match strinc_walk (rev prefix) with Some l => Some (rev l) | None => None end
  end.

Record KeyRange := mkKeyRange { range_begin : bytes; range_end : bytes }.

Definition KeyRange_new (b e : bytes) : KeyRange := mkKeyRange b e.
Definition KeyRange_prefix (prefix : bytes) : option KeyRange :=
  match strinc prefix with
  | Some e => Some (mkKeyRange prefix e)
  | None => None
  end.

(** ** Directory objects *)

Record DistinguishedName := mkDN { dn : bytes }.
#[global] Instance DistinguishedName_eq_dec : EqDecision DistinguishedName.
Proof. solve_decision. Defined.

Definition DistinguishedName_new (s : bytes) : DistinguishedName := mkDN s.

(** The tail of [s] after its first comma ([find(',')], then the slice). *)
Fixpoint after_comma (s : bytes) : option bytes :=
  match s with
  | [] => None
  | b :: s => if decide (b = z2b 44) then Some s else after_comma s
  end.
Definition DistinguishedName_parent (d : DistinguishedName) : option DistinguishedName :=
  match after_comma (dn d) with Some s => Some (mkDN s) | None => None end.

Record Attribute := mkAttribute {
  attribute_id : AttributeId;
  attr_name : bytes;
  attr_value : bytes;
}.
Record Object := mkObject {
  obj_uuid : Uuid;
  obj_dn : DistinguishedName;
  obj_attributes : list Attribute;
  obj_dnt : Dnt;
}.
#[global] Instance Attribute_eq_dec : EqDecision Attribute.
Proof. solve_decision. Defined.
#[global] Instance Object_eq_dec : EqDecision Object.
Proof. solve_decision. Defined.

(** Backend error messages, one constructor per format string with the values
    it interpolates. *)
Inductive BackendMsg :=
| DntCounterNotEightBytes
| DntCounterNegative (v : Z)
| DntCounterOverflow
| UuidIndexNotEightBytes
| DnIndexNotEightBytes
| DntNegative (v : Z)
| ObjectPrefixAllFF
| MalformedAttributeRow (attr_id val_idx : Z)
| DnTooLongForTombstone (n : nat)
| PreservedAttributesTooLong (n : nat)
| AtomicAddOverflow
| ReadOnlyTransaction (op : bytes)
| FdbFeatureRequired.

Inductive StorageError :=
| NotFound (what : bytes)
| Conflict
| TooOld
| SchemaValidation (msg : bytes)
| LinkIntegrity (msg : bytes)
| SdCorruption (got : nat)
| Backend (msg : BackendMsg).
#[global] Instance BackendMsg_eq_dec : EqDecision BackendMsg.
Proof. solve_decision. Defined.
#[global] Instance StorageError_eq_dec : EqDecision StorageError.
Proof. solve_decision. Defined.

(** ** Key codecs *)

Definition encode_object_key (subspace : Subspace) (dnt : Dnt) (attribute_id : AttributeId)
    (value_index : ValueIndex) : bytes :=
  [subspace_byte subspace] ++ to_be 8 dnt ++ to_be 4 attribute_id ++ to_be 4 value_index.

(** The first byte of a key ([key[0]], read after the length check). *)
Definition key_tag (key : bytes) : option byte := head key.

Definition decode_object_key (key : bytes) (expected : Subspace)
    : option (Dnt * AttributeId * ValueIndex) :=
  if negb (length key =? 17)%nat || negb (bool_decide (key_tag key = Some (subspace_byte expected)))
  then None
  else Some (of_be (take 8 (drop 1 key)), of_be (take 4 (drop 9 key)), of_be (take 4 (drop 13 key))).

Definition encode_object_prefix (subspace : Subspace) (dnt : Dnt) : bytes :=
  [subspace_byte subspace] ++ to_be 8 dnt.

Definition encode_dnt_counter_key : bytes :=
  [subspace_byte Objects] ++ to_be 4 DNT_COUNTER_SENTINEL_ATTR ++ DNT_COUNTER_NAME.

Definition encode_uuid_index_key (uuid : Uuid) : bytes :=
  [subspace_byte ObjectUuidIndex] ++ uuid_as_bytes uuid.

Definition decode_uuid_index_key (key : bytes) : option Uuid :=
  if negb (length key =? 17)%nat
     || negb (bool_decide (key_tag key = Some (subspace_byte ObjectUuidIndex)))
  then None
  else Some (uuid_from_bytes (take 16 (drop 1 key))).

Definition encode_dn_index_key (d : DistinguishedName) : bytes :=
  [subspace_byte ObjectDnIndex] ++ dn d.

Definition encode_link_forward_key (link_dnt : Dnt) (link_id : AttributeId) (backlink_dnt : Dnt)
    : bytes :=
  [subspace_byte LinkTable] ++ [LINK_FORWARD_MARKER] ++ to_be 8 link_dnt ++ to_be 4 link_id
  ++ to_be 8 backlink_dnt.

Definition encode_link_reverse_key (backlink_dnt : Dnt) (link_id : AttributeId) (link_dnt : Dnt)
    : bytes :=
  [subspace_byte LinkTable] ++ [LINK_REVERSE_MARKER] ++ to_be 8 backlink_dnt ++ to_be 4 link_id
  ++ to_be 8 link_dnt.

Definition encode_sd_table_key (sd_hash : bytes) : Result StorageError bytes :=
  if negb (length sd_hash =? 32)%nat then Err (SdCorruption (length sd_hash))
  else Ok ([subspace_byte SdTable] ++ sd_hash).

Definition encode_tombstone_key (nc_head_dnt deleted_object_dnt : Dnt) : bytes :=
  [subspace_byte Tombstones] ++ to_be 8 nc_head_dnt ++ to_be 8 deleted_object_dnt.

Definition decode_tombstone_key (key : bytes) : option (Dnt * Dnt) :=
  if negb (length key =? 17)%nat
     || negb (bool_decide (key_tag key = Some (subspace_byte Tombstones)))
  then None
  else Some (of_be (take 8 (drop 1 key)), of_be (take 8 (drop 9 key))).

Definition decode_i64_be (b : bytes) : option Z :=
  if negb (length b =? 8)%nat then None else Some (i64_of_be b).

(** ** Lemmas *)

Lemma length_encode_object_key ss d a v : length (encode_object_key ss d a v) = 17%nat.
Proof. unfold encode_object_key. len. Qed.
Lemma length_encode_object_prefix ss d : length (encode_object_prefix ss d) = 9%nat.
Proof. unfold encode_object_prefix. len. Qed.
Lemma length_encode_dnt_counter_key : length encode_dnt_counter_key = 13%nat.
Proof. reflexivity. Qed.
Lemma length_encode_uuid_index_key u : length (encode_uuid_index_key u) = 17%nat.
Proof. unfold encode_uuid_index_key, uuid_as_bytes. len. Qed.
Lemma length_encode_tombstone_key a b : length (encode_tombstone_key a b) = 17%nat.
Proof. unfold encode_tombstone_key. len. Qed.
#[export] Hint Rewrite length_encode_object_key length_encode_object_prefix
  length_encode_dnt_counter_key length_encode_uuid_index_key length_encode_tombstone_key : len.

#[global] Instance subspace_byte_inj : Inj (=) (=) subspace_byte.
Proof. intros [] []; try done; intros H; vm_compute in H; discriminate. Qed.

Lemma object_key_prefix ss d a v :
  encode_object_key ss d a v = encode_object_prefix ss d ++ to_be 4 a ++ to_be 4 v.
Proof. unfold encode_object_key, encode_object_prefix. by rewrite <-!app_assoc. Qed.

Lemma decode_encode_object_key ss d a v :
  is_u64 d -> is_u32 a -> is_u32 v ->
  decode_object_key (encode_object_key ss d a v) ss = Some (d, a, v).
Proof.
  intros Hd Ha Hv. unfold decode_object_key. rewrite length_encode_object_key.
  unfold encode_object_key. cbn [key_tag head app Nat.eqb negb orb].
  rewrite bool_decide_true by done. cbn [negb].
  set (k := subspace_byte ss :: _).
  rewrite (sub_app [subspace_byte ss] (to_be 8 d) (to_be 4 a ++ to_be 4 v) k) by (done || len).
  rewrite (sub_app (subspace_byte ss :: to_be 8 d) (to_be 4 a) (to_be 4 v) k) by (done || len).
  rewrite (sub_app_end (subspace_byte ss :: to_be 8 d ++ to_be 4 a) (to_be 4 v) k)
    by (len || (subst k; cbn [app]; by rewrite <-app_assoc)).
  by rewrite of_to_be_u64, !of_to_be_u32.
Qed.

Lemma decode_object_key_inv key ss d a v :
  decode_object_key key ss = Some (d, a, v) ->
  key = encode_object_key ss d a v /\ is_u64 d /\ is_u32 a /\ is_u32 v.
Proof.
  unfold decode_object_key. destruct (Nat.eqb_spec (length key) 17) as [Hl|]; [|done].
  destruct (bool_decide_reflect (key_tag key = Some (subspace_byte ss))) as [Ht|]; [|done].
  cbn [negb orb]. intros [= <- <- <-]. split.
  - unfold encode_object_key. rewrite !to_of_be by len.
    destruct key as [|b key]; [done|]. injection Ht as ->. cbn [app]. f_equal.
    change (drop 1 (subspace_byte ss :: key)) with (drop 0 key).
    change (drop 9 (subspace_byte ss :: key)) with (drop 8 key).
    change (drop 13 (subspace_byte ss :: key)) with (drop 12 key).
    pose proof (field_split key 0 8) as E0. pose proof (field_split key 8 4) as E1.
    rewrite (take_ge (drop 12 key)) by len. cbn [Nat.add] in E0, E1.
    by rewrite <-E1, <-E0.
  - pose proof (of_be_range (take 8 (drop 1 key))) as R1.
    pose proof (of_be_range (take 4 (drop 9 key))) as R2.
    pose proof (of_be_range (take 4 (drop 13 key))) as R3.
    rewrite length_take, length_drop, Hl in R1, R2, R3. cbn in R1, R2, R3. uint.
Qed.

(** ** [strinc] and prefix ranges *)

Lemma strinc_snoc p b :
  strinc (p ++ [b]) =
  if decide (b = xff) then match p with [] => None | _ => strinc p end
  else Some (p ++ [z2b (b2z b + 1)]).
Proof.
  unfold strinc. rewrite rev_app_distr. cbn [rev app strinc_walk].
  destruct (p ++ [b]) eqn:E; [by destruct p|]. clear E.
  case_decide; [by destruct p|]. cbn [rev]. by rewrite rev_involutive.
Qed.

(** Keys between two extensions of [p] extend [p]. *)
Lemma key_between p a c k :
  key_le (p ++ a) k -> key_lt k (p ++ c) ->
  exists k', k = p ++ k' /\ key_le a k' /\ key_lt k' c.
Proof.
  revert k. induction p as [|x p IH]; intros k H1 H2; [by exists k|].
  destruct k as [|y k]; [done|]. cbn [app] in *.
  rewrite <-key_nlt_le, key_ltb_cons in H1. rewrite key_ltb_cons in H2.
  destruct H2 as [|[-> H2]]; [exfalso; apply H1; auto|].
  destruct (IH k) as (k' & -> & ? & ?); [apply key_nlt_le; naive_solver|done|].
  by exists k'.
Qed.

Lemma key_le_singleton b k : key_le [b] k <-> exists y t, k = y :: t /\ b2z b <= b2z y.
Proof.
  rewrite <-key_nlt_le. destruct k as [|y t].
  { split; [intros []; done|]. by intros (? & ? & ? & ?). }
  rewrite key_ltb_cons. split.
  - intros H. exists y, t. split; [done|]. destruct (Z.le_gt_cases (b2z b) (b2z y)); [done|].
    exfalso. apply H. left. lia.
  - intros (y' & t' & [= <- <-] & Hy) [?|[-> Ht]]; [lia|]. by destruct t.
Qed.

Lemma strinc_spec p e :
  strinc p = Some e ->
  forall k, key_le p k /\ key_lt k e <-> p `prefix_of` k.
Proof.
  revert e. induction p as [|b p IH] using rev_ind; [done|]. intros e.
  rewrite strinc_snoc. pose proof (b2z_range b). case_decide as Hb.
  - destruct p as [|x p]; [done|]. remember (x :: p) as q. intros He k. split.
    + intros [H1 H2]. destruct (proj1 (IH e He k)) as [k' ->].
      { split; [|done]. etransitivity; [apply (key_le_app q [b])|done]. }
      rewrite <-key_nlt_le, key_lt_app_l, key_nlt_le, key_le_singleton in H1.
      destruct H1 as (y & t & -> & Hy). exists t. rewrite <-app_assoc. cbn [app]. do 2 f_equal.
      subst b. apply (inj b2z). pose proof (b2z_range y). change (b2z xff) with 255 in *. lia.
    + intros [t ->]. split; [apply key_le_app|].
      apply (IH e He). exists ([b] ++ t). by rewrite app_assoc.
  - intros [= <-] k. split.
    + intros [H1 H2]. destruct (key_between p [b] [z2b (b2z b + 1)] k) as (k' & -> & H3 & H4); try done.
      apply key_le_singleton in H3 as (y & t & -> & Hy). exists t. rewrite <-app_assoc.
      cbn [app]. do 2 f_equal. apply (inj b2z). apply key_ltb_cons in H4 as [H4|[-> H4]].
      * rewrite b2z_z2b in H4. pose proof (Z.mod_le (b2z b + 1) 256). lia.
      * by destruct t.
    + intros [t ->]. split; [apply key_le_app|]. rewrite <-app_assoc, key_lt_app_l.
      apply key_ltb_cons. left. rewrite b2z_z2b.
      assert (b2z b <> 255) by (intros E; apply Hb, (inj b2z); by rewrite E).
      rewrite Z.mod_small; lia.
Qed.

Lemma strinc_None p : strinc p = None <-> Forall (fun b => b = xff) p.
Proof.
  induction p as [|b p IH] using rev_ind; [split; [constructor|done]|].
  rewrite strinc_snoc, Forall_app, Forall_singleton. case_decide.
  - destruct p; [split; [by split; [constructor|]|done]|]. rewrite IH.
    split; [by auto|by intros []].
  - split; [done|by intros [_ ?]].
Qed.

Lemma KeyRange_prefix_iff p r :
  KeyRange_prefix p = Some r ->
  forall k, key_le (range_begin r) k /\ key_lt k (range_end r) <-> p `prefix_of` k.
Proof.
  unfold KeyRange_prefix. destruct (strinc p) as [e|] eqn:He; [|done].
  intros [= <-]. by apply strinc_spec.
Qed.

(** A fixed two-field key (tombstones): reading back what was written. *)
Lemma decode_tombstone_key_iff key n o :
  decode_tombstone_key key = Some (n, o) <->
  key = encode_tombstone_key n o /\ is_u64 n /\ is_u64 o.
Proof.
  unfold decode_tombstone_key. split.
  - destruct (Nat.eqb_spec (length key) 17) as [Hl|]; [|done].
    destruct (bool_decide_reflect (key_tag key = Some (subspace_byte Tombstones))) as [Ht|]; [|done].
    cbn [negb orb]. intros [= <- <-]. split.
    + unfold encode_tombstone_key. rewrite !to_of_be by len.
      destruct key as [|b key]; [done|]. injection Ht as ->. cbn [app]. f_equal.
      change (drop 1 (subspace_byte Tombstones :: key)) with (drop 0 key).
      change (drop 9 (subspace_byte Tombstones :: key)) with (drop 8 key).
      pose proof (field_split key 0 8) as E0. cbn [Nat.add] in E0.
      by rewrite (take_ge (drop 8 key)), <-E0 by len.
    + pose proof (of_be_range (take 8 (drop 1 key))) as R1.
      pose proof (of_be_range (take 8 (drop 9 key))) as R2.
      rewrite length_take, length_drop, Hl in R1, R2. cbn in R1, R2. uint.
  - intros (-> & Hn & Ho). rewrite length_encode_tombstone_key.
    unfold encode_tombstone_key. cbn [key_tag head app Nat.eqb negb orb].
    rewrite bool_decide_true by done. cbn [negb]. set (k := _ :: _).
    rewrite (sub_app [subspace_byte Tombstones] (to_be 8 n) (to_be 8 o) k) by (done || len).
    rewrite (sub_app_end (subspace_byte Tombstones :: to_be 8 n) (to_be 8 o) k) by (done || len).
    by rewrite !of_to_be_u64.
Qed.

Lemma decode_uuid_index_key_iff key u :
  decode_uuid_index_key key = Some u <-> key = encode_uuid_index_key u /\ is_u128 u.
Proof.
  unfold decode_uuid_index_key, encode_uuid_index_key, uuid_from_bytes, uuid_as_bytes. split.
  - destruct (Nat.eqb_spec (length key) 17) as [Hl|]; [|done].
    case_bool_decide as Ht; [|done]. cbn [negb orb]. intros [= <-].
    destruct key as [|b key]; [done|]. injection Ht as ->.
    change (drop 1 (subspace_byte ObjectUuidIndex :: key)) with key in *.
    rewrite take_ge by len. rewrite to_of_be by len. split; [done|].
    pose proof (of_be_range key) as R. cbn [length] in Hl. injection Hl as Hl.
    rewrite Hl in R. cbn in R. uint.
  - intros [-> Hu]. rewrite length_app, length_to_be.
    cbn [key_tag head app length Nat.eqb Nat.add negb orb].
    rewrite bool_decide_true by done. cbn [negb]. f_equal.
    rewrite (sub_app_end [subspace_byte ObjectUuidIndex] (to_be 16 u)) by (done || len).
    by rewrite of_to_be_u128.
Qed.

(** ** Properties *)

(** [KeyRange::prefix] is exact: when it returns a range, a key lies in
    the half-open range if and only if it starts with the prefix; it returns
    [None] only for the empty or all-[0xFF] prefixes, which have no end key. *)
Theorem key_range_prefix_exact (prefix : bytes) :
  match KeyRange_prefix prefix with
  | Some r => forall k, key_le (range_begin r) k /\ key_lt k (range_end r) <-> prefix `prefix_of` k
  | None => Forall (fun b => b = xff) prefix
  end.
Proof.
  destruct (KeyRange_prefix prefix) as [r|] eqn:Hr; [by apply KeyRange_prefix_iff|].
  unfold KeyRange_prefix in Hr. case_match eqn:He; [done|]. by apply strinc_None.
Qed.

(** The object-row, tombstone and UUID-index key decoders accept exactly
    the keys their encoders produce from in-range fields, and return those
    fields: 64-bit DNTs, 32-bit attribute ids and value indexes, 128-bit
    UUIDs. *)
Theorem key_codecs_exact (key : bytes) (ss : Subspace) (d a v n o u : Z) :
  (decode_object_key key ss = Some (d, a, v) <->
     key = encode_object_key ss d a v /\ is_u64 d /\ is_u32 a /\ is_u32 v) /\
  (decode_tombstone_key key = Some (n, o) <->
     key = encode_tombstone_key n o /\ is_u64 n /\ is_u64 o) /\
  (decode_uuid_index_key key = Some u <-> key = encode_uuid_index_key u /\ is_u128 u).
Proof.
  split_and!; [split| |].
  - apply decode_object_key_inv.
  - intros (-> & ? & ? & ?). by apply decode_encode_object_key.
  - apply decode_tombstone_key_iff.
  - apply decode_uuid_index_key_iff.
Qed.

(** Rows of one object sort by attribute, then by value index. *)
Lemma object_key_lt ss d a v d' a' v' :
  is_u64 d -> is_u64 d' -> is_u32 a -> is_u32 a' -> is_u32 v -> is_u32 v' ->
  key_lt (encode_object_key ss d a v) (encode_object_key ss d' a' v') <->
  d < d' \/ (d = d' /\ (a < a' \/ (a = a' /\ v < v'))).
Proof.
  intros. unfold encode_object_key. rewrite key_lt_app_l.
  rewrite !key_lt_app_iff by (by rewrite !length_to_be).
  rewrite !to_be_lt by uint.
  assert (to_be 8 d = to_be 8 d' <-> d = d') as ->.
  { split; [apply to_be_inj; uint|by intros ->]. }
  assert (to_be 4 a = to_be 4 a' <-> a = a') as ->.
  { split; [apply to_be_inj; uint|by intros ->]. }
  done.
Qed.

(** The fixed-width big-endian row keys sort in the ordered store exactly
    as the tuples [(dnt, attribute_id, value_index)] sort numerically, so a
    range scan returns an object's rows in attribute and value order. *)
Theorem object_key_order (ss : Subspace) (d a v d' a' v' : Z) :
  is_u64 d /\ is_u64 d' /\ is_u32 a /\ is_u32 a' /\ is_u32 v /\ is_u32 v' ->
  key_lt (encode_object_key ss d a v) (encode_object_key ss d' a' v') <->
  d < d' \/ (d = d' /\ (a < a' \/ (a = a' /\ v < v'))).
Proof. intros (? & ? & ? & ? & ? & ?). by apply object_key_lt. Qed.

Lemma object_key_order_witness :
  key_lt (encode_object_key Objects 255 7 1) (encode_object_key Objects 256 3 0).
Proof.
  apply (object_key_order Objects 255 7 1 256 3 0).
  - repeat split; vm_compute; congruence.
  - left. reflexivity.
Defined.
