(* ===== verification/StorageTxn.v ===== *)
(** * StorageTxn: transaction traits (crate [adrian-storage-core])

    The traits [ReadTxn] and [WriteTxn] are type classes; a write transaction
    is mutated through [&self], so each write returns the new transaction.  On
    an [Err] the caller's [?] drops the transaction with its staged writes,
    which is why errors carry no transaction.  [commit] acts on the shared
    store.  The default methods of [DirectoryTransaction] are generic over the
    classes, as in the trait. *)
From S2P Require Import Prelude Bytes Text StorageKeys.

Class ReadTxn (T : Type) := {
  txn_get : T -> bytes -> Result StorageError (option bytes);
  txn_get_range : T -> bytes -> bytes -> Result StorageError (list (bytes * bytes));
}.

Class WriteTxn (S T : Type) := {
  write_read :: ReadTxn T;
  txn_put : T -> bytes -> bytes -> Result StorageError T;
  txn_delete : T -> bytes -> Result StorageError T;
  txn_atomic_add : T -> bytes -> Z -> Result StorageError T;
  txn_commit : T -> S -> S * Result StorageError unit;
  txn_rollback : T -> Result StorageError unit;
}.

(** ** Default methods of [DirectoryTransaction] *)
Section directory_transaction.
Context {S T : Type} `{WT : !WriteTxn S T}.
Implicit Types (t : T).

Definition allocate_dnt t : Result StorageError (Dnt * T) :=
  let key := encode_dnt_counter_key in
  let? cur := txn_get t key in
  let? snapshot_val := match cur with
                       | None => Ok 0
                       | Some b => ok_or (decode_i64_be b) (Backend DntCounterNotEightBytes)
                       end in
  if snapshot_val <? 0 then Err (Backend (DntCounterNegative snapshot_val))
  else
    let? new_dnt := ok_or (i64_checked_add snapshot_val 1) (Backend DntCounterOverflow) in
    let? t := txn_atomic_add t key 1 in
    Ok (as_u64 new_dnt, t).

Definition read_dnt_counter t : Result StorageError Dnt :=
  let? b := txn_get t encode_dnt_counter_key in
  match b with
  | None => Ok 0
  | Some b =>
      let? v := ok_or (decode_i64_be b) (Backend DntCounterNotEightBytes) in
      if v <? 0 then Err (Backend (DntCounterNegative v)) else Ok (as_u64 v)
  end.

Definition lookup_dnt_by_uuid t (uuid : Uuid) : Result StorageError (option Dnt) :=
  let? b := txn_get t (encode_uuid_index_key uuid) in
  match b with
  | None => Ok None
  | Some b =>
      let? v := ok_or (decode_i64_be b) (Backend UuidIndexNotEightBytes) in
      Ok (Some (as_u64 v))
  end.

Definition lookup_dnt_by_dn t (d : DistinguishedName) : Result StorageError (option Dnt) :=
  let? b := txn_get t (encode_dn_index_key d) in
  match b with
  | None => Ok None
  | Some b =>
      let? v := ok_or (decode_i64_be b) (Backend DnIndexNotEightBytes) in
      Ok (Some (as_u64 v))
  end.

(** The loop of [get_object_rows]: keys that do not decode are skipped. *)
Definition decode_rows (rows : list (bytes * bytes)) : list (AttributeId * ValueIndex * bytes) :=
  omap (fun kv => match decode_object_key kv.1 Objects with
                  | Some (_, attr_id, val_idx) => Some (attr_id, val_idx, kv.2)
                  | None => None
                  end) rows.

Definition get_object_rows t (dnt : Dnt)
    : Result StorageError (list (AttributeId * ValueIndex * bytes)) :=
  let prefix := encode_object_prefix Objects dnt in
  let? range := ok_or (KeyRange_prefix prefix) (Backend ObjectPrefixAllFF) in
  let? rows := txn_get_range t (range_begin range) (range_end range) in
  Ok (decode_rows rows).

Definition set_indexes t (uuid : Uuid) (d : DistinguishedName) (dnt : Dnt)
    : Result StorageError T :=
  let dnt_value := i64_to_be (as_i64 dnt) in
  let? t := txn_put t (encode_uuid_index_key uuid) dnt_value in
  let? t := txn_put t (encode_dn_index_key d) dnt_value in
  txn_put t (encode_object_key Objects dnt DNT_ATTR_SENTINEL 0) dnt_value.
End directory_transaction.
