(* ===== verification/MemStore.v ===== *)
(** * MemStore: the in-memory backend (crate [adrian-storage-testkit])

    [InMemoryDirectoryStore], its snapshot read transactions and its write
    transactions with a write-set and staged atomic adds.  The key-value map
    [kv] is shared by every clone of the store: a transaction reads the
    snapshot it took at [begin_*], and [commit] applies to the map as it is at
    commit time.  The file also models the store's direct object indexes. *)
From S2P Require Import Prelude Bytes Text StorageKeys StorageTxn.

Definition UNASSIGNED_DNT : Dnt := 0.

Record InMemoryDirectoryStore := mkStore {
  kv : kvmap;
  next_dnt : Dnt;
  uuid_to_dnt : gmap Uuid Dnt;
  dn_to_dnt : gmap bytes Dnt;
  objects : gmap Dnt Object;
}.

Definition InMemoryDirectoryStore_new : InMemoryDirectoryStore := mkStore ∅ 1 ∅ ∅ ∅.

Definition store_len (s : InMemoryDirectoryStore) : nat := size (objects s).
Definition store_is_empty (s : InMemoryDirectoryStore) : bool := (store_len s =? 0)%nat.

(** ** Direct object operations *)

Definition mem_get (s : InMemoryDirectoryStore) (uuid : Uuid)
    : Result StorageError (option Object) :=
  match uuid_to_dnt s !! uuid with
  | None => Ok None
  | Some dnt => Ok (objects s !! dnt)
  end.

Definition mem_get_by_dn (s : InMemoryDirectoryStore) (d : DistinguishedName)
    : Result StorageError (option Object) :=
  match dn_to_dnt s !! dn d with
  | None => Ok None
  | Some dnt => Ok (objects s !! dnt)
  end.

Definition mem_put (s : InMemoryDirectoryStore) (obj : Object)
    : InMemoryDirectoryStore * Result StorageError unit :=
  let assigned :=
    if decide (obj_dnt obj = UNASSIGNED_DNT) then
      if next_dnt s + 1 <? 2 ^ 64 then Ok (next_dnt s, next_dnt s + 1)
      else Err (Backend DntCounterOverflow)
    else Ok (obj_dnt obj, next_dnt s) in
  match assigned with
  | Ok (dnt, counter) =>
      let materialised := mkObject (obj_uuid obj) (obj_dn obj) (obj_attributes obj) dnt in
      (mkStore (kv s) counter
         (<[obj_uuid materialised := dnt]> (uuid_to_dnt s))
         (<[dn (obj_dn materialised) := dnt]> (dn_to_dnt s))
         (<[dnt := materialised]> (objects s)), Ok tt)
  | Err e => (s, Err e)
  | Panic => (s, Panic)
  end.

Definition mem_delete (s : InMemoryDirectoryStore) (uuid : Uuid)
    : InMemoryDirectoryStore * Result StorageError unit :=
  match uuid_to_dnt s !! uuid with
  | None => (s, Ok tt)
  | Some dnt =>
      let dns := match objects s !! dnt with
                 | Some o => delete (dn (obj_dn o)) (dn_to_dnt s)
                 | None => dn_to_dnt s
                 end in
      (mkStore (kv s) (next_dnt s) (delete uuid (uuid_to_dnt s)) dns (delete dnt (objects s)),
       Ok tt)
  end.

(** ** Transactions *)

(** [BTreeMap::range(begin..end)] panics when [begin > end]. *)
Definition map_range {V} (m : gmap bytes V) (b e : bytes) : Result StorageError (list (bytes * V)) :=
  if key_ltb e b then Panic else Ok (btree_range m b e).

Record InMemoryReadTxn := mkReadTxn { r_snapshot : kvmap }.

Definition read_get (t : InMemoryReadTxn) (key : bytes) : Result StorageError (option bytes) :=
  Ok (r_snapshot t !! key).
Definition read_get_range (t : InMemoryReadTxn) (b e : bytes)
    : Result StorageError (list (bytes * bytes)) :=
  map_range (r_snapshot t) b e.

#[global] Instance InMemoryReadTxn_ReadTxn : ReadTxn InMemoryReadTxn :=
  {| txn_get := read_get; txn_get_range := read_get_range |}.

Abbreviation PendingWrite := (option bytes).
Abbreviation WriteSet := (gmap bytes PendingWrite).

Record InMemoryWriteTxn := mkWriteTxn {
  snapshot : kvmap;
  writes : WriteSet;
  atomic_adds : list (bytes * Z);
}.

Definition begin_read (m : kvmap) : Result StorageError InMemoryReadTxn := Ok (mkReadTxn m).
Definition begin_write (m : kvmap) : Result StorageError InMemoryWriteTxn := Ok (mkWriteTxn m ∅ []).

Definition read_through (t : InMemoryWriteTxn) (key : bytes) : option bytes :=
  match writes t !! key with
  | Some pending => pending
  | None => snapshot t !! key
  end.

Definition write_get (t : InMemoryWriteTxn) (key : bytes) : Result StorageError (option bytes) :=
  Ok (read_through t key).

(** First loop of [get_range]: the snapshot range overlaid with the write-set. *)
Definition overlay_snapshot (ws : WriteSet) (out : kvmap) (e : bytes * bytes) : kvmap :=
  match ws !! e.1 with
  | Some (Some new_v) => <[e.1 := new_v]> out
  | Some None => out
  | None => <[e.1 := e.2]> out
  end.
(** Second loop: write-set keys not yet in the output. *)
Definition overlay_writes (out : kvmap) (e : bytes * PendingWrite) : kvmap :=
  match e.2 with
  | Some v => match out !! e.1 with Some _ => out | None => <[e.1 := v]> out end
  | None => out
  end.
Definition write_get_range (t : InMemoryWriteTxn) (b e : bytes)
    : Result StorageError (list (bytes * bytes)) :=
  let? snap := map_range (snapshot t) b e in
  let out := foldl (overlay_snapshot (writes t)) ∅ snap in
  let? ws := map_range (writes t) b e in
  let out := foldl overlay_writes out ws in
  Ok (btree_iter out).

Definition write_put (t : InMemoryWriteTxn) (key value : bytes) : Result StorageError InMemoryWriteTxn :=
  Ok (mkWriteTxn (snapshot t) (<[key := Some value]> (writes t)) (atomic_adds t)).
Definition write_delete (t : InMemoryWriteTxn) (key : bytes) : Result StorageError InMemoryWriteTxn :=
  Ok (mkWriteTxn (snapshot t) (<[key := None]> (writes t)) (atomic_adds t)).
Definition write_atomic_add (t : InMemoryWriteTxn) (key : bytes) (value : Z)
    : Result StorageError InMemoryWriteTxn :=
  Ok (mkWriteTxn (snapshot t) (writes t) (atomic_adds t ++ [(key, value)])).

(** One put or delete of the commit loop. *)
Definition apply_write (target : kvmap) (e : bytes * PendingWrite) : kvmap :=
  match e.2 with
  | Some v => <[e.1 := v]> target
  | None => delete e.1 target
  end.
(** The current value an atomic add starts from. *)
Definition counter_value (target : kvmap) (k : bytes) : Z :=
  match target !! k with
  | Some v => if (length v =? 8)%nat then i64_of_be v else 0
  | None => 0
  end.
(** The atomic-add loop: an overflow returns an error with the target as it is
    at that point. *)
Fixpoint apply_adds (target : kvmap) (adds : list (bytes * Z)) : kvmap * Result StorageError unit :=
  match adds with
  | [] => (target, Ok tt)
  | (k, delta) :: adds =>
      match i64_checked_add (counter_value target k) delta with
      | None => (target, Err (Backend AtomicAddOverflow))
      | Some new_val => apply_adds (<[k := i64_to_be new_val]> target) adds
      end
  end.
Definition write_commit (t : InMemoryWriteTxn) (target : kvmap) : kvmap * Result StorageError unit :=
  let target := foldl apply_write target (btree_iter (writes t)) in
  apply_adds target (atomic_adds t).

Definition write_rollback (t : InMemoryWriteTxn) : Result StorageError unit := Ok tt.

#[global] Instance InMemoryWriteTxn_ReadTxn : ReadTxn InMemoryWriteTxn :=
  {| txn_get := write_get; txn_get_range := write_get_range |}.
#[global] Instance InMemoryWriteTxn_WriteTxn : WriteTxn kvmap InMemoryWriteTxn :=
  {| write_read := InMemoryWriteTxn_ReadTxn;
     txn_put := write_put; txn_delete := write_delete; txn_atomic_add := write_atomic_add;
     txn_commit := write_commit; txn_rollback := write_rollback |}.

(** ** Lemmas: the overlay of a write-set *)

(** The write-set applied to a map. *)
Definition overlay (ws : WriteSet) (m : kvmap) : kvmap :=
  merge (fun w v => match w with Some p => p | None => v end) ws m.

Lemma lookup_overlay ws m k :
  overlay ws m !! k = match ws !! k with Some p => p | None => m !! k end.
Proof. unfold overlay. rewrite lookup_merge. by destruct (ws !! k), (m !! k). Qed.

Lemma read_through_overlay t k : read_through t k = overlay (writes t) (snapshot t) !! k.
Proof. by rewrite lookup_overlay. Qed.

Lemma overlay_insert k v ws m : overlay (<[k := Some v]> ws) m = <[k := v]> (overlay ws m).
Proof.
  apply map_eq. intros i. rewrite lookup_overlay. destruct (decide (k = i)) as [->|].
  - by rewrite !lookup_insert_eq.
  - by rewrite !lookup_insert_ne, lookup_overlay.
Qed.
Lemma overlay_delete k ws m : overlay (<[k := None]> ws) m = delete k (overlay ws m).
Proof.
  apply map_eq. intros i. rewrite lookup_overlay. destruct (decide (k = i)) as [->|].
  - by rewrite lookup_insert_eq, lookup_delete_eq.
  - by rewrite lookup_insert_ne, lookup_delete_ne, lookup_overlay.
Qed.
Lemma overlay_empty m : overlay ∅ m = m.
Proof. apply map_eq. intros i. by rewrite lookup_overlay, lookup_empty. Qed.

Lemma elem_of_btree_iter {V} (m : gmap bytes V) k v : (k, v) ∈ btree_iter m <-> m !! k = Some v.
Proof. unfold btree_iter. by rewrite merge_sort_Permutation, elem_of_map_to_list. Qed.
Lemma btree_iter_NoDup {V} (m : gmap bytes V) : NoDup (btree_iter m).*1.
Proof. unfold btree_iter. rewrite merge_sort_Permutation. apply NoDup_fst_map_to_list. Qed.

(** Applying a list of writes, each key once, looks up the last word on a key. *)
Lemma foldl_apply_write l m k :
  NoDup l.*1 ->
  foldl apply_write m l !! k =
  match list_to_map (M := gmap bytes PendingWrite) l !! k with Some p => p | None => m !! k end.
Proof.
  revert m. induction l as [|[i p] l IH]; intros m Hnd.
  { change (list_to_map []) with (∅ : gmap bytes PendingWrite). by rewrite lookup_empty. }
  apply NoDup_cons in Hnd as [Hi Hnd]. cbn [foldl]. rewrite IH by done. cbn [list_to_map foldr].
  destruct (decide (i = k)) as [->|].
  - rewrite lookup_insert_eq, not_elem_of_list_to_map_1 by done. unfold apply_write. simpl.
    destruct p; [by rewrite lookup_insert_eq|by rewrite lookup_delete_eq].
  - rewrite lookup_insert_ne by done. case_match; [done|]. unfold apply_write. simpl.
    destruct p; [by rewrite lookup_insert_ne|by rewrite lookup_delete_ne].
Qed.

Lemma list_to_map_btree_iter {V} (m : gmap bytes V) : list_to_map (btree_iter m) = m.
Proof.
  apply map_eq. intros k. destruct (m !! k) as [v|] eqn:Hk.
  - apply elem_of_list_to_map_1; [apply btree_iter_NoDup|]. by apply elem_of_btree_iter.
  - apply not_elem_of_list_to_map_1. intros ([k' v] & -> & H)%list_elem_of_fmap.
    apply elem_of_btree_iter in H. simpl in *. congruence.
Qed.

(** The puts and deletes of a commit overlay the target. *)
Lemma foldl_apply_overlay ws m : foldl apply_write m (btree_iter ws) = overlay ws m.
Proof.
  apply map_eq. intros k. rewrite foldl_apply_write by apply btree_iter_NoDup.
  by rewrite list_to_map_btree_iter, lookup_overlay.
Qed.

(** ** Lemmas: range reads see the overlay *)

Lemma entries_strict {V} (l : list (bytes * V)) :
  NoDup l.*1 -> StronglySorted entry_le l -> StronglySorted (fun x y => key_lt x.1 y.1) l.
Proof.
  intros Hnd Hs. induction Hs as [|x l Hs IH Hf]; [constructor|]. apply NoDup_cons in Hnd as [Hx Hnd].
  constructor; [auto|]. rewrite Forall_forall in *. intros y Hy.
  specialize (Hf y Hy). apply key_le_lteq in Hf as [|E]; [done|].
  exfalso. apply Hx. rewrite E. by apply list_elem_of_fmap_2.
Qed.
Lemma btree_iter_strict {V} (m : gmap bytes V) :
  StronglySorted (fun x y => key_lt x.1 y.1) (btree_iter m).
Proof. apply entries_strict; [apply btree_iter_NoDup|apply btree_iter_sorted]. Qed.
Lemma btree_range_strict {V} (m : gmap bytes V) b e :
  StronglySorted (fun x y => key_lt x.1 y.1) (btree_range m b e).
Proof. apply entries_strict; [apply btree_range_NoDup|apply btree_range_sorted]. Qed.

Lemma btree_iter_range {V} (m out : gmap bytes V) b e :
  (forall k, out !! k = if in_range b e k then m !! k else None) ->
  btree_iter out = btree_range m b e.
Proof.
  intros H. symmetry. apply btree_range_unique; [apply btree_iter_strict|].
  intros k v. rewrite elem_of_btree_iter, H, <-in_range_spec.
  destruct (in_range b e k); [by intuition|]. split; [done|by intros [_ ?]].
Qed.

Lemma lookup_range_map {V} (m : gmap bytes V) b e k :
  list_to_map (M := gmap bytes V) (btree_range m b e) !! k = if in_range b e k then m !! k else None.
Proof.
  destruct (in_range b e k) eqn:Hr; [destruct (m !! k) as [v|] eqn:Hk|].
  - apply elem_of_list_to_map_1; [apply btree_range_NoDup|].
    apply elem_of_btree_range. by rewrite <-in_range_spec.
  - apply not_elem_of_list_to_map_1. intros ([k' v] & -> & [H _]%elem_of_btree_range)%list_elem_of_fmap.
    simpl in *. congruence.
  - apply not_elem_of_list_to_map_1. intros ([k' v] & -> & [_ H]%elem_of_btree_range)%list_elem_of_fmap.
    rewrite <-in_range_spec in H. simpl in *. congruence.
Qed.

Lemma foldl_overlay_snapshot (ws : WriteSet) (l : list (bytes * bytes)) (out : kvmap) k :
  NoDup l.*1 ->
  foldl (overlay_snapshot ws) out l !! k =
  match list_to_map (M := kvmap) l !! k with
  | None => out !! k
  | Some v => match ws !! k with
              | Some (Some nv) => Some nv | Some None => out !! k | None => Some v end
  end.
Proof.
  revert out. induction l as [|[i v] l IH]; intros out Hnd.
  { change (list_to_map []) with (∅ : kvmap). by rewrite lookup_empty. }
  apply NoDup_cons in Hnd as [Hi Hnd]. cbn [foldl]. rewrite IH by done. cbn [list_to_map foldr].
  destruct (decide (i = k)) as [->|].
  - rewrite lookup_insert_eq, not_elem_of_list_to_map_1 by done. unfold overlay_snapshot. simpl.
    by destruct (ws !! k) as [[nv|]|]; rewrite ?lookup_insert_eq.
  - rewrite lookup_insert_ne by done.
    assert (overlay_snapshot ws out (i, v) !! k = out !! k) as ->; [|done].
    unfold overlay_snapshot. simpl. by destruct (ws !! i) as [[nv|]|]; rewrite ?lookup_insert_ne.
Qed.

Lemma foldl_overlay_writes (l : list (bytes * PendingWrite)) (out : kvmap) k :
  NoDup l.*1 ->
  foldl overlay_writes out l !! k =
  match out !! k with
  | Some v => Some v
  | None => match list_to_map (M := WriteSet) l !! k with Some p => p | None => None end
  end.
Proof.
  revert out. induction l as [|[i p] l IH]; intros out Hnd.
  { change (list_to_map []) with (∅ : WriteSet). rewrite lookup_empty. by case_match. }
  apply NoDup_cons in Hnd as [Hi Hnd]. cbn [foldl]. rewrite IH by done. cbn [list_to_map foldr].
  destruct (decide (i = k)) as [->|].
  - rewrite lookup_insert_eq, not_elem_of_list_to_map_1 by done. unfold overlay_writes. simpl.
    destruct p as [v|]; [|by case_match].
    destruct (out !! k) as [w|] eqn:Ho; [by rewrite Ho|by rewrite lookup_insert_eq].
  - rewrite lookup_insert_ne by done.
    assert (overlay_writes out (i, p) !! k = out !! k) as ->; [|done].
    unfold overlay_writes. simpl. destruct p as [v|]; [|done].
    by destruct (out !! i); rewrite ?lookup_insert_ne.
Qed.

Lemma write_get_range_overlay t b e :
  key_le b e ->
  write_get_range t b e = Ok (btree_range (overlay (writes t) (snapshot t)) b e).
Proof.
  intros Hbe. unfold write_get_range, map_range.
  rewrite Hbe. cbn [rbind]. f_equal. apply btree_iter_range. intros k.
  rewrite foldl_overlay_writes by apply btree_range_NoDup.
  rewrite foldl_overlay_snapshot by apply btree_range_NoDup.
  rewrite !lookup_range_map, lookup_overlay, lookup_empty.
  destruct (in_range b e k); [|done].
  destruct (snapshot t !! k), (writes t !! k) as [[]|]; done.
Qed.

(** ** Specification: a transaction is a sequence of map operations *)

Inductive TxnOp :=
| OpPut (k v : bytes)
| OpDelete (k : bytes)
| OpAdd (k : bytes) (n : Z).

Definition op_view (m : kvmap) (op : TxnOp) : kvmap :=
  match op with OpPut k v => <[k := v]> m | OpDelete k => delete k m | OpAdd _ _ => m end.
Definition ops_view (m : kvmap) (ops : list TxnOp) : kvmap := foldl op_view m ops.
Definition ops_adds (ops : list TxnOp) : list (bytes * Z) :=
  omap (fun op => match op with OpAdd k n => Some (k, n) | _ => None end) ops.

(** Running the operations on a transaction. *)
Definition run_op (t : InMemoryWriteTxn) (op : TxnOp) : Result StorageError InMemoryWriteTxn :=
  match op with
  | OpPut k v => write_put t k v
  | OpDelete k => write_delete t k
  | OpAdd k n => write_atomic_add t k n
  end.
Fixpoint run_ops (t : InMemoryWriteTxn) (ops : list TxnOp) : Result StorageError InMemoryWriteTxn :=
  match ops with
  | [] => Ok t
  | op :: ops => let? t := run_op t op in run_ops t ops
  end.

Lemma run_ops_overlay ops t :
  exists t', run_ops t ops = Ok t' /\ snapshot t' = snapshot t /\
    (forall m, overlay (writes t') m = ops_view (overlay (writes t) m) ops) /\
    atomic_adds t' = atomic_adds t ++ ops_adds ops.
Proof.
  revert t. induction ops as [|op ops IH]; intros t.
  { exists t. split_and!; try done. by rewrite app_nil_r. }
  cbn [run_ops]. destruct op as [k v|k|k n]; cbn [run_op write_put write_delete write_atomic_add rbind];
    match goal with |- context [run_ops ?u ops] => destruct (IH u) as (t' & -> & Hs & Hv & Ha) end;
    exists t'; (split_and!; [done|done| |]); cbn in *.
  - intros m. by rewrite Hv, overlay_insert.
  - done.
  - intros m. by rewrite Hv, overlay_delete.
  - done.
  - done.
  - by rewrite Ha, <-app_assoc.
Qed.

(** ** Properties *)

(** C3: A write transaction refines its operation sequence: from a snapshot
    [m], any sequence of puts, deletes and atomic adds succeeds; afterwards a
    point read and a range read return what the puts and deletes make of the
    snapshot (the adds are invisible), and [commit] applies exactly that
    sequence to whatever the shared map is at commit time, then the adds in
    staging order. *)
Theorem write_txn_refines_ops (m : kvmap) (ops : list TxnOp) :
  exists t0 t, begin_write m = Ok t0 /\ run_ops t0 ops = Ok t /\
    (forall k, write_get t k = Ok (ops_view m ops !! k)) /\
    (forall b e, write_get_range t b e =
       if key_ltb e b then Panic else Ok (btree_range (ops_view m ops) b e)) /\
    (forall target, write_commit t target = apply_adds (ops_view target ops) (ops_adds ops)).
Proof.
  destruct (run_ops_overlay ops (mkWriteTxn m ∅ [])) as (t & Hr & Hs & Hv & Ha).
  exists (mkWriteTxn m ∅ []), t. split_and!; [done|done| | |].
  - intros k. unfold write_get. rewrite read_through_overlay, Hv, Hs. cbn. by rewrite overlay_empty.
  - intros b e. destruct (key_ltb e b) eqn:Hbe.
    + unfold write_get_range, map_range. by rewrite Hbe.
    + rewrite write_get_range_overlay by done. rewrite Hv, Hs. cbn. by rewrite overlay_empty.
  - intros target. unfold write_commit. rewrite foldl_apply_overlay, Hv, Ha. cbn. by rewrite overlay_empty.
Qed.

Lemma counter_value_insert m k z : is_i64 z -> counter_value (<[k := i64_to_be z]> m) k = z.
Proof.
  intros. unfold counter_value. rewrite lookup_insert_eq. unfold i64_to_be at 1.
  rewrite length_to_be. cbn. by apply i64_of_to_be.
Qed.

Lemma apply_adds_single m k n :
  is_i64 (counter_value m k + n) ->
  apply_adds m [(k, n)] = (<[k := i64_to_be (counter_value m k + n)]> m, Ok tt).
Proof. intros. cbn. by rewrite i64_checked_add_Some. Qed.

(** Concurrent atomic adds are not lost: two transactions that begin from
    the same snapshot and each add to the same counter commit, in either
    order, to the same map, with the counter raised by the sum, as long as the
    sum and the partial sums fit an [i64]. *)
Theorem concurrent_adds_sum (m : kvmap) (k : bytes) (a b : Z) (t1 t2 : InMemoryWriteTxn) :
  is_i64 (counter_value m k + a) -> is_i64 (counter_value m k + b) ->
  is_i64 (counter_value m k + a + b) ->
  run_ops (mkWriteTxn m ∅ []) [OpAdd k a] = Ok t1 ->
  run_ops (mkWriteTxn m ∅ []) [OpAdd k b] = Ok t2 ->
  let final := <[k := i64_to_be (counter_value m k + a + b)]> m in
  write_commit t2 (write_commit t1 m).1 = (final, Ok tt) /\
  write_commit t1 (write_commit t2 m).1 = (final, Ok tt).
Proof.
  intros Ha Hb Hab [= <-] [= <-]. cbn [app]. unfold write_commit. cbn [writes atomic_adds].
  rewrite !foldl_apply_overlay, !overlay_empty.
  rewrite (apply_adds_single m k a), (apply_adds_single m k b) by done. cbn [fst].
  assert (counter_value m k + b + a = counter_value m k + a + b) as Hc by lia.
  split; (rewrite apply_adds_single; rewrite counter_value_insert by done; rewrite ?Hc; [|done]);
    by rewrite insert_insert_eq.
Qed.

Lemma concurrent_adds_sum_witness :
  exists t1 t2 : InMemoryWriteTxn,
    write_commit t2 (write_commit t1 ∅).1 =
    (<[lit "c" := i64_to_be (counter_value ∅ (lit "c") + 3 + 4)]> ∅, Ok tt).
Proof.
  exists (mkWriteTxn ∅ ∅ [(lit "c", 3)]), (mkWriteTxn ∅ ∅ [(lit "c", 4)]).
  refine (proj1 (concurrent_adds_sum ∅ (lit "c") 3 4 _ _ _ _ _ _ _)).
  1-3: apply (bool_decide_unpack _); vm_compute; exact I.
  all: reflexivity.
Defined.

(** A commit is not all-or-nothing: when a staged atomic add overflows,
    [commit] returns an error after the puts and deletes, and the adds staged
    before it, have already been applied to the shared map. *)
Theorem commit_overflow_not_atomic :
  exists (m m' : kvmap) (t : InMemoryWriteTxn),
    snapshot t = m /\ write_commit t m = (m', Err (Backend AtomicAddOverflow)) /\
    m !! lit "row" = None /\ m' !! lit "row" = Some [x2a].
Proof.
  set (m := <[lit "c" := i64_to_be i64_MAX]> (∅ : kvmap)).
  exists m, (<[lit "row" := [x2a]]> m), (mkWriteTxn m (<[lit "row" := Some [x2a]]> ∅) [(lit "c", 1)]).
  split_and!; [done|vm_compute; reflexivity|vm_compute; reflexivity|by rewrite lookup_insert_eq].
Qed.

(** The direct object operations: a successful [put] makes the object, with
    its assigned DNT, the answer to lookups by its UUID and by its DN, and
    leaves every other entry of the three indexes alone; [put] fails only when
    the DNT counter is exhausted, and then changes nothing; after [delete] the
    UUID resolves to nothing. *)
Theorem mem_put_get_delete (s : InMemoryDirectoryStore) (obj : Object) :
  let d := if decide (obj_dnt obj = UNASSIGNED_DNT) then next_dnt s else obj_dnt obj in
  let obj' := mkObject (obj_uuid obj) (obj_dn obj) (obj_attributes obj) d in
  match mem_put s obj with
  | (s', Ok tt) =>
      mem_get s' (obj_uuid obj) = Ok (Some obj') /\ mem_get_by_dn s' (obj_dn obj) = Ok (Some obj') /\
      (forall u, u <> obj_uuid obj -> uuid_to_dnt s' !! u = uuid_to_dnt s !! u) /\
      (forall n, n <> dn (obj_dn obj) -> dn_to_dnt s' !! n = dn_to_dnt s !! n) /\
      (forall d', d' <> d -> objects s' !! d' = objects s !! d') /\
      mem_get (mem_delete s' (obj_uuid obj)).1 (obj_uuid obj) = Ok None
  | (s', r) => s' = s /\ r = Err (Backend DntCounterOverflow) /\
      obj_dnt obj = UNASSIGNED_DNT /\ 2 ^ 64 <= next_dnt s + 1
  end.
Proof.
  cbn zeta. unfold mem_put.
  destruct (decide (obj_dnt obj = UNASSIGNED_DNT)) as [Hd|Hd].
  - destruct (Z.ltb_spec (next_dnt s + 1) (2 ^ 64)); [|done].
    unfold mem_get, mem_get_by_dn, mem_delete. cbn. rewrite !lookup_insert_eq. cbn.
    rewrite lookup_delete_eq. split_and!; try done; intros; by rewrite lookup_insert_ne.
  - unfold mem_get, mem_get_by_dn, mem_delete. cbn. rewrite !lookup_insert_eq. cbn.
    rewrite lookup_delete_eq. split_and!; try done; intros; by rewrite lookup_insert_ne.
Qed.
