(* ===== verification/TxnContract.v ===== *)
(** * TxnContract: what a client of a write transaction may rely on

    [TxnLaws] is the interface between the transaction backends and the code
    that uses them: reads observe a view, [put] and [delete] update it,
    [atomic_add] does not, and a commit with no interleaved commit leaves the
    view with the staged adds applied.  [InMemoryWriteTxn] discharges it here
    and the [FdbTxn] wrapper in [FdbProofs].  The generic lemmas give the effect
    of the [DirectoryTransaction] default methods against the interface. *)
From S2P Require Import Prelude Bytes Text StorageKeys StorageTxn MemStore.

Class TxnLaws (T : Type) `{WT : !WriteTxn kvmap T} := {
  txn_view : T -> kvmap;
  txn_adds : T -> list (bytes * Z);
  txn_base : T -> kvmap;
  txn_writable : T -> Prop;
  law_get t k : txn_get t k = Ok (txn_view t !! k);
  law_get_range t b e : key_le b e -> txn_get_range t b e = Ok (btree_range (txn_view t) b e);
  law_put t k v : txn_writable t -> exists t', txn_put t k v = Ok t' /\ txn_writable t' /\
    txn_base t' = txn_base t /\ txn_view t' = <[k := v]> (txn_view t) /\ txn_adds t' = txn_adds t;
  law_delete t k : txn_writable t -> exists t', txn_delete t k = Ok t' /\ txn_writable t' /\
    txn_base t' = txn_base t /\ txn_view t' = delete k (txn_view t) /\ txn_adds t' = txn_adds t;
  law_atomic_add t k n : txn_writable t -> exists t', txn_atomic_add t k n = Ok t' /\
    txn_writable t' /\ txn_base t' = txn_base t /\ txn_view t' = txn_view t /\
    txn_adds t' = txn_adds t ++ [(k, n)];
  law_commit t : txn_writable t -> txn_commit t (txn_base t) = apply_adds (txn_view t) (txn_adds t);
}.

(** [txn_upd t t' v a]: [t'] is [t] after writes that leave the view [v] and
    the staged adds [a]. *)
Definition txn_upd `{TL : TxnLaws T} (t t' : T) (v : kvmap) (a : list (bytes * Z)) : Prop :=
  txn_writable t' /\ txn_base t' = txn_base t /\ txn_view t' = v /\ txn_adds t' = a.

#[global] Instance InMemoryWriteTxn_laws : TxnLaws InMemoryWriteTxn.
Proof.
  refine {| txn_view := fun t => overlay (writes t) (snapshot t); txn_adds := atomic_adds;
            txn_base := snapshot; txn_writable := fun _ => True |}.
  - intros t k. cbn. unfold write_get. by rewrite read_through_overlay.
  - intros t b e. apply write_get_range_overlay.
  - intros t k v _. eexists; split; [done|]. cbn. by rewrite overlay_insert.
  - intros t k _. eexists; split; [done|]. cbn. by rewrite overlay_delete.
  - intros t k n _. by eexists.
  - intros t _. cbn. unfold write_commit. by rewrite foldl_apply_overlay.
Defined.

Lemma prefix_range_le p r : KeyRange_prefix p = Some r -> key_le (range_begin r) (range_end r).
Proof.
  unfold KeyRange_prefix. destruct (strinc p) as [e|] eqn:He; [|done]. intros [= <-]. simpl.
  apply key_le_lteq. left. by apply (strinc_spec p e He).
Qed.

Lemma object_prefix_range ss dnt : exists r, KeyRange_prefix (encode_object_prefix ss dnt) = Some r.
Proof.
  unfold KeyRange_prefix. destruct (strinc (encode_object_prefix ss dnt)) as [e|] eqn:He; [by eexists|].
  apply strinc_None, Forall_cons in He as [He _]. destruct ss; by vm_compute in He.
Qed.

(** The rows of one object, in key order. *)
Definition object_range (m : kvmap) (dnt : Dnt) : list (bytes * bytes) :=
  match KeyRange_prefix (encode_object_prefix Objects dnt) with
  | Some r => btree_range m (range_begin r) (range_end r)
  | None => []
  end.

Lemma elem_of_object_range m dnt k v :
  (k, v) ∈ object_range m dnt <-> m !! k = Some v /\ encode_object_prefix Objects dnt `prefix_of` k.
Proof.
  unfold object_range. destruct (object_prefix_range Objects dnt) as [r Hr]. rewrite Hr.
  by rewrite elem_of_btree_range, (KeyRange_prefix_iff _ _ Hr).
Qed.

Lemma object_range_unique m dnt l :
  StronglySorted (fun x y => key_lt x.1 y.1) l ->
  (forall k v, (k, v) ∈ l <-> m !! k = Some v /\ encode_object_prefix Objects dnt `prefix_of` k) ->
  object_range m dnt = l.
Proof.
  intros Hs Hl. unfold object_range. destruct (object_prefix_range Objects dnt) as [r Hr]. rewrite Hr.
  apply btree_range_unique; [done|]. intros k v. by rewrite Hl, (KeyRange_prefix_iff _ _ Hr).
Qed.

Section laws.
Context {T : Type} `{TL : TxnLaws T}.
Implicit Types (t : T).

(** Scanning an object prefix through any lawful transaction. *)
Lemma scan_object_view t dnt :
  exists r, KeyRange_prefix (encode_object_prefix Objects dnt) = Some r /\
    txn_get_range t (range_begin r) (range_end r) = Ok (object_range (txn_view t) dnt).
Proof.
  destruct (object_prefix_range Objects dnt) as [r Hr]. exists r. split; [done|].
  rewrite law_get_range by (by eapply prefix_range_le). unfold object_range. by rewrite Hr.
Qed.

Lemma get_object_rows_view t dnt :
  get_object_rows t dnt = Ok (decode_rows (object_range (txn_view t) dnt)).
Proof.
  unfold get_object_rows. destruct (scan_object_view t dnt) as (r & -> & H).
  cbn [ok_or rbind]. by rewrite H.
Qed.

Lemma decode_i64_be_to_be n : is_i64 n -> decode_i64_be (i64_to_be n) = Some n.
Proof.
  intros. unfold decode_i64_be, i64_to_be at 1. rewrite length_to_be. cbn.
  by rewrite i64_of_to_be.
Qed.

Lemma lookup_dnt_by_uuid_view t u n :
  txn_view t !! encode_uuid_index_key u = i64_to_be <$> n -> (forall d, n = Some d -> 0 <= d < 2 ^ 63) ->
  lookup_dnt_by_uuid t u = Ok n.
Proof.
  intros Hv Hn. unfold lookup_dnt_by_uuid. rewrite law_get, Hv. cbn [rbind].
  destruct n as [d|]; [|done]. cbn. specialize (Hn d eq_refl).
  rewrite decode_i64_be_to_be by uint. cbn. by rewrite as_uint_id by uint.
Qed.

Lemma allocate_dnt_view t n :
  txn_writable t ->
  txn_view t !! encode_dnt_counter_key = i64_to_be <$> n ->
  0 <= default 0 n < i64_MAX ->
  exists t', allocate_dnt t = Ok (default 0 n + 1, t') /\
    txn_upd t t' (txn_view t) (txn_adds t ++ [(encode_dnt_counter_key, 1)]).
Proof.
  intros Hw Hv Hn. unfold allocate_dnt. rewrite law_get, Hv. cbn [rbind].
  assert (match i64_to_be <$> n with
          | Some b => ok_or (decode_i64_be b) (Backend DntCounterNotEightBytes)
          | None => Ok 0 end = Ok (default 0 n)) as ->.
  { destruct n as [n|]; [|done]. cbn in *. rewrite decode_i64_be_to_be; [done|]. uint. }
  cbn [rbind]. rewrite (proj2 (Z.ltb_ge _ _)) by lia.
  rewrite i64_checked_add_Some by uint. cbn [ok_or rbind].
  destruct (law_atomic_add t encode_dnt_counter_key 1 Hw) as (t' & -> & ? & ? & ? & ?).
  exists t'. cbn [rbind]. by rewrite as_uint_id by uint.
Qed.

Lemma put_upd t t0 v a k x :
  txn_upd t0 t v a -> exists t', txn_put t k x = Ok t' /\ txn_upd t0 t' (<[k := x]> v) a.
Proof.
  intros (Hw & Hb & <- & <-). destruct (law_put t k x Hw) as (t' & ? & ? & ? & ? & ?).
  exists t'. unfold txn_upd. split_and!; congruence.
Qed.
Lemma delete_upd t t0 v a k :
  txn_upd t0 t v a -> exists t', txn_delete t k = Ok t' /\ txn_upd t0 t' (delete k v) a.
Proof.
  intros (Hw & Hb & <- & <-). destruct (law_delete t k Hw) as (t' & ? & ? & ? & ? & ?).
  exists t'. unfold txn_upd. split_and!; congruence.
Qed.
Lemma atomic_add_upd t t0 v a k n :
  txn_upd t0 t v a -> exists t', txn_atomic_add t k n = Ok t' /\ txn_upd t0 t' v (a ++ [(k, n)]).
Proof.
  intros (Hw & Hb & <- & <-). destruct (law_atomic_add t k n Hw) as (t' & ? & ? & ? & ? & ?).
  exists t'. unfold txn_upd. split_and!; congruence.
Qed.
Lemma commit_upd t t0 v a : txn_upd t0 t v a -> txn_commit t (txn_base t0) = apply_adds v a.
Proof. intros (Hw & <- & <- & <-). by apply law_commit. Qed.

Lemma set_indexes_upd t t0 v a uuid d dnt :
  txn_upd t0 t v a ->
  exists t', set_indexes t uuid d dnt = Ok t' /\
    txn_upd t0 t' (<[encode_object_key Objects dnt DNT_ATTR_SENTINEL 0 := i64_to_be (as_i64 dnt)]>
      (<[encode_dn_index_key d := i64_to_be (as_i64 dnt)]>
      (<[encode_uuid_index_key uuid := i64_to_be (as_i64 dnt)]> v))) a.
Proof.
  intros H. unfold set_indexes.
  destruct (put_upd _ _ _ _ (encode_uuid_index_key uuid) (i64_to_be (as_i64 dnt)) H) as (t1 & -> & H1).
  cbn [rbind].
  destruct (put_upd _ _ _ _ (encode_dn_index_key d) (i64_to_be (as_i64 dnt)) H1) as (t2 & -> & H2).
  cbn [rbind]. eapply put_upd, H2.
Qed.
End laws.
