(* ===== verification/FdbStore.v ===== *)
(** * FdbStore: the directory store (crate [adrian-storage-fdb])

    [FdbDirectoryStore] over its default backend (the [fdb] cargo feature off):
    the tuple-layer rows live in the key-value map of the in-memory store.  The
    transaction wrapper [FdbTxn], the object operations [get], [get_by_dn],
    [put], [delete] with its tombstone, and the attribute row codec.  The
    operations take the shared map and return it. *)
From S2P Require Import Prelude Bytes Text StorageKeys StorageTxn MemStore TxnContract.

(** ** [FdbTxn]: a wrapper around a read or a write transaction *)

Inductive FdbTxn (R W : Type) :=
| FdbRead (t : R)
| FdbWrite (t : W).
Arguments FdbRead {R W} t.
Arguments FdbWrite {R W} t.

Section fdb_txn.
Context {S R W : Type} `{!ReadTxn R, !WriteTxn S W}.

Definition is_read_only (t : FdbTxn R W) : bool :=
  match t with FdbRead _ => true | FdbWrite _ => false end.

Definition fdbtxn_get (t : FdbTxn R W) (key : bytes) : Result StorageError (option bytes) :=
  match t with FdbRead t => txn_get t key | FdbWrite t => txn_get t key end.
Definition fdbtxn_get_range (t : FdbTxn R W) (b e : bytes)
    : Result StorageError (list (bytes * bytes)) :=
  match t with FdbRead t => txn_get_range t b e | FdbWrite t => txn_get_range t b e end.

Definition fdbtxn_put (t : FdbTxn R W) (key value : bytes) : Result StorageError (FdbTxn R W) :=
  match t with
  | FdbWrite t => let? t := txn_put t key value in Ok (FdbWrite t)
  | FdbRead _ => Err (Backend (ReadOnlyTransaction (lit "put")))
  end.
Definition fdbtxn_delete (t : FdbTxn R W) (key : bytes) : Result StorageError (FdbTxn R W) :=
  match t with
  | FdbWrite t => let? t := txn_delete t key in Ok (FdbWrite t)
  | FdbRead _ => Err (Backend (ReadOnlyTransaction (lit "delete")))
  end.
Definition fdbtxn_atomic_add (t : FdbTxn R W) (key : bytes) (value : Z)
    : Result StorageError (FdbTxn R W) :=
  match t with
  | FdbWrite t => let? t := txn_atomic_add t key value in Ok (FdbWrite t)
  | FdbRead _ => Err (Backend (ReadOnlyTransaction (lit "atomic_add")))
  end.
Definition fdbtxn_commit (t : FdbTxn R W) (s : S) : S * Result StorageError unit :=
  match t with
  | FdbWrite t => txn_commit t s
  | FdbRead _ => (s, Err (Backend (ReadOnlyTransaction (lit "commit"))))
  end.
Definition fdbtxn_rollback (t : FdbTxn R W) : Result StorageError unit :=
  match t with FdbWrite t => txn_rollback t | FdbRead _ => Ok tt end.

#[global] Instance FdbTxn_ReadTxn : ReadTxn (FdbTxn R W) :=
  {| txn_get := fdbtxn_get; txn_get_range := fdbtxn_get_range |}.
#[global] Instance FdbTxn_WriteTxn : WriteTxn S (FdbTxn R W) :=
  {| write_read := FdbTxn_ReadTxn; txn_put := fdbtxn_put; txn_delete := fdbtxn_delete;
     txn_atomic_add := fdbtxn_atomic_add; txn_commit := fdbtxn_commit;
     txn_rollback := fdbtxn_rollback |}.
End fdb_txn.

(** ** [DirectoryTransaction::tombstone] for [FdbTxn] *)

(** [u32::try_from(len)] and [u16::try_from(len)]. *)
Definition try_from_usize (w : Z) (n : nat) : option Z :=
  if Z.of_nat n <? 2 ^ w then Some (Z.of_nat n) else None.

(** The UUID of the [UUID_ATTR_SENTINEL] row; the last such row wins. *)
Definition row_uuid (kv : bytes * bytes) : option Uuid :=
  match decode_object_key kv.1 Objects with
  | Some (_, attr_id, _) =>
      if (attr_id =? UUID_ATTR_SENTINEL) && (length kv.2 =? 16)%nat
      then Some (uuid_from_bytes kv.2) else None
  | None => None
  end.
Definition last_row_uuid (rows : list (bytes * bytes)) : option Uuid :=
  foldl (fun acc kv => match row_uuid kv with Some u => Some u | None => acc end) None rows.
Definition first_row_uuid (rows : list (bytes * bytes)) : option Uuid :=
  head (omap row_uuid rows).

Section tombstone.
Context {S T : Type} `{!WriteTxn S T}.

Fixpoint delete_keys (t : T) (rows : list (bytes * bytes)) : Result StorageError T :=
  match rows with
  | [] => Ok t
  | (key, _) :: rows => let? t := txn_delete t key in delete_keys t rows
  end.

Definition tombstone (t : T) (nc_head_dnt deleted_object_dnt : Dnt)
    (preserved_attributes : bytes) (when_deleted_unix_seconds : Z) : Result StorageError T :=
  let? pres_len := ok_or (try_from_usize 32 (length preserved_attributes))
      (Backend (PreservedAttributesTooLong (length preserved_attributes))) in
  let value := to_be 4 pres_len ++ preserved_attributes ++ i64_to_be when_deleted_unix_seconds in
  let? t := txn_put t (encode_tombstone_key nc_head_dnt deleted_object_dnt) value in
  let? range := ok_or (KeyRange_prefix (encode_object_prefix Objects deleted_object_dnt))
      (Backend ObjectPrefixAllFF) in
  let? rows := txn_get_range t (range_begin range) (range_end range) in
  let uuid_to_delete := last_row_uuid rows in
  let? t := delete_keys t rows in
  match uuid_to_delete with
  | Some uuid => txn_delete t (encode_uuid_index_key uuid)
  | None => Ok t
  end.
End tombstone.

(** ** Attribute rows *)

Definition encode_attr_value (name value : bytes) : bytes :=
  let name_len := default 0xFFFF (try_from_usize 16 (length name)) in
  to_be 2 name_len ++ name ++ value.

Definition decode_attr_value (b : bytes) : option (bytes * bytes) :=
  if (length b <? 2)%nat then None
  else
    let name_len := Z.to_nat (of_be (take 2 b)) in
    if (length b <? 2 + name_len)%nat then None
    else match from_utf8 (take name_len (drop 2 b)) with
         | Some name => Some (name, drop (2 + name_len) b)
         | None => None
         end.

(** ** The store *)

Inductive FdbBackend := FdbInMemory (s : InMemoryDirectoryStore).
Record FdbDirectoryStore := mkFdbStore {
  cluster_file : option bytes;
  fdb_inner : FdbBackend;
}.
Definition FdbDirectoryStore_new (cluster_file : option bytes) : FdbDirectoryStore :=
  mkFdbStore cluster_file (FdbInMemory InMemoryDirectoryStore_new).
Definition FdbDirectoryStore_in_memory : FdbDirectoryStore :=
  mkFdbStore None (FdbInMemory InMemoryDirectoryStore_new).
(** [connect] without the [fdb] feature. *)
Definition FdbDirectoryStore_connect (cluster_file : option bytes)
    : Result StorageError FdbDirectoryStore := Err (Backend FdbFeatureRequired).
Definition is_in_memory_fallback (s : FdbDirectoryStore) : bool :=
  match fdb_inner s with FdbInMemory _ => true end.

(** The shared key-value map of the default backend. *)
Definition store_kv (s : FdbDirectoryStore) : kvmap :=
  match fdb_inner s with FdbInMemory st => kv st end.

Abbreviation MemFdbTxn := (FdbTxn InMemoryReadTxn InMemoryWriteTxn).

Definition begin_directory_write (m : kvmap) : Result StorageError MemFdbTxn :=
  let? txn := begin_write m in Ok (FdbWrite txn).
Definition fdb_begin_read (m : kvmap) : Result StorageError MemFdbTxn :=
  let? txn := begin_read m in Ok (FdbRead txn).
Definition fdb_begin_write (m : kvmap) : Result StorageError MemFdbTxn :=
  let? txn := begin_write m in Ok (FdbWrite txn).

(** One row of [read_object_from_range]'s loop: the DN seen so far and the
    attributes pushed so far. *)
Definition read_row (acc : option DistinguishedName * list Attribute) (kv : bytes * bytes)
    : Result StorageError (option DistinguishedName * list Attribute) :=
  match decode_object_key kv.1 Objects with
  | None => Ok acc
  | Some (_, attr_id, val_idx) =>
      if attr_id =? DN_ATTR_SENTINEL then Ok (Some (mkDN (from_utf8_lossy kv.2)), acc.2)
      else if (attr_id =? UUID_ATTR_SENTINEL) || (attr_id =? DNT_ATTR_SENTINEL) then Ok acc
      else
        let? nv := ok_or (decode_attr_value kv.2) (Backend (MalformedAttributeRow attr_id val_idx)) in
        Ok (acc.1, acc.2 ++ [mkAttribute attr_id nv.1 nv.2])
  end.
Fixpoint read_rows (acc : option DistinguishedName * list Attribute) (rows : list (bytes * bytes))
    : Result StorageError (option DistinguishedName * list Attribute) :=
  match rows with
  | [] => Ok acc
  | row :: rows => let? acc := read_row acc row in read_rows acc rows
  end.

Definition read_object_from_range (txn : MemFdbTxn) (uuid : Uuid) (dnt : Dnt)
    : Result StorageError (option Object) :=
  let? range := ok_or (KeyRange_prefix (encode_object_prefix Objects dnt)) (Backend ObjectPrefixAllFF) in
  let? rows := txn_get_range txn (range_begin range) (range_end range) in
  match rows with
  | [] => Ok None
  | _ =>
      let? acc := read_rows (None, []) rows in
      Ok (Some (mkObject uuid (default (mkDN []) acc.1) acc.2 dnt))
  end.

Definition find_uuid_in_object_rows (txn : MemFdbTxn) (dnt : Dnt) : Result StorageError (option Uuid) :=
  let? range := ok_or (KeyRange_prefix (encode_object_prefix Objects dnt)) (Backend ObjectPrefixAllFF) in
  let? rows := txn_get_range txn (range_begin range) (range_end range) in
  Ok (first_row_uuid rows).

Definition fdb_get (m : kvmap) (uuid : Uuid) : Result StorageError (option Object) :=
  let? txn := fdb_begin_read m in
  let? dnt_bytes := txn_get txn (encode_uuid_index_key uuid) in
  match dnt_bytes with
  | None => Ok None
  | Some b =>
      let? dnt_i := ok_or (decode_i64_be b) (Backend UuidIndexNotEightBytes) in
      if dnt_i <? 0 then Err (Backend (DntNegative dnt_i))
      else read_object_from_range txn uuid (as_u64 dnt_i)
  end.

Definition fdb_get_by_dn (m : kvmap) (d : DistinguishedName) : Result StorageError (option Object) :=
  let? txn := fdb_begin_read m in
  let? dnt_bytes := txn_get txn (encode_dn_index_key d) in
  match dnt_bytes with
  | None => Ok None
  | Some b =>
      let? dnt_i := ok_or (decode_i64_be b) (Backend DnIndexNotEightBytes) in
      if dnt_i <? 0 then Err (Backend (DntNegative dnt_i))
      else
        let? u := find_uuid_in_object_rows txn (as_u64 dnt_i) in
        match u with
        | None => Ok None
        | Some uuid => read_object_from_range txn uuid (as_u64 dnt_i)
        end
  end.

(** The attribute loop of [put]; [i] is the [enumerate] counter. *)
Fixpoint put_attributes (txn : MemFdbTxn) (dnt : Dnt) (i : nat) (attrs : list Attribute)
    : Result StorageError MemFdbTxn :=
  match attrs with
  | [] => Ok txn
  | attr :: attrs =>
      let key := encode_object_key Objects dnt (attribute_id attr) (as_u32 (Z.of_nat i)) in
      let? txn := txn_put txn key (encode_attr_value (attr_name attr) (attr_value attr)) in
      put_attributes txn dnt (S i) attrs
  end.

(** [put] up to the commit: the transaction with every write staged. *)
Definition fdb_put_txn (m : kvmap) (obj : Object) : Result StorageError MemFdbTxn :=
  let? txn := begin_directory_write m in
  let? dt :=
    if decide (obj_dnt obj = UNASSIGNED_DNT) then
      let? existing := lookup_dnt_by_uuid txn (obj_uuid obj) in
      match existing with
      | Some existing => Ok (existing, txn)
      | None => allocate_dnt txn
      end
    else Ok (obj_dnt obj, txn) in
  let dnt := dt.1 in
  let? txn := set_indexes dt.2 (obj_uuid obj) (obj_dn obj) dnt in
  let? txn := txn_put txn (encode_object_key Objects dnt DN_ATTR_SENTINEL 0) (dn (obj_dn obj)) in
  let? txn := txn_put txn (encode_object_key Objects dnt UUID_ATTR_SENTINEL 0)
                (uuid_as_bytes (obj_uuid obj)) in
  put_attributes txn dnt 0 (obj_attributes obj).

(** Running a staged transaction against the shared map. *)
Definition commit_txn (r : Result StorageError MemFdbTxn) (m : kvmap) : kvmap * Result StorageError unit :=
  match r with
  | Ok txn => txn_commit txn m
  | Err e => (m, Err e)
  | Panic => (m, Panic)
  end.

Definition fdb_put (m : kvmap) (obj : Object) : kvmap * Result StorageError unit :=
  commit_txn (fdb_put_txn m obj) m.

(** The row loop of [delete]: the preserved UUID and DN, last row wins. *)
Definition preserve_row (acc : option Uuid * option bytes) (row : AttributeId * ValueIndex * bytes)
    : option Uuid * option bytes :=
  let '(attr_id, _, value) := row in
  if attr_id =? DN_ATTR_SENTINEL then (acc.1, from_utf8 value)
  else if (attr_id =? UUID_ATTR_SENTINEL) && (length value =? 16)%nat
  then (Some (uuid_from_bytes value), acc.2)
  else acc.

Definition tombstone_payload (uuid : Uuid) (dn_str : option bytes) : Result StorageError bytes :=
  match dn_str with
  | Some d =>
      let? len := ok_or (try_from_usize 16 (length d)) (Backend (DnTooLongForTombstone (length d))) in
      Ok (uuid_as_bytes uuid ++ to_be 2 len ++ d)
  | None => Ok (uuid_as_bytes uuid ++ to_be 2 0)
  end.

(** [delete] up to the commit; [None] when the UUID is unknown. *)
Definition fdb_delete_txn (m : kvmap) (uuid : Uuid) : Result StorageError (option MemFdbTxn) :=
  let? txn := begin_directory_write m in
  let? found := lookup_dnt_by_uuid txn uuid in
  match found with
  | None => let? _ := txn_rollback txn in Ok None
  | Some dnt =>
      let? rows := get_object_rows txn dnt in
      let preserved := foldl preserve_row (None, None) rows in
      let? payload := tombstone_payload (default uuid preserved.1) preserved.2 in
      let? txn := tombstone txn 1 dnt payload 0 in
      match preserved.2 with
      | Some d => let? txn := txn_delete txn (encode_dn_index_key (DistinguishedName_new d)) in Ok (Some txn)
      | None => Ok (Some txn)
      end
  end.

Definition fdb_delete (m : kvmap) (uuid : Uuid) : kvmap * Result StorageError unit :=
  match fdb_delete_txn m uuid with
  | Ok (Some txn) => txn_commit txn m
  | Ok None => (m, Ok tt)
  | Err e => (m, Err e)
  | Panic => (m, Panic)
  end.

(** Legacy helper: unknown bytes fall back to [Objects]. *)
Definition subspace_from_u8 (b : Z) : Subspace :=
  match b with
  | 1 => Objects | 2 => LinkTable | 3 => SdTable | 4 => SchemaCache | 5 => UtdVectorSub
  | 6 => RidPool | 7 => Tombstones | 8 => AuditLog | 9 => CaDb | 10 => Sigstore
  | 11 => Federation | 12 => FileGateway | 13 => IdentityMappingSub | 14 => MemberOfCache
  | 15 => TokenGroupsCache | 16 => ObjectUuidIndex | 17 => ObjectDnIndex
  | _ => Objects
  end.
