(* ===== verification/FdbProofs.v ===== *)
(** * FdbProofs: correctness of the directory store

    The [FdbTxn] wrapper discharges [TxnLaws]; a stored object is the union of
    its rows with the map; the invariant ties the UUID index, the object rows
    and the DNT counter together and is preserved by [put] and [delete]. *)
From S2P Require Import Prelude Bytes Text StorageKeys StorageTxn MemStore TxnContract FdbStore.

#[global] Instance MemFdbTxn_laws : TxnLaws MemFdbTxn.
Proof.
  refine {| txn_view := fun t => match t with FdbRead t => r_snapshot t | FdbWrite t => txn_view t end;
            txn_adds := fun t => match t with FdbRead _ => [] | FdbWrite t => txn_adds t end;
            txn_base := fun t => match t with FdbRead t => r_snapshot t | FdbWrite t => txn_base t end;
            txn_writable := fun t => is_read_only t = false |}.
  - intros [t|t] k; [done|]. apply (law_get t).
  - intros [t|t] b e H; [|by apply (law_get_range t)]. cbn. unfold read_get_range, map_range. by rewrite H.
  - intros [t|t] k v Hw; [done|]. destruct (law_put t k v) as (t' & E & _ & H); [exact I|].
    injection E as <-. by eexists (FdbWrite _).
  - intros [t|t] k Hw; [done|]. destruct (law_delete t k) as (t' & E & _ & H); [exact I|].
    injection E as <-. by eexists (FdbWrite _).
  - intros [t|t] k n Hw; [done|]. destruct (law_atomic_add t k n) as (t' & E & _ & H); [exact I|].
    injection E as <-. by eexists (FdbWrite _).
  - intros [t|t] Hw; [done|]. apply (law_commit t). exact I.
Defined.

(** The transaction [begin_directory_write] opens. *)
Definition txn0 (m : kvmap) : MemFdbTxn := FdbWrite (mkWriteTxn m ∅ []).
Lemma txn0_upd m : txn_upd (txn0 m) (txn0 m) m [].
Proof. unfold txn_upd. cbn. by rewrite overlay_empty. Qed.
Lemma txn0_view m : txn_view (txn0 m) = m.
Proof. cbn. by rewrite overlay_empty. Qed.

(** ** Key disjointness *)

Lemma object_key_inj d a v d' a' v' :
  is_u64 d -> is_u64 d' -> is_u32 a -> is_u32 a' -> is_u32 v -> is_u32 v' ->
  encode_object_key Objects d a v = encode_object_key Objects d' a' v' -> d = d' /\ a = a' /\ v = v'.
Proof.
  intros Hd Hd' Ha Ha' Hv Hv' E.
  pose proof (decode_encode_object_key Objects d a v Hd Ha Hv) as H1.
  rewrite E, decode_encode_object_key in H1 by done. naive_solver.
Qed.
Lemma uuid_key_inj u u' :
  is_u128 u -> is_u128 u' -> encode_uuid_index_key u = encode_uuid_index_key u' -> u = u'.
Proof.
  intros Hu Hu' E. apply (app_split [_]) in E as [_ E]; [|done]. apply to_be_inj in E; uint.
Qed.

(** Keys of different subspaces differ in their first byte, the counter key
    from the object rows in its length. *)
Ltac key_ne :=
  let E := fresh in
  intros E;
  first [ apply (f_equal length) in E; autorewrite with len in E; discriminate E
        | apply (f_equal head) in E; cbn in E; by vm_compute in E
        | by vm_compute in E ].

Lemma uuid_dn_ne u d : encode_uuid_index_key u <> encode_dn_index_key d. Proof. key_ne. Qed.
Lemma uuid_obj_ne u d a v : encode_uuid_index_key u <> encode_object_key Objects d a v.
Proof. key_ne. Qed.
Lemma dn_obj_ne n d a v : encode_dn_index_key n <> encode_object_key Objects d a v.
Proof. key_ne. Qed.
Lemma ctr_uuid_ne u : encode_dnt_counter_key <> encode_uuid_index_key u. Proof. key_ne. Qed.
Lemma ctr_dn_ne d : encode_dnt_counter_key <> encode_dn_index_key d. Proof. key_ne. Qed.
Lemma ctr_obj_ne d a v : encode_dnt_counter_key <> encode_object_key Objects d a v.
Proof. key_ne. Qed.
Lemma tomb_uuid_ne a b u : encode_tombstone_key a b <> encode_uuid_index_key u. Proof. key_ne. Qed.
Lemma tomb_obj_ne a b d i v : encode_tombstone_key a b <> encode_object_key Objects d i v.
Proof. key_ne. Qed.
Lemma tomb_ctr_ne a b : encode_tombstone_key a b <> encode_dnt_counter_key. Proof. key_ne. Qed.

(** Prefix form: which keys lie under an object prefix. *)
Lemma prefix_object_key d d' a v :
  is_u64 d -> is_u64 d' -> encode_object_prefix Objects d `prefix_of` encode_object_key Objects d' a v <-> d = d'.
Proof.
  intros Hd Hd'. rewrite object_key_prefix. split.
  - intros [x E]. apply app_split in E as [E _]; [|by rewrite !length_encode_object_prefix].
    apply (app_split [_] _ [_]) in E as [_ E]; [|done]. symmetry. apply to_be_inj in E; uint.
  - intros ->. by eexists.
Qed.
Lemma object_key_under d a v : encode_object_prefix Objects d `prefix_of` encode_object_key Objects d a v.
Proof. rewrite object_key_prefix. by eexists. Qed.
Lemma prefix_tag_ne d k : head k <> Some (subspace_byte Objects) -> ~ encode_object_prefix Objects d `prefix_of` k.
Proof. intros H [x ->]. by apply H. Qed.
Lemma prefix_counter d : is_i64 d -> 0 <= d -> ~ encode_object_prefix Objects d `prefix_of` encode_dnt_counter_key.
Proof.
  intros Hd H0 [x E]. apply (f_equal (fun k => of_be (take 8 (drop 1 k)))) in E.
  rewrite (sub_app [subspace_byte Objects] (to_be 8 d) x (encode_object_prefix Objects d ++ x) 1 8),
    of_to_be_u64 in E by (done || len || uint).
  vm_compute in E. uint.
Qed.

(** ** The rows of an object *)

Definition attr_row (d : Dnt) (p : Z * Attribute) : bytes * bytes :=
  (encode_object_key Objects d (attribute_id p.2) p.1,
   encode_attr_value (attr_name p.2) (attr_value p.2)).
(** Attributes with the value index [put] gives them. *)
Definition indexed (i : nat) (attrs : list Attribute) : list (Z * Attribute) :=
  imap (fun j a => (as_u32 (Z.of_nat (i + j)), a)) attrs.

Definition sentinel_rows (d : Dnt) (obj : Object) : list (bytes * bytes) :=
  [(encode_object_key Objects d DNT_ATTR_SENTINEL 0, i64_to_be (as_i64 d));
   (encode_object_key Objects d UUID_ATTR_SENTINEL 0, uuid_as_bytes (obj_uuid obj));
   (encode_object_key Objects d DN_ATTR_SENTINEL 0, dn (obj_dn obj))].
(** What [put] accepts here: in-range fields, attribute ids below the
    sentinels, names that fit the two-byte length, well-formed text. *)
Definition attr_ok (a : Attribute) : Prop :=
  0 <= attribute_id a < DNT_ATTR_SENTINEL /\ Z.of_nat (length (attr_name a)) < 2 ^ 16 /\
  utf8_valid (attr_name a) = true.
Definition obj_ok (obj : Object) : Prop :=
  is_u128 (obj_uuid obj) /\ utf8_valid (dn (obj_dn obj)) = true /\
  Forall attr_ok (obj_attributes obj) /\ Z.of_nat (length (obj_attributes obj)) < 2 ^ 32.
#[global] Instance attr_ok_dec a : Decision (attr_ok a).
Proof. unfold attr_ok; apply _. Defined.
#[global] Instance obj_ok_dec o : Decision (obj_ok o).
Proof. unfold obj_ok; apply _. Defined.

Definition put_rows (l : list (bytes * bytes)) (m : kvmap) : kvmap :=
  foldl (fun m kv => <[kv.1 := kv.2]> m) m l.

(** Every row [put] writes, in its order. *)
Definition put_list (d : Dnt) (obj : Object) : list (bytes * bytes) :=
  [(encode_uuid_index_key (obj_uuid obj), i64_to_be (as_i64 d));
   (encode_dn_index_key (obj_dn obj), i64_to_be (as_i64 d));
   (encode_object_key Objects d DNT_ATTR_SENTINEL 0, i64_to_be (as_i64 d));
   (encode_object_key Objects d DN_ATTR_SENTINEL 0, dn (obj_dn obj));
   (encode_object_key Objects d UUID_ATTR_SENTINEL 0, uuid_as_bytes (obj_uuid obj))]
  ++ (attr_row d <$> indexed 0 (obj_attributes obj)).

Lemma put_attributes_upd d attrs i t t0 v a :
  txn_upd t0 t v a ->
  exists t', put_attributes t d i attrs = Ok t' /\
    txn_upd t0 t' (put_rows (attr_row d <$> indexed i attrs) v) a.
Proof.
  revert i t v. induction attrs as [|x attrs IH]; intros i t v H; [by exists t|].
  cbn [put_attributes].
  destruct (put_upd _ _ _ _ (encode_object_key Objects d (attribute_id x) (as_u32 (Z.of_nat i)))
    (encode_attr_value (attr_name x) (attr_value x)) H) as (t1 & -> & H1). cbn [rbind].
  destruct (IH (S i) t1 _ H1) as (t' & -> & H'). exists t'. split; [done|].
  replace (indexed i (x :: attrs)) with ((as_u32 (Z.of_nat i), x) :: indexed (S i) attrs); [done|].
  unfold indexed. rewrite imap_cons, Nat.add_0_r. f_equal.
  apply imap_ext. intros. cbn. do 3 f_equal. lia.
Qed.

Lemma lookup_put_rows_ne l m k : k ∉ l.*1 -> put_rows l m !! k = m !! k.
Proof.
  revert m. induction l as [|[k' v'] l IH]; intros m; [done|]. cbn. rewrite not_elem_of_cons.
  intros [? ?]. unfold put_rows in *. rewrite IH by done. by rewrite lookup_insert_ne.
Qed.
Lemma lookup_put_rows_elem l m k v : NoDup l.*1 -> (k, v) ∈ l -> put_rows l m !! k = Some v.
Proof.
  revert m. induction l as [|[k' v'] l IH]; intros m; cbn.
  { intros _ []%not_elem_of_nil. }
  rewrite NoDup_cons, elem_of_cons. intros [Hk Hl] [[= -> ->]|Hin].
  - change (put_rows l (<[k':=v']> m) !! k' = Some v'). rewrite lookup_put_rows_ne by done.
    by rewrite lookup_insert_eq.
  - by apply IH.
Qed.
Lemma lookup_put_rows l m k v :
  NoDup l.*1 -> (put_rows l m !! k = Some v <-> ((k, v) ∈ l \/ (~ k ∈ (l.*1) /\ m !! k = Some v))).
Proof.
  intros Hl. destruct (decide (k ∈ l.*1)) as [Hk|Hk].
  - apply list_elem_of_fmap in Hk as ([k' v'] & -> & Hin). cbn.
    rewrite (lookup_put_rows_elem l m k' v') by done. split.
    + intros [= ->]. by left.
    + intros [Hin'|[[] _]]; [|by apply list_elem_of_fmap; exists (k', v')].
      rewrite <-(lookup_put_rows_elem l m k' v Hl Hin').
      by rewrite (lookup_put_rows_elem l m k' v').
  - rewrite lookup_put_rows_ne by done. split; [by right|]. intros [Hin|[_ H]]; [|done].
    destruct Hk. apply list_elem_of_fmap. by exists (k, v).
Qed.

(** Sentinels are above every attribute id of an accepted object. *)
Lemma indexed_elem i attrs j a :
  (j, a) ∈ indexed i attrs -> Z.of_nat (i + length attrs) <= 2 ^ 32 ->
  a ∈ attrs /\ Z.of_nat i <= j < Z.of_nat (i + length attrs).
Proof.
  unfold indexed. rewrite elem_of_lookup_imap. intros (n & y & [= -> ->] & Hn) Hl.
  pose proof (lookup_lt_Some _ _ _ Hn). split; [by eapply list_elem_of_lookup_2|].
  rewrite as_uint_id by uint. lia.
Qed.
Lemma indexed_NoDup i attrs :
  Z.of_nat (i + length attrs) <= 2 ^ 32 -> NoDup (indexed i attrs).*1.
Proof.
  intros Hl. apply NoDup_alt. intros n m x.
  unfold indexed. rewrite !list_lookup_fmap, !list_lookup_imap.
  destruct (attrs !! n) eqn:En; [|done]. destruct (attrs !! m) eqn:Em; [|done].
  cbn. pose proof (lookup_lt_Some _ _ _ En). pose proof (lookup_lt_Some _ _ _ Em).
  rewrite !as_uint_id by uint. intros [= <-] [= E]. lia.
Qed.

(** The shape of an attribute row of an accepted object. *)
Lemma attr_rows_elem d obj k v :
  obj_ok obj -> (k, v) ∈ (attr_row d <$> indexed 0 (obj_attributes obj)) ->
  exists j a, k = encode_object_key Objects d (attribute_id a) j /\
    v = encode_attr_value (attr_name a) (attr_value a) /\ is_u32 j /\ attr_ok a.
Proof.
  intros (_ & _ & Ha & Hl) ([j a] & [= -> ->] & Hin)%list_elem_of_fmap.
  apply indexed_elem in Hin as [Hin Hj]; [|lia].
  exists j, a. split_and!; try done; [uint| ]. rewrite Forall_forall in Ha. by apply Ha.
Qed.

Lemma attr_rows_NoDup d obj :
  is_u64 d -> obj_ok obj -> NoDup (attr_row d <$> indexed 0 (obj_attributes obj)).*1.
Proof.
  intros Hd (_ & _ & Ha & Hl).
  pose proof (indexed_NoDup 0 (obj_attributes obj) ltac:(lia)) as Hn.
  rewrite <-list_fmap_compose. apply NoDup_fmap_2_strong.
  2: by apply NoDup_fmap_1 in Hn.
  intros [j a] [j' a'] H1 H2 E. cbn in E.
  pose proof (indexed_elem _ _ _ _ H1 ltac:(lia)) as [Ha1 Hj1].
  pose proof (indexed_elem _ _ _ _ H2 ltac:(lia)) as [Ha2 Hj2].
  rewrite Forall_forall in Ha. destruct (Ha _ Ha1) as [? _], (Ha _ Ha2) as [? _].
  apply object_key_inj in E as (_ & _ & ->); [|unfold DNT_ATTR_SENTINEL in *; uint..].
  pose proof (proj1 (NoDup_alt _) Hn) as Hn'.
  apply list_elem_of_lookup in H1 as [n1 H1], H2 as [n2 H2].
  assert (n1 = n2) as ->.
  { eapply Hn'; rewrite list_lookup_fmap; [by rewrite H1|by rewrite H2]. }
  congruence.
Qed.

Lemma put_list_NoDup d obj : is_u64 d -> obj_ok obj -> NoDup (put_list d obj).*1.
Proof.
  intros Hd Ho. unfold put_list. rewrite fmap_app. apply NoDup_app. split_and!.
  - cbn. rewrite !NoDup_cons, !elem_of_cons, !elem_of_nil. split_and!; [..|constructor].
    + intros [H|[H|[H|[H|[]]]]]; revert H; [apply uuid_dn_ne|apply uuid_obj_ne..].
    + intros [H|[H|[H|[]]]]; revert H; apply dn_obj_ne.
    + intros [H|[H|[]]]; apply object_key_inj in H; (done || (vm_compute; split; congruence) || naive_solver).
    + intros [H|[]]; apply object_key_inj in H; (done || (vm_compute; split; congruence) || naive_solver).
    + intros [].
  - intros k Hk ([k' v] & -> & Hin)%list_elem_of_fmap.
    apply attr_rows_elem in Hin as (j & a & -> & -> & Hj & [Ha _]); [|done].
    revert Hk. cbn. rewrite !elem_of_cons, elem_of_nil.
    intros [H|[H|[H|[H|[H|[]]]]]]; revert H;
      [intros H; symmetry in H; by apply uuid_obj_ne in H
      |intros H; symmetry in H; by apply dn_obj_ne in H|..];
      intros H; apply object_key_inj in H as (_ & H & _);
      unfold DNT_ATTR_SENTINEL, DN_ATTR_SENTINEL, UUID_ATTR_SENTINEL in *; uint.
  - by apply attr_rows_NoDup.
Qed.

(** ** The store invariant *)

(** A row under an object prefix: a decodable attribute row, or one of the
    three sentinel rows at value index 0. *)
Definition row_shape (d : Dnt) (k v : bytes) : Prop :=
  exists a i, is_u32 a /\ is_u32 i /\ k = encode_object_key Objects d a i /\
    ((a < DNT_ATTR_SENTINEL /\ is_Some (decode_attr_value v)) \/
     (i = 0 /\ (a = DNT_ATTR_SENTINEL \/ a = DN_ATTR_SENTINEL \/
        (a = UUID_ATTR_SENTINEL /\ exists u, is_u128 u /\ v = uuid_as_bytes u)))).

(** [fdb_inv m c]: the counter holds [c]; every object row has a DNT the
    counter has handed out and the shape above; the UUID index points at
    objects whose UUID row names the same UUID; DN index values are DNTs. *)
Record fdb_inv (m : kvmap) (c : Z) : Prop := {
  inv_range : 0 <= c <= i64_MAX;
  inv_counter : exists n, m !! encode_dnt_counter_key = i64_to_be <$> n /\ default 0 n = c;
  inv_rows d k v : 0 <= d <= i64_MAX -> encode_object_prefix Objects d `prefix_of` k ->
    m !! k = Some v -> 0 < d <= c /\ row_shape d k v;
  inv_uuid u b : is_u128 u -> m !! encode_uuid_index_key u = Some b ->
    exists d, b = i64_to_be d /\ 0 < d <= c /\
      m !! encode_object_key Objects d UUID_ATTR_SENTINEL 0 = Some (uuid_as_bytes u);
  inv_dn n b : m !! encode_dn_index_key n = Some b -> exists d, b = i64_to_be d /\ 0 < d <= c;
}.

Lemma fdb_inv_empty : fdb_inv ∅ 0.
Proof.
  split.
  - vm_compute. split; congruence.
  - exists None. by rewrite lookup_empty.
  - intros d k v _ _. by rewrite lookup_empty.
  - intros u b _. by rewrite lookup_empty.
  - intros n b. by rewrite lookup_empty.
Qed.

(** The objects [put] is called with: new ones ([obj_dnt = 0], as callers
    build them) or ones that [get] returned. *)
Definition put_ok (m : kvmap) (obj : Object) : Prop :=
  obj_ok obj /\ (obj_dnt obj = UNASSIGNED_DNT \/
    m !! encode_uuid_index_key (obj_uuid obj) = Some (i64_to_be (obj_dnt obj)) /\
    0 < obj_dnt obj <= i64_MAX).

(** The DNT [put] gives the object and the counter afterwards. *)
Definition put_dnt (m : kvmap) (c : Z) (obj : Object) : Dnt :=
  match m !! encode_uuid_index_key (obj_uuid obj) with
  | Some b => i64_of_be b
  | None => c + 1
  end.
Definition bump (m : kvmap) (c : Z) (obj : Object) : kvmap -> kvmap :=
  match m !! encode_uuid_index_key (obj_uuid obj) with
  | Some _ => id
  | None => <[encode_dnt_counter_key := i64_to_be (c + 1)]>
  end.

(** The writes after the DNT is known. *)
Lemma put_stage t0 t m a d obj :
  txn_upd t0 t m a ->
  exists t', (let? txn := set_indexes t (obj_uuid obj) (obj_dn obj) d in
     let? txn := txn_put txn (encode_object_key Objects d DN_ATTR_SENTINEL 0) (dn (obj_dn obj)) in
     let? txn := txn_put txn (encode_object_key Objects d UUID_ATTR_SENTINEL 0)
                   (uuid_as_bytes (obj_uuid obj)) in
     put_attributes txn d 0 (obj_attributes obj)) = Ok t' /\
    txn_upd t0 t' (put_rows (put_list d obj) m) a.
Proof.
  intros H. destruct (set_indexes_upd _ _ _ _ (obj_uuid obj) (obj_dn obj) d H) as (t1 & -> & H1).
  cbn [rbind].
  destruct (put_upd _ _ _ _ (encode_object_key Objects d DN_ATTR_SENTINEL 0) (dn (obj_dn obj)) H1)
    as (t2 & -> & H2). cbn [rbind].
  destruct (put_upd _ _ _ _ (encode_object_key Objects d UUID_ATTR_SENTINEL 0)
    (uuid_as_bytes (obj_uuid obj)) H2) as (t3 & -> & H3). cbn [rbind].
  apply (put_attributes_upd d (obj_attributes obj) 0 _ _ _ _ H3).
Qed.

Lemma ctr_not_in_put_list d obj : obj_ok obj -> encode_dnt_counter_key ∉ (put_list d obj).*1.
Proof.
  intros Ho. unfold put_list. rewrite fmap_app, elem_of_app. intros [H|H].
  - revert H. cbn. rewrite !elem_of_cons, elem_of_nil. intros [H|[H|[H|[H|[H|[]]]]]]; revert H;
      [apply ctr_uuid_ne|apply ctr_dn_ne|apply ctr_obj_ne..].
  - apply list_elem_of_fmap in H as ([k v] & E & Hin).
    apply attr_rows_elem in Hin as (j & a & -> & _); [|done]. by apply ctr_obj_ne in E.
Qed.

Lemma counter_value_inv m c : fdb_inv m c -> counter_value m encode_dnt_counter_key = c.
Proof.
  intros [Hc (n & Hn & <-) _ _ _]. unfold counter_value. rewrite Hn. destruct n as [n|]; [|done]. cbn.
  unfold i64_to_be at 1. rewrite length_to_be. cbn. apply i64_of_to_be. cbn in Hc. uint.
Qed.

(** The DNT choice of [put]: the index entry, the caller's DNT, or a new one. *)
Lemma put_choice m c obj :
  fdb_inv m c -> put_ok m obj -> put_dnt m c obj <= i64_MAX ->
  exists t, (if decide (obj_dnt obj = UNASSIGNED_DNT) then
      let? existing := lookup_dnt_by_uuid (txn0 m) (obj_uuid obj) in
      match existing with
      | Some existing => Ok (existing, txn0 m)
      | None => allocate_dnt (txn0 m)
      end
    else Ok (obj_dnt obj, txn0 m)) = Ok (put_dnt m c obj, t) /\
    txn_upd (txn0 m) t m (match m !! encode_uuid_index_key (obj_uuid obj) with
                          | Some _ => [] | None => [(encode_dnt_counter_key, 1)] end).
Proof.
  intros HI [Ho Hd] Hmax. destruct Ho as [Hu _]. unfold put_dnt in *.
  destruct (m !! encode_uuid_index_key (obj_uuid obj)) as [b|] eqn:Eb.
  - destruct (inv_uuid _ _ HI _ _ Hu Eb) as (d & -> & Hdc & _).
    pose proof (inv_range _ _ HI). rewrite i64_of_to_be in * by uint.
    exists (txn0 m). split; [|apply txn0_upd]. case_decide as Hz.
    + rewrite (lookup_dnt_by_uuid_view _ _ (Some d)); [done| |intros ? [= <-]; unfold i64_MAX in *; lia].
      by rewrite txn0_view, Eb.
    + destruct Hd as [?|[Hd ?]]; [done|]. apply (inj Some) in Hd. do 2 f_equal.
      apply (f_equal i64_of_be) in Hd. rewrite !i64_of_to_be in Hd by uint. done.
  - destruct Hd as [Hd|[? _]]; [|done]. rewrite decide_True by done.
    rewrite (lookup_dnt_by_uuid_view _ _ None); [|by rewrite txn0_view, Eb|done]. cbn [rbind].
    pose proof (inv_range _ _ HI). destruct (inv_counter _ _ HI) as (n & Hn & En).
    destruct (allocate_dnt_view (txn0 m) n) as (t & -> & Ht); rewrite ?txn0_view, ?En; [done..|lia|].
    exists t. split; [done|]. by rewrite txn0_view in Ht.
Qed.

Lemma fdb_put_eq m c obj :
  fdb_inv m c -> put_ok m obj -> put_dnt m c obj <= i64_MAX ->
  fdb_put m obj = (bump m c obj (put_rows (put_list (put_dnt m c obj) obj) m), Ok tt).
Proof.
  intros HI Ho Hmax. unfold fdb_put, fdb_put_txn.
  change (begin_directory_write m) with (@Ok StorageError _ (txn0 m)). cbn [rbind].
  destruct (put_choice m c obj HI Ho Hmax) as (t & -> & Ht). cbn [rbind fst snd].
  destruct (put_stage _ _ _ _ (put_dnt m c obj) obj Ht) as (t' & -> & Ht'). cbn [commit_txn].
  change m with (txn_base (txn0 m)) at 1. rewrite (commit_upd _ _ _ _ Ht'). unfold bump.
  destruct (m !! encode_uuid_index_key _) as [b|] eqn:Eb; [done|].
  assert (counter_value (put_rows (put_list (put_dnt m c obj) obj) m) encode_dnt_counter_key = c) as Hc.
  { unfold counter_value. rewrite lookup_put_rows_ne by (apply ctr_not_in_put_list, Ho).
    by apply counter_value_inv. }
  unfold put_dnt in Hmax. rewrite Eb in Hmax. pose proof (inv_range _ _ HI).
  rewrite apply_adds_single; rewrite Hc; [done|uint].
Qed.

(** With the counter exhausted a new object is refused and nothing changes. *)
Lemma fdb_put_full m c obj :
  fdb_inv m c -> put_ok m obj -> i64_MAX < put_dnt m c obj ->
  fdb_put m obj = (m, Err (Backend DntCounterOverflow)).
Proof.
  intros HI [[Hu _] Hd] Hmax. unfold put_dnt in Hmax. pose proof (inv_range _ _ HI).
  destruct (m !! encode_uuid_index_key (obj_uuid obj)) as [b|] eqn:Eb.
  { destruct (inv_uuid _ _ HI _ _ Hu Eb) as (d & -> & Hdc & _).
    rewrite i64_of_to_be in * by uint. lia. }
  destruct Hd as [Hd|[? _]]; [|done]. unfold fdb_put, fdb_put_txn.
  change (begin_directory_write m) with (@Ok StorageError _ (txn0 m)). cbn [rbind].
  rewrite decide_True by done.
  rewrite (lookup_dnt_by_uuid_view _ _ None); [|by rewrite txn0_view, Eb|done]. cbn [rbind].
  unfold allocate_dnt. rewrite law_get, txn0_view. destruct (inv_counter _ _ HI) as (n & -> & En).
  cbn [rbind]. destruct n as [n|]; cbn in En; [|subst; by vm_compute in Hmax].
  cbn. rewrite decode_i64_be_to_be by (subst; uint). cbn. rewrite (proj2 (Z.ltb_ge _ _)) by lia.
  unfold i64_checked_add. replace n with i64_MAX by lia. done.
Qed.

(** The attribute row codec round-trips. *)
Lemma decode_encode_attr_value name value :
  Z.of_nat (length name) < 2 ^ 16 -> utf8_valid name = true ->
  decode_attr_value (encode_attr_value name value) = Some (name, value).
Proof.
  intros Hn Hu. unfold encode_attr_value, try_from_usize. rewrite (proj2 (Z.ltb_lt _ _)) by lia.
  cbn [default from_option id]. unfold decode_attr_value.
  set (l := to_be 2 _ ++ name ++ value).
  assert (length l = (2 + length name + length value)%nat) as Hl by (unfold l; len).
  rewrite Hl. rewrite (proj2 (Nat.ltb_ge _ _)) by lia.
  replace (take 2 l) with (to_be 2 (Z.of_nat (length name)))
    by (symmetry; apply (sub_app [] _ (name ++ value) l 0 2); (done || len)).
  rewrite of_to_be_u16, Nat2Z.id by uint. rewrite (proj2 (Nat.ltb_ge _ _)) by lia.
  rewrite (sub_app (to_be 2 (Z.of_nat (length name))) name value l) by (done || len).
  unfold from_utf8. rewrite Hu.
  by rewrite (drop_app_end (to_be 2 (Z.of_nat (length name)) ++ name) value l)
    by (unfold l; rewrite <-?(assoc_L (++)); (done || len)).
Qed.

(** Which rows of [put_list] a key can match. *)
Lemma put_list_object d d' obj k v :
  obj_ok obj -> is_u64 d -> is_u64 d' -> (k, v) ∈ put_list d obj ->
  encode_object_prefix Objects d' `prefix_of` k -> d = d' /\ row_shape d k v.
Proof.
  intros Ho Hd Hd' Hin Hp.
  assert (forall a i, k = encode_object_key Objects d a i -> d = d') as Hpre.
  { intros a i ->. by apply prefix_object_key in Hp. }
  assert (forall a x, is_u32 a -> (k, v) = (encode_object_key Objects d a 0, x) ->
    (a = DNT_ATTR_SENTINEL \/ a = DN_ATTR_SENTINEL \/
      (a = UUID_ATTR_SENTINEL /\ exists u, is_u128 u /\ x = uuid_as_bytes u)) ->
    d = d' /\ row_shape d k v) as Hs.
  { intros a x Ha E Hs. injection E as Ek Ev. split; [by eapply Hpre|].
    exists a, 0. rewrite Ev. split_and!; try done. right. done. }
  unfold put_list in Hin. apply elem_of_app in Hin as [Hin|Hin].
  - rewrite !elem_of_cons, elem_of_nil in Hin. destruct Hin as [E|[E|[E|[E|[E|[]]]]]].
    + injection E as -> _. by apply prefix_tag_ne in Hp.
    + injection E as -> _. by apply prefix_tag_ne in Hp.
    + eapply Hs; [|exact E|]; [vm_compute; split; congruence|auto].
    + eapply Hs; [|exact E|]; [vm_compute; split; congruence|auto].
    + eapply Hs; [|exact E|]; [vm_compute; split; congruence|].
      right; right. split; [done|]. exists (obj_uuid obj). split; [apply Ho|done].
  - apply attr_rows_elem in Hin as (j & a & -> & -> & Hj & Ha & Hl & Hu); [|done].
    split; [by eapply Hpre|]. exists (attribute_id a), j.
    split_and!; try done; [unfold DNT_ATTR_SENTINEL in *; uint|].
    left. split; [apply Ha|]. by rewrite decode_encode_attr_value.
Qed.

Lemma put_list_uuid d obj u b :
  obj_ok obj -> is_u128 u -> (encode_uuid_index_key u, b) ∈ put_list d obj ->
  u = obj_uuid obj /\ b = i64_to_be (as_i64 d).
Proof.
  intros Ho Hu. unfold put_list. rewrite elem_of_app. intros [Hin|Hin].
  - rewrite !elem_of_cons, elem_of_nil in Hin.
    destruct Hin as [E|[E|[E|[E|[E|[]]]]]]; apply (f_equal fst) in E as E1; cbn in E1;
      [|by apply uuid_dn_ne in E1|by apply uuid_obj_ne in E1..].
    apply uuid_key_inj in E1; [|done|apply Ho]. split; [done|]. by apply (f_equal snd) in E.
  - apply attr_rows_elem in Hin as (j & a & E & _); [|done]. by apply uuid_obj_ne in E.
Qed.
Lemma put_list_dn d obj n b :
  obj_ok obj -> (encode_dn_index_key n, b) ∈ put_list d obj -> b = i64_to_be (as_i64 d).
Proof.
  intros Ho. unfold put_list. rewrite elem_of_app. intros [Hin|Hin].
  - rewrite !elem_of_cons, elem_of_nil in Hin.
    destruct Hin as [E|[E|[E|[E|[E|[]]]]]]; apply (f_equal fst) in E as E1; cbn in E1;
      [by symmetry in E1; apply uuid_dn_ne in E1| |by apply dn_obj_ne in E1..].
    by apply (f_equal snd) in E.
  - apply attr_rows_elem in Hin as (j & a & E & _); [|done]. by apply dn_obj_ne in E.
Qed.

(** ** [put] preserves the invariant *)
Section put.
Context (m : kvmap) (c : Z) (obj : Object).
Context (HI : fdb_inv m c) (Ho : put_ok m obj).
Let d := put_dnt m c obj.
Context (Hmax : d <= i64_MAX).
Let m' := (fdb_put m obj).1.

Lemma put_dnt_cases :
  0 < d <= Z.max c d /\
  ((m !! encode_uuid_index_key (obj_uuid obj) = None /\ d = c + 1) \/
   (d <= c /\ m !! encode_uuid_index_key (obj_uuid obj) = Some (i64_to_be d) /\
    m !! encode_object_key Objects d UUID_ATTR_SENTINEL 0 = Some (uuid_as_bytes (obj_uuid obj)))).
Proof.
  unfold d. pose proof (inv_range _ _ HI). unfold put_dnt.
  destruct (m !! encode_uuid_index_key (obj_uuid obj)) as [b|] eqn:Eb.
  - destruct (inv_uuid _ _ HI _ _ (proj1 (proj1 Ho)) Eb) as (e & -> & He & Hrow).
    rewrite i64_of_to_be by uint. split; [lia|]. right. split_and!; [lia|done|done].
  - split; [lia|]. by left.
Qed.

Lemma put_d_u64 : is_u64 d.
Proof. pose proof put_dnt_cases as [? _]. uint. Qed.

Lemma put_lookup k v :
  k <> encode_dnt_counter_key ->
  m' !! k = Some v <->
  ((k, v) ∈ put_list d obj \/ (~ k ∈ ((put_list d obj).*1) /\ m !! k = Some v)).
Proof.
  intros Hk. unfold m'. rewrite (fdb_put_eq m c obj) by done. cbn [fst].
  rewrite <-lookup_put_rows by (apply put_list_NoDup; [apply put_d_u64|apply Ho]).
  unfold bump. destruct (m !! encode_uuid_index_key _); [done|]. by rewrite lookup_insert_ne.
Qed.

Lemma put_lookup_in k v :
  (k, v) ∈ put_list d obj -> m' !! k = Some v.
Proof.
  intros Hin. apply put_lookup; [|by left]. intros ->.
  apply (ctr_not_in_put_list d obj); [apply Ho|]. apply list_elem_of_fmap. by exists (encode_dnt_counter_key, v).
Qed.

Lemma put_lookup_other k :
  k ∉ (put_list d obj).*1 -> k <> encode_dnt_counter_key -> m' !! k = m !! k.
Proof.
  intros Hk Hc. apply option_eq. intros v. rewrite put_lookup by done.
  split; [|by right]. intros [Hin|[_ ?]]; [|done].
  destruct Hk. apply list_elem_of_fmap. by exists (k, v).
Qed.

Lemma put_counter :
  exists n, m' !! encode_dnt_counter_key = i64_to_be <$> n /\ default 0 n = Z.max c d.
Proof.
  pose proof put_dnt_cases as [_ Hd]. unfold m'. rewrite (fdb_put_eq m c obj) by done.
  unfold bump. cbn [fst]. destruct Hd as [[-> Hd]|(Hle & -> & _)].
  - exists (Some (c + 1)). rewrite lookup_insert_eq. cbn. split; [done|lia].
  - cbn [id]. rewrite lookup_put_rows_ne by (apply ctr_not_in_put_list, Ho).
    destruct (inv_counter _ _ HI) as (n & -> & <-). exists n. split; [done|lia].
Qed.

Lemma put_row_other d' k : is_u64 d' -> d' <> d ->
  encode_object_prefix Objects d' `prefix_of` k -> k ∉ (put_list d obj).*1.
Proof.
  intros Hd' Hne Hp ([k' v] & -> & Hin)%list_elem_of_fmap.
  eapply put_list_object in Hin as [? _]; [|apply Ho|apply put_d_u64|done|done]. by apply Hne.
Qed.

Lemma fdb_inv_put : fdb_inv m' (Z.max c d).
Proof.
  pose proof put_dnt_cases as [Hd0 Hd]. pose proof (inv_range _ _ HI).
  assert (as_i64 d = d) as Hdi by (apply as_i64_id; uint).
  split.
  - lia.
  - apply put_counter.
  - intros d' k v Hd' Hp Hk.
    assert (k <> encode_dnt_counter_key) as Hne by (intros ->; apply prefix_counter in Hp; (done || lia || uint)).
    apply put_lookup in Hk as [Hin|[_ Hk]]; [| |done].
    + destruct (put_list_object d d' obj k v) as [E Hs]; [apply Ho|apply put_d_u64|uint|done|done|]. split; [lia|by rewrite <-E].
    + destruct (inv_rows _ _ HI d' k v) as [? ?]; [done..|]. split; [lia|done].
  - intros u b Hu Hk. apply put_lookup in Hk as [Hin|[Hn Hk]]; [| |by intros E%eq_sym; apply ctr_uuid_ne in E].
    + apply put_list_uuid in Hin as [-> ->]; [|apply Ho|done]. exists d. rewrite Hdi. split_and!; [done|lia|lia|].
      apply put_lookup_in. unfold put_list. set_solver.
    + destruct (inv_uuid _ _ HI _ _ Hu Hk) as (e & -> & He & Hrow). exists e. split_and!; [done|lia|lia|].
      destruct (decide (e = d)) as [->|Hne].
      * destruct Hd as [[_ ?]|(_ & _ & Hrow')]; [lia|]. rewrite Hrow in Hrow'.
        rewrite Hrow'. apply put_lookup_in. unfold put_list. set_solver.
      * rewrite put_lookup_other; [done| |by intros E%eq_sym; apply ctr_obj_ne in E].
        apply (put_row_other e); [uint|done|apply object_key_under].
  - intros n b Hk. apply put_lookup in Hk as [Hin|[_ Hk]]; [| |by intros E%eq_sym; apply ctr_dn_ne in E].
    + apply put_list_dn in Hin as ->; [|apply Ho]. exists d. by rewrite Hdi.
    + destruct (inv_dn _ _ HI _ _ Hk) as (e & -> & He). exists e. split; [done|lia].
Qed.
End put.

(** ** [delete] *)

(** A scan that overwrites its accumulator: all matches agree. *)
Lemma foldl_override {A B} (f : A -> option B) (l : list A) (x acc : B) :
  (forall a b, a ∈ l -> f a = Some b -> b = x) ->
  (acc = x \/ exists a, a ∈ l /\ f a = Some x) ->
  foldl (fun acc a => default acc (f a)) acc l = x.
Proof.
  revert acc. induction l as [|a l IH]; intros acc Hf Hx; cbn.
  { destruct Hx as [|(a & []%not_elem_of_nil & _)]; done. }
  apply IH; [set_solver|]. destruct (f a) as [b|] eqn:Ea; cbn.
  - left. apply (Hf a b); [set_solver|done].
  - destruct Hx as [|(a' & [->|Hin]%elem_of_cons & Hb)]; [by left|congruence|right; eauto].
Qed.

Lemma object_range_ext m m' d :
  (forall k, encode_object_prefix Objects d `prefix_of` k -> m !! k = m' !! k) ->
  object_range m d = object_range m' d.
Proof.
  intros H. symmetry. apply object_range_unique.
  - unfold object_range. destruct (object_prefix_range Objects d) as [r ->]. apply btree_range_strict.
  - intros k v. rewrite elem_of_object_range. split; intros [Hk Hp]; (split; [|done]).
    + by rewrite <-H.
    + by rewrite H.
Qed.

Section rows.
Context (m : kvmap) (c : Z) (HI : fdb_inv m c) (d : Dnt) (Hd : 0 <= d <= i64_MAX).

Lemma range_row k v :
  (k, v) ∈ object_range m d ->
  m !! k = Some v /\ exists a i, is_u32 a /\ is_u32 i /\ k = encode_object_key Objects d a i /\
    decode_object_key k Objects = Some (d, a, i).
Proof.
  rewrite elem_of_object_range. intros [Hk Hp]. split; [done|].
  destruct (inv_rows _ _ HI d k v Hd Hp Hk) as [_ (a & i & Ha & Hi & -> & _)].
  exists a, i. split_and!; try done; [uint..|]. apply decode_encode_object_key; [uint|done..].
Qed.

Lemma row_in_range a i v :
  m !! encode_object_key Objects d a i = Some v ->
  (encode_object_key Objects d a i, v) ∈ object_range m d.
Proof.
  intros H. apply elem_of_object_range. split; [done|apply object_key_under].
Qed.

Lemma elem_of_rows a i v :
  (a, i, v) ∈ decode_rows (object_range m d) <->
  is_u32 a /\ is_u32 i /\ m !! encode_object_key Objects d a i = Some v.
Proof.
  unfold decode_rows. rewrite list_elem_of_omap. split.
  - intros ([k w] & Hin & E). apply range_row in Hin as (Hk & a' & i' & Ha & Hi & -> & Hdec).
    cbn [fst snd] in E. rewrite Hdec in E. by injection E as <- <- <-.
  - intros (Ha & Hi & Hk). eexists (_, v). split; [by apply row_in_range|]. cbn [fst snd].
    by rewrite decode_encode_object_key by uint.
Qed.

(** Sentinel rows sit at value index 0, so there is at most one of each. *)
Lemma sentinel_index a i v :
  DNT_ATTR_SENTINEL <= a -> (a, i, v) ∈ decode_rows (object_range m d) ->
  m !! encode_object_key Objects d a 0 = Some v.
Proof.
  intros Hs (Ha & Hi & Hk)%elem_of_rows.
  destruct (inv_rows _ _ HI d _ v Hd (object_key_under d a i) Hk)
    as [_ (a' & i' & Ha' & Hi' & E & Hsh)].
  apply object_key_inj in E as (_ & <- & <-); [|uint..].
  destruct Hsh as [[? _]|[-> _]]; [lia|done].
Qed.
End rows.

Definition delete_rows (l : list (bytes * bytes)) (m : kvmap) : kvmap :=
  foldl (fun m kv => delete kv.1 m) m l.

Lemma lookup_delete_rows l m k :
  delete_rows l m !! k = if decide (k ∈ l.*1) then None else m !! k.
Proof.
  revert m. induction l as [|[k' v] l IH]; intros m; [done|].
  change (delete_rows ((k', v) :: l) m) with (delete_rows l (delete k' m)). rewrite IH. cbn.
  destruct (decide (k = k')) as [->|Hne].
  - rewrite (decide_True (P := k' ∈ k' :: _)) by set_solver. case_decide; [done|].
    apply lookup_delete_eq.
  - rewrite lookup_delete_ne by done. repeat case_decide; (done || set_solver).
Qed.

Lemma delete_keys_upd rows t t0 v a :
  txn_upd t0 t v a ->
  exists t', delete_keys t rows = Ok t' /\ txn_upd (T := MemFdbTxn) t0 t' (delete_rows rows v) a.
Proof.
  revert t v. induction rows as [|[k x] rows IH]; intros t v H; [by exists t|]. cbn [delete_keys].
  destruct (delete_upd _ _ _ _ k H) as (t1 & -> & H1). cbn [rbind]. apply IH, H1.
Qed.

(** The value of a tombstone row. *)
Definition tombstone_value (p : bytes) : bytes := to_be 4 (Z.of_nat (length p)) ++ p ++ i64_to_be 0.

(** The DN an object's rows carry. *)
Definition stored_dn (m : kvmap) (d : Dnt) : option bytes :=
  m !! encode_object_key Objects d DN_ATTR_SENTINEL 0 ≫= from_utf8.

(** What [delete] leaves: the tombstone row added, the object's rows, its UUID
    index entry and the index entry of its DN row gone. *)
Definition deleted (m : kvmap) (d : Dnt) (u : Uuid) (p : bytes) : kvmap :=
  match stored_dn m d with
  | Some n => delete (encode_dn_index_key (DistinguishedName_new n))
  | None => id
  end (delete (encode_uuid_index_key u)
         (delete_rows (object_range m d) (<[encode_tombstone_key 1 d := tombstone_value p]> m))).

Section delete.
Context (m : kvmap) (c : Z) (u : Uuid) (d : Dnt).
Context (HI : fdb_inv m c) (Hu : is_u128 u).
Context (Hidx : m !! encode_uuid_index_key u = Some (i64_to_be d)) (Hd : 0 < d <= i64_MAX).

Lemma del_row :
  0 < d <= c /\ m !! encode_object_key Objects d UUID_ATTR_SENTINEL 0 = Some (uuid_as_bytes u).
Proof.
  destruct (inv_uuid _ _ HI _ _ Hu Hidx) as (e & E & He & Hrow). pose proof (inv_range _ _ HI).
  apply (f_equal i64_of_be) in E. rewrite !i64_of_to_be in E by uint. by subst.
Qed.

Lemma uuid_from_as : uuid_from_bytes (uuid_as_bytes u) = u.
Proof. by apply of_to_be_u128. Qed.
Lemma uuid_as_bytes_length v : length (uuid_as_bytes v) = 16%nat.
Proof. apply length_to_be. Qed.

Lemma preserved_rows :
  foldl preserve_row (None, None) (decode_rows (object_range m d)) = (Some u, stored_dn m d).
Proof.
  destruct del_row as [Hdc Hrow].
  set (f1 := fun row : AttributeId * ValueIndex * bytes =>
    if (row.1.1 =? UUID_ATTR_SENTINEL) && (length row.2 =? 16)%nat
    then Some (Some (uuid_from_bytes row.2)) else None).
  set (f2 := fun row : AttributeId * ValueIndex * bytes =>
    if row.1.1 =? DN_ATTR_SENTINEL then Some (from_utf8 row.2) else None).
  assert (forall l acc, foldl preserve_row acc l =
    (foldl (fun a r => default a (f1 r)) acc.1 l, foldl (fun a r => default a (f2 r)) acc.2 l)) as ->.
  { induction l as [|[[a i] v] l IH]; intros [x y]; [done|]. cbn [foldl]. rewrite IH.
    unfold preserve_row, f1, f2. cbn [fst snd]. destruct (a =? DN_ATTR_SENTINEL) eqn:E.
    - apply Z.eqb_eq in E as ->. done.
    - by destruct (_ && _). }
  cbn [fst snd]. f_equal; apply foldl_override; unfold f1, f2.
  - intros [[a i] v] b Hin. cbn [fst snd]. destruct (a =? UUID_ATTR_SENTINEL) eqn:E; [|done].
    apply Z.eqb_eq in E as ->. apply (sentinel_index m c) in Hin; [|done|lia|done].
    rewrite Hrow in Hin. injection Hin as <-. rewrite uuid_as_bytes_length, uuid_from_as. by intros [= <-].
  - right. exists (UUID_ATTR_SENTINEL, 0, uuid_as_bytes u). split.
    + apply (elem_of_rows m c); [done|lia|]. split_and!; [by vm_compute..|done].
    + cbn [fst snd]. by rewrite uuid_as_bytes_length, uuid_from_as.
  - intros [[a i] v] b Hin. cbn [fst snd]. destruct (a =? DN_ATTR_SENTINEL) eqn:E; [|done].
    apply Z.eqb_eq in E as ->. apply (sentinel_index m c) in Hin; [|done|lia|done].
    unfold stored_dn. rewrite Hin. by intros [= <-].
  - unfold stored_dn. destruct (m !! encode_object_key Objects d DN_ATTR_SENTINEL 0) as [v|] eqn:E; [|by left].
    right. exists (DN_ATTR_SENTINEL, 0, v). split; [|done].
    apply (elem_of_rows m c); [done|lia|]. split_and!; [by vm_compute..|done].
Qed.

Lemma tomb_range x : object_range (<[encode_tombstone_key 1 d := x]> m) d = object_range m d.
Proof.
  apply object_range_ext. intros k Hp. apply lookup_insert_ne. intros <-. by apply prefix_tag_ne in Hp.
Qed.

Lemma last_row : last_row_uuid (object_range m d) = Some u.
Proof.
  destruct del_row as [Hdc Hrow].
  assert (forall acc l, foldl (fun acc kv => match row_uuid kv with Some u => Some u | None => acc end) acc l
    = foldl (fun acc kv => default acc (Some <$> row_uuid kv)) acc l) as Hf.
  { intros acc l. revert acc. induction l as [|x l IH]; intros acc; [done|]. cbn.
    rewrite IH. by destruct (row_uuid x). }
  unfold last_row_uuid. rewrite Hf. apply foldl_override; unfold row_uuid.
  - intros [k v] b Hin. pose proof Hin as Hin'. cbn [fst snd].
    apply (range_row m c) in Hin' as (Hk & a & i & Ha & Hi & -> & Hdec); [|done|lia]. rewrite Hdec.
    destruct (a =? UUID_ATTR_SENTINEL) eqn:E; [|done]. apply Z.eqb_eq in E as ->.
    assert ((UUID_ATTR_SENTINEL, i, v) ∈ decode_rows (object_range m d)) as Hr.
    { apply (elem_of_rows m c); [done|lia|done]. }
    apply (sentinel_index m c) in Hr; [|done|lia|done]. rewrite Hrow in Hr. injection Hr as <-.
    rewrite uuid_as_bytes_length, uuid_from_as. by intros [= <-].
  - right. exists (encode_object_key Objects d UUID_ATTR_SENTINEL 0, uuid_as_bytes u).
    split; [by apply row_in_range|]. cbn [fst snd].
    rewrite decode_encode_object_key; [|uint|by vm_compute..].
    by rewrite uuid_as_bytes_length, uuid_from_as.
Qed.

Lemma tombstone_payload_short n p :
  tombstone_payload u n = Ok p -> Z.of_nat (length p) < 2 ^ 32.
Proof.
  unfold tombstone_payload, try_from_usize. destruct n as [n|].
  - destruct (Z.ltb_spec (Z.of_nat (length n)) (2 ^ 16)); [|done]. cbn [ok_or rbind].
    intros <-%Ok_inj. rewrite !length_app, uuid_as_bytes_length, length_to_be. lia.
  - intros <-%Ok_inj. rewrite length_app, uuid_as_bytes_length, length_to_be. lia.
Qed.

Lemma tombstone_upd p :
  Z.of_nat (length p) < 2 ^ 32 ->
  exists t, tombstone (txn0 m) 1 d p 0 = Ok t /\
    txn_upd (txn0 m) t (delete (encode_uuid_index_key u)
       (delete_rows (object_range m d) (<[encode_tombstone_key 1 d := tombstone_value p]> m))) [].
Proof.
  intros Hp. unfold tombstone, try_from_usize. rewrite (proj2 (Z.ltb_lt _ _)) by lia. cbn [ok_or rbind].
  destruct (put_upd _ _ _ _ (encode_tombstone_key 1 d) (tombstone_value p) (txn0_upd m)) as (t1 & E1 & H1).
  unfold tombstone_value in E1. rewrite E1. cbn [rbind].
  destruct (scan_object_view t1 d) as (r & -> & Hr). cbn [ok_or rbind]. rewrite Hr. cbn [rbind].
  destruct H1 as (Hw & Hb & Hv & Ha) eqn:EH. clear EH. rewrite Hv, tomb_range, last_row.
  destruct (delete_keys_upd (object_range m d) t1 (txn0 m) _ [] (conj Hw (conj Hb (conj Hv Ha))))
    as (t2 & -> & H2). cbn [rbind].
  apply (delete_upd _ _ _ _ (encode_uuid_index_key u) H2).
Qed.

Lemma fdb_delete_eq p :
  tombstone_payload u (stored_dn m d) = Ok p -> fdb_delete m u = (deleted m d u p, Ok tt).
Proof.
  intros Hp. unfold fdb_delete, fdb_delete_txn.
  change (begin_directory_write m) with (@Ok StorageError _ (txn0 m)). cbn [rbind].
  rewrite (lookup_dnt_by_uuid_view _ _ (Some d)); [|by rewrite txn0_view, Hidx|intros ? [= <-]; unfold i64_MAX in *; lia].
  cbn [rbind]. rewrite get_object_rows_view, txn0_view. cbn [rbind]. rewrite preserved_rows. cbn [fst snd default from_option id].
  rewrite Hp. cbn [rbind].
  destruct (tombstone_upd p (tombstone_payload_short _ _ Hp)) as (t & -> & Ht). cbn [rbind].
  unfold deleted. destruct (stored_dn m d) as [n|]; cbv beta iota.
  - destruct (delete_upd _ _ _ _ (encode_dn_index_key (DistinguishedName_new n)) Ht) as (t' & -> & Ht').
    cbn [rbind]. apply (commit_upd _ _ _ _ Ht').
  - apply (commit_upd _ _ _ _ Ht).
Qed.

(** A DN that does not fit the tombstone's two-byte length is refused. *)
Lemma fdb_delete_refused e :
  tombstone_payload u (stored_dn m d) = Err e -> fdb_delete m u = (m, Err e).
Proof.
  intros Hp. unfold fdb_delete, fdb_delete_txn.
  change (begin_directory_write m) with (@Ok StorageError _ (txn0 m)). cbn [rbind].
  rewrite (lookup_dnt_by_uuid_view _ _ (Some d)); [|by rewrite txn0_view, Hidx|intros ? [= <-]; unfold i64_MAX in *; lia].
  cbn [rbind]. rewrite get_object_rows_view, txn0_view. cbn [rbind]. rewrite preserved_rows. cbn [fst snd default from_option id].
  by rewrite Hp.
Qed.

Lemma deleted_Some p k v :
  deleted m d u p !! k = Some v ->
  k <> encode_uuid_index_key u /\ ~ encode_object_prefix Objects d `prefix_of` k /\
  (forall n, stored_dn m d = Some n -> k <> encode_dn_index_key (DistinguishedName_new n)) /\
  ((k = encode_tombstone_key 1 d /\ v = tombstone_value p) \/
   (k <> encode_tombstone_key 1 d /\ m !! k = Some v)).
Proof.
  intros Hk.
  assert ((forall n, stored_dn m d = Some n -> k <> encode_dn_index_key (DistinguishedName_new n)) /\
    delete (encode_uuid_index_key u) (delete_rows (object_range m d)
      (<[encode_tombstone_key 1 d := tombstone_value p]> m)) !! k = Some v) as [Hn Hk'].
  { unfold deleted in Hk. destruct (stored_dn m d) as [n|]; [|done].
    apply lookup_delete_Some in Hk as [Hne Hk]. split; [|done]. by intros ? [= <-] ->. }
  apply lookup_delete_Some in Hk' as [Hne Hk']. rewrite lookup_delete_rows in Hk'.
  case_decide as Hin; [done|]. apply lookup_insert_Some in Hk' as Hor.
  split_and!; [done| |done|naive_solver].
  intros Hp. apply Hin. rewrite <-(tomb_range (tombstone_value p)). apply list_elem_of_fmap.
  exists (k, v). split; [done|]. by apply elem_of_object_range.
Qed.

Lemma deleted_other p k :
  k <> encode_uuid_index_key u -> ~ encode_object_prefix Objects d `prefix_of` k ->
  (forall n, k <> encode_dn_index_key n) -> k <> encode_tombstone_key 1 d ->
  deleted m d u p !! k = m !! k.
Proof.
  intros H1 H2 H3 H4.
  assert (delete (encode_uuid_index_key u) (delete_rows (object_range m d)
      (<[encode_tombstone_key 1 d := tombstone_value p]> m)) !! k = m !! k) as Hk.
  { rewrite lookup_delete_ne, lookup_delete_rows, lookup_insert_ne by done.
    case_decide as Hin; [|done]. apply list_elem_of_fmap in Hin as ([k' v] & -> & Hin).
    by apply elem_of_object_range in Hin as [_ ?]. }
  unfold deleted. destruct (stored_dn m d) as [n|]; [|done]. by rewrite lookup_delete_ne.
Qed.

Lemma deleted_tombstone p :
  deleted m d u p !! encode_tombstone_key 1 d = Some (tombstone_value p).
Proof.
  assert (delete (encode_uuid_index_key u) (delete_rows (object_range m d)
      (<[encode_tombstone_key 1 d := tombstone_value p]> m)) !! encode_tombstone_key 1 d
    = Some (tombstone_value p)) as Hk.
  { rewrite lookup_delete_ne by (intros E; symmetry in E; by apply tomb_uuid_ne in E).
    rewrite lookup_delete_rows, lookup_insert_eq. case_decide as Hin; [|done].
    apply list_elem_of_fmap in Hin as ([k v] & E & Hin).
    apply elem_of_object_range in Hin as [_ Hp]. cbn in E. subst k. by apply prefix_tag_ne in Hp. }
  unfold deleted. destruct (stored_dn m d) as [n|]; [|done]. rewrite lookup_delete_ne; [done|]. key_ne.
Qed.

Lemma fdb_inv_delete p : fdb_inv (deleted m d u p) c.
Proof.
  destruct del_row as [Hdc Hrow]. pose proof (inv_range _ _ HI). split.
  - done.
  - destruct (inv_counter _ _ HI) as (n & Hn & En). exists n. split; [|done]. rewrite <-Hn.
    apply deleted_other; [apply ctr_uuid_ne|apply prefix_counter; uint|apply ctr_dn_ne|].
    intros E. symmetry in E. by apply tomb_ctr_ne in E.
  - intros d' k v Hd' Hp Hk. apply deleted_Some in Hk as (_ & _ & _ & [[-> _]|[_ Hk]]).
    + by apply prefix_tag_ne in Hp.
    + by apply (inv_rows _ _ HI).
  - intros u' b Hu' Hk. apply deleted_Some in Hk as (Hne & _ & _ & [[E _]|[_ Hk]]).
    + symmetry in E. by apply tomb_uuid_ne in E.
    + destruct (inv_uuid _ _ HI _ _ Hu' Hk) as (e & -> & He & Hrow'). exists e. split_and!; [done|lia|lia|].
      rewrite <-Hrow'. apply deleted_other.
      * intros E. symmetry in E. by apply uuid_obj_ne in E.
      * intros Hp. apply prefix_object_key in Hp as <-; [|uint..]. rewrite Hrow' in Hrow. apply Hne.
        unfold encode_uuid_index_key. f_equal. by apply (inj Some) in Hrow.
      * intros n E. symmetry in E. by apply dn_obj_ne in E.
      * intros E. symmetry in E. by apply tomb_obj_ne in E.
  - intros n b Hk. apply deleted_Some in Hk as (_ & _ & _ & [[E _]|[_ Hk]]).
    + by vm_compute in E.
    + by apply (inv_dn _ _ HI n).
Qed.
End delete.

Lemma fdb_delete_absent m u : m !! encode_uuid_index_key u = None -> fdb_delete m u = (m, Ok tt).
Proof.
  intros H. unfold fdb_delete, fdb_delete_txn.
  change (begin_directory_write m) with (@Ok StorageError _ (txn0 m)). cbn [rbind].
  rewrite (lookup_dnt_by_uuid_view _ _ None); [|by rewrite txn0_view, H|done]. done.
Qed.

(** ** Reads *)

Definition object_of_rows (rows : list (bytes * bytes)) (u : Uuid) (d : Dnt)
    : Result StorageError (option Object) :=
  match rows with
  | [] => Ok None
  | _ => let? acc := read_rows (None, []) rows in
         Ok (Some (mkObject u (default (mkDN []) acc.1) acc.2 d))
  end.

Abbreviation rtxn m := (FdbRead (mkReadTxn m) : MemFdbTxn).

Lemma read_object_view m u d :
  read_object_from_range (rtxn m) u d = object_of_rows (object_range m d) u d.
Proof.
  unfold read_object_from_range. destruct (scan_object_view (rtxn m) d) as (r & -> & Hr).
  cbn [ok_or rbind]. by rewrite Hr.
Qed.
Lemma find_uuid_view m d :
  find_uuid_in_object_rows (rtxn m) d = Ok (first_row_uuid (object_range m d)).
Proof.
  unfold find_uuid_in_object_rows. destruct (scan_object_view (rtxn m) d) as (r & -> & Hr).
  cbn [ok_or rbind]. by rewrite Hr.
Qed.

Lemma fdb_get_view m u d :
  m !! encode_uuid_index_key u = Some (i64_to_be d) -> 0 <= d <= i64_MAX ->
  fdb_get m u = object_of_rows (object_range m d) u d.
Proof.
  intros Hi Hd. unfold fdb_get. change (fdb_begin_read m) with (@Ok StorageError _ (rtxn m)). cbn [rbind].
  rewrite law_get. cbn [txn_view MemFdbTxn_laws r_snapshot rbind]. rewrite Hi.
  rewrite decode_i64_be_to_be by uint. cbn [ok_or rbind].
  rewrite (proj2 (Z.ltb_ge _ _)), as_uint_id by uint. apply read_object_view.
Qed.
Lemma fdb_get_absent m u : m !! encode_uuid_index_key u = None -> fdb_get m u = Ok None.
Proof.
  intros Hi. unfold fdb_get. change (fdb_begin_read m) with (@Ok StorageError _ (rtxn m)). cbn [rbind].
  rewrite law_get. cbn [txn_view MemFdbTxn_laws r_snapshot rbind]. by rewrite Hi.
Qed.

Lemma fdb_get_by_dn_view m n d :
  m !! encode_dn_index_key n = Some (i64_to_be d) -> 0 <= d <= i64_MAX ->
  fdb_get_by_dn m n = match first_row_uuid (object_range m d) with
                      | Some u => object_of_rows (object_range m d) u d
                      | None => Ok None end.
Proof.
  intros Hi Hd. unfold fdb_get_by_dn. change (fdb_begin_read m) with (@Ok StorageError _ (rtxn m)). cbn [rbind].
  rewrite law_get. cbn [txn_view MemFdbTxn_laws r_snapshot rbind]. rewrite Hi.
  rewrite decode_i64_be_to_be by uint. cbn [ok_or rbind].
  rewrite (proj2 (Z.ltb_ge _ _)), as_uint_id by uint. rewrite find_uuid_view. cbn [rbind].
  destruct (first_row_uuid _); [|done]. apply read_object_view.
Qed.
Lemma fdb_get_by_dn_absent m n : m !! encode_dn_index_key n = None -> fdb_get_by_dn m n = Ok None.
Proof.
  intros Hi. unfold fdb_get_by_dn. change (fdb_begin_read m) with (@Ok StorageError _ (rtxn m)). cbn [rbind].
  rewrite law_get. cbn [txn_view MemFdbTxn_laws r_snapshot rbind]. by rewrite Hi.
Qed.

(** Rows of the invariant's shape always read back. *)
Lemma read_rows_total d rows acc :
  is_u64 d -> Forall (fun kv => row_shape d kv.1 kv.2) rows -> exists acc', read_rows acc rows = Ok acc'.
Proof.
  intros Hd H. revert acc. induction H as [|[k v] rows Hrow _ IH]; intros acc; [by eexists|].
  cbn [fst snd] in Hrow. destruct Hrow as (a & i & Ha & Hi & -> & Hs).
  cbn [read_rows fst snd]. unfold read_row. cbn [fst snd]. rewrite decode_encode_object_key by done.
  case_match; [apply IH|]. case_match eqn:Hsent; [apply IH|].
  destruct Hs as [[_ [nv Hnv]]|[_ Hs]].
  - rewrite Hnv. cbn [ok_or rbind]. apply IH.
  - exfalso. apply orb_false_iff in Hsent as [?%Z.eqb_neq ?%Z.eqb_neq].
    match goal with H : (_ =? DN_ATTR_SENTINEL) = false |- _ => apply Z.eqb_neq in H end. naive_solver.
Qed.

Lemma object_of_rows_total m c u d :
  fdb_inv m c -> 0 <= d <= i64_MAX ->
  exists r, object_of_rows (object_range m d) u d = Ok r /\
    (r = None <-> object_range m d = []) /\
    (forall o, r = Some o -> obj_uuid o = u /\ obj_dnt o = d).
Proof.
  intros HI Hd. unfold object_of_rows.
  assert (Forall (fun kv => row_shape d kv.1 kv.2) (object_range m d)) as Hf.
  { apply Forall_forall. intros [k v] [Hk Hp]%elem_of_object_range. by apply (inv_rows _ _ HI d k v). }
  destruct (object_range m d) as [|kv rows]; [by exists None|].
  destruct (read_rows_total d (kv :: rows) (None, [])) as [acc ->]; [uint|done|]. cbn [rbind].
  eexists. split_and!; [done|done|]. by intros o [= <-].
Qed.

(** ** Reachable stores *)

(** The operations that write: [put] of a new or previously read object, and
    [delete] of any UUID, each with its commit, whatever it returns. *)
Inductive store_step : kvmap -> kvmap -> Prop :=
| step_put m obj : put_ok m obj -> store_step m (fdb_put m obj).1
| step_delete m u : is_u128 u -> store_step m (fdb_delete m u).1.

Lemma tombstone_payload_cases u n :
  (exists p, tombstone_payload u n = Ok p) \/ (exists e, tombstone_payload u n = Err e).
Proof.
  unfold tombstone_payload, try_from_usize. destruct n; [case_match|]; cbn [ok_or rbind]; eauto.
Qed.

Lemma index_cases m c u :
  fdb_inv m c -> is_u128 u ->
  m !! encode_uuid_index_key u = None \/
  exists d, m !! encode_uuid_index_key u = Some (i64_to_be d) /\ 0 < d <= i64_MAX /\ d <= c.
Proof.
  intros HI Hu. destruct (m !! encode_uuid_index_key u) as [b|] eqn:E; [|by left]. right.
  destruct (inv_uuid _ _ HI _ _ Hu E) as (d & -> & Hd & _). pose proof (inv_range _ _ HI).
  exists d. split_and!; (done || lia).
Qed.

Lemma store_step_inv m c m' :
  fdb_inv m c -> store_step m m' -> exists c', fdb_inv m' c' /\ c <= c'.
Proof.
  intros HI Hs. destruct Hs as [m obj Ho|m u Hu].
  - destruct (Z_le_gt_dec (put_dnt m c obj) i64_MAX) as [Hd|Hd].
    + eexists. split; [by apply fdb_inv_put|lia].
    + rewrite (fdb_put_full m c) by (done || lia). by exists c.
  - destruct (index_cases m c u HI Hu) as [E|(d & E & Hd & _)].
    + rewrite fdb_delete_absent by done. by exists c.
    + destruct (tombstone_payload_cases u (stored_dn m d)) as [[p Hp]|[e Hp]].
      * rewrite (fdb_delete_eq m c u d HI Hu E Hd p Hp). exists c. split; [by apply fdb_inv_delete|lia].
      * rewrite (fdb_delete_refused m c u d HI Hu E Hd e Hp). by exists c.
Qed.

Lemma reachable_inv m : rtc store_step ∅ m -> exists c, fdb_inv m c.
Proof.
  intros H. eapply (rtc_invariant store_step (fun m => exists c, fdb_inv m c)); [|exact H|].
  - intros m1 m2 [c HI] Hs. destruct (store_step_inv _ _ _ HI Hs) as (c' & ? & _). by exists c'.
  - exists 0. apply fdb_inv_empty.
Qed.

(** ** Reading back a stored object *)

(** The row order of attributes: by attribute id, then by position. *)
Definition attr_le (p q : Z * Attribute) : Prop :=
  attribute_id p.2 < attribute_id q.2 \/ (attribute_id p.2 = attribute_id q.2 /\ p.1 <= q.1).
#[global] Instance attr_le_dec p q : Decision (attr_le p q).
Proof. unfold attr_le; apply _. Defined.
#[global] Instance attr_le_total : Total attr_le.
Proof. intros p q. unfold attr_le. lia. Qed.
#[global] Instance attr_le_trans : Transitive attr_le.
Proof. intros p q r. unfold attr_le. lia. Qed.

Definition sorted_rows (attrs : list Attribute) : list (Z * Attribute) :=
  merge_sort attr_le (indexed 0 attrs).
(** The attributes as a read returns them. *)
Definition stored_order (attrs : list Attribute) : list Attribute := (sorted_rows attrs).*2.

Lemma stored_order_perm attrs : stored_order attrs ≡ₚ attrs.
Proof.
  unfold stored_order, sorted_rows. rewrite merge_sort_Permutation.
  unfold indexed. apply reflexive_eq. rewrite fmap_imap. cbn.
  induction attrs as [|a l IH] using rev_ind; [done|]. rewrite imap_app. by rewrite IH.
Qed.
Lemma stored_order_sorted attrs :
  StronglySorted (fun a b => attribute_id a <= attribute_id b) (stored_order attrs).
Proof.
  unfold stored_order, sorted_rows.
  assert (StronglySorted attr_le (merge_sort attr_le (indexed 0 attrs))) as H
    by (apply StronglySorted_merge_sort; apply _).
  induction H as [|p l Hs IH Hf]; cbn; constructor; [done|]. apply Forall_fmap.
  eapply Forall_impl; [exact Hf|]. unfold attr_le. cbn. lia.
Qed.

Section fresh.
Context (d : Dnt) (obj : Object) (Hd : is_u64 d) (Ho : obj_ok obj).

Let elem p (Hp : p ∈ sorted_rows (obj_attributes obj)) : is_u32 p.1 /\ attr_ok p.2.
Proof.
  destruct p as [j a]. unfold sorted_rows in Hp. rewrite merge_sort_Permutation in Hp.
  destruct Ho as (_ & _ & Ha & Hl). apply indexed_elem in Hp as [Hin Hj]; [|lia].
  rewrite Forall_forall in Ha. split; [cbn; uint|by apply Ha].
Qed.

Definition fresh_rows : list (bytes * bytes) :=
  (attr_row d <$> sorted_rows (obj_attributes obj)) ++ sentinel_rows d obj.

Lemma fresh_rows_sorted : StronglySorted (fun x y => key_lt x.1 y.1) fresh_rows.
Proof.
  assert (is_u32 DNT_ATTR_SENTINEL /\ is_u32 UUID_ATTR_SENTINEL /\ is_u32 DN_ATTR_SENTINEL /\ is_u32 0)
    as (H1 & H2 & H3 & H0) by (vm_compute; split_and!; congruence).
  unfold fresh_rows. apply StronglySorted_app. split_and!.
  - intros x y (p & -> & Hp)%list_elem_of_fmap Hy. destruct (elem p Hp) as [? [? _]]. cbn.
    unfold sentinel_rows in Hy. rewrite !elem_of_cons, elem_of_nil in Hy.
    destruct Hy as [->|[->|[->|[]]]]; cbn; apply object_key_lt; try done; unfold DNT_ATTR_SENTINEL, UUID_ATTR_SENTINEL, DN_ATTR_SENTINEL in *; uint.
  - assert (StronglySorted attr_le (sorted_rows (obj_attributes obj))) as Hs
      by (apply StronglySorted_merge_sort; apply _).
    assert (NoDup (sorted_rows (obj_attributes obj)).*1) as Hn.
    { unfold sorted_rows. rewrite merge_sort_Permutation. apply indexed_NoDup. destruct Ho as (_ & _ & _ & ?). lia. }
    revert elem Hs Hn. generalize (sorted_rows (obj_attributes obj)) as l. intros l elem' Hs Hn.
    induction Hs as [|p l Hs IH Hf]; cbn; [constructor|]. apply NoDup_cons in Hn as [Hp Hn].
    constructor; [apply IH; [|done]; intros q Hq; apply elem', elem_of_cons; by right|].
    apply Forall_fmap, Forall_forall. intros q Hq.
    destruct (elem' p) as [? [? _]], (elem' q) as [? [? _]]; [apply elem_of_cons; auto..|].
    rewrite Forall_forall in Hf. specialize (Hf q Hq). unfold attr_le in Hf. cbn.
    apply object_key_lt; [done|done|unfold DNT_ATTR_SENTINEL in *; uint..|].
    destruct Hf as [?|[? ?]]; [lia|]. assert (p.1 <> q.1); [|lia].
    intros E. apply Hp. rewrite E. by apply list_elem_of_fmap_2.
  - unfold sentinel_rows. repeat constructor; cbn; apply object_key_lt; try done; right; (split; [done|by left]).
Qed.
End fresh.
