(* ===== verification/FdbSpec.v ===== *)
(** * FdbSpec: the directory store's contract

    What a client of [FdbDirectoryStore] may rely on, from the lemmas of
    [FdbProofs]: every reachable store is consistent, reads never fail, [put]
    then [get] returns the object, [delete] leaves a tombstone and nothing else,
    and operations on one UUID do not disturb another. *)
From S2P Require Import Prelude Bytes Text StorageKeys StorageTxn MemStore TxnContract FdbStore FdbProofs.

(** ** The rows of a new object *)
Section read_back.
Context (m : kvmap) (c : Z) (obj : Object).
Context (HI : fdb_inv m c) (Hok : obj_ok obj) (Hnew : obj_dnt obj = UNASSIGNED_DNT).
Context (Hfresh : m !! encode_uuid_index_key (obj_uuid obj) = None) (Hc : c < i64_MAX).

Lemma fresh_put_ok : put_ok m obj.
Proof. split; [done|by left]. Qed.
Lemma fresh_dnt : put_dnt m c obj = c + 1.
Proof. unfold put_dnt. by rewrite Hfresh. Qed.
Lemma fresh_dnt_u64 : is_u64 (c + 1).
Proof. pose proof (inv_range _ _ HI). uint. Qed.

Lemma fresh_fits : put_dnt m c obj <= i64_MAX.
Proof. rewrite fresh_dnt. lia. Qed.

Lemma put_list_fresh_rows k v :
  encode_object_prefix Objects (c + 1) `prefix_of` k ->
  (k, v) ∈ put_list (c + 1) obj <-> (k, v) ∈ fresh_rows (c + 1) obj.
Proof.
  intros Hp. unfold put_list, fresh_rows, sentinel_rows.
  rewrite !elem_of_app, !list_elem_of_fmap.
  assert ((exists y, (k, v) = attr_row (c + 1) y /\ y ∈ indexed 0 (obj_attributes obj)) <->
          (exists y, (k, v) = attr_row (c + 1) y /\ y ∈ sorted_rows (obj_attributes obj))) as ->.
  { unfold sorted_rows. by setoid_rewrite merge_sort_Permutation. }
  rewrite !elem_of_cons, !elem_of_nil. split; [|tauto].
  intros [[E|[E|H]]|H]; [| |tauto..]; exfalso; apply (f_equal fst) in E; cbn [fst] in E; subst k;
    by apply prefix_tag_ne in Hp.
Qed.

Lemma fresh_rows_prefix k v :
  (k, v) ∈ fresh_rows (c + 1) obj -> encode_object_prefix Objects (c + 1) `prefix_of` k.
Proof.
  unfold fresh_rows. rewrite elem_of_app, list_elem_of_fmap. intros [(y & E & _)|Hin].
  - apply (f_equal fst) in E. cbn [fst] in E. subst k. apply object_key_under.
  - unfold sentinel_rows in Hin. rewrite !elem_of_cons, elem_of_nil in Hin.
    destruct Hin as [E|[E|[E|[]]]]; apply (f_equal fst) in E; cbn [fst] in E; subst k; apply object_key_under.
Qed.

Lemma fresh_lookup k v :
  encode_object_prefix Objects (c + 1) `prefix_of` k ->
  (fdb_put m obj).1 !! k = Some v <-> (k, v) ∈ put_list (c + 1) obj.
Proof.
  intros Hp. pose proof (inv_range _ _ HI).
  rewrite (put_lookup m c obj HI fresh_put_ok fresh_fits), fresh_dnt;
    [|intros ->; apply prefix_counter in Hp; (done || uint)].
  split; [|by left]. intros [?|[_ Hk]]; [done|].
  destruct (inv_rows _ _ HI (c + 1) k v) as [? _]; (done || lia).
Qed.

Lemma fresh_object_range : object_range (fdb_put m obj).1 (c + 1) = fresh_rows (c + 1) obj.
Proof.
  apply object_range_unique; [apply fresh_rows_sorted; [apply fresh_dnt_u64|done]|]. intros k v. split.
  - intros Hin. pose proof (fresh_rows_prefix _ _ Hin). split; [|done].
    by apply fresh_lookup, put_list_fresh_rows.
  - intros [Hk Hp]. by apply put_list_fresh_rows, fresh_lookup.
Qed.
End read_back.

(** ** Decoding those rows *)
Section decode.
Context (d : Dnt) (obj : Object) (Hd : is_u64 d) (Hok : obj_ok obj).

Lemma sorted_rows_ok p : p ∈ sorted_rows (obj_attributes obj) -> is_u32 p.1 /\ attr_ok p.2.
Proof.
  destruct p as [j a]. intros Hp. unfold sorted_rows in Hp. rewrite merge_sort_Permutation in Hp.
  destruct Hok as (_ & _ & Ha & Hl). apply indexed_elem in Hp as [Hin Hj]; [|lia].
  rewrite Forall_forall in Ha. split; [cbn; uint|by apply Ha].
Qed.

Lemma read_attr_rows l acc rest :
  Forall (fun p => is_u32 p.1 /\ attr_ok p.2) l ->
  read_rows acc ((attr_row d <$> l) ++ rest) = read_rows (acc.1, acc.2 ++ l.*2) rest.
Proof.
  intros Hl. revert acc. induction Hl as [|[j a] l [Hj (Ha & Hn & Hu)] _ IH]; intros [x ys].
  { cbn. by rewrite app_nil_r. }
  cbn [fst snd] in *. cbn [fmap list_fmap app read_rows].
  assert (read_row (x, ys) (attr_row d (j, a)) = Ok (x, ys ++ [a])) as ->.
  { unfold read_row, attr_row. cbn [fst snd]. unfold DNT_ATTR_SENTINEL in *.
    rewrite decode_encode_object_key by uint.
    unfold DN_ATTR_SENTINEL, UUID_ATTR_SENTINEL. rewrite !(proj2 (Z.eqb_neq _ _)) by lia.
    cbn [orb]. rewrite decode_encode_attr_value by done. by destruct a. }
  cbn [rbind]. rewrite IH. cbn [fst snd]. by rewrite <-(assoc_L (++)).
Qed.

Lemma read_fresh_rows :
  read_rows (None, []) (fresh_rows d obj) = Ok (Some (obj_dn obj), stored_order (obj_attributes obj)).
Proof.
  unfold fresh_rows. rewrite read_attr_rows by (apply Forall_forall, sorted_rows_ok).
  unfold sentinel_rows. cbn [read_rows]. unfold read_row.
  cbn [fst snd]. rewrite !decode_encode_object_key by (done || by vm_compute). cbn.
  destruct Hok as (_ & Hu & _). rewrite from_utf8_lossy_id by done. by destruct (obj_dn obj).
Qed.

Lemma object_of_fresh_rows u :
  object_of_rows (fresh_rows d obj) u d =
  Ok (Some (mkObject u (obj_dn obj) (stored_order (obj_attributes obj)) d)).
Proof.
  pose proof read_fresh_rows as H. unfold object_of_rows.
  destruct (fresh_rows d obj) eqn:E; [by apply app_nil in E as [_ ?]|]. by rewrite H.
Qed.

Lemma first_fresh_row : first_row_uuid (fresh_rows d obj) = Some (obj_uuid obj).
Proof.
  unfold first_row_uuid, fresh_rows. rewrite omap_app.
  assert (omap row_uuid (attr_row d <$> sorted_rows (obj_attributes obj)) = []) as ->.
  { pose proof sorted_rows_ok as H. revert H. generalize (sorted_rows (obj_attributes obj)) as l.
    induction l as [|[j a] l IH]; intros H; [done|].
    destruct (H (j, a)) as [Hj [Ha _]]; [apply elem_of_cons; by left|]. cbn [fst snd] in *.
    cbn [fmap list_fmap omap list_omap]. unfold row_uuid at 1, attr_row at 1. cbn [fst snd].
    unfold DNT_ATTR_SENTINEL in *. rewrite decode_encode_object_key by uint.
    unfold UUID_ATTR_SENTINEL. rewrite (proj2 (Z.eqb_neq _ _)) by lia. cbn [andb].
    apply IH. intros p Hp. apply H, elem_of_cons. by right. }
  unfold sentinel_rows. cbn [app omap list_omap]. unfold row_uuid. cbn [fst snd].
  rewrite !decode_encode_object_key by (done || by vm_compute). cbn [Z.eqb andb].
  rewrite uuid_as_bytes_length. cbn. f_equal. apply uuid_from_as, Hok.
Qed.
End decode.

(** ** Claims *)

(** C1: Consistency: every store reached from the empty one by puts (of new
    objects or of objects read back) and deletes, in any order and whatever
    they return, satisfies the invariant: the DNT counter bounds every DNT in
    use, object rows decode, and the UUID index points at rows that name the
    same UUID. *)
Theorem fdb_store_invariant (m : kvmap) : rtc store_step ∅ m -> exists c, fdb_inv m c.
Proof. apply reachable_inv. Qed.

Definition sample_obj : Object :=
  mkObject 77 (mkDN (lit "CN=a,DC=x"))
    [mkAttribute 9 (lit "sn") (lit "v9"); mkAttribute 3 (lit "cn") (lit "v3")] 0.
Definition sample_store : kvmap := (fdb_put ∅ sample_obj).1.

Lemma sample_obj_ok : obj_ok sample_obj.
Proof. apply (bool_decide_unpack _). vm_compute. exact I. Qed.
Lemma sample_step : store_step ∅ sample_store.
Proof. apply step_put. split; [apply sample_obj_ok|by left]. Qed.

Lemma fdb_store_invariant_witness : exists c, fdb_inv sample_store c.
Proof. apply fdb_store_invariant. eapply rtc_l; [apply sample_step|apply rtc_refl]. Defined.

(** Reads cannot fail: in a reachable store [get] and [get_by_dn] return
    [Ok] for every UUID and every DN, and an object returned for a UUID carries
    that UUID and the positive DNT its index entry holds. *)
Theorem fdb_reads_total (m : kvmap) (u : Uuid) (n : DistinguishedName) :
  rtc store_step ∅ m -> is_u128 u ->
  (exists r, fdb_get m u = Ok r /\
     (r = None <-> m !! encode_uuid_index_key u = None) /\
     (forall o, r = Some o -> obj_uuid o = u /\ 0 < obj_dnt o /\
        m !! encode_uuid_index_key u = Some (i64_to_be (obj_dnt o)))) /\
  (exists r, fdb_get_by_dn m n = Ok r).
Proof.
  intros Hr Hu. destruct (reachable_inv m Hr) as [c HI]. split.
  - destruct (index_cases m c u HI Hu) as [E|(d & E & Hd & _)].
    + exists None. rewrite fdb_get_absent by done. by rewrite E.
    + rewrite (fdb_get_view m u d) by (done || lia).
      destruct (object_of_rows_total m c u d HI) as (r & -> & Hn & Hs); [lia|].
      destruct (inv_uuid _ _ HI _ _ Hu E) as (d' & Ed & Hd' & Hrow). pose proof (inv_range _ _ HI).
      apply (f_equal i64_of_be) in Ed. rewrite !i64_of_to_be in Ed by uint. subst d'.
      exists r. split_and!; [done| |].
      * rewrite E, Hn. split; [|done]. intros Hnil. apply row_in_range in Hrow.
        rewrite Hnil in Hrow. by apply not_elem_of_nil in Hrow.
      * intros o Ho. destruct (Hs o Ho) as [-> ->]. split_and!; [done|lia|done].
  - destruct (m !! encode_dn_index_key n) as [b|] eqn:E.
    + destruct (inv_dn _ _ HI n b E) as (d & -> & Hd). pose proof (inv_range _ _ HI).
      rewrite (fdb_get_by_dn_view m n d) by (done || lia).
      destruct (first_row_uuid _) as [u'|]; [|by eexists].
      destruct (object_of_rows_total m c u' d HI) as (r & -> & _); [lia|]. by eexists.
    + rewrite fdb_get_by_dn_absent by done. by eexists.
Qed.

Lemma fdb_reads_total_witness : exists r, fdb_get sample_store 77 = Ok r.
Proof.
  destruct (fdb_reads_total sample_store 77 (mkDN [])) as [(r & H & _) _].
  - eapply rtc_l; [apply sample_step|apply rtc_refl].
  - vm_compute. split; congruence.
  - by exists r.
Defined.

(** C16: Write-then-read: putting a new object (no DNT yet, UUID unknown to the
    store) succeeds and afterwards both [get] by its UUID and [get_by_dn] by its
    DN return it with the next DNT of the counter, with its attributes in row
    order: a permutation of those given, sorted by attribute id. *)
Theorem fdb_put_get (m : kvmap) (c : Z) (obj : Object) :
  fdb_inv m c -> c < i64_MAX -> obj_ok obj -> obj_dnt obj = UNASSIGNED_DNT ->
  m !! encode_uuid_index_key (obj_uuid obj) = None ->
  let stored := mkObject (obj_uuid obj) (obj_dn obj) (stored_order (obj_attributes obj)) (c + 1) in
  (fdb_put m obj).2 = Ok tt /\
  fdb_get (fdb_put m obj).1 (obj_uuid obj) = Ok (Some stored) /\
  fdb_get_by_dn (fdb_put m obj).1 (obj_dn obj) = Ok (Some stored) /\
  obj_attributes stored ≡ₚ obj_attributes obj /\
  StronglySorted (fun a b => attribute_id a <= attribute_id b) (obj_attributes stored).
Proof.
  intros HI Hc Hok Hnew Hf stored. pose proof (inv_range _ _ HI).
  pose proof (fresh_put_ok m obj Hok Hnew) as Hp. pose proof (fresh_fits m c obj Hf Hc) as Hfit.
  assert (as_i64 (c + 1) = c + 1) as Hi by (apply as_i64_id; uint).
  pose proof (put_lookup_in m c obj HI Hp Hfit) as Hin. rewrite (fresh_dnt m c obj Hf) in Hin.
  split_and!.
  - by rewrite (fdb_put_eq m c obj HI Hp Hfit).
  - rewrite (fdb_get_view _ _ (c + 1)); [| |lia].
    + rewrite (fresh_object_range m c obj) by done. apply object_of_fresh_rows; (done || uint).
    + apply Hin. unfold put_list. rewrite Hi. by left.
  - rewrite (fdb_get_by_dn_view _ _ (c + 1)); [| |lia].
    + rewrite (fresh_object_range m c obj) by done. rewrite first_fresh_row by (done || uint).
      apply object_of_fresh_rows; (done || uint).
    + apply Hin. unfold put_list. rewrite Hi. by right; left.
  - apply stored_order_perm.
  - apply stored_order_sorted.
Qed.

Lemma fdb_put_get_witness :
  fdb_get (fdb_put ∅ sample_obj).1 77 =
    Ok (Some (mkObject 77 (mkDN (lit "CN=a,DC=x")) (stored_order (obj_attributes sample_obj)) 1)).
Proof.
  destruct (fdb_put_get ∅ 0 sample_obj) as (_ & H & _).
  - apply fdb_inv_empty.
  - reflexivity.
  - apply sample_obj_ok.
  - reflexivity.
  - reflexivity.
  - exact H.
Defined.

(** A read depends on its index entry and on the rows of that DNT. *)
Lemma fdb_get_frame m m' c u :
  fdb_inv m c -> is_u128 u ->
  m' !! encode_uuid_index_key u = m !! encode_uuid_index_key u ->
  (forall d, m !! encode_uuid_index_key u = Some (i64_to_be d) -> 0 < d <= c ->
     forall k, encode_object_prefix Objects d `prefix_of` k -> m' !! k = m !! k) ->
  fdb_get m' u = fdb_get m u.
Proof.
  intros HI Hu Hx Hr. destruct (index_cases m c u HI Hu) as [E|(d & E & Hd & Hdc)].
  - rewrite !fdb_get_absent; congruence.
  - rewrite !(fdb_get_view _ u d) by (congruence || lia).
    rewrite (object_range_ext m' m d); [done|]. apply Hr; [done|lia].
Qed.

Lemma prefix_both d d' k :
  is_u64 d -> is_u64 d' -> encode_object_prefix Objects d `prefix_of` k ->
  encode_object_prefix Objects d' `prefix_of` k -> d = d'.
Proof.
  intros Hd Hd' [x ->] [y E]. apply app_split in E as [E _]; [|by rewrite !length_encode_object_prefix].
  apply (app_split [_] _ [_]) in E as [_ E]; [|done]. apply to_be_inj in E; uint.
Qed.

(** The UUID index is injective. *)
Lemma index_inj m c u u' d :
  fdb_inv m c -> is_u128 u -> is_u128 u' -> 0 < d <= i64_MAX ->
  m !! encode_uuid_index_key u = Some (i64_to_be d) ->
  m !! encode_uuid_index_key u' = Some (i64_to_be d) -> u = u'.
Proof.
  intros HI Hu Hu' Hd E E'. destruct (del_row m c u d HI Hu E Hd) as [_ H].
  destruct (del_row m c u' d HI Hu' E' Hd) as [_ H']. rewrite H in H'.
  apply (inj Some), (f_equal uuid_from_bytes) in H'. by rewrite !uuid_from_as in H'.
Qed.

Lemma put_frame m c obj u :
  fdb_inv m c -> put_ok m obj -> is_u128 u -> u <> obj_uuid obj ->
  fdb_get (fdb_put m obj).1 u = fdb_get m u.
Proof.
  intros HI Ho Hu Hne. pose proof (inv_range _ _ HI).
  destruct (Z_le_gt_dec (put_dnt m c obj) i64_MAX) as [Hd|Hd];
    [|by rewrite (fdb_put_full m c) by (done || lia)].
  apply (fdb_get_frame m _ c); [done|done| |].
  - apply (put_lookup_other m c obj HI Ho Hd); [|by intros E%eq_sym; apply ctr_uuid_ne in E].
    intros ([k v] & E & Hin)%list_elem_of_fmap. cbn in E. subst k.
    apply put_list_uuid in Hin as [? _]; [done|apply Ho|done].
  - intros d E Hdc k Hp. apply (put_lookup_other m c obj HI Ho Hd).
    + apply (put_row_other m c obj HI Ho Hd d); [uint| |done]. intros ->.
      destruct (put_dnt_cases m c obj HI Ho) as [_ [[_ ?]|(_ & Hx & _)]]; [lia|].
      apply Hne. eapply (index_inj m c); [done|done|apply Ho| |done|done]. lia.
    + intros ->. apply prefix_counter in Hp; (done || uint).
Qed.

Lemma delete_frame m c u u' :
  fdb_inv m c -> is_u128 u -> is_u128 u' -> u' <> u ->
  fdb_get (fdb_delete m u).1 u' = fdb_get m u'.
Proof.
  intros HI Hu Hu' Hne. pose proof (inv_range _ _ HI).
  destruct (index_cases m c u HI Hu) as [E|(d & E & Hd & _)]; [by rewrite fdb_delete_absent|].
  destruct (tombstone_payload_cases u (stored_dn m d)) as [[p Hp]|[e Hp]].
  2: by rewrite (fdb_delete_refused m c u d HI Hu E Hd e Hp).
  rewrite (fdb_delete_eq m c u d HI Hu E Hd p Hp). cbn [fst].
  apply (fdb_get_frame m _ c); [done|done| |].
  - apply deleted_other.
    + intros E'. by apply uuid_key_inj in E'.
    + by apply prefix_tag_ne.
    + intros n. apply uuid_dn_ne.
    + intros E'. symmetry in E'. by apply tomb_uuid_ne in E'.
  - intros d' E' Hdc k Hpre. apply deleted_other; [| | |].
    + intros ->. by apply prefix_tag_ne in Hpre.
    + intros Hpre'. apply (prefix_both d d') in Hpre as ->; [|uint..|done].
      apply Hne. by apply (index_inj m c u' u d').
    + intros n ->. by apply prefix_tag_ne in Hpre.
    + intros ->. by apply prefix_tag_ne in Hpre.
Qed.

(** Isolation of objects: a [put] of one object and a [delete] of one UUID
    leave what [get] returns for every other UUID unchanged. *)
Theorem fdb_frame (m : kvmap) (obj : Object) (u u' : Uuid) :
  rtc store_step ∅ m -> put_ok m obj -> is_u128 u -> is_u128 u' ->
  (u' <> obj_uuid obj -> fdb_get (fdb_put m obj).1 u' = fdb_get m u') /\
  (u' <> u -> fdb_get (fdb_delete m u).1 u' = fdb_get m u').
Proof.
  intros Hr Ho Hu Hu'. destruct (reachable_inv m Hr) as [c HI].
  split; intros Hne; [by apply (put_frame m c)|by apply (delete_frame m c)].
Qed.

Definition other_obj : Object := mkObject 78 (mkDN (lit "CN=b,DC=x")) [] 0.

Lemma fdb_frame_witness :
  fdb_get (fdb_put sample_store other_obj).1 77 = fdb_get sample_store 77 /\
  fdb_get (fdb_delete sample_store 78).1 77 = fdb_get sample_store 77.
Proof.
  destruct (fdb_frame sample_store other_obj 78 77) as [H1 H2].
  - eapply rtc_l; [apply sample_step|apply rtc_refl].
  - split; [|by left]. apply (bool_decide_unpack _). vm_compute. exact I.
  - vm_compute. split; congruence.
  - vm_compute. split; congruence.
  - split; [by apply H1|by apply H2].
Defined.

(** Deletion: when [delete] succeeds on a known UUID, [get] no longer finds
    it, no row is left under its DNT, the index entry of the DN its rows carried
    is gone, and the tombstone row under (NC head 1, DNT) holds the UUID and
    that DN; a DN too long for the tombstone's length field makes [delete]
    return the error and change nothing. *)
Theorem fdb_delete_spec (m : kvmap) (u : Uuid) (d : Dnt) :
  rtc store_step ∅ m -> is_u128 u -> 0 < d <= i64_MAX ->
  m !! encode_uuid_index_key u = Some (i64_to_be d) ->
  match tombstone_payload u (stored_dn m d) with
  | Ok p =>
      (fdb_delete m u).2 = Ok tt /\
      fdb_get (fdb_delete m u).1 u = Ok None /\
      object_range (fdb_delete m u).1 d = [] /\
      (forall n, stored_dn m d = Some n -> fdb_get_by_dn (fdb_delete m u).1 (DistinguishedName_new n) = Ok None) /\
      (fdb_delete m u).1 !! encode_tombstone_key 1 d = Some (tombstone_value p)
  | Err e => fdb_delete m u = (m, Err e)
  | Panic => False
  end.
Proof.
  intros Hr Hu Hd E. destruct (reachable_inv m Hr) as [c HI].
  destruct (tombstone_payload_cases u (stored_dn m d)) as [[p Hp]|[e Hp]]; rewrite Hp;
    [|by apply (fdb_delete_refused m c u d)].
  rewrite (fdb_delete_eq m c u d HI Hu E Hd p Hp). cbn [fst snd].
  assert (forall k, (k = encode_uuid_index_key u \/ encode_object_prefix Objects d `prefix_of` k \/
    exists n, stored_dn m d = Some n /\ k = encode_dn_index_key (DistinguishedName_new n)) ->
    deleted m d u p !! k = None) as Hnone.
  { intros k Hk. apply eq_None_not_Some. intros [v Hv].
    apply deleted_Some in Hv as (H1 & H2 & H3 & _); [naive_solver|lia]. }
  split_and!; [done| | | |].
  - apply fdb_get_absent, Hnone. by left.
  - apply object_range_unique; [constructor|]. intros k v. split; [by intros ?%not_elem_of_nil|].
    intros [Hk Hpre]. rewrite Hnone in Hk by auto. done.
  - intros n Hn. apply fdb_get_by_dn_absent, Hnone. eauto.
  - apply deleted_tombstone.
Qed.

Lemma fdb_delete_spec_witness :
  fdb_get (fdb_delete sample_store 77).1 77 = Ok None.
Proof.
  assert (rtc store_step ∅ sample_store) as Hr by (eapply rtc_l; [apply sample_step|apply rtc_refl]).
  assert (is_u128 77) as Hu by (vm_compute; split; congruence).
  assert (0 < 1 <= i64_MAX) as Hd by (vm_compute; split; congruence).
  assert (sample_store !! encode_uuid_index_key 77 = Some (i64_to_be 1)) as Hx by (vm_compute; reflexivity).
  pose proof (fdb_delete_spec sample_store 77 1 Hr Hu Hd Hx) as H.
  destruct (tombstone_payload 77 (stored_dn sample_store 1)) eqn:Hp;
    [exact (proj1 (proj2 H))|vm_compute in Hp; discriminate Hp..].
Defined.

(** A re-put does not replace: storing an object again under its UUID with
    a new DN and fewer attributes keeps the dropped attribute, leaves the old
    DN resolving to the object, and after [delete] the old DN's index entry is
    still in the store. *)
Theorem fdb_reput_keeps_old_rows :
  let o2 := mkObject 77 (mkDN (lit "CN=b,DC=x")) [mkAttribute 9 (lit "sn") (lit "w9")] 0 in
  let m2 := (fdb_put sample_store o2).1 in
  fdb_get m2 77 = Ok (Some (mkObject 77 (mkDN (lit "CN=b,DC=x"))
    [mkAttribute 3 (lit "cn") (lit "v3"); mkAttribute 9 (lit "sn") (lit "w9")] 1)) /\
  fdb_get_by_dn m2 (mkDN (lit "CN=a,DC=x")) = fdb_get m2 77 /\
  is_Some ((fdb_delete m2 77).1 !! encode_dn_index_key (mkDN (lit "CN=a,DC=x"))).
Proof. vm_compute. split_and!; [reflexivity|reflexivity|by eexists]. Qed.
