(* ===== verification/IdentityCore.v ===== *)
(** * IdentityCore: identity types (crate [adrian-identity-core])

    Principal types, the identity errors, the algorithmic UUID to POSIX UID
    mapping, and the transaction type the identity crates use:
    [Box<dyn WriteTxn>] over the two backends, with the laws of [TxnContract]. *)
From S2P Require Import Prelude Bytes Text SidModel StorageKeys StorageTxn MemStore TxnContract FdbStore FdbProofs.

Abbreviation PrincipalId := Uuid.
Abbreviation PosixId := Z.

Inductive PrincipalType :=
| User | Computer | Group | ManagedServiceAccount | GroupManagedServiceAccount
| ForeignSecurityPrincipal | Trust.

Record Principal := mkPrincipal {
  principal_uuid : PrincipalId;
  principal_sid : Sid;
  sid_history : list Sid;
  principal_type : PrincipalType;
}.

(** Messages of [IdentityError::Backend], one constructor per format string. *)
Inductive IdentityMsg :=
| SidEncodeMsg (e : SidError)
| SidErrorMsg (e : SidError)
| StorageMsg (e : StorageError)
| ReverseIndexLengthMsg (n : nat)
| UuidUidIndexLengthMsg (n : nat)
| UidUuidIndexLengthMsg (n : nat)
| UidCounterOverflowMsg.

(** The two conflicts [insert] reports. *)
Inductive ConflictMsg :=
| SidAlreadyMapped (sid : Sid) (existing requested : Uuid)
| UuidAlreadyMapped (uuid : Uuid) (existing requested : Sid).

Inductive IdentityError :=
| MappingNotFound (what : bytes)
| MappingConflict (msg : ConflictMsg)
| RidPoolExhausted (domain : bytes)
| PosixCollision (uid : PosixId)
| IBackend (msg : IdentityMsg).

(** [From<SidError>] and the crates' [map_storage_err]. *)
Definition IdentityError_from (e : SidError) : IdentityError := IBackend (SidErrorMsg e).
Definition map_storage_err (e : StorageError) : IdentityError := IBackend (StorageMsg e).

(** Shifts and casts as in the code: the two halves of the UUID are mixed. *)
Definition uuid_to_uid (uuid : PrincipalId) : PosixId :=
  let high := as_u64 (Z.shiftr uuid 64) in
  let low := as_u64 uuid in
  let mixed := Z.lxor high low in
  let modulus := Z.shiftl 1 31 - 65536 in
  as_u32 (mixed mod modulus + 65536).

(** The algorithmic POSIX UID is always in [65536, 2^31): never a system
    UID and never negative as a signed 32-bit id. *)
Theorem uuid_to_uid_range (uuid : PrincipalId) : 65536 <= uuid_to_uid uuid < 2 ^ 31.
Proof.
  unfold uuid_to_uid. change (Z.shiftl 1 31 - 65536) with 2147418112.
  set (x := Z.lxor _ _). pose proof (Z.mod_pos_bound x 2147418112 ltac:(lia)).
  rewrite as_uint_id by uint. lia.
Qed.

(** ** [Box<dyn WriteTxn>] *)

Inductive DynWriteTxn :=
| DynFdb (t : MemFdbTxn)
| DynMem (t : InMemoryWriteTxn).

Definition dyn_get (t : DynWriteTxn) (k : bytes) : Result StorageError (option bytes) :=
  match t with DynFdb t => txn_get t k | DynMem t => txn_get t k end.
Definition dyn_get_range (t : DynWriteTxn) (b e : bytes) : Result StorageError (list (bytes * bytes)) :=
  match t with DynFdb t => txn_get_range t b e | DynMem t => txn_get_range t b e end.
Definition dyn_put (t : DynWriteTxn) (k v : bytes) : Result StorageError DynWriteTxn :=
  match t with
  | DynFdb t => let? t := txn_put t k v in Ok (DynFdb t)
  | DynMem t => let? t := txn_put t k v in Ok (DynMem t)
  end.
Definition dyn_delete (t : DynWriteTxn) (k : bytes) : Result StorageError DynWriteTxn :=
  match t with
  | DynFdb t => let? t := txn_delete t k in Ok (DynFdb t)
  | DynMem t => let? t := txn_delete t k in Ok (DynMem t)
  end.
Definition dyn_atomic_add (t : DynWriteTxn) (k : bytes) (n : Z) : Result StorageError DynWriteTxn :=
  match t with
  | DynFdb t => let? t := txn_atomic_add t k n in Ok (DynFdb t)
  | DynMem t => let? t := txn_atomic_add t k n in Ok (DynMem t)
  end.
Definition dyn_commit (t : DynWriteTxn) (m : kvmap) : kvmap * Result StorageError unit :=
  match t with DynFdb t => txn_commit t m | DynMem t => txn_commit t m end.
Definition dyn_rollback (t : DynWriteTxn) : Result StorageError unit :=
  match t with DynFdb t => txn_rollback t | DynMem t => txn_rollback t end.

#[global] Instance DynWriteTxn_ReadTxn : ReadTxn DynWriteTxn :=
  {| txn_get := dyn_get; txn_get_range := dyn_get_range |}.
#[global] Instance DynWriteTxn_WriteTxn : WriteTxn kvmap DynWriteTxn :=
  {| write_read := DynWriteTxn_ReadTxn; txn_put := dyn_put; txn_delete := dyn_delete;
     txn_atomic_add := dyn_atomic_add; txn_commit := dyn_commit; txn_rollback := dyn_rollback |}.

#[global] Instance DynWriteTxn_laws : TxnLaws DynWriteTxn.
Proof.
  refine {| txn_view := fun t => match t with DynFdb t => txn_view t | DynMem t => txn_view t end;
            txn_adds := fun t => match t with DynFdb t => txn_adds t | DynMem t => txn_adds t end;
            txn_base := fun t => match t with DynFdb t => txn_base t | DynMem t => txn_base t end;
            txn_writable := fun t => match t with DynFdb t => txn_writable t | DynMem t => txn_writable t end |}.
  - intros [t|t] k; exact (law_get t k).
  - intros [t|t] b e; exact (law_get_range t b e).
  - intros [t|t] k v Hw; destruct (law_put t k v Hw) as (t' & E & H);
      [exists (DynFdb t')|exists (DynMem t')]; cbn [txn_put DynWriteTxn_WriteTxn dyn_put]; by rewrite E.
  - intros [t|t] k Hw; destruct (law_delete t k Hw) as (t' & E & H);
      [exists (DynFdb t')|exists (DynMem t')]; cbn [txn_delete DynWriteTxn_WriteTxn dyn_delete]; by rewrite E.
  - intros [t|t] k n Hw; destruct (law_atomic_add t k n Hw) as (t' & E & H);
      [exists (DynFdb t')|exists (DynMem t')]; cbn [txn_atomic_add DynWriteTxn_WriteTxn dyn_atomic_add]; by rewrite E.
  - intros [t|t] Hw; by apply (law_commit t).
Defined.

(** A transaction that has just begun on [m]. *)
Definition txn_begun `{TL : TxnLaws T} (t : T) (m : kvmap) : Prop := txn_upd t t m [] /\ txn_base t = m.

Lemma txn_begun_fdb m : txn_begun (DynFdb (FdbWrite (mkWriteTxn m ∅ []))) m.
Proof. split; [|done]. unfold txn_upd. cbn. by rewrite overlay_empty. Qed.
Lemma txn_begun_mem m : txn_begun (DynMem (mkWriteTxn m ∅ [])) m.
Proof. split; [|done]. unfold txn_upd. cbn. by rewrite overlay_empty. Qed.
