(* ===== verification/RidPool.v ===== *)
(** * RidPool: RID allocation (crate [adrian-identity-ridpool])

    The pool state record and its 12-byte codec, the key layout, the two
    allocators [FdbRidPoolAllocator] and [LocalRidAllocator] with [allocate],
    [allocate_batch], [state] and the reclaim operations, and [assign_sid].
    The two allocators run the same code on different keys; that code is the
    section [pool_ops], generic over the transaction interface. *)
From S2P Require Import Prelude Bytes Text SidModel StorageKeys StorageTxn MemStore TxnContract FdbStore FdbProofs IdentityCore.

Definition RID_BATCH_SIZE : Z := 500.
Definition RID_EXHAUSTION_WARNING_THRESHOLD : Z := RID_BATCH_SIZE / 2.
Definition INITIAL_RID : Z := 1000.
Definition RIDPOOL_SUBSPACE : Z := 0x06.
Definition COUNTER_KEY_MARKER : Z := 0x00.
Definition LOCAL_DC_MARKER : Z := 0x10.
Definition STATE_KEY_MARKER : Z := 0x01.
Abbreviation Rid := Z.

Definition sid_to_bytes (domain_sid : Sid) : Result IdentityError bytes :=
  map_err (fun e => IBackend (SidEncodeMsg e)) (Sid_to_bytes domain_sid).

(** ** [RidPoolState] *)

Record RidPoolState := mkRidState {
  next_rid : Rid;
  last_allocated_rid : Rid;
  warning_threshold : Z;
}.
#[global] Instance RidPoolState_eq_dec : EqDecision RidPoolState.
Proof. solve_decision. Defined.

Definition RidPoolState_initial : RidPoolState :=
  mkRidState INITIAL_RID (INITIAL_RID + RID_BATCH_SIZE - 1) RID_EXHAUSTION_WARNING_THRESHOLD.

Definition RidPoolState_encode (s : RidPoolState) : bytes :=
  to_be 4 (next_rid s) ++ to_be 4 (last_allocated_rid s) ++ to_be 4 (warning_threshold s).

Definition RidPoolState_decode (buf : bytes) : option RidPoolState :=
  if negb (length buf =? 12)%nat then None
  else Some (mkRidState (of_be (take 4 buf)) (of_be (take 4 (drop 4 buf))) (of_be (take 4 (drop 8 buf)))).

(** ** Keys *)

Definition rid_state_key (domain_sid : Sid) : Result IdentityError bytes :=
  let? sid_bytes := sid_to_bytes domain_sid in
  Ok ([z2b RIDPOOL_SUBSPACE] ++ sid_bytes).
Definition rid_counter_key (domain_sid : Sid) : Result IdentityError bytes :=
  let? out := rid_state_key domain_sid in
  Ok (out ++ [z2b COUNTER_KEY_MARKER] ++ lit "next_rid").
Definition local_rid_state_prefix (local_dc_id : Uuid) (domain_sid : Sid) : Result IdentityError bytes :=
  let? sid_bytes := sid_to_bytes domain_sid in
  Ok ([z2b RIDPOOL_SUBSPACE] ++ [z2b LOCAL_DC_MARKER] ++ uuid_as_bytes local_dc_id ++ sid_bytes).
Definition local_rid_state_key (local_dc_id : Uuid) (domain_sid : Sid) : Result IdentityError bytes :=
  let? out := local_rid_state_prefix local_dc_id domain_sid in
  Ok (out ++ [z2b STATE_KEY_MARKER] ++ lit "state").
Definition local_rid_counter_key (local_dc_id : Uuid) (domain_sid : Sid) : Result IdentityError bytes :=
  let? out := local_rid_state_prefix local_dc_id domain_sid in
  Ok (out ++ [z2b COUNTER_KEY_MARKER] ++ lit "next_rid").

(** ** The backend *)

Inductive RidBackend :=
| RidFdb (s : FdbDirectoryStore)
| RidInMemory (s : InMemoryDirectoryStore).

Definition RidBackend_begin_write (b : RidBackend) (m : kvmap) : Result IdentityError DynWriteTxn :=
  match b with
  | RidFdb _ => let? t := map_err map_storage_err (fdb_begin_write m) in Ok (DynFdb t)
  | RidInMemory _ => let? t := map_err map_storage_err (begin_write m) in Ok (DynMem t)
  end.
(** [Box<dyn ReadTxn>]: [FdbTxn] wraps a read transaction of the same map. *)
Definition RidBackend_begin_read (b : RidBackend) (m : kvmap) : Result IdentityError MemFdbTxn :=
  match b with
  | RidFdb _ => map_err map_storage_err (fdb_begin_read m)
  | RidInMemory _ => let? t := map_err map_storage_err (begin_read m) in Ok (FdbRead t)
  end.

(** The end key of [scan_prefix]: the last byte incremented, or a zero byte
    appended when it is [0xFF]. *)
Definition scan_end (prefix : bytes) : bytes :=
  match last prefix with
  | Some b => if b2z b <? 0xFF then take (length prefix - 1) prefix ++ [z2b (b2z b + 1)] else prefix ++ [x00]
  | None => prefix ++ [x00]
  end.
Definition scan_prefix (b : RidBackend) (m : kvmap) (prefix : bytes) : Result IdentityError (list (bytes * bytes)) :=
  let? r := RidBackend_begin_read b m in
  map_err map_storage_err (txn_get_range r prefix (scan_end prefix)).

(** ** Allocation on a pair of keys *)
Section pool_ops.
Context {T : Type} `{WT : !WriteTxn kvmap T}.
Implicit Types (t : T).

Definition decode_state (b : option bytes) : RidPoolState :=
  match b with
  | Some buf => default RidPoolState_initial (RidPoolState_decode buf)
  | None => RidPoolState_initial
  end.

(** The counter, seeded together with the state on first use. *)
Definition read_or_seed t (state_key counter_key : bytes) (state : RidPoolState)
    : Result IdentityError (Z * T) :=
  let? cur := map_err map_storage_err (txn_get t counter_key) in
  let seed := INITIAL_RID - 1 in
  let init :=
    let? t := map_err map_storage_err (txn_put t counter_key (i64_to_be seed)) in
    let? t := map_err map_storage_err (txn_put t state_key (RidPoolState_encode state)) in
    Ok (seed, t) in
  match cur with
  | Some buf => if (length buf =? 8)%nat then Ok (i64_of_be buf, t) else init
  | None => init
  end.

(** [allocate] up to the commit: the new RID (as [i64]) and the staged
    transaction. *)
Definition allocate_stage t (state_key counter_key : bytes) : Result IdentityError (Z * T) :=
  let? sb := map_err map_storage_err (txn_get t state_key) in
  let state := decode_state sb in
  let? ot := read_or_seed t state_key counter_key state in
  let? t := map_err map_storage_err (txn_atomic_add ot.2 counter_key 1) in
  let? new_rid := i64_add ot.1 1 in
  let? t :=
    if last_allocated_rid state <? as_u32 new_rid then
      let state := mkRidState (next_rid state)
        (u32_saturating_add (last_allocated_rid state) RID_BATCH_SIZE) (warning_threshold state) in
      map_err map_storage_err (txn_put t state_key (RidPoolState_encode state))
    else Ok t in
  Ok (new_rid, t).

(** [allocate_batch] up to the commit: the first and last new RID. *)
Definition allocate_batch_stage t (state_key counter_key : bytes) (n : Z)
    : Result IdentityError (Z * Z * T) :=
  let? sb := map_err map_storage_err (txn_get t state_key) in
  let state := decode_state sb in
  let? ot := read_or_seed t state_key counter_key state in
  let? t := map_err map_storage_err (txn_atomic_add ot.2 counter_key n) in
  let? first := i64_add ot.1 1 in
  let? last := i64_add ot.1 n in
  let? t :=
    if last_allocated_rid state <? as_u32 last then
      let needed := u32_saturating_sub (as_u32 last) (last_allocated_rid state) in
      let extra_batches := div_ceil needed RID_BATCH_SIZE in
      let extra := u32_saturating_mul extra_batches RID_BATCH_SIZE in
      let state := mkRidState (next_rid state)
        (u32_saturating_add (last_allocated_rid state) extra) (warning_threshold state) in
      map_err map_storage_err (txn_put t state_key (RidPoolState_encode state))
    else Ok t in
  Ok (first, last, t).
End pool_ops.

(** [(first..=last).map(|v| v as Rid)]. *)
Definition rid_range (first last : Z) : list Rid := as_u32 <$> seqZ first (last - first + 1).

(** Committing a staged allocation and returning its value. *)
Definition commit_with {A : Type} (t : DynWriteTxn) (m : kvmap) (a : A) : kvmap * Result IdentityError A :=
  let '(m', r) := txn_commit t m in
  (m', let? _ := map_err map_storage_err r in Ok a).

(** Run a staged computation; an error or a panic drops the transaction. *)
Definition run_stage {A B : Type} (r : Result IdentityError A) (m : kvmap)
    (k : A -> kvmap * Result IdentityError B) : kvmap * Result IdentityError B :=
  match r with Ok a => k a | Err e => (m, Err e) | Panic => (m, Panic) end.

Definition allocate_at (b : RidBackend) (m : kvmap) (keys : Result IdentityError (bytes * bytes))
    : kvmap * Result IdentityError Rid :=
  run_stage (let? k := keys in
             let? t := RidBackend_begin_write b m in
             allocate_stage t k.1 k.2) m
    (fun rt => commit_with rt.2 m (as_u32 rt.1)).

Definition allocate_batch_at (b : RidBackend) (m : kvmap) (keys : Result IdentityError (bytes * bytes)) (n : Z)
    : kvmap * Result IdentityError (list Rid) :=
  if n =? 0 then (m, Ok [])
  else run_stage (let? k := keys in
                  let? t := RidBackend_begin_write b m in
                  allocate_batch_stage t k.1 k.2 n) m
         (fun rt => let '(first, last, t) := rt in commit_with t m (rid_range first last)).

Definition state_at (b : RidBackend) (m : kvmap) (keys : Result IdentityError (bytes * bytes))
    : Result IdentityError RidPoolState :=
  let? k := keys in
  let? r := RidBackend_begin_read b m in
  let? sb := map_err map_storage_err (txn_get r k.1) in
  let state := decode_state sb in
  let? cb := map_err map_storage_err (txn_get r k.2) in
  let? counter_val :=
    match cb with
    | Some buf =>
        if (length buf =? 8)%nat then
          let v := i64_of_be buf in
          if v <? 0 then Ok INITIAL_RID else let? v := i64_add v 1 in Ok (as_u32 v)
        else Ok (next_rid state)
    | None => Ok (next_rid state)
    end in
  Ok (mkRidState counter_val (last_allocated_rid state) (warning_threshold state)).

Fixpoint delete_pairs (t : DynWriteTxn) (pairs : list (bytes * bytes)) : Result IdentityError DynWriteTxn :=
  match pairs with
  | [] => Ok t
  | (k, _) :: pairs => let? t := map_err map_storage_err (txn_delete t k) in delete_pairs t pairs
  end.

Definition reclaim_at (b : RidBackend) (m : kvmap) (prefix : Result IdentityError bytes)
    : kvmap * Result IdentityError unit :=
  run_stage (let? p := prefix in scan_prefix b m p) m
    (fun pairs =>
       match pairs with
       | [] => (m, Ok tt)
       | _ => run_stage (let? t := RidBackend_begin_write b m in delete_pairs t pairs) m
                (fun t => commit_with t m tt)
       end).

(** ** The allocators *)

(** The trait: operations on the shared map. *)
Class RidPoolAllocator (A : Type) := {
  rid_allocate : A -> kvmap -> Sid -> kvmap * Result IdentityError Rid;
  rid_allocate_batch : A -> kvmap -> Sid -> Z -> kvmap * Result IdentityError (list Rid);
  rid_state : A -> kvmap -> Sid -> Result IdentityError RidPoolState;
}.

Record FdbRidPoolAllocator := mkFdbRid {
  fdbrid_backend : RidBackend;
  fdbrid_store : option FdbDirectoryStore;
}.
Definition FdbRidPoolAllocator_new (store : FdbDirectoryStore) : FdbRidPoolAllocator :=
  mkFdbRid (RidFdb store) (Some store).
Definition FdbRidPoolAllocator_new_in_memory (store : InMemoryDirectoryStore) : FdbRidPoolAllocator :=
  mkFdbRid (RidInMemory store) None.
Definition FdbRidPoolAllocator_new_in_memory_default : FdbRidPoolAllocator :=
  FdbRidPoolAllocator_new_in_memory InMemoryDirectoryStore_new.

Definition fdb_rid_keys (domain_sid : Sid) : Result IdentityError (bytes * bytes) :=
  let? s := rid_state_key domain_sid in let? c := rid_counter_key domain_sid in Ok (s, c).

Definition FdbRid_allocate (a : FdbRidPoolAllocator) m sid := allocate_at (fdbrid_backend a) m (fdb_rid_keys sid).
Definition FdbRid_allocate_batch (a : FdbRidPoolAllocator) m sid n :=
  allocate_batch_at (fdbrid_backend a) m (fdb_rid_keys sid) n.
Definition FdbRid_state (a : FdbRidPoolAllocator) m sid := state_at (fdbrid_backend a) m (fdb_rid_keys sid).
Definition reclaim_domain (a : FdbRidPoolAllocator) m sid := reclaim_at (fdbrid_backend a) m (rid_state_key sid).

#[global] Instance FdbRid_RidPoolAllocator : RidPoolAllocator FdbRidPoolAllocator :=
  {| rid_allocate := FdbRid_allocate; rid_allocate_batch := FdbRid_allocate_batch; rid_state := FdbRid_state |}.

Record LocalRidAllocator := mkLocalRid {
  local_dc_id : Uuid;
  localrid_backend : RidBackend;
  localrid_store : option FdbDirectoryStore;
}.
Definition LocalRidAllocator_new (dc : Uuid) (store : FdbDirectoryStore) : LocalRidAllocator :=
  mkLocalRid dc (RidFdb store) (Some store).
Definition LocalRidAllocator_new_in_memory (dc : Uuid) (store : InMemoryDirectoryStore) : LocalRidAllocator :=
  mkLocalRid dc (RidInMemory store) None.
Definition LocalRidAllocator_new_in_memory_default (dc : Uuid) : LocalRidAllocator :=
  LocalRidAllocator_new_in_memory dc InMemoryDirectoryStore_new.

Definition local_rid_keys (dc : Uuid) (domain_sid : Sid) : Result IdentityError (bytes * bytes) :=
  let? s := local_rid_state_key dc domain_sid in let? c := local_rid_counter_key dc domain_sid in Ok (s, c).

Definition LocalRid_allocate (a : LocalRidAllocator) m sid :=
  allocate_at (localrid_backend a) m (local_rid_keys (local_dc_id a) sid).
Definition LocalRid_allocate_batch (a : LocalRidAllocator) m sid n :=
  allocate_batch_at (localrid_backend a) m (local_rid_keys (local_dc_id a) sid) n.
Definition LocalRid_state (a : LocalRidAllocator) m sid :=
  state_at (localrid_backend a) m (local_rid_keys (local_dc_id a) sid).
Definition reclaim_dc (a : LocalRidAllocator) m sid :=
  reclaim_at (localrid_backend a) m (local_rid_state_prefix (local_dc_id a) sid).

#[global] Instance LocalRid_RidPoolAllocator : RidPoolAllocator LocalRidAllocator :=
  {| rid_allocate := LocalRid_allocate; rid_allocate_batch := LocalRid_allocate_batch; rid_state := LocalRid_state |}.

(** The principal-creation path. *)
Definition assign_sid {A : Type} `{!RidPoolAllocator A} (allocator : A) (m : kvmap) (domain_sid : Sid)
    (principal_uuid : PrincipalId) : kvmap * Result IdentityError Sid :=
  let '(m', r) := rid_allocate allocator m domain_sid in
  (m', let? rid := r in
       map_err IdentityError_from (Sid_new (identifier_authority domain_sid) (sub_authorities domain_sid ++ [rid]))).
