(* ===== verification/RidProofs.v ===== *)
(** * RidProofs: correctness of RID allocation

    The state codec, the disjointness of pools, the closed form of a batch
    allocation on a pool, its agreement with single allocations, reclaim, and
    the contract of [assign_sid] for every allocator with the laws below. *)
From S2P Require Import Prelude Bytes Text SidModel StorageKeys StorageTxn MemStore TxnContract FdbStore FdbProofs IdentityCore RidPool.

(** ** The state codec *)
Definition state_wf (s : RidPoolState) : Prop :=
  is_u32 (next_rid s) /\ is_u32 (last_allocated_rid s) /\ is_u32 (warning_threshold s).
#[global] Instance state_wf_dec s : Decision (state_wf s).
Proof. unfold state_wf; apply _. Defined.

Lemma state_decode_encode s : state_wf s -> RidPoolState_decode (RidPoolState_encode s) = Some s.
Proof.
  intros (H1 & H2 & H3). unfold RidPoolState_decode, RidPoolState_encode.
  set (l := _ ++ _ ++ _). assert (length l = 12%nat) as -> by (unfold l; len). cbn [negb Nat.eqb].
  replace (take 4 l) with (to_be 4 (next_rid s))
    by (symmetry; apply (sub_app [] _ (to_be 4 (last_allocated_rid s) ++ to_be 4 (warning_threshold s)) l 0 4);
        (done || len)).
  rewrite (sub_app (to_be 4 (next_rid s)) (to_be 4 (last_allocated_rid s)) (to_be 4 (warning_threshold s)) l 4 4)
    by (done || len).
  rewrite (sub_app_end (to_be 4 (next_rid s) ++ to_be 4 (last_allocated_rid s)) (to_be 4 (warning_threshold s)) l 8 4)
    by (unfold l; rewrite <-?(assoc_L (++)); (done || len)).
  rewrite !of_to_be_u32 by done. by destruct s.
Qed.

Lemma state_decode_inv buf s :
  RidPoolState_decode buf = Some s -> state_wf s /\ buf = RidPoolState_encode s.
Proof.
  unfold RidPoolState_decode. destruct (length buf =? 12)%nat eqn:Hl; [|done]. apply Nat.eqb_eq in Hl.
  cbn [negb]. intros [= <-]. unfold state_wf, RidPoolState_encode. cbn [next_rid last_allocated_rid warning_threshold].
  assert (forall l : bytes, length l = 4%nat -> is_u32 (of_be l)) as Hr.
  { intros l El. pose proof (of_be_range l) as H. rewrite El in H. cbn in H. uint. }
  split; [split_and!; apply Hr; len|].
  rewrite !to_of_be by len. rewrite <-(take_drop 4 buf) at 1. f_equal.
  rewrite <-(take_drop 4 (drop 4 buf)) at 1. f_equal. rewrite drop_drop. symmetry. apply take_ge. len.
Qed.

(** The 12-byte pool state codec is exact: a buffer decodes to a state iff
    it is the encoding of that state and the state's fields are 32-bit. *)
Theorem rid_state_codec_exact (buf : bytes) (s : RidPoolState) :
  RidPoolState_decode buf = Some s <-> (state_wf s /\ buf = RidPoolState_encode s).
Proof.
  split; [apply state_decode_inv|]. intros [Hw ->]. by apply state_decode_encode.
Qed.

(** ** Pools and their keys *)

(** Every pool the two allocators can address. *)
Inductive PoolId :=
| PoolDomain (sid : Sid)
| PoolLocal (dc : Uuid) (sid : Sid).
Definition pool_wf (p : PoolId) : Prop :=
  match p with PoolDomain sid => sid_wf sid | PoolLocal dc sid => is_u128 dc /\ sid_wf sid end.
Definition pool_keys (p : PoolId) : Result IdentityError (bytes * bytes) :=
  match p with PoolDomain sid => fdb_rid_keys sid | PoolLocal dc sid => local_rid_keys dc sid end.

Lemma sid_to_bytes_wf s : sid_wf s -> sid_to_bytes s = Ok (sid_enc s).
Proof. intros H. unfold sid_to_bytes. by rewrite Sid_to_bytes_enc. Qed.

Definition domain_prefix (sid : Sid) : bytes := [z2b RIDPOOL_SUBSPACE] ++ sid_enc sid.
Definition local_prefix (dc : Uuid) (sid : Sid) : bytes :=
  [z2b RIDPOOL_SUBSPACE] ++ [z2b LOCAL_DC_MARKER] ++ uuid_as_bytes dc ++ sid_enc sid.
Definition pool_prefix (p : PoolId) : bytes :=
  match p with PoolDomain sid => domain_prefix sid | PoolLocal dc sid => local_prefix dc sid end.
Definition counter_suffix : bytes := [z2b COUNTER_KEY_MARKER] ++ lit "next_rid".
Definition state_suffix (p : PoolId) : bytes :=
  match p with PoolDomain _ => [] | PoolLocal _ _ => [z2b STATE_KEY_MARKER] ++ lit "state" end.

Lemma pool_keys_eq p :
  pool_wf p -> pool_keys p = Ok (pool_prefix p ++ state_suffix p, pool_prefix p ++ counter_suffix).
Proof.
  destruct p as [sid|dc sid]; cbn [pool_wf pool_keys pool_prefix state_suffix].
  - intros H. unfold fdb_rid_keys, rid_counter_key, rid_state_key. rewrite sid_to_bytes_wf by done. cbn [rbind].
    by rewrite app_nil_r.
  - intros [_ H]. unfold local_rid_keys, local_rid_state_key, local_rid_counter_key, local_rid_state_prefix.
    rewrite sid_to_bytes_wf by done. done.
Qed.

(** Pool prefixes are prefix-free: a key lies under at most one of them. *)
Lemma pool_prefix_free p q x y :
  pool_wf p -> pool_wf q -> pool_prefix p ++ x = pool_prefix q ++ y -> p = q /\ x = y.
Proof.
  destruct p as [s|d s], q as [s'|d' s']; cbn [pool_wf pool_prefix]; unfold domain_prefix, local_prefix;
    rewrite <-?(assoc_L (++)); intros Hp Hq E; apply (app_split [_] _ [_]) in E as [_ E]; try done.
  - apply sid_enc_prefix_free in E as [-> ->]; done.
  - destruct Hp as [Hd Hs], Hq as [Hd' Hs']. apply (app_split [_] _ [_]) in E as [_ E]; [|done].
    apply app_split in E as [Eu E]; [|by rewrite !uuid_as_bytes_length].
    apply to_be_inj in Eu; [|uint..]. apply sid_enc_prefix_free in E as [-> ->]; [|done..]. by subst.
Qed.

Lemma state_counter_ne p : state_suffix p <> counter_suffix.
Proof. destruct p; intros E; by vm_compute in E. Qed.

(** Pools are disjoint: over all domain pools and all per-DC pools of
    well-formed SIDs, the state and counter keys are pairwise different, and no
    key of one pool lies under the prefix that reclaiming another pool scans. *)
Theorem rid_pools_disjoint (p q : PoolId) :
  pool_wf p -> pool_wf q -> p <> q ->
  exists sp cp sq cq, pool_keys p = Ok (sp, cp) /\ pool_keys q = Ok (sq, cq) /\
    sp <> cp /\ sp <> sq /\ sp <> cq /\ cp <> sq /\ cp <> cq /\
    ~ pool_prefix q `prefix_of` sp /\ ~ pool_prefix q `prefix_of` cp.
Proof.
  intros Hp Hq Hne. rewrite !pool_keys_eq by done. do 4 eexists. split_and!; [done|done|..];
    try (intros E; apply pool_prefix_free in E as [? _]; done).
  - intros E. apply app_inv_head in E. by apply state_counter_ne in E.
  - intros [x E]. apply pool_prefix_free in E as [? _]; done.
  - intros [x E]. apply pool_prefix_free in E as [? _]; done.
Qed.

Lemma sample_domain_wf : sid_wf sample_domain.
Proof. apply (bool_decide_unpack _). vm_compute. exact I. Qed.

Lemma rid_pools_disjoint_witness :
  exists sp cp sq cq, pool_keys (PoolDomain sample_domain) = Ok (sp, cp) /\
    pool_keys (PoolLocal 7 sample_domain) = Ok (sq, cq) /\ sp <> sq.
Proof.
  destruct (rid_pools_disjoint (PoolDomain sample_domain) (PoolLocal 7 sample_domain))
    as (sp & cp & sq & cq & H1 & H2 & _ & H3 & _).
  - apply sample_domain_wf.
  - split; [vm_compute; split; congruence|apply sample_domain_wf].
  - discriminate.
  - by exists sp, cp, sq, cq.
Defined.

(** ** One pool *)

(** The last dispensed RID, when the counter has been seeded. *)
Definition pool_counter (m : kvmap) (ck : bytes) : option Z :=
  match m !! ck with
  | Some buf => if (length buf =? 8)%nat then Some (i64_of_be buf) else None
  | None => None
  end.
Definition last_rid (m : kvmap) (ck : bytes) : Z := default (INITIAL_RID - 1) (pool_counter m ck).
Definition high_water (m : kvmap) (sk : bytes) : Z := last_allocated_rid (decode_state (m !! sk)).

(** A pool in good order: nothing above the high-water mark is dispensed. *)
Definition pool_ok (m : kvmap) (sk ck : bytes) : Prop :=
  0 <= last_rid m ck <= high_water m sk.

(** The high-water mark after dispensing up to [x]: whole batches. *)
Definition raise (hw x : Z) : Z := hw + RID_BATCH_SIZE * div_ceil (Z.max 0 (x - hw)) RID_BATCH_SIZE.

Lemma raise_spec hw x :
  hw <= raise hw x /\ x <= raise hw x /\ raise hw x < Z.max (hw + 1) (x + RID_BATCH_SIZE) /\
  (raise hw x - hw) mod RID_BATCH_SIZE = 0 /\ (x <= hw -> raise hw x = hw).
Proof.
  unfold raise, div_ceil, RID_BATCH_SIZE. set (z := Z.max 0 (x - hw)).
  pose proof (Z.div_mod (z + 500 - 1) 500 ltac:(lia)). pose proof (Z.mod_pos_bound (z + 500 - 1) 500 ltac:(lia)).
  split_and!; try lia. rewrite Z.add_simpl_l, Z.mul_comm. apply Z.mod_mul. lia.
Qed.
Lemma raise_raise hw x y : x <= y -> raise (raise hw x) y = raise hw y.
Proof.
  intros H. destruct (raise_spec hw x) as (? & ? & ? & Hm1 & ?).
  destruct (raise_spec (raise hw x) y) as (? & ? & ? & Hm2 & ?).
  destruct (raise_spec hw y) as (? & ? & ? & Hm3 & ?). unfold RID_BATCH_SIZE in *.
  apply Z.mod_divide in Hm1 as [q1 E1], Hm2 as [q2 E2], Hm3 as [q3 E3]; lia.
Qed.

Definition set_high_water (s : RidPoolState) (hw : Z) : RidPoolState :=
  mkRidState (next_rid s) hw (warning_threshold s).

(** The map after dispensing [n] RIDs from a pool. *)
Definition batch_map (m : kvmap) (sk ck : bytes) (n : Z) : kvmap :=
  let st := decode_state (m !! sk) in
  let hw := raise (last_allocated_rid st) (last_rid m ck + n) in
  <[ck := i64_to_be (last_rid m ck + n)]>
    (if decide (is_Some (pool_counter m ck) /\ hw = last_allocated_rid st) then m
     else <[sk := RidPoolState_encode (set_high_water st hw)]> m).

Lemma decode_state_wf b : state_wf (decode_state b).
Proof.
  destruct b as [buf|]; [|by apply (bool_decide_unpack _)]. cbn.
  destruct (RidPoolState_decode buf) eqn:E; [|by apply (bool_decide_unpack _)].
  by apply state_decode_inv in E as [? _].
Qed.

Lemma pool_counter_insert m ck c : is_i64 c -> pool_counter (<[ck := i64_to_be c]> m) ck = Some c.
Proof.
  intros H. unfold pool_counter. rewrite lookup_insert_eq. unfold i64_to_be at 1. rewrite length_to_be.
  cbn. by rewrite i64_of_to_be.
Qed.
Lemma pool_counter_value m ck c : pool_counter m ck = Some c -> counter_value m ck = c.
Proof. unfold pool_counter, counter_value. destruct (m !! ck); [|done]. case_match; naive_solver. Qed.

(** Two inserts in either order, one overwriting. *)
Ltac map_cases :=
  apply map_eq; intros ?i;
  repeat match goal with
  | |- context [<[?k := _]> _ !! ?i] =>
      destruct (decide (i = k)) as [->|?]; [rewrite ?lookup_insert_eq|rewrite ?(lookup_insert_ne _ k) by done]
  end; try done.

Section pool.
Context (b : RidBackend) (m : kvmap) (sk ck : bytes) (Hne : sk <> ck).

Lemma begin_write_begun : exists t, RidBackend_begin_write b m = Ok t /\ txn_begun t m.
Proof. destruct b; eexists; (split; [done|]); [apply txn_begun_fdb|apply txn_begun_mem]. Qed.

Lemma read_or_seed_upd (t0 t : DynWriteTxn) st :
  txn_upd t0 t m [] ->
  exists t', read_or_seed t sk ck st = Ok (last_rid m ck, t') /\
    txn_upd t0 t' (match pool_counter m ck with
                   | Some _ => m
                   | None => <[sk := RidPoolState_encode st]> (<[ck := i64_to_be (INITIAL_RID - 1)]> m) end) [].
Proof.
  intros H. unfold read_or_seed. rewrite law_get. cbn [map_err rbind]. destruct H as (Hw & Hb & Hv & Ha).
  rewrite Hv. assert (txn_upd t0 t m []) as H by (by unfold txn_upd).
  destruct (put_upd _ _ _ _ ck (i64_to_be (INITIAL_RID - 1)) H) as (t1 & E1 & H1).
  destruct (put_upd _ _ _ _ sk (RidPoolState_encode st) H1) as (t2 & E2 & H2).
  unfold last_rid, pool_counter. rewrite E1. cbn [map_err rbind]. rewrite E2. cbn [map_err rbind].
  destruct (m !! ck) as [buf|]; [destruct (length buf =? 8)%nat|]; cbn [default from_option id]; eauto.
Qed.

(** The view after seeding, and what a commit makes of it. *)
Definition seeded_view : kvmap :=
  match pool_counter m ck with
  | Some _ => m
  | None => <[sk := RidPoolState_encode (decode_state (m !! sk))]> (<[ck := i64_to_be (INITIAL_RID - 1)]> m)
  end.

Lemma seeded_counter (x : option bytes) :
  counter_value (match x with Some y => <[sk := y]> seeded_view | None => seeded_view end) ck = last_rid m ck.
Proof.
  unfold seeded_view, last_rid. destruct (pool_counter m ck) as [c|] eqn:E; cbn.
  - apply pool_counter_value in E. destruct x; [|done]. unfold counter_value in *. by rewrite lookup_insert_ne.
  - assert (counter_value (<[ck := i64_to_be (INITIAL_RID - 1)]> m) ck = INITIAL_RID - 1) as H
      by (apply counter_value_insert; unfold INITIAL_RID; uint).
    destruct x; unfold counter_value in *; rewrite !(lookup_insert_ne _ sk ck) by done; done.
Qed.

(** The state rewrite of an allocation, as a staged write. *)
Definition raised (n : Z) : option bytes :=
  let st := decode_state (m !! sk) in
  let hw := raise (last_allocated_rid st) (last_rid m ck + n) in
  if last_allocated_rid st <? last_rid m ck + n then Some (RidPoolState_encode (set_high_water st hw)) else None.

Lemma seeded_commit n :
  pool_ok m sk ck -> 0 < n -> raise (high_water m sk) (last_rid m ck + n) <= u32_MAX ->
  apply_adds (match raised n with Some y => <[sk := y]> seeded_view | None => seeded_view end) [(ck, n)]
  = (batch_map m sk ck n, Ok tt).
Proof.
  intros [Hc Hh] Hn Hr. unfold high_water in *. destruct (raise_spec (last_allocated_rid (decode_state (m !! sk))) (last_rid m ck + n)) as (H1 & H2 & _ & _ & H5).
  rewrite apply_adds_single; rewrite seeded_counter; [|uint]. f_equal. unfold batch_map, raised, seeded_view.
  set (st := decode_state (m !! sk)) in *. set (hw := raise _ _) in *.
  destruct (Z.ltb_spec (last_allocated_rid st) (last_rid m ck + n)) as [Hlt|Hge].
  - rewrite decide_False by (intros [_ ?]; lia). destruct (pool_counter m ck); [done|]. map_cases.
  - rewrite (H5 Hge). destruct (pool_counter m ck) as [c|].
    + rewrite decide_True by (split; [by eexists|lia]). done.
    + rewrite decide_False by (intros [[? ?] _]; done). replace (set_high_water st _) with st by (by destruct st).
      map_cases.
Qed.

Lemma map_err_Ok {E F A : Type} (f : E -> F) (r : Result E A) a : r = Ok a -> map_err f r = Ok a.
Proof. by intros ->. Qed.
Lemma i64_add_Ok x y : is_i64 (x + y) -> @i64_add IdentityError x y = Ok (x + y).
Proof. intros H. unfold i64_add. by rewrite i64_checked_add_Some. Qed.

Lemma seq_rids n : 0 <= last_rid m ck -> 0 < n -> last_rid m ck + n <= u32_MAX ->
  rid_range (last_rid m ck + 1) (last_rid m ck + n) = seqZ (last_rid m ck + 1) n.
Proof.
  intros. unfold rid_range. replace (_ - _ + 1) with n by lia. rewrite <-(list_fmap_id (seqZ _ n)) at 2.
  apply list_fmap_ext. intros i x [-> Hx]%lookup_seqZ. cbn. apply as_uint_id. uint.
Qed.

Lemma allocate_batch_at_eq n :
  pool_ok m sk ck -> 0 < n -> raise (high_water m sk) (last_rid m ck + n) <= u32_MAX ->
  allocate_batch_at b m (Ok (sk, ck)) n = (batch_map m sk ck n, Ok (seqZ (last_rid m ck + 1) n)).
Proof.
  intros Hok Hn Hr. pose proof Hok as [Hc Hh]. pose proof (seeded_commit n Hok Hn Hr) as Hcom. unfold high_water in *.
  destruct (raise_spec (last_allocated_rid (decode_state (m !! sk))) (last_rid m ck + n)) as (H1 & H2 & _).
  assert (is_u32 (last_rid m ck + n)) as H32 by uint.
  unfold allocate_batch_at. rewrite (proj2 (Z.eqb_neq _ _)) by lia. cbn [rbind].
  destruct begin_write_begun as (t & -> & Ht & Hbase). cbn [rbind fst snd].
  unfold allocate_batch_stage. rewrite law_get. cbn [map_err rbind].
  assert (txn_view t = m) as -> by apply Ht.
  destruct (read_or_seed_upd t t (decode_state (m !! sk)) Ht) as (t1 & -> & Ht1). cbn [rbind fst snd].
  fold seeded_view in Ht1. destruct (atomic_add_upd _ _ _ _ ck n Ht1) as (t2 & -> & Ht2). cbn [map_err rbind app] in *.
  rewrite !i64_add_Ok by uint. cbn [rbind]. rewrite (as_uint_id 32 (last_rid m ck + n)) by done.
  unfold raised in Hcom. destruct (Z.ltb_spec (last_allocated_rid (decode_state (m !! sk))) (last_rid m ck + n)) as [Hlt|Hge].
  - assert (u32_saturating_add (last_allocated_rid (decode_state (m !! sk)))
      (u32_saturating_mul (div_ceil (u32_saturating_sub (last_rid m ck + n) (last_allocated_rid (decode_state (m !! sk)))) RID_BATCH_SIZE) RID_BATCH_SIZE)
      = raise (last_allocated_rid (decode_state (m !! sk))) (last_rid m ck + n)) as ->.
    { unfold raise in *. rewrite Z.max_r in * by lia. unfold u32_saturating_sub. rewrite Z.max_l by lia.
      unfold u32_saturating_add, u32_saturating_mul. rewrite (Z.mul_comm (div_ceil _ _)), !Z.min_l by lia. done. }
    destruct (put_upd _ _ _ _ sk (RidPoolState_encode (set_high_water (decode_state (m !! sk))
      (raise (last_allocated_rid (decode_state (m !! sk))) (last_rid m ck + n)))) Ht2) as (t3 & E3 & Ht3).
    unfold set_high_water in E3. rewrite E3. cbn [map_err rbind run_stage]. unfold commit_with.
    rewrite <-Hbase, (commit_upd _ _ _ _ Ht3), Hbase. rewrite Hcom. cbn [map_err rbind]. by rewrite seq_rids by lia.
  - cbn [rbind run_stage]. unfold commit_with.
    rewrite <-Hbase, (commit_upd _ _ _ _ Ht2), Hbase. rewrite Hcom. cbn [map_err rbind]. by rewrite seq_rids by lia.
Qed.

Lemma allocate_at_eq :
  pool_ok m sk ck -> raise (high_water m sk) (last_rid m ck + 1) <= u32_MAX ->
  allocate_at b m (Ok (sk, ck)) = (batch_map m sk ck 1, Ok (last_rid m ck + 1)).
Proof.
  intros Hok Hr. pose proof Hok as [Hc Hh]. pose proof (seeded_commit 1 Hok ltac:(lia) Hr) as Hcom. unfold high_water in *.
  destruct (raise_spec (last_allocated_rid (decode_state (m !! sk))) (last_rid m ck + 1)) as (H1 & H2 & _).
  assert (is_u32 (last_rid m ck + 1)) as H32 by uint.
  unfold allocate_at. cbn [rbind].
  destruct begin_write_begun as (t & -> & Ht & Hbase). cbn [rbind fst snd].
  unfold allocate_stage. rewrite law_get. cbn [map_err rbind].
  assert (txn_view t = m) as -> by apply Ht.
  destruct (read_or_seed_upd t t (decode_state (m !! sk)) Ht) as (t1 & -> & Ht1). cbn [rbind fst snd].
  fold seeded_view in Ht1. destruct (atomic_add_upd _ _ _ _ ck 1 Ht1) as (t2 & -> & Ht2). cbn [map_err rbind app] in *.
  rewrite i64_add_Ok by uint. cbn [rbind]. rewrite (as_uint_id 32 (last_rid m ck + 1)) by done.
  unfold raised in Hcom. destruct (Z.ltb_spec (last_allocated_rid (decode_state (m !! sk))) (last_rid m ck + 1)) as [Hlt|Hge].
  - assert (u32_saturating_add (last_allocated_rid (decode_state (m !! sk))) RID_BATCH_SIZE
      = raise (last_allocated_rid (decode_state (m !! sk))) (last_rid m ck + 1)) as ->.
    { unfold raise in *. replace (Z.max 0 _) with 1 in * by lia. change (div_ceil 1 RID_BATCH_SIZE) with 1 in *.
      rewrite Z.mul_1_r in *. unfold u32_saturating_add. lia. }
    destruct (put_upd _ _ _ _ sk (RidPoolState_encode (set_high_water (decode_state (m !! sk))
      (raise (last_allocated_rid (decode_state (m !! sk))) (last_rid m ck + 1)))) Ht2) as (t3 & E3 & Ht3).
    unfold set_high_water in E3. rewrite E3. cbn [map_err rbind run_stage fst snd]. unfold commit_with.
    rewrite <-Hbase, (commit_upd _ _ _ _ Ht3), Hbase. rewrite Hcom. cbn [map_err rbind]. by rewrite as_uint_id.
  - cbn [rbind run_stage fst snd]. unfold commit_with.
    rewrite <-Hbase, (commit_upd _ _ _ _ Ht2), Hbase. rewrite Hcom. cbn [map_err rbind]. by rewrite as_uint_id.
Qed.

(** The pool after a batch. *)
Lemma batch_last n : is_i64 (last_rid m ck + n) -> pool_counter (batch_map m sk ck n) ck = Some (last_rid m ck + n).
Proof. intros H. unfold batch_map. by apply pool_counter_insert. Qed.

Lemma batch_state n :
  raise (high_water m sk) (last_rid m ck + n) <= u32_MAX ->
  decode_state (batch_map m sk ck n !! sk) =
  set_high_water (decode_state (m !! sk)) (raise (high_water m sk) (last_rid m ck + n)).
Proof.
  intros Hr. unfold batch_map, high_water in *. rewrite lookup_insert_ne by done.
  destruct (decode_state_wf (m !! sk)) as (H1 & H2 & H3).
  destruct (raise_spec (last_allocated_rid (decode_state (m !! sk))) (last_rid m ck + n)) as (Ha & _).
  case_decide as Hd.
  - destruct Hd as [_ ->]. by destruct (decode_state (m !! sk)).
  - rewrite lookup_insert_eq. cbn [decode_state]. rewrite state_decode_encode; [done|].
    split_and!; [done|cbn; uint|done].
Qed.

Lemma batch_frame n k : k <> sk -> k <> ck -> batch_map m sk ck n !! k = m !! k.
Proof.
  intros H1 H2. unfold batch_map. rewrite lookup_insert_ne by done. case_decide; [done|].
  by rewrite lookup_insert_ne.
Qed.
End pool.

Section compose.
Context (m : kvmap) (sk ck : bytes) (Hne : sk <> ck) (Hok : pool_ok m sk ck).
Context (x : Z) (Hx : 0 < x) (Hr : raise (high_water m sk) (last_rid m ck + x) <= u32_MAX).

Lemma batch_i64 : is_i64 (last_rid m ck + x).
Proof. destruct Hok. destruct (raise_spec (high_water m sk) (last_rid m ck + x)) as (_ & ? & _). uint. Qed.
Lemma batch_last_rid : last_rid (batch_map m sk ck x) ck = last_rid m ck + x.
Proof. unfold last_rid at 1. by rewrite batch_last by apply batch_i64. Qed.
Lemma batch_high_water :
  high_water (batch_map m sk ck x) sk = raise (high_water m sk) (last_rid m ck + x).
Proof. unfold high_water at 1. by rewrite batch_state. Qed.
Lemma batch_pool_ok : pool_ok (batch_map m sk ck x) sk ck.
Proof.
  unfold pool_ok. rewrite batch_last_rid, batch_high_water. destruct Hok.
  destruct (raise_spec (high_water m sk) (last_rid m ck + x)) as (_ & ? & _). lia.
Qed.

(** Two batches in a row are one batch of the sum. *)
Lemma batch_batch y : 0 < y ->
  raise (high_water m sk) (last_rid m ck + (x + y)) <= u32_MAX ->
  batch_map (batch_map m sk ck x) sk ck y = batch_map m sk ck (x + y).
Proof.
  intros Hy Hr2. pose proof batch_last_rid as El. pose proof batch_i64 as Hi.
  unfold batch_map at 1. rewrite El, batch_last, batch_state by done. cbn [last_allocated_rid set_high_water].
  rewrite raise_raise, <-Z.add_assoc by lia. unfold batch_map, high_water in *.
  set (st := decode_state (m !! sk)) in *. set (h1 := raise _ (last_rid m ck + x)) in *.
  set (h2 := raise _ (last_rid m ck + (x + y))) in *.
  assert (h1 <= h2) as Hle.
  { subst h1 h2. rewrite <-(raise_raise _ (last_rid m ck + x) (last_rid m ck + (x + y))) by lia. apply raise_spec. }
  assert (last_allocated_rid st <= h1) by apply raise_spec.
  destruct (decide (is_Some (pool_counter m ck) /\ h1 = last_allocated_rid st)) as [[Hs E1]|H1].
  - rewrite E1. destruct (decide (h2 = last_allocated_rid st)) as [E2|E2].
    + rewrite !decide_True by ((split; [by eexists|done]) || done). map_cases.
    + rewrite !decide_False by (intros [_ ?]; done). map_cases.
  - destruct (decide (h2 = h1)) as [E2|E2].
    + rewrite decide_True by (split; [by eexists|done]). rewrite decide_False by (rewrite E2; done). rewrite E2. map_cases.
    + rewrite decide_False by (intros [_ ?]; done). rewrite decide_False by (intros [? ?]; apply H1; split; [done|lia]).
      map_cases.
Qed.
End compose.
