(* ===== verification/RidSpec.v ===== *)
(** * RidSpec: the contract of the RID allocators

    [RidPoolLaws] says which pool an allocator uses for a domain; both
    allocators discharge it, and the theorems hold for any allocator with the
    laws: batches agree with single allocations, fresh pools count up from
    [INITIAL_RID], reclaim resets one pool, [assign_sid] extends the domain. *)
From S2P Require Import Prelude Bytes Text SidModel StorageKeys StorageTxn MemStore TxnContract FdbStore FdbProofs IdentityCore RidPool RidProofs.

Class RidPoolLaws (A : Type) `{RA : !RidPoolAllocator A} := {
  rid_backend : A -> RidBackend;
  rid_pool : A -> Sid -> PoolId;
  rid_wf : A -> Prop;
  rid_reclaim : A -> kvmap -> Sid -> kvmap * Result IdentityError unit;
  law_pool_wf a sid : rid_wf a -> sid_wf sid -> pool_wf (rid_pool a sid);
  law_pool_inj a sid sid' : rid_pool a sid = rid_pool a sid' -> sid = sid';
  law_allocate a m sid : rid_allocate a m sid = allocate_at (rid_backend a) m (pool_keys (rid_pool a sid));
  law_allocate_batch a m sid n :
    rid_allocate_batch a m sid n = allocate_batch_at (rid_backend a) m (pool_keys (rid_pool a sid)) n;
  law_state a m sid : rid_state a m sid = state_at (rid_backend a) m (pool_keys (rid_pool a sid));
  law_reclaim a m sid : rid_wf a -> sid_wf sid ->
    rid_reclaim a m sid = reclaim_at (rid_backend a) m (Ok (pool_prefix (rid_pool a sid)));
}.

#[global] Instance FdbRid_laws : RidPoolLaws FdbRidPoolAllocator.
Proof.
  refine {| rid_backend := fdbrid_backend; rid_pool := fun _ sid => PoolDomain sid; rid_wf := fun _ => True;
            rid_reclaim := reclaim_domain |}; try done.
  - congruence.
  - intros a m sid _ Hs. unfold reclaim_domain, rid_state_key. by rewrite sid_to_bytes_wf.
Defined.
#[global] Instance LocalRid_laws : RidPoolLaws LocalRidAllocator.
Proof.
  refine {| rid_backend := localrid_backend; rid_pool := fun a sid => PoolLocal (local_dc_id a) sid;
            rid_wf := fun a => is_u128 (local_dc_id a); rid_reclaim := reclaim_dc |}; try done.
  - congruence.
  - intros a m sid _ Hs. unfold reclaim_dc, local_rid_state_prefix. by rewrite sid_to_bytes_wf.
Defined.

Section allocator.
Context {A : Type} `{RL : RidPoolLaws A}.
Implicit Types (a : A).

Definition state_key a (sid : Sid) : bytes := pool_prefix (rid_pool a sid) ++ state_suffix (rid_pool a sid).
Definition counter_key a (sid : Sid) : bytes := pool_prefix (rid_pool a sid) ++ counter_suffix.

(** The pool's next RID and high-water mark, and that they are in order. *)
Definition next_of a (m : kvmap) (sid : Sid) : Z := last_rid m (counter_key a sid) + 1.
Definition mark_of a (m : kvmap) (sid : Sid) : Z := high_water m (state_key a sid).
Definition in_order a (m : kvmap) (sid : Sid) : Prop := pool_ok m (state_key a sid) (counter_key a sid).
(** [n] more RIDs fit below 2^32, rounded up to whole batches. *)
Definition room a (m : kvmap) (sid : Sid) (n : Z) : Prop :=
  raise (mark_of a m sid) (next_of a m sid - 1 + n) <= u32_MAX.

Lemma keys_ne a sid : state_key a sid <> counter_key a sid.
Proof. intros E. apply app_inv_head in E. by apply state_counter_ne in E. Qed.
Lemma pool_keys_of a sid : rid_wf a -> sid_wf sid ->
  pool_keys (rid_pool a sid) = Ok (state_key a sid, counter_key a sid).
Proof. intros Ha Hs. by apply pool_keys_eq, law_pool_wf. Qed.

Lemma next_of_last a m sid : next_of a m sid - 1 = last_rid m (counter_key a sid).
Proof. unfold next_of. lia. Qed.

Lemma batch_eq a m sid n :
  rid_wf a -> sid_wf sid -> in_order a m sid -> 0 < n -> room a m sid n ->
  rid_allocate_batch a m sid n =
    (batch_map m (state_key a sid) (counter_key a sid) n, Ok (seqZ (next_of a m sid) n)).
Proof.
  intros Ha Hs Ho Hn Hr. rewrite law_allocate_batch, pool_keys_of by done. unfold room in Hr.
  rewrite next_of_last in Hr. apply allocate_batch_at_eq; [apply keys_ne|done..].
Qed.
Lemma single_eq a m sid :
  rid_wf a -> sid_wf sid -> in_order a m sid -> room a m sid 1 ->
  rid_allocate a m sid =
    (batch_map m (state_key a sid) (counter_key a sid) 1, Ok (next_of a m sid)).
Proof.
  intros Ha Hs Ho Hr. rewrite law_allocate, pool_keys_of by done. unfold room in Hr.
  rewrite next_of_last in Hr. apply allocate_at_eq; [apply keys_ne|done..].
Qed.

Lemma room_mono a m sid n n' : n' <= n -> room a m sid n -> room a m sid n'.
Proof.
  unfold room. intros Hn Hr.
  rewrite <-(raise_raise _ (next_of a m sid - 1 + n') (next_of a m sid - 1 + n)) in Hr by lia.
  destruct (raise_spec (raise (mark_of a m sid) (next_of a m sid - 1 + n')) (next_of a m sid - 1 + n)) as (? & _).
  lia.
Qed.

(** [state] reports the next RID and the mark. *)
Lemma state_eq a m sid :
  rid_wf a -> sid_wf sid -> in_order a m sid -> is_Some (pool_counter m (counter_key a sid)) ->
  next_of a m sid <= u32_MAX ->
  rid_state a m sid = Ok (mkRidState (next_of a m sid) (mark_of a m sid)
    (warning_threshold (decode_state (m !! state_key a sid)))).
Proof.
  intros Ha Hs [Ho _] [c Hc] Hu. rewrite law_state, pool_keys_of by done. unfold state_at. cbn [rbind fst snd].
  assert (RidBackend_begin_read (rid_backend a) m = Ok (rtxn m)) as -> by (by destruct (rid_backend a)).
  cbn [rbind]. rewrite !law_get. cbn [map_err rbind txn_view MemFdbTxn_laws r_snapshot].
  unfold next_of, last_rid in *. rewrite Hc in *. cbn [default from_option id] in *. unfold pool_counter in Hc.
  destruct (m !! counter_key a sid) as [buf|]; [|done]. destruct (length buf =? 8)%nat; [|done].
  apply (inj Some) in Hc. rewrite Hc. rewrite (proj2 (Z.ltb_ge _ _)) by lia.
  rewrite i64_add_Ok by uint. cbn [rbind]. by rewrite as_uint_id by uint.
Qed.

Fixpoint allocate_times a (m : kvmap) (sid : Sid) (n : nat) : kvmap * Result IdentityError (list Rid) :=
  match n with
  | O => (m, Ok [])
  | S n =>
      let '(m1, r) := rid_allocate a m sid in
      match r with
      | Ok x => let '(m2, rs) := allocate_times a m1 sid n in (m2, let? xs := rs in Ok (x :: xs))
      | Err e => (m1, Err e)
      | Panic => (m1, Panic)
      end
  end.

Lemma allocate_times_eq a m sid n :
  rid_wf a -> sid_wf sid -> in_order a m sid -> room a m sid (Z.of_nat (S n)) ->
  allocate_times a m sid (S n) =
    (batch_map m (state_key a sid) (counter_key a sid) (Z.of_nat (S n)), Ok (seqZ (next_of a m sid) (Z.of_nat (S n)))).
Proof.
  intros Ha Hs. revert m. induction n as [|n IH]; intros m Ho Hr.
  { cbn [allocate_times]. by rewrite single_eq by done. }
  assert (room a m sid 1) as Hr1 by (eapply room_mono; [|done]; lia).
  pose proof Hr1 as Hr1'. unfold room in Hr1'. rewrite next_of_last in Hr1'.
  pose proof (batch_last_rid m _ _ Ho 1 ltac:(lia) Hr1') as El.
  pose proof (batch_high_water m _ _ (keys_ne a sid) 1 Hr1') as Eh.
  assert (raise (high_water m (state_key a sid)) (last_rid m (counter_key a sid) + (1 + Z.of_nat (S n))) <= u32_MAX) as Hr2.
  { unfold room in Hr. rewrite next_of_last in Hr. by replace (1 + Z.of_nat (S n)) with (Z.of_nat (S (S n))) by lia. }
  assert (next_of a (batch_map m (state_key a sid) (counter_key a sid) 1) sid = next_of a m sid + 1) as En.
  { unfold next_of. rewrite El. lia. }
  change (allocate_times a m sid (S (S n))) with
    (let '(m1, r) := rid_allocate a m sid in
     match r with
     | Ok x => let '(m2, rs) := allocate_times a m1 sid (S n) in (m2, let? xs := rs in Ok (x :: xs))
     | Err e => (m1, Err e)
     | Panic => (m1, Panic)
     end).
  rewrite single_eq by done. rewrite IH.
  - rewrite En, batch_batch by (apply keys_ne || done || lia).
    replace (1 + Z.of_nat (S n)) with (Z.of_nat (S (S n))) by lia. cbn [rbind]. do 2 f_equal.
    rewrite (seqZ_cons _ (Z.of_nat (S (S n)))) by lia. do 2 f_equal; lia.
  - by apply batch_pool_ok; [apply keys_ne|..].
  - unfold room, mark_of. rewrite next_of_last, El, Eh, raise_raise by lia.
    by rewrite <-Z.add_assoc.
Qed.
End allocator.

(** C18: Batches agree with single allocations: dispensing a batch of [n] RIDs
    returns the same RIDs and leaves the same store as [n] calls of [allocate],
    for both allocators, as long as the rounded-up mark fits a [u32]. *)
Theorem rid_batch_is_singles {A : Type} `{RL : RidPoolLaws A} (a : A) (m : kvmap) (sid : Sid) (n : nat) :
  rid_wf a -> sid_wf sid -> in_order a m sid -> room a m sid (Z.of_nat n) ->
  rid_allocate_batch a m sid (Z.of_nat n) = allocate_times a m sid n.
Proof.
  intros Ha Hs Ho Hr. destruct n as [|n]; [by rewrite law_allocate_batch|].
  by rewrite allocate_times_eq, batch_eq by (done || lia).
Qed.

Definition sample_alloc : FdbRidPoolAllocator := FdbRidPoolAllocator_new_in_memory_default.

Lemma rid_batch_is_singles_witness :
  rid_allocate_batch sample_alloc ∅ sample_domain (Z.of_nat 600) = allocate_times sample_alloc ∅ sample_domain 600.
Proof.
  apply (rid_batch_is_singles sample_alloc ∅ sample_domain 600).
  - exact I.
  - apply sample_domain_wf.
  - vm_compute. split; congruence.
  - vm_compute. congruence.
Defined.

(** A pool that has never been used. *)
Definition unused {A : Type} `{RL : RidPoolLaws A} (a : A) (m : kvmap) (sid : Sid) : Prop :=
  m !! state_key a sid = None /\ m !! counter_key a sid = None.

Section unused.
Context {A : Type} `{RL : RidPoolLaws A} (a : A) (m : kvmap) (sid : Sid) (Hun : unused a m sid).
Lemma unused_next : next_of a m sid = INITIAL_RID.
Proof. destruct Hun as [_ H]. unfold next_of, last_rid, pool_counter. by rewrite H. Qed.
Lemma unused_mark : mark_of a m sid = INITIAL_RID + RID_BATCH_SIZE - 1.
Proof. destruct Hun as [H _]. unfold mark_of, high_water. by rewrite H. Qed.
Lemma unused_in_order : in_order a m sid.
Proof.
  pose proof unused_next as H1. pose proof unused_mark as H2. unfold next_of, mark_of in *.
  unfold in_order, pool_ok. unfold INITIAL_RID, RID_BATCH_SIZE in *. lia.
Qed.
End unused.

(** A fresh pool counts up: [n] allocations from an unused pool return
    1000, 1001, ..., each once, and [state] then reports the next RID and a
    high-water mark that covers every dispensed RID and ends a whole 500-RID
    batch, at most one batch beyond. *)
Theorem rid_fresh_sequence {A : Type} `{RL : RidPoolLaws A} (a : A) (m : kvmap) (sid : Sid) (n : nat) :
  rid_wf a -> sid_wf sid -> unused a m sid -> (0 < n)%nat -> INITIAL_RID + RID_BATCH_SIZE + Z.of_nat n <= u32_MAX ->
  exists m' mark,
    allocate_times a m sid n = (m', Ok (seqZ INITIAL_RID (Z.of_nat n))) /\
    NoDup (seqZ INITIAL_RID (Z.of_nat n)) /\
    rid_state a m' sid = Ok (mkRidState (INITIAL_RID + Z.of_nat n) mark RID_EXHAUSTION_WARNING_THRESHOLD) /\
    INITIAL_RID + Z.of_nat n - 1 <= mark < INITIAL_RID + Z.of_nat n + RID_BATCH_SIZE /\
    (mark + 1 - INITIAL_RID) mod RID_BATCH_SIZE = 0.
Proof.
  intros Ha Hs Hun Hn Hu. destruct n as [|n]; [lia|]. set (k := Z.of_nat (S n)) in *.
  pose proof (unused_next a m sid Hun) as En. pose proof (unused_mark a m sid Hun) as Em.
  pose proof (unused_in_order a m sid Hun) as Ho.
  destruct (raise_spec (mark_of a m sid) (next_of a m sid - 1 + k)) as (R1 & R2 & R3 & R4 & _).
  assert (room a m sid k) as Hr
    by (unfold room; rewrite En, Em in *; unfold INITIAL_RID, RID_BATCH_SIZE, u32_MAX in *; lia).
  pose proof Hr as Hr'. unfold room in Hr'. rewrite next_of_last in Hr'.
  assert (0 < k) as Hk by lia.
  pose proof (batch_last_rid m _ _ Ho k Hk Hr') as El.
  pose proof (batch_high_water m _ _ (keys_ne a sid) k Hr') as Eh.
  exists (batch_map m (state_key a sid) (counter_key a sid) k), (raise (mark_of a m sid) (next_of a m sid - 1 + k)).
  split_and!.
  - by rewrite allocate_times_eq, En by done.
  - apply NoDup_seqZ.
  - rewrite state_eq; [|done|done|by apply batch_pool_ok; [apply keys_ne|..]| |].
    + unfold next_of at 1, mark_of at 1. rewrite El, Eh, batch_state by (apply keys_ne || done).
      rewrite next_of_last. destruct Hun as [-> _]. rewrite <-next_of_last, En. do 2 f_equal. lia.
    + rewrite batch_last by (by apply (batch_i64 m _ _ Ho)). by eexists.
    + unfold next_of. rewrite El, <-next_of_last, En. lia.
  - rewrite En, Em in *. lia.
  - rewrite En, Em in *. unfold INITIAL_RID, RID_BATCH_SIZE in *. lia.
  - rewrite En, Em in *. apply Z.mod_divide in R4 as [q E]; [|done]. apply Z.mod_divide; [done|].
    exists (q + 1). unfold INITIAL_RID, RID_BATCH_SIZE in *. lia.
Qed.

Lemma rid_fresh_sequence_witness :
  exists m' mark, allocate_times sample_alloc ∅ sample_domain 3 = (m', Ok [1000; 1001; 1002]) /\
    rid_state sample_alloc m' sample_domain = Ok (mkRidState 1003 mark 250).
Proof.
  destruct (rid_fresh_sequence sample_alloc ∅ sample_domain 3) as (m' & mark & H1 & _ & H2 & _).
  - exact I.
  - apply sample_domain_wf.
  - split; reflexivity.
  - lia.
  - vm_compute. congruence.
  - exists m', mark. split; [exact H1|exact H2].
Defined.

(** Allocating from one domain's pool does not move another domain's:
    [state] of any other domain is unchanged by [allocate] and
    [allocate_batch]. *)
Theorem rid_domains_independent {A : Type} `{RL : RidPoolLaws A} (a : A) (m : kvmap) (sid sid' : Sid) (n : Z) :
  rid_wf a -> sid_wf sid -> sid_wf sid' -> sid <> sid' -> in_order a m sid -> 0 < n -> room a m sid n ->
  rid_state a (rid_allocate_batch a m sid n).1 sid' = rid_state a m sid' /\
  rid_state a (rid_allocate a m sid).1 sid' = rid_state a m sid'.
Proof.
  intros Ha Hs Hs' Hne Ho Hn Hr.
  assert (forall k, rid_state a (batch_map m (state_key a sid) (counter_key a sid) k) sid' = rid_state a m sid') as H.
  { intros k. rewrite !law_state, !pool_keys_of by done. unfold state_at. cbn [rbind fst snd].
    assert (forall m, RidBackend_begin_read (rid_backend a) m = Ok (rtxn m)) as Hb by (by destruct (rid_backend a)).
    rewrite !Hb. cbn [rbind]. rewrite !law_get. cbn [map_err rbind txn_view MemFdbTxn_laws r_snapshot].
    rewrite !batch_frame; [done|..]; intros E; apply pool_prefix_free in E as [E _];
      (try by apply law_pool_wf); apply Hne; by eapply law_pool_inj. }
  rewrite batch_eq, single_eq by (done || (eapply room_mono; [|done]; lia)). cbn [fst]. split; apply H.
Qed.

Lemma rid_domains_independent_witness :
  rid_state sample_alloc (rid_allocate sample_alloc ∅ sample_domain).1 local_system = rid_state sample_alloc ∅ local_system.
Proof.
  apply (rid_domains_independent sample_alloc ∅ sample_domain local_system 1).
  - exact I.
  - apply sample_domain_wf.
  - apply (bool_decide_unpack _). vm_compute. exact I.
  - intros E. discriminate E.
  - vm_compute. split; congruence.
  - lia.
  - vm_compute. congruence.
Defined.

(** ** Reclaim *)

Lemma scan_end_strinc p b : last p = Some b -> b <> xff -> strinc p = Some (scan_end p).
Proof.
  intros Hl Hb. apply last_Some in Hl as [q ->]. rewrite strinc_snoc, decide_False by done.
  unfold scan_end. rewrite last_snoc.
  assert (b2z b < 255) as Hlt.
  { pose proof (b2z_range b). assert (b2z b <> 255); [|lia]. intros E. by apply Hb, (inj b2z). }
  rewrite (proj2 (Z.ltb_lt _ _)) by lia. do 2 f_equal. symmetry. apply take_app_length'. len.
Qed.

Lemma delete_pairs_upd rows (t t0 : DynWriteTxn) v a :
  txn_upd t0 t v a ->
  exists t', delete_pairs t rows = Ok t' /\ txn_upd t0 t' (delete_rows rows v) a.
Proof.
  revert t v. induction rows as [|[k x] rows IH]; intros t v H; [by exists t|]. cbn [delete_pairs].
  destruct (delete_upd _ _ _ _ k H) as (t1 & -> & H1). cbn [map_err rbind]. apply IH, H1.
Qed.

(** Reclaiming a prefix whose last byte is not [0xFF] clears exactly the keys
    under it. *)
Lemma reclaim_at_clears b m p x :
  last p = Some x -> x <> xff ->
  exists m', reclaim_at b m (Ok p) = (m', Ok tt) /\
    (forall k, p `prefix_of` k -> m' !! k = None) /\ (forall k, ~ p `prefix_of` k -> m' !! k = m !! k).
Proof.
  intros Hl Hx. pose proof (scan_end_strinc p x Hl Hx) as He. pose proof (strinc_spec p _ He) as Hspec.
  assert (forall k v, (k, v) ∈ btree_range m p (scan_end p) <-> m !! k = Some v /\ p `prefix_of` k) as Hin.
  { intros k v. by rewrite elem_of_btree_range, Hspec. }
  unfold reclaim_at. cbn [rbind]. unfold scan_prefix.
  assert (RidBackend_begin_read b m = Ok (rtxn m)) as -> by (by destruct b). cbn [rbind].
  rewrite law_get_range.
  2:{ apply key_le_lteq. left. by apply (Hspec p). }
  cbn [map_err run_stage txn_view MemFdbTxn_laws r_snapshot].
  destruct (btree_range m p (scan_end p)) as [|kv rows] eqn:Er.
  - exists m. split_and!; [done| |done]. intros k Hp. apply eq_None_not_Some. intros [v Hv].
    by apply (not_elem_of_nil (k, v)), Hin.
  - destruct (begin_write_begun b m) as (t & -> & Ht & Hbase). cbn [rbind].
    destruct (delete_pairs_upd (kv :: rows) t t m [] Ht) as (t' & -> & Ht'). cbn [run_stage]. unfold commit_with.
    pose proof (commit_upd _ _ _ _ Ht') as Hcom. rewrite Hbase in Hcom. rewrite Hcom. eexists. split; [done|].
    split; intros k Hp; rewrite lookup_delete_rows.
    + case_decide as Hk; [done|]. apply eq_None_not_Some. intros [v Hv]. apply Hk, list_elem_of_fmap.
      exists (k, v). split; [done|]. by apply Hin.
    + rewrite decide_False; [done|]. intros ([k' v] & -> & Hk)%list_elem_of_fmap. apply Hin in Hk as [_ ?]. done.
Qed.

(** Reclaiming a pool resets it and only it: when the SID's encoding does
    not end in the byte [0xFF], reclaim succeeds, the next allocation from the
    pool returns [INITIAL_RID] again, and the pools of all other domains keep
    their state. *)
Theorem rid_reclaim_resets {A : Type} `{RL : RidPoolLaws A} (a : A) (m : kvmap) (sid : Sid) (x : byte) :
  rid_wf a -> sid_wf sid -> last (pool_prefix (rid_pool a sid)) = Some x -> x <> xff ->
  let m' := (rid_reclaim a m sid).1 in
  (rid_reclaim a m sid).2 = Ok tt /\
  (rid_allocate a m' sid).2 = Ok INITIAL_RID /\
  (forall sid', sid_wf sid' -> sid' <> sid -> rid_state a m' sid' = rid_state a m sid').
Proof.
  intros Ha Hs Hl Hx. rewrite law_reclaim by done.
  destruct (reclaim_at_clears (rid_backend a) m _ x Hl Hx) as (m' & -> & Hc & Hk). cbn [fst snd].
  assert (unused a m' sid) as Hun by (split; apply Hc; by eexists).
  split_and!; [done| |].
  - rewrite single_eq; [cbn [snd]; by rewrite unused_next|done|done|by apply unused_in_order|].
    unfold room. rewrite unused_next, unused_mark by done. vm_compute. congruence.
  - intros sid' Hs' Hne. rewrite !law_state, !pool_keys_of by done. unfold state_at. cbn [rbind fst snd].
    assert (forall m, RidBackend_begin_read (rid_backend a) m = Ok (rtxn m)) as Hb by (by destruct (rid_backend a)).
    rewrite !Hb. cbn [rbind]. rewrite !law_get. cbn [map_err rbind txn_view MemFdbTxn_laws r_snapshot].
    rewrite !Hk; [done|..]; intros [y E]; apply pool_prefix_free in E as [E _];
      (try by apply law_pool_wf); apply Hne; by eapply law_pool_inj.
Qed.

Lemma rid_reclaim_resets_witness :
  (rid_allocate sample_alloc
     (rid_reclaim sample_alloc (rid_allocate sample_alloc ∅ sample_domain).1 sample_domain).1 sample_domain).2
  = Ok INITIAL_RID.
Proof.
  apply (rid_reclaim_resets sample_alloc (rid_allocate sample_alloc ∅ sample_domain).1 sample_domain x01).
  - exact I.
  - apply sample_domain_wf.
  - vm_compute. reflexivity.
  - discriminate.
Defined.

(** Reclaim misses pools whose SID encoding ends in [0xFF] (the top byte
    of the last sub-authority), although such SIDs are ordinary domain SIDs:
    reclaim reports success, and both the domain pool and the per-DC pool
    continue where they were. *)
Theorem rid_reclaim_misses_ff :
  let sid := mkSid SECURITY_NT_AUTHORITY [21; 1; 2; 0xFF000000] in
  let m1 := (rid_allocate sample_alloc ∅ sid).1 in
  let local := LocalRidAllocator_new_in_memory_default 7 in
  let m2 := (rid_allocate local ∅ sid).1 in
  is_domain_sid sid = true /\
  (reclaim_domain sample_alloc m1 sid).2 = Ok tt /\
  (rid_allocate sample_alloc (reclaim_domain sample_alloc m1 sid).1 sid).2 = Ok (INITIAL_RID + 1) /\
  (reclaim_dc local m2 sid).2 = Ok tt /\
  (rid_allocate local (reclaim_dc local m2 sid).1 sid).2 = Ok (INITIAL_RID + 1).
Proof. cbv zeta. repeat match goal with |- _ /\ _ => split end; vm_compute; reflexivity. Qed.

(** Two [allocate] calls interleaved: both begin and stage on the same store,
    then the first commits, then the second. *)
Definition interleaved_allocate (b : RidBackend) (m : kvmap) (keys : Result IdentityError (bytes * bytes))
    : kvmap * Result IdentityError (Rid * Rid) :=
  run_stage (let? k := keys in
             let? t1 := RidBackend_begin_write b m in
             let? t2 := RidBackend_begin_write b m in
             let? s1 := allocate_stage t1 k.1 k.2 in
             let? s2 := allocate_stage t2 k.1 k.2 in
             Ok (s1, s2)) m
    (fun s => let '((r1, t1), (r2, t2)) := s in
       let '(m1, c1) := commit_with t1 m (as_u32 r1) in
       let '(m2, c2) := commit_with t2 m1 (as_u32 r2) in
       (m2, let? x1 := c1 in let? x2 := c2 in Ok (x1, x2))).

(** Interleaved allocations can return the same RID: two [allocate] calls
    whose transactions begin on the same store both return RID 1001, both
    commits succeed, and the counter has moved by two. *)
Theorem rid_interleaving_duplicates :
  let m0 := (rid_allocate sample_alloc ∅ sample_domain).1 in
  let r := interleaved_allocate (fdbrid_backend sample_alloc) m0 (fdb_rid_keys sample_domain) in
  r.2 = Ok (1001, 1001) /\ rid_state sample_alloc r.1 sample_domain = Ok (mkRidState 1003 1499 250).
Proof. cbv zeta. split; vm_compute; reflexivity. Qed.

(** [assign_sid] gives a principal the SID [domain-RID]: its domain SID is
    the domain, its RID the pool's next, the pool advances by one; a domain SID
    that already has 15 sub-authorities is refused, after its RID is spent. *)
Theorem assign_sid_spec {A : Type} `{RL : RidPoolLaws A} (a : A) (m : kvmap) (sid : Sid) (u : PrincipalId) :
  rid_wf a -> sid_wf sid -> in_order a m sid -> room a m sid 1 ->
  assign_sid a m sid u =
    ((rid_allocate a m sid).1,
     if (length (sub_authorities sid) <? MAX_SUB_AUTHORITIES)%nat
     then Ok (mkSid (identifier_authority sid) (sub_authorities sid ++ [next_of a m sid]))
     else Err (IdentityError_from (TooManySubAuthorities 16))) /\
  next_of a (rid_allocate a m sid).1 sid = next_of a m sid + 1 /\
  (forall s, (assign_sid a m sid u).2 = Ok s ->
     rid s = Some (next_of a m sid) /\ ((0 < length (sub_authorities sid))%nat -> domain_sid s = Some sid)).
Proof.
  intros Ha Hs Ho Hr. unfold assign_sid. rewrite single_eq by done. cbn [fst snd rbind].
  pose proof Hr as Hr'. unfold room in Hr'. rewrite next_of_last in Hr'. pose proof Hs as (_ & Hl & _).
  assert (map_err IdentityError_from (Sid_new (identifier_authority sid) (sub_authorities sid ++ [next_of a m sid])) =
    if (length (sub_authorities sid) <? MAX_SUB_AUTHORITIES)%nat
     then Ok (mkSid (identifier_authority sid) (sub_authorities sid ++ [next_of a m sid]))
     else Err (IdentityError_from (TooManySubAuthorities 16))) as ->.
  { unfold Sid_new, MAX_SUB_AUTHORITIES in *. rewrite length_app. cbn [length].
    destruct (Nat.ltb_spec (length (sub_authorities sid)) 15).
    - by rewrite (proj2 (Nat.ltb_ge _ _)) by lia.
    - rewrite (proj2 (Nat.ltb_lt _ _)) by lia. by replace (length (sub_authorities sid)) with 15%nat by lia. }
  split_and!; [done| |].
  - unfold next_of. rewrite (batch_last_rid m _ _ Ho 1 ltac:(lia) Hr'). lia.
  - intros s. case_match; [|done]. intros [= <-]. unfold rid, domain_sid. cbn [sub_authorities identifier_authority].
    rewrite last_snoc. split; [done|]. intros H1. rewrite length_app. cbn [length].
    rewrite (proj2 (Nat.ltb_ge _ _)) by lia. unfold Sid_new_unchecked.
    rewrite take_app_length' by lia. by destruct sid.
Qed.

Lemma assign_sid_spec_witness :
  (assign_sid sample_alloc ∅ sample_domain 5).2 = Ok (mkSid SECURITY_NT_AUTHORITY (sub_authorities sample_domain ++ [1000])).
Proof.
  destruct (assign_sid_spec sample_alloc ∅ sample_domain 5) as (H & _).
  - exact I.
  - apply sample_domain_wf.
  - vm_compute. split; congruence.
  - vm_compute. congruence.
  - rewrite H. vm_compute. reflexivity.
Defined.
