(* ===== verification/IdentityMap.v ===== *)
(** * IdentityMap: the SID/UUID/UID mapping (crate [adrian-identity-fdb])

    [FdbIdentityMapping] over the default directory store: the key layout of
    subspace [0x0D], the two in-memory caches, the four lookups, [insert],
    [remove] and [allocate_uid].  The entry a full cache evicts is the first key
    of a [HashMap] iteration, which the standard library leaves unspecified: it
    is the argument [first_key] of the operations that fill the cache. *)
From S2P Require Import Prelude Bytes Text SidModel StorageKeys StorageTxn MemStore TxnContract FdbStore FdbProofs IdentityCore.

Definition IDENTITY_MAPPING_SUBSPACE : Z := 0x0D.
Definition FORWARD_MARKER : Z := 0x01.
Definition REVERSE_MARKER : Z := 0x02.
Definition UID_INDEX_MARKER : Z := 0x03.
Definition UUID_TO_UID_MARKER : Z := 0x04.
Definition UID_COUNTER_MARKER : Z := 0xFF.

Definition forward_key (uuid : Uuid) : bytes :=
  [z2b IDENTITY_MAPPING_SUBSPACE] ++ [z2b FORWARD_MARKER] ++ uuid_as_bytes uuid.
Definition reverse_key (sid : Sid) : Result IdentityError bytes :=
  let? sid_bytes := map_err IdentityError_from (Sid_to_bytes sid) in
  Ok ([z2b IDENTITY_MAPPING_SUBSPACE] ++ [z2b REVERSE_MARKER] ++ sid_bytes).
Definition uid_index_key (uid : PosixId) : bytes :=
  [z2b IDENTITY_MAPPING_SUBSPACE] ++ [z2b UID_INDEX_MARKER] ++ to_be 4 uid.
Definition uuid_to_uid_key (uuid : Uuid) : bytes :=
  [z2b IDENTITY_MAPPING_SUBSPACE] ++ [z2b UUID_TO_UID_MARKER] ++ uuid_as_bytes uuid.
Definition uid_counter_key : bytes :=
  [z2b IDENTITY_MAPPING_SUBSPACE] ++ [z2b UID_COUNTER_MARKER] ++ lit "next_uid".

(** The mapping: the store's shared map and the two caches. *)
Record FdbIdentityMapping := mkMapping {
  im_store : kvmap;
  cache_capacity : nat;
  cache_uuid_to_sid : gmap Uuid Sid;
  cache_sid_to_uuid : gmap Sid Uuid;
}.
Definition FdbIdentityMapping_new (store : FdbDirectoryStore) : FdbIdentityMapping :=
  mkMapping (store_kv store) (Z.to_nat 100000) ∅ ∅.
Definition FdbIdentityMapping_new_in_memory_default : FdbIdentityMapping :=
  FdbIdentityMapping_new (FdbDirectoryStore_new None).

Definition cache_get_sid (s : FdbIdentityMapping) (uuid : Uuid) : option Sid := cache_uuid_to_sid s !! uuid.
Definition cache_get_uuid (s : FdbIdentityMapping) (sid : Sid) : option Uuid := cache_sid_to_uuid s !! sid.

Section ops.
(** [HashMap::keys().next()] of the forward cache. *)
Context (first_key : gmap Uuid Sid -> option Uuid).

Definition cache_put (s : FdbIdentityMapping) (uuid : Uuid) (sid : Sid) : FdbIdentityMapping :=
  let c1 := cache_uuid_to_sid s in
  let c2 := cache_sid_to_uuid s in
  let '(c1, c2) :=
    if (cache_capacity s <=? size c1)%nat && bool_decide (c1 !! uuid = None) then
      match first_key c1 with
      | Some k =>
          match c1 !! k with
          | Some evicted_sid => (delete k c1, delete evicted_sid c2)
          | None => (delete k c1, c2)
          end
      | None => (c1, c2)
      end
    else (c1, c2) in
  mkMapping (im_store s) (cache_capacity s) (<[uuid := sid]> c1) (<[sid := uuid]> c2).

Definition cache_remove (s : FdbIdentityMapping) (uuid : Uuid) : FdbIdentityMapping :=
  match cache_uuid_to_sid s !! uuid with
  | Some sid =>
      mkMapping (im_store s) (cache_capacity s) (delete uuid (cache_uuid_to_sid s)) (delete sid (cache_sid_to_uuid s))
  | None => s
  end.

Definition with_store (s : FdbIdentityMapping) (m : kvmap) : FdbIdentityMapping :=
  mkMapping m (cache_capacity s) (cache_uuid_to_sid s) (cache_sid_to_uuid s).

(** A read of one key in a fresh read transaction. *)
Definition im_read (m : kvmap) (key : bytes) : Result IdentityError (option bytes) :=
  let? txn := map_err map_storage_err (fdb_begin_read m) in
  map_err map_storage_err (txn_get txn key).

Definition lookup_sid (s : FdbIdentityMapping) (uuid : PrincipalId)
    : FdbIdentityMapping * Result IdentityError (option Sid) :=
  match cache_get_sid s uuid with
  | Some sid => (s, Ok (Some sid))
  | None =>
      match im_read (im_store s) (forward_key uuid) with
      | Ok None => (s, Ok None)
      | Ok (Some buf) =>
          match Sid_from_bytes buf with
          | Ok sid => (cache_put s uuid sid, Ok (Some sid))
          | Err e => (s, Err (IdentityError_from e))
          | Panic => (s, Panic)
          end
      | Err e => (s, Err e)
      | Panic => (s, Panic)
      end
  end.

Definition lookup_uuid (s : FdbIdentityMapping) (sid : Sid)
    : FdbIdentityMapping * Result IdentityError (option PrincipalId) :=
  match cache_get_uuid s sid with
  | Some uuid => (s, Ok (Some uuid))
  | None =>
      match (let? key := reverse_key sid in im_read (im_store s) key) with
      | Ok None => (s, Ok None)
      | Ok (Some buf) =>
          if negb (length buf =? 16)%nat then (s, Err (IBackend (ReverseIndexLengthMsg (length buf))))
          else let uuid := uuid_from_bytes buf in (cache_put s uuid sid, Ok (Some uuid))
      | Err e => (s, Err e)
      | Panic => (s, Panic)
      end
  end.

Definition lookup_uid (s : FdbIdentityMapping) (uuid : PrincipalId) : Result IdentityError (option PosixId) :=
  let? buf := im_read (im_store s) (uuid_to_uid_key uuid) in
  match buf with
  | Some buf => if (length buf =? 4)%nat then Ok (Some (of_be buf))
                else Err (IBackend (UuidUidIndexLengthMsg (length buf)))
  | None => Ok (Some (uuid_to_uid uuid))
  end.

Definition lookup_uuid_from_uid (s : FdbIdentityMapping) (uid : PosixId) : Result IdentityError (option PrincipalId) :=
  let? buf := im_read (im_store s) (uid_index_key uid) in
  match buf with
  | None => Ok None
  | Some buf => if negb (length buf =? 16)%nat then Err (IBackend (UidUuidIndexLengthMsg (length buf)))
                else Ok (Some (uuid_from_bytes buf))
  end.

(** The conflict checks of [insert]: [Ok true] when the mapping already holds. *)
Definition check_reverse (existing : option bytes) (sid : Sid) (uuid : PrincipalId) : Result IdentityError unit :=
  match existing with
  | Some b =>
      if (length b =? 16)%nat then
        let existing_uuid := uuid_from_bytes b in
        if decide (existing_uuid = uuid) then Ok tt
        else Err (MappingConflict (SidAlreadyMapped sid existing_uuid uuid))
      else Ok tt
  | None => Ok tt
  end.
Definition check_forward (existing : option bytes) (sid : Sid) (uuid : PrincipalId) : Result IdentityError bool :=
  match existing with
  | Some b =>
      let? existing_sid := map_err IdentityError_from (Sid_from_bytes b) in
      if decide (existing_sid = sid) then Ok true
      else Err (MappingConflict (UuidAlreadyMapped uuid existing_sid sid))
  | None => Ok false
  end.

(** [insert] up to the commit; [None] when the mapping already holds. *)
Definition insert_stage (m : kvmap) (uuid : PrincipalId) (sid : Sid) : Result IdentityError (option MemFdbTxn) :=
  let? sid_bytes := map_err IdentityError_from (Sid_to_bytes sid) in
  let fkey := forward_key uuid in
  let? rkey := reverse_key sid in
  let? txn := map_err map_storage_err (fdb_begin_write m) in
  let? existing := map_err map_storage_err (txn_get txn rkey) in
  let? _ := check_reverse existing sid uuid in
  let? existing := map_err map_storage_err (txn_get txn fkey) in
  let? already := check_forward existing sid uuid in
  if (already : bool) then Ok None
  else
    let? txn := map_err map_storage_err (txn_put txn fkey sid_bytes) in
    let? txn := map_err map_storage_err (txn_put txn rkey (uuid_as_bytes uuid)) in
    Ok (Some txn).

Definition im_insert (s : FdbIdentityMapping) (uuid : PrincipalId) (sid : Sid)
    : FdbIdentityMapping * Result IdentityError unit :=
  match insert_stage (im_store s) uuid sid with
  | Ok None => (s, Ok tt)
  | Ok (Some txn) =>
      let '(m, r) := txn_commit txn (im_store s) in
      match map_err map_storage_err r with
      | Ok _ => (cache_put (with_store s m) uuid sid, Ok tt)
      | Err e => (with_store s m, Err e)
      | Panic => (with_store s m, Panic)
      end
  | Err e => (s, Err e)
  | Panic => (s, Panic)
  end.

(** [remove] up to the commit; [None] when the UUID is not mapped. *)
Definition remove_stage (m : kvmap) (uuid : PrincipalId) : Result IdentityError (option MemFdbTxn) :=
  let fkey := forward_key uuid in
  let? txn := map_err map_storage_err (fdb_begin_write m) in
  let? existing := map_err map_storage_err (txn_get txn fkey) in
  match existing with
  | None => Ok None
  | Some existing_bytes =>
      let? sid := map_err IdentityError_from (Sid_from_bytes existing_bytes) in
      let? rkey := reverse_key sid in
      let? txn := map_err map_storage_err (txn_delete txn fkey) in
      let? txn := map_err map_storage_err (txn_delete txn rkey) in
      let uid_key := uuid_to_uid_key uuid in
      let? uid_buf := map_err map_storage_err (txn_get txn uid_key) in
      match uid_buf with
      | None => Ok (Some txn)
      | Some uid_buf =>
          let? txn := if (length uid_buf =? 4)%nat
                      then map_err map_storage_err (txn_delete txn (uid_index_key (of_be uid_buf)))
                      else Ok txn in
          let? txn := map_err map_storage_err (txn_delete txn uid_key) in
          Ok (Some txn)
      end
  end.

Definition im_remove (s : FdbIdentityMapping) (uuid : PrincipalId)
    : FdbIdentityMapping * Result IdentityError unit :=
  match remove_stage (im_store s) uuid with
  | Ok None => (s, Ok tt)
  | Ok (Some txn) =>
      let '(m, r) := txn_commit txn (im_store s) in
      match map_err map_storage_err r with
      | Ok _ => (cache_remove (with_store s m) uuid, Ok tt)
      | Err e => (with_store s m, Err e)
      | Panic => (with_store s m, Panic)
      end
  | Err e => (s, Err e)
  | Panic => (s, Panic)
  end.
End ops.

(** [allocate_uid] on the store's map. *)
Definition uid_stage (m : kvmap) (uuid : PrincipalId) : Result IdentityError (PosixId * MemFdbTxn) :=
  let? txn := map_err map_storage_err (fdb_begin_write m) in
  let? current := map_err map_storage_err (txn_get txn uid_counter_key) in
  let seed := match current with
              | Some buf => if (length buf =? 8)%nat then i64_of_be buf else 65535
              | None => 65535
              end in
  let? txn := map_err map_storage_err (txn_atomic_add txn uid_counter_key 1) in
  let? next := i64_add seed 1 in
  let? uid := if (0 <=? next) && (next <? 2 ^ 32) then Ok next else Err (IBackend UidCounterOverflowMsg) in
  let? txn := map_err map_storage_err (txn_put txn (uuid_to_uid_key uuid) (to_be 4 uid)) in
  let? txn := map_err map_storage_err (txn_put txn (uid_index_key uid) (uuid_as_bytes uuid)) in
  Ok (uid, txn).
Definition allocate_uid (m : kvmap) (uuid : PrincipalId) : kvmap * Result IdentityError PosixId :=
  match uid_stage m uuid with
  | Ok (uid, txn) =>
      let '(m', r) := txn_commit txn m in (m', let? _ := map_err map_storage_err r in Ok uid)
  | Err e => (m, Err e)
  | Panic => (m, Panic)
  end.
