(* ===== verification/IdentityProofs.v ===== *)
(** * IdentityProofs: the identity mapping implements a partial bijection

    The abstract state is a finite map from UUIDs to SIDs.  [represents] ties it
    to the forward and reverse index rows and to the caches; each operation of
    [IdentityMap] is shown to implement its abstract counterpart, for any
    choice of the evicted cache entry. *)
From S2P Require Import Prelude Bytes Text SidModel StorageKeys StorageTxn MemStore TxnContract FdbStore FdbProofs IdentityCore IdentityMap.

(** ** Keys *)
Definition rev_key (sid : Sid) : bytes := [z2b IDENTITY_MAPPING_SUBSPACE] ++ [z2b REVERSE_MARKER] ++ sid_enc sid.
Lemma reverse_key_eq sid : sid_wf sid -> reverse_key sid = Ok (rev_key sid).
Proof. intros H. unfold reverse_key. by rewrite Sid_to_bytes_enc. Qed.

Lemma forward_key_inj u u' : is_u128 u -> is_u128 u' -> forward_key u = forward_key u' -> u = u'.
Proof.
  intros Hu Hu' E. apply (app_split [_] _ [_]) in E as [_ E]; [|done].
  apply (app_split [_] _ [_]) in E as [_ E]; [|done]. apply to_be_inj in E; uint.
Qed.
Lemma rev_key_inj s s' : sid_wf s -> sid_wf s' -> rev_key s = rev_key s' -> s = s'.
Proof.
  intros Hs Hs' E. apply (app_split [_] _ [_]) in E as [_ E]; [|done].
  apply (app_split [_] _ [_]) in E as [_ E]; [|done].
  apply (sid_enc_prefix_free s s' [] []); [done|done|]. by rewrite E.
Qed.
(** Keys with different markers. *)
Ltac marker_ne := let E := fresh in intros E; apply (f_equal (fun k => head (tail k))) in E; by vm_compute in E.
Lemma fwd_rev_ne u s : forward_key u <> rev_key s. Proof. marker_ne. Qed.
Lemma fwd_uid_ne u n : forward_key u <> uid_index_key n. Proof. marker_ne. Qed.
Lemma fwd_uuid_uid_ne u n : forward_key u <> uuid_to_uid_key n. Proof. marker_ne. Qed.
Lemma rev_uid_ne s n : rev_key s <> uid_index_key n. Proof. marker_ne. Qed.
Lemma rev_uuid_uid_ne s n : rev_key s <> uuid_to_uid_key n. Proof. marker_ne. Qed.

(** ** The abstract mapping *)
Abbreviation amap := (gmap Uuid Sid).

(** The UUID a SID belongs to. *)
Definition owner (A : amap) (sid : Sid) : option Uuid :=
  (fun p => p.2.1) <$> list_find (fun p => p.2 = sid) (map_to_list A).

Definition spec_insert (A : amap) (u : Uuid) (sid : Sid) : amap * Result IdentityError unit :=
  match owner A sid with
  | Some u' =>
      if decide (u' = u) then (A, Ok tt)
      else (A, Err (MappingConflict (SidAlreadyMapped sid u' u)))
  | None =>
      match A !! u with
      | Some sid' => (A, Err (MappingConflict (UuidAlreadyMapped u sid' sid)))
      | None => (<[u := sid]> A, Ok tt)
      end
  end.

Record represents (st : FdbIdentityMapping) (A : amap) : Prop := {
  rep_wf u s : A !! u = Some s -> is_u128 u /\ sid_wf s;
  rep_fwd u : is_u128 u -> im_store st !! forward_key u = sid_enc <$> A !! u;
  rep_rev s b : sid_wf s -> im_store st !! rev_key s = Some b <-> exists u, A !! u = Some s /\ b = uuid_as_bytes u;
  rep_c1 u s : cache_uuid_to_sid st !! u = Some s -> A !! u = Some s;
  rep_c2 u s : cache_sid_to_uuid st !! s = Some u -> cache_uuid_to_sid st !! u = Some s;
}.

Lemma uuid_bytes_inj u u' : is_u128 u -> is_u128 u' -> uuid_as_bytes u = uuid_as_bytes u' -> u = u'.
Proof. intros Hu Hu' E. apply to_be_inj in E; uint. Qed.

Section rep.
Context (st : FdbIdentityMapping) (A : amap) (HR : represents st A).

Lemma rep_inj u u' s : A !! u = Some s -> A !! u' = Some s -> u = u'.
Proof.
  intros H H'. destruct (rep_wf _ _ HR _ _ H) as [Hu Hs], (rep_wf _ _ HR _ _ H') as [Hu' _].
  assert (im_store st !! rev_key s = Some (uuid_as_bytes u)) as E by (apply (rep_rev _ _ HR); eauto).
  assert (im_store st !! rev_key s = Some (uuid_as_bytes u')) as E' by (apply (rep_rev _ _ HR); eauto).
  rewrite E in E'. apply (inj Some) in E'. by apply uuid_bytes_inj.
Qed.

Lemma owner_iff u s : owner A s = Some u <-> A !! u = Some s.
Proof.
  unfold owner. destruct (list_find _ _) as [[i [u' s']]|] eqn:E; cbn.
  - apply list_find_Some in E as (E & Hs & _). cbn in Hs. subst s'.
    apply list_elem_of_lookup_2, elem_of_map_to_list in E. split; [by intros [= <-]|].
    intros H. f_equal. by eapply rep_inj.
  - split; [done|]. intros H. apply list_find_None in E. rewrite Forall_forall in E.
    exfalso. apply (E (u, s)); [by apply elem_of_map_to_list|done].
Qed.
Lemma rep_rev_owner s : sid_wf s -> im_store st !! rev_key s = uuid_as_bytes <$> owner A s.
Proof.
  intros Hs. apply option_eq. intros b. rewrite (rep_rev _ _ HR) by done. rewrite fmap_Some.
  setoid_rewrite owner_iff. done.
Qed.
End rep.

(** Filling the caches keeps the representation. *)
Lemma represents_cache_put fk st A u s :
  represents st A -> A !! u = Some s -> represents (cache_put fk st u s) A.
Proof.
  intros HR Hus.
  assert (forall c1 c2, (forall u s, c1 !! u = Some s -> A !! u = Some s) ->
    (forall u s, c2 !! s = Some u -> c1 !! u = Some s) ->
    represents (mkMapping (im_store st) (cache_capacity st) (<[u := s]> c1) (<[s := u]> c2)) A) as Hput.
  { intros c1 c2 H1 H2. split; cbn [im_store cache_uuid_to_sid cache_sid_to_uuid]; try apply HR.
    - intros u' s' [[<- <-]|[_ H]]%lookup_insert_Some; [done|by apply H1].
    - intros u' s' [[<- <-]|[Hne H]]%lookup_insert_Some; [apply lookup_insert_eq|].
      rewrite lookup_insert_ne; [by apply H2|]. intros <-. apply H2, H1 in H. congruence. }
  unfold cache_put. destruct (_ && _); [|apply Hput; apply HR].
  destruct (fk _) as [k|]; [|apply Hput; apply HR].
  destruct (cache_uuid_to_sid st !! k) as [e|] eqn:Ek.
  - apply Hput.
    + intros u' s' [_ H]%lookup_delete_Some. by apply (rep_c1 _ _ HR).
    + intros u' s' [Hne H]%lookup_delete_Some. apply (rep_c2 _ _ HR) in H.
      apply lookup_delete_Some. split; [|done]. intros <-. congruence.
  - rewrite delete_id by done. apply Hput; apply HR.
Qed.

Lemma im_read_eq m k : im_read m k = Ok (m !! k).
Proof. reflexivity. Qed.

Lemma lookup_sid_rep fk st A u :
  represents st A -> is_u128 u ->
  exists st', lookup_sid fk st u = (st', Ok (A !! u)) /\ represents st' A.
Proof.
  intros HR Hu. unfold lookup_sid, cache_get_sid. destruct (cache_uuid_to_sid st !! u) as [s|] eqn:E.
  { apply (rep_c1 _ _ HR) in E. rewrite E. by eexists. }
  rewrite im_read_eq, (rep_fwd _ _ HR) by done. destruct (A !! u) as [s|] eqn:EA; cbn [fmap option_fmap option_map].
  - destruct (rep_wf _ _ HR _ _ EA) as [_ Hs]. rewrite Sid_from_bytes_enc by done.
    eexists. split; [done|]. by apply represents_cache_put.
  - by eexists.
Qed.

Lemma lookup_uuid_rep fk st A s :
  represents st A -> sid_wf s ->
  exists st', lookup_uuid fk st s = (st', Ok (owner A s)) /\ represents st' A.
Proof.
  intros HR Hs. unfold lookup_uuid, cache_get_uuid. destruct (cache_sid_to_uuid st !! s) as [u|] eqn:E.
  { apply (rep_c2 _ _ HR), (rep_c1 _ _ HR) in E. apply (owner_iff st A HR) in E. rewrite E. by eexists. }
  rewrite reverse_key_eq by done. cbn [rbind]. rewrite im_read_eq, (rep_rev_owner st A HR) by done.
  destruct (owner A s) as [u|] eqn:EA; cbn [fmap option_fmap option_map].
  - apply (owner_iff st A HR) in EA. destruct (rep_wf _ _ HR _ _ EA) as [Hu _].
    rewrite uuid_as_bytes_length. cbn [Nat.eqb negb]. rewrite uuid_from_as by done.
    eexists. split; [done|]. by apply represents_cache_put.
  - by eexists.
Qed.

(** The rows of a new pair. *)
Lemma represents_insert st A u s :
  represents st A -> is_u128 u -> sid_wf s -> owner A s = None -> A !! u = None ->
  represents (with_store st (<[rev_key s := uuid_as_bytes u]> (<[forward_key u := sid_enc s]> (im_store st))))
    (<[u := s]> A).
Proof.
  intros HR Hu Hs Eo EA. split; cbn [im_store with_store cache_uuid_to_sid cache_sid_to_uuid].
  - intros u' s' [[<- <-]|[_ H]]%lookup_insert_Some; [done|by apply (rep_wf _ _ HR)].
  - intros u' Hu'. rewrite lookup_insert_ne by (intros E; symmetry in E; by apply fwd_rev_ne in E).
    destruct (decide (u' = u)) as [->|Hne]; [by rewrite !lookup_insert_eq|].
    rewrite !lookup_insert_ne; [by apply (rep_fwd _ _ HR)|done|]. intros E. apply Hne. by apply forward_key_inj.
  - intros s' b Hs'. destruct (decide (s' = s)) as [->|Hne].
    -- rewrite lookup_insert_eq. split.
       ++ intros [= <-]. exists u. by rewrite lookup_insert_eq.
       ++ intros (u' & H & ->). destruct (decide (u' = u)) as [->|Hn]; [done|].
          rewrite lookup_insert_ne in H by done. apply (owner_iff st A HR) in H. congruence.
    -- rewrite lookup_insert_ne by (intros E; apply Hne; by apply rev_key_inj).
       rewrite lookup_insert_ne by apply fwd_rev_ne. rewrite (rep_rev _ _ HR) by done.
       apply exist_proper. intros u'. destruct (decide (u' = u)) as [->|Hn].
       ++ rewrite lookup_insert_eq, EA. split; intros [? ?]; congruence.
       ++ by rewrite lookup_insert_ne.
  - intros u' s' H. apply (rep_c1 _ _ HR) in H. rewrite lookup_insert_ne; congruence.
  - apply (rep_c2 _ _ HR).
Qed.

Lemma insert_rep fk st A u s :
  represents st A -> is_u128 u -> sid_wf s ->
  exists st', im_insert fk st u s = (st', (spec_insert A u s).2) /\ represents st' (spec_insert A u s).1.
Proof.
  intros HR Hu Hs. unfold im_insert, insert_stage, spec_insert.
  rewrite Sid_to_bytes_enc, reverse_key_eq by done. cbn [map_err rbind].
  change (fdb_begin_write (im_store st)) with (@Ok StorageError _ (txn0 (im_store st))). cbn [map_err rbind].
  rewrite !law_get, !txn0_view. cbn [map_err rbind]. rewrite (rep_rev_owner st A HR), (rep_fwd _ _ HR) by done.
  destruct (owner A s) as [u'|] eqn:Eo; cbn [fmap option_fmap option_map check_reverse].
  - apply (owner_iff st A HR) in Eo as EA. destruct (rep_wf _ _ HR _ _ EA) as [Hu' _].
    rewrite uuid_as_bytes_length. cbn [Nat.eqb]. rewrite uuid_from_as by done.
    case_decide as Hd; [|by eexists]. subst u'. cbn [rbind]. rewrite EA.
    cbn [fmap option_fmap option_map check_forward]. rewrite Sid_from_bytes_enc by done. cbn [map_err rbind].
    rewrite decide_True by done. by eexists.
  - cbn [rbind]. destruct (A !! u) as [s'|] eqn:EA; cbn [fmap option_fmap option_map check_forward].
    + destruct (rep_wf _ _ HR _ _ EA) as [_ Hs']. rewrite Sid_from_bytes_enc by done. cbn [map_err rbind].
      rewrite decide_False; [by eexists|]. intros ->. apply (owner_iff st A HR) in EA. congruence.
    + cbn [rbind].
      destruct (put_upd _ _ _ _ (forward_key u) (sid_enc s) (txn0_upd (im_store st))) as (t1 & -> & H1).
      cbn [map_err rbind].
      destruct (put_upd _ _ _ _ (rev_key s) (uuid_as_bytes u) H1) as (t2 & -> & H2). cbn [map_err rbind].
      rewrite (commit_upd _ _ _ _ H2 : txn_commit t2 (im_store st) = _). cbn [map_err apply_adds].
      eexists. split; [done|]. cbn [fst]. apply represents_cache_put; [by apply represents_insert|apply lookup_insert_eq].
Qed.

Lemma represents_remove st A u s m' :
  represents st A -> A !! u = Some s ->
  m' !! forward_key u = None -> m' !! rev_key s = None ->
  (forall u', is_u128 u' -> u' <> u -> m' !! forward_key u' = im_store st !! forward_key u') ->
  (forall s', sid_wf s' -> s' <> s -> m' !! rev_key s' = im_store st !! rev_key s') ->
  represents (cache_remove (with_store st m') u) (delete u A).
Proof.
  intros HR EA Hf Hr Hfo Hro.
  assert (represents (mkMapping m' (cache_capacity st) (delete u (cache_uuid_to_sid st)) (delete s (cache_sid_to_uuid st)))
    (delete u A)) as H.
  { split; cbn [im_store cache_uuid_to_sid cache_sid_to_uuid].
    - intros u' s' [_ H]%lookup_delete_Some. by apply (rep_wf _ _ HR).
    - intros u' Hu'. destruct (decide (u' = u)) as [->|Hne]; [by rewrite lookup_delete_eq|].
      rewrite lookup_delete_ne, Hfo by done. by apply (rep_fwd _ _ HR).
    - intros s' b Hs'. destruct (decide (s' = s)) as [->|Hne].
      + rewrite Hr. split; [done|]. intros (u' & [Hne H]%lookup_delete_Some & _).
        destruct Hne. by apply (rep_inj st A HR u u' s).
      + rewrite Hro, (rep_rev _ _ HR) by done. apply exist_proper. intros u'.
        rewrite lookup_delete_Some. split; [|tauto]. intros [H ?]. split; [|done]. split; [|done]. intros <-. congruence.
    - intros u' s' [Hne H]%lookup_delete_Some. apply lookup_delete_Some. split; [done|]. by apply (rep_c1 _ _ HR).
    - intros u' s' [Hne H]%lookup_delete_Some. apply (rep_c2 _ _ HR) in H. apply lookup_delete_Some. split; [|done].
      intros <-. apply (rep_c1 _ _ HR) in H. congruence. }
  unfold cache_remove. cbn [with_store cache_uuid_to_sid]. destruct (cache_uuid_to_sid st !! u) as [s'|] eqn:Ec.
  - apply (rep_c1 _ _ HR) in Ec. by simplify_eq.
  - rewrite delete_id in H by done. replace (delete s (cache_sid_to_uuid st)) with (cache_sid_to_uuid st) in H; [done|].
    symmetry. apply delete_id. destruct (cache_sid_to_uuid st !! s) as [u'|] eqn:E2; [|done].
    apply (rep_c2 _ _ HR) in E2. pose proof (rep_c1 _ _ HR _ _ E2) as E3.
    pose proof (rep_inj st A HR u u' s EA E3). congruence.
Qed.

(** The staged deletes of [remove]: the two index rows go, the other forward
    and reverse rows stay. *)
Lemma remove_stage_eq st A u s :
  represents st A -> is_u128 u -> A !! u = Some s ->
  exists t v, remove_stage (im_store st) u = Ok (Some t) /\ txn_upd (txn0 (im_store st)) t v [] /\
    v !! forward_key u = None /\ v !! rev_key s = None /\ v !! uuid_to_uid_key u = None /\
    (forall u', is_u128 u' -> u' <> u -> v !! forward_key u' = im_store st !! forward_key u') /\
    (forall s', sid_wf s' -> s' <> s -> v !! rev_key s' = im_store st !! rev_key s').
Proof.
  intros HR Hu EA. destruct (rep_wf _ _ HR _ _ EA) as [_ Hs]. unfold remove_stage.
  change (fdb_begin_write (im_store st)) with (@Ok StorageError _ (txn0 (im_store st))). cbn [map_err rbind].
  rewrite law_get, txn0_view. cbn [map_err rbind]. rewrite (rep_fwd _ _ HR), EA by done.
  cbn [fmap option_fmap option_map]. rewrite Sid_from_bytes_enc by done. cbn [map_err rbind].
  rewrite reverse_key_eq by done. cbn [rbind].
  destruct (delete_upd _ _ _ _ (forward_key u) (txn0_upd (im_store st))) as (t1 & -> & H1). cbn [map_err rbind].
  destruct (delete_upd _ _ _ _ (rev_key s) H1) as (t2 & -> & H2). cbn [map_err rbind].
  rewrite law_get. destruct H2 as (Hw & Hb & Hv & Ha). rewrite Hv. cbn [map_err rbind].
  assert (txn_upd (txn0 (im_store st)) t2 (delete (rev_key s) (delete (forward_key u) (im_store st))) []) as H2
    by (by unfold txn_upd). clear Hw Hb Hv Ha.
  set (v := delete (rev_key s) (delete (forward_key u) (im_store st))) in *.
  assert (v !! forward_key u = None /\ v !! rev_key s = None /\
    (forall u', is_u128 u' -> u' <> u -> v !! forward_key u' = im_store st !! forward_key u') /\
    (forall s', sid_wf s' -> s' <> s -> v !! rev_key s' = im_store st !! rev_key s')) as (Hf & Hr & Hfo & Hro).
  { subst v. split_and!.
    - rewrite lookup_delete_ne by (intros E; symmetry in E; by apply fwd_rev_ne in E). apply lookup_delete_eq.
    - apply lookup_delete_eq.
    - intros u' Hu' Hne. rewrite !lookup_delete_ne; [done|..]; intros E.
      + apply Hne. by apply forward_key_inj.
      + symmetry in E. by apply fwd_rev_ne in E.
    - intros s' Hs' Hne. rewrite !lookup_delete_ne; [done|apply fwd_rev_ne|]. intros E. apply Hne. by apply rev_key_inj. }
  destruct (v !! uuid_to_uid_key u) as [buf|] eqn:Eu; [|exists t2, v; by split_and!].
  assert (exists t3 v3, (if (length buf =? 4)%nat then map_err map_storage_err (txn_delete t2 (uid_index_key (of_be buf))) else Ok t2)
     = Ok t3 /\ txn_upd (txn0 (im_store st)) t3 v3 [] /\
     (forall u', v3 !! forward_key u' = v !! forward_key u') /\ (forall s', v3 !! rev_key s' = v !! rev_key s'))
    as (t3 & v3 & -> & H3 & Hf3 & Hr3).
  { destruct (length buf =? 4)%nat; [|exists t2, v; by split_and!].
    destruct (delete_upd _ _ _ _ (uid_index_key (of_be buf)) H2) as (t3 & -> & H3). do 2 eexists. split_and!; [done|done|..].
    - intros u'. apply lookup_delete_ne. intros E. symmetry in E. by apply fwd_uid_ne in E.
    - intros s'. apply lookup_delete_ne. intros E. symmetry in E. by apply rev_uid_ne in E. }
  cbn [rbind]. destruct (delete_upd _ _ _ _ (uuid_to_uid_key u) H3) as (t4 & -> & H4). cbn [map_err rbind].
  do 2 eexists. split; [done|]. split; [exact H4|].
  assert (forall u', delete (uuid_to_uid_key u) v3 !! forward_key u' = v !! forward_key u') as Hf4.
  { intros u'. rewrite lookup_delete_ne by (intros E; symmetry in E; by apply fwd_uuid_uid_ne in E). done. }
  assert (forall s', delete (uuid_to_uid_key u) v3 !! rev_key s' = v !! rev_key s') as Hr4.
  { intros s'. rewrite lookup_delete_ne by (intros E; symmetry in E; by apply rev_uuid_uid_ne in E). done. }
  rewrite Hf4, Hr4. split_and!; [done|done|apply lookup_delete_eq|..].
  - intros u' ? ?. rewrite Hf4. by apply Hfo.
  - intros s' ? ?. rewrite Hr4. by apply Hro.
Qed.

Lemma remove_rep st A u :
  represents st A -> is_u128 u ->
  exists st', im_remove st u = (st', Ok tt) /\ represents st' (delete u A) /\
    (is_Some (A !! u) -> im_store st' !! uuid_to_uid_key u = None).
Proof.
  intros HR Hu. unfold im_remove. destruct (A !! u) as [s|] eqn:EA.
  - destruct (remove_stage_eq st A u s HR Hu EA) as (t & v & -> & Ht & Hf & Hr & Hk & Hfo & Hro).
    rewrite (commit_upd _ _ _ _ Ht : txn_commit t (im_store st) = _). cbn [map_err apply_adds].
    eexists. split; [done|]. split; [by apply (represents_remove st A u s)|]. intros _.
    unfold cache_remove. case_match; exact Hk.
  - unfold remove_stage. change (fdb_begin_write (im_store st)) with (@Ok StorageError _ (txn0 (im_store st))).
    cbn [map_err rbind]. rewrite law_get, txn0_view. cbn [map_err rbind]. rewrite (rep_fwd _ _ HR), EA by done.
    eexists. split; [done|]. rewrite delete_id by done. split; [done|]. by intros [? ?].
Qed.

(** ** Traces of operations *)
Inductive IdOp :=
| OpLookupSid (u : PrincipalId)
| OpLookupUuid (s : Sid)
| OpInsertMapping (u : PrincipalId) (s : Sid)
| OpRemoveMapping (u : PrincipalId).
Inductive IdRes :=
| ResSid (r : Result IdentityError (option Sid))
| ResUuid (r : Result IdentityError (option PrincipalId))
| ResUnit (r : Result IdentityError unit).

Definition op_wf (op : IdOp) : Prop :=
  match op with
  | OpLookupSid u | OpRemoveMapping u => is_u128 u
  | OpLookupUuid s => sid_wf s
  | OpInsertMapping u s => is_u128 u /\ sid_wf s
  end.
#[global] Instance op_wf_dec op : Decision (op_wf op).
Proof. destruct op; cbn; apply _. Defined.

Definition run_op (fk : amap -> option Uuid) (st : FdbIdentityMapping) (op : IdOp) : FdbIdentityMapping * IdRes :=
  match op with
  | OpLookupSid u => let '(st, r) := lookup_sid fk st u in (st, ResSid r)
  | OpLookupUuid s => let '(st, r) := lookup_uuid fk st s in (st, ResUuid r)
  | OpInsertMapping u s => let '(st, r) := im_insert fk st u s in (st, ResUnit r)
  | OpRemoveMapping u => let '(st, r) := im_remove st u in (st, ResUnit r)
  end.
Definition spec_op (A : amap) (op : IdOp) : amap * IdRes :=
  match op with
  | OpLookupSid u => (A, ResSid (Ok (A !! u)))
  | OpLookupUuid s => (A, ResUuid (Ok (owner A s)))
  | OpInsertMapping u s => let '(A, r) := spec_insert A u s in (A, ResUnit r)
  | OpRemoveMapping u => (delete u A, ResUnit (Ok tt))
  end.
Fixpoint run_trace {S : Type} (step : S -> IdOp -> S * IdRes) (s : S) (ops : list IdOp) : list IdRes :=
  match ops with
  | [] => []
  | op :: ops => let '(s, r) := step s op in r :: run_trace step s ops
  end.

Lemma run_op_rep fk st A op :
  represents st A -> op_wf op ->
  (run_op fk st op).2 = (spec_op A op).2 /\ represents (run_op fk st op).1 (spec_op A op).1.
Proof.
  intros HR Hop. destruct op as [u|s|u s|u]; cbn [run_op spec_op op_wf] in *.
  - by destruct (lookup_sid_rep fk st A u HR Hop) as (st' & -> & ?).
  - by destruct (lookup_uuid_rep fk st A s HR Hop) as (st' & -> & ?).
  - destruct Hop as [Hu Hs]. destruct (insert_rep fk st A u s HR Hu Hs) as (st' & -> & ?).
    by destruct (spec_insert A u s).
  - by destruct (remove_rep st A u HR Hop) as (st' & -> & ? & _).
Qed.

Lemma represents_new cap : represents (mkMapping ∅ cap ∅ ∅) ∅.
Proof.
  split; cbn [im_store cache_uuid_to_sid cache_sid_to_uuid].
  - intros u s. by rewrite lookup_empty.
  - intros u _. by rewrite !lookup_empty.
  - intros s b _. rewrite lookup_empty. split; [done|]. intros (u & H & _). by rewrite lookup_empty in H.
  - intros u s. by rewrite lookup_empty.
  - intros u s. by rewrite lookup_empty.
Qed.

(** C2: The identity mapping is a partial bijection: started empty, with any
    cache capacity and any eviction choice, every sequence of lookups, inserts
    and removes returns exactly what the abstract UUID/SID bijection returns:
    lookups in both directions agree, an insert that would break the bijection
    is refused with the conflict it meets, and re-inserting is idempotent. *)
Theorem identity_mapping_refines (fk : amap -> option Uuid) (cap : nat) (ops : list IdOp) :
  Forall op_wf ops ->
  run_trace (run_op fk) (mkMapping ∅ cap ∅ ∅) ops = run_trace spec_op ∅ ops.
Proof.
  pose proof (represents_new cap) as HR. revert HR.
  generalize (mkMapping ∅ cap ∅ ∅) as st. generalize (∅ : amap) as A. intros A st HR Hops. revert A st HR.
  induction Hops as [|op ops Hop _ IH]; intros A st HR; [done|]. cbn [run_trace].
  destruct (run_op_rep fk st A op HR Hop) as [E HR'].
  destruct (run_op fk st op) as [st' r], (spec_op A op) as [A' r']. cbn [fst snd] in *. subst r'. f_equal. by apply IH.
Qed.

Definition sample_ops : list IdOp :=
  [OpInsertMapping 1 local_system; OpInsertMapping 2 local_system; OpInsertMapping 1 everyone;
   OpLookupUuid local_system; OpRemoveMapping 1; OpLookupSid 1; OpInsertMapping 2 local_system; OpLookupSid 2].

Lemma identity_mapping_refines_witness :
  run_trace (run_op (fun c => fst <$> head (map_to_list c))) (mkMapping ∅ 1 ∅ ∅) sample_ops
  = [ResUnit (Ok tt); ResUnit (Err (MappingConflict (SidAlreadyMapped local_system 1 2)));
     ResUnit (Err (MappingConflict (UuidAlreadyMapped 1 local_system everyone)));
     ResUuid (Ok (Some 1)); ResUnit (Ok tt); ResSid (Ok None); ResUnit (Ok tt); ResSid (Ok (Some local_system))].
Proof.
  rewrite (identity_mapping_refines (fun c => fst <$> head (map_to_list c)) 1 sample_ops).
  - vm_compute. reflexivity.
  - apply (bool_decide_unpack _). vm_compute. exact I.
Defined.

(** ** UID allocation *)

Lemma uid_key_ne u n : uuid_to_uid_key u <> uid_index_key n. Proof. marker_ne. Qed.

(** The value of the UID counter [allocate_uid] starts from. *)
Definition uid_seed (m : kvmap) : Z :=
  match m !! uid_counter_key with
  | Some buf => if (length buf =? 8)%nat then i64_of_be buf else 65535
  | None => 65535
  end.

Lemma allocate_uid_eq m u :
  -1 <= uid_seed m < 2 ^ 32 - 1 ->
  exists m', allocate_uid m u = (m', Ok (uid_seed m + 1)) /\
    m' !! uuid_to_uid_key u = Some (to_be 4 (uid_seed m + 1)) /\
    m' !! uid_index_key (uid_seed m + 1) = Some (uuid_as_bytes u) /\
    (forall k, k <> uid_counter_key -> k <> uuid_to_uid_key u -> k <> uid_index_key (uid_seed m + 1) ->
       m' !! k = m !! k).
Proof.
  intros Hs. unfold allocate_uid, uid_stage.
  change (fdb_begin_write m) with (@Ok StorageError _ (txn0 m)). cbn [map_err rbind].
  rewrite law_get, txn0_view. cbn [map_err rbind]. fold (uid_seed m).
  destruct (atomic_add_upd _ _ _ _ uid_counter_key 1 (txn0_upd m)) as (t1 & -> & H1). cbn [map_err rbind app] in *.
  unfold i64_add. rewrite i64_checked_add_Some by uint. cbn [rbind].
  rewrite (proj2 (Z.leb_le _ _)), (proj2 (Z.ltb_lt _ _)) by lia. cbn [andb rbind].
  destruct (put_upd _ _ _ _ (uuid_to_uid_key u) (to_be 4 (uid_seed m + 1)) H1) as (t2 & -> & H2). cbn [map_err rbind].
  destruct (put_upd _ _ _ _ (uid_index_key (uid_seed m + 1)) (uuid_as_bytes u) H2) as (t3 & -> & H3). cbn [map_err rbind].
  rewrite (commit_upd _ _ _ _ H3 : txn_commit t3 m = _).
  assert (is_i64 (counter_value (<[uid_index_key (uid_seed m + 1) := uuid_as_bytes u]>
    (<[uuid_to_uid_key u := to_be 4 (uid_seed m + 1)]> m)) uid_counter_key + 1)) as Hi.
  { unfold counter_value. rewrite !lookup_insert_ne by marker_ne. unfold uid_seed in Hs.
    destruct (m !! uid_counter_key) as [buf|]; [|uint]. destruct (length buf =? 8)%nat; uint. }
  rewrite apply_adds_single by done. cbn [map_err rbind]. eexists. split; [done|].
  rewrite !(lookup_insert_ne _ uid_counter_key) by marker_ne. split_and!.
  - rewrite lookup_insert_ne by (intros E; symmetry in E; by apply uid_key_ne in E). apply lookup_insert_eq.
  - apply lookup_insert_eq.
  - intros k H1' H2' H3'. by rewrite !lookup_insert_ne.
Qed.

(** A freshly allocated UID resolves both ways: with the counter in range,
    [allocate_uid] returns one more than its seed, the UUID looks up that UID,
    the UID looks up the UUID, and the SID mapping is untouched. *)
Theorem allocate_uid_lookups (st : FdbIdentityMapping) (A : amap) (u : PrincipalId) :
  represents st A -> is_u128 u -> -1 <= uid_seed (im_store st) < 2 ^ 32 - 1 ->
  let uid := uid_seed (im_store st) + 1 in
  let st' := with_store st (allocate_uid (im_store st) u).1 in
  (allocate_uid (im_store st) u).2 = Ok uid /\
  lookup_uid st' u = Ok (Some uid) /\
  lookup_uuid_from_uid st' uid = Ok (Some u) /\
  represents st' A.
Proof.
  intros HR Hu Hs uid st'. destruct (allocate_uid_eq (im_store st) u Hs) as (m' & E & H1 & H2 & H3).
  unfold st'. rewrite E. cbn [fst snd]. split_and!; [done|..].
  - unfold lookup_uid. rewrite im_read_eq. cbn [rbind im_store with_store]. rewrite H1, length_to_be. cbn [Nat.eqb].
    by rewrite of_to_be_u32 by uint.
  - unfold lookup_uuid_from_uid. rewrite im_read_eq. cbn [rbind im_store with_store]. unfold uid. rewrite H2.
    rewrite uuid_as_bytes_length. cbn [Nat.eqb negb]. by rewrite uuid_from_as.
  - split; cbn [im_store with_store cache_uuid_to_sid cache_sid_to_uuid]; try apply HR.
    + intros u' Hu'. rewrite H3 by marker_ne. by apply HR.
    + intros s b Hs'. rewrite H3 by marker_ne. by apply HR.
Qed.

Lemma allocate_uid_lookups_witness :
  lookup_uid (with_store (mkMapping ∅ 1 ∅ ∅) (allocate_uid ∅ 5).1) 5 = Ok (Some 65536).
Proof.
  destruct (allocate_uid_lookups (mkMapping ∅ 1 ∅ ∅) ∅ 5) as (_ & H & _).
  - apply represents_new.
  - vm_compute. split; congruence.
  - vm_compute. split; congruence.
  - cbn [im_store] in H. rewrite H. reflexivity.
Defined.

(** The UID counter is never seeded: on an empty store the first UID is
    65536, but the counter then holds 1, so the second and third are 2 and 3,
    below the range reserved for principals. *)
Theorem allocate_uid_not_seeded :
  let m1 := (allocate_uid ∅ 5).1 in
  let m2 := (allocate_uid m1 6).1 in
  (allocate_uid ∅ 5).2 = Ok 65536 /\ (allocate_uid m1 6).2 = Ok 2 /\ (allocate_uid m2 7).2 = Ok 3.
Proof. cbv zeta. split; [|split]; vm_compute; reflexivity. Qed.
