(* ===== verification/Repl.v ===== *)
(** * Repl: replication types and conflict resolution (crate [adrian-repl-core])

    The replication data model and [resolve_conflict], the per-value resolver
    both replicators use.  The resolver is shown to be a strict total order on
    metadata, so that replicas that see the same writes in any order keep the
    same one. *)
From S2P Require Import Prelude Bytes StorageKeys.

Abbreviation InvocationId := Uuid.
Abbreviation Usn := Z.
Abbreviation Version := Z.
Abbreviation NcHead := Uuid.

Record PropertyMetaDataExt := mkMeta {
  origin_invocation_id : InvocationId;
  origin_usn : Usn;
  version : Version;
  last_write_timestamp : Z;
}.
Record UtdVectorEntry := mkUtdEntry {
  invocation_id : InvocationId;
  highest_usn : Usn;
}.
Record UtdVector := mkUtd { utd_entries : list UtdVectorEntry }.
Record UtdDelta := mkUtdDelta {
  delta_invocation_id : InvocationId;
  new_highest_usn : Usn;
}.

Inductive ReplOperation :=
| AddObject (uuid : Uuid) (dn : bytes) (attributes : list (bytes * bytes * PropertyMetaDataExt))
| ModifyAttribute (uuid : Uuid) (attribute value : bytes) (metadata : PropertyMetaDataExt)
| DeleteObject (uuid : Uuid) (metadata : PropertyMetaDataExt)
| AddLink (link_uuid : Uuid) (link_id : Z) (backlink_uuid : Uuid) (metadata : PropertyMetaDataExt)
| DeleteLink (link_uuid : Uuid) (link_id : Z) (backlink_uuid : Uuid) (metadata : PropertyMetaDataExt)
| TombstoneGC (cutoff : Z).

Record ReplicationPayload := mkPayload {
  nc_head : NcHead;
  operations : list ReplOperation;
  payload_origin : InvocationId;
  payload_highest_usn : Usn;
}.
Record ConflictRecord := mkConflict {
  conflict_uuid : Uuid;
  conflict_attribute : bytes;
  conflict_local : bytes * PropertyMetaDataExt;
  conflict_incoming : bytes * PropertyMetaDataExt;
}.
Inductive Resolution := LocalWins | IncomingWins.

(** Errors; [Permanent] carries its message. *)
Inductive ReplicationError :=
| Transient (msg : bytes)
| Permanent (msg : bytes)
| PartnerUnreachable (partner : bytes)
| SchemaMismatch (local partner : Z)
| InvocationIdMismatch (expected actual : InvocationId)
| ReplBackend (msg : bytes).

#[global] Instance PropertyMetaDataExt_eq_dec : EqDecision PropertyMetaDataExt.
Proof. solve_decision. Defined.
#[global] Instance UtdVectorEntry_eq_dec : EqDecision UtdVectorEntry.
Proof. solve_decision. Defined.
#[global] Instance ReplOperation_eq_dec : EqDecision ReplOperation.
Proof. solve_decision. Defined.
#[global] Instance Resolution_eq_dec : EqDecision Resolution.
Proof. solve_decision. Defined.

Definition resolve_conflict (local incoming : PropertyMetaDataExt) : Resolution :=
  if version local <? version incoming then IncomingWins
  else if version incoming <? version local then LocalWins
  else if last_write_timestamp local <? last_write_timestamp incoming then IncomingWins
  else if last_write_timestamp incoming <? last_write_timestamp local then LocalWins
  else if origin_usn local <? origin_usn incoming then IncomingWins
  else if origin_usn incoming <? origin_usn local then LocalWins
  else if origin_invocation_id local <? origin_invocation_id incoming then IncomingWins
  else LocalWins.

(** ** The order the resolver decides *)

Definition meta_lt (a b : PropertyMetaDataExt) : Prop :=
  version a < version b \/ (version a = version b /\
  (last_write_timestamp a < last_write_timestamp b \/ (last_write_timestamp a = last_write_timestamp b /\
  (origin_usn a < origin_usn b \/ (origin_usn a = origin_usn b /\
   origin_invocation_id a < origin_invocation_id b))))).

Lemma resolve_iff local incoming :
  resolve_conflict local incoming = IncomingWins <-> meta_lt local incoming.
Proof.
  unfold resolve_conflict, meta_lt.
  repeat match goal with |- context [?a <? ?b] => destruct (Z.ltb_spec a b) end;
    (split; [intros H'; try discriminate H'; lia|intros H'; try reflexivity; exfalso; lia]).
Qed.

Lemma meta_lt_trans a b c : meta_lt a b -> meta_lt b c -> meta_lt a c.
Proof. unfold meta_lt. lia. Qed.
Lemma meta_lt_total a b : meta_lt a b \/ a = b \/ meta_lt b a.
Proof.
  unfold meta_lt. destruct a as [i u v t], b as [i' u' v' t']. cbn.
  destruct (Z.lt_trichotomy v v') as [|[<-|]]; [lia| |lia].
  destruct (Z.lt_trichotomy t t') as [|[<-|]]; [lia| |lia].
  destruct (Z.lt_trichotomy u u') as [|[<-|]]; [lia| |lia].
  destruct (Z.lt_trichotomy i i') as [|[<-|]]; [lia| |lia]. by right; left.
Qed.

(** The conflict resolver is a strict total order on metadata: for
    different metadata exactly one of the two values wins whichever side it
    arrives on, equal metadata keeps the local value, and winning is
    transitive. *)
Theorem resolver_total_order (a b c : PropertyMetaDataExt) :
  (a <> b -> (resolve_conflict a b = IncomingWins <-> resolve_conflict b a = LocalWins)) /\
  resolve_conflict a a = LocalWins /\
  (resolve_conflict a b = IncomingWins -> resolve_conflict b c = IncomingWins ->
   resolve_conflict a c = IncomingWins).
Proof.
  assert (forall x y, resolve_conflict x y = LocalWins <-> ~ meta_lt x y) as Hl.
  { intros x y. rewrite <-resolve_iff. destruct (resolve_conflict x y); naive_solver. }
  split_and!.
  - intros Hne. rewrite resolve_iff, Hl. split; [unfold meta_lt; lia|].
    intros H. destruct (meta_lt_total a b) as [|[|]]; done.
  - apply Hl. unfold meta_lt. lia.
  - rewrite !resolve_iff. apply meta_lt_trans.
Qed.

(** ** Convergence *)

(** A replica's stored value with its metadata, after receiving one more. *)
Definition receive (local incoming : bytes * PropertyMetaDataExt) : bytes * PropertyMetaDataExt :=
  match resolve_conflict local.2 incoming.2 with IncomingWins => incoming | LocalWins => local end.

(** Writes whose metadata determines the value. *)
Definition coherent (l : list (bytes * PropertyMetaDataExt)) : Prop :=
  forall x y, x ∈ l -> y ∈ l -> x.2 = y.2 -> x = y.

Lemma receive_spec x l :
  foldl receive x l ∈ x :: l /\ (forall y, y ∈ x :: l -> ~ meta_lt (foldl receive x l).2 y.2).
Proof.
  revert x. induction l as [|z l IH]; intros x; cbn [foldl].
  { split; [by left|]. intros y ->%list_elem_of_singleton. unfold meta_lt. lia. }
  destruct (IH (receive x z)) as [Hin Hmax].
  assert (receive x z ∈ [x; z] /\ ~ meta_lt (receive x z).2 x.2 /\ ~ meta_lt (receive x z).2 z.2) as (Hr & Hx & Hz).
  { unfold receive. destruct (resolve_conflict x.2 z.2) eqn:E.
    - split_and!; [set_solver|unfold meta_lt; lia|]. intros H%resolve_iff. congruence.
    - apply resolve_iff in E. split_and!; [set_solver| |]; unfold meta_lt in *; lia. }
  split.
  { rewrite !elem_of_cons in *. rewrite elem_of_nil in Hr. destruct Hin as [->|?]; [|by auto].
    destruct Hr as [->|[->|[]]]; auto. }
  intros y Hy.
  assert (~ meta_lt (foldl receive (receive x z) l).2 (receive x z).2) as Hm by (apply Hmax; by left).
  rewrite !elem_of_cons in Hy. destruct Hy as [->|[->|Hy]]; [| |apply Hmax; by right].
  - destruct (meta_lt_total (foldl receive (receive x z) l).2 (receive x z).2) as [|[E|H]]; [done|by rewrite E|].
    unfold meta_lt in *. lia.
  - destruct (meta_lt_total (foldl receive (receive x z) l).2 (receive x z).2) as [|[E|H]]; [done|by rewrite E|].
    unfold meta_lt in *. lia.
Qed.

(** Convergence: replicas that receive the same set of writes, in any two
    orders and starting from any two of them, end with the same value, as long
    as a write's metadata determines its value. *)
Theorem replicas_converge (x y : bytes * PropertyMetaDataExt) (l l' : list (bytes * PropertyMetaDataExt)) :
  coherent (x :: l) -> (x :: l) ≡ₚ (y :: l') -> foldl receive x l = foldl receive y l'.
Proof.
  intros Hc Hp. destruct (receive_spec x l) as [H1 M1], (receive_spec y l') as [H2 M2].
  rewrite <-Hp in H2. apply Hc; [done|done|].
  destruct (meta_lt_total (foldl receive x l).2 (foldl receive y l').2) as [H|[H|H]]; [|done|].
  - exfalso. by apply (M1 (foldl receive y l')).
  - exfalso. apply (M2 (foldl receive x l)); [by rewrite <-Hp|done].
Qed.

Lemma replicas_converge_witness :
  let w v t u := (lit "v", mkMeta 7 u v t) in
  foldl receive (w 1 5 9) [w 2 3 1; w 2 4 1] = foldl receive (w 2 4 1) [w 1 5 9; w 2 3 1].
Proof.
  cbv zeta. apply replicas_converge.
  - intros x y Hx Hy. rewrite !elem_of_cons, elem_of_nil in Hx, Hy. naive_solver.
  - apply (bool_decide_unpack _). vm_compute. exact I.
Defined.
