(* ===== verification/Raft.v ===== *)
(** * Raft: native replication (crate [adrian-raft])

    The log entry frame codec (with [serde_json] as a parameter), UTD vector
    synthesis, the per-node state and the three RPC handlers of
    [ManualRaftReplicator], and the [Replicator] operations of
    [RaftDirectoryReplicator] on the in-memory log. *)
From S2P Require Import Prelude Bytes StorageKeys Repl.

Record RaftLogEntry := mkEntry {
  term : Z;
  index : Z;
  entry_origin : InvocationId;
  entry_usn : Usn;
  payload : ReplOperation;
}.
#[global] Instance RaftLogEntry_eq_dec : EqDecision RaftLogEntry.
Proof. solve_decision. Defined.
Definition RaftLogEntry_new (term index : Z) (origin : InvocationId) (op : ReplOperation) : RaftLogEntry :=
  mkEntry term index origin index op.

(** Messages of [InvalidEntry] and [SnapshotRejected]. *)
Inductive RaftError :=
| EntryTooShort (got : nat)
| EntryTruncated (len : Z) (got : nat)
| JsonDecode
| SnapshotRejected (caller current : Z).

Definition ENTRY_LEN_PREFIX_BYTES : nat := 4.

(** ** Frames *)
Section frames.
(** [serde_json::to_vec] and [serde_json::from_slice] at [RaftLogEntry]. *)
Context (json_to_vec : RaftLogEntry -> option bytes) (json_from_slice : bytes -> option RaftLogEntry).

(** Both failures of the encoder panic. *)
Definition encode_log_entry (entry : RaftLogEntry) : Result RaftError bytes :=
  match json_to_vec entry with
  | None => Panic
  | Some body =>
      if Z.of_nat (length body) <? 2 ^ 32 then Ok (to_be 4 (Z.of_nat (length body)) ++ body) else Panic
  end.

Definition decode_log_entry (b : bytes) : Result RaftError RaftLogEntry :=
  if (length b <? ENTRY_LEN_PREFIX_BYTES)%nat then Err (EntryTooShort (length b))
  else
    let len := of_be (take 4 b) in
    if (length b <? ENTRY_LEN_PREFIX_BYTES + Z.to_nat len)%nat
    then Err (EntryTruncated len (length b - ENTRY_LEN_PREFIX_BYTES))
    else ok_or (json_from_slice (take (Z.to_nat len) (drop 4 b))) JsonDecode.
End frames.

(** ** UTD vector synthesis *)

Definition by_leader (log : list RaftLogEntry) : gmap InvocationId Usn :=
  foldl (fun m e =>
    let cur := default 0 (m !! entry_origin e) in
    <[entry_origin e := if cur <? index e then index e else cur]> m) ∅ log.

Definition utd_le (a b : UtdVectorEntry) : Prop := invocation_id a <= invocation_id b.
#[global] Instance utd_le_dec a b : Decision (utd_le a b).
Proof. unfold utd_le; apply _. Defined.
#[global] Instance utd_le_total : Total utd_le.
Proof. intros a b. unfold utd_le. lia. Qed.
#[global] Instance utd_le_trans : Transitive utd_le.
Proof. intros a b c. unfold utd_le. lia. Qed.

Definition synthesize_utd_vector (log : list RaftLogEntry) (local_dc_id : Uuid) : UtdVector :=
  mkUtd (merge_sort utd_le ((fun p => mkUtdEntry p.1 p.2) <$> map_to_list (by_leader log))).

(** ** Node state *)

Record AppendResult := mkAppendResult {
  ar_term : Z;
  ar_success : bool;
  ar_last_log_index : Z;
  ar_commit_index : Z;
}.
Record VoteResult := mkVoteResult {
  vr_term : Z;
  vote_granted : bool;
}.

Record RaftNodeState := mkNode {
  current_term : Z;
  voted_for : option Uuid;
  log : list RaftLogEntry;
  commit_index : Z;
  last_applied : Z;
  leader_id : option Uuid;
}.
Definition RaftNodeState_new : RaftNodeState := mkNode 0 None [] 0 0 None.

Definition last_log_index (s : RaftNodeState) : Z := match last (log s) with Some e => index e | None => 0 end.
Definition last_log_term (s : RaftNodeState) : Z := match last (log s) with Some e => term e | None => 0 end.

Definition term_at_log (l : list RaftLogEntry) (i : Z) : option Z :=
  if i =? 0 then Some 0 else term <$> head (List.filter (fun e => index e =? i) l).
Definition term_at (s : RaftNodeState) (i : Z) : option Z := term_at_log (log s) i.

Definition truncate_log (l : list RaftLogEntry) (from : Z) : list RaftLogEntry :=
  List.filter (fun e => index e <? from) l.
Definition truncate_from (s : RaftNodeState) (from : Z) : RaftNodeState :=
  mkNode (current_term s) (voted_for s) (truncate_log (log s) from) (commit_index s) (last_applied s) (leader_id s).

(** The entry loop of [append_entries]. *)
Definition append_one (l : list RaftLogEntry) (e : RaftLogEntry) : list RaftLogEntry :=
  match term_at_log l (index e) with
  | Some existing_term => if existing_term =? term e then l else truncate_log l (index e) ++ [e]
  | None => l ++ [e]
  end.

(** A higher term makes the node a follower with no vote. *)
Definition adopt_term (s : RaftNodeState) (t : Z) : RaftNodeState :=
  if current_term s <? t then mkNode t None (log s) (commit_index s) (last_applied s) (leader_id s) else s.

Definition node_append_entries (s : RaftNodeState) (t : Z) (leader : Uuid) (prev_log_index prev_log_term : Z)
    (entries : list RaftLogEntry) (leader_commit : Z) : RaftNodeState * AppendResult :=
  if t <? current_term s then
    (s, mkAppendResult (current_term s) false (last_log_index s) (commit_index s))
  else
    let s := adopt_term s t in
    let s := mkNode (current_term s) (voted_for s) (log s) (commit_index s) (last_applied s) (Some leader) in
    if negb (bool_decide (term_at s prev_log_index = Some prev_log_term)) then
      (s, mkAppendResult (current_term s) false (last_log_index s) (commit_index s))
    else
      let s := mkNode (current_term s) (voted_for s) (foldl append_one (log s) entries)
                 (commit_index s) (last_applied s) (leader_id s) in
      let last_idx := last_log_index s in
      let s := if commit_index s <? leader_commit
               then mkNode (current_term s) (voted_for s) (log s) (Z.min leader_commit last_idx)
                      (last_applied s) (leader_id s)
               else s in
      (s, mkAppendResult (current_term s) true (last_log_index s) (commit_index s)).

Definition node_vote (s : RaftNodeState) (t : Z) (candidate : Uuid) (cand_last_index cand_last_term : Z)
    : RaftNodeState * VoteResult :=
  if t <? current_term s then (s, mkVoteResult (current_term s) false)
  else
    let s := adopt_term s t in
    let up_to_date := if negb (cand_last_term =? last_log_term s) then last_log_term s <? cand_last_term
                      else last_log_index s <=? cand_last_index in
    let grant := match voted_for s with
                 | Some v => if negb (v =? candidate) then false else up_to_date
                 | None => up_to_date
                 end in
    let s := if grant then mkNode (current_term s) (Some candidate) (log s) (commit_index s)
                             (last_applied s) (leader_id s) else s in
    (s, mkVoteResult (current_term s) grant).

Definition node_install_snapshot (s : RaftNodeState) (t : Z) : RaftNodeState * Result RaftError unit :=
  if t <? current_term s then (s, Err (SnapshotRejected t (current_term s)))
  else (adopt_term s t, Ok tt).

(** ** [ManualRaftReplicator] *)

Record ManualRaftReplicator := mkManual {
  local_node_id : Uuid;
  nodes : gmap Uuid RaftNodeState;
}.
Definition ManualRaftReplicator_new (id : Uuid) : ManualRaftReplicator :=
  mkManual id {[id := RaftNodeState_new]}.
Definition add_peer (r : ManualRaftReplicator) (peer : Uuid) : ManualRaftReplicator :=
  mkManual (local_node_id r) (match nodes r !! peer with
                              | Some _ => nodes r
                              | None => <[peer := RaftNodeState_new]> (nodes r) end).
(** [entry(local).or_insert_with(RaftNodeState::new)]. *)
Definition local_state (r : ManualRaftReplicator) : RaftNodeState :=
  default RaftNodeState_new (nodes r !! local_node_id r).
Definition set_local (r : ManualRaftReplicator) (s : RaftNodeState) : ManualRaftReplicator :=
  mkManual (local_node_id r) (<[local_node_id r := s]> (nodes r)).

Definition append_entries (r : ManualRaftReplicator) (t : Z) (leader : Uuid) (prev_log_index prev_log_term : Z)
    (entries : list RaftLogEntry) (leader_commit : Z) : ManualRaftReplicator * Result RaftError AppendResult :=
  let '(s, res) := node_append_entries (local_state r) t leader prev_log_index prev_log_term entries leader_commit in
  (set_local r s, Ok res).
Definition vote (r : ManualRaftReplicator) (t : Z) (candidate : Uuid) (last_index last_term : Z)
    : ManualRaftReplicator * Result RaftError VoteResult :=
  let '(s, res) := node_vote (local_state r) t candidate last_index last_term in (set_local r s, Ok res).
(** The snapshot bytes and coordinates are only logged. *)
Definition install_snapshot (r : ManualRaftReplicator) (t : Z) (leader : Uuid)
    (last_included_index last_included_term offset : Z) (data : bytes) (done : bool)
    : ManualRaftReplicator * Result RaftError unit :=
  let '(s, res) := node_install_snapshot (local_state r) t in (set_local r s, res).

Definition raft_commit_index (r : ManualRaftReplicator) : Z :=
  match nodes r !! local_node_id r with Some s => commit_index s | None => 0 end.
Definition raft_current_term (r : ManualRaftReplicator) : Z :=
  match nodes r !! local_node_id r with Some s => current_term s | None => 0 end.
Definition raft_last_log_index (r : ManualRaftReplicator) : Z :=
  match nodes r !! local_node_id r with Some s => last_log_index s | None => 0 end.
Definition log_snapshot (r : ManualRaftReplicator) : list RaftLogEntry :=
  match nodes r !! local_node_id r with Some s => log s | None => [] end.
Definition raft_voted_for (r : ManualRaftReplicator) : option Uuid := nodes r !! local_node_id r ≫= voted_for.
Definition raft_leader_id (r : ManualRaftReplicator) : option Uuid := nodes r !! local_node_id r ≫= leader_id.

(** ** [RaftDirectoryReplicator] *)

Record RaftDirectoryReplicator := mkDirRaft {
  dir_invocation_id : Uuid;
  cluster_id : bytes;
  raft : ManualRaftReplicator;
}.
Definition RaftDirectoryReplicator_new (id : Uuid) (cluster : bytes) : RaftDirectoryReplicator :=
  mkDirRaft id cluster (ManualRaftReplicator_new id).

Definition cursor_high (cursor : UtdVector) (id : InvocationId) : Usn :=
  match head (List.filter (fun c => invocation_id c =? id) (utd_entries cursor)) with
  | Some c => highest_usn c
  | None => 0
  end.
Definition max_index (l : list RaftLogEntry) : Z := foldr (fun e m => Z.max (index e) m) 0 l.

Definition get_changes (r : RaftDirectoryReplicator) (nc : NcHead) (cursor : UtdVector)
    : Result ReplicationError ReplicationPayload :=
  let l := log_snapshot (raft r) in
  let ops := payload <$> List.filter (fun e => cursor_high cursor (entry_origin e) <? index e) l in
  Ok (mkPayload nc ops (dir_invocation_id r) (max_index l)).

(** The append loop of [apply_changes]; [offset] is the [enumerate] counter.
    The log is mutated in place: a panic keeps the entries pushed before it. *)
Fixpoint apply_ops (l : list RaftLogEntry) (t start offset : Z) (origin : InvocationId) (ops : list ReplOperation)
    : list RaftLogEntry * Result ReplicationError unit :=
  match ops with
  | [] => (l, Ok tt)
  | op :: ops =>
      match u64_add start offset with
      | Ok next_index => apply_ops (l ++ [mkEntry t next_index origin next_index op]) t start (offset + 1) origin ops
      | Err e => (l, Err e)
      | Panic => (l, Panic)
      end
  end.

Definition with_log (s : RaftNodeState) (l : list RaftLogEntry) : RaftNodeState :=
  mkNode (current_term s) (voted_for s) l (commit_index s) (last_applied s) (leader_id s).
Definition with_raft (r : RaftDirectoryReplicator) (s : RaftNodeState) : RaftDirectoryReplicator :=
  mkDirRaft (dir_invocation_id r) (cluster_id r) (set_local (raft r) s).

Definition apply_changes (r : RaftDirectoryReplicator) (batch : ReplicationPayload)
    : RaftDirectoryReplicator * Result ReplicationError (list Resolution) :=
  let s := local_state (raft r) in
  match u64_add (last_log_index s) 1 with
  | Ok start =>
      let '(l, res) := apply_ops (log s) (Z.max (current_term s) 1) start 0 (payload_origin batch) (operations batch) in
      let s := with_log s l in
      match res with
      | Ok _ =>
          let s := mkNode (current_term s) (voted_for s) (log s) (last_log_index s) (last_applied s) (leader_id s) in
          (with_raft r s, Ok (replicate (length (operations batch)) IncomingWins))
      | Err e => (with_raft r s, Err e)
      | Panic => (with_raft r s, Panic)
      end
  | Err e => (with_raft r s, Err e)
  | Panic => (with_raft r s, Panic)
  end.

Definition update_utd_vector (r : RaftDirectoryReplicator) (nc : NcHead) (delta : UtdDelta)
    : Result ReplicationError unit := Ok tt.
Definition dir_resolve_conflict (r : RaftDirectoryReplicator) (conflict : ConflictRecord)
    : Result ReplicationError Resolution :=
  Err (Permanent (lit "conflict resolution in native mode should never be needed — possible split-brain")).
Definition sync_metadata (r : RaftDirectoryReplicator) (partner : bytes) : Result ReplicationError unit := Ok tt.
