(* ===== verification/RaftProofs.v ===== *)
(** * RaftProofs: the Raft handlers and the log

    Frames and UTD vectors are exact; a node votes at most once per term; an
    accepted [append_entries] leaves the log the RPC describes; a follower that
    pulls catches up with its source. *)
From S2P Require Import Prelude Bytes StorageKeys Repl Raft.

(** ** Frames *)

(** Log entry frames are self-delimiting: given that JSON decoding inverts
    JSON encoding, decoding an encoded entry returns it whatever bytes follow in
    the stream, and every proper prefix of the frame is reported as too short
    or truncated. *)
Theorem raft_frame_roundtrip (json_to_vec : RaftLogEntry -> option bytes) (json_from_slice : bytes -> option RaftLogEntry)
    (e : RaftLogEntry) (frame : bytes) :
  (forall e b, json_to_vec e = Some b -> json_from_slice b = Some e) ->
  encode_log_entry json_to_vec e = Ok frame ->
  (forall extra, decode_log_entry json_from_slice (frame ++ extra) = Ok e) /\
  (forall p q, frame = p ++ q -> q <> [] -> exists err, decode_log_entry json_from_slice p = Err err).
Proof.
  intros Hjson Henc. unfold encode_log_entry in Henc. destruct (json_to_vec e) as [body|] eqn:Hb; [|done].
  destruct (Z.ltb_spec (Z.of_nat (length body)) (2 ^ 32)) as [Hl|]; [|done]. apply Ok_inj in Henc. subst frame.
  assert (is_u32 (Z.of_nat (length body))) as Hu by uint. split.
  - intros extra. unfold decode_log_entry. set (b := _ ++ extra).
    assert (length b = (4 + length body + length extra)%nat) as El by (unfold b; len).
    rewrite El. unfold ENTRY_LEN_PREFIX_BYTES. rewrite (proj2 (Nat.ltb_ge _ _)) by lia.
    replace (take 4 b) with (to_be 4 (Z.of_nat (length body)))
      by (symmetry; apply (sub_app [] _ (body ++ extra) b 0 4); (unfold b; rewrite <-?(assoc_L (++)); (done || len))).
    rewrite of_to_be_u32, Nat2Z.id by done. rewrite (proj2 (Nat.ltb_ge _ _)) by lia.
    rewrite (sub_app (to_be 4 (Z.of_nat (length body))) body extra b 4)
      by (unfold b; rewrite <-?(assoc_L (++)); (done || len)).
    by rewrite (Hjson e body Hb).
  - intros p q E Hq. assert (length p + length q = 4 + length body)%nat as Elen.
    { apply (f_equal length) in E. rewrite !length_app, length_to_be in E. lia. }
    assert (0 < length q)%nat as Hq0 by (destruct q; [done|apply Nat.lt_0_succ]).
    unfold decode_log_entry, ENTRY_LEN_PREFIX_BYTES. destruct (Nat.ltb_spec (length p) 4); [by eexists|].
    assert (take 4 p = to_be 4 (Z.of_nat (length body))) as ->.
    { apply (f_equal (take 4)) in E. rewrite (take_app_length' (to_be 4 _)) in E by len.
      by rewrite take_app_le in E by lia. }
    rewrite of_to_be_u32, Nat2Z.id by done. rewrite (proj2 (Nat.ltb_lt _ _)) by lia. by eexists.
Qed.

Definition sample_entry : RaftLogEntry := RaftLogEntry_new 1 1 7 (TombstoneGC 5).

Lemma raft_frame_roundtrip_witness :
  decode_log_entry (fun b => if decide (b = [x01; x02]) then Some sample_entry else None)
    (to_be 4 2 ++ [x01; x02] ++ [xff]) = Ok sample_entry.
Proof.
  apply (raft_frame_roundtrip (fun e => if decide (e = sample_entry) then Some [x01; x02] else None)
    (fun b => if decide (b = [x01; x02]) then Some sample_entry else None) sample_entry (to_be 4 2 ++ [x01; x02])) with (extra := [xff]).
  - intros e b. case_decide as H; [|done]. intros [= <-]. rewrite decide_True by done. by rewrite H.
  - reflexivity.
Defined.

(** ** Votes *)

Inductive Rpc :=
| RpcAppend (t : Z) (leader : Uuid) (prev_index prev_term : Z) (entries : list RaftLogEntry) (leader_commit : Z)
| RpcVote (t : Z) (candidate : Uuid) (last_index last_term : Z)
| RpcSnapshot (t : Z).

(** One RPC; the vote it granted, if any. *)
Definition rpc_step (s : RaftNodeState) (rpc : Rpc) : RaftNodeState * option (Z * Uuid) :=
  match rpc with
  | RpcAppend t l pi pt es lc => ((node_append_entries s t l pi pt es lc).1, None)
  | RpcVote t c li lt =>
      let '(s', r) := node_vote s t c li lt in (s', if vote_granted r then Some (t, c) else None)
  | RpcSnapshot t => ((node_install_snapshot s t).1, None)
  end.
Fixpoint rpc_run (s : RaftNodeState) (rpcs : list Rpc) : RaftNodeState * list (Z * Uuid) :=
  match rpcs with
  | [] => (s, [])
  | rpc :: rpcs =>
      let '(s, g) := rpc_step s rpc in
      let '(s, gs) := rpc_run s rpcs in (s, option_list g ++ gs)
  end.

(** The node has used its vote of term [t] on [c], or moved past [t]. *)
Definition voted (s : RaftNodeState) (t : Z) (c : Uuid) : Prop :=
  t < current_term s \/ (t = current_term s /\ voted_for s = Some c).

Lemma adopt_voted s t t' c : voted s t c -> voted (adopt_term s t') t c.
Proof. unfold voted, adopt_term. destruct (Z.ltb_spec (current_term s) t'); cbn; [lia|done]. Qed.

Lemma append_fields s t l pi pt es lc :
  current_term (node_append_entries s t l pi pt es lc).1 = Z.max (current_term s) t /\
  voted_for (node_append_entries s t l pi pt es lc).1 = (if t <? current_term s then voted_for s else voted_for (adopt_term s t)).
Proof.
  unfold node_append_entries, adopt_term. destruct (Z.ltb_spec t (current_term s)).
  - cbn. split; [lia|done].
  - destruct (Z.ltb_spec (current_term s) t); cbn; repeat case_match; cbn; (split; [lia|done]).
Qed.

Lemma rpc_step_term s rpc : current_term s <= current_term (rpc_step s rpc).1.
Proof.
  destruct rpc as [t l pi pt es lc|t c li lt|t]; cbn.
  - destruct (append_fields s t l pi pt es lc) as [-> _]. lia.
  - unfold node_vote, adopt_term. repeat case_match; cbn in *; simplify_eq; cbn; lia.
  - unfold node_install_snapshot, adopt_term. repeat case_match; cbn; lia.
Qed.

Lemma rpc_step_voted s rpc t c : voted s t c -> voted (rpc_step s rpc).1 t c.
Proof.
  intros Hv. destruct rpc as [t' l pi pt es lc|t' c' li lt|t']; cbn [rpc_step].
  - cbn [fst]. destruct (append_fields s t' l pi pt es lc) as [Et Ev]. unfold voted in *. rewrite Et, Ev.
    unfold adopt_term. destruct Hv as [Hlt|[-> Hv]]; [left; lia|].
    destruct (Z.ltb_spec t' (current_term s)); [right; split; [lia|done]|].
    destruct (Z.ltb_spec (current_term s) t'); [left; lia|right; split; [lia|done]].
  - unfold node_vote. destruct (Z.ltb_spec t' (current_term s)); [done|]. apply (adopt_voted s t t' c) in Hv.
    revert Hv. generalize (adopt_term s t') as s1. intros s1 Hv. unfold voted in *.
    destruct (voted_for s1) as [v|] eqn:Ev.
    + destruct (Z.eqb_spec v c'); cbn [negb]; [subst v|cbn; by rewrite Ev].
      case_match; cbn; [destruct Hv as [|[? ?]]; [by left|by right]|by rewrite Ev].
    + case_match; cbn; [destruct Hv as [|[? ?]]; [by left|done]|by rewrite Ev].
  - unfold node_install_snapshot. destruct (Z.ltb_spec t' (current_term s)); [done|]. by apply adopt_voted.
Qed.

Lemma rpc_step_grant s rpc t c :
  (rpc_step s rpc).2 = Some (t, c) -> voted (rpc_step s rpc).1 t c /\ (forall c', voted s t c' -> c' = c).
Proof.
  destruct rpc as [t' l pi pt es lc|t' c' li lt|t']; cbn [rpc_step]; [done| |done].
  unfold node_vote. destruct (Z.ltb_spec t' (current_term s)) as [|Hge]; [done|].
  assert (current_term (adopt_term s t') = t') as Et.
  { unfold adopt_term. destruct (Z.ltb_spec (current_term s) t'); cbn; lia. }
  pose proof (adopt_voted s t' t') as Had. revert Et Had. generalize (adopt_term s t') as s1. intros s1 Et Had.
  destruct (match voted_for s1 with Some v => _ | None => _ end) eqn:G; cbn; [|done].
  intros [= <- <-]. unfold voted at 1. cbn. split; [by right|]. intros c0 Hc0. apply Had in Hc0 as [?|[_ Hv]]; [lia|].
  rewrite Hv in G. destruct (Z.eqb_spec c0 c'); [done|]. cbn in G. done.
Qed.

Lemma rpc_run_grants s rpcs t c :
  (t, c) ∈ (rpc_run s rpcs).2 -> forall c', voted s t c' -> c' = c.
Proof.
  revert s. induction rpcs as [|rpc rpcs IH]; intros s; cbn [rpc_run].
  { by intros ?%not_elem_of_nil. }
  pose proof (rpc_step_grant s rpc t c) as Hg. pose proof (rpc_step_voted s rpc t) as Hv.
  destruct (rpc_step s rpc) as [s1 g]. destruct (rpc_run s1 rpcs) as [s2 gs] eqn:E. cbn [fst snd] in *.
  intros [Hin|Hin]%elem_of_app c' Hc.
  - destruct g as [g|]; cbn in Hin; [|by apply not_elem_of_nil in Hin].
    apply list_elem_of_singleton in Hin as <-. by apply Hg.
  - apply (IH s1); [by rewrite E|by apply Hv].
Qed.

(** C40: Election safety at one node: over any sequence of AppendEntries,
    RequestVote and InstallSnapshot requests, from any state, the node's term
    never decreases and it grants its vote to at most one candidate per term. *)
Theorem raft_one_vote_per_term (s : RaftNodeState) (rpcs : list Rpc) :
  current_term s <= current_term (rpc_run s rpcs).1 /\
  (forall t c c', (t, c) ∈ (rpc_run s rpcs).2 -> (t, c') ∈ (rpc_run s rpcs).2 -> c = c').
Proof.
  revert s. induction rpcs as [|rpc rpcs IH]; intros s; cbn [rpc_run].
  { split; [cbn; lia|]. by intros t c c' ?%not_elem_of_nil. }
  pose proof (rpc_step_grant s rpc) as Hg. pose proof (rpc_step_term s rpc) as Ht.
  destruct (rpc_step s rpc) as [s1 g]. specialize (IH s1). pose proof (rpc_run_grants s1 rpcs) as Hr.
  destruct (rpc_run s1 rpcs) as [s2 gs]. cbn [fst snd] in *. destruct IH as [IH1 IH2]. split; [lia|].
  intros t c c'. rewrite !elem_of_app. destruct g as [[t0 c0]|]; cbn;
    [|intros [[]%not_elem_of_nil|?] [[]%not_elem_of_nil|?]; eauto].
  rewrite !list_elem_of_singleton. destruct (Hg t0 c0 eq_refl) as [Hv _].
  intros [E1|H1] [E2|H2]; simplify_eq; [done|by eapply Hr|symmetry; by eapply Hr|by eapply IH2].
Qed.

(** ** The log *)

(** Entries numbered [p + 1], [p + 2], ...: what a leader sends after [p], and
    with [p = 0] the shape of a node's own log. *)
Definition numbered (p : Z) (es : list RaftLogEntry) : Prop :=
  forall (j : nat) e, es !! j = Some e -> index e = p + 1 + Z.of_nat j.
Abbreviation contiguous l := (numbered 0 l).

Lemma numbered_cons p e es : numbered p (e :: es) <-> index e = p + 1 /\ numbered (p + 1) es.
Proof.
  split.
  - intros H. split; [rewrite (H 0%nat e eq_refl); lia|]. intros j x Hj. rewrite (H (S j) x Hj). lia.
  - intros [He H] [|j] x Hj; cbn in Hj; [simplify_eq; lia|]. rewrite (H j x Hj). lia.
Qed.
Lemma numbered_app p l es :
  numbered p (l ++ es) <-> numbered p l /\ numbered (p + Z.of_nat (length l)) es.
Proof.
  revert p. induction l as [|e l IH]; intros p; cbn [app length].
  - rewrite Z.add_0_r. split; [|tauto]. intros H. split; [|done]. intros j x Hj. by rewrite lookup_nil in Hj.
  - rewrite !numbered_cons, IH. replace (p + 1 + Z.of_nat (length l)) with (p + Z.of_nat (S (length l))) by lia. tauto.
Qed.
Lemma numbered_take p l n : numbered p l -> numbered p (take n l).
Proof. rewrite <-(take_drop n l) at 1. rewrite numbered_app. tauto. Qed.

(** On a contiguous log the linear scan is positional. *)
Lemma filter_index p l i :
  numbered p l -> head (List.filter (fun e => index e =? i) l) =
    if decide (p < i) then l !! Z.to_nat (i - p - 1) else None.
Proof.
  revert p. induction l as [|e l IH]; intros p Hl; [by case_decide; rewrite ?lookup_nil|].
  apply numbered_cons in Hl as [He Hl]. cbn [List.filter]. destruct (Z.eqb_spec (index e) i) as [E|E].
  - cbn. rewrite decide_True by lia. by replace (Z.to_nat (i - p - 1)) with 0%nat by lia.
  - rewrite (IH (p + 1) Hl). destruct (decide (p + 1 < i)).
    + rewrite decide_True by lia. replace (Z.to_nat (i - p - 1)) with (S (Z.to_nat (i - (p + 1) - 1))) by lia. done.
    + rewrite decide_False by lia. done.
Qed.
Lemma term_at_contiguous l i :
  contiguous l -> 0 < i -> term_at_log l i = term <$> l !! Z.to_nat (i - 1).
Proof.
  intros Hl Hi. unfold term_at_log. rewrite (proj2 (Z.eqb_neq _ _)) by lia. rewrite (filter_index 0) by done.
  rewrite decide_True by lia. by replace (i - 0 - 1) with (i - 1) by lia.
Qed.
Lemma truncate_contiguous p l i : numbered p l -> p < i -> truncate_log l i = take (Z.to_nat (i - p - 1)) l.
Proof.
  unfold truncate_log. revert p. induction l as [|e l IH]; intros p Hl Hi; [by rewrite take_nil|].
  apply numbered_cons in Hl as [He Hl]. cbn [List.filter]. destruct (Z.ltb_spec (index e) i).
  - rewrite (IH (p + 1) Hl) by lia. replace (Z.to_nat (i - p - 1)) with (S (Z.to_nat (i - (p + 1) - 1))) by lia. done.
  - replace (Z.to_nat (i - p - 1)) with 0%nat by lia. cbn [take].
    assert (forall q k, numbered q k -> i <= q + 1 -> List.filter (fun x => index x <? i) k = []) as Hnil.
    { intros q k. revert q. induction k as [|x k IHk]; intros q Hk Hq; [done|]. apply numbered_cons in Hk as [Hx Hk].
      cbn [List.filter]. rewrite (proj2 (Z.ltb_ge _ _)) by lia. apply (IHk (q + 1)); [done|lia]. }
    apply (Hnil (p + 1)); [done|lia].
Qed.

(** Appending past the end. *)
Lemma append_new l es :
  contiguous l -> numbered (Z.of_nat (length l)) es -> foldl append_one l es = l ++ es.
Proof.
  revert l. induction es as [|e es IH]; intros l Hl Hes; [by rewrite app_nil_r|].
  apply numbered_cons in Hes as [He Hes]. cbn [foldl].
  assert (append_one l e = l ++ [e]) as ->.
  { unfold append_one. rewrite term_at_contiguous by (done || lia). rewrite lookup_ge_None_2 by lia. done. }
  rewrite IH; [by rewrite <-(assoc_L (++))| |].
  - apply numbered_app. split; [done|]. apply numbered_cons. split; [lia|]. intros j x Hj. by rewrite lookup_nil in Hj.
  - rewrite length_app. cbn [length]. by replace (Z.of_nat (length l + 1)) with (Z.of_nat (length l) + 1) by lia.
Qed.

(** How many of the sent entries the log already has, by index and term. *)
Fixpoint matched (l : list RaftLogEntry) (es : list RaftLogEntry) : nat :=
  match es with
  | [] => 0
  | e :: es => if decide (term_at_log l (index e) = Some (term e)) then S (matched l es) else 0
  end.

(** The log after the Raft rule: keep it when all entries match, otherwise cut
    at the first mismatch and append the rest. *)
Definition merged (l : list RaftLogEntry) (p : nat) (es : list RaftLogEntry) : list RaftLogEntry :=
  let n := matched l es in
  if decide (n = length es) then l else take (p + n) l ++ drop n es.

Lemma append_merged l p es :
  contiguous l -> numbered (Z.of_nat p) es -> (p <= length l)%nat -> foldl append_one l es = merged l p es.
Proof.
  revert p. induction es as [|e es IH]; intros p Hl Hes Hp; [done|].
  pose proof Hes as Hes'. apply numbered_cons in Hes as [He Hes]. unfold merged. cbn [foldl matched].
  assert (term_at_log l (index e) = term <$> l !! p) as Ht.
  { rewrite term_at_contiguous by (done || lia). do 2 f_equal. lia. }
  destruct (decide (term_at_log l (index e) = Some (term e))) as [Em|Em].
  - assert (append_one l e = l) as ->. { unfold append_one. rewrite Em, Z.eqb_refl. done. }
    rewrite (IH (S p)); [|done|by replace (Z.of_nat (S p)) with (Z.of_nat p + 1) by lia|].
    + unfold merged. cbn [length]. destruct (decide (matched l es = length es)).
      * by rewrite decide_True by lia.
      * rewrite decide_False by lia. cbn [drop]. by replace (S p + matched l es)%nat with (p + S (matched l es))%nat by lia.
    + rewrite Ht in Em. destruct (l !! p) as [x|] eqn:E; [|done]. apply lookup_lt_Some in E. lia.
  - rewrite decide_False by (cbn; lia). rewrite Nat.add_0_r. cbn [drop].
    assert (append_one l e = take p l ++ [e]) as ->.
    { unfold append_one. rewrite Ht in *. destruct (l !! p) as [x|] eqn:E; cbn.
      - rewrite (proj2 (Z.eqb_neq _ _)) by (intros Ex; apply Em; cbn; by rewrite Ex).
        rewrite (truncate_contiguous 0) by (done || lia). do 2 f_equal. lia.
      - apply lookup_ge_None in E. by rewrite take_ge. }
    rewrite append_new.
    + rewrite <-(assoc_L (++)). by cbn [app].
    + apply numbered_app. split; [by apply numbered_take|]. rewrite length_take_le by done.
      apply numbered_cons. split; [lia|]. intros j x Hj. by rewrite lookup_nil in Hj.
    + rewrite length_app, length_take_le by done. cbn [length].
      by replace (Z.of_nat (p + 1)) with (Z.of_nat p + 1) by lia.
Qed.

Lemma matched_length l es : (matched l es <= length es)%nat.
Proof. induction es as [|e es IH]; cbn; [lia|]. case_decide; lia. Qed.
Lemma matched_lookup l es j e :
  (j < matched l es)%nat -> es !! j = Some e -> term_at_log l (index e) = Some (term e).
Proof.
  revert j. induction es as [|x es IH]; intros j Hj He; [done|]. cbn [matched] in Hj. case_decide as Hd; [|lia].
  destruct j as [|j]; cbn in He; [by simplify_eq|]. apply (IH j); [lia|done].
Qed.
(** The matched entries lie inside the log. *)
Lemma matched_bound l p es :
  contiguous l -> numbered (Z.of_nat p) es -> (p <= length l)%nat -> (p + matched l es <= length l)%nat.
Proof.
  revert p. induction es as [|e es IH]; intros p Hl Hes Hp; cbn; [lia|].
  apply numbered_cons in Hes as [He Hes]. case_decide as Hd; [|lia].
  rewrite term_at_contiguous in Hd by (done || lia).
  destruct (l !! Z.to_nat (index e - 1)) as [x|] eqn:E; [|done]. apply lookup_lt_Some in E.
  specialize (IH (S p) Hl). replace (Z.of_nat (S p)) with (Z.of_nat p + 1) in IH by lia. specialize (IH Hes). lia.
Qed.

Lemma merged_contiguous l p es :
  contiguous l -> numbered (Z.of_nat p) es -> (p <= length l)%nat -> contiguous (merged l p es).
Proof.
  intros Hl Hes Hp. unfold merged. case_decide; [done|]. pose proof (matched_bound l p es Hl Hes Hp).
  apply numbered_app. split; [by apply numbered_take|]. rewrite length_take_le by lia.
  rewrite <-(take_drop (matched l es) es) in Hes. apply numbered_app in Hes as [_ Hes].
  rewrite length_take_le in Hes by apply matched_length.
  by replace (0 + Z.of_nat (p + matched l es)) with (Z.of_nat p + Z.of_nat (matched l es)) by lia.
Qed.

(** Every sent entry is in the merged log at its index, by term. *)
Lemma merged_has l p es j e :
  contiguous l -> numbered (Z.of_nat p) es -> (p <= length l)%nat -> es !! j = Some e ->
  term_at_log (merged l p es) (index e) = Some (term e).
Proof.
  intros Hl Hes Hp He. pose proof (Hes j e He) as Hi. pose proof (matched_length l es).
  pose proof (lookup_lt_Some _ _ _ He). pose proof (matched_bound l p es Hl Hes Hp).
  rewrite term_at_contiguous by (by apply merged_contiguous || lia).
  destruct (decide (j < matched l es)%nat) as [Hj|Hj].
  - pose proof (matched_lookup l es j e Hj He) as Ht. rewrite term_at_contiguous in Ht by (done || lia).
    unfold merged. case_decide; [done|]. rewrite lookup_app_l by (rewrite length_take; lia).
    by rewrite lookup_take_lt by lia.
  - unfold merged. rewrite decide_False by lia. rewrite lookup_app_r by (rewrite length_take; lia).
    rewrite length_take_le by lia. rewrite lookup_drop.
    replace (matched l es + (Z.to_nat (index e - 1) - (p + matched l es)))%nat with j by lia. by rewrite He.
Qed.

Lemma local_set r s : local_state (set_local r s) = s.
Proof. unfold local_state, set_local. cbn. by rewrite lookup_insert_eq. Qed.

Lemma term_at_bound s p t : contiguous (log s) -> 0 <= p -> term_at s p = Some t -> p <= Z.of_nat (length (log s)).
Proof.
  intros Hl Hp Ht. destruct (decide (p = 0)) as [->|]; [lia|]. unfold term_at in Ht.
  rewrite term_at_contiguous in Ht by (done || lia).
  destruct (log s !! Z.to_nat (p - 1)) as [x|] eqn:E; [|done]. apply lookup_lt_Some in E. lia.
Qed.

(** C4: AppendEntries follows Raft's rule: for a contiguous log and entries
    numbered from [prev + 1], the request succeeds iff its term is not stale and
    the log matches at [prev]; on failure the log and commit index are kept; on
    success the log is cut at the first mismatching entry, if any, and extended
    with the rest, so every sent entry is then in the log, everything up to
    [prev] is kept, and the log stays contiguous; the commit index stays within
    the log and does not move back when the log still covers it. *)
Theorem raft_append_entries_spec (r : ManualRaftReplicator) (t : Z) (leader : Uuid) (prev prev_term : Z)
    (es : list RaftLogEntry) (leader_commit : Z) :
  contiguous (log (local_state r)) -> 0 <= prev -> numbered prev es ->
  exists res, (append_entries r t leader prev prev_term es leader_commit).2 = Ok res /\
  let s := local_state r in
  let s' := local_state (append_entries r t leader prev prev_term es leader_commit).1 in
  (ar_success res = true <-> current_term s <= t /\ term_at s prev = Some prev_term) /\
  (ar_success res = false -> log s' = log s /\ commit_index s' = commit_index s) /\
  (ar_success res = true ->
     log s' = merged (log s) (Z.to_nat prev) es /\
     (forall e, e ∈ es -> term_at s' (index e) = Some (term e)) /\
     take (Z.to_nat prev) (log s') = take (Z.to_nat prev) (log s) /\
     (commit_index s <= last_log_index s' -> commit_index s <= commit_index s' <= last_log_index s')) /\
  contiguous (log s').
Proof.
  intros Hl Hp Hes. unfold append_entries.
  destruct (node_append_entries (local_state r) t leader prev prev_term es leader_commit) as [s' res] eqn:E.
  exists res. split; [done|]. cbn [fst]. rewrite local_set. set (s := local_state r) in *.
  unfold node_append_entries in E. destruct (Z.ltb_spec t (current_term s)) as [Ht|Ht].
  { simplify_eq. cbn [ar_success]. split_and!; [split; [done|lia]|done|done|done]. }
  assert (forall x, term_at (mkNode (current_term (adopt_term s t)) (voted_for (adopt_term s t)) (log (adopt_term s t))
    (commit_index (adopt_term s t)) (last_applied (adopt_term s t)) (Some leader)) x = term_at s x) as Hta.
  { intros x. unfold term_at, adopt_term. by destruct (current_term s <? t). }
  assert (log (adopt_term s t) = log s /\ commit_index (adopt_term s t) = commit_index s) as [El Ec].
  { unfold adopt_term. by destruct (current_term s <? t). }
  rewrite Hta, El, Ec in E. destruct (bool_decide_reflect (term_at s prev = Some prev_term)) as [Hm|Hm]; cbn [negb] in E.
  2:{ simplify_eq. cbn [ar_success log commit_index]. split_and!; [split; [done|tauto]|done|done|done]. }
  cbn [log commit_index current_term voted_for leader_id last_applied] in E.
  pose proof (term_at_bound s prev prev_term Hl Hp Hm) as Hb.
  assert (numbered (Z.of_nat (Z.to_nat prev)) es) as Hes' by (by rewrite Z2Nat.id by lia).
  rewrite (append_merged (log s) (Z.to_nat prev)) in E by (done || lia).
  assert (log s' = merged (log s) (Z.to_nat prev) es /\ ar_success res = true /\
    commit_index s' = if commit_index s <? leader_commit then Z.min leader_commit (last_log_index s') else commit_index s)
    as (Elog & Es & Ecm).
  { destruct (commit_index s <? leader_commit) eqn:Elc; simplify_eq; cbn in *; done. }
  rewrite Es. split_and!; [done|done| |].
  - intros _. rewrite Elog. split_and!; [done| | |].
    + intros e [j He]%list_elem_of_lookup. unfold term_at. rewrite Elog. apply (merged_has _ _ es j); (done || lia).
    + unfold merged. case_decide; [done|]. pose proof (matched_bound (log s) (Z.to_nat prev) es Hl Hes' ltac:(lia)).
      rewrite take_app_le by (rewrite length_take; lia). rewrite take_take. f_equal. lia.
    + intros Hle. rewrite Ecm. destruct (Z.ltb_spec (commit_index s) leader_commit); lia.
  - rewrite Elog. apply merged_contiguous; (done || lia).
Qed.

Definition stale_log : list RaftLogEntry :=
  [RaftLogEntry_new 1 1 7 (TombstoneGC 1); RaftLogEntry_new 1 2 7 (TombstoneGC 2); RaftLogEntry_new 1 3 7 (TombstoneGC 3)].
Definition follower : ManualRaftReplicator :=
  mkManual 9 {[9 := mkNode 1 None stale_log 1 0 (Some 7)]}.

Lemma stale_log_numbered : contiguous stale_log.
Proof. unfold stale_log. rewrite !numbered_cons. by split_and!. Qed.

Lemma raft_append_entries_spec_witness :
  exists res, (append_entries follower 2 8 1 1 [RaftLogEntry_new 2 2 8 (TombstoneGC 4)] 1).2 = Ok res.
Proof.
  destruct (raft_append_entries_spec follower 2 8 1 1 [RaftLogEntry_new 2 2 8 (TombstoneGC 4)] 1) as (res & H & _).
  - apply stale_log_numbered.
  - lia.
  - apply numbered_cons. split; [done|]. intros j e Hj. by rewrite lookup_nil in Hj.
  - by exists res.
Defined.

(** The commit index can run past what the leader has confirmed: a
    heartbeat that matches at index 1 and carries [leader_commit = 3] makes a
    follower commit its stale entries 2 and 3, and the leader's own entry 2 then
    replaces them below the commit index. *)
Theorem raft_commit_unconfirmed :
  let r1 := (append_entries follower 2 8 1 1 [] 3).1 in
  let r2 := (append_entries r1 2 8 1 1 [RaftLogEntry_new 2 2 8 (TombstoneGC 4)] 3).1 in
  raft_commit_index r1 = 3 /\ term_at (local_state r1) 2 = Some 1 /\
  term_at (local_state r2) 2 = Some 2 /\ raft_last_log_index r2 = 2 /\ raft_commit_index r2 = 3.
Proof. vm_compute. split_and!; reflexivity. Qed.

(** ** UTD vectors *)

Lemma foldr_max_spec (es : list RaftLogEntry) :
  let h := foldr (fun e m => Z.max (index e) m) 0 es in
  0 <= h /\ (forall e, e ∈ es -> index e <= h) /\ (h = 0 \/ exists e, e ∈ es /\ index e = h).
Proof.
  induction es as [|x es (H0 & H1 & H2)]; cbn.
  { split_and!; [lia|by intros e ?%not_elem_of_nil|by left]. }
  split_and!; [lia| |].
  - intros e [->|He]%elem_of_cons; [lia|]. specialize (H1 e He). lia.
  - destruct (Z.max_spec (index x) (foldr (fun e m => Z.max (index e) m) 0 es)) as [[_ ->]|[_ ->]].
    + destruct H2 as [|(e & He & E)]; [by left|right]. exists e. split; [|done]. apply elem_of_cons. by right.
    + right. exists x. split; [|done]. apply elem_of_cons. by left.
Qed.

Lemma by_leader_lookup l i :
  by_leader l !! i =
    match List.filter (fun e => entry_origin e =? i) l with
    | [] => None
    | es => Some (foldr (fun e m => Z.max (index e) m) 0 es)
    end.
Proof.
  unfold by_leader. induction l as [|e l IH] using rev_ind; [apply lookup_empty|].
  rewrite foldl_snoc. set (m := foldl _ ∅ l) in *. rewrite List.filter_app. cbn [List.filter].
  destruct (Z.eqb_spec (entry_origin e) i) as [->|Hne].
  - rewrite lookup_insert_eq, IH. destruct (List.filter _ l) as [|x es]; cbn [app].
    + cbn. f_equal. destruct (Z.ltb_spec 0 (index e)); lia.
    + rewrite app_comm_cons, foldr_app. cbn [default from_option id foldr]. f_equal.
      assert (forall k a, foldr (fun e m => Z.max (index e) m) a k = Z.max (foldr (fun e m => Z.max (index e) m) 0 k) (Z.max a 0) \/ a < 0) as Hfold.
      { intros k a. induction k as [|y k IHk]; cbn; lia. }
      destruct (Hfold es (Z.max (index e) 0)) as [->|]; [|lia].
      pose proof (proj1 (foldr_max_spec es)).
      destruct (Z.ltb_spec (Z.max (index x) (foldr (fun e m => Z.max (index e) m) 0 es)) (index e)); lia.
  - rewrite lookup_insert_ne by done. rewrite app_nil_r. apply IH.
Qed.


Lemma synth_elem l dc i h : mkUtdEntry i h ∈ utd_entries (synthesize_utd_vector l dc) <-> by_leader l !! i = Some h.
Proof.
  unfold synthesize_utd_vector. cbn [utd_entries]. rewrite merge_sort_Permutation, list_elem_of_fmap. split.
  - intros ([i' h'] & [= -> ->] & H). by apply elem_of_map_to_list in H.
  - intros H. exists (i, h). split; [done|]. by apply elem_of_map_to_list.
Qed.

Lemma synth_sorted l dc :
  StronglySorted (fun a b => invocation_id a < invocation_id b) (utd_entries (synthesize_utd_vector l dc)).
Proof.
  assert (StronglySorted utd_le (utd_entries (synthesize_utd_vector l dc))) as Hs
    by (apply StronglySorted_merge_sort; apply _).
  assert (NoDup (invocation_id <$> utd_entries (synthesize_utd_vector l dc))) as Hn.
  { unfold synthesize_utd_vector. cbn [utd_entries]. rewrite merge_sort_Permutation, <-list_fmap_compose.
    rewrite (list_fmap_ext _ fst) by done. apply NoDup_fst_map_to_list. }
  induction Hs as [|x k Hs IH Hf]; [constructor|]. cbn in Hn. apply NoDup_cons in Hn as [Hx Hn].
  constructor; [by apply IH|]. rewrite Forall_forall in *. intros y Hy. specialize (Hf y Hy). unfold utd_le in Hf.
  assert (invocation_id x <> invocation_id y); [|lia]. intros E. apply Hx. rewrite E. by apply list_elem_of_fmap_2.
Qed.

(** UTD synthesis summarises the log exactly: the vector has one entry per
    leader that authored an entry, in increasing order of invocation id, and
    its [highest_usn] is the highest index that leader authored (zero if
    none is positive). *)
Theorem utd_vector_exact (l : list RaftLogEntry) (dc : Uuid) :
  StronglySorted (fun a b => invocation_id a < invocation_id b) (utd_entries (synthesize_utd_vector l dc)) /\
  (forall i h, mkUtdEntry i h ∈ utd_entries (synthesize_utd_vector l dc) <->
     (exists e, e ∈ l /\ entry_origin e = i) /\ 0 <= h /\
     (forall e, e ∈ l -> entry_origin e = i -> index e <= h) /\
     (h = 0 \/ exists e, e ∈ l /\ entry_origin e = i /\ index e = h)).
Proof.
  split; [apply synth_sorted|]. intros i h. rewrite synth_elem.
  assert (forall e, e ∈ List.filter (fun e => entry_origin e =? i) l <-> e ∈ l /\ entry_origin e = i) as Hin.
  { intros e. by rewrite !list_elem_of_In, filter_In, Z.eqb_eq. }
  pose proof (foldr_max_spec (List.filter (fun e => entry_origin e =? i) l)) as (H0 & H1 & H2).
  setoid_rewrite Hin in H1. setoid_rewrite Hin in H2. revert Hin H0 H1 H2.
  set (es := List.filter _ l). set (m := foldr _ 0 es). intros Hin H0 H1 H2.
  assert (by_leader l !! i = Some h <-> es <> [] /\ m = h) as ->.
  { rewrite by_leader_lookup. fold es. subst m. clear Hin H0 H1 H2.
    destruct es; split; [done|by intros [? _]|intros E%(inj Some); by split|by intros [_ <-]]. }
  split.
  - intros [Hne <-]. split_and!; [|done|naive_solver|naive_solver].
    destruct es as [|e es']; [done|]. exists e. apply Hin. by left.
  - intros (Hex & Hh & Hle & Hat). split.
    + intros E. destruct Hex as (e & He). apply Hin in He. rewrite E in He. by apply not_elem_of_nil in He.
    + destruct H2 as [Em|(e & [He1 He2] & Em)], Hat as [->|(e' & Ha1 & Ha2 & Ha3)]; [done| | |].
      * pose proof (H1 e' (conj Ha1 Ha2)). fold m in H. lia.
      * pose proof (Hle e He1 He2). fold m in Em. lia.
      * pose proof (H1 e' (conj Ha1 Ha2)). pose proof (Hle e He1 He2). fold m in H, Em. lia.
Qed.

Lemma cursor_high_sorted l i h :
  StronglySorted (fun a b => invocation_id a < invocation_id b) l -> mkUtdEntry i h ∈ l ->
  cursor_high (mkUtd l) i = h.
Proof.
  unfold cursor_high. cbn [utd_entries]. induction 1 as [|x l Hs IH Hf]; [by intros ?%not_elem_of_nil|].
  intros [<-|Hin]%elem_of_cons; cbn [List.filter].
  - cbn [invocation_id]. by rewrite Z.eqb_refl.
  - rewrite Forall_forall in Hf. specialize (Hf _ Hin). cbn in Hf. rewrite (proj2 (Z.eqb_neq _ _)) by lia. by apply IH.
Qed.

Lemma cursor_covers l dc e : e ∈ l -> index e <= cursor_high (synthesize_utd_vector l dc) (entry_origin e).
Proof.
  intros He. pose proof (by_leader_lookup l (entry_origin e)) as Hb.
  assert (e ∈ List.filter (fun x => entry_origin x =? entry_origin e) l) as Hin.
  { apply list_elem_of_In, filter_In. rewrite Z.eqb_eq. by rewrite <-list_elem_of_In. }
  pose proof (foldr_max_spec (List.filter (fun x => entry_origin x =? entry_origin e) l)) as (_ & H1 & _).
  specialize (H1 e Hin). destruct (List.filter _ l) as [|x es]; [by apply not_elem_of_nil in Hin|].
  apply (synth_elem l dc) in Hb. pose proof (synth_sorted l dc) as Hs.
  destruct (synthesize_utd_vector l dc) as [us]. cbn [utd_entries] in *.
  by rewrite (cursor_high_sorted us _ _ Hs Hb).
Qed.

(** ** Replication of a log *)

Lemma filter_none {A : Type} (f : A -> bool) (l : list A) : (forall x, x ∈ l -> f x = false) -> List.filter f l = [].
Proof.
  induction l as [|x l IH]; intros H; [done|]. cbn. rewrite (H x) by (by left). apply IH. intros y Hy. apply H. by right.
Qed.
Lemma filter_every {A : Type} (f : A -> bool) (l : list A) : (forall x, x ∈ l -> f x = true) -> List.filter f l = l.
Proof.
  induction l as [|x l IH]; intros H; [done|]. cbn. rewrite (H x) by (by left). f_equal. apply IH. intros y Hy. apply H. by right.
Qed.

(** The entries [apply_changes] appends. *)
Definition applied (t start : Z) (origin : InvocationId) (ops : list ReplOperation) : list RaftLogEntry :=
  imap (fun j op => RaftLogEntry_new t (start + Z.of_nat j) origin op) ops.

Lemma apply_ops_eq l t start off origin ops :
  start + off + Z.of_nat (length ops) <= 2 ^ 64 ->
  apply_ops l t start off origin ops = (l ++ applied t (start + off) origin ops, Ok tt).
Proof.
  revert l off. induction ops as [|op ops IH]; intros l off Hb; [by rewrite app_nil_r|].
  cbn [apply_ops length] in *. unfold u64_add. rewrite (proj2 (Z.ltb_lt _ _)) by lia.
  rewrite IH by lia. f_equal. unfold applied. rewrite imap_cons, <-(assoc_L (++)). cbn [app]. rewrite Z.add_0_r.
  do 2 f_equal. apply imap_ext. intros j x _. cbn. f_equal; lia.
Qed.

Lemma applied_numbered t start origin ops : numbered (start - 1) (applied t start origin ops).
Proof.
  intros j e. unfold applied. rewrite list_lookup_imap, fmap_Some. intros (op & _ & ->). cbn. lia.
Qed.
Lemma applied_payload t start origin ops : payload <$> applied t start origin ops = ops.
Proof.
  unfold applied. rewrite fmap_imap. revert start. induction ops as [|op ops IH]; intros start; [done|].
  rewrite imap_cons. cbn [compose]. f_equal. rewrite <-(IH (start + 1)) at 2. apply imap_ext. intros j x _. done.
Qed.
Lemma contiguous_last s : contiguous (log s) -> last_log_index s = Z.of_nat (length (log s)).
Proof.
  intros H. unfold last_log_index. destruct (last (log s)) as [e|] eqn:E.
  - rewrite last_lookup in E. rewrite (H _ _ E). apply lookup_lt_Some in E. lia.
  - apply last_None in E. by rewrite E.
Qed.

(** Catching up: a node's own UTD vector asks for nothing; an empty cursor
    gets the whole log of a node with a contiguous log; and a fresh replica that
    applies that batch has the same operations in the same order, in a
    contiguous log that is committed to its end. *)
Theorem raft_catch_up (a b : RaftDirectoryReplicator) (nc : NcHead) :
  contiguous (log_snapshot (raft a)) -> local_state (raft b) = RaftNodeState_new ->
  Z.of_nat (length (log_snapshot (raft a))) < 2 ^ 64 ->
  (exists p, get_changes a nc (synthesize_utd_vector (log_snapshot (raft a)) (dir_invocation_id a)) = Ok p /\
     operations p = []) /\
  exists batch, get_changes a nc (mkUtd []) = Ok batch /\
    operations batch = payload <$> log_snapshot (raft a) /\
    let b' := (apply_changes b batch).1 in
    (apply_changes b batch).2 = Ok (replicate (length (log_snapshot (raft a))) IncomingWins) /\
    payload <$> log_snapshot (raft b') = payload <$> log_snapshot (raft a) /\
    contiguous (log_snapshot (raft b')) /\
    raft_commit_index (raft b') = Z.of_nat (length (log_snapshot (raft a))).
Proof.
  intros Ha Hb Hn. set (l := log_snapshot (raft a)) in *. split.
  { eexists. split; [done|]. cbn [operations]. fold l.
    assert (List.filter (fun e => cursor_high (synthesize_utd_vector l (dir_invocation_id a)) (entry_origin e) <? index e) l = [])
      as ->; [|done].
    apply filter_none. intros e He. apply Z.ltb_ge. by apply cursor_covers. }
  eexists. split; [done|]. cbn [operations]. fold l.
  assert (List.filter (fun e => cursor_high (mkUtd []) (entry_origin e) <? index e) l = l) as ->.
  { apply filter_every. intros e [j He]%list_elem_of_lookup. apply Z.ltb_lt. cbn. rewrite (Ha j e He). lia. }
  split; [done|]. unfold apply_changes. rewrite Hb.
  change (u64_add (last_log_index RaftNodeState_new) 1) with (@Ok ReplicationError Z 1).
  cbn [operations payload_origin log RaftNodeState_new].
  rewrite apply_ops_eq by (rewrite length_fmap; lia). cbn [app fst snd].
  set (l' := applied _ _ _ _).
  assert (forall s, log_snapshot (raft (with_raft b s)) = log s /\ raft_commit_index (raft (with_raft b s)) = commit_index s) as Hset.
  { intros s. unfold log_snapshot, raft_commit_index, with_raft, set_local. cbn. by rewrite lookup_insert_eq. }
  destruct (Hset (mkNode 0 None l' (last_log_index (with_log RaftNodeState_new l')) 0 None)) as [H1 H2].
  cbn [current_term voted_for last_applied leader_id log with_log RaftNodeState_new] in *.
  assert (contiguous l') as Hc by (apply applied_numbered).
  rewrite H1, H2. cbn [log commit_index]. split_and!.
  - by rewrite length_fmap.
  - apply applied_payload.
  - exact Hc.
  - rewrite contiguous_last by done. cbn [log with_log]. unfold l', applied. by rewrite length_imap, length_fmap.
Qed.

Definition sample_dir : RaftDirectoryReplicator := mkDirRaft 9 (lit "c") follower.

Lemma raft_catch_up_witness :
  exists p, get_changes sample_dir 1 (synthesize_utd_vector stale_log 9) = Ok p /\ operations p = [].
Proof.
  apply (raft_catch_up sample_dir (RaftDirectoryReplicator_new 5 (lit "c")) 1).
  - apply stale_log_numbered.
  - reflexivity.
  - vm_compute. reflexivity.
Defined.

(** Re-synchronising is not idempotent: a replica stores a partner's
    entries under the partner's id, so an entry the partner got from another
    leader is not covered by the replica's cursor and is applied again. *)
Theorem raft_resend_duplicates :
  let a := mkDirRaft 9 (lit "c") (mkManual 9 {[9 := mkNode 1 None [RaftLogEntry_new 1 1 7 (TombstoneGC 1)] 1 0 None]}) in
  let b := RaftDirectoryReplicator_new 5 (lit "c") in
  let sync b := match get_changes a 1 (synthesize_utd_vector (log_snapshot (raft b)) 5) with
                | Ok p => (apply_changes b p).1 | _ => b end in
  log_snapshot (raft (sync b)) = [RaftLogEntry_new 1 1 9 (TombstoneGC 1)] /\
  log_snapshot (raft (sync (sync b))) = [RaftLogEntry_new 1 1 9 (TombstoneGC 1); RaftLogEntry_new 1 2 9 (TombstoneGC 1)].
Proof. vm_compute. split; reflexivity. Qed.
