(* ===== verification/Ber.v ===== *)
(** * Ber: the BER codec of LDAP (crate [adrian-directory-service], [ber.rs])

    Tag-length-value encoding and decoding, the primitive types, and the loop
    that reads TLVs until the input is used up, which every constructed type of
    the protocol shares.  An encoder that appends to [out] returns the bytes it
    appends.  [usize] is 64 bits wide. *)
From S2P Require Import Prelude Bytes Text.

Definition CLASS_UNIVERSAL : Z := 0x00.
Definition CLASS_APPLICATION : Z := 0x40.
Definition CLASS_CONTEXT : Z := 0x80.
Definition CLASS_PRIVATE : Z := 0xC0.
Definition CONSTRUCTED : Z := 0x20.

Definition TAG_BOOLEAN : Z := 0x01.
Definition TAG_INTEGER : Z := 0x02.
Definition TAG_OCTET_STRING : Z := 0x04.
Definition TAG_NULL : Z := 0x05.
Definition TAG_OID : Z := 0x06.
Definition TAG_ENUMERATED : Z := 0x0A.
Definition TAG_SEQUENCE : Z := Z.lor 0x10 CONSTRUCTED.
Definition TAG_SET : Z := Z.lor 0x11 CONSTRUCTED.

Definition APP_BIND_REQUEST : Z := Z.lor CLASS_APPLICATION CONSTRUCTED.
Definition APP_BIND_RESPONSE : Z := Z.lor (Z.lor CLASS_APPLICATION CONSTRUCTED) 1.
Definition APP_UNBIND_REQUEST : Z := Z.lor CLASS_APPLICATION 2.
Definition APP_SEARCH_REQUEST : Z := Z.lor (Z.lor CLASS_APPLICATION CONSTRUCTED) 3.
Definition APP_SEARCH_RESULT_ENTRY : Z := Z.lor (Z.lor CLASS_APPLICATION CONSTRUCTED) 4.
Definition APP_SEARCH_RESULT_DONE : Z := Z.lor (Z.lor CLASS_APPLICATION CONSTRUCTED) 5.
Definition APP_MODIFY_REQUEST : Z := Z.lor (Z.lor CLASS_APPLICATION CONSTRUCTED) 6.
Definition APP_MODIFY_RESPONSE : Z := Z.lor (Z.lor CLASS_APPLICATION CONSTRUCTED) 7.
Definition APP_ADD_REQUEST : Z := Z.lor (Z.lor CLASS_APPLICATION CONSTRUCTED) 8.
Definition APP_ADD_RESPONSE : Z := Z.lor (Z.lor CLASS_APPLICATION CONSTRUCTED) 9.
Definition APP_DEL_REQUEST : Z := Z.lor CLASS_APPLICATION 10.
Definition APP_DEL_RESPONSE : Z := Z.lor (Z.lor CLASS_APPLICATION CONSTRUCTED) 11.

Definition FILTER_AND : Z := Z.lor CLASS_CONTEXT CONSTRUCTED.
Definition FILTER_OR : Z := Z.lor (Z.lor CLASS_CONTEXT CONSTRUCTED) 1.
Definition FILTER_NOT : Z := Z.lor (Z.lor CLASS_CONTEXT CONSTRUCTED) 2.
Definition FILTER_EQUALITY : Z := Z.lor (Z.lor CLASS_CONTEXT CONSTRUCTED) 3.
Definition FILTER_SUBSTRINGS : Z := Z.lor (Z.lor CLASS_CONTEXT CONSTRUCTED) 4.
Definition FILTER_GE : Z := Z.lor (Z.lor CLASS_CONTEXT CONSTRUCTED) 5.
Definition FILTER_LE : Z := Z.lor (Z.lor CLASS_CONTEXT CONSTRUCTED) 6.
Definition FILTER_PRESENT : Z := Z.lor CLASS_CONTEXT 7.
Definition FILTER_APPROX : Z := Z.lor (Z.lor CLASS_CONTEXT CONSTRUCTED) 8.

Definition AUTH_SIMPLE : Z := CLASS_CONTEXT.
Definition AUTH_SASL : Z := Z.lor (Z.lor CLASS_CONTEXT CONSTRUCTED) 3.
Definition SUBSTRING_INITIAL : Z := CLASS_CONTEXT.
Definition SUBSTRING_ANY : Z := Z.lor CLASS_CONTEXT 1.
Definition SUBSTRING_FINAL : Z := Z.lor CLASS_CONTEXT 2.
Definition CONTROLS_TAG : Z := Z.lor CLASS_CONTEXT CONSTRUCTED.

Record Tlv := mkTlv { tlv_tag : Z; tlv_value : bytes }.

Definition is_constructed (t : Tlv) : bool := negb (Z.land (tlv_tag t) CONSTRUCTED =? 0).
Definition tlv_class (t : Tlv) : Z := Z.land (tlv_tag t) 0xC0.
Definition tlv_number (t : Tlv) : Z := Z.land (tlv_tag t) 0x1F.

(** The texts of [BerError], as constructors with the values they print. *)
Inductive TruncatedWhat :=
| MissingLengthByte | TruncatedLongFormLength | ValueShorterThanDeclared | MissingAssertionValue.
Inductive LengthProblem := IndefiniteLength | LengthTooLarge (num_bytes : Z).
Inductive IntegerProblem := BooleanNotOneByte (got : nat) | EmptyInteger | IntegerTooLarge (got : nat).

Inductive BerError :=
| BerEmpty
| BerTruncated (what : TruncatedWhat)
| BerInvalidLength (what : LengthProblem)
| BerUnexpectedTag (expected actual : Z)
| BerInvalidInteger (what : IntegerProblem)
| BerInvalidUtf8
| BerTrailingData (len : nat)
| BerUnknownProtocolOp (tag : Z)
| BerUnknownFilter (tag : Z)
| BerLongFormTag (tag : Z)
| BerOutOfRange (unknown_modify_op : Z).

#[global] Instance TruncatedWhat_eq_dec : EqDecision TruncatedWhat.
Proof. solve_decision. Defined.
#[global] Instance LengthProblem_eq_dec : EqDecision LengthProblem.
Proof. solve_decision. Defined.
#[global] Instance IntegerProblem_eq_dec : EqDecision IntegerProblem.
Proof. solve_decision. Defined.
#[global] Instance BerError_eq_dec : EqDecision BerError.
Proof. solve_decision. Defined.

(** ** Lengths and TLVs *)

(** [while n > 0 { bytes.insert(0, n & 0xFF); n >>= 8 }]; a [usize] is used up
    after eight rounds. *)
Fixpoint length_bytes (rounds : nat) (n : Z) (acc : bytes) : bytes :=
  match rounds with
  | O => acc
  | S rounds =>
      if n >? 0 then length_bytes rounds (Z.shiftr n 8) (z2b (Z.land n 0xFF) :: acc) else acc
  end.

Definition encode_length (len : nat) : bytes :=
  let len := Z.of_nat len in
  if len <? 0x80 then [z2b len]
  else
    let b := length_bytes 8 len [] in
    z2b (Z.lor 0x80 (as_u8 (Z.of_nat (length b)))) :: b.

Definition encode_tlv (tag : Z) (value : bytes) : bytes :=
  z2b tag :: encode_length (length value) ++ value.

(** The loop over the bytes of a long-form length. *)
Definition be_fold (l : bytes) : Z := foldl (fun len b => Z.lor (Z.shiftl len 8) (b2z b)) 0 l.

(** The length and the header length; [b] has at least two bytes. *)
Definition decode_header (b : bytes) (first_len : Z) : Result BerError (Z * nat) :=
  if first_len <? 0x80 then Ok (first_len, 2%nat)
  else
    let num_bytes := Z.land first_len 0x7F in
    if num_bytes =? 0 then Err (BerInvalidLength IndefiniteLength)
    else if num_bytes >? 4 then Err (BerInvalidLength (LengthTooLarge num_bytes))
    else if Z.of_nat (length b) <? 2 + num_bytes then Err (BerTruncated TruncatedLongFormLength)
    else Ok (be_fold (take (Z.to_nat num_bytes) (drop 2 b)), (2 + Z.to_nat num_bytes)%nat).

Definition decode_tlv (b : bytes) : Result BerError (Tlv * bytes) :=
  match b with
  | [] => Err BerEmpty
  | t :: b' =>
      let tag := b2z t in
      if Z.land tag 0x1F =? 0x1F then Err (BerLongFormTag tag)
      else match b' with
      | [] => Err (BerTruncated MissingLengthByte)
      | l :: _ =>
          let? lh := decode_header b (b2z l) in
          let '(len, header_len) := lh in
          if Z.of_nat (length b) <? Z.of_nat header_len + len
          then Err (BerTruncated ValueShorterThanDeclared)
          else
            let? value := slice b header_len (header_len + Z.to_nat len) in
            let? rest := slice b (header_len + Z.to_nat len) (length b) in
            Ok (mkTlv tag value, rest)
      end
  end.

Definition peek_tag (b : bytes) : Result BerError Z :=
  match b with [] => Err BerEmpty | t :: _ => Ok (b2z t) end.

(** ** Primitive types *)

Definition encode_bool (b : bool) : bytes := encode_tlv TAG_BOOLEAN [if b then xff else x00].

Definition decode_bool_value (value : bytes) : Result BerError bool :=
  match value with
  | [b] => Ok (negb (b2z b =? 0))
  | _ => Err (BerInvalidInteger (BooleanNotOneByte (length value)))
  end.

(** [while x != 0 && x != -1 { bytes.insert(0, x & 0xFF); x >>= 8 }]; an [i64]
    is used up after eight rounds. *)
Fixpoint int_loop (rounds : nat) (x : Z) (acc : bytes) : bytes :=
  match rounds with
  | O => acc
  | S rounds =>
      if negb (x =? 0) && negb (x =? -1)
      then int_loop rounds (Z.shiftr x 8) (z2b (Z.land x 0xFF) :: acc) else acc
  end.

Definition int_to_bytes (n : Z) : bytes :=
  if n =? 0 then [x00]
  else
    let b := int_loop 8 n [] in
    match b with
    | [] => [if 0 <=? n then x00 else xff]
    | b0 :: _ =>
        if (0 <=? n) && negb (Z.land (b2z b0) 0x80 =? 0) then x00 :: b
        else if (n <? 0) && (Z.land (b2z b0) 0x80 =? 0) then xff :: b
        else b
    end.

Definition encode_integer (n : Z) : bytes := encode_tlv TAG_INTEGER (int_to_bytes n).
Definition encode_enumerated (n : Z) : bytes := encode_tlv TAG_ENUMERATED (int_to_bytes n).

(** [n << 8] on [i64] drops the bits shifted out. *)
Definition decode_integer_value (value : bytes) : Result BerError Z :=
  match value with
  | [] => Err (BerInvalidInteger EmptyInteger)
  | b0 :: _ =>
      if (8 <? length value)%nat then Err (BerInvalidInteger (IntegerTooLarge (length value)))
      else
        let n := if negb (Z.land (b2z b0) 0x80 =? 0) then -1 else 0 in
        Ok (foldl (fun n b => Z.lor (as_i64 (Z.shiftl n 8)) (Z.land (b2z b) 0xFF)) n value)
  end.

Definition encode_octet_string (b : bytes) : bytes := encode_tlv TAG_OCTET_STRING b.
Definition encode_string (s : bytes) : bytes := encode_octet_string s.
Definition decode_string_value (value : bytes) : Result BerError bytes :=
  ok_or (from_utf8 value) BerInvalidUtf8.
Definition encode_null : bytes := encode_tlv TAG_NULL [].
Definition encode_sequence (elements : list bytes) : bytes := encode_tlv TAG_SEQUENCE (concat elements).
Definition encode_set (elements : list bytes) : bytes := encode_tlv TAG_SET (concat elements).

(** ** The decoding loop

    [while !rest.is_empty() { let (tlv, remaining) = decode_tlv(rest)?;
    out.push(f(tlv)?); rest = remaining }].  A TLV takes at least two bytes, so
    as many rounds as bytes are enough ([decode_tlvs_unfold]). *)
Fixpoint decode_tlvs_rounds {A} (f : Tlv -> Result BerError A) (rounds : nat) (rest : bytes)
    : Result BerError (list A) :=
  match rest, rounds with
  | [], _ => Ok []
  | _, O => Panic
  | _, S rounds =>
      let? tr := decode_tlv rest in
      let? x := f tr.1 in
      let? xs := decode_tlvs_rounds f rounds tr.2 in
      Ok (x :: xs)
  end.
Definition decode_tlvs {A} (f : Tlv -> Result BerError A) (b : bytes) : Result BerError (list A) :=
  decode_tlvs_rounds f (length b) b.

(** ** Lengths *)

Lemma lor_shiftl_byte n b : Z.lor (Z.shiftl n 8) (b2z b) = 256 * n + b2z b.
Proof.
  pose proof (b2z_range b). rewrite Z.shiftl_mul_pow2 by lia.
  assert (Z.land (n * 2 ^ 8) (b2z b) = 0) as H0; [|pose proof (Z.add_lor_land (n * 2 ^ 8) (b2z b)); lia].
  apply Z.bits_inj'. intros i Hi. rewrite Z.land_spec, Z.bits_0.
  destruct (Z.lt_ge_cases i 8).
  - by rewrite Z.mul_pow2_bits_low by lia.
  - rewrite (Z.bits_above_log2 (b2z b)), andb_false_r; [done|lia|].
    destruct (decide (b2z b = 0)) as [->|]; [simpl; lia|].
    apply Z.log2_lt_pow2; [lia|]. apply (Z.lt_le_trans _ (2 ^ 8)); [lia|].
    apply Z.pow_le_mono_r; lia.
Qed.

Lemma be_fold_of_be l : be_fold l = of_be l.
Proof.
  unfold be_fold. induction l as [|b l IH] using rev_ind; [done|].
  rewrite foldl_app, IH, of_be_snoc. cbn [foldl]. apply lor_shiftl_byte.
Qed.

Lemma land_ff z : Z.land z 0xFF = z mod 256.
Proof. change 0xFF with (Z.ones 8). by rewrite Z.land_ones by lia. Qed.
Lemma shiftr_8 z : Z.shiftr z 8 = z / 256.
Proof. by rewrite Z.shiftr_div_pow2 by lia. Qed.
Lemma z2b_land z : z2b (Z.land z 0xFF) = z2b z.
Proof. rewrite land_ff. apply (inj b2z). rewrite !b2z_z2b. by rewrite Z.mod_mod by lia. Qed.

(** The loop prepends the fewest bytes that hold [n]. *)
Lemma length_bytes_spec rounds n acc :
  0 <= n < 256 ^ Z.of_nat rounds ->
  exists l, length_bytes rounds n acc = l ++ acc /\ of_be l = n /\ (length l <= rounds)%nat
    /\ (forall k, 0 <= k -> n < 256 ^ k -> Z.of_nat (length l) <= k).
Proof.
  revert n acc. induction rounds as [|r IH]; intros n acc Hn.
  { exists []. cbn in Hn. assert (n = 0) as -> by lia. cbn [length app length_bytes]. repeat split; lia. }
  cbn [length_bytes]. rewrite Nat2Z.inj_succ, Z.pow_succ_r in Hn by lia.
  destruct (Z.gtb_spec n 0).
  - rewrite shiftr_8, z2b_land. destruct (IH (n / 256) (z2b n :: acc)) as (l & -> & Hl & Hr & Hmin).
    { split; [apply Z.div_pos; lia|apply Z.div_lt_upper_bound; lia]. }
    exists (l ++ [z2b n]). rewrite <-app_assoc, length_app. repeat split; [|cbn; lia|].
    + rewrite of_be_snoc, Hl, b2z_z2b. pose proof (Z.div_mod n 256). lia.
    + intros k Hk Hnk. destruct (decide (k = 0)) as [->|]; [cbn in Hnk; lia|].
      specialize (Hmin (k - 1)). replace k with (Z.succ (k - 1)) in Hnk by lia.
      rewrite Z.pow_succ_r in Hnk by lia. cbn [length].
      assert (n / 256 < 256 ^ (k - 1)) by (apply Z.div_lt_upper_bound; lia). lia.
  - exists []. assert (n = 0) as -> by lia. cbn [length app]. repeat split; lia.
Qed.

(** ** Decoding a TLV *)

(** Errors after which the caller may read more bytes and retry. *)
Definition incomplete (e : BerError) : bool :=
  match e with BerEmpty | BerTruncated _ => true | _ => false end.

(** Tags of the single-byte form. *)
Definition tag_ok (tag : Z) : Prop := is_u8 tag /\ Z.land tag 0x1F <> 0x1F.
#[global] Instance tag_ok_dec tag : Decision (tag_ok tag).
Proof. unfold tag_ok; apply _. Defined.

Lemma land_7f z : Z.land z 0x7F = z mod 128.
Proof. change 0x7F with (Z.ones 7). by rewrite Z.land_ones by lia. Qed.

Lemma decode_header_app b x l lh :
  decode_header b l = Ok lh -> (2 <= length b)%nat -> decode_header (b ++ x) l = Ok lh.
Proof.
  unfold decode_header. intros H Hb. case_match; [done|]. case_match; [done|].
  case_match; [done|]. destruct (Z.ltb_spec (Z.of_nat (length b)) (2 + Z.land l 127)); [done|].
  rewrite length_app, Nat2Z.inj_add. destruct (Z.ltb_spec (Z.of_nat (length b) + Z.of_nat (length x)) (2 + Z.land l 127)); [lia|].
  rewrite drop_app_le by lia. rewrite take_app_le; [done|]. rewrite length_drop. lia.
Qed.
Lemma decode_header_err_app b x l e :
  decode_header b l = Err e -> incomplete e = false -> decode_header (b ++ x) l = Err e.
Proof.
  unfold decode_header. intros H He. case_match; [done|]. case_match; [done|].
  case_match; [done|]. case_match; [|done]. by injection H as <-.
Qed.
Lemma decode_header_range b l len h :
  0 <= l < 256 -> decode_header b l = Ok (len, h) -> 0 <= len < 2 ^ 32 /\ (2 <= h <= 6)%nat.
Proof.
  unfold decode_header. intros Hl H. case_match; [injection H as <- <-; lia|].
  destruct (Z.eqb_spec (Z.land l 127) 0); [done|]. destruct (Z.gtb_spec (Z.land l 127) 4); [done|].
  case_match; [done|]. injection H as <- <-. rewrite land_7f in *.
  pose proof (Z.mod_pos_bound l 128). rewrite be_fold_of_be.
  pose proof (of_be_range (take (Z.to_nat (l mod 128)) (drop 2 b))) as Hr.
  split; [|lia]. split; [lia|]. apply (Z.lt_le_trans _ _ _ (proj2 Hr)).
  change (2 ^ 32) with (256 ^ 4). apply Z.pow_le_mono_r; [lia|]. rewrite length_take. lia.
Qed.

(** [decode_tlv] on at least two bytes, with the slices resolved. *)
Lemma decode_tlv_unfold t l b :
  decode_tlv (t :: l :: b) =
    if Z.land (b2z t) 0x1F =? 0x1F then Err (BerLongFormTag (b2z t)) else
    let? lh := decode_header (t :: l :: b) (b2z l) in
    if Z.of_nat (length (t :: l :: b)) <? Z.of_nat lh.2 + lh.1
    then Err (BerTruncated ValueShorterThanDeclared)
    else Ok (mkTlv (b2z t) (take (Z.to_nat lh.1) (drop lh.2 (t :: l :: b))),
             drop (lh.2 + Z.to_nat lh.1) (t :: l :: b)).
Proof.
  unfold decode_tlv. case_match; [done|].
  destruct (decode_header _ _) as [[len h]| |] eqn:Eh; [|done|done]. cbn [rbind fst snd].
  destruct (decode_header_range _ _ _ _ (b2z_range l) Eh) as [Hlen Hh].
  destruct (Z.ltb_spec (Z.of_nat (length (t :: l :: b))) (Z.of_nat h + len)); [done|].
  rewrite !slice_Ok by lia. cbn [rbind]. do 2 f_equal; [do 2 f_equal; lia|].
  rewrite take_ge; [done|]. rewrite length_drop. lia.
Qed.

Lemma decode_tlv_Ok_inv b t r :
  decode_tlv b = Ok (t, r) ->
  exists h, b = h ++ tlv_value t ++ r /\ (2 <= length h <= 6)%nat /\ tag_ok (tlv_tag t)
    /\ Z.of_nat (length (tlv_value t)) < 2 ^ 32.
Proof.
  destruct b as [|x [|l b]]; [done|simpl; by case_match|].
  rewrite decode_tlv_unfold. destruct (Z.eqb_spec (Z.land (b2z x) 0x1F) 0x1F) as [|Ht]; [done|].
  destruct (decode_header _ _) as [[len h]| |] eqn:Eh; [|done|done]. cbn [rbind fst snd].
  destruct (decode_header_range _ _ _ _ (b2z_range l) Eh) as [Hlen Hh].
  destruct (Z.ltb_spec (Z.of_nat (length (x :: l :: b))) (Z.of_nat h + len)); [done|].
  intros [= <- <-]. cbn [tlv_tag tlv_value]. exists (take h (x :: l :: b)). repeat split.
  - by rewrite <-drop_drop, !take_drop.
  - rewrite length_take. lia.
  - rewrite length_take. lia.
  - apply b2z_range.
  - apply b2z_range.
  - done.
  - rewrite length_take. lia.
Qed.
Lemma decode_tlv_decreases b t r :
  decode_tlv b = Ok (t, r) -> (length (tlv_value t) + length r + 2 <= length b)%nat.
Proof. intros (h & -> & ? & _)%decode_tlv_Ok_inv. rewrite !length_app. lia. Qed.

(** A complete TLV stays the same when more bytes follow, and so does an error
    that is not a matter of missing bytes. *)
Lemma decode_tlv_app b x t r : decode_tlv b = Ok (t, r) -> decode_tlv (b ++ x) = Ok (t, r ++ x).
Proof.
  destruct b as [|y [|l b]]; [done|simpl; by case_match|]. cbn [app].
  rewrite !decode_tlv_unfold. case_match; [done|].
  destruct (decode_header _ _) as [[len h]| |] eqn:Eh; [|done|done].
  apply (decode_header_app _ x) in Eh as Eh'; [|cbn; lia]. cbn [app] in Eh'. rewrite Eh'. cbn [rbind fst snd].
  destruct (decode_header_range _ _ _ _ (b2z_range l) Eh) as [Hlen Hh].
  change (y :: l :: b ++ x) with ((y :: l :: b) ++ x). set (B := y :: l :: b).
  rewrite length_app, Nat2Z.inj_add.
  destruct (Z.ltb_spec (Z.of_nat (length B)) (Z.of_nat h + len)); [done|].
  destruct (Z.ltb_spec (Z.of_nat (length B) + Z.of_nat (length x)) (Z.of_nat h + len)); [lia|].
  rewrite !drop_app_le by lia. rewrite take_app_le by (rewrite length_drop; lia). by intros [= <- <-].
Qed.
Lemma decode_tlv_err_app b x e :
  decode_tlv b = Err e -> incomplete e = false -> decode_tlv (b ++ x) = Err e.
Proof.
  destruct b as [|y [|l b]]; cbn [app].
  { by intros [= <-]. }
  { simpl. case_match; [done|]. by intros [= <-]. }
  rewrite !decode_tlv_unfold. case_match; [done|].
  destruct (decode_header _ _) as [[len h]|e'|] eqn:Eh; [|intros [= ->] He|done].
  - cbn [rbind]. case_match; [|done]. by intros [= <-].
  - change (y :: l :: b ++ x) with ((y :: l :: b) ++ x). by rewrite (decode_header_err_app _ _ _ _ Eh He).
Qed.
Lemma decode_tlv_no_panic b : decode_tlv b <> Panic.
Proof.
  destruct b as [|y [|l b]]; [done|simpl; by case_match|]. rewrite decode_tlv_unfold. case_match; [done|].
  unfold decode_header. repeat (case_match; try done). all: cbn [rbind]; by repeat case_match.
Qed.

(** ** Round trips *)

Lemma encode_length_header tag len r :
  Z.of_nat len < 2 ^ 32 ->
  exists l0 ls, encode_length len = l0 :: ls
    /\ decode_header (tag :: l0 :: ls ++ r) (b2z l0) = Ok (Z.of_nat len, (2 + length ls)%nat).
Proof.
  intros Hlen. unfold encode_length. destruct (Z.ltb_spec (Z.of_nat len) 0x80) as [Hs|Hs].
  - exists (z2b (Z.of_nat len)), []. split; [done|]. unfold decode_header.
    rewrite b2z_z2b, Z.mod_small by lia. by rewrite (proj2 (Z.ltb_lt _ _) Hs).
  - destruct (length_bytes_spec 8 (Z.of_nat len) []) as (l & -> & Hl & Hr & Hmin); [cbn; lia|].
    rewrite app_nil_r. specialize (Hmin 4). cbn in Hmin.
    assert (0 < Z.of_nat (length l) <= 4) as Hn.
    { split; [|lia]. destruct l; [|cbn; lia]. change (of_be []) with 0 in Hl. lia. }
    assert (b2z (z2b (Z.lor 0x80 (as_u8 (Z.of_nat (length l))))) = 128 + Z.of_nat (length l)) as Hb.
    { rewrite b2z_z2b. destruct l as [|? [|? [|? [|? [|]]]]]; try done; cbn [length] in Hn; lia. }
    eexists _, l. split; [done|]. unfold decode_header. rewrite Hb, land_7f.
    assert ((128 + Z.of_nat (length l)) mod 128 = Z.of_nat (length l)) as -> by (symmetry; apply (Z.mod_unique_pos _ _ 1); lia).
    destruct (Z.ltb_spec (128 + Z.of_nat (length l)) 0x80); [lia|].
    destruct (Z.eqb_spec (Z.of_nat (length l)) 0); [lia|].
    destruct (Z.gtb_spec (Z.of_nat (length l)) 4); [lia|].
    case_match eqn:Hc. { apply Z.ltb_lt in Hc. cbn [length] in Hc. rewrite length_app in Hc. lia. }
    rewrite Nat2Z.id, be_fold_of_be. do 2 f_equal. rewrite <-Hl. f_equal.
    change (tag :: ?x :: l ++ r) with ([tag; x] ++ l ++ r).
    by rewrite (drop_app_length' [tag; _]), take_app_length.
Qed.

Lemma decode_encode_tlv tag v r :
  tag_ok tag -> Z.of_nat (length v) < 2 ^ 32 -> decode_tlv (encode_tlv tag v ++ r) = Ok (mkTlv tag v, r).
Proof.
  intros [Ht Htag] Hv. unfold encode_tlv.
  destruct (encode_length_header (z2b tag) (length v) (v ++ r) Hv) as (l0 & ls & -> & Hh).
  cbn [app]. rewrite <-app_assoc. rewrite decode_tlv_unfold.
  rewrite b2z_z2b. unfold is_uint in Ht. rewrite Z.mod_small by (change (2 ^ 8) with 256 in Ht; lia).
  rewrite (proj2 (Z.eqb_neq _ _)) by done. rewrite Hh. cbn [rbind fst snd].
  change (z2b tag :: l0 :: ls ++ v ++ r) with ([z2b tag; l0] ++ ls ++ v ++ r).
  rewrite app_assoc. set (h := [z2b tag; l0] ++ ls).
  assert (length h = 2 + length ls)%nat as Hlen by done.
  rewrite (proj2 (Z.ltb_ge _ _)) by (rewrite !length_app, Hlen; lia).
  rewrite Nat2Z.id, <-Hlen, <-drop_drop, drop_app_length, take_app_length, drop_app_length. done.
Qed.

Lemma decode_encode_tlv_nil tag v :
  tag_ok tag -> Z.of_nat (length v) < 2 ^ 32 -> decode_tlv (encode_tlv tag v) = Ok (mkTlv tag v, []).
Proof. intros. rewrite <-(app_nil_r (encode_tlv tag v)). by apply decode_encode_tlv. Qed.

(** Of an encoded TLV, only the whole is accepted: a proper prefix asks for
    more bytes. *)
Lemma decode_tlv_prefix tag v p q :
  tag_ok tag -> Z.of_nat (length v) < 2 ^ 32 -> encode_tlv tag v = p ++ q -> q <> [] ->
  exists e, decode_tlv p = Err e /\ incomplete e = true.
Proof.
  intros Ht Hv Hpq Hq. pose proof (decode_encode_tlv tag v [] Ht Hv) as Hd. rewrite app_nil_r, Hpq in Hd.
  destruct (decode_tlv p) as [[t r]|e|] eqn:Hp.
  - rewrite (decode_tlv_app _ _ _ _ Hp) in Hd. injection Hd as _ H. by destruct r.
  - exists e. split; [done|]. destruct (incomplete e) eqn:He; [done|].
    by rewrite (decode_tlv_err_app _ _ _ Hp He) in Hd.
  - by apply decode_tlv_no_panic in Hp.
Qed.

Lemma encode_tlv_length_le tag v : (length v <= length (encode_tlv tag v))%nat.
Proof. unfold encode_tlv. cbn [length]. rewrite length_app. lia. Qed.

(** ** The decoding loop *)

Lemma decode_tlvs_rounds_enough {A} (f : Tlv -> Result BerError A) n m b :
  (length b <= n)%nat -> (length b <= m)%nat -> decode_tlvs_rounds f n b = decode_tlvs_rounds f m b.
Proof.
  revert m b. induction n as [|n IH]; intros [|m] [|x b] Hn Hm; cbn [length] in *; try lia; try done.
  cbn [decode_tlvs_rounds]. destruct (decode_tlv (x :: b)) as [[t r]| |] eqn:E; [|done|done].
  apply decode_tlv_decreases in E. cbn [length rbind fst snd] in *. destruct (f t); [|done|done].
  cbn [rbind]. by rewrite (IH m) by lia.
Qed.
Lemma decode_tlvs_unfold {A} (f : Tlv -> Result BerError A) b :
  b <> [] -> decode_tlvs f b =
    let? tr := decode_tlv b in let? x := f tr.1 in let? xs := decode_tlvs f tr.2 in Ok (x :: xs).
Proof.
  unfold decode_tlvs at 1. destruct b as [|y b]; [done|]. intros _. cbn [length decode_tlvs_rounds].
  destruct (decode_tlv (y :: b)) as [[t r]| |] eqn:E; [|done|done].
  apply decode_tlv_decreases in E. cbn [length rbind fst snd] in *. destruct (f t); [|done|done].
  cbn [rbind]. unfold decode_tlvs. by rewrite (decode_tlvs_rounds_enough f (length b) (length r)) by lia.
Qed.

(** Two decoders that agree on the TLVs inside [b] give the same list. *)
Lemma decode_tlvs_ext {A} (f g : Tlv -> Result BerError A) b :
  (forall t, (length (tlv_value t) + 2 <= length b)%nat -> f t = g t) -> decode_tlvs f b = decode_tlvs g b.
Proof.
  unfold decode_tlvs. enough (forall n, (length b <= n)%nat ->
    (forall t, (length (tlv_value t) + 2 <= length b)%nat -> f t = g t) ->
    decode_tlvs_rounds f n b = decode_tlvs_rounds g n b) by eauto.
  intros n. revert b. induction n as [|n IH]; intros [|y b] Hn Hfg; try done.
  cbn [decode_tlvs_rounds]. destruct (decode_tlv (y :: b)) as [[t r]| |] eqn:E; [|done|done].
  apply decode_tlv_decreases in E. cbn [length rbind fst snd] in *.
  rewrite Hfg by lia. destruct (g t); [|done|done]. cbn [rbind].
  rewrite (IH r); [done|lia|]. intros t' ?. apply Hfg. lia.
Qed.
Lemma decode_tlvs_no_panic {A} (f : Tlv -> Result BerError A) b :
  (forall t, (length (tlv_value t) + 2 <= length b)%nat -> f t <> Panic) -> decode_tlvs f b <> Panic.
Proof.
  unfold decode_tlvs. enough (forall n, (length b <= n)%nat ->
    (forall t, (length (tlv_value t) + 2 <= length b)%nat -> f t <> Panic) ->
    decode_tlvs_rounds f n b <> Panic) by eauto.
  intros n. revert b. induction n as [|n IH]; intros [|y b] Hn Hf; try done. { cbn in Hn. lia. }
  cbn [decode_tlvs_rounds]. destruct (decode_tlv (y :: b)) as [[t r]| |] eqn:E; [|done|].
  2: by apply decode_tlv_no_panic in E.
  apply decode_tlv_decreases in E. cbn [length rbind fst snd] in *.
  pose proof (Hf t ltac:(lia)). destruct (f t); [|done|done]. cbn [rbind].
  pose proof (IH r ltac:(lia) ltac:(intros t' ?; apply Hf; lia)).
  by destruct (decode_tlvs_rounds f n r).
Qed.

(** Decoding a concatenation of encoded elements. *)
Lemma decode_tlvs_concat {A} (f : Tlv -> Result BerError A) (enc : A -> Z * bytes) (l : list A) :
  Forall (fun x => tag_ok (enc x).1 /\ Z.of_nat (length (enc x).2) < 2 ^ 32
    /\ f (mkTlv (enc x).1 (enc x).2) = Ok x) l ->
  decode_tlvs f (concat (map (fun x => encode_tlv (enc x).1 (enc x).2) l)) = Ok l.
Proof.
  induction 1 as [|x l (Ht & Hv & Hf) _ IH]; [done|]. cbn [map concat].
  rewrite decode_tlvs_unfold by done. rewrite decode_encode_tlv by done. cbn [rbind fst snd].
  rewrite Hf. cbn [rbind]. by rewrite IH.
Qed.

(** ** Integers *)

(** The value of a big-endian two's complement byte string. *)
Definition signed_be (l : bytes) : Z :=
  match l with
  | [] => 0
  | b0 :: _ => of_be l - (if b2z b0 <? 128 then 0 else 256 ^ Z.of_nat (length l))
  end.

Lemma land_80 b : (Z.land (b2z b) 0x80 =? 0) = (b2z b <? 128).
Proof. by destruct b. Qed.

Lemma signed_be_range l :
  l <> [] -> - 256 ^ Z.of_nat (length l) <= 2 * signed_be l < 256 ^ Z.of_nat (length l).
Proof.
  destruct l as [|b l]; [done|]. intros _. unfold signed_be. rewrite of_be_cons. cbn [length].
  rewrite Nat2Z.inj_succ, Z.pow_succ_r by lia. pose proof (of_be_range l). pose proof (b2z_range b).
  destruct (Z.ltb_spec (b2z b) 128); nia.
Qed.

Lemma fold_shift l n :
  - 2 ^ 63 <= n * 256 ^ Z.of_nat (length l) + of_be l < 2 ^ 63 ->
  foldl (fun n b => Z.lor (as_i64 (Z.shiftl n 8)) (Z.land (b2z b) 0xFF)) n l
  = n * 256 ^ Z.of_nat (length l) + of_be l.
Proof.
  revert n. induction l as [|b l IH]; intros n Hr. { change (of_be []) with 0. cbn. lia. }
  rewrite of_be_cons in *. cbn [length foldl] in *. rewrite Nat2Z.inj_succ, Z.pow_succ_r in * by lia.
  set (p := 256 ^ Z.of_nat (length l)) in *. assert (1 <= p) by (apply Z.lt_pred_le, Z.pow_pos_nonneg; lia).
  pose proof (of_be_range l) as Hl. fold p in Hl. pose proof (b2z_range b) as Hb.
  rewrite (as_i64_id (Z.shiftl n 8)). 2: { unfold is_i64. rewrite Z.shiftl_mul_pow2 by lia. split; nia. }
  rewrite land_ff, (Z.mod_small (b2z b)), lor_shiftl_byte by lia. rewrite IH; fold p; lia.
Qed.

Lemma decode_integer_signed v :
  v <> [] -> (length v <= 8)%nat -> decode_integer_value v = Ok (signed_be v).
Proof.
  destruct v as [|b v]; [done|]. intros _ Hlen. unfold decode_integer_value.
  rewrite (proj2 (Nat.ltb_ge _ _)) by done. pose proof (signed_be_range (b :: v) ltac:(done)) as Hr.
  assert (256 ^ Z.of_nat (length (b :: v)) <= 2 ^ 64).
  { change (2 ^ 64) with (256 ^ 8). apply Z.pow_le_mono_r; lia. }
  rewrite land_80. unfold signed_be in *.
  destruct (b2z b <? 128); cbn [negb]; rewrite fold_shift; f_equal; lia.
Qed.
Lemma decode_integer_Ok_inv v n :
  decode_integer_value v = Ok n -> v <> [] /\ (length v <= 8)%nat /\ n = signed_be v.
Proof.
  intros H. assert (v <> []) as Hv by (by destruct v). destruct (decide (length v <= 8)%nat) as [Hl|Hl].
  - rewrite decode_integer_signed in H by done. apply Ok_inj in H. by subst.
  - unfold decode_integer_value in H. destruct v; [done|]. by rewrite (proj2 (Nat.ltb_lt _ _)) in H by lia.
Qed.

Lemma int_loop_spec r x acc :
  - 256 ^ Z.of_nat r <= x < 256 ^ Z.of_nat r ->
  exists l, int_loop r x acc = l ++ acc /\ (length l <= r)%nat
    /\ x = (if 0 <=? x then 0 else -1) * 256 ^ Z.of_nat (length l) + of_be l
    /\ (forall k, 0 <= k -> - 256 ^ k <= x < 256 ^ k -> Z.of_nat (length l) <= k).
Proof.
  revert x acc. induction r as [|r IH]; intros x acc Hx; cbn [int_loop].
  { exists []. change (of_be []) with 0. cbn in *. split; [done|]. repeat split; [lia|case_match; lia|lia]. }
  rewrite Nat2Z.inj_succ, Z.pow_succ_r in Hx by lia.
  destruct (decide (x = 0 \/ x = -1)) as [H01|H01].
  { exists []. change (of_be []) with 0. destruct H01 as [-> | ->]; cbn; repeat split; lia. }
  rewrite (proj2 (Z.eqb_neq x 0)), (proj2 (Z.eqb_neq x (-1))) by tauto. cbn [negb andb].
  rewrite shiftr_8, z2b_land. pose proof (Z.div_mod x 256). pose proof (Z.mod_pos_bound x 256).
  destruct (IH (x / 256) (z2b x :: acc)) as (l & -> & Hr & Hl & Hmin).
  { split; [apply Z.div_le_lower_bound; lia|apply Z.div_lt_upper_bound; lia]. }
  exists (l ++ [z2b x]). rewrite <-app_assoc, length_app, of_be_snoc, b2z_z2b. cbn [length].
  rewrite Nat2Z.inj_add, Z.pow_add_r by lia. split; [done|]. repeat split; [lia| |].
  - change (256 ^ Z.of_nat 1) with 256.
    assert ((0 <=? x) = (0 <=? x / 256)) as ->.
    { destruct (Z.leb_spec 0 x), (Z.leb_spec 0 (x / 256)); lia. }
    lia.
  - intros k Hk Hxk. destruct (decide (k = 0)) as [->|]; [cbn in Hxk; lia|].
    replace k with (Z.succ (k - 1)) in Hxk by lia. rewrite Z.pow_succ_r in Hxk by lia.
    specialize (Hmin (k - 1) ltac:(lia)).
    assert (- 256 ^ (k - 1) <= x / 256 < 256 ^ (k - 1)).
    { split; [apply Z.div_le_lower_bound; lia|apply Z.div_lt_upper_bound; lia]. }
    lia.
Qed.

(** [int_to_bytes] is the two's complement form of its argument, and no
    shorter byte string has room for it. *)
Lemma int_to_bytes_spec n :
  is_i64 n -> signed_be (int_to_bytes n) = n /\ int_to_bytes n <> []
    /\ forall k, (1 <= k)%nat -> - 256 ^ Z.of_nat k <= 2 * n < 256 ^ Z.of_nat k -> (length (int_to_bytes n) <= k)%nat.
Proof.
  intros Hn. unfold int_to_bytes. destruct (Z.eqb_spec n 0) as [->|Hn0]; [done|].
  destruct (int_loop_spec 8 n []) as (l & -> & _ & Hl & Hmin).
  { unfold is_i64 in Hn. cbn. lia. }
  rewrite app_nil_r. destruct l as [|b l].
  { change (of_be []) with 0 in Hl. assert (n = -1) as -> by (cbn in Hl; case_match; lia). done. }
  rewrite !land_80. set (L := b :: l) in *. pose proof (of_be_range L) as HL.
  assert (0 < 256 ^ Z.of_nat (length L)) by (apply Z.pow_pos_nonneg; lia).
  assert (of_be L = b2z b * 256 ^ Z.of_nat (length l) + of_be l) as Hc by apply of_be_cons.
  pose proof (of_be_range l). pose proof (b2z_range b).
  assert (256 ^ Z.of_nat (length L) = 256 * 256 ^ Z.of_nat (length l)) as Hp.
  { unfold L. cbn [length]. by rewrite Nat2Z.inj_succ, Z.pow_succ_r by lia. }
  assert (forall x, of_be (x :: L) = b2z x * 256 ^ Z.of_nat (length L) + of_be L) as Hx by (intros; apply of_be_cons).
  assert (forall k, (1 <= k)%nat -> - 256 ^ Z.of_nat k <= 2 * n < 256 ^ Z.of_nat k -> (length L <= k)%nat) as Hk.
  { intros k Hk1 Hk. specialize (Hmin (Z.of_nat k)). lia. }
  assert (forall k, (1 <= k)%nat -> - 256 ^ Z.of_nat k <= 2 * n < 256 ^ Z.of_nat k ->
    ~ (- 256 ^ Z.of_nat (length L) <= 2 * n < 256 ^ Z.of_nat (length L)) -> (S (length L) <= k)%nat) as Hk'.
  { intros k Hk1 Hkr Hno. specialize (Hk k Hk1 Hkr). destruct (decide (length L = k)) as [<-|]; [done|lia]. }
  assert (signed_be L = of_be L - (if b2z b <? 128 then 0 else 256 ^ Z.of_nat (length L))) as Hs by done.
  revert Hl Hs. destruct (Z.leb_spec 0 n), (Z.ltb_spec (b2z b) 128), (Z.ltb_spec n 0);
    intros Hl Hs; try lia; cbn [negb andb].
  - split; [lia|by split].
  - split; [unfold signed_be; rewrite Hx; change (b2z x00 <? 128) with true; change (b2z x00) with 0; lia|].
    split; [done|]. intros k Hk1 Hkr. apply Hk'; [done..|]. nia.
  - split; [unfold signed_be; rewrite Hx; change (b2z xff <? 128) with false; change (b2z xff) with 255|].
    { cbn [length]. rewrite Nat2Z.inj_succ, Z.pow_succ_r by lia. lia. }
    split; [done|]. intros k Hk1 Hkr. apply Hk'; [done..|]. nia.
  - split; [lia|by split].
Qed.

Lemma length_int_to_bytes n : is_i64 n -> (length (int_to_bytes n) <= 8)%nat.
Proof.
  intros Hn. destruct (int_to_bytes_spec n Hn) as (_ & _ & Hmin).
  apply Hmin; [lia|]. unfold is_i64 in Hn. cbn. lia.
Qed.
Lemma decode_int_to_bytes n : is_i64 n -> decode_integer_value (int_to_bytes n) = Ok n.
Proof.
  intros Hn. pose proof (length_int_to_bytes n Hn). destruct (int_to_bytes_spec n Hn) as (Hs & Hne & _).
  by rewrite decode_integer_signed, Hs.
Qed.
Lemma decode_string_id s : utf8_valid s = true -> decode_string_value s = Ok s.
Proof. intros H. unfold decode_string_value. by rewrite from_utf8_Some. Qed.
#[export] Hint Resolve decode_int_to_bytes decode_string_id : adrian.

(** BER lengths and framing: an encoded TLV with a single-byte tag and a
    value below 4 GiB decodes to itself whatever bytes follow, every proper
    prefix of it is reported as incomplete, and whatever [decode_tlv] accepts
    is a header of two to six bytes, the value and the rest. *)
Theorem ber_tlv_framing (tag : Z) (v rest : bytes) :
  tag_ok tag -> Z.of_nat (length v) < 2 ^ 32 ->
  decode_tlv (encode_tlv tag v ++ rest) = Ok (mkTlv tag v, rest)
  /\ (forall p q, encode_tlv tag v = p ++ q -> q <> [] ->
        exists e, decode_tlv p = Err e /\ incomplete e = true)
  /\ (forall b t r, decode_tlv b = Ok (t, r) ->
        exists h, b = h ++ tlv_value t ++ r /\ (2 <= length h <= 6)%nat /\ tag_ok (tlv_tag t)).
Proof.
  intros Ht Hv. split; [by apply decode_encode_tlv|]. split; [eauto using decode_tlv_prefix|].
  intros b t r (h & ? & ? & ? & _)%decode_tlv_Ok_inv. eauto.
Qed.
Lemma ber_tlv_framing_witness :
  decode_tlv (encode_tlv TAG_OCTET_STRING (replicate 200 x41) ++ [x30; x00])
  = Ok (mkTlv TAG_OCTET_STRING (replicate 200 x41), [x30; x00]).
Proof.
  destruct (ber_tlv_framing TAG_OCTET_STRING (replicate 200 x41) [x30; x00]) as (H & _).
  - vm_compute. intuition congruence.
  - by vm_compute.
  - exact H.
Defined.

(** BER integers: every [i64] is decoded from its encoding, the encoding has
    at most eight bytes, and no byte string that decodes to the same number is
    shorter. *)
Theorem ber_integer_minimal (n : Z) :
  is_i64 n ->
  decode_integer_value (int_to_bytes n) = Ok n /\ (length (int_to_bytes n) <= 8)%nat
  /\ (forall v, decode_integer_value v = Ok n -> (length (int_to_bytes n) <= length v)%nat).
Proof.
  intros Hn. destruct (int_to_bytes_spec n Hn) as (_ & _ & Hmin).
  repeat split; [by apply decode_int_to_bytes|by apply length_int_to_bytes|].
  - intros v (Hv & Hv8 & ->)%decode_integer_Ok_inv. apply Hmin; [by destruct v; cbn; [|lia]|].
    by apply signed_be_range.
Qed.
Lemma ber_integer_minimal_witness : decode_integer_value (int_to_bytes (-129)) = Ok (-129).
Proof. apply (ber_integer_minimal (-129)). vm_compute. intuition congruence. Defined.
