(* ===== verification/LdapFilter.v ===== *)
(** * LdapFilter: search filters (crate [adrian-directory-service], [filter.rs])

    The filter type, its BER encoding and decoding, and its string form: the
    printer ([Display]) and the recursive-descent parser [parse_filter].  The
    decoder and the parser recurse on inputs that get shorter, so the length of
    the input bounds the depth; [Panic] marks a spent bound and the theorems
    show that it is never reached. *)
From S2P Require Import Prelude Bytes Text Ber.

Inductive Substring :=
| Initial (v : bytes)
| Any (v : bytes)
| Final (v : bytes).

Inductive Filter :=
| FAnd (subs : list Filter)
| FOr (subs : list Filter)
| FNot (inner : Filter)
| Equality (attribute value : bytes)
| Substrings (attribute : bytes) (substrings : list Substring)
| GreaterOrEqual (attribute value : bytes)
| LessOrEqual (attribute value : bytes)
| Present (attribute : bytes)
| Approx (attribute value : bytes).

#[global] Instance Substring_eq_dec : EqDecision Substring.
Proof. solve_decision. Defined.

(** ** Wire form *)

Definition encode_substring (s : Substring) : bytes :=
  match s with
  | Initial v => encode_tlv SUBSTRING_INITIAL v
  | Any v => encode_tlv SUBSTRING_ANY v
  | Final v => encode_tlv SUBSTRING_FINAL v
  end.

(** The arm shared by the four attribute value assertions. *)
Definition encode_assertion (tag : Z) (attribute value : bytes) : bytes :=
  encode_tlv tag (encode_string attribute ++ encode_tlv TAG_OCTET_STRING value).

Fixpoint Filter_encode (f : Filter) : bytes :=
  match f with
  | FAnd subs => encode_tlv FILTER_AND (concat (map Filter_encode subs))
  | FOr subs => encode_tlv FILTER_OR (concat (map Filter_encode subs))
  | FNot inner => encode_tlv FILTER_NOT (Filter_encode inner)
  | Equality attribute value => encode_assertion FILTER_EQUALITY attribute value
  | GreaterOrEqual attribute value => encode_assertion FILTER_GE attribute value
  | LessOrEqual attribute value => encode_assertion FILTER_LE attribute value
  | Approx attribute value => encode_assertion FILTER_APPROX attribute value
  | Present attr => encode_tlv FILTER_PRESENT attr
  | Substrings attribute substrings =>
      let seq := concat (map encode_substring substrings) in
      encode_tlv FILTER_SUBSTRINGS
        (encode_string attribute ++ encode_tlv (Z.lor TAG_SEQUENCE CONSTRUCTED) seq)
  end.

Definition decode_substring (t : Tlv) : Result BerError Substring :=
  let v := tlv_value t in
  if tlv_tag t =? SUBSTRING_INITIAL then Ok (Initial v)
  else if tlv_tag t =? SUBSTRING_ANY then Ok (Any v)
  else if tlv_tag t =? SUBSTRING_FINAL then Ok (Final v)
  else Err (BerUnknownFilter (tlv_tag t)).

(** [if !rest.is_empty() { return Err(TrailingData(rest.len())) }]. *)
Definition no_trailing (rest : bytes) : Result BerError unit :=
  match rest with [] => Ok tt | _ => Err (BerTrailingData (length rest)) end.

Definition decode_assertion (mk : bytes -> bytes -> Filter) (value : bytes) : Result BerError Filter :=
  let? ar := decode_tlv value in
  let '(attr_tlv, rest) := ar in
  match rest with
  | [] => Err (BerTruncated MissingAssertionValue)
  | _ =>
      let? vr := decode_tlv rest in
      let '(val_tlv, rest) := vr in
      let? _ := no_trailing rest in
      let? attribute := decode_string_value (tlv_value attr_tlv) in
      Ok (mk attribute (tlv_value val_tlv))
  end.

Definition decode_substrings (value : bytes) : Result BerError Filter :=
  let? ar := decode_tlv value in
  let '(attr_tlv, rest) := ar in
  let? attribute := decode_string_value (tlv_value attr_tlv) in
  let? sr := decode_tlv rest in
  let '(seq_tlv, rest) := sr in
  let? _ := no_trailing rest in
  let? subs := decode_tlvs decode_substring (tlv_value seq_tlv) in
  Ok (Substrings attribute subs).

Fixpoint decode_filter (depth : nat) (tag : Z) (value : bytes) : Result BerError Filter :=
  match depth with
  | O => Panic
  | S depth =>
      let sub (t : Tlv) := decode_filter depth (tlv_tag t) (tlv_value t) in
      if tag =? FILTER_AND then let? subs := decode_tlvs sub value in Ok (FAnd subs)
      else if tag =? FILTER_OR then let? subs := decode_tlvs sub value in Ok (FOr subs)
      else if tag =? FILTER_NOT then
        let? tr := decode_tlv value in
        let '(tlv, rest) := tr in
        let? _ := no_trailing rest in
        let? inner := sub tlv in
        Ok (FNot inner)
      else if tag =? FILTER_EQUALITY then decode_assertion Equality value
      else if tag =? FILTER_GE then decode_assertion GreaterOrEqual value
      else if tag =? FILTER_LE then decode_assertion LessOrEqual value
      else if tag =? FILTER_APPROX then decode_assertion Approx value
      else if tag =? FILTER_PRESENT then
        let? attribute := decode_string_value value in Ok (Present attribute)
      else if tag =? FILTER_SUBSTRINGS then decode_substrings value
      else Err (BerUnknownFilter tag)
  end.

(** [Filter::decode_from_tlv]. *)
Definition Filter_decode_from_tlv (tag : Z) (value : bytes) : Result BerError Filter :=
  decode_filter (S (length value)) tag value.

(** ** String form *)

(** [{:02x}] of a byte. *)
Definition hex_lower (d : Z) : byte := z2b (if d <? 10 then 48 + d else 87 + d).
Definition escape_byte (b : byte) : bytes :=
  if bool_decide (b = "*"%byte) then lit "\2a"
  else if bool_decide (b = "("%byte) then lit "\28"
  else if bool_decide (b = ")"%byte) then lit "\29"
  else if bool_decide (b = "\"%byte) then lit "\5c"
  else if bool_decide (b = x00) then lit "\00"
  else if (0x20 <=? b2z b) && (b2z b <=? 0x7E) then [b]
  else ["\"%byte; hex_lower (b2z b / 16); hex_lower (b2z b mod 16)].
Definition escape_value (v : bytes) : bytes := concat (map escape_byte v).

Definition Substring_fmt (s : Substring) : bytes :=
  match s with
  | Initial v => escape_value v
  | Any v => lit "*" ++ escape_value v ++ lit "*"
  | Final v => escape_value v
  end.

Fixpoint Filter_fmt (f : Filter) : bytes :=
  match f with
  | FAnd subs => lit "(&" ++ concat (map Filter_fmt subs) ++ lit ")"
  | FOr subs => lit "(|" ++ concat (map Filter_fmt subs) ++ lit ")"
  | FNot inner => lit "(!" ++ Filter_fmt inner ++ lit ")"
  | Equality attribute value => lit "(" ++ attribute ++ lit "=" ++ escape_value value ++ lit ")"
  | Substrings attribute substrings =>
      lit "(" ++ attribute ++ lit "=" ++ concat (map Substring_fmt substrings) ++ lit ")"
  | GreaterOrEqual attribute value => lit "(" ++ attribute ++ lit ">=" ++ escape_value value ++ lit ")"
  | LessOrEqual attribute value => lit "(" ++ attribute ++ lit "<=" ++ escape_value value ++ lit ")"
  | Present attr => lit "(" ++ attr ++ lit "=*)"
  | Approx attribute value => lit "(" ++ attribute ++ lit "~=" ++ escape_value value ++ lit ")"
  end.

(** ** Parser

    The parser's state [(bytes, pos)] is a cursor: the position and the bytes
    from there on. *)
Inductive FilterParseError :=
| ExpectedOpenParen (pos : nat)
| ExpectedCloseParen (pos : nat)
| FpEmpty (pos : nat)
| UnsupportedOperator (op : byte) (pos : nat)
| BareStar (pos : nat)
| UnexpectedEof (pos : nat)
| FpTrailingData (pos : nat)
| InvalidEscape (pos : nat).

Record Cursor := mkCursor { pos : nat; rest : bytes }.
Definition advance (c : Cursor) : Cursor := mkCursor (S (pos c)) (drop 1 (rest c)).

(** [u8::is_ascii_whitespace]. *)
Definition is_ascii_whitespace (b : byte) : bool :=
  let z := b2z b in (z =? 0x20) || (z =? 0x09) || (z =? 0x0A) || (z =? 0x0C) || (z =? 0x0D).
Fixpoint skip_ws (p : nat) (l : bytes) : Cursor :=
  match l with
  | b :: l' => if is_ascii_whitespace b then skip_ws (S p) l' else mkCursor p l
  | [] => mkCursor p []
  end.

(** [str::trim]: the UTF-8 forms of the characters with [White_Space]. *)
Definition whitespace_chars : list bytes :=
  [[x09]; [x0a]; [x0b]; [x0c]; [x0d]; [x20]; [xc2; x85]; [xc2; xa0]; [xe1; x9a; x80];
   [xe2; x80; x80]; [xe2; x80; x81]; [xe2; x80; x82]; [xe2; x80; x83]; [xe2; x80; x84];
   [xe2; x80; x85]; [xe2; x80; x86]; [xe2; x80; x87]; [xe2; x80; x88]; [xe2; x80; x89];
   [xe2; x80; x8a]; [xe2; x80; xa8]; [xe2; x80; xa9]; [xe2; x80; xaf]; [xe2; x81; x9f];
   [xe3; x80; x80]].
Fixpoint strip_any (chars : list bytes) (s : bytes) : option bytes :=
  match chars with
  | [] => None
  | c :: chars => match strip_prefix c s with Some s' => Some s' | None => strip_any chars s end
  end.
Fixpoint trim_start_rounds (chars : list bytes) (rounds : nat) (s : bytes) : bytes :=
  match rounds with
  | O => s
  | S rounds =>
      match strip_any chars s with Some s' => trim_start_rounds chars rounds s' | None => s end
  end.
Definition trim (s : bytes) : bytes :=
  let s := trim_start_rounds whitespace_chars (length s) s in
  rev (trim_start_rounds (map (@rev byte) whitespace_chars) (length s) (rev s)).

Definition hex_digit (b : byte) : Result FilterParseError Z :=
  let z := b2z b in
  if (48 <=? z) && (z <=? 57) then Ok (z - 48)
  else if (97 <=? z) && (z <=? 102) then Ok (z - 97 + 10)
  else if (65 <=? z) && (z <=? 70) then Ok (z - 65 + 10)
  else Err (InvalidEscape (Z.to_nat z)).

Inductive ValueTokens :=
| VPresent
| VSubstrings (parts : list Substring)
| VSingle (v : bytes).

Definition into_bytes (t : ValueTokens) : bytes :=
  match t with VSingle v => v | VPresent => [] | VSubstrings _ => [] end.

(** The scanning loop of [parse_value]: the parts before each [*], the current
    part, whether a [*] was seen, and the cursor at the closing parenthesis. *)
Fixpoint scan_value (p : nat) (l : bytes) (parts : list bytes) (current : bytes) (saw_star : bool)
    : Result FilterParseError (list bytes * bytes * bool * Cursor) :=
  match l with
  | [] => Ok (parts, current, saw_star, mkCursor p [])
  | b :: l' =>
      if bool_decide (b = ")"%byte) then Ok (parts, current, saw_star, mkCursor p l)
      else if bool_decide (b = "*"%byte) then scan_value (S p) l' (parts ++ [current]) [] true
      else if bool_decide (b = "\"%byte) then
        match l' with
        | b1 :: b2 :: l'' =>
            let? h1 := hex_digit b1 in
            let? h2 := hex_digit b2 in
            scan_value (3 + p) l'' parts (current ++ [z2b (Z.lor (Z.shiftl h1 4) h2)]) saw_star
        | _ => Err (InvalidEscape (S p))
        end
      else scan_value (S p) l' parts (current ++ [b]) saw_star
  end.

(** The conversion of the parts to substring choices; [i] counts the parts and
    [n] is their number. *)
Fixpoint substring_parts (i n : nat) (parts : list bytes) : list Substring :=
  match parts with
  | [] => []
  | [] :: parts => substring_parts (S i) n parts
  | p :: parts =>
      (if (i =? 0)%nat then Initial p else if (i =? n - 1)%nat then Final p else Any p)
        :: substring_parts (S i) n parts
  end.

Definition parse_value (c : Cursor) : Result FilterParseError (ValueTokens * Cursor) :=
  let? st := scan_value (pos c) (rest c) [] [] false in
  let '(parts, current, saw_star, c) := st in
  if saw_star : bool then
    let parts := parts ++ [current] in
    match substring_parts 0 (length parts) parts with
    | [] => Ok (VPresent, c)
    | subs => Ok (VSubstrings subs, c)
    end
  else Ok (VSingle current, c).

Definition attr_stop (b : byte) : bool :=
  bool_decide (b ∈ ["="; "<"; ">"; "~"; ")"]%byte).
Fixpoint span_attr (l : bytes) : bytes * bytes :=
  match l with
  | [] => ([], [])
  | b :: l' => if attr_stop b then ([], l) else let '(a, r) := span_attr l' in (b :: a, r)
  end.

(** The operator, whose first byte has been read: [<], [>] and [~] need a [=]. *)
Definition parse_operator (op : byte) (c : Cursor) : Result FilterParseError Cursor :=
  if bool_decide (op ∈ ["<"; ">"; "~"]%byte) then
    match rest c with
    | e :: _ => if bool_decide (e = "="%byte) then Ok (advance c)
                else Err (UnsupportedOperator op (pos c))
    | [] => Err (UnsupportedOperator op (pos c))
    end
  else if negb (bool_decide (op = "="%byte)) then Err (UnsupportedOperator op (pos c))
  else Ok c.

(** The filter an operator and a parsed value make. *)
Definition simple_filter (op : byte) (attr : bytes) (value : ValueTokens) : Filter :=
  if bool_decide (op = "="%byte) then
    match value with
    | VPresent => Present attr
    | VSubstrings parts => Substrings attr parts
    | VSingle v => Equality attr v
    end
  else if bool_decide (op = ">"%byte) then GreaterOrEqual attr (into_bytes value)
  else if bool_decide (op = "<"%byte) then LessOrEqual attr (into_bytes value)
  else Approx attr (into_bytes value).

Definition parse_simple_filter (c : Cursor) : Result FilterParseError (Filter * Cursor) :=
  let attr_start := pos c in
  let '(attr_bytes, r) := span_attr (rest c) in
  let p := (attr_start + length attr_bytes)%nat in
  match r with
  | [] => Err (UnexpectedEof p)
  | op :: r =>
      let? attr := ok_or (from_utf8 attr_bytes) (InvalidEscape attr_start) in
      let attr := trim attr in
      match attr with
      | [] => Err (FpEmpty attr_start)
      | _ =>
          let? c := parse_operator op (mkCursor (S p) r) in
          let? vc := parse_value c in
          Ok (simple_filter op attr vc.1, vc.2)
      end
  end.

(** [while *pos < bytes.len() && bytes[*pos] == b'(' { subs.push(f(pos)?) }]. *)
Fixpoint while_open (f : Cursor -> Result FilterParseError (Filter * Cursor)) (rounds : nat) (c : Cursor)
    : Result FilterParseError (list Filter * Cursor) :=
  if bool_decide (head (rest c) = Some "("%byte) then
    match rounds with
    | O => Panic
    | S rounds =>
        let? fc := f c in
        let? sc := while_open f rounds fc.2 in
        Ok (fc.1 :: sc.1, sc.2)
    end
  else Ok ([], c).

Fixpoint parse_filter_inner (depth : nat) (c : Cursor) : Result FilterParseError (Filter * Cursor) :=
  match depth with
  | O => Panic
  | S depth =>
      match rest c with
      | [] => Err (UnexpectedEof (pos c))
      | b0 :: _ =>
          if negb (bool_decide (b0 = "("%byte)) then Err (ExpectedOpenParen (pos c))
          else
            let c := advance c in
            match rest c with
            | [] => Err (UnexpectedEof (pos c))
            | op :: _ =>
                let? fc :=
                  if bool_decide (op = "&"%byte) || bool_decide (op = "|"%byte) then
                    let c := advance c in
                    let? sc := while_open (parse_filter_inner depth) (length (rest c)) c in
                    match sc.1 with
                    | [] => Err (FpEmpty (pos sc.2))
                    | _ => Ok (if bool_decide (op = "&"%byte) then FAnd sc.1 else FOr sc.1, sc.2)
                    end
                  else if bool_decide (op = "!"%byte) then
                    let? ic := parse_filter_inner depth (advance c) in
                    Ok (FNot ic.1, ic.2)
                  else parse_simple_filter c in
                let '(filter, c) := fc in
                match rest c with
                | [] => Err (UnexpectedEof (pos c))
                | b :: _ =>
                    if bool_decide (b = ")"%byte) then Ok (filter, advance c)
                    else Err (ExpectedCloseParen (pos c))
                end
            end
      end
  end.

Definition parse_filter (s : bytes) : Result FilterParseError Filter :=
  let c := skip_ws 0 s in
  let? fc := parse_filter_inner (S (length s)) c in
  let c := skip_ws (pos fc.2) (rest fc.2) in
  match rest c with
  | [] => Ok fc.1
  | _ => Err (FpTrailingData (pos c))
  end.

Example parse_sample :
  parse_filter (lit " (&(objectClass=user)(!(cn=al*b\28*e))(x>=1))") =
  Ok (FAnd [Equality (lit "objectClass") (lit "user");
            FNot (Substrings (lit "cn") [Initial (lit "al"); Any (lit "b("); Final (lit "e")]);
            GreaterOrEqual (lit "x") (lit "1")]).
Proof. vm_compute. reflexivity. Qed.
