(* ===== verification/LdapFilterProofs.v ===== *)
(** * LdapFilterProofs: filters on the wire and as text

    The BER decoder inverts the encoder and never gets stuck, and the string
    parser inverts the printer on filters whose substring lists have the shape
    the printer can express. *)
From S2P Require Import Prelude Bytes Text Ber LdapFilter.

(** ** Induction *)

(** Filters are nested through lists: the induction principle with the
    hypothesis for every member of the list. *)
Lemma Filter_ind' (P : Filter -> Prop) :
  (forall l, Forall P l -> P (FAnd l)) -> (forall l, Forall P l -> P (FOr l)) ->
  (forall f, P f -> P (FNot f)) -> (forall a v, P (Equality a v)) -> (forall a s, P (Substrings a s)) ->
  (forall a v, P (GreaterOrEqual a v)) -> (forall a v, P (LessOrEqual a v)) ->
  (forall a, P (Present a)) -> (forall a v, P (Approx a v)) -> forall f, P f.
Proof.
  intros HA HO HN HE HS HG HL HP HX. fix IH 1. intros [l|l|f|a v|a s|a v|a v|a|a v].
  - apply HA. induction l as [|f l IHl]; constructor; [apply IH|exact IHl].
  - apply HO. induction l as [|f l IHl]; constructor; [apply IH|exact IHl].
  - apply HN, IH.
  - apply HE.
  - apply HS.
  - apply HG.
  - apply HL.
  - apply HP.
  - apply HX.
Qed.

(** ** The wire form *)

(** What Rust's types guarantee of a filter: attribute names are strings. *)
Fixpoint filter_wf (f : Filter) : bool :=
  match f with
  | FAnd l | FOr l => forallb filter_wf l
  | FNot f => filter_wf f
  | Equality a _ | GreaterOrEqual a _ | LessOrEqual a _ | Approx a _ | Present a | Substrings a _ => utf8_valid a
  end.

(** The tag and the contents of an encoded filter. *)
Definition filter_parts (f : Filter) : Z * bytes :=
  match f with
  | FAnd l => (FILTER_AND, concat (map Filter_encode l))
  | FOr l => (FILTER_OR, concat (map Filter_encode l))
  | FNot f => (FILTER_NOT, Filter_encode f)
  | Equality a v => (FILTER_EQUALITY, encode_string a ++ encode_tlv TAG_OCTET_STRING v)
  | GreaterOrEqual a v => (FILTER_GE, encode_string a ++ encode_tlv TAG_OCTET_STRING v)
  | LessOrEqual a v => (FILTER_LE, encode_string a ++ encode_tlv TAG_OCTET_STRING v)
  | Approx a v => (FILTER_APPROX, encode_string a ++ encode_tlv TAG_OCTET_STRING v)
  | Present a => (FILTER_PRESENT, a)
  | Substrings a s =>
      (FILTER_SUBSTRINGS, encode_string a
         ++ encode_tlv (Z.lor TAG_SEQUENCE CONSTRUCTED) (concat (map encode_substring s)))
  end.
Lemma Filter_encode_parts f : Filter_encode f = encode_tlv (filter_parts f).1 (filter_parts f).2.
Proof. by destruct f. Qed.
Lemma filter_tag_ok f : tag_ok (filter_parts f).1.
Proof. destruct f; refine (bool_decide_eq_true_1 _ _); by vm_compute. Qed.

(** [fits b]: a body that [decode_tlv] can hold. *)
Definition fits (b : bytes) : Prop := Z.of_nat (length b) < 2 ^ 32.
#[global] Instance fits_dec b : Decision (fits b).
Proof. unfold fits; apply _. Defined.

Lemma fits_app a b : fits (a ++ b) <-> fits (a ++ b) /\ fits a /\ fits b.
Proof. unfold fits. rewrite length_app. lia. Qed.
Lemma fits_tlv tag v : fits (encode_tlv tag v) -> fits v.
Proof. unfold fits. pose proof (encode_tlv_length_le tag v). lia. Qed.
Lemma fits_concat l x : fits (concat l) -> x ∈ l -> fits x.
Proof.
  intros H Hx. apply list_elem_of_split in Hx as (l1 & l2 & ->).
  unfold fits in *. rewrite concat_app, length_app in H. cbn [concat] in H. rewrite length_app in H. lia.
Qed.

Lemma decode_assertion_encode mk a v :
  utf8_valid a = true -> fits (encode_string a ++ encode_tlv TAG_OCTET_STRING v) ->
  decode_assertion mk (encode_string a ++ encode_tlv TAG_OCTET_STRING v) = Ok (mk a v).
Proof.
  intros Ha (_ & Hfa & Hfv)%fits_app. unfold decode_assertion, encode_string, encode_octet_string in *.
  apply fits_tlv in Hfa, Hfv. rewrite decode_encode_tlv by done. cbn [rbind].
  rewrite decode_encode_tlv_nil by done.
  cbn [rbind no_trailing]. cbn [tlv_value]. by rewrite decode_string_id.
Qed.

Lemma decode_substrings_encode s :
  fits (concat (map encode_substring s)) -> decode_tlvs decode_substring (concat (map encode_substring s)) = Ok s.
Proof.
  intros H. set (enc := fun x => match x with
    | Initial v => (SUBSTRING_INITIAL, v) | Any v => (SUBSTRING_ANY, v) | Final v => (SUBSTRING_FINAL, v) end).
  rewrite (map_ext _ (fun x => encode_tlv (enc x).1 (enc x).2)) in * by (by intros []).
  apply decode_tlvs_concat, Forall_forall. intros x Hx.
  assert (fits (encode_tlv (enc x).1 (enc x).2)) as Hf%fits_tlv.
  { eapply fits_concat; [done|]. by apply (list_elem_of_fmap_2 (fun x => encode_tlv (enc x).1 (enc x).2)). }
  split; [by destruct x|]. split; [done|]. by destruct x.
Qed.

(** The depth bound is enough: beyond the length of the value the result does
    not depend on it. *)
Lemma decode_filter_enough n m tag v :
  (length v < n)%nat -> (length v < m)%nat -> decode_filter n tag v = decode_filter m tag v.
Proof.
  revert m tag v. induction n as [|n IH]; intros [|m] tag v Hn Hm; try lia. cbn [decode_filter].
  assert (forall t, (length (tlv_value t) + 2 <= length v)%nat ->
    decode_filter n (tlv_tag t) (tlv_value t) = decode_filter m (tlv_tag t) (tlv_value t)) as Hs.
  { intros t Ht. apply IH; lia. }
  rewrite (decode_tlvs_ext _ _ v Hs). repeat (case_match; [done|]).
  case_match; [|done]. destruct (decode_tlv v) as [[t r]| |] eqn:E; [|done|done].
  cbn [rbind]. destruct (no_trailing r); [|done|done]. cbn [rbind].
  apply decode_tlv_decreases in E. by rewrite Hs by lia.
Qed.

Lemma no_trailing_no_panic r : no_trailing r <> Panic.
Proof. by destruct r. Qed.
Lemma decode_string_no_panic v : decode_string_value v <> Panic.
Proof. unfold decode_string_value. by destruct (from_utf8 v). Qed.
Lemma rbind_no_panic {E A B} (r : Result E A) (f : A -> Result E B) :
  r <> Panic -> (forall a, r = Ok a -> f a <> Panic) -> rbind r f <> Panic.
Proof. destruct r; simpl; auto. Qed.
Lemma decode_substring_no_panic t : decode_substring t <> Panic.
Proof. unfold decode_substring. by repeat case_match. Qed.
Lemma decode_assertion_no_panic mk v : decode_assertion mk v <> Panic.
Proof.
  unfold decode_assertion. apply rbind_no_panic; [apply decode_tlv_no_panic|]. intros [t [|x r]] _; [done|].
  apply rbind_no_panic; [apply decode_tlv_no_panic|]. intros [t' r'] _.
  apply rbind_no_panic; [apply no_trailing_no_panic|]. intros _ _.
  apply rbind_no_panic; [apply decode_string_no_panic|]. done.
Qed.

Lemma decode_filter_no_panic n tag v : (length v < n)%nat -> decode_filter n tag v <> Panic.
Proof.
  revert tag v. induction n as [|n IH]; intros tag v Hn; [lia|]. cbn [decode_filter].
  assert (decode_tlvs (fun t => decode_filter n (tlv_tag t) (tlv_value t)) v <> Panic) as Hl.
  { apply decode_tlvs_no_panic. intros t Ht. apply IH. lia. }
  case_match; [by apply rbind_no_panic|]. case_match; [by apply rbind_no_panic|].
  case_match.
  { apply rbind_no_panic; [apply decode_tlv_no_panic|]. intros [t r] E%decode_tlv_decreases.
    apply rbind_no_panic; [apply no_trailing_no_panic|]. intros _ _.
    apply rbind_no_panic; [apply IH; lia|done]. }
  do 4 (case_match; [apply decode_assertion_no_panic|]).
  case_match; [by apply rbind_no_panic; [apply decode_string_no_panic|]|].
  case_match; [|done]. unfold decode_substrings.
  apply rbind_no_panic; [apply decode_tlv_no_panic|]. intros [t r] _.
  apply rbind_no_panic; [apply decode_string_no_panic|]. intros a _.
  apply rbind_no_panic; [apply decode_tlv_no_panic|]. intros [t' r'] _.
  apply rbind_no_panic; [apply no_trailing_no_panic|]. intros _ _.
  apply rbind_no_panic; [|done]. apply decode_tlvs_no_panic. intros. apply decode_substring_no_panic.
Qed.

(** Decoding inverts encoding, for the contents of an encoded filter. *)
Definition decodes (f : Filter) : Prop := forall n,
  filter_wf f = true -> fits (Filter_encode f) -> (length (filter_parts f).2 < n)%nat ->
  decode_filter n (filter_parts f).1 (filter_parts f).2 = Ok f.

Lemma filter_parts_shorter f : (length (filter_parts f).2 < length (Filter_encode f))%nat.
Proof. rewrite Filter_encode_parts. unfold encode_tlv. cbn [length]. rewrite length_app. lia. Qed.
Lemma length_concat_elem {A} (l : list (list A)) x : x ∈ l -> (length x <= length (concat l))%nat.
Proof.
  intros (l1 & l2 & ->)%list_elem_of_split. rewrite concat_app. cbn [concat]. rewrite !length_app. lia.
Qed.

Lemma decode_filters_encode l n :
  Forall decodes l -> forallb filter_wf l = true -> fits (concat (map Filter_encode l)) ->
  (length (concat (map Filter_encode l)) <= n)%nat ->
  decode_tlvs (fun t => decode_filter n (tlv_tag t) (tlv_value t)) (concat (map Filter_encode l)) = Ok l.
Proof.
  intros IH Hwf Hf Hn. rewrite (map_ext _ _ Filter_encode_parts).
  apply decode_tlvs_concat. rewrite Forall_forall in *. intros f Hl.
  assert (Filter_encode f ∈ map Filter_encode l) as Hin by (by apply list_elem_of_fmap_2).
  pose proof (fits_concat _ _ Hf Hin) as Hff. pose proof (length_concat_elem _ _ Hin).
  pose proof (filter_parts_shorter f). split; [apply filter_tag_ok|]. split; [unfold fits in *; lia|].
  apply IH; [done| |done|lia]. rewrite forallb_forall in Hwf. apply Hwf. by apply list_elem_of_In.
Qed.

Lemma decode_substrings_encoded a s :
  utf8_valid a = true -> fits (filter_parts (Substrings a s)).2 ->
  decode_substrings (filter_parts (Substrings a s)).2 = Ok (Substrings a s).
Proof.
  cbn [filter_parts snd]. intros Ha (_ & Hfa & Hfs)%fits_app. unfold encode_string, encode_octet_string in *.
  apply fits_tlv in Hfa, Hfs. unfold decode_substrings. rewrite decode_encode_tlv by done.
  cbn [rbind tlv_value]. rewrite decode_string_id by done. cbn [rbind].
  rewrite decode_encode_tlv_nil by done.
  cbn [rbind no_trailing tlv_value]. by rewrite decode_substrings_encode.
Qed.

Lemma decode_filter_not n v :
  decode_filter (S n) FILTER_NOT v =
    let? tr := decode_tlv v in
    let? _ := no_trailing tr.2 in
    let? inner := decode_filter n (tlv_tag tr.1) (tlv_value tr.1) in Ok (FNot inner).
Proof. cbn. by destruct (decode_tlv v) as [[]| |]. Qed.
Lemma decode_filter_encode f : decodes f.
Proof.
  induction f using Filter_ind'; intros [|n] Hwf Hf Hn; try lia; pose proof Hf as Hb;
    rewrite Filter_encode_parts in Hb; apply fits_tlv in Hb; cbn [filter_wf] in *.
  - cbn [filter_parts fst snd decode_filter] in *. rewrite decode_filters_encode by (done || lia). done.
  - cbn [filter_parts fst snd decode_filter] in *. rewrite decode_filters_encode by (done || lia). done.
  - cbn [filter_parts fst snd] in *. rewrite decode_filter_not. pose proof (filter_parts_shorter f).
    rewrite Filter_encode_parts, decode_encode_tlv_nil by (apply filter_tag_ok || (unfold fits in *; lia)).
    cbn [rbind no_trailing tlv_tag tlv_value]. rewrite IHf by (done || lia). done.
  - by apply decode_assertion_encode.
  - by apply decode_substrings_encoded.
  - by apply decode_assertion_encode.
  - by apply decode_assertion_encode.
  - cbn. by rewrite decode_string_id.
  - by apply decode_assertion_encode.
Qed.

(** Decoded filters have well-formed attribute names. *)
Lemma decode_string_Ok v s : decode_string_value v = Ok s -> s = v /\ utf8_valid s = true.
Proof. unfold decode_string_value, from_utf8. case_match; [|done]. cbn. by intros [= ->]. Qed.
Lemma decode_tlvs_Forall {A} (P : A -> Prop) (f : Tlv -> Result BerError A) b l :
  (forall t x, f t = Ok x -> P x) -> decode_tlvs f b = Ok l -> Forall P l.
Proof.
  intros Hf. unfold decode_tlvs. generalize (length b) as n. intros n. revert b l.
  induction n as [|n IH]; intros [|x b] l; cbn [decode_tlvs_rounds]; try done; try (intros [= <-]; constructor).
  intros H. inv_ok. constructor; eauto.
Qed.
Lemma decode_assertion_wf mk v f :
  (forall a w, filter_wf (mk a w) = utf8_valid a) -> decode_assertion mk v = Ok f -> filter_wf f = true.
Proof.
  intros Hmk H. unfold decode_assertion in H. inv_ok. destruct a as [t [|x r]]; [done|]. inv_ok.
  destruct a as [t' r']. inv_ok. rewrite Hmk. by apply decode_string_Ok in Hr2 as [_ ?].
Qed.
Lemma decode_filter_wf n tag v f : decode_filter n tag v = Ok f -> filter_wf f = true.
Proof.
  revert tag v f. induction n as [|n IH]; intros tag v f; [done|]. cbn [decode_filter].
  assert (forall l, decode_tlvs (fun t => decode_filter n (tlv_tag t) (tlv_value t)) v = Ok l ->
    forallb filter_wf l = true) as Hl.
  { intros l H. apply (decode_tlvs_Forall (fun f => filter_wf f = true)) in H; [|intros ??; apply IH].
    rewrite forallb_forall. rewrite Forall_forall in H. intros x ?%list_elem_of_In. auto. }
  case_match; [intros H'; inv_ok; by apply Hl|]. case_match; [intros H'; inv_ok; by apply Hl|].
  case_match. { intros H'. inv_ok. destruct a as [t r]. inv_ok. by apply IH in Hr1. }
  do 4 (case_match; [by apply decode_assertion_wf|]).
  case_match; [intros H'; inv_ok; by apply decode_string_Ok in Hr as [_ ?]|].
  case_match; [|done]. intros H'. unfold decode_substrings in H'. inv_ok. destruct a as [t r]. inv_ok.
  destruct a0 as [t' r']. inv_ok. by apply decode_string_Ok in Hr0 as [_ ?].
Qed.

(** Search filters on the wire: an encoded filter, followed by any bytes, is
    read back as the same filter with the bytes left over. *)
Theorem filter_wire_roundtrip (f : Filter) (more : bytes) :
  filter_wf f = true -> fits (Filter_encode f) ->
  exists t, decode_tlv (Filter_encode f ++ more) = Ok (t, more)
    /\ Filter_decode_from_tlv (tlv_tag t) (tlv_value t) = Ok f.
Proof.
  intros Hwf Hf. exists (mkTlv (filter_parts f).1 (filter_parts f).2). rewrite Filter_encode_parts. split.
  - apply decode_encode_tlv; [apply filter_tag_ok|]. pose proof (filter_parts_shorter f). unfold fits in Hf. lia.
  - cbn [tlv_tag tlv_value]. unfold Filter_decode_from_tlv. apply decode_filter_encode; [done..|lia].
Qed.
Definition sample_filter : Filter :=
  FAnd [Equality (lit "objectClass") (lit "user"); FNot (Substrings (lit "cn") [Initial (lit "al"); Final (lit "e")]);
        FOr [Present (lit "mail"); GreaterOrEqual (lit "x") (replicate 200 x41)]].
Lemma filter_wire_roundtrip_witness :
  exists t, decode_tlv (Filter_encode sample_filter ++ [x00]) = Ok (t, [x00])
    /\ Filter_decode_from_tlv (tlv_tag t) (tlv_value t) = Ok sample_filter.
Proof.
  apply (filter_wire_roundtrip sample_filter [x00]); [by vm_compute|].
  apply (bool_decide_unpack _). by vm_compute.
Defined.

(** Filter decoding is total: on any bytes it returns a filter with
    well-formed attribute names or an error, it never panics, and the result
    does not depend on the recursion bound. *)
Theorem filter_decode_total (tag : Z) (value : bytes) :
  ((exists f, Filter_decode_from_tlv tag value = Ok f /\ filter_wf f = true)
   \/ exists e, Filter_decode_from_tlv tag value = Err e)
  /\ forall n, (length value < n)%nat -> decode_filter n tag value = Filter_decode_from_tlv tag value.
Proof.
  unfold Filter_decode_from_tlv. split; [|intros; apply decode_filter_enough; lia].
  pose proof (decode_filter_no_panic (S (length value)) tag value ltac:(lia)).
  destruct (decode_filter _ _ _) as [f|e|] eqn:E; [left|right|done]; [|by exists e].
  exists f. split; [done|]. by apply decode_filter_wf in E.
Qed.

(** ** The string form *)

Definition nonempty (v : bytes) : bool := match v with [] => false | _ => true end.

(** Attribute names the parser reads back: not empty, no operator character,
    no leading filter operator, no white space around them. *)
Definition attr_printable (a : bytes) : bool :=
  nonempty a && utf8_valid a && forallb (fun b => negb (attr_stop b)) a && bool_decide (trim a = a)
  && negb (bool_decide (head a ∈ [Some "&"; Some "|"; Some "!"]%byte)).

(** Substring lists the printer can express: an optional initial part, at least
    one inner part, an optional final part, none of them empty. *)
Fixpoint any_final (s : list Substring) : bool :=
  match s with
  | [Any v] => nonempty v
  | [Any v; Final w] => nonempty v && nonempty w
  | Any v :: s => nonempty v && any_final s
  | _ => false
  end.
Definition substrings_printable (s : list Substring) : bool :=
  match s with Initial v :: s => nonempty v && any_final s | _ => any_final s end.

Fixpoint filter_printable (f : Filter) : bool :=
  match f with
  | FAnd l | FOr l => match l with [] => false | _ => forallb filter_printable l end
  | FNot f => filter_printable f
  | Equality a _ | GreaterOrEqual a _ | LessOrEqual a _ | Approx a _ | Present a => attr_printable a
  | Substrings a s => attr_printable a && substrings_printable s
  end.

(** Scanning an escaped value yields the value. *)
Lemma scan_escape_byte p b l parts cur ss :
  scan_value p (escape_byte b ++ l) parts cur ss = scan_value (length (escape_byte b) + p) l parts (cur ++ [b]) ss.
Proof. by destruct b. Qed.
Lemma scan_escape p v l parts cur ss :
  exists p', scan_value p (escape_value v ++ l) parts cur ss = scan_value p' l parts (cur ++ v) ss.
Proof.
  revert p cur. induction v as [|b v IH]; intros p cur. { exists p. by rewrite app_nil_r. }
  unfold escape_value in *. cbn [map concat]. rewrite <-app_assoc, scan_escape_byte.
  destruct (IH (length (escape_byte b) + p)%nat (cur ++ [b])) as [p' ->]. exists p'. by rewrite <-app_assoc.
Qed.
Lemma scan_close p l parts cur ss :
  scan_value p (")"%byte :: l) parts cur ss = Ok (parts, cur, ss, mkCursor p (")"%byte :: l)).
Proof. done. Qed.
Lemma scan_star p l parts cur ss :
  scan_value p ("*"%byte :: l) parts cur ss = scan_value (S p) l (parts ++ [cur]) [] true.
Proof. done. Qed.

(** The parts collected from a printed substring list. *)
Definition gather (st : list bytes * bytes) (s : Substring) : list bytes * bytes :=
  match s with
  | Initial v => (st.1, st.2 ++ v)
  | Any v => (st.1 ++ [st.2; v], [])
  | Final v => (st.1, st.2 ++ v)
  end.
Definition is_any (s : Substring) : bool := match s with Any _ => true | _ => false end.

Lemma scan_substrings p s l parts cur ss :
  exists p', scan_value p (concat (map Substring_fmt s) ++ l) parts cur ss =
    scan_value p' l (foldl gather (parts, cur) s).1 (foldl gather (parts, cur) s).2 (ss || existsb is_any s).
Proof.
  revert p parts cur ss. induction s as [|x s IH]; intros p parts cur ss.
  { exists p. by rewrite orb_false_r. }
  cbn [map concat foldl existsb]. rewrite <-app_assoc.
  destruct x as [v|v|v]; cbn [Substring_fmt gather is_any fst snd].
  - destruct (scan_escape p v (concat (map Substring_fmt s) ++ l) parts cur ss) as [p' ->]. apply IH.
  - rewrite <-!app_assoc. change (lit "*") with ["*"%byte]. cbn [app].
    rewrite scan_star. edestruct scan_escape as [p' ->]. cbn [app]. rewrite scan_star, <-app_assoc.
    destruct (IH (S p') (parts ++ [cur; v]) [] true) as [p'' H]. exists p''. cbn [app]. rewrite H.
    by rewrite orb_true_r.
  - destruct (scan_escape p v (concat (map Substring_fmt s) ++ l) parts cur ss) as [p' ->]. apply IH.
Qed.

Lemma nonempty_cons v : nonempty v = true -> exists b l, v = b :: l.
Proof. destruct v; [done|eauto]. Qed.

Lemma gather_any_final s parts cur :
  any_final s = true -> existsb is_any s = true /\ exists m w,
    foldl gather (parts, cur) s = (parts ++ cur :: m, w)
    /\ forall i n, (1 <= i)%nat -> n = (i + length m + 1)%nat -> substring_parts i n (m ++ [w]) = s.
Proof.
  revert parts cur. induction s as [|[v|v|v] s IH]; intros parts cur H; try done.
  split; [done|]. cbn [foldl gather fst snd].
  assert (forall i n, (1 <= i)%nat -> n <> S i -> forall l,
    substring_parts i n (v :: l) = (if nonempty v then [Any v] else []) ++ substring_parts (S i) n l) as Hv.
  { intros i n Hi Hn l. destruct v; [done|]. cbn [substring_parts nonempty app].
    rewrite (proj2 (Nat.eqb_neq i 0)), (proj2 (Nat.eqb_neq i (n - 1))) by lia. done. }
  assert (s = [] \/ (exists w, s = [Final w]) \/ (nonempty v && any_final s = true)) as [->|[[w ->]|Hs]].
  { destruct s as [|y s']; [auto|]. right. destruct y as [u|u|u], s'; cbn [any_final] in *; eauto. }
  - cbn in H. exists [v], []. split; [done|]. intros i n Hi Hni. cbn [length app] in *.
    rewrite Hv, H by lia. done.
  - cbn in H. apply andb_true_iff in H as [H Hw]. exists [v], w. split; [done|]. intros i n Hi Hni.
    cbn [length app] in *. rewrite Hv, H by lia. apply nonempty_cons in Hw as (b & l & ->).
    cbn [app substring_parts]. rewrite (proj2 (Nat.eqb_neq _ 0)), (proj2 (Nat.eqb_eq _ (n - 1))) by lia. done.
  - apply andb_true_iff in Hs as [Hv' Hs].
    destruct (IH (parts ++ [cur; v]) [] Hs) as (_ & m & w & -> & Hm). exists (v :: [] :: m), w. split.
    { by rewrite <-app_assoc. }
    intros i n Hi Hni. cbn [length app] in *. rewrite Hv, Hv' by lia. cbn [app substring_parts].
    f_equal. apply Hm; lia.
Qed.
Lemma gather_printable s parts cur :
  substrings_printable s = true -> foldl gather ([], []) s = (parts, cur) ->
  existsb is_any s = true /\ s <> [] /\ substring_parts 0 (length (parts ++ [cur])) (parts ++ [cur]) = s.
Proof.
  intros H Hg. assert (s <> []) as Hne by (by destruct s).
  destruct s as [|x s']; [done|]. destruct x as [v|v|v]; [|clear Hne|done].
  - apply andb_true_iff in H as [Hv Hs]. cbn [foldl gather fst snd app] in Hg.
    destruct (gather_any_final s' [] v Hs) as (He & m & w & Hm & Hp). rewrite Hm in Hg. injection Hg as <- <-.
    split; [done|]. split; [done|]. apply nonempty_cons in Hv as (b & l & ->). cbn [app substring_parts Nat.eqb].
    f_equal. rewrite length_cons, length_app. apply Hp; cbn [length]; lia.
  - cbn [substrings_printable] in H. destruct (gather_any_final (Any v :: s') [] [] H) as (He & m & w & Hm & Hp).
    rewrite Hm in Hg. injection Hg as <- <-. split; [done|]. split; [done|]. cbn [app substring_parts].
    rewrite length_cons, length_app. apply Hp; cbn [length]; lia.
Qed.

Lemma span_attr_app a op r :
  forallb (fun b => negb (attr_stop b)) a = true -> attr_stop op = true -> span_attr (a ++ op :: r) = (a, op :: r).
Proof.
  induction a as [|b a IH]; cbn [app span_attr forallb]; intros Ha Hop; [by rewrite Hop|].
  apply andb_true_iff in Ha as [Hb Ha]. apply negb_true_iff in Hb. by rewrite Hb, IH.
Qed.

Lemma attr_printable_inv a :
  attr_printable a = true -> nonempty a = true /\ from_utf8 a = Some a
    /\ forallb (fun b => negb (attr_stop b)) a = true /\ trim a = a /\ head a ∉ [Some "&"; Some "|"; Some "!"]%byte.
Proof.
  unfold attr_printable. rewrite !andb_true_iff, negb_true_iff, bool_decide_eq_true, bool_decide_eq_false.
  intros [[[[??]?]?]?]. repeat split; auto using from_utf8_Some.
Qed.

Lemma advance_cons p x l : advance (mkCursor p (x :: l)) = mkCursor (S p) l.
Proof. done. Qed.
Lemma parse_operator_ok op p w :
  op ∈ ["="; "<"; ">"; "~"]%byte ->
  exists p', parse_operator op (mkCursor p ((if bool_decide (op = "="%byte) then [] else ["="%byte]) ++ w))
    = Ok (mkCursor p' w).
Proof.
  intros Hop. assert (op = "="%byte \/ op = "<"%byte \/ op = ">"%byte \/ op = "~"%byte) as [->|[->|[-> | ->]]] by set_solver.
  all: eexists; reflexivity.
Qed.

Lemma parse_inner_simple n p a op w tok r :
  attr_printable a = true -> op ∈ ["="; "<"; ">"; "~"]%byte ->
  (forall q, exists q', parse_value (mkCursor q (w ++ ")"%byte :: r)) = Ok (tok, mkCursor q' (")"%byte :: r))) ->
  exists p', parse_filter_inner (S n)
    (mkCursor p ("("%byte :: a ++ op :: (if bool_decide (op = "="%byte) then [] else ["="%byte]) ++ w ++ ")"%byte :: r))
    = Ok (simple_filter op a tok, mkCursor p' r).
Proof.
  intros (Hne & Hutf & Hst & Htr & Hhd)%attr_printable_inv Hop Hv. cbn [parse_filter_inner rest pos].
  change (bool_decide ("("%byte = "("%byte)) with true. cbn [negb]. unfold advance. cbn [rest pos].
  change (drop 1 (?x :: ?l)) with l. apply nonempty_cons in Hne as (x & a' & ->). cbn [app].
  rewrite (bool_decide_eq_false_2 (x = "&"%byte)), (bool_decide_eq_false_2 (x = "|"%byte)),
    (bool_decide_eq_false_2 (x = "!"%byte)) by (intros ->; apply Hhd; set_solver). cbn [orb].
  unfold parse_simple_filter. cbn [rest pos]. change (x :: a' ++ ?l) with ((x :: a') ++ l).
  assert (attr_stop op = true) as Hs by (apply bool_decide_eq_true_2; set_solver).
  rewrite span_attr_app by done. rewrite Hutf. cbn [ok_or rbind]. rewrite Htr.
  destruct (parse_operator_ok op (S (S p + length (x :: a'))) (w ++ ")"%byte :: r) Hop) as [q ->].
  destruct (Hv q) as [q' Hq]. cbn [rbind]. rewrite Hq. cbn [rbind fst snd rest pos].
  change (bool_decide (")"%byte = ")"%byte)) with true. eexists. reflexivity.
Qed.

Lemma parse_single v r q :
  exists q', parse_value (mkCursor q (escape_value v ++ ")"%byte :: r)) = Ok (VSingle v, mkCursor q' (")"%byte :: r)).
Proof.
  unfold parse_value. cbn [pos rest]. destruct (scan_escape q v (")"%byte :: r) [] [] false) as [q' ->].
  rewrite scan_close. cbn [rbind]. by exists q'.
Qed.
Lemma parse_substrings s r q :
  substrings_printable s = true ->
  exists q', parse_value (mkCursor q (concat (map Substring_fmt s) ++ ")"%byte :: r))
    = Ok (VSubstrings s, mkCursor q' (")"%byte :: r)).
Proof.
  intros Hs. unfold parse_value. cbn [pos rest].
  destruct (scan_substrings q s (")"%byte :: r) [] [] false) as [q' ->]. rewrite scan_close. cbn [rbind orb].
  destruct (foldl gather ([], []) s) as [parts cur] eqn:Hg. cbn [fst snd].
  destruct (gather_printable s parts cur Hs Hg) as (-> & Hne & ->). destruct s; [done|]. by exists q'.
Qed.

Lemma Filter_fmt_open f : head (Filter_fmt f) = Some "("%byte.
Proof. by destruct f. Qed.
Lemma Filter_fmt_nonempty f : (1 <= length (Filter_fmt f))%nat.
Proof. pose proof (Filter_fmt_open f). destruct (Filter_fmt f); [done|cbn; lia]. Qed.

Definition parses (f : Filter) : Prop := forall n p r,
  filter_printable f = true -> (length (Filter_fmt f) <= n)%nat ->
  exists p', parse_filter_inner n (mkCursor p (Filter_fmt f ++ r)) = Ok (f, mkCursor p' r).

Lemma while_open_fmt n k l p r :
  Forall parses l -> forallb filter_printable l = true -> (length (concat (map Filter_fmt l)) <= n)%nat ->
  (length l <= k)%nat -> head r <> Some "("%byte ->
  exists p', while_open (parse_filter_inner n) k (mkCursor p (concat (map Filter_fmt l) ++ r)) = Ok (l, mkCursor p' r).
Proof.
  intros HF. revert k p. induction HF as [|f l Hf HF IH]; intros k p Hp Hn Hk Hr.
  { exists p. destruct k; cbn [map concat app while_open rest]; by rewrite bool_decide_eq_false_2. }
  cbn [map concat forallb length] in *. rewrite length_app in Hn. apply andb_true_iff in Hp as [Hpf Hpl].
  destruct k as [|k]; [lia|]. cbn [while_open rest]. rewrite <-app_assoc.
  rewrite bool_decide_eq_true_2 by (pose proof (Filter_fmt_open f); by destruct (Filter_fmt f)).
  destruct (Hf n p (concat (map Filter_fmt l) ++ r) Hpf ltac:(lia)) as [q ->]. cbn [rbind fst snd].
  destruct (IH k q Hpl ltac:(lia) ltac:(lia) Hr) as [q' ->]. by exists q'.
Qed.

(** The two set operators share their arm of the parser. *)
Lemma parse_inner_set n p op l r :
  op ∈ ["&"; "|"]%byte -> l <> [] -> Forall parses l -> forallb filter_printable l = true ->
  (length (concat (map Filter_fmt l)) <= n)%nat ->
  exists p', parse_filter_inner (S n) (mkCursor p ("("%byte :: op :: concat (map Filter_fmt l) ++ ")"%byte :: r))
    = Ok (if bool_decide (op = "&"%byte) then FAnd l else FOr l, mkCursor p' r).
Proof.
  intros Hop Hne HF Hp Hn. cbn [parse_filter_inner rest pos].
  change (bool_decide ("("%byte = "("%byte)) with true. cbn [negb]. rewrite !advance_cons. cbn [rest pos]. rewrite ?advance_cons. cbn [rest pos].
  assert (bool_decide (op = "&"%byte) || bool_decide (op = "|"%byte) = true) as ->.
  { rewrite orb_true_iff, !bool_decide_eq_true. set_solver. }
  assert (length l <= length (concat (map Filter_fmt l) ++ ")"%byte :: r))%nat as Hk.
  { rewrite length_app. cbn [length]. clear. induction l as [|f l IH]; [cbn; lia|]. cbn [map concat length].
    rewrite length_app. pose proof (Filter_fmt_nonempty f). lia. }
  destruct (while_open_fmt n _ l (S (S p)) (")"%byte :: r) HF Hp Hn Hk ltac:(done)) as [q Hq].
  rewrite Hq. cbn [rbind fst snd]. destruct l as [|f l]; [done|]. cbn [rbind rest pos].
  change (bool_decide (")"%byte = ")"%byte)) with true. by eexists.
Qed.
Lemma parse_inner_not n p f r :
  parses f -> filter_printable f = true -> (length (Filter_fmt f) <= n)%nat ->
  exists p', parse_filter_inner (S n) (mkCursor p ("("%byte :: "!"%byte :: Filter_fmt f ++ ")"%byte :: r))
    = Ok (FNot f, mkCursor p' r).
Proof.
  intros Hf Hp Hn. cbn [parse_filter_inner rest pos].
  change (bool_decide ("("%byte = "("%byte)) with true. cbn [negb]. rewrite !advance_cons. cbn [rest pos]. rewrite ?advance_cons. cbn [rest pos].
  change (bool_decide ("!"%byte = "&"%byte) || bool_decide ("!"%byte = "|"%byte)) with false.
  change (bool_decide ("!"%byte = "!"%byte)) with true. cbn match.
  destruct (Hf n (S (S p)) (")"%byte :: r) Hp Hn) as [q ->]. cbn [rbind fst snd rest pos].
  change (bool_decide (")"%byte = ")"%byte)) with true. by eexists.
Qed.

(** Evaluates the literals. *)
Ltac eval_lit := repeat match goal with
  | |- context [lit ?s] => let v := eval vm_compute in (lit s) in change (lit s) with v in *
  end.
Lemma parse_fmt f : parses f.
Proof.
  induction f as [l IH|l IH|f IH|a v|a s|a v|a v|a|a v] using Filter_ind'; intros n p r Hp Hn;
    cbn [Filter_fmt filter_printable] in *; eval_lit; cbn [app length] in *; rewrite ?length_app in Hn; cbn [length] in Hn;
    (destruct n as [|n]; [lia|]); rewrite <-?app_assoc; cbn [app]; rewrite <-?app_assoc; cbn [app].
  - destruct (parse_inner_set n p "&"%byte l r) as [p' H]; [set_solver|by destruct l|done|by destruct l|lia|].
    by exists p'.
  - destruct (parse_inner_set n p "|"%byte l r) as [p' H]; [set_solver|by destruct l|done|by destruct l|lia|].
    by exists p'.
  - apply parse_inner_not; [done..|lia].
  - apply (parse_inner_simple n p a "="%byte (escape_value v) (VSingle v) r Hp); [set_solver|apply parse_single].
  - apply andb_true_iff in Hp as [Ha Hs].
    apply (parse_inner_simple n p a "="%byte (concat (map Substring_fmt s)) (VSubstrings s) r Ha);
      [set_solver|]. intros q. by apply parse_substrings.
  - apply (parse_inner_simple n p a ">"%byte (escape_value v) (VSingle v) r Hp); [set_solver|apply parse_single].
  - apply (parse_inner_simple n p a "<"%byte (escape_value v) (VSingle v) r Hp); [set_solver|apply parse_single].
  - apply (parse_inner_simple n p a "="%byte ["*"%byte] VPresent r Hp); [set_solver|]. intros q. by eexists.
  - apply (parse_inner_simple n p a "~"%byte (escape_value v) (VSingle v) r Hp); [set_solver|apply parse_single].
Qed.

(** ** The parser terminates on every input *)

(** [consumes k l r]: [r] is not a panic, and a success leaves at most
    [length l - k] bytes. *)
Definition consumes {A} (k : nat) (l : bytes) (r : Result FilterParseError (A * Cursor)) : Prop :=
  match r with Ok (_, c) => (length (rest c) + k <= length l)%nat | Err _ => True | Panic => False end.

Lemma consumes_bind {A B} k l (r : Result FilterParseError (A * Cursor)) (f : A * Cursor -> Result FilterParseError (B * Cursor)) j :
  consumes j l r -> (forall a c, (length (rest c) + j <= length l)%nat -> consumes k l (f (a, c))) ->
  consumes k l (rbind r f).
Proof. destruct r as [[a c]| |]; cbn; auto. Qed.

Lemma hex_digit_no_panic b : hex_digit b <> Panic.
Proof. unfold hex_digit. by repeat case_match. Qed.
Lemma scan_value_consumes p l parts cur ss : consumes 0 l (scan_value p l parts cur ss).
Proof.
  enough (forall n l, (length l <= n)%nat -> forall p parts cur ss, consumes 0 l (scan_value p l parts cur ss)) by eauto.
  clear. intros n. induction n as [|n IH]; intros [|b l] Hn p parts cur ss; cbn [length] in Hn; try lia; try (cbn; lia).
  assert (forall k l' p' parts' cur' ss', (length l' + k = length l)%nat ->
    consumes 0 (b :: l) (scan_value p' l' parts' cur' ss')) as Hrec.
  { intros k l' p' parts' cur' ss' Hl. specialize (IH l' ltac:(lia) p' parts' cur' ss').
    destruct (scan_value p' l' _ _ _) as [[? c]| |]; cbn in *; [lia|done|done]. }
  cbn [scan_value]. case_match; [cbn; lia|]. case_match; [by apply (Hrec 0%nat)|].
  case_match; [|by apply (Hrec 0%nat)]. destruct l as [|b1 [|b2 l]]; [done..|].
  pose proof (hex_digit_no_panic b1). destruct (hex_digit b1); [|done|done]. cbn [rbind].
  pose proof (hex_digit_no_panic b2). destruct (hex_digit b2); [|done|done]. cbn [rbind].
  apply (Hrec 2%nat). cbn [length]. lia.
Qed.
Lemma parse_value_consumes c : consumes 0 (rest c) (parse_value c).
Proof.
  unfold parse_value. eapply consumes_bind; [apply scan_value_consumes|].
  intros [[parts cur] ss] c' Hc. destruct ss; [|done]. by destruct (substring_parts _ _ _).
Qed.
Lemma span_attr_length l : (length (span_attr l).1 + length (span_attr l).2 = length l)%nat.
Proof.
  induction l as [|b l IH]; [done|]. cbn [span_attr]. case_match; [done|].
  destruct (span_attr l). cbn in *. lia.
Qed.
Lemma parse_simple_consumes c : consumes 1 (rest c) (parse_simple_filter c).
Proof.
  unfold parse_simple_filter. pose proof (span_attr_length (rest c)) as Hl.
  destruct (span_attr (rest c)) as [a [|op r]]; [done|]. cbn [fst snd length] in Hl.
  destruct (from_utf8 a) as [b|]; [|done]. cbn [ok_or rbind]. destruct (trim b) as [|x t]; [done|].
  assert (forall c', (length (rest c') <= length r)%nat ->
    consumes 1 (rest c) (let? vc := parse_value c' in Ok (simple_filter op (x :: t) vc.1, vc.2))) as Hv.
  { intros c' Hc'. pose proof (parse_value_consumes c') as H. destruct (parse_value c') as [[v c'']| |]; cbn in *; [lia|done|done]. }
  unfold parse_operator. case_match.
  - cbn [rest pos]. destruct r as [|e r']; [done|]. case_match; [|done]. cbn [rbind].
    apply Hv. rewrite advance_cons. cbn. lia.
  - case_match; [done|]. cbn [rbind]. by apply Hv.
Qed.
Lemma while_open_consumes (f : Cursor -> Result FilterParseError (Filter * Cursor)) k c :
  (length (rest c) <= k)%nat ->
  (forall c', (length (rest c') <= length (rest c))%nat -> consumes 1 (rest c') (f c')) ->
  consumes 0 (rest c) (while_open f k c).
Proof.
  revert c. induction k as [|k IH]; intros c Hk Hf; cbn [while_open].
  { destruct c as [p [|b l]]; [|cbn in Hk; lia]. cbn [rest]. rewrite bool_decide_eq_false_2 by done. done. }
  case_match; [|cbn; lia]. pose proof (Hf c ltac:(lia)) as Hc. destruct (f c) as [[x c']| |]; [|done|done].
  cbn [rbind fst snd consumes] in *. specialize (IH c' ltac:(lia) ltac:(intros; apply Hf; lia)).
  destruct (while_open f k c') as [[xs c'']| |]; cbn in *; [lia|done|done].
Qed.
Lemma parse_inner_consumes n c : (length (rest c) < n)%nat -> consumes 1 (rest c) (parse_filter_inner n c).
Proof.
  revert c. induction n as [|n IH]; intros c Hn; [lia|]. cbn [parse_filter_inner].
  destruct c as [p l]. cbn [rest pos] in *. destruct l as [|b0 l]; [done|]. case_match; [done|].
  rewrite advance_cons. cbn [rest pos length] in *. destruct l as [|op l]; [done|]. cbn [length] in Hn.
  eapply (consumes_bind _ _ _ _ 1).
  - case_match; [|case_match].
    + rewrite advance_cons. cbn [rest pos]. pose proof (while_open_consumes (parse_filter_inner n) (length l)
        (mkCursor (S (S p)) l) ltac:(done) ltac:(intros; apply IH; cbn in *; lia)) as H'.
      destruct (while_open _ _ _) as [[[|x xs] c']| |]; cbn in *; [done|lia|done|done].
    + rewrite advance_cons. pose proof (IH (mkCursor (S (S p)) l) ltac:(cbn; lia)) as H'.
      destruct (parse_filter_inner n _) as [[x c']| |]; cbn in *; [lia|done|done].
    + pose proof (parse_simple_consumes (mkCursor (S p) (op :: l))) as H'.
      destruct (parse_simple_filter _) as [[x c']| |]; cbn in *; [lia|done|done].
  - intros f c' Hc'. destruct c' as [p' [|b l']]; [done|]. cbn [rest pos]. case_match; [|done].
    rewrite advance_cons. cbn in *. lia.
Qed.
Lemma skip_ws_length p l : (length (rest (skip_ws p l)) <= length l)%nat.
Proof. revert p. induction l as [|b l IH]; intros p; cbn; [lia|]. case_match; [|cbn; lia]. specialize (IH (S p)). lia. Qed.
Lemma parse_filter_no_panic s : parse_filter s <> Panic.
Proof.
  unfold parse_filter. pose proof (skip_ws_length 0 s).
  pose proof (parse_inner_consumes (S (length s)) (skip_ws 0 s) ltac:(lia)) as H'.
  destruct (parse_filter_inner _ _) as [[f c]| |]; [|done|done]. cbn [rbind]. by case_match.
Qed.

Lemma skip_ws_all p w l :
  Forall (fun b => is_ascii_whitespace b = true) w ->
  (forall b, head l = Some b -> is_ascii_whitespace b = false) ->
  skip_ws p (w ++ l) = mkCursor (p + length w) l.
Proof.
  intros Hw Hl. revert p. induction Hw as [|b w Hb Hw IH]; intros p; cbn [app skip_ws length].
  - rewrite Nat.add_0_r. destruct l as [|b l]; [done|]. cbn. by rewrite Hl.
  - rewrite Hb, IH. f_equal. lia.
Qed.

Lemma parse_filter_fmt f before after :
  filter_printable f = true ->
  Forall (fun b => is_ascii_whitespace b = true) before -> Forall (fun b => is_ascii_whitespace b = true) after ->
  parse_filter (before ++ Filter_fmt f ++ after) = Ok f.
Proof.
  intros Hp Hb Ha. unfold parse_filter. pose proof (Filter_fmt_open f) as Ho. rewrite skip_ws_all; [|done|].
  2: { intros b Hh. destruct (Filter_fmt f); [done|]. cbn in *. by simplify_eq. }
  destruct (parse_fmt f (S (length (before ++ Filter_fmt f ++ after))) (0 + length before)%nat after Hp) as [p' ->].
  { rewrite !length_app. lia. }
  cbn [rbind fst snd pos rest]. rewrite <-(app_nil_r after) at 1. by rewrite skip_ws_all.
Qed.

(** Filter text: parsing is total, and for every printable filter (text
    attribute names, no empty set, substring lists with an inner part) the
    parser reads the printed form back, with any ASCII white space around it. *)
Theorem filter_string_roundtrip (f : Filter) (before after : bytes) :
  filter_printable f = true ->
  Forall (fun b => is_ascii_whitespace b = true) before -> Forall (fun b => is_ascii_whitespace b = true) after ->
  parse_filter (before ++ Filter_fmt f ++ after) = Ok f
  /\ forall s, (exists g, parse_filter s = Ok g) \/ (exists e, parse_filter s = Err e).
Proof.
  intros Hp Hb Ha. split.
  - by apply parse_filter_fmt.
  - intros s. pose proof (parse_filter_no_panic s). destruct (parse_filter s); [left|right|done]; eauto.
Qed.
Lemma filter_string_roundtrip_witness :
  parse_filter (lit " (&(cn=al*i*ce)(!(x<=\28))) ") =
  Ok (FAnd [Substrings (lit "cn") [Initial (lit "al"); Any (lit "i"); Final (lit "ce")];
            FNot (LessOrEqual (lit "x") (lit "("))]).
Proof.
  refine (proj1 (filter_string_roundtrip
    (FAnd [Substrings (lit "cn") [Initial (lit "al"); Any (lit "i"); Final (lit "ce")];
           FNot (LessOrEqual (lit "x") (lit "("))]) (lit " ") (lit " ") _ _ _)).
  - by vm_compute.
  - repeat constructor.
  - repeat constructor.
Defined.

(** Printing a substring filter without an inner part drops its star: with
    only an initial part, only a final part, or just the two, the text is that of
    an equality filter and parses as one, so the string form does not convert
    back. *)
Theorem filter_display_drops_star (a v w : bytes) :
  attr_printable a = true ->
  parse_filter (Filter_fmt (Substrings a [Initial v])) = Ok (Equality a v)
  /\ parse_filter (Filter_fmt (Substrings a [Final v])) = Ok (Equality a v)
  /\ parse_filter (Filter_fmt (Substrings a [Initial v; Final w])) = Ok (Equality a (v ++ w)).
Proof.
  intros Ha. assert (forall u, parse_filter (Filter_fmt (Equality a u)) = Ok (Equality a u)) as Heq.
  { intros u. rewrite <-(app_nil_r (Filter_fmt _)). by apply (parse_filter_fmt _ [] []). }
  assert (Filter_fmt (Substrings a [Initial v; Final w]) = Filter_fmt (Equality a (v ++ w))) as ->.
  { cbn [Filter_fmt map concat Substring_fmt]. unfold escape_value. by rewrite map_app, concat_app, app_nil_r. }
  assert (Filter_fmt (Substrings a [Initial v]) = Filter_fmt (Equality a v)) as ->.
  { cbn [Filter_fmt map concat Substring_fmt]. by rewrite app_nil_r. }
  assert (Filter_fmt (Substrings a [Final v]) = Filter_fmt (Equality a v)) as ->.
  { cbn [Filter_fmt map concat Substring_fmt]. by rewrite app_nil_r. }
  auto.
Qed.
Lemma filter_display_drops_star_witness :
  parse_filter (Filter_fmt (Substrings (lit "cn") [Initial (lit "al"); Final (lit "ce")])) = Ok (Equality (lit "cn") (lit "alce")).
Proof. refine (proj2 (proj2 (filter_display_drops_star (lit "cn") (lit "al") (lit "ce") _))). by vm_compute. Defined.
