(* ===== verification/LdapTypes.v ===== *)
(** * LdapTypes: LDAP messages (crate [adrian-directory-service], [types.rs])

    The protocol operations, their BER encoders and decoders, and the message
    envelope.  An encoder that appends to [out] returns the bytes it appends. *)
From S2P Require Import Prelude Bytes Text Ber LdapFilter.

(** [z as i32]. *)
Definition as_i32 (z : Z) : Z := let m := z mod 2 ^ 32 in if m <? 2 ^ 31 then m else m - 2 ^ 32.
Definition is_i32 (z : Z) : Prop := - 2 ^ 31 <= z < 2 ^ 31.
#[global] Instance is_i32_dec z : Decision (is_i32 z).
Proof. unfold is_i32; apply _. Defined.

(** [if tlv.tag != expected { return Err(UnexpectedTag { .. }) }]. *)
Definition expect_tag (expected : Z) (t : Tlv) : Result BerError unit :=
  if tlv_tag t =? expected then Ok tt else Err (BerUnexpectedTag expected (tlv_tag t)).

(** ** Result codes *)

Inductive ResultCode :=
| Success | OperationsError | ProtocolError | TimeLimitExceeded | SizeLimitExceeded | CompareFalse
| CompareTrue | AuthMethodNotSupported | StrongerAuthRequired | Referral | AdminLimitExceeded
| NoSuchAttribute | UndefinedAttributeType | InappropriateMatching | ConstraintViolation
| AttributeOrValueExists | InvalidAttributeSyntax | NoSuchObject | InvalidDNSyntax
| InappropriateAuthentication | InvalidCredentials | InsufficientAccessRights | Busy | Unavailable
| UnwillingToPerform | LoopDetect | NamingViolation | ObjectClassViolation | NotAllowedOnNonLeaf
| EntryAlreadyExists | OtherCode.

(** The discriminants ([*self as i64]). *)
Definition ResultCode_value (c : ResultCode) : Z :=
  match c with
  | Success => 0 | OperationsError => 1 | ProtocolError => 2 | TimeLimitExceeded => 3
  | SizeLimitExceeded => 4 | CompareFalse => 5 | CompareTrue => 6 | AuthMethodNotSupported => 7
  | StrongerAuthRequired => 8 | Referral => 10 | AdminLimitExceeded => 11 | NoSuchAttribute => 16
  | UndefinedAttributeType => 17 | InappropriateMatching => 18 | ConstraintViolation => 19
  | AttributeOrValueExists => 20 | InvalidAttributeSyntax => 21 | NoSuchObject => 32
  | InvalidDNSyntax => 34 | InappropriateAuthentication => 48 | InvalidCredentials => 49
  | InsufficientAccessRights => 50 | Busy => 51 | Unavailable => 52 | UnwillingToPerform => 53
  | LoopDetect => 54 | NamingViolation => 64 | ObjectClassViolation => 65 | NotAllowedOnNonLeaf => 66
  | EntryAlreadyExists => 68 | OtherCode => 80
  end.
Definition ResultCode_encode (c : ResultCode) : bytes := encode_enumerated (ResultCode_value c).

Definition ResultCode_of (n : Z) : ResultCode :=
  match n with
  | 0 => Success | 1 => OperationsError | 2 => ProtocolError | 3 => TimeLimitExceeded
  | 4 => SizeLimitExceeded | 5 => CompareFalse | 6 => CompareTrue | 7 => AuthMethodNotSupported
  | 8 => StrongerAuthRequired | 10 => Referral | 11 => AdminLimitExceeded | 16 => NoSuchAttribute
  | 17 => UndefinedAttributeType | 18 => InappropriateMatching | 19 => ConstraintViolation
  | 20 => AttributeOrValueExists | 21 => InvalidAttributeSyntax | 32 => NoSuchObject
  | 34 => InvalidDNSyntax | 48 => InappropriateAuthentication | 49 => InvalidCredentials
  | 50 => InsufficientAccessRights | 51 => Busy | 52 => Unavailable | 53 => UnwillingToPerform
  | 54 => LoopDetect | 64 => NamingViolation | 65 => ObjectClassViolation | 66 => NotAllowedOnNonLeaf
  | 68 => EntryAlreadyExists | _ => OtherCode
  end.
Definition ResultCode_decode_from_value (value : bytes) : Result BerError ResultCode :=
  let? n := decode_integer_value value in Ok (ResultCode_of n).

(** ** [LDAPResult] *)

Record LdapResult := mkLdapResult {
  result_code : ResultCode;
  matched_dn : bytes;
  diagnostic_message : bytes;
}.
Definition LdapResult_success : LdapResult := mkLdapResult Success [] [].
Definition LdapResult_error (code : ResultCode) (diagnostic : bytes) : LdapResult :=
  mkLdapResult code [] diagnostic.

Definition encode_components (r : LdapResult) : bytes :=
  ResultCode_encode (result_code r) ++ encode_string (matched_dn r) ++ encode_string (diagnostic_message r).

Definition decode_components (b : bytes) : Result BerError (LdapResult * bytes) :=
  let? cr := decode_tlv b in
  let '(code_tlv, rest) := cr in
  let? _ := expect_tag TAG_ENUMERATED code_tlv in
  let? code := ResultCode_decode_from_value (tlv_value code_tlv) in
  let? dr := decode_tlv rest in
  let '(dn_tlv, rest) := dr in
  let? _ := expect_tag TAG_OCTET_STRING dn_tlv in
  let? matched := decode_string_value (tlv_value dn_tlv) in
  let? mr := decode_tlv rest in
  let '(msg_tlv, rest) := mr in
  let? _ := expect_tag TAG_OCTET_STRING msg_tlv in
  let? diagnostic := decode_string_value (tlv_value msg_tlv) in
  Ok (mkLdapResult code matched diagnostic, rest).

(** The five response types that wrap an [LDAPResult] and nothing else share
    the body of [encode] and [decode_from_value]. *)
Definition encode_result (tag : Z) (r : LdapResult) : bytes := encode_tlv tag (encode_components r).
Definition decode_result (value : bytes) : Result BerError LdapResult :=
  let? rr := decode_components value in
  let '(result, rest) := rr in
  let? _ := no_trailing rest in
  Ok result.

(** ** Search *)

Record SearchRequest := mkSearchRequest {
  base_dn : bytes;
  scope : Z;
  deref_aliases : Z;
  size_limit : Z;
  time_limit : Z;
  sr_filter : Filter;
  sr_attributes : list bytes;
  types_only : bool;
}.

Definition SearchRequest_encode (r : SearchRequest) : bytes :=
  encode_tlv APP_SEARCH_REQUEST
    (encode_string (base_dn r) ++ encode_enumerated (scope r) ++ encode_enumerated (deref_aliases r)
     ++ encode_integer (size_limit r) ++ encode_integer (time_limit r) ++ encode_bool (types_only r)
     ++ Filter_encode (sr_filter r) ++ encode_sequence (map encode_string (sr_attributes r))).

Definition SearchRequest_decode_from_value (value : bytes) : Result BerError SearchRequest :=
  let? tr := decode_tlv value in
  let '(base_tlv, rest) := tr in
  let? base := decode_string_value (tlv_value base_tlv) in
  let? tr := decode_tlv rest in
  let '(scope_tlv, rest) := tr in
  let? _ := expect_tag TAG_ENUMERATED scope_tlv in
  let? scope_n := decode_integer_value (tlv_value scope_tlv) in
  let? tr := decode_tlv rest in
  let '(deref_tlv, rest) := tr in
  let? deref_n := decode_integer_value (tlv_value deref_tlv) in
  let? tr := decode_tlv rest in
  let '(size_tlv, rest) := tr in
  let? size_n := decode_integer_value (tlv_value size_tlv) in
  let? tr := decode_tlv rest in
  let '(time_tlv, rest) := tr in
  let? time_n := decode_integer_value (tlv_value time_tlv) in
  let? tr := decode_tlv rest in
  let '(types_tlv, rest) := tr in
  let? _ := expect_tag TAG_BOOLEAN types_tlv in
  let? types := decode_bool_value (tlv_value types_tlv) in
  let? tr := decode_tlv rest in
  let '(filter_tlv, rest) := tr in
  let? f := Filter_decode_from_tlv (tlv_tag filter_tlv) (tlv_value filter_tlv) in
  let? tr := decode_tlv rest in
  let '(attrs_tlv, rest) := tr in
  let? _ := expect_tag TAG_SEQUENCE attrs_tlv in
  let? attributes := decode_tlvs (fun t => decode_string_value (tlv_value t)) (tlv_value attrs_tlv) in
  let? _ := no_trailing rest in
  Ok (mkSearchRequest base (as_u8 scope_n) (as_u8 deref_n) (as_i32 size_n) (as_i32 time_n) f attributes types).

(** A [PartialAttribute]: a name and its values. *)
Abbreviation PartialAttribute := (bytes * list bytes)%type.

(** The encoding of one attribute, the same in the entry, add and modify
    encoders: [SEQUENCE { type, SET OF value }]. *)
Definition encode_partial_attribute (pa : PartialAttribute) : bytes :=
  encode_tlv TAG_SEQUENCE (encode_string pa.1 ++ encode_set (map (encode_tlv TAG_OCTET_STRING) pa.2)).

(** The values of an attribute: any TLV is accepted. *)
Definition decode_values (set_value : bytes) : Result BerError (list bytes) :=
  decode_tlvs (fun t => Ok (tlv_value t)) set_value.

Definition decode_partial_attribute (pa_tlv : Tlv) : Result BerError PartialAttribute :=
  let? _ := expect_tag TAG_SEQUENCE pa_tlv in
  let? tr := decode_tlv (tlv_value pa_tlv) in
  let '(name_tlv, pa_rest) := tr in
  let? name := decode_string_value (tlv_value name_tlv) in
  let? tr := decode_tlv pa_rest in
  let '(set_tlv, pa_rest) := tr in
  let? _ := expect_tag TAG_SET set_tlv in
  let? vals := decode_values (tlv_value set_tlv) in
  let? _ := no_trailing pa_rest in
  Ok (name, vals).

(** An entry: a DN and its attributes; the body of both [SearchResultEntry] and
    [AddRequest]. *)
Definition encode_entry (tag : Z) (name : bytes) (attributes : list PartialAttribute) : bytes :=
  encode_tlv tag (encode_string name ++ encode_sequence (map encode_partial_attribute attributes)).
Definition decode_entry (value : bytes) : Result BerError (bytes * list PartialAttribute) :=
  let? tr := decode_tlv value in
  let '(dn_tlv, rest) := tr in
  let? name := decode_string_value (tlv_value dn_tlv) in
  let? tr := decode_tlv rest in
  let '(list_tlv, rest) := tr in
  let? _ := expect_tag TAG_SEQUENCE list_tlv in
  let? attributes := decode_tlvs decode_partial_attribute (tlv_value list_tlv) in
  let? _ := no_trailing rest in
  Ok (name, attributes).

Record SearchResultEntry := mkSearchResultEntry { sre_dn : bytes; sre_attributes : list PartialAttribute }.
Definition SearchResultEntry_encode (e : SearchResultEntry) : bytes :=
  encode_entry APP_SEARCH_RESULT_ENTRY (sre_dn e) (sre_attributes e).
Definition SearchResultEntry_decode_from_value (value : bytes) : Result BerError SearchResultEntry :=
  let? e := decode_entry value in Ok (mkSearchResultEntry e.1 e.2).

Record SearchResultDone := mkSearchResultDone { srd_result : LdapResult }.
Definition SearchResultDone_encode (r : SearchResultDone) : bytes :=
  encode_result APP_SEARCH_RESULT_DONE (srd_result r).
Definition SearchResultDone_decode_from_value (value : bytes) : Result BerError SearchResultDone :=
  let? r := decode_result value in Ok (mkSearchResultDone r).

(** ** Bind and unbind *)

Record SaslCredentials := mkSasl { mechanism : bytes; credentials : option bytes }.
Inductive AuthenticationChoice := Simple (pw : bytes) | Sasl (creds : SaslCredentials).
Record BindRequest := mkBindRequest {
  version : Z;
  bind_name : bytes;
  authentication : AuthenticationChoice;
}.

Definition encode_authentication (a : AuthenticationChoice) : bytes :=
  match a with
  | Simple pw => encode_tlv AUTH_SIMPLE pw
  | Sasl sasl =>
      encode_tlv AUTH_SASL (encode_string (mechanism sasl)
        ++ match credentials sasl with Some creds => encode_tlv TAG_OCTET_STRING creds | None => [] end)
  end.
Definition BindRequest_encode (r : BindRequest) : bytes :=
  encode_tlv APP_BIND_REQUEST
    (encode_integer (version r) ++ encode_string (bind_name r) ++ encode_authentication (authentication r)).

(** A trailing optional TLV, of any tag. *)
Definition decode_optional (rest : bytes) : Result BerError (option bytes) :=
  match rest with
  | [] => Ok None
  | _ =>
      let? tr := decode_tlv rest in
      let '(cred_tlv, rest) := tr in
      let? _ := no_trailing rest in
      Ok (Some (tlv_value cred_tlv))
  end.

Definition decode_authentication (auth_tlv : Tlv) : Result BerError AuthenticationChoice :=
  if tlv_tag auth_tlv =? AUTH_SIMPLE then Ok (Simple (tlv_value auth_tlv))
  else if tlv_tag auth_tlv =? AUTH_SASL then
    let? tr := decode_tlv (tlv_value auth_tlv) in
    let '(mech_tlv, sasl_rest) := tr in
    let? mech := decode_string_value (tlv_value mech_tlv) in
    let? creds := decode_optional sasl_rest in
    Ok (Sasl (mkSasl mech creds))
  else Err (BerUnexpectedTag AUTH_SIMPLE (tlv_tag auth_tlv)).

Definition BindRequest_decode_from_value (value : bytes) : Result BerError BindRequest :=
  let? tr := decode_tlv value in
  let '(ver_tlv, rest) := tr in
  let? _ := expect_tag TAG_INTEGER ver_tlv in
  let? ver := decode_integer_value (tlv_value ver_tlv) in
  let? tr := decode_tlv rest in
  let '(name_tlv, rest) := tr in
  let? name := decode_string_value (tlv_value name_tlv) in
  let? tr := decode_tlv rest in
  let '(auth_tlv, rest) := tr in
  let? auth := decode_authentication auth_tlv in
  let? _ := no_trailing rest in
  Ok (mkBindRequest (as_u8 ver) name auth).

Record BindResponse := mkBindResponse { br_result : LdapResult; server_sasl_creds : option bytes }.
Definition BindResponse_success : BindResponse := mkBindResponse LdapResult_success None.
Definition BindResponse_error (code : ResultCode) (diagnostic : bytes) : BindResponse :=
  mkBindResponse (LdapResult_error code diagnostic) None.
Definition BindResponse_encode (r : BindResponse) : bytes :=
  encode_tlv APP_BIND_RESPONSE (encode_components (br_result r)
    ++ match server_sasl_creds r with Some creds => encode_tlv (Z.lor CLASS_CONTEXT 7) creds | None => [] end).
Definition BindResponse_decode_from_value (value : bytes) : Result BerError BindResponse :=
  let? rr := decode_components value in
  let '(result, rest) := rr in
  let? creds := decode_optional rest in
  Ok (mkBindResponse result creds).

Definition UnbindRequest_encode : bytes := encode_tlv APP_UNBIND_REQUEST [].
Definition UnbindRequest_decode_from_value (value : bytes) : Result BerError unit := no_trailing value.

(** ** Modify *)

Inductive ModificationOp := ModAdd | ModDelete | ModReplace.
Definition ModificationOp_value (op : ModificationOp) : Z :=
  match op with ModAdd => 0 | ModDelete => 1 | ModReplace => 2 end.
Definition ModificationOp_encode (op : ModificationOp) : bytes := encode_enumerated (ModificationOp_value op).
Definition ModificationOp_decode_from_value (value : bytes) : Result BerError ModificationOp :=
  let? n := decode_integer_value value in
  match n with
  | 0 => Ok ModAdd | 1 => Ok ModDelete | 2 => Ok ModReplace
  | _ => Err (BerOutOfRange n)
  end.

Record Change := mkChange { operation : ModificationOp; modification : PartialAttribute }.
Record ModifyRequest := mkModifyRequest { modify_object : bytes; changes : list Change }.

Definition encode_change (c : Change) : bytes :=
  encode_tlv TAG_SEQUENCE (ModificationOp_encode (operation c) ++ encode_partial_attribute (modification c)).
Definition ModifyRequest_encode (r : ModifyRequest) : bytes :=
  encode_tlv APP_MODIFY_REQUEST
    (encode_string (modify_object r) ++ encode_tlv TAG_SEQUENCE (concat (map encode_change (changes r)))).

(** The bytes after the attribute of a change are not looked at. *)
Definition decode_change (change_tlv : Tlv) : Result BerError Change :=
  let? _ := expect_tag TAG_SEQUENCE change_tlv in
  let? tr := decode_tlv (tlv_value change_tlv) in
  let '(op_tlv, ch_rest) := tr in
  let? op := ModificationOp_decode_from_value (tlv_value op_tlv) in
  let? tr := decode_tlv ch_rest in
  let '(pa_tlv, _) := tr in
  let? pa := decode_partial_attribute pa_tlv in
  Ok (mkChange op pa).
Definition ModifyRequest_decode_from_value (value : bytes) : Result BerError ModifyRequest :=
  let? tr := decode_tlv value in
  let '(obj_tlv, rest) := tr in
  let? object := decode_string_value (tlv_value obj_tlv) in
  let? tr := decode_tlv rest in
  let '(changes_seq_tlv, rest) := tr in
  let? _ := expect_tag TAG_SEQUENCE changes_seq_tlv in
  let? cs := decode_tlvs decode_change (tlv_value changes_seq_tlv) in
  let? _ := no_trailing rest in
  Ok (mkModifyRequest object cs).

Record ModifyResponse := mkModifyResponse { mr_result : LdapResult }.
Definition ModifyResponse_success : ModifyResponse := mkModifyResponse LdapResult_success.
Definition ModifyResponse_encode (r : ModifyResponse) : bytes := encode_result APP_MODIFY_RESPONSE (mr_result r).
Definition ModifyResponse_decode_from_value (value : bytes) : Result BerError ModifyResponse :=
  let? r := decode_result value in Ok (mkModifyResponse r).

(** ** Add and delete *)

Record AddRequest := mkAddRequest { add_entry : bytes; add_attributes : list PartialAttribute }.
Definition AddRequest_encode (r : AddRequest) : bytes :=
  encode_entry APP_ADD_REQUEST (add_entry r) (add_attributes r).
Definition AddRequest_decode_from_value (value : bytes) : Result BerError AddRequest :=
  let? e := decode_entry value in Ok (mkAddRequest e.1 e.2).

Record AddResponse := mkAddResponse { ar_result : LdapResult }.
Definition AddResponse_success : AddResponse := mkAddResponse LdapResult_success.
Definition AddResponse_encode (r : AddResponse) : bytes := encode_result APP_ADD_RESPONSE (ar_result r).
Definition AddResponse_decode_from_value (value : bytes) : Result BerError AddResponse :=
  let? r := decode_result value in Ok (mkAddResponse r).

Record DelRequest := mkDelRequest { del_entry : bytes }.
Definition DelRequest_encode (r : DelRequest) : bytes := encode_tlv APP_DEL_REQUEST (del_entry r).
Definition DelRequest_decode_from_value (value : bytes) : Result BerError DelRequest :=
  let? e := decode_string_value value in Ok (mkDelRequest e).

Record DelResponse := mkDelResponse { dr_result : LdapResult }.
Definition DelResponse_success : DelResponse := mkDelResponse LdapResult_success.
Definition DelResponse_encode (r : DelResponse) : bytes := encode_result APP_DEL_RESPONSE (dr_result r).
Definition DelResponse_decode_from_value (value : bytes) : Result BerError DelResponse :=
  let? r := decode_result value in Ok (mkDelResponse r).

(** ** Controls *)

Record Control := mkControl {
  control_type : bytes;
  criticality : bool;
  control_value : option bytes;
}.
Definition Control_encode (c : Control) : bytes :=
  encode_tlv TAG_SEQUENCE (encode_string (control_type c) ++ encode_bool (criticality c)
    ++ match control_value c with Some v => encode_tlv TAG_OCTET_STRING v | None => [] end).

Definition Control_decode_from_value (value : bytes) : Result BerError Control :=
  let? tr := decode_tlv value in
  let '(oid_tlv, rest) := tr in
  let? ctype := decode_string_value (tlv_value oid_tlv) in
  let? st :=
    match rest with
    | [] => Ok (false, None, rest)
    | _ =>
        let? tr := decode_tlv rest in
        let '(next_tlv, r) := tr in
        if tlv_tag next_tlv =? TAG_BOOLEAN then
          let? crit := decode_bool_value (tlv_value next_tlv) in Ok (crit, None, r)
        else if tlv_tag next_tlv =? TAG_OCTET_STRING then Ok (false, Some (tlv_value next_tlv), r)
        else Err (BerUnexpectedTag TAG_BOOLEAN (tlv_tag next_tlv))
    end in
  let '(crit, cvalue, rest) := st in
  let? st :=
    match rest with
    | [] => Ok (cvalue, rest)
    | _ =>
        let? tr := decode_tlv rest in
        let '(cv_tlv, r) := tr in
        let? _ := expect_tag TAG_OCTET_STRING cv_tlv in
        Ok (Some (tlv_value cv_tlv), r)
    end in
  let '(cvalue, rest) := st in
  let? _ := no_trailing rest in
  Ok (mkControl ctype crit cvalue).

(** ** Messages *)

Inductive ProtocolOp :=
| OpBindRequest (r : BindRequest)
| OpBindResponse (r : BindResponse)
| OpUnbindRequest
| OpSearchRequest (r : SearchRequest)
| OpSearchResultEntry (r : SearchResultEntry)
| OpSearchResultDone (r : SearchResultDone)
| OpModifyRequest (r : ModifyRequest)
| OpModifyResponse (r : ModifyResponse)
| OpAddRequest (r : AddRequest)
| OpAddResponse (r : AddResponse)
| OpDelRequest (r : DelRequest)
| OpDelResponse (r : DelResponse).

Definition ProtocolOp_encode (op : ProtocolOp) : bytes :=
  match op with
  | OpBindRequest r => BindRequest_encode r
  | OpBindResponse r => BindResponse_encode r
  | OpUnbindRequest => UnbindRequest_encode
  | OpSearchRequest r => SearchRequest_encode r
  | OpSearchResultEntry r => SearchResultEntry_encode r
  | OpSearchResultDone r => SearchResultDone_encode r
  | OpModifyRequest r => ModifyRequest_encode r
  | OpModifyResponse r => ModifyResponse_encode r
  | OpAddRequest r => AddRequest_encode r
  | OpAddResponse r => AddResponse_encode r
  | OpDelRequest r => DelRequest_encode r
  | OpDelResponse r => DelResponse_encode r
  end.

Definition ProtocolOp_decode_from_tlv (tag : Z) (value : bytes) : Result BerError ProtocolOp :=
  if tag =? APP_BIND_REQUEST then let? r := BindRequest_decode_from_value value in Ok (OpBindRequest r)
  else if tag =? APP_BIND_RESPONSE then let? r := BindResponse_decode_from_value value in Ok (OpBindResponse r)
  else if tag =? APP_UNBIND_REQUEST then let? _ := UnbindRequest_decode_from_value value in Ok OpUnbindRequest
  else if tag =? APP_SEARCH_REQUEST then let? r := SearchRequest_decode_from_value value in Ok (OpSearchRequest r)
  else if tag =? APP_SEARCH_RESULT_ENTRY then
    let? r := SearchResultEntry_decode_from_value value in Ok (OpSearchResultEntry r)
  else if tag =? APP_SEARCH_RESULT_DONE then
    let? r := SearchResultDone_decode_from_value value in Ok (OpSearchResultDone r)
  else if tag =? APP_MODIFY_REQUEST then let? r := ModifyRequest_decode_from_value value in Ok (OpModifyRequest r)
  else if tag =? APP_MODIFY_RESPONSE then let? r := ModifyResponse_decode_from_value value in Ok (OpModifyResponse r)
  else if tag =? APP_ADD_REQUEST then let? r := AddRequest_decode_from_value value in Ok (OpAddRequest r)
  else if tag =? APP_ADD_RESPONSE then let? r := AddResponse_decode_from_value value in Ok (OpAddResponse r)
  else if tag =? APP_DEL_REQUEST then let? r := DelRequest_decode_from_value value in Ok (OpDelRequest r)
  else if tag =? APP_DEL_RESPONSE then let? r := DelResponse_decode_from_value value in Ok (OpDelResponse r)
  else Err (BerUnknownProtocolOp tag).

Record LdapMessage := mkLdapMessage {
  message_id : Z;
  protocol_op : ProtocolOp;
  controls : list Control;
}.

Definition encode_controls (l : list Control) : bytes :=
  match l with [] => [] | _ => encode_tlv CONTROLS_TAG (concat (map Control_encode l)) end.
Definition LdapMessage_encode (m : LdapMessage) : bytes :=
  encode_tlv TAG_SEQUENCE
    (encode_integer (message_id m) ++ ProtocolOp_encode (protocol_op m) ++ encode_controls (controls m)).

Definition decode_control (c_tlv : Tlv) : Result BerError Control :=
  let? _ := expect_tag TAG_SEQUENCE c_tlv in Control_decode_from_value (tlv_value c_tlv).
Definition decode_controls (rest : bytes) : Result BerError (list Control) :=
  match rest with
  | [] => Ok []
  | _ =>
      let? tr := decode_tlv rest in
      let '(ctrl_tlv, rest) := tr in
      let? _ := expect_tag CONTROLS_TAG ctrl_tlv in
      let? cs := decode_tlvs decode_control (tlv_value ctrl_tlv) in
      let? _ := no_trailing rest in
      Ok cs
  end.

Definition LdapMessage_decode (b : bytes) : Result BerError LdapMessage :=
  let? tr := decode_tlv b in
  let '(msg_tlv, _) := tr in
  let? _ := expect_tag TAG_SEQUENCE msg_tlv in
  let? tr := decode_tlv (tlv_value msg_tlv) in
  let '(id_tlv, rest) := tr in
  let? _ := expect_tag TAG_INTEGER id_tlv in
  let? id := decode_integer_value (tlv_value id_tlv) in
  let? tr := decode_tlv rest in
  let '(op_tlv, rest) := tr in
  let? op := ProtocolOp_decode_from_tlv (tlv_tag op_tlv) (tlv_value op_tlv) in
  let? cs := decode_controls rest in
  Ok (mkLdapMessage (as_i32 id) op cs).
