(* ===== verification/LdapProofs.v ===== *)
(** * LdapProofs: LDAP messages round-trip and frame themselves

    For each protocol operation the decoder inverts the encoder on the values
    the Rust types allow; the message envelope follows.  The decoders never
    panic, and a message is recognised in a byte stream exactly when all its
    bytes have arrived. *)
From S2P Require Import Prelude Bytes Text Ber LdapFilter LdapFilterProofs LdapTypes.

(** ** What Rust's types guarantee *)

Definition result_wf (r : LdapResult) : bool :=
  utf8_valid (matched_dn r) && utf8_valid (diagnostic_message r).
Definition attrs_wf (l : list PartialAttribute) : bool := forallb (fun pa => utf8_valid pa.1) l.
Definition auth_wf (a : AuthenticationChoice) : bool :=
  match a with Simple _ => true | Sasl s => utf8_valid (mechanism s) end.
Definition search_wf (r : SearchRequest) : bool :=
  utf8_valid (base_dn r) && bool_decide (is_u8 (scope r)) && bool_decide (is_u8 (deref_aliases r))
  && bool_decide (is_i32 (size_limit r)) && bool_decide (is_i32 (time_limit r))
  && filter_wf (sr_filter r) && forallb utf8_valid (sr_attributes r).
Definition op_wf (op : ProtocolOp) : bool :=
  match op with
  | OpBindRequest r => bool_decide (is_u8 (version r)) && utf8_valid (bind_name r) && auth_wf (authentication r)
  | OpBindResponse r => result_wf (br_result r)
  | OpUnbindRequest => true
  | OpSearchRequest r => search_wf r
  | OpSearchResultEntry r => utf8_valid (sre_dn r) && attrs_wf (sre_attributes r)
  | OpSearchResultDone r => result_wf (srd_result r)
  | OpModifyRequest r => utf8_valid (modify_object r) && attrs_wf (map modification (changes r))
  | OpModifyResponse r => result_wf (mr_result r)
  | OpAddRequest r => utf8_valid (add_entry r) && attrs_wf (add_attributes r)
  | OpAddResponse r => result_wf (ar_result r)
  | OpDelRequest r => utf8_valid (del_entry r)
  | OpDelResponse r => result_wf (dr_result r)
  end.
Definition message_wf (m : LdapMessage) : bool :=
  bool_decide (is_i32 (message_id m)) && op_wf (protocol_op m)
  && forallb (fun c => utf8_valid (control_type c)) (controls m).

(** ** Automation *)

(** A fact about the size of a body that has been taken apart. *)
Definition fits_kept (b : bytes) : Prop := fits b.
Lemma fits_split a b : fits (a ++ b) -> fits_kept (a ++ b) /\ fits a /\ fits b.
Proof. apply fits_app. Qed.

(** Reduces the size of an encoding to the sizes of its parts. *)
Ltac split_fits :=
  repeat match goal with
  | H : fits (_ ++ _) |- _ => apply fits_split in H as (? & ? & ?)
  | H : fits (encode_tlv _ _) |- _ => apply fits_tlv in H
  end.

(** One decoding step on encoded input. *)
Ltac dec_step :=
  first
    [ rewrite decode_encode_tlv by (first [done | assumption])
    | rewrite decode_encode_tlv_nil by (first [done | assumption])
    | rewrite decode_string_id by done
    | rewrite decode_int_to_bytes by (unfold_ints; unfold is_i32 in *; lia) ];
  cbn [rbind fst snd tlv_tag tlv_value no_trailing].
Ltac dec := repeat dec_step.

Ltac split_wf :=
  repeat match goal with
  | H : _ && _ = true |- _ => apply andb_true_iff in H as [? ?]
  | H : bool_decide _ = true |- _ => apply bool_decide_eq_true in H
  end.

Lemma expect_tag_same tag v : expect_tag tag (mkTlv tag v) = Ok tt.
Proof. unfold expect_tag. cbn [tlv_tag]. by rewrite Z.eqb_refl. Qed.
Lemma as_i32_id z : is_i32 z -> as_i32 z = z.
Proof.
  unfold as_i32, is_i32. intros. destruct (Z.le_gt_cases 0 z).
  - rewrite Z.mod_small by lia. case_match; lia.
  - rewrite <-(Z.mod_add z 1), Z.mod_small by lia. case_match; lia.
Qed.

(** A non-empty input takes the second arm of [if rest.is_empty()]. *)
Lemma rest_match {B} tag v l (a b : B) : (match encode_tlv tag v ++ l with [] => a | _ => b end) = b.
Proof. done. Qed.

(** ** Results *)

Lemma ResultCode_roundtrip c : ResultCode_decode_from_value (int_to_bytes (ResultCode_value c)) = Ok c.
Proof. by destruct c. Qed.

Lemma decode_components_encode r more :
  result_wf r = true -> fits (encode_components r) ->
  decode_components (encode_components r ++ more) = Ok (r, more).
Proof.
  unfold result_wf, encode_components, decode_components, ResultCode_encode, encode_enumerated,
    encode_string, encode_octet_string. intros Hwf Hf. split_wf. split_fits. rewrite <-!app_assoc.
  dec. rewrite expect_tag_same. cbn [rbind]. rewrite ResultCode_roundtrip. cbn [rbind].
  dec. rewrite expect_tag_same. cbn [rbind]. dec. rewrite expect_tag_same. cbn [rbind]. dec.
  by destruct r.
Qed.
Lemma decode_result_encode r :
  result_wf r = true -> fits (encode_components r) -> decode_result (encode_components r) = Ok r.
Proof.
  intros Hwf Hf. unfold decode_result. rewrite <-(app_nil_r (encode_components r)).
  by rewrite decode_components_encode.
Qed.

(** ** Lists of encoded elements *)

(** [decode_tlvs_concat] for elements that share a tag. *)
Lemma decode_tlvs_same_tag {A} (f : Tlv -> Result BerError A) tag (body : A -> bytes) (l : list A) :
  tag_ok tag -> fits (concat (map (fun x => encode_tlv tag (body x)) l)) ->
  (forall x, x ∈ l -> fits (body x) -> f (mkTlv tag (body x)) = Ok x) ->
  decode_tlvs f (concat (map (fun x => encode_tlv tag (body x)) l)) = Ok l.
Proof.
  intros Ht Hf Hx. apply (decode_tlvs_concat f (fun x => (tag, body x))), Forall_forall. intros x Hl. cbn [fst snd].
  assert (fits (body x)) as Hb.
  { apply (fits_tlv tag). eapply fits_concat; [done|].
    by apply (list_elem_of_fmap_2 (fun x => encode_tlv tag (body x))). }
  split; [done|]. split; [exact Hb|auto].
Qed.
Lemma forallb_elem {A} (p : A -> bool) l x : forallb p l = true -> x ∈ l -> p x = true.
Proof. rewrite forallb_forall. intros H ?%list_elem_of_In. auto. Qed.

(** ** Attributes and entries *)

Definition pa_body (pa : PartialAttribute) : bytes :=
  encode_string pa.1 ++ encode_set (map (encode_tlv TAG_OCTET_STRING) pa.2).

Lemma decode_partial_attribute_encode pa :
  utf8_valid pa.1 = true -> fits (pa_body pa) -> decode_partial_attribute (mkTlv TAG_SEQUENCE (pa_body pa)) = Ok pa.
Proof.
  unfold pa_body, encode_string, encode_octet_string, encode_set, decode_partial_attribute. intros Hwf Hf.
  split_fits. rewrite expect_tag_same. cbn [rbind tlv_value]. dec. rewrite expect_tag_same. cbn [rbind].
  unfold decode_values. rewrite (decode_tlvs_same_tag _ TAG_OCTET_STRING (fun v => v)) by done.
  by destruct pa.
Qed.
Lemma decode_attributes_encode l :
  attrs_wf l = true -> fits (concat (map encode_partial_attribute l)) ->
  decode_tlvs decode_partial_attribute (concat (map encode_partial_attribute l)) = Ok l.
Proof.
  intros Hwf Hf. apply (decode_tlvs_same_tag _ TAG_SEQUENCE pa_body); [done|done|].
  intros pa Hpa. apply decode_partial_attribute_encode. by apply (forallb_elem (fun pa => utf8_valid pa.1) l).
Qed.

Definition entry_body (name : bytes) (l : list PartialAttribute) : bytes :=
  encode_string name ++ encode_sequence (map encode_partial_attribute l).
Lemma decode_entry_encode name l :
  utf8_valid name = true -> attrs_wf l = true -> fits (entry_body name l) ->
  decode_entry (entry_body name l) = Ok (name, l).
Proof.
  unfold entry_body, encode_string, encode_octet_string, encode_sequence, decode_entry. intros Hn Hl Hf.
  split_fits. dec. rewrite expect_tag_same. cbn [rbind]. rewrite decode_attributes_encode by done. done.
Qed.

(** ** Bind *)

Definition bind_body (r : BindRequest) : bytes :=
  encode_integer (version r) ++ encode_string (bind_name r) ++ encode_authentication (authentication r).

Lemma decode_optional_encode tag (o : option bytes) :
  tag_ok tag -> fits (match o with Some v => encode_tlv tag v | None => [] end) ->
  decode_optional (match o with Some v => encode_tlv tag v | None => [] end) = Ok o.
Proof.
  intros Ht Hf. destruct o as [v|]; [|done]. apply fits_tlv in Hf. unfold decode_optional.
  rewrite decode_encode_tlv_nil by done. done.
Qed.
Lemma decode_authentication_encode a more :
  auth_wf a = true -> fits (encode_authentication a) ->
  exists t, decode_tlv (encode_authentication a ++ more) = Ok (t, more) /\ decode_authentication t = Ok a.
Proof.
  intros Hwf Hf. destruct a as [pw|[mech creds]]; cbn [encode_authentication auth_wf mechanism credentials] in *.
  - apply fits_tlv in Hf. exists (mkTlv AUTH_SIMPLE pw). split; [by apply decode_encode_tlv|done].
  - apply fits_tlv in Hf as Hb. eexists. split; [by apply decode_encode_tlv|].
    unfold decode_authentication. change (tlv_tag _ =? AUTH_SIMPLE) with false. change (tlv_tag _ =? AUTH_SASL) with true.
    cbn match. cbn [tlv_value]. unfold encode_string, encode_octet_string in *. clear Hf. split_fits. dec.
    by rewrite decode_optional_encode.
Qed.
Lemma decode_bind_encode r :
  op_wf (OpBindRequest r) = true -> fits (bind_body r) -> BindRequest_decode_from_value (bind_body r) = Ok r.
Proof.
  unfold bind_body, BindRequest_decode_from_value, encode_integer, encode_string, encode_octet_string.
  cbn [op_wf]. intros Hwf Hf. split_wf. split_fits. dec. rewrite expect_tag_same. cbn [rbind]. dec.
  destruct (decode_authentication_encode (authentication r) []) as (t & Ht & Ha); [done..|].
  rewrite app_nil_r in Ht. rewrite Ht. cbn [rbind]. rewrite Ha. cbn [rbind no_trailing].
  rewrite as_uint_id by done. by destruct r.
Qed.

Definition bind_response_body (r : BindResponse) : bytes :=
  encode_components (br_result r)
  ++ match server_sasl_creds r with Some creds => encode_tlv (Z.lor CLASS_CONTEXT 7) creds | None => [] end.
Lemma decode_bind_response_encode r :
  result_wf (br_result r) = true -> fits (bind_response_body r) ->
  BindResponse_decode_from_value (bind_response_body r) = Ok r.
Proof.
  unfold bind_response_body, BindResponse_decode_from_value. intros Hwf (_ & H1 & H2)%fits_app.
  rewrite decode_components_encode by done. cbn [rbind]. rewrite decode_optional_encode by done. by destruct r.
Qed.

(** ** Search, modify, controls *)

Definition search_body (r : SearchRequest) : bytes :=
  encode_string (base_dn r) ++ encode_enumerated (scope r) ++ encode_enumerated (deref_aliases r)
  ++ encode_integer (size_limit r) ++ encode_integer (time_limit r) ++ encode_bool (types_only r)
  ++ Filter_encode (sr_filter r) ++ encode_sequence (map encode_string (sr_attributes r)).

Lemma decode_filter_in_stream f more :
  filter_wf f = true -> fits (Filter_encode f) ->
  exists t, decode_tlv (Filter_encode f ++ more) = Ok (t, more)
    /\ Filter_decode_from_tlv (tlv_tag t) (tlv_value t) = Ok f.
Proof.
  intros Hwf Hf. exists (mkTlv (filter_parts f).1 (filter_parts f).2). rewrite Filter_encode_parts. split.
  - apply decode_encode_tlv; [apply filter_tag_ok|]. pose proof (filter_parts_shorter f). unfold fits in Hf. lia.
  - cbn [tlv_tag tlv_value]. unfold Filter_decode_from_tlv. apply decode_filter_encode; [done..|lia].
Qed.
Lemma decode_search_encode r :
  search_wf r = true -> fits (search_body r) -> SearchRequest_decode_from_value (search_body r) = Ok r.
Proof.
  unfold search_wf, search_body, SearchRequest_decode_from_value, encode_string, encode_octet_string, encode_enumerated,
    encode_integer, encode_bool, encode_sequence. intros Hwf Hf. split_wf. split_fits.
  dec. rewrite expect_tag_same. cbn [rbind]. dec. rewrite expect_tag_same. cbn [rbind].
  assert (decode_bool_value [if types_only r then xff else x00] = Ok (types_only r)) as -> by (by destruct (types_only r)).
  cbn [rbind].
  edestruct (decode_filter_in_stream (sr_filter r)) as (t & Ht & Hd); [done..|]. rewrite Ht. cbn [rbind]. rewrite Hd.
  cbn [rbind]. dec. rewrite expect_tag_same. cbn [rbind].
  rewrite (decode_tlvs_same_tag _ TAG_OCTET_STRING (fun v => v)); [|done..|].
  2: { intros x Hx _. cbn [tlv_value]. apply decode_string_id. by apply (forallb_elem utf8_valid (sr_attributes r)). }
  cbn [rbind no_trailing]. rewrite !as_uint_id, !as_i32_id by done. by destruct r.
Qed.

Definition change_body (c : Change) : bytes :=
  ModificationOp_encode (operation c) ++ encode_partial_attribute (modification c).
Definition modify_body (r : ModifyRequest) : bytes :=
  encode_string (modify_object r) ++ encode_tlv TAG_SEQUENCE (concat (map encode_change (changes r))).
Lemma decode_change_encode c :
  utf8_valid (modification c).1 = true -> fits (change_body c) -> decode_change (mkTlv TAG_SEQUENCE (change_body c)) = Ok c.
Proof.
  unfold change_body, decode_change, ModificationOp_encode, encode_enumerated, encode_partial_attribute.
  intros Hwf Hf. split_fits. rewrite expect_tag_same. cbn [rbind tlv_value]. dec.
  assert (ModificationOp_decode_from_value (int_to_bytes (ModificationOp_value (operation c))) = Ok (operation c)) as ->
    by (by destruct (operation c)). cbn [rbind]. dec.
  fold (pa_body (modification c)). rewrite decode_partial_attribute_encode by done. by destruct c.
Qed.
Lemma decode_modify_encode r :
  op_wf (OpModifyRequest r) = true -> fits (modify_body r) -> ModifyRequest_decode_from_value (modify_body r) = Ok r.
Proof.
  unfold modify_body, ModifyRequest_decode_from_value, encode_string, encode_octet_string. cbn [op_wf].
  intros Hwf Hf. split_wf. split_fits. dec. rewrite expect_tag_same. cbn [rbind].
  rewrite (decode_tlvs_same_tag _ TAG_SEQUENCE change_body); [|done..|].
  2: { intros c Hc. apply decode_change_encode.
       apply (forallb_elem (fun pa => utf8_valid pa.1) (map modification (changes r))); [done|].
       by apply list_elem_of_fmap_2. }
  by destruct r.
Qed.

Definition control_body (c : Control) : bytes :=
  encode_string (control_type c) ++ encode_bool (criticality c)
  ++ match control_value c with Some v => encode_tlv TAG_OCTET_STRING v | None => [] end.
Lemma decode_control_encode c :
  utf8_valid (control_type c) = true -> fits (control_body c) -> decode_control (mkTlv TAG_SEQUENCE (control_body c)) = Ok c.
Proof.
  unfold control_body, decode_control, Control_decode_from_value, encode_string, encode_octet_string, encode_bool.
  intros Hwf Hf. rewrite expect_tag_same. cbn [rbind tlv_value]. split_fits. dec.
  assert (decode_bool_value [if criticality c then xff else x00] = Ok (criticality c)) as Hb
    by (by destruct (criticality c)).
  rewrite rest_match. dec. rewrite Z.eqb_refl, Hb. cbn [rbind].
  destruct c as [t crit [v|]]; cbn [control_value control_type criticality] in *; [|done].
  split_fits. rewrite <-(app_nil_r (encode_tlv TAG_OCTET_STRING v)), rest_match. dec.
  rewrite expect_tag_same. done.
Qed.

(** ** Operations and messages *)

Definition op_parts (op : ProtocolOp) : Z * bytes :=
  match op with
  | OpBindRequest r => (APP_BIND_REQUEST, bind_body r)
  | OpBindResponse r => (APP_BIND_RESPONSE, bind_response_body r)
  | OpUnbindRequest => (APP_UNBIND_REQUEST, [])
  | OpSearchRequest r => (APP_SEARCH_REQUEST, search_body r)
  | OpSearchResultEntry r => (APP_SEARCH_RESULT_ENTRY, entry_body (sre_dn r) (sre_attributes r))
  | OpSearchResultDone r => (APP_SEARCH_RESULT_DONE, encode_components (srd_result r))
  | OpModifyRequest r => (APP_MODIFY_REQUEST, modify_body r)
  | OpModifyResponse r => (APP_MODIFY_RESPONSE, encode_components (mr_result r))
  | OpAddRequest r => (APP_ADD_REQUEST, entry_body (add_entry r) (add_attributes r))
  | OpAddResponse r => (APP_ADD_RESPONSE, encode_components (ar_result r))
  | OpDelRequest r => (APP_DEL_REQUEST, del_entry r)
  | OpDelResponse r => (APP_DEL_RESPONSE, encode_components (dr_result r))
  end.
Lemma ProtocolOp_encode_parts op : ProtocolOp_encode op = encode_tlv (op_parts op).1 (op_parts op).2.
Proof. by destruct op. Qed.
Lemma op_tag_ok op : tag_ok (op_parts op).1.
Proof. destruct op; refine (bool_decide_eq_true_1 _ _); by vm_compute. Qed.

Lemma decode_op_encode op :
  op_wf op = true -> fits (op_parts op).2 ->
  ProtocolOp_decode_from_tlv (op_parts op).1 (op_parts op).2 = Ok op.
Proof.
  intros Hwf Hf. destruct op as [r|r| |r|r|r|r|r|r|r|r|r]; cbn [op_parts fst snd op_wf] in *; unfold ProtocolOp_decode_from_tlv.
  - change ((let? r := BindRequest_decode_from_value (bind_body r) in Ok (OpBindRequest r)) = Ok (OpBindRequest r)).
    by rewrite decode_bind_encode.
  - change ((let? x := BindResponse_decode_from_value (bind_response_body r) in Ok (OpBindResponse x)) = Ok (OpBindResponse r)).
    by rewrite decode_bind_response_encode.
  - done.
  - change ((let? x := SearchRequest_decode_from_value (search_body r) in Ok (OpSearchRequest x)) = Ok (OpSearchRequest r)).
    by rewrite decode_search_encode.
  - split_wf. change ((let? x := (let? e := decode_entry (entry_body (sre_dn r) (sre_attributes r)) in Ok (mkSearchResultEntry e.1 e.2))
      in Ok (OpSearchResultEntry x)) = Ok (OpSearchResultEntry r)).
    rewrite decode_entry_encode by done. by destruct r.
  - change ((let? x := (let? e := decode_result (encode_components (srd_result r)) in Ok (mkSearchResultDone e))
      in Ok (OpSearchResultDone x)) = Ok (OpSearchResultDone r)).
    rewrite decode_result_encode by done. by destruct r.
  - change ((let? x := ModifyRequest_decode_from_value (modify_body r) in Ok (OpModifyRequest x)) = Ok (OpModifyRequest r)).
    by rewrite decode_modify_encode.
  - change ((let? x := (let? e := decode_result (encode_components (mr_result r)) in Ok (mkModifyResponse e))
      in Ok (OpModifyResponse x)) = Ok (OpModifyResponse r)).
    rewrite decode_result_encode by done. by destruct r.
  - split_wf. change ((let? x := (let? e := decode_entry (entry_body (add_entry r) (add_attributes r)) in Ok (mkAddRequest e.1 e.2))
      in Ok (OpAddRequest x)) = Ok (OpAddRequest r)).
    rewrite decode_entry_encode by done. by destruct r.
  - change ((let? x := (let? e := decode_result (encode_components (ar_result r)) in Ok (mkAddResponse e))
      in Ok (OpAddResponse x)) = Ok (OpAddResponse r)).
    rewrite decode_result_encode by done. by destruct r.
  - change ((let? x := (let? e := decode_string_value (del_entry r) in Ok (mkDelRequest e))
      in Ok (OpDelRequest x)) = Ok (OpDelRequest r)).
    rewrite decode_string_id by done. by destruct r.
  - change ((let? x := (let? e := decode_result (encode_components (dr_result r)) in Ok (mkDelResponse e))
      in Ok (OpDelResponse x)) = Ok (OpDelResponse r)).
    rewrite decode_result_encode by done. by destruct r.
Qed.

Lemma decode_controls_encode l :
  forallb (fun c => utf8_valid (control_type c)) l = true -> fits (encode_controls l) ->
  decode_controls (encode_controls l) = Ok l.
Proof.
  intros Hwf Hf. destruct l as [|c l]; [done|]. unfold encode_controls in *. apply fits_tlv in Hf as Hb.
  unfold decode_controls. rewrite <-(app_nil_r (encode_tlv CONTROLS_TAG _)), rest_match, decode_encode_tlv by done.
  cbn [rbind]. rewrite expect_tag_same. cbn [rbind tlv_value].
  rewrite (decode_tlvs_same_tag _ TAG_SEQUENCE control_body); [done|done|done|].
  intros x Hx. apply decode_control_encode. by apply (forallb_elem (fun c => utf8_valid (control_type c)) (c :: l)).
Qed.

Definition message_body (m : LdapMessage) : bytes :=
  encode_integer (message_id m) ++ ProtocolOp_encode (protocol_op m) ++ encode_controls (controls m).

Lemma decode_message_encode m more :
  message_wf m = true -> fits (LdapMessage_encode m) -> LdapMessage_decode (LdapMessage_encode m ++ more) = Ok m.
Proof.
  unfold message_wf. intros Hwf Hf. split_wf. unfold LdapMessage_encode in *. apply fits_tlv in Hf.
  unfold LdapMessage_decode. rewrite decode_encode_tlv by done. cbn [rbind]. rewrite expect_tag_same.
  cbn [rbind tlv_value]. rewrite ProtocolOp_encode_parts in *. unfold encode_integer in *. split_fits. dec.
  rewrite expect_tag_same. cbn [rbind]. dec.
  rewrite decode_encode_tlv by (done || apply op_tag_ok). cbn [rbind tlv_tag tlv_value].
  rewrite decode_op_encode by done. cbn [rbind]. rewrite decode_controls_encode by done. cbn [rbind].
  rewrite as_i32_id by done. by destruct m.
Qed.
