(* ===== verification/LdapHandler.v ===== *)
(** * LdapHandler: LDAP request handlers (crate [adrian-directory-service], [handler.rs])

    Bind, search, modify, add and delete against a directory store.  The store
    is the interface [DirectoryStore] of [adrian-storage-core], implemented by
    the directory store of [FdbStore] and by the in-memory store; a handler
    takes the store and returns it.  [storage_display] and [replication_display]
    are the texts of storage and replication errors (the [Display]
    implementations [thiserror] generates); they only appear inside diagnostic
    messages. *)
From S2P Require Import Prelude Bytes Text StorageKeys StorageTxn MemStore TxnContract FdbStore Repl.
From S2P Require Import Ber LdapFilter LdapTypes.

(** ** The store interface *)

Class DirectoryStore (S : Type) := {
  ds_get : S -> Uuid -> Result StorageError (option Object);
  ds_get_by_dn : S -> DistinguishedName -> Result StorageError (option Object);
  ds_put : S -> Object -> S * Result StorageError unit;
  ds_delete : S -> Uuid -> S * Result StorageError unit;
}.
#[global] Instance FdbDirectoryStore_DirectoryStore : DirectoryStore kvmap :=
  {| ds_get := fdb_get; ds_get_by_dn := fdb_get_by_dn; ds_put := fdb_put; ds_delete := fdb_delete |}.
#[global] Instance InMemoryDirectoryStore_DirectoryStore : DirectoryStore InMemoryDirectoryStore :=
  {| ds_get := mem_get; ds_get_by_dn := mem_get_by_dn; ds_put := mem_put; ds_delete := mem_delete |}.

(** The part of the [Dsa] the handlers use besides the store: the callback that
    lists the live objects. *)
Record Dsa (S : Type) := mkDsa { list_objects : S -> list Object }.
Arguments mkDsa {S} _.
Arguments list_objects {S} _ _.
(** [Dsa::new]: no objects are listed until the callback is set. *)
Definition Dsa_new {S} : Dsa S := mkDsa (fun _ => []).

Inductive DsaError :=
| DsaNotImplemented (msg : bytes)
| DsaLdap (msg : bytes)
| DsaSchemaValidation (msg : bytes)
| DsaReplication (e : ReplicationError)
| DsaStorage (e : StorageError)
| DsaBackend (msg : bytes).

Definition DEFAULT_NAMING_CONTEXT : bytes := lit "DC=adrian,DC=example,DC=com".
Definition SCHEMA_NC_DN : bytes := lit "CN=Schema,CN=Configuration,DC=adrian,DC=example,DC=com".
Definition CONFIGURATION_NC_DN : bytes := lit "CN=Configuration,DC=adrian,DC=example,DC=com".

(** ** Scopes *)

(** The part before a suffix is one RDN. *)
Definition single_rdn_before (child_lc suffix : bytes) : bool :=
  let prefix := take (length child_lc - length suffix) child_lc in
  negb (bool_decide (prefix = [])) && negb (contains_byte prefix ","%byte).

Definition dn_is_child_of (child_dn parent_dn : bytes) : bool :=
  let child_lc := to_ascii_lowercase child_dn in
  let parent_lc := to_ascii_lowercase parent_dn in
  if bool_decide (parent_lc = [])
  then negb (bool_decide (child_lc = [])) && negb (contains_byte child_lc ","%byte)
  else
    let suffix := lit ", " ++ parent_lc in
    if ends_with child_lc suffix then single_rdn_before child_lc suffix
    else
      let suffix_no_space := lit "," ++ parent_lc in
      if ends_with child_lc suffix_no_space then single_rdn_before child_lc suffix_no_space
      else false.

Definition dn_is_descendant_of (child_dn ancestor_dn : bytes) : bool :=
  let child_lc := to_ascii_lowercase child_dn in
  let ancestor_lc := to_ascii_lowercase ancestor_dn in
  if bool_decide (ancestor_lc = []) then negb (bool_decide (child_lc = []))
  else if bool_decide (child_lc = ancestor_lc) then true
  else ends_with child_lc (lit ", " ++ ancestor_lc) || ends_with child_lc (lit "," ++ ancestor_lc).

(** ** Filters *)

(** [String::from_utf8_lossy(b).to_ascii_lowercase()]. *)
Definition lossy_lower (b : bytes) : bytes := to_ascii_lowercase (from_utf8_lossy b).

(** The loop over the inner parts: the position after the last match. *)
Fixpoint match_anys (v_lc : bytes) (pos : nat) (anys_lc : list bytes) : option nat :=
  match anys_lc with
  | [] => Some pos
  | any :: anys_lc =>
      if bool_decide (any = []) then match_anys v_lc pos anys_lc
      else match find_sub (drop pos v_lc) any with
           | Some idx => match_anys v_lc (pos + (idx + length any)) anys_lc
           | None => None
           end
  end.

Definition substrings_match (value : bytes) (initial : option bytes) (anys : list bytes) (final_ : option bytes)
    : bool :=
  let v_lc := lossy_lower value in
  let initial_lc := option_map lossy_lower initial in
  let anys_lc := map lossy_lower anys in
  let final_lc := option_map lossy_lower final_ in
  let start :=
    match initial_lc with
    | Some init => if starts_with v_lc init then Some (length init) else None
    | None => Some 0%nat
    end in
  match start with
  | None => false
  | Some pos =>
      match match_anys v_lc pos anys_lc with
      | None => false
      | Some pos =>
          match final_lc with
          | Some fin =>
              if negb (ends_with v_lc fin) then false
              else negb (length v_lc - length fin <? pos)%nat
          | None => true
          end
      end
  end.

(** The loop that sorts the choices: the last initial and final part win. *)
Definition split_substrings (l : list Substring) : option bytes * list bytes * option bytes :=
  foldl (fun acc s => let '(i, a, f) := acc in
    match s with Initial v => (Some v, a, f) | Any v => (i, a ++ [v], f) | Final v => (i, a, Some v) end)
    (None, [], None) l.

Fixpoint filter_matches (obj : Object) (f : Filter) : bool :=
  match f with
  | FAnd subs => forallb (filter_matches obj) subs
  | FOr subs => existsb (filter_matches obj) subs
  | FNot inner => negb (filter_matches obj inner)
  | Present attr => existsb (fun a => eq_ignore_ascii_case (attr_name a) attr) (obj_attributes obj)
  | Equality attribute value =>
      existsb (fun a => eq_ignore_ascii_case (attr_name a) attribute && bool_decide (attr_value a = value))
        (obj_attributes obj)
  | Approx attribute value =>
      existsb (fun a => eq_ignore_ascii_case (attr_name a) attribute
                        && bool_decide (lossy_lower (attr_value a) = lossy_lower value)) (obj_attributes obj)
  | GreaterOrEqual attribute value =>
      existsb (fun a => eq_ignore_ascii_case (attr_name a) attribute
                        && negb (key_ltb (from_utf8_lossy (attr_value a)) (from_utf8_lossy value)))
        (obj_attributes obj)
  | LessOrEqual attribute value =>
      existsb (fun a => eq_ignore_ascii_case (attr_name a) attribute
                        && negb (key_ltb (from_utf8_lossy value) (from_utf8_lossy (attr_value a))))
        (obj_attributes obj)
  | Substrings attribute substrings =>
      let '(initial, anys, final_) := split_substrings substrings in
      existsb (fun a => eq_ignore_ascii_case (attr_name a) attribute
                        && substrings_match (attr_value a) initial anys final_) (obj_attributes obj)
  end.

(** ** Entries *)

(** [grouped.entry(name).or_default().push(value)]. *)
Definition push_value (grouped : gmap bytes (list bytes)) (a : Attribute) : gmap bytes (list bytes) :=
  <[attr_name a := default [] (grouped !! attr_name a) ++ [attr_value a]]> grouped.

Definition object_to_search_entry (obj : Object) (attrs : list bytes) : SearchResultEntry :=
  let return_all := bool_decide (attrs = []) || existsb (fun a => bool_decide (a = lit "*")) attrs
                    || existsb (fun a => eq_ignore_ascii_case a (lit "*")) attrs in
  let no_attrs := existsb (fun a => bool_decide (a = lit "1.1")) attrs in
  if no_attrs then mkSearchResultEntry (dn (obj_dn obj)) []
  else
    let selected := List.filter (fun attr => return_all || existsb (fun a => eq_ignore_ascii_case a (attr_name attr)) attrs)
                      (obj_attributes obj) in
    mkSearchResultEntry (dn (obj_dn obj)) (btree_iter (foldl push_value ∅ selected)).

Definition root_dse : SearchResultEntry :=
  mkSearchResultEntry []
    [(lit "namingContexts", [DEFAULT_NAMING_CONTEXT; CONFIGURATION_NC_DN; SCHEMA_NC_DN]);
     (lit "defaultNamingContext", [DEFAULT_NAMING_CONTEXT]);
     (lit "supportedLDAPVersion", [lit "3"]);
     (lit "supportedSASLMechanisms", [lit "GSSAPI"; lit "GSS-SPNEGO"; lit "EXTERNAL"]);
     (lit "supportedControl", [lit "1.2.840.113556.1.4.319"; lit "1.2.840.113556.1.4.473";
        lit "1.2.840.113556.1.4.801"; lit "1.2.840.113556.1.4.417"; lit "1.2.840.113556.1.4.529"]);
     (lit "vendorName", [lit "Adrian"]);
     (lit "objectClass", [lit "*"])].

(** ** Changes *)

Definition new_values (name : bytes) (values : list bytes) : list Attribute :=
  map (fun v => mkAttribute 0 name v) values.
Definition apply_change (obj : Object) (change : Change) : Object :=
  let '(name, values) := modification change in
  let attrs := obj_attributes obj in
  let attrs' :=
    match operation change with
    | ModAdd => attrs ++ new_values name values
    | ModDelete =>
        match values with
        | [] => List.filter (fun a => negb (eq_ignore_ascii_case (attr_name a) name)) attrs
        | _ => List.filter (fun a => negb (eq_ignore_ascii_case (attr_name a) name)
                                || negb (existsb (fun v => bool_decide (v = attr_value a)) values)) attrs
        end
    | ModReplace =>
        List.filter (fun a => negb (eq_ignore_ascii_case (attr_name a) name)) attrs ++ new_values name values
    end in
  mkObject (obj_uuid obj) (obj_dn obj) attrs' (obj_dnt obj).

(** ** Handlers *)

Section handlers.
Context {S : Type} `{!DirectoryStore S} (storage_display : StorageError -> bytes).
Implicit Types (dsa : Dsa S) (s : S).

Definition handle_bind {E} dsa s (req : BindRequest) : Result E BindResponse :=
  if negb (version req =? 3) then
    Ok (BindResponse_error ProtocolError
          (lit "unsupported LDAP version: " ++ print_dec (version req) ++ lit " (only v3 is supported)"))
  else
    match authentication req with
    | Simple pw =>
        if bool_decide (bind_name req = []) && bool_decide (pw = []) then Ok BindResponse_success
        else if bool_decide (bind_name req = []) || bool_decide (pw = []) then
          Ok (BindResponse_error InvalidCredentials
                (lit "anonymous bind requires both empty DN and empty password"))
        else
          match ds_get_by_dn s (DistinguishedName_new (bind_name req)) with
          | Ok (Some _) => Ok BindResponse_success
          | Ok None => Ok (BindResponse_error InvalidCredentials (lit "invalid DN/password combination"))
          | Err e => Ok (BindResponse_error OperationsError (lit "storage error during bind: " ++ storage_display e))
          | Panic => Panic
          end
    | Sasl _ => Ok (BindResponse_error AuthMethodNotSupported (lit "SASL bind not yet implemented (see ADR-021)"))
    end.

Definition gather_candidates dsa s (base : bytes) (scope_ : Z) : Result DsaError (list Object) :=
  match scope_ with
  | 0 =>
      let? o := map_err DsaStorage (ds_get_by_dn s (DistinguishedName_new base)) in
      Ok (match o with Some obj => [obj] | None => [] end)
  | 1 => Ok (List.filter (fun obj => dn_is_child_of (dn (obj_dn obj)) base) (list_objects dsa s))
  | 2 =>
      let out := List.filter (fun obj => dn_is_descendant_of (dn (obj_dn obj)) base) (list_objects dsa s) in
      let? o := map_err DsaStorage (ds_get_by_dn s (DistinguishedName_new base)) in
      Ok (match o with Some obj => out ++ [obj] | None => out end)
  | _ => Err (DsaLdap (lit "unsupported search scope: " ++ print_dec scope_))
  end.

Definition handle_search dsa s (req : SearchRequest) : Result DsaError (list SearchResultEntry) :=
  if bool_decide (base_dn req = []) && (scope req =? 0) then Ok [root_dse]
  else
    let? candidates := gather_candidates dsa s (base_dn req) (scope req) in
    Ok (map (fun obj => object_to_search_entry obj (sr_attributes req))
          (List.filter (fun obj => filter_matches obj (sr_filter req)) candidates)).

Definition handle_modify {E} dsa s (req : ModifyRequest) : S * Result E ModifyResponse :=
  match ds_get_by_dn s (DistinguishedName_new (modify_object req)) with
  | Ok (Some obj) =>
      let obj := foldl apply_change obj (changes req) in
      match ds_put s obj with
      | (s, Ok tt) => (s, Ok ModifyResponse_success)
      | (s, Err e) => (s, Ok (mkModifyResponse (LdapResult_error OperationsError
          (lit "storage error during modify put: " ++ storage_display e))))
      | (s, Panic) => (s, Panic)
      end
  | Ok None => (s, Ok (mkModifyResponse (LdapResult_error NoSuchObject
      (lit "entry not found: " ++ modify_object req))))
  | Err e => (s, Ok (mkModifyResponse (LdapResult_error OperationsError
      (lit "storage error during modify: " ++ storage_display e))))
  | Panic => (s, Panic)
  end.

(** The object an add request stores: the UUID is [Uuid::from_u128(0)]. *)
Definition add_object (req : AddRequest) : Object :=
  mkObject 0 (DistinguishedName_new (add_entry req))
    (concat (map (fun nv => new_values nv.1 nv.2) (add_attributes req))) 0.

(** [if let Ok(Some(_)) = ..]: a storage error falls through to the put. *)
Definition handle_add {E} dsa s (req : AddRequest) : S * Result E AddResponse :=
  if negb (existsb (fun nv => eq_ignore_ascii_case nv.1 (lit "objectClass")) (add_attributes req)) then
    (s, Ok (mkAddResponse (LdapResult_error ObjectClassViolation
      (lit "add request must include an objectClass attribute"))))
  else
    match ds_get_by_dn s (DistinguishedName_new (add_entry req)) with
    | Ok (Some _) => (s, Ok (mkAddResponse (LdapResult_error EntryAlreadyExists
        (lit "entry already exists: " ++ add_entry req))))
    | Panic => (s, Panic)
    | Ok None | Err _ =>
        match ds_put s (add_object req) with
        | (s, Ok tt) => (s, Ok AddResponse_success)
        | (s, Err e) => (s, Ok (mkAddResponse (LdapResult_error OperationsError
            (lit "storage error during add: " ++ storage_display e))))
        | (s, Panic) => (s, Panic)
        end
    end.

Definition handle_delete {E} dsa s (req : DelRequest) : S * Result E DelResponse :=
  match ds_get_by_dn s (DistinguishedName_new (del_entry req)) with
  | Ok (Some obj) =>
      match ds_delete s (obj_uuid obj) with
      | (s, Ok tt) => (s, Ok DelResponse_success)
      | (s, Err e) => (s, Ok (mkDelResponse (LdapResult_error OperationsError
          (lit "storage error during delete: " ++ storage_display e))))
      | (s, Panic) => (s, Panic)
      end
  | Ok None => (s, Ok (mkDelResponse (LdapResult_error NoSuchObject (lit "entry not found: " ++ del_entry req))))
  | Err e => (s, Ok (mkDelResponse (LdapResult_error OperationsError
      (lit "storage error during delete lookup: " ++ storage_display e))))
  | Panic => (s, Panic)
  end.

Definition search_done_from_error (replication_display : ReplicationError -> bytes) (err : DsaError) : SearchResultDone :=
  let '(code, msg) :=
    match err with
    | DsaNotImplemented msg => (UnwillingToPerform, msg)
    | DsaLdap msg => (ProtocolError, msg)
    | DsaSchemaValidation msg => (ObjectClassViolation, msg)
    | DsaStorage e => (OperationsError, storage_display e)
    | DsaReplication e => (OperationsError, replication_display e)
    | DsaBackend msg => (OperationsError, msg)
    end in
  mkSearchResultDone (LdapResult_error code msg).
End handlers.
