(* ===== verification/LdapHandlerProofs.v ===== *)
(** * LdapHandlerProofs: what the LDAP handlers do

    Substring matching agrees with its declarative reading, a change has the
    effect its operation names, a bind succeeds exactly on the documented
    conditions; and what add, modify and subtree search get wrong on the
    stores. *)
From S2P Require Import Prelude Bytes Text StorageKeys StorageTxn MemStore TxnContract FdbStore Repl.
From S2P Require Import Ber LdapFilter LdapTypes LdapHandler.

(** ** Strings *)


Lemma find_sub_Some s p k : find_sub s p = Some k -> exists x y, s = x ++ p ++ y /\ length x = k.
Proof.
  revert k. induction s as [|b s IH]; intros k; cbn [find_sub].
  - destruct (starts_with [] p) eqn:E; [|done]. intros [= <-]. apply starts_with_iff in E as [r E]. by exists [], r.
  - destruct (starts_with (b :: s) p) eqn:E.
    + intros [= <-]. apply starts_with_iff in E as [r E]. by exists [], r.
    + destruct (find_sub s p) as [j|] eqn:Ej; [|done]. intros [= <-]. destruct (IH j eq_refl) as (x & y & -> & <-).
      by exists (b :: x), y.
Qed.
(** The first occurrence is at or before any other. *)
Lemma find_sub_first x p y : exists k, find_sub (x ++ p ++ y) p = Some k /\ (k <= length x)%nat.
Proof.
  induction x as [|b x IH]; cbn [app].
  - exists 0%nat. split; [|done]. assert (starts_with (p ++ y) p = true) as H by (apply starts_with_iff; eauto).
    destruct (p ++ y); cbn [find_sub]; by rewrite H.
  - cbn [find_sub]. destruct (starts_with _ _); [exists 0%nat; split; [done|lia]|].
    destruct IH as (k & -> & Hk). exists (S k). split; [done|cbn; lia].
Qed.

(** ** Substring filters *)

(** The declarative reading: the inner parts occur in this order without
    overlap, and after the last one the text ends with [fin]. *)
Fixpoint pattern (anys : list bytes) (fin s : bytes) : Prop :=
  match anys with
  | [] => exists x, s = x ++ fin
  | a :: anys => exists x y, s = x ++ a ++ y /\ pattern anys fin y
  end.

Lemma pattern_mono anys fin z s : pattern anys fin s -> pattern anys fin (z ++ s).
Proof.
  destruct anys as [|a anys]; cbn.
  - intros [x ->]. exists (z ++ x). by rewrite app_assoc.
  - intros (x & y & -> & H). exists (z ++ x), y. by rewrite <-app_assoc.
Qed.
Lemma pattern_nil anys fin s : pattern ([] :: anys) fin s <-> pattern anys fin s.
Proof.
  split; [|intros H; by exists [], s]. intros (x & y & -> & H). by apply pattern_mono.
Qed.

(** Taking the leftmost match of each part loses no match. *)
Lemma match_anys_spec v pos anys fin :
  (pos <= length v)%nat ->
  pattern anys fin (drop pos v) <->
  exists pos', match_anys v pos anys = Some pos' /\ (pos' <= length v)%nat /\ exists x, drop pos' v = x ++ fin.
Proof.
  revert pos. induction anys as [|a anys IH]; intros pos Hp; cbn [match_anys].
  { split; [intros H; by exists pos|]. intros (p & [= <-] & _ & H). exact H. }
  case_bool_decide as Ha; [subst; by rewrite pattern_nil, IH|].
  destruct (find_sub (drop pos v) a) as [k|] eqn:E.
  - apply find_sub_Some in E as Ex. destruct Ex as (x & y & Hxy & Hk).
    assert (pos + (k + length a) <= length v)%nat as Hb.
    { apply (f_equal length) in Hxy. rewrite length_drop, !length_app in Hxy. lia. }
    assert (drop (pos + (k + length a)) v = y) as Hy.
    { rewrite <-drop_drop, Hxy, app_assoc. apply drop_app_length'. rewrite length_app. lia. }
    rewrite <-IH by done. rewrite Hy. split; [|intros H; by exists x, y].
    intros (x' & y' & Hxy' & H). destruct (find_sub_first x' a y') as (k' & Hk' & Hle).
    rewrite <-Hxy', E in Hk'. injection Hk' as <-.
    assert (y = drop (k + length a) (x' ++ a) ++ y') as ->; [|by apply pattern_mono].
    rewrite <-drop_app_le by (rewrite length_app; lia). rewrite <-app_assoc, <-Hxy', Hxy, app_assoc.
    symmetry. apply drop_app_length'. rewrite length_app. lia.
  - split; [|by intros (? & ? & _)]. intros (x & y & Hxy & _). destruct (find_sub_first x a y) as (k & Hk & _).
    rewrite <-Hxy, E in Hk. done.
Qed.

Lemma match_anys_bound v pos anys p :
  (pos <= length v)%nat -> match_anys v pos anys = Some p -> (p <= length v)%nat.
Proof.
  revert pos. induction anys as [|a anys IH]; intros pos Hp; cbn [match_anys]; [by intros [= <-]|].
  case_match; [by apply IH|]. destruct (find_sub _ _) as [k|] eqn:E; [|done]. apply IH.
  apply find_sub_Some in E as (x & y & H' & Hk). apply (f_equal length) in H'.
  rewrite length_drop, !length_app in H'. lia.
Qed.
(** The check of the final part. *)
Lemma final_check v p fin :
  (p <= length v)%nat ->
  (if negb (ends_with v fin) then false else negb (length v - length fin <? p)%nat) = true
  <-> exists x, drop p v = x ++ fin.
Proof.
  intros Hp. destruct (ends_with v fin) eqn:E; cbn [negb].
  - apply ends_with_iff in E as [x ->]. rewrite negb_true_iff, Nat.ltb_ge, length_app, Nat.add_sub. split.
    + intros H. exists (drop p x). by rewrite drop_app_le.
    + intros [y H]. apply (f_equal length) in H. rewrite length_drop, !length_app in H. rewrite length_app in Hp. lia.
  - split; [done|]. intros [x H]. rewrite <-not_true_iff_false in E. exfalso. apply E, ends_with_iff.
    exists (take p v ++ x). by rewrite <-app_assoc, <-H, take_drop.
Qed.

(** Substring filters: the matcher accepts a value exactly when, in lower
    case, the value is the initial part, then a text in which the inner parts
    occur in order without overlap and whose end is the final part; taking the
    first occurrence of each part loses no match. *)
Theorem substrings_match_iff (value : bytes) (i : option bytes) (anys : list bytes) (f : option bytes) :
  substrings_match value i anys f = true <->
  exists mid, lossy_lower value = default [] (option_map lossy_lower i) ++ mid
    /\ pattern (map lossy_lower anys) (default [] (option_map lossy_lower f)) mid.
Proof.
  unfold substrings_match. set (v := lossy_lower value). set (as_ := map lossy_lower anys).
  assert (forall pos, (pos <= length v)%nat ->
    match match_anys v pos as_ with
    | None => false
    | Some p => match option_map lossy_lower f with
        | Some fin => if negb (ends_with v fin) then false else negb (length v - length fin <? p)%nat
        | None => true end
    end = true <-> pattern as_ (default [] (option_map lossy_lower f)) (drop pos v)) as Hrest.
  { intros pos Hp. rewrite match_anys_spec by done. pose proof (match_anys_bound v pos as_) as Hb.
    destruct (match_anys v pos as_) as [p|]; [|naive_solver]. specialize (Hb p Hp eq_refl).
    destruct (option_map lossy_lower f) as [fin|]; cbn [default from_option id].
    - rewrite final_check by done. naive_solver.
    - split; [|done]. intros _. exists p. split; [done|]. split; [done|]. exists (drop p v). by rewrite app_nil_r. }
  destruct (option_map lossy_lower i) as [init|]; cbn [default from_option id].
  - destruct (starts_with v init) eqn:E.
    + apply starts_with_iff in E as [r E]. rewrite Hrest by (rewrite E, length_app; lia).
      rewrite E, drop_app_length. split; [by exists r|]. by intros (mid & ->%app_inv_head & H).
    + split; [done|]. intros (mid & Hm & _). rewrite <-not_true_iff_false in E. exfalso. apply E, starts_with_iff. eauto.
  - rewrite Hrest by lia. change (drop 0 v) with v. split; [by exists v|]. by intros (mid & -> & H).
Qed.

(** ** Changes *)

(** The values of an attribute, its name compared without regard to case. *)
Definition values_of (obj : Object) (n : bytes) : list bytes :=
  map attr_value (List.filter (fun a => eq_ignore_ascii_case (attr_name a) n) (obj_attributes obj)).

Lemma eq_ignore_iff a b : eq_ignore_ascii_case a b = true <-> to_ascii_lowercase a = to_ascii_lowercase b.
Proof. apply bool_decide_eq_true. Qed.
Lemma eq_ignore_cong a b n : eq_ignore_ascii_case a b = true -> eq_ignore_ascii_case a n = eq_ignore_ascii_case b n.
Proof. unfold eq_ignore_ascii_case at 2 3. rewrite eq_ignore_iff. by intros ->. Qed.
Lemma eq_ignore_sym a b : eq_ignore_ascii_case a b = eq_ignore_ascii_case b a.
Proof. unfold eq_ignore_ascii_case. apply bool_decide_ext. split; congruence. Qed.

Lemma filter_new_values name values n :
  map attr_value (List.filter (fun a => eq_ignore_ascii_case (attr_name a) n) (new_values name values))
  = if eq_ignore_ascii_case name n then values else [].
Proof.
  unfold new_values. induction values as [|v l IH]; cbn; [by case_match|]. destruct (eq_ignore_ascii_case name n); cbn; congruence.
Qed.
Lemma filter_dropped (keep : bytes -> bool) name n (l : list Attribute) :
  map attr_value (List.filter (fun a => eq_ignore_ascii_case (attr_name a) n)
    (List.filter (fun a => negb (eq_ignore_ascii_case (attr_name a) name) || keep (attr_value a)) l))
  = (if eq_ignore_ascii_case name n then List.filter keep else fun x => x)
      (map attr_value (List.filter (fun a => eq_ignore_ascii_case (attr_name a) n) l)).
Proof.
  induction l as [|a l IH]; [by destruct (eq_ignore_ascii_case name n)|]. cbn [List.filter map].
  destruct (eq_ignore_ascii_case (attr_name a) name) eqn:E; cbn [negb orb].
  - rewrite (eq_ignore_cong _ _ n E) in *. destruct (eq_ignore_ascii_case name n) eqn:En.
    + destruct (keep (attr_value a)) eqn:Ek; cbn [List.filter map].
      * rewrite (eq_ignore_cong _ _ n E), En. cbn [map List.filter]. by rewrite Ek, IH.
      * by rewrite Ek, IH.
    + destruct (keep (attr_value a)); cbn [List.filter map]; [|done]. by rewrite (eq_ignore_cong _ _ n E), En.
  - cbn [List.filter]. destruct (eq_ignore_ascii_case (attr_name a) n) eqn:Ea; [|done]. cbn [map]. rewrite IH.
    destruct (eq_ignore_ascii_case name n) eqn:En; [|done].
    rewrite eq_ignore_sym in En. rewrite (eq_ignore_sym (attr_name a)) in Ea.
    rewrite (eq_ignore_cong n (attr_name a) name Ea) in En. congruence.
Qed.

Definition changed_values (op : ModificationOp) (old values : list bytes) : list bytes :=
  match op with
  | ModAdd => old ++ values
  | ModDelete => match values with [] => [] | _ => List.filter (fun v => bool_decide (v ∉ values)) old end
  | ModReplace => values
  end.
Lemma filter_false {A} (l : list A) : List.filter (fun _ => false) l = [].
Proof. by induction l. Qed.

Lemma apply_change_values obj op name values n :
  values_of (apply_change obj (mkChange op (name, values))) n
  = if eq_ignore_ascii_case name n then changed_values op (values_of obj n) values else values_of obj n.
Proof.
  unfold values_of, apply_change. cbn [modification operation obj_attributes].
  assert (forall l, List.filter (fun a => negb (eq_ignore_ascii_case (attr_name a) name)) l
    = List.filter (fun a => negb (eq_ignore_ascii_case (attr_name a) name) || (fun _ => false) (attr_value a)) l) as Hneg.
  { intros l. apply List.filter_ext. intros a. by rewrite orb_false_r. }
  destruct op; cbn [changed_values].
  - rewrite List.filter_app, map_app, filter_new_values. case_match; [done|]. by rewrite app_nil_r.
  - destruct values as [|v vs].
    + rewrite Hneg, (filter_dropped (fun _ => false)). case_match; [apply filter_false|done].
    + cbn beta iota. set (V := v :: vs). 
      etransitivity; [exact (filter_dropped (fun x => negb (existsb (fun v => bool_decide (v = x)) V)) name n (obj_attributes obj))|].
      case_match; [|done]. apply List.filter_ext. intros x. apply eq_iff_eq_true.
      rewrite negb_true_iff, bool_decide_eq_true, <-not_true_iff_false, existsb_exists. apply not_iff_compat.
      setoid_rewrite bool_decide_eq_true. setoid_rewrite <-list_elem_of_In. naive_solver.
  - rewrite List.filter_app, map_app, filter_new_values, Hneg, (filter_dropped (fun _ => false)).
    case_match; [by rewrite filter_false|]. by rewrite app_nil_r.
Qed.

(** Modify: a change touches only the attribute it names (without regard to
    case) and keeps the object's identity; an add appends the values, a delete
    removes the listed values or all of them, a replace leaves exactly the new
    ones.  On the in-memory store a modify request of an entry under its own DN
    succeeds and the entry read back is the old one with the changes applied in
    order. *)
Theorem ldap_modify_spec {E} (sd : StorageError -> bytes) (dsa : Dsa InMemoryDirectoryStore)
    (s : InMemoryDirectoryStore) (req : ModifyRequest) (obj : Object) :
  (forall o op name values n,
     let o' := apply_change o (mkChange op (name, values)) in
     obj_uuid o' = obj_uuid o /\ obj_dn o' = obj_dn o /\ obj_dnt o' = obj_dnt o
     /\ values_of o' n = if eq_ignore_ascii_case name n then changed_values op (values_of o n) values else values_of o n)
  /\ (mem_get_by_dn s (mkDN (modify_object req)) = Ok (Some obj) ->
      dn (obj_dn obj) = modify_object req -> obj_dnt obj <> UNASSIGNED_DNT ->
      exists s', handle_modify (E := E) sd dsa s req = (s', Ok ModifyResponse_success)
        /\ mem_get_by_dn s' (mkDN (modify_object req)) = Ok (Some (foldl apply_change obj (changes req)))).
Proof.
  split.
  { intros o op name values n. cbn zeta. split_and!; [done..|]. apply apply_change_values. }
  intros Hget Hdn Hd. unfold handle_modify, DistinguishedName_new. cbn [ds_get_by_dn ds_put InMemoryDirectoryStore_DirectoryStore].
  rewrite Hget. assert (forall l o, obj_dn (foldl apply_change o l) = obj_dn o /\ obj_dnt (foldl apply_change o l) = obj_dnt o) as Hkeep.
  { intros l. induction l as [|[op [n v]] l IH]; intros o; [done|]. cbn [foldl]. by destruct (IH (apply_change o (mkChange op (n, v)))) as [-> ->]. }
  destruct (Hkeep (changes req) obj) as [Kdn Kd]. set (o' := foldl apply_change obj (changes req)) in *.
  unfold mem_put. rewrite decide_False by congruence. eexists. split; [reflexivity|].
  unfold mem_get_by_dn. cbn. rewrite <-Hdn, <-Kdn, !lookup_insert_eq. clearbody o'. by destruct o'.
Qed.

(** ** Bind *)

(** Authentication: a bind succeeds exactly when the version is 3, the method
    is simple, and either both name and password are empty or neither is and the
    store finds an entry under the name; when the store answers, the handler
    does too. *)
Theorem bind_success_iff {S E} `{!DirectoryStore S} (sd : StorageError -> bytes) (dsa : Dsa S) (s : S) (req : BindRequest) :
  handle_bind (E := E) sd dsa s req = Ok BindResponse_success <->
  version req = 3 /\ exists pw, authentication req = Simple pw
    /\ (bind_name req = [] /\ pw = []
        \/ bind_name req <> [] /\ pw <> [] /\ exists o, ds_get_by_dn s (mkDN (bind_name req)) = Ok (Some o)).
Proof.
  unfold handle_bind, DistinguishedName_new. destruct (Z.eqb_spec (version req) 3) as [Hv|Hv]; cbn [negb]; [|naive_solver].
  destruct (authentication req) as [pw|c]; [|naive_solver].
  destruct (bool_decide_reflect (bind_name req = [])) as [Hn|Hn], (bool_decide_reflect (pw = [])) as [Hp|Hp]; cbn [andb orb].
  1-3: naive_solver.
  destruct (ds_get_by_dn s (mkDN (bind_name req))) as [[o|]|e|]; naive_solver.
Qed.

(** ** What the handlers get wrong *)

(** A subtree search lists its base twice: when the enumeration contains the
    base object, which counts as its own descendant, the lookup that adds the
    base adds it again. *)
Theorem subtree_search_duplicates_base {S} `{!DirectoryStore S} (dsa : Dsa S) (s : S) (req : SearchRequest) (obj : Object) :
  scope req = 2 -> base_dn req <> [] -> dn (obj_dn obj) = base_dn req -> obj ∈ list_objects dsa s ->
  ds_get_by_dn s (mkDN (base_dn req)) = Ok (Some obj) -> filter_matches obj (sr_filter req) = true ->
  let e := object_to_search_entry obj (sr_attributes req) in
  exists l1 l2, handle_search dsa s req = Ok (l1 ++ [e] ++ l2 ++ [e]).
Proof.
  intros Hs Hb Hdn Hin Hget Hf e. unfold handle_search. rewrite bool_decide_eq_false_2 by done. cbn [andb].
  unfold gather_candidates, DistinguishedName_new. rewrite Hs, Hget. cbn [map_err rbind].
  apply list_elem_of_split in Hin as (l1 & l2 & ->).
  assert (dn_is_descendant_of (dn (obj_dn obj)) (base_dn req) = true) as Hd.
  { unfold dn_is_descendant_of. rewrite Hdn, bool_decide_eq_false_2 by (by destruct (base_dn req)).
    by rewrite bool_decide_eq_true_2. }
  rewrite List.filter_app. cbn [List.filter]. rewrite Hf, List.filter_app. cbn [List.filter].
  rewrite Hd, List.filter_app. cbn [List.filter]. rewrite Hf, !map_app. cbn [map].
  fold e. rewrite <-app_assoc. by eexists _, _.
Qed.

Definition entry_req (name : string) (mail : list bytes) : AddRequest :=
  mkAddRequest (lit name) ((lit "objectClass", [lit "user"]) :: match mail with [] => [] | _ => [(lit "mail", mail)] end).
Definition quiet {A} (_ : A) : bytes := [].
Definition base_search (name : string) (f : Filter) : SearchRequest := mkSearchRequest (lit name) 0 0 0 0 f [] false.

Lemma subtree_search_duplicates_base_witness :
  let s := (handle_add (E := Empty_set) quiet (mkDsa (fun _ => [])) InMemoryDirectoryStore_new (entry_req "DC=x" [])).1 in
  let obj := mkObject 0 (mkDN (lit "DC=x")) [mkAttribute 0 (lit "objectClass") (lit "user")] 1 in
  let req := mkSearchRequest (lit "DC=x") 2 0 0 0 (Present (lit "objectClass")) [] false in
  exists l1 l2, handle_search (mkDsa (fun _ => [obj])) s req =
    Ok (l1 ++ [object_to_search_entry obj []] ++ l2 ++ [object_to_search_entry obj []]).
Proof.
  intros s obj req. apply (subtree_search_duplicates_base (mkDsa (fun _ => [obj])) s req obj).
  - reflexivity.
  - discriminate.
  - reflexivity.
  - by left.
  - vm_compute. reflexivity.
  - vm_compute. reflexivity.
Defined.

(** Entries added over LDAP share the placeholder UUID 0.  On the in-memory
    store, deleting the first of two added entries reports success, removes the
    second and leaves the first; on the directory store, adding the second
    turns the first entry's DN into a name for the second. *)
Theorem ldap_add_shares_uuid :
  (let add s n := (handle_add (E := Empty_set) quiet Dsa_new s (entry_req n [])).1 in
   let s2 := add (add InMemoryDirectoryStore_new "CN=a"%string) "CN=b"%string in
   let '(s3, r) := handle_delete (E := Empty_set) quiet Dsa_new s2 (mkDelRequest (lit "CN=a")) in
   r = Ok DelResponse_success
   /\ option_map obj_dn (default None (match mem_get_by_dn s3 (mkDN (lit "CN=a")) with Ok o => Some o | _ => None end)) = Some (mkDN (lit "CN=a"))
   /\ mem_get s3 0 = Ok None)
  /\ (let add s n := (handle_add (E := Empty_set) quiet Dsa_new s (entry_req n [])).1 in
      let m2 := add (add (∅ : kvmap) "CN=a"%string) "CN=b"%string in
      exists o, fdb_get_by_dn m2 (mkDN (lit "CN=a")) = Ok (Some o) /\ obj_dn o = mkDN (lit "CN=b")).
Proof. split; [vm_compute; split_and!; reflexivity|]. eexists. vm_compute. split; reflexivity. Qed.

(** Deleting an attribute over LDAP does not reach the directory store: the
    modify request succeeds, and a search for the deleted attribute still
    returns the entry with it, because the store's [put] keeps old rows; on the
    in-memory store the same request removes it. *)
Theorem ldap_modify_delete_lost :
  let req := mkModifyRequest (lit "CN=a") [mkChange ModDelete (lit "mail", [])] in
  let search := base_search "CN=a" (Present (lit "mail")) in
  let m := (handle_add (E := Empty_set) quiet Dsa_new (∅ : kvmap) (entry_req "CN=a" [lit "a@x"])).1 in
  let s := (handle_add (E := Empty_set) quiet Dsa_new InMemoryDirectoryStore_new (entry_req "CN=a" [lit "a@x"])).1 in
  (handle_modify (E := Empty_set) quiet Dsa_new m req).2 = Ok ModifyResponse_success
  /\ handle_search Dsa_new (handle_modify (E := Empty_set) quiet Dsa_new m req).1 search =
     Ok [mkSearchResultEntry (lit "CN=a") [(lit "mail", [lit "a@x"]); (lit "objectClass", [lit "user"])]]
  /\ handle_search Dsa_new (handle_modify (E := Empty_set) quiet Dsa_new s req).1 search = Ok [].
Proof. vm_compute. split_and!; reflexivity. Qed.
