(* ===== verification/LdapServer.v ===== *)
(** * LdapServer: the connection loop (crate [adrian-directory-service], [server.rs])

    [try_decode_message], [dispatch] and [serve_connection].  The connection is
    a state machine: it owns the bytes read and not yet decoded, and the network
    decides how the client's bytes are split into reads, so a read is a step
    that takes any non-empty chunk of at most 4096 bytes.  Writes to the stream
    succeed; [ber_display] is the text of a BER error. *)
From S2P Require Import Prelude Bytes Text StorageKeys StorageTxn MemStore TxnContract FdbStore Repl.
From S2P Require Import Ber LdapFilter LdapTypes LdapHandler.

Definition try_decode_message (buf : bytes) : Result BerError (option (LdapMessage * nat)) :=
  match buf with
  | [] => Ok None
  | _ =>
      match decode_tlv buf with
      | Ok (tlv, rest) =>
          let header_len := (length buf - length (tlv_value tlv) - length rest)%nat in
          let consumed := (header_len + length (tlv_value tlv))%nat in
          let? full := slice buf 0 consumed in
          let? msg := LdapMessage_decode full in
          Ok (Some (msg, consumed))
      | Err BerEmpty | Err (BerTruncated _) => Ok None
      | Err e => Err e
      | Panic => Panic
      end
  end.

Section server.
Context {S : Type} `{!DirectoryStore S}.
Context (storage_display : StorageError -> bytes) (replication_display : ReplicationError -> bytes).
Context (ber_display : BerError -> bytes) (dsa : Dsa S).
Implicit Types (s : S).

(** The messages written and whether the connection stays open. *)
Definition reply (id : Z) (op : ProtocolOp) : LdapMessage := mkLdapMessage id op [].

Definition dispatch s (msg : LdapMessage) : S * Result DsaError (list LdapMessage * bool) :=
  let id := message_id msg in
  match protocol_op msg with
  | OpBindRequest req =>
      (s, let? resp := handle_bind storage_display dsa s req in Ok ([reply id (OpBindResponse resp)], true))
  | OpSearchRequest req =>
      (s, match handle_search dsa s req with
          | Ok entries =>
              Ok (map (fun e => reply id (OpSearchResultEntry e)) entries
                  ++ [reply id (OpSearchResultDone (mkSearchResultDone LdapResult_success))], true)
          | Err e =>
              Ok ([reply id (OpSearchResultDone (search_done_from_error storage_display replication_display e))], true)
          | Panic => Panic
          end)
  | OpModifyRequest req =>
      let '(s, r) := handle_modify storage_display dsa s req in
      (s, let? resp := r in Ok ([reply id (OpModifyResponse resp)], true))
  | OpAddRequest req =>
      let '(s, r) := handle_add storage_display dsa s req in
      (s, let? resp := r in Ok ([reply id (OpAddResponse resp)], true))
  | OpDelRequest req =>
      let '(s, r) := handle_delete storage_display dsa s req in
      (s, let? resp := r in Ok ([reply id (OpDelResponse resp)], true))
  | OpUnbindRequest => (s, Ok ([], false))
  | OpBindResponse _ | OpSearchResultEntry _ | OpSearchResultDone _ | OpModifyResponse _
  | OpAddResponse _ | OpDelResponse _ => (s, Ok ([], true))
  end.

(** [write_message] for each message in turn. *)
Definition written (ms : list LdapMessage) : bytes := concat (map LdapMessage_encode ms).

Inductive Status := Open | Finished (r : Result DsaError unit).

Record Conn := mkConn {
  c_store : S;
  c_buf : bytes;
  c_out : bytes;
  c_in : bytes;
  c_status : Status;
}.
(** A connection on which the client will have sent [input] by the time it
    stops. *)
Definition conn_new s (input : bytes) : Conn := mkConn s [] [] input Open.

(** The iterations of the loop of [serve_connection] that do not read. *)
Inductive Iteration := NeedMore | Handled (s : S) (out : bytes) (consumed : nat) (st : Status).
Definition iterate s (buf : bytes) : Iteration :=
  match try_decode_message buf with
  | Ok (Some (msg, consumed)) =>
      match dispatch s msg with
      | (s, Ok (ms, keep_open)) =>
          Handled s (written ms) consumed (if keep_open : bool then Open else Finished (Ok tt))
      | (s, Err e) => Handled s [] consumed (Finished (Err e))
      | (s, Panic) => Handled s [] consumed (Finished Panic)
      end
  | Ok None => NeedMore
  | Err e => Handled s [] 0 (Finished (Err (DsaLdap (lit "BER decode error: " ++ ber_display e))))
  | Panic => Handled s [] 0 (Finished Panic)
  end.

Inductive serve_step : Conn -> Conn -> Prop :=
| step_message s buf out input s' o n st :
    iterate s buf = Handled s' o n st ->
    serve_step (mkConn s buf out input Open) (mkConn s' (drop n buf) (out ++ o) input st)
| step_read s buf out chunk input :
    iterate s buf = NeedMore -> (0 < length chunk <= 4096)%nat ->
    serve_step (mkConn s buf out (chunk ++ input) Open) (mkConn s (buf ++ chunk) out input Open)
| step_eof s buf out :
    iterate s buf = NeedMore ->
    serve_step (mkConn s buf out [] Open) (mkConn s buf out [] (Finished (Ok tt))).

(** The loop when the whole input is there at once: a message takes at least two
    bytes, so as many rounds as bytes are enough. *)
Fixpoint serve_rounds (rounds : nat) s (buf out : bytes) : S * bytes * Result DsaError unit :=
  match iterate s buf with
  | NeedMore => (s, out, Ok tt)
  | Handled s o n (Finished r) => (s, out ++ o, r)
  | Handled s o n Open =>
      match rounds with
      | O => (s, out ++ o, Panic)
      | Datatypes.S rounds => serve_rounds rounds s (drop n buf) (out ++ o)
      end
  end.
Definition serve_all s (input : bytes) : S * bytes * Result DsaError unit :=
  serve_rounds (length input) s input [].

(** Handling a list of requests one after the other, up to an unbind. *)
Fixpoint serve_requests s (out : bytes) (msgs : list LdapMessage) : S * bytes * Result DsaError unit :=
  match msgs with
  | [] => (s, out, Ok tt)
  | msg :: msgs =>
      match dispatch s msg with
      | (s, Ok (ms, true)) => serve_requests s (out ++ written ms) msgs
      | (s, Ok (ms, false)) => (s, out ++ written ms, Ok tt)
      | (s, Err e) => (s, out ++ [], Err e)
      | (s, Panic) => (s, out ++ [], Panic)
      end
  end.
End server.
Arguments Conn _ : clear implicits.
Arguments mkConn {S} _ _ _ _ _.
Arguments NeedMore {S}.
Arguments Handled {S} _ _ _ _.
