(* ===== verification/LdapServerProofs.v ===== *)
(** * LdapServerProofs: the connection does not depend on how bytes arrive

    A message is recognised exactly when its last byte has arrived, more bytes
    change nothing, and so every run of the connection on the same input ends
    in the same store, with the same bytes written, however the network splits
    the input into reads. *)
From S2P Require Import Prelude Bytes Text StorageKeys StorageTxn MemStore TxnContract FdbStore Repl.
From S2P Require Import Ber LdapFilter LdapFilterProofs LdapTypes LdapProofs LdapHandler LdapServer.

(** ** Recognising a message *)

Lemma try_decode_Some buf m n :
  try_decode_message buf = Ok (Some (m, n)) ->
  exists t r, decode_tlv buf = Ok (t, r) /\ LdapMessage_decode (take n buf) = Ok m
    /\ (n + length r = length buf)%nat /\ (2 <= n)%nat.
Proof.
  unfold try_decode_message. destruct buf as [|b buf]; [done|]. set (B := b :: buf).
  destruct (decode_tlv B) as [[t r]|e|] eqn:E; [|destruct e; done|done].
  apply decode_tlv_decreases in E as Hd. set (n' := (length B - length (tlv_value t) - length r + length (tlv_value t))%nat).
  assert (n' + length r = length B)%nat as Hn by (unfold n'; lia).
  rewrite slice_Ok by lia. cbn [rbind]. rewrite Nat.sub_0_r. change (drop 0 B) with B.
  destruct (LdapMessage_decode (take n' B)) eqn:Ed; [|done|done]. cbn [rbind]. intros [= <- <-]. exists t, r. repeat split; [done|done|lia].
Qed.

(** [try_decode_message] as a function of the TLV found. *)
Lemma try_decode_tlv buf t r :
  decode_tlv buf = Ok (t, r) ->
  try_decode_message buf =
    let? msg := LdapMessage_decode (take (length buf - length r) buf) in Ok (Some (msg, (length buf - length r)%nat)).
Proof.
  intros E. apply decode_tlv_decreases in E as Hd. unfold try_decode_message.
  destruct buf as [|b buf]; [done|]. set (B := b :: buf) in *. rewrite E.
  assert (length B - length (tlv_value t) - length r + length (tlv_value t) = length B - length r)%nat as -> by lia.
  rewrite slice_Ok by lia. cbn [rbind]. rewrite Nat.sub_0_r. done.
Qed.

(** More bytes do not change a decision that has been made. *)
Lemma try_decode_app buf x :
  try_decode_message buf <> Ok None -> try_decode_message (buf ++ x) = try_decode_message buf.
Proof.
  intros H. destruct (decode_tlv buf) as [[t r]|e|] eqn:E.
  - pose proof (decode_tlv_decreases _ _ _ E). rewrite (try_decode_tlv _ _ _ E).
    rewrite (try_decode_tlv _ _ _ (decode_tlv_app _ x _ _ E)). rewrite !length_app.
    replace (length buf + length x - (length r + length x))%nat with (length buf - length r)%nat by lia.
    rewrite take_app_le by lia. done.
  - assert (incomplete e = false) as He.
    { destruct (incomplete e) eqn:He; [|done]. exfalso. apply H. unfold try_decode_message. destruct buf; [done|].
      rewrite E. by destruct e. }
    pose proof (decode_tlv_err_app _ x _ E He) as Ex. unfold try_decode_message. rewrite E, Ex.
    destruct buf; [by simplify_eq/=|]. done.
  - by apply decode_tlv_no_panic in E.
Qed.

(** A complete message, then anything. *)
Lemma try_decode_encode m x :
  message_wf m = true -> fits (LdapMessage_encode m) ->
  try_decode_message (LdapMessage_encode m ++ x) = Ok (Some (m, length (LdapMessage_encode m))).
Proof.
  intros Hwf Hf. pose proof (decode_message_encode m [] Hwf Hf) as Hd. rewrite app_nil_r in Hd.
  assert (decode_tlv (LdapMessage_encode m ++ x) = Ok (mkTlv TAG_SEQUENCE (message_body m), x)) as E.
  { apply decode_encode_tlv; [done|]. apply fits_tlv in Hf. exact Hf. }
  rewrite (try_decode_tlv _ _ _ E), length_app, Nat.add_sub, take_app_length. by rewrite Hd.
Qed.
Lemma try_decode_prefix m p q :
  fits (LdapMessage_encode m) -> LdapMessage_encode m = p ++ q -> q <> [] -> try_decode_message p = Ok None.
Proof.
  intros Hf Hpq Hq. unfold LdapMessage_encode in *. apply fits_tlv in Hf.
  destruct (decode_tlv_prefix TAG_SEQUENCE _ p q ltac:(done) Hf Hpq Hq) as (e & He & Hi).
  unfold try_decode_message. destruct p; [done|]. rewrite He. by destruct e.
Qed.

(** LDAP messages: for every message the Rust types allow whose encoding is
    below 4 GiB, the decoder inverts the encoder whatever bytes follow, the
    connection recognises the message and its exact length at the front of the
    buffer, and while bytes of it are missing it asks for more. *)
Theorem ldap_message_roundtrip (m : LdapMessage) (more : bytes) :
  message_wf m = true -> fits (LdapMessage_encode m) ->
  LdapMessage_decode (LdapMessage_encode m ++ more) = Ok m
  /\ try_decode_message (LdapMessage_encode m ++ more) = Ok (Some (m, length (LdapMessage_encode m)))
  /\ (forall p q, LdapMessage_encode m = p ++ q -> q <> [] -> try_decode_message p = Ok None).
Proof.
  intros Hwf Hf. split; [by apply decode_message_encode|]. split; [by apply try_decode_encode|].
  intros p q. by apply try_decode_prefix.
Qed.
Definition sample_message : LdapMessage :=
  mkLdapMessage 7 (OpSearchRequest (mkSearchRequest (lit "DC=x") 2 0 1000 0 sample_filter [lit "cn"; lit "*"] false))
    [mkControl (lit "1.2.840.113556.1.4.319") true (Some [x30; x00])].
Lemma ldap_message_roundtrip_witness :
  LdapMessage_decode (LdapMessage_encode sample_message ++ [x30]) = Ok sample_message.
Proof.
  refine (proj1 (ldap_message_roundtrip sample_message [x30] _ _)).
  - by vm_compute.
  - apply (bool_decide_unpack _). by vm_compute.
Defined.

(** ** Runs *)

Section runs.
Context {S : Type} `{!DirectoryStore S}.
Context (storage_display : StorageError -> bytes) (replication_display : ReplicationError -> bytes).
Context (ber_display : BerError -> bytes) (dsa : Dsa S).
Implicit Types (s : S).
Abbreviation iterate := (iterate storage_display replication_display ber_display dsa).
Abbreviation serve_step := (serve_step storage_display replication_display ber_display dsa).
Abbreviation serve_rounds := (serve_rounds storage_display replication_display ber_display dsa).
Abbreviation serve_all := (serve_all storage_display replication_display ber_display dsa).
Abbreviation dispatch := (dispatch storage_display replication_display dsa).

Lemma iterate_app s buf x s' o n st :
  iterate s buf = Handled s' o n st -> iterate s (buf ++ x) = Handled s' o n st.
Proof.
  unfold LdapServer.iterate. intros H. rewrite try_decode_app; [done|]. intros E. by rewrite E in H.
Qed.
Lemma iterate_consumed s buf s' o n st :
  iterate s buf = Handled s' o n st -> (n <= length buf)%nat /\ (st = Open -> (2 <= n)%nat).
Proof.
  unfold LdapServer.iterate. destruct (try_decode_message buf) as [[[m k]|]|e|] eqn:E.
  - apply try_decode_Some in E as (t & r & _ & _ & Hn & H2).
    destruct (dispatch s m) as [s2 [[ms keep]|e|]]; intros [= <- <- <- <-]; lia.
  - done.
  - intros [= <- <- <- <-]. split; [lia|done].
  - intros [= <- <- <- <-]. split; [lia|done].
Qed.

Lemma serve_rounds_enough k1 k2 s buf out :
  (length buf <= k1)%nat -> (length buf <= k2)%nat -> serve_rounds k1 s buf out = serve_rounds k2 s buf out.
Proof.
  revert k2 s buf out. induction k1 as [|k1 IH]; intros k2 s buf out H1 H2; destruct k2 as [|k2];
    cbn [LdapServer.serve_rounds]; destruct (iterate s buf) as [|s' o n [|r]] eqn:E; try done;
    apply iterate_consumed in E as [Hn Ho]; specialize (Ho eq_refl); try lia.
  apply IH; rewrite length_drop; lia.
Qed.
Lemma serve_rounds_unfold k s buf out :
  (length buf <= k)%nat ->
  serve_rounds k s buf out =
    match iterate s buf with
    | NeedMore => (s, out, Ok tt)
    | Handled s o n (Finished r) => (s, out ++ o, r)
    | Handled s o n Open => serve_rounds k s (drop n buf) (out ++ o)
    end.
Proof.
  intros Hk. destruct k as [|k]; cbn [LdapServer.serve_rounds]; destruct (iterate s buf) as [|s' o n [|r]] eqn:E; try done;
    apply iterate_consumed in E as [Hn Ho]; specialize (Ho eq_refl); [lia|].
  apply (serve_rounds_enough k (Datatypes.S k)); rewrite length_drop; lia.
Qed.

(** What a connection will end with. *)
Definition outcome (c : Conn S) : S * bytes * Result DsaError unit :=
  match c_status c with
  | Open => serve_rounds (length (c_buf c ++ c_in c)) (c_store c) (c_buf c ++ c_in c) (c_out c)
  | Finished r => (c_store c, c_out c, r)
  end.
Lemma step_outcome c c' : serve_step c c' -> outcome c = outcome c'.
Proof.
  intros Hs. destruct Hs as [s buf out input s' o n st H|s buf out chunk input H Hc|s buf out H]; unfold outcome;
    cbn [c_status c_buf c_in c_store c_out].
  - rewrite serve_rounds_unfold by done. rewrite (iterate_app _ _ input _ _ _ _ H).
    apply iterate_consumed in H as [Hn _]. destruct st as [|r]; [|done].
    rewrite drop_app_le by done. apply serve_rounds_enough; rewrite !length_app, !length_drop; lia.
  - by rewrite <-app_assoc.
  - rewrite app_nil_r, serve_rounds_unfold by done. by rewrite H.
Qed.

(** Every iteration makes progress. *)
Definition work (c : Conn S) : nat :=
  (2 * length (c_in c) + length (c_buf c) + match c_status c with Open => 1 | Finished _ => 0 end)%nat.
Lemma step_work c c' : serve_step c c' -> (work c' < work c)%nat.
Proof.
  intros Hs. destruct Hs as [s buf out input s' o n st H|s buf out chunk input H Hc|s buf out H]; unfold work;
    cbn [c_status c_buf c_in]; rewrite ?length_app, ?length_drop; [|lia|lia].
  apply iterate_consumed in H as [Hn Ho]. destruct st; [specialize (Ho eq_refl)|]; lia.
Qed.
Lemma step_progress c : c_status c = Open -> exists c', serve_step c c'.
Proof.
  destruct c as [s buf out input st]. cbn. intros ->. destruct (iterate s buf) as [|s' o n st] eqn:E.
  - destruct input as [|b input]; [eexists; by constructor|].
    exists (mkConn s (buf ++ [b]) out input Open). apply (step_read _ _ _ _ s buf out [b] input); [done|cbn; lia].
  - eexists. by apply step_message.
Qed.
Lemma run_outcome n c c' : nsteps serve_step n c c' -> outcome c = outcome c' /\ (n + work c' <= work c)%nat.
Proof.
  induction 1 as [c|n c c1 c' H1 _ [IH Hw]]; [split; [done|lia]|].
  rewrite (step_outcome _ _ H1). apply step_work in H1. split; [done|lia].
Qed.

(** The stream of encoded requests is served request by request. *)
Lemma serve_rounds_requests k s out msgs :
  Forall (fun m => message_wf m = true /\ fits (LdapMessage_encode m)) msgs ->
  (length (concat (map LdapMessage_encode msgs)) <= k)%nat ->
  serve_rounds k s (concat (map LdapMessage_encode msgs)) out = serve_requests storage_display replication_display dsa s out msgs.
Proof.
  intros HF. revert s out. induction HF as [|m msgs [Hwf Hf] _ IH]; intros s out Hk.
  { rewrite serve_rounds_unfold by done. done. }
  rewrite serve_rounds_unfold by done. cbn [map concat serve_requests] in *. unfold LdapServer.iterate.
  rewrite try_decode_encode by done. rewrite length_app in Hk.
  destruct (dispatch s m) as [s' [[ms [|]]|e|]]; [|done..].
  rewrite drop_app_length. apply IH. lia.
Qed.
End runs.

(** C35: The connection loop is insensitive to how the input arrives: every run of
    the loop takes at most [2 * length input + 1] iterations, never gets stuck
    while the connection is open, and however the input was split into reads it
    ends with the store, the bytes written and the result of serving the whole
    input at once; when the input is a sequence of encoded requests, these are
    those of handling the requests in order, up to an unbind. *)
Theorem serve_connection_confluent {S} `{!DirectoryStore S} sd rd bd (dsa : Dsa S) (s : S) (input : bytes) (n : nat) (c : Conn S) :
  nsteps (serve_step sd rd bd dsa) n (conn_new s input) c ->
  (n <= 2 * length input + 1)%nat
  /\ (c_status c = Open -> exists c', serve_step sd rd bd dsa c c')
  /\ (forall r, c_status c = Finished r -> (c_store c, c_out c, r) = serve_all sd rd bd dsa s input)
  /\ (forall msgs, Forall (fun m => message_wf m = true /\ fits (LdapMessage_encode m)) msgs ->
        input = concat (map LdapMessage_encode msgs) ->
        serve_all sd rd bd dsa s input = serve_requests sd rd dsa s [] msgs).
Proof.
  intros H. destruct (run_outcome sd rd bd dsa n _ _ H) as [Ho Hw]. split_and!.
  - unfold work in Hw. cbn in Hw. lia.
  - apply step_progress.
  - intros r Hr. unfold outcome in Ho. rewrite Hr in Ho. symmetry. exact Ho.
  - intros msgs HF ->. by apply serve_rounds_requests.
Qed.

Definition no_text {A} (_ : A) : bytes := [].
Definition unbind_input : bytes := LdapMessage_encode (mkLdapMessage 1 OpUnbindRequest []).
Definition unbound : Conn InMemoryDirectoryStore :=
  mkConn InMemoryDirectoryStore_new [] [] [] (Finished (Ok tt)).

(** The client's unbind arrives in two reads. *)
Lemma serve_connection_confluent_witness :
  (c_store unbound, c_out unbound, Ok tt)
  = serve_all no_text no_text no_text Dsa_new InMemoryDirectoryStore_new unbind_input.
Proof.
  destruct (serve_connection_confluent no_text no_text no_text Dsa_new InMemoryDirectoryStore_new unbind_input 3 unbound)
    as (_ & _ & H & _).
  - eapply nsteps_l; [apply (step_read no_text no_text no_text Dsa_new _ [] [] (take 3 unbind_input) (drop 3 unbind_input));
      [reflexivity|vm_compute; lia]|].
    eapply nsteps_l; [apply (step_read no_text no_text no_text Dsa_new _ (take 3 unbind_input) [] (drop 3 unbind_input) []);
      [reflexivity|vm_compute; lia]|].
    eapply nsteps_l; [|apply nsteps_O].
    apply (step_message no_text no_text no_text Dsa_new InMemoryDirectoryStore_new
      (take 3 unbind_input ++ drop 3 unbind_input) [] [] InMemoryDirectoryStore_new [] 7 (Finished (Ok tt))).
    vm_compute. reflexivity.
  - apply H. reflexivity.
Defined.
