(* ===== verification/Utf16.v ===== *)
(** * Utf16: the characters of a string and their UTF-16 form

    [str::chars], [str::encode_utf16] and [String::from_utf16] of the standard
    library, which the RPC and policy codecs use for strings on the wire.  A
    string is its UTF-8 bytes, a character its scalar value, a UTF-16 text the
    list of its code units. *)
From S2P Require Import Prelude Bytes Text.

(** ** Characters *)

Definition is_scalar (c : Z) : bool :=
  ((0 <=? c) && (c <? 0xD800)) || ((0xE000 <=? c) && (c <=? 0x10FFFF)).

(** The scalar value of the well-formed character of [n] bytes at the head. *)
Definition char_code (n : nat) (l : bytes) : Z :=
  match n, l with
  | 1%nat, b0 :: _ => b2z b0
  | 2%nat, b0 :: b1 :: _ => (b2z b0 - 192) * 64 + (b2z b1 - 128)
  | 3%nat, b0 :: b1 :: b2 :: _ => (b2z b0 - 224) * 4096 + (b2z b1 - 128) * 64 + (b2z b2 - 128)
  | 4%nat, b0 :: b1 :: b2 :: b3 :: _ =>
      (b2z b0 - 240) * 262144 + (b2z b1 - 128) * 4096 + (b2z b2 - 128) * 64 + (b2z b3 - 128)
  | _, _ => 0
  end.

(** [char::encode_utf8]. *)
Definition char_utf8 (c : Z) : bytes :=
  if c <? 0x80 then [z2b c]
  else if c <? 0x800 then [z2b (192 + c / 64); z2b (128 + c mod 64)]
  else if c <? 0x10000 then [z2b (224 + c / 4096); z2b (128 + c / 64 mod 64); z2b (128 + c mod 64)]
  else [z2b (240 + c / 262144); z2b (128 + c / 4096 mod 64); z2b (128 + c / 64 mod 64); z2b (128 + c mod 64)].

(** [str::chars]: each character is at least one byte, so the length bounds the
    number of rounds. *)
Fixpoint chars_rounds (rounds : nat) (l : bytes) : list Z :=
  match rounds, l with
  | S rounds, b :: _ =>
      match utf8_step b l with
      | Utf8Char n => char_code n l :: chars_rounds rounds (drop n l)
      | Utf8Bad _ => []
      end
  | _, _ => []
  end.
Definition chars (s : bytes) : list Z := chars_rounds (length s) s.

Definition of_chars (cs : list Z) : bytes := concat (map char_utf8 cs).

(** ** UTF-16 *)

Definition char_utf16 (c : Z) : list Z :=
  if c <? 0x10000 then [c]
  else [0xD800 + (c - 0x10000) / 1024; 0xDC00 + (c - 0x10000) mod 1024].

(** [str::encode_utf16]. *)
Definition encode_utf16 (s : bytes) : list Z := concat (map char_utf16 (chars s)).

Definition is_high (u : Z) : bool := (0xD800 <=? u) && (u <=? 0xDBFF).
Definition is_low (u : Z) : bool := (0xDC00 <=? u) && (u <=? 0xDFFF).

(** [char::decode_utf16], failing at the first unpaired surrogate. *)
Fixpoint decode_utf16 (us : list Z) : option (list Z) :=
  match us with
  | [] => Some []
  | u :: us =>
      if is_high u then
        match us with
        | v :: us =>
            if is_low v
            then cons (0x10000 + (u - 0xD800) * 1024 + (v - 0xDC00)) <$> decode_utf16 us
            else None
        | [] => None
        end
      else if is_low u then None
      else cons u <$> decode_utf16 us
  end.

(** [String::from_utf16_lossy]: an unpaired surrogate becomes U+FFFD. *)
Fixpoint decode_utf16_lossy (us : list Z) : list Z :=
  match us with
  | [] => []
  | u :: us =>
      if is_high u then
        match us with
        | v :: us' =>
            if is_low v
            then (0x10000 + (u - 0xD800) * 1024 + (v - 0xDC00)) :: decode_utf16_lossy us'
            else 0xFFFD :: decode_utf16_lossy us
        | [] => [0xFFFD]
        end
      else if is_low u then 0xFFFD :: decode_utf16_lossy us
      else u :: decode_utf16_lossy us
  end.
Definition from_utf16_lossy (us : list Z) : bytes := of_chars (decode_utf16_lossy us).

(** [String::from_utf16]. *)
Definition from_utf16 (us : list Z) : option bytes := of_chars <$> decode_utf16 us.

(** ** Characters and bytes *)

Ltac euclid := Z.to_euclidean_division_equations; lia.

Lemma is_scalar_iff c : is_scalar c = true <-> 0 <= c < 0xD800 \/ 0xE000 <= c <= 0x10FFFF.
Proof. unfold is_scalar. lia. Qed.

Lemma between_iff lo hi b : between lo hi b = true <-> lo <= b2z b <= hi.
Proof. unfold between. lia. Qed.

Lemma utf8_cont_iff l i : utf8_cont l i = true <-> exists b, l !! i = Some b /\ 128 <= b2z b <= 191.
Proof. unfold utf8_cont. destruct (l !! i); [rewrite between_iff|]; naive_solver. Qed.
Lemma utf8_second_iff lo hi l :
  utf8_second lo hi l = true <-> exists b, l !! 1%nat = Some b /\ lo <= b2z b <= hi.
Proof. unfold utf8_second. destruct (l !! 1%nat); [rewrite between_iff|]; naive_solver. Qed.

(** Byte [b] written as the value [z] computed from other bytes. *)
Lemma z2b_eq z b : z = b2z b -> z2b z = b.
Proof. intros ->. apply z2b_b2z. Qed.

Lemma utf8_step3_Char lo hi l n :
  utf8_step3 lo hi l = Utf8Char n ->
  n = 3%nat /\ exists b0 b1 b2 t, l = b0 :: b1 :: b2 :: t /\ lo <= b2z b1 <= hi /\ 128 <= b2z b2 <= 191.
Proof.
  unfold utf8_step3. destruct (utf8_second _ _ l) eqn:H1; [|done]. destruct (utf8_cont l 2) eqn:H2; [|done].
  cbn. intros [= <-]. split; [done|]. apply utf8_second_iff in H1 as (b1 & ? & ?). apply utf8_cont_iff in H2 as (b2 & ? & ?).
  destruct l as [|? [|? [|? ?]]]; simplify_eq/=. eauto 10.
Qed.
Lemma utf8_step4_Char lo hi l n :
  utf8_step4 lo hi l = Utf8Char n ->
  n = 4%nat /\ exists b0 b1 b2 b3 t, l = b0 :: b1 :: b2 :: b3 :: t
    /\ lo <= b2z b1 <= hi /\ 128 <= b2z b2 <= 191 /\ 128 <= b2z b3 <= 191.
Proof.
  unfold utf8_step4. destruct (utf8_second _ _ l) eqn:H1; [|done]. destruct (utf8_cont l 2) eqn:H2; [|done].
  destruct (utf8_cont l 3) eqn:H3; [|done]. cbn. intros [= <-]. split; [done|].
  apply utf8_second_iff in H1 as (b1 & ? & ?). apply utf8_cont_iff in H2 as (b2 & ? & ?).
  apply utf8_cont_iff in H3 as (b3 & ? & ?).
  destruct l as [|? [|? [|? [|? ?]]]]; simplify_eq/=. eauto 12.
Qed.

(** The three- and four-byte forms, for the ranges of each lead byte. *)
Lemma char_utf8_3 b0 b1 b2 t :
  224 <= b2z b0 <= 239 -> 128 <= b2z b1 <= 191 -> 128 <= b2z b2 <= 191 ->
  (b2z b0 = 224 -> 160 <= b2z b1) ->
  char_utf8 (char_code 3 (b0 :: b1 :: b2 :: t)) = [b0; b1; b2].
Proof.
  intros H0 H1 H2 H3. cbn [char_code]. unfold char_utf8.
  do 2 (case_match eqn:E; [lia|clear E]). case_match; [|lia].
  repeat f_equal; apply z2b_eq; euclid.
Qed.
Lemma char_utf8_4 b0 b1 b2 b3 t :
  240 <= b2z b0 <= 244 -> 128 <= b2z b1 <= 191 -> 128 <= b2z b2 <= 191 -> 128 <= b2z b3 <= 191 ->
  (b2z b0 = 240 -> 144 <= b2z b1) ->
  char_utf8 (char_code 4 (b0 :: b1 :: b2 :: b3 :: t)) = [b0; b1; b2; b3].
Proof.
  intros H0 H1 H2 H3 H4. cbn [char_code]. unfold char_utf8.
  do 3 (case_match eqn:E; [lia|clear E]). repeat f_equal; apply z2b_eq; euclid.
Qed.

(** A well-formed character is the encoding of its scalar value. *)
Lemma utf8_step_char b l n :
  utf8_step b (b :: l) = Utf8Char n ->
  char_utf8 (char_code n (b :: l)) = take n (b :: l) /\ is_scalar (char_code n (b :: l)) = true
  /\ (1 <= n <= length (b :: l))%nat.
Proof.
  pose proof (b2z_range b). rewrite is_scalar_iff. unfold utf8_step.
  repeat case_match; try discriminate; intros Hs;
    first [ apply utf8_step3_Char in Hs as (-> & c0 & b1 & b2 & t & Ht & ? & ?)
          | apply utf8_step4_Char in Hs as (-> & c0 & b1 & b2 & b3 & t & Ht & ? & ? & ?)
          | injection Hs as <- ]; simplify_eq;
    try (first [rewrite char_utf8_3 by lia | rewrite char_utf8_4 by lia]; cbn; split; [done|]; lia).
  - cbn [char_code]. unfold char_utf8. case_match; [|lia]. rewrite z2b_b2z. cbn. split; [done|]. lia.
  - apply utf8_cont_iff in H3 as (b1 & Hb1 & ?). destruct l as [|c l]; simplify_eq/=.
    unfold char_utf8. case_match; [lia|]. case_match; [|lia].
    split; [|lia]. unfold take. repeat f_equal; apply z2b_eq; euclid.
Qed.

Lemma of_chars_chars_rounds rounds s : utf8_valid_fuel rounds s = true ->
  of_chars (chars_rounds rounds s) = s /\ Forall (fun c => is_scalar c = true) (chars_rounds rounds s).
Proof.
  revert s. induction rounds as [|rounds IH]; intros [|b s]; try done. cbn [utf8_valid_fuel chars_rounds].
  destruct (utf8_step b (b :: s)) as [n|n] eqn:Hs; [|done]. intros [IH1 IH2]%IH.
  apply utf8_step_char in Hs as (Hc & Hsc & _). split; [|by constructor].
  unfold of_chars in *. cbn [map concat]. by rewrite IH1, Hc, take_drop.
Qed.
Lemma of_chars_chars s : utf8_valid s = true -> of_chars (chars s) = s.
Proof. intros. by apply of_chars_chars_rounds. Qed.
Lemma chars_scalar s : utf8_valid s = true -> Forall (fun c => is_scalar c = true) (chars s).
Proof. intros. by apply of_chars_chars_rounds. Qed.

(** ** The encodings of characters are well-formed *)

Lemma b2z_z2b_small z : 0 <= z < 256 -> b2z (z2b z) = z.
Proof. intros. rewrite b2z_z2b. by apply Z.mod_small. Qed.

Lemma utf8_step_char_utf8 c t : is_scalar c = true ->
  exists b l, char_utf8 c ++ t = b :: l /\ utf8_step b (b :: l) = Utf8Char (length (char_utf8 c))
    /\ char_code (length (char_utf8 c)) (b :: l) = c.
Proof.
  rewrite is_scalar_iff. intros Hc. unfold char_utf8.
  repeat case_match; eexists _, _; (split; [reflexivity|]); unfold utf8_step, utf8_step3, utf8_step4, utf8_second, utf8_cont, between;
    cbn [length app lookup list_lookup char_code]; rewrite !b2z_z2b_small by euclid.
  all: split; [|euclid].
  all: repeat case_match; try done; euclid.
Qed.

Lemma chars_rounds_of_chars cs rounds :
  Forall (fun c => is_scalar c = true) cs -> (length (of_chars cs) <= rounds)%nat ->
  chars_rounds rounds (of_chars cs) = cs /\ utf8_valid_fuel rounds (of_chars cs) = true.
Proof.
  intros H. revert rounds. induction H as [|c cs Hc _ IH]; intros rounds Hr; [by destruct rounds|].
  change (of_chars (c :: cs)) with (char_utf8 c ++ of_chars cs) in *.
  destruct (utf8_step_char_utf8 c (of_chars cs) Hc) as (b & l & Heq & Hs & Hcode).
  pose proof (utf8_step_char _ _ _ Hs) as (_ & _ & Hn).
  rewrite length_app in Hr. destruct rounds as [|rounds]; [lia|].
  destruct (IH rounds ltac:(lia)) as [IH1 IH2].
  assert (drop (length (char_utf8 c)) (b :: l) = of_chars cs) as Hd by (by rewrite <-Heq, drop_app_length).
  rewrite Heq. cbn [chars_rounds utf8_valid_fuel]. rewrite Hs, Hcode, Hd, IH1. auto.
Qed.
Lemma utf8_valid_of_chars cs : Forall (fun c => is_scalar c = true) cs -> utf8_valid (of_chars cs) = true.
Proof. intros. by apply chars_rounds_of_chars. Qed.
Lemma chars_of_chars cs : Forall (fun c => is_scalar c = true) cs -> chars (of_chars cs) = cs.
Proof. intros. by apply chars_rounds_of_chars. Qed.

(** ** UTF-16 round trips *)

Lemma decode_char_utf16 c us : is_scalar c = true -> decode_utf16 (char_utf16 c ++ us) = cons c <$> decode_utf16 us.
Proof.
  rewrite is_scalar_iff. intros Hc. unfold char_utf16.
  destruct (Z.ltb_spec c 0x10000); cbn [app decode_utf16]; unfold is_high, is_low.
  - do 2 (case_match eqn:E; [lia|clear E]). done.
  - case_match; [|euclid]. case_match; [|euclid]. do 2 f_equal. euclid.
Qed.
Lemma decode_lossy_char_utf16 c us :
  is_scalar c = true -> decode_utf16_lossy (char_utf16 c ++ us) = c :: decode_utf16_lossy us.
Proof.
  rewrite is_scalar_iff. intros Hc. unfold char_utf16.
  destruct (Z.ltb_spec c 0x10000); cbn [app decode_utf16_lossy]; unfold is_high, is_low.
  - do 2 (case_match eqn:E; [lia|clear E]). done.
  - case_match; [|euclid]. case_match; [|euclid]. do 2 f_equal. euclid.
Qed.
Lemma decode_utf16_chars cs :
  Forall (fun c => is_scalar c = true) cs -> decode_utf16 (concat (map char_utf16 cs)) = Some cs.
Proof. induction 1 as [|c cs Hc _ IH]; [done|]. cbn [map concat]. by rewrite decode_char_utf16, IH. Qed.
Lemma decode_lossy_chars cs :
  Forall (fun c => is_scalar c = true) cs -> decode_utf16_lossy (concat (map char_utf16 cs)) = cs.
Proof. induction 1 as [|c cs Hc _ IH]; [done|]. cbn [map concat]. by rewrite decode_lossy_char_utf16, IH. Qed.

(** [String::from_utf16] inverts [encode_utf16], and so does the lossy form. *)
Lemma from_encode_utf16 s : utf8_valid s = true -> from_utf16 (encode_utf16 s) = Some s.
Proof.
  intros Hs. unfold from_utf16, encode_utf16. rewrite decode_utf16_chars by (by apply chars_scalar).
  cbn. f_equal. by apply of_chars_chars.
Qed.
Lemma from_encode_utf16_lossy s : utf8_valid s = true -> from_utf16_lossy (encode_utf16 s) = s.
Proof.
  intros Hs. unfold from_utf16_lossy, encode_utf16. rewrite decode_lossy_chars by (by apply chars_scalar).
  by apply of_chars_chars.
Qed.

Lemma char_utf16_units c : is_scalar c = true -> Forall is_u16 (char_utf16 c).
Proof. rewrite is_scalar_iff. unfold char_utf16. case_match; repeat constructor; unfold_ints; euclid. Qed.
Lemma encode_utf16_units s : utf8_valid s = true -> Forall is_u16 (encode_utf16 s).
Proof.
  intros Hs. pose proof (chars_scalar s Hs) as H. unfold encode_utf16.
  induction H; cbn [map concat]; [constructor|]. apply Forall_app. auto using char_utf16_units.
Qed.

(** What [from_utf16] accepts is the UTF-16 form of the string it returns. *)
Lemma decode_utf16_Some us cs : Forall is_u16 us -> decode_utf16 us = Some cs ->
  Forall (fun c => is_scalar c = true) cs /\ concat (map char_utf16 cs) = us.
Proof.
  revert us. induction cs as [cs IH] using (Nat.measure_induction _ length). intros us Hu Hd.
  destruct us as [|u us]; cbn [decode_utf16] in Hd; [by simplify_eq|]. inversion_clear Hu as [|? ? Hu1 Hu2].
  unfold is_uint in Hu1. unfold is_high, is_low in Hd. case_match eqn:E1.
  - destruct us as [|v us]; [done|]. inversion_clear Hu2 as [|? ? Hv Hu3]. case_match eqn:E2; [|done].
    apply fmap_Some in Hd as (cs' & Hd & ->). destruct (IH cs' ltac:(cbn; lia) us Hu3 Hd) as [IH1 IH2].
    split; [constructor; [rewrite is_scalar_iff; lia|done]|]. cbn [map concat]. rewrite IH2.
    unfold char_utf16. case_match; [lia|]. cbn. repeat f_equal; euclid.
  - case_match eqn:E2; [done|]. apply fmap_Some in Hd as (cs' & Hd & ->).
    destruct (IH cs' ltac:(cbn; lia) us Hu2 Hd) as [IH1 IH2].
    split; [constructor; [rewrite is_scalar_iff; lia|done]|]. cbn [map concat]. rewrite IH2.
    unfold char_utf16. case_match; [done|]. lia.
Qed.
Lemma from_utf16_Some us s : Forall is_u16 us -> from_utf16 us = Some s ->
  utf8_valid s = true /\ encode_utf16 s = us.
Proof.
  unfold from_utf16. intros Hu (cs & Hd & ->)%fmap_Some. destruct (decode_utf16_Some us cs Hu Hd) as [Hs He].
  split; [by apply utf8_valid_of_chars|]. unfold encode_utf16. by rewrite chars_of_chars.
Qed.

(** ** Code units as little-endian bytes *)

(** [for u in units { extend(u.to_le_bytes()) }]. *)
Definition units_le (us : list Z) : bytes := concat (map (to_le 2) us).

(** [chunks_exact(2)] with [u16::from_le_bytes]; a last odd byte is dropped. *)
Fixpoint le_units (l : bytes) : list Z :=
  match l with
  | b0 :: b1 :: l => of_le [b0; b1] :: le_units l
  | _ => []
  end.

Lemma length_units_le us : length (units_le us) = (2 * length us)%nat.
Proof. induction us as [|u us IH]; [done|]. unfold units_le in *. cbn [map concat length]. rewrite length_app, length_to_le. lia. Qed.
Lemma le_units_units_le us : Forall is_u16 us -> le_units (units_le us) = us.
Proof.
  induction 1 as [|u us Hu _ IH]; [done|]. unfold units_le in *. cbn [map concat].
  destruct (to_le 2 u) as [|b0 [|b1 [|]]] eqn:E; try (apply (f_equal length) in E; rewrite length_to_le in E; done).
  cbn [app le_units]. rewrite IH, <-E, of_to_le_id; [done|]. unfold is_uint in Hu. cbn. lia.
Qed.
Lemma le_units_u16 l : Forall is_u16 (le_units l).
Proof.
  induction l as [l IH] using (Nat.measure_induction _ length). destruct l as [|b0 [|b1 l]]; try constructor.
  - exact (of_le_range [b0; b1]).
  - apply IH. cbn. lia.
Qed.
Lemma length_le_units l n : length l = (2 * n)%nat -> length (le_units l) = n.
Proof.
  revert l. induction n as [|n IH]; intros [|b0 [|b1 l]] H; cbn in *; try lia. f_equal. apply IH. lia.
Qed.

(** ** Lossy decoding yields well-formed text *)

Lemma decode_lossy_scalar us : Forall is_u16 us -> Forall (fun c => is_scalar c = true) (decode_utf16_lossy us).
Proof.
  induction us as [us IH] using (Nat.measure_induction _ length). destruct us as [|u us]; [constructor|]. intros Hu.
  apply Forall_cons in Hu as [Hu Hus]. cbn [decode_utf16_lossy].
  assert (Forall (fun c => is_scalar c = true) (decode_utf16_lossy us)) as Hr by (apply IH; [cbn; lia|done]).
  destruct (is_high u) eqn:Hh.
  - destruct us as [|v us]; [by repeat constructor|]. destruct (is_low v) eqn:Hl; [|by constructor].
    apply Forall_cons in Hus as [_ Hus]. constructor; [|apply IH; [cbn; lia|done]].
    apply is_scalar_iff. unfold is_high, is_low in *. lia.
  - destruct (is_low u) eqn:Hl; constructor; try done. apply is_scalar_iff. unfold is_high, is_low, is_uint in *. lia.
Qed.
Lemma from_utf16_lossy_valid us : Forall is_u16 us -> utf8_valid (from_utf16_lossy us) = true.
Proof. intros. by apply utf8_valid_of_chars, decode_lossy_scalar. Qed.
Lemma from_utf8_lossy_chars fuel l :
  exists cs, Forall (fun c => is_scalar c = true) cs /\ from_utf8_lossy_fuel fuel l = of_chars cs.
Proof.
  revert l. induction fuel as [|fuel IH]; intros [|b l]; try by exists []. cbn [from_utf8_lossy_fuel].
  destruct (utf8_step b (b :: l)) as [n|n] eqn:E; destruct (IH (drop n (b :: l))) as (cs & Hcs & ->).
  - apply utf8_step_char in E as (Hc & Hs & _). exists (char_code n (b :: l) :: cs). split; [by constructor|].
    change (of_chars (?c :: cs)) with (char_utf8 c ++ of_chars cs). by rewrite Hc.
  - exists (0xFFFD :: cs). split; [by constructor|done].
Qed.
Lemma from_utf8_lossy_valid l : utf8_valid (from_utf8_lossy l) = true.
Proof. destruct (from_utf8_lossy_chars (length l) l) as (cs & Hcs & E). unfold from_utf8_lossy. rewrite E. by apply utf8_valid_of_chars. Qed.

(** ** ASCII bytes in UTF-8 *)

(** A character is one ASCII byte or none. *)
Lemma char_utf8_ascii c : is_scalar c = true -> (0 <= c < 128 /\ char_utf8 c = [z2b c]) \/ (128 <= c /\ Forall (fun b => 128 <= b2z b) (char_utf8 c)).
Proof.
  rewrite is_scalar_iff. intros Hc. unfold char_utf8. destruct (Z.ltb_spec c 0x80); [left; split; [lia|done]|right]. split; [lia|].
  repeat case_match; repeat constructor; rewrite b2z_z2b_small by euclid; euclid.
Qed.
Lemma of_chars_split_ascii cs a sep b : Forall (fun c => is_scalar c = true) cs -> b2z sep < 128 -> of_chars cs = a ++ [sep] ++ b ->
  utf8_valid a = true /\ utf8_valid b = true.
Proof.
  intros H Hs. revert a. induction H as [|c cs Hc H IH]; intros a E; [by destruct a|]. change (of_chars (c :: cs)) with (char_utf8 c ++ of_chars cs) in E.
  assert (exists pre, (a = char_utf8 c ++ pre /\ of_chars cs = pre ++ [sep] ++ b) \/ (char_utf8 c = a ++ [sep] ++ pre /\ b = pre ++ of_chars cs)) as [pre [[-> E']|[E' ->]]].
  { apply app_eq_inv in E as [(k & E & E')|(k & -> & E)]; [|exists k; by left].
    destruct k as [|x k]; [exists []; left; rewrite app_nil_r in *; by rewrite E|]. injection E' as <- ->. exists k. by right. }
  - destruct (IH pre E') as [Hp Hb]. split; [|done]. rewrite <-(of_chars_chars pre Hp). change (char_utf8 c ++ of_chars (chars pre)) with (of_chars (c :: chars pre)).
    apply utf8_valid_of_chars. constructor; [done|by apply chars_scalar].
  - destruct (char_utf8_ascii c Hc) as [[_ Ec]|[_ Hf]].
    + rewrite Ec in E'. destruct a as [|x a]; [|by destruct a]. injection E' as <- <-. cbn [app]. split; [done|by apply utf8_valid_of_chars].
    + rewrite E' in Hf. apply Forall_app in Hf as [_ Hf]. inversion Hf; subst. lia.
Qed.
Lemma utf8_split_ascii a sep b : b2z sep < 128 -> utf8_valid (a ++ [sep] ++ b) = true -> utf8_valid a = true /\ utf8_valid b = true.
Proof. intros Hs Hv. apply (of_chars_split_ascii (chars (a ++ [sep] ++ b)) a sep b); [by apply chars_scalar|done|by apply of_chars_chars]. Qed.
(** A map of bytes that keeps ASCII in ASCII and the rest as it is. *)
Lemma utf8_map_ascii f s : (forall b, b2z b < 128 -> b2z (f b) < 128) -> (forall b, 128 <= b2z b -> f b = b) -> utf8_valid s = true -> utf8_valid (map f s) = true.
Proof.
  intros H1 H2 Hs. rewrite <-(of_chars_chars s Hs). pose proof (chars_scalar s Hs) as Hc. clear Hs.
  assert (exists cs, Forall (fun c => is_scalar c = true) cs /\ map f (of_chars (chars s)) = of_chars cs) as (cs & Hcs & ->); [|by apply utf8_valid_of_chars].
  induction Hc as [|c l Hc _ (cs & Hcs & IH)]; [by exists []|]. change (of_chars (c :: l)) with (char_utf8 c ++ of_chars l). rewrite map_app, IH.
  destruct (char_utf8_ascii c Hc) as [[Hr E]|[_ Hf]].
  - exists (b2z (f (z2b c)) :: cs). pose proof (b2z_range (f (z2b c))). specialize (H1 (z2b c)). rewrite b2z_z2b_small in H1 by lia. specialize (H1 (proj2 Hr)).
    split; [constructor; [apply is_scalar_iff; lia|done]|]. rewrite E. change (of_chars (?x :: cs)) with (char_utf8 x ++ of_chars cs). cbn [map].
    unfold char_utf8. rewrite (proj2 (Z.ltb_lt _ _)) by lia. by rewrite z2b_b2z.
  - exists (c :: cs). split; [by constructor|]. change (of_chars (c :: cs)) with (char_utf8 c ++ of_chars cs). f_equal.
    clear -H2 Hf. induction Hf as [|b l Hb _ IH]; [done|]. cbn [map]. by rewrite H2, IH.
Qed.
