(* ===== verification/Ndr.v ===== *)
(** * Ndr: the NDR writer and reader (crate [adrian-dcerpc], [ndr.rs])

    The append-only writer, the cursor reader and their primitives, with the
    alignment both compute from the absolute position.  A writer method maps the
    buffer to the extended buffer, [Panic] when an operand overflows; a reader
    method maps the cursor to a value and the moved cursor.  [Reads d w a] says
    that [d] reads back what [w] writes, [Yields d P] that [d] is total on every
    input, keeps the cursor inside the buffer and returns values in [P]; the
    codecs built on this file are proved by composing the two. *)
From S2P Require Import Prelude Bytes Text StorageKeys Utf16.

(** ** Errors: the crate's error type, a message as the values it interpolates *)

Inductive NdrProblem :=
| ShortRead (requested : Z) (offset remaining : nat)
| ArrayConversion (n : Z)
| ArrayCounts (actual max : Z)
| StringCounts (actual max : Z)
| StringLength
| StringUtf16
| PduTooShort (got min : nat)
| UnexpectedPtype (expected got : Z)
| FragLengthMismatch (frag_length : Z) (len : nat)
| SecAddrUtf8
| FragLengthTooSmall (frag_length : Z)
| ExtensionsTooSmall (cb : Z)
| DsNameLength
| DsNameNul (got : bytes)
| DsNameUtf16.

Inductive DceRpcError :=
| BindFailed
| BindRejected (result reason call_id : Z)
| OpnumNotImplemented (opnum : Z) (interface : bytes)
| AuthFailed (msg : bytes)
| NdrError (p : NdrProblem)
| UnexpectedEof.

(** ** The writer *)

Abbreviation NdrWriter := bytes.
Definition Writer : Type := NdrWriter -> Result DceRpcError NdrWriter.

(** Statements in sequence; a value that may panic is computed first. *)
Definition wseq (f g : Writer) : Writer := fun w => let? w := f w in g w.
Definition wlet {A} (r : Result DceRpcError A) (f : A -> Writer) : Writer := fun w => let? a := r in f a w.
Definition wskip : Writer := fun w => Ok w.
Notation "f >>> g" := (wseq f g) (at level 62, right associativity).

(** [for x in l { f(x) }]. *)
Fixpoint wfor {A} (l : list A) (f : A -> Writer) : Writer :=
  match l with [] => wskip | x :: l => f x >>> wfor l f end.

Definition NdrWriter_new : NdrWriter := [].

(** [align]; every caller passes 2, 4 or 8, so its assertion that the alignment
    is a power of two holds. *)
Definition NdrWriter_align (alignment : Z) : Writer := fun w =>
  if alignment <=? 1 then Ok w
  else
    let mask := alignment - 1 in
    let rem := Z.land (Z.of_nat (length w)) mask in
    if negb (rem =? 0) then Ok (w ++ replicate (Z.to_nat (alignment - rem)) x00) else Ok w.

Definition write_bytes (l : bytes) : Writer := fun w => Ok (w ++ l).
Definition write_uint8 (v : Z) : Writer := fun w => Ok (w ++ [z2b v]).
Definition write_uint16 (v : Z) : Writer := NdrWriter_align 2 >>> write_bytes (to_le 2 v).
Definition write_uint32 (v : Z) : Writer := NdrWriter_align 4 >>> write_bytes (to_le 4 v).
Definition write_uint64 (v : Z) : Writer := NdrWriter_align 8 >>> write_bytes (to_le 8 v).
Definition write_uuid (u : Uuid) : Writer := write_bytes (uuid_as_bytes u).

Definition write_conformant_array (data : bytes) : Writer :=
  let max_count := as_u32 (Z.of_nat (length data)) in
  write_uint32 max_count >>> write_uint32 0 >>> write_uint32 max_count >>> write_bytes data.

Definition write_string (s : bytes) : Writer :=
  let units := encode_utf16 s in
  let max_count := as_u32 (Z.of_nat (length units) + 1) in
  write_uint32 max_count >>> write_uint32 0 >>> write_uint32 max_count >>>
  wfor units (fun u => write_bytes (to_le 2 u)) >>> write_bytes (to_le 2 0).

(** ** The reader *)

Record NdrReader := mkReader { nr_buf : bytes; nr_pos : nat }.
Definition Reader (A : Type) : Type := NdrReader -> Result DceRpcError (A * NdrReader).

Definition dret {A} (a : A) : Reader A := fun r => Ok (a, r).
Definition dfail {A} (p : NdrProblem) : Reader A := fun _ => Err (NdrError p).
Definition dbind {A B} (d : Reader A) (k : A -> Reader B) : Reader B :=
  fun r => let? ar := d r in k ar.1 ar.2.
Notation "'let*' x := d 'in' k" := (dbind d (fun x => k))
  (at level 10, x pattern, d at level 200, k at level 200, format "'[v' 'let*'  x  :=  d  'in' '/' k ']'").
Definition dlift {A} (o : option A) (p : NdrProblem) : Reader A :=
  match o with Some a => dret a | None => dfail p end.

(** [for _ in 0..n] collecting the results. *)
Fixpoint dtimes {A} (n : nat) (d : Reader A) : Reader (list A) :=
  match n with
  | O => dret []
  | S n => let* x := d in let* l := dtimes n d in dret (x :: l)
  end.

Definition NdrReader_new (buf : bytes) : NdrReader := mkReader buf 0.
Definition remaining (r : NdrReader) : nat := (length (nr_buf r) - nr_pos r)%nat.

Definition require (n : Z) : Reader unit := fun r =>
  let beyond :=
    match uint_checked_add 64 (Z.of_nat (nr_pos r)) n with
    | None => true
    | Some end_ => Z.of_nat (length (nr_buf r)) <? end_
    end in
  if beyond then Err (NdrError (ShortRead n (nr_pos r) (remaining r))) else Ok (tt, r).

Definition skip (n : Z) : Reader unit := fun r => Ok (tt, mkReader (nr_buf r) (nr_pos r + Z.to_nat n)).

Definition NdrReader_align (alignment : Z) : Reader unit := fun r =>
  if alignment <=? 1 then Ok (tt, r)
  else
    let mask := alignment - 1 in
    let rem := Z.land (Z.of_nat (nr_pos r)) mask in
    if negb (rem =? 0) then
      let pad := alignment - rem in
      (let* _ := require pad in skip pad) r
    else Ok (tt, r).

Definition read_bytes (n : Z) : Reader bytes := fun r =>
  let? _ := require n r in
  let? s := slice (nr_buf r) (nr_pos r) (nr_pos r + Z.to_nat n) in
  Ok (s, mkReader (nr_buf r) (nr_pos r + Z.to_nat n)).

Definition read_array (n : nat) : Reader bytes :=
  let* s := read_bytes (Z.of_nat n) in
  if (length s =? n)%nat then dret s else dfail (ArrayConversion (Z.of_nat n)).

Definition read_uint8 : Reader Z := fun r =>
  let? _ := require 1 r in
  match nr_buf r !! nr_pos r with
  | Some v => Ok (b2z v, mkReader (nr_buf r) (nr_pos r + 1))
  | None => Panic
  end.

Definition read_le (n : nat) : Reader Z := let* arr := read_array n in dret (of_le arr).
Definition read_uint16 : Reader Z := let* _ := NdrReader_align 2 in read_le 2.
Definition read_uint32 : Reader Z := let* _ := NdrReader_align 4 in read_le 4.
Definition read_uint64 : Reader Z := let* _ := NdrReader_align 8 in read_le 8.
Definition read_uuid : Reader Uuid := let* b := read_array 16 in dret (uuid_from_bytes b).

Definition read_conformant_array : Reader bytes :=
  let* max_count := read_uint32 in
  let* _ := read_uint32 in
  let* actual_count := read_uint32 in
  if actual_count >? max_count then dfail (ArrayCounts actual_count max_count)
  else read_bytes actual_count.

(** [units.last() == Some(&0)], then [pop]. *)
Definition pop_nul (us : list Z) : list Z :=
  match last us with Some 0 => removelast us | _ => us end.

Definition read_string : Reader bytes :=
  let* max_count := read_uint32 in
  let* _ := read_uint32 in
  let* actual_count := read_uint32 in
  if actual_count >? max_count then dfail (StringCounts actual_count max_count)
  else
    let* byte_len := dlift (uint_checked_mul 64 actual_count 2) StringLength in
    let* b := read_bytes byte_len in
    dlift (from_utf16 (pop_nul (le_units b))) StringUtf16.

(** ** Reading back what was written *)

(** A slice is at most [isize::MAX] bytes long. *)
Definition in_memory (l : bytes) : Prop := Z.of_nat (length l) < 2 ^ 63.

(** [w] succeeds and extends the buffer, and [d], started where [w] started in
    any buffer that continues it, returns [a] and stops where [w] stopped. *)
Definition Reads {A} (d : Reader A) (w : Writer) (a : A) : Prop :=
  forall p, exists q, w p = Ok q /\ p `prefix_of` q /\
    forall total, q `prefix_of` total -> in_memory total ->
      d (mkReader total (length p)) = Ok (a, mkReader total (length q)).

#[global] Instance Reads_Proper {A} :
  Proper (eq ==> pointwise_relation _ eq ==> eq ==> iff) (@Reads A).
Proof.
  intros d ? <- w w' Hw a ? <-. unfold Reads. split; intros H p.
  - rewrite <-(Hw p). apply H.
  - rewrite (Hw p). apply H.
Qed.

Lemma Reads_ret {A} (a : A) : Reads (dret a) wskip a.
Proof. intros p. by exists p. Qed.
Lemma Reads_seq {A B} (d : Reader A) (k : A -> Reader B) w1 w2 a b :
  Reads d w1 a -> Reads (k a) w2 b -> Reads (dbind d k) (w1 >>> w2) b.
Proof.
  intros H1 H2 p. destruct (H1 p) as (q & Hq & Hp & Hr). destruct (H2 q) as (q' & Hq' & Hp' & Hr').
  exists q'. unfold wseq. rewrite Hq. cbn. split; [done|]. split; [by etransitivity|].
  intros total Ht Hm. unfold dbind. rewrite Hr by (done || by etransitivity). cbn. by apply Hr'.
Qed.
Lemma wseq_skip w p : (w >>> wskip) p = w p.
Proof. unfold wseq, wskip. by destruct (w p). Qed.
Lemma Reads_last {A B} (d : Reader A) (k : A -> Reader B) w a b :
  Reads d w a -> Reads (k a) wskip b -> Reads (dbind d k) w b.
Proof.
  intros H1 H2. assert (pointwise_relation _ eq (w >>> wskip) w) as <- by (intros p; apply wseq_skip).
  by eapply Reads_seq.
Qed.
Lemma Reads_none {A B} (d : Reader A) (k : A -> Reader B) w a b :
  Reads d wskip a -> Reads (k a) w b -> Reads (dbind d k) w b.
Proof.
  intros H1 H2. assert (pointwise_relation _ eq (wskip >>> w) w) as <- by (by intros p).
  by eapply Reads_seq.
Qed.
Lemma Reads_let {A B} (d : Reader A) r (f : B -> Writer) a b :
  r = Ok b -> Reads d (f b) a -> Reads d (wlet r f) a.
Proof. intros -> H p. apply H. Qed.
Lemma Reads_assoc {A} (d : Reader A) w1 w2 w3 a :
  Reads d (w1 >>> w2 >>> w3) a -> Reads d ((w1 >>> w2) >>> w3) a.
Proof.
  assert (pointwise_relation _ eq ((w1 >>> w2) >>> w3) (w1 >>> w2 >>> w3)) as ->; [|done].
  intros p. unfold wseq. by destruct (w1 p).
Qed.
Lemma Reads_lift {A} (o : option A) e a : o = Some a -> Reads (dlift o e) wskip a.
Proof. intros ->. apply Reads_ret. Qed.

(** Reading at the end of a prefix. *)
Lemma require_Ok n r :
  0 <= n -> in_memory (nr_buf r) -> Z.of_nat (nr_pos r) + n <= Z.of_nat (length (nr_buf r)) ->
  require n r = Ok (tt, r).
Proof.
  unfold in_memory, require, uint_checked_add. intros Hn Hm Hl.
  change (2 ^ 63) with 9223372036854775808 in Hm. change (2 ^ 64) with 18446744073709551616.
  destruct (Z.ltb_spec (Z.of_nat (nr_pos r) + n) 18446744073709551616); [|lia].
  by destruct (Z.ltb_spec (Z.of_nat (length (nr_buf r))) (Z.of_nat (nr_pos r) + n)); [lia|].
Qed.
Lemma Reads_bytes l n : n = Z.of_nat (length l) -> Reads (read_bytes n) (write_bytes l) l.
Proof.
  intros -> p. exists (p ++ l). split; [done|]. split; [by apply prefix_app_r|].
  intros total [k ->] Hm. unfold read_bytes.
  rewrite require_Ok; [|lia|done|cbn; len]. cbn [rbind nr_buf nr_pos].
  rewrite Nat2Z.id, <-app_assoc, slice_app by len. cbn. by rewrite length_app.
Qed.
Lemma Reads_array l n : length l = n -> Reads (read_array n) (write_bytes l) l.
Proof.
  intros <-. eapply Reads_last; [by apply Reads_bytes|]. rewrite Nat.eqb_refl. apply Reads_ret.
Qed.
Lemma Reads_le n v : 0 <= v < 256 ^ Z.of_nat n -> Reads (read_le n) (write_bytes (to_le n v)) v.
Proof.
  intros Hv. eapply Reads_last; [apply Reads_array, length_to_le|].
  rewrite of_to_le_id by done. apply Reads_ret.
Qed.
Lemma Reads_uint8 v : is_u8 v -> Reads read_uint8 (write_uint8 v) v.
Proof.
  intros Hv p. exists (p ++ [z2b v]). split; [done|]. split; [by apply prefix_app_r|].
  intros total [k ->] Hm. unfold read_uint8. rewrite require_Ok; [|lia|done|cbn; len]. cbn [rbind nr_buf nr_pos].
  rewrite <-app_assoc. cbn [app]. rewrite list_lookup_middle by done. rewrite b2z_z2b_small by (by unfold_ints).
  by rewrite length_app.
Qed.

(** Alignment to 2, 4 or 8. *)
Definition alignment_ok (a : Z) : Prop := a = 2 \/ a = 4 \/ a = 8.
Lemma land_mask a x : alignment_ok a -> Z.land x (a - 1) = x mod a.
Proof.
  intros [->|[->| ->]]; [change (2 - 1) with (Z.ones 1)|change (4 - 1) with (Z.ones 2)|change (8 - 1) with (Z.ones 3)];
    by rewrite Z.land_ones.
Qed.
Definition padding (a : Z) (n : nat) : nat := Z.to_nat ((- Z.of_nat n) mod a).
Lemma padding_spec a n : alignment_ok a ->
  Z.of_nat (padding a n) = (if Z.of_nat n mod a =? 0 then 0 else a - Z.of_nat n mod a).
Proof.
  intros Ha. assert (0 < a) by (unfold alignment_ok in Ha; lia). unfold padding.
  pose proof (Z.mod_pos_bound (- Z.of_nat n) a). rewrite Z2Nat.id by lia. destruct (Z.eqb_spec (Z.of_nat n mod a) 0).
  - by apply Z.mod_opp_l_z; [lia|].
  - by apply Z.mod_opp_l_nz; [lia|].
Qed.
Lemma write_align a p : alignment_ok a -> NdrWriter_align a p = Ok (p ++ replicate (padding a (length p)) x00).
Proof.
  intros Ha. pose proof (padding_spec a (length p) Ha) as Hp. unfold NdrWriter_align. rewrite land_mask by done.
  destruct (Z.leb_spec a 1); [unfold alignment_ok in Ha; lia|]. destruct (Z.eqb_spec (Z.of_nat (length p) mod a) 0) as [E|E]; cbn [negb].
  - destruct (padding a (length p)); [by rewrite app_nil_r|lia].
  - by rewrite <-Hp, Nat2Z.id.
Qed.
Lemma Reads_align a : alignment_ok a -> Reads (NdrReader_align a) (NdrWriter_align a) tt.
Proof.
  intros Ha p. eexists. split; [by apply write_align|]. split; [by apply prefix_app_r|].
  intros total [k ->] Hm. pose proof (padding_spec a (length p) Ha) as Hp. unfold NdrReader_align. cbn [nr_pos].
  rewrite land_mask by done. destruct (Z.leb_spec a 1); [unfold alignment_ok in Ha; lia|].
  destruct (Z.eqb_spec (Z.of_nat (length p) mod a) 0) as [E|E]; cbn [negb].
  - destruct (padding a (length p)); [|lia]. by rewrite app_nil_r.
  - unfold dbind. rewrite require_Ok; [|lia|done|cbn [nr_buf nr_pos]; rewrite !length_app, length_replicate; lia].
    unfold skip. cbn [rbind fst snd nr_buf nr_pos]. by rewrite <-Hp, Nat2Z.id, length_app, length_replicate.
Qed.

Lemma Reads_aligned {A} a (d : Reader A) w v : alignment_ok a -> Reads d w v ->
  Reads (let* _ := NdrReader_align a in d) (NdrWriter_align a >>> w) v.
Proof. intros. eapply Reads_seq; [by apply Reads_align|done]. Qed.
Lemma Reads_uint16 v : is_u16 v -> Reads read_uint16 (write_uint16 v) v.
Proof. intros. apply Reads_aligned; [by left|]. by apply Reads_le. Qed.
Lemma Reads_uint32 v : is_u32 v -> Reads read_uint32 (write_uint32 v) v.
Proof. intros. apply Reads_aligned; [by right; left|]. by apply Reads_le. Qed.
Lemma Reads_uint64 v : is_u64 v -> Reads read_uint64 (write_uint64 v) v.
Proof. intros. apply Reads_aligned; [by right; right|]. by apply Reads_le. Qed.
Lemma Reads_uuid u : is_u128 u -> Reads read_uuid (write_uuid u) u.
Proof.
  intros. eapply Reads_last; [by apply Reads_array, length_to_be|].
  unfold uuid_from_bytes, uuid_as_bytes. rewrite of_to_be_u128 by done. apply Reads_ret.
Qed.

(** The loops. *)
Lemma Reads_for {A} (d : Reader A) (f : A -> Writer) l :
  Forall (fun x => Reads d (f x) x) l -> Reads (dtimes (length l) d) (wfor l f) l.
Proof.
  induction 1 as [|x l Hx _ IH]; [apply Reads_ret|]. cbn [dtimes length wfor].
  eapply Reads_seq; [done|]. eapply Reads_last; [done|]. apply Reads_ret.
Qed.
Lemma wfor_bytes {A} (f : A -> bytes) l p :
  wfor l (fun x => write_bytes (f x)) p = write_bytes (concat (map f l)) p.
Proof.
  revert p. induction l as [|x l IH]; intros p; cbn; [by unfold write_bytes; rewrite app_nil_r|].
  unfold wseq. cbn. rewrite IH. unfold write_bytes. by rewrite <-app_assoc.
Qed.
Lemma wseq_bytes l l' p : (write_bytes l >>> write_bytes l') p = write_bytes (l ++ l') p.
Proof. unfold wseq, write_bytes. cbn. by rewrite <-app_assoc. Qed.

(** Composes the statements of a writer with the steps of a reader. *)
Ltac reads_step :=
  repeat lazymatch goal with |- Reads _ ((_ >>> _) >>> _) _ => apply Reads_assoc end;
  lazymatch goal with
  | |- Reads (dret _) wskip _ => apply Reads_ret
  | |- Reads (dbind _ _) (_ >>> _) _ => eapply Reads_seq
  | |- Reads (dbind _ _) _ _ => eapply Reads_last
  end.

(** Arrays and strings. *)
Lemma as_u32_len n : Z.of_nat n < 2 ^ 32 -> as_u32 (Z.of_nat n) = Z.of_nat n.
Proof. intros. apply as_uint_id. split; [lia|done]. Qed.
Lemma len_u32 n : Z.of_nat n < 2 ^ 32 -> is_u32 (Z.of_nat n).
Proof. split; [lia|done]. Qed.

Lemma Reads_conformant_array data :
  Z.of_nat (length data) < 2 ^ 32 -> Reads read_conformant_array (write_conformant_array data) data.
Proof.
  intros H. unfold read_conformant_array, write_conformant_array. rewrite as_u32_len by done.
  do 3 (reads_step; [by apply Reads_uint32; first [done|apply len_u32]|]).
  destruct (Z.gtb_spec (Z.of_nat (length data)) (Z.of_nat (length data))); [lia|].
  by apply Reads_bytes.
Qed.

Lemma pop_nul_snoc us : pop_nul (us ++ [0]) = us.
Proof. unfold pop_nul. by rewrite last_snoc, removelast_last. Qed.
Lemma le_units_nul us : Forall is_u16 us -> le_units (units_le us ++ to_le 2 0) = us ++ [0].
Proof.
  intros H. assert (units_le us ++ to_le 2 0 = units_le (us ++ [0])) as ->.
  { unfold units_le. by rewrite map_app, concat_app. }
  apply le_units_units_le. apply Forall_app. split; [done|]. by repeat constructor.
Qed.

Lemma pop_nul_Forall P us : Forall P us -> Forall P (pop_nul us).
Proof.
  intros HF. unfold pop_nul. case_match; [|done]. case_match; [|done..].
  destruct us as [|u us]; [done|]. rewrite (app_removelast_last 0 (l := u :: us)) in HF by done.
  by apply Forall_app in HF as [? _].
Qed.

(** A string the writer can count: well-formed, with its NUL below 2^32 units. *)
Definition ndr_text (s : bytes) : Prop :=
  utf8_valid s = true /\ Z.of_nat (length (encode_utf16 s)) + 1 < 2 ^ 32.

Lemma Reads_string s : ndr_text s -> Reads read_string (write_string s) s.
Proof.
  intros [Hs Hl]. unfold read_string, write_string.
  assert (is_u32 (Z.of_nat (length (encode_utf16 s)) + 1)) as Hu by (split; [lia|done]).
  rewrite as_uint_id by done. set (n := Z.of_nat _ + 1) in *.
  do 3 (reads_step; [by apply Reads_uint32|]).
  destruct (Z.gtb_spec n n); [lia|].
  assert (uint_checked_mul 64 n 2 = Some (n * 2)) as ->.
  { unfold uint_checked_mul. unfold_ints. by destruct (Z.ltb_spec (n * 2) 18446744073709551616); [|lia]. }
  eapply Reads_none; [apply Reads_ret|].
  assert (pointwise_relation _ eq (wfor (encode_utf16 s) (fun u => write_bytes (to_le 2 u)) >>> write_bytes (to_le 2 0))
            (write_bytes (units_le (encode_utf16 s) ++ to_le 2 0))) as ->.
  { intros p. unfold wseq. rewrite wfor_bytes. apply (wseq_bytes _ _ p). }
  eapply Reads_last; [apply Reads_bytes; rewrite length_app, length_units_le, length_to_le; lia|].
  rewrite le_units_nul, pop_nul_snoc by (by apply encode_utf16_units). apply Reads_lift. by apply from_encode_utf16.
Qed.

Create HintDb ndr.
#[export] Hint Resolve Reads_ret Reads_uint8 Reads_uint16 Reads_uint32 Reads_uint64 Reads_uuid Reads_conformant_array
  Reads_string Reads_le len_u32 : ndr.

(** One statement and the read that undoes it. *)
Ltac reads := repeat (reads_step; [solve [eauto with ndr]|]); try solve [eauto with ndr].

(** A reader that inverts a writer decodes the writer's whole output. *)
Lemma Reads_all {A} (d : Reader A) w a b :
  Reads d w a -> w NdrWriter_new = Ok b -> in_memory b -> d (NdrReader_new b) = Ok (a, mkReader b (length b)).
Proof.
  intros H Hw Hm. destruct (H NdrWriter_new) as (q & Hq & _ & Hr). rewrite Hw in Hq. injection Hq as <-.
  by apply (Hr b).
Qed.

(** ** Totality of readers *)

(** On any buffer and any cursor inside it, [d] does not panic, and on success
    the value satisfies [P] and the cursor has only moved forward, inside the
    same buffer. *)
Definition Yields {A} (d : Reader A) (P : A -> Prop) : Prop :=
  forall r, (nr_pos r <= length (nr_buf r))%nat ->
  match d r with
  | Ok (a, r') => P a /\ nr_buf r' = nr_buf r /\ (nr_pos r <= nr_pos r' <= length (nr_buf r))%nat
  | Err _ => True
  | Panic => False
  end.

Lemma Yields_ret {A} (a : A) (P : A -> Prop) : P a -> Yields (dret a) P.
Proof. intros ? r ?. cbn. auto. Qed.
Lemma Yields_fail {A} p (P : A -> Prop) : Yields (dfail p) P.
Proof. by intros r ?. Qed.
Lemma Yields_bind {A B} (d : Reader A) (k : A -> Reader B) (P : A -> Prop) (Q : B -> Prop) :
  Yields d P -> (forall a, P a -> Yields (k a) Q) -> Yields (dbind d k) Q.
Proof.
  intros Hd Hk r Hr. unfold dbind. specialize (Hd r Hr). destruct (d r) as [[a r1]| |]; cbn; [|done..].
  destruct Hd as (Ha & Hb & Hp). specialize (Hk a Ha r1). rewrite Hb in Hk.
  specialize (Hk ltac:(lia)). destruct (k a r1) as [[b r2]| |]; [|done..]. destruct Hk as (? & ? & ?).
  split; [done|]. split; [done|]. lia.
Qed.
Lemma Yields_weaken {A} (d : Reader A) (P Q : A -> Prop) : Yields d P -> (forall a, P a -> Q a) -> Yields d Q.
Proof. intros H HPQ r Hr. specialize (H r Hr). destruct (d r) as [[]| |]; [|done..]. naive_solver. Qed.
Lemma Yields_lift {A} (o : option A) p (P : A -> Prop) : (forall a, o = Some a -> P a) -> Yields (dlift o p) P.
Proof. intros H. destruct o; [apply Yields_ret; auto|apply Yields_fail]. Qed.

Lemma require_cases n r : 0 <= n -> (nr_pos r <= length (nr_buf r))%nat ->
  (require n r = Ok (tt, r) /\ Z.of_nat (nr_pos r) + n <= Z.of_nat (length (nr_buf r)))
  \/ exists e, require n r = Err e.
Proof.
  intros Hn Hr. unfold require, uint_checked_add.
  destruct (Z.ltb_spec (Z.of_nat (nr_pos r) + n) (2 ^ 64)); [|by right; eexists].
  destruct (Z.ltb_spec (Z.of_nat (length (nr_buf r))) (Z.of_nat (nr_pos r) + n)); [by right; eexists|by left].
Qed.
Lemma Yields_bytes n : 0 <= n -> Yields (read_bytes n) (fun l => Z.of_nat (length l) = n).
Proof.
  intros Hn r Hr. unfold read_bytes. destruct (require_cases n r Hn Hr) as [[-> Hl]|[e ->]]; [|done].
  cbn [rbind]. rewrite slice_Ok by lia. cbn [rbind nr_buf nr_pos]. rewrite length_take, length_drop. split_and!; [lia|done|lia..].
Qed.
Lemma Yields_array n : Yields (read_array n) (fun l => length l = n).
Proof.
  eapply Yields_bind; [apply Yields_bytes; lia|]. intros l Hl. cbn beta in Hl.
  destruct (Nat.eqb_spec (length l) n); [by apply Yields_ret|apply Yields_fail].
Qed.
Lemma Yields_le n : Yields (read_le n) (fun v => 0 <= v < 256 ^ Z.of_nat n).
Proof. eapply Yields_bind; [apply Yields_array|]. intros l <-. apply Yields_ret, of_le_range. Qed.
Lemma Yields_uint8 : Yields read_uint8 is_u8.
Proof.
  intros r Hr. unfold read_uint8. destruct (require_cases 1 r ltac:(lia) Hr) as [[-> Hl]|[e ->]]; [|done]. cbn [rbind].
  destruct (lookup_lt_is_Some_2 (nr_buf r) (nr_pos r)) as [b Hb]; [lia|]. rewrite Hb. cbn [nr_buf nr_pos].
  split_and!; [apply (b2z_range b)|done|lia..].
Qed.
Lemma Yields_align a : alignment_ok a -> Yields (NdrReader_align a) (fun _ => True).
Proof.
  intros Ha r Hr. unfold NdrReader_align. rewrite land_mask by done.
  destruct (Z.leb_spec a 1); [unfold alignment_ok in Ha; lia|].
  pose proof (Z.mod_pos_bound (Z.of_nat (nr_pos r)) a).
  destruct (Z.eqb_spec (Z.of_nat (nr_pos r) mod a) 0); cbn [negb]; [by split_and!|]. unfold dbind.
  destruct (require_cases (a - Z.of_nat (nr_pos r) mod a) r ltac:(lia) Hr) as [[-> Hl]|[e ->]]; [|done].
  unfold skip. cbn [rbind fst snd nr_buf nr_pos]. split_and!; [done..|lia|lia].
Qed.
Lemma Yields_aligned {A} a (d : Reader A) P :
  alignment_ok a -> Yields d P -> Yields (let* _ := NdrReader_align a in d) P.
Proof. intros. eapply Yields_bind; [by apply Yields_align|]. by intros []. Qed.
Lemma Yields_uint16 : Yields read_uint16 is_u16.
Proof. apply Yields_aligned; [by left|]. apply (Yields_le 2). Qed.
Lemma Yields_uint32 : Yields read_uint32 is_u32.
Proof. apply Yields_aligned; [by right; left|]. apply (Yields_le 4). Qed.
Lemma Yields_uint64 : Yields read_uint64 is_u64.
Proof. apply Yields_aligned; [by right; right|]. apply (Yields_le 8). Qed.
Lemma Yields_uuid : Yields read_uuid is_u128.
Proof. eapply Yields_bind; [apply Yields_array|]. intros l Hl. apply Yields_ret. pose proof (of_be_range l). by rewrite Hl in H. Qed.
Lemma Yields_times {A} (d : Reader A) P n : Yields d P -> Yields (dtimes n d) (fun l => length l = n /\ Forall P l).
Proof.
  intros Hd. induction n as [|n IH]; [by apply Yields_ret|]. cbn [dtimes].
  eapply Yields_bind; [done|]. intros x Hx. eapply Yields_bind; [done|]. intros l [<- Hl]. apply Yields_ret. auto.
Qed.
Lemma Yields_if {A} (b : bool) (d d' : Reader A) P :
  (b = true -> Yields d P) -> (b = false -> Yields d' P) -> Yields (if b then d else d') P.
Proof. destruct b; auto. Qed.

#[export] Hint Resolve Yields_ret Yields_fail Yields_array Yields_uint8 Yields_uint16 Yields_uint32 Yields_uint64
  Yields_uuid Yields_times Yields_align : ndr.

(** Steps through a reader, keeping what each read promises. *)
Ltac yields := repeat (eapply Yields_bind; [solve [eauto with ndr]|]; intros ? ?).

Lemma Yields_conformant_array : Yields read_conformant_array (fun l => Z.of_nat (length l) < 2 ^ 32).
Proof.
  do 3 (eapply Yields_bind; [apply Yields_uint32|]; intros ? ?). apply Yields_if; intros _; [apply Yields_fail|].
  eapply Yields_weaken; [apply Yields_bytes|]; unfold is_uint in *; cbn beta; [lia|]. intros ? ->. lia.
Qed.
Lemma Yields_utf16 us p : Forall is_u16 us ->
  Yields (dlift (from_utf16 us) p) (fun s => utf8_valid s = true /\ encode_utf16 s = us).
Proof. intros. apply Yields_lift. intros s. by apply from_utf16_Some. Qed.
Lemma Yields_string : Yields read_string (fun s => utf8_valid s = true).
Proof.
  do 3 (eapply Yields_bind; [apply Yields_uint32|]; intros ? ?). apply Yields_if; intros _; [apply Yields_fail|].
  eapply Yields_bind; [apply (Yields_lift _ _ (fun n => 0 <= n))|].
  { intros n. unfold uint_checked_mul, is_uint in *. case_match; [|done]. intros [= <-]. lia. }
  intros n Hn. eapply Yields_bind; [by apply Yields_bytes|]. intros l _.
  eapply Yields_weaken; [apply Yields_utf16|naive_solver]. apply pop_nul_Forall, le_units_u16.
Qed.

(** ** Sequences of typed values *)

Inductive NdrValue :=
| VUint8 (v : Z) | VUint16 (v : Z) | VUint32 (v : Z) | VUint64 (v : Z)
| VUuid (u : Uuid) | VArray (data : bytes) | VString (s : bytes).

Definition ndr_value_ok (v : NdrValue) : Prop :=
  match v with
  | VUint8 v => is_u8 v | VUint16 v => is_u16 v | VUint32 v => is_u32 v | VUint64 v => is_u64 v
  | VUuid u => is_u128 u | VArray l => Z.of_nat (length l) < 2 ^ 32 | VString s => ndr_text s
  end.
Definition write_value (v : NdrValue) : Writer :=
  match v with
  | VUint8 v => write_uint8 v | VUint16 v => write_uint16 v | VUint32 v => write_uint32 v | VUint64 v => write_uint64 v
  | VUuid u => write_uuid u | VArray l => write_conformant_array l | VString s => write_string s
  end.
(** The read method for a value of the same type as [v]. *)
Definition read_like (v : NdrValue) : Reader NdrValue :=
  match v with
  | VUint8 _ => let* v := read_uint8 in dret (VUint8 v)
  | VUint16 _ => let* v := read_uint16 in dret (VUint16 v)
  | VUint32 _ => let* v := read_uint32 in dret (VUint32 v)
  | VUint64 _ => let* v := read_uint64 in dret (VUint64 v)
  | VUuid _ => let* v := read_uuid in dret (VUuid v)
  | VArray _ => let* v := read_conformant_array in dret (VArray v)
  | VString _ => let* v := read_string in dret (VString v)
  end.
Fixpoint read_likes (vs : list NdrValue) : Reader (list NdrValue) :=
  match vs with
  | [] => dret []
  | v :: vs => let* x := read_like v in let* l := read_likes vs in dret (x :: l)
  end.

Lemma Reads_value v : ndr_value_ok v -> Reads (read_like v) (write_value v) v.
Proof. destruct v; cbn [ndr_value_ok read_like write_value]; intros; eapply Reads_last; eauto with ndr. Qed.
Lemma Reads_values vs : Forall ndr_value_ok vs -> Reads (read_likes vs) (wfor vs write_value) vs.
Proof.
  induction 1 as [|v vs Hv _ IH]; [apply Reads_ret|]. cbn [read_likes wfor].
  eapply Reads_seq; [by apply Reads_value|]. eapply Reads_last; [done|]. apply Reads_ret.
Qed.
Lemma Yields_likes vs : Yields (read_likes vs) (Forall (fun _ => True)).
Proof.
  assert (forall v, Yields (read_like v) (fun _ => True)) as Hv.
  { intros []; cbn [read_like]; (eapply Yields_bind; [eauto using Yields_conformant_array, Yields_string with ndr|]; intros; by apply Yields_ret). }
  induction vs as [|v vs IH]; cbn [read_likes]; [by apply Yields_ret|].
  eapply Yields_bind; [done|]. intros x _. eapply Yields_bind; [done|]. intros l Hl. apply Yields_ret. by constructor.
Qed.

(** NDR values: any sequence of integers, UUIDs, byte arrays and strings,
    written after any bytes and so at any alignment, is read back in order by
    the matching read methods whatever bytes follow, which stop exactly where
    the writer stopped; and on arbitrary bytes the read methods fail or keep
    the cursor inside the buffer, never panicking. *)
Theorem ndr_values_roundtrip (vs : list NdrValue) (before after : bytes) :
  Forall ndr_value_ok vs ->
  (exists q, wfor vs write_value before = Ok q /\
    (in_memory (q ++ after) ->
     read_likes vs (mkReader (q ++ after) (length before)) = Ok (vs, mkReader (q ++ after) (length q))))
  /\ (forall r, (nr_pos r <= length (nr_buf r))%nat ->
        match read_likes vs r with
        | Ok (_, r') => nr_buf r' = nr_buf r /\ (nr_pos r <= nr_pos r' <= length (nr_buf r))%nat
        | Err _ => True
        | Panic => False
        end).
Proof.
  intros Hvs. split.
  - destruct (Reads_values vs Hvs before) as (q & Hq & _ & Hr). exists q. split; [done|]. apply Hr. by apply prefix_app_r.
  - intros r Hr. pose proof (Yields_likes vs r Hr) as H. destruct (read_likes vs r) as [[]| |]; naive_solver.
Qed.
Lemma ndr_values_roundtrip_witness :
  exists q, wfor [VUint8 7; VString (lit "DC=x"); VUint64 5] write_value [x01; x02] = Ok q
    /\ read_likes [VUint8 7; VString (lit "DC=x"); VUint64 5] (mkReader (q ++ [xff]) 2)
       = Ok ([VUint8 7; VString (lit "DC=x"); VUint64 5], mkReader (q ++ [xff]) (length q)).
Proof.
  destruct (ndr_values_roundtrip [VUint8 7; VString (lit "DC=x"); VUint64 5] [x01; x02] [xff]) as [(q & Hq & Hr) _].
  - repeat constructor; by vm_compute.
  - exists q. split; [exact Hq|]. apply Hr. vm_compute in Hq. injection Hq as <-. by vm_compute.
Defined.
