(* ===== verification/Rpc.v ===== *)
(** * Rpc: DCE/RPC PDUs and the client transport (crate [adrian-dcerpc], [pdu.rs],
      [transport.rs], [lib.rs])

    The Bind, Bind_ack, Request and Response PDUs over the NDR writer and
    reader, and the client side of a connection: the bytes sent so far, the
    bytes the peer will deliver, and the call-id counter. *)
From S2P Require Import Prelude Bytes Text StorageKeys Utf16 Ndr.

(** ** Constants *)

Definition NDR_TRANSFER_SYNTAX_UUID : Uuid :=
  uuid_from_bytes [x8a; x88; x5d; x04; x1c; xeb; x11; xc9; x9f; xe8; x08; x00; x2b; x10; x48; x60].
Definition NDR_TRANSFER_SYNTAX_VERSION : Z := 2.
Definition DEFAULT_MAX_XMIT_FRAG : Z := 5840.
Definition DEFAULT_MAX_RECV_FRAG : Z := 5840.

Definition PTYPE_BIND : Z := 11.
Definition PTYPE_BIND_ACK : Z := 12.
Definition PTYPE_REQUEST : Z := 0.
Definition PTYPE_RESPONSE : Z := 2.
Definition PFC_FIRST_FRAG : Z := 0x01.
Definition PFC_LAST_FRAG : Z := 0x02.
Definition PFC_CONC_MPX : Z := 0x10.
Definition NDR20_DATA_REP : Z := 0x00000010.
Definition COMMON_HEADER_SIZE : nat := 16.
Definition REQUEST_HEADER_SIZE : nat := 16 + 8.
Definition RESPONSE_HEADER_SIZE : nat := 16 + 8.
Definition ACCEPTANCE : Z := 0.
Definition USER_REJECTION : Z := 1.
Definition PROVIDER_REJECTION : Z := 2.

Definition InterfaceUuid_DRSUAPI : Uuid := 0xE35142354B0611D1AB0400C04FC2DCD2.
Definition InterfaceUuid_SAMR : Uuid := 0x123457781234ABCDEF000123456789AC.
Definition InterfaceUuid_LSARPC : Uuid := 0x123457781234ABCDEF000123456789AB.
Definition InterfaceUuid_NETLOGON : Uuid := 0x123456781234ABCDEF0001234567CFFB.
Definition InterfaceUuid_WCCE : Uuid := 0x91AE60209E3C11CF8D7C00AA00C009CF.

(** ** PDU types *)

Record PContextElem := mkCtx {
  p_cont_id : Z;
  abstract_syntax : Uuid * (Z * Z);
  transfer_syntaxes : list (Uuid * Z);
}.
Definition PContextElem_new (iface : Uuid) (v : Z * Z) : PContextElem :=
  mkCtx 0 (iface, v) [(NDR_TRANSFER_SYNTAX_UUID, NDR_TRANSFER_SYNTAX_VERSION)].

Record BindPdu := mkBind {
  rpc_vers : Z;
  rpc_vers_minor : Z;
  pfc_flags : Z;
  data_rep : Z;
  call_id : Z;
  max_xmit_frag : Z;
  max_recv_frag : Z;
  assoc_group_id : Z;
  context_elements : list PContextElem;
}.
Definition BindPdu_new (interface : Uuid) (v : Z * Z) : BindPdu :=
  mkBind 5 0 (Z.lor (Z.lor PFC_FIRST_FRAG PFC_LAST_FRAG) PFC_CONC_MPX) NDR20_DATA_REP 1
    DEFAULT_MAX_XMIT_FRAG DEFAULT_MAX_RECV_FRAG 0 [PContextElem_new interface v].

Record PResult := mkPResult {
  pr_result : Z;
  pr_reason : Z;
  pr_transfer_syntax : Uuid * Z;
}.
Record BindAckPdu := mkBindAck {
  ack_rpc_vers : Z;
  ack_rpc_vers_minor : Z;
  ack_pfc_flags : Z;
  ack_data_rep : Z;
  ack_call_id : Z;
  ack_max_xmit_frag : Z;
  ack_max_recv_frag : Z;
  ack_assoc_group_id : Z;
  sec_addr : bytes;
  p_results : list PResult;
}.

#[global] Instance PResult_eq_dec : EqDecision PResult.
Proof. solve_decision. Defined.
#[global] Instance PContextElem_eq_dec : EqDecision PContextElem.
Proof. solve_decision. Defined.

(** ** Encoding *)

(** [bytes[i..i + v.len()].copy_from_slice(v)]. *)
Definition copy_from_slice {E} (l : bytes) (i : nat) (v : bytes) : Result E bytes :=
  if (i + length v <=? length l)%nat then Ok (take i l ++ v ++ drop (i + length v) l) else Panic.

(** The common header up to the fragment length, and the rest of it. *)
Definition write_header (vers minor ptype flags rep : Z) : Writer :=
  write_uint8 vers >>> write_uint8 minor >>> write_uint8 ptype >>> write_uint8 flags >>> write_bytes (to_le 4 rep).
Definition write_lengths (frag id : Z) : Writer :=
  write_bytes (to_le 2 frag) >>> write_bytes (to_le 2 0) >>> write_bytes (to_le 4 id).

Definition encode_transfer_syntax (ts : Uuid * Z) : Writer := write_uuid ts.1 >>> write_bytes (to_le 4 ts.2).

Definition encode_context (ctx : PContextElem) : Writer :=
  let '(iface, (major, minor)) := abstract_syntax ctx in
  write_bytes (to_le 2 (p_cont_id ctx)) >>>
  write_uint8 (as_u8 (Z.of_nat (length (transfer_syntaxes ctx)))) >>>
  write_uint8 0 >>>
  write_uuid iface >>>
  write_bytes (to_le 4 (Z.lor (Z.shiftl major 16) minor)) >>>
  wfor (transfer_syntaxes ctx) encode_transfer_syntax.

Definition bind_pdu_body (pdu : BindPdu) : Writer :=
  write_bytes (to_le 2 (max_xmit_frag pdu)) >>>
  write_bytes (to_le 2 (max_recv_frag pdu)) >>>
  write_bytes (to_le 4 (assoc_group_id pdu)) >>>
  write_uint8 (as_u8 (Z.of_nat (length (context_elements pdu)))) >>>
  write_uint8 0 >>>
  write_bytes (to_le 2 0) >>>
  wfor (context_elements pdu) encode_context.

(** Header, placeholder length, body, then the length patched in. *)
Definition encode_patched (header : Writer) (id : Z) (body : Writer) : Result DceRpcError bytes :=
  let? w := header NdrWriter_new in
  let frag_length_pos := length w in
  let? w := (write_lengths 0 id >>> body) w in
  let total := as_u16 (Z.of_nat (length w)) in
  copy_from_slice w frag_length_pos (to_le 2 total).

Definition encode_bind_pdu (pdu : BindPdu) : Result DceRpcError bytes :=
  encode_patched (write_header (rpc_vers pdu) (rpc_vers_minor pdu) PTYPE_BIND (pfc_flags pdu) (data_rep pdu))
    (call_id pdu) (bind_pdu_body pdu).

Definition encode_presult (res : PResult) : Writer :=
  write_bytes (to_le 2 (pr_result res)) >>>
  write_bytes (to_le 2 (pr_reason res)) >>>
  write_uuid (pr_transfer_syntax res).1 >>>
  write_bytes (to_le 4 (pr_transfer_syntax res).2).

Definition bind_ack_body (pdu : BindAckPdu) : Writer :=
  write_bytes (to_le 2 (ack_max_xmit_frag pdu)) >>>
  write_bytes (to_le 2 (ack_max_recv_frag pdu)) >>>
  write_bytes (to_le 4 (ack_assoc_group_id pdu)) >>>
  write_bytes (to_le 2 (as_u16 (Z.of_nat (length (sec_addr pdu)) + 1))) >>>
  write_bytes (sec_addr pdu) >>>
  write_uint8 0 >>>
  NdrWriter_align 4 >>>
  write_bytes (to_le 2 (as_u16 (Z.of_nat (length (p_results pdu))))) >>>
  write_bytes (to_le 2 0) >>>
  wfor (p_results pdu) encode_presult.

Definition encode_bind_ack_pdu (pdu : BindAckPdu) : Result DceRpcError bytes :=
  encode_patched
    (write_header (ack_rpc_vers pdu) (ack_rpc_vers_minor pdu) PTYPE_BIND_ACK (ack_pfc_flags pdu) (ack_data_rep pdu))
    (ack_call_id pdu) (bind_ack_body pdu).

Definition encode_request_pdu (id ctxt_id opnum : Z) (stub : bytes) : Result DceRpcError bytes :=
  let total_stub_len := 2 + Z.of_nat (length stub) in
  let total_len := Z.of_nat REQUEST_HEADER_SIZE + total_stub_len in
  (write_header 5 0 PTYPE_REQUEST (Z.lor PFC_FIRST_FRAG PFC_LAST_FRAG) NDR20_DATA_REP >>>
   write_lengths (as_u16 total_len) id >>>
   write_bytes (to_le 4 (as_u32 total_stub_len)) >>>
   write_bytes (to_le 2 ctxt_id) >>>
   write_uint8 0 >>>
   write_uint8 0 >>>
   write_bytes (to_le 2 opnum) >>>
   write_bytes stub) NdrWriter_new.

(** ** Decoding *)

(** The fields of the common header after the type has been checked. *)
Definition read_header (ptype_expected : Z) : Reader (Z * Z * Z * Z * Z * Z) :=
  let* vers := read_uint8 in
  let* minor := read_uint8 in
  let* ptype := read_uint8 in
  if negb (ptype =? ptype_expected) then dfail (UnexpectedPtype ptype_expected ptype)
  else
    let* flags := read_uint8 in
    let* rep := read_le 4 in
    let* frag_length := read_le 2 in
    let* _ := read_le 2 in
    let* id := read_le 4 in
    dret (vers, minor, flags, rep, frag_length, id).

Definition decode_transfer_syntax : Reader (Uuid * Z) :=
  let* ts_uuid := read_uuid in
  let* ts_ver := read_le 4 in
  dret (ts_uuid, ts_ver).

Definition decode_context : Reader PContextElem :=
  let* cont_id := read_le 2 in
  let* n_ts := read_uint8 in
  let* _ := read_uint8 in
  let* iface_uuid := read_uuid in
  let* iface_ver_u32 := read_le 4 in
  let iface_ver := (as_u16 (Z.shiftr iface_ver_u32 16), as_u16 (Z.land iface_ver_u32 0xFFFF)) in
  let* tss := dtimes (Z.to_nat n_ts) decode_transfer_syntax in
  dret (mkCtx cont_id (iface_uuid, iface_ver) tss).

(** [if frag_length as usize != buf.len()]. *)
Definition check_frag_length (frag_length : Z) (buf : bytes) : Reader unit :=
  if negb (frag_length =? Z.of_nat (length buf)) then dfail (FragLengthMismatch frag_length (length buf)) else dret tt.

Definition read_bind (buf : bytes) : Reader BindPdu :=
  let* h := read_header PTYPE_BIND in
  let '(vers, minor, flags, rep, frag_length, id) := h in
  let* xmit := read_le 2 in
  let* recv := read_le 2 in
  let* group := read_le 4 in
  let* n_ctx := read_uint8 in
  let* _ := read_uint8 in
  let* _ := read_le 2 in
  let* ctxs := dtimes (Z.to_nat n_ctx) decode_context in
  let* _ := check_frag_length frag_length buf in
  dret (mkBind vers minor flags rep id xmit recv group ctxs).

Definition decode_bind_pdu (buf : bytes) : Result DceRpcError BindPdu :=
  if (length buf <? COMMON_HEADER_SIZE)%nat then Err (NdrError (PduTooShort (length buf) COMMON_HEADER_SIZE))
  else let? pr := read_bind buf (NdrReader_new buf) in Ok pr.1.

Definition decode_presult : Reader PResult :=
  let* result := read_uint16 in
  let* reason := read_uint16 in
  let* ts_uuid := read_uuid in
  let* ts_ver := read_le 4 in
  dret (mkPResult result reason (ts_uuid, ts_ver)).

(** [strip_suffix(b"\0").unwrap_or(..)]. *)
Definition strip_nul (l : bytes) : bytes :=
  match last l with Some x00 => removelast l | _ => l end.

Definition read_bind_ack (buf : bytes) : Reader BindAckPdu :=
  let* h := read_header PTYPE_BIND_ACK in
  let '(vers, minor, flags, rep, frag_length, id) := h in
  let* xmit := read_le 2 in
  let* recv := read_le 2 in
  let* group := read_le 4 in
  let* sec_addr_len := read_uint16 in
  let* sec_addr_bytes := read_bytes sec_addr_len in
  let* addr := dlift (from_utf8 (strip_nul sec_addr_bytes)) SecAddrUtf8 in
  let* _ := NdrReader_align 4 in
  let* n_results := read_uint16 in
  let* _ := read_uint16 in
  let* results := dtimes (Z.to_nat n_results) decode_presult in
  let* _ := check_frag_length frag_length buf in
  dret (mkBindAck vers minor flags rep id xmit recv group addr results).

Definition decode_bind_ack_pdu (buf : bytes) : Result DceRpcError BindAckPdu :=
  if (length buf <? COMMON_HEADER_SIZE)%nat then Err (NdrError (PduTooShort (length buf) COMMON_HEADER_SIZE))
  else let? pr := read_bind_ack buf (NdrReader_new buf) in Ok pr.1.

Definition decode_response_pdu (buf : bytes) : Result DceRpcError bytes :=
  if (length buf <? RESPONSE_HEADER_SIZE)%nat then Err (NdrError (PduTooShort (length buf) RESPONSE_HEADER_SIZE))
  else
    match buf !! 2%nat with
    | None => Panic
    | Some ptype =>
        if negb (b2z ptype =? PTYPE_RESPONSE) then Err (NdrError (UnexpectedPtype PTYPE_RESPONSE (b2z ptype)))
        else slice buf RESPONSE_HEADER_SIZE (length buf)
    end.

(** ** The client transport *)

(** The stream is the bytes written to it and the bytes the peer delivers before
    closing. *)
Record DcerpcTcpTransport := mkTransport {
  sent : bytes;
  incoming : bytes;
  call_id_counter : Z;
}.
Definition from_stream (incoming : bytes) : DcerpcTcpTransport := mkTransport [] incoming 0.

Definition next_call_id (t : DcerpcTcpTransport) : Z * DcerpcTcpTransport :=
  let id := as_u32 (call_id_counter t + 1) in
  (id, mkTransport (sent t) (incoming t) id).

Definition write_all (l : bytes) (t : DcerpcTcpTransport) : DcerpcTcpTransport :=
  mkTransport (sent t ++ l) (incoming t) (call_id_counter t).

(** [read_exact]: the end of the stream before [n] bytes is an I/O error. *)
Definition read_exact (n : nat) (t : DcerpcTcpTransport) : DcerpcTcpTransport * Result DceRpcError bytes :=
  if (n <=? length (incoming t))%nat
  then (mkTransport (sent t) (drop n (incoming t)) (call_id_counter t), Ok (take n (incoming t)))
  else (mkTransport (sent t) [] (call_id_counter t), Err UnexpectedEof).

Definition read_pdu (t : DcerpcTcpTransport) : DcerpcTcpTransport * Result DceRpcError bytes :=
  match read_exact COMMON_HEADER_SIZE t with
  | (t, Ok header) =>
      let frag_length := Z.to_nat (of_le (take 2 (drop 8 header))) in
      if (frag_length <? COMMON_HEADER_SIZE)%nat
      then (t, Err (NdrError (FragLengthTooSmall (Z.of_nat frag_length))))
      else if (COMMON_HEADER_SIZE <? frag_length)%nat then
        match read_exact (frag_length - COMMON_HEADER_SIZE) t with
        | (t, Ok body) => (t, Ok (header ++ body))
        | (t, e) => (t, e)
        end
      else (t, Ok header)
  | (t, e) => (t, e)
  end.

(** The first result that is not an acceptance ends the loop. *)
Fixpoint check_accepted (id : Z) (l : list PResult) : Result DceRpcError unit :=
  match l with
  | [] => Ok tt
  | r :: l =>
      if negb (pr_result r =? ACCEPTANCE) then Err (BindRejected (pr_result r) (pr_reason r) id)
      else check_accepted id l
  end.

Definition send_bind (pdu : BindPdu) (t : DcerpcTcpTransport) : DcerpcTcpTransport * Result DceRpcError BindAckPdu :=
  match encode_bind_pdu pdu with
  | Ok req =>
      let '(t, resp) := read_pdu (write_all req t) in
      (t, let? resp := resp in
          let? ack := decode_bind_ack_pdu resp in
          let? _ := check_accepted (ack_call_id ack) (p_results ack) in
          Ok ack)
  | Err e => (t, Err e)
  | Panic => (t, Panic)
  end.

Definition send_request (opnum : Z) (stub : bytes) (t : DcerpcTcpTransport)
    : DcerpcTcpTransport * Result DceRpcError bytes :=
  let '(id, t) := next_call_id t in
  match encode_request_pdu id 0 opnum stub with
  | Ok req =>
      let '(t, resp) := read_pdu (write_all req t) in
      (t, let? resp := resp in decode_response_pdu resp)
  | Err e => (t, Err e)
  | Panic => (t, Panic)
  end.
