(* ===== verification/RpcProofs.v ===== *)
(** * RpcProofs: PDUs round-trip, decoding is total, calls are answered in order *)
From S2P Require Import Prelude Bytes Text StorageKeys Utf16 Ndr Rpc.

(** ** Patching the fragment length

    What a statement appends depends only on the position it starts at, so the
    length can be patched in afterwards as if it had been written in place. *)
Class Appends (w : Writer) : Prop := appends : exists f, forall p, w p = Ok (p ++ f (length p)).

#[global] Typeclasses Opaque wseq wskip wfor write_bytes write_uint8 write_uuid NdrWriter_align to_le
  encode_context bind_pdu_body bind_ack_body encode_presult encode_transfer_syntax.

#[global] Instance Appends_bytes l : Appends (write_bytes l).
Proof. by exists (fun _ => l). Qed.
#[global] Instance Appends_uint8 v : Appends (write_uint8 v).
Proof. by exists (fun _ => [z2b v]). Qed.
#[global] Instance Appends_align4 : Appends (NdrWriter_align 4).
Proof. exists (fun n => replicate (padding 4 n) x00). intros p. apply write_align. by right; left. Qed.
#[global] Instance Appends_skip : Appends wskip.
Proof. exists (fun _ => []). intros p. by rewrite app_nil_r. Qed.
#[global] Instance Appends_seq w1 w2 : Appends w1 -> Appends w2 -> Appends (w1 >>> w2).
Proof.
  intros [f Hf] [g Hg]. exists (fun n => f n ++ g (n + length (f n))%nat). intros p. unfold wseq.
  rewrite Hf. cbn. by rewrite Hg, length_app, app_assoc.
Qed.
#[global] Instance Appends_for {A} (l : list A) f : (forall x, Appends (f x)) -> Appends (wfor l f).
Proof. intros Hf. induction l; cbn [wfor]; apply _. Qed.
#[global] Instance Appends_uuid u : Appends (write_uuid u).
Proof. apply Appends_bytes. Qed.
#[global] Instance Appends_context ctx : Appends (encode_context ctx).
Proof. unfold encode_context. destruct (abstract_syntax ctx) as [? [? ?]]. unfold encode_transfer_syntax. apply _. Qed.
#[global] Instance Appends_bind_body pdu : Appends (bind_pdu_body pdu).
Proof. unfold bind_pdu_body. apply _. Qed.
#[global] Instance Appends_bind_ack_body pdu : Appends (bind_ack_body pdu).
Proof. unfold bind_ack_body, encode_presult. apply _. Qed.

Lemma write_header_bytes vers minor ptype flags rep p :
  write_header vers minor ptype flags rep p
  = Ok (p ++ [z2b vers; z2b minor; z2b ptype; z2b flags] ++ to_le 4 rep).
Proof. unfold write_header, wseq, write_uint8, write_bytes. cbn. by rewrite <-!app_assoc. Qed.
Lemma write_lengths_bytes frag id p :
  write_lengths frag id p = Ok (p ++ to_le 2 frag ++ to_le 2 0 ++ to_le 4 id).
Proof. unfold write_lengths, wseq, write_bytes. cbn. by rewrite <-!app_assoc. Qed.

Lemma copy_from_slice_app {E} (a b b' c : bytes) :
  length b = length b' -> @copy_from_slice E (a ++ b ++ c) (length a) b' = Ok (a ++ b' ++ c).
Proof.
  intros Hb. unfold copy_from_slice. rewrite (proj2 (Nat.leb_le _ _)) by len.
  rewrite take_app_length, <-Hb, <-length_app. do 3 f_equal. by rewrite app_assoc, drop_app_length.
Qed.

(** A patched PDU is the PDU written with its own length; offset 8 holds it. *)
Lemma encode_patched_spec vers minor ptype flags rep id body `{!Appends body} :
  exists b, encode_patched (write_header vers minor ptype flags rep) id body = Ok b
    /\ (write_header vers minor ptype flags rep >>> write_lengths (as_u16 (Z.of_nat (length b))) id >>> body) [] = Ok b
    /\ (16 <= length b)%nat.
Proof.
  destruct Appends0 as [f Hf]. unfold encode_patched, wseq.
  assert (exists h, write_header vers minor ptype flags rep NdrWriter_new = Ok h /\ length h = 8%nat) as (h & Hh & Hl).
  { rewrite write_header_bytes. eexists. split; [reflexivity|]. rewrite !length_app, length_to_le. done. }
  change (@nil byte) with NdrWriter_new. rewrite Hh. cbn [rbind].
  rewrite write_lengths_bytes. cbn [rbind]. rewrite Hf. cbn [rbind]. rewrite <-!app_assoc.
  rewrite copy_from_slice_app by (by rewrite !length_to_le).
  eexists. split; [reflexivity|]. rewrite write_lengths_bytes. cbn [rbind]. rewrite Hf, <-!app_assoc. split.
  - by rewrite !length_app, !length_to_le.
  - rewrite !length_app, !length_to_le. lia.
Qed.

(** ** Well-formed PDUs: fields in their widths, lists their counts can hold *)

Definition syntax_ok (ts : Uuid * Z) : Prop := is_u128 ts.1 /\ is_u32 ts.2.
Definition context_ok (c : PContextElem) : Prop :=
  is_u16 (p_cont_id c) /\ is_u128 (abstract_syntax c).1
  /\ is_u16 (abstract_syntax c).2.1 /\ is_u16 (abstract_syntax c).2.2
  /\ is_u8 (Z.of_nat (length (transfer_syntaxes c))) /\ Forall syntax_ok (transfer_syntaxes c).
Definition bind_ok (p : BindPdu) : Prop :=
  is_u8 (rpc_vers p) /\ is_u8 (rpc_vers_minor p) /\ is_u8 (pfc_flags p) /\ is_u32 (data_rep p) /\ is_u32 (call_id p)
  /\ is_u16 (max_xmit_frag p) /\ is_u16 (max_recv_frag p) /\ is_u32 (assoc_group_id p)
  /\ is_u8 (Z.of_nat (length (context_elements p))) /\ Forall context_ok (context_elements p).
Definition presult_ok (r : PResult) : Prop :=
  is_u16 (pr_result r) /\ is_u16 (pr_reason r) /\ syntax_ok (pr_transfer_syntax r).
Definition bind_ack_fields (p : BindAckPdu) : Prop :=
  is_u8 (ack_rpc_vers p) /\ is_u8 (ack_rpc_vers_minor p) /\ is_u8 (ack_pfc_flags p) /\ is_u32 (ack_data_rep p)
  /\ is_u32 (ack_call_id p) /\ is_u16 (ack_max_xmit_frag p) /\ is_u16 (ack_max_recv_frag p)
  /\ is_u32 (ack_assoc_group_id p) /\ utf8_valid (sec_addr p) = true
  /\ is_u16 (Z.of_nat (length (p_results p))) /\ Forall presult_ok (p_results p).
Definition bind_ack_ok (p : BindAckPdu) : Prop :=
  bind_ack_fields p /\ Z.of_nat (length (sec_addr p)) + 1 < 2 ^ 16.

(** ** Reading the parts back *)

Lemma Reads_u8_0 : Reads read_uint8 (write_uint8 0) 0.
Proof. by apply Reads_uint8. Qed.
Lemma Reads_u16 v : is_u16 v -> Reads (read_le 2) (write_bytes (to_le 2 v)) v.
Proof. apply (Reads_le 2). Qed.
Lemma Reads_u32 v : is_u32 v -> Reads (read_le 4) (write_bytes (to_le 4 v)) v.
Proof. apply (Reads_le 4). Qed.
#[export] Hint Resolve Reads_u8_0 Reads_u16 Reads_u32 : ndr.

Lemma Reads_header vers minor ptype flags rep frag id {B} (k : _ -> Reader B) w b :
  is_u8 vers -> is_u8 minor -> is_u8 ptype -> is_u8 flags -> is_u32 rep -> is_u16 frag -> is_u32 id ->
  Reads (k (vers, minor, flags, rep, frag, id)) w b ->
  Reads (dbind (read_header ptype) k) (write_header vers minor ptype flags rep >>> write_lengths frag id >>> w) b.
Proof.
  intros ??????? Hk.
  assert (pointwise_relation _ eq
    (write_header vers minor ptype flags rep >>> write_lengths frag id >>> w)
    ((write_header vers minor ptype flags rep >>> write_lengths frag id) >>> w)) as ->.
  { intros p. unfold wseq. by destruct (write_header _ _ _ _ _ p). }
  eapply Reads_seq; [|exact Hk]. unfold read_header, write_header, write_lengths.
  reads. rewrite Z.eqb_refl. cbn [negb].
  do 3 (reads_step; [by eauto with ndr|]). reads_step; [by apply (Reads_u16 0)|]. reads.
Qed.

Lemma Reads_transfer_syntax ts : syntax_ok ts -> Reads decode_transfer_syntax (encode_transfer_syntax ts) ts.
Proof. destruct ts as [u v]. intros [Hu Hv]. unfold decode_transfer_syntax, encode_transfer_syntax. reads. Qed.

(** The interface version packs the major version in the upper half. *)
Lemma iface_ver_pack major minor : is_u16 major -> is_u16 minor ->
  Z.lor (Z.shiftl major 16) minor = major * 65536 + minor.
Proof. unfold_ints. intros. by rewrite lor_shiftl. Qed.
Lemma iface_ver_unpack major minor : is_u16 major -> is_u16 minor ->
  (as_u16 (Z.shiftr (Z.lor (Z.shiftl major 16) minor) 16), as_u16 (Z.land (Z.lor (Z.shiftl major 16) minor) 0xFFFF))
  = (major, minor).
Proof.
  intros Hma Hmi. rewrite iface_ver_pack by done. rewrite Z.shiftr_div_pow2 by lia.
  change 0xFFFF with (Z.ones 16). rewrite Z.land_ones by lia. unfold_ints. f_equal; euclid.
Qed.

Lemma len_u8 n : is_u8 (Z.of_nat n) -> as_u8 (Z.of_nat n) = Z.of_nat n.
Proof. apply as_uint_id. Qed.

Lemma Reads_context c : context_ok c -> Reads decode_context (encode_context c) c.
Proof.
  destruct c as [id [iface [major minor]] tss]. unfold context_ok, encode_context, decode_context.
  cbn [p_cont_id abstract_syntax transfer_syntaxes fst snd]. intros (? & ? & ? & ? & Hn & Hts).
  rewrite (as_uint_id 8) by done. reads_step; [by eauto with ndr|]. reads_step; [by eauto with ndr|]. reads_step; [by eauto with ndr|].
  reads_step; [by eauto with ndr|]. reads_step; [apply Reads_u32; rewrite iface_ver_pack by done; unfold_ints; lia|].
  rewrite iface_ver_unpack by done. rewrite Nat2Z.id. reads_step; [|reads].
  apply Reads_for. eapply Forall_impl; [exact Hts|]. apply Reads_transfer_syntax.
Qed.

Lemma check_frag_length_Ok frag buf : frag = Z.of_nat (length buf) -> Reads (check_frag_length frag buf) wskip tt.
Proof. intros ->. unfold check_frag_length. rewrite Z.eqb_refl. apply Reads_ret. Qed.

Lemma Reads_bind pdu buf : bind_ok pdu -> Z.of_nat (length buf) < 2 ^ 16 ->
  Reads (read_bind buf)
    (write_header (rpc_vers pdu) (rpc_vers_minor pdu) PTYPE_BIND (pfc_flags pdu) (data_rep pdu)
     >>> write_lengths (as_u16 (Z.of_nat (length buf))) (call_id pdu) >>> bind_pdu_body pdu) pdu.
Proof.
  destruct pdu as [vers minor flags rep id xmit recv group ctxs]. unfold bind_ok, read_bind, bind_pdu_body.
  cbn [rpc_vers rpc_vers_minor pfc_flags data_rep call_id max_xmit_frag max_recv_frag assoc_group_id context_elements].
  intros (? & ? & ? & ? & ? & ? & ? & ? & Hn & Hc) Hl.
  assert (is_u16 (Z.of_nat (length buf))) by (split; [lia|done]). rewrite (as_uint_id 16), (as_uint_id 8) by done.
  apply Reads_header; [done..|]. cbn beta iota. do 5 (reads_step; [by eauto with ndr|]).
  reads_step; [by apply (Reads_u16 0)|]. rewrite Nat2Z.id. reads_step.
  - apply Reads_for. eapply Forall_impl; [exact Hc|]. apply Reads_context.
  - reads_step; [by apply check_frag_length_Ok|]. apply Reads_ret.
Qed.

Lemma u16_in_memory b : Z.of_nat (length b) < 2 ^ 16 -> in_memory b.
Proof. unfold in_memory. lia. Qed.

Lemma decode_encode_bind pdu : bind_ok pdu ->
  exists b, encode_bind_pdu pdu = Ok b /\ (Z.of_nat (length b) < 2 ^ 16 -> decode_bind_pdu b = Ok pdu).
Proof.
  intros Hok. unfold encode_bind_pdu, decode_bind_pdu.
  edestruct encode_patched_spec as (b & -> & Hw & Hl); [apply _|]. exists b. split; [done|]. intros Hb.
  rewrite (proj2 (Nat.ltb_ge _ _)) by done. erewrite Reads_all; [done|by apply Reads_bind|done|by apply u16_in_memory].
Qed.

(** ** Bind_ack: aligned reads of fields written unaligned

    The writer emits the result list without alignment and the reader aligns
    each field; they agree because the list starts at a multiple of four and
    every entry is 24 bytes.  [ReadsAt m m'] is [Reads] for writers that start
    at a position congruent to [m] and stop at one congruent to [m'] modulo 4. *)
Definition ReadsAt {A} (m m' : Z) (d : Reader A) (w : Writer) (a : A) : Prop :=
  forall p, Z.of_nat (length p) mod 4 = m -> exists q, w p = Ok q /\ p `prefix_of` q /\ Z.of_nat (length q) mod 4 = m' /\
    forall total, q `prefix_of` total -> in_memory total ->
      d (mkReader total (length p)) = Ok (a, mkReader total (length q)).

Lemma ReadsAt_seq {A B} m m1 m2 (d : Reader A) (k : A -> Reader B) w1 w2 a b :
  ReadsAt m m1 d w1 a -> ReadsAt m1 m2 (k a) w2 b -> ReadsAt m m2 (dbind d k) (w1 >>> w2) b.
Proof.
  intros H1 H2 p Hm. destruct (H1 p Hm) as (q & Hq & Hp & Hm1 & Hr). destruct (H2 q Hm1) as (q' & Hq' & Hp' & Hm2 & Hr').
  exists q'. unfold wseq. rewrite Hq. cbn. split; [done|]. split; [by etransitivity|]. split; [done|].
  intros total Ht Hmem. unfold dbind. rewrite Hr by (done || by etransitivity). cbn. by apply Hr'.
Qed.
Lemma ReadsAt_ret {A} m (a : A) : ReadsAt m m (dret a) wskip a.
Proof. intros p Hm. by exists p. Qed.
Lemma ReadsAt_last {A B} m m' (d : Reader A) (k : A -> Reader B) w a b :
  ReadsAt m m' d w a -> ReadsAt m' m' (k a) wskip b -> ReadsAt m m' (dbind d k) w b.
Proof.
  intros H1 H2 p Hm. destruct (ReadsAt_seq _ _ _ _ _ _ _ _ _ H1 H2 p Hm) as (q & Hq & H). exists q.
  by rewrite wseq_skip in Hq.
Qed.
(** A plain [Reads] whose writer appends [n] bytes. *)
Lemma ReadsAt_of {A} m n m' (d : Reader A) l a :
  Reads d (write_bytes l) a -> length l = n -> (m + Z.of_nat n) mod 4 = m' -> ReadsAt m m' d (write_bytes l) a.
Proof.
  intros H <- <- p <-. destruct (H p) as (q & Hq & Hp & Hr). exists q. split; [done|]. split; [done|]. split; [|done].
  injection Hq as <-. rewrite length_app, Nat2Z.inj_add. by rewrite Zplus_mod_idemp_l.
Qed.
(** An aligned read at an even position. *)
Lemma ReadsAt_uint16 m v : is_u16 v -> m = 0 \/ m = 2 ->
  ReadsAt m ((m + 2) mod 4) read_uint16 (write_bytes (to_le 2 v)) v.
Proof.
  intros Hv Hm p Hp. destruct (ReadsAt_of m 2 _ _ _ _ (Reads_u16 v Hv) (length_to_le _ _) eq_refl p Hp) as (q & Hq & Hpq & Hm' & Hr).
  exists q. split_and!; [done..|]. intros total Ht Hmem. unfold read_uint16, dbind at 1, NdrReader_align. cbn [nr_pos].
  rewrite land_mask by (by left). assert (Z.of_nat (length p) mod 2 = 0) as ->.
  { rewrite <-Hp in Hm. clear -Hm. euclid. }
  cbn [Z.leb Z.compare Z.eqb negb rbind fst snd]. by apply Hr.
Qed.
Lemma ReadsAt_align m : ReadsAt m 0 (NdrReader_align 4) (NdrWriter_align 4) tt.
Proof.
  intros p Hp. destruct (Reads_align 4 ltac:(by right; left) p) as (q & Hq & Hpq & Hr). exists q. split_and!; [done..| |done].
  rewrite write_align in Hq by (by right; left). injection Hq as <-. pose proof (padding_spec 4 (length p) ltac:(by right; left)).
  rewrite length_app, length_replicate, Nat2Z.inj_add, H. case_match; euclid.
Qed.
Lemma ReadsAt_for {A} (d : Reader A) (f : A -> Writer) l :
  Forall (fun x => ReadsAt 0 0 d (f x) x) l -> ReadsAt 0 0 (dtimes (length l) d) (wfor l f) l.
Proof.
  induction 1 as [|x l Hx _ IH]; [apply ReadsAt_ret|]. cbn [dtimes length wfor].
  eapply ReadsAt_seq; [done|]. eapply ReadsAt_last; [done|]. apply ReadsAt_ret.
Qed.

Lemma ReadsAt_presult r : presult_ok r -> ReadsAt 0 0 decode_presult (encode_presult r) r.
Proof.
  destruct r as [res reason [u v]]. intros (? & ? & ? & ?). unfold decode_presult, encode_presult.
  cbn [pr_result pr_reason pr_transfer_syntax fst snd] in *.
  eapply ReadsAt_seq; [apply ReadsAt_uint16; [done|by left]|].
  eapply ReadsAt_seq; [apply ReadsAt_uint16; [done|by right]|].
  eapply ReadsAt_seq; [by eapply ReadsAt_of; [apply Reads_uuid|apply length_to_be|]|].
  eapply ReadsAt_last; [by eapply ReadsAt_of; [apply Reads_u32|apply length_to_le|]|]. apply ReadsAt_ret.
Qed.

Lemma strip_nul_snoc l : strip_nul (l ++ [x00]) = l.
Proof. unfold strip_nul. by rewrite last_snoc, removelast_last. Qed.

Lemma ReadsAt_header vers minor ptype flags rep frag id {B} (k : _ -> Reader B) w b :
  is_u8 vers -> is_u8 minor -> is_u8 ptype -> is_u8 flags -> is_u32 rep -> is_u16 frag -> is_u32 id ->
  ReadsAt 0 0 (k (vers, minor, flags, rep, frag, id)) w b ->
  ReadsAt 0 0 (dbind (read_header ptype) k) (write_header vers minor ptype flags rep >>> write_lengths frag id >>> w) b.
Proof.
  intros ??????? Hk.
  assert (Reads (read_header ptype) (write_header vers minor ptype flags rep >>> write_lengths frag id)
            (vers, minor, flags, rep, frag, id)) as HR.
  { assert (pointwise_relation _ eq (write_header vers minor ptype flags rep >>> write_lengths frag id)
      (write_header vers minor ptype flags rep >>> write_lengths frag id >>> wskip)) as ->.
    { intros p. unfold wseq. destruct (write_header _ _ _ _ _ p) as [a| |]; cbn [rbind]; [|done..]. by rewrite write_lengths_bytes. }
    intros p. destruct (Reads_header vers minor ptype flags rep frag id dret wskip _ ltac:(done) ltac:(done) ltac:(done)
      ltac:(done) ltac:(done) ltac:(done) ltac:(done) (Reads_ret _) p) as (q & Hq & Hp & Hr).
    exists q. split_and!; [done..|]. intros total Ht Hm. rewrite <-(Hr total Ht Hm). unfold dbind, dret.
    by destruct (read_header ptype _) as [[]| |]. }
  intros p Hp. destruct (HR p) as (q & Hq & Hpq & Hr).
  assert (Z.of_nat (length q) mod 4 = 0) as Hq4.
  { unfold wseq in Hq. rewrite write_header_bytes in Hq. cbn [rbind] in Hq. rewrite write_lengths_bytes in Hq.
    apply Ok_inj in Hq as <-. rewrite !length_app, !length_to_le. cbn [length]. clear -Hp. euclid. }
  destruct (Hk q Hq4) as (q' & Hq' & Hpq' & Hm' & Hr'). exists q'. split_and!; [|by etransitivity|done|].
  - unfold wseq in *. destruct (write_header _ _ _ _ _ p); cbn [rbind] in *; [|done..]. by rewrite Hq.
  - intros total Ht Hm. unfold dbind. rewrite Hr by (done || by etransitivity). by apply Hr'.
Qed.

Lemma ReadsAt_ext {A} m m' (d : Reader A) w w' a :
  (forall p, w p = w' p) -> ReadsAt m m' d w a -> ReadsAt m m' d w' a.
Proof. intros Hw H p Hp. rewrite <-Hw. by apply H. Qed.

Lemma write_nul l w p : (write_bytes (l ++ [x00]) >>> w) p = (write_bytes l >>> write_uint8 0 >>> w) p.
Proof. unfold wseq, write_bytes, write_uint8. cbn [rbind]. by rewrite <-app_assoc. Qed.
Lemma ReadsAt_bind_ack pdu buf : bind_ack_ok pdu -> Z.of_nat (length buf) < 2 ^ 16 ->
  ReadsAt 0 0 (read_bind_ack buf)
    (write_header (ack_rpc_vers pdu) (ack_rpc_vers_minor pdu) PTYPE_BIND_ACK (ack_pfc_flags pdu) (ack_data_rep pdu)
     >>> write_lengths (as_u16 (Z.of_nat (length buf))) (ack_call_id pdu) >>> bind_ack_body pdu) pdu.
Proof.
  destruct pdu as [vers minor flags rep id xmit recv group addr results]. unfold bind_ack_ok, bind_ack_fields, read_bind_ack, bind_ack_body.
  cbn [ack_rpc_vers ack_rpc_vers_minor ack_pfc_flags ack_data_rep ack_call_id ack_max_xmit_frag ack_max_recv_frag
       ack_assoc_group_id sec_addr p_results].
  intros [(? & ? & ? & ? & ? & ? & ? & ? & Hs & Hn & Hc) Hal] Hl.
  assert (is_u16 (Z.of_nat (length buf))) by (split; [lia|done]).
  assert (is_u16 (Z.of_nat (length addr) + 1)) by (split; [lia|done]).
  rewrite !(as_uint_id 16) by done. apply ReadsAt_header; [done..|]. cbn beta iota.
  eapply ReadsAt_seq; [by eapply ReadsAt_of; [apply Reads_u16|apply length_to_le|]|].
  eapply ReadsAt_seq; [by eapply ReadsAt_of; [apply Reads_u16|apply length_to_le|]|].
  eapply ReadsAt_seq; [by eapply ReadsAt_of; [apply Reads_u32|apply length_to_le|]|].
  eapply ReadsAt_seq; [apply ReadsAt_uint16; [done|by left]|].
  eapply ReadsAt_ext; [intros p; apply write_nul|].
  eapply ReadsAt_seq.
  { eapply ReadsAt_of; [apply Reads_bytes|done|done]. rewrite length_app. cbn. lia. }
  rewrite strip_nul_snoc, from_utf8_Some by done. eapply (ReadsAt_ext _ _ _ (wskip >>> (NdrWriter_align 4 >>> _))); [done|].
  eapply ReadsAt_seq; [apply ReadsAt_ret|]. eapply ReadsAt_seq; [apply ReadsAt_align|].
  eapply ReadsAt_seq; [apply ReadsAt_uint16; [done|by left]|].
  eapply ReadsAt_seq; [apply (ReadsAt_uint16 _ 0); [done|by right]|]. rewrite Nat2Z.id.
  eapply ReadsAt_last; [apply ReadsAt_for; eapply Forall_impl; [exact Hc|]; apply ReadsAt_presult|].
  unfold check_frag_length. rewrite Z.eqb_refl. eapply ReadsAt_last; apply ReadsAt_ret.
Qed.

Lemma decode_encode_bind_ack pdu : bind_ack_ok pdu ->
  exists b, encode_bind_ack_pdu pdu = Ok b /\ (Z.of_nat (length b) < 2 ^ 16 -> decode_bind_ack_pdu b = Ok pdu).
Proof.
  intros Hok. unfold encode_bind_ack_pdu, decode_bind_ack_pdu.
  edestruct encode_patched_spec as (b & -> & Hw & Hl); [apply _|]. exists b. split; [done|]. intros Hb.
  rewrite (proj2 (Nat.ltb_ge _ _)) by done.
  destruct (ReadsAt_bind_ack pdu b Hok Hb [] eq_refl) as (q & Hq & _ & _ & Hr). rewrite Hw in Hq. injection Hq as <-.
  specialize (Hr b ltac:(done) (u16_in_memory b Hb)). cbn [length] in Hr. unfold NdrReader_new. by rewrite Hr.
Qed.

(** ** Decoding arbitrary bytes *)

Lemma Yields_u16 : Yields (read_le 2) is_u16.
Proof. apply (Yields_le 2). Qed.
Lemma Yields_u32 : Yields (read_le 4) is_u32.
Proof. apply (Yields_le 4). Qed.
#[export] Hint Resolve Yields_u16 Yields_u32 : ndr.

Definition header_ok (h : Z * Z * Z * Z * Z * Z) : Prop :=
  let '(vers, minor, flags, rep, frag, id) := h in
  is_u8 vers /\ is_u8 minor /\ is_u8 flags /\ is_u32 rep /\ is_u16 frag /\ is_u32 id.
Lemma Yields_header ptype : Yields (read_header ptype) header_ok.
Proof.
  unfold read_header. yields. apply Yields_if; intros _; [apply Yields_fail|]. yields. apply Yields_ret. by split_and!.
Qed.
Lemma Yields_syntax : Yields decode_transfer_syntax syntax_ok.
Proof. unfold decode_transfer_syntax. yields. by apply Yields_ret. Qed.
#[export] Hint Resolve Yields_header Yields_syntax : ndr.

Lemma times_u8 {A} n (l : list A) : length l = Z.to_nat n -> is_u8 n -> is_u8 (Z.of_nat (length l)).
Proof. unfold is_uint. lia. Qed.
Lemma times_u16 {A} n (l : list A) : length l = Z.to_nat n -> is_u16 n -> is_u16 (Z.of_nat (length l)).
Proof. unfold is_uint. lia. Qed.

Lemma Yields_context : Yields decode_context context_ok.
Proof.
  unfold decode_context. do 5 (eapply Yields_bind; [by eauto with ndr|]; intros ? ?).
  eapply Yields_bind; [apply Yields_times, Yields_syntax|]. intros l [Hl HF]. apply Yields_ret.
  unfold context_ok. cbn [p_cont_id abstract_syntax transfer_syntaxes fst snd].
  split_and!; try done; try (by apply as_uint_range). by eapply times_u8.
Qed.
#[export] Hint Resolve Yields_context : ndr.

Lemma Yields_check frag buf : Yields (check_frag_length frag buf) (fun _ => frag = Z.of_nat (length buf)).
Proof.
  unfold check_frag_length. destruct (Z.eqb_spec frag (Z.of_nat (length buf))); cbn; [by apply Yields_ret|apply Yields_fail].
Qed.
Lemma Yields_bind_pdu buf : Yields (read_bind buf) (fun p => bind_ok p /\ Z.of_nat (length buf) < 2 ^ 16).
Proof.
  unfold read_bind. eapply Yields_bind; [apply Yields_header|]. intros [[[[[vers minor] flags] rep] frag] id] (? & ? & ? & ? & Hf & ?).
  do 6 (eapply Yields_bind; [by eauto with ndr|]; intros ? ?).
  eapply Yields_bind; [apply Yields_times, Yields_context|]. intros l [Hl HF].
  eapply Yields_bind; [apply Yields_check|]. intros _ ->. apply Yields_ret. split; [|apply Hf]. unfold bind_ok. cbn.
  split_and!; try done. by eapply times_u8.
Qed.

Lemma Yields_presult : Yields decode_presult presult_ok.
Proof. unfold decode_presult. yields. by apply Yields_ret. Qed.
Lemma from_utf8_valid l s : from_utf8 l = Some s -> utf8_valid s = true /\ s = l.
Proof. unfold from_utf8. case_match; naive_solver. Qed.
Lemma Yields_bind_ack_pdu buf :
  Yields (read_bind_ack buf) (fun p => bind_ack_fields p /\ Z.of_nat (length buf) < 2 ^ 16).
Proof.
  unfold read_bind_ack. eapply Yields_bind; [apply Yields_header|].
  intros [[[[[vers minor] flags] rep] frag] id] (? & ? & ? & ? & Hf & ?).
  do 4 (eapply Yields_bind; [by eauto with ndr|]; intros ? ?).
  eapply Yields_bind; [apply Yields_bytes; unfold is_uint in *; lia|]. intros l _.
  eapply Yields_bind; [apply (Yields_lift _ _ (fun s => utf8_valid s = true)); by intros s [? _]%from_utf8_valid|]. intros s Hs.
  eapply Yields_bind; [apply Yields_align; by right; left|]. intros _ _.
  do 2 (eapply Yields_bind; [by eauto with ndr|]; intros ? ?).
  eapply Yields_bind; [apply Yields_times, Yields_presult|]. intros rs [Hl HF].
  eapply Yields_bind; [apply Yields_check|]. intros _ ->. apply Yields_ret. split; [|apply Hf]. unfold bind_ack_fields. cbn.
  split_and!; try done. by eapply times_u16.
Qed.

(** A decoder built on a total reader. *)
Lemma decode_total {A} (d : Reader A) (P : A -> Prop) b :
  Yields d P ->
  match (if (length b <? COMMON_HEADER_SIZE)%nat then Err (NdrError (PduTooShort (length b) COMMON_HEADER_SIZE))
         else let? pr := d (NdrReader_new b) in Ok pr.1) with
  | Ok a => P a | Err _ => True | Panic => False end.
Proof.
  intros H. case_match eqn:E; [|done|]; (case_match; [done|]); specialize (H (NdrReader_new b) (Nat.le_0_l _)).
  all: destruct (d (NdrReader_new b)) as [[]| |]; cbn in *; naive_solver.
Qed.

(** Bind negotiation PDUs: a Bind with fields in their widths and at most 255
    contexts of at most 255 transfer syntaxes decodes from its encoding, and so
    does a Bind_ack, whose reader aligns where the writer does not, as long as
    the PDU is below 64 KiB; on arbitrary bytes both decoders are total and what
    they accept is a PDU with fields in their widths and a fragment length equal
    to the buffer's. *)
Theorem bind_pdus_roundtrip (pdu : BindPdu) (ack : BindAckPdu) :
  bind_ok pdu -> bind_ack_ok ack ->
  (exists b, encode_bind_pdu pdu = Ok b /\ (Z.of_nat (length b) < 2 ^ 16 -> decode_bind_pdu b = Ok pdu))
  /\ (exists b, encode_bind_ack_pdu ack = Ok b /\ (Z.of_nat (length b) < 2 ^ 16 -> decode_bind_ack_pdu b = Ok ack))
  /\ (forall b, match decode_bind_pdu b with
                 | Ok p => bind_ok p /\ Z.of_nat (length b) < 2 ^ 16 | Err _ => True | Panic => False end)
  /\ (forall b, match decode_bind_ack_pdu b with
                 | Ok p => bind_ack_fields p /\ Z.of_nat (length b) < 2 ^ 16 | Err _ => True | Panic => False end).
Proof.
  intros Hp Ha. split_and!; [by apply decode_encode_bind|by apply decode_encode_bind_ack|..]; intros b.
  - apply (decode_total _ _ b), Yields_bind_pdu.
  - apply (decode_total _ _ b), Yields_bind_ack_pdu.
Qed.
Definition sample_ack : BindAckPdu :=
  mkBindAck 5 0 3 NDR20_DATA_REP 1 5840 5840 9 (lit "49152") [mkPResult 0 0 (NDR_TRANSFER_SYNTAX_UUID, 2)].
Lemma bind_pdus_roundtrip_witness :
  (let? b := encode_bind_pdu (BindPdu_new InterfaceUuid_DRSUAPI (4, 0)) in decode_bind_pdu b)
  = Ok (BindPdu_new InterfaceUuid_DRSUAPI (4, 0)).
Proof.
  destruct (bind_pdus_roundtrip (BindPdu_new InterfaceUuid_DRSUAPI (4, 0)) sample_ack) as [(b & Hb & Hd) _].
  - unfold bind_ok, context_ok, syntax_ok. cbn. repeat constructor; by vm_compute.
  - unfold bind_ack_ok, bind_ack_fields, presult_ok, syntax_ok. cbn. repeat constructor; by vm_compute.
  - rewrite Hb. apply Hd. vm_compute in Hb. injection Hb as <-. by vm_compute.
Defined.

(** ** The transport *)

(** A PDU as a peer frames it: its fragment-length field holds its length. *)
Definition framed (pdu : bytes) : Prop :=
  (COMMON_HEADER_SIZE <= length pdu)%nat /\ of_le (take 2 (drop 8 pdu)) = Z.of_nat (length pdu).

Lemma take_drop_take {A} i n m (l : list A) : (i + n <= m)%nat -> take n (drop i (take m l)) = take n (drop i l).
Proof. intros. rewrite skipn_firstn_comm, take_take. f_equal. lia. Qed.

Lemma read_pdu_framed pdu rest snt c :
  framed pdu -> read_pdu (mkTransport snt (pdu ++ rest) c) = (mkTransport snt rest c, Ok pdu).
Proof.
  intros [Hl Hf]. unfold read_pdu, read_exact. cbn [sent incoming call_id_counter].
  rewrite (proj2 (Nat.leb_le _ _)) by (rewrite length_app; lia). rewrite take_app_le by done.
  rewrite take_drop_take by (unfold COMMON_HEADER_SIZE; lia). rewrite Hf, Nat2Z.id, (proj2 (Nat.ltb_ge _ _)) by done.
  rewrite drop_app_le by done. destruct (Nat.ltb_spec COMMON_HEADER_SIZE (length pdu)) as [Hlt|Hge].
  - cbn [incoming]. rewrite (proj2 (Nat.leb_le _ _)) by (rewrite length_app, length_drop; lia). cbn [sent call_id_counter].
    rewrite <-length_drop, take_app_length, drop_app_length, take_drop. done.
  - rewrite take_ge by lia. by rewrite drop_ge by lia.
Qed.

(** What [read_pdu] returns has the length its own field announces. *)
Lemma read_pdu_length t t' b : read_pdu t = (t', Ok b) -> of_le (take 2 (drop 8 b)) = Z.of_nat (length b).
Proof.
  unfold read_pdu, read_exact. destruct (Nat.leb_spec COMMON_HEADER_SIZE (length (incoming t))) as [E|E]; [|done].
  set (h := take COMMON_HEADER_SIZE (incoming t)).
  assert (length h = 16%nat) as Hh by (unfold h; rewrite length_take; unfold COMMON_HEADER_SIZE in *; lia).
  pose proof (of_le_range (take 2 (drop 8 h))) as Hr. set (n := of_le (take 2 (drop 8 h))) in *.
  destruct (Nat.ltb_spec (Z.to_nat n) COMMON_HEADER_SIZE) as [|Hn]; [done|]. unfold COMMON_HEADER_SIZE in *.
  destruct (Nat.ltb_spec 16 (Z.to_nat n)) as [Hlt|Hge].
  - cbn [incoming sent call_id_counter].
    destruct (Nat.leb_spec (Z.to_nat n - 16) (length (drop 16 (incoming t)))) as [E2|E2]; [|done]. intros [= _ <-].
    rewrite (drop_app_le h) by lia. rewrite take_app_le by (rewrite length_drop; lia). fold n.
    rewrite length_app, length_take, Hh. lia.
  - intros [= _ <-]. fold n. lia.
Qed.

Lemma encode_request_bytes id ctxt opnum stub :
  exists h, encode_request_pdu id ctxt opnum stub = Ok (h ++ to_le 2 opnum ++ stub) /\ length h = 24%nat
    /\ take 2 (drop 8 h) = to_le 2 (as_u16 (26 + Z.of_nat (length stub))).
Proof.
  unfold encode_request_pdu, wseq. rewrite write_header_bytes. cbn [rbind]. rewrite write_lengths_bytes.
  unfold write_bytes, write_uint8. cbn [rbind]. set (h8 := NdrWriter_new ++ _ ++ to_le 4 NDR20_DATA_REP).
  assert (length h8 = 8%nat) as H8 by (unfold h8; rewrite !length_app, length_to_le; done). clearbody h8.
  set (frag := to_le 2 (as_u16 _)). assert (length frag = 2%nat) as Hf by apply length_to_le.
  exists (h8 ++ frag ++ to_le 2 0 ++ to_le 4 id ++ to_le 4 (as_u32 (2 + Z.of_nat (length stub))) ++ to_le 2 ctxt ++ [z2b 0] ++ [z2b 0]).
  split; [by rewrite <-!app_assoc|]. split; [rewrite !length_app, !length_to_le; cbn [length]; lia|].
  rewrite drop_app_length', take_app_length' by done. unfold frag. do 2 f_equal. unfold REQUEST_HEADER_SIZE. lia.
Qed.

Lemma request_framed id ctxt opnum stub b :
  26 + Z.of_nat (length stub) < 2 ^ 16 -> encode_request_pdu id ctxt opnum stub = Ok b -> framed b.
Proof.
  intros Hs. destruct (encode_request_bytes id ctxt opnum stub) as (h & -> & Hl & Hf). intros <-%Ok_inj. unfold framed.
  rewrite drop_app_le by lia. rewrite take_app_le by (rewrite length_drop; lia). rewrite Hf.
  assert (is_u16 (26 + Z.of_nat (length stub))) by (split; [lia|done]).
  rewrite as_uint_id, of_to_le_id by done. rewrite !length_app, length_to_le. unfold COMMON_HEADER_SIZE. lia.
Qed.

(** Request framing: the peer's [read_pdu] takes exactly the request off the
    stream precisely when the stub is below 65,510 bytes; for a longer stub the
    16-bit fragment length wraps and the reader loses the frame. *)
Theorem request_frame_iff (id ctxt opnum : Z) (stub rest : bytes) :
  exists req, encode_request_pdu id ctxt opnum stub = Ok req
    /\ (Z.of_nat (length stub) < 65510
        <-> read_pdu (from_stream (req ++ rest)) = (from_stream rest, Ok req)).
Proof.
  destruct (encode_request_bytes id ctxt opnum stub) as (h & He & Hl & Hf). eexists. split; [exact He|]. split.
  - intros Hs. apply read_pdu_framed. eapply request_framed; [|exact He]. lia.
  - intros Hr%read_pdu_length. rewrite drop_app_le in Hr by lia. rewrite take_app_le in Hr by (rewrite length_drop; lia).
    rewrite Hf, of_to_le_id in Hr by (apply (as_uint_range 16); lia). rewrite !length_app, length_to_le, Hl in Hr.
    pose proof (as_uint_range 16 (26 + Z.of_nat (length stub)) ltac:(lia)) as Hu. unfold_ints. lia.
Qed.

(** A response PDU as the peer sends it, carrying [stub]. *)
Definition is_response (pdu stub : bytes) : Prop :=
  framed pdu /\ (exists h, pdu = h ++ stub /\ length h = RESPONSE_HEADER_SIZE) /\ pdu !! 2%nat = Some (z2b PTYPE_RESPONSE).

Lemma decode_response pdu stub : is_response pdu stub -> decode_response_pdu pdu = Ok stub.
Proof.
  intros (_ & (h & -> & Hl) & Hp). unfold decode_response_pdu. rewrite (proj2 (Nat.ltb_ge _ _)) by (rewrite length_app; lia).
  rewrite Hp. change (negb (b2z (z2b PTYPE_RESPONSE) =? PTYPE_RESPONSE)) with false. cbv iota.
  rewrite slice_Ok by (rewrite length_app; lia). rewrite <-Hl, drop_app_length, take_ge; [done|rewrite length_app; lia].
Qed.

(** Calls in sequence. *)
Fixpoint send_requests (calls : list (Z * bytes)) (t : DcerpcTcpTransport)
    : DcerpcTcpTransport * list (Result DceRpcError bytes) :=
  match calls with
  | [] => (t, [])
  | (opnum, stub) :: calls =>
      let '(t, r) := send_request opnum stub t in
      let '(t, rs) := send_requests calls t in (t, r :: rs)
  end.
(** The requests of the calls, numbered after counter [c]. *)
Fixpoint requests_bytes (c : Z) (calls : list (Z * bytes)) : Result DceRpcError bytes :=
  match calls with
  | [] => Ok []
  | (opnum, stub) :: calls =>
      let? b := encode_request_pdu (as_u32 (c + 1)) 0 opnum stub in
      let? bs := requests_bytes (as_u32 (c + 1)) calls in Ok (b ++ bs)
  end.

Lemma send_request_framed opnum stub snt pdu out rest c :
  is_response pdu out -> exists req, encode_request_pdu (as_u32 (c + 1)) 0 opnum stub = Ok req
    /\ send_request opnum stub (mkTransport snt (pdu ++ rest) c)
       = (mkTransport (snt ++ req) rest (as_u32 (c + 1)), Ok out).
Proof.
  intros Hp. destruct (encode_request_bytes (as_u32 (c + 1)) 0 opnum stub) as (h & He & _). eexists. split; [exact He|].
  unfold send_request, next_call_id. cbn [call_id_counter]. rewrite He. unfold write_all. cbn [sent incoming call_id_counter].
  rewrite read_pdu_framed by apply Hp. cbn [rbind]. by rewrite (decode_response _ _ Hp).
Qed.

(** Calls are answered in order: on a stream that delivers one response PDU
    per call, each call returns the stub of its own response, the bytes sent are
    the requests with consecutive call ids (wrapping at 2^32), and what follows
    the responses stays on the stream. *)
Theorem rpc_calls_in_order (calls : list (Z * bytes)) (pdus stubs : list bytes) (snt rest : bytes) (c : Z) :
  length calls = length pdus -> Forall2 is_response pdus stubs ->
  exists reqs, requests_bytes c calls = Ok reqs
    /\ send_requests calls (mkTransport snt (concat pdus ++ rest) c)
       = (mkTransport (snt ++ reqs) rest (match calls with [] => c | _ => as_u32 (c + Z.of_nat (length calls)) end),
          map Ok stubs).
Proof.
  intros Hl HF. revert calls snt c Hl. induction HF as [|pdu stub pdus stubs Hp _ IH]; intros [|[opnum arg] calls] snt c Hl; try done.
  { exists []. cbn. by rewrite app_nil_r. }
  cbn [send_requests requests_bytes concat map]. rewrite <-app_assoc.
  destruct (send_request_framed opnum arg snt pdu stub (concat pdus ++ rest) c Hp) as (req & -> & ->).
  destruct (IH calls (snt ++ req) (as_u32 (c + 1)) ltac:(cbn in Hl; lia)) as (reqs & -> & ->).
  eexists. split; [reflexivity|]. cbn [rbind]. rewrite <-app_assoc. do 3 f_equal.
  destruct calls as [|p calls]; [done|]. unfold as_uint. rewrite Zplus_mod_idemp_l. f_equal. cbn [length]. lia.
Qed.
Definition sample_response (stub : bytes) : bytes :=
  [x05; x00; x02; x03] ++ to_le 4 16 ++ to_le 2 (24 + Z.of_nat (length stub)) ++ to_le 2 0 ++ to_le 4 1 ++ to_le 8 0 ++ stub.
Lemma rpc_calls_in_order_witness :
  exists reqs, requests_bytes 0 [(0, [x01]); (4, [])] = Ok reqs
    /\ send_requests [(0, [x01]); (4, [])] (from_stream (sample_response (lit "ab") ++ sample_response (lit "c")))
       = (mkTransport reqs [] 2, [Ok (lit "ab"); Ok (lit "c")]).
Proof.
  refine (rpc_calls_in_order [(0, [x01]); (4, [])] [sample_response (lit "ab"); sample_response (lit "c")]
    [lit "ab"; lit "c"] [] [] 0 eq_refl _).
  repeat constructor; try (by vm_compute).
  - by exists (take 24 (sample_response (lit "ab"))).
  - by exists (take 24 (sample_response (lit "c"))).
Defined.
