(* ===== verification/Drs.v ===== *)
(** * Drs: the DRSUAPI replication service (crate [adrian-drsuapi])

    The MS-DRSR structures with their NDR codecs, the up-to-dateness vector,
    extension negotiation, the candidate set, and the handlers of [DRSBind] and
    [DRSGetNCChanges] from request bytes to reply bytes.  The fresh bind handle
    ([Uuid::now_v7]) and the text of an RPC error are arguments. *)
From S2P Require Import Prelude Bytes Text StorageKeys Repl Utf16 Ndr.

(** ** Flags *)

Inductive DrsExtFlag :=
| ExtBase | AsyncRepl | GetChgReqV6 | GetChgReplyV5 | GetChgReqV8 | GetChgReplyV9 | GetChgReqV10
| InstanceInfoNotIsMasters.
Definition DrsExtFlag_value (f : DrsExtFlag) : Z :=
  match f with
  | ExtBase => 0x00000001 | AsyncRepl => 0x00000002 | GetChgReqV6 => 0x00000004 | GetChgReplyV5 => 0x00000008
  | GetChgReqV8 => 0x00000040 | GetChgReplyV9 => 0x00000080 | GetChgReqV10 => 0x00010000
  | InstanceInfoNotIsMasters => 0x00000010
  end.
#[global] Instance DrsExtFlag_eq_dec : EqDecision DrsExtFlag.
Proof. solve_decision. Defined.

Inductive DrsOption :=
| AsyncOp | GetChgCheck | AddRef | SyncAll | WritRep | InitSync | PerSync | FullSyncNow | ExopReplSecrets | GetAnc
| FullSyncInProgress | GetAllGroupMembership.
Definition DrsOption_value (o : DrsOption) : Z :=
  match o with
  | AsyncOp => 0x00000001 | GetChgCheck => 0x00000002 | AddRef => 0x00000004 | SyncAll => 0x00000008
  | WritRep => 0x00000010 | InitSync => 0x00000020 | PerSync => 0x00000040 | FullSyncNow => 0x00000080
  | ExopReplSecrets => 0x00000100 | GetAnc => 0x00000800 | FullSyncInProgress => 0x00010000
  | GetAllGroupMembership => 0x00800000
  end.

Definition SERVER_SUPPORTED_EXTENSIONS : Z :=
  Z.lor (Z.lor (Z.lor (Z.lor (DrsExtFlag_value ExtBase) (DrsExtFlag_value GetChgReqV8)) (DrsExtFlag_value GetChgReplyV9))
    (DrsExtFlag_value GetChgReqV10)) (DrsExtFlag_value InstanceInfoNotIsMasters).
Definition NON_NULL_REFERENT_ID : Z := 0x00020000.
Definition DRS_EXTENSIONS_BODY_SIZE : Z := 32.
Definition UTD_VECTOR_ENTRY_SIZE : nat := 32.

Definition pack_drs_ext_flags (flags : list DrsExtFlag) : Z :=
  foldl (fun acc f => Z.lor acc (DrsExtFlag_value f)) 0 flags.
Definition all_drs_ext_flags : list DrsExtFlag :=
  [ExtBase; AsyncRepl; GetChgReqV6; GetChgReplyV5; InstanceInfoNotIsMasters; GetChgReqV8; GetChgReplyV9; GetChgReqV10].
Definition unpack_drs_ext_flags (dw_flags : Z) : list DrsExtFlag :=
  List.filter (fun f => negb (Z.land dw_flags (DrsExtFlag_value f) =? 0)) all_drs_ext_flags.
Definition negotiate_extensions (client_dw_flags server_supported : Z) : Z :=
  let intersection := Z.land client_dw_flags server_supported in
  if Z.land intersection (DrsExtFlag_value ExtBase) =? 0 then 0 else intersection.

(** ** DRS_EXTENSIONS *)

Record DrsExtensions := mkExtensions {
  dw_flags : Z;
  site_obj_guid : Uuid;
  ext_pid : Z;
  dw_repl_epoch : Z;
  dw_flags_ext : Z;
  ext_extra : bytes;
}.
Definition DrsExtensions_new (flags : Z) (guid : Uuid) : DrsExtensions := mkExtensions flags guid 0 0 0 [].
Definition DrsExtensions_default : DrsExtensions := DrsExtensions_new (DrsExtFlag_value ExtBase) 0.

Definition DrsExtensions_encode (e : DrsExtensions) : Writer :=
  wlet (uint_add 32 DRS_EXTENSIONS_BODY_SIZE (as_u32 (Z.of_nat (length (ext_extra e))))) (fun body_size =>
  write_uint32 body_size >>>
  write_uint32 (dw_flags e) >>>
  write_uuid (site_obj_guid e) >>>
  write_uint32 (ext_pid e) >>>
  write_uint32 (dw_repl_epoch e) >>>
  write_uint32 (dw_flags_ext e) >>>
  (match ext_extra e with [] => wskip | extra => write_bytes extra end) >>>
  NdrWriter_align 4).

Definition DrsExtensions_decode : Reader DrsExtensions :=
  let* cb := read_uint32 in
  if cb <? DRS_EXTENSIONS_BODY_SIZE then dfail (ExtensionsTooSmall cb)
  else
    let* flags := read_uint32 in
    let* guid := read_uuid in
    let* pid := read_uint32 in
    let* epoch := read_uint32 in
    let* flags_ext := read_uint32 in
    let extra_len := cb - DRS_EXTENSIONS_BODY_SIZE in
    let* extra := (if extra_len >? 0 then read_bytes extra_len else dret []) in
    let* _ := NdrReader_align 4 in
    dret (mkExtensions flags guid pid epoch flags_ext extra).

(** ** The up-to-dateness vector *)

Record UtdVectorExtEntry := mkUtdExtEntry {
  usn_high : Z;
  usn_low : Z;
  dsa_guid : Uuid;
}.
Record UtdVectorExt := mkUtdExt {
  dw_version : Z;
  utd_ext_entries : list UtdVectorExtEntry;
}.
#[global] Instance UtdVectorExtEntry_eq_dec : EqDecision UtdVectorExtEntry.
Proof. solve_decision. Defined.
Definition UtdVectorExt_new : UtdVectorExt := mkUtdExt 0 [].

Definition encode_utd_entry (e : UtdVectorExtEntry) : Writer :=
  write_uint64 (usn_high e) >>> write_uint64 (usn_low e) >>> write_uuid (dsa_guid e).
Definition UtdVectorExt_encode (v : UtdVectorExt) : Writer :=
  write_uint32 (as_u32 (Z.of_nat (length (utd_ext_entries v)))) >>>
  write_uint32 (dw_version v) >>>
  write_uint32 0 >>>
  wfor (utd_ext_entries v) encode_utd_entry.

Definition decode_utd_entry : Reader UtdVectorExtEntry :=
  let* high := read_uint64 in
  let* low := read_uint64 in
  let* guid := read_uuid in
  dret (mkUtdExtEntry high low guid).
Definition UtdVectorExt_decode : Reader UtdVectorExt :=
  let* c_num_entries := read_uint32 in
  let* version := read_uint32 in
  let* _ := read_uint32 in
  let* entries := dtimes (Z.to_nat c_num_entries) decode_utd_entry in
  dret (mkUtdExt version entries).

Definition is_up_to_date (v : UtdVectorExt) (guid : Uuid) (usn : Z) : bool :=
  existsb (fun e => (dsa_guid e =? guid) && (usn <=? usn_high e)) (utd_ext_entries v).

(** [iter_mut().find]: the first entry of the same DSA is updated in place. *)
Fixpoint merge_entry (entry : UtdVectorExtEntry) (l : list UtdVectorExtEntry) : list UtdVectorExtEntry :=
  match l with
  | [] => [entry]
  | existing :: l =>
      if dsa_guid existing =? dsa_guid entry
      then mkUtdExtEntry (Z.max (usn_high existing) (usn_high entry)) (Z.min (usn_low existing) (usn_low entry))
             (dsa_guid existing) :: l
      else existing :: merge_entry entry l
  end.
Definition UtdVectorExt_merge (entry : UtdVectorExtEntry) (v : UtdVectorExt) : UtdVectorExt :=
  mkUtdExt (dw_version v) (merge_entry entry (utd_ext_entries v)).

(** ** DSNAME *)

Record DsName := mkDsName {
  ds_guid : Uuid;
  ds_sid : bytes;
  ds_name : bytes;
}.
Definition DsName_from_dn (dn : bytes) : DsName := mkDsName 0 [] dn.

Definition struct_len (n : DsName) : Result DceRpcError Z :=
  let sid_padded := Z.land (Z.of_nat (length (ds_sid n)) + 3) (Z.lnot 3) in
  let name_units := Z.of_nat (length (encode_utf16 (ds_name n))) in
  let? name_bytes := uint_mul 32 (as_u32 (name_units + 1)) 2 in
  let? s := uint_add 32 (4 + 4 + 16) (as_u32 sid_padded) in
  let? s := uint_add 32 s 4 in
  uint_add 32 s name_bytes.

Definition DsName_encode (n : DsName) : Writer :=
  wlet (struct_len n) (fun len =>
  write_uint32 len >>>
  write_uint32 (as_u32 (Z.of_nat (length (ds_sid n)))) >>>
  write_uuid (ds_guid n) >>>
  (match ds_sid n with [] => wskip | sid => write_bytes sid >>> NdrWriter_align 4 end) >>>
  write_uint32 (as_u32 (Z.of_nat (length (encode_utf16 (ds_name n))))) >>>
  wfor (encode_utf16 (ds_name n)) (fun u => write_bytes (to_le 2 u)) >>>
  write_bytes (to_le 2 0) >>>
  NdrWriter_align 4).

Definition DsName_decode : Reader DsName :=
  let* _ := read_uint32 in
  let* sid_len := read_uint32 in
  let* guid := read_uuid in
  let* sid := (if sid_len >? 0
               then let* b := read_bytes sid_len in let* _ := NdrReader_align 4 in dret b
               else dret []) in
  let* name_len := read_uint32 in
  let* byte_len := dlift (uint_checked_mul 64 name_len 2) DsNameLength in
  let* name_bytes := read_bytes byte_len in
  let* trailing := read_bytes 2 in
  if negb (bool_decide (trailing = [x00; x00])) then dfail (DsNameNul trailing)
  else
    let* _ := NdrReader_align 4 in
    let* name := dlift (from_utf16 (le_units name_bytes)) DsNameUtf16 in
    dret (mkDsName guid sid name).

(** ** USN_VECTOR and the GetNCChanges request *)

Record UsnVector := mkUsnVector {
  usn_high_obj_update : Z;
  usn_high_prop_update : Z;
}.
Definition UsnVector_new : UsnVector := mkUsnVector 0 0.
Definition UsnVector_encode (v : UsnVector) : Writer :=
  write_uint64 (usn_high_obj_update v) >>> write_uint64 (usn_high_prop_update v).
Definition UsnVector_decode : Reader UsnVector :=
  let* obj := read_uint64 in
  let* prop := read_uint64 in
  dret (mkUsnVector obj prop).

Record ReplEntInfV3 := mkReplEntInf {
  uuid_dsa_obj_dest : Uuid;
  uuid_invoc_id_src : Uuid;
  rq_nc : DsName;
  rq_usn_vector : UsnVector;
  rq_utd_vector : UtdVectorExt;
  ul_flags : Z;
  c_max_objects : Z;
  c_max_bytes : Z;
  ul_extended_op : Z;
  li_fsmo_info : Z;
}.
Definition ReplEntInfV3_encode (r : ReplEntInfV3) : Writer :=
  write_uuid (uuid_dsa_obj_dest r) >>>
  write_uuid (uuid_invoc_id_src r) >>>
  write_uint32 NON_NULL_REFERENT_ID >>>
  UsnVector_encode (rq_usn_vector r) >>>
  write_uint32 NON_NULL_REFERENT_ID >>>
  write_uint32 (ul_flags r) >>>
  write_uint32 (c_max_objects r) >>>
  write_uint32 (c_max_bytes r) >>>
  write_uint32 (ul_extended_op r) >>>
  write_uint64 (li_fsmo_info r) >>>
  DsName_encode (rq_nc r) >>>
  UtdVectorExt_encode (rq_utd_vector r).
Definition ReplEntInfV3_decode : Reader ReplEntInfV3 :=
  let* dest := read_uuid in
  let* src := read_uuid in
  let* p_nc_ref := read_uint32 in
  let* usn := UsnVector_decode in
  let* p_utd_ref := read_uint32 in
  let* flags := read_uint32 in
  let* max_objects := read_uint32 in
  let* max_bytes := read_uint32 in
  let* extended_op := read_uint32 in
  let* fsmo := read_uint64 in
  let* nc := (if negb (p_nc_ref =? 0) then DsName_decode else dret (DsName_from_dn [])) in
  let* utd := (if negb (p_utd_ref =? 0) then UtdVectorExt_decode else dret UtdVectorExt_new) in
  dret (mkReplEntInf dest src nc usn utd flags max_objects max_bytes extended_op fsmo).

(** ** The reply *)

Record ReplObj := mkReplObj {
  ro_dn : bytes;
  ro_uuid : Uuid;
  usn_changed : Z;
  ro_attributes : list (bytes * bytes);
}.
#[global] Instance ReplObj_eq_dec : EqDecision ReplObj.
Proof. solve_decision. Defined.

Definition encode_repl_attr (a : bytes * bytes) : Writer :=
  write_uint32 NON_NULL_REFERENT_ID >>>
  DsName_encode (DsName_from_dn a.1) >>>
  write_uint32 1 >>>
  write_uint32 (as_u32 (Z.of_nat (length a.2))) >>>
  write_uint32 0 >>>
  write_uint32 (as_u32 (Z.of_nat (length a.2))) >>>
  write_bytes a.2 >>>
  NdrWriter_align 4.
Definition ReplObj_encode (o : ReplObj) : Writer :=
  write_uint32 NON_NULL_REFERENT_ID >>>
  DsName_encode (mkDsName (ro_uuid o) [] (ro_dn o)) >>>
  write_uint32 0 >>>
  write_uint64 (usn_changed o) >>>
  write_uint32 (as_u32 (Z.of_nat (length (ro_attributes o)))) >>>
  wfor (ro_attributes o) encode_repl_attr.

Definition decode_repl_attr : Reader (bytes * bytes) :=
  let* p_attr_ref := read_uint32 in
  let* attr_name := (if negb (p_attr_ref =? 0) then let* n := DsName_decode in dret (ds_name n) else dret []) in
  let* _ := read_uint32 in
  let* max_count := read_uint32 in
  let* _ := read_uint32 in
  let* actual_count := read_uint32 in
  let value_len := Z.min actual_count max_count in
  let* value := (if value_len >? 0
                 then let* b := read_bytes value_len in let* _ := NdrReader_align 4 in dret b
                 else dret []) in
  dret (attr_name, value).
Definition ReplObj_decode : Reader ReplObj :=
  let* p_name_ref := read_uint32 in
  let* dn := (if negb (p_name_ref =? 0) then DsName_decode else dret (DsName_from_dn [])) in
  let* _ := read_uint32 in
  let* usn := read_uint64 in
  let* c_num_attrs := read_uint32 in
  let* attributes := dtimes (Z.to_nat c_num_attrs) decode_repl_attr in
  dret (mkReplObj (ds_name dn) (ds_guid dn) usn attributes).

Record ReplEntInfV3Reply := mkReply {
  c_num_objects : Z;
  c_num_ncs : Z;
  p_objects : list ReplObj;
  f_more_data : bool;
  rp_utd_vector : UtdVectorExt;
}.
Definition ReplEntInfV3Reply_encode (r : ReplEntInfV3Reply) : Writer :=
  write_uint32 (c_num_objects r) >>>
  write_uint32 (c_num_ncs r) >>>
  write_uint32 (as_u32 (Z.of_nat (length (p_objects r)))) >>>
  wfor (p_objects r) ReplObj_encode >>>
  write_uint8 (if f_more_data r then 1 else 0) >>>
  NdrWriter_align 4 >>>
  write_uint32 NON_NULL_REFERENT_ID >>>
  UtdVectorExt_encode (rp_utd_vector r).
Definition ReplEntInfV3Reply_decode : Reader ReplEntInfV3Reply :=
  let* num_objects := read_uint32 in
  let* num_ncs := read_uint32 in
  let* p_objects_count := read_uint32 in
  let* objects := dtimes (Z.to_nat p_objects_count) ReplObj_decode in
  let* more := read_uint8 in
  let* _ := NdrReader_align 4 in
  let* p_utd_ref := read_uint32 in
  let* utd := (if negb (p_utd_ref =? 0) then UtdVectorExt_decode else dret UtdVectorExt_new) in
  dret (mkReply num_objects num_ncs objects (negb (more =? 0)) utd).

(** [to_bytes] and [from_bytes] of the structures: a fresh writer or reader. *)
Definition ndr_to_bytes (w : Writer) : Result DceRpcError bytes := w NdrWriter_new.
Definition ndr_from_bytes {A} (d : Reader A) (b : bytes) : Result DceRpcError A :=
  let? ar := d (NdrReader_new b) in Ok ar.1.

(** ** The candidate set *)

Abbreviation DirectorySource := (list Object).
Definition DirectorySource_new : DirectorySource := [].
Definition DirectorySource_add (obj : Object) (s : DirectorySource) : DirectorySource := s ++ [obj].

Definition to_repl_obj (o : Object) : ReplObj :=
  mkReplObj (dn (obj_dn o)) (obj_uuid o) 0 (map (fun a => (attr_name a, attr_value a)) (obj_attributes o)).

(** [sort_by] on the DN, a stable sort. *)
Fixpoint insert_by_dn (x : ReplObj) (l : list ReplObj) : list ReplObj :=
  match l with
  | [] => [x]
  | y :: l => if key_ltb (ro_dn y) (ro_dn x) then y :: insert_by_dn x l else x :: y :: l
  end.
Definition sort_by_dn (l : list ReplObj) : list ReplObj := foldr insert_by_dn [] l.

Definition under_nc (nc_dn : bytes) (o : Object) : bool :=
  bool_decide (nc_dn = []) || ends_with (dn (obj_dn o)) nc_dn.
Definition list_under_nc (s : DirectorySource) (nc_dn : bytes) : list ReplObj :=
  sort_by_dn (map to_repl_obj (List.filter (under_nc nc_dn) s)).

(** ** The handlers *)

Record DrsBindResult := mkBindResult {
  server_invocation_id : Uuid;
  server_extensions : DrsExtensions;
  replication_epoch : Z;
  bind_handle : Uuid;
}.

(** [{:#010x}] of a [u32]: [0x] and eight lower-case hex digits. *)
Definition hex_nibble (v : Z) (i : Z) : byte :=
  let d := Z.shiftr v (4 * i) mod 16 in z2b (if d <? 10 then 48 + d else 87 + d).
Definition fmt_010x (v : Z) : bytes := lit "0x" ++ map (hex_nibble v) [7; 6; 5; 4; 3; 2; 1; 0].

Definition drs_bind (now_v7 : Uuid) (inv_id : Uuid) (client : DrsExtensions) : Result ReplicationError DrsBindResult :=
  let negotiated := negotiate_extensions (dw_flags client) SERVER_SUPPORTED_EXTENSIONS in
  if negotiated =? 0 then
    Err (Permanent (lit "DRSBind: client dwFlags=" ++ fmt_010x (dw_flags client) ++ lit " does not include DRS_EXT_BASE"))
  else
    let ext := mkExtensions negotiated (site_obj_guid client) 0 (dw_repl_epoch client) 0 [] in
    Ok (mkBindResult inv_id ext (dw_repl_epoch client) now_v7).

Definition drs_get_nc_changes (inv_id : Uuid) (source : DirectorySource) (request : ReplEntInfV3)
    : Result ReplicationError ReplEntInfV3Reply :=
  let all := list_under_nc source (ds_name (rq_nc request)) in
  let max := if c_max_objects request =? 0 then Z.of_nat (length all) else c_max_objects request in
  let more := Z.of_nat (length all) >? max in
  let all := if more then take (Z.to_nat max) all else all in
  let utd := UtdVectorExt_merge (mkUtdExtEntry (usn_high_prop_update (rq_usn_vector request)) 0 inv_id) UtdVectorExt_new in
  Ok (mkReply (as_u32 (Z.of_nat (length all))) 0 all more utd).

Section dispatch.
Context (dcerpc_display : DceRpcError -> bytes).

(** The writer of a reply runs outside the error conversion: only a panic can
    leave it. *)
Definition reply_bytes (w : Writer) : Result ReplicationError bytes :=
  map_err (fun e => ReplBackend (dcerpc_display e)) (ndr_to_bytes w).

Definition drs_bind_dispatch (now_v7 inv_id : Uuid) (stub_input : bytes) : Result ReplicationError bytes :=
  let? client := map_err (fun e => ReplBackend (lit "DRSBind NDR decode: " ++ dcerpc_display e))
                   (ndr_from_bytes DrsExtensions_decode stub_input) in
  let? result := drs_bind now_v7 inv_id client in
  reply_bytes (write_uuid (bind_handle result) >>>
               write_uint32 NON_NULL_REFERENT_ID >>>
               DrsExtensions_encode (server_extensions result)).

Definition drs_get_nc_changes_dispatch (inv_id : Uuid) (source : DirectorySource) (stub_input : bytes)
    : Result ReplicationError bytes :=
  let? request := map_err (fun e => ReplBackend (lit "DRSGetNCChanges NDR decode: " ++ dcerpc_display e))
                    (ndr_from_bytes ReplEntInfV3_decode stub_input) in
  let? reply := drs_get_nc_changes inv_id source request in
  reply_bytes (write_uint32 3 >>> ReplEntInfV3Reply_encode reply).
End dispatch.
