(* ===== verification/DrsProofs.v ===== *)
(** * DrsProofs: the DRSUAPI codecs, vectors and handlers

    Every structure decodes from its encoding at any alignment; the
    up-to-dateness vector is a join; bind negotiates the common extensions; and
    [GetNCChanges] answers with the sorted candidates, end to end over the wire
    bytes. *)
From Stdlib Require Import Sorting.Permutation.
From S2P Require Import Prelude Bytes Text StorageKeys Repl Utf16 Ndr Drs.

(** ** Codecs *)

Definition extensions_ok (e : DrsExtensions) : Prop :=
  is_u32 (dw_flags e) /\ is_u128 (site_obj_guid e) /\ is_u32 (ext_pid e) /\ is_u32 (dw_repl_epoch e)
  /\ is_u32 (dw_flags_ext e) /\ 32 + Z.of_nat (length (ext_extra e)) < 2 ^ 32.
Definition utd_entry_ok (e : UtdVectorExtEntry) : Prop :=
  is_u64 (usn_high e) /\ is_u64 (usn_low e) /\ is_u128 (dsa_guid e).
Definition utd_ok (v : UtdVectorExt) : Prop :=
  is_u32 (dw_version v) /\ Z.of_nat (length (utd_ext_entries v)) < 2 ^ 32 /\ Forall utd_entry_ok (utd_ext_entries v).
(** The sizes keep [structLen] below 2^32. *)
Definition dsname_ok (n : DsName) : Prop :=
  is_u128 (ds_guid n) /\ utf8_valid (ds_name n) = true
  /\ Z.of_nat (length (ds_sid n)) + 2 * Z.of_nat (length (encode_utf16 (ds_name n))) + 40 < 2 ^ 32.
Definition usn_vector_ok (v : UsnVector) : Prop := is_u64 (usn_high_obj_update v) /\ is_u64 (usn_high_prop_update v).
Definition request_ok (r : ReplEntInfV3) : Prop :=
  is_u128 (uuid_dsa_obj_dest r) /\ is_u128 (uuid_invoc_id_src r) /\ dsname_ok (rq_nc r) /\ usn_vector_ok (rq_usn_vector r)
  /\ utd_ok (rq_utd_vector r) /\ is_u32 (ul_flags r) /\ is_u32 (c_max_objects r) /\ is_u32 (c_max_bytes r)
  /\ is_u32 (ul_extended_op r) /\ is_u64 (li_fsmo_info r).
Definition repl_attr_ok (a : bytes * bytes) : Prop :=
  dsname_ok (DsName_from_dn a.1) /\ Z.of_nat (length a.2) < 2 ^ 32.
Definition repl_obj_ok (o : ReplObj) : Prop :=
  dsname_ok (mkDsName (ro_uuid o) [] (ro_dn o)) /\ is_u64 (usn_changed o)
  /\ Z.of_nat (length (ro_attributes o)) < 2 ^ 32 /\ Forall repl_attr_ok (ro_attributes o).
Definition reply_ok (r : ReplEntInfV3Reply) : Prop :=
  is_u32 (c_num_objects r) /\ is_u32 (c_num_ncs r) /\ Z.of_nat (length (p_objects r)) < 2 ^ 32
  /\ Forall repl_obj_ok (p_objects r) /\ utd_ok (rp_utd_vector r).

Lemma Reads_ref : Reads read_uint32 (write_uint32 NON_NULL_REFERENT_ID) NON_NULL_REFERENT_ID.
Proof. by apply Reads_uint32. Qed.
Lemma Reads_u32_0 : Reads read_uint32 (write_uint32 0) 0.
Proof. by apply Reads_uint32. Qed.
Lemma Reads_u32_1 : Reads read_uint32 (write_uint32 1) 1.
Proof. by apply Reads_uint32. Qed.
Lemma Reads_align4 : Reads (NdrReader_align 4) (NdrWriter_align 4) tt.
Proof. apply Reads_align. by right; left. Qed.
#[export] Hint Resolve Reads_ref Reads_u32_0 Reads_u32_1 Reads_align4 : ndr.

Lemma Reads_extensions e : extensions_ok e -> Reads DrsExtensions_decode (DrsExtensions_encode e) e.
Proof.
  destruct e as [flags guid pid epoch fext extra]. intros (? & ? & ? & ? & ? & Hl).
  unfold DrsExtensions_encode, DrsExtensions_decode, DRS_EXTENSIONS_BODY_SIZE.
  cbn [dw_flags site_obj_guid ext_pid dw_repl_epoch dw_flags_ext ext_extra] in *.
  eapply Reads_let; [rewrite as_u32_len by lia; by apply uint_add_Ok|].
  reads_step; [apply Reads_uint32; split; [lia|done]|]. destruct (Z.ltb_spec (32 + Z.of_nat (length extra)) 32); [lia|].
  do 5 (reads_step; [by eauto with ndr|]). replace (32 + Z.of_nat (length extra) - 32) with (Z.of_nat (length extra)) by lia.
  reads_step; [|reads]. destruct extra as [|b extra]; [apply Reads_ret|].
  destruct (Z.gtb_spec (Z.of_nat (length (b :: extra))) 0); [|cbn [length] in *; lia]. by apply Reads_bytes.
Qed.

Lemma Reads_utd_entry e : utd_entry_ok e -> Reads decode_utd_entry (encode_utd_entry e) e.
Proof. destruct e. intros (? & ? & ?). unfold decode_utd_entry, encode_utd_entry. cbn in *. reads. Qed.
Lemma Reads_utd v : utd_ok v -> Reads UtdVectorExt_decode (UtdVectorExt_encode v) v.
Proof.
  destruct v as [ver l]. intros (? & Hl & HF). unfold UtdVectorExt_decode, UtdVectorExt_encode.
  cbn [dw_version utd_ext_entries] in *. rewrite as_u32_len by done. do 3 (reads_step; [by eauto with ndr|]).
  rewrite Nat2Z.id. reads_step; [|reads]. apply Reads_for. eapply Forall_impl; [exact HF|]. apply Reads_utd_entry.
Qed.
#[export] Hint Resolve Reads_extensions Reads_utd : ndr.

Lemma land_lnot3 x : 0 <= x -> 0 <= Z.land x (Z.lnot 3) <= x.
Proof.
  intros Hx. rewrite <-Z.ldiff_land. change 3 with (Z.ones 2). rewrite Z.ldiff_ones_r by lia.
  rewrite Z.shiftl_mul_pow2, Z.shiftr_div_pow2 by lia. euclid.
Qed.
Lemma struct_len_Ok n : dsname_ok n -> exists len, struct_len n = Ok len /\ is_u32 len.
Proof.
  intros (_ & _ & Hl). unfold struct_len. set (s := Z.of_nat (length (ds_sid n))) in *.
  set (u := Z.of_nat (length (encode_utf16 (ds_name n)))) in *.
  pose proof (land_lnot3 (s + 3) ltac:(lia)) as Hp. set (p := Z.land _ _) in *.
  change (2 ^ 32) with 4294967296 in *. assert (as_u32 (u + 1) = u + 1) as -> by (apply as_uint_id; unfold_ints; lia).
  assert (as_u32 p = p) as -> by (apply as_uint_id; unfold_ints; lia).
  rewrite uint_mul_Ok by lia. cbn [rbind]. rewrite uint_add_Ok by lia. cbn [rbind]. rewrite uint_add_Ok by lia. cbn [rbind].
  rewrite uint_add_Ok by lia. eexists. split; [reflexivity|]. unfold_ints. lia.
Qed.

Lemma Reads_units us : Reads (read_bytes (2 * Z.of_nat (length us))) (wfor us (fun u => write_bytes (to_le 2 u))) (units_le us).
Proof.
  assert (pointwise_relation _ eq (wfor us (fun u => write_bytes (to_le 2 u))) (write_bytes (units_le us))) as ->.
  { intros p. apply wfor_bytes. }
  apply Reads_bytes. rewrite length_units_le. lia.
Qed.

(** The optional SID with its padding. *)
Lemma Reads_optional l : 
  Reads (if Z.of_nat (length l) >? 0 then let* b := read_bytes (Z.of_nat (length l)) in let* _ := NdrReader_align 4 in dret b else dret [])
    (match l with [] => wskip | b :: t => write_bytes (b :: t) >>> NdrWriter_align 4 end) l.
Proof.
  destruct l as [|b l]; [apply Reads_ret|]. destruct (Z.gtb_spec (Z.of_nat (length (b :: l))) 0); [|cbn [length] in *; lia].
  reads_step; [by apply Reads_bytes|]. reads.
Qed.

Lemma Reads_dsname n : dsname_ok n -> Reads DsName_decode (DsName_encode n) n.
Proof.
  intros Hok. destruct (struct_len_Ok n Hok) as (len & Hlen & ?). destruct n as [guid sid name].
  destruct Hok as (? & Hv & Hl). unfold DsName_encode, DsName_decode. cbn [ds_guid ds_sid ds_name] in *.
  eapply Reads_let; [exact Hlen|]. rewrite !as_u32_len by lia.
  reads_step; [by eauto with ndr|]. reads_step; [apply Reads_uint32; split; lia|]. reads_step; [by eauto with ndr|].
  reads_step; [apply (Reads_optional sid)|]. reads_step; [apply Reads_uint32; split; lia|].
  set (us := encode_utf16 name) in *.
  assert (uint_checked_mul 64 (Z.of_nat (length us)) 2 = Some (2 * Z.of_nat (length us))) as ->.
  { unfold uint_checked_mul. destruct (Z.ltb_spec (Z.of_nat (length us) * 2) (2 ^ 64)); [f_equal; lia|lia]. }
  eapply Reads_none; [apply Reads_ret|]. reads_step; [apply Reads_units|].
  reads_step; [by apply Reads_bytes|]. cbn [bool_decide]. rewrite bool_decide_eq_true_2 by done. cbn [negb].
  reads_step; [by eauto with ndr|]. rewrite le_units_units_le by (by apply encode_utf16_units).
  reads_step; [by apply Reads_lift, from_encode_utf16|]. apply Reads_ret.
Qed.
#[export] Hint Resolve Reads_dsname : ndr.

Lemma Reads_usn v : usn_vector_ok v -> Reads UsnVector_decode (UsnVector_encode v) v.
Proof. destruct v. intros [? ?]. unfold UsnVector_decode, UsnVector_encode. cbn in *. reads. Qed.
#[export] Hint Resolve Reads_usn : ndr.
Lemma Reads_request r : request_ok r -> Reads ReplEntInfV3_decode (ReplEntInfV3_encode r) r.
Proof.
  destruct r as [dst src nc usn utd fl mo mb eo fs]. intros (? & ? & ? & ? & ? & ? & ? & ? & ? & ?). unfold ReplEntInfV3_decode, ReplEntInfV3_encode.
  cbn [uuid_dsa_obj_dest uuid_invoc_id_src rq_nc rq_usn_vector rq_utd_vector ul_flags c_max_objects c_max_bytes
    ul_extended_op li_fsmo_info] in *. do 12 (reads_step; [by eauto with ndr|]). apply Reads_ret.
Qed.

(** After an aligned word the position is aligned: the padding of an empty value
    is empty, which is why the reader may skip it. *)
Lemma write_uint32_aligned v p : (write_uint32 v >>> write_bytes [] >>> NdrWriter_align 4) p = write_uint32 v p.
Proof.
  unfold write_uint32, wseq, write_bytes. rewrite write_align by (by right; left). cbn [rbind]. rewrite app_nil_r.
  rewrite write_align by (by right; left). pose proof (padding_spec 4 (length p) ltac:(by right; left)) as Hp.
  set (q := (p ++ _) ++ _). pose proof (padding_spec 4 (length q) ltac:(by right; left)) as Hq.
  assert (Z.of_nat (length q) mod 4 = 0) as E.
  { unfold q. rewrite !length_app, length_replicate, length_to_le, !Nat2Z.inj_add, Hp.
    destruct (Z.eqb_spec (Z.of_nat (length p) mod 4) 0); euclid. }
  rewrite E in Hq. cbn in Hq. destruct (padding 4 (length q)); [|lia]. by rewrite app_nil_r.
Qed.

Lemma Reads_repl_attr a : repl_attr_ok a -> Reads decode_repl_attr (encode_repl_attr a) a.
Proof.
  destruct a as [name value]. intros [? Hl]. unfold decode_repl_attr, encode_repl_attr. cbn [fst snd] in *.
  rewrite as_u32_len by done. reads_step; [by eauto with ndr|]. reads_step.
  { cbn [negb Z.eqb NON_NULL_REFERENT_ID]. reads_step; [by eauto with ndr|]. apply Reads_ret. }
  cbn [ds_name DsName_from_dn]. do 3 (reads_step; [by eauto with ndr|]). destruct value as [|b value].
  - assert (pointwise_relation _ eq (write_uint32 (Z.of_nat (length (A := byte) [])) >>> write_bytes [] >>> NdrWriter_align 4)
      (write_uint32 0)) as -> by (intros p; apply write_uint32_aligned).
    reads_step; [by eauto with ndr|]. eapply Reads_none; apply Reads_ret.
  - reads_step; [by eauto with ndr|]. rewrite Z.min_id.
    destruct (Z.gtb_spec (Z.of_nat (length (b :: value))) 0); [|cbn [length] in *; lia].
    eapply Reads_last; [|apply Reads_ret]. reads_step; [by apply Reads_bytes|]. reads.
Qed.
Lemma Reads_repl_obj o : repl_obj_ok o -> Reads ReplObj_decode (ReplObj_encode o) o.
Proof.
  destruct o as [d u usn attrs]. intros (? & ? & Hl & HF). unfold ReplObj_decode, ReplObj_encode.
  cbn [ro_dn ro_uuid usn_changed ro_attributes] in *. rewrite as_u32_len by done.
  do 5 (reads_step; [by eauto with ndr|]). rewrite Nat2Z.id. reads_step; [|reads].
  apply Reads_for. eapply Forall_impl; [exact HF|]. apply Reads_repl_attr.
Qed.
Lemma Reads_reply r : reply_ok r -> Reads ReplEntInfV3Reply_decode (ReplEntInfV3Reply_encode r) r.
Proof.
  destruct r as [no nn objs more utd]. intros (? & ? & Hl & HF & ?). unfold ReplEntInfV3Reply_decode, ReplEntInfV3Reply_encode.
  cbn [c_num_objects c_num_ncs p_objects f_more_data rp_utd_vector] in *. rewrite as_u32_len by done.
  do 3 (reads_step; [by eauto with ndr|]). rewrite Nat2Z.id. reads_step.
  { apply Reads_for. eapply Forall_impl; [exact HF|]. apply Reads_repl_obj. }
  reads_step; [apply Reads_uint8; by destruct more|]. do 3 (reads_step; [by eauto with ndr|]).
  destruct more; apply Reads_ret.
Qed.

(** A structure decodes from its own bytes. *)
Lemma from_to_bytes {A} (d : Reader A) w a : Reads d w a ->
  exists b, ndr_to_bytes w = Ok b /\ (in_memory b -> ndr_from_bytes d b = Ok a).
Proof.
  intros H. destruct (H NdrWriter_new) as (b & Hb & _). exists b. split; [done|]. intros Hm.
  unfold ndr_from_bytes. by rewrite (Reads_all d w a b).
Qed.

(** ** Decoding arbitrary bytes *)

Lemma Yields_optional n (P : bytes -> Prop) : 0 <= n -> P [] -> (forall l, Z.of_nat (length l) = n -> P l) ->
  Yields (if n >? 0 then let* b := read_bytes n in let* _ := NdrReader_align 4 in dret b else dret []) P.
Proof.
  intros Hn H0 HP. apply Yields_if; intros _; [|by apply Yields_ret]. eapply Yields_bind; [by apply Yields_bytes|].
  intros l Hl. eapply Yields_bind; [apply Yields_align; by right; left|]. intros _ _. apply Yields_ret. auto.
Qed.
Lemma Yields_align4 : Yields (NdrReader_align 4) (fun _ => True).
Proof. apply Yields_align. by right; left. Qed.
Lemma Yields_extensions : Yields DrsExtensions_decode extensions_ok.
Proof.
  unfold DrsExtensions_decode. eapply Yields_bind; [apply Yields_uint32|]. intros cb Hcb.
  destruct (Z.ltb_spec cb DRS_EXTENSIONS_BODY_SIZE); [apply Yields_fail|]. unfold DRS_EXTENSIONS_BODY_SIZE, is_uint in *.
  do 5 (eapply Yields_bind; [by eauto with ndr|]; intros ? ?).
  eapply (Yields_bind _ _ (fun l => 32 + Z.of_nat (length l) < 2 ^ 32)).
  { apply Yields_if; intros _; [|by apply Yields_ret]. eapply Yields_weaken; [apply Yields_bytes; lia|]. intros l ->. lia. }
  intros l Hl. eapply Yields_bind; [apply Yields_align4|]. intros _ _. by apply Yields_ret.
Qed.
Lemma Yields_utd : Yields UtdVectorExt_decode utd_ok.
Proof.
  assert (Yields decode_utd_entry utd_entry_ok) as He by (unfold decode_utd_entry; yields; by apply Yields_ret).
  unfold UtdVectorExt_decode. do 3 (eapply Yields_bind; [by eauto with ndr|]; intros ? ?).
  eapply Yields_bind; [by apply Yields_times|]. intros l [Hl HF]. apply Yields_ret. unfold utd_ok, is_uint in *. cbn.
  split_and!; [lia..|done].
Qed.
(** What a decoded name satisfies. *)
Definition dsname_typed (n : DsName) : Prop := is_u128 (ds_guid n) /\ utf8_valid (ds_name n) = true.
Lemma Yields_dsname : Yields DsName_decode dsname_typed.
Proof.
  unfold DsName_decode. do 3 (eapply Yields_bind; [by eauto with ndr|]; intros ? ?).
  eapply (Yields_bind _ _ (fun _ => True)); [apply Yields_optional; unfold is_uint in *; auto with lia|]. intros sid _.
  eapply Yields_bind; [by eauto with ndr|]. intros nl Hnl.
  eapply Yields_bind; [apply (Yields_lift _ _ (fun n => 0 <= n))|].
  { intros n. unfold uint_checked_mul, is_uint in *. case_match; [|done]. intros [= <-]. lia. }
  intros bl Hbl. eapply Yields_bind; [by apply Yields_bytes|]. intros nb _. eapply Yields_bind; [by apply Yields_bytes|]. intros tr _.
  apply Yields_if; intros _; [apply Yields_fail|]. eapply Yields_bind; [apply Yields_align4|]. intros _ _.
  eapply Yields_bind; [apply Yields_utf16, le_units_u16|]. intros s [Hs _]. by apply Yields_ret.
Qed.
Definition request_typed (r : ReplEntInfV3) : Prop :=
  dsname_typed (rq_nc r) /\ usn_vector_ok (rq_usn_vector r) /\ utd_ok (rq_utd_vector r) /\ is_u32 (c_max_objects r).
Lemma Yields_request : Yields ReplEntInfV3_decode request_typed.
Proof.
  assert (Yields UsnVector_decode usn_vector_ok) by (unfold UsnVector_decode; yields; by apply Yields_ret).
  unfold ReplEntInfV3_decode. do 10 (eapply Yields_bind; [by eauto with ndr|]; intros ? ?).
  eapply (Yields_bind _ _ dsname_typed); [apply Yields_if; intros _; [apply Yields_dsname|by apply Yields_ret]|]. intros ? ?.
  eapply (Yields_bind _ _ utd_ok); [apply Yields_if; intros _; [apply Yields_utd|apply Yields_ret; by split_and!]|]. intros ? ?.
  by apply Yields_ret.
Qed.
Definition reply_typed (r : ReplEntInfV3Reply) : Prop :=
  Forall (fun o => utf8_valid (ro_dn o) = true /\ Forall (fun a => utf8_valid a.1 = true) (ro_attributes o)) (p_objects r)
  /\ utd_ok (rp_utd_vector r).
Lemma Yields_repl_attr : Yields decode_repl_attr (fun a => utf8_valid a.1 = true).
Proof.
  unfold decode_repl_attr. eapply Yields_bind; [by eauto with ndr|]. intros r _.
  eapply (Yields_bind _ _ (fun s => utf8_valid s = true)).
  { apply Yields_if; intros _; [|by apply Yields_ret]. eapply Yields_bind; [apply Yields_dsname|]. intros n [_ ?]. by apply Yields_ret. }
  intros s Hs. do 4 (eapply Yields_bind; [by eauto with ndr|]; intros ? ?).
  eapply (Yields_bind _ _ (fun _ => True)); [apply Yields_optional; unfold is_uint in *; auto with lia|]. intros v _. by apply Yields_ret.
Qed.
Lemma Yields_reply : Yields ReplEntInfV3Reply_decode reply_typed.
Proof.
  assert (Yields ReplObj_decode (fun o => utf8_valid (ro_dn o) = true /\ Forall (fun a => utf8_valid a.1 = true) (ro_attributes o))).
  { unfold ReplObj_decode. eapply Yields_bind; [by eauto with ndr|]. intros r _.
    eapply (Yields_bind _ _ dsname_typed); [apply Yields_if; intros _; [apply Yields_dsname|by apply Yields_ret]|]. intros n [_ ?].
    do 3 (eapply Yields_bind; [by eauto with ndr|]; intros ? ?).
    eapply Yields_bind; [apply Yields_times, Yields_repl_attr|]. intros l [_ ?]. by apply Yields_ret. }
  unfold ReplEntInfV3Reply_decode. do 3 (eapply Yields_bind; [by eauto with ndr|]; intros ? ?).
  eapply Yields_bind; [by apply Yields_times|]. intros l [_ HF]. eapply Yields_bind; [apply Yields_uint8|]. intros m _.
  eapply Yields_bind; [apply Yields_align4|]. intros _ _. eapply Yields_bind; [by eauto with ndr|]. intros ref _.
  eapply (Yields_bind _ _ utd_ok); [apply Yields_if; intros _; [apply Yields_utd|apply Yields_ret; by split_and!]|]. intros v Hv.
  by apply Yields_ret.
Qed.
Lemma from_bytes_total {A} (d : Reader A) P b : Yields d P ->
  match ndr_from_bytes d b with Ok a => P a | Err _ => True | Panic => False end.
Proof.
  intros H. unfold ndr_from_bytes. specialize (H (NdrReader_new b) (Nat.le_0_l _)).
  destruct (d (NdrReader_new b)) as [[]| |]; cbn in *; naive_solver.
Qed.

(** DRSUAPI messages: every replication request and reply with fields in
    their widths decodes from its encoding (the writer and the reader agree on
    every pad byte), the encoder does not overflow, and on arbitrary bytes both
    decoders are total and return only well-formed text. *)
Theorem drs_messages_roundtrip (rq : ReplEntInfV3) (rp : ReplEntInfV3Reply) :
  request_ok rq -> reply_ok rp ->
  (exists b, ndr_to_bytes (ReplEntInfV3_encode rq) = Ok b
     /\ (in_memory b -> ndr_from_bytes ReplEntInfV3_decode b = Ok rq))
  /\ (exists b, ndr_to_bytes (ReplEntInfV3Reply_encode rp) = Ok b
     /\ (in_memory b -> ndr_from_bytes ReplEntInfV3Reply_decode b = Ok rp))
  /\ (forall b, match ndr_from_bytes ReplEntInfV3_decode b with Ok r => request_typed r | Err _ => True | Panic => False end)
  /\ (forall b, match ndr_from_bytes ReplEntInfV3Reply_decode b with Ok r => reply_typed r | Err _ => True | Panic => False end).
Proof.
  intros Hq Hp. split_and!; [by apply from_to_bytes, Reads_request|by apply from_to_bytes, Reads_reply|..]; intros b.
  - apply from_bytes_total, Yields_request.
  - apply from_bytes_total, Yields_reply.
Qed.
Definition sample_request : ReplEntInfV3 :=
  mkReplEntInf 1 2 (mkDsName 3 [x01; x05] (lit "DC=x")) (mkUsnVector 4 5) (mkUtdExt 1 [mkUtdExtEntry 9 0 7]) 16 2 0 0 0.
Definition sample_reply : ReplEntInfV3Reply :=
  mkReply 1 0 [mkReplObj (lit "CN=a,DC=x") 8 0 [(lit "cn", lit "a"); (lit "mail", [])]] true (mkUtdExt 0 [mkUtdExtEntry 5 0 2]).
Lemma sample_request_ok : request_ok sample_request.
Proof. unfold request_ok, dsname_ok, usn_vector_ok, utd_ok, utd_entry_ok. cbn. repeat constructor; by vm_compute. Qed.
Lemma drs_messages_roundtrip_witness :
  exists b, ndr_to_bytes (ReplEntInfV3_encode sample_request) = Ok b
     /\ (in_memory b -> ndr_from_bytes ReplEntInfV3_decode b = Ok sample_request).
Proof.
  refine (proj1 (drs_messages_roundtrip sample_request sample_reply sample_request_ok _)).
  unfold reply_ok, repl_obj_ok, repl_attr_ok, dsname_ok, utd_ok, utd_entry_ok. cbn. repeat constructor; by vm_compute.
Defined.

(** ** The up-to-dateness vector *)

Lemma up_to_date_merge v e g usn :
  is_up_to_date (UtdVectorExt_merge e v) g usn
  = is_up_to_date v g usn || ((dsa_guid e =? g) && (usn <=? usn_high e)).
Proof.
  unfold is_up_to_date, UtdVectorExt_merge. cbn [utd_ext_entries]. induction (utd_ext_entries v) as [|x l IH]; cbn; [by rewrite orb_false_r|].
  destruct (Z.eqb_spec (dsa_guid x) (dsa_guid e)) as [E|E]; cbn [existsb dsa_guid usn_high].
  - rewrite <-E. destruct (Z.eqb_spec (dsa_guid x) g); cbn [andb]; [|by rewrite !orb_false_r].
    rewrite <-!orb_assoc, (orb_comm (existsb _ _)), !orb_assoc. f_equal. lia.
  - by rewrite IH, orb_assoc.
Qed.
Lemma merge_guids e l :
  map dsa_guid (merge_entry e l) = map dsa_guid l ++ (if existsb (fun x => dsa_guid x =? dsa_guid e) l then [] else [dsa_guid e]).
Proof.
  induction l as [|x l IH]; [done|]. cbn. destruct (Z.eqb_spec (dsa_guid x) (dsa_guid e)); cbn; [by rewrite app_nil_r|].
  by rewrite IH.
Qed.
Lemma merge_all_up_to_date es v g usn :
  is_up_to_date (foldr UtdVectorExt_merge v es) g usn
  = is_up_to_date v g usn || existsb (fun e => (dsa_guid e =? g) && (usn <=? usn_high e)) es.
Proof.
  induction es as [|e es IH]; cbn [foldr existsb]; [by rewrite orb_false_r|]. rewrite up_to_date_merge, IH.
  by rewrite <-orb_assoc, (orb_comm (existsb _ _)).
Qed.
Lemma existsb_Permutation {A} (f : A -> bool) l l' : Permutation l l' -> existsb f l = existsb f l'.
Proof.
  intros Hp. apply eq_true_iff_eq. rewrite !existsb_exists. split; intros (x & Hx & ?); exists x; split; try done.
  - by apply (Permutation_in x Hp).
  - by apply (Permutation_in x (Permutation_sym Hp)).
Qed.

(** Up-to-dateness: merging an entry makes the vector cover exactly what it
    covered before and the entry's updates, keeps one entry per DSA, keeps the
    least of the low USNs, and the order in which entries are merged does not
    matter to what is covered. *)
Theorem utd_merge_join (v : UtdVectorExt) (e : UtdVectorExtEntry) :
  (forall g usn, is_up_to_date (UtdVectorExt_merge e v) g usn = true
     <-> is_up_to_date v g usn = true \/ (g = dsa_guid e /\ usn <= usn_high e))
  /\ (NoDup (map dsa_guid (utd_ext_entries v)) -> NoDup (map dsa_guid (utd_ext_entries (UtdVectorExt_merge e v))))
  /\ (forall x, utd_ext_entries v = [x] -> dsa_guid x = dsa_guid e ->
        map usn_low (utd_ext_entries (UtdVectorExt_merge e v)) = [Z.min (usn_low x) (usn_low e)])
  /\ (forall es es' g usn, Permutation es es' ->
        is_up_to_date (foldr UtdVectorExt_merge v es) g usn = is_up_to_date (foldr UtdVectorExt_merge v es') g usn).
Proof.
  split_and!.
  - intros g usn. rewrite up_to_date_merge, orb_true_iff, andb_true_iff, Z.eqb_eq, Z.leb_le. naive_solver.
  - intros Hn. cbn [UtdVectorExt_merge utd_ext_entries]. rewrite merge_guids. apply NoDup_app. split_and!; [done| |case_match; repeat constructor; set_solver].
    intros g Hg. destruct (existsb _ _) eqn:E; [set_solver|]. intros ->%list_elem_of_singleton.
    apply list_elem_of_fmap in Hg as (x & Hx & Hin). rewrite <-not_true_iff_false, existsb_exists in E. apply E.
    exists x. rewrite <-list_elem_of_In. split; [done|]. by apply Z.eqb_eq.
  - intros x Hx Hg. cbn [UtdVectorExt_merge utd_ext_entries]. rewrite Hx. cbn. by rewrite Hg, Z.eqb_refl.
  - intros es es' g usn Hp. by rewrite !merge_all_up_to_date, (existsb_Permutation _ es es').
Qed.

(** ** Extension flags *)

(** The bits of the known flags. *)
Definition known_ext_bits : Z := 0x100DF.
Lemma unpack_bits v : 0 <= v ->
  unpack_drs_ext_flags v = List.filter (fun f => Z.testbit v (Z.log2 (DrsExtFlag_value f))) all_drs_ext_flags.
Proof.
  intros Hv. unfold unpack_drs_ext_flags. apply List.filter_ext_in. intros f _.
  assert (exists n, 0 <= n /\ DrsExtFlag_value f = 2 ^ n) as (n & Hn & ->)
    by (destruct f; [exists 0|exists 1|exists 2|exists 3|exists 6|exists 7|exists 16|exists 4]; done).
  rewrite Z.log2_pow2 by done. destruct (Z.testbit v n) eqn:E.
  - apply negb_true_iff, Z.eqb_neq. intros H. apply (f_equal (fun z => Z.testbit z n)) in H.
    by rewrite Z.land_spec, E, Z.pow2_bits_true, Z.bits_0 in H by done.
  - apply negb_false_iff, Z.eqb_eq, Z.bits_inj'. intros i Hi. rewrite Z.land_spec, Z.bits_0, Z.pow2_bits_eqb by done.
    destruct (Z.eqb_spec n i) as [->|]; [by rewrite E|apply andb_false_r].
Qed.

Lemma pack_testbit l n acc :
  Z.testbit (foldl (fun acc f => Z.lor acc (DrsExtFlag_value f)) acc l) n
  = Z.testbit acc n || existsb (fun f => Z.testbit (DrsExtFlag_value f) n) l.
Proof.
  revert acc. induction l as [|f l IH]; intros acc; cbn [foldl existsb]; [by rewrite orb_false_r|].
  by rewrite IH, Z.lor_spec, orb_assoc.
Qed.
Lemma flag_bit f g : Z.testbit (DrsExtFlag_value f) (Z.log2 (DrsExtFlag_value g)) = bool_decide (f = g).
Proof. destruct f, g; by vm_compute. Qed.
Lemma pack_nonneg l : 0 <= pack_drs_ext_flags l.
Proof.
  unfold pack_drs_ext_flags. assert (forall acc, 0 <= acc -> 0 <= foldl (fun acc f => Z.lor acc (DrsExtFlag_value f)) acc l) as H; [|by apply H].
  induction l as [|f l IH]; intros acc Ha; cbn [foldl]; [done|]. apply IH, Z.lor_nonneg. split; [done|]. by destruct f.
Qed.

Lemma unpack_pack f l : f ∈ unpack_drs_ext_flags (pack_drs_ext_flags l) <-> f ∈ l.
Proof.
  rewrite unpack_bits by apply pack_nonneg. rewrite list_elem_of_In, filter_In. unfold pack_drs_ext_flags.
  rewrite pack_testbit, Z.bits_0. cbn [orb]. rewrite existsb_exists. setoid_rewrite flag_bit. setoid_rewrite bool_decide_eq_true.
  setoid_rewrite <-list_elem_of_In. split; [naive_solver|]. intros Hf. split; [destruct f; set_solver|eauto].
Qed.

Lemma land_u32 a b : is_u32 b -> is_u32 (Z.land a b).
Proof.
  intros Hb. assert (Z.land a b = Z.land a b mod 2 ^ 32) as ->.
  { rewrite <-Z.land_ones, <-Z.land_assoc by lia. f_equal. rewrite Z.land_ones by lia. symmetry. by apply Z.mod_small. }
  apply Z.mod_pos_bound. lia.
Qed.

(** ** Bind *)

(** The client's view of the bind reply. *)
Definition read_bind_reply : Reader (Uuid * DrsExtensions) :=
  let* handle := read_uuid in
  let* _ := read_uint32 in
  let* ext := DrsExtensions_decode in
  dret (handle, ext).
Lemma Reads_bind_reply h e : is_u128 h -> extensions_ok e ->
  Reads read_bind_reply (write_uuid h >>> write_uint32 NON_NULL_REFERENT_ID >>> DrsExtensions_encode e) (h, e).
Proof. intros. unfold read_bind_reply. reads. Qed.

Lemma negotiate_spec c s :
  negotiate_extensions c s = if Z.testbit c 0 && Z.testbit s 0 then Z.land c s else 0.
Proof.
  unfold negotiate_extensions. change (DrsExtFlag_value ExtBase) with (Z.ones 1). rewrite Z.land_ones by lia.
  rewrite <-Z.land_spec, Z.bit0_odd, Zmod_odd. by destruct (Z.odd (Z.land c s)).
Qed.

(** Bind negotiation, from the client's bytes to the client's view of the
    reply: a client that offers the base extension gets back the fresh handle
    and the common part of the two flag sets under its own site and epoch; one
    that does not is refused. *)
Theorem drs_bind_negotiates (display : DceRpcError -> bytes) (now inv : Uuid) (client : DrsExtensions) :
  is_u128 now -> extensions_ok client ->
  exists stub, ndr_to_bytes (DrsExtensions_encode client) = Ok stub /\ (in_memory stub ->
    if Z.testbit (dw_flags client) 0 then
      exists reply, drs_bind_dispatch display now inv stub = Ok reply /\ (in_memory reply ->
        ndr_from_bytes read_bind_reply reply
        = Ok (now, mkExtensions (Z.land (dw_flags client) SERVER_SUPPORTED_EXTENSIONS) (site_obj_guid client) 0
                     (dw_repl_epoch client) 0 []))
    else exists msg, drs_bind_dispatch display now inv stub = Err (Permanent msg)).
Proof.
  intros Hnow Hc. destruct (from_to_bytes _ _ _ (Reads_extensions client Hc)) as (stub & Hs & Hd). exists stub. split; [done|].
  intros Hm. specialize (Hd Hm). unfold drs_bind_dispatch, drs_bind. rewrite Hd. cbn [map_err rbind]. rewrite negotiate_spec.
  change (Z.testbit SERVER_SUPPORTED_EXTENSIONS 0) with true. rewrite andb_true_r.
  destruct (Z.testbit (dw_flags client) 0) eqn:Hb; [|eexists; reflexivity].
  destruct (Z.eqb_spec (Z.land (dw_flags client) SERVER_SUPPORTED_EXTENSIONS) 0) as [E|E].
  { apply (f_equal (fun z => Z.testbit z 0)) in E. by rewrite Z.land_spec, Hb in E. }
  cbn [rbind bind_handle server_extensions]. destruct Hc as (? & ? & ? & ? & ? & ?).
  set (ext := mkExtensions _ _ _ _ _ _).
  assert (extensions_ok ext) as He by (split_and!; try done; by apply land_u32).
  destruct (from_to_bytes _ _ _ (Reads_bind_reply now ext Hnow He)) as (b & Hb' & Hr).
  unfold reply_bytes. rewrite Hb'. eauto.
Qed.
Lemma drs_bind_negotiates_witness :
  exists stub, ndr_to_bytes (DrsExtensions_encode (DrsExtensions_new 0xFF 7)) = Ok stub
    /\ exists reply, drs_bind_dispatch (fun _ => []) 5 6 stub = Ok reply.
Proof.
  destruct (drs_bind_negotiates (fun _ => []) 5 6 (DrsExtensions_new 0xFF 7)) as (stub & Hs & H).
  - by vm_compute.
  - repeat constructor; by vm_compute.
  - exists stub. split; [exact Hs|]. destruct H as (reply & Hr & _); [|by exists reply].
    vm_compute in Hs. injection Hs as <-. by vm_compute.
Defined.

(** Extension flags: unpacking a packed flag set gives exactly its members,
    and the negotiated set is the common part when both sides have the base
    extension and empty otherwise. *)
Theorem ext_flags_exact (l : list DrsExtFlag) (client server : Z) :
  (forall f, f ∈ unpack_drs_ext_flags (pack_drs_ext_flags l) <-> f ∈ l)
  /\ (forall i, Z.testbit (negotiate_extensions client server) i
        = Z.testbit client 0 && Z.testbit server 0 && (Z.testbit client i && Z.testbit server i)).
Proof.
  split; [intros f; apply unpack_pack|]. intros i. rewrite negotiate_spec.
  destruct (Z.testbit client 0 && Z.testbit server 0); [apply Z.land_spec|apply Z.bits_0].
Qed.

(** ** GetNCChanges *)

Definition dn_le (x y : ReplObj) : Prop := key_le (ro_dn x) (ro_dn y).
Lemma insert_by_dn_Permutation x l : Permutation (insert_by_dn x l) (x :: l).
Proof.
  induction l as [|y l IH]; [done|]. cbn. case_match; [|done]. rewrite IH. apply perm_swap.
Qed.
Lemma sort_by_dn_Permutation l : Permutation (sort_by_dn l) l.
Proof. induction l as [|x l IH]; [done|]. cbn. by rewrite insert_by_dn_Permutation, IH. Qed.
Lemma insert_by_dn_Sorted x l : StronglySorted dn_le l -> StronglySorted dn_le (insert_by_dn x l).
Proof.
  induction 1 as [|y l Hl IH HF]; [repeat constructor|]. cbn. case_match eqn:E.
  - constructor; [done|]. rewrite insert_by_dn_Permutation. constructor; [|done].
    apply key_le_lteq. by left.
  - assert (dn_le x y) as Hxy by exact E. repeat (constructor; try done). eapply Forall_impl; [exact HF|].
    intros z Hz. unfold dn_le in *. by etransitivity.
Qed.
Lemma sort_by_dn_Sorted l : StronglySorted dn_le (sort_by_dn l).
Proof. induction l; cbn; [constructor|]. by apply insert_by_dn_Sorted. Qed.

(** Objects whose names and values fit the wire format. *)
Definition object_ok (o : Object) : Prop := repl_obj_ok (to_repl_obj o).

Lemma list_under_nc_ok s nc : Forall object_ok s -> Forall repl_obj_ok (list_under_nc s nc).
Proof.
  intros HF. unfold list_under_nc. rewrite sort_by_dn_Permutation. induction HF as [|o s Ho HF IH]; cbn; [constructor|].
  destruct (under_nc nc o); cbn; [by constructor|done].
Qed.
Lemma length_list_under_nc s nc : (length (list_under_nc s nc) <= length s)%nat.
Proof. unfold list_under_nc. rewrite sort_by_dn_Permutation, length_map. apply filter_length_le. Qed.

Definition read_changes_reply : Reader (Z * ReplEntInfV3Reply) :=
  let* version := read_uint32 in
  let* reply := ReplEntInfV3Reply_decode in
  dret (version, reply).

Lemma get_nc_changes_ok inv s rq : Forall object_ok s -> Z.of_nat (length s) < 2 ^ 32 -> is_u128 inv ->
  usn_vector_ok (rq_usn_vector rq) -> exists rp, drs_get_nc_changes inv s rq = Ok rp /\ reply_ok rp.
Proof.
  intros HF Hl Hi [_ Hu]. eexists. split; [reflexivity|]. pose proof (length_list_under_nc s (ds_name (rq_nc rq))) as Hn.
  pose proof (list_under_nc_ok s (ds_name (rq_nc rq)) HF) as Hok. set (all := list_under_nc _ _) in *.
  unfold reply_ok. cbn [c_num_objects c_num_ncs p_objects rp_utd_vector]. split_and!; try done.
  - apply as_uint_range. lia.
  - case_match; [rewrite length_take|]; lia.
  - case_match; [by apply Forall_take|done].
  - assert (utd_entry_ok (mkUtdExtEntry (usn_high_prop_update (rq_usn_vector rq)) 0 inv)) by (by split_and!).
    split_and!; [done..|]. by apply Forall_singleton.
Qed.

(** C36: GetNCChanges, from the request's bytes to the client's view of the reply:
    the handler answers, and the reply carries the objects whose DN ends in the
    naming context, sorted by DN, cut at the client's limit, with the more-data
    flag exactly when something was cut. *)
Theorem drs_get_nc_changes_spec (display : DceRpcError -> bytes) (inv : Uuid) (source : DirectorySource) (rq : ReplEntInfV3) :
  Forall object_ok source -> Z.of_nat (length source) < 2 ^ 32 -> is_u128 inv -> request_ok rq ->
  exists stub all rp,
    ndr_to_bytes (ReplEntInfV3_encode rq) = Ok stub
    /\ StronglySorted dn_le all
    /\ Permutation all (map to_repl_obj (List.filter (fun o => bool_decide (ds_name (rq_nc rq) `suffix_of` dn (obj_dn o))) source))
    /\ p_objects rp = (if c_max_objects rq =? 0 then all else take (Z.to_nat (c_max_objects rq)) all)
    /\ c_num_objects rp = Z.of_nat (length (p_objects rp))
    /\ (f_more_data rp = true <-> (length (p_objects rp) < length all)%nat)
    /\ (in_memory stub -> exists reply, drs_get_nc_changes_dispatch display inv source stub = Ok reply
         /\ (in_memory reply -> ndr_from_bytes read_changes_reply reply = Ok (3, rp))).
Proof.
  intros HF Hl Hi Hrq. destruct (from_to_bytes _ _ _ (Reads_request rq Hrq)) as (stub & Hs & Hd).
  destruct (get_nc_changes_ok inv source rq HF Hl Hi ltac:(apply Hrq)) as (rp & Hrp & Hok).
  set (all := list_under_nc source (ds_name (rq_nc rq))).
  assert (length all <= length source)%nat as Hall by apply length_list_under_nc.
  assert (is_u32 (c_max_objects rq)) as [Hmax _] by apply Hrq.
  exists stub, all, rp. split_and!; [done|apply sort_by_dn_Sorted|..].
  - unfold all, list_under_nc. rewrite sort_by_dn_Permutation. apply Permutation_map.
    erewrite List.filter_ext; [reflexivity|]. intros o. apply eq_true_iff_eq.
    unfold under_nc. rewrite orb_true_iff, !bool_decide_eq_true, ends_with_iff. unfold suffix.
    split; [intros [->|?]; [by exists (dn (obj_dn o)); rewrite app_nil_r|done]|auto].
  - injection Hrp as <-. cbn [p_objects]. fold all. destruct (Z.eqb_spec (c_max_objects rq) 0).
    + destruct (Z.gtb_spec (Z.of_nat (length all)) (Z.of_nat (length all))); [lia|done].
    + destruct (Z.gtb_spec (Z.of_nat (length all)) (c_max_objects rq)); [done|]. by rewrite take_ge by lia.
  - injection Hrp as <-. cbn [p_objects c_num_objects]. apply as_u32_len. fold all.
    destruct (_ >? _); [rewrite length_take|]; lia.
  - injection Hrp as <-. cbn [p_objects f_more_data]. fold all.
    destruct (Z.eqb_spec (c_max_objects rq) 0).
    + destruct (Z.gtb_spec (Z.of_nat (length all)) (Z.of_nat (length all))); [lia|]. split; [done|lia].
    + destruct (Z.gtb_spec (Z.of_nat (length all)) (c_max_objects rq)); [rewrite length_take|]; split; (done || lia).
  - intros Hm. unfold drs_get_nc_changes_dispatch. rewrite (Hd Hm). cbn [map_err rbind]. rewrite Hrp. cbn [rbind].
    assert (Reads read_changes_reply (write_uint32 3 >>> ReplEntInfV3Reply_encode rp) (3, rp)) as HR.
    { unfold read_changes_reply. reads_step; [by apply Reads_uint32|]. reads_step; [by apply Reads_reply|]. apply Reads_ret. }
    destruct (from_to_bytes _ _ _ HR) as (b & Hb & Hr). unfold reply_bytes. rewrite Hb. eauto.
Qed.
Definition sample_source : DirectorySource :=
  [mkObject 8 (mkDN (lit "CN=b,DC=x")) [mkAttribute 3 (lit "cn") (lit "b")] 2;
   mkObject 9 (mkDN (lit "CN=a,DC=x")) [] 3; mkObject 10 (mkDN (lit "CN=c,DC=y")) [] 4].
Lemma drs_get_nc_changes_spec_witness :
  exists stub all, ndr_to_bytes (ReplEntInfV3_encode sample_request) = Ok stub
    /\ StronglySorted dn_le all
    /\ Permutation all (map to_repl_obj (take 2 sample_source))
    /\ exists reply, drs_get_nc_changes_dispatch (fun _ => []) 2 sample_source stub = Ok reply.
Proof.
  destruct (drs_get_nc_changes_spec (fun _ => []) 2 sample_source sample_request) as (stub & all & rp & Hs & Ha & Hp & _ & _ & _ & Hd).
  - unfold object_ok, repl_obj_ok, repl_attr_ok, dsname_ok. cbn. repeat constructor; by vm_compute.
  - by vm_compute.
  - by vm_compute.
  - apply sample_request_ok.
  - exists stub, all. split_and!; [exact Hs|exact Ha|exact Hp|].
    destruct Hd as (reply & Hr & _); [|by exists reply]. vm_compute in Hs. injection Hs as <-. by vm_compute.
Defined.

(** The cursor of a request does not reach the answer: a client that follows the
    more-data flag with its advanced cursor is sent the same first objects
    again, and the objects past the limit never. *)
Theorem drs_paging_repeats (inv : Uuid) (source : DirectorySource) (rq rq' : ReplEntInfV3) (rp rp' : ReplEntInfV3Reply) :
  rq_nc rq' = rq_nc rq -> c_max_objects rq' = c_max_objects rq ->
  drs_get_nc_changes inv source rq = Ok rp -> drs_get_nc_changes inv source rq' = Ok rp' ->
  p_objects rp' = p_objects rp /\ f_more_data rp' = f_more_data rp.
Proof. intros Hn Hm [= <-] [= <-]. cbn. by rewrite Hn, Hm. Qed.
