(* ===== verification/Preg.v ===== *)
(** * Preg: the registry policy file (crate [adrian-policy-preg])

    [Registry.pol] files: the record writer, the record parser with every
    malformed input it reports, and the typed registry values. *)
From S2P Require Import Prelude Bytes Text Utf16.

(** ** Types *)

Definition REG_NONE : Z := 0.
Definition REG_SZ : Z := 1.
Definition REG_EXPAND_SZ : Z := 2.
Definition REG_BINARY : Z := 3.
Definition REG_DWORD : Z := 4.
Definition REG_DWORD_BIG_ENDIAN : Z := 5.
Definition REG_MULTI_SZ : Z := 7.
Definition REG_QWORD : Z := 11.

(** [PregError::Invalid], a constructor per message with the values it
    interpolates ([Io] is never built by the crate). *)
Inductive PregError :=
| SignatureTooShort (got : nat)
| BadSignature (got : bytes)
| ExpectedOpen (offset : nat) (got : byte)
| OpenNotUtf16 (offset : nat)
| FieldTruncated (field_idx : nat)
| FieldNotUtf16 (field_idx : nat)
| ExpectedClose (offset : nat)
| BadTypeField (field : bytes)
| BadSizeField (field : bytes)
| OddHexLength (len : nat)
| BadHexDigit (b : byte)
| DataLengthOverflow (len : nat)
| SizeMismatch (size : Z) (len : nat)
| SzOddLength (len : nat)
| SzNotUtf16
| DwordLength (len : nat)
| MultiSzOddLength (len : nat)
| MultiSzNotUtf16.

Record PregEntry := mkPregEntry {
  preg_key : bytes;
  value_name : bytes;
  value_type : Z;
  preg_value : bytes;
}.
#[global] Instance PregEntry_eq_dec : EqDecision PregEntry.
Proof. solve_decision. Defined.

(** [u32::try_from(len).unwrap_or(u32::MAX)]. *)
Definition PregEntry_size (e : PregEntry) : Z := Z.min (Z.of_nat (length (preg_value e))) u32_MAX.

Record PregFile := mkPregFile { preg_entries : list PregEntry }.

Definition PREG_SIGNATURE : bytes := lit "PReg" ++ [x00; x00].

(** ** Encoding *)

Definition encode_field_utf16 (s : bytes) : bytes := units_le (encode_utf16 s).

(** [{:02X}] of a byte. *)
Definition hex_byte (b : byte) : bytes := [digit_char (b2z b / 16); digit_char (b2z b mod 16)].
Definition hex_upper (l : bytes) : bytes := concat (map hex_byte l).

Definition semi : bytes := [x3b; x00].

Definition encode_entry (e : PregEntry) : bytes :=
  [x5b; x00] ++
  encode_field_utf16 (preg_key e) ++ semi ++
  encode_field_utf16 (value_name e) ++ semi ++
  encode_field_utf16 (print_dec (value_type e)) ++ semi ++
  encode_field_utf16 (print_dec (PregEntry_size e)) ++ semi ++
  encode_field_utf16 (hex_upper (preg_value e)) ++ semi ++
  [x5d; x00].

Definition encode_preg_file (f : PregFile) : bytes := PREG_SIGNATURE ++ concat (map encode_entry (preg_entries f)).

(** ** Decoding *)

(** The loop of [read_utf16_until_semi]: the code units before the first [;] and
    the bytes consumed, or nothing when the input ends first. *)
Fixpoint until_semi (buf : bytes) (code_units : list Z) (i : nat) : option (list Z * nat) :=
  match buf with
  | lo :: hi :: buf =>
      let u := of_le [lo; hi] in
      if u =? 59 then Some (code_units, (i + 2)%nat)
      else until_semi buf (code_units ++ [u]) (i + 2)
  | _ => None
  end.
Definition read_utf16_until_semi (buf : bytes) (field_idx : nat) : Result PregError (bytes * nat) :=
  match until_semi buf [] 0 with
  | None => Err (FieldTruncated field_idx)
  | Some (code_units, i) =>
      match from_utf16 code_units with
      | Some s => Ok (s, i)
      | None => Err (FieldNotUtf16 field_idx)
      end
  end.

Definition preg_hex_digit (b : byte) : Result PregError Z :=
  let z := b2z b in
  if (48 <=? z) && (z <=? 57) then Ok (z - 48)
  else if (97 <=? z) && (z <=? 102) then Ok (z - 97 + 10)
  else if (65 <=? z) && (z <=? 70) then Ok (z - 65 + 10)
  else Err (BadHexDigit b).

(** The digit loop; an odd rest would index out of range. *)
Fixpoint hex_pairs (l : bytes) : Result PregError bytes :=
  match l with
  | [] => Ok []
  | a :: b :: l =>
      let? hi := preg_hex_digit a in
      let? lo := preg_hex_digit b in
      let? out := hex_pairs l in
      Ok (z2b (Z.lor (as_u8 (Z.shiftl hi 4)) lo) :: out)
  | [a] => let? _ := preg_hex_digit a in Panic
  end.
Definition decode_hex (s : bytes) : Result PregError bytes :=
  if negb (Nat.even (length s)) then Err (OddHexLength (length s)) else hex_pairs s.

(** [for i in 0..5]: the five fields and the position after them. *)
Fixpoint read_fields (n i : nat) (b : bytes) (pos : nat) : Result PregError (list bytes * nat) :=
  match n with
  | O => Ok ([], pos)
  | S n =>
      let? buf := slice b pos (length b) in
      let? fn := read_utf16_until_semi buf i in
      let? rest := read_fields n (S i) b (pos + fn.2) in
      Ok (fn.1 :: rest.1, rest.2)
  end.

(** The record at [pos], whose [\[] has been seen, and the position after it. *)
Definition decode_record (b : bytes) (pos : nat) : Result PregError (PregEntry * nat) :=
  if negb (bool_decide (b !! (pos + 1)%nat = Some x00)) then Err (OpenNotUtf16 pos)
  else
    let? fp := read_fields 5 0 b (pos + 2) in
    let pos := fp.2 in
    if negb (bool_decide (b !! pos = Some x5d)) || negb (bool_decide (b !! (pos + 1)%nat = Some x00))
    then Err (ExpectedClose pos)
    else
      match fp.1 with
      | [key; name; ty; size; data] =>
          let? value_type := ok_or (from_str_radix 32 10 ty) (BadTypeField ty) in
          let? size := ok_or (from_str_radix 32 10 size) (BadSizeField size) in
          let? value := decode_hex data in
          if 2 ^ 32 <=? Z.of_nat (length value) then Err (DataLengthOverflow (length value))
          else if negb (Z.of_nat (length value) =? size) then Err (SizeMismatch size (length value))
          else Ok (mkPregEntry key name value_type value, (pos + 2)%nat)
      | _ => Panic
      end.

(** [while pos < bytes.len()]; a record is at least two bytes, so the length
    bounds the number of rounds. *)
Fixpoint decode_records (rounds : nat) (b : bytes) (pos : nat) : Result PregError (list PregEntry) :=
  if (length b <=? pos)%nat then Ok []
  else
    match rounds with
    | O => Panic
    | S rounds =>
        match b !! pos with
        | None => Panic
        | Some c =>
            if negb (bool_decide (c = x5b)) then
              if bool_decide (pos = length b - 1)%nat && bool_decide (c = x00) then Ok []
              else Err (ExpectedOpen pos c)
            else
              let? ep := decode_record b pos in
              let? es := decode_records rounds b ep.2 in
              Ok (ep.1 :: es)
        end
    end.

Definition decode_preg_file (b : bytes) : Result PregError PregFile :=
  if (length b <? length PREG_SIGNATURE)%nat then Err (SignatureTooShort (length b))
  else
    let? sig := slice b 0 (length PREG_SIGNATURE) in
    if negb (bool_decide (sig = PREG_SIGNATURE)) then Err (BadSignature sig)
    else
      let? es := decode_records (length b) b (length PREG_SIGNATURE) in
      Ok (mkPregFile es).

Definition PregFile_parse (b : bytes) : Result PregError PregFile := decode_preg_file b.
Definition PregFile_serialize (f : PregFile) : Result PregError bytes := Ok (encode_preg_file f).

(** ** Typed values *)

Definition encode_reg_sz (s : bytes) : bytes := units_le (encode_utf16 s) ++ [x00; x00].

(** [while units.last() == Some(&0) { units.pop(); }]. *)
Fixpoint strip_leading_nul (us : list Z) : list Z :=
  match us with 0 :: us => strip_leading_nul us | _ => us end.
Definition strip_trailing_nul (us : list Z) : list Z := rev (strip_leading_nul (rev us)).

Definition decode_reg_sz (b : bytes) : Result PregError bytes :=
  if negb (Nat.even (length b)) then Err (SzOddLength (length b))
  else ok_or (from_utf16 (strip_trailing_nul (le_units b))) SzNotUtf16.

Definition encode_reg_dword (v : Z) : bytes := to_le 4 v.
Definition decode_reg_dword (b : bytes) : Result PregError Z :=
  if negb (length b =? 4)%nat then Err (DwordLength (length b)) else Ok (of_le b).

Definition encode_reg_multi_sz (strings : list bytes) : bytes :=
  concat (map (fun s => units_le (encode_utf16 s) ++ [x00; x00]) strings) ++ [x00; x00].

Fixpoint multi_sz_loop (units current : list Z) : Result PregError (list bytes) :=
  match units with
  | [] => Ok []
  | u :: units =>
      if u =? 0 then
        match current with
        | [] => Ok []
        | _ =>
            let? s := ok_or (from_utf16 current) MultiSzNotUtf16 in
            let? out := multi_sz_loop units [] in
            Ok (s :: out)
        end
      else multi_sz_loop units (current ++ [u])
  end.
Definition decode_reg_multi_sz (b : bytes) : Result PregError (list bytes) :=
  if negb (Nat.even (length b)) then Err (MultiSzOddLength (length b)) else multi_sz_loop (le_units b) [].
