(* ===== verification/PregProofs.v ===== *)
(** * PregProofs: which registry policy files survive a round trip *)
From S2P Require Import Prelude Bytes Text Utf16 Preg.

(** ** ASCII fields *)

Lemma encode_utf16_ascii s : Forall (fun b => b2z b < 128) s -> encode_utf16 s = map b2z s.
Proof.
  unfold encode_utf16, chars. induction 1 as [|b s Hb _ IH]; [done|]. cbn [length chars_rounds]. unfold utf8_step.
  rewrite (proj2 (Z.ltb_lt _ _)) by done. cbn [map concat char_code]. change (drop 1 (b :: s)) with s. rewrite IH.
  unfold char_utf16. by rewrite (proj2 (Z.ltb_lt _ _)) by lia.
Qed.

(** Characters of numbers and hex data: ASCII, and never a semicolon. *)
Definition plain (b : byte) : Prop := b2z b < 128 /\ b2z b <> 59.
Lemma digit_val_plain b d : digit_val b = Some d -> plain b.
Proof. unfold digit_val, plain. repeat case_match; intros; try done; lia. Qed.
Lemma digits_val_plain radix acc s z : digits_val radix acc s = Some z -> Forall plain s.
Proof.
  revert acc. induction s as [|b s IH]; intros acc; cbn [digits_val]; [constructor|].
  unfold to_digit. destruct (digit_val b) eqn:E; [|done]. case_match; [|done]. intros Hd. constructor; eauto using digit_val_plain.
Qed.
Lemma print_dec_plain z : 0 <= z -> Forall plain (print_dec z).
Proof.
  intros Hz. apply (digits_val_plain 10 0 _ z), print_digits_val; [lia|].
  rewrite Nat2Z.inj_succ, Z2Nat.id by apply Z.log2_nonneg. destruct (Z.eq_dec z 0) as [->|]; [cbn; lia|].
  split; [done|]. apply Z.log2_spec. lia.
Qed.
Lemma digit_char_plain d : 0 <= d < 16 -> plain (digit_char d).
Proof.
  intros Hd. pose proof (digit_char_val 16 d Hd ltac:(lia)) as E. unfold to_digit in E.
  destruct (digit_val (digit_char d)) as [d'|] eqn:Ev; [|done]. by eapply digit_val_plain.
Qed.
Lemma hex_upper_plain l : Forall plain (hex_upper l).
Proof.
  induction l as [|b l IH]; [constructor|]. pose proof (b2z_range b). unfold hex_upper in *. cbn [map concat hex_byte app].
  repeat constructor; [apply digit_char_plain; euclid..|done].
Qed.

(** ** Fields *)

(** Text that a field can carry. *)
Definition field_ok (s : bytes) : Prop := utf8_valid s = true /\ 59 ∉ encode_utf16 s.
Lemma plain_field s : Forall plain s -> field_ok s.
Proof.
  intros H. assert (Forall (fun b => b2z b < 128) s) as Ha by (eapply Forall_impl; [exact H|]; by intros ? [? _]).
  split; [by apply utf8_valid_ascii|]. rewrite encode_utf16_ascii by done. intros (b & Hb & Hin)%list_elem_of_fmap.
  rewrite Forall_forall in H. destruct (H b Hin). congruence.
Qed.

Lemma until_semi_app us rest acc i :
  Forall is_u16 us -> 59 ∉ us ->
  until_semi (units_le us ++ semi ++ rest) acc i = Some (acc ++ us, (i + 2 * length us + 2)%nat).
Proof.
  intros H. revert acc i. induction H as [|u us Hu _ IH]; intros acc i Hn.
  - cbn. rewrite app_nil_r. do 2 f_equal. lia.
  - unfold units_le in *. cbn [map concat].
    destruct (to_le 2 u) as [|b0 [|b1 [|]]] eqn:E; try (apply (f_equal length) in E; rewrite length_to_le in E; done).
    cbn [app until_semi]. assert (of_le [b0; b1] = u) as Hle by (rewrite <-E; by apply of_to_le_id). cbv zeta. rewrite Hle.
    destruct (Z.eqb_spec u 59); [set_solver|]. rewrite IH by set_solver. rewrite <-app_assoc. do 2 f_equal. cbn. lia.
Qed.
Lemma until_semi_Some l acc i us j : until_semi l acc i = Some (us, j) ->
  exists us', us = acc ++ us' /\ Forall is_u16 us' /\ (59 ∉ us') /\ (i + 2 <= j <= i + length l)%nat.
Proof.
  revert acc i. induction l as [l IH] using (Nat.measure_induction _ length). intros acc i.
  destruct l as [|lo [|hi l]]; try done. cbn [until_semi]. destruct (Z.eqb_spec (of_le [lo; hi]) 59) as [E|E].
  - intros [= <- <-]. exists []. rewrite app_nil_r. split_and!; [done|constructor|set_solver|lia|cbn; lia].
  - intros (us' & -> & ? & ? & ?)%IH; [|cbn; lia]. exists (of_le [lo; hi] :: us'). rewrite <-app_assoc.
    split_and!; [done| |set_solver|lia|cbn; lia]. constructor; [exact (of_le_range [lo; hi])|done].
Qed.

Lemma read_field_ok s rest i : field_ok s ->
  read_utf16_until_semi (encode_field_utf16 s ++ semi ++ rest) i = Ok (s, length (encode_field_utf16 s ++ semi)).
Proof.
  intros [Hv Hs]. unfold read_utf16_until_semi, encode_field_utf16. rewrite until_semi_app by (done || by apply encode_utf16_units).
  cbn [app]. rewrite from_encode_utf16 by done. rewrite length_app, length_units_le. cbn [length semi]. do 2 f_equal.
Qed.
Lemma read_field_inv b i : match read_utf16_until_semi b i with
  | Ok (s, n) => field_ok s /\ (2 <= n <= length b)%nat | Err _ => True | Panic => False end.
Proof.
  unfold read_utf16_until_semi. destruct (until_semi b [] 0) as [[us n]|] eqn:E; [|done].
  apply until_semi_Some in E as (us' & -> & Hu & Hs & Hn). cbn [app]. destruct (from_utf16 us') as [s|] eqn:Ef; [|done].
  apply from_utf16_Some in Ef as [? <-]; [|done]. split; [by split|lia].
Qed.

Definition field_bytes (s : bytes) : bytes := encode_field_utf16 s ++ semi.
Lemma slice_drop {E} (l : bytes) i : (i <= length l)%nat -> @slice E l i (length l) = Ok (drop i l).
Proof. intros. rewrite slice_Ok by lia. rewrite take_ge; [done|]. by rewrite length_drop. Qed.
Lemma read_fields_ok fs p rest i : Forall field_ok fs ->
  read_fields (length fs) i (p ++ concat (map field_bytes fs) ++ rest) (length p)
  = Ok (fs, length (p ++ concat (map field_bytes fs))).
Proof.
  intros H. revert p i. induction H as [|s fs Hs _ IH]; intros p i; [cbn; by rewrite app_nil_r|].
  cbn [length read_fields map concat]. rewrite slice_drop by len. cbn [rbind]. rewrite drop_app_length.
  unfold field_bytes at 1. rewrite <-!app_assoc, read_field_ok by done. cbn [rbind fst snd].
  change (length (encode_field_utf16 s ++ semi)) with (length (field_bytes s)).
  specialize (IH (p ++ field_bytes s) (S i)). rewrite (length_app p), <-!app_assoc in IH.
  rewrite IH. cbn [rbind fst snd]. by rewrite <-?app_assoc.
Qed.
Lemma read_fields_inv n i b pos : (pos <= length b)%nat ->
  match read_fields n i b pos with
  | Ok (fs, pos') => length fs = n /\ Forall field_ok fs /\ (pos + 2 * n <= pos' <= length b)%nat
  | Err _ => True | Panic => False end.
Proof.
  revert i pos. induction n as [|n IH]; intros i pos Hp; cbn [read_fields]; [repeat split; (done || lia || constructor)|].
  rewrite slice_drop by done. cbn [rbind]. pose proof (read_field_inv (drop pos b) i) as Hf.
  destruct (read_utf16_until_semi (drop pos b) i) as [[s k]| |]; cbn [rbind fst snd]; [|done..]. destruct Hf as [Hs Hk].
  rewrite length_drop in Hk. specialize (IH (S i) (pos + k)%nat ltac:(lia)).
  destruct (read_fields n (S i) b (pos + k)) as [[fs q]| |]; cbn [rbind fst snd]; [|done..].
  destruct IH as (<- & ? & ?). split_and!; [done|by constructor|lia|lia].
Qed.

(** ** Hex data *)

Lemma hex_digit_char d : 0 <= d < 16 -> preg_hex_digit (digit_char d) = Ok d.
Proof.
  intros Hd. unfold preg_hex_digit, digit_char. destruct (Z.ltb_spec d 10); rewrite b2z_z2b_small by lia.
  - by rewrite (proj2 (Z.leb_le 48 _)), (proj2 (Z.leb_le _ 57)), Z.add_simpl_l by lia.
  - rewrite (proj2 (Z.leb_gt _ 57)), andb_false_r, (proj2 (Z.leb_gt 97 _)) by lia. cbn [andb].
    rewrite (proj2 (Z.leb_le 65 _)), (proj2 (Z.leb_le _ 70)) by lia. cbn [andb]. f_equal. lia.
Qed.
Lemma hex_join d e : 0 <= d < 16 -> 0 <= e < 16 -> Z.lor (as_u8 (Z.shiftl d 4)) e = 16 * d + e.
Proof.
  intros Hd He. rewrite as_uint_id by (rewrite Z.shiftl_mul_pow2 by lia; unfold_ints; lia).
  rewrite Z.shiftl_mul_pow2 by lia.
  assert (Z.land (d * 2 ^ 4) e = 0) as H0; [|pose proof (Z.add_lor_land (d * 2 ^ 4) e); lia].
  apply Z.bits_inj'. intros i Hi. rewrite Z.land_spec, Z.bits_0. destruct (Z.lt_ge_cases i 4).
  - by rewrite Z.mul_pow2_bits_low by lia.
  - by rewrite <-(Z.mod_small e (2 ^ 4)), Z.mod_pow2_bits_high, andb_false_r by lia.
Qed.
Lemma hex_pairs_upper l : hex_pairs (hex_upper l) = Ok l.
Proof.
  induction l as [|b l IH]; [done|]. pose proof (b2z_range b). unfold hex_upper in *. cbn [map concat hex_byte app hex_pairs].
  rewrite !hex_digit_char by euclid. cbn [rbind]. rewrite IH. cbn [rbind]. rewrite hex_join by euclid.
  do 2 f_equal. apply z2b_eq. euclid.
Qed.
Lemma length_hex_upper l : length (hex_upper l) = (2 * length l)%nat.
Proof. induction l as [|b l IH]; [done|]. unfold hex_upper in *. cbn [map concat hex_byte app length]. lia. Qed.
Lemma decode_hex_upper l : decode_hex (hex_upper l) = Ok l.
Proof. unfold decode_hex. rewrite length_hex_upper, Nat.even_even. apply hex_pairs_upper. Qed.
Lemma hex_pairs_no_panic l : Nat.even (length l) = true -> hex_pairs l <> Panic.
Proof.
  induction l as [l IH] using (Nat.measure_induction _ length). destruct l as [|a [|b l]]; try done. intros He. cbn [hex_pairs].
  assert (forall c, preg_hex_digit c <> Panic) as Hd by (intros c; unfold preg_hex_digit; by repeat case_match).
  pose proof (Hd a). pose proof (Hd b). destruct (preg_hex_digit a), (preg_hex_digit b); cbn [rbind]; try done.
  specialize (IH l ltac:(cbn; lia) He). by destruct (hex_pairs l).
Qed.
Lemma decode_hex_no_panic s : decode_hex s <> Panic.
Proof. unfold decode_hex. destruct (Nat.even (length s)) eqn:E; [by apply hex_pairs_no_panic|done]. Qed.

(** ** Records *)

(** Entries as the Rust type allows them, below 4 GiB of data, and those whose
    names a record can carry. *)
Definition entry_typed (e : PregEntry) : Prop :=
  utf8_valid (preg_key e) = true /\ utf8_valid (value_name e) = true /\ is_u32 (value_type e)
  /\ Z.of_nat (length (preg_value e)) < 2 ^ 32.
Definition no_semicolon (e : PregEntry) : Prop :=
  (59 ∉ encode_utf16 (preg_key e)) /\ (59 ∉ encode_utf16 (value_name e)).

Definition entry_fields (e : PregEntry) : list bytes :=
  [preg_key e; value_name e; print_dec (value_type e); print_dec (PregEntry_size e); hex_upper (preg_value e)].
Lemma encode_entry_fields e :
  encode_entry e = [x5b; x00] ++ concat (map field_bytes (entry_fields e)) ++ [x5d; x00].
Proof. unfold encode_entry, entry_fields, field_bytes. cbn [map concat]. by rewrite <-!app_assoc. Qed.

Lemma entry_size_Ok e : Z.of_nat (length (preg_value e)) < 2 ^ 32 -> PregEntry_size e = Z.of_nat (length (preg_value e)).
Proof. intros. unfold PregEntry_size, u32_MAX. lia. Qed.

Lemma entry_fields_ok e : entry_typed e -> no_semicolon e -> Forall field_ok (entry_fields e).
Proof.
  intros (? & ? & [? _] & Hl) [? ?]. unfold entry_fields. rewrite entry_size_Ok by done.
  repeat (apply Forall_cons; split); try done.
  - by apply plain_field, print_dec_plain.
  - apply plain_field, print_dec_plain. lia.
  - apply plain_field, hex_upper_plain.
Qed.

Lemma lookup_after (p : bytes) b l i n : length p = i -> n = i -> (p ++ b :: l) !! n = Some b.
Proof. intros <- ->. by apply list_lookup_middle. Qed.

Lemma decode_record_ok e p rest : entry_typed e -> no_semicolon e ->
  decode_record (p ++ encode_entry e ++ rest) (length p) = Ok (e, length (p ++ encode_entry e)).
Proof.
  intros Ht Hs. pose proof (entry_fields_ok e Ht Hs) as HF. destruct Ht as (_ & _ & Hty & Hl). unfold decode_record.
  rewrite encode_entry_fields. set (fs := concat (map field_bytes (entry_fields e))).
  assert (p ++ ([x5b; x00] ++ fs ++ [x5d; x00]) ++ rest = (p ++ [x5b; x00]) ++ fs ++ [x5d; x00] ++ rest) as Hb
    by (by rewrite <-!app_assoc).
  rewrite bool_decide_eq_true_2.
  2: { rewrite <-!app_assoc. cbn [app]. change (p ++ x5b :: x00 :: ?l) with (p ++ [x5b] ++ x00 :: l). rewrite app_assoc.
       eapply lookup_after; [reflexivity|]. by rewrite length_app. }
  cbn [negb]. rewrite Hb. assert (length p + 2 = length (p ++ [x5b; x00]))%nat as -> by (by rewrite length_app).
  change 5%nat with (length (entry_fields e)). unfold fs. rewrite read_fields_ok by done. fold fs. cbn [rbind fst snd].
  rewrite !bool_decide_eq_true_2.
  2: { rewrite app_assoc. cbn [app]. change (?q ++ x5d :: x00 :: ?l) with (q ++ [x5d] ++ x00 :: l). rewrite (app_assoc _ [x5d]).
       eapply lookup_after; [reflexivity|]. by rewrite (length_app _ [x5d]). }
  2: { rewrite app_assoc. by eapply lookup_after. }
  cbn [negb orb entry_fields]. unfold print_dec. rewrite from_str_print by (done || lia). cbn [ok_or rbind].
  rewrite entry_size_Ok by done. rewrite from_str_print by (split; lia). cbn [ok_or rbind]. rewrite decode_hex_upper. cbn [rbind].
  rewrite (proj2 (Z.leb_gt _ _)), Z.eqb_refl by done. cbn [negb].
  assert (length ((p ++ [x5b; x00]) ++ fs) + 2 = length (p ++ [x5b; x00] ++ fs ++ [x5d; x00]))%nat as ->
    by (rewrite !length_app; cbn [length]; lia).
  by destruct e.
Qed.

Lemma decode_record_inv b pos : (pos + 2 <= length b)%nat ->
  match decode_record b pos with
  | Ok (e, pos') => entry_typed e /\ no_semicolon e /\ (pos < pos' <= length b)%nat
  | Err _ => True | Panic => False end.
Proof.
  intros Hp. unfold decode_record. destruct (bool_decide (b !! (pos + 1)%nat = Some x00)); cbn [negb]; [|done].
  pose proof (read_fields_inv 5 0 b (pos + 2) Hp) as Hf.
  destruct (read_fields 5 0 b (pos + 2)) as [[fs q]| |]; cbn [rbind fst snd]; [|done..]. destruct Hf as (Hl & HF & Hq).
  destruct (bool_decide (b !! q = Some x5d)); [|done].
  destruct (bool_decide (b !! (q + 1)%nat = Some x00)) eqn:Eq; [|done]. cbn [negb orb].
  apply bool_decide_eq_true in Eq. apply lookup_lt_Some in Eq.
  destruct fs as [|k [|n [|ty [|sz [|d [|]]]]]]; try done. decompose_Forall.
  destruct (from_str_radix 32 10 ty) as [t|] eqn:Et; cbn [ok_or rbind]; [|done].
  destruct (from_str_radix 32 10 sz) as [z|] eqn:Ez; cbn [ok_or rbind]; [|done].
  pose proof (decode_hex_no_panic d). destruct (decode_hex d) as [v| |]; cbn [rbind]; try done.
  destruct (Z.leb_spec (2 ^ 32) (Z.of_nat (length v))); [done|].
  destruct (Z.of_nat (length v) =? z); cbn [negb]; [|done].
  assert (is_u32 t) by (by apply (from_str_radix_range 32 10 ty)).
  unfold field_ok in *. unfold entry_typed, no_semicolon. cbn. split_and!; (lia || naive_solver).
Qed.

(** ** Files *)

Lemma decode_records_ok es p tail rounds :
  Forall entry_typed es -> Forall no_semicolon es -> tail = [] \/ tail = [x00] ->
  (length (concat (map encode_entry es)) < rounds)%nat ->
  decode_records rounds (p ++ concat (map encode_entry es) ++ tail) (length p) = Ok es.
Proof.
  intros Ht Hs Htl. revert p rounds Hs. induction Ht as [|e es He _ IH]; intros p rounds Hs Hr; cbn [map concat app].
  - destruct rounds as [|rounds]; [cbn in Hr; lia|]. cbn [decode_records]. rewrite length_app.
    destruct Htl as [-> | ->]; cbn [length]; [by rewrite (proj2 (Nat.leb_le _ _)) by lia|].
    rewrite (proj2 (Nat.leb_gt _ _)), list_lookup_middle by (done || lia). rewrite (bool_decide_eq_false_2 (x00 = x5b)) by done.
    cbn [negb]. by rewrite !bool_decide_eq_true_2 by (done || lia).
  - cbn [map concat] in Hr. rewrite length_app in Hr. apply Forall_cons in Hs as [Hs1 Hs2].
    assert (encode_entry e = x5b :: x00 :: drop 2 (encode_entry e)) as He0 by done.
    assert (2 <= length (encode_entry e))%nat by (rewrite He0; cbn; lia).
    destruct rounds as [|rounds]; [lia|]. cbn [decode_records]. rewrite <-app_assoc.
    rewrite (proj2 (Nat.leb_gt _ _)) by (rewrite !length_app; lia).
    assert ((p ++ encode_entry e ++ concat (map encode_entry es) ++ tail) !! length p = Some x5b) as ->.
    { rewrite He0. cbn [app]. by rewrite list_lookup_middle. }
    rewrite bool_decide_eq_true_2 by done. cbn [negb]. rewrite decode_record_ok by done. cbn [rbind fst snd].
    specialize (IH (p ++ encode_entry e) rounds Hs2 ltac:(lia)). rewrite <-app_assoc in IH. by rewrite IH.
Qed.
Lemma decode_records_inv rounds b pos : (pos <= length b)%nat -> (length b - pos <= rounds)%nat ->
  match decode_records rounds b pos with
  | Ok es => Forall (fun e => entry_typed e /\ no_semicolon e) es | Err _ => True | Panic => False end.
Proof.
  revert pos. induction rounds as [|rounds IH]; intros pos Hp Hr; cbn [decode_records].
  - by rewrite (proj2 (Nat.leb_le _ _)) by lia.
  - destruct (Nat.leb_spec (length b) pos); [done|]. destruct (lookup_lt_is_Some_2 b pos) as [c Hc]; [lia|]. rewrite Hc.
    destruct (bool_decide (c = x5b)) eqn:Ec; cbn [negb]; [|by destruct (_ && _)].
    assert (match decode_record b pos with
            | Ok (e, pos') => entry_typed e /\ no_semicolon e /\ (pos < pos' <= length b)%nat
            | Err _ => True | Panic => False end) as Hd.
    { destruct (Nat.le_gt_cases (pos + 2) (length b)); [by apply decode_record_inv|].
      unfold decode_record. rewrite (lookup_ge_None_2 b (pos + 1)) by lia. done. }
    destruct (decode_record b pos) as [[e q]| |]; cbn [rbind fst snd]; [|done..]. destruct Hd as (? & ? & ?).
    specialize (IH q ltac:(lia) ltac:(lia)). destruct (decode_records rounds b q); cbn; [|done..]. by constructor.
Qed.

Lemma decode_preg_inv b : match decode_preg_file b with
  | Ok f => Forall (fun e => entry_typed e /\ no_semicolon e) (preg_entries f) | Err _ => True | Panic => False end.
Proof.
  unfold decode_preg_file. destruct (Nat.ltb_spec (length b) (length PREG_SIGNATURE)); [done|].
  rewrite slice_Ok by lia. cbn [rbind]. destruct (bool_decide (_ = PREG_SIGNATURE)); cbn [negb]; [|done].
  pose proof (decode_records_inv (length b) b (length PREG_SIGNATURE) ltac:(lia) ltac:(lia)) as Hd.
  by destruct (decode_records _ _ _).
Qed.
Lemma decode_encode_preg es tail :
  Forall entry_typed es -> Forall no_semicolon es -> tail = [] \/ tail = [x00] ->
  decode_preg_file (encode_preg_file (mkPregFile es) ++ tail) = Ok (mkPregFile es).
Proof.
  intros Ht Hs Htl. unfold decode_preg_file, encode_preg_file. cbn [preg_entries]. rewrite <-app_assoc.
  rewrite (proj2 (Nat.ltb_ge _ _)) by (rewrite length_app; lia). rewrite slice_Ok by (rewrite length_app; lia). cbn [rbind].
  rewrite Nat.sub_0_r. change (drop 0 ?l) with l. rewrite take_app_length, bool_decide_eq_true_2 by done. cbn [negb].
  rewrite decode_records_ok; [done..|]. rewrite !length_app. cbn. lia.
Qed.

(** Registry policy files: parsing arbitrary bytes is total; a file of entries
    with valid text survives writing and parsing exactly when no key and no
    value name contains a semicolon, also with the trailing NUL some tools add;
    so whatever was parsed once is stable. *)
Theorem preg_roundtrip_iff (es : list PregEntry) :
  Forall entry_typed es ->
  (decode_preg_file (encode_preg_file (mkPregFile es)) = Ok (mkPregFile es) <-> Forall no_semicolon es)
  /\ (Forall no_semicolon es ->
      decode_preg_file (encode_preg_file (mkPregFile es) ++ [x00]) = Ok (mkPregFile es))
  /\ (forall b, match decode_preg_file b with
                 | Ok f => decode_preg_file (encode_preg_file f) = Ok f | Err _ => True | Panic => False end).
Proof.
  intros Ht. split_and!.
  - split.
    + intros Hd. pose proof (decode_preg_inv (encode_preg_file (mkPregFile es))) as H. rewrite Hd in H. cbn in H.
      eapply Forall_impl; [exact H|]. by intros ? [_ ?].
    + intros Hs. rewrite <-(app_nil_r (encode_preg_file _)). apply decode_encode_preg; auto.
  - intros Hs. apply decode_encode_preg; auto.
  - intros b. pose proof (decode_preg_inv b) as H. destruct (decode_preg_file b) as [[fs]| |]; [|done..]. cbn in H.
    rewrite <-(app_nil_r (encode_preg_file _)). apply decode_encode_preg; auto; eapply Forall_impl; (exact H || by intros ? []).
Qed.
Definition sample_preg : list PregEntry :=
  [mkPregEntry (lit "Software\A") (lit "Enabled") REG_DWORD [x01; x00; x00; x00]; mkPregEntry (lit "K") (lit "") REG_SZ []].
Lemma preg_roundtrip_iff_witness :
  decode_preg_file (encode_preg_file (mkPregFile sample_preg) ++ [x00]) = Ok (mkPregFile sample_preg).
Proof.
  destruct (preg_roundtrip_iff sample_preg) as (_ & H & _).
  - repeat constructor; by vm_compute.
  - apply H. repeat constructor; by apply (bool_decide_unpack _).
Defined.

(** ** Typed values *)

Lemma strip_leading_id us : (forall u, head us = Some u -> u <> 0) -> strip_leading_nul us = us.
Proof. destruct us as [|[] us]; cbn; intros H; try done. by destruct (H 0 eq_refl). Qed.
Lemma strip_leading_head us : forall u, head (strip_leading_nul us) = Some u -> u <> 0.
Proof. induction us as [|[] us IH]; cbn; [done|exact IH|..]; intros u; by intros [= <-]. Qed.
Lemma strip_trailing_snoc us : strip_trailing_nul (us ++ [0]) = strip_trailing_nul us.
Proof. unfold strip_trailing_nul. by rewrite rev_app_distr. Qed.
Lemma head_rev {A} (l : list A) : head (rev l) = last l.
Proof. induction l as [|x l _] using rev_ind; [done|]. by rewrite rev_app_distr, last_snoc. Qed.
Lemma strip_trailing_iff us : strip_trailing_nul us = us <-> last us <> Some 0.
Proof.
  unfold strip_trailing_nul. split.
  - intros H Hl. apply (f_equal (@rev Z)) in H. rewrite rev_involutive in H. pose proof (strip_leading_head (rev us) 0) as Hh.
    rewrite H, head_rev in Hh. by apply Hh.
  - intros H. rewrite strip_leading_id, rev_involutive; [done|]. intros u Hu ->. apply H. by rewrite <-head_rev.
Qed.
Lemma even_units us : Nat.even (length (units_le us ++ [x00; x00])) = true.
Proof. rewrite length_app, length_units_le. cbn. rewrite Nat.add_comm. apply Nat.even_even. Qed.
Lemma units_le_app us vs : units_le (us ++ vs) = units_le us ++ units_le vs.
Proof. unfold units_le. by rewrite map_app, concat_app. Qed.
Lemma units_nul us : units_le us ++ [x00; x00] = units_le (us ++ [0]).
Proof. by rewrite units_le_app. Qed.

Lemma multi_sz_unit us rest cur : Forall is_u16 us -> 0 ∉ us ->
  multi_sz_loop (us ++ rest) cur = multi_sz_loop rest (cur ++ us).
Proof.
  intros H. revert cur. induction H as [|u us Hu _ IH]; intros cur H0; [by rewrite app_nil_r|].
  cbn [app multi_sz_loop]. destruct (Z.eqb_spec u 0); [set_solver|]. rewrite IH by set_solver. by rewrite <-app_assoc.
Qed.
Lemma multi_sz_inv us cur l : Forall is_u16 us -> Forall is_u16 cur -> 0 ∉ cur -> multi_sz_loop us cur = Ok l ->
  Forall (fun s => s <> [] /\ 0 ∉ encode_utf16 s) l.
Proof.
  intros H. revert cur l. induction H as [|u us Hu _ IH]; intros cur l Hc H0; cbn [multi_sz_loop]; [by intros [= <-]|].
  destruct (Z.eqb_spec u 0) as [->|E].
  - destruct cur as [|c cur]; [by intros [= <-]|]. intros Hd. inv_ok.
    destruct (from_utf16 (c :: cur)) as [s|] eqn:Ef; [|done]. cbn in Hr. injection Hr as <-.
    apply from_utf16_Some in Ef as [_ Ef]; [|done]. constructor; [|by apply (IH [] a0); [constructor|set_solver|]].
    rewrite Ef. split; [|done]. by intros ->.
  - apply IH; [by apply Forall_app; auto|set_solver].
Qed.
Definition multi_units (l : list bytes) : list Z := concat (map (fun s => encode_utf16 s ++ [0]) l) ++ [0].
Lemma encode_multi_units l : encode_reg_multi_sz l = units_le (multi_units l).
Proof.
  unfold encode_reg_multi_sz, multi_units. rewrite <-units_nul. f_equal. induction l as [|s l IH]; [done|].
  cbn [map concat]. by rewrite IH, units_nul, <-units_le_app.
Qed.
Lemma multi_units_u16 l : Forall (fun s => utf8_valid s = true) l -> Forall is_u16 (multi_units l).
Proof.
  intros H. unfold multi_units. apply Forall_app. split; [|by repeat constructor]. induction H as [|s l Hs _ IH]; [constructor|].
  cbn [map concat]. rewrite !Forall_app. split_and!; [by apply encode_utf16_units|by repeat constructor|done].
Qed.
Lemma multi_sz_ok l : Forall (fun s => utf8_valid s = true) l -> Forall (fun s => s <> [] /\ 0 ∉ encode_utf16 s) l ->
  multi_sz_loop (multi_units l) [] = Ok l.
Proof.
  unfold multi_units. intros H. induction H as [|s l Hv _ IH]; intros Hl; [done|]. apply Forall_cons in Hl as [[Hne H0] Hl].
  cbn [map concat]. rewrite <-!app_assoc, multi_sz_unit by (done || by apply encode_utf16_units). cbn [app multi_sz_loop Z.eqb].
  destruct (encode_utf16 s) as [|u us] eqn:E.
  { pose proof (from_encode_utf16 s Hv) as Hf. rewrite E in Hf. by injection Hf as <-. }
  rewrite <-E, from_encode_utf16 by done. cbn [ok_or rbind]. by rewrite IH.
Qed.

(** Registry values: a string value survives exactly when it does not end in
    NUL, a multi-string exactly when every string is non-empty and free of NUL
    (so an empty string silently cuts the list), and every 32-bit number
    survives. *)
Theorem reg_values_roundtrip (s : bytes) (l : list bytes) (v : Z) :
  utf8_valid s = true -> Forall (fun s => utf8_valid s = true) l -> is_u32 v ->
  (decode_reg_sz (encode_reg_sz s) = Ok s <-> last (encode_utf16 s) <> Some 0)
  /\ (decode_reg_multi_sz (encode_reg_multi_sz l) = Ok l <-> Forall (fun s => s <> [] /\ 0 ∉ encode_utf16 s) l)
  /\ decode_reg_dword (encode_reg_dword v) = Ok v.
Proof.
  intros Hs Hl Hv. split_and!.
  - unfold decode_reg_sz, encode_reg_sz. rewrite even_units, units_nul. cbn [negb].
    rewrite le_units_units_le by (apply Forall_app; split; [by apply encode_utf16_units|by repeat constructor]).
    rewrite strip_trailing_snoc, <-strip_trailing_iff. split.
    + destruct (from_utf16 _) as [s'|] eqn:E; cbn; [|done]. intros [= ->]. apply from_utf16_Some in E as [_ E]; [done|].
      unfold strip_trailing_nul. apply Forall_rev. pose proof (Forall_rev (encode_utf16_units s Hs)) as HF.
      induction HF as [|[] us' ? ? IH]; cbn; try done; by constructor.
    + intros ->. by rewrite from_encode_utf16.
  - unfold decode_reg_multi_sz. assert (Nat.even (length (encode_reg_multi_sz l)) = true) as ->.
    { rewrite encode_multi_units, length_units_le. apply Nat.even_even. }
    cbn [negb]. rewrite encode_multi_units, le_units_units_le by (by apply multi_units_u16). split; [|by apply multi_sz_ok].
    apply multi_sz_inv; [by apply multi_units_u16|constructor|set_solver].
  - unfold decode_reg_dword, encode_reg_dword. rewrite length_to_le. cbn [negb Nat.eqb]. by rewrite of_to_le_u32.
Qed.
Lemma reg_values_roundtrip_witness :
  decode_reg_sz (encode_reg_sz (lit "a")) = Ok (lit "a")
  /\ decode_reg_multi_sz (encode_reg_multi_sz [lit "a"; []; lit "b"]) <> Ok [lit "a"; []; lit "b"].
Proof.
  destruct (reg_values_roundtrip (lit "a") [lit "a"; []; lit "b"] 7) as (H1 & H2 & _); [done|by repeat constructor|done|].
  split; [by apply H1|]. intros H%H2. by apply Forall_cons in H as [_ [[H _] _]%Forall_cons].
Defined.
