(* ===== verification/PolicyCore.v ===== *)
(** * PolicyCore: policy documents and their compilers ([adrian-policy-core])

    The canonical document with its validation and rollback, the declarative
    policy and its three compilers: registry policy, property list, authselect
    profile.  The JSON library is a parameter. *)
From S2P Require Import Prelude Bytes Text Utf16 Preg.

(** ** Documents *)

Record RegistryValue := mkRegistryValue { rv_key : bytes; rv_value_name : bytes; rv_value_type : Z; rv_data : bytes }.
Record RegistryPolicy := mkRegistryPolicy { rp_values : list RegistryValue }.
Record FileSystemAclEntry := mkFileSystemAclEntry { fa_path : bytes; fa_principal_sid : bytes; fa_permission : bytes }.
Record FileSystemPolicy := mkFileSystemPolicy { fp_entries : list FileSystemAclEntry }.
Record AuditPolicy := mkAuditPolicy { ap_subcategories : list bytes }.
Record FirewallRule := mkFirewallRule {
  fr_name : bytes;
  fr_action : bytes;
  fr_direction : bytes;
  fr_protocol : bytes;
  fr_local_ports : list Z;
  fr_remote_ports : list Z;
}.
Record FirewallPolicy := mkFirewallPolicy { fw_rules : list FirewallRule }.
Record AuthenticationPolicy := mkAuthenticationPolicy { au_authselect_profile : bytes; au_smartcard_required : bool }.
Record RestrictedGroupsPolicy := mkRestrictedGroupsPolicy { rg_memberships : list (bytes * list bytes) }.
Record ScriptsPolicy := mkScriptsPolicy { sp_startup : list bytes; sp_shutdown : list bytes; sp_logon : list bytes; sp_logoff : list bytes }.
Record AppPreferencesPolicy := mkAppPreferencesPolicy { pp_payloads : list bytes }.
Inductive PolicyArea :=
| Registry (p : RegistryPolicy)
| FileSystem (p : FileSystemPolicy)
| Audit (p : AuditPolicy)
| Firewall (p : FirewallPolicy)
| Authentication (p : AuthenticationPolicy)
| RestrictedGroups (p : RestrictedGroupsPolicy)
| Scripts (p : ScriptsPolicy)
| AppPreferences (p : AppPreferencesPolicy).
Record PolicyScope := mkPolicyScope { sc_principals : list bytes; sc_ous : list bytes; sc_hosts : list bytes }.
Record PolicyDoc := mkPolicyDoc {
  pd_uuid : Z;
  pd_name : bytes;
  pd_version : bytes;
  pd_areas : list PolicyArea;
  pd_security_descriptor : option bytes;
  pd_scope : PolicyScope;
}.
#[global] Instance RegistryValue_eq_dec : EqDecision RegistryValue.
Proof. solve_decision. Defined.
#[global] Instance RegistryPolicy_eq_dec : EqDecision RegistryPolicy.
Proof. solve_decision. Defined.
#[global] Instance FileSystemAclEntry_eq_dec : EqDecision FileSystemAclEntry.
Proof. solve_decision. Defined.
#[global] Instance FileSystemPolicy_eq_dec : EqDecision FileSystemPolicy.
Proof. solve_decision. Defined.
#[global] Instance AuditPolicy_eq_dec : EqDecision AuditPolicy.
Proof. solve_decision. Defined.
#[global] Instance FirewallRule_eq_dec : EqDecision FirewallRule.
Proof. solve_decision. Defined.
#[global] Instance FirewallPolicy_eq_dec : EqDecision FirewallPolicy.
Proof. solve_decision. Defined.
#[global] Instance AuthenticationPolicy_eq_dec : EqDecision AuthenticationPolicy.
Proof. solve_decision. Defined.
#[global] Instance RestrictedGroupsPolicy_eq_dec : EqDecision RestrictedGroupsPolicy.
Proof. solve_decision. Defined.
#[global] Instance ScriptsPolicy_eq_dec : EqDecision ScriptsPolicy.
Proof. solve_decision. Defined.
#[global] Instance AppPreferencesPolicy_eq_dec : EqDecision AppPreferencesPolicy.
Proof. solve_decision. Defined.
#[global] Instance PolicyArea_eq_dec : EqDecision PolicyArea.
Proof. solve_decision. Defined.
#[global] Instance PolicyScope_eq_dec : EqDecision PolicyScope.
Proof. solve_decision. Defined.
#[global] Instance PolicyDoc_eq_dec : EqDecision PolicyDoc.
Proof. solve_decision. Defined.

(** The messages of [PolicyError::Malformed]. *)
Inductive PolicyMalformed :=
| JsonText (text : bytes)
| EmptyName
| EmptyVersion
| NotSemver (version : bytes)
| MajorNotANumber (major : bytes)
| NoAreas
| EmptyDeclarativeName
| VersionBelowOne (version : Z)
| NoSettings
| EmptyKey (i : nat)
| KeyNotDotted (i : nat) (key : bytes)
| EmptyTarget (i j : nat).
Inductive PolicyError :=
| PolicyIsMalformed (p : PolicyMalformed)
| UnsupportedArea (text : bytes)
| EmptyScope
| InvalidSd (text : bytes).

Section Json.
Context (to_string_pretty : PolicyDoc -> Result bytes bytes) (from_str : bytes -> Result bytes PolicyDoc).
Definition to_json (doc : PolicyDoc) : Result PolicyError bytes := map_err (fun e => PolicyIsMalformed (JsonText e)) (to_string_pretty doc).
Definition from_json (json : bytes) : Result PolicyError PolicyDoc := map_err (fun e => PolicyIsMalformed (JsonText e)) (from_str json).
End Json.

Definition is_empty {A} (l : list A) : bool := (length l =? 0)%nat.
Definition validate (doc : PolicyDoc) : Result PolicyError unit :=
  if is_empty (pd_name doc) then Err (PolicyIsMalformed EmptyName)
  else if is_empty (pd_version doc) then Err (PolicyIsMalformed EmptyVersion)
  else
    let vparts := split_on x2e (pd_version doc) in
    if (length vparts <? 2)%nat then Err (PolicyIsMalformed (NotSemver (pd_version doc)))
    else
      match vparts with
      | [] => Panic
      | major :: _ =>
          match from_str_radix 32 10 major with
          | None => Err (PolicyIsMalformed (MajorNotANumber major))
          | Some _ =>
              if is_empty (pd_areas doc) then Err (PolicyIsMalformed NoAreas)
              else if is_empty (sc_principals (pd_scope doc)) && is_empty (sc_ous (pd_scope doc)) && is_empty (sc_hosts (pd_scope doc))
              then Err EmptyScope
              else Ok tt
          end
      end.
Definition diff (old new : PolicyDoc) : PolicyDoc :=
  if bool_decide (old = new)
  then mkPolicyDoc (pd_uuid new) (pd_name new) (pd_version new) [] (pd_security_descriptor new) (pd_scope new)
  else old.

(** ** Declarative policies *)

Inductive PolicyValue :=
| PString (s : bytes)
| PInteger (n : Z)
| PBoolean (b : bool)
| PBytes (b : bytes)
| PStringList (l : list bytes).
Record PolicySetting := mkPolicySetting { ps_key : bytes; ps_value : PolicyValue; ps_applies_to : list bytes }.
Record DeclarativePolicy := mkDeclarativePolicy {
  dp_version : Z;
  dp_name : bytes;
  dp_description : bytes;
  dp_settings : list PolicySetting;
}.
#[global] Instance PolicyValue_eq_dec : EqDecision PolicyValue.
Proof. solve_decision. Defined.
#[global] Instance PolicySetting_eq_dec : EqDecision PolicySetting.
Proof. solve_decision. Defined.

Definition REGISTRY_PREFIX : bytes := lit "registry.".
(** The registry key and the value name of what follows the prefix. *)
Definition registry_path (rest : bytes) : bytes * bytes :=
  match rfind x5c rest with
  | Some idx => (take idx rest, drop (idx + 1) rest)
  | None => ([], rest)
  end.
(** The type and data of a value; an integer out of range is written as 0. *)
Definition registry_data (v : PolicyValue) : Z * bytes :=
  match v with
  | PString s => (REG_SZ, encode_reg_sz s)
  | PInteger n => (REG_DWORD, encode_reg_dword (if (0 <=? n) && (n <=? u32_MAX) then n else 0))
  | PBoolean b => (REG_DWORD, encode_reg_dword (if b then 1 else 0))
  | PBytes b => (REG_BINARY, b)
  | PStringList l => (REG_MULTI_SZ, encode_reg_multi_sz l)
  end.
Definition compile_setting (s : PolicySetting) : option PregEntry :=
  rest ← strip_prefix REGISTRY_PREFIX (ps_key s);
  let '(key, value_name) := registry_path rest in
  let '(ty, data) := registry_data (ps_value s) in
  Some (mkPregEntry key value_name ty data).
Definition compile_to_preg (policy : DeclarativePolicy) : PregFile := mkPregFile (omap compile_setting (dp_settings policy)).

(** ** Property lists *)

(** The escaped characters are ASCII, so the text is mapped byte by byte. *)
Definition escape_byte (c : byte) : bytes :=
  match c with
  | x26 => lit "&amp;"
  | x3c => lit "&lt;"
  | x3e => lit "&gt;"
  | x22 => lit "&quot;"
  | x27 => lit "&apos;"
  | c => [c]
  end.
Definition plist_escape (s : bytes) : bytes := concat (map escape_byte s).
Definition print_i64 (n : Z) : bytes := if n <? 0 then lit "-" ++ print_dec (- n) else print_dec n.
Definition ALPHABET : bytes := lit "ABCDEFGHIJKLMNOPQRSTUVWXYZabcdefghijklmnopqrstuvwxyz0123456789+/".
Definition sextet (n : Z) : byte := nth (Z.to_nat (Z.land n 0x3F)) ALPHABET x00.
Fixpoint base64_encode (b : bytes) : bytes :=
  match b with
  | c0 :: c1 :: c2 :: b =>
      let n := Z.lor (Z.lor (Z.shiftl (b2z c0) 16) (Z.shiftl (b2z c1) 8)) (b2z c2) in
      [sextet (Z.shiftr n 18); sextet (Z.shiftr n 12); sextet (Z.shiftr n 6); sextet n] ++ base64_encode b
  | [c0; c1] =>
      let n := Z.lor (Z.shiftl (b2z c0) 16) (Z.shiftl (b2z c1) 8) in
      [sextet (Z.shiftr n 18); sextet (Z.shiftr n 12); sextet (Z.shiftr n 6); x3d]
  | [c0] => let n := Z.shiftl (b2z c0) 16 in [sextet (Z.shiftr n 18); sextet (Z.shiftr n 12); x3d; x3d]
  | [] => []
  end.
Definition nl : bytes := [x0a].
Definition tag_line (indent : string) (open : string) (text : bytes) (close : string) : bytes := lit indent ++ lit open ++ text ++ lit close ++ nl.
Definition plist_value_xml (v : PolicyValue) : bytes :=
  match v with
  | PString s => tag_line "    " "<string>" (plist_escape s) "</string>"
  | PInteger n => tag_line "    " "<integer>" (print_i64 n) "</integer>"
  | PBoolean true => lit "    <true/>" ++ nl
  | PBoolean false => lit "    <false/>" ++ nl
  | PBytes b => tag_line "    " "<data>" (base64_encode b) "</data>"
  | PStringList l => lit "    <array>" ++ nl ++ concat (map (fun s => tag_line "      " "<string>" (plist_escape s) "</string>") l) ++ lit "    </array>" ++ nl
  end.
Definition quoted (s : string) : bytes := [x22] ++ lit s ++ [x22].
Definition plist_head : bytes :=
  lit "<?xml version=" ++ quoted "1.0" ++ lit " encoding=" ++ quoted "UTF-8" ++ lit "?>" ++ nl
  ++ lit "<!DOCTYPE plist PUBLIC " ++ quoted "-//Apple//DTD PLIST 1.0//EN" ++ lit " " ++ quoted "http://www.apple.com/DTDs/PropertyList-1.0.dtd" ++ lit ">" ++ nl
  ++ lit "<plist version=" ++ quoted "1.0" ++ lit ">" ++ nl ++ lit "<dict>" ++ nl.
Definition setting_xml (s : PolicySetting) : bytes := tag_line "    " "<key>" (plist_escape (ps_key s)) "</key>" ++ plist_value_xml (ps_value s).
Definition compile_to_configuration_profile (policy : DeclarativePolicy) : bytes :=
  plist_head
  ++ lit "  <key>PayloadDisplayName</key>" ++ nl ++ tag_line "  " "<string>" (plist_escape (dp_name policy)) "</string>"
  ++ lit "  <key>PayloadDescription</key>" ++ nl ++ tag_line "  " "<string>" (plist_escape (dp_description policy)) "</string>"
  ++ lit "  <key>PayloadVersion</key>" ++ nl ++ tag_line "  " "<integer>" (print_dec (dp_version policy)) "</integer>"
  ++ lit "  <key>Settings</key>" ++ nl ++ lit "  <dict>" ++ nl
  ++ concat (map setting_xml (dp_settings policy))
  ++ lit "  </dict>" ++ nl ++ lit "</dict>" ++ nl ++ lit "</plist>" ++ nl.

(** ** authselect *)

Definition DEFAULT_PROFILE : bytes := lit "sssd".
Definition KNOWN_PROFILES : list bytes := [lit "sssd"; lit "local"; lit "minimal"; lit "winbind"; lit "nis"].
Definition AUTHSELECT_KEY : bytes := lit "authselect.profile".
Fixpoint authselect_of (settings : list PolicySetting) : bytes :=
  match settings with
  | [] => DEFAULT_PROFILE
  | s :: settings =>
      match bool_decide (ps_key s = AUTHSELECT_KEY), ps_value s with
      | true, PString p => if bool_decide (p ∈ KNOWN_PROFILES) then p else DEFAULT_PROFILE
      | _, _ => authselect_of settings
      end
  end.
Definition compile_to_authselect_profile (policy : DeclarativePolicy) : bytes := authselect_of (dp_settings policy).

(** ** Validation of declarative policies *)

Fixpoint check_targets (i j : nat) (targets : list bytes) : Result PolicyError unit :=
  match targets with
  | [] => Ok tt
  | t :: targets => if is_empty t then Err (PolicyIsMalformed (EmptyTarget i j)) else check_targets i (S j) targets
  end.
Fixpoint check_settings (i : nat) (settings : list PolicySetting) : Result PolicyError unit :=
  match settings with
  | [] => Ok tt
  | s :: settings =>
      if is_empty (ps_key s) then Err (PolicyIsMalformed (EmptyKey i))
      else if negb (bool_decide (x2e ∈ ps_key s)) then Err (PolicyIsMalformed (KeyNotDotted i (ps_key s)))
      else let? _ := check_targets i 0 (ps_applies_to s) in check_settings (S i) settings
  end.
Definition validate_declarative (policy : DeclarativePolicy) : Result PolicyError unit :=
  if is_empty (dp_name policy) then Err (PolicyIsMalformed EmptyDeclarativeName)
  else if dp_version policy <? 1 then Err (PolicyIsMalformed (VersionBelowOne (dp_version policy)))
  else if is_empty (dp_settings policy) then Err (PolicyIsMalformed NoSettings)
  else check_settings 0 (dp_settings policy).

Example base64_example : base64_encode (lit "Man") = lit "TWFu" /\ base64_encode (lit "Ma") = lit "TWE=" /\ base64_encode (lit "M") = lit "TQ==".
Proof. repeat split; reflexivity. Qed.
