(* ===== verification/PolicySpec.v ===== *)
(** * PolicySpec: what the compiled policies mean

    Readers of the compiled formats, written from the formats, and the theorems
    that they give the policy back. *)
From S2P Require Import Prelude Bytes Text Utf16 Preg PregProofs PolicyCore.

(** ** Reading a property list *)

Definition entities : list (bytes * byte) := [(lit "&amp;", x26); (lit "&lt;", x3c); (lit "&gt;", x3e); (lit "&quot;", x22); (lit "&apos;", x27)].
Definition entity_at (s : bytes) : option (byte * bytes) :=
  head (omap (fun e => (fun rest => (e.2, rest)) <$> strip_prefix e.1 s) entities).
Fixpoint unescape (rounds : nat) (s : bytes) : bytes :=
  match rounds, s with
  | S rounds, c :: t =>
      match entity_at s with
      | Some (c, rest) => c :: unescape rounds rest
      | None => c :: unescape rounds t
      end
  | _, _ => []
  end.
(** The text before the next tag, and what follows. *)
Fixpoint text_until_tag (s : bytes) : bytes * bytes :=
  match s with
  | [] => ([], [])
  | c :: t => if bool_decide (c = x3c) then ([], s) else let '(a, b) := text_until_tag t in (c :: a, b)
  end.
Definition element (indent open close : string) (s : bytes) : option (bytes * bytes) :=
  s ← strip_prefix (lit indent ++ lit open) s;
  let '(text, s) := text_until_tag s in
  s ← strip_prefix (lit close ++ nl) s;
  Some (text, s).
Definition unescaped (t : bytes) : bytes := unescape (length t) t.
Definition read_i64 (t : bytes) : option Z :=
  match strip_prefix (lit "-") t with
  | Some t => Z.opp <$> from_str_radix 64 10 t
  | None => from_str_radix 64 10 t
  end.
Definition digit_of (c : byte) : option Z := (fun p => Z.of_nat p.1) <$> list_find (fun d => d = c) ALPHABET.
Fixpoint base64_decode (t : bytes) : option bytes :=
  match t with
  | [] => Some []
  | c0 :: c1 :: c2 :: c3 :: t =>
      a ← digit_of c0; b ← digit_of c1;
      if bool_decide (c3 = x3d) then
        if negb (is_empty t) then None
        else if bool_decide (c2 = x3d) then Some [z2b (a * 4 + b / 16)]
        else c ← digit_of c2; Some [z2b (a * 4 + b / 16); z2b (b mod 16 * 16 + c / 4)]
      else
        c ← digit_of c2; d ← digit_of c3;
        rest ← base64_decode t;
        Some (z2b (a * 4 + b / 16) :: z2b (b mod 16 * 16 + c / 4) :: z2b (c mod 4 * 64 + d) :: rest)
  | _ => None
  end.
Fixpoint read_strings (rounds : nat) (s : bytes) : option (list bytes * bytes) :=
  match strip_prefix (lit "    </array>" ++ nl) s, rounds with
  | Some s, _ => Some ([], s)
  | None, S rounds =>
      '(t, s) ← element "      " "<string>" "</string>" s;
      '(l, s) ← read_strings rounds s;
      Some (unescaped t :: l, s)
  | None, O => None
  end.
Definition read_value (s : bytes) : option (PolicyValue * bytes) :=
  match strip_prefix (lit "    <true/>" ++ nl) s, strip_prefix (lit "    <false/>" ++ nl) s, strip_prefix (lit "    <array>" ++ nl) s with
  | Some s, _, _ => Some (PBoolean true, s)
  | _, Some s, _ => Some (PBoolean false, s)
  | _, _, Some s => '(l, s) ← read_strings (length s) s; Some (PStringList l, s)
  | None, None, None =>
      match element "    " "<string>" "</string>" s, element "    " "<integer>" "</integer>" s, element "    " "<data>" "</data>" s with
      | Some (t, s), _, _ => Some (PString (unescaped t), s)
      | _, Some (t, s), _ => n ← read_i64 t; Some (PInteger n, s)
      | _, _, Some (t, s) => b ← base64_decode t; Some (PBytes b, s)
      | None, None, None => None
      end
  end.
Definition plist_tail : bytes := lit "  </dict>" ++ nl ++ lit "</dict>" ++ nl ++ lit "</plist>" ++ nl.
Fixpoint read_settings (rounds : nat) (s : bytes) : option (list (bytes * PolicyValue)) :=
  if bool_decide (s = plist_tail) then Some []
  else
    match rounds with
    | O => None
    | S rounds =>
        '(k, s) ← element "    " "<key>" "</key>" s;
        '(v, s) ← read_value s;
        cons (unescaped k, v) <$> read_settings rounds s
    end.
Definition read_profile (s : bytes) : option (bytes * bytes * Z * list (bytes * PolicyValue)) :=
  s ← strip_prefix (plist_head ++ lit "  <key>PayloadDisplayName</key>" ++ nl) s;
  '(name, s) ← element "  " "<string>" "</string>" s;
  s ← strip_prefix (lit "  <key>PayloadDescription</key>" ++ nl) s;
  '(description, s) ← element "  " "<string>" "</string>" s;
  s ← strip_prefix (lit "  <key>PayloadVersion</key>" ++ nl) s;
  '(version, s) ← element "  " "<integer>" "</integer>" s;
  s ← strip_prefix (lit "  <key>Settings</key>" ++ nl ++ lit "  <dict>" ++ nl) s;
  v ← from_str_radix 32 10 version;
  settings ← read_settings (length s) s;
  Some (unescaped name, unescaped description, v, settings).

(** ** Lemmas *)

Lemma strip_prefix_app p s : strip_prefix p (p ++ s) = Some s.
Proof. induction p as [|c p IH]; [done|]. cbn [strip_prefix app]. by rewrite decide_True. Qed.
Lemma escape_byte_cases c : (exists e, (e, c) ∈ entities /\ escape_byte c = e) \/ (escape_byte c = [c] /\ c <> x26 /\ c <> x3c).
Proof. destruct c; first [right; split; [reflexivity|split; discriminate] | left; eexists; split; [|reflexivity]; unfold entities; set_solver]. Qed.
Lemma entity_found e c s : (e, c) ∈ entities -> entity_at (e ++ s) = Some (c, s).
Proof. unfold entities. rewrite !elem_of_cons, elem_of_nil. intros [H|[H|[H|[H|[H|[]]]]]]; injection H as -> ->; reflexivity. Qed.
Lemma entity_not c s : c <> x26 -> entity_at (c :: s) = None.
Proof. intros H. assert (x26 <> c) by congruence. unfold entity_at, entities. cbn [omap list_omap fst lit]. cbn -[decide]. by rewrite !decide_False by done. Qed.
Lemma unescape_escape s rounds : (length s <= rounds)%nat -> unescape rounds (plist_escape s) = s.
Proof.
  revert rounds. induction s as [|c s IH]; intros rounds Hr; [by destruct rounds|]. cbn [length] in Hr. destruct rounds as [|rounds]; [lia|].
  unfold plist_escape in *. cbn [map concat]. destruct (escape_byte_cases c) as [(e & He & ->)|(-> & Hc & _)].
  - pose proof (entity_found e c (concat (map escape_byte s)) He) as Hf. destruct e as [|d e]; [by set_solver|]. cbn [app unescape] in *. rewrite Hf, IH by lia. done.
  - cbn [app unescape]. by rewrite (entity_not c) by done; rewrite IH by lia.
Qed.
Lemma length_escape s : (length s <= length (plist_escape s))%nat.
Proof. unfold plist_escape. induction s as [|c s IH]; [done|]. cbn [map concat length]. rewrite length_app. assert (0 < length (escape_byte c))%nat by (destruct c; cbn; lia). lia. Qed.
Lemma unescaped_escape s : unescaped (plist_escape s) = s.
Proof. apply unescape_escape, length_escape. Qed.
Lemma escape_no_tag s : x3c ∉ plist_escape s.
Proof.
  unfold plist_escape. induction s as [|c s IH]; cbn [map concat]; [set_solver|]. rewrite elem_of_app. intros [H|H]; [|by apply IH].
  destruct (escape_byte_cases c) as [(e & He & E)|(E & _ & Hc)]; rewrite E in H; [|set_solver].
  revert He H. unfold entities. rewrite !elem_of_cons, elem_of_nil. intros [X|[X|[X|[X|[X|[]]]]]]; injection X as -> ->; by apply (bool_decide_unpack _).
Qed.
Lemma text_until t s : x3c ∉ t -> text_until_tag (t ++ x3c :: s) = (t, x3c :: s).
Proof.
  induction t as [|c t IH]; intros H; cbn [app text_until_tag]; [done|]. rewrite bool_decide_eq_false_2 by set_solver. by rewrite IH by set_solver.
Qed.
Lemma element_line indent open t close s : x3c ∉ t -> (exists rest, lit close = x3c :: rest) -> element indent open close (tag_line indent open t close ++ s) = Some (t, s).
Proof.
  intros Ht [rest Hc]. unfold element, tag_line. rewrite (app_assoc (lit indent)), <-app_assoc, strip_prefix_app. cbn [mbind option_bind].
  rewrite <-!app_assoc. rewrite Hc. cbn [app]. rewrite text_until by done. cbn [mbind option_bind]. change (x3c :: rest ++ nl ++ s) with ((x3c :: rest) ++ nl ++ s).
  rewrite app_assoc, strip_prefix_app. done.
Qed.

Lemma sextet_table : Forall (fun k => digit_of (sextet (Z.of_nat k)) = Some (Z.of_nat k) /\ sextet (Z.of_nat k) <> x3d /\ sextet (Z.of_nat k) <> x3c) (seq 0 64).
Proof. apply (bool_decide_unpack _). vm_compute. exact I. Qed.
Lemma sextet_spec n : 0 <= n -> digit_of (sextet n) = Some (n mod 64) /\ sextet n <> x3d /\ sextet n <> x3c.
Proof.
  intros Hn. assert (0 <= n mod 64 < 64) as Hm by (apply Z.mod_pos_bound; lia).
  assert (sextet n = sextet (Z.of_nat (Z.to_nat (n mod 64)))) as ->.
  { unfold sextet. rewrite !(Z.land_ones _ 6) by lia. change (2 ^ 6) with 64. rewrite Z2Nat.id by lia. by rewrite Z.mod_mod by lia. }
  pose proof (proj1 (Forall_forall _ _) sextet_table (Z.to_nat (n mod 64))) as H. cbv beta in H. rewrite Z2Nat.id in H |- * by lia. apply H, elem_of_seq. lia.
Qed.
Lemma three_bytes a b c : Z.lor (Z.lor (Z.shiftl (b2z a) 16) (Z.shiftl (b2z b) 8)) (b2z c) = b2z a * 65536 + b2z b * 256 + b2z c.
Proof.
  pose proof (b2z_range a). pose proof (b2z_range b). pose proof (b2z_range c).
  replace (Z.lor (Z.shiftl (b2z a) 16) (Z.shiftl (b2z b) 8)) with (Z.shiftl (b2z a * 256 + b2z b) 8).
  - rewrite lor_shiftl by lia. lia.
  - rewrite lor_shiftl by (rewrite ?Z.shiftl_mul_pow2 by lia; lia). rewrite !Z.shiftl_mul_pow2 by lia. lia.
Qed.
Lemma sextet_shift n k : 0 <= n -> 0 <= k -> digit_of (sextet (Z.shiftr n k)) = Some (n / 2 ^ k mod 64) /\ sextet (Z.shiftr n k) <> x3d /\ sextet (Z.shiftr n k) <> x3c.
Proof. intros Hn Hk. rewrite Z.shiftr_div_pow2 by done. apply sextet_spec, Z.div_pos; [done|lia]. Qed.
Lemma list_ind3 {A} (P : list A -> Prop) : P [] -> (forall a, P [a]) -> (forall a b, P [a; b]) -> (forall a b c l, P l -> P (a :: b :: c :: l)) -> forall l, P l.
Proof.
  intros H0 H1 H2 H3 l. assert (P l /\ (forall a, P (a :: l)) /\ forall a b, P (a :: b :: l)) as [H _]; [|exact H].
  induction l as [|x l (I0 & I1 & I2)]; [by auto|]. split_and!; [apply I1|intros a; apply I2|intros a b; by apply H3].
Qed.
Lemma byte_of z b : z = b2z b -> z2b z = b.
Proof. intros ->. apply z2b_b2z. Qed.
Lemma base64_roundtrip b : base64_decode (base64_encode b) = Some b.
Proof.
  induction b as [|a|a b|a b c l IH] using list_ind3; [done|..]; cbn [base64_encode app].
  - set (n := Z.shiftl (b2z a) 16). pose proof (b2z_range a). assert (n = b2z a * 65536) as Hn by (unfold n; rewrite Z.shiftl_mul_pow2 by lia; lia).
    destruct (sextet_shift n 18) as (D1 & _); [lia..|]. destruct (sextet_shift n 12) as (D2 & _); [lia..|].
    cbn [base64_decode]. rewrite D1, D2. cbn. do 2 f_equal. apply byte_of. rewrite Hn. euclid.
  - set (n := Z.lor _ _). pose proof (b2z_range a). pose proof (b2z_range b).
    assert (n = b2z a * 65536 + b2z b * 256) as Hn by (pose proof (three_bytes a b x00) as Ht; change (b2z x00) with 0 in Ht; rewrite Z.lor_0_r in Ht; unfold n; rewrite Ht; lia).
    destruct (sextet_shift n 18) as (D1 & _); [lia..|]. destruct (sextet_shift n 12) as (D2 & _); [lia..|]. destruct (sextet_shift n 6) as (D3 & N3 & _); [lia..|].
    cbn [base64_decode]. rewrite D1, D2. cbn [mbind option_bind is_empty length Nat.eqb negb]. rewrite bool_decide_eq_true_2 by done. rewrite bool_decide_eq_false_2 by done. rewrite D3. cbn.
    f_equal. f_equal; [|f_equal]; apply byte_of; rewrite Hn; euclid.
  - set (n := Z.lor (Z.lor _ _) _). pose proof (b2z_range a). pose proof (b2z_range b). pose proof (b2z_range c). assert (n = b2z a * 65536 + b2z b * 256 + b2z c) as Hn by apply three_bytes.
    destruct (sextet_shift n 18) as (D1 & _); [lia..|]. destruct (sextet_shift n 12) as (D2 & _); [lia..|]. destruct (sextet_shift n 6) as (D3 & _); [lia..|]. destruct (sextet_spec n) as (D4 & N4 & _); [lia|].
    cbn [base64_decode]. rewrite D1, D2. cbn [mbind option_bind]. rewrite bool_decide_eq_false_2 by done. rewrite D3, D4. cbn [mbind option_bind]. rewrite IH. cbn [mbind option_bind].
    f_equal. f_equal; [|f_equal; [|f_equal]]; apply byte_of; rewrite Hn; euclid.
Qed.
Lemma base64_no_tag b : x3c ∉ base64_encode b.
Proof.
  assert (forall n, 0 <= n -> sextet n <> x3c) as Hs by (intros n Hn; apply (sextet_spec n Hn)).
  assert (forall n k, 0 <= n -> 0 <= k -> sextet (Z.shiftr n k) <> x3c) as Hk by (intros n k Hn Hk; by apply (sextet_shift n k Hn Hk)).
  induction b as [|a|a b|a b c l IH] using list_ind3; cbn [base64_encode app]; [set_solver|..].
  - assert (0 <= Z.shiftl (b2z a) 16) by (apply Z.shiftl_nonneg; pose proof (b2z_range a); lia). pose proof (Hk _ 18 ltac:(eassumption)). pose proof (Hk _ 12 ltac:(eassumption)).
    rewrite !not_elem_of_cons. split_and!; try done; [symmetry; apply Hk; lia..|set_solver].
  - assert (0 <= Z.lor (Z.shiftl (b2z a) 16) (Z.shiftl (b2z b) 8)) by (apply Z.lor_nonneg; split; apply Z.shiftl_nonneg; [pose proof (b2z_range a)|pose proof (b2z_range b)]; lia).
    rewrite !not_elem_of_cons. split_and!; try done; [symmetry; apply Hk; lia..|set_solver].
  - assert (0 <= Z.lor (Z.lor (Z.shiftl (b2z a) 16) (Z.shiftl (b2z b) 8)) (b2z c)) by (rewrite three_bytes; pose proof (b2z_range a); pose proof (b2z_range b); pose proof (b2z_range c); lia).
    rewrite !not_elem_of_cons. split_and!; try done; [symmetry; apply Hk; lia..|symmetry; by apply Hs].
Qed.

Lemma print_dec_digits z : 0 <= z -> Forall (fun b => 48 <= b2z b <= 57) (print_dec z).
Proof.
  unfold print_dec, print_radix. generalize (S (Z.to_nat (Z.log2 z))). intros fuel. revert z. induction fuel as [|fuel IH]; intros z Hz; cbn [print_digits]; [done|].
  assert (forall d, 0 <= d < 10 -> 48 <= b2z (digit_char d) <= 57) as Hd.
  { intros d H. unfold digit_char. rewrite (proj2 (Z.ltb_lt _ _)), b2z_z2b, Z.mod_small by lia. lia. }
  destruct (Z.ltb_spec z 10); [apply Forall_singleton, Hd; lia|]. apply Forall_app. split; [apply IH, Z.div_pos; lia|].
  apply Forall_singleton, Hd, Z.mod_pos_bound. lia.
Qed.
Lemma print_dec_no z c : 0 <= z -> ~ (48 <= b2z c <= 57) -> c ∉ print_dec z.
Proof. intros Hz Hc Hin. apply Hc. exact (proj1 (Forall_forall _ _) (print_dec_digits z Hz) c Hin). Qed.
Lemma i64_roundtrip n : is_i64 n -> read_i64 (print_i64 n) = Some n /\ x3c ∉ print_i64 n.
Proof.
  intros Hn. unfold is_i64, i64_MAX in Hn. unfold read_i64, print_i64. destruct (Z.ltb_spec n 0).
  - rewrite strip_prefix_app, from_str_print by (unfold is_uint; lia). cbn. split; [f_equal; lia|].
    apply not_elem_of_cons. split; [done|]. apply print_dec_no; [lia|]. cbn. lia.
  - assert (strip_prefix (lit "-") (print_dec n) = None) as ->.
    { pose proof (print_dec_no n x2d ltac:(lia) ltac:(cbn; lia)) as Hno. destruct (print_dec n) as [|c l]; [done|]. cbn [lit strip_prefix]. cbn -[decide]. rewrite decide_False; [done|]. set_solver. }
    split; [apply from_str_print; unfold is_uint; lia|]. apply print_dec_no; [lia|]. cbn. lia.
Qed.

Definition value_ok (v : PolicyValue) : Prop := match v with PInteger n => is_i64 n | _ => True end.
Lemma element_text indent close t s : (exists rest, lit close = x3c :: rest) -> forall open, element indent open close (tag_line indent open (plist_escape t) close ++ s) = Some (plist_escape t, s).
Proof. intros Hc open. apply element_line; [apply escape_no_tag|done]. Qed.
Lemma read_strings_ok l s rounds : (length l < rounds)%nat ->
  read_strings rounds (concat (map (fun t => tag_line "      " "<string>" (plist_escape t) "</string>") l) ++ (lit "    </array>" ++ nl) ++ s) = Some (l, s).
Proof.
  revert rounds. induction l as [|t l IH]; intros [|rounds] Hr; cbn [length] in Hr; try lia; cbn [map concat app].
  - cbn [read_strings]. by rewrite strip_prefix_app.
  - rewrite <-app_assoc. cbn [read_strings]. match goal with |- context [strip_prefix ?p ?x] => assert (strip_prefix p x = None) as -> by reflexivity end.
    rewrite element_text by (by eexists). cbn [mbind option_bind]. rewrite IH by lia. cbn. by rewrite unescaped_escape.
Qed.
Lemma length_concat_map {A} (f : A -> bytes) l : (forall a, 0 < length (f a))%nat -> (length l <= length (concat (map f l)))%nat.
Proof. intros Hf. induction l as [|a l IH]; [done|]. cbn [map concat length]. rewrite length_app. specialize (Hf a). lia. Qed.
Lemma read_value_ok v s : value_ok v -> read_value (plist_value_xml v ++ s) = Some (v, s).
Proof.
  intros Hv. unfold read_value. destruct v as [t|n|[|]|b|l]; cbn [plist_value_xml value_ok] in *.
  - repeat match goal with |- context [strip_prefix ?p ?x] => assert (strip_prefix p x = None) as -> by reflexivity end.
    rewrite element_text by (by eexists). by rewrite unescaped_escape.
  - repeat match goal with |- context [strip_prefix ?p ?x] => assert (strip_prefix p x = None) as -> by reflexivity end.
    destruct (i64_roundtrip n Hv) as [Hr Hn]. match goal with |- context [element "    " "<string>" ?c ?x] => assert (element "    " "<string>" c x = None) as -> by reflexivity end.
    rewrite element_line by (done || by eexists). cbn [mbind option_bind]. by rewrite Hr.
  - by rewrite strip_prefix_app.
  - match goal with |- context [strip_prefix (lit "    <true/>" ++ nl) ?x] => assert (strip_prefix (lit "    <true/>" ++ nl) x = None) as -> by reflexivity end. by rewrite strip_prefix_app.
  - repeat match goal with |- context [strip_prefix ?p ?x] => assert (strip_prefix p x = None) as -> by reflexivity end.
    match goal with |- context [element "    " "<string>" ?c ?x] => assert (element "    " "<string>" c x = None) as -> by reflexivity end.
    match goal with |- context [element "    " "<integer>" ?c ?x] => assert (element "    " "<integer>" c x = None) as -> by reflexivity end.
    rewrite element_line by (apply base64_no_tag || by eexists). cbn [mbind option_bind]. by rewrite base64_roundtrip.
  - set (body := concat (map (fun t => tag_line "      " "<string>" (plist_escape t) "</string>") l)).
    replace ((lit "    <array>" ++ nl ++ body ++ lit "    </array>" ++ nl) ++ s) with ((lit "    <array>" ++ nl) ++ (body ++ (lit "    </array>" ++ nl) ++ s)) by (by rewrite <-!app_assoc).
    do 2 (match goal with |- context [strip_prefix (lit ?p ++ nl) ?x] => assert (strip_prefix (lit p ++ nl) x = None) as -> by reflexivity end).
    rewrite strip_prefix_app. unfold body. rewrite read_strings_ok; [done|]. fold body. rewrite !length_app.
    enough (length l <= length body)%nat by (cbn; lia). apply length_concat_map. intros a. cbn. lia.
Qed.

Lemma read_settings_ok l rounds : Forall (fun s => value_ok (ps_value s)) l -> (length l <= rounds)%nat ->
  read_settings rounds (concat (map setting_xml l) ++ plist_tail) = Some (map (fun s => (ps_key s, ps_value s)) l).
Proof.
  intros H. revert rounds. induction H as [|st l Hv _ IH]; intros rounds Hr; cbn [map concat app length] in *.
  - destruct rounds; cbn [read_settings]; by rewrite bool_decide_eq_true_2 by done.
  - destruct rounds as [|rounds]; [lia|]. set (rest := concat (map setting_xml l) ++ plist_tail) in *.
    replace ((setting_xml st ++ concat (map setting_xml l)) ++ plist_tail) with (tag_line "    " "<key>" (plist_escape (ps_key st)) "</key>" ++ plist_value_xml (ps_value st) ++ rest)
      by (unfold setting_xml, rest; by rewrite <-!app_assoc).
    cbn [read_settings]. rewrite bool_decide_eq_false_2 by discriminate. rewrite element_text by (by eexists). cbn [mbind option_bind].
    rewrite read_value_ok by done. cbn [mbind option_bind]. rewrite IH by lia. cbn. by rewrite unescaped_escape.
Qed.
Lemma length_setting st : (0 < length (setting_xml st))%nat.
Proof. cbn. lia. Qed.
Lemma profile_pieces p : compile_to_configuration_profile p =
  (plist_head ++ lit "  <key>PayloadDisplayName</key>" ++ nl)
  ++ tag_line "  " "<string>" (plist_escape (dp_name p)) "</string>" ++ (lit "  <key>PayloadDescription</key>" ++ nl)
  ++ tag_line "  " "<string>" (plist_escape (dp_description p)) "</string>" ++ (lit "  <key>PayloadVersion</key>" ++ nl)
  ++ tag_line "  " "<integer>" (print_dec (dp_version p)) "</integer>" ++ (lit "  <key>Settings</key>" ++ nl ++ lit "  <dict>" ++ nl)
  ++ concat (map setting_xml (dp_settings p)) ++ plist_tail.
Proof. unfold compile_to_configuration_profile, plist_tail. by rewrite <-!app_assoc. Qed.
Lemma read_profile_ok p : is_u32 (dp_version p) -> Forall (fun s => value_ok (ps_value s)) (dp_settings p) ->
  read_profile (compile_to_configuration_profile p)
  = Some (dp_name p, dp_description p, dp_version p, map (fun s => (ps_key s, ps_value s)) (dp_settings p)).
Proof.
  intros Hv Hs. rewrite profile_pieces. unfold read_profile. set (xml := concat (map setting_xml (dp_settings p)) ++ plist_tail).
  rewrite strip_prefix_app. cbn [mbind option_bind]. rewrite element_text by (by eexists). cbn [mbind option_bind].
  rewrite strip_prefix_app. cbn [mbind option_bind]. rewrite element_text by (by eexists). cbn [mbind option_bind].
  rewrite strip_prefix_app. cbn [mbind option_bind]. rewrite element_line; [|apply print_dec_no; [unfold is_uint in Hv; lia|cbn; lia]|by eexists]. cbn [mbind option_bind].
  rewrite strip_prefix_app. cbn [mbind option_bind]. unfold print_dec. rewrite from_str_print by done. cbn [mbind option_bind].
  unfold xml. rewrite read_settings_ok; [|done|rewrite length_app; pose proof (length_concat_map setting_xml (dp_settings p) length_setting); lia].
  cbn [mbind option_bind]. by rewrite !unescaped_escape.
Qed.

(** ** Reading the registry policy *)

(** What a registry value is read back as: a boolean as 0 or 1, an integer that
    does not fit as 0. *)
Definition registry_view (v : PolicyValue) : PolicyValue :=
  match v with
  | PBoolean b => PInteger (if b then 1 else 0)
  | PInteger n => PInteger (if (0 <=? n) && (n <=? u32_MAX) then n else 0)
  | v => v
  end.
Definition read_registry (e : PregEntry) : Result PregError PolicyValue :=
  if value_type e =? REG_SZ then let? s := decode_reg_sz (preg_value e) in Ok (PString s)
  else if value_type e =? REG_DWORD then let? n := decode_reg_dword (preg_value e) in Ok (PInteger n)
  else if value_type e =? REG_MULTI_SZ then let? l := decode_reg_multi_sz (preg_value e) in Ok (PStringList l)
  else Ok (PBytes (preg_value e)).
Definition registry_value_ok (v : PolicyValue) : Prop :=
  match v with
  | PString s => utf8_valid s = true /\ last (encode_utf16 s) <> Some 0
  | PStringList l => Forall (fun s => utf8_valid s = true) l /\ Forall (fun s => s <> [] /\ 0 ∉ encode_utf16 s) l
  | _ => True
  end.
(** The registry settings with their key, value name and value. *)
Definition registry_setting (s : PolicySetting) : option (bytes * bytes * PolicyValue) :=
  rest ← strip_prefix REGISTRY_PREFIX (ps_key s); Some (registry_path rest, ps_value s).
Definition registry_ok (r : bytes * bytes * PolicyValue) : Prop :=
  let '(k, n, v) := r in
  utf8_valid k = true /\ utf8_valid n = true /\ (59 ∉ encode_utf16 k) /\ (59 ∉ encode_utf16 n) /\ registry_value_ok v
  /\ Z.of_nat (length (registry_data v).2) < 2 ^ 32.
Lemma read_registry_data k n v : registry_value_ok v ->
  read_registry (mkPregEntry k n (registry_data v).1 (registry_data v).2) = Ok (registry_view v).
Proof.
  intros Hv. unfold read_registry. cbn [value_type preg_value]. destruct v as [s|i|b|b|l]; cbn [registry_data fst snd registry_view] in *.
  - destruct Hv as [Hs Hl]. cbn [Z.eqb REG_SZ].
    destruct (reg_values_roundtrip s [] 0 Hs (Forall_nil_2 _) ltac:(done)) as (H & _ & _). by rewrite (proj2 H Hl).
  - set (m := if (0 <=? i) && (i <=? u32_MAX) then i else 0). assert (is_u32 m) as Hm by (unfold m, is_uint, u32_MAX; destruct (Z.leb_spec 0 i), (Z.leb_spec i (2 ^ 32 - 1)); cbn [andb]; lia).
    destruct (reg_values_roundtrip [] [] m eq_refl (Forall_nil_2 _) Hm) as (_ & _ & H). cbn. cbn in H. by rewrite H.
  - destruct b; reflexivity.
  - reflexivity.
  - destruct Hv as [Hl Hn]. destruct (reg_values_roundtrip [] l 0 eq_refl Hl ltac:(done)) as (_ & H & _). cbn [Z.eqb REG_MULTI_SZ REG_SZ REG_DWORD Pos.eqb]. by rewrite (proj2 H Hn).
Qed.
Lemma compile_setting_eq s : compile_setting s = (fun '(k, n, v) => mkPregEntry k n (registry_data v).1 (registry_data v).2) <$> registry_setting s.
Proof.
  unfold compile_setting, registry_setting. destruct (strip_prefix _ _) as [rest|]; [|done]. cbn. destruct (registry_path rest) as [k n]. by destruct (registry_data (ps_value s)).
Qed.
Lemma compiled_entries (l : list PolicySetting) : omap compile_setting l = (fun '(k, n, v) => mkPregEntry k n (registry_data v).1 (registry_data v).2) <$> omap registry_setting l.
Proof.
  induction l as [|s l IH]; [done|]. cbn [omap list_omap]. rewrite compile_setting_eq. destruct (registry_setting s) as [[[k n] v]|]; cbn; [by f_equal|done].
Qed.
Lemma preg_policy_ok p : Forall registry_ok (omap registry_setting (dp_settings p)) ->
  decode_preg_file (encode_preg_file (compile_to_preg p)) = Ok (compile_to_preg p)
  /\ map (fun e => (preg_key e, value_name e, read_registry e)) (preg_entries (compile_to_preg p))
     = map (fun '(k, n, v) => (k, n, Ok (registry_view v))) (omap registry_setting (dp_settings p)).
Proof.
  unfold compile_to_preg. cbn [preg_entries]. rewrite compiled_entries. generalize (omap registry_setting (dp_settings p)). intros rs Hrs. split.
  - rewrite <-(app_nil_r (encode_preg_file _)). apply decode_encode_preg; [..|by left]; apply Forall_map; (eapply Forall_impl; [exact Hrs|]); intros [[k n] v] (Hk & Hn & Sk & Sn & Hv & Hl).
    + split; [exact Hk|]. split; [exact Hn|]. split; [destruct v; split; vm_compute; congruence|exact Hl].
    + by split.
  - induction Hrs as [|[[k n] v] rs (_ & _ & _ & _ & Hv & _) _ IH]; [done|]. cbn [fmap list_fmap map]. rewrite read_registry_data by done. cbn [preg_key value_name]. f_equal. exact IH.
Qed.

(** ** Validation *)

Lemma is_empty_false {A} (l : list A) : is_empty l = false <-> l <> [].
Proof. unfold is_empty. by destruct l. Qed.
Lemma split_on_no sep s : sep ∉ s -> split_on sep s = [s].
Proof. induction s as [|c s IH]; intros H; [done|]. cbn [split_on]. rewrite decide_False by set_solver. by rewrite IH by set_solver. Qed.
Lemma split_on_dots s : (length (split_on x2e s) < 2)%nat <-> x2e ∉ s.
Proof.
  split; [|intros H; rewrite split_on_no by done; cbn; lia].
  induction s as [|c s IH]; intros H; [set_solver|]. cbn [split_on] in H. destruct (decide (c = x2e)) as [->|Hc].
  - cbn [length] in H. assert (split_on x2e s <> []) by (destruct s; cbn; repeat case_match; done). destruct (split_on x2e s); [done|cbn [length] in H; lia].
  - apply not_elem_of_cons. split; [done|]. apply IH. destruct (split_on x2e s) eqn:E; cbn [length] in *; lia.
Qed.
Definition dotted_version (v : bytes) : Prop :=
  exists major rest, v = major ++ x2e :: rest /\ (x2e ∉ major) /\ from_str_radix 32 10 major <> None.
Lemma first_part s : x2e ∈ s -> exists major rest, s = major ++ x2e :: rest /\ (x2e ∉ major) /\ head (split_on x2e s) = Some major.
Proof.
  induction s as [|c s IH]; [set_solver|]. cbn [split_on]. destruct (decide (c = x2e)) as [->|Hc]; intros H.
  - exists [], s. split; [done|]. split; [set_solver|done].
  - destruct IH as (major & rest & -> & Hm & Hh); [set_solver|]. exists (c :: major), rest. split; [done|]. split; [set_solver|].
    destruct (split_on x2e _) as [|w ws]; [done|]. injection Hh as ->. done.
Qed.
Lemma dot_split_unique a b a' b' : (x2e ∉ a) -> (x2e ∉ a') -> a ++ x2e :: b = a' ++ x2e :: b' -> a = a'.
Proof.
  revert a'. induction a as [|c a IH]; intros [|c' a'] Ha Ha' E; cbn [app] in E; [done|..].
  - injection E as E1 E2. destruct Ha'. apply elem_of_cons. by left.
  - injection E as E1 E2. destruct Ha. apply elem_of_cons. by left.
  - injection E as -> E. apply not_elem_of_cons in Ha as [_ Ha]. apply not_elem_of_cons in Ha' as [_ Ha']. f_equal. by apply IH.
Qed.
Lemma validate_iff doc : validate doc = Ok tt <->
  pd_name doc <> [] /\ dotted_version (pd_version doc) /\ pd_areas doc <> []
  /\ (sc_principals (pd_scope doc) <> [] \/ sc_ous (pd_scope doc) <> [] \/ sc_hosts (pd_scope doc) <> []).
Proof.
  unfold validate. destruct (is_empty (pd_name doc)) eqn:E1; [split; [done|intros [H _]; by apply is_empty_false in H; congruence]|]. apply is_empty_false in E1.
  destruct (is_empty (pd_version doc)) eqn:E2.
  { split; [done|]. intros (_ & (m & r & Hv & _) & _). rewrite Hv in E2. by destruct m. }
  destruct (Nat.ltb_spec (length (split_on x2e (pd_version doc))) 2) as [Hl|Hl].
  { split; [done|]. intros (_ & (m & r & Hv & _) & _). apply split_on_dots in Hl. rewrite Hv in Hl. set_solver. }
  destruct (first_part (pd_version doc)) as (major & rest & Hv & Hm & Hh).
  { destruct (decide (x2e ∈ pd_version doc)) as [|H]; [done|]. apply split_on_dots in H. lia. }
  destruct (split_on x2e (pd_version doc)) as [|w ws]; [done|]. injection Hh as ->.
  assert (dotted_version (pd_version doc) <-> from_str_radix 32 10 major <> None) as Hd.
  { split; [|intros H; by exists major, rest]. intros (m & r & Hv' & Hm' & Hn). rewrite Hv in Hv'. by rewrite (dot_split_unique major rest m r) by done. }
  rewrite Hd. destruct (from_str_radix 32 10 major) as [z|]; [|split; [done|tauto]].
  destruct (is_empty (pd_areas doc)) eqn:E3; [split; [done|intros (_ & _ & H & _); apply is_empty_false in H; congruence]|]. apply is_empty_false in E3.
  destruct (pd_scope doc) as [[|? ?] [|? ?] [|? ?]]; cbn; naive_solver.
Qed.
Lemma validate_no_panic doc : validate doc <> Panic.
Proof.
  unfold validate. repeat (case_match; try done).
Qed.
Definition setting_ok (s : PolicySetting) : Prop := (x2e ∈ ps_key s) /\ Forall (fun t => t <> []) (ps_applies_to s).
Lemma check_targets_iff i j l : check_targets i j l = Ok tt <-> Forall (fun t => t <> []) l.
Proof.
  revert j. induction l as [|t l IH]; intros j; cbn [check_targets]; [split; [constructor|done]|]. rewrite Forall_cons.
  destruct (is_empty t) eqn:E; [|apply is_empty_false in E; rewrite IH; tauto]. split; [done|]. intros [H _]. apply is_empty_false in H. congruence.
Qed.
Lemma check_settings_iff i l : check_settings i l = Ok tt <-> Forall setting_ok l.
Proof.
  revert i. induction l as [|s l IH]; intros i; cbn [check_settings]; [split; [constructor|done]|]. rewrite Forall_cons. unfold setting_ok at 1.
  destruct (is_empty (ps_key s)) eqn:E. { split; [done|]. intros [[H _] _]. unfold is_empty in E. destruct (ps_key s); [set_solver|done]. }
  case_bool_decide as Hd; cbn [negb]; [|split; [done|tauto]]. pose proof (check_targets_iff i 0 (ps_applies_to s)) as Ht.
  destruct (check_targets i 0 (ps_applies_to s)) as [[]|e|]; cbn [rbind]; [rewrite IH; tauto|split; [done|naive_solver]..].
Qed.
Lemma validate_declarative_iff p : validate_declarative p = Ok tt <->
  dp_name p <> [] /\ 1 <= dp_version p /\ dp_settings p <> [] /\ Forall setting_ok (dp_settings p).
Proof.
  unfold validate_declarative. destruct (is_empty (dp_name p)) eqn:E1; [split; [done|intros [H _]; apply is_empty_false in H; congruence]|]. apply is_empty_false in E1.
  destruct (Z.ltb_spec (dp_version p) 1); [split; [done|lia]|].
  destruct (is_empty (dp_settings p)) eqn:E3; [split; [done|intros (_ & _ & H' & _); apply is_empty_false in H'; congruence]|]. apply is_empty_false in E3.
  rewrite check_settings_iff. tauto.
Qed.
Lemma authselect_known p : compile_to_authselect_profile p ∈ KNOWN_PROFILES.
Proof.
  unfold compile_to_authselect_profile. induction (dp_settings p) as [|s l IH]; cbn [authselect_of]; [by apply (bool_decide_unpack _)|].
  case_bool_decide; [|done]. destruct (ps_value s); try done. case_bool_decide; [done|by apply (bool_decide_unpack _)].
Qed.

(** ** What the policy crate promises *)

(** Property lists: a reader of the format gives back the name, the
    description, the version and every setting of a declarative policy, whatever
    characters its texts hold, whatever bytes its values hold; so no text can
    forge an element, and the base64 of the crate is the one of RFC 4648. *)
Theorem plist_roundtrip (p : DeclarativePolicy) :
  is_u32 (dp_version p) -> Forall (fun s => value_ok (ps_value s)) (dp_settings p) ->
  read_profile (compile_to_configuration_profile p)
  = Some (dp_name p, dp_description p, dp_version p, map (fun s => (ps_key s, ps_value s)) (dp_settings p))
  /\ (forall b, base64_decode (base64_encode b) = Some b).
Proof. intros Hv Hs. split; [by apply read_profile_ok|exact base64_roundtrip]. Qed.
Definition sample_policy : DeclarativePolicy :=
  mkDeclarativePolicy 3 (lit "base & <more>") (lit "desc")
    [mkPolicySetting (lit "registry.Software\Adrian\Enabled") (PBoolean true) []; mkPolicySetting (lit "firewall.rules") (PStringList [lit "a<b"; []]) [];
     mkPolicySetting (lit "registry.Software\Adrian\Level") (PInteger (-5)) [lit "OU=x"]; mkPolicySetting (lit "registry.Blob") (PBytes [x00; xff; x10; x3c]) []].
Lemma plist_roundtrip_witness :
  read_profile (compile_to_configuration_profile sample_policy)
  = Some (lit "base & <more>", lit "desc", 3, map (fun s => (ps_key s, ps_value s)) (dp_settings sample_policy)).
Proof. apply (plist_roundtrip sample_policy); [split; vm_compute; congruence|]. repeat constructor; vm_compute; congruence. Defined.

(** From a declarative policy to registry values: the registry settings,
    and only they, become the records of a file that parses back, in order, and
    each record is read as the setting's value; a boolean is read as 0 or 1, and
    an integer that does not fit in 32 bits as 0. *)
Theorem policy_registry_roundtrip (p : DeclarativePolicy) : Forall registry_ok (omap registry_setting (dp_settings p)) ->
  decode_preg_file (encode_preg_file (compile_to_preg p)) = Ok (compile_to_preg p)
  /\ map (fun e => (preg_key e, value_name e, read_registry e)) (preg_entries (compile_to_preg p))
     = map (fun '(k, n, v) => (k, n, Ok (registry_view v))) (omap registry_setting (dp_settings p)).
Proof. apply preg_policy_ok. Qed.
Lemma policy_registry_roundtrip_witness :
  map (fun e => (preg_key e, value_name e, read_registry e)) (preg_entries (compile_to_preg sample_policy))
  = [(lit "Software\Adrian", lit "Enabled", Ok (PInteger 1)); (lit "Software\Adrian", lit "Level", Ok (PInteger 0)); ([], lit "Blob", Ok (PBytes [x00; xff; x10; x3c]))].
Proof.
  destruct (policy_registry_roundtrip sample_policy) as [_ H].
  - repeat constructor; (reflexivity || by apply (bool_decide_unpack _)).
  - rewrite H. reflexivity.
Defined.

(** Validation accepts exactly the documents with a name, a version that
    starts with a 32-bit number and a dot, an area and a scope, and exactly the
    declarative policies with a name, a version of at least 1 and settings whose
    keys have a dot and whose targets are not empty; it does not panic.  The
    inverse of a change is the old document; the inverse of no change has no area,
    so it is never valid itself. *)
Theorem policy_validation :
  (forall doc, validate doc <> Panic /\ (validate doc = Ok tt <->
     pd_name doc <> [] /\ dotted_version (pd_version doc) /\ pd_areas doc <> []
     /\ (sc_principals (pd_scope doc) <> [] \/ sc_ous (pd_scope doc) <> [] \/ sc_hosts (pd_scope doc) <> [])))
  /\ (forall p, validate_declarative p = Ok tt <-> dp_name p <> [] /\ 1 <= dp_version p /\ dp_settings p <> [] /\ Forall setting_ok (dp_settings p))
  /\ (forall old new, old <> new -> diff old new = old) /\ (forall doc, validate (diff doc doc) <> Ok tt).
Proof.
  split_and!; [intros doc; split; [apply validate_no_panic|apply validate_iff]|apply validate_declarative_iff| |].
  - intros old new H. unfold diff. by rewrite bool_decide_eq_false_2.
  - intros doc H. apply validate_iff in H as (_ & _ & H & _). unfold diff in H. rewrite bool_decide_eq_true_2 in H by done. by apply H.
Qed.
