(* ===== verification/Smb.v ===== *)
(** * Smb: the SMB2 wire structures (crate [adrian-smb-core])

    The cursor reader and the append-only writer, the message header, the
    negotiate contexts, every request and response with its encoder and decoder,
    the transform header, the pre-authentication hash and the NetBIOS frame.
    Buffer offsets on the wire are absolute, so a decoder receives the whole
    message and the size of the header in front of the body.

    A slice is shorter than [2^63] bytes, every length read from the wire is
    below [2^32] and [header_size] is 64 at every call, so no sum of positions
    overflows; positions are natural numbers. *)
From S2P Require Import Prelude Bytes Text StorageKeys Utf16.

(** ** Constants *)

Definition STATUS_SUCCESS : Z := 0x00000000.
Definition STATUS_INVALID_PARAMETER : Z := 0xC000000D.
Definition STATUS_INVALID_DEVICE_REQUEST : Z := 0xC0000010.
Definition STATUS_NO_SUCH_FILE : Z := 0xC000000F.
Definition STATUS_END_OF_FILE : Z := 0xC0000011.
Definition STATUS_MORE_PROCESSING_REQUIRED : Z := 0xC0000016.
Definition STATUS_ACCESS_DENIED : Z := 0xC0000022.
Definition STATUS_OBJECT_NAME_NOT_FOUND : Z := 0xC0000034.
Definition STATUS_OBJECT_NAME_COLLISION : Z := 0xC0000035.
Definition STATUS_LOGON_FAILURE : Z := 0xC000006D.
Definition STATUS_BAD_NETWORK_NAME : Z := 0xC00000CC.
Definition STATUS_FILE_CLOSED : Z := 0xC0000128.

Definition SMB2_MAGIC : bytes := xfe :: lit "SMB".
Definition SMB1_MAGIC : bytes := xff :: lit "SMB".
Definition SMB2_TRANSFORM_MAGIC : bytes := xfd :: lit "SMB".
Definition SMB2_HEADER_SIZE : nat := 64.
Definition SMB2_TRANSFORM_HEADER_SIZE : nat := 52.
Definition MAX_SMB2_MESSAGE_SIZE : Z := Z.shiftl 1 20.

(** [mod command]. *)
Definition command_NEGOTIATE : Z := 0x0000.
Definition command_SESSION_SETUP : Z := 0x0001.
Definition command_LOGOFF : Z := 0x0002.
Definition command_TREE_CONNECT : Z := 0x0003.
Definition command_TREE_DISCONNECT : Z := 0x0004.
Definition command_CREATE : Z := 0x0005.
Definition command_CLOSE : Z := 0x0006.
Definition command_READ : Z := 0x0008.
Definition command_WRITE : Z := 0x0009.
Definition command_ECHO : Z := 0x000D.
Definition command_TRANSFORM : Z := 0x00F2.

(** [mod flags]. *)
Definition SMB2_FLAGS_RESPONSE : Z := 0x00000001.
Definition SMB2_FLAGS_SIGNED : Z := 0x00000008.

(** [mod dialect_code]. *)
Definition SMB202 : Z := 0x0202.
Definition SMB210 : Z := 0x0210.
Definition SMB300 : Z := 0x0300.
Definition SMB302 : Z := 0x0302.
Definition SMB311 : Z := 0x0311.

(** [mod security_mode], [mod capabilities]. *)
Definition SIGNING_ENABLED : Z := 0x0001.
Definition SIGNING_REQUIRED : Z := 0x0002.
Definition capabilities_LARGE_MTU : Z := 0x00000004.
Definition capabilities_ENCRYPTION : Z := 0x00000040.

(** [mod negotiate_context_type], [mod preauth_hash_algo], [mod cipher],
    [mod signing_algo], [mod share_type]. *)
Definition context_PREAUTH_INTEGRITY : Z := 0x0001.
Definition context_ENCRYPTION : Z := 0x0002.
Definition context_SIGNING : Z := 0x0007.
Definition SHA512 : Z := 0x0001.
Definition AES_128_GCM : Z := 0x0002.
Definition AES_256_GCM : Z := 0x0004.
Definition HMAC_SHA256 : Z := 0x0000.
Definition AES_GMAC : Z := 0x0002.
Definition share_type_DISK : Z := 0x01.

Inductive Dialect := Smb202 | Smb210 | Smb300 | Smb302 | Smb311.
#[global] Instance Dialect_eq_dec : EqDecision Dialect.
Proof. solve_decision. Defined.
Definition Dialect_to_wire (d : Dialect) : Z :=
  match d with Smb202 => SMB202 | Smb210 => SMB210 | Smb300 => SMB300 | Smb302 => SMB302 | Smb311 => SMB311 end.
Definition Dialect_from_wire (v : Z) : option Dialect :=
  if v =? SMB202 then Some Smb202 else if v =? SMB210 then Some Smb210 else if v =? SMB300 then Some Smb300
  else if v =? SMB302 then Some Smb302 else if v =? SMB311 then Some Smb311 else None.
Definition is_311 (d : Dialect) : bool := match d with Smb311 => true | _ => false end.

Inductive Command :=
| CNegotiate | CSessionSetup | CLogoff | CTreeConnect | CTreeDisconnect | CCreate | CClose | CRead | CWrite | CEcho
| CTransform.
#[global] Instance Command_eq_dec : EqDecision Command.
Proof. solve_decision. Defined.
Definition Command_to_wire (c : Command) : Z :=
  match c with
  | CNegotiate => 0x0000 | CSessionSetup => 0x0001 | CLogoff => 0x0002 | CTreeConnect => 0x0003
  | CTreeDisconnect => 0x0004 | CCreate => 0x0005 | CClose => 0x0006 | CRead => 0x0008 | CWrite => 0x0009
  | CEcho => 0x000D | CTransform => 0x00F2
  end.
Definition Command_from_wire (v : Z) : option Command :=
  match v with
  | 0x0000 => Some CNegotiate | 0x0001 => Some CSessionSetup | 0x0002 => Some CLogoff | 0x0003 => Some CTreeConnect
  | 0x0004 => Some CTreeDisconnect | 0x0005 => Some CCreate | 0x0006 => Some CClose | 0x0008 => Some CRead
  | 0x0009 => Some CWrite | 0x000D => Some CEcho | 0x00F2 => Some CTransform
  | _ => None
  end.

(** ** Errors: a message as the values it interpolates *)

(** The structure a decoder was reading. *)
Inductive Structure :=
| SNegotiateRequest | SNegotiateResponse | SSessionSetupRequest | SSessionSetupResponse
| STreeConnectRequest | STreeConnectResponse | SCreateRequest | SCreateResponse | SReadRequest | SReadResponse
| SWriteRequest | SWriteResponse | SCloseRequest | SCloseResponse | SLogoffRequest | SLogoffResponse
| SEchoRequest | SEchoResponse.

Inductive SmbProblem :=
| SeekPastEnd (pos len : nat)
| EofInteger (width : nat)
| EofBytes (n pos : nat)
| HeaderTooShort (len : nat)
| BadMagic (got : bytes)
| BadHeaderStructureSize (got : Z)
| ContextTruncated
| TooShort (s : Structure)
| BadStructureSize (s : Structure) (got : Z)
| UnknownDialect (code : Z)
| BadContextOffset (off : Z)
| BufferTruncated (s : Structure)
| TransformTooShort (len : nat)
| BadTransformMagic (got : bytes).

(** [Io], which only wraps errors of the operating system, is left out. *)
Inductive SmbError :=
| Malformed (p : SmbProblem)
| Status (code : Z)
| DialectUnsupported
| Smb1Refused
| Encryption (msg : bytes)
| Integrity (msg : bytes).

(** ** The reader *)

Record Cursor := mkCursor { cur_buf : bytes; cur_pos : nat }.
Definition Reader (A : Type) : Type := Cursor -> Result SmbError (A * Cursor).

Definition ret {A} (a : A) : Reader A := fun r => Ok (a, r).
Definition fail {A} (p : SmbProblem) : Reader A := fun _ => Err (Malformed p).
Definition bind {A B} (d : Reader A) (k : A -> Reader B) : Reader B := fun r => let? ar := d r in k ar.1 ar.2.
Definition lift {A} (v : Result SmbError A) : Reader A := fun r => let? a := v in Ok (a, r).
Notation "'let*' x := d 'in' k" := (bind d (fun x => k))
  (at level 10, x pattern, d at level 200, k at level 200, format "'[v' 'let*'  x  :=  d  'in' '/' k ']'").

Definition Reader_new (buf : bytes) : Cursor := mkCursor buf 0.
Definition Reader_at (buf : bytes) (pos : nat) : Result SmbError Cursor :=
  if (length buf <? pos)%nat then Err (Malformed (SeekPastEnd pos (length buf))) else Ok (mkCursor buf pos).
Definition Reader_remaining (r : Cursor) : nat := (length (cur_buf r) - cur_pos r)%nat.
Definition Reader_seek (pos : nat) : Reader unit := fun r =>
  if (length (cur_buf r) <? pos)%nat then Err (Malformed (SeekPastEnd pos (length (cur_buf r))))
  else Ok (tt, mkCursor (cur_buf r) pos).

(** [n] bytes at the cursor, or the error [e]. *)
Definition read_raw (n : nat) (e : nat -> SmbProblem) : Reader bytes := fun r =>
  if (length (cur_buf r) <? cur_pos r + n)%nat then Err (Malformed (e (cur_pos r)))
  else
    let? v := slice (cur_buf r) (cur_pos r) (cur_pos r + n) in
    Ok (v, mkCursor (cur_buf r) (cur_pos r + n)).
Definition read_int (n : nat) : Reader Z := let* v := read_raw n (fun _ => EofInteger n) in ret (of_le v).
Definition read_u8 : Reader Z := read_int 1.
Definition read_u16 : Reader Z := read_int 2.
Definition read_u32 : Reader Z := read_int 4.
Definition read_u64 : Reader Z := read_int 8.
Definition Reader_read_bytes (n : nat) : Reader bytes := read_raw n (EofBytes n).
Definition Reader_read_uuid : Reader Uuid := let* b := Reader_read_bytes 16 in ret (uuid_from_bytes b).
Definition read_signature : Reader bytes := Reader_read_bytes 16.

Record FileId := mkFileId { fid_persistent : Z; fid_volatile : Z }.
#[global] Instance FileId_eq_dec : EqDecision FileId.
Proof. solve_decision. Defined.
Definition FileId_ZERO : FileId := mkFileId 0 0.
Definition FileId_is_zero (f : FileId) : bool := (fid_persistent f =? 0) && (fid_volatile f =? 0).

Definition read_file_id : Reader FileId :=
  let* persistent := read_u64 in
  let* volatile_ := read_u64 in
  ret (mkFileId persistent volatile_).

(** ** The writer: the bytes written so far, extended *)

Definition Write : Type := bytes -> bytes.
Definition and_then (f g : Write) : Write := fun out => g (f out).
Notation "f >>> g" := (and_then f g) (at level 62, right associativity).

Definition write_raw (v : bytes) : Write := fun out => out ++ v.
Definition write_u8 (v : Z) : Write := write_raw [z2b v].
Definition write_u16 (v : Z) : Write := write_raw (to_le 2 v).
Definition write_u32 (v : Z) : Write := write_raw (to_le 4 v).
Definition write_u64 (v : Z) : Write := write_raw (to_le 8 v).
Definition Writer_write_uuid (u : Uuid) : Write := write_raw (uuid_as_bytes u).
Definition write_file_id (f : FileId) : Write := write_u64 (fid_persistent f) >>> write_u64 (fid_volatile f).
Definition Writer_pad (n : nat) : Write := write_raw (replicate n x00).

(** Every caller aligns to 8, so the assertion on the argument holds. *)
Definition Writer_align (alignment : Z) : Write := fun out =>
  if alignment <=? 1 then out
  else
    let mask := alignment - 1 in
    let rem := Z.land (Z.of_nat (length out)) mask in
    if negb (rem =? 0) then Writer_pad (Z.to_nat (alignment - rem)) out else out.

(** ** Strings *)

Definition encode_utf16le (s : bytes) : bytes := units_le (encode_utf16 s).
Definition decode_utf16le (b : bytes) : bytes :=
  if negb (Nat.even (length b)) then from_utf8_lossy b else from_utf16_lossy (le_units b).

(** ** The header *)

Record Smb2Header := mkSmb2Header {
  h_credit_charge : Z;
  h_status : Z;
  h_command : Z;
  h_credits : Z;
  h_flags : Z;
  h_next_command : Z;
  h_message_id : Z;
  h_process_id : Z;
  h_tree_id : Z;
  h_session_id : Z;
  h_signature : bytes;
}.
#[global] Instance Smb2Header_eq_dec : EqDecision Smb2Header.
Proof. solve_decision. Defined.

Definition Smb2Header_new_request (command message_id : Z) : Smb2Header :=
  mkSmb2Header 1 0 command 1 0 0 message_id 0 0 0 (replicate 16 x00).
Definition Smb2Header_new_response (req : Smb2Header) : Smb2Header :=
  mkSmb2Header 1 0 (h_command req) 1 SMB2_FLAGS_RESPONSE 0 (h_message_id req) (h_process_id req) (h_tree_id req)
    (h_session_id req) (replicate 16 x00).
Definition is_response (h : Smb2Header) : bool := negb (Z.land (h_flags h) SMB2_FLAGS_RESPONSE =? 0).
Definition is_signed (h : Smb2Header) : bool := negb (Z.land (h_flags h) SMB2_FLAGS_SIGNED =? 0).

(** Assignments to the fields the callers set. *)
Definition set_credit_charge (v : Z) (h : Smb2Header) : Smb2Header :=
  mkSmb2Header v (h_status h) (h_command h) (h_credits h) (h_flags h) (h_next_command h) (h_message_id h)
    (h_process_id h) (h_tree_id h) (h_session_id h) (h_signature h).
Definition set_status (v : Z) (h : Smb2Header) : Smb2Header :=
  mkSmb2Header (h_credit_charge h) v (h_command h) (h_credits h) (h_flags h) (h_next_command h) (h_message_id h)
    (h_process_id h) (h_tree_id h) (h_session_id h) (h_signature h).
Definition set_tree_id (v : Z) (h : Smb2Header) : Smb2Header :=
  mkSmb2Header (h_credit_charge h) (h_status h) (h_command h) (h_credits h) (h_flags h) (h_next_command h)
    (h_message_id h) (h_process_id h) v (h_session_id h) (h_signature h).
Definition set_session_id (v : Z) (h : Smb2Header) : Smb2Header :=
  mkSmb2Header (h_credit_charge h) (h_status h) (h_command h) (h_credits h) (h_flags h) (h_next_command h)
    (h_message_id h) (h_process_id h) (h_tree_id h) v (h_signature h).

Definition Smb2Header_encode (h : Smb2Header) : Write :=
  write_raw SMB2_MAGIC >>>
  write_u16 (as_u16 (Z.of_nat SMB2_HEADER_SIZE)) >>>
  write_u16 (h_credit_charge h) >>>
  write_u32 (h_status h) >>>
  write_u16 (h_command h) >>>
  write_u16 (h_credits h) >>>
  write_u32 (h_flags h) >>>
  write_u32 (h_next_command h) >>>
  write_u64 (h_message_id h) >>>
  write_u32 (h_process_id h) >>>
  write_u32 (h_tree_id h) >>>
  write_u64 (h_session_id h) >>>
  write_raw (h_signature h).

Definition header_fields : Reader Smb2Header :=
  let* _ := Reader_seek 4 in
  let* structure_size := read_u16 in
  if negb (structure_size =? as_u16 (Z.of_nat SMB2_HEADER_SIZE)) then fail (BadHeaderStructureSize structure_size)
  else
    let* credit_charge := read_u16 in
    let* status := read_u32 in
    let* command := read_u16 in
    let* credits := read_u16 in
    let* flags_v := read_u32 in
    let* next_command := read_u32 in
    let* message_id := read_u64 in
    let* process_id := read_u32 in
    let* tree_id := read_u32 in
    let* session_id := read_u64 in
    let* signature := read_signature in
    ret (mkSmb2Header credit_charge status command credits flags_v next_command message_id process_id tree_id
           session_id signature).

Definition Smb2Header_decode (buf : bytes) : Result SmbError Smb2Header :=
  if (length buf <? SMB2_HEADER_SIZE)%nat then Err (Malformed (HeaderTooShort (length buf)))
  else
    let? magic := slice buf 0 4 in
    if negb (bool_decide (magic = SMB2_MAGIC)) then
      if bool_decide (magic = SMB1_MAGIC) then Err Smb1Refused else Err (Malformed (BadMagic magic))
    else
      let? hr := header_fields (Reader_new buf) in
      Ok hr.1.
