(* ===== verification/SmbMessages.v ===== *)
(** * SmbMessages: the SMB2 requests and responses (crate [adrian-smb-core])

    Negotiate contexts, every request and response structure with its encoder
    and decoder, the transform header, the pre-authentication hash and the
    NetBIOS session frame. *)
From S2P Require Import Prelude Bytes Text StorageKeys Utf16 Smb.

(** The common start of every body decoder: the length check, the reader at the
    end of the header, the StructureSize check. *)
Definition decode_body {A} (s : Structure) (fixed : nat) (structure_size : Z) (buf : bytes) (header_size : nat)
    (d : Reader A) : Result SmbError A :=
  if (length buf <? header_size + fixed)%nat then Err (Malformed (TooShort s))
  else
    let? r := Reader_at buf header_size in
    let? ar := (let* size := read_u16 in
                if negb (size =? structure_size) then fail (BadStructureSize s size) else d) r in
    Ok ar.1.

(** A buffer at an absolute offset; an empty one is not looked up. *)
Definition read_buffer (s : Structure) (buf : bytes) (off len : Z) : Reader bytes :=
  if len =? 0 then ret []
  else if Z.of_nat (length buf) <? off + len then fail (BufferTruncated s)
  else lift (slice buf (Z.to_nat off) (Z.to_nat (off + len))).

(** ** Negotiate contexts *)

Record NegotiateContext := mkContext { context_type : Z; ctx_data : bytes }.
#[global] Instance NegotiateContext_eq_dec : EqDecision NegotiateContext.
Proof. solve_decision. Defined.

Definition preauth_integrity (hash_algos : list Z) (salt : bytes) : NegotiateContext :=
  mkContext context_PREAUTH_INTEGRITY
    (to_le 2 (as_u16 (Z.of_nat (length hash_algos))) ++ to_le 2 (as_u16 (Z.of_nat (length salt)))
     ++ units_le hash_algos ++ salt).
Definition encryption (ciphers : list Z) : NegotiateContext :=
  mkContext context_ENCRYPTION (to_le 2 (as_u16 (Z.of_nat (length ciphers))) ++ units_le ciphers).
Definition signing (algos : list Z) : NegotiateContext :=
  mkContext context_SIGNING (to_le 2 (as_u16 (Z.of_nat (length algos))) ++ units_le algos).

(** [u16::from_le_bytes] of the two bytes at an index. *)
Definition u16_at (l : bytes) (i : nat) : Result SmbError Z := let? b := slice l i (i + 2) in Ok (of_le b).
Fixpoint u16s_at (n : nat) (l : bytes) (i : nat) : Result SmbError (list Z) :=
  match n with
  | O => Ok []
  | S n => let? v := u16_at l i in let? vs := u16s_at n l (i + 2) in Ok (v :: vs)
  end.

Definition parse_preauth (c : NegotiateContext) : Result SmbError (option (list Z * bytes)) :=
  if negb (context_type c =? context_PREAUTH_INTEGRITY) then Ok None
  else if (length (ctx_data c) <? 4)%nat then Ok None
  else
    let? hash_count := u16_at (ctx_data c) 0 in
    let? salt_len := u16_at (ctx_data c) 2 in
    let need := 4 + hash_count * 2 + salt_len in
    if Z.of_nat (length (ctx_data c)) <? need then Ok None
    else
      let? algos := u16s_at (Z.to_nat hash_count) (ctx_data c) 4 in
      let? salt := slice (ctx_data c) (Z.to_nat (4 + hash_count * 2)) (Z.to_nat need) in
      Ok (Some (algos, salt)).

Definition parse_encryption (c : NegotiateContext) : Result SmbError (option (list Z)) :=
  if negb (context_type c =? context_ENCRYPTION) then Ok None
  else if (length (ctx_data c) <? 2)%nat then Ok None
  else
    let? n := u16_at (ctx_data c) 0 in
    if Z.of_nat (length (ctx_data c)) <? 2 + n * 2 then Ok None
    else
      let? out := u16s_at (Z.to_nat n) (ctx_data c) 2 in
      Ok (Some out).

Definition encode_context (c : NegotiateContext) : Write :=
  write_u16 (context_type c) >>>
  write_u16 (as_u16 (Z.of_nat (length (ctx_data c)))) >>>
  write_u32 0 >>>
  write_raw (ctx_data c).
Fixpoint encode_contexts (first : bool) (ctxs : list NegotiateContext) : Write := fun out =>
  match ctxs with
  | [] => out
  | c :: ctxs => encode_contexts false ctxs (encode_context c (if first then out else Writer_align 8 out))
  end.
Definition encode_all (ctxs : list NegotiateContext) : Write := encode_contexts true ctxs.

(** [while pos + 8 <= buf.len()]; a round moves at least eight bytes, so the
    length bounds the number of rounds. *)
Fixpoint decode_contexts (rounds : nat) (buf : bytes) (pos : nat) : Result SmbError (list NegotiateContext) :=
  if (length buf <? pos + 8)%nat then Ok []
  else
    match rounds with
    | O => Panic
    | S rounds =>
        let? context_type := u16_at buf pos in
        let? data_len := u16_at buf (pos + 2) in
        let data_start := (pos + 8)%nat in
        if Z.of_nat (length buf) <? Z.of_nat data_start + data_len then Err (Malformed ContextTruncated)
        else
          let next := (data_start + Z.to_nat data_len)%nat in
          let? data := slice buf data_start next in
          let rem := (next mod 8)%nat in
          let? rest := decode_contexts rounds buf (if (rem =? 0)%nat then next else next + (8 - rem)) in
          Ok (mkContext context_type data :: rest)
    end.
Definition decode_all (buf : bytes) : Result SmbError (list NegotiateContext) := decode_contexts (length buf) buf 0.

(** The end of both negotiate decoders: the contexts from an absolute offset. *)
Definition read_contexts (buf : bytes) (count offset : Z) : Reader (list NegotiateContext) :=
  if 0 <? count then
    if (offset =? 0) || (Z.of_nat (length buf) <=? offset) then fail (BadContextOffset offset)
    else
      let aligned := Z.land (offset + 7) (Z.lnot 7) in
      let* ctx_buf := lift (slice buf (Z.to_nat (Z.min aligned (Z.of_nat (length buf)))) (length buf)) in
      let* ctxs := lift (decode_all ctx_buf) in
      ret (take (Z.to_nat count) ctxs)
  else ret [].

(** ** Negotiate *)

Record NegotiateRequest := mkNegotiateRequest {
  nq_dialects : list Dialect;
  nq_security_mode : Z;
  nq_capabilities : Z;
  nq_client_guid : Uuid;
  nq_negotiate_contexts : list NegotiateContext;
}.

Definition default_contexts (salt : bytes) : list NegotiateContext :=
  [preauth_integrity [SHA512] salt; encryption [AES_256_GCM; AES_128_GCM]; signing [AES_GMAC; HMAC_SHA256]].

Definition NegotiateRequest_new_311 (client_guid : Uuid) (client_salt : bytes) : NegotiateRequest :=
  mkNegotiateRequest [Smb311] SIGNING_ENABLED (Z.lor capabilities_LARGE_MTU capabilities_ENCRYPTION) client_guid
    (default_contexts client_salt).

Definition NegotiateRequest_encode_body (q : NegotiateRequest) (out : bytes) (header_size : nat) :
    Result SmbError (bytes * (Z * Z)) :=
  let dialect_count := as_u16 (Z.of_nat (length (nq_dialects q))) in
  let out :=
    (write_u16 36 >>>
     write_u16 dialect_count >>>
     write_u16 (nq_security_mode q) >>>
     write_u16 0 >>>
     write_u32 (nq_capabilities q) >>>
     Writer_write_uuid (nq_client_guid q)) out in
  let dialects_len := dialect_count * 2 in
  let pre_pad := Z.of_nat header_size + 36 + dialects_len in
  let pad := (8 - pre_pad mod 8) mod 8 in
  let ctx_offset := match nq_negotiate_contexts q with [] => 0 | _ => as_u32 (pre_pad + pad) end in
  let out :=
    (write_u32 ctx_offset >>>
     write_u16 (as_u16 (Z.of_nat (length (nq_negotiate_contexts q)))) >>>
     write_u16 0 >>>
     write_raw (units_le (map Dialect_to_wire (nq_dialects q)))) out in
  match nq_negotiate_contexts q with
  | [] => Ok (out, (ctx_offset, 0))
  | ctxs =>
      let out := Writer_align 8 out in
      let ctx_start := Z.of_nat (length out) in
      let out := encode_all ctxs out in
      let ctx_end := Z.of_nat (length out) in
      if negb (ctx_start =? ctx_offset) then Panic
      else Ok (out, (ctx_offset, as_u32 (ctx_end - ctx_start)))
  end.

Definition NegotiateRequest_encode (q : NegotiateRequest) (message_id : Z) : Result SmbError bytes :=
  let out := Smb2Header_encode (Smb2Header_new_request command_NEGOTIATE message_id) [] in
  let? o := NegotiateRequest_encode_body q out SMB2_HEADER_SIZE in
  Ok o.1.

(** [for _ in 0..dialect_count]. *)
Fixpoint read_dialects (n : nat) : Reader (list Dialect) :=
  match n with
  | O => ret []
  | S n =>
      let* code := read_u16 in
      match Dialect_from_wire code with
      | None => fail (UnknownDialect code)
      | Some d => let* ds := read_dialects n in ret (d :: ds)
      end
  end.

Definition NegotiateRequest_decode (buf : bytes) (header_size : nat) : Result SmbError NegotiateRequest :=
  decode_body SNegotiateRequest 36 36 buf header_size
    (let* dialect_count := read_u16 in
     let* security_mode := read_u16 in
     let* _reserved := read_u16 in
     let* capabilities := read_u32 in
     let* client_guid := Reader_read_uuid in
     let* negotiate_context_offset := read_u32 in
     let* negotiate_context_count := read_u16 in
     let* _reserved2 := read_u16 in
     let* dialects := read_dialects (Z.to_nat dialect_count) in
     let* negotiate_contexts := read_contexts buf negotiate_context_count negotiate_context_offset in
     ret (mkNegotiateRequest dialects security_mode capabilities client_guid negotiate_contexts)).

Record NegotiateResponse := mkNegotiateResponse {
  np_security_mode : Z;
  np_dialect_revision : Z;
  np_capabilities : Z;
  np_server_guid : Uuid;
  np_max_transact_size : Z;
  np_max_read_size : Z;
  np_max_write_size : Z;
  np_system_time : Z;
  np_boot_time : Z;
  np_security_buffer : bytes;
  np_negotiate_contexts : list NegotiateContext;
}.

Definition NegotiateResponse_new_311 (server_guid : Uuid) (server_salt : bytes) : NegotiateResponse :=
  mkNegotiateResponse SIGNING_ENABLED SMB311 capabilities_LARGE_MTU server_guid MAX_SMB2_MESSAGE_SIZE
    MAX_SMB2_MESSAGE_SIZE MAX_SMB2_MESSAGE_SIZE 0 0 [] (default_contexts server_salt).

Definition NegotiateResponse_encode_body (p : NegotiateResponse) (out : bytes) (header_size : nat) :
    Result SmbError (bytes * Z) :=
  if negb (length out =? header_size)%nat then Panic
  else
    let has_ctx := match np_negotiate_contexts p with [] => false | _ => true end in
    let ctx_buf := if has_ctx then encode_all (np_negotiate_contexts p) [] else [] in
    let ctx_len := Z.of_nat (length ctx_buf) in
    let ctx_offset := if has_ctx then as_u32 (Z.of_nat header_size + 64) else 0 in
    let after_ctx := Z.of_nat header_size + 64 + ctx_len in
    let sb_align_pad := (8 - after_ctx mod 8) mod 8 in
    let sb_offset := match np_security_buffer p with [] => 0 | _ => as_u32 (after_ctx + sb_align_pad) end in
    let out :=
      (write_u16 65 >>>
       write_u16 (np_security_mode p) >>>
       write_u16 (np_dialect_revision p) >>>
       write_u16 (as_u16 (Z.of_nat (length (np_negotiate_contexts p)))) >>>
       write_u32 ctx_offset >>>
       Writer_write_uuid (np_server_guid p) >>>
       write_u32 (np_capabilities p) >>>
       write_u32 (np_max_transact_size p) >>>
       write_u32 (np_max_read_size p) >>>
       write_u32 (np_max_write_size p) >>>
       write_u64 (np_system_time p) >>>
       write_u64 (np_boot_time p) >>>
       write_u16 (as_u16 sb_offset) >>>
       write_u16 (as_u16 (Z.of_nat (length (np_security_buffer p))))) out in
    if negb (length out =? header_size + 64)%nat then Panic
    else
      let out := if has_ctx then write_raw ctx_buf out else out in
      let out :=
        match np_security_buffer p with
        | [] => out
        | sb => write_raw sb (Writer_align 8 out)
        end in
      Ok (out, ctx_offset).

Definition NegotiateResponse_encode (p : NegotiateResponse) (request_header : Smb2Header) : Result SmbError bytes :=
  let hdr := set_status STATUS_SUCCESS (Smb2Header_new_response request_header) in
  let? o := NegotiateResponse_encode_body p (Smb2Header_encode hdr []) SMB2_HEADER_SIZE in
  Ok o.1.

Definition NegotiateResponse_decode (buf : bytes) (header_size : nat) : Result SmbError NegotiateResponse :=
  decode_body SNegotiateResponse 64 65 buf header_size
    (let* security_mode := read_u16 in
     let* dialect_revision := read_u16 in
     let* negotiate_context_count := read_u16 in
     let* negotiate_context_offset := read_u32 in
     let* server_guid := Reader_read_uuid in
     let* capabilities := read_u32 in
     let* max_transact_size := read_u32 in
     let* max_read_size := read_u32 in
     let* max_write_size := read_u32 in
     let* system_time := read_u64 in
     let* boot_time := read_u64 in
     let* security_buffer_offset := read_u16 in
     let* security_buffer_length := read_u16 in
     let* security_buffer := read_buffer SNegotiateResponse buf security_buffer_offset security_buffer_length in
     let* negotiate_contexts := read_contexts buf negotiate_context_count negotiate_context_offset in
     ret (mkNegotiateResponse security_mode dialect_revision capabilities server_guid max_transact_size max_read_size
            max_write_size system_time boot_time security_buffer negotiate_contexts)).

(** ** Session setup *)

Record SessionSetupRequest := mkSessionSetupRequest {
  sq_flags : Z;
  sq_security_mode : Z;
  sq_capabilities : Z;
  sq_channel : Z;
  sq_security_buffer : bytes;
  sq_previous_session_id : Z;
}.
Definition SessionSetupRequest_new (security_buffer : bytes) : SessionSetupRequest :=
  mkSessionSetupRequest 0 SIGNING_ENABLED 0 0 security_buffer 0.

Definition SessionSetupRequest_encode_body (q : SessionSetupRequest) (out : bytes) (header_size : nat) : bytes * Z :=
  let sb_off := as_u32 (Z.of_nat header_size + 24) in
  ((write_u16 25 >>>
    write_u8 (sq_flags q) >>>
    write_u8 (as_u8 (Z.land (sq_security_mode q) 0xFF)) >>>
    write_u32 (sq_capabilities q) >>>
    write_u32 (sq_channel q) >>>
    write_u16 (as_u16 sb_off) >>>
    write_u16 (as_u16 (Z.of_nat (length (sq_security_buffer q)))) >>>
    write_u64 (sq_previous_session_id q) >>>
    write_raw (sq_security_buffer q)) out, sb_off).
Definition SessionSetupRequest_encode (q : SessionSetupRequest) (message_id session_id : Z) : bytes :=
  let hdr := set_session_id session_id (Smb2Header_new_request command_SESSION_SETUP message_id) in
  (SessionSetupRequest_encode_body q (Smb2Header_encode hdr []) SMB2_HEADER_SIZE).1.
Definition SessionSetupRequest_decode (buf : bytes) (header_size : nat) : Result SmbError SessionSetupRequest :=
  decode_body SSessionSetupRequest 24 25 buf header_size
    (let* flags := read_u8 in
     let* security_mode_low := read_u8 in
     let* capabilities := read_u32 in
     let* channel := read_u32 in
     let* sb_off := read_u16 in
     let* sb_len := read_u16 in
     let* previous_session_id := read_u64 in
     let* security_buffer := read_buffer SSessionSetupRequest buf sb_off sb_len in
     ret (mkSessionSetupRequest flags security_mode_low capabilities channel security_buffer previous_session_id)).

Record SessionSetupResponse := mkSessionSetupResponse { sp_session_flags : Z; sp_security_buffer : bytes }.
Definition SessionSetupResponse_new_success : SessionSetupResponse := mkSessionSetupResponse 0 [].

Definition SessionSetupResponse_encode_body (p : SessionSetupResponse) (out : bytes) (header_size : nat) : bytes * Z :=
  let sb_off := as_u32 (Z.of_nat header_size + 8) in
  ((write_u16 9 >>>
    write_u16 (sp_session_flags p) >>>
    write_u16 (as_u16 sb_off) >>>
    write_u16 (as_u16 (Z.of_nat (length (sp_security_buffer p)))) >>>
    write_raw (sp_security_buffer p)) out, sb_off).
Definition SessionSetupResponse_encode (p : SessionSetupResponse) (request_header : Smb2Header) (status : Z) : bytes :=
  let hdr := set_status status (Smb2Header_new_response request_header) in
  (SessionSetupResponse_encode_body p (Smb2Header_encode hdr []) SMB2_HEADER_SIZE).1.
Definition SessionSetupResponse_decode (buf : bytes) (header_size : nat) : Result SmbError SessionSetupResponse :=
  decode_body SSessionSetupResponse 8 9 buf header_size
    (let* session_flags := read_u16 in
     let* sb_off := read_u16 in
     let* sb_len := read_u16 in
     let* security_buffer := read_buffer SSessionSetupResponse buf sb_off sb_len in
     ret (mkSessionSetupResponse session_flags security_buffer)).

(** ** Tree connect *)

Record TreeConnectRequest := mkTreeConnectRequest { tq_path : bytes }.

Definition TreeConnectRequest_encode_body (q : TreeConnectRequest) (out : bytes) (header_size : nat) : bytes * Z :=
  let path_offset := as_u32 (Z.of_nat header_size + 8) in
  let path_utf16 := encode_utf16le (tq_path q) in
  ((write_u16 9 >>>
    write_u16 0 >>>
    write_u16 (as_u16 path_offset) >>>
    write_u16 (as_u16 (Z.of_nat (length path_utf16))) >>>
    write_raw path_utf16) out, path_offset).
Definition TreeConnectRequest_encode (q : TreeConnectRequest) (message_id session_id : Z) : bytes :=
  let hdr := set_session_id session_id (Smb2Header_new_request command_TREE_CONNECT message_id) in
  (TreeConnectRequest_encode_body q (Smb2Header_encode hdr []) SMB2_HEADER_SIZE).1.
(** The string of an empty buffer is empty, the value of the early return. *)
Definition TreeConnectRequest_decode (buf : bytes) (header_size : nat) : Result SmbError TreeConnectRequest :=
  decode_body STreeConnectRequest 8 9 buf header_size
    (let* _reserved := read_u16 in
     let* path_offset := read_u16 in
     let* path_length := read_u16 in
     let* path := read_buffer STreeConnectRequest buf path_offset path_length in
     ret (mkTreeConnectRequest (decode_utf16le path))).

Record TreeConnectResponse := mkTreeConnectResponse {
  tp_share_type : Z;
  tp_share_flags : Z;
  tp_capabilities : Z;
  tp_maximal_access : Z;
}.
Definition TreeConnectResponse_new_disk : TreeConnectResponse := mkTreeConnectResponse share_type_DISK 0 0 0x001F01FF.

Definition TreeConnectResponse_encode_body (p : TreeConnectResponse) : Write :=
  write_u16 16 >>>
  write_u8 (tp_share_type p) >>>
  write_u8 0 >>>
  write_u32 (tp_share_flags p) >>>
  write_u32 (tp_capabilities p) >>>
  write_u32 (tp_maximal_access p).
Definition TreeConnectResponse_encode (p : TreeConnectResponse) (request_header : Smb2Header) (tree_id status : Z) : bytes :=
  let hdr := set_tree_id tree_id (set_status status (Smb2Header_new_response request_header)) in
  TreeConnectResponse_encode_body p (Smb2Header_encode hdr []).
Definition TreeConnectResponse_decode (buf : bytes) (header_size : nat) : Result SmbError TreeConnectResponse :=
  decode_body STreeConnectResponse 16 16 buf header_size
    (let* share_type := read_u8 in
     let* _reserved := read_u8 in
     let* share_flags := read_u32 in
     let* capabilities := read_u32 in
     let* maximal_access := read_u32 in
     ret (mkTreeConnectResponse share_type share_flags capabilities maximal_access)).

(** ** Create *)

Record CreateRequest := mkCreateRequest {
  cq_oplock_level : Z;
  cq_impersonation_level : Z;
  cq_smb_create_flags : Z;
  cq_desired_access : Z;
  cq_file_attributes : Z;
  cq_share_access : Z;
  cq_create_disposition : Z;
  cq_create_options : Z;
  cq_name : bytes;
}.
Definition CreateRequest_new (name : bytes) : CreateRequest :=
  mkCreateRequest 0 2 0 0x00170089 0x80 0x07 0x03 0 name.

Definition CreateRequest_encode_body (q : CreateRequest) (out : bytes) (header_size : nat) : bytes * Z :=
  let name_offset := as_u32 (Z.of_nat header_size + 56) in
  let name_utf16 := encode_utf16le (cq_name q) in
  ((write_u16 57 >>>
    write_u8 (cq_oplock_level q) >>>
    write_u8 0 >>>
    write_u32 (cq_impersonation_level q) >>>
    write_u64 (cq_smb_create_flags q) >>>
    write_u64 0 >>>
    write_u32 (cq_desired_access q) >>>
    write_u32 (cq_file_attributes q) >>>
    write_u32 (cq_share_access q) >>>
    write_u32 (cq_create_disposition q) >>>
    write_u32 (cq_create_options q) >>>
    write_u16 (as_u16 name_offset) >>>
    write_u16 (as_u16 (Z.of_nat (length name_utf16))) >>>
    write_u32 0 >>>
    write_u32 0 >>>
    write_raw name_utf16) out, name_offset).
Definition CreateRequest_encode (q : CreateRequest) (message_id session_id tree_id : Z) : bytes :=
  let hdr := set_tree_id tree_id (set_session_id session_id (Smb2Header_new_request command_CREATE message_id)) in
  (CreateRequest_encode_body q (Smb2Header_encode hdr []) SMB2_HEADER_SIZE).1.
Definition CreateRequest_decode (buf : bytes) (header_size : nat) : Result SmbError CreateRequest :=
  decode_body SCreateRequest 56 57 buf header_size
    (let* oplock_level := read_u8 in
     let* _reserved := read_u8 in
     let* impersonation_level := read_u32 in
     let* smb_create_flags := read_u64 in
     let* _reserved2 := read_u64 in
     let* desired_access := read_u32 in
     let* file_attributes := read_u32 in
     let* share_access := read_u32 in
     let* create_disposition := read_u32 in
     let* create_options := read_u32 in
     let* name_offset := read_u16 in
     let* name_length := read_u16 in
     let* _ctx_offset := read_u32 in
     let* _ctx_length := read_u32 in
     let* name := read_buffer SCreateRequest buf name_offset name_length in
     ret (mkCreateRequest oplock_level impersonation_level smb_create_flags desired_access file_attributes share_access
            create_disposition create_options (decode_utf16le name))).

Record CreateResponse := mkCreateResponse {
  cp_oplock_level : Z;
  cp_flags : Z;
  cp_create_action : Z;
  cp_creation_time : Z;
  cp_last_access_time : Z;
  cp_last_write_time : Z;
  cp_change_time : Z;
  cp_allocation_size : Z;
  cp_end_of_file : Z;
  cp_file_attributes : Z;
  cp_file_id : FileId;
}.
Definition CreateResponse_new (file_id : FileId) (size : Z) : CreateResponse :=
  mkCreateResponse 0 0 1 0 0 0 0 size size 0x80 file_id.

Definition CreateResponse_encode_body (p : CreateResponse) : Write :=
  write_u16 89 >>>
  write_u8 (cp_oplock_level p) >>>
  write_u8 (cp_flags p) >>>
  write_u32 (cp_create_action p) >>>
  write_u64 (cp_creation_time p) >>>
  write_u64 (cp_last_access_time p) >>>
  write_u64 (cp_last_write_time p) >>>
  write_u64 (cp_change_time p) >>>
  write_u64 (cp_allocation_size p) >>>
  write_u64 (cp_end_of_file p) >>>
  write_u32 (cp_file_attributes p) >>>
  write_u32 0 >>>
  write_file_id (cp_file_id p) >>>
  write_u32 0 >>>
  write_u32 0.
Definition CreateResponse_encode (p : CreateResponse) (request_header : Smb2Header) (status : Z) : bytes :=
  let hdr := set_status status (Smb2Header_new_response request_header) in
  CreateResponse_encode_body p (Smb2Header_encode hdr []).
Definition CreateResponse_decode (buf : bytes) (header_size : nat) : Result SmbError CreateResponse :=
  decode_body SCreateResponse 88 89 buf header_size
    (let* oplock_level := read_u8 in
     let* flags := read_u8 in
     let* create_action := read_u32 in
     let* creation_time := read_u64 in
     let* last_access_time := read_u64 in
     let* last_write_time := read_u64 in
     let* change_time := read_u64 in
     let* allocation_size := read_u64 in
     let* end_of_file := read_u64 in
     let* file_attributes := read_u32 in
     let* _reserved2 := read_u32 in
     let* file_id := read_file_id in
     let* _ctx_offset := read_u32 in
     let* _ctx_length := read_u32 in
     ret (mkCreateResponse oplock_level flags create_action creation_time last_access_time last_write_time change_time
            allocation_size end_of_file file_attributes file_id)).

(** ** Read *)

Record ReadRequest := mkReadRequest {
  rq_length : Z;
  rq_offset : Z;
  rq_file_id : FileId;
  rq_minimum_count : Z;
}.
Definition ReadRequest_new (file_id : FileId) (offset length : Z) : ReadRequest := mkReadRequest length offset file_id 1.

Definition ReadRequest_encode_body (q : ReadRequest) : Write :=
  write_u16 49 >>>
  write_u8 0 >>>
  write_u8 0 >>>
  write_u32 (rq_length q) >>>
  write_u64 (rq_offset q) >>>
  write_file_id (rq_file_id q) >>>
  write_u32 (rq_minimum_count q) >>>
  write_u32 0 >>>
  write_u32 0 >>>
  write_u16 0 >>>
  write_u16 0.
Definition ReadRequest_encode (q : ReadRequest) (message_id session_id tree_id : Z) : bytes :=
  let hdr := set_tree_id tree_id (set_session_id session_id (Smb2Header_new_request command_READ message_id)) in
  ReadRequest_encode_body q (Smb2Header_encode hdr []).
Definition ReadRequest_decode (buf : bytes) (header_size : nat) : Result SmbError ReadRequest :=
  decode_body SReadRequest 48 49 buf header_size
    (let* _padding := read_u8 in
     let* _flags := read_u8 in
     let* length := read_u32 in
     let* offset := read_u64 in
     let* file_id := read_file_id in
     let* minimum_count := read_u32 in
     ret (mkReadRequest length offset file_id minimum_count)).

Record ReadResponse := mkReadResponse { rp_data : bytes }.

(** [data.len().div_ceil(65536).max(1) as u16]. *)
Definition credit_charge (data : bytes) : Z := as_u16 (Z.max (div_ceil (Z.of_nat (length data)) 65536) 1).

Definition ReadResponse_encode_body (p : ReadResponse) (out : bytes) (header_size : nat) : bytes * Z :=
  let data_offset := as_u32 (Z.of_nat header_size + 16) in
  ((write_u16 17 >>>
    write_u8 (as_u8 data_offset) >>>
    write_u8 0 >>>
    write_u32 (as_u32 (Z.of_nat (length (rp_data p)))) >>>
    write_u32 0 >>>
    write_u32 0 >>>
    Writer_align 8 >>>
    write_raw (rp_data p)) out, data_offset).
Definition ReadResponse_encode (p : ReadResponse) (request_header : Smb2Header) (status : Z) : bytes :=
  let hdr := set_credit_charge (credit_charge (rp_data p)) (set_status status (Smb2Header_new_response request_header)) in
  (ReadResponse_encode_body p (Smb2Header_encode hdr []) SMB2_HEADER_SIZE).1.
Definition ReadResponse_decode (buf : bytes) (header_size : nat) : Result SmbError ReadResponse :=
  decode_body SReadResponse 16 17 buf header_size
    (let* data_offset := read_u8 in
     let* _reserved := read_u8 in
     let* data_length := read_u32 in
     let* _data_remaining := read_u32 in
     let* _flags := read_u32 in
     let* data := read_buffer SReadResponse buf data_offset data_length in
     ret (mkReadResponse data)).

(** ** Write *)

Record WriteRequest := mkWriteRequest {
  wq_length : Z;
  wq_offset : Z;
  wq_file_id : FileId;
  wq_data : bytes;
}.
Definition WriteRequest_new (file_id : FileId) (offset : Z) (data : bytes) : WriteRequest :=
  mkWriteRequest (as_u32 (Z.of_nat (length data))) offset file_id data.

Definition WriteRequest_encode_body (q : WriteRequest) (out : bytes) (header_size : nat) : bytes * Z :=
  let data_offset := as_u32 (Z.of_nat header_size + 48) in
  ((write_u16 49 >>>
    write_u8 (as_u8 data_offset) >>>
    write_u8 0 >>>
    write_u32 (wq_length q) >>>
    write_u64 (wq_offset q) >>>
    write_file_id (wq_file_id q) >>>
    write_u32 0 >>>
    write_u32 0 >>>
    write_u16 0 >>>
    write_u16 0 >>>
    write_u32 0 >>>
    write_raw (wq_data q)) out, data_offset).
Definition WriteRequest_encode (q : WriteRequest) (message_id session_id tree_id : Z) : bytes :=
  let hdr := set_credit_charge (credit_charge (wq_data q))
    (set_tree_id tree_id (set_session_id session_id (Smb2Header_new_request command_WRITE message_id))) in
  (WriteRequest_encode_body q (Smb2Header_encode hdr []) SMB2_HEADER_SIZE).1.
Definition WriteRequest_decode (buf : bytes) (header_size : nat) : Result SmbError WriteRequest :=
  decode_body SWriteRequest 48 49 buf header_size
    (let* data_offset := read_u8 in
     let* _reserved := read_u8 in
     let* length := read_u32 in
     let* offset := read_u64 in
     let* file_id := read_file_id in
     let* _channel := read_u32 in
     let* _remaining := read_u32 in
     let* _ch_info_off := read_u16 in
     let* _ch_info_len := read_u16 in
     let* _flags := read_u32 in
     let* data := read_buffer SWriteRequest buf data_offset length in
     ret (mkWriteRequest length offset file_id data)).

Record WriteResponse := mkWriteResponse { wp_count : Z }.
Definition WriteResponse_encode_body (p : WriteResponse) : Write :=
  write_u16 17 >>>
  write_u16 0 >>>
  write_u32 (wp_count p) >>>
  write_u32 0 >>>
  write_u16 0 >>>
  write_u16 0.
Definition WriteResponse_encode (p : WriteResponse) (request_header : Smb2Header) (status : Z) : bytes :=
  let hdr := set_status status (Smb2Header_new_response request_header) in
  WriteResponse_encode_body p (Smb2Header_encode hdr []).
Definition WriteResponse_decode (buf : bytes) (header_size : nat) : Result SmbError WriteResponse :=
  decode_body SWriteResponse 16 17 buf header_size
    (let* _reserved := read_u16 in
     let* count := read_u32 in
     ret (mkWriteResponse count)).

(** ** Close *)

Record CloseRequest := mkCloseRequest { lq_flags : Z; lq_file_id : FileId }.
Definition CloseRequest_new (file_id : FileId) : CloseRequest := mkCloseRequest 0 file_id.
Definition CloseRequest_encode_body (q : CloseRequest) : Write :=
  write_u16 24 >>>
  write_u16 (lq_flags q) >>>
  write_u32 0 >>>
  write_file_id (lq_file_id q).
Definition CloseRequest_encode (q : CloseRequest) (message_id session_id tree_id : Z) : bytes :=
  let hdr := set_tree_id tree_id (set_session_id session_id (Smb2Header_new_request command_CLOSE message_id)) in
  CloseRequest_encode_body q (Smb2Header_encode hdr []).
Definition CloseRequest_decode (buf : bytes) (header_size : nat) : Result SmbError CloseRequest :=
  decode_body SCloseRequest 24 24 buf header_size
    (let* flags := read_u16 in
     let* _reserved := read_u32 in
     let* file_id := read_file_id in
     ret (mkCloseRequest flags file_id)).

Record CloseResponse := mkCloseResponse {
  lp_flags : Z;
  lp_creation_time : Z;
  lp_last_access_time : Z;
  lp_last_write_time : Z;
  lp_change_time : Z;
  lp_allocation_size : Z;
  lp_end_of_file : Z;
  lp_file_attributes : Z;
}.
Definition CloseResponse_new : CloseResponse := mkCloseResponse 0 0 0 0 0 0 0 0.
Definition CloseResponse_encode_body (p : CloseResponse) : Write :=
  write_u16 60 >>>
  write_u16 (lp_flags p) >>>
  write_u32 0 >>>
  write_u64 (lp_creation_time p) >>>
  write_u64 (lp_last_access_time p) >>>
  write_u64 (lp_last_write_time p) >>>
  write_u64 (lp_change_time p) >>>
  write_u64 (lp_allocation_size p) >>>
  write_u64 (lp_end_of_file p) >>>
  write_u32 (lp_file_attributes p).
Definition CloseResponse_encode (p : CloseResponse) (request_header : Smb2Header) (status : Z) : bytes :=
  let hdr := set_status status (Smb2Header_new_response request_header) in
  CloseResponse_encode_body p (Smb2Header_encode hdr []).
Definition CloseResponse_decode (buf : bytes) (header_size : nat) : Result SmbError CloseResponse :=
  decode_body SCloseResponse 60 60 buf header_size
    (let* flags := read_u16 in
     let* _reserved := read_u32 in
     let* creation_time := read_u64 in
     let* last_access_time := read_u64 in
     let* last_write_time := read_u64 in
     let* change_time := read_u64 in
     let* allocation_size := read_u64 in
     let* end_of_file := read_u64 in
     let* file_attributes := read_u32 in
     ret (mkCloseResponse flags creation_time last_access_time last_write_time change_time allocation_size end_of_file
            file_attributes)).

(** ** Logoff and echo: bodies of a StructureSize and a reserved field *)

Definition empty_body : Write := write_u16 4 >>> write_u16 0.
Definition LogoffRequest_encode (message_id session_id : Z) : bytes :=
  empty_body (Smb2Header_encode (set_session_id session_id (Smb2Header_new_request command_LOGOFF message_id)) []).
Definition LogoffRequest_decode (buf : bytes) (header_size : nat) : Result SmbError unit :=
  decode_body SLogoffRequest 4 4 buf header_size (ret tt).
Definition LogoffResponse_encode (request_header : Smb2Header) : bytes :=
  empty_body (Smb2Header_encode (set_status STATUS_SUCCESS (Smb2Header_new_response request_header)) []).
Definition LogoffResponse_decode (buf : bytes) (header_size : nat) : Result SmbError unit :=
  decode_body SLogoffResponse 4 4 buf header_size (ret tt).
Definition EchoRequest_encode (message_id : Z) : bytes :=
  empty_body (Smb2Header_encode (Smb2Header_new_request command_ECHO message_id) []).
Definition EchoRequest_decode (buf : bytes) (header_size : nat) : Result SmbError unit :=
  decode_body SEchoRequest 4 4 buf header_size (ret tt).
Definition EchoResponse_encode (request_header : Smb2Header) : bytes :=
  empty_body (Smb2Header_encode (set_status STATUS_SUCCESS (Smb2Header_new_response request_header)) []).
Definition EchoResponse_decode (buf : bytes) (header_size : nat) : Result SmbError unit :=
  decode_body SEchoResponse 4 4 buf header_size (ret tt).

(** ** The transform header *)

Record TransformHeader := mkTransformHeader {
  th_signature : bytes;
  th_nonce : bytes;
  th_original_message_size : Z;
  th_flags : Z;
  th_session_id : Z;
}.
Definition TransformHeader_new (original_message_size session_id : Z) : TransformHeader :=
  mkTransformHeader (replicate 16 x00) (replicate 16 x00) original_message_size 0x0001 session_id.
Definition TransformHeader_encode (t : TransformHeader) : Write :=
  write_raw SMB2_TRANSFORM_MAGIC >>>
  write_raw (th_signature t) >>>
  write_raw (th_nonce t) >>>
  write_u32 (th_original_message_size t) >>>
  write_u16 0 >>>
  write_u16 (th_flags t) >>>
  write_u64 (th_session_id t).
Definition transform_fields : Reader TransformHeader :=
  let* signature := read_signature in
  let* nonce := Reader_read_bytes 16 in
  let* original_message_size := read_u32 in
  let* _reserved := read_u16 in
  let* flags := read_u16 in
  let* session_id := read_u64 in
  ret (mkTransformHeader signature nonce original_message_size flags session_id).
Definition TransformHeader_decode (buf : bytes) : Result SmbError TransformHeader :=
  if (length buf <? SMB2_TRANSFORM_HEADER_SIZE)%nat then Err (Malformed (TransformTooShort (length buf)))
  else
    let? magic := slice buf 0 4 in
    if negb (bool_decide (magic = SMB2_TRANSFORM_MAGIC)) then Err (Malformed (BadTransformMagic magic))
    else
      let? r := Reader_at buf 4 in
      let? tr := transform_fields r in
      Ok tr.1.

(** ** The pre-authentication integrity hash *)

Section Preauth.
(** SHA-512 of the [sha2] crate; a hasher that is fed parts hashes their
    concatenation. *)
Variable sha512 : bytes -> bytes.

Record PreauthHash := mkPreauthHash { ph_state : bytes }.
Definition PreauthHash_new : PreauthHash := mkPreauthHash (replicate 64 x00).
Definition PreauthHash_update (h : PreauthHash) (data : bytes) : PreauthHash :=
  mkPreauthHash (sha512 (ph_state h ++ data)).
Definition update_all (h : PreauthHash) (parts : list bytes) : PreauthHash :=
  mkPreauthHash (sha512 (ph_state h ++ concat parts)).
Definition PreauthHash_compute (messages : list bytes) : bytes :=
  ph_state (fold_left PreauthHash_update messages PreauthHash_new).
End Preauth.

(** ** NetBIOS session frames *)

Definition encode_frame (payload : bytes) : Result SmbError bytes :=
  let len := Z.of_nat (length payload) in
  if negb (len <? 0x01000000) then Panic
  else
    Ok ([x00; z2b (Z.land (Z.shiftr len 16) 0xFF); z2b (Z.land (Z.shiftr len 8) 0xFF); z2b (Z.land len 0xFF)]
        ++ payload).
Definition peek_header (buf : bytes) : Result SmbError (option (byte * Z)) :=
  match buf with
  | b0 :: b1 :: b2 :: b3 :: _ =>
      Ok (Some (b0, Z.lor (Z.lor (Z.shiftl (b2z b1) 16) (Z.shiftl (b2z b2) 8)) (b2z b3)))
  | _ => Ok None
  end.
