(* ===== verification/SmbProofs.v ===== *)
(** * SmbProofs: the SMB2 codecs

    Every request and response survives encoding and decoding, with its header;
    every decoder is total and returns fields in their widths.  [Run d buf l a]
    says that the reader [d], started in [buf] where the rest of the buffer is
    [l], has the outcome [a]; [Total d P] says that [d] never panics and returns values
    in [P]. *)
From S2P Require Import Prelude Bytes Text StorageKeys Utf16 Smb SmbMessages.

(** ** Reading what was written *)

Definition value_of {A} (v : Result SmbError (A * Cursor)) : Result SmbError A := let? ar := v in Ok ar.1.
Definition Run {A} (d : Reader A) (buf l : bytes) (a : Result SmbError A) : Prop :=
  forall pos, (pos <= length buf)%nat -> drop pos buf = l -> value_of (d (mkCursor buf pos)) = a.

Lemma Run_ret {A} (a b : A) buf l : a = b -> Run (ret a) buf l (Ok b).
Proof. by intros <- pos _ _. Qed.
Lemma read_raw_Ok n e buf pos v l : (pos <= length buf)%nat -> drop pos buf = v ++ l -> length v = n ->
  read_raw n e (mkCursor buf pos) = Ok (v, mkCursor buf (pos + n)) /\ (pos + n <= length buf)%nat
  /\ drop (pos + n) buf = l.
Proof.
  intros Hp Hd <-. assert (length buf = pos + (length v + length l))%nat as Hl.
  { apply (f_equal length) in Hd. rewrite length_drop, length_app in Hd. lia. }
  unfold read_raw. cbn [cur_buf cur_pos]. rewrite (proj2 (Nat.ltb_ge _ _)) by lia. rewrite slice_Ok by lia.
  cbn [rbind]. rewrite Hd. split_and!; [|lia|by rewrite <-drop_drop, Hd, drop_app_length].
  by rewrite Nat.add_comm, Nat.add_sub, take_app_length.
Qed.
Lemma Run_raw {A} n e (k : bytes -> Reader A) buf v l a :
  length v = n -> Run (k v) buf l a -> Run (let* x := read_raw n e in k x) buf (v ++ l) a.
Proof.
  intros Hn Hk pos Hp Hd. destruct (read_raw_Ok n e buf pos v l Hp Hd Hn) as (E & ? & ?). unfold bind. rewrite E. by apply Hk.
Qed.
Lemma bind_assoc {A B C} (d : Reader A) (f : A -> Reader B) (g : B -> Reader C) r :
  (let* y := (let* x := d in f x) in g y) r = (let* x := d in let* y := f x in g y) r.
Proof. unfold bind. by destruct (d r). Qed.
Lemma Run_ext {A} (d d' : Reader A) buf l a : (forall r, d r = d' r) -> Run d' buf l a -> Run d buf l a.
Proof. intros E H pos Hp Hd. rewrite E. by apply H. Qed.

Lemma Run_seek {A} (k : unit -> Reader A) p buf l a :
  (p <= length buf)%nat -> Run (k tt) buf (drop p buf) a -> Run (let* x := Reader_seek p in k x) buf l a.
Proof.
  intros Hp Hk pos _ _. unfold bind, Reader_seek. cbn [cur_buf]. rewrite (proj2 (Nat.ltb_ge _ _)) by lia. by apply Hk.
Qed.

Lemma Run_int {A} n (k : Z -> Reader A) buf v l a :
  0 <= v < 256 ^ Z.of_nat n -> Run (k v) buf l a -> Run (let* x := read_int n in k x) buf (to_le n v ++ l) a.
Proof.
  intros Hv Hk. eapply Run_ext; [intros r; apply bind_assoc|]. apply Run_raw; [apply length_to_le|].
  by rewrite of_to_le_id by done.
Qed.
Lemma Run_u8 {A} (k : Z -> Reader A) buf v l a :
  is_u8 v -> Run (k v) buf l a -> Run (let* x := read_u8 in k x) buf ([z2b v] ++ l) a.
Proof. apply (Run_int 1). Qed.
Lemma Run_u16 {A} (k : Z -> Reader A) buf v l a :
  is_u16 v -> Run (k v) buf l a -> Run (let* x := read_u16 in k x) buf (to_le 2 v ++ l) a.
Proof. apply (Run_int 2). Qed.
Lemma Run_u32 {A} (k : Z -> Reader A) buf v l a :
  is_u32 v -> Run (k v) buf l a -> Run (let* x := read_u32 in k x) buf (to_le 4 v ++ l) a.
Proof. apply (Run_int 4). Qed.
Lemma Run_u64 {A} (k : Z -> Reader A) buf v l a :
  is_u64 v -> Run (k v) buf l a -> Run (let* x := read_u64 in k x) buf (to_le 8 v ++ l) a.
Proof. apply (Run_int 8). Qed.
Lemma Run_bytes {A} n (k : bytes -> Reader A) buf v l a :
  length v = n -> Run (k v) buf l a -> Run (let* x := Reader_read_bytes n in k x) buf (v ++ l) a.
Proof. apply Run_raw. Qed.
Lemma Run_uuid {A} (k : Uuid -> Reader A) buf u l a :
  is_u128 u -> Run (k u) buf l a -> Run (let* x := Reader_read_uuid in k x) buf (uuid_as_bytes u ++ l) a.
Proof.
  intros Hu Hk. eapply Run_ext; [intros r; apply bind_assoc|]. apply Run_bytes; [apply length_to_be|].
  unfold uuid_from_bytes, uuid_as_bytes. by rewrite of_to_be_u128.
Qed.
Definition file_id_ok (f : FileId) : Prop := is_u64 (fid_persistent f) /\ is_u64 (fid_volatile f).
Lemma Run_file_id {A} (k : FileId -> Reader A) buf f l a :
  file_id_ok f -> Run (k f) buf l a ->
  Run (let* x := read_file_id in k x) buf (to_le 8 (fid_persistent f) ++ to_le 8 (fid_volatile f) ++ l) a.
Proof.
  intros [Hp Hv] Hk. eapply Run_ext; [intros r; apply bind_assoc|]. apply Run_u64; [done|].
  eapply Run_ext; [intros r; apply bind_assoc|]. apply Run_u64; [done|]. by destruct f.
Qed.

(** A buffer that follows the fixed part, found through its absolute offset. *)
Lemma Run_buffer {A} s (k : bytes -> Reader A) buf v l off len a :
  Z.of_nat (length buf) = off + Z.of_nat (length (v ++ l)) -> len = Z.of_nat (length v) ->
  Run (k v) buf (v ++ l) a -> Run (let* x := read_buffer s buf off len in k x) buf (v ++ l) a.
Proof.
  intros Ho -> Hk pos Hp Hd. assert (off = Z.of_nat pos) as ->.
  { apply (f_equal length) in Hd. rewrite length_drop in Hd. lia. }
  unfold read_buffer, bind. destruct (Z.eqb_spec (Z.of_nat (length v)) 0) as [E|E].
  - destruct v; [|cbn in E; lia]. by apply Hk.
  - rewrite length_app in Ho. rewrite (proj2 (Z.ltb_ge _ _)) by lia.
    rewrite <-Nat2Z.inj_add, !Nat2Z.id. unfold lift. rewrite slice_Ok by lia. cbn [rbind fst snd].
    rewrite Nat.add_comm, Nat.add_sub, Hd, take_app_length. by apply Hk.
Qed.

(** A buffer anywhere in the message. *)
Lemma Run_buffer_at {A} s (k : bytes -> Reader A) pre v post off l a :
  off = Z.of_nat (length pre) -> Run (k v) (pre ++ v ++ post) l a ->
  Run (let* x := read_buffer s (pre ++ v ++ post) off (Z.of_nat (length v)) in k x) (pre ++ v ++ post) l a.
Proof.
  intros -> Hk pos Hp Hd. unfold read_buffer, bind. destruct (Z.eqb_spec (Z.of_nat (length v)) 0) as [E|E].
  - destruct v; [|cbn in E; lia]. by apply Hk.
  - rewrite (proj2 (Z.ltb_ge _ _)) by (rewrite !length_app; lia).
    rewrite <-Nat2Z.inj_add, !Nat2Z.id. unfold lift. rewrite slice_app by lia. by apply Hk.
Qed.
Lemma Run_no_buffer {A} s (k : bytes -> Reader A) buf off l a :
  Run (k []) buf l a -> Run (let* x := read_buffer s buf off 0 in k x) buf l a.
Proof. done. Qed.

Lemma decode_body_at {A} s fixed size buf hdr l (d : Reader A) n a :
  buf = hdr ++ to_le 2 size ++ l -> length hdr = n -> (fixed <= 2 + length l)%nat -> is_u16 size -> Run d buf l a ->
  decode_body s fixed size buf n d = a.
Proof.
  intros Hb <- Hf Hs Hd. assert (length buf = length hdr + 2 + length l)%nat as Hl by (rewrite Hb; len).
  unfold decode_body, Reader_at. rewrite (proj2 (Nat.ltb_ge _ _)) by lia. rewrite (proj2 (Nat.ltb_ge _ _)) by lia. cbn [rbind].
  assert (Run (let* x := read_u16 in if negb (x =? size) then fail (BadStructureSize s x) else d) buf (to_le 2 size ++ l) a) as H.
  { apply Run_u16; [done|]. by rewrite Z.eqb_refl. }
  rewrite <-(H (length hdr)); [done|lia|by rewrite Hb, drop_app_length].
Qed.
Lemma decode_body_Ok {A} s fixed size hdr l (d : Reader A) n a :
  length hdr = n -> (fixed <= 2 + length l)%nat -> is_u16 size -> Run d (hdr ++ to_le 2 size ++ l) l a ->
  decode_body s fixed size (hdr ++ to_le 2 size ++ l) n d = a.
Proof. by apply decode_body_at. Qed.

(** Unfolds an encoder to the bytes it appends. *)
Ltac encoded :=
  unfold write_file_id; unfold and_then, write_u8, write_u16, write_u32, write_u64, Writer_write_uuid;
  unfold write_raw; rewrite <-?app_assoc.

(** Fields of a record predicate, and arithmetic on constant ranges. *)
Ltac field := first [assumption | done | tauto | (unfold_ints; cbn; lia)].
Ltac runs :=
  repeat first
    [ apply Run_u8; [field|] | apply Run_u16; [field|] | apply Run_u32; [field|] | apply Run_u64; [field|]
    | apply Run_uuid; [field|] | apply Run_file_id; [field|] | apply Run_bytes; [field|] ].

(** ** The header *)

Definition header_ok (h : Smb2Header) : Prop :=
  is_u16 (h_credit_charge h) /\ is_u32 (h_status h) /\ is_u16 (h_command h) /\ is_u16 (h_credits h)
  /\ is_u32 (h_flags h) /\ is_u32 (h_next_command h) /\ is_u64 (h_message_id h) /\ is_u32 (h_process_id h)
  /\ is_u32 (h_tree_id h) /\ is_u64 (h_session_id h) /\ length (h_signature h) = 16%nat.

Lemma length_header h : length (h_signature h) = 16%nat -> length (Smb2Header_encode h []) = 64%nat.
Proof. intros E. unfold Smb2Header_encode. encoded. repeat rewrite length_app, ?length_to_le. by rewrite E. Qed.

Lemma Run_header h buf t l : header_ok h -> buf = Smb2Header_encode h [] ++ t -> Run header_fields buf l (Ok h).
Proof.
  intros Hh Hb. assert (length (Smb2Header_encode h []) = 64%nat) as Hlen by (apply length_header; apply Hh).
  apply Run_seek; [rewrite Hb, length_app, Hlen; lia|].
  assert (exists u, Smb2Header_encode h [] = SMB2_MAGIC ++ u) as [u Hu]
    by (eexists; unfold Smb2Header_encode; encoded; reflexivity).
  rewrite Hb at 2. unfold Smb2Header_encode. encoded. change ([] ++ SMB2_MAGIC ++ ?x) with (SMB2_MAGIC ++ x).
  change 4%nat with (length SMB2_MAGIC). rewrite drop_app_length.
  destruct Hh as (?&?&?&?&?&?&?&?&?&?&?). change (as_u16 (Z.of_nat SMB2_HEADER_SIZE)) with 64.
  apply Run_u16; [done|]. cbn [Z.eqb Pos.eqb negb]. runs. apply Run_ret. by destruct h.
Qed.
Lemma decode_encode_header h l : header_ok h -> Smb2Header_decode (Smb2Header_encode h [] ++ l) = Ok h.
Proof.
  intros Hh. assert (length (Smb2Header_encode h []) = 64%nat) as Hlen by (apply length_header; apply Hh).
  pose proof (Run_header h _ l (Smb2Header_encode h [] ++ l) Hh eq_refl 0%nat ltac:(lia) eq_refl) as Hr.
  unfold Smb2Header_decode. rewrite length_app, Hlen. rewrite (proj2 (Nat.ltb_ge _ _)) by (unfold SMB2_HEADER_SIZE; lia).
  rewrite slice_Ok by (rewrite length_app, Hlen; lia). cbn [rbind].
  assert (take (4 - 0) (drop 0 (Smb2Header_encode h [] ++ l)) = SMB2_MAGIC) as ->.
  { unfold Smb2Header_encode. encoded. reflexivity. }
  rewrite bool_decide_eq_true_2 by done. exact Hr.
Qed.

(** ** Requests and responses with a fixed layout

    The message in front of any further bytes; [out] holds the header. *)

(** Lengths of encoded fields and headers. *)
Ltac lens := repeat rewrite length_app; repeat rewrite ?length_to_le, ?length_cons, ?length_nil; cbn [length]; try lia.
Ltac decodes :=
  encoded; apply decode_body_Ok; [assumption|lens|done|]; runs.

Definition text_ok (s : bytes) : Prop := utf8_valid s = true /\ Z.of_nat (length (encode_utf16le s)) < 2 ^ 16.

Lemma decode_encode_utf16le s : utf8_valid s = true -> decode_utf16le (encode_utf16le s) = s.
Proof.
  intros Hs. unfold decode_utf16le, encode_utf16le. rewrite length_units_le, Nat.even_even. cbn [negb].
  rewrite le_units_units_le by (by apply encode_utf16_units). by apply from_encode_utf16_lossy.
Qed.
Lemma as_len (n : nat) w : Z.of_nat n < 2 ^ w -> as_uint w (Z.of_nat n) = Z.of_nat n.
Proof. intros. apply as_uint_id. unfold is_uint. lia. Qed.

Definition tree_response_ok (p : TreeConnectResponse) : Prop :=
  is_u8 (tp_share_type p) /\ is_u32 (tp_share_flags p) /\ is_u32 (tp_capabilities p) /\ is_u32 (tp_maximal_access p).
Lemma TreeConnectResponse_rt p out t : length out = 64%nat -> tree_response_ok p ->
  TreeConnectResponse_decode (TreeConnectResponse_encode_body p out ++ t) 64 = Ok p.
Proof.
  intros Ho (?&?&?&?). unfold TreeConnectResponse_decode, TreeConnectResponse_encode_body. decodes.
  apply Run_ret. by destruct p.
Qed.

Definition create_response_ok (p : CreateResponse) : Prop :=
  is_u8 (cp_oplock_level p) /\ is_u8 (cp_flags p) /\ is_u32 (cp_create_action p) /\ is_u64 (cp_creation_time p)
  /\ is_u64 (cp_last_access_time p) /\ is_u64 (cp_last_write_time p) /\ is_u64 (cp_change_time p)
  /\ is_u64 (cp_allocation_size p) /\ is_u64 (cp_end_of_file p) /\ is_u32 (cp_file_attributes p)
  /\ file_id_ok (cp_file_id p).
Lemma CreateResponse_rt p out t : length out = 64%nat -> create_response_ok p ->
  CreateResponse_decode (CreateResponse_encode_body p out ++ t) 64 = Ok p.
Proof.
  intros Ho (?&?&?&?&?&?&?&?&?&?&?). unfold CreateResponse_decode, CreateResponse_encode_body. decodes.
  apply Run_ret. by destruct p.
Qed.

Definition read_request_ok (q : ReadRequest) : Prop :=
  is_u32 (rq_length q) /\ is_u64 (rq_offset q) /\ file_id_ok (rq_file_id q) /\ is_u32 (rq_minimum_count q).
Lemma ReadRequest_rt q out t : length out = 64%nat -> read_request_ok q ->
  ReadRequest_decode (ReadRequest_encode_body q out ++ t) 64 = Ok q.
Proof.
  intros Ho (?&?&?&?). unfold ReadRequest_decode, ReadRequest_encode_body. decodes. apply Run_ret. by destruct q.
Qed.

Lemma WriteResponse_rt p out t : length out = 64%nat -> is_u32 (wp_count p) ->
  WriteResponse_decode (WriteResponse_encode_body p out ++ t) 64 = Ok p.
Proof.
  intros Ho ?. unfold WriteResponse_decode, WriteResponse_encode_body. decodes. apply Run_ret. by destruct p.
Qed.

Definition close_request_ok (q : CloseRequest) : Prop := is_u16 (lq_flags q) /\ file_id_ok (lq_file_id q).
Lemma CloseRequest_rt q out t : length out = 64%nat -> close_request_ok q ->
  CloseRequest_decode (CloseRequest_encode_body q out ++ t) 64 = Ok q.
Proof.
  intros Ho (?&?). unfold CloseRequest_decode, CloseRequest_encode_body. decodes. apply Run_ret. by destruct q.
Qed.

Definition close_response_ok (p : CloseResponse) : Prop :=
  is_u16 (lp_flags p) /\ is_u64 (lp_creation_time p) /\ is_u64 (lp_last_access_time p)
  /\ is_u64 (lp_last_write_time p) /\ is_u64 (lp_change_time p) /\ is_u64 (lp_allocation_size p)
  /\ is_u64 (lp_end_of_file p) /\ is_u32 (lp_file_attributes p).
Lemma CloseResponse_rt p out t : length out = 64%nat -> close_response_ok p ->
  CloseResponse_decode (CloseResponse_encode_body p out ++ t) 64 = Ok p.
Proof.
  intros Ho (?&?&?&?&?&?&?&?). unfold CloseResponse_decode, CloseResponse_encode_body. decodes. apply Run_ret. by destruct p.
Qed.

Lemma empty_body_rt s out t : length out = 64%nat -> decode_body s 4 4 (empty_body out ++ t) 64 (ret tt) = Ok tt.
Proof. intros Ho. unfold empty_body. decodes. by apply Run_ret. Qed.

(** ** Requests and responses with a buffer *)

Definition session_request_ok (q : SessionSetupRequest) : Prop :=
  is_u8 (sq_flags q) /\ is_u8 (sq_security_mode q) /\ is_u32 (sq_capabilities q) /\ is_u32 (sq_channel q)
  /\ Z.of_nat (length (sq_security_buffer q)) < 2 ^ 16 /\ is_u64 (sq_previous_session_id q).
Lemma low_byte v : is_u8 v -> as_u8 (Z.land v 0xFF) = v.
Proof. intros Hv. change 0xFF with (Z.ones 8). rewrite Z.land_ones by lia. unfold_ints. rewrite (Z.mod_small v) by lia. apply Z.mod_small. lia. Qed.
Lemma SessionSetupRequest_rt q out t : length out = 64%nat -> session_request_ok q ->
  SessionSetupRequest_decode ((SessionSetupRequest_encode_body q out 64).1 ++ t) 64 = Ok q.
Proof.
  intros Ho (?&?&?&?&Hl&?). unfold SessionSetupRequest_decode, SessionSetupRequest_encode_body. cbn [fst].
  change (as_u16 _) with 88 at 1. rewrite low_byte, as_len by done. decodes.
  apply Run_buffer; [lens|done|]. apply Run_ret. by destruct q.
Qed.

Definition session_response_ok (p : SessionSetupResponse) : Prop :=
  is_u16 (sp_session_flags p) /\ Z.of_nat (length (sp_security_buffer p)) < 2 ^ 16.
Lemma SessionSetupResponse_rt p out t : length out = 64%nat -> session_response_ok p ->
  SessionSetupResponse_decode ((SessionSetupResponse_encode_body p out 64).1 ++ t) 64 = Ok p.
Proof.
  intros Ho (?&?). unfold SessionSetupResponse_decode, SessionSetupResponse_encode_body. cbn [fst].
  change (as_u16 _) with 72 at 1. rewrite as_len by done. decodes.
  apply Run_buffer; [lens|done|]. apply Run_ret. by destruct p.
Qed.

Lemma TreeConnectRequest_rt q out t : length out = 64%nat -> text_ok (tq_path q) ->
  TreeConnectRequest_decode ((TreeConnectRequest_encode_body q out 64).1 ++ t) 64 = Ok q.
Proof.
  intros Ho [? ?]. unfold TreeConnectRequest_decode, TreeConnectRequest_encode_body. cbn [fst].
  change (as_u16 (as_u32 _)) with 72 at 1. rewrite as_len by done. decodes.
  apply Run_buffer; [lens|done|]. rewrite decode_encode_utf16le by done. apply Run_ret. by destruct q.
Qed.

Definition create_request_typed (q : CreateRequest) : Prop :=
  is_u8 (cq_oplock_level q) /\ is_u32 (cq_impersonation_level q) /\ is_u64 (cq_smb_create_flags q)
  /\ is_u32 (cq_desired_access q) /\ is_u32 (cq_file_attributes q) /\ is_u32 (cq_share_access q)
  /\ is_u32 (cq_create_disposition q) /\ is_u32 (cq_create_options q) /\ utf8_valid (cq_name q) = true.
Lemma CreateRequest_rt q out t : length out = 64%nat -> create_request_typed q -> text_ok (cq_name q) ->
  CreateRequest_decode ((CreateRequest_encode_body q out 64).1 ++ t) 64 = Ok q.
Proof.
  intros Ho (?&?&?&?&?&?&?&?&?) [_ ?]. unfold CreateRequest_decode, CreateRequest_encode_body. cbn [fst].
  change (as_u16 (as_u32 _)) with 120 at 1. rewrite as_len by done. decodes.
  apply Run_buffer; [lens|done|]. rewrite decode_encode_utf16le by done. apply Run_ret. by destruct q.
Qed.

Lemma align_aligned out : (length out mod 8 = 0)%nat -> Writer_align 8 out = out.
Proof.
  intros H. unfold Writer_align. cbn [Z.leb Z.compare Pos.compare Pos.compare_cont].
  change (8 - 1) with (Z.ones 3). rewrite Z.land_ones by lia. change (2 ^ 3) with (Z.of_nat 8).
  by rewrite <-Nat2Z.inj_mod, H.
Qed.
Lemma ReadResponse_rt p out t : length out = 64%nat -> Z.of_nat (length (rp_data p)) < 2 ^ 32 ->
  ReadResponse_decode ((ReadResponse_encode_body p out 64).1 ++ t) 64 = Ok p.
Proof.
  intros Ho ?. unfold ReadResponse_decode, ReadResponse_encode_body. cbn [fst].
  change (as_u8 (as_u32 (Z.of_nat 64 + 16))) with 80. rewrite as_len by done. encoded.
  rewrite align_aligned by (lens; by rewrite Ho). rewrite <-!app_assoc. apply decode_body_Ok; [done|lens|done|]. runs.
  apply Run_buffer; [lens|done|]. apply Run_ret. by destruct p.
Qed.

Definition write_request_ok (q : WriteRequest) : Prop :=
  wq_length q = Z.of_nat (length (wq_data q)) /\ is_u32 (wq_length q) /\ is_u64 (wq_offset q)
  /\ file_id_ok (wq_file_id q).
Lemma WriteRequest_rt q out t : length out = 64%nat -> write_request_ok q ->
  WriteRequest_decode ((WriteRequest_encode_body q out 64).1 ++ t) 64 = Ok q.
Proof.
  intros Ho (Hl&?&?&?). unfold WriteRequest_decode, WriteRequest_encode_body. cbn [fst].
  change (as_u8 (as_u32 _)) with 112 at 1. decodes.
  apply Run_buffer; [lens|done|]. apply Run_ret. by destruct q.
Qed.

(** ** The transform header *)

Definition transform_ok (h : TransformHeader) : Prop :=
  length (th_signature h) = 16%nat /\ length (th_nonce h) = 16%nat /\ is_u32 (th_original_message_size h)
  /\ is_u16 (th_flags h) /\ is_u64 (th_session_id h).
Lemma decode_encode_transform h t : transform_ok h ->
  TransformHeader_decode (TransformHeader_encode h [] ++ t) = Ok h.
Proof.
  intros (?&?&?&?&?). unfold TransformHeader_decode, TransformHeader_encode. encoded.
  set (u := th_signature h ++ _). assert (52 <= length ([] ++ SMB2_TRANSFORM_MAGIC ++ u))%nat as Hl
    by (unfold u; lens; change (length SMB2_TRANSFORM_MAGIC) with 4%nat; lia).
  rewrite (proj2 (Nat.ltb_ge _ _)) by (unfold SMB2_TRANSFORM_HEADER_SIZE; lia). rewrite slice_Ok by lia. cbn [rbind].
  change (take _ (drop 0 _)) with SMB2_TRANSFORM_MAGIC at 1. rewrite bool_decide_eq_true_2 by done. cbn [negb].
  unfold Reader_at. rewrite (proj2 (Nat.ltb_ge _ _)) by lia. cbn [rbind].
  assert (Run transform_fields ([] ++ SMB2_TRANSFORM_MAGIC ++ u) u (Ok h)) as Hr.
  { unfold u at 2, transform_fields, read_signature. runs. apply Run_ret. by destruct h. }
  apply Hr; [lia|done].
Qed.

(** ** Negotiate contexts *)

Definition pad8 (n : nat) : nat := (if n mod 8 =? 0 then 0 else 8 - n mod 8)%nat.
(** Names quotient and remainder by eight. *)
Ltac mod_facts a :=
  let q := fresh "q" in let r := fresh "r" in
  pose proof (Nat.div_mod_eq a 8); pose proof (Nat.mod_upper_bound a 8 ltac:(lia));
  set (q := (a / 8)%nat) in *; set (r := (a mod 8)%nat) in *; clearbody q r.
Ltac mod8 :=
  unfold pad8 in *; repeat match goal with |- context [(?a =? ?b)%nat] => destruct (Nat.eqb_spec a b) end;
  repeat match goal with
  | |- context [(?a mod 8)%nat] => mod_facts a
  | H : context [(?a mod 8)%nat] |- _ => mod_facts a
  end; lia.

Definition context_ok (c : NegotiateContext) : Prop :=
  is_u16 (context_type c) /\ Z.of_nat (length (ctx_data c)) < 2 ^ 16.
Definition ctx_bytes (c : NegotiateContext) : bytes :=
  to_le 2 (context_type c) ++ to_le 2 (Z.of_nat (length (ctx_data c))) ++ to_le 4 0 ++ ctx_data c.
(** The list on the wire: the padding stands between the contexts. *)
Fixpoint ctx_list (cs : list NegotiateContext) : bytes :=
  match cs with
  | [] => []
  | [c] => ctx_bytes c
  | c :: cs => ctx_bytes c ++ replicate (pad8 (length (ctx_bytes c))) x00 ++ ctx_list cs
  end.

Lemma align_eq out : Writer_align 8 out = out ++ replicate (pad8 (length out)) x00.
Proof.
  unfold Writer_align. cbn [Z.leb Z.compare Pos.compare Pos.compare_cont].
  change (8 - 1) with (Z.ones 3). rewrite Z.land_ones by lia. change (2 ^ 3) with (Z.of_nat 8). rewrite <-Nat2Z.inj_mod.
  destruct (Z.eqb_spec (Z.of_nat (length out mod 8)) 0) as [E|E]; cbn [negb].
  - replace (pad8 (length out)) with 0%nat by mod8. by rewrite app_nil_r.
  - unfold Writer_pad, write_raw. do 2 f_equal. mod8.
Qed.
Lemma length_ctx_bytes c : length (ctx_bytes c) = (8 + length (ctx_data c))%nat.
Proof. unfold ctx_bytes. lens. Qed.

Lemma encode_all_eq cs out : (length out mod 8 = 0)%nat -> Forall context_ok cs -> encode_all cs out = out ++ ctx_list cs.
Proof.
  intros Ho Hc. revert out Ho. unfold encode_all. induction Hc as [|c cs [Hc1 Hc2] _ IH]; intros out Ho; [by rewrite app_nil_r|].
  cbn [encode_contexts]. assert (encode_context c out = out ++ ctx_bytes c) as ->.
  { unfold encode_context. encoded. unfold ctx_bytes. by rewrite as_len. }
  destruct cs as [|c' cs]; [done|].
  change (encode_contexts false (c' :: cs) ?o) with (encode_contexts true (c' :: cs) (Writer_align 8 o)).
  rewrite align_eq, IH by (rewrite !length_app, length_replicate; mod8). rewrite <-!app_assoc.
  replace (pad8 (length (out ++ ctx_bytes c))) with (pad8 (length (ctx_bytes c))) by (rewrite length_app; mod8). done.
Qed.

(** Decoding one context, in a buffer whose part before it is a multiple of
    eight long. *)
Lemma u16_at_Ok pre v post i : length pre = i -> is_u16 v -> u16_at (pre ++ to_le 2 v ++ post) i = Ok v.
Proof. intros <- Hv. unfold u16_at. rewrite slice_app by lens. cbn [rbind]. by rewrite of_to_le_id. Qed.

Lemma decode_context_step n pre c rest : (length pre mod 8 = 0)%nat -> context_ok c ->
  decode_contexts (S n) (pre ++ ctx_bytes c ++ rest) (length pre) =
  let? r := decode_contexts n (pre ++ ctx_bytes c ++ rest)
              (length pre + length (ctx_bytes c) + pad8 (length (ctx_bytes c))) in Ok (c :: r).
Proof.
  intros Hp [Hc1 Hc2]. pose proof (length_ctx_bytes c) as Hn. set (buf := pre ++ ctx_bytes c ++ rest).
  assert (length buf = length pre + (8 + length (ctx_data c) + length rest))%nat as Hb by (unfold buf; rewrite !length_app; lia).
  assert (u16_at buf (length pre) = Ok (context_type c)) as E1.
  { unfold buf, ctx_bytes. rewrite <-!app_assoc. by apply u16_at_Ok. }
  assert (u16_at buf (length pre + 2) = Ok (Z.of_nat (length (ctx_data c)))) as E2.
  { unfold buf, ctx_bytes. rewrite <-!app_assoc, app_assoc. apply u16_at_Ok; [lens|unfold is_uint; lia]. }
  assert (@slice SmbError buf (length pre + 8) (length pre + 8 + length (ctx_data c)) = Ok (ctx_data c)) as E3.
  { unfold buf, ctx_bytes. rewrite <-!app_assoc, !(app_assoc pre), (app_assoc (pre ++ _)), (app_assoc ((pre ++ _) ++ _)).
    apply slice_app; lens. }
  cbn [decode_contexts]. rewrite (proj2 (Nat.ltb_ge _ _)) by lia. rewrite E1, E2. cbn [rbind]. rewrite Nat2Z.id.
  rewrite (proj2 (Z.ltb_ge _ _)) by lia. rewrite E3. cbn [rbind].
  set (next := (length pre + 8 + length (ctx_data c))%nat).
  replace (if (next mod 8 =? 0)%nat then next else (next + (8 - next mod 8))%nat)
    with (length pre + length (ctx_bytes c) + pad8 (length (ctx_bytes c)))%nat by (rewrite Hn; unfold next; mod8).
  by destruct c.
Qed.

(** Decoding a list of contexts; what follows starts at the next multiple of
    eight. *)
Lemma decode_context_list cs n pre tail : cs <> [] -> Forall context_ok cs -> (length pre mod 8 = 0)%nat ->
  decode_contexts (length cs + n) (pre ++ ctx_list cs ++ tail) (length pre) =
  let? r := decode_contexts n (pre ++ ctx_list cs ++ tail)
              (length pre + length (ctx_list cs) + pad8 (length (ctx_list cs))) in Ok (cs ++ r).
Proof.
  intros Hne Hc. revert pre Hne. induction Hc as [|c cs Hc Hcs IH]; intros pre Hne Hp; [done|].
  cbn [length Nat.add]. destruct cs as [|c' cs].
  - cbn [ctx_list length Nat.add app]. by rewrite decode_context_step.
  - change (ctx_list (c :: c' :: cs)) with (ctx_bytes c ++ replicate (pad8 (length (ctx_bytes c))) x00 ++ ctx_list (c' :: cs)).
    rewrite <-!app_assoc, decode_context_step by done.
    set (pre' := pre ++ ctx_bytes c ++ replicate (pad8 (length (ctx_bytes c))) x00).
    assert (length pre' = length pre + length (ctx_bytes c) + pad8 (length (ctx_bytes c)))%nat as Hl
      by (unfold pre'; rewrite !length_app, length_replicate; lia).
    assert (forall x, pre ++ ctx_bytes c ++ replicate (pad8 (length (ctx_bytes c))) x00 ++ x = pre' ++ x) as E
      by (intros x; unfold pre'; by rewrite <-!app_assoc).
    rewrite E, <-Hl, IH by (done || (rewrite Hl; mod8)).
    replace (length pre + length (ctx_bytes c ++ _) + pad8 _)%nat
      with (length pre' + length (ctx_list (c' :: cs)) + pad8 (length (ctx_list (c' :: cs))))%nat.
    + by destruct (decode_contexts n _ _).
    + rewrite !length_app, length_replicate, Hl. mod8.
Qed.

Lemma of_le_u16 l : length l = 2%nat -> is_u16 (of_le l).
Proof. intros H. pose proof (of_le_range l) as Hr. rewrite H in Hr. exact Hr. Qed.

(** Enough rounds: the result does not depend on their number, and is no panic. *)
Lemma decode_contexts_total n buf pos : (length buf < pos + 8 * S n)%nat ->
  match decode_contexts n buf pos with
  | Ok cs => Forall context_ok cs | Err e => e = Malformed ContextTruncated | Panic => False end.
Proof.
  revert pos. induction n as [|n IH]; intros pos Hn; cbn [decode_contexts].
  - by rewrite (proj2 (Nat.ltb_lt _ _)) by lia.
  - destruct (Nat.ltb_spec (length buf) (pos + 8)) as [|Hl]; [done|]. unfold u16_at. rewrite !slice_Ok by lia. cbn [rbind].
    set (dl := of_le _). assert (is_u16 dl) as Hdl by (apply of_le_u16; rewrite length_take, length_drop; lia).
    set (ct := of_le _). assert (is_u16 ct) as Hct by (apply of_le_u16; rewrite length_take, length_drop; lia).
    clearbody ct dl. destruct (Z.ltb_spec (Z.of_nat (length buf)) (Z.of_nat (pos + 8) + dl)) as [|Hd]; [done|].
    unfold is_uint in Hdl. rewrite slice_Ok by lia. cbn [rbind].
    match goal with |- context [decode_contexts n buf ?x] => set (next := x) end.
    assert (pos + 8 <= next)%nat as Hnx by (unfold next; case_match; lia).
    specialize (IH next ltac:(lia)). destruct (decode_contexts n buf next); [|done..]. constructor; [|done].
    split; [done|]. cbn [ctx_data]. rewrite length_take, length_drop. lia.
Qed.

Lemma decode_contexts_rounds n m buf pos : (length buf < pos + 8 * S n)%nat -> (n <= m)%nat ->
  decode_contexts m buf pos = decode_contexts n buf pos.
Proof.
  revert m pos. induction n as [|n IH]; intros m pos Hn Hm.
  - destruct m; [done|]. cbn [decode_contexts]. by rewrite (proj2 (Nat.ltb_lt _ _)) by lia.
  - destruct m as [|m]; [lia|]. cbn [decode_contexts]. destruct (Nat.ltb_spec (length buf) (pos + 8)) as [|Hl]; [done|].
    destruct (u16_at buf pos) as [ct| |]; [|done..]. cbn [rbind]. destruct (u16_at buf (pos + 2)) as [dl| |]; [|done..]. cbn [rbind].
    destruct (_ <? _); [done|]. destruct (slice buf _ _) as [data| |]; [|done..]. cbn [rbind].
    rewrite IH by (repeat case_match; lia). done.
Qed.
(** A prefix whose length is a multiple of eight only shifts the positions. *)
Lemma slice_shift {E} pre (buf : bytes) i j : @slice E (pre ++ buf) (length pre + i) (length pre + j) = slice buf i j.
Proof.
  unfold slice. rewrite length_app, <-drop_drop, drop_app_length.
  replace (length pre + i <=? length pre + j)%nat with (i <=? j)%nat by (apply Bool.eq_true_iff_eq; rewrite !Nat.leb_le; lia).
  replace (length pre + j <=? length pre + length buf)%nat with (j <=? length buf)%nat
    by (apply Bool.eq_true_iff_eq; rewrite !Nat.leb_le; lia).
  by replace (length pre + j - (length pre + i))%nat with (j - i)%nat by lia.
Qed.
Lemma decode_contexts_shift n pre buf pos : (length pre mod 8 = 0)%nat ->
  decode_contexts n (pre ++ buf) (length pre + pos) = decode_contexts n buf pos.
Proof.
  intros Hp. revert pos. induction n as [|n IH]; intros pos; cbn [decode_contexts].
  - rewrite length_app. destruct (Nat.ltb_spec (length buf) (pos + 8)).
    + by rewrite (proj2 (Nat.ltb_lt _ _)) by lia.
    + by rewrite (proj2 (Nat.ltb_ge _ _)) by lia.
  - rewrite length_app. replace (length pre + length buf <? length pre + pos + 8)%nat with (length buf <? pos + 8)%nat
      by (apply Bool.eq_true_iff_eq; rewrite !Nat.ltb_lt; lia).
    destruct (length buf <? pos + 8)%nat; [done|]. unfold u16_at. rewrite <-!Nat.add_assoc, !slice_shift.
    destruct (slice buf pos (pos + 2)) as [ct| |]; [|done..]. cbn [rbind].
    destruct (slice buf (pos + 2) _) as [dl| |]; [|done..]. cbn [rbind].
    replace (Z.of_nat (length pre + length buf) <? Z.of_nat (length pre + (pos + 8)) + of_le dl)
      with (Z.of_nat (length buf) <? Z.of_nat (pos + 8) + of_le dl) by (apply Bool.eq_true_iff_eq; rewrite !Z.ltb_lt; lia).
    destruct (_ <? _); [done|]. rewrite <-!Nat.add_assoc, slice_shift.
    destruct (slice buf _ _) as [data| |]; [|done..]. cbn [rbind]. rewrite <-IH. do 2 f_equal. mod8.
Qed.

Lemma length_ctx_list cs : (length cs <= length (ctx_list cs))%nat.
Proof.
  induction cs as [|c [|c' cs] IH]; [done|cbn; rewrite length_ctx_bytes; lia|].
  change (ctx_list (c :: c' :: cs)) with (ctx_bytes c ++ replicate (pad8 (length (ctx_bytes c))) x00 ++ ctx_list (c' :: cs)).
  rewrite !length_app, length_ctx_bytes. cbn [length] in *. lia.
Qed.
(** The contexts, then what the decoder makes of the bytes after them. *)
Lemma decode_all_tail cs sb : cs <> [] -> Forall context_ok cs ->
  decode_all (ctx_list cs ++ replicate (pad8 (length (ctx_list cs))) x00 ++ sb) = let? r := decode_all sb in Ok (cs ++ r).
Proof.
  intros Hne Hc. pose proof (length_ctx_list cs) as Hl. unfold decode_all. set (buf := ctx_list cs ++ _).
  assert (length buf = length (ctx_list cs) + pad8 (length (ctx_list cs)) + length sb)%nat as Hb
    by (unfold buf; rewrite !length_app, length_replicate; lia).
  assert (exists m, length buf = length cs + m /\ length sb <= m)%nat as (m & -> & Hm)
    by (exists (length buf - length cs)%nat; lia).
  pose proof (decode_context_list cs m [] (replicate (pad8 (length (ctx_list cs))) x00 ++ sb) Hne Hc eq_refl) as E.
  cbn [app length Nat.add] in E. fold buf in E. rewrite E. clear E.
  set (pre := ctx_list cs ++ replicate (pad8 (length (ctx_list cs))) x00).
  assert (length (ctx_list cs) + pad8 (length (ctx_list cs)) = length pre)%nat as -> by (unfold pre; rewrite length_app, length_replicate; lia).
  replace buf with (pre ++ sb) by (unfold pre, buf; by rewrite <-app_assoc).
  rewrite <-(Nat.add_0_r (length pre)), decode_contexts_shift by (unfold pre; rewrite length_app, length_replicate; mod8).
  rewrite (decode_contexts_rounds (length sb)) by lia. done.
Qed.
Lemma decode_all_list cs : cs <> [] -> Forall context_ok cs -> decode_all (ctx_list cs) = Ok cs.
Proof.
  intros Hne Hc. pose proof (length_ctx_list cs) as Hl. unfold decode_all.
  replace (length (ctx_list cs)) with (length cs + (length (ctx_list cs) - length cs))%nat by lia.
  pose proof (decode_context_list cs (length (ctx_list cs) - length cs) [] [] Hne Hc eq_refl) as E.
  cbn [app length Nat.add] in E. rewrite app_nil_r in E. rewrite E.
  rewrite (decode_contexts_rounds 0) by lia. cbn [decode_contexts].
  rewrite (proj2 (Nat.ltb_lt _ _)) by lia. cbn. by rewrite app_nil_r.
Qed.

Lemma align8_up off : 0 <= off -> off mod 8 = 0 -> Z.land (off + 7) (Z.lnot 7) = off.
Proof.
  intros H0 H. rewrite <-Z.ldiff_land. change 7 with (Z.ones 3) at 2. rewrite Z.ldiff_ones_r by lia.
  rewrite Z.shiftr_div_pow2, Z.shiftl_mul_pow2 by lia. change (2 ^ 3) with 8. Z.to_euclidean_division_equations. lia.
Qed.
Lemma Run_contexts {A} (k : list NegotiateContext -> Reader A) pre cs rest (more : Result SmbError (list NegotiateContext))
    count off l a :
  count = Z.of_nat (length cs) -> off = Z.of_nat (length pre) -> (length pre mod 8 = 0)%nat -> (0 < length pre)%nat ->
  cs <> [] -> decode_all (ctx_list cs ++ rest) = (let? r := more in Ok (cs ++ r)) ->
  Run (k cs) (pre ++ ctx_list cs ++ rest) l a ->
  Run (let* x := read_contexts (pre ++ ctx_list cs ++ rest) count off in k x) (pre ++ ctx_list cs ++ rest) l
    (let? _ := more in a).
Proof.
  intros -> -> Hm Hp Hne Hd Hk pos Hpos Hdrop. pose proof (length_ctx_list cs) as Hl.
  assert (0 < length cs)%nat as Hn by (destruct cs; [done|cbn; lia]).
  unfold bind at 1, read_contexts. rewrite (proj2 (Z.ltb_lt _ _)) by lia. rewrite !length_app.
  rewrite (proj2 (Z.eqb_neq _ _)), (proj2 (Z.leb_gt _ _)) by lia. cbn [orb].
  rewrite align8_up by (lia || (change 8 with (Z.of_nat 8); rewrite <-Nat2Z.inj_mod; lia)).
  rewrite Z.min_l, Nat2Z.id by lia. unfold bind, lift. rewrite slice_Ok by (rewrite !length_app; lia). cbn [rbind fst snd].
  rewrite drop_app_length, take_ge by (rewrite length_app; lia). rewrite Hd. destruct more as [r| |]; [|done..].
  cbn [rbind fst snd ret]. rewrite Nat2Z.id, take_app_length. by apply Hk.
Qed.
Lemma Run_no_contexts {A} (k : list NegotiateContext -> Reader A) buf off l a :
  Run (k []) buf l a -> Run (let* x := read_contexts buf 0 off in k x) buf l a.
Proof. done. Qed.

Lemma dialect_wire d : is_u16 (Dialect_to_wire d) /\ Dialect_from_wire (Dialect_to_wire d) = Some d.
Proof. by destruct d. Qed.
Lemma Run_dialects {A} (k : list Dialect -> Reader A) buf ds l a :
  Run (k ds) buf l a -> Run (let* x := read_dialects (length ds) in k x) buf (units_le (map Dialect_to_wire ds) ++ l) a.
Proof.
  revert k. induction ds as [|d ds IH]; intros k Hk; [done|]. cbn [length read_dialects map]. unfold units_le in *.
  cbn [map concat]. rewrite <-app_assoc. destruct (dialect_wire d) as [Hu Hd].
  eapply Run_ext; [intros r; apply bind_assoc|]. apply Run_u16; [done|]. rewrite Hd.
  eapply Run_ext; [intros r; apply bind_assoc|]. apply IH. exact Hk.
Qed.

(** ** Negotiate *)

Definition negotiate_request_ok (q : NegotiateRequest) : Prop :=
  Z.of_nat (length (nq_dialects q)) < 2 ^ 16 /\ is_u16 (nq_security_mode q) /\ is_u32 (nq_capabilities q)
  /\ is_u128 (nq_client_guid q) /\ Z.of_nat (length (nq_negotiate_contexts q)) < 2 ^ 16
  /\ Forall context_ok (nq_negotiate_contexts q).

(** The fixed part of the body up to the dialects. *)
Definition request_fixed (q : NegotiateRequest) (ctx_offset : Z) : bytes :=
  to_le 2 36 ++ to_le 2 (Z.of_nat (length (nq_dialects q))) ++ to_le 2 (nq_security_mode q) ++ to_le 2 0
  ++ to_le 4 (nq_capabilities q) ++ uuid_as_bytes (nq_client_guid q) ++ to_le 4 ctx_offset
  ++ to_le 2 (Z.of_nat (length (nq_negotiate_contexts q))) ++ to_le 2 0
  ++ units_le (map Dialect_to_wire (nq_dialects q)).
Lemma length_request_fixed q off : length (request_fixed q off) = (36 + 2 * length (nq_dialects q))%nat.
Proof. unfold request_fixed. lens. unfold uuid_as_bytes. rewrite length_units_le, length_map, length_to_be. lia. Qed.

Lemma padded n : Z.of_nat n + (8 - Z.of_nat n mod 8) mod 8 = Z.of_nat (n + pad8 n).
Proof.
  unfold pad8. change 8 with (Z.of_nat 8). rewrite <-Nat2Z.inj_mod. pose proof (Nat.mod_upper_bound n 8 ltac:(lia)).
  destruct (Nat.eqb_spec (n mod 8) 0) as [->|];
    [change ((Z.of_nat 8 - Z.of_nat 0) mod Z.of_nat 8) with 0; lia|].
  rewrite Z.mod_small by lia. lia.
Qed.

(** The encoder does not panic; where it puts the contexts. *)
Lemma NegotiateRequest_bytes q out : length out = 64%nat -> negotiate_request_ok q ->
  exists body o, NegotiateRequest_encode_body q out 64 = Ok (out ++ body, o) /\
  body = match nq_negotiate_contexts q with
         | [] => request_fixed q 0
         | cs => request_fixed q (Z.of_nat (100 + 2 * length (nq_dialects q) + pad8 (100 + 2 * length (nq_dialects q))))
                 ++ replicate (pad8 (100 + 2 * length (nq_dialects q))) x00 ++ ctx_list cs
         end.
Proof.
  intros Ho (Hd&_&_&_&Hn&Hc). unfold NegotiateRequest_encode_body. rewrite !as_len by done.
  replace (Z.of_nat 64 + 36 + Z.of_nat (length (nq_dialects q)) * 2) with (Z.of_nat (100 + 2 * length (nq_dialects q))) by lia.
  rewrite padded. set (m := (100 + 2 * length (nq_dialects q))%nat) in *.
  destruct (nq_negotiate_contexts q) as [|c cs] eqn:Ec.
  - do 2 eexists. split; [|done]. unfold request_fixed. rewrite Ec. encoded. done.
  - rewrite as_len by (unfold m; mod8). encoded. rewrite <-?app_assoc.
    match goal with |- context [Writer_align 8 ?x] => assert (x = out ++ request_fixed q (Z.of_nat (m + pad8 m))) as E end.
    { unfold request_fixed. by rewrite Ec. }
    rewrite E. rewrite align_eq, encode_all_eq; [|rewrite !length_app, length_replicate, length_request_fixed, Ho; mod8|done].
    rewrite !length_app, length_replicate, length_request_fixed, Ho.
    replace (64 + (36 + 2 * length (nq_dialects q)))%nat with m by (unfold m; lia).
    rewrite (proj2 (Z.eqb_eq _ _)) by (unfold m; lia). cbn [negb]. do 2 eexists. split; [|done]. by rewrite <-!app_assoc.
Qed.
Lemma NegotiateRequest_rt q out : length out = 64%nat -> negotiate_request_ok q ->
  exists buf o, NegotiateRequest_encode_body q out 64 = Ok (buf, o) /\ out `prefix_of` buf
    /\ NegotiateRequest_decode buf 64 = Ok q.
Proof.
  intros Ho Hq. destruct (NegotiateRequest_bytes q out Ho Hq) as (body & o & E & Hb). exists (out ++ body), o.
  split_and!; [done|by apply prefix_app_r|]. destruct Hq as (Hd&?&?&?&Hn&Hc). unfold NegotiateRequest_decode.
  set (m := (100 + 2 * length (nq_dialects q))%nat) in *.
  destruct (nq_negotiate_contexts q) as [|c cs] eqn:Ec.
  - rewrite Hb. unfold request_fixed. rewrite Ec. rewrite <-(app_nil_r (units_le _)).
    apply decode_body_Ok; [done|lens; unfold uuid_as_bytes; rewrite length_to_be; lia|done|].
    apply Run_u16; [unfold is_uint; lia|]. runs. rewrite Nat2Z.id. apply Run_dialects. apply Run_no_contexts.
    apply Run_ret. destruct q. cbn in Ec. by subst.
  - set (off := Z.of_nat (m + pad8 m)) in *. set (pre := out ++ request_fixed q off ++ replicate (pad8 m) x00).
    assert (length pre = m + pad8 m)%nat as Hl
      by (unfold pre; rewrite !length_app, length_replicate, length_request_fixed; unfold m; lia).
    assert (is_u32 off) by (unfold off, m, is_uint; mod8).
    assert (out ++ body = pre ++ ctx_list (c :: cs) ++ []) as Eb by (rewrite Hb, app_nil_r; unfold pre; by rewrite <-!app_assoc).
    rewrite Hb. unfold request_fixed. rewrite <-!app_assoc.
    apply decode_body_Ok; [done|lens; unfold uuid_as_bytes; rewrite length_to_be; lia|done|].
    apply Run_u16; [unfold is_uint; lia|]. runs. rewrite Ec. apply Run_u16; [unfold is_uint; lia|]. runs.
    rewrite Nat2Z.id. apply Run_dialects.
    match goal with |- Run _ ?b _ _ => assert (b = pre ++ ctx_list (c :: cs) ++ []) as -> end.
    { rewrite <-Eb, Hb. unfold request_fixed. rewrite Ec. by rewrite <-!app_assoc. }
    apply (Run_contexts _ pre (c :: cs) [] (Ok [])); [done|unfold off; lia|rewrite Hl; mod8|lia|done|..].
    + cbn [rbind]. by rewrite !app_nil_r, decode_all_list.
    + apply Run_ret. destruct q. cbn in Ec. by subst.
Qed.

Definition negotiate_response_typed (p : NegotiateResponse) : Prop :=
  is_u16 (np_security_mode p) /\ is_u16 (np_dialect_revision p) /\ is_u32 (np_capabilities p)
  /\ is_u128 (np_server_guid p) /\ is_u32 (np_max_transact_size p) /\ is_u32 (np_max_read_size p)
  /\ is_u32 (np_max_write_size p) /\ is_u64 (np_system_time p) /\ is_u64 (np_boot_time p)
  /\ Z.of_nat (length (np_security_buffer p)) < 2 ^ 16 /\ Z.of_nat (length (np_negotiate_contexts p)) < 2 ^ 16
  /\ Forall context_ok (np_negotiate_contexts p).
(** The security buffer starts within the reach of its 16-bit offset. *)
Definition negotiate_response_ok (p : NegotiateResponse) : Prop :=
  negotiate_response_typed p /\ Z.of_nat (136 + length (ctx_list (np_negotiate_contexts p))) <= 2 ^ 16.

Definition response_fixed (p : NegotiateResponse) (ctx_offset sb_offset : Z) : bytes :=
  to_le 2 65 ++ to_le 2 (np_security_mode p) ++ to_le 2 (np_dialect_revision p)
  ++ to_le 2 (Z.of_nat (length (np_negotiate_contexts p))) ++ to_le 4 ctx_offset ++ uuid_as_bytes (np_server_guid p)
  ++ to_le 4 (np_capabilities p) ++ to_le 4 (np_max_transact_size p) ++ to_le 4 (np_max_read_size p)
  ++ to_le 4 (np_max_write_size p) ++ to_le 8 (np_system_time p) ++ to_le 8 (np_boot_time p) ++ to_le 2 sb_offset
  ++ to_le 2 (Z.of_nat (length (np_security_buffer p))).
Lemma length_response_fixed p c b : length (response_fixed p c b) = 64%nat.
Proof. unfold response_fixed. lens. unfold uuid_as_bytes. rewrite length_to_be. lia. Qed.

Definition response_tail (p : NegotiateResponse) : bytes :=
  ctx_list (np_negotiate_contexts p) ++
  match np_security_buffer p with
  | [] => []
  | sb => replicate (pad8 (length (ctx_list (np_negotiate_contexts p)))) x00 ++ sb
  end.
Definition response_ctx_offset (p : NegotiateResponse) : Z := match np_negotiate_contexts p with [] => 0 | _ => 128 end.
Definition response_sb_offset (p : NegotiateResponse) : Z :=
  match np_security_buffer p with
  | [] => 0
  | _ => let n := length (ctx_list (np_negotiate_contexts p)) in Z.of_nat (128 + n + pad8 n)
  end.

Lemma NegotiateResponse_bytes p out : length out = 64%nat -> negotiate_response_ok p ->
  NegotiateResponse_encode_body p out 64 =
    Ok (out ++ response_fixed p (response_ctx_offset p) (response_sb_offset p) ++ response_tail p, response_ctx_offset p).
Proof.
  intros Ho [(_&_&_&_&_&_&_&_&_&Hs&Hn&Hc) Hb]. unfold NegotiateResponse_encode_body. rewrite Ho, Nat.eqb_refl. cbn [negb].
  set (cs := np_negotiate_contexts p) in *. set (n := length (ctx_list cs)) in *.
  assert ((if match cs with [] => false | _ => true end then encode_all cs [] else []) = ctx_list cs) as ->.
  { destruct cs; [done|]. by rewrite encode_all_eq. }
  assert ((if match cs with [] => false | _ => true end then as_u32 (Z.of_nat 64 + 64) else 0) = response_ctx_offset p) as ->.
  { unfold response_ctx_offset. fold cs. by destruct cs. }
  fold n. replace (Z.of_nat 64 + 64 + Z.of_nat n) with (Z.of_nat (128 + n)) by lia. rewrite padded.
  replace (pad8 (128 + n)) with (pad8 n) by mod8.
  assert (as_u16 (match np_security_buffer p with [] => 0 | _ => as_u32 (Z.of_nat (128 + n + pad8 n)) end) = response_sb_offset p) as ->.
  { unfold response_sb_offset. fold cs n. destruct (np_security_buffer p); [done|]. assert (pad8 n <= 7)%nat by mod8.
    by rewrite !as_len by lia. }
  rewrite !as_len by done.
  match goal with |- context [negb (length ?x =? _)%nat] => set (o := x) end.
  assert (o = out ++ response_fixed p (response_ctx_offset p) (response_sb_offset p)) as Eo by (unfold o; encoded; done).
  assert (length o = 128%nat) as Hl by (rewrite Eo, length_app, length_response_fixed; lia).
  rewrite Hl. cbn [Nat.add Nat.eqb negb]. clearbody o. f_equal. f_equal. unfold response_tail, write_raw. fold cs n.
  assert ((if match cs with [] => false | _ => true end then o ++ ctx_list cs else o) = o ++ ctx_list cs) as ->.
  { destruct cs; [by rewrite app_nil_r|done]. }
  destruct (np_security_buffer p) as [|b sb]; [by rewrite app_nil_r, Eo, <-app_assoc|].
  rewrite align_eq, Eo, <-!app_assoc. do 5 f_equal. rewrite !length_app, length_response_fixed, Ho. fold n. mod8.
Qed.

(** The buffer and the contexts of an encoded response, as the decoder finds
    them. *)
Lemma Run_response_buffer (k : bytes -> Reader NegotiateResponse) p out fixed l a :
  length out = 64%nat -> length fixed = 64%nat -> Run (k (np_security_buffer p)) (out ++ fixed ++ response_tail p) l a ->
  Run (let* x := read_buffer SNegotiateResponse (out ++ fixed ++ response_tail p) (response_sb_offset p)
                   (Z.of_nat (length (np_security_buffer p))) in k x) (out ++ fixed ++ response_tail p) l a.
Proof.
  intros Ho Hf. unfold response_tail, response_sb_offset. set (n := length (ctx_list (np_negotiate_contexts p))).
  destruct (np_security_buffer p) as [|b sb]; [done|].
  set (pre := out ++ fixed ++ ctx_list (np_negotiate_contexts p) ++ replicate (pad8 n) x00).
  replace (out ++ _) with (pre ++ (b :: sb) ++ []) by (unfold pre; by rewrite <-!app_assoc, app_nil_r).
  apply Run_buffer_at. unfold pre. rewrite !length_app, length_replicate. fold n. lia.
Qed.
Lemma Run_response_contexts (k : list NegotiateContext -> Reader NegotiateResponse) p out fixed l a :
  length out = 64%nat -> length fixed = 64%nat -> Forall context_ok (np_negotiate_contexts p) ->
  Run (k (np_negotiate_contexts p)) (out ++ fixed ++ response_tail p) l a ->
  Run (let* x := read_contexts (out ++ fixed ++ response_tail p) (Z.of_nat (length (np_negotiate_contexts p)))
                   (response_ctx_offset p) in k x) (out ++ fixed ++ response_tail p) l
    (match np_negotiate_contexts p with [] => a | _ => let? _ := decode_all (np_security_buffer p) in a end).
Proof.
  intros Ho Hf Hc. unfold response_tail, response_ctx_offset.
  destruct (np_negotiate_contexts p) as [|c cs]; [done|]. rewrite (app_assoc out).
  apply Run_contexts; [done|rewrite length_app; lia|rewrite length_app, Ho, Hf; done|rewrite length_app; lia|done|].
  destruct (np_security_buffer p) as [|b sb].
  - cbn [rbind decode_all decode_contexts length Nat.ltb Nat.leb Nat.add]. by rewrite !app_nil_r, decode_all_list.
  - by rewrite decode_all_tail.
Qed.

(** The decoder reads contexts up to the end of the message, security buffer
    included, before it cuts the list to the announced count. *)
Lemma NegotiateResponse_rt p out : length out = 64%nat -> negotiate_response_ok p ->
  exists buf o, NegotiateResponse_encode_body p out 64 = Ok (buf, o) /\ out `prefix_of` buf
    /\ NegotiateResponse_decode buf 64 =
       match np_negotiate_contexts p with
       | [] => Ok p
       | _ => let? _ := decode_all (np_security_buffer p) in Ok p
       end.
Proof.
  intros Ho Hp. do 2 eexists. split; [by apply NegotiateResponse_bytes|]. split; [by apply prefix_app_r|].
  destruct Hp as [(?&?&?&?&?&?&?&?&?&Hs&Hn&Hc) Hb]. unfold NegotiateResponse_decode.
  assert (is_u16 (response_sb_offset p)).
  { unfold response_sb_offset. set (n := length (ctx_list _)) in *. assert (pad8 n <= 7)%nat by mod8.
    destruct (np_security_buffer p); [done|]. unfold is_uint. lia. }
  assert (is_u32 (response_ctx_offset p)) by (unfold response_ctx_offset; by destruct (np_negotiate_contexts p)).
  pose proof (length_response_fixed p (response_ctx_offset p) (response_sb_offset p)) as Hf.
  set (fixed := response_fixed p _ _) in *.
  eapply (decode_body_at _ _ _ _ out).
  { unfold fixed, response_fixed. rewrite <-!app_assoc. reflexivity. }
  { done. }
  { lens. unfold uuid_as_bytes. rewrite length_to_be. lia. }
  { done. }
  runs. apply Run_response_buffer; [done..|]. apply Run_response_contexts; [done..|]. apply Run_ret. by destruct p.
Qed.
