(* ===== verification/SmbSpec.v ===== *)
(** * SmbSpec: the contract of the SMB2 codecs

    Totality of every decoder on arbitrary bytes, the round trip of every request
    and response from the encoder a client or server calls to the header and the
    body the peer decodes, the NetBIOS frame, and what the pre-authentication
    hash commits to. *)
From S2P Require Import Prelude Bytes Text StorageKeys Utf16 Smb SmbMessages SmbProofs.

(** ** Totality *)

Definition Total {A} (d : Reader A) (P : A -> Prop) : Prop :=
  forall r, (cur_pos r <= length (cur_buf r))%nat ->
    match d r with
    | Ok (a, r') => P a /\ cur_buf r' = cur_buf r /\ (cur_pos r' <= length (cur_buf r))%nat
    | Err _ => True
    | Panic => False
    end.
(** An outcome that is a value in [P] or an error. *)
Definition Safe {A} (P : A -> Prop) (v : Result SmbError A) : Prop :=
  match v with Ok a => P a | Err _ => True | Panic => False end.

Lemma Total_ret {A} (a : A) (P : A -> Prop) : P a -> Total (ret a) P.
Proof. intros Ha r Hr. by split_and!. Qed.
Lemma Total_fail {A} p (P : A -> Prop) : Total (fail p) P.
Proof. by intros r Hr. Qed.
Lemma Total_bind {A B} (d : Reader A) (k : A -> Reader B) (P : A -> Prop) (Q : B -> Prop) :
  Total d P -> (forall a, P a -> Total (k a) Q) -> Total (bind d k) Q.
Proof.
  intros Hd Hk r Hr. unfold bind. specialize (Hd r Hr). destruct (d r) as [[a r1]| |]; cbn; [|done..].
  destruct Hd as (Ha & Hb & Hp). specialize (Hk a Ha r1). rewrite Hb in Hk. by apply Hk.
Qed.
Lemma Total_lift {A} (v : Result SmbError A) P : Safe P v -> Total (lift v) P.
Proof. intros H r Hr. unfold lift. by destruct v. Qed.
Lemma Total_raw n e : Total (read_raw n e) (fun l => length l = n).
Proof.
  intros r Hr. unfold read_raw. destruct (Nat.ltb_spec (length (cur_buf r)) (cur_pos r + n)); [done|].
  rewrite slice_Ok by lia. cbn [rbind cur_buf cur_pos]. rewrite length_take, length_drop. split_and!; [lia|done|lia].
Qed.
Lemma Total_int n : Total (read_int n) (fun v => 0 <= v < 256 ^ Z.of_nat n).
Proof. eapply Total_bind; [apply Total_raw|]. intros l <-. apply Total_ret, of_le_range. Qed.
Lemma Total_u8 : Total read_u8 is_u8. Proof. apply (Total_int 1). Qed.
Lemma Total_u16 : Total read_u16 is_u16. Proof. apply (Total_int 2). Qed.
Lemma Total_u32 : Total read_u32 is_u32. Proof. apply (Total_int 4). Qed.
Lemma Total_u64 : Total read_u64 is_u64. Proof. apply (Total_int 8). Qed.
Lemma Total_bytes n : Total (Reader_read_bytes n) (fun l => length l = n).
Proof. apply Total_raw. Qed.
Lemma Total_uuid : Total Reader_read_uuid is_u128.
Proof. eapply Total_bind; [apply Total_bytes|]. intros l Hl. apply Total_ret. pose proof (of_be_range l) as H. by rewrite Hl in H. Qed.
Create HintDb smb.
#[export] Hint Resolve Total_ret Total_fail Total_u8 Total_u16 Total_u32 Total_u64 Total_bytes Total_uuid : smb.
(** Steps through a reader, keeping what each read promises. *)
Ltac totals := repeat (eapply Total_bind; [solve [eauto with smb]|]; intros ? ?).

Lemma Total_file_id : Total read_file_id file_id_ok.
Proof. unfold read_file_id. totals. by apply Total_ret. Qed.
Lemma Total_signature : Total read_signature (fun l => length l = 16%nat).
Proof. apply Total_bytes. Qed.
#[export] Hint Resolve Total_file_id Total_signature : smb.

Lemma Total_buffer s buf off len : 0 <= off -> 0 <= len -> Total (read_buffer s buf off len) (fun l => Z.of_nat (length l) = len).
Proof.
  intros Ho Hl. unfold read_buffer. destruct (Z.eqb_spec len 0); [by apply Total_ret|].
  destruct (Z.ltb_spec (Z.of_nat (length buf)) (off + len)); [apply Total_fail|]. apply Total_lift.
  rewrite slice_Ok by lia. unfold Safe. rewrite length_take, length_drop. lia.
Qed.
Lemma decode_all_total buf : Safe (Forall context_ok) (decode_all buf).
Proof.
  pose proof (decode_contexts_total (length buf) buf 0 ltac:(lia)) as H. unfold decode_all, Safe.
  by destruct (decode_contexts _ _ _).
Qed.
Lemma Total_contexts buf count off : 0 <= count -> 0 <= off ->
  Total (read_contexts buf count off) (fun cs => Z.of_nat (length cs) <= count /\ Forall context_ok cs).
Proof.
  intros Hc Ho. unfold read_contexts. destruct (0 <? count); [|apply Total_ret; split; [cbn; lia|constructor]].
  destruct (_ || _); [apply Total_fail|]. eapply (Total_bind _ _ (fun _ => True)).
  - apply Total_lift. assert (0 <= Z.land (off + 7) (Z.lnot 7)) by (apply Z.land_nonneg; lia). by rewrite slice_Ok by lia.
  - intros l _. eapply Total_bind; [apply Total_lift, decode_all_total|]. intros cs Hcs. apply Total_ret.
    rewrite length_take. split; [lia|]. by apply Forall_take.
Qed.
Lemma Total_dialects n : Total (read_dialects n) (fun ds => length ds = n).
Proof.
  induction n as [|n IH]; cbn [read_dialects]; [by apply Total_ret|]. totals. destruct (Dialect_from_wire _); [|apply Total_fail].
  eapply Total_bind; [exact IH|]. intros ds Hds. apply Total_ret. cbn. by f_equal.
Qed.
Lemma decode_body_total {A} s fixed size buf n (d : Reader A) P : Total d P -> Safe P (decode_body s fixed size buf n d).
Proof.
  intros Hd. unfold decode_body, Reader_at. destruct (Nat.ltb_spec (length buf) (n + fixed)); [done|].
  rewrite (proj2 (Nat.ltb_ge _ _)) by lia. cbn [rbind].
  assert (Total (let* x := read_u16 in if negb (x =? size) then fail (BadStructureSize s x) else d) P) as H'.
  { totals. destruct (negb _); [apply Total_fail|done]. }
  specialize (H' (mkCursor buf n)). cbn [cur_buf cur_pos] in H'. specialize (H' ltac:(lia)).
  match type of H' with match ?x with _ => _ end => destruct x as [[a r]| |] end; [|done..]. by destruct H'.
Qed.
Lemma decode_utf16le_valid b : utf8_valid (decode_utf16le b) = true.
Proof. unfold decode_utf16le. case_match; [apply from_utf8_lossy_valid|apply from_utf16_lossy_valid, le_units_u16]. Qed.

(** ** Requests *)

Inductive SmbRequest :=
| QNegotiate (q : NegotiateRequest)
| QSessionSetup (q : SessionSetupRequest)
| QLogoff
| QTreeConnect (q : TreeConnectRequest)
| QCreate (q : CreateRequest)
| QClose (q : CloseRequest)
| QRead (q : ReadRequest)
| QWrite (q : WriteRequest)
| QEcho.

Definition encode_request (q : SmbRequest) (message_id session_id tree_id : Z) : Result SmbError bytes :=
  match q with
  | QNegotiate q => NegotiateRequest_encode q message_id
  | QSessionSetup q => Ok (SessionSetupRequest_encode q message_id session_id)
  | QLogoff => Ok (LogoffRequest_encode message_id session_id)
  | QTreeConnect q => Ok (TreeConnectRequest_encode q message_id session_id)
  | QCreate q => Ok (CreateRequest_encode q message_id session_id tree_id)
  | QClose q => Ok (CloseRequest_encode q message_id session_id tree_id)
  | QRead q => Ok (ReadRequest_encode q message_id session_id tree_id)
  | QWrite q => Ok (WriteRequest_encode q message_id session_id tree_id)
  | QEcho => Ok (EchoRequest_encode message_id)
  end.
(** The body decoder for a command, [None] for one without. *)
Definition decode_request (c : Command) (buf : bytes) : option (Result SmbError SmbRequest) :=
  let body {A} (f : A -> SmbRequest) (r : Result SmbError A) := Some (let? a := r in Ok (f a)) in
  match c with
  | CNegotiate => body QNegotiate (NegotiateRequest_decode buf SMB2_HEADER_SIZE)
  | CSessionSetup => body QSessionSetup (SessionSetupRequest_decode buf SMB2_HEADER_SIZE)
  | CLogoff => body (fun _ => QLogoff) (LogoffRequest_decode buf SMB2_HEADER_SIZE)
  | CTreeConnect => body QTreeConnect (TreeConnectRequest_decode buf SMB2_HEADER_SIZE)
  | CCreate => body QCreate (CreateRequest_decode buf SMB2_HEADER_SIZE)
  | CClose => body QClose (CloseRequest_decode buf SMB2_HEADER_SIZE)
  | CRead => body QRead (ReadRequest_decode buf SMB2_HEADER_SIZE)
  | CWrite => body QWrite (WriteRequest_decode buf SMB2_HEADER_SIZE)
  | CEcho => body (fun _ => QEcho) (EchoRequest_decode buf SMB2_HEADER_SIZE)
  | CTreeDisconnect | CTransform => None
  end.

Definition request_command (q : SmbRequest) : Command :=
  match q with
  | QNegotiate _ => CNegotiate | QSessionSetup _ => CSessionSetup | QLogoff => CLogoff | QTreeConnect _ => CTreeConnect
  | QCreate _ => CCreate | QClose _ => CClose | QRead _ => CRead | QWrite _ => CWrite | QEcho => CEcho
  end.
(** Fields in their widths, texts well-formed. *)
Definition request_typed (q : SmbRequest) : Prop :=
  match q with
  | QNegotiate q => negotiate_request_ok q
  | QSessionSetup q => session_request_ok q
  | QTreeConnect q => utf8_valid (tq_path q) = true
  | QCreate q => create_request_typed q
  | QClose q => close_request_ok q
  | QRead q => read_request_ok q
  | QWrite q => write_request_ok q
  | QLogoff | QEcho => True
  end.
Definition request_text (q : SmbRequest) : bytes :=
  match q with QTreeConnect q => tq_path q | QCreate q => cq_name q | _ => [] end.
Definition request_ok (q : SmbRequest) : Prop :=
  request_typed q /\ Z.of_nat (length (encode_utf16le (request_text q))) < 2 ^ 16.

(** The ids a request carries in its header: a command that has no session or
    tree yet sends zero. *)
Definition carries_session (c : Command) : bool := match c with CNegotiate | CEcho => false | _ => true end.
Definition carries_tree (c : Command) : bool := match c with CCreate | CClose | CRead | CWrite => true | _ => false end.
Definition request_header (q : SmbRequest) (message_id session_id tree_id : Z) : Smb2Header :=
  let c := request_command q in
  mkSmb2Header (match q with QWrite q => credit_charge (wq_data q) | _ => 1 end) 0 (Command_to_wire c) 1 0 0 message_id 0
    (if carries_tree c then tree_id else 0) (if carries_session c then session_id else 0) (replicate 16 x00).

Lemma request_header_ok q m s t : is_u64 m -> is_u64 s -> is_u32 t -> header_ok (request_header q m s t).
Proof.
  intros Hm Hs Ht. unfold header_ok, request_header. cbn [h_credit_charge h_status h_command h_credits h_flags h_next_command
    h_message_id h_process_id h_tree_id h_session_id h_signature].
  split_and!; try done; try (by destruct q); try (by destruct (request_command q)).
  destruct q; try done. unfold credit_charge. by apply as_uint_range.
Qed.

Lemma prefix_decode_header h buf : header_ok h -> Smb2Header_encode h [] `prefix_of` buf -> Smb2Header_decode buf = Ok h.
Proof. intros Hh [t ->]. by apply decode_encode_header. Qed.

(** The case of a body codec whose round trip is [E]. *)
Ltac body_case E :=
  rewrite app_nil_r in E;
  lazymatch type of E with _ ?b _ = _ =>
    exists b; split; [reflexivity|]; split;
    [ unfold SessionSetupRequest_encode_body, SessionSetupResponse_encode_body, TreeConnectRequest_encode_body,
        TreeConnectResponse_encode_body, CreateRequest_encode_body, CreateResponse_encode_body, CloseRequest_encode_body,
        CloseResponse_encode_body, ReadRequest_encode_body, ReadResponse_encode_body, WriteRequest_encode_body,
        WriteResponse_encode_body, empty_body; cbn [fst]; encoded; rewrite ?align_eq, <-?app_assoc; apply prefix_app_r; reflexivity
    | unfold SMB2_HEADER_SIZE; rewrite E; reflexivity ]
  end.

Lemma request_roundtrip (q : SmbRequest) (message_id session_id tree_id : Z) :
  request_ok q -> is_u64 message_id -> is_u64 session_id -> is_u32 tree_id ->
  exists buf, encode_request q message_id session_id tree_id = Ok buf
    /\ Smb2Header_decode buf = Ok (request_header q message_id session_id tree_id)
    /\ Command_from_wire (h_command (request_header q message_id session_id tree_id)) = Some (request_command q)
    /\ decode_request (request_command q) buf = Some (Ok q).
Proof.
  intros [Hq Ht] Hm Hs Hti. pose proof (request_header_ok q message_id session_id tree_id Hm Hs Hti) as Hh.
  set (h := request_header q message_id session_id tree_id) in *. set (out := Smb2Header_encode h []).
  assert (length out = 64%nat) as Ho by (apply length_header; apply Hh).
  assert (exists buf, encode_request q message_id session_id tree_id = Ok buf /\ out `prefix_of` buf
    /\ decode_request (request_command q) buf = Some (Ok q)) as (buf & E1 & E2 & E3).
  2:{ exists buf. split_and!; [done|by apply prefix_decode_header|by destruct q|done]. }
  destruct q as [q|q| |q|q|q|q|q|]; cbn [encode_request decode_request request_command request_typed request_text] in *.
  - destruct (NegotiateRequest_rt q out Ho Hq) as (buf & o & E & Hp & Hd). exists buf.
    unfold NegotiateRequest_encode. change (Smb2Header_encode _ []) with out. unfold SMB2_HEADER_SIZE. rewrite E, Hd. done.
  - pose proof (SessionSetupRequest_rt q out [] Ho Hq) as E. body_case E.
  - pose proof (empty_body_rt SLogoffRequest out [] Ho : LogoffRequest_decode _ _ = _) as E. body_case E.
  - pose proof (TreeConnectRequest_rt q out [] Ho (conj Hq Ht)) as E. body_case E.
  - pose proof (CreateRequest_rt q out [] Ho Hq (conj (proj2 (proj2 (proj2 (proj2 (proj2 (proj2 (proj2 (proj2 Hq)))))))) Ht)) as E.
    body_case E.
  - pose proof (CloseRequest_rt q out [] Ho Hq) as E. body_case E.
  - pose proof (ReadRequest_rt q out [] Ho Hq) as E. body_case E.
  - pose proof (WriteRequest_rt q out [] Ho Hq) as E. body_case E.
  - pose proof (empty_body_rt SEchoRequest out [] Ho : EchoRequest_decode _ _ = _) as E. body_case E.
Qed.

(** *** What the peer reads

    A request whose fields are in their widths need not fit its message: the length
    of a buffer is cast to sixteen bits, the security mode of a session setup to
    eight, and a write carries a length of its own. *)
Definition request_fields (q : SmbRequest) : Prop :=
  match q with
  | QSessionSetup q => is_u8 (sq_flags q) /\ is_u16 (sq_security_mode q) /\ is_u32 (sq_capabilities q) /\ is_u32 (sq_channel q) /\ is_u64 (sq_previous_session_id q)
  | QWrite q => is_u32 (wq_length q) /\ is_u64 (wq_offset q) /\ file_id_ok (wq_file_id q)
  | q => request_typed q
  end.
(** The part of a buffer its sixteen-bit length names. *)
Definition clip (b : bytes) : bytes := take (Z.to_nat (as_u16 (Z.of_nat (length b)))) b.
Definition clip_text (s : bytes) : bytes := decode_utf16le (clip (encode_utf16le s)).
Definition session_read (q : SessionSetupRequest) : SessionSetupRequest :=
  mkSessionSetupRequest (sq_flags q) (sq_security_mode q mod 256) (sq_capabilities q) (sq_channel q) (clip (sq_security_buffer q)) (sq_previous_session_id q).
Definition create_read (q : CreateRequest) : CreateRequest :=
  mkCreateRequest (cq_oplock_level q) (cq_impersonation_level q) (cq_smb_create_flags q) (cq_desired_access q) (cq_file_attributes q)
    (cq_share_access q) (cq_create_disposition q) (cq_create_options q) (clip_text (cq_name q)).
Definition write_read (q : WriteRequest) : Result SmbError WriteRequest :=
  if Z.of_nat (length (wq_data q)) <? wq_length q then Err (Malformed (BufferTruncated SWriteRequest))
  else Ok (mkWriteRequest (wq_length q) (wq_offset q) (wq_file_id q) (take (Z.to_nat (wq_length q)) (wq_data q))).
Definition peer_reads (q : SmbRequest) : Result SmbError SmbRequest :=
  match q with
  | QSessionSetup q => Ok (QSessionSetup (session_read q))
  | QTreeConnect q => Ok (QTreeConnect (mkTreeConnectRequest (clip_text (tq_path q))))
  | QCreate q => Ok (QCreate (create_read q))
  | QWrite q => let? q := write_read q in Ok (QWrite q)
  | q => Ok q
  end.

Lemma clip_id b : Z.of_nat (length b) < 2 ^ 16 -> clip b = b.
Proof. intros H. unfold clip. rewrite as_len by done. rewrite Nat2Z.id. by apply take_ge. Qed.
Lemma clip_text_id s : text_ok s -> clip_text s = s.
Proof. intros [Hs Hl]. unfold clip_text. rewrite clip_id by done. by apply decode_encode_utf16le. Qed.
Lemma clip_length b : as_u16 (Z.of_nat (length b)) = Z.of_nat (length (clip b)).
Proof.
  unfold clip, as_uint. pose proof (Z.mod_pos_bound (Z.of_nat (length b)) (2 ^ 16) ltac:(lia)).
  pose proof (Z.mod_le (Z.of_nat (length b)) (2 ^ 16) ltac:(lia) ltac:(lia)). rewrite length_take. lia.
Qed.
Lemma clip_width b : is_u16 (Z.of_nat (length (clip b))).
Proof. rewrite <-clip_length. by apply as_uint_range. Qed.
Lemma clip_split b : exists post, b = clip b ++ post.
Proof. eexists. symmetry. apply take_drop. Qed.
Lemma low_byte_mod v : as_u8 (Z.land v 0xFF) = v mod 256.
Proof. change 0xFF with (Z.ones 8). rewrite Z.land_ones by lia. unfold as_uint. change (2 ^ 8) with 256. by rewrite Z.mod_mod. Qed.
(** A buffer that is announced longer than the message. *)
Lemma Run_short {A} s (k : bytes -> Reader A) buf l off len :
  0 < len -> Z.of_nat (length buf) < off + len -> Run (let* x := read_buffer s buf off len in k x) buf l (Err (Malformed (BufferTruncated s))).
Proof. intros Hl Hb pos _ _. unfold read_buffer, bind. rewrite (proj2 (Z.eqb_neq _ _)), (proj2 (Z.ltb_lt _ _)) by lia. done. Qed.

Lemma SessionSetupRequest_reads q out t : length out = 64%nat -> request_fields (QSessionSetup q) ->
  SessionSetupRequest_decode ((SessionSetupRequest_encode_body q out 64).1 ++ t) 64 = Ok (session_read q).
Proof.
  intros Ho (?&?&?&?&?). unfold SessionSetupRequest_encode_body. cbn [fst].
  change (as_u16 (as_u32 _)) with 88 at 1. rewrite low_byte_mod, clip_length. pose proof (clip_width (sq_security_buffer q)).
  destruct (clip_split (sq_security_buffer q)) as [post E]. rewrite E at 2.
  assert (is_u8 (sq_security_mode q mod 256)) by (apply Z.mod_pos_bound; lia). unfold SessionSetupRequest_decode.
  encoded. rewrite <-?app_assoc. apply decode_body_Ok; [assumption|lens|done|]; runs.
  apply Run_buffer; [lens|done|]. by apply Run_ret.
Qed.
Lemma TreeConnectRequest_reads q out t : length out = 64%nat ->
  TreeConnectRequest_decode ((TreeConnectRequest_encode_body q out 64).1 ++ t) 64 = Ok (mkTreeConnectRequest (clip_text (tq_path q))).
Proof.
  intros Ho. unfold TreeConnectRequest_encode_body, clip_text. cbn [fst].
  change (as_u16 (as_u32 _)) with 72 at 1. rewrite clip_length. pose proof (clip_width (encode_utf16le (tq_path q))).
  destruct (clip_split (encode_utf16le (tq_path q))) as [post E]. rewrite E at 2. unfold TreeConnectRequest_decode.
  encoded. rewrite <-?app_assoc. apply decode_body_Ok; [assumption|lens|done|]; runs.
  apply Run_buffer; [lens|done|]. by apply Run_ret.
Qed.
Lemma CreateRequest_reads q out t : length out = 64%nat -> create_request_typed q ->
  CreateRequest_decode ((CreateRequest_encode_body q out 64).1 ++ t) 64 = Ok (create_read q).
Proof.
  intros Ho (?&?&?&?&?&?&?&?&_). unfold CreateRequest_encode_body, create_read, clip_text. cbn [fst].
  change (as_u16 (as_u32 _)) with 120 at 1. rewrite clip_length. pose proof (clip_width (encode_utf16le (cq_name q))).
  destruct (clip_split (encode_utf16le (cq_name q))) as [post E]. rewrite E at 2. unfold CreateRequest_decode.
  encoded. rewrite <-?app_assoc. apply decode_body_Ok; [assumption|lens|done|]; runs.
  apply Run_buffer; [lens|done|]. by apply Run_ret.
Qed.
Lemma WriteRequest_reads q out : length out = 64%nat -> request_fields (QWrite q) ->
  WriteRequest_decode (WriteRequest_encode_body q out 64).1 64 = write_read q.
Proof.
  intros Ho (?&?&?). unfold WriteRequest_encode_body, write_read. cbn [fst].
  change (as_u8 (as_u32 _)) with 112 at 1.
  destruct (Z.ltb_spec (Z.of_nat (length (wq_data q))) (wq_length q)).
  - unfold WriteRequest_decode. encoded. apply decode_body_Ok; [assumption|lens|done|]; runs. unfold_ints. apply Run_short; [lia|lens].
  - rewrite <-(take_drop (Z.to_nat (wq_length q)) (wq_data q)) at 1. unfold WriteRequest_decode. encoded. rewrite <-?app_assoc. apply decode_body_Ok; [assumption|lens|done|]; runs.
    apply Run_buffer; [lens|rewrite length_take; unfold_ints; lia|]. by apply Run_ret.
Qed.
Lemma request_reads (q : SmbRequest) (message_id session_id tree_id : Z) :
  request_fields q -> is_u64 message_id -> is_u64 session_id -> is_u32 tree_id ->
  exists buf, encode_request q message_id session_id tree_id = Ok buf
    /\ Smb2Header_decode buf = Ok (request_header q message_id session_id tree_id)
    /\ decode_request (request_command q) buf = Some (peer_reads q).
Proof.
  intros Hq Hm Hs Hti. pose proof (request_header_ok q message_id session_id tree_id Hm Hs Hti) as Hh.
  set (h := request_header q message_id session_id tree_id) in *. set (out := Smb2Header_encode h []).
  assert (length out = 64%nat) as Ho by (apply length_header; apply Hh).
  assert ((exists buf, encode_request q message_id session_id tree_id = Ok buf /\ out `prefix_of` buf
    /\ decode_request (request_command q) buf = Some (peer_reads q)) \/ (request_ok q /\ peer_reads q = Ok q)) as [(buf & E1 & E2 & E3)|[Hok Ep]].
  2:{ exists buf. split_and!; [done|by apply prefix_decode_header|done]. }
  2:{ destruct (request_roundtrip q message_id session_id tree_id Hok Hm Hs Hti) as (buf & E1 & E2 & _ & E3). exists buf. by rewrite Ep. }
  destruct q as [q|q| |q|q|q|q|q|]; cbn [encode_request decode_request request_command peer_reads] in *;
    try (right; split; [split; [exact Hq|done]|done]); left.
  - pose proof (SessionSetupRequest_reads q out [] Ho Hq) as E. body_case E.
  - pose proof (TreeConnectRequest_reads q out [] Ho) as E. body_case E.
  - pose proof (CreateRequest_reads q out [] Ho Hq) as E. body_case E.
  - pose proof (WriteRequest_reads q out Ho Hq) as E. rewrite <-(app_nil_r (_.1)) in E. body_case E.
Qed.
Lemma request_ok_reads q : request_ok q -> request_fields q /\ peer_reads q = Ok q.
Proof.
  intros [Hq Ht]. destruct q as [q|q| |q|q|q|q|q|]; cbn [request_fields request_typed request_text peer_reads] in *; try done.
  - destruct Hq as (?&?&?&?&?&?). split; [unfold_ints; split_and!; try done; lia|]. unfold session_read. rewrite clip_id by done.
    rewrite Z.mod_small by (unfold_ints; lia). by destruct q.
  - split; [done|]. rewrite clip_text_id by done. by destruct q.
  - split; [done|]. unfold create_read. rewrite clip_text_id by (split; [apply Hq|done]). by destruct q.
  - destruct Hq as (Hl&?&?&?). split; [done|]. unfold write_read. rewrite (proj2 (Z.ltb_ge _ _)) by lia. cbn [rbind].
    rewrite take_ge by lia. by destruct q.
Qed.
(** More dialects than sixteen bits count put the contexts elsewhere than announced. *)
Lemma negotiate_panics q message_id : 2 ^ 16 <= Z.of_nat (length (nq_dialects q)) -> nq_negotiate_contexts q <> [] -> NegotiateRequest_encode q message_id = Panic.
Proof.
  intros Hd Hc. unfold NegotiateRequest_encode, NegotiateRequest_encode_body. destruct (nq_negotiate_contexts q) as [|c cs]; [done|]. cbv zeta.
  set (n := as_u16 (Z.of_nat (length (nq_dialects q)))). assert (0 <= n < 2 ^ 16) as Hn by (by apply as_uint_range).
  assert (n <= Z.of_nat (length (nq_dialects q)) - 2 ^ 16) as Hn'.
  { unfold n, as_uint. pose proof (Z.div_mod (Z.of_nat (length (nq_dialects q))) (2 ^ 16) ltac:(lia)) as E.
    assert (1 <= Z.of_nat (length (nq_dialects q)) / 2 ^ 16) by (apply Z.div_le_lower_bound; lia). lia. }
  set (pre := Z.of_nat SMB2_HEADER_SIZE + 36 + n * 2). set (offset := as_u32 _).
  assert (offset <= pre + 8) as Hoff.
  { unfold offset, as_uint. pose proof (Z.mod_pos_bound (8 - pre mod 8) 8 ltac:(lia)). assert (0 <= pre < 2 ^ 18) by (unfold pre, SMB2_HEADER_SIZE; lia). rewrite Z.mod_small by lia. lia. }
  rewrite align_eq. match goal with |- context [Z.of_nat (length (?out ++ replicate _ _)) =? offset] => set (body := out) end.
  assert (36 + 2 * Z.of_nat (length (nq_dialects q)) + 64 <= Z.of_nat (length body)) as Hl.
  { unfold body. encoded. unfold uuid_as_bytes. rewrite !length_app, !length_to_le, length_to_be, length_units_le, length_map, length_header by done. lia. }
  rewrite (proj2 (Z.eqb_neq _ _)); [done|]. rewrite length_app. unfold pre, SMB2_HEADER_SIZE in Hoff. lia.
Qed.

(** C37: SMB2 requests: every request of every command whose fields are in their
    widths is encoded without a panic (of a negotiate request, the dialects and the
    contexts are fewer than [2^16] and a context shorter than that); the peer decodes
    the header the client meant, with the command, and the body decoder of that
    command returns what [peer_reads] says.  That is the request itself if it fits:
    a security buffer, or a path or name in UTF-16, is shorter than [2^16] bytes, the
    security mode of a session setup is below 256 and the length of a write is that of
    its data.  Beyond that the encoders do not refuse: the buffer is cut to its length
    modulo [2^16], the mode to its low byte, and a write is cut to its length or
    rejected by the peer when it is announced longer than it is; and a negotiate
    request with contexts and [2^16] dialects or more fails the encoder's debug
    assertion. *)
Theorem smb_request_roundtrip (q : SmbRequest) (message_id session_id tree_id : Z) :
  request_fields q -> is_u64 message_id -> is_u64 session_id -> is_u32 tree_id ->
  (exists buf, encode_request q message_id session_id tree_id = Ok buf
     /\ Smb2Header_decode buf = Ok (request_header q message_id session_id tree_id)
     /\ Command_from_wire (h_command (request_header q message_id session_id tree_id)) = Some (request_command q)
     /\ decode_request (request_command q) buf = Some (peer_reads q))
  /\ (request_ok q -> peer_reads q = Ok q)
  /\ (forall n, 2 ^ 16 <= Z.of_nat (length (nq_dialects n)) -> nq_negotiate_contexts n <> [] -> NegotiateRequest_encode n message_id = Panic).
Proof.
  intros Hq Hm Hs Ht. split; [|split; [intros Hok; by apply request_ok_reads|intros n; by apply negotiate_panics]].
  destruct (request_reads q message_id session_id tree_id Hq Hm Hs Ht) as (buf & E1 & E2 & E3). exists buf. split_and!; [done..|by destruct q|done].
Qed.
Definition sample_request : SmbRequest := QCreate (CreateRequest_new (lit "a.txt")).
(** A security buffer of [2^16] bytes and one more is read as its first byte. *)
Definition long_setup : SmbRequest := QSessionSetup (SessionSetupRequest_new (x07 :: replicate (2 ^ 16) x00)).
Lemma smb_request_roundtrip_witness :
  (exists buf, encode_request sample_request 5 6 7 = Ok buf /\ decode_request CCreate buf = Some (Ok sample_request))
  /\ exists buf, encode_request long_setup 5 6 7 = Ok buf /\ decode_request CSessionSetup buf = Some (Ok (QSessionSetup (SessionSetupRequest_new [x07]))).
Proof.
  split.
  - destruct (smb_request_roundtrip sample_request 5 6 7) as [(buf & E1 & _ & _ & E2) [Hok _]]; [|done..|].
    + unfold request_fields, request_typed, sample_request, create_request_typed. repeat split; by vm_compute.
    + exists buf. split; [exact E1|]. rewrite <-Hok; [exact E2|]. split; [|done]. unfold request_typed, sample_request, create_request_typed. repeat split; by vm_compute.
  - destruct (smb_request_roundtrip long_setup 5 6 7) as [(buf & E1 & _ & _ & E2) _]; [|done..|].
    + unfold request_fields, long_setup. repeat split; by vm_compute.
    + exists buf. split; [exact E1|]. refine (eq_trans E2 _). vm_compute. reflexivity.
Defined.

(** ** Responses *)

Inductive SmbResponse :=
| PNegotiate (p : NegotiateResponse)
| PSessionSetup (p : SessionSetupResponse)
| PLogoff
| PTreeConnect (p : TreeConnectResponse)
| PCreate (p : CreateResponse)
| PClose (p : CloseResponse)
| PRead (p : ReadResponse)
| PWrite (p : WriteResponse)
| PEcho.

Definition encode_response (p : SmbResponse) (request_header : Smb2Header) (tree_id status : Z) : Result SmbError bytes :=
  match p with
  | PNegotiate p => NegotiateResponse_encode p request_header
  | PSessionSetup p => Ok (SessionSetupResponse_encode p request_header status)
  | PLogoff => Ok (LogoffResponse_encode request_header)
  | PTreeConnect p => Ok (TreeConnectResponse_encode p request_header tree_id status)
  | PCreate p => Ok (CreateResponse_encode p request_header status)
  | PClose p => Ok (CloseResponse_encode p request_header status)
  | PRead p => Ok (ReadResponse_encode p request_header status)
  | PWrite p => Ok (WriteResponse_encode p request_header status)
  | PEcho => Ok (EchoResponse_encode request_header)
  end.
(** The decoder of the same kind of response. *)
Definition decode_like (p : SmbResponse) (buf : bytes) : Result SmbError SmbResponse :=
  match p with
  | PNegotiate _ => let? p := NegotiateResponse_decode buf SMB2_HEADER_SIZE in Ok (PNegotiate p)
  | PSessionSetup _ => let? p := SessionSetupResponse_decode buf SMB2_HEADER_SIZE in Ok (PSessionSetup p)
  | PLogoff => let? _ := LogoffResponse_decode buf SMB2_HEADER_SIZE in Ok PLogoff
  | PTreeConnect _ => let? p := TreeConnectResponse_decode buf SMB2_HEADER_SIZE in Ok (PTreeConnect p)
  | PCreate _ => let? p := CreateResponse_decode buf SMB2_HEADER_SIZE in Ok (PCreate p)
  | PClose _ => let? p := CloseResponse_decode buf SMB2_HEADER_SIZE in Ok (PClose p)
  | PRead _ => let? p := ReadResponse_decode buf SMB2_HEADER_SIZE in Ok (PRead p)
  | PWrite _ => let? p := WriteResponse_decode buf SMB2_HEADER_SIZE in Ok (PWrite p)
  | PEcho => let? _ := EchoResponse_decode buf SMB2_HEADER_SIZE in Ok PEcho
  end.
Definition response_typed (p : SmbResponse) : Prop :=
  match p with
  | PNegotiate p => negotiate_response_ok p
  | PSessionSetup p => session_response_ok p
  | PTreeConnect p => tree_response_ok p
  | PCreate p => create_response_ok p
  | PClose p => close_response_ok p
  | PRead p => Z.of_nat (length (rp_data p)) < 2 ^ 32
  | PWrite p => is_u32 (wp_count p)
  | PLogoff | PEcho => True
  end.
(** The response to [req]: its routing fields, the response flag, the status. *)
Definition response_header (p : SmbResponse) (req : Smb2Header) (tree_id status : Z) : Smb2Header :=
  mkSmb2Header (match p with PRead p => credit_charge (rp_data p) | _ => 1 end)
    (match p with PNegotiate _ | PLogoff | PEcho => STATUS_SUCCESS | _ => status end)
    (h_command req) 1 SMB2_FLAGS_RESPONSE 0 (h_message_id req) (h_process_id req)
    (match p with PTreeConnect _ => tree_id | _ => h_tree_id req end) (h_session_id req) (replicate 16 x00).
Lemma response_header_ok p req t st : header_ok req -> is_u32 t -> is_u32 st -> header_ok (response_header p req t st).
Proof.
  intros (?&?&?&?&?&?&?&?&?&?&?) Ht Hst. unfold header_ok, response_header. cbn [h_credit_charge h_status h_command h_credits
    h_flags h_next_command h_message_id h_process_id h_tree_id h_session_id h_signature].
  split_and!; try done; try (by destruct p). destruct p; try done. unfold credit_charge. by apply as_uint_range.
Qed.

(** What the peer makes of the message: the response itself, except that the
    negotiate decoder also reads the security buffer as contexts. *)
Definition response_outcome (p : SmbResponse) : Result SmbError SmbResponse :=
  match p with
  | PNegotiate q =>
      match np_negotiate_contexts q with
      | [] => Ok p
      | _ => let? _ := decode_all (np_security_buffer q) in Ok p
      end
  | _ => Ok p
  end.

Lemma response_roundtrip (p : SmbResponse) (req : Smb2Header) (tree_id status : Z) :
  response_typed p -> header_ok req -> is_u32 tree_id -> is_u32 status ->
  exists buf, encode_response p req tree_id status = Ok buf
    /\ Smb2Header_decode buf = Ok (response_header p req tree_id status)
    /\ is_response (response_header p req tree_id status) = true
    /\ decode_like p buf = response_outcome p.
Proof.
  intros Hp Hreq Hti Hst. pose proof (response_header_ok p req tree_id status Hreq Hti Hst) as Hh.
  set (h := response_header p req tree_id status) in *. set (out := Smb2Header_encode h []).
  assert (length out = 64%nat) as Ho by (apply length_header; apply Hh).
  assert (exists buf, encode_response p req tree_id status = Ok buf /\ out `prefix_of` buf
    /\ decode_like p buf = response_outcome p) as (buf & E1 & E2 & E3).
  2:{ exists buf. split_and!; [done|by apply prefix_decode_header|done|done]. }
  destruct p as [p|p| |p|p|p|p|p|]; cbn [encode_response decode_like response_typed response_outcome] in *.
  - destruct (NegotiateResponse_rt p out Ho Hp) as (buf & o & E & Hpre & Hd). exists buf.
    unfold NegotiateResponse_encode. change (Smb2Header_encode _ []) with out. unfold SMB2_HEADER_SIZE. rewrite E, Hd.
    split; [done|]. split; [done|]. destruct (np_negotiate_contexts p); [done|]. by destruct (decode_all _).
  - pose proof (SessionSetupResponse_rt p out [] Ho Hp) as E. body_case E.
  - pose proof (empty_body_rt SLogoffResponse out [] Ho : LogoffResponse_decode _ _ = _) as E. body_case E.
  - pose proof (TreeConnectResponse_rt p out [] Ho Hp) as E. body_case E.
  - pose proof (CreateResponse_rt p out [] Ho Hp) as E. body_case E.
  - pose proof (CloseResponse_rt p out [] Ho Hp) as E. body_case E.
  - pose proof (ReadResponse_rt p out [] Ho Hp) as E. body_case E.
  - pose proof (WriteResponse_rt p out [] Ho Hp) as E. body_case E.
  - pose proof (empty_body_rt SEchoResponse out [] Ho : EchoResponse_decode _ _ = _) as E. body_case E.
Qed.

(** SMB2 responses: every response is encoded without a panic and carries
    the request's message id, process id and session id; the peer decodes the
    header and the response itself, except a negotiate response with contexts,
    which decodes exactly when its security buffer can be read as a list of
    contexts. *)
Theorem smb_response_roundtrip (p : SmbResponse) (req : Smb2Header) (tree_id status : Z) :
  response_typed p -> header_ok req -> is_u32 tree_id -> is_u32 status ->
  exists buf, encode_response p req tree_id status = Ok buf
    /\ Smb2Header_decode buf = Ok (response_header p req tree_id status)
    /\ is_response (response_header p req tree_id status) = true
    /\ decode_like p buf = response_outcome p.
Proof. apply response_roundtrip. Qed.
Lemma smb_response_roundtrip_witness :
  exists buf, encode_response (PNegotiate (mkNegotiateResponse 1 SMB311 4 7 0 0 0 0 0 (replicate 8 xff) (default_contexts [])))
                (Smb2Header_new_request command_NEGOTIATE 3) 0 0 = Ok buf
    /\ decode_like (PNegotiate (NegotiateResponse_new_311 7 [])) buf = Err (Malformed ContextTruncated).
Proof.
  destruct (smb_response_roundtrip
    (PNegotiate (mkNegotiateResponse 1 SMB311 4 7 0 0 0 0 0 (replicate 8 xff) (default_contexts [])))
    (Smb2Header_new_request command_NEGOTIATE 3) 0 0) as (buf & E1 & _ & _ & E2).
  - split; [|by vm_compute]. unfold negotiate_response_typed. repeat (split; [by vm_compute|]). repeat constructor; by vm_compute.
  - unfold header_ok. repeat (split; [by vm_compute|]). by vm_compute.
  - done.
  - done.
  - exists buf. split; [exact E1|]. exact E2.
Defined.

(** ** Every decoder is total *)

Lemma Total_seek p : Total (Reader_seek p) (fun _ => True).
Proof. intros r Hr. unfold Reader_seek. destruct (Nat.ltb_spec (length (cur_buf r)) p); [done|]. cbn. split_and!; [done|done|lia]. Qed.
#[export] Hint Resolve Total_seek : smb.

Lemma Smb2Header_decode_total buf : Safe header_ok (Smb2Header_decode buf).
Proof.
  unfold Smb2Header_decode. destruct (Nat.ltb_spec (length buf) SMB2_HEADER_SIZE) as [|Hl]; [done|]. unfold SMB2_HEADER_SIZE in Hl.
  rewrite slice_Ok by lia. cbn [rbind]. destruct (negb _); [by destruct (bool_decide _)|].
  assert (Total header_fields header_ok) as H.
  { unfold header_fields. totals. destruct (negb _); [apply Total_fail|]. totals. apply Total_ret. by split_and!. }
  specialize (H (Reader_new buf) ltac:(cbn; lia)). destruct (header_fields _) as [[h r]| |]; [|done..]. by destruct H.
Qed.
Lemma TransformHeader_decode_total buf : Safe transform_ok (TransformHeader_decode buf).
Proof.
  unfold TransformHeader_decode. destruct (Nat.ltb_spec (length buf) SMB2_TRANSFORM_HEADER_SIZE) as [|Hl]; [done|].
  unfold SMB2_TRANSFORM_HEADER_SIZE in Hl. rewrite slice_Ok by lia. cbn [rbind]. destruct (negb _); [done|].
  unfold Reader_at. rewrite (proj2 (Nat.ltb_ge _ _)) by lia. cbn [rbind].
  assert (Total transform_fields transform_ok) as H by (unfold transform_fields; totals; apply Total_ret; by split_and!).
  specialize (H (mkCursor buf 4) ltac:(cbn; lia)). destruct (transform_fields _) as [[h r]| |]; [|done..]. by destruct H.
Qed.
Lemma Safe_map {A B} (f : A -> B) (P : A -> Prop) (Q : B -> Prop) r :
  Safe P r -> (forall a, P a -> Q (f a)) -> Safe Q (let? a := r in Ok (f a)).
Proof. destruct r; cbn; auto. Qed.

(** Reads a buffer or a list of contexts whose offset and length were read. *)
Ltac buffered := eapply Total_bind; [apply Total_buffer; unfold is_uint in *; lia|]; intros ? ?; cbn beta in *.
Ltac finish := apply Total_ret; repeat split; cbn in *; try done; try (unfold file_id_ok, is_uint in *; lia); try apply decode_utf16le_valid.

(** The body of a request with its fields in their widths. *)
Lemma decode_request_total c buf r : decode_request c buf = Some r ->
  Safe (fun q => request_typed q /\ request_command q = c) r.
Proof.
  destruct c; intros [= <-].
  - apply (Safe_map _ negotiate_request_ok); [|done]. apply decode_body_total. totals.
    eapply Total_bind; [apply Total_dialects|]. intros ds Hds.
    eapply Total_bind; [apply Total_contexts; unfold is_uint in *; lia|]. intros cs Hcs. apply Total_ret.
    unfold negotiate_request_ok, is_uint in *. cbn. split_and!; try lia; apply Hcs.
  - apply (Safe_map _ session_request_ok); [|done]. apply decode_body_total. totals. buffered. finish.
  - apply (Safe_map _ (fun _ => True)); [|done]. apply decode_body_total. finish.
  - apply (Safe_map _ (fun q => utf8_valid (tq_path q) = true)); [|done]. apply decode_body_total. totals. buffered. finish.
  - apply (Safe_map _ create_request_typed); [|done]. apply decode_body_total. totals. buffered. finish.
  - apply (Safe_map _ close_request_ok); [|done]. apply decode_body_total. totals. finish.
  - apply (Safe_map _ read_request_ok); [|done]. apply decode_body_total. totals. finish.
  - apply (Safe_map _ write_request_ok); [|done]. apply decode_body_total. totals. buffered. finish.
  - apply (Safe_map _ (fun _ => True)); [|done]. apply decode_body_total. finish.
Qed.
Definition response_decoded (p : SmbResponse) : Prop :=
  match p with PNegotiate p => negotiate_response_typed p | _ => response_typed p end.
Lemma decode_like_total p buf : Safe response_decoded (decode_like p buf).
Proof.
  destruct p; cbn [decode_like].
  - apply (Safe_map _ negotiate_response_typed); [|done]. apply decode_body_total. totals. buffered.
    eapply Total_bind; [apply Total_contexts; unfold is_uint in *; lia|]. intros cs Hcs. apply Total_ret.
    unfold negotiate_response_typed, is_uint in *. cbn. split_and!; try lia; apply Hcs.
  - apply (Safe_map _ session_response_ok); [|done]. apply decode_body_total. totals. buffered. finish.
  - apply (Safe_map _ (fun _ => True)); [|done]. apply decode_body_total. finish.
  - apply (Safe_map _ tree_response_ok); [|done]. apply decode_body_total. totals. finish.
  - apply (Safe_map _ create_response_ok); [|done]. apply decode_body_total. totals. finish.
  - apply (Safe_map _ close_response_ok); [|done]. apply decode_body_total. totals. finish.
  - apply (Safe_map _ (fun p => Z.of_nat (length (rp_data p)) < 2 ^ 32)); [|done]. apply decode_body_total. totals. buffered. finish.
  - apply (Safe_map _ (fun p => is_u32 (wp_count p))); [|done]. apply decode_body_total. totals. finish.
  - apply (Safe_map _ (fun _ => True)); [|done]. apply decode_body_total. finish.
Qed.

(** SMB2 decoders on arbitrary bytes: no decoder panics; a header, a
    transform header, a request or a response that is accepted has every field
    in its width, well-formed text, buffers of the announced length. *)
Theorem smb_decode_total (buf : bytes) :
  Safe header_ok (Smb2Header_decode buf)
  /\ Safe transform_ok (TransformHeader_decode buf)
  /\ (forall c, match decode_request c buf with
                 | Some r => Safe (fun q => request_typed q /\ request_command q = c) r
                 | None => c = CTreeDisconnect \/ c = CTransform
                 end)
  /\ (forall p, Safe response_decoded (decode_like p buf)).
Proof.
  split_and!; [apply Smb2Header_decode_total|apply TransformHeader_decode_total| |intros p; apply decode_like_total].
  intros c. destruct (decode_request c buf) eqn:E; [by eapply decode_request_total|]. destruct c; auto; done.
Qed.

(** ** Capability contexts *)

Lemma u16s_at_Ok pre vs post : Forall is_u16 vs -> u16s_at (length vs) (pre ++ units_le vs ++ post) (length pre) = Ok vs.
Proof.
  intros H. revert pre. induction H as [|v vs Hv _ IH]; intros pre; [done|]. cbn [length u16s_at].
  change (units_le (v :: vs)) with (to_le 2 v ++ units_le vs). rewrite <-app_assoc, u16_at_Ok by done. cbn [rbind].
  rewrite (app_assoc pre). replace (length pre + 2)%nat with (length (pre ++ to_le 2 v)) by lens. by rewrite IH.
Qed.
Lemma u16_at_head v post : is_u16 v -> u16_at (to_le 2 v ++ post) 0 = Ok v.
Proof. by apply (u16_at_Ok []). Qed.
Lemma parse_preauth_Ok algos salt : Forall is_u16 algos -> Z.of_nat (length algos) < 2 ^ 16 -> Z.of_nat (length salt) < 2 ^ 16 ->
  parse_preauth (preauth_integrity algos salt) = Ok (Some (algos, salt)).
Proof.
  intros Ha Hn Hs. unfold parse_preauth, preauth_integrity. cbn [context_type ctx_data]. rewrite Z.eqb_refl. cbn [negb].
  rewrite !as_len by done. rewrite !length_app, !length_to_le, length_units_le. rewrite (proj2 (Nat.ltb_ge _ _)) by lia.
  rewrite u16_at_head by (unfold is_uint; lia). cbn [rbind].
  rewrite (u16_at_Ok (to_le 2 _)) by (apply length_to_le || (unfold is_uint; lia)). cbn [rbind].
  rewrite (proj2 (Z.ltb_ge _ _)) by lia. rewrite Nat2Z.id.
  rewrite (app_assoc (to_le 2 _)). pose proof (u16s_at_Ok (to_le 2 (Z.of_nat (length algos)) ++ to_le 2 (Z.of_nat (length salt))) algos salt Ha) as E.
  rewrite length_app, !length_to_le in E. change (2 + 2)%nat with 4%nat in E. rewrite E. cbn [rbind]. rewrite (app_assoc (_ ++ _)).
  rewrite <-(app_nil_r salt) at 2. rewrite slice_app; [done|rewrite !length_app, !length_to_le, length_units_le; lia|lia|lia].
Qed.
Lemma parse_encryption_Ok ciphers : Forall is_u16 ciphers -> Z.of_nat (length ciphers) < 2 ^ 16 ->
  parse_encryption (encryption ciphers) = Ok (Some ciphers).
Proof.
  intros Hc Hn. unfold parse_encryption, encryption. cbn [context_type ctx_data]. rewrite Z.eqb_refl. cbn [negb].
  rewrite as_len by done. rewrite length_app, length_to_le, length_units_le. rewrite (proj2 (Nat.ltb_ge _ _)) by lia.
  rewrite u16_at_head by (unfold is_uint; lia). cbn [rbind]. rewrite (proj2 (Z.ltb_ge _ _)) by lia. rewrite Nat2Z.id.
  pose proof (u16s_at_Ok (to_le 2 (Z.of_nat (length ciphers))) ciphers [] Hc) as E. rewrite app_nil_r, length_to_le in E. by rewrite E.
Qed.

(** ** NetBIOS frames *)

Definition frame_header (n : Z) : bytes := [x00; z2b (n / 65536); z2b (n / 256); z2b n].
Lemma land_byte z : z2b (Z.land z 0xFF) = z2b z.
Proof.
  apply (inj b2z). rewrite !b2z_z2b. change 0xFF with (Z.ones 8). rewrite Z.land_ones by lia. by apply Z.mod_mod.
Qed.
Lemma encode_frame_Ok payload : Z.of_nat (length payload) < 2 ^ 24 ->
  encode_frame payload = Ok (frame_header (Z.of_nat (length payload)) ++ payload).
Proof.
  intros H. unfold encode_frame. change 0x01000000 with (2 ^ 24). rewrite (proj2 (Z.ltb_lt _ _)) by done. cbn [negb].
  by rewrite !land_byte, !Z.shiftr_div_pow2 by lia.
Qed.
Lemma lor_bytes a b c : 0 <= a < 256 -> 0 <= b < 256 -> 0 <= c < 256 ->
  Z.lor (Z.lor (Z.shiftl a 16) (Z.shiftl b 8)) c = a * 65536 + b * 256 + c.
Proof.
  intros Ha Hb Hc.
  rewrite lor_shiftl by (rewrite ?Z.shiftl_mul_pow2 by lia; lia). rewrite Z.shiftl_mul_pow2 by lia.
  replace (a * 2 ^ 16 + b * 2 ^ 8) with (Z.shiftl (a * 256 + b) 8) by (rewrite Z.shiftl_mul_pow2 by lia; lia).
  rewrite lor_shiftl by lia. lia.
Qed.
Lemma peek_frame n rest : 0 <= n < 2 ^ 24 -> peek_header (frame_header n ++ rest) = Ok (Some (x00, n)).
Proof.
  intros Hn. unfold frame_header. cbn [app peek_header]. rewrite !b2z_z2b, lor_bytes by (apply Z.mod_pos_bound; lia).
  do 3 f_equal. Z.to_euclidean_division_equations. lia.
Qed.
Lemma peek_header_range buf t n : peek_header buf = Ok (Some (t, n)) -> 0 <= n < 2 ^ 24.
Proof.
  destruct buf as [|b0 [|b1 [|b2 [|b3 buf]]]]; try done. cbn [peek_header]. intros [= _ <-].
  pose proof (b2z_range b1). pose proof (b2z_range b2). pose proof (b2z_range b3). rewrite lor_bytes by lia. lia.
Qed.

(** ** The pre-authentication hash *)

Section Transcript.
Context (sha512 : bytes -> bytes) (Hlen : forall x, length (sha512 x) = 64%nat).

Lemma compute_snoc ms m :
  PreauthHash_compute sha512 (ms ++ [m]) = sha512 (PreauthHash_compute sha512 ms ++ m).
Proof. unfold PreauthHash_compute. by rewrite fold_left_app. Qed.
Lemma length_compute ms : length (PreauthHash_compute sha512 ms) = 64%nat.
Proof. induction ms as [|m ms _] using rev_ind; [done|]. rewrite compute_snoc. apply Hlen. Qed.

(** The inputs SHA-512 is applied to while the transcript is hashed. *)
Fixpoint hashed (state : bytes) (ms : list bytes) : list bytes :=
  match ms with
  | [] => []
  | m :: ms => (state ++ m) :: hashed (sha512 (state ++ m)) ms
  end.
Lemma hashed_snoc state ms m :
  hashed state (ms ++ [m]) = hashed state ms ++ [ph_state (fold_left (PreauthHash_update sha512) ms (mkPreauthHash state)) ++ m].
Proof. revert state. induction ms as [|m' ms IH]; intros state; [done|]. cbn. by rewrite IH. Qed.
(** Among the inputs hashed for two transcripts, a collision of SHA-512 or a
    preimage of the initial all-zero state. *)
Definition broken (ms ms' : list bytes) : Prop :=
  let zero := replicate 64 x00 in
  (exists x y, x ∈ hashed zero ms /\ y ∈ hashed zero ms' /\ x <> y /\ sha512 x = sha512 y)
  \/ (exists x, x ∈ hashed zero ms ++ hashed zero ms' /\ sha512 x = zero).
Lemma hashed_last ms m : PreauthHash_compute sha512 ms ++ m ∈ hashed (replicate 64 x00) (ms ++ [m]).
Proof. rewrite hashed_snoc. apply elem_of_app. right. apply list_elem_of_singleton. done. Qed.
Lemma broken_snoc ms ms' m m' : broken ms ms' -> broken (ms ++ [m]) (ms' ++ [m']).
Proof.
  unfold broken. rewrite !hashed_snoc. intros [(x & y & Hx & Hy & ?)|(x & Hx & ?)].
  - left. exists x, y. rewrite !elem_of_app. auto.
  - right. exists x. rewrite !elem_of_app in *. tauto.
Qed.
End Transcript.

(** The pre-authentication hash commits to the whole handshake: two
    transcripts with the same hash are the same sequence of messages, unless
    the inputs hashed along the way exhibit a collision of SHA-512 or a preimage
    of the initial all-zero state. *)
Theorem preauth_binding (sha512 : bytes -> bytes) (ms ms' : list bytes) :
  (forall x, length (sha512 x) = 64%nat) ->
  PreauthHash_compute sha512 ms = PreauthHash_compute sha512 ms' -> ms = ms' \/ broken sha512 ms ms'.
Proof.
  intros Hlen. revert ms'.
  induction ms as [|m ms IH] using rev_ind; intros ms' H; destruct ms' as [|m' ms' _] using rev_ind.
  - by left.
  - right. right. exists (PreauthHash_compute sha512 ms' ++ m'). rewrite <-compute_snoc, <-H. split; [|done].
    apply elem_of_app. right. apply hashed_last.
  - right. right. exists (PreauthHash_compute sha512 ms ++ m). rewrite <-compute_snoc, H. split; [|done].
    apply elem_of_app. left. apply hashed_last.
  - rewrite !compute_snoc in H.
    destruct (decide (PreauthHash_compute sha512 ms ++ m = PreauthHash_compute sha512 ms' ++ m')) as [E|E].
    + apply app_split in E as [E ->]; [|by rewrite !length_compute]. destruct (IH ms' E) as [->|]; [by left|]. right. by apply broken_snoc.
    + right. left. do 2 eexists. split; [apply hashed_last|]. split; [apply hashed_last|]. done.
Qed.
Lemma preauth_binding_witness :
  let f := fun x => take 64 (x ++ replicate 64 x00) in
  [[x01]] = [[x02]] \/ broken f [[x01]] [[x02]].
Proof.
  intros f. apply (preauth_binding f [[x01]] [[x02]]).
  - intros x. unfold f. rewrite length_take, length_app, length_replicate. lia.
  - reflexivity.
Defined.
