(* ===== verification/SmbServer.v ===== *)
(** * SmbServer: the SMB file server (crate [adrian-smb-server])

    The in-memory file system, the session, tree and open-file tables of a
    connection, every command handler, the dispatcher and the connection loop.

    A [Share] is shared by all connections and by every open file on it, so a
    share is a reference [ShareRef] into the heap of file systems, and the
    handlers thread that heap.  Each handler takes the lock of a share at most
    once and does all its file operations under it, so a handler is one step.
    An error ends the connection and drops its state; the handlers that fail do
    so before they touch the heap.

    [str::to_lowercase] is a parameter of [parse_share_name] and of what calls
    it: its Unicode tables are not modelled.  Allocation succeeds up to the
    [isize::MAX] bytes a [Vec] can hold. *)
From S2P Require Import Prelude Bytes Text StorageKeys Utf16 Smb SmbMessages.

Inductive ServerProblem :=
| EofMidFrame
| UnsupportedFrameType (t : byte)
| TreeDisconnectTooShort.

(** [Auth], [Storage] and [ShareNotFound] are never built; [Io] wraps errors of
    the operating system. *)
Inductive SmbServerError :=
| Protocol (p : ServerProblem)
| Codec (e : SmbError).

(** ** The virtual file system *)

Abbreviation VirtualFs := (gmap bytes bytes).
Definition VirtualFs_new : VirtualFs := ∅.
Definition VirtualFs_put (fs : VirtualFs) (path data : bytes) : VirtualFs := <[path := data]> fs.
Definition VirtualFs_get (fs : VirtualFs) (path : bytes) : option bytes := fs !! path.

(** The offset is below the length, so the sum does not overflow. *)
Definition VirtualFs_read (fs : VirtualFs) (path : bytes) (offset length_ : Z) : Result SmbServerError (option bytes) :=
  match fs !! path with
  | None => Ok None
  | Some data =>
      let off := offset in
      if Z.of_nat (length data) <=? off then Ok (Some [])
      else
        let end_ := Z.min (off + length_) (Z.of_nat (length data)) in
        let? s := slice data (Z.to_nat off) (Z.to_nat end_) in
        Ok (Some s)
  end.

Definition isize_MAX : Z := 2 ^ 63 - 1.
(** [Vec::resize(need, 0)]; more than [isize::MAX] bytes is a capacity
    overflow. *)
Definition resize (file : bytes) (need : Z) : Result SmbServerError bytes :=
  if isize_MAX <? need then Panic
  else Ok (take (Z.to_nat need) file ++ replicate (Z.to_nat need - length file) x00).
(** [file[off..off + data.len()].copy_from_slice(data)]. *)
Definition copy_at (file : bytes) (off : Z) (data : bytes) : Result SmbServerError bytes :=
  if off + Z.of_nat (length data) <=? Z.of_nat (length file)
  then Ok (take (Z.to_nat off) file ++ data ++ drop (Z.to_nat off + length data) file)
  else Panic.
Definition VirtualFs_write (fs : VirtualFs) (path : bytes) (offset : Z) (data : bytes) :
    Result SmbServerError (option (Z * VirtualFs)) :=
  match fs !! path with
  | None => Ok None
  | Some file =>
      let off := offset in
      let? need := uint_add 64 off (Z.of_nat (length data)) in
      let? file := (if Z.of_nat (length file) <? need then resize file need else Ok file) in
      let? file := copy_at file off data in
      Ok (Some (as_u32 (Z.of_nat (length data)), <[path := file]> fs))
  end.
Definition VirtualFs_create (fs : VirtualFs) (path : bytes) : VirtualFs := <[path := []]> fs.
Definition VirtualFs_size (fs : VirtualFs) (path : bytes) : Z :=
  match fs !! path with Some v => Z.of_nat (length v) | None => 0 end.
Definition VirtualFs_len (fs : VirtualFs) : nat := size fs.
Definition VirtualFs_is_empty (fs : VirtualFs) : bool := bool_decide (size fs = 0%nat).

(** ** Shares and connection state *)

Definition ShareRef : Type := nat.
Abbreviation Heap := (gmap ShareRef VirtualFs).

(** The file system behind a reference. *)
Definition share_fs (heap : Heap) (s : ShareRef) : VirtualFs := default ∅ (heap !! s).

(** A server: the table of [SmbServer::with_shares], which indexes each share by
    its name as given. *)
Record Share := mkShare { share_name : bytes; share_ref : ShareRef }.
Definition with_shares (shares : list Share) : gmap bytes ShareRef :=
  fold_left (fun m s => <[share_name s := share_ref s]> m) shares ∅.

Record OpenFile := mkOpenFile { of_path : bytes; of_share : ShareRef }.
#[global] Instance FileId_countable : Countable FileId :=
  inj_countable' (fun f => (fid_persistent f, fid_volatile f)) (fun p => mkFileId p.1 p.2)
    ltac:(by intros []).

Record SessionState := mkSessionState {
  ss_tree_id : Z;
  ss_share : option ShareRef;
  ss_open_files : gmap FileId OpenFile;
}.
Definition SessionState_new : SessionState := mkSessionState 0 None ∅.

Record ConnectionState := mkConnectionState {
  cs_server_guid : Uuid;
  cs_server_salt : bytes;
  cs_shares : gmap bytes ShareRef;
  cs_next_session_id : Z;
  cs_sessions : gmap Z SessionState;
  cs_next_tree_id : Z;
  cs_next_file_persistent : Z;
  cs_next_file_volatile : Z;
}.
Definition ConnectionState_new (guid : Uuid) (salt : bytes) (shares : gmap bytes ShareRef) : ConnectionState :=
  mkConnectionState guid salt shares 1 ∅ 1 1 1.

Definition set_sessions (st : ConnectionState) (m : gmap Z SessionState) : ConnectionState :=
  mkConnectionState (cs_server_guid st) (cs_server_salt st) (cs_shares st) (cs_next_session_id st) m
    (cs_next_tree_id st) (cs_next_file_persistent st) (cs_next_file_volatile st).
(** [if let Some(s) = sessions.get_mut(&id)]. *)
Definition update_session (st : ConnectionState) (id : Z) (f : SessionState -> SessionState) : ConnectionState :=
  set_sessions st (alter f id (cs_sessions st)).

(** The counters: [+= 1] panics on overflow. *)
Definition alloc_session (st : ConnectionState) : Result SmbServerError (Z * ConnectionState) :=
  let id := cs_next_session_id st in
  let? next := uint_add 64 id 1 in
  Ok (id, mkConnectionState (cs_server_guid st) (cs_server_salt st) (cs_shares st) next
            (<[id := SessionState_new]> (cs_sessions st)) (cs_next_tree_id st) (cs_next_file_persistent st)
            (cs_next_file_volatile st)).
Definition alloc_tree_id (st : ConnectionState) : Result SmbServerError (Z * ConnectionState) :=
  let id := cs_next_tree_id st in
  let? next := uint_add 32 id 1 in
  Ok (id, mkConnectionState (cs_server_guid st) (cs_server_salt st) (cs_shares st) (cs_next_session_id st)
            (cs_sessions st) next (cs_next_file_persistent st) (cs_next_file_volatile st)).
Definition alloc_file_id (st : ConnectionState) : Result SmbServerError (FileId * ConnectionState) :=
  let p := cs_next_file_persistent st in
  let v := cs_next_file_volatile st in
  let? p' := uint_add 64 p 1 in
  let? v' := uint_add 64 v 1 in
  Ok (mkFileId p v, mkConnectionState (cs_server_guid st) (cs_server_salt st) (cs_shares st) (cs_next_session_id st)
                      (cs_sessions st) (cs_next_tree_id st) p' v').

(** ** Helpers of the handlers *)

Definition error_response (header : Smb2Header) (status : Z) : bytes :=
  Smb2Header_encode (set_status status (Smb2Header_new_response header)) [].
Definition share_for_session (st : ConnectionState) (session_id : Z) : option ShareRef :=
  s ← cs_sessions st !! session_id; ss_share s.
Definition lookup_open_file (st : ConnectionState) (session_id : Z) (file_id : FileId) : option (bytes * ShareRef) :=
  s ← cs_sessions st !! session_id;
  f ← ss_open_files s !! file_id;
  Some (of_path f, of_share f).

(** [trim_start_matches('\\')]. *)
Fixpoint trim_backslashes (s : bytes) : bytes :=
  match s with x5c :: s => trim_backslashes s | _ => s end.
(** The second of the parts of [splitn(3, '\\')] is the second of all parts. *)
Definition parse_share_name (to_lowercase : bytes -> bytes) (unc : bytes) : bytes :=
  match split_on x5c (trim_backslashes unc) with
  | _ :: share :: _ => to_lowercase share
  | _ => []
  end.

(** ** The handlers *)

Definition codec {A} (r : Result SmbError A) : Result SmbServerError A := map_err Codec r.
(** The response, the connection and the heap after a command. *)
Definition Outcome : Type := Result SmbServerError (bytes * (ConnectionState * Heap)).

Section handlers.
Context (to_lowercase : bytes -> bytes).
Implicit Types (st : ConnectionState) (heap : Heap) (header : Smb2Header) (payload : bytes).

Definition handle_negotiate st heap header payload : Outcome :=
  let? _req := codec (NegotiateRequest_decode payload SMB2_HEADER_SIZE) in
  let? resp := codec (NegotiateResponse_encode (NegotiateResponse_new_311 (cs_server_guid st) (cs_server_salt st)) header) in
  Ok (resp, (st, heap)).

Definition handle_session_setup st heap header payload : Outcome :=
  let? _req := codec (SessionSetupRequest_decode payload SMB2_HEADER_SIZE) in
  if h_session_id header =? 0 then
    let? a := alloc_session st in
    let '(new_id, st) := a in
    let resp_hdr := set_session_id new_id (Smb2Header_new_response header) in
    Ok (SessionSetupResponse_encode SessionSetupResponse_new_success resp_hdr STATUS_SUCCESS, (st, heap))
  else
    Ok (SessionSetupResponse_encode SessionSetupResponse_new_success header STATUS_SUCCESS, (st, heap)).

Definition handle_logoff st heap header payload : Outcome :=
  let? _ := codec (LogoffRequest_decode payload SMB2_HEADER_SIZE) in
  let st := set_sessions st (delete (h_session_id header) (cs_sessions st)) in
  Ok (LogoffResponse_encode header, (st, heap)).

Definition bind_tree (tree_id : Z) (share : ShareRef) (s : SessionState) : SessionState :=
  mkSessionState tree_id (Some share) (ss_open_files s).
Definition handle_tree_connect st heap header payload : Outcome :=
  let? req := codec (TreeConnectRequest_decode payload SMB2_HEADER_SIZE) in
  let share_name := parse_share_name to_lowercase (tq_path req) in
  match cs_shares st !! share_name with
  | None => Ok (error_response header STATUS_BAD_NETWORK_NAME, (st, heap))
  | Some share =>
      let? a := alloc_tree_id st in
      let '(tree_id, st) := a in
      let? st :=
        match cs_sessions st !! h_session_id header with
        | Some _ => Ok (update_session st (h_session_id header) (bind_tree tree_id share))
        | None =>
            let? a := alloc_session st in
            let '(sid, st) := a in
            Ok (update_session st sid (bind_tree tree_id share))
        end in
      Ok (TreeConnectResponse_encode TreeConnectResponse_new_disk header tree_id STATUS_SUCCESS, (st, heap))
  end.

Definition handle_tree_disconnect st heap header payload : Outcome :=
  if (length payload <? SMB2_HEADER_SIZE + 4)%nat then Err (Protocol TreeDisconnectTooShort)
  else
    let st := update_session st (h_session_id header) (fun s => mkSessionState (ss_tree_id s) None ∅) in
    let hdr := set_status STATUS_SUCCESS (Smb2Header_new_response header) in
    Ok (empty_body (Smb2Header_encode hdr []), (st, heap)).

(** The match on [create_disposition]: the size reported and the file system
    left, or the status of the error response. *)
Definition open_file (fs : VirtualFs) (name : bytes) (disposition : Z) : (Z * VirtualFs) + Z :=
  let exists_ := match VirtualFs_get fs name with Some _ => true | None => false end in
  match disposition with
  | 0x01 => if negb exists_ then inr STATUS_NO_SUCH_FILE else inl (VirtualFs_size fs name, fs)
  | 0x02 =>
      if exists_ then inr STATUS_OBJECT_NAME_COLLISION
      else inl (0, VirtualFs_create fs name)
  | 0x03 =>
      let fs := if exists_ then fs else VirtualFs_create fs name in
      inl (VirtualFs_size fs name, fs)
  | 0x04 =>
      if negb exists_ then inr STATUS_NO_SUCH_FILE
      else inl (0, alter (fun _ => []) name fs)
  | 0x05 =>
      let fs := if exists_ then alter (fun _ => []) name fs else VirtualFs_create fs name in
      inl (0, fs)
  | _ => inl (VirtualFs_size fs name, fs)
  end.
Definition add_open_file (file_id : FileId) (f : OpenFile) (s : SessionState) : SessionState :=
  mkSessionState (ss_tree_id s) (ss_share s) (<[file_id := f]> (ss_open_files s)).
Definition handle_create st heap header payload : Outcome :=
  let? req := codec (CreateRequest_decode payload SMB2_HEADER_SIZE) in
  match share_for_session st (h_session_id header) with
  | None => Ok (error_response header STATUS_ACCESS_DENIED, (st, heap))
  | Some share =>
      let? a := alloc_file_id st in
      let '(file_id, st) := a in
      match open_file (share_fs heap share) (cq_name req) (cq_create_disposition req) with
      | inr status => Ok (error_response header status, (st, heap))
      | inl (size, fs) =>
          let heap := <[share := fs]> heap in
          let st := update_session st (h_session_id header) (add_open_file file_id (mkOpenFile (cq_name req) share)) in
          Ok (CreateResponse_encode (CreateResponse_new file_id size) header STATUS_SUCCESS, (st, heap))
      end
  end.

Definition remove_open_file (file_id : FileId) (s : SessionState) : SessionState :=
  mkSessionState (ss_tree_id s) (ss_share s) (delete file_id (ss_open_files s)).
Definition handle_close st heap header payload : Outcome :=
  let? req := codec (CloseRequest_decode payload SMB2_HEADER_SIZE) in
  let st := update_session st (h_session_id header) (remove_open_file (lq_file_id req)) in
  Ok (CloseResponse_encode CloseResponse_new header STATUS_SUCCESS, (st, heap)).

Definition handle_read st heap header payload : Outcome :=
  let? req := codec (ReadRequest_decode payload SMB2_HEADER_SIZE) in
  match lookup_open_file st (h_session_id header) (rq_file_id req) with
  | None => Ok (error_response header STATUS_FILE_CLOSED, (st, heap))
  | Some (path, share) =>
      let? r := VirtualFs_read (share_fs heap share) path (rq_offset req) (rq_length req) in
      match r with
      | Some data => Ok (ReadResponse_encode (mkReadResponse data) header STATUS_SUCCESS, (st, heap))
      | None => Ok (error_response header STATUS_FILE_CLOSED, (st, heap))
      end
  end.

Definition handle_write st heap header payload : Outcome :=
  let? req := codec (WriteRequest_decode payload SMB2_HEADER_SIZE) in
  match lookup_open_file st (h_session_id header) (wq_file_id req) with
  | None => Ok (error_response header STATUS_FILE_CLOSED, (st, heap))
  | Some (path, share) =>
      let? r := VirtualFs_write (share_fs heap share) path (wq_offset req) (wq_data req) in
      match r with
      | Some (n, fs) => Ok (WriteResponse_encode (mkWriteResponse n) header STATUS_SUCCESS, (st, <[share := fs]> heap))
      | None => Ok (error_response header STATUS_FILE_CLOSED, (st, heap))
      end
  end.

Definition handle_echo st heap header payload : Outcome :=
  let? _ := codec (EchoRequest_decode payload SMB2_HEADER_SIZE) in
  Ok (EchoResponse_encode header, (st, heap)).

(** Every frame of type zero is answered. *)
Definition dispatch_frame st heap (frame_type : byte) payload : Outcome :=
  if negb (bool_decide (frame_type = x00)) then Err (Protocol (UnsupportedFrameType frame_type))
  else
    match Smb2Header_decode payload with
    | Panic => Panic
    | Err Smb1Refused =>
        Ok (error_response (Smb2Header_new_request 0 0) STATUS_INVALID_PARAMETER, (st, heap))
    | Err e => Err (Codec e)
    | Ok header =>
        match Command_from_wire (h_command header) with
        | Some CNegotiate => handle_negotiate st heap header payload
        | Some CSessionSetup => handle_session_setup st heap header payload
        | Some CLogoff => handle_logoff st heap header payload
        | Some CTreeConnect => handle_tree_connect st heap header payload
        | Some CTreeDisconnect => handle_tree_disconnect st heap header payload
        | Some CCreate => handle_create st heap header payload
        | Some CClose => handle_close st heap header payload
        | Some CRead => handle_read st heap header payload
        | Some CWrite => handle_write st heap header payload
        | Some CEcho => handle_echo st heap header payload
        | _ => Ok (error_response header STATUS_INVALID_DEVICE_REQUEST, (st, heap))
        end
    end.
End handlers.

(** ** The connection loop *)

Section connection.
Context (to_lowercase : bytes -> bytes).

(** The handler, the heap it shares, the unconsumed input and what it wrote. *)
Record Connection := mkConnection {
  cn_state : ConnectionState;
  cn_heap : Heap;
  cn_read_buf : bytes;
  cn_out : bytes;
}.
Definition connection_new (guid : Uuid) (salt : bytes) (shares : gmap bytes ShareRef) (heap : Heap) : Connection :=
  mkConnection (ConnectionState_new guid salt shares) heap [] [].

(** One turn of the loop: a frame was answered, more input is needed (and
    whether the end of the input would be a clean close), or [run] ends. *)
Inductive Turn :=
| Answered (c : Connection)
| NeedMore (clean : bool)
| Ended (r : Result SmbServerError unit).

Definition turn (c : Connection) : Turn :=
  match peek_header (cn_read_buf c) with
  | Ok None => NeedMore true
  | Ok (Some (frame_type, payload_len)) =>
      let frame_total := (4 + Z.to_nat payload_len)%nat in
      if (length (cn_read_buf c) <? frame_total)%nat then NeedMore false
      else
        let payload := drop 4 (take frame_total (cn_read_buf c)) in
        let rest := drop frame_total (cn_read_buf c) in
        match dispatch_frame to_lowercase (cn_state c) (cn_heap c) frame_type payload with
        | Ok (resp, (st, heap)) =>
            match encode_frame resp with
            | Ok framed => Answered (mkConnection st heap rest (cn_out c ++ framed))
            | Err e => Ended (Err (Codec e))
            | Panic => Ended Panic
            end
        | Err e => Ended (Err e)
        | Panic => Ended Panic
        end
  | Err e => Ended (Err (Codec e))
  | Panic => Ended Panic
  end.

(** The turns that need no input; a frame is at least four bytes, so the length
    of the buffer bounds their number. *)
Fixpoint turns (rounds : nat) (c : Connection) : Connection * (bool + Result SmbServerError unit) :=
  match turn c with
  | NeedMore clean => (c, inl clean)
  | Ended e => (c, inr e)
  | Answered c' =>
      match rounds with
      | O => (c', inr Panic)
      | S rounds => turns rounds c'
      end
  end.

(** [run]: the client's bytes arrive in the chunks the reads return, each with at
    least one byte; the end of the list is the end of the stream, a read of no
    bytes. *)
Fixpoint run (c : Connection) (reads : list bytes) : Connection * Result SmbServerError unit :=
  match turns (length (cn_read_buf c)) c with
  | (c, inr e) => (c, e)
  | (c, inl clean) =>
      match reads with
      | [] => (c, if clean then Ok tt else Err (Protocol EofMidFrame))
      | chunk :: reads => run (mkConnection (cn_state c) (cn_heap c) (cn_read_buf c ++ chunk) (cn_out c)) reads
      end
  end.
End connection.
