(* ===== verification/SmbServerProofs.v ===== *)
(** * SmbServerProofs: the SMB file server

    What reads and writes do to a file, the invariant of a connection, what a
    command may change, and the independence of the connection loop from the way
    the network cuts its input. *)
From S2P Require Import Prelude Bytes Text StorageKeys Utf16 Smb SmbMessages SmbProofs SmbSpec SmbServer.

(** ** Files *)

(** The file after [data] is written at [off]: zeros fill a gap. *)
Definition splice (file : bytes) (off : nat) (data : bytes) : bytes :=
  take off (file ++ replicate (off - length file) x00) ++ data ++ drop (off + length data) file.

Lemma length_splice file off data : length (splice file off data) = Nat.max (length file) (off + length data).
Proof. unfold splice. rewrite !length_app, length_take, length_drop, length_app, length_replicate. lia. Qed.
Lemma splice_lookup file off data i :
  splice file off data !! i =
    if decide (off <= i < off + length data)%nat then data !! (i - off)%nat
    else if decide (i < length file)%nat then file !! i
    else if decide (i < off)%nat then Some x00 else None.
Proof.
  unfold splice. set (pre := take off (file ++ replicate (off - length file) x00)).
  assert (length pre = off) as Hp by (unfold pre; rewrite length_take, length_app, length_replicate; lia).
  destruct (decide (off <= i < off + length data)%nat) as [H|H].
  { rewrite lookup_app_r, Hp, lookup_app_l by lia. done. }
  destruct (decide (i < off)%nat) as [Hi|Hi].
  - rewrite lookup_app_l by lia. unfold pre. rewrite lookup_take_lt by lia. destruct (decide (i < length file)%nat).
    + by rewrite lookup_app_l by lia.
    + rewrite lookup_app_r by lia. apply lookup_replicate_2. lia.
  - rewrite lookup_app_r, lookup_app_r, lookup_drop by lia. rewrite Hp. replace (_ + _)%nat with i by lia.
    destruct (decide (i < length file)%nat); [done|]. apply lookup_ge_None_2. lia.
Qed.
Lemma VirtualFs_read_Ok fs path file off n : fs !! path = Some file -> 0 <= off -> 0 <= n ->
  VirtualFs_read fs path off n = Ok (Some (take (Z.to_nat n) (drop (Z.to_nat off) file))).
Proof.
  intros Hf Ho Hn. unfold VirtualFs_read. rewrite Hf. destruct (Z.leb_spec (Z.of_nat (length file)) off).
  - rewrite drop_ge by lia. by rewrite take_nil.
  - rewrite slice_Ok by lia. cbn [rbind]. do 2 f_equal.
    destruct (Z.le_gt_cases (off + n) (Z.of_nat (length file))).
    + rewrite Z.min_l by lia. f_equal. lia.
    + rewrite Z.min_r by lia. rewrite !take_ge by (rewrite length_drop; lia). done.
Qed.
Lemma VirtualFs_write_cases fs path file off data :
  fs !! path = Some file -> Z.of_nat (length file) <= isize_MAX -> Z.of_nat (length data) <= isize_MAX -> is_u64 off ->
  VirtualFs_write fs path off data =
    if off + Z.of_nat (length data) <=? isize_MAX
    then Ok (Some (as_u32 (Z.of_nat (length data)), <[path := splice file (Z.to_nat off) data]> fs))
    else Panic.
Proof.
  intros Hf Hm Hd Ho. unfold VirtualFs_write, isize_MAX in *. rewrite Hf.
  change (2 ^ 63) with 9223372036854775808 in *. unfold is_uint in Ho.
  destruct (Z.leb_spec (off + Z.of_nat (length data)) (9223372036854775808 - 1)) as [Hl|Hl].
  - rewrite uint_add_Ok by lia. cbn [rbind]. set (need := off + Z.of_nat (length data)) in *.
    destruct (Z.ltb_spec (Z.of_nat (length file)) need) as [Hn|Hn].
    + unfold resize, isize_MAX. change (2 ^ 63) with 9223372036854775808. rewrite (proj2 (Z.ltb_ge _ _)) by lia. cbn [rbind].
      unfold copy_at. rewrite length_app, length_replicate, length_take. rewrite (proj2 (Z.leb_le _ _)) by lia. cbn [rbind].
      do 4 f_equal. unfold splice. rewrite (take_ge file) by lia. f_equal.
      * destruct (Nat.le_gt_cases (Z.to_nat off) (length file)).
        -- by rewrite !take_app_le by lia.
        -- rewrite !take_app_ge by lia. by rewrite !take_replicate, !Nat.min_l by lia.
      * f_equal. rewrite !drop_ge; [done|lia|]. rewrite length_app, length_replicate. lia.
    + cbn [rbind]. unfold copy_at. fold need. rewrite (proj2 (Z.leb_le _ _)) by lia. cbn [rbind]. do 4 f_equal. unfold splice.
      replace (Z.to_nat off - length file)%nat with 0%nat by lia. by rewrite app_nil_r.
  - unfold uint_add. destruct (Z.ltb_spec (off + Z.of_nat (length data)) (2 ^ 64)); [|done]. cbn [rbind].
    rewrite (proj2 (Z.ltb_lt _ _)) by lia. unfold resize, isize_MAX. by rewrite (proj2 (Z.ltb_lt _ _)) by lia.
Qed.

(** Files: a write panics exactly when it would end beyond [isize::MAX]
    bytes (an offset the client chooses); otherwise every byte of the written
    range is the new data, every other byte of the file is kept, a gap is
    filled with zeros, no other file changes, and a read of any range returns
    exactly the bytes of the file there. *)
Theorem vfs_write_read_spec (fs : VirtualFs) (path file data : bytes) (off : Z) :
  fs !! path = Some file -> Z.of_nat (length file) <= isize_MAX -> Z.of_nat (length data) <= isize_MAX -> is_u64 off ->
  (VirtualFs_write fs path off data = Panic <-> isize_MAX < off + Z.of_nat (length data))
  /\ (off + Z.of_nat (length data) <= isize_MAX ->
      exists fs' file', VirtualFs_write fs path off data = Ok (Some (as_u32 (Z.of_nat (length data)), fs'))
        /\ fs' !! path = Some file' /\ (forall p, p <> path -> fs' !! p = fs !! p)
        /\ (forall i, file' !! i =
             if decide (Z.to_nat off <= i < Z.to_nat off + length data)%nat then data !! (i - Z.to_nat off)%nat
             else if decide (i < length file)%nat then file !! i
             else if decide (i < Z.to_nat off)%nat then Some x00 else None)
        /\ (forall o n, 0 <= o -> 0 <= n ->
             VirtualFs_read fs' path o n = Ok (Some (take (Z.to_nat n) (drop (Z.to_nat o) file'))))).
Proof.
  intros Hf Hm Hd Ho. rewrite (VirtualFs_write_cases fs path file) by done. split.
  - destruct (Z.leb_spec (off + Z.of_nat (length data)) isize_MAX); split; (done || lia).
  - intros Hl. rewrite (proj2 (Z.leb_le _ _)) by done. do 2 eexists. split; [done|]. split; [apply lookup_insert_eq|].
    split; [intros p Hp; by apply lookup_insert_ne|]. split; [intros i; apply splice_lookup|].
    intros o n H0 Hn. apply VirtualFs_read_Ok; [apply lookup_insert_eq|done..].
Qed.
Lemma vfs_write_read_spec_witness :
  VirtualFs_write {[ lit "f" := lit "abc" ]} (lit "f") (2 ^ 63) (lit "x") = Panic.
Proof.
  apply (vfs_write_read_spec {[ lit "f" := lit "abc" ]} (lit "f") (lit "abc") (lit "x") (2 ^ 63)).
  - apply lookup_singleton_eq.
  - by vm_compute.
  - by vm_compute.
  - by vm_compute.
  - by vm_compute.
Defined.

(** ** The invariant of a connection *)

Record conn_ok (st : ConnectionState) : Prop := mkConnOk {
  co_guid : is_u128 (cs_server_guid st);
  co_salt : Z.of_nat (length (cs_server_salt st)) <= 65000;
  co_session : 1 <= cs_next_session_id st < 2 ^ 64;
  co_tree : 1 <= cs_next_tree_id st < 2 ^ 32;
  co_file : 1 <= cs_next_file_persistent st < 2 ^ 64;
  co_volatile : cs_next_file_volatile st = cs_next_file_persistent st;
  co_sessions : forall id s, cs_sessions st !! id = Some s -> 1 <= id < cs_next_session_id st;
  co_files : forall id s fid f, cs_sessions st !! id = Some s -> ss_open_files s !! fid = Some f ->
    fid_persistent fid = fid_volatile fid /\ 1 <= fid_persistent fid < cs_next_file_persistent st
    /\ exists name, cs_shares st !! name = Some (of_share f);
  co_unique : forall id s id' s' fid f f', cs_sessions st !! id = Some s -> cs_sessions st !! id' = Some s' ->
    ss_open_files s !! fid = Some f -> ss_open_files s' !! fid = Some f' -> id = id';
  co_share : forall id s r, cs_sessions st !! id = Some s -> ss_share s = Some r ->
    exists name, cs_shares st !! name = Some r;
}.

Lemma conn_ok_new guid salt shares : is_u128 guid -> Z.of_nat (length salt) <= 65000 ->
  conn_ok (ConnectionState_new guid salt shares).
Proof. intros. constructor; cbn; try done; try lia; intros *; by rewrite lookup_empty. Qed.

(** Changing one session to keep a part of its open files. *)
Lemma conn_ok_update st id f : conn_ok st ->
  (forall s, cs_sessions st !! id = Some s -> ss_open_files (f s) ⊆ ss_open_files s
     /\ (ss_share (f s) = None \/ exists r name, ss_share (f s) = Some r /\ cs_shares st !! name = Some r)) ->
  conn_ok (update_session st id f).
Proof.
  intros [] Hf. assert (forall i s', cs_sessions (update_session st id f) !! i = Some s' -> exists s, cs_sessions st !! i = Some s
    /\ ss_open_files s' ⊆ ss_open_files s
    /\ (i <> id /\ s' = s \/ i = id /\ s' = f s)) as Hl.
  { intros i s'. cbn. destruct (decide (i = id)) as [->|Hi].
    - rewrite lookup_alter_eq. destruct (cs_sessions st !! id) as [s|] eqn:E; cbn; [|done]. intros [= <-]. exists s.
      split; [done|]. split; [by apply Hf|]. by right.
    - rewrite lookup_alter_ne by done. intros ->. exists s'. split; [done|]. split; [done|]. by left. }
  constructor; try done.
  - intros i s' (s & Hs & _)%Hl. eauto.
  - intros i s' fid g (s & Hs & Hsub & _)%Hl Hg. eapply co_files0; [done|]. exact (lookup_weaken _ _ _ _ Hg Hsub).
  - intros i s1 i' s2 fid g g' (s & Hs & Hsub & _)%Hl (s'' & Hs' & Hsub' & _)%Hl Hg Hg'.
    eapply co_unique0; [exact Hs|exact Hs'|exact (lookup_weaken _ _ _ _ Hg Hsub)|exact (lookup_weaken _ _ _ _ Hg' Hsub')].
  - intros i s' r (s & Hs & _ & [[_ ->]|[-> ->]])%Hl Hr; [eauto|]. destruct (Hf s Hs) as [_ [E|(r' & name & E & ?)]]; naive_solver.
Qed.
Lemma conn_ok_delete st id : conn_ok st -> conn_ok (set_sessions st (delete id (cs_sessions st))).
Proof.
  intros []. constructor; try done; cbn; intros *; rewrite ?lookup_delete_Some; try intros [? ?]; eauto.
  intros [? ?]. eauto.
Qed.
Lemma conn_ok_alloc_session st id st' : conn_ok st -> alloc_session st = Ok (id, st') ->
  conn_ok st' /\ id = cs_next_session_id st /\ cs_sessions st !! id = None
  /\ cs_sessions st' = <[id := SessionState_new]> (cs_sessions st) /\ cs_shares st' = cs_shares st.
Proof.
  intros []. unfold alloc_session, uint_add. destruct (Z.ltb_spec (cs_next_session_id st + 1) (2 ^ 64)); [|done]. cbn [rbind].
  intros [= <- <-]. assert (cs_sessions st !! cs_next_session_id st = None) as Hn.
  { destruct (cs_sessions st !! cs_next_session_id st) eqn:E; [|done]. apply co_sessions0 in E. lia. }
  split_and!; try done. constructor; cbn; try done; try lia.
  - intros i s. rewrite lookup_insert_Some. intros [[<- <-]|[? H']]; [lia|]. apply co_sessions0 in H'. lia.
  - intros i s fid f. rewrite lookup_insert_Some. intros [[<- <-]|[? H']]; [done|]. eauto.
  - intros i s i' s' fid f f'. rewrite !lookup_insert_Some. intros [[<- <-]|[? H']]; [done|]. intros [[<- <-]|[? H'']]; [done|]. eauto.
  - intros i s r. rewrite lookup_insert_Some. intros [[<- <-]|[? H']]; [done|]. eauto.
Qed.
Lemma conn_ok_alloc_tree st id st' : conn_ok st -> alloc_tree_id st = Ok (id, st') ->
  conn_ok st' /\ is_u32 id /\ id <> 0 /\ cs_sessions st' = cs_sessions st /\ cs_shares st' = cs_shares st
  /\ cs_next_session_id st' = cs_next_session_id st.
Proof.
  intros []. unfold alloc_tree_id, uint_add. destruct (Z.ltb_spec (cs_next_tree_id st + 1) (2 ^ 32)); [|done]. cbn [rbind].
  intros [= <- <-]. split_and!; try done; try (unfold is_uint; cbn; lia). constructor; cbn; try done; lia.
Qed.
(** Opening a file: its id is fresh. *)
Lemma conn_ok_open st fid st' id f : conn_ok st -> alloc_file_id st = Ok (fid, st') ->
  (exists name, cs_shares st !! name = Some (of_share f)) ->
  conn_ok st' /\ conn_ok (update_session st' id (add_open_file fid f))
  /\ (forall i s, cs_sessions st !! i = Some s -> ss_open_files s !! fid = None) /\ file_id_ok fid
  /\ cs_sessions st' = cs_sessions st /\ cs_shares st' = cs_shares st /\ cs_next_session_id st' = cs_next_session_id st.
Proof.
  intros [] E Hn. unfold alloc_file_id, uint_add in E. destruct (Z.ltb_spec (cs_next_file_persistent st + 1) (2 ^ 64)); [|done].
  cbn [rbind] in E. rewrite co_volatile0 in E. rewrite (proj2 (Z.ltb_lt _ _)) in E by done. cbn [rbind] in E.
  injection E as <- <-. set (fid := mkFileId _ _).
  assert (forall i s, cs_sessions st !! i = Some s -> ss_open_files s !! fid = None) as Hfresh.
  { intros i s Hs. destruct (ss_open_files s !! fid) as [g|] eqn:Eg; [|done]. destruct (co_files0 i s fid g Hs Eg) as (_ & Hr & _).
    unfold fid in Hr. cbn in Hr. lia. }
  split_and!; try done; try (unfold file_id_ok, is_uint; cbn; lia).
  - constructor; cbn; try done; try lia. intros i s g h Hs Hg. destruct (co_files0 i s g h Hs Hg) as (? & ? & ?). split_and!; (done || lia).
  - assert (forall i s', alter (add_open_file fid f) id (cs_sessions st) !! i = Some s' -> exists s, cs_sessions st !! i = Some s
      /\ ss_share s' = ss_share s
      /\ forall g h, ss_open_files s' !! g = Some h -> ss_open_files s !! g = Some h \/ i = id /\ g = fid /\ h = f) as Hl.
    { intros i s'. rewrite lookup_alter_Some. intros [[<- (s & Hs & ->)]|[Hi Hs]].
      - exists s. split; [done|]. split; [done|]. intros g h. cbn. rewrite lookup_insert_Some. naive_solver.
      - exists s'. split_and!; naive_solver. }
    constructor; cbn; try done; try lia.
    + intros i s' (s & Hs & _)%Hl. eauto.
    + intros i s' g h (s & Hs & _ & Hg)%Hl [Hh|(_ & -> & ->)]%Hg.
      * destruct (co_files0 i s g h Hs Hh) as (? & ? & ?). split_and!; (done || lia).
      * unfold fid. cbn. split_and!; (done || lia).
    + intros i s1 i' s2 g h h' (s & Hs & _ & Hg)%Hl (s' & Hs' & _ & Hg')%Hl [Hh|(-> & -> & ->)]%Hg [Hh'|(-> & E2 & ->)]%Hg'.
      * by eapply co_unique0.
      * subst. by rewrite (Hfresh i s) in Hh.
      * by rewrite (Hfresh i' s') in Hh'.
      * done.
    + intros i s' r (s & Hs & -> & _)%Hl. eauto.
Qed.

(** ** What a command does *)

(** The response is well-formed, marked as one, and answers this request. *)
Definition answers (header : Smb2Header) (resp : bytes) : Prop :=
  exists h, Smb2Header_decode resp = Ok h /\ is_response h = true
    /\ h_message_id h = h_message_id header /\ h_command h = h_command header.
(** The session is bound to the share or has a file open on it. *)
Definition touches (st : ConnectionState) (id : Z) (r : ShareRef) : Prop :=
  exists s, cs_sessions st !! id = Some s
    /\ (ss_share s = Some r \/ exists fid f, ss_open_files s !! fid = Some f /\ of_share f = r).
(** Files fit a [Vec]. *)
Definition heap_ok (heap : Heap) : Prop :=
  forall r path file, share_fs heap r !! path = Some file -> Z.of_nat (length file) <= isize_MAX.
(** The invariant is kept, other sessions are untouched, only shares the session
    may use change, and the request is answered. *)
Definition Good (st : ConnectionState) (heap : Heap) (header : Smb2Header) (resp : bytes) (st' : ConnectionState) (heap' : Heap) : Prop :=
  conn_ok st' /\ heap_ok heap' /\ cs_shares st' = cs_shares st
  /\ (forall id, id <> h_session_id header -> id < cs_next_session_id st -> cs_sessions st' !! id = cs_sessions st !! id)
  /\ (forall r, share_fs heap' r <> share_fs heap r -> touches st (h_session_id header) r)
  /\ answers header resp.

Lemma header_ok_response header status : header_ok header -> is_u32 status ->
  header_ok (set_status status (Smb2Header_new_response header)).
Proof. intros (?&?&?&?&?&?&?&?&?&?&?) ?. unfold header_ok. cbn. by split_and!. Qed.
Lemma header_ok_session header v : header_ok header -> is_u64 v -> header_ok (set_session_id v header).
Proof. intros (?&?&?&?&?&?&?&?&?&?&?) ?. unfold header_ok. cbn. by split_and!. Qed.
Lemma error_answers header status : header_ok header -> is_u32 status -> answers header (error_response header status).
Proof.
  intros Hh Hs. exists (set_status status (Smb2Header_new_response header)). split; [|done]. unfold error_response. rewrite <-(app_nil_r (Smb2Header_encode _ _)).
  apply decode_encode_header. by apply header_ok_response.
Qed.
Lemma response_answers p header tree status resp : encode_response p header tree status = Ok resp ->
  response_typed p -> header_ok header -> is_u32 tree -> is_u32 status -> answers header resp.
Proof.
  intros E Hp Hh Ht Hs. destruct (response_roundtrip p header tree status Hp Hh Ht Hs) as (buf & E' & Hd & Hr & _).
  rewrite E in E'. injection E' as <-. eexists. split; [exact Hd|]. split; [exact Hr|]. done.
Qed.
(** A command that leaves the connection and the heap as they are. *)
Lemma Good_same st heap header resp : conn_ok st -> heap_ok heap -> answers header resp -> Good st heap header resp st heap.
Proof. intros. by split_and!. Qed.
Lemma session_kept st id f i : i <> id -> cs_sessions (update_session st id f) !! i = cs_sessions st !! i.
Proof. intros. cbn. by rewrite lookup_alter_ne. Qed.
Lemma share_fs_insert heap r fs r' : share_fs (<[r := fs]> heap) r' <> share_fs heap r' -> r' = r.
Proof. unfold share_fs. destruct (decide (r' = r)); [done|]. by rewrite lookup_insert_ne. Qed.

Lemma negotiate_311_ok guid salt : is_u128 guid -> Z.of_nat (length salt) <= 65000 ->
  negotiate_response_ok (NegotiateResponse_new_311 guid salt).
Proof.
  intros Hg Hs. assert (Forall context_ok (default_contexts salt)) as Hc.
  { unfold default_contexts, preauth_integrity. repeat constructor; cbn [context_type ctx_data]; try done.
    rewrite !length_app, !length_to_le, length_units_le. cbn [length]. lia. }
  split; [unfold negotiate_response_typed; cbn; by split_and!|]. unfold NegotiateResponse_new_311, default_contexts. cbn [np_negotiate_contexts ctx_list].
  rewrite !length_app, !length_replicate, !length_ctx_bytes. unfold preauth_integrity, encryption, signing. cbn [ctx_data].
  rewrite !length_app, !length_to_le, !length_units_le. cbn [length].
  assert (forall n, pad8 n <= 7)%nat as Hp by (intros n; mod8). pose proof (Hp (8 + (2 + (2 + (2 * 1 + length salt))))%nat).
  pose proof (Hp (8 + (2 + 2 * 2))%nat). lia.
Qed.

(** Takes the first steps of a handler that succeeded. *)
Ltac peel H :=
  repeat (let a := fresh "a" in let Hr := fresh "Hr" in apply rbind_Ok_inv in H as (a & Hr & H); cbv beta in H).

Section commands.
Context (to_lowercase : bytes -> bytes) (st : ConnectionState) (heap : Heap) (header : Smb2Header) (payload : bytes).
Context (Hst : conn_ok st) (Hheap : heap_ok heap) (Hh : header_ok header).

Lemma negotiate_good (resp : bytes) (st' : ConnectionState) (heap' : Heap) : handle_negotiate st heap header payload = Ok (resp, (st', heap')) ->
  Good st heap header resp st' heap'.
Proof using Hst Hheap Hh.
  unfold handle_negotiate, codec. intros H. peel H. injection H as <- <- <-. apply Good_same; [done..|].
  apply (response_answers (PNegotiate (NegotiateResponse_new_311 (cs_server_guid st) (cs_server_salt st))) header 0 0); try done.
  - by apply map_err_Ok_inv in Hr0.
  - apply negotiate_311_ok; apply Hst.
Qed.
Lemma session_setup_good (resp : bytes) (st' : ConnectionState) (heap' : Heap) : handle_session_setup st heap header payload = Ok (resp, (st', heap')) ->
  Good st heap header resp st' heap'.
Proof using Hst Hheap Hh.
  unfold handle_session_setup, codec. intros H. peel H. destruct (h_session_id header =? 0).
  - peel H. destruct a0 as [id st1]. injection H as <- <- <-.
    destruct (conn_ok_alloc_session st id st1 Hst Hr0) as (Hok & -> & Hn & Hs & Hsh). split_and!; try done.
    + intros i _ Hi. rewrite Hs, lookup_insert_ne by lia. done.
    + assert (header_ok (set_session_id (cs_next_session_id st) (Smb2Header_new_response header))) as Hh'.
      { apply header_ok_session; [by apply (header_ok_response header 0)|]. destruct Hst. unfold is_uint. lia. }
      refine (response_answers (PSessionSetup SessionSetupResponse_new_success)
        (set_session_id (cs_next_session_id st) (Smb2Header_new_response header)) 0 STATUS_SUCCESS _ eq_refl _ Hh' _ _); done.
  - injection H as <- <- <-. apply Good_same; [done..|].
    by apply (response_answers (PSessionSetup SessionSetupResponse_new_success) header 0 STATUS_SUCCESS).
Qed.
Lemma logoff_good (resp : bytes) (st' : ConnectionState) (heap' : Heap) : handle_logoff st heap header payload = Ok (resp, (st', heap')) ->
  Good st heap header resp st' heap'.
Proof using Hst Hheap Hh.
  unfold handle_logoff, codec. intros H. peel H. injection H as <- <- <-. split_and!; try done.
  - by apply conn_ok_delete.
  - intros id Hid _. cbn. by rewrite lookup_delete_ne.
  - by apply (response_answers PLogoff header 0 0).
Qed.
Lemma echo_good (resp : bytes) (st' : ConnectionState) (heap' : Heap) : handle_echo st heap header payload = Ok (resp, (st', heap')) ->
  Good st heap header resp st' heap'.
Proof using Hst Hheap Hh.
  unfold handle_echo, codec. intros H. peel H. injection H as <- <- <-. apply Good_same; [done..|].
  by apply (response_answers PEcho header 0 0).
Qed.
Lemma tree_connect_good (resp : bytes) (st' : ConnectionState) (heap' : Heap) : handle_tree_connect to_lowercase st heap header payload = Ok (resp, (st', heap')) ->
  Good st heap header resp st' heap'.
Proof using Hst Hheap Hh.
  unfold handle_tree_connect, codec. intros H. peel H. destruct (cs_shares st !! _) as [share|] eqn:Es.
  2:{ injection H as <- <- <-. apply Good_same; [done..|]. by apply error_answers. }
  peel H. destruct a0 as [tid st1]. destruct (conn_ok_alloc_tree st tid st1 Hst Hr0) as (Hok & Ht & Ht0 & Hs & Hsh & Hnx).
  peel H. injection H as <- <- <-.
  assert (answers header (TreeConnectResponse_encode TreeConnectResponse_new_disk header tid STATUS_SUCCESS)) as Ha
    by (by apply (response_answers (PTreeConnect TreeConnectResponse_new_disk) header tid STATUS_SUCCESS)).
  destruct (cs_sessions st1 !! h_session_id header) as [s|] eqn:E.
  - injection Hr1 as <-. split_and!; try done.
    + apply conn_ok_update; [done|]. intros s' Hs'. split; [done|]. right. rewrite Hsh. eauto.
    + intros id Hid _. by rewrite session_kept, Hs.
  - peel Hr1. destruct a1 as [sid st2]. injection Hr1 as <-.
    destruct (conn_ok_alloc_session st1 sid st2 Hok Hr2) as (Hok2 & Hsid & Hn & Hs2 & Hsh2). split_and!; try done.
    + apply conn_ok_update; [done|]. intros s' Hs'. split; [done|]. right. rewrite Hsh2, Hsh. eauto.
    + cbn. by rewrite Hsh2.
    + intros id Hid Hlt. rewrite session_kept, Hs2, lookup_insert_ne, Hs by lia. done.
Qed.
Lemma tree_disconnect_good (resp : bytes) (st' : ConnectionState) (heap' : Heap) : handle_tree_disconnect st heap header payload = Ok (resp, (st', heap')) ->
  Good st heap header resp st' heap'.
Proof using Hst Hheap Hh.
  unfold handle_tree_disconnect. destruct (_ <? _)%nat; [done|]. intros [= <- <- <-]. split_and!; try done.
  - apply conn_ok_update; [done|]. intros s _. cbn. split; [apply map_empty_subseteq|by left].
  - intros id Hid _. by apply session_kept.
  - by apply (response_answers PLogoff header 0 0).
Qed.
Lemma close_good (resp : bytes) (st' : ConnectionState) (heap' : Heap) : handle_close st heap header payload = Ok (resp, (st', heap')) ->
  Good st heap header resp st' heap'.
Proof using Hst Hheap Hh.
  unfold handle_close, codec. intros H. peel H. injection H as <- <- <-. split_and!; try done.
  - apply conn_ok_update; [done|]. intros s Hs. cbn. split; [apply delete_subseteq|].
    destruct (ss_share s) as [r|] eqn:E; [|by left]. right. destruct (co_share st Hst _ s r Hs E). eauto.
  - intros id Hid _. by apply session_kept.
  - by apply (response_answers (PClose CloseResponse_new) header 0 STATUS_SUCCESS).
Qed.

Lemma read_decoded q : ReadRequest_decode payload SMB2_HEADER_SIZE = Ok q -> read_request_ok q.
Proof using.
  intros E. pose proof (decode_request_total CRead payload _ eq_refl) as H. rewrite E in H. by destruct H.
Qed.
Lemma write_decoded q : WriteRequest_decode payload SMB2_HEADER_SIZE = Ok q -> write_request_ok q.
Proof using.
  intros E. pose proof (decode_request_total CWrite payload _ eq_refl) as H. rewrite E in H. by destruct H.
Qed.
Lemma lookup_open_touches id fid path share : lookup_open_file st id fid = Some (path, share) -> touches st id share.
Proof using.
  unfold lookup_open_file. destruct (cs_sessions st !! id) as [s|] eqn:Es; cbn; [|done].
  destruct (ss_open_files s !! fid) as [f|] eqn:Ef; cbn; [|done]. intros [= <- <-]. exists s. split; [done|]. right. eauto.
Qed.
Lemma share_fs_eq r fs : share_fs (<[r := fs]> heap) r = fs.
Proof using. unfold share_fs. by rewrite lookup_insert_eq. Qed.
Lemma share_fs_ne r fs r' : r' <> r -> share_fs (<[r := fs]> heap) r' = share_fs heap r'.
Proof using. intros. unfold share_fs. by rewrite lookup_insert_ne. Qed.
Lemma heap_ok_insert r fs :
  (forall path file, fs !! path = Some file -> Z.of_nat (length file) <= isize_MAX) -> heap_ok (<[r := fs]> heap).
Proof using Hheap.
  intros H r' path file. destruct (decide (r' = r)) as [->|]; [rewrite share_fs_eq|rewrite share_fs_ne by done]; eauto.
Qed.

Lemma read_good (resp : bytes) (st' : ConnectionState) (heap' : Heap) :
  handle_read st heap header payload = Ok (resp, (st', heap')) -> Good st heap header resp st' heap'.
Proof using Hst Hheap Hh.
  unfold handle_read, codec. intros H. peel H. apply map_err_Ok_inv, read_decoded in Hr as (Hl & Ho & _).
  destruct (lookup_open_file _ _ _) as [[path share]|] eqn:E.
  2:{ injection H as <- <- <-. apply Good_same; [done..|]. by apply error_answers. }
  peel H. destruct a0 as [data|]; injection H as <- <- <-; apply Good_same; try done; [|by apply error_answers].
  apply (response_answers (PRead (mkReadResponse data)) header 0 STATUS_SUCCESS); try done. cbn.
  destruct (share_fs heap share !! path) as [file|] eqn:Ef; [|by unfold VirtualFs_read in Hr; rewrite Ef in Hr].
  unfold is_uint in *. rewrite (VirtualFs_read_Ok _ path file) in Hr by (done || lia). injection Hr as <-.
  rewrite length_take. lia.
Qed.
Lemma write_good (resp : bytes) (st' : ConnectionState) (heap' : Heap) :
  handle_write st heap header payload = Ok (resp, (st', heap')) -> Good st heap header resp st' heap'.
Proof using Hst Hheap Hh.
  unfold handle_write, codec. intros H. peel H. apply map_err_Ok_inv, write_decoded in Hr as (Hl & Hu & Ho & _).
  destruct (lookup_open_file _ _ _) as [[path share]|] eqn:E.
  2:{ injection H as <- <- <-. apply Good_same; [done..|]. by apply error_answers. }
  peel H. destruct (share_fs heap share !! path) as [file|] eqn:Ef.
  2:{ unfold VirtualFs_write in Hr. rewrite Ef in Hr. injection Hr as <-. injection H as <- <- <-.
      apply Good_same; [done..|]. by apply error_answers. }
  rewrite (VirtualFs_write_cases _ path file) in Hr; [|done|by eapply Hheap| |done].
  2:{ rewrite <-Hl. unfold is_uint in Hu. transitivity (2 ^ 32); [lia|by vm_compute]. }
  destruct (Z.leb_spec (wq_offset a + Z.of_nat (length (wq_data a))) isize_MAX) as [Hle|]; [|done]. injection Hr as <-.
  injection H as <- <- <-. split_and!; try done.
  - apply heap_ok_insert. intros p f. rewrite lookup_insert_Some. intros [[<- <-]|[_ Hf]]; [|by eapply Hheap].
    rewrite length_splice. unfold is_uint in Ho. pose proof (Hheap share path file Ef). lia.
  - intros r ->%share_fs_insert. by eapply lookup_open_touches.
  - apply (response_answers (PWrite (mkWriteResponse _)) header 0 STATUS_SUCCESS _ eq_refl); try done. by apply as_uint_range.
Qed.

(** What opening does to the files of a share: no file is too long, and the size
    is a 64-bit number. *)
Lemma open_file_ok r name d size fs : open_file (share_fs heap r) name d = inl (size, fs) ->
  is_u64 size /\ forall path file, fs !! path = Some file -> Z.of_nat (length file) <= isize_MAX.
Proof using Hheap.
  set (fs0 := share_fs heap r). pose proof (Hheap r) as Hr. fold fs0 in Hr.
  assert (0 <= isize_MAX < 2 ^ 64) as Hm by (unfold isize_MAX; lia).
  assert (forall fs, (forall path file, fs !! path = Some file -> Z.of_nat (length file) <= isize_MAX) -> is_u64 (VirtualFs_size fs name)) as Hsz.
  { intros fs' H'. unfold VirtualFs_size, is_uint. destruct (fs' !! name) eqn:E; [|lia]. apply H' in E. lia. }
  assert (forall path file, VirtualFs_create fs0 name !! path = Some file -> Z.of_nat (length file) <= isize_MAX) as Hc.
  { intros p f. unfold VirtualFs_create. rewrite lookup_insert_Some. intros [[<- <-]|[_ ?]]; [cbn; lia|eauto]. }
  assert (forall path file, alter (fun _ => []) name fs0 !! path = Some file -> Z.of_nat (length file) <= isize_MAX) as Ha.
  { intros p f. rewrite lookup_alter_Some. intros [[<- (x & _ & ->)]|[_ ?]]; [cbn; lia|eauto]. }
  unfold open_file. intros H. repeat case_match; simplify_eq; split; auto; by vm_compute.
Qed.
Lemma create_good (resp : bytes) (st' : ConnectionState) (heap' : Heap) :
  handle_create st heap header payload = Ok (resp, (st', heap')) -> Good st heap header resp st' heap'.
Proof using Hst Hheap Hh.
  unfold handle_create, codec. intros H. peel H. destruct (share_for_session st _) as [share|] eqn:E.
  2:{ injection H as <- <- <-. apply Good_same; [done..|]. by apply error_answers. }
  unfold share_for_session in E. destruct (cs_sessions st !! h_session_id header) as [s|] eqn:Es; cbn in E; [|done].
  peel H. destruct a0 as [fid st1].
  destruct (conn_ok_open st fid st1 (h_session_id header) (mkOpenFile (cq_name a) share) Hst Hr0) as (Hok1 & Hok2 & _ & Hfid & Hs & Hsh & _).
  { by eapply co_share. }
  destruct (open_file _ _ _) as [[size fs]|status] eqn:Eo.
  - injection H as <- <- <-. destruct (open_file_ok share (cq_name a) (cq_create_disposition a) size fs Eo) as [Hsz Hfs].
    split_and!; try done.
    + by apply heap_ok_insert.
    + intros id Hid _. by rewrite session_kept, Hs.
    + intros r ->%share_fs_insert. exists s. auto.
    + apply (response_answers (PCreate (CreateResponse_new fid size)) header 0 STATUS_SUCCESS _ eq_refl); try done.
  - injection H as <- <- <-. split_and!; try done; [intros id _ _; by rewrite Hs|]. apply error_answers; [done|].
    unfold open_file in Eo. repeat case_match; simplify_eq; by vm_compute.
Qed.
End commands.

Lemma dispatch_good (to_lowercase : bytes -> bytes) (st : ConnectionState) (heap : Heap) (header : Smb2Header)
    (frame_type : byte) (payload resp : bytes) (st' : ConnectionState) (heap' : Heap) :
  conn_ok st -> heap_ok heap -> Smb2Header_decode payload = Ok header ->
  dispatch_frame to_lowercase st heap frame_type payload = Ok (resp, (st', heap')) ->
  Good st heap header resp st' heap'.
Proof.
  intros Hst Hheap Hd. assert (header_ok header) as Hh by (pose proof (Smb2Header_decode_total payload) as H; by rewrite Hd in H).
  unfold dispatch_frame. destruct (negb _); [done|]. rewrite Hd. destruct (Command_from_wire _) as [[]|].
  - by apply negotiate_good.
  - by apply session_setup_good.
  - by apply logoff_good.
  - by apply tree_connect_good.
  - by apply tree_disconnect_good.
  - by apply create_good.
  - by apply close_good.
  - by apply read_good.
  - by apply write_good.
  - by apply echo_good.
  - intros [= <- <- <-]. apply Good_same; [done..|]. by apply error_answers.
  - intros [= <- <- <-]. apply Good_same; [done..|]. by apply error_answers.
Qed.
Lemma dispatch_ok (to_lowercase : bytes -> bytes) (st : ConnectionState) (heap : Heap) (frame_type : byte)
    (payload resp : bytes) (st' : ConnectionState) (heap' : Heap) :
  conn_ok st -> heap_ok heap -> dispatch_frame to_lowercase st heap frame_type payload = Ok (resp, (st', heap')) ->
  conn_ok st' /\ heap_ok heap'.
Proof.
  intros Hst Hheap H. destruct (Smb2Header_decode payload) as [header|e|] eqn:E.
  - destruct (dispatch_good _ _ _ _ _ _ _ _ _ Hst Hheap E H) as (? & ? & _). done.
  - unfold dispatch_frame in H. destruct (negb _); [done|]. rewrite E in H. destruct e; try done. by injection H as <- <- <-.
  - unfold dispatch_frame in H. destruct (negb _); [done|]. by rewrite E in H.
Qed.

(** C25: Every SMB command keeps the connection consistent and isolated: open
    file ids are unique across sessions and below the counter, sessions and
    files refer to shares of the server, no file outgrows a [Vec]; no session
    but the requester's is touched; only shares the session is bound to or has
    a file open on can change; the response is well-formed and carries the
    request's message id and command. *)
Theorem smb_command_good (to_lowercase : bytes -> bytes) (st : ConnectionState) (heap : Heap) (header : Smb2Header)
    (frame_type : byte) (payload resp : bytes) (st' : ConnectionState) (heap' : Heap) :
  conn_ok st -> heap_ok heap -> Smb2Header_decode payload = Ok header ->
  dispatch_frame to_lowercase st heap frame_type payload = Ok (resp, (st', heap')) ->
  Good st heap header resp st' heap'.
Proof. apply dispatch_good. Qed.
Definition sample_state : ConnectionState := ConnectionState_new 7 (lit "salt") {[ lit "sysvol" := 0%nat ]}.
Lemma smb_command_good_witness :
  Good sample_state ∅ (Smb2Header_new_request command_ECHO 9)
    (EchoResponse_encode (Smb2Header_new_request command_ECHO 9)) sample_state ∅.
Proof.
  apply (smb_command_good id sample_state ∅ (Smb2Header_new_request command_ECHO 9) x00 (EchoRequest_encode 9)).
  - by apply conn_ok_new.
  - intros r path file. unfold share_fs. by rewrite lookup_empty.
  - reflexivity.
  - reflexivity.
Defined.

(** ** When a command panics *)

Definition exhausted (st : ConnectionState) : Prop :=
  cs_next_session_id st = 2 ^ 64 - 1 \/ cs_next_tree_id st = 2 ^ 32 - 1 \/ cs_next_file_persistent st = 2 ^ 64 - 1.

Lemma rbind_Panic {E A B} (r : Result E A) (k : A -> Result E B) :
  rbind r k = Panic -> r = Panic \/ exists a, r = Ok a /\ k a = Panic.
Proof. destruct r; cbn; [|done|]; eauto. Qed.
Lemma codec_Panic {A B} c payload (f : A -> SmbRequest) (d : Result SmbError A) (k : A -> Result SmbServerError B) :
  decode_request c payload = Some (let? a := d in Ok (f a)) -> (let? a := codec d in k a) = Panic ->
  exists a, d = Ok a /\ k a = Panic.
Proof.
  intros H E. pose proof (decode_request_total c payload _ H) as Ht. destruct d as [a| |]; [|done..]. by exists a.
Qed.
Lemma uint_add_Panic {E} w a : 0 <= w -> 0 <= a < 2 ^ w -> @uint_add E w a 1 = Panic -> a = 2 ^ w - 1.
Proof. unfold uint_add. intros Hw Ha. destruct (Z.ltb_spec (a + 1) (2 ^ w)); [done|lia]. Qed.
Lemma alloc_session_Panic st : conn_ok st -> alloc_session st = Panic -> exhausted st.
Proof.
  intros [] H. apply rbind_Panic in H as [H|(? & _ & ?)]; [|done]. left. apply (uint_add_Panic 64) in H; [done|lia..].
Qed.
Lemma alloc_tree_Panic st : conn_ok st -> alloc_tree_id st = Panic -> exhausted st.
Proof.
  intros [] H. apply rbind_Panic in H as [H|(? & _ & ?)]; [|done]. right. left. apply (uint_add_Panic 32) in H; [done|lia..].
Qed.
Lemma alloc_file_Panic st : conn_ok st -> alloc_file_id st = Panic -> exhausted st.
Proof.
  intros [] H. right. right. apply rbind_Panic in H as [H|(? & _ & H)]; [by apply (uint_add_Panic 64) in H; [|lia..]|].
  apply rbind_Panic in H as [H|(? & _ & ?)]; [|done]. rewrite co_volatile0 in H. by apply (uint_add_Panic 64) in H; [|lia..].
Qed.

(** A write that would end beyond what a [Vec] holds. *)
(** A write to an open, existing file whose range ends beyond [isize::MAX]. *)
Definition overlong_write (st : ConnectionState) (heap : Heap) (payload : bytes) : Prop :=
  exists header q path share file,
    Smb2Header_decode payload = Ok header /\ Command_from_wire (h_command header) = Some CWrite
    /\ WriteRequest_decode payload SMB2_HEADER_SIZE = Ok q
    /\ lookup_open_file st (h_session_id header) (wq_file_id q) = Some (path, share)
    /\ share_fs heap share !! path = Some file /\ isize_MAX < wq_offset q + Z.of_nat (length (wq_data q)).

Section panics.
Context (to_lowercase : bytes -> bytes) (st : ConnectionState) (heap : Heap) (header : Smb2Header) (payload : bytes).
Context (Hst : conn_ok st) (Hheap : heap_ok heap) (Hh : header_ok header).

Lemma write_panics q : WriteRequest_decode payload SMB2_HEADER_SIZE = Ok q ->
  handle_write st heap header payload = Panic <-> exists path share file,
    lookup_open_file st (h_session_id header) (wq_file_id q) = Some (path, share)
    /\ share_fs heap share !! path = Some file /\ isize_MAX < wq_offset q + Z.of_nat (length (wq_data q)).
Proof using Hst Hheap Hh.
  intros Hq. destruct (write_decoded payload q Hq) as (Hl & Hu & Ho & _). unfold handle_write, codec. rewrite Hq. cbn [map_err rbind].
  assert (Z.of_nat (length (wq_data q)) <= isize_MAX) as Hd.
  { rewrite <-Hl. unfold is_uint in Hu. transitivity (2 ^ 32); [lia|by vm_compute]. }
  destruct (lookup_open_file _ _ _) as [[path share]|]; [|split; [done|by intros (? & ? & ? & [=] & _)]].
  destruct (share_fs heap share !! path) as [file|] eqn:Ef.
  - rewrite (VirtualFs_write_cases _ path file) by (done || by eapply Hheap).
    destruct (Z.leb_spec (wq_offset q + Z.of_nat (length (wq_data q))) isize_MAX); cbn [rbind].
    + split; [done|]. intros (? & ? & ? & [= <- <-] & _ & ?). lia.
    + split; [|done]. intros _. exists path, share, file. done.
  - unfold VirtualFs_write. rewrite Ef. cbn [rbind]. split; [done|]. intros (? & ? & ? & [= <- <-] & ? & _). congruence.
Qed.
Lemma read_no_panic : handle_read st heap header payload <> Panic.
Proof using.
  intros H. apply (codec_Panic CRead payload QRead) in H as (q & Hq & H); [|done].
  destruct (read_decoded payload q Hq) as (Hl & Ho & _ & _). unfold is_uint in *.
  destruct (lookup_open_file _ _ _) as [[path share]|]; [|done]. apply rbind_Panic in H as [H|([|] & _ & ?)]; [|done..].
  destruct (share_fs heap share !! path) as [file|] eqn:Ef; [|by unfold VirtualFs_read in H; rewrite Ef in H].
  by rewrite (VirtualFs_read_Ok _ path file) in H by (done || lia).
Qed.
Lemma create_panics : handle_create st heap header payload = Panic -> exhausted st.
Proof using Hst.
  intros H. apply (codec_Panic CCreate payload QCreate) in H as (q & Hq & H); [|done].
  destruct (share_for_session _ _); [|done]. apply rbind_Panic in H as [H|([fid st1] & _ & H)]; [by apply alloc_file_Panic|].
  destruct (open_file _ _ _) as [[]|]; done.
Qed.
Lemma tree_connect_panics : handle_tree_connect to_lowercase st heap header payload = Panic -> exhausted st.
Proof using Hst.
  intros H. apply (codec_Panic CTreeConnect payload QTreeConnect) in H as (q & Hq & H); [|done].
  destruct (cs_shares st !! _); [|done]. apply rbind_Panic in H as [H|([tid st1] & Ha & H)]; [by apply alloc_tree_Panic|].
  destruct (conn_ok_alloc_tree st tid st1 Hst Ha) as (Hok & _ & _ & _ & _ & Hnx).
  apply rbind_Panic in H as [H|(? & _ & ?)]; [|done]. destruct (cs_sessions st1 !! _); [done|].
  apply rbind_Panic in H as [H|([] & _ & ?)]; [|done]. left. rewrite <-Hnx. destruct Hok.
  apply rbind_Panic in H as [H|(? & _ & ?)]; [|done]. by apply (uint_add_Panic 64) in H; [|lia..].
Qed.
Lemma session_setup_panics : handle_session_setup st heap header payload = Panic -> exhausted st.
Proof using Hst.
  intros H. apply (codec_Panic CSessionSetup payload QSessionSetup) in H as (q & Hq & H); [|done].
  destruct (_ =? _); [|done]. apply rbind_Panic in H as [H|([] & _ & ?)]; [|done]. by apply alloc_session_Panic.
Qed.
Lemma negotiate_no_panic : handle_negotiate st heap header payload <> Panic.
Proof using Hst Hh.
  intros H. apply (codec_Panic CNegotiate payload QNegotiate) in H as (q & Hq & H); [|done].
  apply rbind_Panic in H as [H|(? & _ & ?)]; [|done].
  assert (negotiate_response_ok (NegotiateResponse_new_311 (cs_server_guid st) (cs_server_salt st))) as Hok
    by (apply negotiate_311_ok; apply Hst).
  destruct (response_roundtrip (PNegotiate _) header 0 0 Hok Hh ltac:(done) ltac:(done)) as (buf & E & _).
  cbn [encode_response] in E. by rewrite E in H.
Qed.
End panics.

(** The panics of a command: a write to an open file whose range ends beyond
    [isize::MAX] always panics the connection, and besides it only a command
    that needs a new id can, when the id counter is exhausted. *)
Theorem smb_command_panics (to_lowercase : bytes -> bytes) (st : ConnectionState) (heap : Heap) (frame_type : byte)
    (payload : bytes) :
  conn_ok st -> heap_ok heap ->
  (dispatch_frame to_lowercase st heap frame_type payload = Panic -> overlong_write st heap payload \/ exhausted st)
  /\ (overlong_write st heap payload -> dispatch_frame to_lowercase st heap x00 payload = Panic).
Proof.
  intros Hst Hheap. pose proof (Smb2Header_decode_total payload) as Hh. split.
  - unfold dispatch_frame. destruct (negb _); [done|].
    destruct (Smb2Header_decode payload) as [header|[]|] eqn:Eh; try done.
    cbn in Hh. destruct (Command_from_wire _) as [[]|] eqn:Ec; try done; intros H.
    + by destruct (negotiate_no_panic st heap header payload Hst Hh).
    + right. by eapply session_setup_panics.
    + by apply (codec_Panic CLogoff payload (fun _ => QLogoff)) in H as (? & _ & ?).
    + right. by eapply tree_connect_panics.
    + unfold handle_tree_disconnect in H. by destruct (_ <? _)%nat.
    + right. by eapply create_panics.
    + by apply (codec_Panic CClose payload QClose) in H as (? & _ & ?).
    + by destruct (read_no_panic st heap header payload).
    + pose proof H as Hp. apply (codec_Panic CWrite payload QWrite) in H as (q & Hq & _); [|done].
      apply (write_panics st heap header payload Hst Hheap Hh q Hq) in Hp as (path & share & file & ? & ? & ?).
      left. exists header, q, path, share, file. done.
    + by apply (codec_Panic CEcho payload (fun _ => QEcho)) in H as (? & _ & ?).
  - intros (header & q & path & share & file & Eh & Ec & Hq & Ho & Hf & Hlt). unfold dispatch_frame. rewrite Eh in Hh |- *. cbn in Hh.
    rewrite Ec. apply (write_panics st heap header payload Hst Hheap Hh q Hq). by exists path, share, file.
Qed.
Definition sample_open : ConnectionState :=
  match alloc_session sample_state with
  | Ok (id, st) =>
      match alloc_file_id st with
      | Ok (fid, st) => update_session st id (add_open_file fid (mkOpenFile (lit "f") 0%nat))
      | _ => sample_state
      end
  | _ => sample_state
  end.
Definition sample_heap : Heap := {[ 0%nat := {[ lit "f" := lit "abc" ]} ]}.
Definition sample_write (offset : Z) : bytes := WriteRequest_encode (WriteRequest_new (mkFileId 1 1) offset (lit "xy")) 5 1 0.
Lemma sample_open_ok : conn_ok sample_open.
Proof.
  destruct (alloc_session sample_state) as [[id st1]| |] eqn:E1; [|done..].
  destruct (conn_ok_alloc_session sample_state id st1 ltac:(by apply conn_ok_new) E1) as (Hok & _ & _ & _ & Hsh).
  destruct (alloc_file_id st1) as [[fid st2]| |] eqn:E2; [|by apply Ok_inj in E1 as [= <- <-]..].
  unfold sample_open. rewrite E1, E2. eapply conn_ok_open; [done|done|]. exists (lit "sysvol"). by rewrite Hsh.
Qed.
Lemma sample_heap_ok : heap_ok sample_heap.
Proof.
  intros r path file. unfold share_fs, sample_heap. destruct (decide (r = 0%nat)) as [->|Hr].
  - rewrite lookup_singleton_eq. cbn [default from_option]. unfold id. rewrite lookup_singleton_Some. intros [<- <-]. by vm_compute.
  - rewrite lookup_singleton_ne by done. cbn [default from_option]. by rewrite lookup_empty.
Qed.
Lemma smb_command_panics_witness :
  dispatch_frame id sample_open sample_heap x00 (sample_write (2 ^ 63)) = Panic.
Proof.
  apply (smb_command_panics id sample_open sample_heap x00 (sample_write (2 ^ 63))).
  - apply sample_open_ok.
  - apply sample_heap_ok.
  - exists (set_session_id 1 (Smb2Header_new_request command_WRITE 5)), (WriteRequest_new (mkFileId 1 1) (2 ^ 63) (lit "xy")), (lit "f"), 0%nat, (lit "abc").
    split_and!; by vm_compute.
Defined.

(** ** The connection loop *)

Section loop.
Context (to_lowercase : bytes -> bytes).
Implicit Types (c : Connection) (x : bytes).

Definition feed c x : Connection := mkConnection (cn_state c) (cn_heap c) (cn_read_buf c ++ x) (cn_out c).

Lemma peek_header_app buf x v : peek_header buf = Ok (Some v) -> peek_header (buf ++ x) = Ok (Some v).
Proof. by destruct buf as [|b0 [|b1 [|b2 [|b3 buf]]]]. Qed.
(** More input does not change a turn that needed none. *)
Lemma turn_feed c x : (forall clean, turn to_lowercase c <> NeedMore clean) ->
  turn to_lowercase (feed c x) =
    match turn to_lowercase c with Answered c' => Answered (feed c' x) | t => t end.
Proof.
  intros Hn. unfold turn in *. destruct c as [st heap buf out]. cbn [feed cn_state cn_heap cn_read_buf cn_out] in *.
  destruct (peek_header buf) as [[[t n]|]| |] eqn:E.
  - rewrite (peek_header_app _ _ _ E). destruct (Nat.ltb_spec (length buf) (4 + Z.to_nat n)) as [Hl|Hl]; [by destruct (Hn false)|].
    rewrite (proj2 (Nat.ltb_ge _ _)) by (rewrite length_app; lia). rewrite take_app_le, drop_app_le by done.
    destruct (dispatch_frame _ _ _ _ _) as [[resp [st' heap']]| |]; [|done..]. by destruct (encode_frame resp).
  - by destruct (Hn true).
  - by destruct buf as [|b0 [|b1 [|b2 [|b3 buf]]]].
  - by destruct buf as [|b0 [|b1 [|b2 [|b3 buf]]]].
Qed.
Lemma turn_shorter c c' : turn to_lowercase c = Answered c' -> (length (cn_read_buf c') < length (cn_read_buf c))%nat.
Proof.
  unfold turn. destruct (peek_header _) as [[[t n]|]| |]; [|done..]. destruct (Nat.ltb_spec (length (cn_read_buf c)) (4 + Z.to_nat n)); [done|].
  destruct (dispatch_frame _ _ _ _ _) as [[resp [st' heap']]| |]; [|done..]. destruct (encode_frame resp); [|done..].
  intros [= <-]. cbn [cn_read_buf]. rewrite length_drop. lia.
Qed.
Lemma turns_rounds n m c : (length (cn_read_buf c) <= n)%nat -> (length (cn_read_buf c) <= m)%nat ->
  turns to_lowercase n c = turns to_lowercase m c.
Proof.
  revert m c. induction n as [|n IH]; intros [|m] c Hn Hm; cbn [turns]; destruct (turn to_lowercase c) as [c'| |] eqn:E; try done;
    apply turn_shorter in E; try lia. apply IH; lia.
Qed.
(** Taking the turns, with all rounds they need. *)
Definition settle c : Connection * (bool + Result SmbServerError unit) := turns to_lowercase (length (cn_read_buf c)) c.
Lemma settle_eq c : settle c =
  match turn to_lowercase c with
  | NeedMore clean => (c, inl clean) | Ended r => (c, inr r) | Answered c' => settle c'
  end.
Proof.
  unfold settle. rewrite (turns_rounds _ (S (length (cn_read_buf c)))) by lia. cbn [turns].
  destruct (turn to_lowercase c) as [c'| |] eqn:E; try done. apply turn_shorter in E. apply turns_rounds; lia.
Qed.
Lemma settle_feed c x : settle (feed c x) =
  match settle c with
  | (c1, inl _) => settle (feed c1 x)
  | (c1, inr r) => (feed c1 x, inr r)
  end.
Proof.
  induction c as [c IH] using (Nat.measure_induction _ (fun c => length (cn_read_buf c))).
  destruct (turn to_lowercase c) as [c'|clean|r] eqn:E.
  - rewrite (settle_eq (feed c x)), (settle_eq c), turn_feed, E by (intros ?; by rewrite E). apply IH. by apply turn_shorter.
  - by rewrite (settle_eq c), E.
  - by rewrite (settle_eq (feed c x)), (settle_eq c), turn_feed, E by (intros ?; by rewrite E).
Qed.
Lemma settle_settled c c' b : settle c = (c', inl b) -> settle c' = (c', inl b).
Proof.
  induction c as [c IH] using (Nat.measure_induction _ (fun c => length (cn_read_buf c))). rewrite settle_eq.
  destruct (turn to_lowercase c) as [c1|clean|r] eqn:E; [|intros [= <- <-]; by rewrite settle_eq, E|done].
  apply IH. by apply turn_shorter.
Qed.
Lemma feed_nil c : feed c [] = c.
Proof. destruct c. unfold feed. cbn. by rewrite app_nil_r. Qed.
Lemma feed_feed c x y : feed (feed c x) y = feed c (x ++ y).
Proof. unfold feed. cbn. by rewrite app_assoc. Qed.

(** What a run leaves and how it ends. *)
Definition view (p : Connection * Result SmbServerError unit) : ConnectionState * Heap * bytes * Result SmbServerError unit :=
  (cn_state p.1, cn_heap p.1, cn_out p.1, p.2).
Lemma run_eq c reads : run to_lowercase c reads =
  match settle c with
  | (c, inr r) => (c, r)
  | (c, inl clean) =>
      match reads with
      | [] => (c, if clean then Ok tt else Err (Protocol EofMidFrame))
      | x :: reads => run to_lowercase (feed c x) reads
      end
  end.
Proof. by destruct reads. Qed.
Lemma run_concat c reads : view (run to_lowercase c reads) = view (run to_lowercase c [concat reads]).
Proof.
  revert c. induction reads as [|x reads IH]; intros c; rewrite (run_eq c [concat _]), (run_eq c); destruct (settle c) as [c1 [b|r]] eqn:E; try done.
  - rewrite run_eq. cbn [concat]. by rewrite feed_nil, (settle_settled c c1 b E).
  - rewrite IH, !run_eq. cbn [concat]. rewrite <-feed_feed, (settle_feed (feed c1 x)).
    destruct (settle (feed c1 x)) as [c2 [b2|r2]]; [|done]. by rewrite run_eq.
Qed.

(** Every connection the loop reaches is consistent. *)
Lemma turn_ok c c' : conn_ok (cn_state c) -> heap_ok (cn_heap c) -> turn to_lowercase c = Answered c' ->
  conn_ok (cn_state c') /\ heap_ok (cn_heap c').
Proof.
  intros Hst Hheap. unfold turn. destruct (peek_header _) as [[[t n]|]| |]; [|done..]. destruct (_ <? _)%nat; [done|].
  destruct (dispatch_frame _ _ _ _ _) as [[resp [st' heap']]| |] eqn:E; [|done..]. destruct (encode_frame resp); [|done..].
  intros [= <-]. cbn [cn_state cn_heap]. exact (dispatch_ok _ _ _ _ _ _ _ _ Hst Hheap E).
Qed.
Lemma settle_ok c : conn_ok (cn_state c) -> heap_ok (cn_heap c) ->
  conn_ok (cn_state (settle c).1) /\ heap_ok (cn_heap (settle c).1).
Proof.
  induction c as [c IH] using (Nat.measure_induction _ (fun c => length (cn_read_buf c))). intros Hst Hheap. rewrite settle_eq.
  destruct (turn to_lowercase c) as [c'| |] eqn:E; [|done..]. destruct (turn_ok c c' Hst Hheap E). apply IH; [by apply turn_shorter|done..].
Qed.
Lemma run_ok c reads : conn_ok (cn_state c) -> heap_ok (cn_heap c) ->
  conn_ok (cn_state (run to_lowercase c reads).1) /\ heap_ok (cn_heap (run to_lowercase c reads).1).
Proof.
  revert c. induction reads as [|x reads IH]; intros c Hst Hheap; rewrite run_eq; destruct (settle_ok c Hst Hheap) as [H1 H2];
    destruct (settle c) as [c1 [b|r]]; try done. by apply IH.
Qed.

End loop.

(** The outcome of an SMB connection does not depend on how the network cuts
    the client's bytes into reads: same connection state, same files, same
    bytes written, same ending; and every state it passes through is
    consistent. *)
Theorem smb_run_chunking (to_lowercase : bytes -> bytes) (c : Connection) (reads reads' : list bytes) :
  concat reads = concat reads' ->
  view (run to_lowercase c reads) = view (run to_lowercase c reads')
  /\ (conn_ok (cn_state c) -> heap_ok (cn_heap c) ->
      conn_ok (cn_state (run to_lowercase c reads).1) /\ heap_ok (cn_heap (run to_lowercase c reads).1)).
Proof. intros H. split; [by rewrite run_concat, H, <-run_concat|]. apply run_ok. Qed.
Definition sample_connection : Connection := mkConnection sample_open sample_heap [] [].
Definition sample_frame : bytes := match encode_frame (sample_write 3) with Ok f => f | _ => [] end.
Lemma smb_run_chunking_witness :
  view (run id sample_connection [sample_frame]) = view (run id sample_connection [take 2 sample_frame; drop 2 sample_frame]).
Proof.
  apply (smb_run_chunking id sample_connection [sample_frame] [take 2 sample_frame; drop 2 sample_frame]).
  vm_compute. reflexivity.
Defined.
