(* ===== verification/SmbClient.v ===== *)
(** * SmbClient: the SMB client (crate [adrian-smb-client])

    The client's session state, its framing over a stream and the protocol
    operations.  The stream is its other end: [peer] says what the peer writes
    back on receiving bytes, and [cl_inbox] holds what it wrote and the client
    has not read.  A read that the peer will not satisfy fails with
    [UnexpectedEof], as on a closed stream; writes succeed.  An operation that
    fails keeps the state it reached.  SHA-512 is a parameter. *)
From S2P Require Import Prelude Bytes Text StorageKeys Utf16 Smb SmbMessages.

Inductive SmbClientError :=
| FrameTooLarge (len : Z)
| StatusError (code : Z)
| ClientCodec (e : SmbError)
| UnexpectedEof.

Record SmbClient := mkSmbClient {
  sc_client_guid : Uuid;
  sc_next_message_id : Z;
  sc_session_id : Z;
  sc_tree_id : Z;
  sc_preauth : PreauthHash;
}.
Definition SmbClient_with_guid (guid : Uuid) : SmbClient := mkSmbClient guid 1 0 0 PreauthHash_new.
Definition SmbClient_new : SmbClient := SmbClient_with_guid 0xAD0C0000000000000000000000000001.
Definition default_spnego_blob : bytes := [x60; x06; x06; x02; x2a; x03; x01; x00].

Section client.
Context (sha512 : bytes -> bytes) {W : Type} (peer : W -> bytes -> W * bytes).

Record ClientState := mkClientState { cl : SmbClient; cl_peer : W; cl_inbox : bytes }.

(** Operations keep the state on failure. *)
Definition Op (A : Type) : Type := ClientState -> ClientState * Result SmbClientError A.
Definition op_ret {A} (a : A) : Op A := fun s => (s, Ok a).
Definition op_bind {A B} (m : Op A) (k : A -> Op B) : Op B := fun s =>
  match m s with
  | (s, Ok a) => k a s
  | (s, Err e) => (s, Err e)
  | (s, Panic) => (s, Panic)
  end.
Definition op_lift {A} (r : Result SmbError A) : Op A := fun s => (s, map_err ClientCodec r).
Definition op_fail {A} (e : SmbClientError) : Op A := fun s => (s, Err e).
Notation "'do*' x := m 'in' k" := (op_bind m (fun x => k))
  (at level 10, x pattern, m at level 200, k at level 200, format "'[v' 'do*'  x  :=  m  'in' '/' k ']'").

Definition modify (f : SmbClient -> SmbClient) : Op unit := fun s =>
  (mkClientState (f (cl s)) (cl_peer s) (cl_inbox s), Ok tt).
Definition get : Op SmbClient := fun s => (s, Ok (cl s)).
Definition set_session (v : Z) (c : SmbClient) : SmbClient :=
  mkSmbClient (sc_client_guid c) (sc_next_message_id c) v (sc_tree_id c) (sc_preauth c).
Definition set_tree (v : Z) (c : SmbClient) : SmbClient :=
  mkSmbClient (sc_client_guid c) (sc_next_message_id c) (sc_session_id c) v (sc_preauth c).
Definition update_preauth (data : bytes) (c : SmbClient) : SmbClient :=
  mkSmbClient (sc_client_guid c) (sc_next_message_id c) (sc_session_id c) (sc_tree_id c)
    (PreauthHash_update sha512 (sc_preauth c) data).

(** [read_exact]. *)
Definition read_exact (n : nat) : Op bytes := fun s =>
  if (length (cl_inbox s) <? n)%nat then (s, Err UnexpectedEof)
  else (mkClientState (cl s) (cl_peer s) (drop n (cl_inbox s)), Ok (take n (cl_inbox s))).

Definition send_raw (payload : bytes) : Op unit :=
  do* frame := op_lift (encode_frame payload) in
  fun s =>
    let '(w, reply) := peer (cl_peer s) frame in
    (mkClientState (cl s) w (cl_inbox s ++ reply), Ok tt).

Definition recv_raw : Op bytes :=
  do* header := read_exact 4 in
  match header with
  | [_; b1; b2; b3] =>
      let len := Z.lor (Z.lor (Z.shiftl (b2z b1) 16) (Z.shiftl (b2z b2) 8)) (b2z b3) in
      if 16 * 1024 * 1024 <? len then op_fail (FrameTooLarge len)
      else read_exact (Z.to_nat len)
  | _ => fun s => (s, Panic)
  end.

Definition round_trip (request : bytes) : Op bytes :=
  do* _ := send_raw request in
  do* resp := recv_raw in
  do* hdr := op_lift (Smb2Header_decode resp) in
  if negb (h_status hdr =? STATUS_SUCCESS) then op_fail (StatusError (h_status hdr)) else op_ret resp.

Definition next_message_id : Op Z := fun s =>
  let c := cl s in
  let id := sc_next_message_id c in
  match @uint_add SmbClientError 64 id 1 with
  | Ok next =>
      (mkClientState (mkSmbClient (sc_client_guid c) next (sc_session_id c) (sc_tree_id c) (sc_preauth c))
         (cl_peer s) (cl_inbox s), Ok id)
  | _ => (s, Panic)
  end.

Definition client_negotiate : Op NegotiateResponse :=
  do* c := get in
  let req := NegotiateRequest_new_311 (sc_client_guid c) (replicate 32 xcb) in
  do* id := next_message_id in
  do* bytes := op_lift (NegotiateRequest_encode req id) in
  do* _ := modify (update_preauth bytes) in
  do* resp_bytes := round_trip bytes in
  do* _ := modify (update_preauth resp_bytes) in
  op_lift (NegotiateResponse_decode resp_bytes SMB2_HEADER_SIZE).

Definition client_session_setup (security_buffer : bytes) : Op SessionSetupResponse :=
  let req := SessionSetupRequest_new security_buffer in
  do* id := next_message_id in
  do* c := get in
  let bytes := SessionSetupRequest_encode req id (sc_session_id c) in
  do* _ := modify (update_preauth bytes) in
  do* _ := send_raw bytes in
  do* resp_bytes := recv_raw in
  do* _ := modify (update_preauth resp_bytes) in
  do* hdr := op_lift (Smb2Header_decode resp_bytes) in
  do* _ := (if negb (h_session_id hdr =? 0) then modify (set_session (h_session_id hdr)) else op_ret tt) in
  if negb (h_status hdr =? STATUS_SUCCESS) && negb (h_status hdr =? STATUS_MORE_PROCESSING_REQUIRED)
  then op_fail (StatusError (h_status hdr))
  else op_lift (SessionSetupResponse_decode resp_bytes SMB2_HEADER_SIZE).

Definition client_tree_connect (path : bytes) : Op TreeConnectResponse :=
  let req := mkTreeConnectRequest path in
  do* id := next_message_id in
  do* c := get in
  do* resp_bytes := round_trip (TreeConnectRequest_encode req id (sc_session_id c)) in
  do* hdr := op_lift (Smb2Header_decode resp_bytes) in
  do* _ := (if negb (h_tree_id hdr =? 0) then modify (set_tree (h_tree_id hdr)) else op_ret tt) in
  op_lift (TreeConnectResponse_decode resp_bytes SMB2_HEADER_SIZE).

(** The file operations: a request with the ids of the client, one response. *)
Definition call {A} (encode : Z -> Z -> Z -> bytes) (decode : bytes -> nat -> Result SmbError A) : Op A :=
  do* id := next_message_id in
  do* c := get in
  do* resp_bytes := round_trip (encode id (sc_session_id c) (sc_tree_id c)) in
  op_lift (decode resp_bytes SMB2_HEADER_SIZE).

Definition client_create (name : bytes) : Op CreateResponse :=
  call (CreateRequest_encode (CreateRequest_new name)) CreateResponse_decode.
Definition client_read (file_id : FileId) (offset length : Z) : Op bytes :=
  do* resp := call (ReadRequest_encode (ReadRequest_new file_id offset length)) ReadResponse_decode in
  op_ret (rp_data resp).
Definition client_write (file_id : FileId) (offset : Z) (data : bytes) : Op Z :=
  do* resp := call (WriteRequest_encode (WriteRequest_new file_id offset data)) WriteResponse_decode in
  op_ret (wp_count resp).
Definition client_close (file_id : FileId) : Op CloseResponse :=
  call (CloseRequest_encode (CloseRequest_new file_id)) CloseResponse_decode.
Definition client_logoff : Op unit :=
  call (fun id session_id _ => LogoffRequest_encode id session_id) LogoffResponse_decode.
End client.
Arguments mkClientState {W} _ _ _.
Arguments cl {W} _.
Arguments cl_peer {W} _.
Arguments cl_inbox {W} _.
