(* ===== verification/SmbSystem.v ===== *)
(** * SmbSystem: the SMB client against the SMB server

    The client's stream is a connection of the server: what the client writes is
    read by the connection loop, what the loop writes is what the client reads.
    The theorems follow a request from the client's call through both codecs,
    the frames, the dispatcher and the handler to the value the call returns. *)
From S2P Require Import Prelude Bytes Text StorageKeys Utf16 Smb SmbMessages SmbProofs SmbSpec SmbServer SmbServerProofs SmbClient.

(** A payload a NetBIOS frame can carry. *)
Definition fits (b : bytes) : Prop := Z.of_nat (length b) < 2 ^ 24.

Section system.
Context (to_lowercase sha512 : bytes -> bytes).

(** The server end of the stream; [None] once its loop has ended. *)
Definition server_peer (w : option Connection) (b : bytes) : option Connection * bytes :=
  match w with
  | None => (None, [])
  | Some c =>
      let '(c', r) := settle to_lowercase (feed c b) in
      (match r with inl _ => Some c' | inr _ => None end, drop (length (cn_out c)) (cn_out c'))
  end.

Abbreviation State := (ClientState (W := option Connection)).
(** A quiet link: all input consumed, nothing unread. *)
Definition link (c : SmbClient) (st : ConnectionState) (heap : Heap) (out : bytes) : State :=
  mkClientState c (Some (mkConnection st heap [] out)) [].

(** Sending a payload and receiving the response to it. *)
Lemma exchange c st heap out payload resp st' heap' :
  fits payload -> fits resp -> dispatch_frame to_lowercase st heap x00 payload = Ok (resp, (st', heap')) ->
  exists out', op_bind (send_raw server_peer payload) (fun _ => recv_raw) (link c st heap out)
    = (link c st' heap' out', Ok resp).
Proof.
  unfold fits. intros Hp Hr Hd. set (n := Z.of_nat (length payload)). set (m := Z.of_nat (length resp)).
  exists (out ++ frame_header m ++ resp). unfold send_raw, op_bind at 1 2, op_lift. rewrite encode_frame_Ok by done. cbn [map_err].
  unfold link. fold n. cbn [cl_peer cl_inbox cl server_peer].
  assert (settle to_lowercase (feed (mkConnection st heap [] out) (frame_header n ++ payload))
    = (mkConnection st' heap' [] (out ++ frame_header m ++ resp), inl true)) as ->.
  { unfold feed. cbn [cn_state cn_heap cn_read_buf cn_out app]. rewrite settle_eq. unfold turn. cbn [cn_read_buf cn_state cn_heap cn_out].
    rewrite (peek_frame n payload) by lia. assert (length (frame_header n ++ payload) = 4 + Z.to_nat n)%nat as Hl
      by (rewrite length_app; unfold n; cbn; lia).
    rewrite Hl, (proj2 (Nat.ltb_ge _ _)) by lia. rewrite take_ge, (drop_ge _ (4 + _)) by lia.
    change (drop 4 (frame_header n ++ payload)) with payload. rewrite Hd, encode_frame_Ok by done. by rewrite settle_eq. }
  cbn [cn_out]. rewrite drop_app_length. unfold recv_raw, op_bind, read_exact. cbn [cl_inbox cl cl_peer app].
  rewrite length_app. rewrite (proj2 (Nat.ltb_ge _ _)) by (cbn; lia).
  change (take 4 (frame_header m ++ resp)) with (frame_header m). change (drop 4 (frame_header m ++ resp)) with resp.
  pose proof (peek_frame m resp ltac:(lia)) as Hpk. unfold frame_header in Hpk |- *. cbn [app peek_header] in Hpk. injection Hpk as Hpk.
  rewrite Hpk. rewrite (proj2 (Z.ltb_ge _ _)) by lia. cbn [cl_inbox]. rewrite (proj2 (Nat.ltb_ge _ _)) by lia.
  unfold m. rewrite Nat2Z.id, drop_all, take_ge by lia. done.
Qed.
Lemma op_assoc {A B C} (m : Op (W := option Connection) A) (k : A -> Op B) (k' : B -> Op C) s :
  op_bind m (fun x => op_bind (k x) k') s = op_bind (op_bind m k) k' s.
Proof. unfold op_bind. by destruct (m s) as [? []]. Qed.
Lemma op_bind_Ok {A B} (m : Op (W := option Connection) A) (k : A -> Op B) s s' a :
  m s = (s', Ok a) -> op_bind m k s = k a s'.
Proof. unfold op_bind. by intros ->. Qed.
Lemma round_trip_ok c st heap out payload resp st' heap' h :
  fits payload -> fits resp -> dispatch_frame to_lowercase st heap x00 payload = Ok (resp, (st', heap')) ->
  Smb2Header_decode resp = Ok h -> h_status h = STATUS_SUCCESS ->
  exists out', round_trip server_peer payload (link c st heap out) = (link c st' heap' out', Ok resp).
Proof.
  intros Hp Hr Hd Hh Hs. destruct (exchange c st heap out payload resp st' heap' Hp Hr Hd) as [out' E]. exists out'.
  unfold round_trip. rewrite (op_assoc _ (fun _ => recv_raw)), (op_bind_Ok _ _ _ _ _ E).
  unfold op_bind, op_lift. rewrite Hh. cbn [map_err]. by rewrite Hs.
Qed.

(** ** Calls *)

Definition bump (c : SmbClient) : SmbClient :=
  mkSmbClient (sc_client_guid c) (sc_next_message_id c + 1) (sc_session_id c) (sc_tree_id c) (sc_preauth c).
Definition client_ok (c : SmbClient) : Prop :=
  is_u128 (sc_client_guid c) /\ 0 <= sc_next_message_id c < 2 ^ 64 - 1 /\ is_u64 (sc_session_id c) /\ is_u32 (sc_tree_id c).

Lemma next_id_ok c st heap out : client_ok c -> next_message_id (link c st heap out) = (link (bump c) st heap out, Ok (sc_next_message_id c)).
Proof. intros (_ & H & _). unfold next_message_id, link. cbn [cl]. by rewrite uint_add_Ok by lia. Qed.

(** The server's answer [p] to a call, as the client's decoder returns it. *)
Lemma call_ok {A} enc (dec : bytes -> nat -> Result SmbError A) c st heap out p req resp tree st' heap' a :
  client_ok c -> fits (enc (sc_next_message_id c) (sc_session_id c) (sc_tree_id c)) ->
  dispatch_frame to_lowercase st heap x00 (enc (sc_next_message_id c) (sc_session_id c) (sc_tree_id c)) = Ok (resp, (st', heap')) ->
  encode_response p req tree STATUS_SUCCESS = Ok resp -> response_typed p -> header_ok req -> is_u32 tree -> fits resp ->
  (decode_like p resp = response_outcome p -> dec resp SMB2_HEADER_SIZE = Ok a) ->
  exists out', call server_peer enc dec (link c st heap out) = (link (bump c) st' heap' out', Ok a).
Proof.
  intros Hc Hf Hd Hp Ht Hreq Htree Hfr Ha.
  destruct (response_roundtrip p req tree STATUS_SUCCESS Ht Hreq Htree ltac:(done)) as (buf & E & Hh & _ & Hdec).
  rewrite Hp in E. injection E as <-.
  destruct (round_trip_ok (bump c) st heap out _ resp st' heap' _ Hf Hfr Hd Hh) as [out' E]; [by destruct p|]. exists out'.
  unfold call. rewrite (op_bind_Ok _ _ _ _ _ (next_id_ok c st heap out Hc)).
  rewrite (op_bind_Ok _ _ (link (bump c) st heap out) (link (bump c) st heap out) (bump c)) by done.
  cbn [bump sc_session_id sc_tree_id]. rewrite (op_bind_Ok _ _ _ _ _ E). unfold op_lift. by rewrite Ha.
Qed.

(** What the server decodes from a request of the client. *)
Lemma request_received q c buf : request_ok q -> client_ok c ->
  encode_request q (sc_next_message_id c) (sc_session_id c) (sc_tree_id c) = Ok buf ->
  let h := request_header q (sc_next_message_id c) (sc_session_id c) (sc_tree_id c) in
  Smb2Header_decode buf = Ok h /\ header_ok h /\ Command_from_wire (h_command h) = Some (request_command q)
  /\ decode_request (request_command q) buf = Some (Ok q).
Proof.
  intros Hq (Hg & Hm & Hs & Ht) E. assert (is_u64 (sc_next_message_id c)) as Hm' by (unfold is_uint; lia).
  destruct (request_roundtrip q _ _ _ Hq Hm' Hs Ht) as (buf' & E' & H1 & H2 & H3). rewrite E in E'. injection E' as <-.
  split_and!; try done. by apply request_header_ok.
Qed.
Lemma Some_Ok_inv {A B} (f : A -> B) (Hf : forall x y, f x = f y -> x = y) (d : Result SmbError A) a :
  Some (let? x := d in Ok (f x)) = Some (Ok (f a)) -> d = Ok a.
Proof. intros [= H]. destruct d; cbn in H; [|done..]. injection H as H. by apply Hf in H as ->. Qed.

(** The session of the client on the server, bound to a share. *)
Definition bound (c : SmbClient) (st : ConnectionState) (r : ShareRef) (s : SessionState) : Prop :=
  cs_sessions st !! sc_session_id c = Some s /\ ss_share s = Some r.
(** A file id of the client's session. *)
Definition opened (c : SmbClient) (st : ConnectionState) (fid : FileId) (path : bytes) (r : ShareRef) : Prop :=
  lookup_open_file st (sc_session_id c) fid = Some (path, r) /\ file_id_ok fid.

Lemma length_request_header q m s t : length (Smb2Header_encode (request_header q m s t) []) = 64%nat.
Proof. by apply length_header. Qed.

Lemma client_write_ok c st heap out fid path r file off data :
  client_ok c -> heap_ok heap -> opened c st fid path r -> share_fs heap r !! path = Some file -> is_u64 off ->
  Z.of_nat (length data) < 2 ^ 24 - 112 -> off + Z.of_nat (length data) <= isize_MAX ->
  exists out', client_write server_peer fid off data (link c st heap out)
    = (link (bump c) st (<[r := <[path := splice file (Z.to_nat off) data]> (share_fs heap r)]> heap) out', Ok (Z.of_nat (length data))).
Proof.
  intros Hc Hheap [Hop Hfid] Hfile Hoff Hlen Hmax. set (q := WriteRequest_new fid off data).
  assert (as_u32 (Z.of_nat (length data)) = Z.of_nat (length data)) as Has by (apply as_len; lia).
  assert (request_ok (QWrite q)) as Hq.
  { split; [|done]. unfold request_typed, write_request_ok, q. cbn. rewrite Has. split_and!; try done. unfold is_uint. lia. }
  destruct (request_received (QWrite q) c _ Hq Hc eq_refl) as (Hh & Hok & Hcmd & Hdec). set (h := request_header _ _ _ _) in *.
  apply (Some_Ok_inv QWrite ltac:(by intros ?? [=])) in Hdec. cbn [encode_request] in Hh.
  set (buf := WriteRequest_encode q _ _ _) in *.
  assert (dispatch_frame to_lowercase st heap x00 buf =
    Ok (WriteResponse_encode (mkWriteResponse (Z.of_nat (length data))) h STATUS_SUCCESS,
        (st, <[r := <[path := splice file (Z.to_nat off) data]> (share_fs heap r)]> heap))) as Hd.
  { unfold dispatch_frame. rewrite Hh, Hcmd. cbn [bool_decide negb request_command]. unfold handle_write, codec.
    rewrite Hdec. cbn [map_err rbind]. change (lookup_open_file st (h_session_id h) (wq_file_id q)) with (lookup_open_file st (sc_session_id c) fid).
    rewrite Hop. change (wq_offset q) with off. change (wq_data q) with data.
    rewrite (VirtualFs_write_cases _ path file); [|done|by eapply Hheap| |done].
    - rewrite (proj2 (Z.leb_le _ _)) by done. cbn [rbind]. by rewrite Has.
    - transitivity (2 ^ 32); [lia|by vm_compute]. }
  assert (length (Smb2Header_encode h []) = 64%nat) as Hhl by (apply length_header; apply Hok).
  set (p := mkWriteResponse (Z.of_nat (length data))) in *.
  assert (length (Smb2Header_encode (set_status STATUS_SUCCESS (Smb2Header_new_response h)) []) = 64%nat) as Hrl by (by apply length_header).
  edestruct (fun H => call_ok (WriteRequest_encode q) WriteResponse_decode c st heap out (PWrite p) h
    (WriteResponse_encode p h STATUS_SUCCESS) 0 st _ p Hc H Hd eq_refl) as [out' E].
  - fold buf. unfold fits. assert (length buf = 64 + 48 + length data)%nat as ->; [|lia].
    change buf with (WriteRequest_encode_body q (Smb2Header_encode h []) 64).1. unfold WriteRequest_encode_body. cbn [fst]. encoded.
    change (wq_data q) with data. lens.
  - unfold response_typed, p, is_uint. cbn [wp_count]. lia.
  - exact Hok.
  - unfold is_uint. lia.
  - unfold fits, WriteResponse_encode, WriteResponse_encode_body. encoded. lens.
  - intros Hl. apply (f_equal Some) in Hl. exact (Some_Ok_inv PWrite ltac:(by intros ?? [=]) _ _ Hl).
  - exists out'. unfold client_write. rewrite (op_bind_Ok _ _ _ _ _ E). reflexivity.
Qed.

Lemma length_response h status : length (Smb2Header_encode (set_status status (Smb2Header_new_response h)) []) = 64%nat.
Proof. by apply length_header. Qed.

Lemma client_read_ok c st heap out fid path r file off n :
  client_ok c -> opened c st fid path r -> share_fs heap r !! path = Some file -> is_u64 off -> is_u32 n ->
  n < 2 ^ 24 - 80 ->
  exists out', client_read server_peer fid off n (link c st heap out)
    = (link (bump c) st heap out', Ok (take (Z.to_nat n) (drop (Z.to_nat off) file))).
Proof.
  intros Hc [Hop Hfid] Hfile Hoff Hn Hmax. set (q := ReadRequest_new fid off n). set (data := take (Z.to_nat n) (drop (Z.to_nat off) file)).
  assert (request_ok (QRead q)) as Hq by (split; [|done]; by split_and!).
  destruct (request_received (QRead q) c _ Hq Hc eq_refl) as (Hh & Hok & Hcmd & Hdec). set (h := request_header _ _ _ _) in *.
  apply (Some_Ok_inv QRead ltac:(by intros ?? [=])) in Hdec. cbn [encode_request] in Hh.
  set (buf := ReadRequest_encode q _ _ _) in *. set (p := mkReadResponse data).
  assert (dispatch_frame to_lowercase st heap x00 buf = Ok (ReadResponse_encode p h STATUS_SUCCESS, (st, heap))) as Hd.
  { unfold dispatch_frame. rewrite Hh, Hcmd. cbn [bool_decide negb request_command]. unfold handle_read, codec.
    rewrite Hdec. cbn [map_err rbind]. change (lookup_open_file st (h_session_id h) (rq_file_id q)) with (lookup_open_file st (sc_session_id c) fid).
    rewrite Hop. change (rq_offset q) with off. change (rq_length q) with n. unfold is_uint in *.
    rewrite (VirtualFs_read_Ok _ path file) by (exact Hfile || lia). reflexivity. }
  assert (length (Smb2Header_encode h []) = 64%nat) as Hhl by (apply length_header; apply Hok).
  assert (Z.of_nat (length data) <= n) as Hl by (unfold data, is_uint in *; rewrite length_take; lia).
  edestruct (fun H => call_ok (ReadRequest_encode q) ReadResponse_decode c st heap out (PRead p) h
    (ReadResponse_encode p h STATUS_SUCCESS) 0 st _ p Hc H Hd eq_refl) as [out' E].
  - fold buf. unfold fits. change buf with (ReadRequest_encode_body q (Smb2Header_encode h [])). unfold ReadRequest_encode_body. encoded. lens.
  - unfold response_typed, p. cbn [rp_data]. lia.
  - exact Hok.
  - unfold is_uint. lia.
  - unfold fits, ReadResponse_encode, ReadResponse_encode_body. cbn [fst]. unfold p. cbn [rp_data]. clear Hd. clearbody h data.
    set (hb := Smb2Header_encode _ _). assert (length hb = 64%nat) as Hb by (by apply length_header). clearbody hb.
    encoded. rewrite align_aligned by (lens; by rewrite Hb). lens.
  - intros Hd'. apply (f_equal Some) in Hd'. exact (Some_Ok_inv PRead ltac:(by intros ?? [=]) _ _ Hd').
  - exists out'. unfold client_read. rewrite (op_bind_Ok _ _ _ _ _ E). reflexivity.
Qed.

(** Creating or opening a file with the client's disposition, open-or-create. *)
Lemma client_create_ok c st heap out s r name :
  client_ok c -> conn_ok st -> heap_ok heap -> bound c st r s -> text_ok name -> cs_next_file_persistent st < 2 ^ 64 - 1 ->
  let old := default [] (share_fs heap r !! name) in
  exists out' st' fid, client_create server_peer name (link c st heap out)
    = (link (bump c) st' (<[r := <[name := old]> (share_fs heap r)]> heap) out', Ok (CreateResponse_new fid (Z.of_nat (length old))))
    /\ opened c st' fid name r /\ conn_ok st'.
Proof.
  intros Hc Hst Hheap [Hs Hsh] Hname Hnx old. set (q := CreateRequest_new name).
  assert (request_ok (QCreate q)) as Hq by (split; [|apply Hname]; split_and!; try done; apply Hname).
  destruct (request_received (QCreate q) c _ Hq Hc eq_refl) as (Hh & Hok & Hcmd & Hdec). set (h := request_header _ _ _ _) in *.
  apply (Some_Ok_inv QCreate ltac:(by intros ?? [=])) in Hdec. cbn [encode_request] in Hh.
  set (buf := CreateRequest_encode q _ _ _) in *.
  assert (exists fid st1, alloc_file_id st = Ok (fid, st1)) as (fid & st1 & Ha).
  { unfold alloc_file_id. pose proof (co_file st Hst). rewrite (co_volatile st Hst), !uint_add_Ok by lia. cbn [rbind]. eauto. }
  set (f := mkOpenFile name r). set (st' := update_session st1 (sc_session_id c) (add_open_file fid f)).
  destruct (conn_ok_open st fid st1 (sc_session_id c) f Hst Ha) as (Hok1 & Hok2 & _ & Hfid & Hs1 & _ & _); [by eapply co_share|].
  set (p := CreateResponse_new fid (Z.of_nat (length old))).
  assert (open_file (share_fs heap r) name 3 = inl (Z.of_nat (length old), <[name := old]> (share_fs heap r))) as Ho.
  { unfold open_file, VirtualFs_get, VirtualFs_size, VirtualFs_create, old. destruct (share_fs heap r !! name) as [file|] eqn:E.
    - rewrite E. cbn [default from_option]. unfold id. by rewrite insert_id.
    - by rewrite lookup_insert_eq. }
  assert (dispatch_frame to_lowercase st heap x00 buf = Ok (CreateResponse_encode p h STATUS_SUCCESS,
    (st', <[r := <[name := old]> (share_fs heap r)]> heap))) as Hd.
  { unfold dispatch_frame. rewrite Hh, Hcmd. cbn [bool_decide negb request_command]. unfold handle_create, codec.
    rewrite Hdec. cbn [map_err rbind]. unfold share_for_session. change (h_session_id h) with (sc_session_id c). rewrite Hs.
    cbn [mbind option_bind]. rewrite Hsh, Ha. cbn [rbind]. change (cq_name q) with name. change (cq_create_disposition q) with 3.
    rewrite Ho. reflexivity. }
  assert (length (Smb2Header_encode h []) = 64%nat) as Hhl by (apply length_header; apply Hok).
  edestruct (fun H => call_ok (CreateRequest_encode q) CreateResponse_decode c st heap out (PCreate p) h
    (CreateResponse_encode p h STATUS_SUCCESS) 0 st' _ p Hc H Hd eq_refl) as [out' E].
  - fold buf. unfold fits. change buf with (CreateRequest_encode_body q (Smb2Header_encode h []) 64).1. unfold CreateRequest_encode_body.
    cbn [fst]. encoded. change (cq_name q) with name. destruct Hname as [_ Hname]. lens.
  - unfold response_typed, create_response_ok, p. cbn. assert (is_u64 (Z.of_nat (length old))).
    { unfold old, is_uint. destruct (share_fs heap r !! name) as [file|] eqn:Ef; cbn; [|lia]. pose proof (Hheap r name file Ef) as Hm.
      unfold isize_MAX in Hm. lia. }
    repeat (split; [assumption || (unfold is_uint; lia)|]). assumption.
  - exact Hok.
  - unfold is_uint. lia.
  - unfold fits, CreateResponse_encode, CreateResponse_encode_body. pose proof (length_response h STATUS_SUCCESS). encoded. lens.
  - intros Hd'. apply (f_equal Some) in Hd'. exact (Some_Ok_inv PCreate ltac:(by intros ?? [=]) _ _ Hd').
  - exists out', st', fid. split; [exact E|]. split; [|exact Hok2]. split; [|exact Hfid]. unfold lookup_open_file, st'. cbn.
    rewrite lookup_alter_eq, Hs1, Hs. cbn. rewrite lookup_insert_eq. reflexivity.
Qed.

(** ** The handshake *)

Lemma decode_like_Ok {A} (f : A -> SmbResponse) (Hf : forall x y, f x = f y -> x = y) (d : Result SmbError A) a r :
  (let? x := d in Ok (f x)) = r -> r = Ok (f a) -> d = Ok a.
Proof. intros <- H. by apply (Some_Ok_inv f Hf), (f_equal Some). Qed.

Lemma success_u32 : is_u32 STATUS_SUCCESS.
Proof. done. Qed.
Lemma disk_ok : response_typed (PTreeConnect TreeConnectResponse_new_disk).
Proof. done. Qed.
Lemma success_ok : response_typed (PSessionSetup SessionSetupResponse_new_success).
Proof. done. Qed.

Lemma client_tree_connect_ok c st heap out s path r :
  client_ok c -> conn_ok st -> cs_sessions st !! sc_session_id c = Some s -> text_ok path ->
  cs_shares st !! parse_share_name to_lowercase path = Some r -> cs_next_tree_id st < 2 ^ 32 - 1 ->
  exists out' c' st' s', client_tree_connect server_peer path (link c st heap out)
    = (link c' st' heap out', Ok TreeConnectResponse_new_disk)
    /\ c' = set_tree (cs_next_tree_id st) (bump c) /\ conn_ok st' /\ bound c' st' r s'
    /\ cs_next_file_persistent st' = cs_next_file_persistent st.
Proof.
  intros Hc Hst Hs Hpath Hr Hnx. set (q := mkTreeConnectRequest path).
  assert (request_ok (QTreeConnect q)) as Hq by (split; apply Hpath).
  destruct (request_received (QTreeConnect q) c _ Hq Hc eq_refl) as (Hh & Hok & Hcmd & Hdec). set (h := request_header _ _ _ _) in *.
  apply (Some_Ok_inv QTreeConnect ltac:(by intros ?? [=])) in Hdec. cbn [encode_request] in Hh.
  set (buf := TreeConnectRequest_encode q _ _) in *. pose proof (co_tree st Hst) as Ht.
  assert (exists st1, alloc_tree_id st = Ok (cs_next_tree_id st, st1)) as (st1 & Ha).
  { unfold alloc_tree_id. rewrite uint_add_Ok by lia. cbn [rbind]. eauto. }
  destruct (conn_ok_alloc_tree st _ st1 Hst Ha) as (Hok1 & Htid & Htid0 & Hs1 & Hsh1 & Hnx1).
  set (tid := cs_next_tree_id st) in *. set (st' := update_session st1 (sc_session_id c) (bind_tree tid r)).
  assert (dispatch_frame to_lowercase st heap x00 buf = Ok (TreeConnectResponse_encode TreeConnectResponse_new_disk h tid STATUS_SUCCESS,
    (st', heap))) as Hd.
  { unfold dispatch_frame. rewrite Hh, Hcmd. cbn [bool_decide negb request_command]. unfold handle_tree_connect, codec.
    rewrite Hdec. cbn [map_err rbind]. change (tq_path q) with path. rewrite Hr, Ha. cbn [rbind].
    change (h_session_id h) with (sc_session_id c). rewrite Hs1, Hs. reflexivity. }
  assert (length (Smb2Header_encode h []) = 64%nat) as Hhl by (apply length_header; apply Hok).
  destruct (response_roundtrip (PTreeConnect TreeConnectResponse_new_disk) h tid STATUS_SUCCESS disk_ok Hok Htid success_u32)
    as (resp & E & Hrh & _ & Hrd). injection E as <-. set (rh := response_header _ _ _ _) in *.
  edestruct (fun H1 H2 => round_trip_ok (bump c) st heap out buf _ st' heap rh H1 H2 Hd Hrh) as [out' E].
  - unfold fits. change buf with (TreeConnectRequest_encode_body q (Smb2Header_encode h []) 64).1. unfold TreeConnectRequest_encode_body.
    cbn [fst]. encoded. change (tq_path q) with path. destruct Hpath as [_ Hpath]. lens.
  - unfold fits, TreeConnectResponse_encode, TreeConnectResponse_encode_body.
    assert (length (Smb2Header_encode (set_tree_id tid (set_status STATUS_SUCCESS (Smb2Header_new_response h))) []) = 64%nat) by (by apply length_header).
    encoded. lens.
  - reflexivity.
  - exists out', (set_tree tid (bump c)), st', (bind_tree tid r s). split_and!; [|reflexivity| | |].
    + unfold client_tree_connect. rewrite (op_bind_Ok _ _ _ _ _ (next_id_ok c st heap out Hc)).
      rewrite (op_bind_Ok _ _ (link (bump c) st heap out) (link (bump c) st heap out) (bump c)) by reflexivity.
      change (TreeConnectRequest_encode _ _ _) with buf. rewrite (op_bind_Ok _ _ _ _ _ E). unfold op_bind, op_lift. rewrite Hrh. cbn [map_err].
      change (h_tree_id rh) with tid. rewrite (proj2 (Z.eqb_neq _ _) Htid0). cbn [negb].
      pose proof (decode_like_Ok PTreeConnect ltac:(by intros ?? [=]) _ _ _ Hrd eq_refl) as Hrd'.
      unfold modify, link. cbn [cl cl_peer cl_inbox]. rewrite Hrd'. reflexivity.
    + apply conn_ok_update; [exact Hok1|]. intros s' _. split; [done|]. right. rewrite Hsh1. eauto.
    + split; [|reflexivity]. unfold st'. cbn. rewrite lookup_alter_eq, Hs1, Hs. reflexivity.
    + unfold st'. cbn. unfold alloc_tree_id in Ha. rewrite uint_add_Ok in Ha by lia. by injection Ha as <-.
Qed.

Lemma client_session_setup_ok c st heap out blob :
  client_ok c -> conn_ok st -> sc_session_id c = 0 -> Z.of_nat (length blob) < 2 ^ 16 -> cs_next_session_id st < 2 ^ 64 - 1 ->
  exists out' c' st', client_session_setup sha512 server_peer blob (link c st heap out)
    = (link c' st' heap out', Ok SessionSetupResponse_new_success)
    /\ sc_session_id c' = cs_next_session_id st /\ sc_next_message_id c' = sc_next_message_id c + 1 /\ sc_tree_id c' = sc_tree_id c
    /\ sc_client_guid c' = sc_client_guid c /\ conn_ok st' /\ cs_sessions st' !! sc_session_id c' = Some SessionState_new
    /\ cs_shares st' = cs_shares st /\ cs_next_tree_id st' = cs_next_tree_id st
    /\ cs_next_file_persistent st' = cs_next_file_persistent st.
Proof.
  intros Hc Hst Hs0 Hblob Hnx. set (q := SessionSetupRequest_new blob).
  assert (request_ok (QSessionSetup q)) as Hq by (split; [|done]; split_and!; done).
  destruct (request_received (QSessionSetup q) c _ Hq Hc eq_refl) as (Hh & Hok & Hcmd & Hdec). set (h := request_header _ _ _ _) in *.
  apply (Some_Ok_inv QSessionSetup ltac:(by intros ?? [=])) in Hdec. cbn [encode_request] in Hh.
  set (buf := SessionSetupRequest_encode q _ _) in *. pose proof (co_session st Hst) as Hse.
  assert (exists st1, alloc_session st = Ok (cs_next_session_id st, st1)) as (st1 & Ha).
  { unfold alloc_session. rewrite uint_add_Ok by lia. cbn [rbind]. eauto. }
  destruct (conn_ok_alloc_session st _ st1 Hst Ha) as (Hok1 & _ & _ & Hs1 & Hsh1).
  set (sid := cs_next_session_id st) in *. set (h' := set_session_id sid (Smb2Header_new_response h)).
  set (resp := SessionSetupResponse_encode SessionSetupResponse_new_success h' STATUS_SUCCESS).
  assert (dispatch_frame to_lowercase st heap x00 buf = Ok (resp, (st1, heap))) as Hd.
  { unfold dispatch_frame. rewrite Hh, Hcmd. cbn [bool_decide negb request_command]. unfold handle_session_setup, codec.
    rewrite Hdec. cbn [map_err rbind]. change (h_session_id h) with (sc_session_id c). rewrite Hs0. cbn [Z.eqb]. rewrite Ha. reflexivity. }
  assert (length (Smb2Header_encode h []) = 64%nat) as Hhl by (apply length_header; apply Hok).
  assert (header_ok h') as Hh' by (apply header_ok_session; [exact (header_ok_response h 0 Hok success_u32)|unfold is_uint; lia]).
  destruct (response_roundtrip (PSessionSetup SessionSetupResponse_new_success) h' 0 STATUS_SUCCESS success_ok Hh'
    success_u32 success_u32) as (resp' & E & Hrh & _ & Hrd). injection E as <-. fold resp in Hrh, Hrd.
  set (rh := response_header _ _ _ _) in *.
  edestruct (fun H1 H2 => exchange (update_preauth sha512 buf (bump c)) st heap out buf resp st1 heap H1 H2 Hd) as [out' E].
  - unfold fits. change buf with (SessionSetupRequest_encode_body q (Smb2Header_encode h []) 64).1. unfold SessionSetupRequest_encode_body.
    cbn [fst]. encoded. change (sq_security_buffer q) with blob. lens.
  - unfold fits, resp, SessionSetupResponse_encode, SessionSetupResponse_encode_body. cbn [fst].
    pose proof (length_response h' STATUS_SUCCESS). encoded. cbn [SessionSetupResponse_new_success sp_security_buffer]. lens.
  - exists out', (set_session sid (update_preauth sha512 resp (update_preauth sha512 buf (bump c)))), st1.
    pose proof (decode_like_Ok PSessionSetup ltac:(by intros ?? [=]) _ _ _ Hrd eq_refl) as Hrd'.
    split; [|split_and!; try reflexivity; try assumption].
    + unfold client_session_setup. rewrite (op_bind_Ok _ _ _ _ _ (next_id_ok c st heap out Hc)).
      rewrite (op_bind_Ok _ _ (link (bump c) st heap out) (link (bump c) st heap out) (bump c)) by reflexivity.
      change (SessionSetupRequest_encode _ _ _) with buf.
      rewrite (op_bind_Ok _ _ (link (bump c) st heap out) (link (update_preauth sha512 buf (bump c)) st heap out) tt) by reflexivity.
      rewrite (op_assoc _ (fun _ => recv_raw)), (op_bind_Ok _ _ _ _ _ E). unfold op_bind, op_lift, modify, link. cbn [cl cl_peer cl_inbox].
      rewrite Hrh. cbn [map_err]. change (h_session_id rh) with sid. rewrite (proj2 (Z.eqb_neq sid 0)) by lia. cbn [negb].
      change (h_status rh) with STATUS_SUCCESS. cbn [Z.eqb STATUS_SUCCESS negb andb cl cl_peer cl_inbox]. rewrite Hrd'. reflexivity.
    + cbn [set_session sc_session_id]. rewrite Hs1. apply lookup_insert_eq.
    + unfold alloc_session in Ha. rewrite uint_add_Ok in Ha by lia. by injection Ha as <-.
    + unfold alloc_session in Ha. rewrite uint_add_Ok in Ha by lia. by injection Ha as <-.
Qed.

Lemma negotiate_request_311 guid : is_u128 guid -> request_ok (QNegotiate (NegotiateRequest_new_311 guid (replicate 32 xcb))).
Proof. intros Hg. split; [|done]. split_and!; try done. repeat constructor; by vm_compute. Qed.
Lemma negotiate_request_fits guid id buf : is_u128 guid ->
  NegotiateRequest_encode (NegotiateRequest_new_311 guid (replicate 32 xcb)) id = Ok buf -> fits buf.
Proof.
  intros Hg. unfold NegotiateRequest_encode. set (out := Smb2Header_encode _ _). assert (length out = 64%nat) as Ho by (by apply length_header).
  destruct (NegotiateRequest_bytes _ out Ho (proj1 (negotiate_request_311 guid Hg))) as (body & o & E & Hb).
  unfold SMB2_HEADER_SIZE. rewrite E. cbn [rbind fst]. intros H. apply Ok_inj in H as <-. unfold fits. rewrite length_app, Ho, Hb.
  cbn [nq_negotiate_contexts NegotiateRequest_new_311 default_contexts]. rewrite !length_app, length_request_fixed, length_replicate. by vm_compute.
Qed.
Lemma negotiate_response_fits guid salt h buf : is_u128 guid -> Z.of_nat (length salt) <= 65000 ->
  NegotiateResponse_encode (NegotiateResponse_new_311 guid salt) h = Ok buf -> fits buf.
Proof.
  intros Hg Hs. unfold NegotiateResponse_encode. set (out := Smb2Header_encode _ _). assert (length out = 64%nat) as Ho by (by apply length_header).
  pose proof (negotiate_311_ok guid salt Hg Hs) as Hok. unfold SMB2_HEADER_SIZE. rewrite (NegotiateResponse_bytes _ out Ho Hok). cbn [rbind fst].
  intros H. apply Ok_inj in H as <-. destruct Hok as [_ Hok]. unfold fits, response_tail. rewrite !length_app, Ho, length_response_fixed.
  cbn [np_security_buffer NegotiateResponse_new_311] in *. cbn [length]. lia.
Qed.

(** Negotiation: the server's offer arrives, and the client's hash is that of
    the two messages exchanged. *)
Lemma client_negotiate_ok c st heap out : client_ok c -> conn_ok st ->
  exists out' c' req resp, client_negotiate sha512 server_peer (link c st heap out)
    = (link c' st heap out', Ok (NegotiateResponse_new_311 (cs_server_guid st) (cs_server_salt st)))
    /\ c' = update_preauth sha512 resp (update_preauth sha512 req (bump c))
    /\ NegotiateRequest_encode (NegotiateRequest_new_311 (sc_client_guid c) (replicate 32 xcb)) (sc_next_message_id c) = Ok req
    /\ dispatch_frame to_lowercase st heap x00 req = Ok (resp, (st, heap)).
Proof.
  intros Hc Hst. set (q := NegotiateRequest_new_311 (sc_client_guid c) (replicate 32 xcb)).
  pose proof (negotiate_request_311 (sc_client_guid c) (proj1 Hc)) as Hq. fold q in Hq.
  destruct (NegotiateRequest_encode q (sc_next_message_id c)) as [req| |] eqn:Ereq.
  2-3: exfalso; destruct (request_roundtrip (QNegotiate q) (sc_next_message_id c) 0 0 Hq) as (? & E & _);
    [destruct Hc as (_ & ? & _); unfold is_uint; lia|unfold is_uint; lia|unfold is_uint; lia|cbn [encode_request] in E; congruence].
  destruct (request_received (QNegotiate q) c req Hq Hc Ereq) as (Hh & Hok & Hcmd & Hdec). set (h := request_header _ _ _ _) in *.
  apply (Some_Ok_inv QNegotiate ltac:(by intros ?? [=])) in Hdec.
  set (p := NegotiateResponse_new_311 (cs_server_guid st) (cs_server_salt st)).
  pose proof (negotiate_311_ok _ _ (co_guid st Hst) (co_salt st Hst)) as Hp. fold p in Hp.
  destruct (response_roundtrip (PNegotiate p) h 0 STATUS_SUCCESS Hp Hok success_u32 success_u32) as (resp & Eresp & Hrh & _ & Hrd).
  cbn [encode_response] in Eresp. set (rh := response_header _ _ _ _) in *.
  assert (dispatch_frame to_lowercase st heap x00 req = Ok (resp, (st, heap))) as Hd.
  { unfold dispatch_frame. rewrite Hh, Hcmd. cbn [bool_decide negb request_command]. unfold handle_negotiate, codec.
    rewrite Hdec. cbn [map_err rbind]. fold p. rewrite Eresp. reflexivity. }
  destruct (round_trip_ok (update_preauth sha512 req (bump c)) st heap out req resp st heap rh
    (negotiate_request_fits _ _ _ (proj1 Hc) Ereq) (negotiate_response_fits _ _ _ _ (co_guid st Hst) (co_salt st Hst) Eresp) Hd Hrh eq_refl) as [out' E].
  exists out', (update_preauth sha512 resp (update_preauth sha512 req (bump c))), req, resp.
  split; [|split_and!; [reflexivity|reflexivity|exact Hd]].
  pose proof (decode_like_Ok PNegotiate ltac:(by intros ?? [=]) _ p _ Hrd eq_refl) as Hrd'.
  unfold client_negotiate. rewrite (op_bind_Ok _ _ (link c st heap out) (link c st heap out) c) by reflexivity.
  rewrite (op_bind_Ok _ _ _ _ _ (next_id_ok c st heap out Hc)). fold q. rewrite Ereq.
  rewrite (op_bind_Ok _ _ (link (bump c) st heap out) (link (bump c) st heap out) req) by reflexivity.
  rewrite (op_bind_Ok _ _ (link (bump c) st heap out) (link (update_preauth sha512 req (bump c)) st heap out) tt) by reflexivity.
  rewrite (op_bind_Ok _ _ _ _ _ E). unfold op_bind, op_lift, modify, link. cbn [cl cl_peer cl_inbox]. rewrite Hrd'. reflexivity.
Qed.

Lemma client_ok_bump c : client_ok c -> sc_next_message_id c < 2 ^ 63 -> client_ok (bump c).
Proof. intros (H1 & H2 & H3 & H4) H. unfold client_ok, bump. cbn. split_and!; [exact H1|lia|lia|exact H3|exact H4]. Qed.
Lemma client_ok_preauth c b : client_ok c -> client_ok (update_preauth sha512 b c).
Proof. intros H. exact H. Qed.
Lemma client_ok_set_tree c t : client_ok c -> is_u32 t -> client_ok (set_tree t c).
Proof. intros (H1 & H2 & H3 & _) H. split_and!; assumption || apply H2. Qed.
Lemma client_ok_set_session c c' : client_ok c -> is_u64 (sc_session_id c') -> sc_next_message_id c < 2 ^ 63 ->
  sc_next_message_id c' = sc_next_message_id c + 1 -> sc_tree_id c' = sc_tree_id c -> sc_client_guid c' = sc_client_guid c -> client_ok c'.
Proof. intros (H1 & H2 & H3 & H4) Hs Hm E1 E2 E3. unfold client_ok. rewrite E1, E2, E3. split_and!; [exact H1|lia|lia|exact Hs|exact H4]. Qed.

(** The three calls that bring a client from a new stream to a connected
    share. *)
Lemma handshake_ok c st heap out blob path r :
  client_ok c -> conn_ok st -> sc_session_id c = 0 -> sc_next_message_id c < 1000 -> Z.of_nat (length blob) < 2 ^ 16 ->
  cs_next_session_id st < 2 ^ 64 - 1 -> text_ok path -> cs_shares st !! parse_share_name to_lowercase path = Some r ->
  cs_next_tree_id st < 2 ^ 32 - 1 ->
  exists out' c' st' s', client_ok c' /\ sc_next_message_id c' < 2000 /\ conn_ok st' /\ bound c' st' r s'
    /\ cs_next_file_persistent st' = cs_next_file_persistent st
    /\ forall A (k : TreeConnectResponse -> Op (W := option Connection) A),
      op_bind (client_negotiate sha512 server_peer) (fun _ =>
      op_bind (client_session_setup sha512 server_peer blob) (fun _ =>
      op_bind (client_tree_connect server_peer path) k)) (link c st heap out)
      = k TreeConnectResponse_new_disk (link c' st' heap out').
Proof.
  intros Hc Hst Hs0 Hm Hblob Hse Hpath Hr Htr.
  destruct (client_negotiate_ok c st heap out Hc Hst) as (out1 & c1 & req & resp & E1 & Hc1 & _).
  assert (client_ok c1) as Hck1 by (rewrite Hc1; do 2 apply client_ok_preauth; apply client_ok_bump; [exact Hc|lia]).
  assert (sc_session_id c1 = 0 /\ sc_next_message_id c1 = sc_next_message_id c + 1) as [Hs1 Hm1] by (rewrite Hc1; split; [exact Hs0|reflexivity]).
  clear Hc1.
  destruct (client_session_setup_ok c1 st heap out1 blob Hck1 Hst Hs1 Hblob Hse)
    as (out2 & c2 & st2 & E2 & Hsid & Hmid & Htid & Hcg & Hst2 & Hses & Hsh & Ht & Hf).
  assert (client_ok c2) as Hck2.
  { apply (client_ok_set_session c1); [exact Hck1| |lia|exact Hmid|exact Htid|exact Hcg].
    rewrite Hsid. pose proof (co_session st Hst). unfold is_uint. lia. }
  rewrite <-Hsh in Hr. rewrite <-Ht in Htr.
  destruct (client_tree_connect_ok c2 st2 heap out2 _ path r Hck2 Hst2 Hses Hpath Hr Htr) as (out3 & c3 & st3 & s3 & E3 & Hc3 & Hst3 & Hb & Hf3).
  exists out3, c3, st3, s3. split_and!; [| |exact Hst3|exact Hb|congruence|].
  - rewrite Hc3. apply client_ok_set_tree; [apply client_ok_bump; [exact Hck2|lia]|]. pose proof (co_tree st2 Hst2). unfold is_uint. lia.
  - rewrite Hc3. change (sc_next_message_id c2 + 1 < 2000). lia.
  - intros A k. rewrite (op_bind_Ok _ _ _ _ _ E1), (op_bind_Ok _ _ _ _ _ E2). exact (op_bind_Ok _ _ _ _ _ E3).
Qed.

Lemma heap_ok_default heap r name : heap_ok heap -> heap_ok (<[r := <[name := default [] (share_fs heap r !! name)]> (share_fs heap r)]> heap).
Proof.
  intros Hheap. apply heap_ok_insert; [exact Hheap|]. intros p f. rewrite lookup_insert_Some. intros [[<- <-]|[_ Hf]]; [|exact (Hheap _ _ _ Hf)].
  destruct (share_fs heap r !! name) as [f|] eqn:Ef; [exact (Hheap _ _ _ Ef)|by vm_compute].
Qed.

(** The calls on a connected share: open or create, write, read. *)
Definition file_io (name : bytes) (off : Z) (data : bytes) (o n : Z) : Op (W := option Connection) (Z * Z * bytes) :=
  op_bind (client_create server_peer name) (fun cr =>
  op_bind (client_write server_peer (cp_file_id cr) off data) (fun count =>
  op_bind (client_read server_peer (cp_file_id cr) o n) (fun d =>
  op_ret (cp_end_of_file cr, count, d)))).

(** A client's session from connect to read: the handshake, then a file opened,
    written and read. *)
Definition file_session (blob path name : bytes) (off : Z) (data : bytes) (o n : Z) : Op (W := option Connection) (Z * Z * bytes) :=
  op_bind (client_negotiate sha512 server_peer) (fun _ =>
  op_bind (client_session_setup sha512 server_peer blob) (fun _ =>
  op_bind (client_tree_connect server_peer path) (fun _ => file_io name off data o n))).

Lemma file_io_ok c st heap out s r name off data o n :
  client_ok c -> sc_next_message_id c < 2000 -> conn_ok st -> heap_ok heap -> bound c st r s -> text_ok name ->
  cs_next_file_persistent st < 2 ^ 64 - 1 -> is_u64 off -> Z.of_nat (length data) < 2 ^ 24 - 112 ->
  off + Z.of_nat (length data) <= isize_MAX -> is_u64 o -> is_u32 n -> n < 2 ^ 24 - 80 ->
  let old := default [] (share_fs heap r !! name) in
  let new := splice old (Z.to_nat off) data in
  exists c' st' heap' out', file_io name off data o n (link c st heap out)
    = (link c' st' heap' out', Ok (Z.of_nat (length old), Z.of_nat (length data), take (Z.to_nat n) (drop (Z.to_nat o) new)))
    /\ conn_ok st'
    /\ forall r' p, share_fs heap' r' !! p = if decide (r' = r /\ p = name) then Some new else share_fs heap r' !! p.
Proof.
  intros Hc Hm Hst Hheap Hb Hname Hnx Hoff Hdata Hmax Ho Hn Hn' old new.
  destruct (client_create_ok c st heap out s r name Hc Hst Hheap Hb Hname Hnx) as (out1 & st1 & fid & E1 & Hop & Hst1). fold old in E1.
  pose proof (heap_ok_default heap r name Hheap) as Hheap1. fold old in Hheap1. set (heap1 := <[r := _]> heap) in *.
  assert (share_fs heap1 r !! name = Some old) as Hold by (unfold heap1; rewrite share_fs_eq; apply lookup_insert_eq).
  assert (client_ok (bump c)) as Hc1 by (apply client_ok_bump; [exact Hc|lia]).
  assert (client_ok (bump (bump c))) as Hc2 by (apply client_ok_bump; [exact Hc1|change (sc_next_message_id c + 1 < 2 ^ 63); lia]).
  destruct (client_write_ok (bump c) st1 heap1 out1 fid name r old off data Hc1 Hheap1 Hop Hold Hoff Hdata Hmax) as [out2 E2]. fold new in E2.
  set (heap2 := <[r := _]> heap1) in *.
  assert (share_fs heap2 r !! name = Some new) as Hnew by (unfold heap2; rewrite share_fs_eq; apply lookup_insert_eq).
  destruct (client_read_ok (bump (bump c)) st1 heap2 out2 fid name r new o n Hc2 Hop Hnew Ho Hn Hn') as [out3 E3].
  exists (bump (bump (bump c))), st1, heap2, out3. split; [|split; [exact Hst1|]].
  - unfold file_io. rewrite (op_bind_Ok _ _ _ _ _ E1). cbn [CreateResponse_new cp_file_id cp_end_of_file].
    rewrite (op_bind_Ok _ _ _ _ _ E2), (op_bind_Ok _ _ _ _ _ E3). reflexivity.
  - clear E1 E2 E3. intros r' p. destruct (decide (r' = r /\ p = name)) as [[-> ->]|Hne]; [exact Hnew|].
    destruct (decide (r' = r)) as [->|Hrr].
    + assert (name <> p) by (intros <-; apply Hne; split; reflexivity). unfold heap2, heap1. rewrite !share_fs_eq, !lookup_insert_ne by assumption. reflexivity.
    + unfold heap2, heap1. rewrite !share_fs_ne by assumption. reflexivity.
Qed.

Lemma client_ok_new guid : is_u128 guid -> client_ok (SmbClient_with_guid guid).
Proof. intros H. unfold client_ok, is_uint. cbn. split_and!; [apply H|apply H|lia..]. Qed.
End system.

(** C24: The client against the server, from a fresh connection: negotiating,
    setting up a session, connecting to a share of the server, opening (or
    creating) a file, writing to it and reading any range back succeeds on every
    step; the size reported is that of the existing file, the count is the
    length of the data, the bytes read are those of the file with the data
    spliced in; and the server's files are as before except that one file. *)
Theorem smb_end_to_end (to_lowercase sha512 : bytes -> bytes) (client_guid guid : Uuid) (salt blob path name data : bytes)
    (shares : gmap bytes ShareRef) (heap : Heap) (r : ShareRef) (off o n : Z) :
  is_u128 client_guid -> is_u128 guid -> Z.of_nat (length salt) <= 65000 -> heap_ok heap -> Z.of_nat (length blob) < 2 ^ 16 ->
  text_ok path -> text_ok name -> shares !! parse_share_name to_lowercase path = Some r ->
  is_u64 off -> Z.of_nat (length data) < 2 ^ 24 - 112 -> off + Z.of_nat (length data) <= isize_MAX ->
  is_u64 o -> is_u32 n -> n < 2 ^ 24 - 80 ->
  let old := default [] (share_fs heap r !! name) in
  let new := splice old (Z.to_nat off) data in
  exists c conn,
    file_session to_lowercase sha512 blob path name off data o n
      (mkClientState (SmbClient_with_guid client_guid) (Some (connection_new guid salt shares heap)) [])
    = (mkClientState c (Some conn) [],
       Ok (Z.of_nat (length old), Z.of_nat (length data), take (Z.to_nat n) (drop (Z.to_nat o) new)))
    /\ conn_ok (cn_state conn)
    /\ (forall r' p, share_fs (cn_heap conn) r' !! p =
         if decide (r' = r /\ p = name) then Some new else share_fs heap r' !! p).
Proof.
  intros Hcg Hg Hsalt Hheap Hblob Hpath Hname Hr Hoff Hdata Hmax Ho Hn Hn' old new.
  pose proof (conn_ok_new guid salt shares Hg Hsalt) as Hst. pose proof (client_ok_new client_guid Hcg) as Hc.
  destruct (handshake_ok to_lowercase sha512 (SmbClient_with_guid client_guid) _ heap [] blob path r Hc Hst) as (out & c & st & s & Hc' & Hm & Hst' & Hb & Hf & E);
    [reflexivity|cbn; lia|exact Hblob|cbn; lia|exact Hpath|exact Hr|cbn; lia|].
  destruct (file_io_ok to_lowercase c st heap out s r name off data o n Hc' Hm Hst' Hheap Hb Hname) as (c' & st' & heap' & out' & E' & Hst'' & Hh);
    [rewrite Hf; cbn; lia|assumption..|].
  exists c', (mkConnection st' heap' [] out'). split; [|split; [exact Hst''|exact Hh]].
  exact (eq_trans (E _ (fun _ => file_io to_lowercase name off data o n)) E').
Qed.

Lemma smb_end_to_end_witness :
  let share := [x73; x68; x61; x72; x65] in
  let path := [x5c; x5c; x73; x5c] ++ share in
  let heap : Heap := {[ 0%nat := {[ [x66] := [x01; x02; x03] ]} ]} in
  let new := [x01; x02; x09; x08] in
  exists c conn,
    file_session id (fun _ => replicate 64 x00) [] path [x66] 2 [x09; x08] 1 10
      (mkClientState (SmbClient_with_guid 5) (Some (connection_new 7 [x01] {[ share := 0%nat ]} heap)) [])
    = (mkClientState c (Some conn) [], Ok (3, 2, [x02; x09; x08]))
    /\ conn_ok (cn_state conn)
    /\ (forall r' p, share_fs (cn_heap conn) r' !! p =
         if decide (r' = 0%nat /\ p = [x66]) then Some new else share_fs heap r' !! p).
Proof.
  intros share path heap new.
  assert (heap_ok heap) as Hheap.
  { intros r p f. unfold share_fs, heap. destruct (decide (r = 0%nat)) as [->|Hr].
    - rewrite lookup_singleton_eq. cbn. intros [_ <-]%lookup_singleton_Some. by vm_compute.
    - rewrite lookup_singleton_ne by congruence. cbn [default from_option]. by rewrite lookup_empty. }
  apply (smb_end_to_end id (fun _ => replicate 64 x00) 5 7 [x01] [] path [x66] [x09; x08] {[ share := 0%nat ]} heap 0%nat 2 1 10);
    first [exact Hheap | by vm_compute | by split; vm_compute].
Defined.
