(* ===== verification/KdcCrypto.v ===== *)
(** * KdcCrypto: the encryption of the KDC ([adrian-kdc], [crypto.rs])

    AES-256 in CBC mode with ciphertext stealing and the authenticated etype 18
    format on top of it.  The block cipher, HMAC-SHA1 and PBKDF2 come from the
    crates [aes], [hmac] and [pbkdf2]: they are parameters, and what the theorems
    need of them (a block is 16 bytes, decryption inverts encryption, a MAC is 20
    bytes) are hypotheses. *)
From S2P Require Import Prelude Bytes Text.

Definition PBKDF2_ITERATIONS : Z := 4096.
Definition AES256_KEY_LEN : nat := 32.
Definition AES_BLOCK_LEN : nat := 16.
Definition HMAC_SHA1_96_LEN : nat := 12.
Definition CONFOUNDER_LEN : nat := AES_BLOCK_LEN.

Definition Aes256Key : Type := bytes.

Inductive CryptoError :=
| PlaintextTooShort (len : nat)
| CiphertextTooShort (len need : nat)
| HmacMismatch.
#[global] Instance CryptoError_eq_dec : EqDecision CryptoError.
Proof. solve_decision. Defined.

(** [a ^ b] on bytes. *)
Definition byte_xor (a b : byte) : byte := z2b (Z.lxor (b2z a) (b2z b)).
(** [for i in 0..16 { block[i] ^= prev[i] }]. *)
Definition xor_block (block prev : bytes) : bytes := zip_with byte_xor block prev.

(** [chunks_exact(16)]: the whole blocks, in order. *)
Fixpoint blocks_of (count : nat) (l : bytes) : list bytes :=
  match count with
  | O => []
  | S count => take AES_BLOCK_LEN l :: blocks_of count (drop AES_BLOCK_LEN l)
  end.
Definition chunks_exact (l : bytes) : list bytes := blocks_of (length l / AES_BLOCK_LEN) l.

Definition zero_iv : bytes := replicate AES_BLOCK_LEN x00.
(** [usize::div_ceil]. *)
Definition block_count (len : nat) : nat := (len + (AES_BLOCK_LEN - 1)) / AES_BLOCK_LEN.
(** An index out of range panics. *)
Definition index_block {E} (l : list bytes) (i : nat) : Result E bytes :=
  match l !! i with Some b => Ok b | None => Panic end.
(** The final [debug_assert_eq!] of both directions. *)
Definition assert_len {E} (out input : bytes) : Result E bytes :=
  if (length out =? length input)%nat then Ok out else Panic.

Section Crypto.
Context (encrypt_block decrypt_block : Aes256Key -> bytes -> bytes).
Context (hmac_sha1 : bytes -> bytes -> bytes) (pbkdf2_hmac_sha1 : bytes -> bytes -> Z -> nat -> bytes).

Definition derive_aes256_key (password salt : bytes) : Aes256Key :=
  pbkdf2_hmac_sha1 password salt PBKDF2_ITERATIONS AES256_KEY_LEN.
Definition hmac_sha1_96 (key : Aes256Key) (data : bytes) : bytes := take HMAC_SHA1_96_LEN (hmac_sha1 key data).

(** The two CBC loops; [prev] is the previous ciphertext block. *)
Fixpoint cbc_encrypt (key : Aes256Key) (prev : bytes) (chunks : list bytes) : list bytes :=
  match chunks with
  | [] => []
  | chunk :: chunks => let block := encrypt_block key (xor_block chunk prev) in block :: cbc_encrypt key block chunks
  end.
Fixpoint cbc_decrypt (key : Aes256Key) (prev : bytes) (chunks : list bytes) : list bytes :=
  match chunks with
  | [] => []
  | chunk :: chunks => xor_block (decrypt_block key chunk) prev :: cbc_decrypt key chunk chunks
  end.

Definition aes256_cbc_cts_encrypt (key : Aes256Key) (plaintext : bytes) : Result CryptoError bytes :=
  if (length plaintext =? 0)%nat then Ok []
  else if (length plaintext <? AES_BLOCK_LEN)%nat then Err (PlaintextTooShort (length plaintext))
  else
    let n_blocks := block_count (length plaintext) in
    let rem := (length plaintext mod AES_BLOCK_LEN)%nat in
    if (n_blocks =? 1)%nat then Ok (encrypt_block key plaintext)
    else if (rem =? 0)%nat then Ok (concat (cbc_encrypt key zero_iv (chunks_exact plaintext)))
    else
      let padded := plaintext ++ replicate (n_blocks * AES_BLOCK_LEN - length plaintext) x00 in
      let ct_blocks := cbc_encrypt key zero_iv (chunks_exact padded) in
      let? c_n := index_block ct_blocks (n_blocks - 1) in
      let? c_n_minus_1 := index_block ct_blocks (n_blocks - 2) in
      let? stolen := slice c_n_minus_1 0 rem in
      assert_len (concat (take (n_blocks - 2) ct_blocks) ++ c_n ++ stolen) plaintext.

Definition aes256_cbc_cts_decrypt (key : Aes256Key) (ciphertext : bytes) : Result CryptoError bytes :=
  if (length ciphertext =? 0)%nat then Ok []
  else if (length ciphertext <? AES_BLOCK_LEN)%nat then Err (PlaintextTooShort (length ciphertext))
  else
    let n_blocks := block_count (length ciphertext) in
    let rem := (length ciphertext mod AES_BLOCK_LEN)%nat in
    if (n_blocks =? 1)%nat then Ok (decrypt_block key ciphertext)
    else if (rem =? 0)%nat then Ok (concat (cbc_decrypt key zero_iv (chunks_exact ciphertext)))
    else
      let n_full := (n_blocks - 2)%nat in
      let? front := slice ciphertext 0 (n_full * AES_BLOCK_LEN) in
      let ct_full := blocks_of n_full front in
      let offset := (n_full * AES_BLOCK_LEN)%nat in
      let? c_n := slice ciphertext offset (offset + AES_BLOCK_LEN) in
      let offset := (offset + AES_BLOCK_LEN)%nat in
      let? part := slice ciphertext offset (offset + rem) in
      let x_block := decrypt_block key c_n in
      let? stolen := slice x_block rem AES_BLOCK_LEN in
      let c_n_minus_1 := part ++ stolen in
      let prev := default zero_iv (last ct_full) in
      let block_n_minus_1 := xor_block (decrypt_block key c_n_minus_1) prev in
      let? x_front := slice x_block 0 rem in
      assert_len (concat (cbc_decrypt key zero_iv ct_full) ++ block_n_minus_1 ++ xor_block x_front part) ciphertext.

Definition aes256_cts_encrypt (key : Aes256Key) (plaintext : bytes) : Result CryptoError bytes :=
  aes256_cbc_cts_encrypt key plaintext.
Definition aes256_cts_decrypt (key : Aes256Key) (ciphertext : bytes) : Result CryptoError bytes :=
  aes256_cbc_cts_decrypt key ciphertext.

Definition encrypt_aes256_cts_hmac_sha1_96 (key : Aes256Key) (confounder plaintext : bytes) : Result CryptoError bytes :=
  let full := confounder ++ plaintext in
  let? ct := aes256_cts_encrypt key full in
  Ok (ct ++ hmac_sha1_96 key full).

Definition decrypt_aes256_cts_hmac_sha1_96 (key : Aes256Key) (cipher_blob : bytes) : Result CryptoError bytes :=
  if (length cipher_blob <? CONFOUNDER_LEN + HMAC_SHA1_96_LEN)%nat
  then Err (CiphertextTooShort (length cipher_blob) (CONFOUNDER_LEN + HMAC_SHA1_96_LEN))
  else
    let ct_len := (length cipher_blob - HMAC_SHA1_96_LEN)%nat in
    let ct := take ct_len cipher_blob in
    let tag := drop ct_len cipher_blob in
    let? pt_with_confounder := aes256_cts_decrypt key ct in
    let expected_tag := hmac_sha1_96 key pt_with_confounder in
    if negb (bool_decide (expected_tag = tag)) then Err HmacMismatch
    else slice pt_with_confounder CONFOUNDER_LEN (length pt_with_confounder).
End Crypto.

(** ** Blocks and exclusive or *)

Lemma b2z_log2 b : Z.log2 (b2z b) < 8.
Proof.
  pose proof (b2z_range b). destruct (Z.eq_dec (b2z b) 0) as [->|]; [done|]. apply Z.log2_lt_pow2; lia.
Qed.
Lemma b2z_lxor_range a b : 0 <= Z.lxor (b2z a) (b2z b) < 256.
Proof.
  pose proof (b2z_range a). pose proof (b2z_range b). assert (0 <= Z.lxor (b2z a) (b2z b)) by (apply Z.lxor_nonneg; lia).
  split; [done|]. destruct (Z.eq_dec (Z.lxor (b2z a) (b2z b)) 0) as [->|]; [lia|].
  change 256 with (2 ^ 8). apply Z.log2_lt_pow2; [lia|].
  pose proof (Z.log2_lxor (b2z a) (b2z b) ltac:(lia) ltac:(lia)). pose proof (b2z_log2 a). pose proof (b2z_log2 b). lia.
Qed.
Lemma byte_xor_cancel a b : byte_xor (byte_xor a b) b = a.
Proof.
  unfold byte_xor. rewrite b2z_z2b, Z.mod_small by apply b2z_lxor_range.
  by rewrite Z.lxor_assoc, Z.lxor_nilpotent, Z.lxor_0_r, z2b_b2z.
Qed.
Lemma byte_xor_0_l b : byte_xor x00 b = b.
Proof. unfold byte_xor. change (b2z x00) with 0. by rewrite Z.lxor_0_l, z2b_b2z. Qed.

Lemma length_xor_block a b : length a = length b -> length (xor_block a b) = length b.
Proof. intros H. unfold xor_block. rewrite length_zip_with. lia. Qed.
Lemma xor_block_cancel a b : length a = length b -> xor_block (xor_block a b) b = a.
Proof.
  revert b. induction a as [|x a IH]; intros [|y b] H; try done. cbn. rewrite byte_xor_cancel. f_equal. apply IH. by injection H.
Qed.
Lemma xor_block_app a a' b b' : length a = length b -> xor_block (a ++ a') (b ++ b') = xor_block a b ++ xor_block a' b'.
Proof. intros H. by apply zip_with_app. Qed.
Lemma xor_block_zeros n b : length b = n -> xor_block (replicate n x00) b = b.
Proof. intros <-. induction b as [|x b IH]; [done|]. cbn. rewrite byte_xor_0_l. f_equal. exact IH. Qed.

Definition is_block (b : bytes) : Prop := length b = AES_BLOCK_LEN.
Lemma is_block_iv : is_block zero_iv.
Proof. done. Qed.
Lemma xor_is_block a b : is_block a -> is_block b -> is_block (xor_block a b).
Proof. unfold is_block. intros Ha Hb. rewrite length_xor_block; congruence. Qed.
#[local] Hint Resolve is_block_iv xor_is_block : core.

Lemma length_concat_blocks bs : Forall is_block bs -> length (concat bs) = (length bs * AES_BLOCK_LEN)%nat.
Proof. induction 1 as [|b bs Hb _ IH]; [done|]. cbn [concat length]. rewrite length_app, IH, Hb. lia. Qed.
Lemma blocks_of_concat bs t : Forall is_block bs -> blocks_of (length bs) (concat bs ++ t) = bs.
Proof.
  induction 1 as [|b bs Hb _ IH]; [done|]. cbn [concat length blocks_of]. rewrite <-app_assoc.
  rewrite take_app_length' by done. by rewrite drop_app_length', IH by done.
Qed.
Lemma chunks_exact_concat bs : Forall is_block bs -> chunks_exact (concat bs) = bs.
Proof.
  intros H. unfold chunks_exact. rewrite length_concat_blocks, Nat.div_mul by done.
  by rewrite <-(app_nil_r (concat bs)), blocks_of_concat.
Qed.
Lemma split_blocks n (l : bytes) : (n * AES_BLOCK_LEN <= length l)%nat ->
  exists bs t, Forall is_block bs /\ length bs = n /\ l = concat bs ++ t.
Proof.
  revert l. induction n as [|n IH]; intros l Hl; [by exists [], l|].
  destruct (IH (drop AES_BLOCK_LEN l)) as (bs & t & Hbs & Hn & E); [rewrite length_drop; lia|].
  exists (take AES_BLOCK_LEN l :: bs), t. split_and!; [|cbn; lia|].
  - constructor; [|done]. unfold is_block. rewrite length_take. lia.
  - cbn [concat]. rewrite <-app_assoc, <-E. by rewrite take_drop.
Qed.

(** A message of at least two blocks whose length is not a multiple of the block
    is whole blocks, one more block, and a rest. *)
Lemma split_message (l : bytes) (rem : nat) :
  (length l mod AES_BLOCK_LEN = rem)%nat -> (0 < rem)%nat -> (AES_BLOCK_LEN <= length l)%nat ->
  exists bs p t, Forall is_block bs /\ is_block p /\ length t = rem /\ l = concat bs ++ p ++ t
    /\ block_count (length l) = (length bs + 2)%nat.
Proof.
  intros Hr H0 Hl. unfold AES_BLOCK_LEN in *. pose proof (Nat.div_mod_eq (length l) 16) as Hd.
  pose proof (Nat.mod_upper_bound (length l) 16 ltac:(lia)) as Hu. rewrite Hr in Hd, Hu.
  destruct (split_blocks (length l / 16) l) as (bs & t & Hbs & Hn & E); [unfold AES_BLOCK_LEN; lia|].
  destruct bs as [|b bs _] using rev_ind; [change (length []) with 0%nat in Hn; lia|].
  apply Forall_app in Hbs as [Hbs Hb]. apply Forall_cons_1 in Hb as [Hb _]. rewrite length_app in Hn. cbn [length] in Hn.
  rewrite concat_app, <-app_assoc in E. cbn [concat] in E. rewrite app_nil_r in E.
  exists bs, b, t. split_and!; [done|done| |exact E|].
  - apply (f_equal length) in E. rewrite !length_app, length_concat_blocks, Hb in E by done. unfold AES_BLOCK_LEN in E. lia.
  - unfold block_count, AES_BLOCK_LEN. replace (length l + (16 - 1))%nat with ((length bs + 2) * 16 + (rem - 1))%nat by lia.
    rewrite Nat.div_add_l, Nat.div_small by lia. lia.
Qed.
Lemma block_count_one l : (AES_BLOCK_LEN <= length l)%nat -> block_count (length l) = 1%nat -> is_block l.
Proof.
  unfold block_count, is_block, AES_BLOCK_LEN. intros Hl H. pose proof (Nat.div_mod_eq (length l + (16 - 1)) 16) as Hd.
  rewrite H in Hd. pose proof (Nat.mod_upper_bound (length l + (16 - 1)) 16 ltac:(lia)). lia.
Qed.
Lemma whole_blocks (l : bytes) : (length l mod AES_BLOCK_LEN = 0)%nat -> exists bs, Forall is_block bs /\ l = concat bs.
Proof.
  intros H. pose proof (Nat.div_mod_eq (length l) AES_BLOCK_LEN) as Hd. rewrite H in Hd.
  destruct (split_blocks (length l / AES_BLOCK_LEN) l) as (bs & t & Hbs & Hn & E); [lia|]. exists bs. split; [done|].
  assert (length t = 0)%nat as Ht%length_zero_iff_nil.
  { apply (f_equal length) in E. rewrite length_app, length_concat_blocks in E by done. lia. }
  by rewrite E, Ht, app_nil_r.
Qed.

(** ** The cipher *)

(** What is assumed of a block cipher: a permutation of the blocks. *)
Record BlockCipher (encrypt_block decrypt_block : Aes256Key -> bytes -> bytes) : Prop := {
  encrypt_is_block : forall k b, is_block b -> is_block (encrypt_block k b);
  decrypt_is_block : forall k b, is_block b -> is_block (decrypt_block k b);
  decrypt_encrypt_block : forall k b, is_block b -> decrypt_block k (encrypt_block k b) = b;
  encrypt_decrypt_block : forall k b, is_block b -> encrypt_block k (decrypt_block k b) = b;
}.

Section CTS.
Context (encrypt_block decrypt_block : Aes256Key -> bytes -> bytes) (HE : BlockCipher encrypt_block decrypt_block).
Context (key : Aes256Key).
Abbreviation E := (encrypt_block key).
Abbreviation D := (decrypt_block key).
Abbreviation enc := (cbc_encrypt encrypt_block key).
Abbreviation dec := (cbc_decrypt decrypt_block key).
Abbreviation encrypt := (aes256_cbc_cts_encrypt encrypt_block key).
Abbreviation decrypt := (aes256_cbc_cts_decrypt decrypt_block key).

Lemma cbc_encrypt_blocks prev bs : is_block prev -> Forall is_block bs ->
  Forall is_block (enc prev bs) /\ length (enc prev bs) = length bs.
Proof using HE.
  intros Hp Hbs. revert prev Hp. induction Hbs as [|b bs Hb _ IH]; intros prev Hp; [done|]. cbn [cbc_encrypt length].
  assert (is_block (E (xor_block b prev))) as He by (apply (encrypt_is_block _ _ HE); auto).
  destruct (IH _ He) as [H1 H2]. split; [by constructor|lia].
Qed.
Lemma cbc_decrypt_blocks prev bs : is_block prev -> Forall is_block bs ->
  Forall is_block (dec prev bs) /\ length (dec prev bs) = length bs.
Proof using HE.
  intros Hp Hbs. revert prev Hp. induction Hbs as [|b bs Hb _ IH]; intros prev Hp; [done|]. cbn [cbc_decrypt length].
  destruct (IH _ Hb) as [H1 H2]. split; [|lia]. constructor; [|done]. apply xor_is_block; [|done]. by apply (decrypt_is_block _ _ HE).
Qed.
Lemma cbc_decrypt_encrypt prev bs : is_block prev -> Forall is_block bs -> dec prev (enc prev bs) = bs.
Proof using HE.
  intros Hp Hbs. revert prev Hp. induction Hbs as [|b bs Hb _ IH]; intros prev Hp; [done|]. cbn [cbc_encrypt cbc_decrypt].
  assert (is_block (xor_block b prev)) by auto. rewrite (decrypt_encrypt_block _ _ HE) by done. rewrite xor_block_cancel by (by rewrite Hb, Hp).
  f_equal. apply IH. by apply (encrypt_is_block _ _ HE).
Qed.
Lemma cbc_encrypt_decrypt prev bs : is_block prev -> Forall is_block bs -> enc prev (dec prev bs) = bs.
Proof using HE.
  intros Hp Hbs. revert prev Hp. induction Hbs as [|b bs Hb _ IH]; intros prev Hp; [done|]. cbn [cbc_encrypt cbc_decrypt].
  assert (is_block (D b)) as Hd by (by apply (decrypt_is_block _ _ HE)).
  rewrite xor_block_cancel by (by rewrite Hd, Hp). rewrite (encrypt_decrypt_block _ _ HE) by done. f_equal. by apply IH.
Qed.
Lemma cbc_encrypt_app prev bs bs' : enc prev (bs ++ bs') = enc prev bs ++ enc (default prev (last (enc prev bs))) bs'.
Proof.
  revert prev. induction bs as [|b bs IH]; intros prev; [done|]. cbn [cbc_encrypt app]. rewrite IH. f_equal. f_equal.
  set (c := E (xor_block b prev)). f_equal. rewrite last_cons. by destruct (last (enc c bs)).
Qed.
Lemma last_is_block prev bs : is_block prev -> Forall is_block bs -> is_block (default prev (last bs)).
Proof.
  intros Hp Hbs. destruct (last bs) as [b|] eqn:El; [|done]. apply last_Some_elem_of in El. cbn. by eapply (proj1 (Forall_forall _ _) Hbs).
Qed.

(** The stealing step on a message cut into blocks [bs], [p] and a rest [t]. *)
Definition steal (bs : list bytes) (p t : bytes) : bytes * bytes :=
  let prev := default zero_iv (last (enc zero_iv bs)) in
  let c1 := E (xor_block p prev) in
  (c1, E (xor_block (t ++ replicate (AES_BLOCK_LEN - length t) x00) c1)).
Lemma encrypt_partial bs p t : Forall is_block bs -> is_block p -> (0 < length t < AES_BLOCK_LEN)%nat ->
  let '(c1, c2) := steal bs p t in
  is_block c1 /\ is_block c2 /\
  encrypt (concat bs ++ p ++ t) = Ok (concat (enc zero_iv bs) ++ c2 ++ take (length t) c1).
Proof using HE.
  intros Hbs Hp Ht. unfold steal. set (prev := default zero_iv _). set (c1 := E (xor_block p prev)).
  set (tz := t ++ replicate _ x00). set (c2 := E (xor_block tz c1)).
  destruct (cbc_encrypt_blocks zero_iv bs is_block_iv Hbs) as [Hcs Hcl].
  assert (is_block prev) as Hprev by (by apply last_is_block). assert (is_block tz) as Htz.
  { unfold is_block, tz. rewrite length_app, length_replicate. lia. }
  assert (is_block c1) as Hc1 by (apply (encrypt_is_block _ _ HE); auto).
  assert (is_block c2) as Hc2 by (apply (encrypt_is_block _ _ HE); auto). split; [done|]. split; [done|].
  set (m := concat bs ++ p ++ t). assert (length m = length bs * 16 + (16 + length t))%nat as Hm.
  { unfold m. by rewrite !length_app, length_concat_blocks, Hp. }
  unfold AES_BLOCK_LEN in Ht. assert (length m mod 16 = length t)%nat as Hmod.
  { rewrite Hm. replace (length bs * 16 + (16 + length t))%nat with (length t + (length bs + 1) * 16)%nat by lia.
    rewrite Nat.Div0.mod_add. apply Nat.mod_small. lia. }
  assert (block_count (length m) = length bs + 2)%nat as Hbc.
  { unfold block_count, AES_BLOCK_LEN. rewrite Hm.
    replace (length bs * 16 + (16 + length t) + (16 - 1))%nat with ((length bs + 2) * 16 + (length t - 1))%nat by lia.
    rewrite Nat.div_add_l, Nat.div_small by lia. lia. }
  unfold aes256_cbc_cts_encrypt. rewrite Hbc. change AES_BLOCK_LEN with 16%nat. rewrite Hmod.
  rewrite (proj2 (Nat.eqb_neq (length m) 0)), (proj2 (Nat.ltb_ge (length m) 16)), (proj2 (Nat.eqb_neq (length bs + 2) 1)), (proj2 (Nat.eqb_neq (length t) 0)) by lia.
  assert (m ++ replicate ((length bs + 2) * 16 - length m) x00 = concat (bs ++ [p; tz])) as ->.
  { rewrite Hm. unfold m, tz. rewrite concat_app. cbn [concat]. rewrite app_nil_r, <-!app_assoc. do 4 f_equal. unfold AES_BLOCK_LEN. lia. }
  rewrite chunks_exact_concat by (apply Forall_app; split; [done|by repeat constructor]).
  rewrite cbc_encrypt_app. fold prev. cbn [cbc_encrypt]. fold c1. fold c2. unfold index_block.
  replace (length bs + 2 - 1)%nat with (length (enc zero_iv bs) + 1)%nat by lia.
  replace (length bs + 2 - 2)%nat with (length (enc zero_iv bs) + 0)%nat by lia.
  rewrite !lookup_app_r by lia. rewrite !Nat.add_sub' . cbn [lookup list_lookup rbind].
  rewrite slice_Ok by (rewrite Hc1; unfold AES_BLOCK_LEN; lia). rewrite drop_0, Nat.sub_0_r, Nat.add_0_r. cbn [rbind]. rewrite take_app_length.
  unfold assert_len. rewrite Hm, (proj2 (Nat.eqb_eq _ _)); [done|].
  rewrite !length_app, length_concat_blocks, Hcl, Hc2, length_take, Hc1 by done. unfold AES_BLOCK_LEN. lia.
Qed.
Lemma decrypt_partial cs c2 part : Forall is_block cs -> is_block c2 -> (0 < length part < AES_BLOCK_LEN)%nat ->
  let rem := length part in
  let c1 := part ++ drop rem (D c2) in
  decrypt (concat cs ++ c2 ++ part)
  = Ok (concat (dec zero_iv cs) ++ xor_block (D c1) (default zero_iv (last cs)) ++ xor_block (take rem (D c2)) part).
Proof using HE.
  intros Hcs Hc2 Hr rem c1. set (m := concat cs ++ c2 ++ part). assert (length m = length cs * 16 + (16 + rem))%nat as Hm.
  { unfold m. by rewrite !length_app, length_concat_blocks, Hc2. }
  unfold AES_BLOCK_LEN in Hr. fold rem in Hr. assert (length m mod 16 = rem)%nat as Hmod.
  { rewrite Hm. replace (length cs * 16 + (16 + rem))%nat with (rem + (length cs + 1) * 16)%nat by lia.
    rewrite Nat.Div0.mod_add. apply Nat.mod_small. lia. }
  assert (block_count (length m) = length cs + 2)%nat as Hbc.
  { unfold block_count, AES_BLOCK_LEN. rewrite Hm.
    replace (length cs * 16 + (16 + rem) + (16 - 1))%nat with ((length cs + 2) * 16 + (rem - 1))%nat by lia.
    rewrite Nat.div_add_l, Nat.div_small by lia. lia. }
  assert (is_block (D c2)) as Hx by (by apply (decrypt_is_block _ _ HE)).
  assert (is_block c1) as Hc1. { unfold is_block, c1. rewrite length_app, length_drop, Hx. fold rem. unfold AES_BLOCK_LEN. lia. }
  unfold aes256_cbc_cts_decrypt. rewrite Hbc. change AES_BLOCK_LEN with 16%nat. rewrite Hmod.
  rewrite (proj2 (Nat.eqb_neq (length m) 0)), (proj2 (Nat.ltb_ge (length m) 16)), (proj2 (Nat.eqb_neq (length cs + 2) 1)), (proj2 (Nat.eqb_neq rem 0)) by lia.
  replace (length cs + 2 - 2)%nat with (length cs) by lia. pose proof (length_concat_blocks cs Hcs) as Hcl. change AES_BLOCK_LEN with 16%nat in Hcl.
  rewrite (slice_Ok m 0) by lia. rewrite drop_0, Nat.sub_0_r. cbn [rbind].
  assert (@slice CryptoError m (length cs * 16) (length cs * 16 + 16) = Ok c2) as ->.
  { apply slice_app; [exact Hcl|rewrite Hc2; unfold AES_BLOCK_LEN; lia|lia]. }
  cbn [rbind]. rewrite (slice_Ok m) by lia. cbn [rbind]. rewrite slice_Ok by (rewrite Hx; unfold AES_BLOCK_LEN; lia). cbn [rbind].
  rewrite slice_Ok by (rewrite Hx; unfold AES_BLOCK_LEN; lia). cbn [rbind].
  assert (take (length cs * 16) m = concat cs) as -> by (unfold m; by rewrite <-Hcl, take_app_length).
  assert (drop (length cs * 16 + 16) m = part) as ->.
  { unfold m. rewrite app_assoc, drop_app_length'; [done|]. rewrite length_app, Hc2, Hcl. unfold AES_BLOCK_LEN. lia. }
  rewrite <-(app_nil_r (concat cs)) at 1 2. rewrite !blocks_of_concat by done.
  rewrite (take_ge part) by (fold rem; lia). rewrite (take_ge (drop rem (D c2))) by (rewrite length_drop, Hx; unfold AES_BLOCK_LEN; lia).
  fold c1. rewrite drop_0, Nat.sub_0_r. destruct (cbc_decrypt_blocks zero_iv cs is_block_iv Hcs) as [Hds Hdl].
  unfold assert_len. rewrite Hm, (proj2 (Nat.eqb_eq _ _)); [done|].
  rewrite !length_app, length_concat_blocks, Hdl by done. rewrite !length_xor_block.
  - fold rem. change (length (default zero_iv (last cs))) with (length (default zero_iv (last cs))).
    rewrite (last_is_block zero_iv cs is_block_iv Hcs). unfold AES_BLOCK_LEN. lia.
  - rewrite length_take, Hx. fold rem. unfold AES_BLOCK_LEN. lia.
  - rewrite (last_is_block zero_iv cs is_block_iv Hcs). by apply (decrypt_is_block _ _ HE).
Qed.

(** Which of the three layouts a message of at least one block has. *)
Lemma message_cases (l : bytes) : (AES_BLOCK_LEN <= length l)%nat ->
  is_block l \/ (exists bs, Forall is_block bs /\ l = concat bs /\ (2 <= length bs)%nat)
  \/ (exists bs p t, Forall is_block bs /\ is_block p /\ (0 < length t < AES_BLOCK_LEN)%nat /\ l = concat bs ++ p ++ t).
Proof.
  intros Hl. destruct (decide (length l mod AES_BLOCK_LEN = 0)%nat) as [H|H].
  - destruct (whole_blocks l H) as (bs & Hbs & ->). rewrite length_concat_blocks in Hl by done. unfold AES_BLOCK_LEN in Hl.
    destruct bs as [|b [|b' bs]]; [cbn in Hl; lia| |].
    + left. cbn. rewrite app_nil_r. by inversion Hbs.
    + right. left. exists (b :: b' :: bs). split_and!; [done|done|cbn; lia].
  - destruct (split_message l _ eq_refl ltac:(lia) Hl) as (bs & p & t & ? & ? & Ht & E & _). right. right. exists bs, p, t.
    pose proof (Nat.mod_upper_bound (length l) AES_BLOCK_LEN ltac:(done)). split_and!; try done; lia.
Qed.
Lemma encrypt_one b : is_block b -> encrypt b = Ok (E b).
Proof. intros Hb. unfold aes256_cbc_cts_encrypt. by rewrite Hb. Qed.
Lemma decrypt_one b : is_block b -> decrypt b = Ok (D b).
Proof. intros Hb. unfold aes256_cbc_cts_decrypt. by rewrite Hb. Qed.
Lemma whole_counts bs : Forall is_block bs -> (2 <= length bs)%nat ->
  (length (concat bs) =? 0)%nat = false /\ (length (concat bs) <? AES_BLOCK_LEN)%nat = false
  /\ (block_count (length (concat bs)) =? 1)%nat = false /\ (length (concat bs) mod AES_BLOCK_LEN =? 0)%nat = true.
Proof.
  intros Hbs Hn. rewrite length_concat_blocks by done. unfold block_count, AES_BLOCK_LEN.
  rewrite Nat.div_add_l by lia. rewrite Nat.Div0.mod_mul. change ((16 - 1) / 16)%nat with 0%nat.
  rewrite !Nat.eqb_neq, Nat.ltb_ge. split_and!; try done; lia.
Qed.
Lemma encrypt_whole bs : Forall is_block bs -> (2 <= length bs)%nat -> encrypt (concat bs) = Ok (concat (enc zero_iv bs)).
Proof.
  intros Hbs Hn. destruct (whole_counts bs Hbs Hn) as (E1 & E2 & E3 & E4). unfold aes256_cbc_cts_encrypt.
  by rewrite E1, E2, E3, E4, chunks_exact_concat.
Qed.
Lemma decrypt_whole bs : Forall is_block bs -> (2 <= length bs)%nat -> decrypt (concat bs) = Ok (concat (dec zero_iv bs)).
Proof.
  intros Hbs Hn. destruct (whole_counts bs Hbs Hn) as (E1 & E2 & E3 & E4). unfold aes256_cbc_cts_decrypt.
  by rewrite E1, E2, E3, E4, chunks_exact_concat.
Qed.

Lemma cts_decrypt_encrypt m : (AES_BLOCK_LEN <= length m)%nat ->
  exists c, encrypt m = Ok c /\ length c = length m /\ decrypt c = Ok m.
Proof using HE.
  intros Hl. destruct (message_cases m Hl) as [Hm|[(bs & Hbs & -> & Hn)|(bs & p & t & Hbs & Hp & Ht & ->)]].
  - pose proof (encrypt_is_block _ _ HE key m Hm) as Hc. exists (E m). rewrite encrypt_one, decrypt_one by done.
    rewrite (decrypt_encrypt_block _ _ HE) by done. split_and!; [done|by rewrite Hc, Hm|done].
  - destruct (cbc_encrypt_blocks zero_iv bs is_block_iv Hbs) as [Hcs Hcl]. exists (concat (enc zero_iv bs)).
    rewrite encrypt_whole, decrypt_whole by (done || lia). rewrite !length_concat_blocks, cbc_decrypt_encrypt by done.
    split_and!; [done|lia|done].
  - pose proof (encrypt_partial bs p t Hbs Hp Ht) as Hs. unfold steal in Hs. set (prev := default _ _) in Hs.
    set (c1 := E (xor_block p prev)) in Hs. set (tz := t ++ _) in Hs. set (c2 := E (xor_block tz c1)) in Hs. destruct Hs as (Hc1 & Hc2 & He).
    destruct (cbc_encrypt_blocks zero_iv bs is_block_iv Hbs) as [Hcs Hcl]. assert (is_block prev) as Hprev by (by apply last_is_block).
    assert (is_block tz) as Htz. { unfold is_block, tz. rewrite length_app, length_replicate. lia. }
    assert (length (take (length t) c1) = length t) as Hpl by (rewrite length_take, Hc1; lia).
    eexists. split; [exact He|]. split.
    { rewrite !length_app, !length_concat_blocks, Hcl, Hc2, Hpl, Hp by done. lia. }
    rewrite decrypt_partial by (done || by rewrite Hpl). rewrite Hpl, cbc_decrypt_encrypt by done. fold prev.
    assert (D c2 = xor_block tz c1) as ->. { unfold c2. apply (decrypt_encrypt_block _ _ HE). auto. }
    assert (xor_block tz c1 = xor_block t (take (length t) c1) ++ drop (length t) c1) as ->.
    { rewrite <-(take_drop (length t) c1) at 1. unfold tz. rewrite xor_block_app by (by rewrite Hpl). f_equal.
      apply xor_block_zeros. by rewrite length_drop, Hc1. }
    assert (length (xor_block t (take (length t) c1)) = length t) as Hxl by (rewrite length_xor_block; by rewrite Hpl).
    rewrite take_app_length', drop_app_length' by done. rewrite take_drop. rewrite (xor_block_cancel t) by (by rewrite Hpl).
    unfold c1. rewrite (decrypt_encrypt_block _ _ HE) by auto. by rewrite xor_block_cancel by (by rewrite Hp, Hprev).
Qed.
Lemma cts_encrypt_decrypt c : (AES_BLOCK_LEN <= length c)%nat ->
  exists m, decrypt c = Ok m /\ length m = length c /\ encrypt m = Ok c.
Proof using HE.
  intros Hl. destruct (message_cases c Hl) as [Hc|[(cs & Hcs & -> & Hn)|(cs & c2 & part & Hcs & Hc2 & Hr & ->)]].
  - pose proof (decrypt_is_block _ _ HE key c Hc) as Hm. exists (D c). rewrite encrypt_one, decrypt_one by done.
    rewrite (encrypt_decrypt_block _ _ HE) by done. split_and!; [done|by rewrite Hc, Hm|done].
  - destruct (cbc_decrypt_blocks zero_iv cs is_block_iv Hcs) as [Hds Hdl]. exists (concat (dec zero_iv cs)).
    rewrite encrypt_whole, decrypt_whole by (done || lia). rewrite !length_concat_blocks, cbc_encrypt_decrypt by done.
    split_and!; [done|lia|done].
  - rewrite decrypt_partial by done. set (rem := length part) in *. set (c1 := part ++ _). set (prev := default _ _).
    set (t := xor_block (take rem (D c2)) part). set (p := xor_block (D c1) prev).
    assert (is_block (D c2)) as Hx by (by apply (decrypt_is_block _ _ HE)).
    assert (is_block c1) as Hc1. { unfold is_block, c1. rewrite length_app, length_drop, Hx. fold rem. lia. }
    assert (is_block (D c1)) as Hd1 by (by apply (decrypt_is_block _ _ HE)).
    assert (is_block prev) as Hprev by (by apply last_is_block). assert (is_block p) as Hp by (by apply xor_is_block).
    assert (length (take rem (D c2)) = rem) as Hxl by (rewrite length_take, Hx; lia).
    assert (length t = rem) as Ht by (by apply length_xor_block).
    destruct (cbc_decrypt_blocks zero_iv cs is_block_iv Hcs) as [Hds Hdl].
    eexists. split; [reflexivity|]. split.
    { rewrite !length_app, !length_concat_blocks, Hdl, Hc2, Hp, Ht by done. done. }
    pose proof (encrypt_partial (dec zero_iv cs) p t Hds Hp ltac:(by rewrite Ht)) as Hs. unfold steal in Hs.
    rewrite cbc_encrypt_decrypt in Hs by done. fold prev in Hs. rewrite Ht in Hs.
    assert (E (xor_block p prev) = c1) as Hc1'.
    { unfold p. rewrite xor_block_cancel by (by rewrite Hd1, Hprev). by apply (encrypt_decrypt_block _ _ HE). }
    rewrite Hc1' in Hs. assert (xor_block (t ++ replicate (AES_BLOCK_LEN - rem) x00) c1 = D c2) as Ht2.
    { unfold c1. rewrite xor_block_app by done. unfold t. rewrite xor_block_cancel by done.
      rewrite xor_block_zeros by (by rewrite length_drop, Hx). apply take_drop. }
    rewrite Ht2, (encrypt_decrypt_block _ _ HE) in Hs by done. destruct Hs as (_ & _ & ->). do 3 f_equal.
    unfold c1. by apply take_app_length'.
Qed.
Lemma cts_short m : (length m < AES_BLOCK_LEN)%nat ->
  encrypt m = (if decide (m = []) then Ok [] else Err (PlaintextTooShort (length m)))
  /\ decrypt m = (if decide (m = []) then Ok [] else Err (PlaintextTooShort (length m))).
Proof.
  intros Hm. unfold aes256_cbc_cts_encrypt, aes256_cbc_cts_decrypt. rewrite (proj2 (Nat.ltb_lt _ _) Hm).
  by destruct m.
Qed.
End CTS.

(** C32: Ciphertext stealing is a length-preserving permutation: for any block
    cipher, encrypting a message of at least one block succeeds without a panic,
    keeps its length and is undone by decryption, and every ciphertext of at
    least one block is the encryption of its decryption; shorter non-empty input
    is an error. *)
Theorem cts_permutation (encrypt_block decrypt_block : Aes256Key -> bytes -> bytes) (key : Aes256Key) (m : bytes) :
  BlockCipher encrypt_block decrypt_block ->
  let encrypt := aes256_cts_encrypt encrypt_block key in
  let decrypt := aes256_cts_decrypt decrypt_block key in
  if (length m <? AES_BLOCK_LEN)%nat
  then encrypt m = (if decide (m = []) then Ok [] else Err (PlaintextTooShort (length m)))
       /\ decrypt m = (if decide (m = []) then Ok [] else Err (PlaintextTooShort (length m)))
  else (exists c, encrypt m = Ok c /\ length c = length m /\ decrypt c = Ok m)
       /\ (exists p, decrypt m = Ok p /\ length p = length m /\ encrypt p = Ok m).
Proof.
  intros HE encrypt decrypt. destruct (Nat.ltb_spec (length m) AES_BLOCK_LEN) as [H|H]; [by apply cts_short|].
  split; [by apply cts_decrypt_encrypt|by apply cts_encrypt_decrypt].
Qed.
(** A block cipher to evaluate the definitions with. *)
Definition rotate_block (k : Aes256Key) (b : bytes) : bytes := rev b.
Lemma rotate_block_cipher : BlockCipher rotate_block rotate_block.
Proof. split; unfold rotate_block, is_block; intros; rewrite ?length_rev, ?rev_involutive; done. Qed.
Lemma cts_permutation_witness :
  let m := lit "0123456789abcdefghij" in
  exists c, aes256_cts_encrypt rotate_block [] m = Ok c /\ length c = length m /\ aes256_cts_decrypt rotate_block [] c = Ok m.
Proof. intros m. apply (cts_permutation rotate_block rotate_block [] m rotate_block_cipher). Defined.

Section Etype18.
Context (encrypt_block decrypt_block : Aes256Key -> bytes -> bytes) (HE : BlockCipher encrypt_block decrypt_block).
Context (hmac_sha1 : bytes -> bytes -> bytes) (Hmac : forall k d, length (hmac_sha1 k d) = 20%nat) (key : Aes256Key).
Abbreviation mac := (hmac_sha1_96 hmac_sha1 key).
Abbreviation encrypt := (encrypt_aes256_cts_hmac_sha1_96 encrypt_block hmac_sha1 key).
Abbreviation decrypt := (decrypt_aes256_cts_hmac_sha1_96 decrypt_block hmac_sha1 key).

Lemma length_hmac_sha1_96 d : length (mac d) = HMAC_SHA1_96_LEN.
Proof using Hmac. unfold hmac_sha1_96. by rewrite length_take, Hmac. Qed.
Lemma etype18_encrypt_Ok confounder plaintext : length confounder = CONFOUNDER_LEN ->
  exists ct, encrypt confounder plaintext = Ok (ct ++ mac (confounder ++ plaintext))
    /\ length ct = (CONFOUNDER_LEN + length plaintext)%nat
    /\ aes256_cts_decrypt decrypt_block key ct = Ok (confounder ++ plaintext).
Proof using HE.
  intros Hc. destruct (cts_decrypt_encrypt _ _ HE key (confounder ++ plaintext)) as (ct & E & Hl & D).
  { rewrite length_app, Hc. unfold CONFOUNDER_LEN. lia. }
  exists ct. unfold encrypt_aes256_cts_hmac_sha1_96, aes256_cts_encrypt. rewrite E. rewrite length_app, Hc in Hl. done.
Qed.
Lemma etype18_decrypt_encrypt confounder plaintext blob : length confounder = CONFOUNDER_LEN ->
  encrypt confounder plaintext = Ok blob -> decrypt blob = Ok plaintext.
Proof using HE Hmac.
  intros Hc He. destruct (etype18_encrypt_Ok confounder plaintext Hc) as (ct & E & Hl & D). rewrite E in He. apply Ok_inj in He as <-.
  unfold decrypt_aes256_cts_hmac_sha1_96. rewrite length_app, length_hmac_sha1_96, Hl. rewrite (proj2 (Nat.ltb_ge _ _)) by lia.
  rewrite Nat.add_sub, <-Hl, take_app_length, drop_app_length, D. cbn [rbind]. rewrite bool_decide_eq_true_2 by done. cbn [negb].
  rewrite slice_Ok by (rewrite length_app, Hc; lia). rewrite take_ge by (rewrite length_drop; lia). by rewrite drop_app_length'.
Qed.
Lemma etype18_decrypt_cases blob :
  (exists e, decrypt blob = Err e) \/ exists confounder plaintext, length confounder = CONFOUNDER_LEN
    /\ decrypt blob = Ok plaintext /\ encrypt confounder plaintext = Ok blob.
Proof using HE.
  unfold decrypt_aes256_cts_hmac_sha1_96. destruct (Nat.ltb_spec (length blob) (CONFOUNDER_LEN + HMAC_SHA1_96_LEN)) as [Hb|Hb]; [eauto|].
  set (ct := take _ blob). set (tag := drop _ blob).
  assert (length ct = length blob - HMAC_SHA1_96_LEN)%nat as Hct by (unfold ct; rewrite length_take; lia).
  destruct (cts_encrypt_decrypt _ _ HE key ct) as (m & Em & Hm & Ec); [rewrite Hct; unfold CONFOUNDER_LEN in Hb; lia|].
  unfold aes256_cts_decrypt. rewrite Em. cbn [rbind].
  destruct (bool_decide_reflect (mac m = tag)) as [Et|Et]; cbn [negb]; [|eauto]. right.
  exists (take CONFOUNDER_LEN m), (drop CONFOUNDER_LEN m). split; [rewrite length_take; lia|].
  rewrite slice_Ok by lia. rewrite take_ge by (rewrite length_drop; lia). split; [done|].
  unfold encrypt_aes256_cts_hmac_sha1_96, aes256_cts_encrypt. rewrite take_drop, Ec. cbn [rbind]. rewrite Et. unfold ct, tag. by rewrite take_drop.
Qed.
End Etype18.

(** C33: The authenticated format of etype 18: decryption never panics and
    accepts exactly what encryption produces; a blob decrypts to a plaintext if
    and only if it is the encryption of that plaintext under some 16-byte
    confounder. *)
Theorem etype18_decrypt_iff (encrypt_block decrypt_block : Aes256Key -> bytes -> bytes) (hmac_sha1 : bytes -> bytes -> bytes)
    (key : Aes256Key) (blob plaintext : bytes) :
  BlockCipher encrypt_block decrypt_block -> (forall k d, length (hmac_sha1 k d) = 20%nat) ->
  (decrypt_aes256_cts_hmac_sha1_96 decrypt_block hmac_sha1 key blob = Ok plaintext <->
   exists confounder, length confounder = CONFOUNDER_LEN
     /\ encrypt_aes256_cts_hmac_sha1_96 encrypt_block hmac_sha1 key confounder plaintext = Ok blob)
  /\ decrypt_aes256_cts_hmac_sha1_96 decrypt_block hmac_sha1 key blob <> Panic.
Proof.
  intros HE Hmac. split; [split|].
  - intros Hp. destruct (etype18_decrypt_cases _ _ HE hmac_sha1 key blob) as [[e He]|(c & p & ? & Hd & ?)]; [congruence|].
    rewrite Hd in Hp. apply Ok_inj in Hp as <-. eauto.
  - intros (c & Hc & He). by eapply (etype18_decrypt_encrypt _ _ HE).
  - destruct (etype18_decrypt_cases _ _ HE hmac_sha1 key blob) as [[e ->]|(c & p & _ & -> & _)]; done.
Qed.
(** A MAC to evaluate the definitions with. *)
Definition fold_mac (k d : bytes) : bytes := replicate 20 (fold_left byte_xor (k ++ d) x00).
Definition sample_blob : bytes :=
  match encrypt_aes256_cts_hmac_sha1_96 rotate_block fold_mac [x01] (lit "0123456789abcdef") (lit "hello") with Ok b => b | _ => [] end.
Lemma etype18_decrypt_iff_witness :
  decrypt_aes256_cts_hmac_sha1_96 rotate_block fold_mac [x01] sample_blob = Ok (lit "hello").
Proof.
  apply (etype18_decrypt_iff rotate_block rotate_block fold_mac [x01] sample_blob (lit "hello")).
  - apply rotate_block_cipher.
  - reflexivity.
  - exists (lit "0123456789abcdef"). split; vm_compute; reflexivity.
Defined.
