(* ===== verification/KdcKeys.v ===== *)
(** * KdcKeys: key derivation ([adrian-kdc], [key_derivation.rs])

    Folding, and the encryption and integrity keys of a key usage.  Proved here:
    [nfold] is the one's complement sum of the blocks of its stretched input, and
    which usages get different keys. *)
From S2P Require Import Prelude Bytes Text KdcCrypto.

Definition KE_TAG : byte := xaa.
Definition KI_TAG : byte := x55.

(** [while b != 0]: [b] shrinks in every round. *)
Fixpoint gcd_loop (fuel : nat) (a b : Z) : Z :=
  match fuel with
  | O => a
  | S fuel => if b =? 0 then a else gcd_loop fuel b (a mod b)
  end.
Definition gcd (a b : Z) : Z := gcd_loop (S (Z.to_nat b)) a b.
Definition lcm {E} (a b : Z) : Result E Z :=
  if (a =? 0) || (b =? 0) then Ok 0 else let? p := uint_mul 64 a b in Ok (p / gcd a b).

(** [while carry > 0]: the carry moves one byte to the left per round and
    wraps from the first byte to the last. *)
Fixpoint add_carry {E} (fuel : nat) (out : bytes) (idx : nat) (carry : Z) : Result E bytes :=
  if carry =? 0 then Ok out
  else
    match fuel, out !! idx with
    | S fuel, Some b =>
        let val := b2z b + carry in
        let out := <[idx := z2b (Z.land val 0xFF)]> out in
        let carry := Z.shiftr val 8 in
        if 0 <? carry then add_carry fuel out (if (idx =? 0)%nat then length out - 1 else idx - 1)%nat carry
        else add_carry fuel out idx carry
    | _, _ => Panic
    end.

(** One round of the loop over the stretched input. *)
Definition nfold_round {E} (input : bytes) (inbits outbits lcm_val k : Z) (out : bytes) : Result E bytes :=
  let? scaled := uint_mul 64 k inbits in
  let in_bit_idx := (scaled / lcm_val) mod inbits in
  match input !! Z.to_nat (in_bit_idx / 8) with
  | None => Panic
  | Some b =>
      if Z.land (Z.shiftr (b2z b) (7 - in_bit_idx mod 8)) 1 =? 0 then Ok out
      else
        let out_bit_idx := k mod outbits in
        add_carry (2 * length out) out (Z.to_nat (out_bit_idx / 8)) (Z.shiftl 1 (7 - out_bit_idx mod 8))
  end.
Fixpoint nfold_loop {E} (rounds : nat) (input : bytes) (inbits outbits lcm_val k : Z) (out : bytes) : Result E bytes :=
  match rounds with
  | O => Ok out
  | S rounds => let? out := nfold_round input inbits outbits lcm_val k out in nfold_loop rounds input inbits outbits lcm_val (k + 1) out
  end.
Definition nfold {E} (input : bytes) (outbits : Z) : Result E bytes :=
  if negb ((0 <? outbits) && (outbits mod 8 =? 0)) then Panic
  else
    let outbytes := Z.to_nat (outbits / 8) in
    match uint_checked_mul 64 (Z.of_nat (length input)) 8 with
    | None => Panic
    | Some inbits =>
        if inbits =? 0 then Ok (replicate outbytes x00)
        else
          let? lcm_val := lcm inbits outbits in
          nfold_loop (Z.to_nat lcm_val) input inbits outbits lcm_val 0 (replicate outbytes x00)
    end.

Section Derive.
Context (encrypt_block : Aes256Key -> bytes -> bytes).

Definition aes256_cbc_encrypt_zero_iv {E} (key : Aes256Key) (data : bytes) : Result E bytes :=
  if negb (length data mod AES_BLOCK_LEN =? 0)%nat then Panic
  else Ok (concat (cbc_encrypt encrypt_block key zero_iv (chunks_exact data))).
Definition derivation_constant (key_usage : Z) (tag : byte) : bytes := to_be 4 key_usage ++ [tag].

(** [while indata.len() < 32]: one copy of a non-empty block per round. *)
Fixpoint repeat_until (fuel : nat) (folded indata : bytes) (len : nat) : bytes :=
  match fuel with
  | O => indata
  | S fuel => if (length indata <? len)%nat then repeat_until fuel folded (indata ++ folded) len else indata
  end.
Definition dr_derive {E} (base_key : Aes256Key) (constant : bytes) : Result E Aes256Key :=
  let? folded := nfold constant (Z.of_nat AES_BLOCK_LEN * 8) in
  let indata := take AES256_KEY_LEN (repeat_until AES256_KEY_LEN folded [] AES256_KEY_LEN) in
  let? derived := aes256_cbc_encrypt_zero_iv base_key indata in
  slice derived 0 AES256_KEY_LEN.

Definition derive_encryption_key {E} (base_key : Aes256Key) (key_usage : Z) : Result E Aes256Key :=
  dr_derive base_key (derivation_constant key_usage KE_TAG).
Definition derive_integrity_key {E} (base_key : Aes256Key) (key_usage : Z) : Result E Aes256Key :=
  dr_derive base_key (derivation_constant key_usage KI_TAG).
End Derive.

(** ** The greatest common divisor *)

Lemma gcd_loop_eq fuel a b : 0 <= a -> 0 <= b < Z.of_nat fuel -> gcd_loop fuel a b = Z.gcd a b.
Proof.
  revert a b. induction fuel as [|fuel IH]; intros a b Ha Hb; [lia|]. cbn [gcd_loop]. destruct (Z.eqb_spec b 0) as [->|Hne].
  - rewrite Z.gcd_0_r. lia.
  - pose proof (Z.mod_pos_bound a b). rewrite IH by lia. rewrite Z.gcd_comm, Z.gcd_mod by done. apply Z.gcd_comm.
Qed.
Lemma lcm_Ok {E} a b : 0 < a -> 0 < b -> a * b < 2 ^ 64 -> @lcm E a b = Ok (Z.lcm a b).
Proof.
  intros Ha Hb Hlt. unfold lcm. rewrite !(proj2 (Z.eqb_neq _ _)) by lia. cbn [orb]. unfold uint_mul. rewrite (proj2 (Z.ltb_lt _ _)) by done.
  cbn [rbind]. unfold gcd. rewrite gcd_loop_eq by lia. unfold Z.lcm. assert (0 < Z.gcd a b) as Hg by (pose proof (Z.gcd_nonneg a b); assert (Z.gcd a b <> 0) by (intros [? ?]%Z.gcd_eq_0; lia); lia).
  rewrite Z.divide_div_mul_exact; [|lia|apply Z.gcd_divide_r]. rewrite Z.abs_eq; [done|]. apply Z.mul_nonneg_nonneg; [lia|]. apply Z.div_pos; lia.
Qed.

(** ** Addition with end-around carry *)

Lemma of_be_insert (out : bytes) idx b b' : out !! idx = Some b ->
  of_be (<[idx := b']> out) = of_be out + (b2z b' - b2z b) * 256 ^ Z.of_nat (length out - 1 - idx).
Proof.
  revert idx. induction out as [|x out IH]; intros [|idx] Hl; [done|done| |].
  - injection Hl as ->. change (<[0%nat := b']> (b :: out)) with (b' :: out). rewrite !of_be_cons. cbn [length]. replace (S (length out) - 1 - 0)%nat with (length out) by lia. lia.
  - change (<[S idx := b']> (x :: out)) with (x :: <[idx := b']> out). rewrite !of_be_cons, length_insert, (IH _ Hl). cbn [length]. replace (S (length out) - 1 - S idx)%nat with (length out - 1 - idx)%nat by lia. lia.
Qed.

(** What one round of the carry loop does to the value. *)
Lemma carry_round (out : bytes) idx b c : out !! idx = Some b -> 0 <= c < 256 ->
  let val := b2z b + c in
  (val < 256 /\ Z.shiftr val 8 = 0 \/ 256 <= val /\ Z.shiftr val 8 = 1)
  /\ of_be (<[idx := z2b (Z.land val 0xFF)]> out)
     = of_be out + (c - (if val <? 256 then 0 else 256)) * 256 ^ Z.of_nat (length out - 1 - idx).
Proof.
  intros Hl Hc val. pose proof (b2z_range b) as Hb. assert (Z.land val 0xFF = val mod 256) as Hland by (apply (Z.land_ones val 8); lia).
  rewrite Z.shiftr_div_pow2 by lia. change (2 ^ 8) with 256. split.
  { destruct (Z.ltb_spec val 256); [left; split; [lia|apply Z.div_small; lia]|right]. split; [lia|]. symmetry. apply (Z.div_unique _ _ _ (val - 256)); lia. }
  rewrite (of_be_insert out idx b) by done. rewrite b2z_z2b, Hland, Z.mod_mod by lia. f_equal. f_equal.
  destruct (Z.ltb_spec val 256); [rewrite Z.mod_small by lia; lia|]. rewrite <-(Z.mod_unique val 256 1 (val - 256)); lia.
Qed.
Lemma place_pred n idx : (S idx < n)%nat -> 256 * 256 ^ Z.of_nat (n - 1 - S idx) = 256 ^ Z.of_nat (n - 1 - idx).
Proof. intros. rewrite <-Z.pow_succ_r by lia. f_equal. lia. Qed.
Lemma place_top n : (0 < n)%nat -> 256 * 256 ^ Z.of_nat (n - 1 - 0) = 256 ^ Z.of_nat n.
Proof. intros. rewrite <-Z.pow_succ_r by lia. f_equal. lia. Qed.

Lemma add_carry_low {E} idx fuel (out : bytes) c : (idx < length out)%nat -> (idx < fuel)%nat -> 0 < c < 256 ->
  of_be out + c * 256 ^ Z.of_nat (length out - 1 - idx) < 256 ^ Z.of_nat (length out) ->
  exists out', @add_carry E fuel out idx c = Ok out' /\ length out' = length out
    /\ of_be out' = of_be out + c * 256 ^ Z.of_nat (length out - 1 - idx).
Proof.
  revert fuel out c. induction idx as [|idx IH]; intros [|fuel] out c Hi Hf Hc Hlt; try lia;
    destruct (lookup_lt_is_Some_2 out _ Hi) as [b Hb]; cbn [add_carry]; rewrite (proj2 (Z.eqb_neq c 0)) by lia; rewrite Hb;
    destruct (carry_round out _ b c Hb ltac:(lia)) as [[[Hv ->]|[Hv ->]] Hval]; cbn [Z.ltb Z.compare];
    set (out1 := <[_ := _]> out) in *; assert (length out1 = length out) as Hl1 by apply length_insert;
    first [rewrite (proj2 (Z.ltb_lt _ _)) in Hval by lia | rewrite (proj2 (Z.ltb_ge _ _)) in Hval by lia].
  - exists out1. destruct fuel; (split; [done|]); (split; [done|]); lia.
  - pose proof (of_be_range out1) as Hr. pose proof (place_top (length out) ltac:(lia)) as Hp. lia.
  - exists out1. destruct fuel; (split; [done|]); (split; [done|]); lia.
  - cbn [Nat.eqb]. replace (S idx - 1)%nat with idx by lia. pose proof (place_pred (length out) idx ltac:(lia)) as Hp.
    destruct (IH fuel out1 1) as (out' & -> & Hlen & Ho); rewrite ?Hl1 in *; [lia|lia|lia|lia|]. exists out'. split; [done|]. split; [lia|]. lia.
Qed.
Lemma add_carry_wrap {E} idx fuel (out : bytes) c : (idx < length out)%nat -> (idx < fuel)%nat -> 0 < c < 256 ->
  256 ^ Z.of_nat (length out) <= of_be out + c * 256 ^ Z.of_nat (length out - 1 - idx) ->
  exists out', @add_carry E fuel out idx c = add_carry (fuel - S idx) out' (length out - 1) 1 /\ length out' = length out
    /\ of_be out' = of_be out + c * 256 ^ Z.of_nat (length out - 1 - idx) - 256 ^ Z.of_nat (length out).
Proof.
  revert fuel out c. induction idx as [|idx IH]; intros [|fuel] out c Hi Hf Hc Hge; try lia;
    destruct (lookup_lt_is_Some_2 out _ Hi) as [b Hb]; cbn [add_carry]; rewrite (proj2 (Z.eqb_neq c 0)) by lia; rewrite Hb;
    destruct (carry_round out _ b c Hb ltac:(lia)) as [[[Hv ->]|[Hv ->]] Hval]; cbn [Z.ltb Z.compare];
    set (out1 := <[_ := _]> out) in *; assert (length out1 = length out) as Hl1 by apply length_insert;
    first [rewrite (proj2 (Z.ltb_lt _ _)) in Hval by lia | rewrite (proj2 (Z.ltb_ge _ _)) in Hval by lia];
    pose proof (of_be_range out1) as Hr; rewrite Hl1 in Hr.
  - lia.
  - pose proof (place_top (length out) ltac:(lia)) as Hp. exists out1. cbn [Nat.eqb]. rewrite Hl1.
    replace (S fuel - 1)%nat with fuel by lia. split; [done|]. split; [done|]. lia.
  - lia.
  - cbn [Nat.eqb]. replace (S idx - 1)%nat with idx by lia. pose proof (place_pred (length out) idx ltac:(lia)) as Hp.
    destruct (IH fuel out1 1) as (out' & -> & Hlen & Ho); rewrite ?Hl1 in *; [lia|lia|lia|lia|]. exists out'.
    replace (S fuel - S (S idx))%nat with (fuel - S idx)%nat by lia. split; [done|]. split; [lia|]. lia.
Qed.
(** One's complement addition below [2 ^ n]. *)
Definition ones_add (m a b : Z) : Z := if a + b <? m then a + b else a + b - m + 1.
Lemma add_carry_eq {E} idx fuel (out : bytes) c : (idx < length out)%nat -> (2 * length out <= fuel)%nat -> 0 < c < 256 ->
  exists out', @add_carry E fuel out idx c = Ok out' /\ length out' = length out
    /\ of_be out' = ones_add (256 ^ Z.of_nat (length out)) (of_be out) (c * 256 ^ Z.of_nat (length out - 1 - idx)).
Proof.
  intros Hi Hf Hc. unfold ones_add. destruct (Z.ltb_spec (of_be out + c * 256 ^ Z.of_nat (length out - 1 - idx)) (256 ^ Z.of_nat (length out))) as [Hlt|Hge].
  - apply add_carry_low; [done|lia|done|done].
  - destruct (add_carry_wrap (E:=E) idx fuel out c) as (out1 & -> & Hl1 & H1); [done|lia|done|done|].
    pose proof (of_be_range out) as Hr. pose proof (place_top (length out) ltac:(lia)) as Hp.
    assert (256 ^ Z.of_nat (length out - 1 - idx) <= 256 ^ Z.of_nat (length out - 1 - 0)) as Hmono by (apply Z.pow_le_mono_r; lia).
    destruct (add_carry_low (E:=E) (length out - 1) (fuel - S idx) out1 1) as (out' & -> & Hl' & H'); rewrite ?Hl1 in *; [lia|lia|lia| |].
    + replace (length out - 1 - (length out - 1))%nat with 0%nat by lia. change (256 ^ Z.of_nat 0) with 1. pose proof (Z.pow_pos_nonneg 256 (Z.of_nat (length out - 1 - 0))). nia.
    + exists out'. split; [done|]. split; [done|]. rewrite H', H1. replace (length out - 1 - (length out - 1))%nat with 0%nat by lia.
      change (256 ^ Z.of_nat 0) with 1. lia.
Qed.

(** ** The folded value

    The bits of a byte string, most significant first; the input stretched by
    repeating every bit; and the sum of its [outbits]-bit blocks read as
    big-endian numbers. *)
Definition byte_bits (b : byte) : list bool := map (fun i => Z.testbit (b2z b) (7 - Z.of_nat i)) (seq 0 8).
Definition bits_of (l : bytes) : list bool := l ≫= byte_bits.
Definition stretch (r : nat) (l : bytes) : list bool := bits_of l ≫= replicate r.
Fixpoint block_sum (outbits k : Z) (bits : list bool) : Z :=
  match bits with
  | [] => 0
  | b :: bits => (if b then 2 ^ (outbits - 1 - k mod outbits) else 0) + block_sum outbits (k + 1) bits
  end.
(** The representative of a sum in one's complement: only 0 is 0. *)
Definition ones_norm (m s : Z) : Z := if s =? 0 then 0 else (s - 1) mod (m - 1) + 1.

Lemma ones_norm_range m s : 1 < m -> 0 <= s -> 0 <= ones_norm m s < m.
Proof. intros Hm Hs. unfold ones_norm. destruct (s =? 0); [lia|]. pose proof (Z.mod_pos_bound (s - 1) (m - 1)). lia. Qed.
Lemma ones_add_norm m s w : 1 < m -> 0 <= s -> 0 < w < m -> ones_add m (ones_norm m s) w = ones_norm m (s + w).
Proof.
  intros Hm Hs Hw. unfold ones_add, ones_norm. rewrite (proj2 (Z.eqb_neq (s + w) 0)) by lia. destruct (Z.eqb_spec s 0) as [->|Hne].
  - rewrite (proj2 (Z.ltb_lt _ _)) by lia. rewrite Z.add_0_l, Z.mod_small by lia. lia.
  - pose proof (Z.mod_pos_bound (s - 1) (m - 1) ltac:(lia)) as Ha. set (a := (s - 1) mod (m - 1)) in *.
    assert ((s + w - 1) mod (m - 1) = (a + w) mod (m - 1)) as ->.
    { unfold a. rewrite Zplus_mod_idemp_l. f_equal. lia. }
    destruct (Z.ltb_spec (a + 1 + w) m).
    + rewrite Z.mod_small by lia. lia.
    + rewrite <-(Z.mod_unique (a + w) (m - 1) 1 (a + w - (m - 1))); lia.
Qed.

Lemma lookup_group {A B} (f : A -> list B) r (l : list A) k : (0 < r)%nat -> (forall x, length (f x) = r) ->
  (l ≫= f) !! k = l !! (k / r)%nat ≫= fun x => f x !! (k mod r)%nat.
Proof.
  intros Hr Hf. revert k. induction l as [|x l IH]; intros k; [done|]. cbn [mbind list_bind].
  destruct (Nat.lt_ge_cases k r) as [Hk|Hk].
  - rewrite lookup_app_l by (rewrite Hf; lia). by rewrite Nat.div_small, Nat.mod_small by lia.
  - rewrite lookup_app_r by (rewrite Hf; lia). rewrite Hf. change (list_bind A B f l) with (l ≫= f). rewrite IH.
    replace (k / r)%nat with (S ((k - r) / r)). 2: { replace k with (k - r + 1 * r)%nat at 2 by lia. rewrite Nat.div_add by lia. lia. }
    replace (k mod r)%nat with ((k - r) mod r)%nat; [done|]. replace k with (k - r + 1 * r)%nat at 2 by lia. by rewrite Nat.Div0.mod_add.
Qed.
Lemma length_group {A B} (f : A -> list B) r (l : list A) : (forall x, length (f x) = r) -> length (l ≫= f) = (length l * r)%nat.
Proof. intros Hf. induction l as [|x l IH]; [done|]. cbn [mbind list_bind]. rewrite length_app, Hf. change (list_bind A B f l) with (l ≫= f). rewrite IH. cbn [length]. lia. Qed.
Lemma lookup_bits l i : bits_of l !! i = (fun b => Z.testbit (b2z b) (7 - Z.of_nat (i mod 8))) <$> l !! (i / 8)%nat.
Proof.
  unfold bits_of. rewrite (lookup_group _ 8) by (done || lia). destruct (l !! (i / 8)%nat) as [b|]; [|done]. cbn [mbind option_bind fmap option_fmap option_map].
  assert (i mod 8 < 8)%nat as Hi by (apply Nat.mod_upper_bound; lia). destruct (i mod 8)%nat as [|[|[|[|[|[|[|[|m]]]]]]]]; try reflexivity; lia.
Qed.
Lemma lookup_stretch r l k : (0 < r)%nat -> stretch r l !! k = bits_of l !! (k / r)%nat.
Proof.
  intros Hr. unfold stretch. rewrite (lookup_group _ r) by (done || (intros; apply length_replicate)).
  destruct (bits_of l !! (k / r)%nat) as [b|]; [|done]. cbn. by apply lookup_replicate_2, Nat.mod_upper_bound; lia.
Qed.
Lemma length_stretch r l : length (stretch r l) = (8 * length l * r)%nat.
Proof. unfold stretch. rewrite (length_group _ r) by (intros; apply length_replicate). unfold bits_of. rewrite (length_group _ 8) by done. lia. Qed.
Lemma testbit_mask b j : 0 <= j -> (Z.land (Z.shiftr b j) 1 =? 0) = negb (Z.testbit b j).
Proof.
  intros Hj. change 1 with (Z.ones 1). rewrite Z.land_ones, Z.shiftr_div_pow2 by lia. change (2 ^ 1) with 2. rewrite Z.testbit_odd, Z.shiftr_div_pow2, Zmod_odd by lia.
  by destruct (Z.odd _).
Qed.

Section Fold.
Context (E : Type) (input : bytes) (n r : nat).
Abbreviation inbits := (8 * Z.of_nat (length input)).
Abbreviation outbits := (8 * Z.of_nat n).
Context (Hin : (0 < length input)%nat) (Hn : (0 < n)%nat) (Hr : (0 < r)%nat).
Abbreviation L := (inbits * Z.of_nat r).
Context (Hlt : inbits * L < 2 ^ 64).

Lemma nfold_round_eq k (out : bytes) s : 0 <= k < L -> length out = n -> 0 <= s -> of_be out = ones_norm (2 ^ outbits) s ->
  exists (bit : bool) (out' : bytes), stretch r input !! Z.to_nat k = Some bit /\ @nfold_round E input inbits outbits L k out = Ok out' /\ length out' = n
    /\ of_be out' = ones_norm (2 ^ outbits) (s + (if bit then 2 ^ (outbits - 1 - k mod outbits) else 0)).
Proof using Hin Hn Hr Hlt.
  intros Hk Hlen Hs Hout. unfold nfold_round, uint_mul. rewrite (proj2 (Z.ltb_lt _ _)) by nia. cbn [rbind].
  assert (k * inbits / L = k / Z.of_nat r) as Hdiv by (rewrite Z.mul_comm, Z.div_mul_cancel_l by lia; done).
  assert (k / Z.of_nat r < inbits) as Hq by (apply Z.div_lt_upper_bound; lia). assert (0 <= k / Z.of_nat r) as Hq0 by (apply Z.div_pos; lia).
  rewrite Hdiv, Z.mod_small by lia. rewrite lookup_stretch, lookup_bits by done.
  assert (Z.to_nat k / r = Z.to_nat (k / Z.of_nat r))%nat as Hd1 by (rewrite Z2Nat.inj_div, Nat2Z.id by lia; done). rewrite Hd1.
  set (q := k / Z.of_nat r) in *. replace (Z.to_nat (q / 8)) with (Z.to_nat q / 8)%nat by (rewrite Z2Nat.inj_div by lia; done).
  assert (Z.to_nat q / 8 < length input)%nat as Hi by (apply Nat.Div0.div_lt_upper_bound; lia).
  destruct (lookup_lt_is_Some_2 input _ Hi) as [b Hb]. rewrite Hb. cbn [fmap option_fmap option_map].
  pose proof (Z.mod_pos_bound q 8 ltac:(lia)) as Hm. rewrite testbit_mask by lia. rewrite Nat2Z.inj_mod, Z2Nat.id by lia. change (Z.of_nat 8) with 8.
  exists (Z.testbit (b2z b) (7 - q mod 8)). destruct (Z.testbit _ _); cbn [negb].
  2: { exists out. by rewrite Z.add_0_r. }
  pose proof (Z.mod_pos_bound k outbits ltac:(lia)) as Hp. set (p := k mod outbits) in *. pose proof (Z.mod_pos_bound p 8 ltac:(lia)) as Hp8.
  assert (p / 8 < Z.of_nat n) as Hb8 by (apply Z.div_lt_upper_bound; lia). assert (0 <= p / 8) by (apply Z.div_pos; lia).
  rewrite Z.shiftl_mul_pow2, Z.mul_1_l by lia.
  assert (0 < 2 ^ (7 - p mod 8) < 256) as Hc by (split; [lia|apply (Z.pow_lt_mono_r 2 _ 8); lia]).
  destruct (add_carry_eq (E:=E) (Z.to_nat (p / 8)) (2 * length out) out (2 ^ (7 - p mod 8))) as (out' & -> & Hl' & Ho'); [lia|lia|done|].
  exists out'. split; [done|]. split; [done|]. split; [lia|]. rewrite Ho', Hout, Hlen.
  replace (256 ^ Z.of_nat n) with (2 ^ outbits) by (rewrite Z.pow_mul_r by lia; done).
  replace (2 ^ (7 - p mod 8) * 256 ^ Z.of_nat (n - 1 - Z.to_nat (p / 8))) with (2 ^ (outbits - 1 - p)).
  { apply ones_add_norm; [apply (Z.pow_lt_mono_r 2 0); lia|lia|]. split; [lia|]. apply Z.pow_lt_mono_r; lia. }
  change 256 with (2 ^ 8). rewrite <-Z.pow_mul_r, <-Z.pow_add_r by lia. f_equal. pose proof (Z.div_mod p 8). lia.
Qed.
Lemma nfold_loop_eq rounds k (out : bytes) s : 0 <= k -> k + Z.of_nat rounds = L -> length out = n -> 0 <= s ->
  of_be out = ones_norm (2 ^ outbits) s ->
  exists out', @nfold_loop E rounds input inbits outbits L k out = Ok out' /\ length out' = n
    /\ of_be out' = ones_norm (2 ^ outbits) (s + block_sum outbits k (drop (Z.to_nat k) (stretch r input))).
Proof using Hin Hn Hr Hlt.
  revert k out s. induction rounds as [|rounds IH]; intros k out s Hk Hsum Hlen Hs Hout.
  - exists out. cbn [nfold_loop]. split; [done|]. split; [done|]. rewrite drop_ge by (rewrite length_stretch; lia). cbn [block_sum]. by rewrite Z.add_0_r.
  - destruct (nfold_round_eq k out s) as (bit & out1 & Hb & H1 & Hl1 & Ho1); [lia|done|done|done|].
    assert (0 <= (if bit then 2 ^ (outbits - 1 - k mod outbits) else 0)) as Hw by (destruct bit; [apply Z.pow_nonneg; lia|done]).
    destruct (IH (k + 1) out1 (s + (if bit then 2 ^ (outbits - 1 - k mod outbits) else 0))) as (out' & H2 & Hl2 & Ho2); [lia|lia|done|lia|done|].
    exists out'. cbn [nfold_loop]. rewrite H1. cbn [rbind]. split; [done|]. split; [done|]. rewrite Ho2, (drop_S _ _ _ Hb). cbn [block_sum].
    replace (Z.to_nat (k + 1)) with (S (Z.to_nat k)) by lia. f_equal. lia.
Qed.
End Fold.

Lemma of_be_zeros n : of_be (replicate n x00) = 0.
Proof. induction n as [|n IH]; [done|]. cbn [replicate]. rewrite of_be_cons, IH. done. Qed.
Lemma nfold_eq {E} (input : bytes) (n r : nat) : (0 < length input)%nat -> (0 < n)%nat ->
  let inbits := 8 * Z.of_nat (length input) in let outbits := 8 * Z.of_nat n in
  Z.lcm inbits outbits = inbits * Z.of_nat r -> inbits * (inbits * outbits) < 2 ^ 64 ->
  exists out, @nfold E input outbits = Ok out /\ length out = n /\ of_be out = ones_norm (2 ^ outbits) (block_sum outbits 0 (stretch r input)).
Proof.
  intros Hin Hn inbits outbits Hlcm Hlt. assert (0 < inbits /\ 0 < outbits) as [Hi0 Ho0] by lia.
  assert (0 < r)%nat as Hr. { destruct r; [|lia]. assert (Z.lcm inbits outbits <> 0) by (rewrite Z.lcm_eq_0; lia). lia. }
  assert (inbits * Z.of_nat r <= inbits * outbits) as Hle.
  { rewrite <-Hlcm. apply Z.divide_pos_le; [nia|]. apply Z.lcm_least; [apply Z.divide_factor_l|apply Z.divide_factor_r]. }
  unfold nfold. rewrite (proj2 (Z.ltb_lt 0 outbits)) by lia. unfold outbits at 1. rewrite (Z.mul_comm 8), Z.mod_mul by lia. cbn [Z.eqb andb negb].
  unfold uint_checked_mul. rewrite (proj2 (Z.ltb_lt _ _)) by nia. replace (Z.of_nat (length input) * 8) with inbits by lia. rewrite (proj2 (Z.eqb_neq inbits 0)) by lia.
  rewrite lcm_Ok by nia. cbn [rbind]. rewrite Hlcm. replace (Z.to_nat (Z.of_nat n * 8 / 8)) with n by (rewrite Z.div_mul by lia; lia).
  replace (Z.to_nat (outbits / 8)) with n by (unfold outbits; rewrite Z.mul_comm, Z.div_mul by lia; lia).
  destruct (nfold_loop_eq E input n r Hin Hn Hr) with (rounds := Z.to_nat (inbits * Z.of_nat r)) (k := 0) (out := replicate n x00) (s := 0) as (out & H & Hl & Ho);
    [fold inbits; nia|lia|lia|apply length_replicate|lia|by rewrite of_be_zeros|]. exists out. split; [exact H|]. split; [done|]. exact Ho.
Qed.

(** ** Derived keys

    A constant has five bytes of eight bits, and 640 is the least common multiple
    of 40 and 128: every bit is repeated 16 times, so each byte of the constant
    fills one 128-bit block of its own, and the folded value is a sum over the
    bytes that forgets their order. *)
Definition spread (b : byte) : Z := block_sum 128 0 (stretch 16 [b]).
Definition spread_sum (l : bytes) : Z := foldr Z.add 0 (map spread l).

Lemma block_sum_app N k a b : block_sum N k (a ++ b) = block_sum N k a + block_sum N (k + Z.of_nat (length a)) b.
Proof.
  revert k. induction a as [|x a IH]; intros k; cbn [app block_sum length]; [by rewrite Z.add_0_r, Z.add_0_l|].
  rewrite IH. replace (k + 1 + Z.of_nat (length a)) with (k + Z.of_nat (S (length a))) by lia. lia.
Qed.
Lemma block_sum_period N k l : 0 < N -> block_sum N (k + N) l = block_sum N k l.
Proof.
  intros HN. revert k. induction l as [|x l IH]; intros k; [done|]. cbn [block_sum].
  assert ((k + N) mod N = k mod N) as -> by (rewrite <-(Z.mod_add k 1 N) by lia; f_equal; lia). f_equal. transitivity (block_sum N (k + 1 + N) l); [f_equal; lia|apply IH].
Qed.
Lemma block_sum_spread l : block_sum 128 0 (stretch 16 l) = spread_sum l.
Proof.
  induction l as [|b l IH]; [done|]. change (stretch 16 (b :: l)) with (stretch 16 ([b] ++ l)). unfold stretch, bits_of. rewrite !bind_app. fold (bits_of [b]) (bits_of l).
  fold (stretch 16 [b]) (stretch 16 l). rewrite block_sum_app. replace (Z.of_nat (length (stretch 16 [b]))) with 128 by (by rewrite length_stretch).
  rewrite block_sum_period by lia. rewrite IH. done.
Qed.
Lemma spread_sum_perm l l' : l ≡ₚ l' -> spread_sum l = spread_sum l'.
Proof. intros H. unfold spread_sum. induction H; cbn [map foldr]; lia. Qed.
Lemma fold_constant {Er} (c : bytes) : length c = 5%nat ->
  exists f, @nfold Er c (Z.of_nat AES_BLOCK_LEN * 8) = Ok f /\ is_block f /\ of_be f = ones_norm (2 ^ 128) (spread_sum c).
Proof.
  intros Hc. destruct (nfold_eq (E:=Er) c 16 16) as (f & Hf & Hl & Ho); rewrite ?Hc; [lia|lia|reflexivity|reflexivity|].
  exists f. split; [by rewrite Z.mul_comm|]. split; [exact Hl|]. rewrite Ho. by rewrite <-block_sum_spread.
Qed.
Lemma is_block_inj f f' : is_block f -> is_block f' -> of_be f = of_be f' -> f = f'.
Proof. intros Hf Hf' H. by rewrite <-(to_of_be f 16 Hf), <-(to_of_be f' 16 Hf'), H. Qed.
Lemma length_constant u tag : length (derivation_constant u tag) = 5%nat.
Proof. unfold derivation_constant. by rewrite length_app, length_to_be. Qed.

Lemma xor_block_iv f : is_block f -> xor_block f zero_iv = f.
Proof.
  unfold is_block, zero_iv. intros <-. unfold xor_block. induction f as [|x f IH]; [done|]. cbn [length replicate zip_with]. f_equal; [|exact IH].
  unfold byte_xor. change (b2z x00) with 0. by rewrite Z.lxor_0_r, z2b_b2z.
Qed.
Lemma repeat_until_more fuel f indata len : (length indata < len)%nat -> repeat_until (S fuel) f indata len = repeat_until fuel f (indata ++ f) len.
Proof. intros H. cbn [repeat_until]. by rewrite (proj2 (Nat.ltb_lt _ _)). Qed.
Lemma repeat_until_done fuel f indata len : (len <= length indata)%nat -> repeat_until fuel f indata len = indata.
Proof. intros H. destruct fuel; cbn [repeat_until]; [done|]. by rewrite (proj2 (Nat.ltb_ge _ _)). Qed.
Lemma repeat_twice fuel f : is_block f -> (1 < fuel)%nat -> take AES256_KEY_LEN (repeat_until fuel f [] AES256_KEY_LEN) = concat [f; f].
Proof.
  intros Hb Hf. unfold is_block, AES_BLOCK_LEN in Hb. destruct fuel as [|[|fuel]]; [lia|lia|].
  rewrite !repeat_until_more by (rewrite ?length_app, ?Hb; unfold AES256_KEY_LEN; cbn [length]; lia). cbn [app].
  rewrite repeat_until_done by (rewrite length_app, Hb; unfold AES256_KEY_LEN; lia).
  cbn [concat]. rewrite app_nil_r. apply take_ge. rewrite length_app. unfold AES256_KEY_LEN. lia.
Qed.

Section Keys.
Context {Er : Type} (E D : Aes256Key -> bytes -> bytes) (HE : BlockCipher E D) (key : Aes256Key).

Lemma cbc_two f : is_block f ->
  @aes256_cbc_encrypt_zero_iv E Er key (concat [f; f]) = Ok (E key f ++ E key (xor_block f (E key f))).
Proof using HE.
  intros Hb. unfold aes256_cbc_encrypt_zero_iv. assert (Forall is_block [f; f]) as Hbs by (by repeat constructor).
  rewrite (length_concat_blocks _ Hbs), chunks_exact_concat by done. cbn [length]. rewrite Nat.Div0.mod_mul. cbn [Nat.eqb negb cbc_encrypt].
  rewrite xor_block_iv by done. cbn [concat]. by rewrite app_nil_r.
Qed.
Lemma dr_derive_eq c f : @nfold Er c (Z.of_nat AES_BLOCK_LEN * 8) = Ok f -> is_block f ->
  @dr_derive E Er key c = Ok (E key f ++ E key (xor_block f (E key f))).
Proof using HE.
  intros Hf Hb. unfold dr_derive. rewrite Hf. cbn [rbind]. rewrite repeat_twice by (done || (unfold AES256_KEY_LEN; lia)). rewrite cbc_two by done. cbn [rbind].
  assert (is_block (E key f)) as H1 by (by apply (encrypt_is_block _ _ HE)).
  assert (is_block (E key (xor_block f (E key f)))) as H2 by (by apply (encrypt_is_block _ _ HE), xor_is_block).
  unfold is_block, AES_BLOCK_LEN in H1, H2.
  assert (length (E key f ++ E key (xor_block f (E key f))) = AES256_KEY_LEN) as Hl by (rewrite length_app, H1, H2; done).
  rewrite slice_Ok by lia. rewrite Nat.sub_0_r, drop_0, take_ge by lia. done.
Qed.
Lemma derived_length u tag : exists k, @dr_derive E Er key (derivation_constant u tag) = Ok k /\ length k = AES256_KEY_LEN.
Proof using HE.
  destruct (fold_constant (Er:=Er) _ (length_constant u tag)) as (f & Hf & Hb & _). eexists. split; [by apply dr_derive_eq|].
  rewrite length_app, !(encrypt_is_block _ _ HE); [done|apply xor_is_block; [done|by apply (encrypt_is_block _ _ HE)]|done].
Qed.
(** Two constants give the same key exactly when their folded values agree. *)
Lemma derived_eq_iff u tag u' tag' :
  @dr_derive E Er key (derivation_constant u tag) = dr_derive E key (derivation_constant u' tag') <->
  ones_norm (2 ^ 128) (spread_sum (derivation_constant u tag)) = ones_norm (2 ^ 128) (spread_sum (derivation_constant u' tag')).
Proof using HE.
  destruct (fold_constant (Er:=Er) _ (length_constant u tag)) as (f & Hf & Hb & Ho).
  destruct (fold_constant (Er:=Er) _ (length_constant u' tag')) as (f' & Hf' & Hb' & Ho').
  rewrite (dr_derive_eq _ _ Hf Hb), (dr_derive_eq _ _ Hf' Hb'), <-Ho, <-Ho'. split.
  - intros H%Ok_inj. apply app_inj_1 in H as [H _]; [|by rewrite !(encrypt_is_block _ _ HE)].
    rewrite <-(decrypt_encrypt_block _ _ HE key f Hb), H, (decrypt_encrypt_block _ _ HE) by done. done.
  - intros H. by rewrite (is_block_inj f f').
Qed.
End Keys.

(** The usages below 255, by computation on their folded values. *)
Definition usage_value (tag : byte) (u : nat) : Z := ones_norm (2 ^ 128) (spread (z2b (Z.of_nat u)) + spread tag).
Definition spread_table : list (nat * Z) := map (fun u => (u, spread (z2b (Z.of_nat u)))) (seq 0 255).
Definition usage_table (tag : byte) (spreads : list (nat * Z)) : list (nat * Z) :=
  let t := spread tag in map (fun p => (p.1, ones_norm (2 ^ 128) (p.2 + t))) spreads.
Definition tables_agree (same : nat -> nat -> bool) (l l' : list (nat * Z)) : bool :=
  forallb (fun p => forallb (fun q => eqb (p.2 =? q.2) (same p.1 q.1)) l') l.
Lemma table_checks :
  (let spreads := spread_table in let ke := usage_table KE_TAG spreads in let ki := usage_table KI_TAG spreads in
   tables_agree Nat.eqb ke ke && tables_agree Nat.eqb ki ki && tables_agree (fun u u' => (u =? 0x55)%nat && (u' =? 0xAA)%nat) ke ki) = true.
Proof. vm_compute. reflexivity. Qed.
Lemma in_usage_table tag u : (u < 255)%nat -> In (u, usage_value tag u) (usage_table tag spread_table).
Proof.
  intros Hu. unfold usage_table. apply in_map_iff. exists (u, spread (z2b (Z.of_nat u))). split; [done|].
  apply in_map_iff. exists u. split; [done|]. apply in_seq. lia.
Qed.
Lemma tables_agree_spec same tag tag' u u' : tables_agree same (usage_table tag spread_table) (usage_table tag' spread_table) = true ->
  (u < 255)%nat -> (u' < 255)%nat -> usage_value tag u = usage_value tag' u' <-> same u u' = true.
Proof.
  unfold tables_agree. rewrite forallb_forall. intros H Hu Hu'. specialize (H (u, usage_value tag u)). rewrite forallb_forall in H.
  specialize (H (in_usage_table _ _ Hu) (u', usage_value tag' u') (in_usage_table _ _ Hu')). cbn [fst snd] in H. apply eqb_prop in H. rewrite <-H. by rewrite Z.eqb_eq.
Qed.
Lemma constant_u8 u tag : is_u8 u -> spread_sum (derivation_constant u tag) = spread (z2b (Z.of_nat (Z.to_nat u))) + spread tag.
Proof.
  intros Hu. assert (derivation_constant u tag = [x00; x00; x00; z2b u; tag]) as ->.
  { unfold derivation_constant. change [x00; x00; x00; z2b u; tag] with ([x00; x00; x00; z2b u] ++ [tag]). f_equal.
    rewrite <-(to_of_be [x00; x00; x00; z2b u] 4 eq_refl). f_equal.
    rewrite !of_be_cons. cbn [length]. change (b2z x00) with 0. rewrite b2z_z2b, Z.mod_small by (unfold is_uint in Hu; lia). change (of_be []) with 0. change (256 ^ Z.of_nat 0) with 1. lia. }
  rewrite Z2Nat.id by apply Hu. unfold spread_sum. cbn [map foldr]. change (spread x00) with 0. lia.
Qed.

(** Folding is the one's complement sum of the blocks of the stretched
    input: on any non-empty input (of a size whose bit counts fit a machine word)
    it returns, without a panic and after finitely many carries, the value of the
    requested length that represents the sum, in blocks of the output width, of
    the input with every bit repeated so that it fills the least common multiple. *)
Theorem nfold_ones_complement (Er : Type) (input : bytes) (n r : nat) : (0 < length input)%nat -> (0 < n)%nat ->
  let inbits := 8 * Z.of_nat (length input) in let outbits := 8 * Z.of_nat n in
  Z.lcm inbits outbits = inbits * Z.of_nat r -> inbits * (inbits * outbits) < 2 ^ 64 ->
  exists out, @nfold Er input outbits = Ok out /\ length out = n /\ of_be out = ones_norm (2 ^ outbits) (block_sum outbits 0 (stretch r input)).
Proof. apply nfold_eq. Qed.
Lemma nfold_ones_complement_witness : exists out, @nfold unit (lit "012345") 64 = Ok out /\ of_be out = 0x02fd0ff002fd101d.
Proof.
  destruct (nfold_ones_complement unit (lit "012345") 8 4) as (out & H1 & _ & H2); [by vm_compute; lia|lia|reflexivity|reflexivity|].
  exists out. split; [exact H1|]. rewrite H2. reflexivity.
Defined.

(** C34: Key separation, for any block cipher: below 255 the encryption keys of
    different usages differ, so do the integrity keys, and an encryption key is
    an integrity key only for the usages 0x55 and 0xAA; all of them have 32
    bytes.  But usages with the same four bytes in another order always get the
    same keys, and so do the usages 0 and 255. *)
Theorem derived_keys_separate (Er : Type) (E D : Aes256Key -> bytes -> bytes) (key : Aes256Key) (u u' w w' : Z) :
  BlockCipher E D -> 0 <= u < 255 -> 0 <= u' < 255 -> to_be 4 w ≡ₚ to_be 4 w' ->
  let ke := @derive_encryption_key E Er key in let ki := @derive_integrity_key E Er key in
  (exists k k', ke u = Ok k /\ ki u = Ok k' /\ length k = AES256_KEY_LEN /\ length k' = AES256_KEY_LEN)
  /\ (ke u = ke u' <-> u = u') /\ (ki u = ki u' <-> u = u') /\ (ke u = ki u' <-> u = 0x55 /\ u' = 0xAA)
  /\ ke w = ke w' /\ ki w = ki w' /\ ke 0 = ke 255 /\ ki 0 = ki 255.
Proof.
  intros HE Hu Hu' Hw. cbv zeta. unfold derive_encryption_key, derive_integrity_key. rewrite !(derived_eq_iff E D HE).
  rewrite !constant_u8 by (unfold is_uint; lia). destruct (proj1 (andb_true_iff _ _) table_checks) as [[T1 T2]%andb_true_iff T3]. assert (Z.to_nat u < 255 /\ Z.to_nat u' < 255)%nat as [H1 H2] by lia.
  destruct (derived_length (Er:=Er) E D HE key u KE_TAG) as (k & Hk & Hl). destruct (derived_length (Er:=Er) E D HE key u KI_TAG) as (k' & Hk' & Hl').
  fold (usage_value KE_TAG (Z.to_nat u)) (usage_value KE_TAG (Z.to_nat u')) (usage_value KI_TAG (Z.to_nat u)) (usage_value KI_TAG (Z.to_nat u')).
  rewrite (tables_agree_spec _ _ _ _ _ T1 H1 H2), (tables_agree_spec _ _ _ _ _ T2 H1 H2), (tables_agree_spec _ _ _ _ _ T3 H1 H2).
  rewrite andb_true_iff, !Nat.eqb_eq. split; [exists k, k'; exact (conj Hk (conj Hk' (conj Hl Hl')))|]. split; [lia|]. split; [lia|]. split; [lia|].
  split; [f_equal; apply spread_sum_perm; by apply Permutation_app|]. split; [f_equal; apply spread_sum_perm; by apply Permutation_app|].
  split; vm_compute; reflexivity.
Qed.
Lemma derived_keys_separate_witness :
  @derive_encryption_key rotate_block unit (replicate 32 x07) 1 <> derive_encryption_key rotate_block (replicate 32 x07) 3
  /\ @derive_encryption_key rotate_block unit (replicate 32 x07) 1 = derive_encryption_key rotate_block (replicate 32 x07) 0x100.
Proof.
  destruct (derived_keys_separate unit rotate_block rotate_block (replicate 32 x07) 1 3 1 0x100) as (_ & H & _ & _ & H' & _).
  - apply rotate_block_cipher.
  - lia.
  - lia.
  - apply (bool_decide_unpack _). vm_compute. exact I.
  - split; [|exact H']. intros Hk. apply H in Hk. lia.
Defined.
