(* ===== verification/Hsm.v ===== *)
(** * Hsm: the key store ([adrian-hsm])

    The [Hsm] trait as a type class over a state, and its software
    implementation.  The operating system's random numbers are an argument of the
    operations that draw them; AES-256-GCM of the crate [ring] and HMAC-SHA1 are
    parameters. *)
From S2P Require Import Prelude Bytes Text KdcCrypto.

Inductive KeyType := Aes256 | HmacSha1 | Rsa2048.
#[global] Instance KeyType_eq_dec : EqDecision KeyType.
Proof. solve_decision. Defined.
(** The messages of [HsmError::Unsupported] and [HsmError::Crypto]. *)
Inductive HsmProblem :=
| RsaNotImplemented
| VersionMismatch (handle store : Z)
| CannotSign
| CannotEncrypt
| CannotDecrypt
| RandomFillFailed
| GcmSealFailed
| GcmOpenFailed
| HsmCiphertextTooShort.
Inductive HsmError :=
| HsmPkcs11 (text : bytes)
| HsmNotFound (id : bytes)
| HsmUnsupported (p : HsmProblem)
| HsmCrypto (p : HsmProblem).
#[global] Instance HsmProblem_eq_dec : EqDecision HsmProblem.
Proof. solve_decision. Defined.
#[global] Instance HsmError_eq_dec : EqDecision HsmError.
Proof. solve_decision. Defined.

Record KeyHandle := mkKeyHandle { kh_id : bytes; kh_version : Z; kh_type : KeyType }.
#[global] Instance KeyHandle_eq_dec : EqDecision KeyHandle.
Proof. solve_decision. Defined.

(** A draw of [len] random bytes, if the generator works. *)
Definition Entropy : Type := nat -> option bytes.

(** The trait; [generate_key], [encrypt] and [rotate_key] draw random bytes. *)
Class Hsm (S : Type) := {
  hsm_generate_key : Entropy -> S -> bytes -> KeyType -> Result HsmError KeyHandle * S;
  hsm_sign : S -> KeyHandle -> bytes -> Result HsmError bytes;
  hsm_verify : S -> KeyHandle -> bytes -> bytes -> Result HsmError bool;
  hsm_encrypt : Entropy -> S -> KeyHandle -> bytes -> Result HsmError bytes;
  hsm_decrypt : S -> KeyHandle -> bytes -> Result HsmError bytes;
  hsm_rotate_key : Entropy -> S -> bytes -> Result HsmError KeyHandle * S;
}.

Record KeyEntry := mkKeyEntry { ke_type : KeyType; ke_material : bytes; ke_version : Z }.
Definition SoftwareHsm : Type := gmap bytes KeyEntry.
Definition SoftwareHsm_new : SoftwareHsm := ∅.
Definition key_len (t : KeyType) : nat := match t with Aes256 => 32 | HmacSha1 => 20 | Rsa2048 => 0 end.
Definition hsm_random_bytes (rnd : Entropy) (len : nat) : Result HsmError bytes := ok_or (rnd len) (HsmCrypto RandomFillFailed).

Definition generate_key (rnd : Entropy) (keys : SoftwareHsm) (key_id : bytes) (t : KeyType) : Result HsmError KeyHandle * SoftwareHsm :=
  if bool_decide (t = Rsa2048) then (Err (HsmUnsupported RsaNotImplemented), keys)
  else
    match keys !! key_id with
    | Some existing => (Ok (mkKeyHandle key_id (ke_version existing) (ke_type existing)), keys)
    | None =>
        match hsm_random_bytes rnd (key_len t) with
        | Ok material => (Ok (mkKeyHandle key_id 1 t), <[key_id := mkKeyEntry t material 1]> keys)
        | Err e => (Err e, keys)
        | Panic => (Panic, keys)
        end
    end.
(** The lookup and the version check every use of a handle starts with. *)
Definition key_entry (keys : SoftwareHsm) (h : KeyHandle) : Result HsmError KeyEntry :=
  let? entry := ok_or (keys !! kh_id h) (HsmNotFound (kh_id h)) in
  if negb (ke_version entry =? kh_version h) then Err (HsmUnsupported (VersionMismatch (kh_version h) (ke_version entry))) else Ok entry.
Definition rotate_key (rnd : Entropy) (keys : SoftwareHsm) (key_id : bytes) : Result HsmError KeyHandle * SoftwareHsm :=
  match keys !! key_id with
  | None => (Err (HsmNotFound key_id), keys)
  | Some entry =>
      if bool_decide (ke_type entry = Rsa2048) then (Err (HsmUnsupported RsaNotImplemented), keys)
      else
        match hsm_random_bytes rnd (key_len (ke_type entry)) with
        | Ok material =>
            let version := u32_saturating_add (ke_version entry) 1 in
            (Ok (mkKeyHandle key_id version (ke_type entry)), <[key_id := mkKeyEntry (ke_type entry) material version]> keys)
        | Err e => (Err e, keys)
        | Panic => (Panic, keys)
        end
  end.

Section Software.
Context (hmac_sha1 : bytes -> bytes -> bytes) (gcm_seal gcm_open : bytes -> bytes -> bytes -> option bytes).

Definition sign (keys : SoftwareHsm) (h : KeyHandle) (data : bytes) : Result HsmError bytes :=
  let? entry := key_entry keys h in
  match ke_type entry with
  | HmacSha1 => Ok (take 12 (hmac_sha1 (ke_material entry) data))
  | Aes256 => Err (HsmUnsupported CannotSign)
  | Rsa2048 => Err (HsmUnsupported RsaNotImplemented)
  end.
(** [diff |= expected[i] ^ signature[i]] over the common length. *)
Definition byte_diff (expected signature : bytes) : Z :=
  fold_left Z.lor (zip_with (fun a b => Z.lxor (b2z a) (b2z b)) expected signature) 0.
Definition verify (keys : SoftwareHsm) (h : KeyHandle) (data signature : bytes) : Result HsmError bool :=
  let? expected := sign keys h data in
  let diff := Z.lor (byte_diff expected signature) (if (length expected =? length signature)%nat then 0 else 1) in
  Ok (diff =? 0).
Definition aes_256_gcm_encrypt (rnd : Entropy) (key plaintext : bytes) : Result HsmError bytes :=
  let? nonce := hsm_random_bytes rnd 12 in
  let? buf := ok_or (gcm_seal key nonce plaintext) (HsmCrypto GcmSealFailed) in
  Ok (nonce ++ buf).
Definition aes_256_gcm_decrypt (key ciphertext : bytes) : Result HsmError bytes :=
  if (length ciphertext <? 12 + 16)%nat then Err (HsmCrypto HsmCiphertextTooShort)
  else ok_or (gcm_open key (take 12 ciphertext) (drop 12 ciphertext)) (HsmCrypto GcmOpenFailed).
Definition encrypt (rnd : Entropy) (keys : SoftwareHsm) (h : KeyHandle) (plaintext : bytes) : Result HsmError bytes :=
  let? entry := key_entry keys h in
  match ke_type entry with
  | Aes256 => aes_256_gcm_encrypt rnd (ke_material entry) plaintext
  | HmacSha1 => Err (HsmUnsupported CannotEncrypt)
  | Rsa2048 => Err (HsmUnsupported RsaNotImplemented)
  end.
Definition decrypt (keys : SoftwareHsm) (h : KeyHandle) (ciphertext : bytes) : Result HsmError bytes :=
  let? entry := key_entry keys h in
  match ke_type entry with
  | Aes256 => aes_256_gcm_decrypt (ke_material entry) ciphertext
  | HmacSha1 => Err (HsmUnsupported CannotDecrypt)
  | Rsa2048 => Err (HsmUnsupported RsaNotImplemented)
  end.
Definition SoftwareHsm_hsm : Hsm SoftwareHsm := {|
  hsm_generate_key := generate_key; hsm_sign := sign; hsm_verify := verify; hsm_encrypt := encrypt; hsm_decrypt := decrypt;
  hsm_rotate_key := rotate_key |}.
End Software.

(** ** Lemmas *)

Lemma fold_lor_zero l acc : 0 <= acc -> Forall (fun x => 0 <= x) l -> fold_left Z.lor l acc = 0 <-> acc = 0 /\ Forall (fun x => x = 0) l.
Proof.
  intros Hacc Hl. revert acc Hacc. induction Hl as [|x l Hx _ IH]; intros acc Hacc; cbn [fold_left]; [naive_solver|].
  rewrite IH by (apply Z.lor_nonneg; lia). rewrite Z.lor_eq_0_iff, Forall_cons. tauto.
Qed.
Lemma byte_diff_zero a b : length a = length b -> byte_diff a b = 0 <-> a = b.
Proof.
  intros Hl. unfold byte_diff. rewrite fold_lor_zero; [|lia|].
  - split; [intros [_ H]|intros ->].
    + revert b Hl H. induction a as [|x a IH]; intros [|y b] Hl H; try done. cbn [zip_with] in H. apply Forall_cons in H as [Hx H].
      apply Z.lxor_eq in Hx. apply (inj b2z) in Hx as ->. f_equal. apply IH; [by injection Hl|done].
    + split; [done|]. clear Hl. induction b as [|y b IH]; constructor; [apply Z.lxor_nilpotent|done].
  - clear. revert b. induction a as [|x a IH]; intros [|y b]; constructor; [apply b2z_lxor_range|apply IH].
Qed.
(** [verify] accepts exactly the signature [sign] makes. *)
Lemma verify_iff hmac_sha1 keys h data signature :
  verify hmac_sha1 keys h data signature = let? expected := sign hmac_sha1 keys h data in Ok (bool_decide (expected = signature)).
Proof.
  unfold verify. destruct (sign hmac_sha1 keys h data) as [expected|e|]; cbn [rbind]; [|done|done]. f_equal. symmetry.
  destruct (Nat.eqb_spec (length expected) (length signature)) as [Hl|Hl].
  - rewrite Z.lor_0_r. destruct (Z.eqb_spec (byte_diff expected signature) 0) as [H|H]; [apply bool_decide_eq_true_2|apply bool_decide_eq_false_2]; by rewrite <-byte_diff_zero.
  - rewrite bool_decide_eq_false_2 by (intros ->; lia). symmetry. apply Z.eqb_neq. rewrite Z.lor_eq_0_iff. lia.
Qed.
