(* ===== verification/Kdc.v ===== *)
(** * Kdc: the vocabulary of the Kerberos KDC ([adrian-kdc], [lib.rs])

    Encryption types, and errors.  Error messages are
    constructors with the values they interpolate. *)
From S2P Require Import Prelude Bytes Text StorageKeys SidModel KdcCrypto Hsm.

(** [EType], with its discriminants. *)
Inductive EType :=
| Rc4Hmac
| Aes128CtsHmacSha1_96
| Aes256CtsHmacSha1_96
| Aes128CtsHmacSha256_128
| Aes256CtsHmacSha384_192.
#[global] Instance EType_eq_dec : EqDecision EType.
Proof. solve_decision. Defined.
Definition EType_u32 (e : EType) : Z :=
  match e with
  | Rc4Hmac => 23
  | Aes128CtsHmacSha1_96 => 17
  | Aes256CtsHmacSha1_96 => 18
  | Aes128CtsHmacSha256_128 => 19
  | Aes256CtsHmacSha384_192 => 20
  end.

(** The fields of a logon information buffer that can be cut off. *)
Inductive LogonField :=
| LFHeader | LFEffectiveName | LFUserName | LFDomainName | LFUserId | LFGroupsCount | LFGroups | LFServer | LFSid.
#[global] Instance LogonField_eq_dec : EqDecision LogonField.
Proof. solve_decision. Defined.

(** The messages of [KdcError::Pac]. *)
Inductive PacProblem :=
| ReadPastEnd (width offset len : nat)
| LogonTruncated (f : LogonField)
| LogonGroupsOverflow
| LogonBadSid (e : SidError)
| ClientTruncatedHeader
| ClientTruncatedName
| UpnDnsTruncatedHeader
| UpnOutOfBounds
| DnsOutOfBounds
| RequestorBadSid (e : SidError)
| SignatureTruncatedHeader
| TicketTruncatedHeader
| TicketTruncatedSignature
| PacHeaderTruncated (len : nat)
| PacHeaderType (ul_type : Z)
| PacSizeMismatch (total actual : Z)
| PacHeaderVersion (version : Z)
| BufferHeaderOutOfBounds (i : Z) (off : nat)
| BufferDataOutOfBounds (i offset size : Z) (len : nat)
| MissingChecksum (ty : Z)
| ChecksumTooShort (ty : Z)
| ChecksumMismatch (ty : Z)
| BufferNotFound (ty : Z)
| BufferIndexOutOfRange
| RangeHeaderOutOfBounds
| RangeDataOutOfBounds.
#[global] Instance PacProblem_eq_dec : EqDecision PacProblem.
Proof. solve_decision. Defined.

Inductive DecodeError :=
| UnexpectedEof
| InvalidUtf8
| MagicMismatch (expected actual : Z)
| UnknownEtype (raw : Z)
| InvalidMsgType (t : Z)
| InvalidPvno (v : Z).
#[global] Instance DecodeError_eq_dec : EqDecision DecodeError.
Proof. solve_decision. Defined.

Inductive StoreError := Backend (text : bytes).
#[global] Instance StoreError_eq_dec : EqDecision StoreError.
Proof. solve_decision. Defined.

(** The messages of [KdcError::PreauthFailed]. *)
Inductive PreauthProblem :=
| PreauthHmacMismatch
| PreauthDecryptFailed
| ClockSkew (skew : Z)
| CnameMismatch.
#[global] Instance PreauthProblem_eq_dec : EqDecision PreauthProblem.
Proof. solve_decision. Defined.

(** The fields of a password change request and reply. *)
Inductive KpasswdField := ClientPrincipalField | TargetPrincipalField | MacField | PasswordField | ResultCodeField | ResultStringField.
#[global] Instance KpasswdField_eq_dec : EqDecision KpasswdField.
Proof. solve_decision. Defined.

(** The messages of [KdcError::Policy]. *)
Inductive PolicyProblem := Rc4Disabled | GmsaIntervalOutOfRange (days : Z).
#[global] Instance PolicyProblem_eq_dec : EqDecision PolicyProblem.
Proof. solve_decision. Defined.

(** The messages of [KdcError::Storage]. *)
Inductive StorageProblem :=
| DecodeFailed (e : DecodeError)
| AesEncryptFailed (e : CryptoError)
| AesDecryptFailed (e : CryptoError)
| CipherTooShort (len need : nat)
| RandomFailed
| PrincipalLookupFailed (e : StoreError)
| ServiceLookupFailed (e : StoreError)
| HsmFailed (e : HsmError)
| GenerateKrbtgtFailed (e : HsmError)
| RotateKrbtgtFailed (e : HsmError)
| GenerateKdsRootFailed (e : HsmError)
| SignGmsaFailed (e : HsmError)
| GmsaTooManyRounds
| KpHeaderTooShort
| KpLengthMismatch (header actual : Z)
| KpTruncatedVersion
| KpUnsupportedVersion (v : Z)
| KpTruncatedLength (f : KpasswdField)
| KpTruncatedBody (f : KpasswdField)
| KpNotUtf8 (f : KpasswdField)
| KpVerifyFailed (e : HsmError)
| KpReplay (name : bytes) (checksum : Z)
| KpDirectoryGet (dn : bytes) (e : StorageError)
| KpDirectoryPut (e : StorageError)
| KrbPrivEncryptFailed (e : HsmError)
| KrbPrivDecryptFailed (e : HsmError)
| KpDecryptFailed (e : HsmError)
| KpSaltFailed.
#[global] Instance StorageProblem_eq_dec : EqDecision StorageProblem.
Proof. solve_decision. Defined.

Inductive KdcError :=
| PrincipalNotFound (realm name : bytes)
| PreauthRequired
| PreauthFailed (p : PreauthProblem)
| ETypeUnsupported (e : EType)
| Policy (p : PolicyProblem)
| Storage (p : StorageProblem)
| PacError (p : PacProblem)
| FastArmorRequired.
#[global] Instance KdcError_eq_dec : EqDecision KdcError.
Proof. solve_decision. Defined.
