(* ===== verification/KdcWire.v ===== *)
(** * KdcWire: the messages of the KDC and their ASN.1 form ([adrian-kdc],
    [handlers.rs] and [wire.rs])

    [wire.rs] translates the messages to the structures of [rasn_kerberos] and
    lets [rasn] encode them.  The DER codec of each structure is a parameter (the
    class [Der]), and so are the strings [GeneralString::try_from] accepts and the
    times [chrono] accepts (the class [Rasn]).  A [GeneralString] and an
    [OctetString] are their bytes, a [BitString] is its [into_vec], a
    [KerberosTime] its [timestamp]: the code reads nothing else of them.  The
    fields the code always leaves [None] and never reads are left out. *)
From S2P Require Import Prelude Bytes Text StorageKeys KdcCrypto Kdc.

(** ** The messages *)

Definition PVNO : Z := 5.
Definition MSG_TYPE_AS_REQ : Z := 10.
Definition MSG_TYPE_AS_REP : Z := 11.
Definition MSG_TYPE_TGS_REQ : Z := 12.
Definition MSG_TYPE_TGS_REP : Z := 13.
Definition SESSION_KEY_LEN : nat := 32.

Record PaEncTsEnc := mkPaEncTsEnc { patimestamp : Z; pausec : Z }.
Record PaData := mkPaData { padata_type : Z; padata_value : bytes }.
Record AsReq := mkAsReq {
  ar_pvno : Z;
  ar_msg_type : Z;
  ar_realm : bytes;
  ar_cname : list bytes;
  ar_nonce : Z;
  ar_etypes : list EType;
  ar_padata : list PaData;
  ar_till : Z;
}.
Record Ticket := mkTicket {
  tkt_vno : Z;
  tkt_realm : bytes;
  tkt_sname : list bytes;
  tkt_kvno : Z;
  tkt_etype : EType;
  tkt_enc_part : bytes;
}.
Record EncTicketPart := mkEncTicketPart {
  etp_flags : Z;
  etp_crealm : bytes;
  etp_cname : list bytes;
  etp_session_key : bytes;
  etp_authtime : Z;
  etp_starttime : Z;
  etp_endtime : Z;
  etp_renew_till : Z;
  etp_client_uuid : Uuid;
}.
Record EncKdcRepPart := mkEncKdcRepPart {
  erp_session_key : bytes;
  erp_last_req : Z;
  erp_nonce : Z;
  erp_authtime : Z;
  erp_starttime : Z;
  erp_endtime : Z;
  erp_renew_till : Z;
  erp_crealm : bytes;
  erp_cname : list bytes;
}.
(** [AsRep] and [TgsRep] have the same fields. *)
Record KdcRep := mkKdcRep {
  rep_pvno : Z;
  rep_msg_type : Z;
  rep_crealm : bytes;
  rep_cname : list bytes;
  rep_ticket : Ticket;
  rep_enc_part_etype : EType;
  rep_enc_part_kvno : Z;
  rep_enc_part : bytes;
}.
Definition AsRep : Type := KdcRep.
Definition TgsRep : Type := KdcRep.
Record Authenticator := mkAuthenticator {
  auth_crealm : bytes;
  auth_cname : list bytes;
  auth_subkey : option bytes;
  auth_seq_number : Z;
  auth_ctime : Z;
  auth_cusec : Z;
}.
Record TgsReq := mkTgsReq {
  tr_pvno : Z;
  tr_msg_type : Z;
  tr_realm : bytes;
  tr_sname : list bytes;
  tr_nonce : Z;
  tr_etypes : list EType;
  tr_tgt : Ticket;
  tr_authenticator_enc : bytes;
  tr_till : Z;
}.

Definition EType_from_u32 (raw : Z) : option EType :=
  if raw =? 17 then Some Aes128CtsHmacSha1_96
  else if raw =? 18 then Some Aes256CtsHmacSha1_96
  else if raw =? 19 then Some Aes128CtsHmacSha256_128
  else if raw =? 20 then Some Aes256CtsHmacSha384_192
  else if raw =? 23 then Some Rc4Hmac
  else None.
Definition is_allowed_by_policy (e : EType) : bool := match e with Rc4Hmac => false | _ => true end.

(** ** The structures of [rasn_kerberos] *)

(** An integer that fits a machine word, or a larger one. *)
Inductive Integer := IntPrimitive (v : Z) | IntVariable (v : Z).
Record rkPrincipalName := mkRkPrincipalName { pn_type : Z; pn_string : list bytes }.
Record rkEncryptedData := mkRkEncryptedData { ed_etype : Z; ed_kvno : option Z; ed_cipher : bytes }.
Record rkEncryptionKey := mkRkEncryptionKey { ek_type : Z; ek_value : bytes }.
Record rkTypedData := mkRkTypedData { td_type : Z; td_value : bytes }.
Record rkPaEncTsEnc := mkRkPaEncTsEnc { rts_patimestamp : Z; rts_pausec : option Integer }.
Record rkEncTicketPart := mkRkEncTicketPart {
  ret_flags : bytes;
  ret_key : rkEncryptionKey;
  ret_crealm : bytes;
  ret_cname : rkPrincipalName;
  ret_transited : rkTypedData;
  ret_auth_time : Z;
  ret_start_time : option Z;
  ret_end_time : Z;
  ret_renew_till : option Z;
  ret_authorization_data : option (list rkTypedData);
}.
Record rkTicket := mkRkTicket { rtk_vno : Integer; rtk_realm : bytes; rtk_sname : rkPrincipalName; rtk_enc_part : rkEncryptedData }.
Record rkEncKdcRepPart := mkRkEncKdcRepPart {
  rer_key : rkEncryptionKey;
  rer_last_req : list (Z * Z);
  rer_nonce : Z;
  rer_flags : bytes;
  rer_auth_time : Z;
  rer_start_time : option Z;
  rer_end_time : Z;
  rer_renew_till : option Z;
  rer_srealm : bytes;
  rer_sname : rkPrincipalName;
}.
Record rkKdcReq := mkRkKdcReq {
  rrq_pvno : Integer;
  rrq_msg_type : Integer;
  rrq_padata : option (list rkTypedData);
  rrq_kdc_options : bytes;
  rrq_cname : option rkPrincipalName;
  rrq_realm : bytes;
  rrq_sname : option rkPrincipalName;
  rrq_till : Z;
  rrq_nonce : Z;
  rrq_etype : list Z;
}.
Record rkKdcRep := mkRkKdcRep {
  rrp_pvno : Integer;
  rrp_msg_type : Integer;
  rrp_crealm : bytes;
  rrp_cname : rkPrincipalName;
  rrp_ticket : rkTicket;
  rrp_enc_part : rkEncryptedData;
}.
Record rkApReq := mkRkApReq {
  rap_pvno : Integer;
  rap_msg_type : Integer;
  rap_options : bytes;
  rap_ticket : rkTicket;
  rap_authenticator : rkEncryptedData;
}.
Record rkAuthenticator := mkRkAuthenticator {
  rau_vno : Integer;
  rau_crealm : bytes;
  rau_cname : rkPrincipalName;
  rau_cusec : Integer;
  rau_ctime : Z;
  rau_subkey : option rkEncryptionKey;
  rau_seq_number : option Z;
}.
(** The request and reply structures carry the application tag of the exchange. *)
Record rkAsReq := mkRkAsReq { as_req_0 : rkKdcReq }.
Record rkTgsReq := mkRkTgsReq { tgs_req_0 : rkKdcReq }.
Record rkAsRep := mkRkAsRep { as_rep_0 : rkKdcRep }.
Record rkTgsRep := mkRkTgsRep { tgs_rep_0 : rkKdcRep }.

(** ** What the libraries provide *)

Class Rasn := {
  general_string_ok : bytes -> bool;
  in_chrono_range : Z -> bool;
  kdc_options_reserved : bytes;
  der_ts :: Der rkPaEncTsEnc;
  der_enc_ticket :: Der rkEncTicketPart;
  der_ticket :: Der rkTicket;
  der_enc_rep :: Der rkEncKdcRepPart;
  der_as_req :: Der rkAsReq;
  der_tgs_req :: Der rkTgsReq;
  der_as_rep :: Der rkAsRep;
  der_tgs_rep :: Der rkTgsRep;
  der_ap_req :: Der rkApReq;
  der_authenticator :: Der rkAuthenticator;
}.

(** ** Conversions *)

Definition PA_TGS_REQ_TYPE : Z := 1.
Definition MSG_TYPE_AP_REQ : Z := 14.
Definition AUTHENTICATOR_VNO : Z := 5.
Definition AD_CLIENT_UUID_TYPE : Z := -128.
Definition NT_PRINCIPAL : Z := 1.
Definition ENCRYPTION_TYPE_AES256 : Z := 18.

Section Wire.
Context {RK : Rasn}.

(** [der::encode(..).unwrap_or_default()] and [der::decode(..).map_err(..)]. *)
Definition to_der {A} `{!Der A} (a : A) : bytes := default [] (der_encode a).
Definition of_der {A} `{!Der A} (b : bytes) : Result DecodeError A := ok_or (der_decode b) UnexpectedEof.
(** [GeneralString::try_from(s.as_bytes()).unwrap_or_default()]. *)
Definition general_string (s : bytes) : bytes := if general_string_ok s then s else [].

(** Out of [chrono]'s range the epoch is used. *)
Definition to_krb_time (secs : Z) : Z := if in_chrono_range secs then secs else 0.
Definition from_krb_time (t : Z) : Z := t.
Definition opt_krb_time (t : option Z) : Z := default 0 (from_krb_time <$> t).
Definition to_principal_name (components : list bytes) : rkPrincipalName :=
  mkRkPrincipalName NT_PRINCIPAL (if forallb general_string_ok components then components else []).
Definition from_principal_name (pn : rkPrincipalName) : list bytes := map from_utf8_lossy (pn_string pn).
Definition to_ticket_flags (flags : Z) : bytes := to_be 4 flags.
Definition from_ticket_flags (tf : bytes) : Z :=
  let len := Nat.min (length tf) 4 in of_be (replicate (4 - len) x00 ++ take len tf).
Definition to_encrypted_data (etype : EType) (kvno : Z) (cipher : bytes) : rkEncryptedData :=
  mkRkEncryptedData (EType_u32 etype) (Some kvno) cipher.
Definition from_encrypted_data (ed : rkEncryptedData) : Result DecodeError (EType * Z * bytes) :=
  let? etype := ok_or (EType_from_u32 (as_u32 (ed_etype ed))) (UnknownEtype (as_u32 (ed_etype ed))) in
  Ok (etype, default 0 (ed_kvno ed), ed_cipher ed).
Definition to_encryption_key (key : bytes) : rkEncryptionKey := mkRkEncryptionKey ENCRYPTION_TYPE_AES256 key.
Definition from_encryption_key (ek : rkEncryptionKey) : Result DecodeError bytes :=
  if negb (length (ek_value ek) =? 32)%nat then Err UnexpectedEof else Ok (ek_value ek).
Definition to_rk_pa_data (p : PaData) : rkTypedData := mkRkTypedData (padata_type p) (padata_value p).
Definition from_rk_pa_data (p : rkTypedData) : PaData := mkPaData (as_uint 8 (td_type p)) (td_value p).
Definition uuid_to_auth_data (uuid : Uuid) : option (list rkTypedData) :=
  Some [mkRkTypedData AD_CLIENT_UUID_TYPE (uuid_as_bytes uuid)].
(** The first entry of the type with 16 bytes, or the nil UUID. *)
Fixpoint find_uuid (entries : list rkTypedData) : Uuid :=
  match entries with
  | [] => 0
  | e :: entries =>
      if (td_type e =? AD_CLIENT_UUID_TYPE) && (length (td_value e) =? 16)%nat then uuid_from_bytes (td_value e) else find_uuid entries
  end.
Definition uuid_from_auth_data (ad : option (list rkTypedData)) : Uuid := find_uuid (default [] ad).
(** [match i { Primitive(v) => *v as u32, Variable(_) => dflt }]. *)
Definition integer_u32 (i : Integer) (dflt : Z) : Z := match i with IntPrimitive v => as_u32 v | IntVariable _ => dflt end.

(** ** Codecs *)

Definition encode_pa_enc_ts_enc (p : PaEncTsEnc) : bytes :=
  to_der (mkRkPaEncTsEnc (to_krb_time (patimestamp p)) (if 0 <? pausec p then Some (IntPrimitive (pausec p)) else None)).
Definition decode_pa_enc_ts_enc (b : bytes) : Result DecodeError PaEncTsEnc :=
  let? rk := of_der b in
  Ok (mkPaEncTsEnc (from_krb_time (rts_patimestamp rk)) (default 0 ((fun i => integer_u32 i 0) <$> rts_pausec rk))).

Definition encode_enc_ticket_part (e : EncTicketPart) : bytes :=
  to_der (mkRkEncTicketPart (to_ticket_flags (etp_flags e)) (to_encryption_key (etp_session_key e)) (general_string (etp_crealm e))
    (to_principal_name (etp_cname e)) (mkRkTypedData 0 []) (to_krb_time (etp_authtime e)) (Some (to_krb_time (etp_starttime e)))
    (to_krb_time (etp_endtime e)) (Some (to_krb_time (etp_renew_till e))) (uuid_to_auth_data (etp_client_uuid e))).
Definition decode_enc_ticket_part (b : bytes) : Result DecodeError EncTicketPart :=
  let? rk := of_der b in
  let? session_key := from_encryption_key (ret_key rk) in
  Ok (mkEncTicketPart (from_ticket_flags (ret_flags rk)) (from_utf8_lossy (ret_crealm rk)) (from_principal_name (ret_cname rk)) session_key
    (from_krb_time (ret_auth_time rk)) (opt_krb_time (ret_start_time rk)) (from_krb_time (ret_end_time rk)) (opt_krb_time (ret_renew_till rk))
    (uuid_from_auth_data (ret_authorization_data rk))).

Definition encode_ticket_to_rk (t : Ticket) : rkTicket :=
  mkRkTicket (IntPrimitive (tkt_vno t)) (general_string (tkt_realm t)) (to_principal_name (tkt_sname t))
    (to_encrypted_data (tkt_etype t) (tkt_kvno t) (tkt_enc_part t)).
Definition decode_ticket_from_rk (t : rkTicket) : Result DecodeError Ticket :=
  let? (etype, kvno, enc_part) := from_encrypted_data (rtk_enc_part t) in
  Ok (mkTicket (integer_u32 (rtk_vno t) PVNO) (from_utf8_lossy (rtk_realm t)) (from_principal_name (rtk_sname t)) kvno etype enc_part).
Definition encode_ticket (t : Ticket) : bytes := to_der (encode_ticket_to_rk t).
Definition decode_ticket (b : bytes) : Result DecodeError Ticket := let? rk := of_der b in decode_ticket_from_rk rk.

Definition encode_enc_kdc_rep_part (e : EncKdcRepPart) : bytes :=
  to_der (mkRkEncKdcRepPart (to_encryption_key (erp_session_key e)) [(0, to_krb_time (erp_last_req e))] (erp_nonce e) (to_ticket_flags 0)
    (to_krb_time (erp_authtime e)) (Some (to_krb_time (erp_starttime e))) (to_krb_time (erp_endtime e)) (Some (to_krb_time (erp_renew_till e)))
    (general_string (erp_crealm e)) (to_principal_name (erp_cname e))).
Definition decode_enc_kdc_rep_part (b : bytes) : Result DecodeError EncKdcRepPart :=
  let? rk := of_der b in
  let last_req := default 0 ((fun lr => from_krb_time lr.2) <$> head (rer_last_req rk)) in
  let? session_key := from_encryption_key (rer_key rk) in
  Ok (mkEncKdcRepPart session_key last_req (rer_nonce rk) (from_krb_time (rer_auth_time rk)) (opt_krb_time (rer_start_time rk))
    (from_krb_time (rer_end_time rk)) (opt_krb_time (rer_renew_till rk)) (from_utf8_lossy (rer_srealm rk)) (from_principal_name (rer_sname rk))).

Definition from_etypes (l : list Z) : list EType := omap (fun i => EType_from_u32 (as_u32 i)) l.
Definition encode_as_req (r : AsReq) : bytes :=
  to_der (mkRkAsReq (mkRkKdcReq (IntPrimitive (ar_pvno r)) (IntPrimitive (ar_msg_type r)) (Some (map to_rk_pa_data (ar_padata r))) kdc_options_reserved
    (Some (to_principal_name (ar_cname r))) (general_string (ar_realm r)) None (to_krb_time (ar_till r)) (ar_nonce r) (map EType_u32 (ar_etypes r)))).
Definition decode_as_req (b : bytes) : Result DecodeError AsReq :=
  let? rk := of_der b in
  let inner := as_req_0 rk in
  Ok (mkAsReq (integer_u32 (rrq_pvno inner) PVNO) (integer_u32 (rrq_msg_type inner) 10) (from_utf8_lossy (rrq_realm inner))
    (default [] (from_principal_name <$> rrq_cname inner)) (rrq_nonce inner) (from_etypes (rrq_etype inner))
    (map from_rk_pa_data (default [] (rrq_padata inner))) (from_krb_time (rrq_till inner))).

(** The body the two replies share. *)
Definition encode_rep (r : KdcRep) : rkKdcRep :=
  mkRkKdcRep (IntPrimitive (rep_pvno r)) (IntPrimitive (rep_msg_type r)) (general_string (rep_crealm r)) (to_principal_name (rep_cname r))
    (encode_ticket_to_rk (rep_ticket r)) (to_encrypted_data (rep_enc_part_etype r) (rep_enc_part_kvno r) (rep_enc_part r)).
Definition decode_rep (inner : rkKdcRep) (msg_type : Z) : Result DecodeError KdcRep :=
  let? ticket := decode_ticket_from_rk (rrp_ticket inner) in
  let? (etype, kvno, enc_part) := from_encrypted_data (rrp_enc_part inner) in
  Ok (mkKdcRep (integer_u32 (rrp_pvno inner) PVNO) (integer_u32 (rrp_msg_type inner) msg_type) (from_utf8_lossy (rrp_crealm inner))
    (from_principal_name (rrp_cname inner)) ticket etype kvno enc_part).
Definition encode_as_rep (r : AsRep) : bytes := to_der (mkRkAsRep (encode_rep r)).
Definition decode_as_rep (b : bytes) : Result DecodeError AsRep := let? rk := of_der b in decode_rep (as_rep_0 rk) 11.
Definition encode_tgs_rep (r : TgsRep) : bytes := to_der (mkRkTgsRep (encode_rep r)).
Definition decode_tgs_rep (b : bytes) : Result DecodeError TgsRep := let? rk := of_der b in decode_rep (tgs_rep_0 rk) 13.

Definition build_ap_req (tgt : Ticket) (authenticator_enc : bytes) : rkApReq :=
  mkRkApReq (IntPrimitive PVNO) (IntPrimitive MSG_TYPE_AP_REQ) (replicate 4 x00) (encode_ticket_to_rk tgt)
    (mkRkEncryptedData (EType_u32 (tkt_etype tgt)) None authenticator_enc).
Definition parse_ap_req (ap_req : rkApReq) : Result DecodeError (Ticket * bytes) :=
  let? tgt := decode_ticket_from_rk (rap_ticket ap_req) in
  Ok (tgt, ed_cipher (rap_authenticator ap_req)).
Definition encode_tgs_req (r : TgsReq) : bytes :=
  let ap_req_bytes := to_der (build_ap_req (tr_tgt r) (tr_authenticator_enc r)) in
  to_der (mkRkTgsReq (mkRkKdcReq (IntPrimitive (tr_pvno r)) (IntPrimitive (tr_msg_type r)) (Some [mkRkTypedData PA_TGS_REQ_TYPE ap_req_bytes])
    kdc_options_reserved None (general_string (tr_realm r)) (Some (to_principal_name (tr_sname r))) (to_krb_time (tr_till r)) (tr_nonce r)
    (map EType_u32 (tr_etypes r)))).
(** The first entry of type PA-TGS-REQ; without one, an empty ticket. *)
Fixpoint find_ap_req (padata : list rkTypedData) : Result DecodeError (Ticket * bytes) :=
  match padata with
  | [] => Ok (mkTicket PVNO [] [] 0 Aes256CtsHmacSha1_96 [], [])
  | p :: padata =>
      if td_type p =? PA_TGS_REQ_TYPE then let? ap_req := of_der (td_value p) in parse_ap_req ap_req
      else find_ap_req padata
  end.
Definition decode_tgs_req (b : bytes) : Result DecodeError TgsReq :=
  let? rk := of_der b in
  let inner := tgs_req_0 rk in
  let? (tgt, authenticator_enc) := find_ap_req (default [] (rrq_padata inner)) in
  Ok (mkTgsReq (integer_u32 (rrq_pvno inner) PVNO) (integer_u32 (rrq_msg_type inner) 12) (from_utf8_lossy (rrq_realm inner))
    (default [] (from_principal_name <$> rrq_sname inner)) (rrq_nonce inner) (from_etypes (rrq_etype inner)) tgt authenticator_enc
    (from_krb_time (rrq_till inner))).

Definition encode_authenticator (a : Authenticator) : bytes :=
  to_der (mkRkAuthenticator (IntPrimitive AUTHENTICATOR_VNO) (general_string (auth_crealm a)) (to_principal_name (auth_cname a))
    (IntPrimitive (auth_cusec a)) (to_krb_time (auth_ctime a)) (to_encryption_key <$> auth_subkey a) (Some (auth_seq_number a))).
Definition decode_authenticator (b : bytes) : Result DecodeError Authenticator :=
  let? rk := of_der b in
  let? subkey := match rau_subkey rk with None => Ok None | Some k => let? key := from_encryption_key k in Ok (Some key) end in
  Ok (mkAuthenticator (from_utf8_lossy (rau_crealm rk)) (from_principal_name (rau_cname rk)) subkey (default 0 (rau_seq_number rk))
    (from_krb_time (rau_ctime rk)) (integer_u32 (rau_cusec rk) 0)).
End Wire.
