(* ===== verification/KdcWireProofs.v ===== *)
(** * KdcWireProofs: round trips of the KDC's messages

    What the theorems need of [rasn], [rasn_kerberos] and [chrono] is the class
    [RasnLaws]: printable ASCII is a [GeneralString], the times of the years 1970
    to 9999 are accepted, and a structure whose fields are in range is encoded and
    decodes to itself. *)
From S2P Require Import Prelude Bytes Text StorageKeys KdcCrypto Kdc KdcWire.

(** Seconds up to the end of the year 9999. *)
Definition krb_time_ok (t : Z) : Prop := 0 <= t < 253402300800.
Definition is_i32 (z : Z) : Prop := - 2 ^ 31 <= z < 2 ^ 31.
Definition opt_ok {A} (P : A -> Prop) (o : option A) : Prop := match o with Some a => P a | None => True end.
Definition integer_ok (i : Integer) : Prop := exists v, i = IntPrimitive v /\ is_i64 v.

Section Structures.
Context {RK : Rasn}.
Definition string_ok (s : bytes) : Prop := general_string_ok s = true.
Definition rk_name_ok (pn : rkPrincipalName) : Prop := is_i32 (pn_type pn) /\ Forall string_ok (pn_string pn).
Definition rk_data_ok (ed : rkEncryptedData) : Prop := is_i32 (ed_etype ed) /\ opt_ok is_u32 (ed_kvno ed).
Definition rk_key_ok (ek : rkEncryptionKey) : Prop := is_i32 (ek_type ek).
Definition rk_typed_ok (td : rkTypedData) : Prop := is_i32 (td_type td).
Definition rk_ts_ok (a : rkPaEncTsEnc) : Prop := krb_time_ok (rts_patimestamp a) /\ opt_ok integer_ok (rts_pausec a).
Definition rk_enc_ticket_ok (a : rkEncTicketPart) : Prop :=
  length (ret_flags a) = 4%nat /\ rk_key_ok (ret_key a) /\ string_ok (ret_crealm a) /\ rk_name_ok (ret_cname a) /\ rk_typed_ok (ret_transited a)
  /\ krb_time_ok (ret_auth_time a) /\ opt_ok krb_time_ok (ret_start_time a) /\ krb_time_ok (ret_end_time a) /\ opt_ok krb_time_ok (ret_renew_till a)
  /\ opt_ok (Forall rk_typed_ok) (ret_authorization_data a).
Definition rk_ticket_ok (a : rkTicket) : Prop :=
  integer_ok (rtk_vno a) /\ string_ok (rtk_realm a) /\ rk_name_ok (rtk_sname a) /\ rk_data_ok (rtk_enc_part a).
Definition rk_enc_rep_ok (a : rkEncKdcRepPart) : Prop :=
  rk_key_ok (rer_key a) /\ Forall (fun lr => is_i32 lr.1 /\ krb_time_ok lr.2) (rer_last_req a) /\ is_u32 (rer_nonce a) /\ length (rer_flags a) = 4%nat
  /\ krb_time_ok (rer_auth_time a) /\ opt_ok krb_time_ok (rer_start_time a) /\ krb_time_ok (rer_end_time a) /\ opt_ok krb_time_ok (rer_renew_till a)
  /\ string_ok (rer_srealm a) /\ rk_name_ok (rer_sname a).
Definition rk_req_ok (a : rkKdcReq) : Prop :=
  integer_ok (rrq_pvno a) /\ integer_ok (rrq_msg_type a) /\ opt_ok (Forall rk_typed_ok) (rrq_padata a) /\ rrq_kdc_options a = kdc_options_reserved
  /\ opt_ok rk_name_ok (rrq_cname a) /\ string_ok (rrq_realm a) /\ opt_ok rk_name_ok (rrq_sname a) /\ krb_time_ok (rrq_till a)
  /\ is_u32 (rrq_nonce a) /\ Forall is_i32 (rrq_etype a).
Definition rk_rep_ok (a : rkKdcRep) : Prop :=
  integer_ok (rrp_pvno a) /\ integer_ok (rrp_msg_type a) /\ string_ok (rrp_crealm a) /\ rk_name_ok (rrp_cname a) /\ rk_ticket_ok (rrp_ticket a)
  /\ rk_data_ok (rrp_enc_part a).
Definition rk_ap_req_ok (a : rkApReq) : Prop :=
  integer_ok (rap_pvno a) /\ integer_ok (rap_msg_type a) /\ length (rap_options a) = 4%nat /\ rk_ticket_ok (rap_ticket a) /\ rk_data_ok (rap_authenticator a).
Definition rk_authenticator_ok (a : rkAuthenticator) : Prop :=
  integer_ok (rau_vno a) /\ string_ok (rau_crealm a) /\ rk_name_ok (rau_cname a) /\ integer_ok (rau_cusec a) /\ krb_time_ok (rau_ctime a)
  /\ opt_ok rk_key_ok (rau_subkey a) /\ opt_ok is_u32 (rau_seq_number a).
End Structures.

Class RasnLaws {RK : Rasn} : Prop := {
  general_string_ascii : forall s, Forall (fun b => 32 <= b2z b < 127) s -> general_string_ok s = true;
  chrono_range : forall t, krb_time_ok t -> in_chrono_range t = true;
  law_ts : der_law rk_ts_ok;
  law_enc_ticket : der_law rk_enc_ticket_ok;
  law_ticket : der_law rk_ticket_ok;
  law_enc_rep : der_law rk_enc_rep_ok;
  law_as_req : der_law (fun a : rkAsReq => rk_req_ok (as_req_0 a));
  law_tgs_req : der_law (fun a : rkTgsReq => rk_req_ok (tgs_req_0 a));
  law_as_rep : der_law (fun a : rkAsRep => rk_rep_ok (as_rep_0 a));
  law_tgs_rep : der_law (fun a : rkTgsRep => rk_rep_ok (tgs_rep_0 a));
  law_ap_req : der_law rk_ap_req_ok;
  law_authenticator : der_law rk_authenticator_ok;
}.

Section Messages.
Context {RK : Rasn}.

(** Messages whose fields are in the range of their types and whose texts are
    UTF-8 that [GeneralString] accepts. *)
Definition text_ok (s : bytes) : Prop := utf8_valid s = true /\ general_string_ok s = true.
Definition name_ok (l : list bytes) : Prop := Forall text_ok l.
Definition key_ok (k : bytes) : Prop := length k = SESSION_KEY_LEN.
Record ts_ok (p : PaEncTsEnc) : Prop := { ts_time : krb_time_ok (patimestamp p); ts_usec : is_u32 (pausec p) }.
Record ticket_ok (t : Ticket) : Prop := {
  tk_vno : is_u32 (tkt_vno t); tk_realm : text_ok (tkt_realm t); tk_sname : name_ok (tkt_sname t); tk_kvno : is_u32 (tkt_kvno t) }.
Record enc_ticket_ok (e : EncTicketPart) : Prop := {
  et_flags : is_u32 (etp_flags e); et_crealm : text_ok (etp_crealm e); et_cname : name_ok (etp_cname e); et_key : key_ok (etp_session_key e);
  et_auth : krb_time_ok (etp_authtime e); et_start : krb_time_ok (etp_starttime e); et_end : krb_time_ok (etp_endtime e);
  et_renew : krb_time_ok (etp_renew_till e); et_uuid : is_u128 (etp_client_uuid e) }.
Record enc_rep_ok (e : EncKdcRepPart) : Prop := {
  er_key : key_ok (erp_session_key e); er_last : krb_time_ok (erp_last_req e); er_nonce : is_u32 (erp_nonce e);
  er_auth : krb_time_ok (erp_authtime e); er_start : krb_time_ok (erp_starttime e); er_end : krb_time_ok (erp_endtime e);
  er_renew : krb_time_ok (erp_renew_till e); er_crealm : text_ok (erp_crealm e); er_cname : name_ok (erp_cname e) }.
Record as_req_ok (r : AsReq) : Prop := {
  aq_pvno : is_u32 (ar_pvno r); aq_msg : is_u32 (ar_msg_type r); aq_realm : text_ok (ar_realm r); aq_cname : name_ok (ar_cname r);
  aq_nonce : is_u32 (ar_nonce r); aq_padata : Forall (fun p => is_u8 (padata_type p)) (ar_padata r); aq_till : krb_time_ok (ar_till r) }.
Record rep_ok (r : KdcRep) : Prop := {
  rp_pvno : is_u32 (rep_pvno r); rp_msg : is_u32 (rep_msg_type r); rp_crealm : text_ok (rep_crealm r); rp_cname : name_ok (rep_cname r);
  rp_ticket : ticket_ok (rep_ticket r); rp_kvno : is_u32 (rep_enc_part_kvno r) }.
Record tgs_req_ok (r : TgsReq) : Prop := {
  tq_pvno : is_u32 (tr_pvno r); tq_msg : is_u32 (tr_msg_type r); tq_realm : text_ok (tr_realm r); tq_sname : name_ok (tr_sname r);
  tq_nonce : is_u32 (tr_nonce r); tq_tgt : ticket_ok (tr_tgt r); tq_till : krb_time_ok (tr_till r) }.
Record authenticator_ok (a : Authenticator) : Prop := {
  au_crealm : text_ok (auth_crealm a); au_cname : name_ok (auth_cname a); au_subkey : opt_ok key_ok (auth_subkey a);
  au_seq : is_u32 (auth_seq_number a); au_ctime : krb_time_ok (auth_ctime a); au_cusec : is_u32 (auth_cusec a) }.

Context {RL : RasnLaws}.

Lemma of_to_der {A} `{!Der A} (ok : A -> Prop) a : der_law ok -> ok a -> of_der (to_der a) = Ok a.
Proof. intros Hl Ha. destruct (Hl a Ha) as (b & E1 & E2). unfold of_der, to_der. rewrite E1. cbn. by rewrite E2. Qed.
Lemma general_string_id s : text_ok s -> general_string s = s.
Proof. intros [_ H]. unfold general_string. by rewrite H. Qed.
Lemma lossy_id s : text_ok s -> from_utf8_lossy s = s.
Proof. intros [H _]. by apply from_utf8_lossy_id. Qed.
Lemma principal_strings l : name_ok l -> to_principal_name l = mkRkPrincipalName NT_PRINCIPAL l.
Proof.
  intros H. unfold to_principal_name. replace (forallb general_string_ok l) with true; [done|]. symmetry. apply forallb_forall.
  intros s Hs. by apply (proj1 (List.Forall_forall _ _) H s Hs).
Qed.
Lemma principal_roundtrip l : name_ok l -> from_principal_name (to_principal_name l) = l.
Proof. intros H. rewrite principal_strings by done. unfold from_principal_name. cbn [pn_string]. induction H as [|s l Hs _ IH]; [done|]. cbn [map]. by rewrite lossy_id, IH. Qed.
Lemma rk_name_of l : name_ok l -> rk_name_ok (to_principal_name l).
Proof. intros H. rewrite principal_strings by done. split; [unfold is_i32, NT_PRINCIPAL; cbn [pn_type]; lia|]. cbn [pn_string]. eapply Forall_impl; [exact H|]. by intros ? []. Qed.
Lemma string_of s : text_ok s -> string_ok (general_string s).
Proof. intros H. rewrite general_string_id by done. apply H. Qed.
Lemma to_krb_time_id t : krb_time_ok t -> to_krb_time t = t.
Proof using RL. intros H. unfold to_krb_time. by rewrite chrono_range. Qed.
Lemma ticket_flags_roundtrip f : is_u32 f -> from_ticket_flags (to_ticket_flags f) = f.
Proof.
  intros H. unfold from_ticket_flags, to_ticket_flags. rewrite length_to_be. change (Nat.min 4 4) with 4%nat. rewrite take_ge by (by rewrite length_to_be).
  cbn [Nat.sub replicate app]. by apply of_to_be_u32.
Qed.
Lemma integer_u32_id v d : is_u32 v -> integer_u32 (IntPrimitive v) d = v.
Proof. intros H. by apply as_uint_id. Qed.
Lemma integer_of v : is_u32 v -> integer_ok (IntPrimitive v).
Proof. intros H. exists v. split; [done|]. unfold is_uint, is_i64 in *. lia. Qed.
Lemma encrypted_roundtrip e k c : from_encrypted_data (to_encrypted_data e k c) = Ok (e, k, c).
Proof. by destruct e. Qed.
Lemma etype_i32 e : is_i32 (EType_u32 e).
Proof. destruct e; unfold is_i32; cbn; lia. Qed.
Lemma etypes_roundtrip l : from_etypes (map EType_u32 l) = l.
Proof. induction l as [|e l IH]; [done|]. unfold from_etypes in *. cbn [map omap list_omap]. destruct e; cbn [EType_u32]; change (list_omap _ _ ?f ?x) with (omap f x); f_equal; exact IH. Qed.
Lemma encrypted_of e k c : is_u32 k -> rk_data_ok (to_encrypted_data e k c).
Proof. intros H. split; [apply etype_i32|exact H]. Qed.
Lemma encryption_key_roundtrip k : key_ok k -> from_encryption_key (to_encryption_key k) = Ok k.
Proof. intros H. unfold from_encryption_key. cbn [ek_value to_encryption_key]. by rewrite H. Qed.
Lemma uuid_roundtrip u : is_u128 u -> uuid_from_auth_data (uuid_to_auth_data u) = u.
Proof.
  intros H. unfold uuid_from_auth_data, uuid_to_auth_data. cbn [default from_option id find_uuid td_type td_value].
  unfold uuid_as_bytes. rewrite length_to_be. cbn [Z.eqb Nat.eqb andb]. by apply of_to_be_u128.
Qed.
Lemma pa_data_roundtrip l : Forall (fun p => is_u8 (padata_type p)) l -> map from_rk_pa_data (map to_rk_pa_data l) = l.
Proof.
  induction 1 as [|p l Hp _ IH]; [done|]. cbn [map]. rewrite IH. f_equal. destruct p as [t v]. unfold from_rk_pa_data, to_rk_pa_data. cbn in *. by rewrite as_uint_id.
Qed.
Lemma pa_data_of l : Forall (fun p => is_u8 (padata_type p)) l -> Forall rk_typed_ok (map to_rk_pa_data l).
Proof. induction 1 as [|p l Hp _ IH]; constructor; [|done]. unfold rk_typed_ok, is_i32, is_uint in *. cbn. lia. Qed.

(** The side conditions of the structures the encoders build. *)
Lemma is_i32_small v : 0 <= v < 2 ^ 31 -> is_i32 v.
Proof. unfold is_i32. lia. Qed.
Lemma rk_key_of k : rk_key_ok (to_encryption_key k).
Proof. by apply is_i32_small. Qed.
Ltac wire_side :=
  repeat match goal with |- _ /\ _ => split end;
  try solve [ assumption | apply string_of; assumption | apply rk_name_of; assumption | apply integer_of; assumption
            | apply encrypted_of; assumption | apply rk_key_of | apply length_to_be | reflexivity | apply is_i32_small; done ].
Ltac wire_ids :=
  rewrite ?to_krb_time_id, ?principal_roundtrip, ?ticket_flags_roundtrip, ?uuid_roundtrip, ?integer_u32_id, ?general_string_id, ?lossy_id by assumption.

Lemma ts_roundtrip p : ts_ok p -> decode_pa_enc_ts_enc (encode_pa_enc_ts_enc p) = Ok p.
Proof using RL.
  destruct p as [t u]. intros [Ht Hu]. cbn [patimestamp pausec] in *. unfold decode_pa_enc_ts_enc, encode_pa_enc_ts_enc. cbn [patimestamp pausec].
  rewrite to_krb_time_id by done. rewrite (of_to_der _ _ law_ts).
  2: { split; [done|]. cbn [rts_pausec]. destruct (0 <? u); [|done]. by apply integer_of. }
  cbn [rbind rts_patimestamp rts_pausec]. destruct (Z.ltb_spec 0 u); cbn [fmap option_fmap option_map default from_option id]; [by wire_ids|].
  f_equal. f_equal. unfold is_uint in Hu. lia.
Qed.
Lemma rk_ticket_of t : ticket_ok t -> rk_ticket_ok (encode_ticket_to_rk t).
Proof. intros [H1 H2 H3 H4]. unfold rk_ticket_ok. cbn [rtk_vno rtk_realm rtk_sname rtk_enc_part encode_ticket_to_rk]. wire_side. Qed.
Lemma ticket_rk_roundtrip t : ticket_ok t -> decode_ticket_from_rk (encode_ticket_to_rk t) = Ok t.
Proof.
  intros [H1 H2 H3 H4]. unfold decode_ticket_from_rk. cbn [rtk_vno rtk_realm rtk_sname rtk_enc_part encode_ticket_to_rk]. rewrite encrypted_roundtrip. cbn [rbind].
  rewrite integer_u32_id, principal_roundtrip, general_string_id, lossy_id by done. by destruct t.
Qed.
Lemma ticket_roundtrip t : ticket_ok t -> decode_ticket (encode_ticket t) = Ok t.
Proof using RL.
  intros H. unfold decode_ticket, encode_ticket. rewrite (of_to_der _ _ law_ticket) by (by apply rk_ticket_of). cbn [rbind]. by apply ticket_rk_roundtrip.
Qed.
Lemma enc_ticket_roundtrip e : enc_ticket_ok e -> decode_enc_ticket_part (encode_enc_ticket_part e) = Ok e.
Proof using RL.
  intros []. unfold decode_enc_ticket_part, encode_enc_ticket_part. rewrite !to_krb_time_id by done. rewrite (of_to_der _ _ law_enc_ticket).
  2: { unfold rk_enc_ticket_ok. cbn. wire_side. constructor; [|done]. unfold rk_typed_ok, is_i32, AD_CLIENT_UUID_TYPE. cbn. lia. }
  cbn [rbind ret_key ret_flags ret_crealm ret_cname ret_auth_time ret_start_time ret_end_time ret_renew_till ret_authorization_data].
  rewrite encryption_key_roundtrip by done. cbn [rbind]. wire_ids. by destruct e.
Qed.
Lemma enc_rep_roundtrip e : enc_rep_ok e -> decode_enc_kdc_rep_part (encode_enc_kdc_rep_part e) = Ok e.
Proof using RL.
  intros []. unfold decode_enc_kdc_rep_part, encode_enc_kdc_rep_part. rewrite !to_krb_time_id by done. rewrite (of_to_der _ _ law_enc_rep).
  2: { unfold rk_enc_rep_ok. cbn. wire_side. constructor; [|done]. split; [by apply is_i32_small|done]. }
  cbn [rbind rer_key rer_last_req rer_nonce rer_auth_time rer_start_time rer_end_time rer_renew_till rer_srealm rer_sname].
  rewrite encryption_key_roundtrip by done. cbn [rbind]. wire_ids. by destruct e.
Qed.
Lemma etypes_i32 l : Forall is_i32 (map EType_u32 l).
Proof. induction l; constructor; [apply etype_i32|done]. Qed.
Lemma as_req_roundtrip r : as_req_ok r -> decode_as_req (encode_as_req r) = Ok r.
Proof using RL.
  intros []. unfold decode_as_req, encode_as_req. rewrite to_krb_time_id by done. rewrite (of_to_der _ _ law_as_req).
  2: { unfold rk_req_ok. cbn. wire_side; [by apply pa_data_of|apply etypes_i32]. }
  cbn [rbind as_req_0 rrq_pvno rrq_msg_type rrq_realm rrq_cname rrq_nonce rrq_etype rrq_padata rrq_till fmap option_fmap option_map default from_option id].
  rewrite etypes_roundtrip, pa_data_roundtrip by done. wire_ids. by destruct r.
Qed.
Lemma rk_rep_of r : rep_ok r -> rk_rep_ok (encode_rep r).
Proof. intros []. unfold rk_rep_ok. cbn [encode_rep rrp_pvno rrp_msg_type rrp_crealm rrp_cname rrp_ticket rrp_enc_part]. split_and!; wire_side. by apply rk_ticket_of. Qed.
Lemma rep_rk_roundtrip r d : rep_ok r -> decode_rep (encode_rep r) d = Ok r.
Proof.
  intros []. unfold decode_rep. cbn [encode_rep rrp_pvno rrp_msg_type rrp_crealm rrp_cname rrp_ticket rrp_enc_part]. rewrite ticket_rk_roundtrip by done. cbn [rbind].
  rewrite encrypted_roundtrip. cbn [rbind]. rewrite !integer_u32_id, principal_roundtrip, general_string_id, lossy_id by done. by destruct r.
Qed.
Lemma as_rep_roundtrip r : rep_ok r -> decode_as_rep (encode_as_rep r) = Ok r.
Proof using RL. intros H. unfold decode_as_rep, encode_as_rep. rewrite (of_to_der _ _ law_as_rep) by (by apply rk_rep_of). by apply rep_rk_roundtrip. Qed.
Lemma tgs_rep_roundtrip r : rep_ok r -> decode_tgs_rep (encode_tgs_rep r) = Ok r.
Proof using RL. intros H. unfold decode_tgs_rep, encode_tgs_rep. rewrite (of_to_der _ _ law_tgs_rep) by (by apply rk_rep_of). by apply rep_rk_roundtrip. Qed.
Lemma tgs_req_roundtrip r : tgs_req_ok r -> decode_tgs_req (encode_tgs_req r) = Ok r.
Proof using RL.
  intros []. unfold decode_tgs_req, encode_tgs_req. rewrite to_krb_time_id by done. rewrite (of_to_der _ _ law_tgs_req).
  2: { unfold rk_req_ok. cbn. wire_side; [|apply etypes_i32]. constructor; [|done]. by apply is_i32_small. }
  cbn [rbind tgs_req_0 rrq_padata default from_option id find_ap_req td_type td_value]. rewrite Z.eqb_refl.
  rewrite (of_to_der _ _ law_ap_req).
  2: { unfold rk_ap_req_ok, build_ap_req. cbn [rap_pvno rap_msg_type rap_options rap_ticket rap_authenticator]. wire_side; [by apply integer_of|by apply integer_of|by apply rk_ticket_of|split; [apply etype_i32|done]]. }
  cbn [rbind]. unfold parse_ap_req. cbn [build_ap_req rap_ticket rap_authenticator ed_cipher]. rewrite ticket_rk_roundtrip by done.
  cbn [rbind rrq_pvno rrq_msg_type rrq_realm rrq_sname rrq_nonce rrq_etype rrq_till fmap option_fmap option_map default from_option id].
  rewrite etypes_roundtrip. wire_ids. by destruct r.
Qed.
Lemma authenticator_roundtrip a : authenticator_ok a -> decode_authenticator (encode_authenticator a) = Ok a.
Proof using RL.
  intros []. unfold decode_authenticator, encode_authenticator. rewrite to_krb_time_id by done. rewrite (of_to_der _ _ law_authenticator).
  2: { unfold rk_authenticator_ok. cbn. wire_side; [by apply integer_of|]. destruct (auth_subkey a); [apply rk_key_of|done]. }
  cbn [rbind rau_subkey rau_crealm rau_cname rau_seq_number rau_ctime rau_cusec default from_option id].
  assert (match to_encryption_key <$> auth_subkey a with None => Ok None | Some k => let? key := from_encryption_key k in Ok (Some key) end
    = @Ok DecodeError _ (auth_subkey a)) as ->.
  { destruct (auth_subkey a) as [k|]; [|done]. cbn [fmap option_fmap option_map]. by rewrite encryption_key_roundtrip. }
  cbn [rbind]. wire_ids. by destruct a.
Qed.
End Messages.

(** Every message of the KDC whose fields are in range decodes from its
    encoding to itself: timestamps, encrypted ticket parts, tickets, encrypted
    reply parts, AS and TGS requests and replies, authenticators. *)
Theorem kdc_wire_roundtrip {RK : Rasn} {RL : RasnLaws} :
  (forall p, ts_ok p -> decode_pa_enc_ts_enc (encode_pa_enc_ts_enc p) = Ok p)
  /\ (forall e, enc_ticket_ok e -> decode_enc_ticket_part (encode_enc_ticket_part e) = Ok e)
  /\ (forall t, ticket_ok t -> decode_ticket (encode_ticket t) = Ok t)
  /\ (forall e, enc_rep_ok e -> decode_enc_kdc_rep_part (encode_enc_kdc_rep_part e) = Ok e)
  /\ (forall r, as_req_ok r -> decode_as_req (encode_as_req r) = Ok r)
  /\ (forall r, rep_ok r -> decode_as_rep (encode_as_rep r) = Ok r)
  /\ (forall r, tgs_req_ok r -> decode_tgs_req (encode_tgs_req r) = Ok r)
  /\ (forall r, rep_ok r -> decode_tgs_rep (encode_tgs_rep r) = Ok r)
  /\ (forall a, authenticator_ok a -> decode_authenticator (encode_authenticator a) = Ok a).
Proof.
  split_and!; [apply ts_roundtrip|apply enc_ticket_roundtrip|apply ticket_roundtrip|apply enc_rep_roundtrip|apply as_req_roundtrip
    |apply as_rep_roundtrip|apply tgs_req_roundtrip|apply tgs_rep_roundtrip|apply authenticator_roundtrip].
Qed.

(** ** A codec that satisfies the laws

    Every structure is countable. *)
#[local] Instance Integer_eq_dec : EqDecision Integer.
Proof. solve_decision. Defined.
#[local] Instance Integer_countable : Countable Integer.
Proof.
  apply (inj_countable' (fun i => match i with IntPrimitive v => inl v | IntVariable v => inr v end)
    (fun s => match s with inl v => IntPrimitive v | inr v => IntVariable v end)). by intros [].
Defined.
#[local] Instance rkPrincipalName_eq_dec : EqDecision rkPrincipalName.
Proof. solve_decision. Defined.
#[local] Instance rkPrincipalName_countable : Countable rkPrincipalName.
Proof. record_countable (fun r => (pn_type r, pn_string r)) (fun p : Z * list bytes => mkRkPrincipalName p.1 p.2). Defined.
#[local] Instance rkEncryptedData_eq_dec : EqDecision rkEncryptedData.
Proof. solve_decision. Defined.
#[local] Instance rkEncryptedData_countable : Countable rkEncryptedData.
Proof. record_countable (fun r => (ed_etype r, ed_kvno r, ed_cipher r)) (fun p : Z * option Z * bytes => mkRkEncryptedData p.1.1 p.1.2 p.2). Defined.
#[local] Instance rkEncryptionKey_eq_dec : EqDecision rkEncryptionKey.
Proof. solve_decision. Defined.
#[local] Instance rkEncryptionKey_countable : Countable rkEncryptionKey.
Proof. record_countable (fun r => (ek_type r, ek_value r)) (fun p : Z * bytes => mkRkEncryptionKey p.1 p.2). Defined.
#[local] Instance rkTypedData_eq_dec : EqDecision rkTypedData.
Proof. solve_decision. Defined.
#[local] Instance rkTypedData_countable : Countable rkTypedData.
Proof. record_countable (fun r => (td_type r, td_value r)) (fun p : Z * bytes => mkRkTypedData p.1 p.2). Defined.
#[local] Instance rkPaEncTsEnc_eq_dec : EqDecision rkPaEncTsEnc.
Proof. solve_decision. Defined.
#[local] Instance rkPaEncTsEnc_countable : Countable rkPaEncTsEnc.
Proof. record_countable (fun r => (rts_patimestamp r, rts_pausec r)) (fun p : Z * option Integer => mkRkPaEncTsEnc p.1 p.2). Defined.
#[local] Instance rkEncTicketPart_eq_dec : EqDecision rkEncTicketPart.
Proof. solve_decision. Defined.
#[local] Instance rkEncTicketPart_countable : Countable rkEncTicketPart.
Proof.
  record_countable (fun r => (ret_flags r, ret_key r, (ret_crealm r, ret_cname r, ret_transited r),
      (ret_auth_time r, ret_start_time r, ret_end_time r, ret_renew_till r), ret_authorization_data r))
    (fun p : bytes * rkEncryptionKey * (bytes * rkPrincipalName * rkTypedData) * (Z * option Z * Z * option Z) * option (list rkTypedData) =>
      let '(f, k, (cr, cn, t), (a, s, e, r), d) := p in mkRkEncTicketPart f k cr cn t a s e r d).
Defined.
#[local] Instance rkTicket_eq_dec : EqDecision rkTicket.
Proof. solve_decision. Defined.
#[local] Instance rkTicket_countable : Countable rkTicket.
Proof.
  record_countable (fun r => (rtk_vno r, rtk_realm r, rtk_sname r, rtk_enc_part r))
    (fun p : Integer * bytes * rkPrincipalName * rkEncryptedData => let '(v, r, s, e) := p in mkRkTicket v r s e).
Defined.
#[local] Instance rkEncKdcRepPart_eq_dec : EqDecision rkEncKdcRepPart.
Proof. solve_decision. Defined.
#[local] Instance rkEncKdcRepPart_countable : Countable rkEncKdcRepPart.
Proof.
  record_countable (fun r => (rer_key r, rer_last_req r, rer_nonce r, rer_flags r,
      (rer_auth_time r, rer_start_time r, rer_end_time r, rer_renew_till r), rer_srealm r, rer_sname r))
    (fun p : rkEncryptionKey * list (Z * Z) * Z * bytes * (Z * option Z * Z * option Z) * bytes * rkPrincipalName =>
      let '(k, l, n, f, (a, s, e, r), sr, sn) := p in mkRkEncKdcRepPart k l n f a s e r sr sn).
Defined.
#[local] Instance rkKdcReq_eq_dec : EqDecision rkKdcReq.
Proof. solve_decision. Defined.
#[local] Instance rkKdcReq_countable : Countable rkKdcReq.
Proof.
  record_countable (fun r => (rrq_pvno r, rrq_msg_type r, rrq_padata r, rrq_kdc_options r, rrq_cname r, rrq_realm r, rrq_sname r, (rrq_till r, rrq_nonce r, rrq_etype r)))
    (fun p : Integer * Integer * option (list rkTypedData) * bytes * option rkPrincipalName * bytes * option rkPrincipalName * (Z * Z * list Z) =>
      let '(v, m, d, o, c, r, s, (t, n, e)) := p in mkRkKdcReq v m d o c r s t n e).
Defined.
#[local] Instance rkKdcRep_eq_dec : EqDecision rkKdcRep.
Proof. solve_decision. Defined.
#[local] Instance rkKdcRep_countable : Countable rkKdcRep.
Proof.
  record_countable (fun r => (rrp_pvno r, rrp_msg_type r, rrp_crealm r, rrp_cname r, rrp_ticket r, rrp_enc_part r))
    (fun p : Integer * Integer * bytes * rkPrincipalName * rkTicket * rkEncryptedData => let '(v, m, c, n, t, e) := p in mkRkKdcRep v m c n t e).
Defined.
#[local] Instance rkApReq_eq_dec : EqDecision rkApReq.
Proof. solve_decision. Defined.
#[local] Instance rkApReq_countable : Countable rkApReq.
Proof.
  record_countable (fun r => (rap_pvno r, rap_msg_type r, rap_options r, rap_ticket r, rap_authenticator r))
    (fun p : Integer * Integer * bytes * rkTicket * rkEncryptedData => let '(v, m, o, t, a) := p in mkRkApReq v m o t a).
Defined.
#[local] Instance rkAuthenticator_eq_dec : EqDecision rkAuthenticator.
Proof. solve_decision. Defined.
#[local] Instance rkAuthenticator_countable : Countable rkAuthenticator.
Proof.
  record_countable (fun r => (rau_vno r, rau_crealm r, rau_cname r, rau_cusec r, rau_ctime r, rau_subkey r, rau_seq_number r))
    (fun p : Integer * bytes * rkPrincipalName * Integer * Z * option rkEncryptionKey * option Z => let '(v, c, n, u, t, k, s) := p in mkRkAuthenticator v c n u t k s).
Defined.
#[local] Instance rkAsReq_eq_dec : EqDecision rkAsReq.
Proof. solve_decision. Defined.
#[local] Instance rkAsReq_countable : Countable rkAsReq.
Proof. record_countable as_req_0 mkRkAsReq. Defined.
#[local] Instance rkTgsReq_eq_dec : EqDecision rkTgsReq.
Proof. solve_decision. Defined.
#[local] Instance rkTgsReq_countable : Countable rkTgsReq.
Proof. record_countable tgs_req_0 mkRkTgsReq. Defined.
#[local] Instance rkAsRep_eq_dec : EqDecision rkAsRep.
Proof. solve_decision. Defined.
#[local] Instance rkAsRep_countable : Countable rkAsRep.
Proof. record_countable as_rep_0 mkRkAsRep. Defined.
#[local] Instance rkTgsRep_eq_dec : EqDecision rkTgsRep.
Proof. solve_decision. Defined.
#[local] Instance rkTgsRep_countable : Countable rkTgsRep.
Proof. record_countable tgs_rep_0 mkRkTgsRep. Defined.

Definition sample_rasn : Rasn := {|
  general_string_ok s := forallb (fun b => (32 <=? b2z b) && (b2z b <? 127)) s;
  in_chrono_range t := (0 <=? t) && (t <? 253402300800);
  kdc_options_reserved := [x80];
  der_ts := countable_der _; der_enc_ticket := countable_der _; der_ticket := countable_der _; der_enc_rep := countable_der _;
  der_as_req := countable_der _; der_tgs_req := countable_der _; der_as_rep := countable_der _; der_tgs_rep := countable_der _;
  der_ap_req := countable_der _; der_authenticator := countable_der _ |}.
Lemma sample_rasn_laws : @RasnLaws sample_rasn.
Proof.
  split; try apply countable_der_law.
  - intros s H. apply forallb_forall. intros b Hb. apply (proj1 (List.Forall_forall _ _) H) in Hb. lia.
  - intros t Ht. unfold krb_time_ok in Ht. cbn. lia.
Qed.
Lemma kdc_wire_roundtrip_witness :
  let p := mkPaEncTsEnc 1700000000 42 in
  @decode_pa_enc_ts_enc sample_rasn (@encode_pa_enc_ts_enc sample_rasn p) = Ok p.
Proof. apply (@kdc_wire_roundtrip sample_rasn sample_rasn_laws). split; [unfold krb_time_ok; cbn; lia|done]. Defined.
