(* ===== verification/KdcHandlers.v ===== *)
(** * KdcHandlers: the principal store and the AS and TGS exchanges
    ([adrian-kdc], [store.rs] and [handlers.rs])

    The clock, the random number generator and the metrics registry are the
    [World] the handlers run in: the [i]-th reading of the clock, the [i]-th draw
    of random bytes, and the calls made to the registry.  Durations and tracing
    are not modelled. *)
From S2P Require Import Prelude Bytes Text StorageKeys KdcCrypto KdcKeys Kdc KdcWire.

(** ** The principal store *)

Record PrincipalRecord := mkPrincipalRecord {
  pr_uuid : Uuid;
  pr_realm : bytes;
  pr_components : list bytes;
  pr_key : Aes256Key;
  pr_kvno : Z;
}.
Definition PrincipalRecord_new (uuid : Uuid) (realm : bytes) (components : list bytes) (key : Aes256Key) : PrincipalRecord :=
  mkPrincipalRecord uuid realm components key 1.
Definition salt (p : PrincipalRecord) : bytes := pr_realm p ++ concat (pr_components p).
Definition is_krbtgt (p : PrincipalRecord) : bool :=
  match pr_components p with
  | [c0; c1] => eq_ignore_ascii_case c0 (lit "krbtgt") && eq_ignore_ascii_case c1 (pr_realm p)
  | _ => false
  end.

(** The trait: lookup by realm and name. *)
Class PrincipalStore := lookup_principal : bytes -> list bytes -> Result StoreError (option PrincipalRecord).

Definition ascii_upper (b : byte) : byte := if (97 <=? b2z b) && (b2z b <=? 122) then z2b (b2z b - 32) else b.
Definition to_ascii_uppercase (s : bytes) : bytes := map ascii_upper s.
Definition InMemoryPrincipalStore : Type := gmap (bytes * bytes) PrincipalRecord.
Definition InMemoryPrincipalStore_new : InMemoryPrincipalStore := ∅.
Definition normalize_key (realm : bytes) (components : list bytes) : bytes * bytes :=
  (to_ascii_uppercase realm, join_with x2f (map to_ascii_lowercase components)).
Definition principal_insert (store : InMemoryPrincipalStore) (rec : PrincipalRecord) : InMemoryPrincipalStore :=
  <[normalize_key (pr_realm rec) (pr_components rec) := rec]> store.
Definition principal_len (store : InMemoryPrincipalStore) : nat := size store.
Definition principal_is_empty (store : InMemoryPrincipalStore) : bool := bool_decide (store = ∅).
Definition principal_lookup (store : InMemoryPrincipalStore) (realm : bytes) (components : list bytes) : Result StoreError (option PrincipalRecord) :=
  Ok (store !! normalize_key realm components).
#[global] Instance InMemoryPrincipalStore_store (store : InMemoryPrincipalStore) : PrincipalStore := principal_lookup store.

(** ** The world of the handlers *)

(** The calls of the handlers to the metrics registry. *)
Inductive MetricCall := IncAsReq (realm label : bytes) | ObserveAsReqDuration.
Record World := mkWorld {
  clock : nat -> Z;
  ticks : nat;
  entropy : nat -> nat -> option bytes;
  draws : nat;
  metric_calls : list MetricCall;
}.
Definition K (A : Type) : Type := World -> Result KdcError A * World.
Definition kret {A} (r : Result KdcError A) : K A := fun w => (r, w).
Definition kbind {A B} (m : K A) (f : A -> K B) : K B :=
  fun w => match m w with
           | (Ok a, w) => f a w
           | (Err e, w) => (Err e, w)
           | (Panic, w) => (Panic, w)
           end.
Notation "'let*' x := e 'in' k" := (kbind e (fun x => k))
  (at level 10, x pattern, e at level 200, k at level 200,
   format "'[v' 'let*'  x  :=  e  'in' '/' k ']'") : adrian_scope.

Definition now_secs : K Z :=
  fun w => (Ok (clock w (ticks w)), mkWorld (clock w) (S (ticks w)) (entropy w) (draws w) (metric_calls w)).
Definition random_bytes (len : nat) : K bytes :=
  fun w => (ok_or (entropy w (draws w) len) (Storage RandomFailed),
            mkWorld (clock w) (ticks w) (entropy w) (S (draws w)) (metric_calls w)).
Definition random_session_key : K bytes :=
  let* buf := random_bytes SESSION_KEY_LEN in
  kret (if (length buf =? SESSION_KEY_LEN)%nat then Ok buf else Panic).
(** [if let Some(m) = metrics]. *)
Definition metric (metrics : bool) (c : MetricCall) : K unit :=
  fun w => (Ok tt, if metrics then mkWorld (clock w) (ticks w) (entropy w) (draws w) (metric_calls w ++ [c]) else w).

(** [-] and [abs] on [i64] under the dev profile. *)
Definition i64_sub {E} (a b : Z) : Result E Z :=
  if (- 2 ^ 63 <=? a - b) && (a - b <? 2 ^ 63) then Ok (a - b) else Panic.
Definition i64_abs {E} (a : Z) : Result E Z := if Z.abs a <? 2 ^ 63 then Ok (Z.abs a) else Panic.

(** ** The handlers *)

Definition PA_ENC_TIMESTAMP_TYPE : Z := 2.
Definition KEY_USAGE_AS_REQ_PA_ENC_TIMESTAMP : Z := 1.
Definition KEY_USAGE_AS_REP_TGT : Z := 2.
Definition KEY_USAGE_AS_REP_ENC_PART : Z := 3.
Definition KEY_USAGE_TGS_REQ_AUTHENTICATOR : Z := 7.
Definition KEY_USAGE_TGS_REP_ENC_PART : Z := 8.
Definition KEY_USAGE_TGS_REP_TICKET : Z := 2.
Definition CLOCK_SKEW_TOLERANCE_SECS : Z := 5 * 60.
Definition DEFAULT_TGT_LIFETIME_SECS : Z := 10 * 60 * 60.
Definition DEFAULT_SVC_TICKET_LIFETIME_SECS : Z := 10 * 60 * 60.
Definition TICKET_FLAG_FORWARDABLE : Z := Z.shiftl 1 1.
Definition TICKET_FLAG_RENEWABLE : Z := Z.shiftl 1 8.

Definition etype_label (e : EType) : bytes :=
  match e with
  | Aes256CtsHmacSha1_96 => lit "aes256-cts-hmac-sha1-96"
  | Aes128CtsHmacSha1_96 => lit "aes128-cts-hmac-sha1-96"
  | Aes128CtsHmacSha256_128 => lit "aes128-cts-hmac-sha256-128"
  | Aes256CtsHmacSha384_192 => lit "aes256-cts-hmac-sha384-192"
  | Rc4Hmac => lit "rc4-hmac"
  end.
Definition offers (offered : list EType) (e : EType) : bool := bool_decide (e ∈ offered).
Definition negotiate_etype (offered : list EType) : Result KdcError EType :=
  if offers offered Aes256CtsHmacSha1_96 then Ok Aes256CtsHmacSha1_96
  else if offers offered Aes128CtsHmacSha1_96 then Ok Aes128CtsHmacSha1_96
  else if offers offered Aes256CtsHmacSha384_192 then Ok Aes256CtsHmacSha384_192
  else if offers offered Aes128CtsHmacSha256_128 then Ok Aes128CtsHmacSha256_128
  else if offers offered Rc4Hmac then Err (Policy Rc4Disabled)
  else Err (ETypeUnsupported Aes256CtsHmacSha1_96).
Fixpoint find_pa_enc_timestamp (padata : list PaData) : option bytes :=
  match padata with
  | [] => None
  | p :: padata => if padata_type p =? PA_ENC_TIMESTAMP_TYPE then Some (padata_value p) else find_pa_enc_timestamp padata
  end.
Fixpoint principal_names_eq (a b : list bytes) : bool :=
  match a, b with
  | [], [] => true
  | x :: a, y :: b => eq_ignore_ascii_case x y && principal_names_eq a b
  | _, _ => false
  end.
Definition decoded {A} (r : Result DecodeError A) : Result KdcError A := map_err (fun e => Storage (DecodeFailed e)) r.

Section Handlers.
Context (encrypt_block decrypt_block : Aes256Key -> bytes -> bytes) (hmac_sha1 : bytes -> bytes -> bytes).
Context {RK : Rasn}.

Definition encrypt_for_usage (base_key : Aes256Key) (key_usage : Z) (plaintext : bytes) : K bytes :=
  let* ke := kret (derive_encryption_key encrypt_block base_key key_usage) in
  let* ki := kret (derive_integrity_key encrypt_block base_key key_usage) in
  let* confounder := random_bytes CONFOUNDER_LEN in
  let full := confounder ++ plaintext in
  let* ct := kret (map_err (fun e => Storage (AesEncryptFailed e)) (aes256_cts_encrypt encrypt_block ke full)) in
  kret (Ok (ct ++ hmac_sha1_96 hmac_sha1 ki full)).
Definition decrypt_for_usage (base_key : Aes256Key) (key_usage : Z) (cipher_blob : bytes) : Result KdcError bytes :=
  let? ke := derive_encryption_key encrypt_block base_key key_usage in
  let? ki := derive_integrity_key encrypt_block base_key key_usage in
  if (length cipher_blob <? CONFOUNDER_LEN + HMAC_SHA1_96_LEN)%nat
  then Err (Storage (CipherTooShort (length cipher_blob) (CONFOUNDER_LEN + HMAC_SHA1_96_LEN)))
  else
    let ct_len := (length cipher_blob - HMAC_SHA1_96_LEN)%nat in
    let? pt_with_confounder := map_err (fun e => Storage (AesDecryptFailed e)) (aes256_cts_decrypt decrypt_block ke (take ct_len cipher_blob)) in
    if negb (bool_decide (hmac_sha1_96 hmac_sha1 ki pt_with_confounder = drop ct_len cipher_blob))
    then Err (PreauthFailed PreauthHmacMismatch)
    else slice pt_with_confounder CONFOUNDER_LEN (length pt_with_confounder).

Definition verify_pa_enc_timestamp (client : PrincipalRecord) (blob : bytes) : K unit :=
  let* plaintext := kret (map_err (fun _ => PreauthFailed PreauthDecryptFailed)
                            (decrypt_for_usage (pr_key client) KEY_USAGE_AS_REQ_PA_ENC_TIMESTAMP blob)) in
  let* ts := kret (decoded (decode_pa_enc_ts_enc plaintext)) in
  let* now := now_secs in
  let* skew := kret (i64_sub now (patimestamp ts)) in
  let* skew_abs := kret (i64_abs skew) in
  kret (if CLOCK_SKEW_TOLERANCE_SECS <? skew_abs then Err (PreauthFailed (ClockSkew skew)) else Ok tt).

(** The two encrypted parts share their times: [now] and the lifetime. *)
Definition ticket_times (now lifetime : Z) : Result KdcError (Z * Z) :=
  let? endtime := i64_add now lifetime in
  let? renew_till := i64_add now (2 * lifetime) in
  Ok (endtime, renew_till).

Section Store.
Context {PS : PrincipalStore}.

Definition handle_as_req_with_metrics (krbtgt_key : Aes256Key) (req_bytes : bytes) (metrics : bool) : K bytes :=
  let* req := kret (decoded (decode_as_req req_bytes)) in
  let* chosen_etype := kret (negotiate_etype (ar_etypes req)) in
  let* _ := metric metrics (IncAsReq (ar_realm req) (etype_label chosen_etype)) in
  let* found := kret (map_err (fun e => Storage (PrincipalLookupFailed e)) (lookup_principal (ar_realm req) (ar_cname req))) in
  let* client := kret (ok_or found (PrincipalNotFound (ar_realm req) (join_with x2f (ar_cname req)))) in
  let* _ := match find_pa_enc_timestamp (ar_padata req) with
            | Some blob => verify_pa_enc_timestamp client blob
            | None => kret (Err PreauthRequired)
            end in
  let* now := now_secs in
  let* session_key := random_session_key in
  let* (endtime, renew_till) := kret (ticket_times now DEFAULT_TGT_LIFETIME_SECS) in
  let enc_ticket_part := mkEncTicketPart (Z.lor TICKET_FLAG_FORWARDABLE TICKET_FLAG_RENEWABLE) (pr_realm client) (pr_components client)
                           session_key now now endtime renew_till (pr_uuid client) in
  let* ticket_enc := encrypt_for_usage krbtgt_key KEY_USAGE_AS_REP_TGT (encode_enc_ticket_part enc_ticket_part) in
  let tgt := mkTicket PVNO (pr_realm client) [lit "krbtgt"; pr_realm client] 1 chosen_etype ticket_enc in
  let enc_rep_part := mkEncKdcRepPart session_key now (ar_nonce req) now now endtime renew_till (pr_realm client) (pr_components client) in
  let* enc_part := encrypt_for_usage (pr_key client) KEY_USAGE_AS_REP_ENC_PART (encode_enc_kdc_rep_part enc_rep_part) in
  let* _ := metric metrics ObserveAsReqDuration in
  kret (Ok (encode_as_rep (mkKdcRep PVNO MSG_TYPE_AS_REP (pr_realm client) (pr_components client) tgt chosen_etype (pr_kvno client) enc_part))).
Definition handle_as_req (krbtgt_key : Aes256Key) (req_bytes : bytes) : K bytes := handle_as_req_with_metrics krbtgt_key req_bytes false.

Definition handle_tgs_req_with_metrics (krbtgt_key : Aes256Key) (req_bytes : bytes) (metrics : bool) : K bytes :=
  let* req := kret (decoded (decode_tgs_req req_bytes)) in
  let* chosen_etype := kret (negotiate_etype (tr_etypes req)) in
  let* _ := metric metrics (IncAsReq (tr_realm req) (lit "tgs_req")) in
  let* tgt_plaintext := kret (decrypt_for_usage krbtgt_key KEY_USAGE_AS_REP_TGT (tkt_enc_part (tr_tgt req))) in
  let* enc_ticket_part := kret (decoded (decode_enc_ticket_part tgt_plaintext)) in
  let session_key := etp_session_key enc_ticket_part in
  let* auth_plaintext := kret (decrypt_for_usage session_key KEY_USAGE_TGS_REQ_AUTHENTICATOR (tr_authenticator_enc req)) in
  let* authenticator := kret (decoded (decode_authenticator auth_plaintext)) in
  let* _ := kret (if negb (principal_names_eq (auth_cname authenticator) (etp_cname enc_ticket_part))
                  then Err (PreauthFailed CnameMismatch) else Ok tt) in
  let* found := kret (map_err (fun e => Storage (ServiceLookupFailed e)) (lookup_principal (tr_realm req) (tr_sname req))) in
  let* svc := kret (ok_or found (PrincipalNotFound (tr_realm req) (join_with x2f (tr_sname req)))) in
  let* now := now_secs in
  let* (endtime, renew_till) := kret (ticket_times now DEFAULT_SVC_TICKET_LIFETIME_SECS) in
  let svc_enc_ticket_part := mkEncTicketPart (etp_flags enc_ticket_part) (etp_crealm enc_ticket_part) (etp_cname enc_ticket_part) session_key
                               now now endtime renew_till (etp_client_uuid enc_ticket_part) in
  let* svc_ticket_enc := encrypt_for_usage (pr_key svc) KEY_USAGE_TGS_REP_TICKET (encode_enc_ticket_part svc_enc_ticket_part) in
  let svc_ticket := mkTicket PVNO (pr_realm svc) (pr_components svc) (pr_kvno svc) chosen_etype svc_ticket_enc in
  let enc_rep_part := mkEncKdcRepPart session_key now (tr_nonce req) now now endtime renew_till (pr_realm svc) (etp_cname enc_ticket_part) in
  let* enc_part := encrypt_for_usage session_key KEY_USAGE_TGS_REP_ENC_PART (encode_enc_kdc_rep_part enc_rep_part) in
  let* _ := metric metrics ObserveAsReqDuration in
  kret (Ok (encode_tgs_rep (mkKdcRep PVNO MSG_TYPE_TGS_REP (etp_crealm enc_ticket_part) (etp_cname enc_ticket_part) svc_ticket chosen_etype
    (tkt_kvno (tr_tgt req)) enc_part))).
Definition handle_tgs_req (krbtgt_key : Aes256Key) (req_bytes : bytes) : K bytes := handle_tgs_req_with_metrics krbtgt_key req_bytes false.
End Store.
End Handlers.
