(* ===== verification/KdcSpec.v ===== *)
(** * KdcSpec: the AS and TGS exchanges

    A reply of either handler is issued only on the evidence the exchange asks
    for, and a client that follows the protocol gets from its password key to a
    service ticket whose session key it shares with the service. *)
From S2P Require Import Prelude Bytes Text StorageKeys KdcCrypto KdcKeys Kdc KdcWire KdcWireProofs KdcHandlers.

(** ** Running the handlers *)

Lemma kbind_Ok_inv {A B} (m : K A) (f : A -> K B) w b w' : kbind m f w = (Ok b, w') -> exists a w1, m w = (Ok a, w1) /\ f a w1 = (Ok b, w').
Proof. unfold kbind. destruct (m w) as [[a|e|] w1]; [|by intros [=]|by intros [=]]. eauto. Qed.
Lemma kret_Ok_inv {A} (r : Result KdcError A) w a w' : kret r w = (Ok a, w') -> r = Ok a /\ w' = w.
Proof. by intros [=-> ->]. Qed.
Lemma kbind_Ok {A B} (m : K A) (f : A -> K B) w a w1 : m w = (Ok a, w1) -> kbind m f w = f a w1.
Proof. unfold kbind. by intros ->. Qed.
Lemma kbind_ret {A B} (r : Result KdcError A) (f : A -> K B) w a : r = Ok a -> kbind (kret r) f w = f a w.
Proof. by intros ->. Qed.
Ltac inv_k :=
  repeat match goal with
  | H : kbind _ _ _ = (Ok _, _) |- _ =>
      let a := fresh "a" in let w := fresh "w" in let H1 := fresh "Hk" in apply kbind_Ok_inv in H as (a & w & H1 & H); cbv beta in H
  | H : kret _ _ = (Ok _, _) |- _ => let H1 := fresh "Hw" in apply kret_Ok_inv in H as [H H1]; subst
  | H : map_err _ _ = Ok _ |- _ => apply map_err_Ok_inv in H
  end.

Section Kdc.
Context (E D : Aes256Key -> bytes -> bytes) (hmac_sha1 : bytes -> bytes -> bytes).
Context (HE : BlockCipher E D) (Hmac : forall k d, length (hmac_sha1 k d) = 20%nat).

(** ** Sealing: the blob of a plaintext under a key usage *)

Definition seal (key : Aes256Key) (usage : Z) (confounder plaintext : bytes) : Result KdcError bytes :=
  let? ke := derive_encryption_key E key usage in
  let? ki := derive_integrity_key E key usage in
  let full := confounder ++ plaintext in
  let? ct := map_err (fun e => Storage (AesEncryptFailed e)) (aes256_cts_encrypt E ke full) in
  Ok (ct ++ hmac_sha1_96 hmac_sha1 ki full).
Abbreviation unseal := (decrypt_for_usage E D hmac_sha1).

Lemma derived_Ok key usage tag : exists k, @dr_derive E KdcError key (derivation_constant usage tag) = Ok k.
Proof using HE. destruct (derived_length (Er:=KdcError) E D HE key usage tag) as (k & Hk & _). by exists k. Qed.
Lemma length_tag k d : length (hmac_sha1_96 hmac_sha1 k d) = HMAC_SHA1_96_LEN.
Proof using Hmac. unfold hmac_sha1_96, HMAC_SHA1_96_LEN. rewrite length_take, Hmac. lia. Qed.

Lemma seal_unseal key usage confounder plaintext : length confounder = CONFOUNDER_LEN ->
  exists blob, seal key usage confounder plaintext = Ok blob /\ unseal key usage blob = Ok plaintext.
Proof using HE Hmac.
  intros Hc. unfold seal, decrypt_for_usage, derive_encryption_key, derive_integrity_key. destruct (derived_Ok key usage KE_TAG) as [ke ->]. destruct (derived_Ok key usage KI_TAG) as [ki ->].
  cbn [rbind]. set (full := confounder ++ plaintext). assert (length full = (16 + length plaintext)%nat) as Hlf by (unfold full; rewrite length_app, Hc; done).
  destruct (cts_decrypt_encrypt E D HE ke full) as (ct & He & Hl & Hd); [unfold AES_BLOCK_LEN; lia|].
  unfold aes256_cts_encrypt, aes256_cts_decrypt. rewrite He. cbn [map_err rbind]. eexists. split; [done|].
  pose proof (length_tag ki full) as Ht. set (tag := hmac_sha1_96 hmac_sha1 ki full) in *.
  rewrite length_app, Ht. rewrite (proj2 (Nat.ltb_ge _ _)) by (unfold CONFOUNDER_LEN, AES_BLOCK_LEN; lia). rewrite Nat.add_sub.
  rewrite take_app_length, Hd. cbn [map_err rbind]. rewrite drop_app_length. fold tag. rewrite bool_decide_eq_true_2 by done. cbn [negb].
  rewrite slice_Ok by (unfold CONFOUNDER_LEN, AES_BLOCK_LEN; lia). unfold full. rewrite <-Hc at 1. rewrite drop_app_length' by done. f_equal. apply take_ge. rewrite length_app. lia.
Qed.
Lemma unseal_sealed key usage blob plaintext : unseal key usage blob = Ok plaintext ->
  exists confounder, length confounder = CONFOUNDER_LEN /\ seal key usage confounder plaintext = Ok blob.
Proof using HE.
  unfold seal, decrypt_for_usage, derive_encryption_key, derive_integrity_key. destruct (derived_Ok key usage KE_TAG) as [ke ->]. destruct (derived_Ok key usage KI_TAG) as [ki ->].
  cbn [rbind]. destruct (Nat.ltb_spec (length blob) (CONFOUNDER_LEN + HMAC_SHA1_96_LEN)) as [|Hl]; [done|].
  set (ct := take _ blob). set (tag := drop _ blob). assert (length ct = length blob - HMAC_SHA1_96_LEN)%nat as Hct by (unfold ct; rewrite length_take; lia).
  unfold CONFOUNDER_LEN, AES_BLOCK_LEN, HMAC_SHA1_96_LEN in *.
  destruct (cts_encrypt_decrypt E D HE ke ct) as (m & Hd & Hlm & He); [unfold AES_BLOCK_LEN; lia|].
  unfold aes256_cts_decrypt. rewrite Hd. cbn [map_err rbind]. destruct (bool_decide_reflect (hmac_sha1_96 hmac_sha1 ki m = tag)) as [Ht|]; cbn [negb]; [|done].
  rewrite slice_Ok by lia. rewrite take_ge by (rewrite length_drop; lia). intros <-%Ok_inj. exists (take 16 m). split; [rewrite length_take; lia|].
  rewrite take_drop. unfold aes256_cts_encrypt. rewrite He. cbn [map_err rbind]. rewrite Ht. unfold ct, tag. by rewrite take_drop.
Qed.

(** A world whose generator works and whose clock is before the year 10000. *)
Record good_world (w : World) : Prop := {
  gw_entropy : forall i n, exists b, entropy w i n = Some b /\ length b = n;
  gw_clock : forall i, 0 <= clock w i < 253402300800 - 2 * DEFAULT_TGT_LIFETIME_SECS;
}.
(** Only the counters and the metrics change. *)
Definition same_world (w w' : World) : Prop := clock w' = clock w /\ entropy w' = entropy w.
Lemma good_same w w' : good_world w -> same_world w w' -> good_world w'.
Proof. intros [H1 H2] [E1 E2]. split; [by rewrite E2|by rewrite E1]. Qed.

Lemma encrypt_for_usage_Ok key usage plaintext w : good_world w ->
  exists confounder blob w', encrypt_for_usage E hmac_sha1 key usage plaintext w = (Ok blob, w') /\ same_world w w'
    /\ length confounder = CONFOUNDER_LEN /\ seal key usage confounder plaintext = Ok blob /\ unseal key usage blob = Ok plaintext.
Proof using HE Hmac.
  intros Hg. destruct (gw_entropy _ Hg (draws w) CONFOUNDER_LEN) as (c & Hc & Hl). destruct (seal_unseal key usage c plaintext Hl) as (blob & Hs & Hu).
  exists c, blob. pose proof Hs as Hs'. unfold seal in Hs. unfold encrypt_for_usage. destruct (derive_encryption_key E key usage) as [ke|e|]; cbn [rbind] in Hs; try discriminate.
  destruct (derive_integrity_key E key usage) as [ki|e|]; cbn [rbind] in Hs; try discriminate. rewrite !(kbind_ret _ _ _ _ eq_refl).
  erewrite kbind_Ok; [|unfold random_bytes; rewrite Hc; reflexivity].
  destruct (map_err _ (aes256_cts_encrypt E ke (c ++ plaintext))) as [ct|e|] eqn:Ect; cbn [rbind] in Hs; try discriminate.
  rewrite (kbind_ret _ _ _ _ eq_refl). eexists. split; [unfold kret; by rewrite Hs|]. done.
Qed.

(** ** The AS exchange *)

Context {RK : Rasn} {PS : PrincipalStore}.
Definition END : Z := DEFAULT_TGT_LIFETIME_SECS.
Definition tgt_part (client : PrincipalRecord) (sk : bytes) (now : Z) : EncTicketPart :=
  mkEncTicketPart (Z.lor TICKET_FLAG_FORWARDABLE TICKET_FLAG_RENEWABLE) (pr_realm client) (pr_components client) sk now now (now + END) (now + 2 * END) (pr_uuid client).
Definition as_part (client : PrincipalRecord) (nonce : Z) (sk : bytes) (now : Z) : EncKdcRepPart :=
  mkEncKdcRepPart sk now nonce now now (now + END) (now + 2 * END) (pr_realm client) (pr_components client).
Definition as_reply (client : PrincipalRecord) (e : EType) (ticket_enc enc_part : bytes) : AsRep :=
  mkKdcRep PVNO MSG_TYPE_AS_REP (pr_realm client) (pr_components client)
    (mkTicket PVNO (pr_realm client) [lit "krbtgt"; pr_realm client] 1 e ticket_enc) e (pr_kvno client) enc_part.
Abbreviation as_handler := (handle_as_req_with_metrics E D hmac_sha1).
Abbreviation tgs_handler := (handle_tgs_req_with_metrics E D hmac_sha1).

Lemma i64_add_inv {Er} a b c : @i64_add Er a b = Ok c -> c = a + b.
Proof. unfold i64_add, i64_checked_add. destruct (_ && _); [by intros <-%Ok_inj|done]. Qed.
Lemma i64_sub_inv {Er} a b c : @i64_sub Er a b = Ok c -> c = a - b.
Proof. unfold i64_sub. destruct (_ && _); [by intros <-%Ok_inj|done]. Qed.
Lemma i64_abs_inv {Er} a c : @i64_abs Er a = Ok c -> c = Z.abs a.
Proof. unfold i64_abs. destruct (_ <? _); [by intros <-%Ok_inj|done]. Qed.
Lemma ticket_times_inv now l endtime renew : ticket_times now l = Ok (endtime, renew) -> endtime = now + l /\ renew = now + 2 * l.
Proof. unfold ticket_times. intros H. inv_ok. apply i64_add_inv in Hr, Hr0. by simplify_eq. Qed.
Lemma ticket_times_Ok now : 0 <= now < 253402300800 - 2 * END -> ticket_times now END = Ok (now + END, now + 2 * END).
Proof.
  unfold END, DEFAULT_TGT_LIFETIME_SECS. intros H. unfold ticket_times, i64_add, i64_checked_add.
  assert (forall x, 0 <= x < 253402300800 -> (- 2 ^ 63 <=? x) && (x <? 2 ^ 63) = true) as Hr by (intros x Hx; apply andb_true_iff; rewrite Z.leb_le, Z.ltb_lt; lia).
  rewrite Hr by lia. cbn [rbind]. by rewrite Hr by lia.
Qed.
(** The generator fills the whole buffer. *)
Definition entropy_len (w : World) : Prop := forall i n b, entropy w i n = Some b -> length b = n.
Lemma entropy_len_same w w' : entropy_len w -> entropy w' = entropy w -> entropy_len w'.
Proof. intros H He i n b. rewrite He. apply H. Qed.
Lemma good_entropy w : good_world w -> entropy_len w.
Proof. intros Hg i n b Hb. destruct (gw_entropy _ Hg i n) as (b' & Hb' & Hl). congruence. Qed.
Lemma encrypt_seals key usage plaintext w blob w' : entropy_len w -> encrypt_for_usage E hmac_sha1 key usage plaintext w = (Ok blob, w') ->
  entropy w' = entropy w /\ exists confounder, length confounder = CONFOUNDER_LEN /\ seal key usage confounder plaintext = Ok blob.
Proof.
  intros Hent H. unfold encrypt_for_usage in H. inv_k. unfold random_bytes in Hk1. injection Hk1 as Hc <-. split; [reflexivity|].
  destruct (entropy w (draws w) CONFOUNDER_LEN) as [c|] eqn:Ec; [|discriminate Hc]. apply Ok_inj in Hc as ->. exists a1. split; [exact (Hent _ _ _ Ec)|].
  unfold seal. rewrite Hk, Hk0. cbn [rbind]. rewrite Hk2. cbn [map_err rbind]. exact H.
Qed.
(** What the pre-authentication data proves: the timestamp, sealed under the
    client's own key, within five minutes of the KDC's clock. *)
Definition preauthenticated (client : PrincipalRecord) (padata : list PaData) (now : Z) : Prop :=
  exists blob confounder plaintext ts, find_pa_enc_timestamp padata = Some blob /\ length confounder = CONFOUNDER_LEN
    /\ seal (pr_key client) KEY_USAGE_AS_REQ_PA_ENC_TIMESTAMP confounder plaintext = Ok blob
    /\ decode_pa_enc_ts_enc plaintext = Ok ts /\ Z.abs (now - patimestamp ts) <= CLOCK_SKEW_TOLERANCE_SECS.
Lemma verify_inv client padata w w' :
  match find_pa_enc_timestamp padata with Some blob => verify_pa_enc_timestamp E D hmac_sha1 client blob | None => kret (Err PreauthRequired) end w = (Ok tt, w') ->
  preauthenticated client padata (clock w (ticks w)) /\ clock w' = clock w /\ ticks w' = S (ticks w) /\ draws w' = draws w /\ entropy w' = entropy w.
Proof using HE.
  destruct (find_pa_enc_timestamp padata) as [blob|] eqn:Ef; [|done]. intros H. unfold verify_pa_enc_timestamp in H. inv_k.
  unfold now_secs in Hk1. injection Hk1 as <- <-. destruct (unseal_sealed _ _ _ _ Hk) as (c & Hc & Hs). split; [|split_and!; reflexivity].
  exists blob, c, a, a0. split; [exact Ef|]. split; [exact Hc|]. split; [exact Hs|]. split; [exact (map_err_Ok_inv _ _ _ Hk0)|].
  apply i64_sub_inv in Hk2 as ->. apply i64_abs_inv in Hk3 as ->.
  destruct (Z.ltb_spec CLOCK_SKEW_TOLERANCE_SECS (Z.abs (clock w (ticks w) - patimestamp a0))); [discriminate H|lia].
Qed.
Lemma random_key_inv w sk w' : random_session_key w = (Ok sk, w') -> entropy w (draws w) SESSION_KEY_LEN = Some sk /\ key_ok sk /\ clock w' = clock w /\ ticks w' = ticks w /\ entropy w' = entropy w.
Proof.
  intros H. unfold random_session_key in H. inv_k. unfold random_bytes in Hk. injection Hk as Hk <-. destruct (entropy w (draws w) SESSION_KEY_LEN); [|done].
  apply Ok_inj in Hk as ->. destruct (Nat.eqb_spec (length a) SESSION_KEY_LEN); [|done]. by apply Ok_inj in H as <-.
Qed.
Lemma metric_inv m c w a w' : metric m c w = (Ok a, w') -> same_world w w' /\ ticks w' = ticks w /\ draws w' = draws w.
Proof. unfold metric. intros [=<- <-]. by destruct m. Qed.

(** A reply of the AS handler: who it is for, on what evidence, and what the
    client and the KDC find in it. *)
Definition as_reply_spec (krbtgt_key : Aes256Key) (req_bytes out : bytes) (w : World) : Prop :=
  exists req client e ticket_enc enc_part c1 c2 sk,
    decode_as_req req_bytes = Ok req /\ negotiate_etype (ar_etypes req) = Ok e /\ lookup_principal (ar_realm req) (ar_cname req) = Ok (Some client)
    /\ preauthenticated client (ar_padata req) (clock w (ticks w)) /\ key_ok sk
    /\ entropy w (draws w) SESSION_KEY_LEN = Some sk /\ length c1 = CONFOUNDER_LEN /\ length c2 = CONFOUNDER_LEN
    /\ seal krbtgt_key KEY_USAGE_AS_REP_TGT c1 (encode_enc_ticket_part (tgt_part client sk (clock w (S (ticks w))))) = Ok ticket_enc
    /\ seal (pr_key client) KEY_USAGE_AS_REP_ENC_PART c2 (encode_enc_kdc_rep_part (as_part client (ar_nonce req) sk (clock w (S (ticks w))))) = Ok enc_part
    /\ out = encode_as_rep (as_reply client e ticket_enc enc_part).
Lemma as_reply_inv krbtgt_key req_bytes m w out w' : entropy_len w -> as_handler krbtgt_key req_bytes m w = (Ok out, w') -> as_reply_spec krbtgt_key req_bytes out w.
Proof using HE.
  intros Hent H. unfold handle_as_req_with_metrics in H. apply kbind_Ok_inv in H as (req & w1 & H1 & H). apply kret_Ok_inv in H1 as [H1 ->].
  apply kbind_Ok_inv in H as (e & w2 & H2 & H). apply kret_Ok_inv in H2 as [H2 ->]. apply kbind_Ok_inv in H as ([] & w3 & H3 & H). apply metric_inv in H3 as ([M1 M2] & M3 & M4).
  apply kbind_Ok_inv in H as (found & w4 & H4 & H). apply kret_Ok_inv in H4 as [H4 ->]. apply kbind_Ok_inv in H as (client & w5 & H5 & H). apply kret_Ok_inv in H5 as [H5 ->].
  apply kbind_Ok_inv in H as ([] & w6 & H6 & H). apply verify_inv in H6 as (Hpre & V1 & V2 & V3 & V4).
  apply kbind_Ok_inv in H as (now & w7 & H7 & H). unfold now_secs in H7. injection H7 as <- <-. apply kbind_Ok_inv in H as (sk & w8 & H8 & H).
  apply random_key_inv in H8 as (Hsk & Hkey & R1 & R2 & R3). cbn [clock ticks entropy draws] in *.
  apply kbind_Ok_inv in H as ([endtime renew] & w9 & H9 & H). apply kret_Ok_inv in H9 as [[-> ->]%ticket_times_inv ->].
  apply kbind_Ok_inv in H as (tenc & w10 & H10 & H). assert (entropy_len w8) as Hent8 by (apply (entropy_len_same w); [exact Hent|congruence]). apply encrypt_seals in H10 as (X1 & c1 & L1 & Hc1); [|exact Hent8]. apply kbind_Ok_inv in H as (penc & w11 & H11 & H).
  apply encrypt_seals in H11 as (_ & c2 & L2 & Hc2); [|exact (entropy_len_same _ _ Hent8 X1)]. apply kbind_Ok_inv in H as ([] & w12 & H12 & H). apply kret_Ok_inv in H as [H _]. apply Ok_inj in H.
  rewrite M1, M3 in Hpre. rewrite V2, V1, M1, M3 in Hc1, Hc2. rewrite V4, V3, M2, M4 in Hsk.
  exists req, client, e, tenc, penc, c1, c2, sk. split; [exact (map_err_Ok_inv _ _ _ H1)|]. split; [exact H2|]. apply map_err_Ok_inv in H4. destruct found as [p|]; [|discriminate H5].
  apply Ok_inj in H5 as ->. split; [exact H4|]. split; [exact Hpre|]. split; [exact Hkey|]. split; [exact Hsk|]. split; [exact L1|]. split; [exact L2|]. split; [exact Hc1|]. split; [exact Hc2|]. exact (eq_sym H).
Qed.

Lemma same_world_refl w : same_world w w.
Proof. split; reflexivity. Qed.
Lemma same_world_trans w1 w2 w3 : same_world w1 w2 -> same_world w2 w3 -> same_world w1 w3.
Proof. intros [H1 H2] [H3 H4]. split; congruence. Qed.
Lemma metric_run m c w : exists w', metric m c w = (Ok tt, w') /\ same_world w w' /\ ticks w' = ticks w.
Proof. eexists. split; [reflexivity|]. destruct m; repeat split. Qed.
Lemma random_key_run w : good_world w -> exists sk w', random_session_key w = (Ok sk, w') /\ same_world w w'.
Proof.
  intros Hg. destruct (gw_entropy _ Hg (draws w) SESSION_KEY_LEN) as (sk & Hs & Hl). exists sk. eexists. unfold random_session_key.
  erewrite kbind_Ok; [|unfold random_bytes; rewrite Hs; reflexivity]. rewrite Hl, Nat.eqb_refl. split; [reflexivity|]. repeat split.
Qed.
Lemma clock_times w i : good_world w -> ticket_times (clock w i) DEFAULT_TGT_LIFETIME_SECS = Ok (clock w i + END, clock w i + 2 * END).
Proof. intros Hg. apply ticket_times_Ok. apply (gw_clock _ Hg). Qed.
Lemma verify_run client padata w : good_world w -> preauthenticated client padata (clock w (ticks w)) ->
  exists w', match find_pa_enc_timestamp padata with Some blob => verify_pa_enc_timestamp E D hmac_sha1 client blob | None => kret (Err PreauthRequired) end w = (Ok tt, w')
    /\ same_world w w'.
Proof using HE Hmac.
  intros Hg (blob & c & pt & ts & Hf & Hc & Hs & Hd & Hskew). rewrite Hf. destruct (seal_unseal (pr_key client) KEY_USAGE_AS_REQ_PA_ENC_TIMESTAMP c pt Hc) as (blob' & Hs' & Hu).
  rewrite Hs in Hs'. apply Ok_inj in Hs' as <-. eexists. unfold verify_pa_enc_timestamp. erewrite kbind_ret; [|rewrite Hu; reflexivity].
  erewrite kbind_ret; [|unfold decoded; rewrite Hd; reflexivity]. erewrite kbind_Ok; [|unfold now_secs; reflexivity].
  pose proof (gw_clock _ Hg (ticks w)) as Ht. unfold DEFAULT_TGT_LIFETIME_SECS, CLOCK_SKEW_TOLERANCE_SECS in *.
  erewrite kbind_ret; [|unfold i64_sub; rewrite (proj2 (Z.leb_le _ _)), (proj2 (Z.ltb_lt _ _)) by lia; reflexivity].
  erewrite kbind_ret; [|unfold i64_abs; rewrite (proj2 (Z.ltb_lt _ _)) by lia; reflexivity].
  rewrite (proj2 (Z.ltb_ge _ _)) by lia. split; [reflexivity|]. repeat split.
Qed.
Lemma as_completes krbtgt_key req_bytes m w req client e : good_world w ->
  decode_as_req req_bytes = Ok req -> negotiate_etype (ar_etypes req) = Ok e -> lookup_principal (ar_realm req) (ar_cname req) = Ok (Some client) ->
  preauthenticated client (ar_padata req) (clock w (ticks w)) ->
  exists out w', as_handler krbtgt_key req_bytes m w = (Ok out, w') /\ same_world w w'.
Proof using HE Hmac.
  intros Hg Hd Hn Hl Hp. unfold handle_as_req_with_metrics. erewrite kbind_ret; [|unfold decoded; rewrite Hd; reflexivity]. erewrite kbind_ret; [|exact Hn].
  destruct (metric_run m (IncAsReq (ar_realm req) (etype_label e)) w) as (w1 & Hrun & S1 & T1). erewrite kbind_Ok; [|exact Hrun]. clear Hrun. erewrite kbind_ret; [|rewrite Hl; reflexivity]. erewrite kbind_ret; [|reflexivity].
  rewrite <-T1, <-(proj1 S1) in Hp. pose proof (good_same _ _ Hg S1) as G1. destruct (verify_run client (ar_padata req) w1 G1 Hp) as (w2 & Hrun & S2). erewrite kbind_Ok; [|exact Hrun]. clear Hrun.
  pose proof (good_same _ _ G1 S2) as G2. erewrite kbind_Ok; [|unfold now_secs; reflexivity]. set (w3 := mkWorld _ _ _ _ _). assert (same_world w2 w3) as S3 by (split; reflexivity).
  pose proof (good_same _ _ G2 S3) as G3. destruct (random_key_run w3 G3) as (sk & w4 & Hrun & S4). erewrite kbind_Ok; [|exact Hrun]. clear Hrun. pose proof (good_same _ _ G3 S4) as G4.
  erewrite kbind_ret; [|apply (clock_times w2 _ G2)]. cbv beta iota.
  destruct (encrypt_for_usage_Ok krbtgt_key KEY_USAGE_AS_REP_TGT (encode_enc_ticket_part (tgt_part client sk (clock w2 (ticks w2)))) w4 G4) as (c1 & b1 & w5 & H1 & S5 & _).
  erewrite kbind_Ok; [|exact H1]. pose proof (good_same _ _ G4 S5) as G5.
  destruct (encrypt_for_usage_Ok (pr_key client) KEY_USAGE_AS_REP_ENC_PART (encode_enc_kdc_rep_part (as_part client (ar_nonce req) sk (clock w2 (ticks w2)))) w5 G5) as (c2 & b2 & w6 & H2 & S6 & _).
  erewrite kbind_Ok; [|exact H2]. destruct (metric_run m ObserveAsReqDuration w6) as (w7 & Hrun & S7 & _). erewrite kbind_Ok; [|exact Hrun]. clear Hrun. eexists. exists w7. split; [reflexivity|].
  eauto 10 using same_world_trans.
Qed.

(** ** The TGS exchange *)

(** What a TGS request proves: its ticket is sealed under the KDC's own key, and
    its authenticator under the session key of that ticket, for the same name. *)
Definition ticket_shown (krbtgt_key : Aes256Key) (req : TgsReq) (etp : EncTicketPart) : Prop :=
  exists c1 pt c2 apt auth, length c1 = CONFOUNDER_LEN /\ seal krbtgt_key KEY_USAGE_AS_REP_TGT c1 pt = Ok (tkt_enc_part (tr_tgt req))
    /\ decode_enc_ticket_part pt = Ok etp /\ length c2 = CONFOUNDER_LEN
    /\ seal (etp_session_key etp) KEY_USAGE_TGS_REQ_AUTHENTICATOR c2 apt = Ok (tr_authenticator_enc req)
    /\ decode_authenticator apt = Ok auth /\ principal_names_eq (auth_cname auth) (etp_cname etp) = true.
Definition service_part (etp : EncTicketPart) (now : Z) : EncTicketPart :=
  mkEncTicketPart (etp_flags etp) (etp_crealm etp) (etp_cname etp) (etp_session_key etp) now now (now + END) (now + 2 * END) (etp_client_uuid etp).
Definition tgs_part (svc : PrincipalRecord) (etp : EncTicketPart) (nonce now : Z) : EncKdcRepPart :=
  mkEncKdcRepPart (etp_session_key etp) now nonce now now (now + END) (now + 2 * END) (pr_realm svc) (etp_cname etp).
Definition tgs_reply (svc : PrincipalRecord) (etp : EncTicketPart) (e : EType) (kvno : Z) (ticket_enc enc_part : bytes) : TgsRep :=
  mkKdcRep PVNO MSG_TYPE_TGS_REP (etp_crealm etp) (etp_cname etp)
    (mkTicket PVNO (pr_realm svc) (pr_components svc) (pr_kvno svc) e ticket_enc) e kvno enc_part.
Definition tgs_reply_spec (krbtgt_key : Aes256Key) (req_bytes out : bytes) (w : World) : Prop :=
  exists req etp svc e ticket_enc enc_part c1 c2,
    decode_tgs_req req_bytes = Ok req /\ negotiate_etype (tr_etypes req) = Ok e /\ ticket_shown krbtgt_key req etp
    /\ lookup_principal (tr_realm req) (tr_sname req) = Ok (Some svc) /\ length c1 = CONFOUNDER_LEN /\ length c2 = CONFOUNDER_LEN
    /\ seal (pr_key svc) KEY_USAGE_TGS_REP_TICKET c1 (encode_enc_ticket_part (service_part etp (clock w (ticks w)))) = Ok ticket_enc
    /\ seal (etp_session_key etp) KEY_USAGE_TGS_REP_ENC_PART c2 (encode_enc_kdc_rep_part (tgs_part svc etp (tr_nonce req) (clock w (ticks w)))) = Ok enc_part
    /\ out = encode_tgs_rep (tgs_reply svc etp e (tkt_kvno (tr_tgt req)) ticket_enc enc_part).
Lemma tgs_reply_inv krbtgt_key req_bytes m w out w' : entropy_len w -> tgs_handler krbtgt_key req_bytes m w = (Ok out, w') -> tgs_reply_spec krbtgt_key req_bytes out w.
Proof using HE.
  intros Hent H. unfold handle_tgs_req_with_metrics in H. apply kbind_Ok_inv in H as (req & w1 & H1 & H). apply kret_Ok_inv in H1 as [H1 ->].
  apply kbind_Ok_inv in H as (e & w2 & H2 & H). apply kret_Ok_inv in H2 as [H2 ->]. apply kbind_Ok_inv in H as ([] & w3 & H3 & H). apply metric_inv in H3 as ([M1 M2] & M3 & M4).
  apply kbind_Ok_inv in H as (pt & w4 & H4 & H). apply kret_Ok_inv in H4 as [H4 ->]. apply kbind_Ok_inv in H as (etp & w5 & H5 & H). apply kret_Ok_inv in H5 as [H5 ->].
  apply kbind_Ok_inv in H as (apt & w6 & H6 & H). apply kret_Ok_inv in H6 as [H6 ->]. apply kbind_Ok_inv in H as (auth & w7 & H7 & H). apply kret_Ok_inv in H7 as [H7 ->].
  apply kbind_Ok_inv in H as ([] & w8 & H8 & H). apply kret_Ok_inv in H8 as [H8 ->]. destruct (principal_names_eq (auth_cname auth) (etp_cname etp)) eqn:Hnames; [|discriminate H8].
  apply kbind_Ok_inv in H as (found & w9 & H9 & H). apply kret_Ok_inv in H9 as [H9 ->]. apply kbind_Ok_inv in H as (svc & w10 & H10 & H). apply kret_Ok_inv in H10 as [H10 ->].
  apply kbind_Ok_inv in H as (now & w11 & H11 & H). unfold now_secs in H11. injection H11 as <- <-.
  apply kbind_Ok_inv in H as ([endtime renew] & w12 & H12 & H). apply kret_Ok_inv in H12 as [[-> ->]%ticket_times_inv ->].
  apply kbind_Ok_inv in H as (tenc & w13 & H13 & H). apply encrypt_seals in H13 as (X1 & c1 & E1 & Hc1); [|apply (entropy_len_same w); [exact Hent|exact M2]]. apply kbind_Ok_inv in H as (penc & w14 & H14 & H).
  apply encrypt_seals in H14 as (_ & c2 & E2 & Hc2); [|apply (entropy_len_same w); [exact Hent|rewrite X1; exact M2]]. apply kbind_Ok_inv in H as ([] & w15 & H15 & H). apply kret_Ok_inv in H as [H _]. apply Ok_inj in H.
  rewrite M1, M3 in Hc1, Hc2. apply map_err_Ok_inv in H9. destruct found as [p'|]; [|discriminate H10]. apply Ok_inj in H10 as ->.
  apply unseal_sealed in H4 as (k1 & L1 & S1). apply unseal_sealed in H6 as (k2 & L2 & S2).
  exists req, etp, svc, e, tenc, penc, c1, c2. split; [exact (map_err_Ok_inv _ _ _ H1)|]. split; [exact H2|]. split; [|split; [exact H9|split; [exact E1|split; [exact E2|split; [exact Hc1|split; [exact Hc2|exact (eq_sym H)]]]]]].
  exists k1, pt, k2, apt, auth. exact (conj L1 (conj S1 (conj (map_err_Ok_inv _ _ _ H5) (conj L2 (conj S2 (conj (map_err_Ok_inv _ _ _ H7) Hnames)))))).
Qed.
Lemma unseal_of key usage c pt blob : length c = CONFOUNDER_LEN -> seal key usage c pt = Ok blob -> unseal key usage blob = Ok pt.
Proof using HE Hmac. intros Hc Hs. destruct (seal_unseal key usage c pt Hc) as (b & Hb & Hu). rewrite Hs in Hb. apply Ok_inj in Hb as <-. exact Hu. Qed.
Lemma tgs_completes krbtgt_key req_bytes m w req etp svc e : good_world w ->
  decode_tgs_req req_bytes = Ok req -> negotiate_etype (tr_etypes req) = Ok e -> ticket_shown krbtgt_key req etp ->
  lookup_principal (tr_realm req) (tr_sname req) = Ok (Some svc) ->
  exists out w', tgs_handler krbtgt_key req_bytes m w = (Ok out, w') /\ same_world w w'.
Proof using HE Hmac.
  intros Hg Hd Hn (k1 & pt & k2 & apt & auth & L1 & S1 & D1 & L2 & S2 & D2 & Hnames) Hl. pose proof (unseal_of _ _ _ _ _ L1 S1) as U1. pose proof (unseal_of _ _ _ _ _ L2 S2) as U2.
  unfold handle_tgs_req_with_metrics. erewrite kbind_ret; [|unfold decoded; rewrite Hd; reflexivity]. erewrite kbind_ret; [|exact Hn].
  destruct (metric_run m (IncAsReq (tr_realm req) (lit "tgs_req")) w) as (w1 & Hrun & W1 & _). erewrite kbind_Ok; [|exact Hrun]. clear Hrun. erewrite kbind_ret; [|exact U1].
  erewrite kbind_ret; [|unfold decoded; rewrite D1; reflexivity]. erewrite kbind_ret; [|exact U2]. erewrite kbind_ret; [|unfold decoded; rewrite D2; reflexivity].
  rewrite Hnames. erewrite kbind_ret; [|reflexivity]. erewrite kbind_ret; [|rewrite Hl; reflexivity]. erewrite kbind_ret; [|reflexivity].
  pose proof (good_same _ _ Hg W1) as G1. erewrite kbind_Ok; [|unfold now_secs; reflexivity]. set (w2 := mkWorld _ _ _ _ _). assert (same_world w1 w2) as W2 by (split; reflexivity).
  pose proof (good_same _ _ G1 W2) as G2. erewrite kbind_ret; [|apply (clock_times w1 _ G1)]. cbv beta iota.
  destruct (encrypt_for_usage_Ok (pr_key svc) KEY_USAGE_TGS_REP_TICKET (encode_enc_ticket_part (service_part etp (clock w1 (ticks w1)))) w2 G2) as (c1 & b1 & w3 & H1 & W3 & _).
  erewrite kbind_Ok; [|exact H1]. pose proof (good_same _ _ G2 W3) as G3.
  destruct (encrypt_for_usage_Ok (etp_session_key etp) KEY_USAGE_TGS_REP_ENC_PART (encode_enc_kdc_rep_part (tgs_part svc etp (tr_nonce req) (clock w1 (ticks w1)))) w3 G3) as (c2 & b2 & w4 & H2 & W4 & _).
  erewrite kbind_Ok; [|exact H2]. destruct (metric_run m ObserveAsReqDuration w4) as (w5 & Hrun & W5 & _). erewrite kbind_Ok; [|exact Hrun]. clear Hrun. eexists. exists w5. split; [reflexivity|].
  eauto 10 using same_world_trans.
Qed.
End Kdc.

(** ** The claims *)

Lemma negotiate_etype_spec offered :
  match negotiate_etype offered with
  | Ok e => e ∈ offered /\ is_allowed_by_policy e = true
  | Err _ => forall e, e ∈ offered -> is_allowed_by_policy e = false
  | Panic => False
  end.
Proof.
  unfold negotiate_etype, offers. repeat (case_bool_decide; [split; [assumption|reflexivity]|]).
  case_bool_decide; intros e He; destruct e; (reflexivity || contradiction).
Qed.

(** C6: The AS exchange, for any cipher, MAC, store and ASN.1 codec, on any
    request bytes: a working KDC answers exactly the requests that decode, offer
    an allowed encryption type, name a known client and carry a timestamp sealed
    under that client's key within five minutes of the KDC's clock; and the answer
    is a ticket sealed under the KDC's key and a part sealed under the client's
    key that carry the same fresh session key, for the client of the store, valid
    from now for ten hours.  Negotiation never picks RC4 and fails only if nothing
    else was offered. *)
Theorem as_exchange (E D : Aes256Key -> bytes -> bytes) (hmac_sha1 : bytes -> bytes -> bytes) {RK : Rasn} {PS : PrincipalStore}
    (krbtgt_key : Aes256Key) (req_bytes : bytes) (metrics : bool) (w : World) :
  BlockCipher E D -> (forall k d, length (hmac_sha1 k d) = 20%nat) -> good_world w ->
  let run := handle_as_req_with_metrics E D hmac_sha1 krbtgt_key req_bytes metrics w in
  ((exists out w', run = (Ok out, w')) <->
   exists req client e, decode_as_req req_bytes = Ok req /\ negotiate_etype (ar_etypes req) = Ok e
     /\ lookup_principal (ar_realm req) (ar_cname req) = Ok (Some client)
     /\ preauthenticated E hmac_sha1 client (ar_padata req) (clock w (ticks w)))
  /\ (forall out w', run = (Ok out, w') -> as_reply_spec E hmac_sha1 krbtgt_key req_bytes out w)
  /\ (forall offered, match negotiate_etype offered with
       | Ok e => e ∈ offered /\ is_allowed_by_policy e = true
       | Err _ => forall e, e ∈ offered -> is_allowed_by_policy e = false
       | Panic => False
       end).
Proof.
  intros HE Hmac Hg run. split; [split|split; [|apply negotiate_etype_spec]].
  - intros (out & w' & H). destruct (as_reply_inv E D hmac_sha1 HE _ _ _ _ _ _ (good_entropy _ Hg) H) as (req & client & e & _ & _ & _ & _ & _ & H1 & H2 & H3 & H4 & _).
    exists req, client, e. exact (conj H1 (conj H2 (conj H3 H4))).
  - intros (req & client & e & H1 & H2 & H3 & H4).
    destruct (as_completes E D hmac_sha1 HE Hmac krbtgt_key req_bytes metrics w req client e Hg H1 H2 H3 H4) as (out & w' & H & _). exists out, w'. exact H.
  - intros out w' H. exact (as_reply_inv E D hmac_sha1 HE _ _ _ _ _ _ (good_entropy _ Hg) H).
Qed.

(** C7: The TGS exchange on any request bytes: a working KDC answers exactly
    the requests that decode, offer an allowed encryption type, show a ticket
    sealed under the KDC's key with an authenticator sealed under that ticket's
    session key for the same client name, and name a known service; the answer
    passes the client's identity and session key on, sealed under the service's
    key, and tells the client under the session key.  The condition does not
    mention the clock: neither the times of the ticket nor that of the
    authenticator are checked. *)
Theorem tgs_exchange (E D : Aes256Key -> bytes -> bytes) (hmac_sha1 : bytes -> bytes -> bytes) {RK : Rasn} {PS : PrincipalStore}
    (krbtgt_key : Aes256Key) (req_bytes : bytes) (metrics : bool) (w : World) :
  BlockCipher E D -> (forall k d, length (hmac_sha1 k d) = 20%nat) -> good_world w ->
  let run := handle_tgs_req_with_metrics E D hmac_sha1 krbtgt_key req_bytes metrics w in
  ((exists out w', run = (Ok out, w')) <->
   exists req etp svc e, decode_tgs_req req_bytes = Ok req /\ negotiate_etype (tr_etypes req) = Ok e
     /\ ticket_shown E hmac_sha1 krbtgt_key req etp /\ lookup_principal (tr_realm req) (tr_sname req) = Ok (Some svc))
  /\ (forall out w', run = (Ok out, w') -> tgs_reply_spec E hmac_sha1 krbtgt_key req_bytes out w).
Proof.
  intros HE Hmac Hg run. split; [split|].
  - intros (out & w' & H). destruct (tgs_reply_inv E D hmac_sha1 HE _ _ _ _ _ _ (good_entropy _ Hg) H) as (req & etp & svc & e & _ & _ & _ & _ & H1 & H2 & H3 & H4 & _).
    exists req, etp, svc, e. exact (conj H1 (conj H2 (conj H3 H4))).
  - intros (req & etp & svc & e & H1 & H2 & H3 & H4).
    destruct (tgs_completes E D hmac_sha1 HE Hmac krbtgt_key req_bytes metrics w req etp svc e Hg H1 H2 H3 H4) as (out & w' & H & _). exists out, w'. exact H.
  - intros out w' H. exact (tgs_reply_inv E D hmac_sha1 HE _ _ _ _ _ _ (good_entropy _ Hg) H).
Qed.

(** ** A client that follows the protocol *)

Section Client.
Context (E D : Aes256Key -> bytes -> bytes) (hmac_sha1 : bytes -> bytes -> bytes) {RK : Rasn} {RL : RasnLaws} {PS : PrincipalStore}.
Record record_ok (p : PrincipalRecord) : Prop := {
  ro_realm : text_ok (pr_realm p); ro_name : name_ok (pr_components p); ro_kvno : is_u32 (pr_kvno p); ro_uuid : is_u128 (pr_uuid p) }.
(** What the holder of [key] finds in a sealed reply part or ticket. *)
Definition open_part (key : Aes256Key) (usage : Z) (blob : bytes) : Result KdcError EncKdcRepPart :=
  let? pt := decrypt_for_usage E D hmac_sha1 key usage blob in decoded (decode_enc_kdc_rep_part pt).
Definition open_ticket (key : Aes256Key) (t : Ticket) : Result KdcError EncTicketPart :=
  let? pt := decrypt_for_usage E D hmac_sha1 key KEY_USAGE_TGS_REP_TICKET (tkt_enc_part t) in decoded (decode_enc_ticket_part pt).
Definition as_request (realm : bytes) (cname : list bytes) (nonce till : Z) (etypes : list EType) (blob : bytes) : AsReq :=
  mkAsReq PVNO MSG_TYPE_AS_REQ realm cname nonce etypes [mkPaData PA_ENC_TIMESTAMP_TYPE blob] till.
Definition tgs_request (realm : bytes) (sname : list bytes) (nonce till : Z) (etypes : list EType) (tgt : Ticket) (blob : bytes) : TgsReq :=
  mkTgsReq PVNO MSG_TYPE_TGS_REQ realm sname nonce etypes tgt blob till.
Record ask_ok (realm : bytes) (name : list bytes) (nonce till : Z) : Prop := {
  ask_realm : text_ok realm; ask_name : name_ok name; ask_nonce : is_u32 nonce; ask_till : krb_time_ok till }.

Lemma as_request_ok realm cname nonce till etypes blob : ask_ok realm cname nonce till -> as_req_ok (as_request realm cname nonce till etypes blob).
Proof. intros []. split; cbn; try assumption; try (unfold is_uint, PVNO, MSG_TYPE_AS_REQ; lia). constructor; [unfold is_uint, PA_ENC_TIMESTAMP_TYPE; cbn; lia|constructor]. Qed.
Lemma clock_end w i : good_world w -> krb_time_ok (clock w i) /\ krb_time_ok (clock w i + END) /\ krb_time_ok (clock w i + 2 * END).
Proof. intros Hg. pose proof (gw_clock _ Hg i) as H. unfold krb_time_ok, END, DEFAULT_TGT_LIFETIME_SECS in *. lia. Qed.
Lemma tgt_part_ok client sk w i : record_ok client -> key_ok sk -> good_world w -> enc_ticket_ok (tgt_part client sk (clock w i)).
Proof. intros [] Hk Hg. destruct (clock_end w i Hg) as (? & ? & ?). split; cbn; try assumption. split; vm_compute; congruence. Qed.
Lemma as_part_ok client nonce sk w i : record_ok client -> is_u32 nonce -> key_ok sk -> good_world w -> enc_rep_ok (as_part client nonce sk (clock w i)).
Proof. intros [] Hn Hk Hg. destruct (clock_end w i Hg) as (? & ? & ?). split; cbn; assumption. Qed.
Lemma krbtgt_text : text_ok (lit "krbtgt").
Proof using RL. split; [reflexivity|]. apply general_string_ascii. repeat constructor; cbn; lia. Qed.
Lemma tgt_ok client e blob : record_ok client -> ticket_ok (mkTicket PVNO (pr_realm client) [lit "krbtgt"; pr_realm client] 1 e blob).
Proof using RL. intros []. split; cbn; try assumption; try (unfold is_uint, PVNO; lia). constructor; [apply krbtgt_text|]. constructor; [assumption|constructor]. Qed.
Lemma as_reply_ok client e b1 b2 : record_ok client -> rep_ok (as_reply client e b1 b2).
Proof using RL. intros Hr. pose proof Hr as []. split; cbn; try assumption; try (unfold is_uint, PVNO, MSG_TYPE_AS_REP; lia). by apply tgt_ok. Qed.
Lemma tgs_reply_ok svc etp e kvno b1 b2 : record_ok svc -> enc_ticket_ok etp -> is_u32 kvno -> rep_ok (tgs_reply svc etp e kvno b1 b2).
Proof. intros [] [] Hk. split; cbn; try assumption; try (unfold is_uint, PVNO, MSG_TYPE_TGS_REP; lia). split; cbn; try assumption. unfold is_uint, PVNO. lia. Qed.
Lemma service_part_ok etp w i : enc_ticket_ok etp -> good_world w -> enc_ticket_ok (service_part etp (clock w i)).
Proof. intros [] Hg. destruct (clock_end w i Hg) as (? & ? & ?). split; cbn; assumption. Qed.
Lemma tgs_part_ok svc etp nonce w i : record_ok svc -> enc_ticket_ok etp -> is_u32 nonce -> good_world w -> enc_rep_ok (tgs_part svc etp nonce (clock w i)).
Proof. intros [] [] Hn Hg. destruct (clock_end w i Hg) as (? & ? & ?). split; cbn; assumption. Qed.
Lemma names_eq_refl l : principal_names_eq l l = true.
Proof. induction l as [|x l IH]; [reflexivity|]. cbn [principal_names_eq]. rewrite IH, andb_true_r. unfold eq_ignore_ascii_case. by apply bool_decide_eq_true_2. Qed.
Lemma open_part_Ok key usage blob e : decrypt_for_usage E D hmac_sha1 key usage blob = Ok (encode_enc_kdc_rep_part e) -> enc_rep_ok e -> open_part key usage blob = Ok e.
Proof using RL. intros H He. unfold open_part. rewrite H. cbn [rbind]. unfold decoded. rewrite enc_rep_roundtrip by assumption. reflexivity. Qed.
Lemma open_ticket_Ok key t e : decrypt_for_usage E D hmac_sha1 key KEY_USAGE_TGS_REP_TICKET (tkt_enc_part t) = Ok (encode_enc_ticket_part e) -> enc_ticket_ok e -> open_ticket key t = Ok e.
Proof using RL. intros H He. unfold open_ticket. rewrite H. cbn [rbind]. unfold decoded. rewrite enc_ticket_roundtrip by assumption. reflexivity. Qed.

Context (HE : BlockCipher E D) (Hmac : forall k d, length (hmac_sha1 k d) = 20%nat) (krbtgt_key : Aes256Key) (client : PrincipalRecord) (Hclient : record_ok client).
(** What the client holds after the AS exchange. *)
Definition tgt_of (rep : AsRep) (part : EncKdcRepPart) (etp : EncTicketPart) : Prop :=
  open_ticket krbtgt_key (rep_ticket rep) = Ok etp /\ enc_ticket_ok etp /\ etp_session_key etp = erp_session_key part
  /\ etp_cname etp = pr_components client /\ etp_client_uuid etp = pr_uuid client /\ ticket_ok (rep_ticket rep).
Lemma as_client realm cname nonce till etypes e ts confounder blob metrics w :
  good_world w -> ask_ok realm cname nonce till -> negotiate_etype etypes = Ok e -> lookup_principal realm cname = Ok (Some client) ->
  ts_ok ts -> Z.abs (clock w (ticks w) - patimestamp ts) <= CLOCK_SKEW_TOLERANCE_SECS -> length confounder = CONFOUNDER_LEN ->
  seal E hmac_sha1 (pr_key client) KEY_USAGE_AS_REQ_PA_ENC_TIMESTAMP confounder (encode_pa_enc_ts_enc ts) = Ok blob ->
  exists out w1 rep part etp,
    handle_as_req_with_metrics E D hmac_sha1 krbtgt_key (encode_as_req (as_request realm cname nonce till etypes blob)) metrics w = (Ok out, w1)
    /\ decode_as_rep out = Ok rep /\ open_part (pr_key client) KEY_USAGE_AS_REP_ENC_PART (rep_enc_part rep) = Ok part
    /\ erp_nonce part = nonce /\ erp_cname part = pr_components client /\ entropy w (draws w) SESSION_KEY_LEN = Some (erp_session_key part)
    /\ tgt_of rep part etp.
Proof using HE Hmac Hclient RL.
  intros Hg Ha Hn Hl Hts Hskew Hc Hs. pose proof (as_req_roundtrip _ (as_request_ok realm cname nonce till etypes blob Ha)) as Hdec.
  assert (preauthenticated E hmac_sha1 client (ar_padata (as_request realm cname nonce till etypes blob)) (clock w (ticks w))) as Hp.
  { exists blob, confounder, (encode_pa_enc_ts_enc ts), ts. split; [reflexivity|]. exact (conj Hc (conj Hs (conj (ts_roundtrip ts Hts) Hskew))). }
  destruct (as_completes E D hmac_sha1 HE Hmac krbtgt_key _ metrics w _ client e Hg Hdec Hn Hl Hp) as (out & w1 & Hrun & _).
  destruct (as_reply_inv E D hmac_sha1 HE _ _ _ _ _ _ (good_entropy _ Hg) Hrun) as (req & cl & e' & b1 & b2 & c1 & c2 & sk & H1 & H2 & H3 & _ & Hk & Hent & L1 & L2 & S1 & S2 & Hout).
  rewrite Hdec in H1. apply Ok_inj in H1 as <-. change (lookup_principal realm cname = Ok (Some cl)) in H3. rewrite Hl in H3. apply Ok_inj in H3. injection H3 as <-.
  pose proof (unseal_of E D hmac_sha1 HE Hmac _ _ _ _ _ L1 S1) as U1. pose proof (unseal_of E D hmac_sha1 HE Hmac _ _ _ _ _ L2 S2) as U2.
  exists out, w1, (as_reply client e' b1 b2), (as_part client nonce sk (clock w (S (ticks w)))), (tgt_part client sk (clock w (S (ticks w)))).
  split; [exact Hrun|]. split; [rewrite Hout; apply as_rep_roundtrip, as_reply_ok, Hclient|].
  split; [apply open_part_Ok; [exact U2|apply as_part_ok; [exact Hclient|apply Ha|exact Hk|exact Hg]]|].
  split; [reflexivity|]. split; [reflexivity|]. split; [exact Hent|].
  split; [apply open_ticket_Ok; [exact U1|apply tgt_part_ok; [exact Hclient|exact Hk|exact Hg]]|]. split; [apply tgt_part_ok; [exact Hclient|exact Hk|exact Hg]|].
  split; [reflexivity|]. split; [reflexivity|]. split; [reflexivity|]. apply (tgt_ok client e' b1 Hclient).
Qed.
Lemma open_ticket_sealed key t e : open_ticket key t = Ok e ->
  exists c pt, length c = CONFOUNDER_LEN /\ seal E hmac_sha1 key KEY_USAGE_TGS_REP_TICKET c pt = Ok (tkt_enc_part t) /\ decode_enc_ticket_part pt = Ok e.
Proof using HE.
  intros H. unfold open_ticket in H. apply rbind_Ok_inv in H as (pt & H1 & H2). apply (unseal_sealed E D hmac_sha1 HE) in H1 as (c & Hc & Hs).
  exists c, pt. exact (conj Hc (conj Hs (map_err_Ok_inv _ _ _ H2))).
Qed.
Lemma tgs_client rep part etp svc realm sname nonce till etypes e auth confounder blob metrics w :
  tgt_of rep part etp -> good_world w -> record_ok svc -> ask_ok realm sname nonce till -> negotiate_etype etypes = Ok e ->
  lookup_principal realm sname = Ok (Some svc) -> authenticator_ok auth -> auth_cname auth = pr_components client -> length confounder = CONFOUNDER_LEN ->
  seal E hmac_sha1 (erp_session_key part) KEY_USAGE_TGS_REQ_AUTHENTICATOR confounder (encode_authenticator auth) = Ok blob ->
  exists out w1 rep2 part2 ticket,
    handle_tgs_req_with_metrics E D hmac_sha1 krbtgt_key (encode_tgs_req (tgs_request realm sname nonce till etypes (rep_ticket rep) blob)) metrics w = (Ok out, w1)
    /\ decode_tgs_rep out = Ok rep2 /\ open_part (erp_session_key part) KEY_USAGE_TGS_REP_ENC_PART (rep_enc_part rep2) = Ok part2
    /\ open_ticket (pr_key svc) (rep_ticket rep2) = Ok ticket
    /\ erp_nonce part2 = nonce /\ erp_session_key part2 = erp_session_key part /\ etp_session_key ticket = erp_session_key part
    /\ etp_cname ticket = pr_components client /\ etp_client_uuid ticket = pr_uuid client /\ tkt_sname (rep_ticket rep2) = pr_components svc.
Proof using HE Hmac RL.
  intros (Ht & Hetp & Hsk & Hcn & Hu & Htk) Hg Hsvc Ha Hn Hl Hauth Hac Hc Hs. destruct (open_ticket_sealed _ _ _ Ht) as (c0 & pt & Hc0 & Hs0 & Hd0).
  assert (tgs_req_ok (tgs_request realm sname nonce till etypes (rep_ticket rep) blob)) as Hreq.
  { destruct Ha. split; cbn; try assumption; unfold is_uint, PVNO, MSG_TYPE_TGS_REQ; lia. }
  pose proof (tgs_req_roundtrip _ Hreq) as Hdec.
  assert (ticket_shown E hmac_sha1 krbtgt_key (tgs_request realm sname nonce till etypes (rep_ticket rep) blob) etp) as Hshow.
  { exists c0, pt, confounder, (encode_authenticator auth), auth. split; [exact Hc0|]. split; [exact Hs0|]. split; [exact Hd0|]. split; [exact Hc|].
    split; [rewrite Hsk; exact Hs|]. split; [apply authenticator_roundtrip, Hauth|]. rewrite Hac, Hcn. apply names_eq_refl. }
  destruct (tgs_completes E D hmac_sha1 HE Hmac krbtgt_key _ metrics w _ etp svc e Hg Hdec Hn Hshow Hl) as (out & w1 & Hrun & _).
  destruct (tgs_reply_inv E D hmac_sha1 HE _ _ _ _ _ _ (good_entropy _ Hg) Hrun) as (req & etp' & svc' & e' & b1 & b2 & c1 & c2 & H1 & H2 & Hshow' & H3 & L1 & L2 & S1 & S2 & Hout).
  rewrite Hdec in H1. apply Ok_inj in H1 as <-. change (lookup_principal realm sname = Ok (Some svc')) in H3. rewrite Hl in H3. apply Ok_inj in H3. injection H3 as <-.
  assert (etp' = etp) as ->.
  { destruct Hshow' as (k1 & p1 & _ & _ & _ & M1 & M2 & M3 & _). pose proof (unseal_of E D hmac_sha1 HE Hmac _ _ _ _ _ M1 M2) as U. pose proof (unseal_of E D hmac_sha1 HE Hmac _ _ _ _ _ Hc0 Hs0) as U'.
    change (tkt_enc_part (tr_tgt (tgs_request realm sname nonce till etypes (rep_ticket rep) blob))) with (tkt_enc_part (rep_ticket rep)) in U.
    change KEY_USAGE_TGS_REP_TICKET with KEY_USAGE_AS_REP_TGT in U'. rewrite U in U'. apply Ok_inj in U' as ->. rewrite M3 in Hd0. by apply Ok_inj in Hd0. }
  pose proof (unseal_of E D hmac_sha1 HE Hmac _ _ _ _ _ L1 S1) as U1. pose proof (unseal_of E D hmac_sha1 HE Hmac _ _ _ _ _ L2 S2) as U2. rewrite Hsk in U2.
  exists out, w1, (tgs_reply svc etp e' (tkt_kvno (rep_ticket rep)) b1 b2), (tgs_part svc etp nonce (clock w (ticks w))), (service_part etp (clock w (ticks w))).
  split; [exact Hrun|]. split; [rewrite Hout; apply tgs_rep_roundtrip, tgs_reply_ok; [exact Hsvc|exact Hetp|apply Htk]|].
  split; [apply open_part_Ok; [exact U2|apply tgs_part_ok; [exact Hsvc|exact Hetp|apply Ha|exact Hg]]|].
  split; [apply open_ticket_Ok; [exact U1|apply service_part_ok; [exact Hetp|exact Hg]]|].
  split; [reflexivity|]. split; [exact Hsk|]. split; [exact Hsk|]. split; [exact Hcn|]. split; [exact Hu|]. reflexivity.
Qed.
End Client.

(** C5: From a password key to a service ticket: a client that seals the time
    under its key is answered; it opens the reply with its key and finds its nonce
    and the session key; whenever it then shows the ticket with an authenticator
    sealed under that session key, at any later time, it is answered again; and
    the service that opens its ticket with its own key finds the client's name and
    UUID and the same session key the client reads from the reply. *)
Theorem kerberos_end_to_end (E D : Aes256Key -> bytes -> bytes) (hmac_sha1 : bytes -> bytes -> bytes) {RK : Rasn} {RL : RasnLaws} {PS : PrincipalStore}
    (krbtgt_key : Aes256Key) (client svc : PrincipalRecord) (crealm srealm : bytes) (cname sname : list bytes) (nonce1 nonce2 till1 till2 : Z)
    (etypes1 etypes2 : list EType) (e1 e2 : EType) (ts : PaEncTsEnc) (auth : Authenticator) (c1 c2 blob1 : bytes) (metrics : bool) (w1 w2 : World) :
  BlockCipher E D -> (forall k d, length (hmac_sha1 k d) = 20%nat) -> good_world w1 -> good_world w2 -> record_ok client -> record_ok svc ->
  ask_ok crealm cname nonce1 till1 -> ask_ok srealm sname nonce2 till2 -> negotiate_etype etypes1 = Ok e1 -> negotiate_etype etypes2 = Ok e2 ->
  lookup_principal crealm cname = Ok (Some client) -> lookup_principal srealm sname = Ok (Some svc) ->
  ts_ok ts -> Z.abs (clock w1 (ticks w1) - patimestamp ts) <= CLOCK_SKEW_TOLERANCE_SECS -> authenticator_ok auth -> auth_cname auth = pr_components client ->
  length c1 = CONFOUNDER_LEN -> length c2 = CONFOUNDER_LEN ->
  seal E hmac_sha1 (pr_key client) KEY_USAGE_AS_REQ_PA_ENC_TIMESTAMP c1 (encode_pa_enc_ts_enc ts) = Ok blob1 ->
  exists out1 w1' rep1 part1 blob2 out2 w2' rep2 part2 ticket,
    handle_as_req_with_metrics E D hmac_sha1 krbtgt_key (encode_as_req (as_request crealm cname nonce1 till1 etypes1 blob1)) metrics w1 = (Ok out1, w1')
    /\ decode_as_rep out1 = Ok rep1 /\ open_part E D hmac_sha1 (pr_key client) KEY_USAGE_AS_REP_ENC_PART (rep_enc_part rep1) = Ok part1
    /\ erp_nonce part1 = nonce1
    /\ seal E hmac_sha1 (erp_session_key part1) KEY_USAGE_TGS_REQ_AUTHENTICATOR c2 (encode_authenticator auth) = Ok blob2
    /\ handle_tgs_req_with_metrics E D hmac_sha1 krbtgt_key
         (encode_tgs_req (tgs_request srealm sname nonce2 till2 etypes2 (rep_ticket rep1) blob2)) metrics w2 = (Ok out2, w2')
    /\ decode_tgs_rep out2 = Ok rep2 /\ open_part E D hmac_sha1 (erp_session_key part1) KEY_USAGE_TGS_REP_ENC_PART (rep_enc_part rep2) = Ok part2
    /\ open_ticket E D hmac_sha1 (pr_key svc) (rep_ticket rep2) = Ok ticket
    /\ erp_nonce part2 = nonce2 /\ erp_session_key part2 = etp_session_key ticket
    /\ etp_cname ticket = pr_components client /\ etp_client_uuid ticket = pr_uuid client.
Proof.
  intros HE Hmac G1 G2 Hcl Hsv A1 A2 N1 N2 L1 L2 Hts Hskew Hau Hcn K1 K2 S1.
  destruct (as_client E D hmac_sha1 HE Hmac krbtgt_key client Hcl crealm cname nonce1 till1 etypes1 e1 ts c1 blob1 metrics w1 G1 A1 N1 L1 Hts Hskew K1 S1)
    as (out1 & w1' & rep1 & part1 & etp & R1 & D1 & O1 & Hn1 & _ & _ & Htgt).
  destruct (seal_unseal E D hmac_sha1 HE Hmac (erp_session_key part1) KEY_USAGE_TGS_REQ_AUTHENTICATOR c2 (encode_authenticator auth) K2) as (blob2 & S2 & _).
  destruct (tgs_client E D hmac_sha1 HE Hmac krbtgt_key client rep1 part1 etp svc srealm sname nonce2 till2 etypes2 e2 auth c2 blob2 metrics w2 Htgt G2 Hsv A2 N2 L2 Hau Hcn K2 S2)
    as (out2 & w2' & rep2 & part2 & ticket & R2 & D2 & O2 & O3 & Hn2 & Hk1 & Hk2 & Hc & Hu & _).
  exists out1, w1', rep1, part1, blob2, out2, w2', rep2, part2, ticket. rewrite Hk1, Hk2. split_and!; assumption || reflexivity.
Qed.

(** ** A sample realm *)

Definition sample_world (now : Z) : World := mkWorld (fun _ => now) 0 (fun i n => Some (replicate n (z2b (Z.of_nat i)))) 0 [].
Lemma sample_world_good now : 0 <= now < 253402300800 - 72000 -> good_world (sample_world now).
Proof. intros H. split; [intros i n; eexists; split; [reflexivity|apply length_replicate]|intros i; unfold DEFAULT_TGT_LIFETIME_SECS; cbn [sample_world clock]; lia]. Qed.
Definition alice : PrincipalRecord := PrincipalRecord_new 1 (lit "EXAMPLE.COM") [lit "alice"] (replicate 32 x0a).
Definition web : PrincipalRecord := PrincipalRecord_new 2 (lit "EXAMPLE.COM") [lit "host"; lit "web"] (replicate 32 x0b).
Definition sample_store : InMemoryPrincipalStore := principal_insert (principal_insert InMemoryPrincipalStore_new alice) web.
Definition sample_auth : Authenticator := mkAuthenticator (lit "EXAMPLE.COM") [lit "alice"] None 0 1700000000 0.
Lemma sample_text s : forallb (fun b => (32 <=? b2z b) && (b2z b <? 127)) s = true -> utf8_valid s = true -> @text_ok sample_rasn s.
Proof. intros H1 H2. split; assumption. Qed.
Ltac sample_ok := repeat first [apply sample_text; reflexivity | constructor | reflexivity | (unfold is_uint, krb_time_ok; cbn; lia)].
Lemma alice_ok : @record_ok sample_rasn alice.
Proof. split; sample_ok. Qed.
Lemma web_ok : @record_ok sample_rasn web.
Proof. split; sample_ok. Qed.
Lemma alice_ask : @ask_ok sample_rasn (lit "example.com") [lit "Alice"] 7 1700036000.
Proof. split; sample_ok. Qed.
Lemma web_ask : @ask_ok sample_rasn (lit "EXAMPLE.COM") [lit "host"; lit "web"] 8 1700036000.
Proof. split; sample_ok. Qed.
Definition sample_ts : PaEncTsEnc := mkPaEncTsEnc 1700000250 0.
Lemma sample_ts_ok : ts_ok sample_ts.
Proof. split; sample_ok. Qed.
Lemma sample_auth_ok : @authenticator_ok sample_rasn sample_auth.
Proof. split; sample_ok. Qed.
(** The ticket is used ten years after it has expired. *)
Lemma kerberos_end_to_end_witness : exists blob1 rep1 out1 w1' blob2 out2 w2',
  @handle_as_req_with_metrics rotate_block rotate_block fold_mac sample_rasn (InMemoryPrincipalStore_store sample_store) (replicate 32 x0c)
    (@encode_as_req sample_rasn (as_request (lit "example.com") [lit "Alice"] 7 1700036000 [Aes256CtsHmacSha1_96] blob1)) true (sample_world 1700000000) = (Ok out1, w1')
  /\ @decode_as_rep sample_rasn out1 = Ok rep1
  /\ @handle_tgs_req_with_metrics rotate_block rotate_block fold_mac sample_rasn (InMemoryPrincipalStore_store sample_store) (replicate 32 x0c)
    (@encode_tgs_req sample_rasn (tgs_request (lit "EXAMPLE.COM") [lit "host"; lit "web"] 8 1700036000 [Aes128CtsHmacSha1_96] (rep_ticket rep1) blob2)) true
    (sample_world 2015000000) = (Ok out2, w2').
Proof.
  destruct (seal_unseal rotate_block rotate_block fold_mac rotate_block_cipher (fun _ _ => eq_refl) (pr_key alice) KEY_USAGE_AS_REQ_PA_ENC_TIMESTAMP
    (replicate 16 x01) (@encode_pa_enc_ts_enc sample_rasn sample_ts) eq_refl) as (blob1 & Hs & _).
  destruct (@kerberos_end_to_end rotate_block rotate_block fold_mac sample_rasn sample_rasn_laws (InMemoryPrincipalStore_store sample_store) (replicate 32 x0c)
    alice web (lit "example.com") (lit "EXAMPLE.COM") [lit "Alice"] [lit "host"; lit "web"] 7 8 1700036000 1700036000 [Aes256CtsHmacSha1_96] [Aes128CtsHmacSha1_96]
    Aes256CtsHmacSha1_96 Aes128CtsHmacSha1_96 sample_ts sample_auth (replicate 16 x01) (replicate 16 x02) blob1 true (sample_world 1700000000) (sample_world 2015000000)
    rotate_block_cipher (fun _ _ => eq_refl) (sample_world_good 1700000000 ltac:(lia)) (sample_world_good 2015000000 ltac:(lia)) alice_ok web_ok alice_ask web_ask eq_refl eq_refl eq_refl eq_refl
    sample_ts_ok ltac:(vm_compute; congruence) sample_auth_ok eq_refl eq_refl eq_refl Hs)
    as (out1 & w1' & rep1 & part1 & blob2 & out2 & w2' & rep2 & part2 & ticket & R1 & D1 & _ & _ & _ & R2 & _).
  exists blob1, rep1, out1, w1', blob2, out2, w2'. exact (conj R1 (conj D1 R2)).
Defined.
Lemma as_exchange_witness :
  is_ok (@handle_as_req_with_metrics rotate_block rotate_block fold_mac sample_rasn (InMemoryPrincipalStore_store sample_store) (replicate 32 x0c) [x00] true (sample_world 1700000000)).1 = false.
Proof.
  destruct (@as_exchange rotate_block rotate_block fold_mac sample_rasn (InMemoryPrincipalStore_store sample_store) (replicate 32 x0c) [x00] true (sample_world 1700000000)
    rotate_block_cipher (fun _ _ => eq_refl) (sample_world_good 1700000000 ltac:(lia))) as [[H _] _].
  destruct (@handle_as_req_with_metrics _ _ _ _ _ _ _ _ _) as [[out|e|] w'] eqn:Hrun in H |- *; [|reflexivity..]. destruct (H (ex_intro _ out (ex_intro _ w' eq_refl))) as (req & cl & e & Hd & _). vm_compute in Hd. discriminate Hd.
Defined.
Lemma tgs_exchange_witness :
  is_ok (@handle_tgs_req_with_metrics rotate_block rotate_block fold_mac sample_rasn (InMemoryPrincipalStore_store sample_store) (replicate 32 x0c) [x00] true (sample_world 1700000000)).1 = false.
Proof.
  destruct (@tgs_exchange rotate_block rotate_block fold_mac sample_rasn (InMemoryPrincipalStore_store sample_store) (replicate 32 x0c) [x00] true (sample_world 1700000000)
    rotate_block_cipher (fun _ _ => eq_refl) (sample_world_good 1700000000 ltac:(lia))) as [[H _] _].
  destruct (@handle_tgs_req_with_metrics _ _ _ _ _ _ _ _ _) as [[out|e|] w'] eqn:Hrun in H |- *; [|reflexivity..]. destruct (H (ex_intro _ out (ex_intro _ w' eq_refl))) as (req & etp & svc & e & Hd & _). vm_compute in Hd. discriminate Hd.
Defined.
