(* ===== verification/Krbtgt.v ===== *)
(** * Krbtgt: managed keys ([adrian-kdc], [krbtgt.rs] and [gmsa.rs])

    The rotation of the ticket-granting key, with the two points a rotation
    passes through: the key store replaces the key, then the manager takes the
    new handle under its lock.  And the derived passwords of group managed
    service accounts. *)
From S2P Require Import Prelude Bytes Text KdcCrypto Hsm Kdc.

(** ** The manager of the ticket-granting key *)

Definition KRBGTGT_KEY_ID : bytes := lit "krbtgt".
Record KrbtgtState := mkKrbtgtState { current : KeyHandle; previous : option KeyHandle }.

Section Manager.
Context {S : Type} {H : Hsm S}.

Definition KrbtgtManager_new (rnd : Entropy) (hsm : S) : Result KdcError KrbtgtState * S :=
  let (r, hsm) := hsm_generate_key rnd hsm KRBGTGT_KEY_ID Aes256 in
  (let? k := map_err (fun e => Storage (GenerateKrbtgtFailed e)) r in Ok (mkKrbtgtState k None), hsm).
(** A rotation asks the key store first and takes the lock of the state after. *)
Definition rotate_begin (rnd : Entropy) (hsm : S) : Result KdcError KeyHandle * S :=
  let (r, hsm) := hsm_rotate_key rnd hsm KRBGTGT_KEY_ID in (map_err (fun e => Storage (RotateKrbtgtFailed e)) r, hsm).
Definition rotate_commit (st : KrbtgtState) (new_key : KeyHandle) : KrbtgtState := mkKrbtgtState new_key (Some (current st)).
Definition rotate (rnd : Entropy) (st : KrbtgtState) (hsm : S) : Result KdcError unit * KrbtgtState * S :=
  match rotate_begin rnd hsm with
  | (Ok new_key, hsm) => (Ok tt, rotate_commit st new_key, hsm)
  | (Err e, hsm) => (Err e, st, hsm)
  | (Panic, hsm) => (Panic, st, hsm)
  end.
Definition current_key (st : KrbtgtState) : KeyHandle := current st.
Definition previous_key (st : KrbtgtState) : option KeyHandle := previous st.
Definition key_count (st : KrbtgtState) : nat := match previous st with Some _ => 2 | None => 1 end.
Definition kvno (st : KrbtgtState) : Z := kh_version (current st).

(** ** Group managed service accounts *)

Definition KDS_ROOT_KEY_ID : bytes := lit "kds-root".
Definition GMSA_PASSWORD_LEN : nat := 32.
Record GmsaManager := mkGmsaManager { kds_root_key : KeyHandle; rotation_interval_secs : Z }.
Definition interval_in_range (days : Z) : bool := (1 <=? days) && (days <=? 90).
Definition GmsaManager_new (rnd : Entropy) (hsm : S) (interval_days : Z) : Result KdcError GmsaManager * S :=
  if negb (interval_in_range interval_days) then (Err (Policy (GmsaIntervalOutOfRange interval_days)), hsm)
  else
    let (r, hsm) := hsm_generate_key rnd hsm KDS_ROOT_KEY_ID HmacSha1 in
    (let? k := map_err (fun e => Storage (GenerateKdsRootFailed e)) r in
     let? secs := uint_mul 64 interval_days 86400 in
     Ok (mkGmsaManager k secs), hsm).
Definition with_root_key (root_key : KeyHandle) (interval_days : Z) : Result KdcError GmsaManager :=
  if negb (interval_in_range interval_days) then Err (Policy (GmsaIntervalOutOfRange interval_days))
  else let? secs := uint_mul 64 interval_days 86400 in Ok (mkGmsaManager root_key secs).
(** [now / interval] on [u64]: a zero divisor panics. *)
Definition current_cycle (g : GmsaManager) (now : Z) : Result KdcError Z :=
  if rotation_interval_secs g =? 0 then Panic else Ok (now / rotation_interval_secs g).

Definition gmsa_input (counter : Z) (gmsa_dn : bytes) (cycle : Z) : bytes :=
  to_be 4 counter ++ lit "adrian-gmsa" ++ [x00] ++ (gmsa_dn ++ to_be 8 cycle) ++ to_be 4 (Z.of_nat (GMSA_PASSWORD_LEN * 8)).
(** [while out.len() < 32], left with an error after 64 rounds. *)
Fixpoint gmsa_loop (rounds : nat) (g : GmsaManager) (hsm : S) (gmsa_dn : bytes) (cycle counter : Z) (out : bytes) : Result KdcError bytes :=
  if (GMSA_PASSWORD_LEN <=? length out)%nat then Ok (take GMSA_PASSWORD_LEN out)
  else
    match rounds with
    | O => Panic
    | Datatypes.S rounds =>
        let? block := map_err (fun e => Storage (SignGmsaFailed e)) (hsm_sign hsm (kds_root_key g) (gmsa_input counter gmsa_dn cycle)) in
        let counter := u32_saturating_add counter 1 in
        if 64 <? counter then Err (Storage GmsaTooManyRounds) else gmsa_loop rounds g hsm gmsa_dn cycle counter (out ++ block)
    end.
Definition compute_gmsa_password (g : GmsaManager) (hsm : S) (gmsa_dn : bytes) (cycle : Z) : Result KdcError bytes :=
  gmsa_loop 64 g hsm gmsa_dn cycle 1 [].
Definition compute_current_password (g : GmsaManager) (hsm : S) (gmsa_dn : bytes) (now : Z) : Result KdcError bytes :=
  let? cycle := current_cycle g now in compute_gmsa_password g hsm gmsa_dn cycle.
End Manager.

(** ** Derived passwords *)

Lemma gmsa_input_inj c1 dn1 k1 c2 dn2 k2 : is_u32 c1 -> is_u32 c2 -> is_u64 k1 -> is_u64 k2 ->
  gmsa_input c1 dn1 k1 = gmsa_input c2 dn2 k2 -> c1 = c2 /\ dn1 = dn2 /\ k1 = k2.
Proof.
  intros H1 H2 H3 H4 E. unfold gmsa_input in E. apply app_inj_1 in E as [E1 E]; [|by rewrite !length_to_be]. apply (inj (app _)), (inj (app _)) in E.
  apply app_inj_2 in E as [E _]; [|by rewrite !length_to_be]. apply app_inj_2 in E as [E2 E3]; [|by rewrite !length_to_be].
  apply to_be_inj in E1; [|unfold is_uint in *; cbn; lia|unfold is_uint in *; cbn; lia]. apply to_be_inj in E3; [|unfold is_uint in *; cbn; lia|unfold is_uint in *; cbn; lia]. done.
Qed.
(** No key store makes the loop run past its bound. *)
Lemma gmsa_loop_total {S} `{!Hsm S} rounds g (hsm : S) dn cycle counter out : (forall h d, hsm_sign hsm h d <> Panic) ->
  0 <= counter <= 64 -> 65 <= counter + Z.of_nat rounds -> gmsa_loop rounds g hsm dn cycle counter out <> Panic.
Proof.
  intros Hs. revert counter out. induction rounds as [|rounds IH]; intros counter out Hc Hr; cbn [gmsa_loop]; (destruct (_ <=? _)%nat; [done|]); [lia|].
  specialize (Hs (kds_root_key g) (gmsa_input counter dn cycle)). destruct (hsm_sign _ _ _) as [block|e|]; cbn [map_err rbind]; [|done|done].
  unfold u32_saturating_add, u32_MAX. rewrite Z.min_l by lia. destruct (Z.ltb_spec 64 (counter + 1)); [done|]. apply IH; lia.
Qed.

(** The password of a managed account: with the software key store and a
    current handle of its root key it is the first 32 bytes of three MACs over
    inputs that differ in counter, account or cycle whenever one of them does; and
    with any key store whose signing does not panic the derivation ends, with a
    password or an error, after at most 64 signatures. *)
Theorem gmsa_password_spec (hmac_sha1 : bytes -> bytes -> bytes) (gcm_seal gcm_open : bytes -> bytes -> bytes -> option bytes)
    (keys : SoftwareHsm) (g : GmsaManager) (material dn : bytes) (cycle : Z) :
  (forall k d, length (hmac_sha1 k d) = 20%nat) ->
  keys !! kh_id (kds_root_key g) = Some (mkKeyEntry HmacSha1 material (kh_version (kds_root_key g))) ->
  let block i := take 12 (hmac_sha1 material (gmsa_input i dn cycle)) in
  (exists password, @compute_gmsa_password _ (SoftwareHsm_hsm hmac_sha1 gcm_seal gcm_open) g keys dn cycle = Ok password
     /\ password = take GMSA_PASSWORD_LEN (block 1 ++ block 2 ++ block 3) /\ length password = GMSA_PASSWORD_LEN)
  /\ (forall c dn' cycle' c', is_u32 c -> is_u32 c' -> is_u64 cycle -> is_u64 cycle' -> gmsa_input c dn cycle = gmsa_input c' dn' cycle' ->
       c = c' /\ dn = dn' /\ cycle = cycle')
  /\ (forall (S : Type) (HS : Hsm S) (g' : GmsaManager) (hsm : S), (forall h d, hsm_sign hsm h d <> Panic) -> compute_gmsa_password g' hsm dn cycle <> Panic).
Proof.
  intros Hmac Hk block. split; [|split].
  - exists (take GMSA_PASSWORD_LEN (block 1 ++ block 2 ++ block 3)).
    assert (forall i, length (block i) = 12%nat) as Hb by (intros i; unfold block; rewrite length_take, Hmac; lia).
    split; [|split; [done|rewrite length_take, !length_app, !Hb; done]]. unfold compute_gmsa_password.
    assert (forall i, @hsm_sign _ (SoftwareHsm_hsm hmac_sha1 gcm_seal gcm_open) keys (kds_root_key g) (gmsa_input i dn cycle) = Ok (block i)) as Hs.
    { intros i. cbn [hsm_sign SoftwareHsm_hsm]. unfold sign, key_entry. rewrite Hk. cbn [ok_or rbind ke_version]. by rewrite Z.eqb_refl. }
    do 3 (cbn [gmsa_loop]; rewrite ?length_app, ?Hb; cbn [length Nat.add Nat.leb GMSA_PASSWORD_LEN]; rewrite Hs; cbn [map_err rbind];
      match goal with |- context [u32_saturating_add ?a 1] => let v := eval vm_compute in (u32_saturating_add a 1) in change (u32_saturating_add a 1) with v end; cbn [Z.ltb Z.compare Pos.compare Pos.compare_cont]).
    cbn [gmsa_loop]. rewrite !length_app, !Hb. cbn [length Nat.add Nat.leb GMSA_PASSWORD_LEN app]. by rewrite <-app_assoc.
  - intros c dn' cycle' c'. apply gmsa_input_inj.
  - intros S HS g' hsm Hs. apply gmsa_loop_total; [done|lia|lia].
Qed.
Lemma gmsa_password_spec_witness :
  let keys := <[KDS_ROOT_KEY_ID := mkKeyEntry HmacSha1 [x07] 1]> SoftwareHsm_new in
  exists password, @compute_gmsa_password _ (SoftwareHsm_hsm fold_mac (fun _ _ _ => None) (fun _ _ _ => None))
    (mkGmsaManager (mkKeyHandle KDS_ROOT_KEY_ID 1 HmacSha1) 86400) keys (lit "CN=web") 3 = Ok password /\ length password = 32%nat.
Proof.
  intros keys. destruct (gmsa_password_spec fold_mac (fun _ _ _ => None) (fun _ _ _ => None) keys
    (mkGmsaManager (mkKeyHandle KDS_ROOT_KEY_ID 1 HmacSha1) 86400) [x07] (lit "CN=web") 3) as [(pw & H1 & _ & H2) _]; [reflexivity|apply lookup_insert_eq|].
  exists pw. split; [exact H1|exact H2].
Defined.

(** ** Rotations *)

(** The manager's handle is the key store's. *)
Definition in_step (st : KrbtgtState) (keys : SoftwareHsm) : Prop :=
  kh_id (current st) = KRBGTGT_KEY_ID /\ exists material, keys !! KRBGTGT_KEY_ID = Some (mkKeyEntry Aes256 material (kh_version (current st))).
Definition working (rnd : Entropy) : Prop := forall n, exists b, rnd n = Some b.
Definition next_version (st : KrbtgtState) : Z := u32_saturating_add (kh_version (current st)) 1.

Section Rotation.
Context (hmac_sha1 : bytes -> bytes -> bytes) (gcm_seal gcm_open : bytes -> bytes -> bytes -> option bytes).
#[local] Instance software : Hsm SoftwareHsm := SoftwareHsm_hsm hmac_sha1 gcm_seal gcm_open.

Lemma begin_Ok rnd (keys : SoftwareHsm) m v : working rnd -> keys !! KRBGTGT_KEY_ID = Some (mkKeyEntry Aes256 m v) ->
  exists m', rotate_begin rnd keys = (Ok (mkKeyHandle KRBGTGT_KEY_ID (u32_saturating_add v 1) Aes256), <[KRBGTGT_KEY_ID := mkKeyEntry Aes256 m' (u32_saturating_add v 1)]> keys).
Proof.
  intros Hr Hk. destruct (Hr 32%nat) as [m' Hm]. exists m'. unfold rotate_begin. cbn [hsm_rotate_key software SoftwareHsm_hsm]. unfold rotate_key. rewrite Hk. cbn [ke_type].
  rewrite bool_decide_eq_false_2 by done. unfold hsm_random_bytes. cbn [key_len]. by rewrite Hm.
Qed.
Lemma rotate_in_step rnd st (keys : SoftwareHsm) : working rnd -> in_step st keys ->
  exists st' keys', rotate rnd st keys = (Ok tt, st', keys') /\ in_step st' keys' /\ kvno st' = next_version st /\ previous st' = Some (current st).
Proof.
  intros Hr [Hid [m Hk]]. destruct (begin_Ok rnd keys m _ Hr Hk) as [m' Hb]. unfold rotate. rewrite Hb. eexists _, _. split; [done|].
  split; [|done]. split; [done|]. exists m'. apply lookup_insert_eq.
Qed.
(** A handle with another version is refused by every operation. *)
Lemma stale_refused (keys : SoftwareHsm) h e data : keys !! kh_id h = Some e -> ke_version e <> kh_version h ->
  key_entry keys h = Err (HsmUnsupported (VersionMismatch (kh_version h) (ke_version e)))
  /\ hsm_decrypt keys h data = Err (HsmUnsupported (VersionMismatch (kh_version h) (ke_version e)))
  /\ (forall rnd, hsm_encrypt rnd keys h data = Err (HsmUnsupported (VersionMismatch (kh_version h) (ke_version e)))).
Proof.
  intros Hk Hne. assert (key_entry keys h = Err (HsmUnsupported (VersionMismatch (kh_version h) (ke_version e)))) as Hke.
  { unfold key_entry. rewrite Hk. cbn [ok_or rbind]. by rewrite (proj2 (Z.eqb_neq _ _)). }
  split; [done|]. split; [|intros rnd]; cbn [hsm_decrypt hsm_encrypt software SoftwareHsm_hsm]; unfold decrypt, encrypt; by rewrite Hke.
Qed.
End Rotation.

(** A key store's generator that fills its buffers, and a cipher that opens what
    it sealed. *)
Definition filling (rnd : Entropy) : Prop := forall n, exists b, rnd n = Some b /\ length b = n.
Definition GcmLaw (gcm_seal gcm_open : bytes -> bytes -> bytes -> option bytes) : Prop :=
  forall k n p, exists c, gcm_seal k n p = Some c /\ gcm_open k n c = Some p /\ length c = (length p + 16)%nat.
Lemma filling_working rnd : filling rnd -> working rnd.
Proof. intros H n. destruct (H n) as (b & Hb & _). by exists b. Qed.
Lemma encrypt_current hmac_sha1 gcm_seal gcm_open rnd st (keys : SoftwareHsm) p :
  GcmLaw gcm_seal gcm_open -> filling rnd -> in_step st keys ->
  exists c, @hsm_encrypt _ (SoftwareHsm_hsm hmac_sha1 gcm_seal gcm_open) rnd keys (current st) p = Ok c
    /\ @hsm_decrypt _ (SoftwareHsm_hsm hmac_sha1 gcm_seal gcm_open) keys (current st) c = Ok p.
Proof.
  intros Hg Hr [Hid [m Hk]]. cbn [hsm_encrypt hsm_decrypt SoftwareHsm_hsm]. unfold encrypt, decrypt, key_entry. rewrite Hid, Hk. cbn [ok_or rbind ke_version]. rewrite Z.eqb_refl.
  cbn [negb rbind ke_type ke_material]. destruct (Hr 12%nat) as (n & Hn & Hl). destruct (Hg m n p) as (c & Hs & Ho & Hlc). unfold aes_256_gcm_encrypt, hsm_random_bytes. rewrite Hn. cbn [ok_or rbind].
  rewrite Hs. cbn [ok_or rbind]. eexists. split; [done|]. unfold aes_256_gcm_decrypt. rewrite length_app, (proj2 (Nat.ltb_ge _ _)) by lia.
  rewrite take_app_length' by done. rewrite drop_app_length' by done. by rewrite Ho.
Qed.

Section Rotations.
Context (hmac_sha1 : bytes -> bytes -> bytes) (gcm_seal gcm_open : bytes -> bytes -> bytes -> option bytes).
#[local] Instance soft : Hsm SoftwareHsm := SoftwareHsm_hsm hmac_sha1 gcm_seal gcm_open.
(** Rotations one after the other. *)
Fixpoint rotate_all (rnds : list Entropy) (st : KrbtgtState) (keys : SoftwareHsm) : Result KdcError (KrbtgtState * SoftwareHsm) :=
  match rnds with
  | [] => Ok (st, keys)
  | rnd :: rnds => match rotate rnd st keys with (Ok tt, st, keys) => rotate_all rnds st keys | (Err e, _, _) => Err e | (Panic, _, _) => Panic end
  end.
Lemma rotate_all_in_step rnds st keys : Forall working rnds -> in_step st keys -> 0 < kvno st -> kvno st + Z.of_nat (length rnds) <= u32_MAX ->
  match previous st with Some h => kh_id h = KRBGTGT_KEY_ID /\ kh_version h = kvno st - 1 | None => kvno st = 1 end ->
  exists st' keys', rotate_all rnds st keys = Ok (st', keys') /\ in_step st' keys' /\ kvno st' = kvno st + Z.of_nat (length rnds)
    /\ match previous st' with Some h => kh_id h = KRBGTGT_KEY_ID /\ kh_version h = kvno st' - 1 | None => kvno st' = 1 end.
Proof.
  intros Hr. revert st keys. induction Hr as [|rnd rnds Hrnd _ IH]; intros st keys Hin Hpos Hmax Hprev; cbn [rotate_all length] in *.
  { exists st, keys. rewrite Z.add_0_r. done. }
  destruct (rotate_in_step hmac_sha1 gcm_seal gcm_open rnd st keys Hrnd Hin) as (st1 & keys1 & E & Hin1 & Hv & Hp). unfold software in E. unfold soft. rewrite E.
  assert (kvno st1 = kvno st + 1) as Hv1 by (rewrite Hv; unfold next_version, u32_saturating_add, kvno in *; lia).
  destruct (IH st1 keys1) as (st' & keys' & E' & Hin' & Hv' & Hp'); [done|lia|lia| |exists st', keys'; split; [done|]; split; [done|]; split; [lia|done]].
  rewrite Hp. split; [apply Hin|]. unfold kvno in *. lia.
Qed.
End Rotations.

(** Rotating the ticket-granting key, one rotation after the other: the
    version counts the rotations, what is encrypted under the current key can be
    decrypted, and at most two handles are kept.  But the previous handle is of no
    use: the key store has destroyed its key and refuses every operation with
    it. *)
Theorem krbtgt_rotations (hmac_sha1 : bytes -> bytes -> bytes) (gcm_seal gcm_open : bytes -> bytes -> bytes -> option bytes)
    (keys : SoftwareHsm) (rnd rnd' : Entropy) (rnds : list Entropy) :
  GcmLaw gcm_seal gcm_open -> keys !! KRBGTGT_KEY_ID = None -> filling rnd -> filling rnd' -> Forall filling rnds -> Z.of_nat (length rnds) < u32_MAX ->
  let hsm := SoftwareHsm_hsm hmac_sha1 gcm_seal gcm_open in
  exists st0 keys0 st keys', KrbtgtManager_new rnd keys = (Ok st0, keys0) /\ rotate_all hmac_sha1 gcm_seal gcm_open rnds st0 keys0 = Ok (st, keys')
    /\ kvno st = 1 + Z.of_nat (length rnds) /\ (key_count st <= 2)%nat
    /\ (forall p, exists c, hsm_encrypt rnd' keys' (current_key st) p = Ok c /\ hsm_decrypt keys' (current_key st) c = Ok p)
    /\ match previous_key st with
       | None => rnds = []
       | Some h => kh_version h = kvno st - 1 /\ forall c, hsm_decrypt keys' h c = Err (HsmUnsupported (VersionMismatch (kvno st - 1) (kvno st)))
       end.
Proof.
  intros Hg Hfresh Hr Hr' Hrs Hmax hsm. destruct (Hr 32%nat) as (m & Hm & _).
  assert (in_step (mkKrbtgtState (mkKeyHandle KRBGTGT_KEY_ID 1 Aes256) None) (<[KRBGTGT_KEY_ID := mkKeyEntry Aes256 m 1]> keys)) as Hin by (split; [done|]; exists m; apply lookup_insert_eq).
  destruct (rotate_all_in_step hmac_sha1 gcm_seal gcm_open rnds _ _ (Forall_impl _ _ _ Hrs filling_working) Hin) as (st & keys' & E & Hin' & Hv & Hp);
    [done|cbn; unfold u32_MAX in *; lia|done|]. change (kvno (mkKrbtgtState _ _)) with 1 in Hv.
  eexists _, _, st, keys'. split; [unfold KrbtgtManager_new; cbn [hsm_generate_key hsm SoftwareHsm_hsm]; unfold generate_key; rewrite bool_decide_eq_false_2 by done; rewrite Hfresh; unfold hsm_random_bytes; cbn [key_len]; rewrite Hm; reflexivity|].
  split; [exact E|]. split; [done|]. split; [unfold key_count; destruct (previous st); lia|]. split; [intros p; by apply encrypt_current|].
  unfold previous_key. destruct (previous st) as [h|]; [|destruct rnds; [done|cbn [length] in Hv; lia]]. destruct Hp as [Hid Hpv]. split; [done|]. intros c.
  destruct Hin' as [_ [m' Hk]]. rewrite <-Hpv. unfold kvno. apply (stale_refused hmac_sha1 gcm_seal gcm_open keys' h (mkKeyEntry Aes256 m' (kh_version (current st))) c); [by rewrite Hid|].
  cbn [ke_version]. unfold kvno in *. lia.
Qed.
Lemma krbtgt_rotations_witness :
  let seal (k n p : bytes) := Some (p ++ replicate 16 x00) in let open (k n c : bytes) := Some (take (length c - 16) c) in
  let rnd n := Some (replicate n x05) in
  exists st0 keys0 st keys', @KrbtgtManager_new _ (SoftwareHsm_hsm fold_mac seal open) rnd SoftwareHsm_new = (Ok st0, keys0)
    /\ rotate_all fold_mac seal open [rnd; rnd] st0 keys0 = Ok (st, keys') /\ kvno st = 3.
Proof.
  intros seal open rnd. destruct (krbtgt_rotations fold_mac seal open SoftwareHsm_new rnd rnd [rnd; rnd]) as (st0 & keys0 & st & keys' & H1 & H2 & H3 & _).
  - intros k n p. exists (p ++ replicate 16 x00). split; [reflexivity|]. unfold open. rewrite length_app. cbn [length replicate]. rewrite Nat.add_sub, take_app_length. split; reflexivity.
  - reflexivity.
  - intros n. eexists. split; [reflexivity|apply length_replicate].
  - intros n. eexists. split; [reflexivity|apply length_replicate].
  - repeat constructor; intros n; eexists; (split; [reflexivity|apply length_replicate]).
  - reflexivity.
  - exists st0, keys0, st, keys'. split; [exact H1|]. split; [exact H2|exact H3].
Defined.

(** Two rotations that overlap: if the one that reached the key store first
    takes the manager's lock last, the current handle is one version behind and
    every encryption with it is refused; committed in their order the manager
    stays in step. *)
Theorem krbtgt_rotation_race (hmac_sha1 : bytes -> bytes -> bytes) (gcm_seal gcm_open : bytes -> bytes -> bytes -> option bytes)
    (st : KrbtgtState) (keys : SoftwareHsm) (rnd1 rnd2 : Entropy) :
  working rnd1 -> working rnd2 -> in_step st keys -> 0 <= kvno st -> kvno st + 2 <= u32_MAX ->
  let hsm := SoftwareHsm_hsm hmac_sha1 gcm_seal gcm_open in
  exists k1 keys1 k2 keys2, rotate_begin rnd1 keys = (Ok k1, keys1) /\ rotate_begin rnd2 keys1 = (Ok k2, keys2)
    /\ in_step (rotate_commit (rotate_commit st k1) k2) keys2
    /\ (forall rnd p, hsm_encrypt rnd keys2 (current (rotate_commit (rotate_commit st k2) k1)) p
          = Err (HsmUnsupported (VersionMismatch (kvno st + 1) (kvno st + 2)))).
Proof.
  intros R1 R2 [Hid [m Hk]] H0 Hmax hsm. destruct (begin_Ok hmac_sha1 gcm_seal gcm_open rnd1 keys m _ R1 Hk) as [m1 B1].
  set (keys1 := <[KRBGTGT_KEY_ID := mkKeyEntry Aes256 m1 _]> keys) in *.
  assert (keys1 !! KRBGTGT_KEY_ID = Some (mkKeyEntry Aes256 m1 (u32_saturating_add (kh_version (current st)) 1))) as Hk1 by apply lookup_insert_eq.
  destruct (begin_Ok hmac_sha1 gcm_seal gcm_open rnd2 keys1 m1 _ R2 Hk1) as [m2 B2]. eexists _, _, _, _. split; [exact B1|]. split; [exact B2|].
  split; [split; [done|]; exists m2; apply lookup_insert_eq|]. intros rnd p. unfold kvno in *.
  pose proof (stale_refused hmac_sha1 gcm_seal gcm_open
    (<[KRBGTGT_KEY_ID := mkKeyEntry Aes256 m2 (u32_saturating_add (u32_saturating_add (kh_version (current st)) 1) 1)]> keys1)
    (mkKeyHandle KRBGTGT_KEY_ID (u32_saturating_add (kh_version (current st)) 1) Aes256)
    (mkKeyEntry Aes256 m2 (u32_saturating_add (u32_saturating_add (kh_version (current st)) 1) 1)) p) as (_ & _ & Hs); [apply lookup_insert_eq| |].
  { cbn [ke_version kh_version]. unfold u32_saturating_add. lia. }
  cbn [ke_version kh_version] in Hs. specialize (Hs rnd). revert Hs. cbn [rotate_commit current].
  replace (u32_saturating_add (u32_saturating_add (kh_version (current st)) 1) 1) with (kh_version (current st) + 2) by (unfold u32_saturating_add; lia).
  replace (u32_saturating_add (kh_version (current st)) 1) with (kh_version (current st) + 1) by (unfold u32_saturating_add; lia). intros Hs. exact Hs.
Qed.
Lemma krbtgt_rotation_race_witness :
  let rnd n := Some (replicate n x05) in let st := mkKrbtgtState (mkKeyHandle KRBGTGT_KEY_ID 1 Aes256) None in
  let keys := <[KRBGTGT_KEY_ID := mkKeyEntry Aes256 [x01] 1]> SoftwareHsm_new in
  exists k1 keys1 k2 keys2, @rotate_begin _ (SoftwareHsm_hsm fold_mac (fun _ _ p => Some p) (fun _ _ p => Some p)) rnd keys = (Ok k1, keys1)
    /\ @rotate_begin _ (SoftwareHsm_hsm fold_mac (fun _ _ p => Some p) (fun _ _ p => Some p)) rnd keys1 = (Ok k2, keys2).
Proof.
  intros rnd st keys. destruct (krbtgt_rotation_race fold_mac (fun _ _ p => Some p) (fun _ _ p => Some p) st keys rnd rnd) as (k1 & keys1 & k2 & keys2 & H1 & H2 & _).
  - intros n. by eexists.
  - intros n. by eexists.
  - split; [reflexivity|]. exists [x01]. reflexivity.
  - vm_compute. congruence.
  - vm_compute. congruence.
  - exists k1, keys1, k2, keys2. split; [exact H1|exact H2].
Defined.
