(* ===== verification/Kpasswd.v ===== *)
(** * Kpasswd: password changes ([adrian-kdc], [kpasswd.rs])

    The request and reply formats, the replay cache and the service over any
    directory store and any key store.  The clock is an argument (nanoseconds of a
    monotonic clock), random draws are an argument, PBKDF2-HMAC-SHA256 is a
    parameter. *)
From S2P Require Import Prelude Bytes Text StorageKeys LdapHandler KdcCrypto Hsm Kdc Krbtgt.

Definition KRB5_KPASSWD_SUCCESS : Z := 0.
Definition KRB5_KPASSWD_ACCESS_DENIED : Z := 5.
Definition KRB5_KPASSWD_SOFTERROR : Z := 8.
Definition KRB5KRB_AP_ERR_BAD_INTEGRITY : Z := 1000029.
Definition KRB5KRB_AP_ERR_REPEAT : Z := 1000031.
Definition KRB5KDC_ERR_C_PRINCIPAL_UNKNOWN : Z := 1000007.
Definition KRB5KDC_ERR_POLICY : Z := 1000048.
Definition KPASSWD_VERSION_CHANGE : Z := 0x0001.
Definition MIN_PASSWORD_LEN : nat := 12.
Definition MAX_PASSWORD_LEN : nat := 256.
Definition KPASSWD_PBKDF2_ITERATIONS : Z := 200000.
Definition PBKDF2_SALT_LEN : nat := 16.
Definition PBKDF2_OUTPUT_LEN : nat := 32.

(** ** Messages *)

Definition PrincipalName : Type := bytes.
(** [split_once('@')]: what precedes the first one. *)
Fixpoint before_at (s : bytes) : bytes :=
  match s with
  | [] => []
  | c :: s => if bool_decide (c = x40) then [] else c :: before_at s
  end.
Definition to_dn (name : PrincipalName) : bytes :=
  if starts_with name (lit "CN=") then name
  else lit "CN=" ++ before_at name ++ lit ",CN=Users,DC=adrian,DC=example,DC=com".

Record KpasswdRequest := mkKpasswdRequest {
  client_principal : PrincipalName;
  target_principal : PrincipalName;
  authenticator_mac : bytes;
  new_password : bytes;
  password_encrypted : bool;
}.
Record KpasswdResponse := mkKpasswdResponse { result_code : Z; result_string : bytes }.
Definition KpasswdResponse_success : KpasswdResponse := mkKpasswdResponse KRB5_KPASSWD_SUCCESS (lit "Password changed").
Definition KpasswdResponse_denied (reason : bytes) : KpasswdResponse := mkKpasswdResponse KRB5_KPASSWD_ACCESS_DENIED reason.
Definition bad_integrity (reason : bytes) : KpasswdResponse := mkKpasswdResponse KRB5KRB_AP_ERR_BAD_INTEGRITY reason.
Definition principal_unknown (reason : bytes) : KpasswdResponse := mkKpasswdResponse KRB5KDC_ERR_C_PRINCIPAL_UNKNOWN reason.
Definition policy_violation (reason : bytes) : KpasswdResponse := mkKpasswdResponse KRB5KDC_ERR_POLICY reason.
Definition replay_detected (reason : bytes) : KpasswdResponse := mkKpasswdResponse KRB5KRB_AP_ERR_REPEAT reason.

(** A length cut to 16 bits, then the bytes. *)
Definition put_field (b : bytes) : bytes := to_be 2 (Z.of_nat (length b)) ++ b.
Definition KpasswdRequest_encode (r : KpasswdRequest) : bytes :=
  let body := to_be 2 KPASSWD_VERSION_CHANGE ++ put_field (client_principal r) ++ put_field (target_principal r)
              ++ put_field (authenticator_mac r) ++ put_field (new_password r) ++ [if password_encrypted r then x01 else x00] in
  to_be 2 (Z.of_nat (length body)) ++ body.
(** [u16::from_be_bytes([bytes[p], bytes[p + 1]])]: an index out of range panics. *)
Definition be16_at (b : bytes) (p : nat) : Result KdcError Z := let? two := slice b p (p + 2) in Ok (of_be two).
Definition read_field (b : bytes) (p : nat) (f : KpasswdField) : Result KdcError (bytes * nat) :=
  if (length b <? p + 2)%nat then Err (Storage (KpTruncatedLength f))
  else
    let? len := be16_at b p in
    let p := (p + 2)%nat in
    let p' := (p + Z.to_nat len)%nat in
    if (length b <? p')%nat then Err (Storage (KpTruncatedBody f))
    else let? field := slice b p p' in Ok (field, p').
Definition utf8_text (b : bytes) (f : KpasswdField) : Result KdcError bytes := if utf8_valid b then Ok b else Err (Storage (KpNotUtf8 f)).
Definition KpasswdRequest_parse (b : bytes) : Result KdcError KpasswdRequest :=
  if (length b <? 4)%nat then Err (Storage KpHeaderTooShort)
  else
    let? body_len := be16_at b 0 in
    if negb (Z.of_nat (length b) =? 2 + body_len) then Err (Storage (KpLengthMismatch body_len (Z.of_nat (length b) - 2)))
    else if (length b <? 4)%nat then Err (Storage KpTruncatedVersion)
    else
      let? version := be16_at b 2 in
      if negb (version =? KPASSWD_VERSION_CHANGE) then Err (Storage (KpUnsupportedVersion version))
      else
        let? (client, p) := read_field b 4 ClientPrincipalField in
        let? (target, p) := read_field b p TargetPrincipalField in
        let? (mac, p) := read_field b p MacField in
        let? (pwd, p) := read_field b p PasswordField in
        let? client := utf8_text client ClientPrincipalField in
        let? target := utf8_text target TargetPrincipalField in
        Ok (mkKpasswdRequest client target mac pwd (match b !! p with Some c => bool_decide (c = x01) | None => false end)).
Definition KpasswdResponse_encode (r : KpasswdResponse) : bytes :=
  let rc := if 65535 <? result_code r then KRB5_KPASSWD_SOFTERROR else result_code r in
  to_be 2 (Z.of_nat (6 + length (result_string r))) ++ to_be 2 KPASSWD_VERSION_CHANGE ++ to_be 2 rc ++ put_field (result_string r).
Definition KpasswdResponse_parse (b : bytes) : Result KdcError KpasswdResponse :=
  if (length b <? 4)%nat then Err (Storage KpHeaderTooShort)
  else
    let? body_len := be16_at b 0 in
    if negb (Z.of_nat (length b) =? 2 + body_len) then Err (Storage (KpLengthMismatch body_len (Z.of_nat (length b) - 2)))
    else
      let? _ := be16_at b 2 in
      if (length b <? 6)%nat then Err (Storage (KpTruncatedBody ResultCodeField))
      else
        let? code := be16_at b 4 in
        let? (text, _) := read_field b 6 ResultStringField in
        let? text := utf8_text text ResultStringField in
        Ok (mkKpasswdResponse code text).

(** ** The replay cache *)

Definition REPLAY_CACHE_TTL : Z := 5 * 60 * 1000000000.
Definition ReplayCache : Type := gmap Z (Z * PrincipalName).
Definition ReplayCache_new : ReplayCache := ∅.
(** [duration_since] of an earlier time, or zero. *)
Definition expired (now : Z) (ts : Z) : bool := REPLAY_CACHE_TTL <? Z.max 0 (now - ts).
Definition evict (now : Z) (cache : ReplayCache) : ReplayCache := filter (fun e => expired now e.2.1 = false) cache.
Definition check_and_add (now : Z) (cache : ReplayCache) (checksum : Z) (principal : PrincipalName) : Result KdcError unit * ReplayCache :=
  let entries := evict now cache in
  match entries !! checksum with
  | Some _ => (Err (Storage (KpReplay principal checksum)), entries)
  | None => (Ok tt, <[checksum := (now, principal)]> entries)
  end.
Definition fnv1a_64 (b : bytes) : Z :=
  fold_left (fun hash c => (Z.lxor hash (b2z c) * 0x100000001b3) mod 2 ^ 64) b 0xcbf29ce484222325.

(** ** The service *)

Record KpasswdService (S H : Type) := mkKpasswdService {
  kp_directory : S;
  kp_krbtgt : KrbtgtState;
  kp_hsm : H;
  kp_replay_cache : ReplayCache;
}.
Arguments mkKpasswdService {S H} _ _ _ _.
Arguments kp_directory {S H} _.
Arguments kp_krbtgt {S H} _.
Arguments kp_hsm {S H} _.
Arguments kp_replay_cache {S H} _.

Definition KRBTGT_MAC_KEY_ID : bytes := lit "krbtgt-mac".
Definition UNICODE_PWD : bytes := lit "unicodePwd".
(** The first attribute of that name is replaced, else one is added. *)
Fixpoint set_password (attrs : list Attribute) (hash : bytes) : list Attribute :=
  match attrs with
  | [] => [mkAttribute 0 UNICODE_PWD hash]
  | a :: attrs => if bool_decide (attr_name a = UNICODE_PWD) then mkAttribute (attribute_id a) (attr_name a) hash :: attrs else a :: set_password attrs hash
  end.
Definition with_password (obj : Object) (hash : bytes) : Object :=
  mkObject (obj_uuid obj) (obj_dn obj) (set_password (obj_attributes obj) hash) (obj_dnt obj).
Definition mac_input (r : KpasswdRequest) : bytes := client_principal r ++ target_principal r ++ new_password r.

Section Service.
Context {S H : Type} {DS : DirectoryStore S} {HS : Hsm H} (pbkdf2_hmac_sha256 : bytes -> bytes -> Z -> nat -> bytes).

Definition KpasswdService_new (directory : S) (krbtgt : KrbtgtState) (hsm : H) : KpasswdService S H :=
  mkKpasswdService directory krbtgt hsm ReplayCache_new.
Definition hash_password (rnd : Entropy) (password : bytes) : Result KdcError bytes :=
  let? salt := ok_or (rnd PBKDF2_SALT_LEN) (Storage KpSaltFailed) in
  Ok (salt ++ pbkdf2_hmac_sha256 password salt KPASSWD_PBKDF2_ITERATIONS PBKDF2_OUTPUT_LEN).
Definition KrbPrivEnvelope_encrypt (rnd : Entropy) (hsm : H) (h : KeyHandle) (plaintext : bytes) : Result KdcError bytes :=
  map_err (fun e => Storage (KrbPrivEncryptFailed e)) (hsm_encrypt rnd hsm h plaintext).
Definition KrbPrivEnvelope_decrypt (hsm : H) (h : KeyHandle) (ciphertext : bytes) : Result KdcError bytes :=
  map_err (fun e => Storage (KrbPrivDecryptFailed e)) (hsm_decrypt hsm h ciphertext).
(** The failure of [KrbPrivEnvelope::decrypt], named once more by the service. *)
Definition decrypt_failed (e : KdcError) : KdcError :=
  match e with Storage (KrbPrivDecryptFailed h) => Storage (KpDecryptFailed h) | e => e end.
Definition cleartext_password (sv : KpasswdService S H) (req : KpasswdRequest) : Result KdcError bytes :=
  if password_encrypted req then map_err decrypt_failed (KrbPrivEnvelope_decrypt (kp_hsm sv) (current_key (kp_krbtgt sv)) (new_password req))
  else Ok (new_password req).
(** The MAC key is generated or found; if that fails it is rotated and asked for
    again. *)
Definition mac_key (draw : nat -> Entropy) (hsm : H) : Result HsmError KeyHandle * H :=
  match hsm_generate_key (draw 0%nat) hsm KRBTGT_MAC_KEY_ID HmacSha1 with
  | (Ok kh, hsm) => (Ok kh, hsm)
  | (Panic, hsm) => (Panic, hsm)
  | (Err _, hsm) =>
      match hsm_rotate_key (draw 1%nat) hsm KRBTGT_MAC_KEY_ID with
      | (Panic, hsm) => (Panic, hsm)
      | (_, hsm) => hsm_generate_key (draw 2%nat) hsm KRBTGT_MAC_KEY_ID HmacSha1
      end
  end.
Definition reply (r : KpasswdResponse) : Result KdcError bytes := Ok (KpasswdResponse_encode r).

(** Steps 5 to 8: the target, the cleartext, its length, the write. *)
Definition change_password (draw : nat -> Entropy) (sv : KpasswdService S H) (req : KpasswdRequest) : Result KdcError bytes * S :=
  let dir := kp_directory sv in
  let target_dn := to_dn (target_principal req) in
  match ds_get_by_dn dir (mkDN target_dn) with
  | Panic => (Panic, dir)
  | Err e => (Err (Storage (KpDirectoryGet target_dn e)), dir)
  | Ok None => (reply (principal_unknown (lit "principal not found: " ++ target_dn)), dir)
  | Ok (Some target_obj) =>
      match cleartext_password sv req with
      | Panic => (Panic, dir)
      | Err e => (Err e, dir)
      | Ok pwd =>
          if (length pwd <? MIN_PASSWORD_LEN)%nat then (reply (policy_violation (lit "Password too short (minimum 12 characters)")), dir)
          else if (MAX_PASSWORD_LEN <? length pwd)%nat then (reply (policy_violation (lit "Password too long (maximum 256 characters)")), dir)
          else
            match hash_password (draw 3%nat) pwd with
            | Panic => (Panic, dir)
            | Err e => (Err e, dir)
            | Ok hash =>
                match ds_put dir (with_password target_obj hash) with
                | (dir, Ok _) => (reply KpasswdResponse_success, dir)
                | (dir, Err e) => (Err (Storage (KpDirectoryPut e)), dir)
                | (dir, Panic) => (Panic, dir)
                end
            end
      end
  end.
Definition handle_kpasswd (now : Z) (draw : nat -> Entropy) (sv : KpasswdService S H) (req_bytes : bytes) : Result KdcError bytes * KpasswdService S H :=
  match KpasswdRequest_parse req_bytes with
  | Panic => (Panic, sv)
  | Err e => (Err e, sv)
  | Ok req =>
      if (length (authenticator_mac req) =? 0)%nat
      then (reply (bad_integrity (lit "kpasswd: missing authenticator MAC (RFC 3244 requires KRB-PRIV wrapping)")), sv)
      else
        let (kh, hsm) := mac_key draw (kp_hsm sv) in
        let sv := mkKpasswdService (kp_directory sv) (kp_krbtgt sv) hsm (kp_replay_cache sv) in
        match kh with
        | Panic => (Panic, sv)
        | Err e => (Err (Storage (HsmFailed e)), sv)
        | Ok kh =>
            match hsm_verify hsm kh (mac_input req) (authenticator_mac req) with
            | Panic => (Panic, sv)
            | Err e => (Err (Storage (KpVerifyFailed e)), sv)
            | Ok false => (reply (bad_integrity (lit "kpasswd: authenticator MAC verification failed (golden-ticket defense)")), sv)
            | Ok true =>
                let (added, cache) := check_and_add now (kp_replay_cache sv) (fnv1a_64 (authenticator_mac req)) (client_principal req) in
                let sv := mkKpasswdService (kp_directory sv) (kp_krbtgt sv) hsm cache in
                match added with
                | Panic => (Panic, sv)
                | Err _ => (reply (replay_detected (lit "kpasswd: authenticator replay detected (RFC 4120 §10)")), sv)
                | Ok _ =>
                    let (r, dir) := change_password draw sv req in
                    (r, mkKpasswdService dir (kp_krbtgt sv) hsm cache)
                end
            end
        end
  end.
Definition fast_armor_tgt (fast_required pkinit_available : bool) : Result KdcError unit :=
  if fast_required && negb pkinit_available then Err FastArmorRequired else Ok tt.
End Service.
