(* ===== verification/KpasswdSpec.v ===== *)
(** * KpasswdSpec: what a password change proves and guards against *)
From S2P Require Import Prelude Bytes Text StorageKeys LdapHandler MemStore KdcCrypto Hsm Kdc Krbtgt Kpasswd.

(** ** Messages *)

Definition kp_request_ok (r : KpasswdRequest) : Prop :=
  utf8_valid (client_principal r) = true /\ utf8_valid (target_principal r) = true
  /\ Z.of_nat (11 + length (client_principal r) + length (target_principal r) + length (authenticator_mac r) + length (new_password r)) < 65536.

Lemma be16_at_Ok b p : (p + 2 <= length b)%nat -> be16_at b p = Ok (of_be (take 2 (drop p b))).
Proof. intros H. unfold be16_at. rewrite slice_Ok by lia. cbn [rbind]. by rewrite Nat.add_sub'. Qed.
Lemma of_be_take2 b : 0 <= of_be (take 2 b) < 65536.
Proof. pose proof (of_be_range (take 2 b)) as H. assert (256 ^ Z.of_nat (length (take 2 b)) <= 256 ^ 2) by (apply Z.pow_le_mono_r; [lia|]; rewrite length_take; lia). lia. Qed.
Lemma be16_at_field pre z post : 0 <= z < 65536 -> be16_at (pre ++ to_be 2 z ++ post) (length pre) = Ok z.
Proof.
  intros Hz. rewrite be16_at_Ok by (rewrite !length_app, length_to_be; lia). rewrite drop_app_length, take_app_length' by (by rewrite length_to_be).
  f_equal. apply of_to_be_id. cbn. lia.
Qed.
Lemma be16_at_head z post : 0 <= z < 65536 -> be16_at (to_be 2 z ++ post) 0 = Ok z.
Proof. exact (be16_at_field [] z post). Qed.
Lemma read_field_put pre v post f : Z.of_nat (length v) < 65536 ->
  read_field (pre ++ put_field v ++ post) (length pre) f = Ok (v, length pre + 2 + length v)%nat.
Proof.
  intros Hv. unfold read_field, put_field. rewrite <-app_assoc. rewrite (proj2 (Nat.ltb_ge _ _)) by (rewrite !length_app, length_to_be; lia).
  rewrite be16_at_field by lia. cbn [rbind]. rewrite Nat2Z.id, (proj2 (Nat.ltb_ge _ _)) by (rewrite !length_app, length_to_be; lia).
  rewrite slice_Ok by (rewrite !length_app, length_to_be; lia). cbn [rbind]. rewrite Nat.add_sub', app_assoc.
  replace (length pre + 2)%nat with (length (pre ++ to_be 2 (Z.of_nat (length v)))) by (by rewrite length_app, length_to_be). rewrite drop_app_length, take_app_length. done.
Qed.
Lemma length_put v : length (put_field v) = (2 + length v)%nat.
Proof. unfold put_field. by rewrite length_app, length_to_be. Qed.

Lemma kp_request_roundtrip r : kp_request_ok r -> KpasswdRequest_parse (KpasswdRequest_encode r) = Ok r.
Proof.
  intros (Hc & Ht & Hl). destruct r as [c t m pw enc]. cbn [client_principal target_principal authenticator_mac new_password password_encrypted] in *.
  set (flag := if enc then x01 else x00). set (ver := to_be 2 KPASSWD_VERSION_CHANGE).
  set (body := ver ++ put_field c ++ put_field t ++ put_field m ++ put_field pw ++ [flag]).
  assert (length body = 11 + length c + length t + length m + length pw)%nat as Hb by (unfold body, ver; rewrite !length_app, !length_put, length_to_be; cbn [length]; lia).
  assert (KpasswdRequest_encode (mkKpasswdRequest c t m pw enc) = to_be 2 (Z.of_nat (length body)) ++ body) as -> by reflexivity.
  set (hd := to_be 2 (Z.of_nat (length body))). assert (length hd = 2%nat) as Hhd by apply length_to_be. assert (length ver = 2%nat) as Hver by apply length_to_be.
  unfold KpasswdRequest_parse. rewrite length_app, Hhd, Hb. rewrite (proj2 (Nat.ltb_ge _ _)) by lia.
  unfold hd at 1. rewrite be16_at_head by lia. fold hd. cbn [rbind].
  rewrite (proj2 (Z.eqb_eq _ _)) by lia. cbn [negb]. unfold body. change 2%nat with (length hd) at 1.
  rewrite (be16_at_field hd KPASSWD_VERSION_CHANGE) by (unfold KPASSWD_VERSION_CHANGE; lia). cbn [rbind]. rewrite Z.eqb_refl. cbn [negb].
  set (p1 := hd ++ ver). set (p2 := p1 ++ put_field c). set (p3 := p2 ++ put_field t). set (p4 := p3 ++ put_field m). set (p5 := p4 ++ put_field pw).
  assert (hd ++ ver ++ put_field c ++ put_field t ++ put_field m ++ put_field pw ++ [flag] = p1 ++ put_field c ++ put_field t ++ put_field m ++ put_field pw ++ [flag]) as -> by (unfold p1; by rewrite <-app_assoc).
  assert (length p1 = 4%nat) as L1 by (unfold p1; rewrite length_app; lia).
  change 4%nat with (4 + 0)%nat. rewrite Nat.add_0_r. rewrite <-L1 at 1. rewrite read_field_put by lia. cbn [rbind].
  replace (p1 ++ put_field c ++ put_field t ++ put_field m ++ put_field pw ++ [flag]) with (p2 ++ put_field t ++ put_field m ++ put_field pw ++ [flag]) by (unfold p2; by rewrite <-app_assoc).
  replace (length p1 + 2 + length c)%nat with (length p2) by (unfold p2; rewrite length_app, length_put; lia). rewrite read_field_put by lia. cbn [rbind].
  replace (p2 ++ put_field t ++ put_field m ++ put_field pw ++ [flag]) with (p3 ++ put_field m ++ put_field pw ++ [flag]) by (unfold p3; by rewrite <-app_assoc).
  replace (length p2 + 2 + length t)%nat with (length p3) by (unfold p3; rewrite length_app, length_put; lia). rewrite read_field_put by lia. cbn [rbind].
  replace (p3 ++ put_field m ++ put_field pw ++ [flag]) with (p4 ++ put_field pw ++ [flag]) by (unfold p4; by rewrite <-app_assoc).
  replace (length p3 + 2 + length m)%nat with (length p4) by (unfold p4; rewrite length_app, length_put; lia). rewrite read_field_put by lia. cbn [rbind].
  unfold utf8_text. rewrite Hc, Ht. cbn [rbind]. replace (length p4 + 2 + length pw)%nat with (length p5) by (unfold p5; rewrite length_app, length_put; lia).
  replace (p4 ++ put_field pw ++ [flag]) with (p5 ++ flag :: []) by (unfold p5; by rewrite <-app_assoc). rewrite list_lookup_middle by done. by destruct enc.
Qed.
Lemma kp_response_roundtrip r : utf8_valid (result_string r) = true -> Z.of_nat (length (result_string r)) < 65530 -> is_u32 (result_code r) ->
  KpasswdResponse_parse (KpasswdResponse_encode r) = Ok (mkKpasswdResponse (if 65535 <? result_code r then KRB5_KPASSWD_SOFTERROR else result_code r) (result_string r)).
Proof.
  destruct r as [code text]. cbn [result_code result_string]. intros Hu Hl Hc. unfold KpasswdResponse_encode. cbn [result_code result_string].
  set (rc := if 65535 <? code then KRB5_KPASSWD_SOFTERROR else code). assert (0 <= rc < 65536) as Hrc.
  { unfold rc, KRB5_KPASSWD_SOFTERROR. destruct (Z.ltb_spec 65535 code); [lia|]. unfold is_uint in Hc. lia. }
  set (hd := to_be 2 (Z.of_nat (6 + length text))). set (ver := to_be 2 KPASSWD_VERSION_CHANGE). assert (length hd = 2%nat /\ length ver = 2%nat) as [L1 L2] by (split; apply length_to_be).
  unfold KpasswdResponse_parse. rewrite !length_app, length_put, L1, L2, length_to_be. rewrite (proj2 (Nat.ltb_ge _ 4)) by lia.
  unfold hd at 1. rewrite be16_at_head by lia. fold hd. cbn [rbind]. rewrite (proj2 (Z.eqb_eq _ _)) by lia. cbn [negb].
  rewrite be16_at_Ok by (rewrite !length_app, length_put, L1, L2, length_to_be; lia). cbn [rbind]. rewrite (proj2 (Nat.ltb_ge _ 6)) by lia.
  assert (hd ++ ver ++ to_be 2 rc ++ put_field text = (hd ++ ver) ++ to_be 2 rc ++ put_field text) as -> by (by rewrite <-app_assoc).
  pose proof (be16_at_field (hd ++ ver) rc (put_field text) Hrc) as H4. rewrite length_app, L1, L2 in H4. change (2 + 2)%nat with 4%nat in H4. rewrite H4. cbn [rbind].
  pose proof (read_field_put ((hd ++ ver) ++ to_be 2 rc) text [] ResultStringField ltac:(lia)) as H6. rewrite app_nil_r, !length_app, L1, L2, length_to_be, <-app_assoc in H6.
  cbn [Nat.add] in H6. rewrite H6. cbn [rbind]. unfold utf8_text. by rewrite Hu.
Qed.
Lemma read_field_total b p f : read_field b p f <> Panic.
Proof.
  unfold read_field. destruct (Nat.ltb_spec (length b) (p + 2)); [done|]. rewrite be16_at_Ok by lia. cbn [rbind]. pose proof (of_be_take2 (drop p b)) as H2.
  destruct (Nat.ltb_spec (length b) (p + 2 + Z.to_nat (of_be (take 2 (drop p b))))); [done|]. by rewrite slice_Ok by lia.
Qed.
Lemma read_field_in b p f v p' : read_field b p f = Ok (v, p') -> (p' <= length b)%nat.
Proof.
  unfold read_field. destruct (Nat.ltb_spec (length b) (p + 2)); [done|]. rewrite be16_at_Ok by lia. cbn [rbind].
  destruct (Nat.ltb_spec (length b) (p + 2 + Z.to_nat (of_be (take 2 (drop p b))))); [done|]. rewrite slice_Ok by lia. cbn [rbind]. by intros [= _ <-].
Qed.
Lemma kp_request_parse_total b : KpasswdRequest_parse b <> Panic.
Proof.
  unfold KpasswdRequest_parse. destruct (Nat.ltb_spec (length b) 4); [done|]. rewrite !be16_at_Ok by lia. cbn [rbind]. destruct (negb _); [done|]. destruct (negb _); [done|].
  do 4 (match goal with |- rbind (read_field b ?p ?f) _ <> _ => pose proof (read_field_total b p f); destruct (read_field b p f) as [[? ?]|?|]; cbn [rbind]; [|done|done] end).
  unfold utf8_text. repeat (destruct (utf8_valid _); cbn [rbind]; try done).
Qed.
Lemma kp_response_parse_total b : KpasswdResponse_parse b <> Panic.
Proof.
  unfold KpasswdResponse_parse. destruct (Nat.ltb_spec (length b) 4); [done|]. rewrite !be16_at_Ok by lia. cbn [rbind]. destruct (negb _); [done|].
  destruct (Nat.ltb_spec (length b) 6); [done|]. rewrite be16_at_Ok by lia. cbn [rbind]. pose proof (read_field_total b 6 ResultStringField).
  destruct (read_field b 6 ResultStringField) as [[? ?]|?|]; cbn [rbind]; [|done|done]. unfold utf8_text. by destruct (utf8_valid _).
Qed.

(** Password change messages: a request of at most 65,535 bytes parses back
    from its encoding; a reply parses back with the codes above 65,535 turned into
    the soft error; and on arbitrary bytes neither parser panics. *)
Theorem kpasswd_messages :
  (forall r, kp_request_ok r -> KpasswdRequest_parse (KpasswdRequest_encode r) = Ok r)
  /\ (forall r, utf8_valid (result_string r) = true -> Z.of_nat (length (result_string r)) < 65530 -> is_u32 (result_code r) ->
       KpasswdResponse_parse (KpasswdResponse_encode r) = Ok (mkKpasswdResponse (if 65535 <? result_code r then KRB5_KPASSWD_SOFTERROR else result_code r) (result_string r)))
  /\ (forall b, KpasswdRequest_parse b <> Panic) /\ (forall b, KpasswdResponse_parse b <> Panic).
Proof. exact (conj kp_request_roundtrip (conj kp_response_roundtrip (conj kp_request_parse_total kp_response_parse_total))). Qed.

(** ** The service *)

(** The attributes of an entry but the password. *)
Definition other_attributes (o : Object) : list Attribute := filter (fun a => attr_name a <> UNICODE_PWD) (obj_attributes o).
Lemma set_password_others attrs hash :
  filter (fun a => attr_name a <> UNICODE_PWD) (set_password attrs hash) = filter (fun a => attr_name a <> UNICODE_PWD) attrs.
Proof.
  induction attrs as [|a attrs IH]; cbn [set_password]; [rewrite filter_cons_False; naive_solver|]. case_bool_decide as Ha.
  - rewrite !filter_cons_False by (cbn; naive_solver). done.
  - by rewrite !filter_cons_True, IH by done.
Qed.
(** The value of the first password attribute. *)
Definition password_of (o : Object) : option bytes := attr_value <$> head (filter (fun a => attr_name a = UNICODE_PWD) (obj_attributes o)).
Lemma password_of_with o hash : password_of (with_password o hash) = Some hash.
Proof.
  unfold password_of, with_password. cbn [obj_attributes]. induction (obj_attributes o) as [|a attrs IH]; cbn [set_password]; [by rewrite filter_cons_True|].
  case_bool_decide as Ha; [by rewrite filter_cons_True|by rewrite filter_cons_False].
Qed.
Lemma with_password_others o hash : other_attributes (with_password o hash) = other_attributes o.
Proof. apply set_password_others. Qed.

Section Authorised.
Context {S H : Type} {DS : DirectoryStore S} {HS : Hsm H} (pbkdf2 : bytes -> bytes -> Z -> nat -> bytes).

(** The guards of a request before the directory is read: its MAC verifies and is
    not in the cache. *)
Definition admitted (now : Z) (draw : nat -> Entropy) (sv : KpasswdService S H) (req : KpasswdRequest) : Prop :=
  authenticator_mac req <> [] /\ (exists kh hsm, mac_key draw (kp_hsm sv) = (Ok kh, hsm) /\ hsm_verify hsm kh (mac_input req) (authenticator_mac req) = Ok true)
  /\ evict now (kp_replay_cache sv) !! fnv1a_64 (authenticator_mac req) = None.
(** The write of an admitted request to [dir], with its outcome. *)
Definition writes (draw : nat -> Entropy) (sv : KpasswdService S H) (hsm : H) (req : KpasswdRequest) (dir : S) (res : Result StorageError unit) : Prop :=
  exists obj pwd hash,
    ds_get_by_dn (kp_directory sv) (mkDN (to_dn (target_principal req))) = Ok (Some obj)
    /\ cleartext_password (mkKpasswdService (kp_directory sv) (kp_krbtgt sv) hsm (kp_replay_cache sv)) req = Ok pwd
    /\ (MIN_PASSWORD_LEN <= length pwd <= MAX_PASSWORD_LEN)%nat /\ hash_password pbkdf2 (draw 3%nat) pwd = Ok hash
    /\ ds_put (kp_directory sv) (with_password obj hash) = (dir, res).

Lemma change_password_writes draw sv req :
  let out := change_password pbkdf2 draw sv req in
  (out.2 = kp_directory sv /\ out.1 <> reply KpasswdResponse_success)
  \/ exists res, writes draw sv (kp_hsm sv) req out.2 res /\ (out.1 = reply KpasswdResponse_success <-> exists u, res = Ok u).
Proof.
  cbn zeta. unfold change_password, writes.
  replace (mkKpasswdService (kp_directory sv) (kp_krbtgt sv) (kp_hsm sv) (kp_replay_cache sv)) with sv by (by destruct sv).
  destruct (ds_get_by_dn _ _) as [[obj|]|e|] eqn:Eg; cbn [fst snd]; try (left; split; [reflexivity|discriminate]).
  destruct (cleartext_password sv req) as [pwd|e|] eqn:Ec; cbn [fst snd]; try (left; split; [reflexivity|discriminate]).
  destruct (Nat.ltb_spec (length pwd) MIN_PASSWORD_LEN); [left; split; [reflexivity|discriminate]|].
  destruct (Nat.ltb_spec MAX_PASSWORD_LEN (length pwd)); [left; split; [reflexivity|discriminate]|].
  destruct (hash_password pbkdf2 (draw 3%nat) pwd) as [hash|e|] eqn:Eh; cbn [fst snd]; try (left; split; [reflexivity|discriminate]).
  destruct (ds_put _ _) as [dir [u|e|]] eqn:Ep; cbn [fst snd]; right; eexists; (split; [exists obj, pwd, hash; split_and!; (exact Ep || assumption || reflexivity)|]);
    (split; [try discriminate; eauto|intros [? ?]; try discriminate; reflexivity]).
Qed.

(** The two ways a call ends: refused before the directory is read, or admitted,
    remembered and handed to [change_password]. *)
Lemma handle_refused_or_admitted now draw sv b :
  let out := handle_kpasswd pbkdf2 now draw sv b in
  (kp_directory out.2 = kp_directory sv /\ out.1 <> reply KpasswdResponse_success
    /\ (forall req, KpasswdRequest_parse b = Ok req -> ~ admitted now draw sv req)
    /\ (kp_replay_cache out.2 = kp_replay_cache sv \/ kp_replay_cache out.2 = evict now (kp_replay_cache sv)))
  \/ exists req hsm cache, KpasswdRequest_parse b = Ok req /\ admitted now draw sv req /\ (mac_key draw (kp_hsm sv)).2 = hsm
    /\ cache = <[fnv1a_64 (authenticator_mac req) := (now, client_principal req)]> (evict now (kp_replay_cache sv)) /\ kp_replay_cache out.2 = cache
    /\ (out.1, kp_directory out.2) = change_password pbkdf2 draw (mkKpasswdService (kp_directory sv) (kp_krbtgt sv) hsm cache) req.
Proof.
  cbn zeta. unfold handle_kpasswd. destruct (KpasswdRequest_parse b) as [req|e|]; [|left; repeat split; auto; discriminate..].
  destruct (Nat.eqb_spec (length (authenticator_mac req)) 0) as [Hz|Hnz].
  { left. split; [reflexivity|]. split; [discriminate|]. split; [|left; reflexivity]. intros ? [= <-] [Hne _]. apply Hne. by apply nil_length_inv. }
  destruct (mac_key draw (kp_hsm sv)) as [[kh|e|] hsm] eqn:Ek; cbn [fst snd kp_directory kp_replay_cache kp_krbtgt].
  2,3: left; split; [reflexivity|]; split; [discriminate|]; split; [|left; reflexivity]; intros ? [= <-] (_ & (kh & h & Hm & _) & _); rewrite Ek in Hm; discriminate.
  destruct (hsm_verify hsm kh (mac_input req) (authenticator_mac req)) as [[|]|e|] eqn:Ev; cbn [fst snd kp_directory kp_replay_cache kp_krbtgt].
  2-4: left; split; [reflexivity|]; split; [discriminate|]; split; [|left; reflexivity]; intros ? [= <-] (_ & (kh' & h & Hm & Hv) & _);
    rewrite Ek in Hm; injection Hm as <- <-; rewrite Ev in Hv; discriminate.
  unfold check_and_add. destruct (evict now (kp_replay_cache sv) !! fnv1a_64 (authenticator_mac req)) as [en|] eqn:Ec; cbn [fst snd kp_directory kp_replay_cache kp_krbtgt].
  { left. split; [reflexivity|]. split; [discriminate|]. split; [|right; reflexivity]. intros ? [= <-] (_ & _ & Hn). rewrite Ec in Hn. discriminate. }
  right. exists req, hsm, (<[fnv1a_64 (authenticator_mac req) := (now, client_principal req)]> (evict now (kp_replay_cache sv))).
  split; [reflexivity|]. split. { split; [by intros Hn; rewrite Hn in Hnz|]. split; [exists kh, hsm; split; [exact Ek|exact Ev]|exact Ec]. }
  split; [reflexivity|]. split; [reflexivity|]. destruct (change_password _ _ _ _) as [r dir]. split; reflexivity.
Qed.
Lemma handle_authorised now draw sv b r sv' :
  handle_kpasswd pbkdf2 now draw sv b = (r, sv') ->
  (kp_directory sv' = kp_directory sv /\ r <> reply KpasswdResponse_success)
  \/ exists req res, KpasswdRequest_parse b = Ok req /\ admitted now draw sv req
       /\ writes draw sv (mac_key draw (kp_hsm sv)).2 req (kp_directory sv') res /\ (r = reply KpasswdResponse_success <-> exists u, res = Ok u)
       /\ kp_replay_cache sv' !! fnv1a_64 (authenticator_mac req) = Some (now, client_principal req).
Proof.
  intros E. pose proof (handle_refused_or_admitted now draw sv b) as Hh. rewrite E in Hh. cbn [fst snd] in Hh.
  destruct Hh as [(Hd & Hr & _)|(req & hsm & cache & Hp & Ha & Hk & Hc & Hc' & Heq)]; [left; split; assumption|].
  destruct (change_password_writes draw (mkKpasswdService (kp_directory sv) (kp_krbtgt sv) hsm cache) req) as [[Hd Hr]|(res & Hw & Hs)];
    rewrite <-Heq in *; cbn [fst snd kp_directory kp_hsm] in *; [left; split; assumption|].
  right. exists req, res. split; [exact Hp|]. split; [exact Ha|]. split; [rewrite Hk; exact Hw|]. split; [exact Hs|]. rewrite Hc', Hc. apply lookup_insert_eq.
Qed.

(** ** Replays *)

(** The checksum was seen at [t] or later. *)
Definition remembered (c t : Z) (cache : ReplayCache) : Prop := exists ts who, cache !! c = Some (ts, who) /\ t <= ts.
Lemma remembered_evict c t now cache : now <= t + REPLAY_CACHE_TTL -> remembered c t cache -> remembered c t (evict now cache).
Proof.
  intros Hn (ts & who & Hc & Ht). exists ts, who. split; [|done]. apply map_lookup_filter_Some. split; [done|]. cbn. unfold expired. apply Z.ltb_ge.
  unfold REPLAY_CACHE_TTL in *. lia.
Qed.
Lemma remembered_insert c t c' e cache : t <= e.1 -> remembered c t cache -> remembered c t (<[c' := e]> cache).
Proof.
  intros He (ts & who & Hc & Ht). destruct (decide (c' = c)) as [->|Hne].
  - exists e.1, e.2. split; [destruct e; apply lookup_insert_eq|done].
  - exists ts, who. split; [|done]. rewrite <-Hc. by apply lookup_insert_ne.
Qed.
Lemma remembered_kept c t now draw sv b : t <= now <= t + REPLAY_CACHE_TTL -> remembered c t (kp_replay_cache sv) ->
  remembered c t (kp_replay_cache (handle_kpasswd pbkdf2 now draw sv b).2).
Proof.
  intros Hn Hr. pose proof (remembered_evict c t now _ (proj2 Hn) Hr) as He.
  destruct (handle_refused_or_admitted now draw sv b) as [(_ & _ & _ & [->| ->])|(req & hsm & cache & _ & _ & _ & Hc & -> & _)]; [assumption..|].
  subst cache. apply remembered_insert; [cbn; lia|assumption].
Qed.

(** Calls one after the other, each with its time and its random draws. *)
Definition serve_all (sv : KpasswdService S H) (calls : list (Z * (nat -> Entropy) * bytes)) : KpasswdService S H :=
  fold_left (fun sv c => (handle_kpasswd pbkdf2 c.1.1 c.1.2 sv c.2).2) calls sv.
Lemma remembered_serve_all c t calls : forall sv, Forall (fun c => t <= c.1.1 <= t + REPLAY_CACHE_TTL) calls ->
  remembered c t (kp_replay_cache sv) -> remembered c t (kp_replay_cache (serve_all sv calls)).
Proof.
  unfold serve_all. induction calls as [|[[n d] b] calls IH]; intros sv Hf Hr; [exact Hr|]. apply Forall_cons in Hf as [Hn Hf]. cbn [fold_left fst snd].
  apply IH; [exact Hf|]. apply remembered_kept; [exact Hn|exact Hr].
Qed.
Lemma remembered_not_admitted t now draw sv req : now <= t + REPLAY_CACHE_TTL ->
  remembered (fnv1a_64 (authenticator_mac req)) t (kp_replay_cache sv) -> ~ admitted now draw sv req.
Proof. intros Hn Hr (_ & _ & Hnone). destruct (remembered_evict _ t now _ Hn Hr) as (ts & who & Hs & _). rewrite Hs in Hnone. discriminate. Qed.
End Authorised.

Lemma generate_key_id rnd keys id t h keys' : generate_key rnd keys id t = (Ok h, keys') -> kh_id h = id.
Proof.
  unfold generate_key. case_bool_decide; [discriminate|]. destruct (keys !! id); [by intros [= <- _]|].
  destruct (hsm_random_bytes rnd (key_len t)); [by intros [= <- _]|discriminate..].
Qed.
(** With the software key store an admitted request carries the HMAC-SHA1-96 of
    its client, target and password under the key named ["krbtgt-mac"]. *)
Lemma software_mac {S} hmac_sha1 gcm_seal gcm_open now draw (sv : KpasswdService S SoftwareHsm) req :
  @admitted S SoftwareHsm (SoftwareHsm_hsm hmac_sha1 gcm_seal gcm_open) now draw sv req ->
  exists keys e, (@mac_key SoftwareHsm (SoftwareHsm_hsm hmac_sha1 gcm_seal gcm_open) draw (kp_hsm sv)).2 = keys
    /\ keys !! KRBTGT_MAC_KEY_ID = Some e /\ ke_type e = HmacSha1 /\ authenticator_mac req = take 12 (hmac_sha1 (ke_material e) (mac_input req)).
Proof.
  intros (_ & (kh & keys & Hk & Hv) & _). exists keys. cbn [hsm_verify SoftwareHsm_hsm] in Hv. rewrite Hk.
  assert (kh_id kh = KRBTGT_MAC_KEY_ID) as Hid.
  { unfold mac_key in Hk. cbn [hsm_generate_key hsm_rotate_key SoftwareHsm_hsm] in Hk. destruct (generate_key (draw 0%nat) _ _ _) as [[h|e|] k0] eqn:E0; [|..|discriminate].
    - injection Hk as <- <-. by apply generate_key_id in E0.
    - destruct (rotate_key _ _ _) as [[h1|e1|] k1]; [by apply generate_key_id in Hk..|discriminate]. }
  rewrite verify_iff in Hv. destruct (sign hmac_sha1 keys kh (mac_input req)) as [m|e|] eqn:Es; cbn [rbind] in Hv; [|discriminate..].
  apply Ok_inj, bool_decide_eq_true in Hv as <-. unfold sign, key_entry in Es. rewrite Hid in Es. destruct (keys !! KRBTGT_MAC_KEY_ID) as [e|]; cbn [ok_or rbind] in Es; [|discriminate].
  destruct (negb _); cbn [rbind] in Es; [discriminate|]. exists e. destruct (ke_type e) eqn:Et; try discriminate. apply Ok_inj in Es as <-. auto.
Qed.

(** ** A concrete service *)

Definition sample_entry (u : Z) (name : string) : Object := mkObject u (mkDN (to_dn (lit name))) [] 0.
Definition sample_directory : InMemoryDirectoryStore :=
  (mem_put (mem_put InMemoryDirectoryStore_new (sample_entry 1 "bob")).1 (sample_entry 2 "bobs")).1.
Definition sample_keys : SoftwareHsm := <[KRBTGT_MAC_KEY_ID := mkKeyEntry HmacSha1 [x01] 1]> SoftwareHsm_new.
Definition sample_service : KpasswdService InMemoryDirectoryStore SoftwareHsm :=
  mkKpasswdService sample_directory (mkKrbtgtState (mkKeyHandle KRBGTGT_KEY_ID 1 Aes256) None) sample_keys ReplayCache_new.
#[local] Instance sample_hsm : Hsm SoftwareHsm := SoftwareHsm_hsm fold_mac (fun _ _ p => Some p) (fun _ _ p => Some p).
Definition sample_pbkdf2 (p s : bytes) (i : Z) (n : nat) : bytes := take n p.
Definition sample_draw (n : nat) : Entropy := fun len => Some (replicate len x07).
Definition sample_request (target pwd : string) : KpasswdRequest :=
  let input := lit "alice" ++ lit target ++ lit pwd in
  mkKpasswdRequest (lit "alice") (lit target) (take 12 (fold_mac [x01] input)) (lit pwd) false.
Definition sample_bytes (target pwd : string) : bytes := KpasswdRequest_encode (sample_request target pwd).

(** C8: What a password change requires.  Whatever the bytes, the time and the
    state, either the call leaves the directory alone and does not answer success,
    or the request parsed, its MAC is the HMAC-SHA1-96 of client, target and
    password under the service's MAC key, the MAC was not seen in the last five
    minutes and is remembered now, the target's entry was found, the decrypted
    password has 12 to 256 bytes, and the one write replaces the entry's password
    by the salted hash and nothing else; the answer is success exactly when the
    directory accepted that write. *)
Theorem kpasswd_authorised {S} {DS : DirectoryStore S} (hmac_sha1 : bytes -> bytes -> bytes) (gcm_seal gcm_open : bytes -> bytes -> bytes -> option bytes)
    (pbkdf2 : bytes -> bytes -> Z -> nat -> bytes) (now : Z) (draw : nat -> Entropy) (sv sv' : KpasswdService S SoftwareHsm) (b : bytes) (r : Result KdcError bytes) :
  let hsm := SoftwareHsm_hsm hmac_sha1 gcm_seal gcm_open in
  handle_kpasswd pbkdf2 now draw sv b = (r, sv') ->
  (kp_directory sv' = kp_directory sv /\ r <> reply KpasswdResponse_success)
  \/ exists req keys e obj pwd hash res,
       KpasswdRequest_parse b = Ok req
       /\ (mac_key draw (kp_hsm sv)).2 = keys /\ keys !! KRBTGT_MAC_KEY_ID = Some e /\ ke_type e = HmacSha1
       /\ authenticator_mac req = take 12 (hmac_sha1 (ke_material e) (mac_input req))
       /\ evict now (kp_replay_cache sv) !! fnv1a_64 (authenticator_mac req) = None
       /\ kp_replay_cache sv' !! fnv1a_64 (authenticator_mac req) = Some (now, client_principal req)
       /\ ds_get_by_dn (kp_directory sv) (mkDN (to_dn (target_principal req))) = Ok (Some obj)
       /\ cleartext_password (mkKpasswdService (kp_directory sv) (kp_krbtgt sv) keys (kp_replay_cache sv)) req = Ok pwd
       /\ (12 <= length pwd <= 256)%nat /\ hash_password pbkdf2 (draw 3%nat) pwd = Ok hash
       /\ password_of (with_password obj hash) = Some hash /\ other_attributes (with_password obj hash) = other_attributes obj
       /\ ds_put (kp_directory sv) (with_password obj hash) = (kp_directory sv', res) /\ (r = reply KpasswdResponse_success <-> exists u, res = Ok u).
Proof.
  intros hsm E. subst hsm. destruct (handle_authorised pbkdf2 now draw sv b r sv' E) as [Hno|(req & res & Hp & Ha & (obj & pwd & hash & Hg & Hc & Hl & Hh & Hput) & Hs & Hm)]; [left; exact Hno|].
  right. destruct (software_mac hmac_sha1 gcm_seal gcm_open now draw sv req Ha) as (keys & e & Hk & He & Ht & Hmac). rewrite Hk in *.
  exists req, keys, e, obj, pwd, hash, res. pose proof (password_of_with obj hash) as Hp1. pose proof (with_password_others obj hash) as Hp2.
  destruct Ha as (_ & _ & Hev). split_and!; first [assumption | reflexivity | exact (proj1 Hl) | exact (proj2 Hl)].
Qed.
Lemma kpasswd_authorised_witness :
  exists req e, KpasswdRequest_parse (sample_bytes "bob" "a new password") = Ok req
    /\ authenticator_mac req = take 12 (fold_mac (ke_material e) (mac_input req)).
Proof.
  destruct (handle_kpasswd sample_pbkdf2 5 sample_draw sample_service (sample_bytes "bob" "a new password")) as [r sv'] eqn:E.
  destruct (kpasswd_authorised fold_mac (fun _ _ p => Some p) (fun _ _ p => Some p) sample_pbkdf2 5 sample_draw sample_service sv' (sample_bytes "bob" "a new password") r E)
    as [[_ Hr]|(req & keys & e & obj & pwd & hash & res & Hp & _ & _ & _ & Hm & _)].
  - exfalso. apply Hr. apply (f_equal fst) in E. cbn [fst] in E. rewrite <-E. vm_compute. reflexivity.
  - exists req, e. split; [exact Hp|exact Hm].
Defined.

(** C9: No replay: after a call at time [t] that changed the directory or answered
    success, and any further calls within five minutes of [t] in any number and
    with any content, a request with the same MAC leaves the directory alone and
    does not answer success. *)
Theorem kpasswd_no_replay {S H} {DS : DirectoryStore S} {HS : Hsm H} (pbkdf2 : bytes -> bytes -> Z -> nat -> bytes) (t t' : Z) (draw draw' : nat -> Entropy)
    (sv sv1 sv3 : KpasswdService S H) (b b' : bytes) (req req' : KpasswdRequest) (r r' : Result KdcError bytes) (calls : list (Z * (nat -> Entropy) * bytes)) :
  handle_kpasswd pbkdf2 t draw sv b = (r, sv1) -> KpasswdRequest_parse b = Ok req ->
  kp_directory sv1 <> kp_directory sv \/ r = reply KpasswdResponse_success ->
  Forall (fun c => t <= c.1.1 <= t + REPLAY_CACHE_TTL) calls -> t <= t' <= t + REPLAY_CACHE_TTL ->
  KpasswdRequest_parse b' = Ok req' -> authenticator_mac req' = authenticator_mac req ->
  let sv2 := serve_all pbkdf2 sv1 calls in
  handle_kpasswd pbkdf2 t' draw' sv2 b' = (r', sv3) -> kp_directory sv3 = kp_directory sv2 /\ r' <> reply KpasswdResponse_success.
Proof.
  intros E Hp Hch Hcalls Ht Hp' Hmac sv2 E'. destruct (handle_authorised pbkdf2 t draw sv b r sv1 E) as [[Hd Hr]|(q & res & Hq & _ & _ & _ & Hrem)]; [tauto|].
  rewrite Hp in Hq. injection Hq as <-. destruct (handle_authorised pbkdf2 t' draw' sv2 b' r' sv3 E') as [Hno|(q & res' & Hq & Ha & _)]; [exact Hno|].
  rewrite Hp' in Hq. injection Hq as <-. exfalso. revert Ha. apply (remembered_not_admitted t); [lia|]. rewrite Hmac. apply remembered_serve_all; [exact Hcalls|].
  exists t, (client_principal req). split; [exact Hrem|lia].
Qed.
Lemma kpasswd_no_replay_witness :
  let first := handle_kpasswd sample_pbkdf2 5 sample_draw sample_service (sample_bytes "bob" "a new password") in
  let sv2 := serve_all sample_pbkdf2 first.2 [(7, sample_draw, sample_bytes "bobs" "another password")] in
  first.1 = reply KpasswdResponse_success
  /\ (handle_kpasswd sample_pbkdf2 9 sample_draw sv2 (sample_bytes "bob" "a new password")).1 <> reply KpasswdResponse_success.
Proof.
  intros first sv2. assert (first.1 = reply KpasswdResponse_success) as H1 by (vm_compute; reflexivity). split; [exact H1|].
  destruct (handle_kpasswd sample_pbkdf2 9 sample_draw sv2 (sample_bytes "bob" "a new password")) as [r' sv3] eqn:E'.
  apply (kpasswd_no_replay sample_pbkdf2 5 9 sample_draw sample_draw sample_service first.2 sv3 (sample_bytes "bob" "a new password") (sample_bytes "bob" "a new password")
    (sample_request "bob" "a new password") (sample_request "bob" "a new password") first.1 r' [(7, sample_draw, sample_bytes "bobs" "another password")]).
  - apply surjective_pairing.
  - vm_compute. reflexivity.
  - right. exact H1.
  - repeat constructor; vm_compute; congruence.
  - unfold REPLAY_CACHE_TTL. lia.
  - vm_compute. reflexivity.
  - reflexivity.
  - exact E'.
Defined.

(** What the MAC does not bind: the check sees the concatenation of client,
    target and password only, so when one request is admitted every other request
    with the same MAC and the same concatenation, whatever its target, its password
    and its encryption flag, is carried out on its own target in its place. *)
Theorem kpasswd_mac_unbound {S H} {DS : DirectoryStore S} {HS : Hsm H} (pbkdf2 : bytes -> bytes -> Z -> nat -> bytes) (now : Z) (draw : nat -> Entropy)
    (sv : KpasswdService S H) (b : bytes) (req1 req2 : KpasswdRequest) :
  admitted now draw sv req1 -> KpasswdRequest_parse b = Ok req2 ->
  authenticator_mac req2 = authenticator_mac req1 -> mac_input req2 = mac_input req1 ->
  let out := handle_kpasswd pbkdf2 now draw sv b in
  exists cache, (out.1, kp_directory out.2) = change_password pbkdf2 draw (mkKpasswdService (kp_directory sv) (kp_krbtgt sv) (mac_key draw (kp_hsm sv)).2 cache) req2.
Proof.
  intros Ha Hp Hm Hi out. assert (admitted now draw sv req2) as Ha2 by (unfold admitted in *; rewrite Hm, Hi; exact Ha).
  destruct (handle_refused_or_admitted pbkdf2 now draw sv b) as [(_ & _ & Hno & _)|(req & hsm & cache & Hq & _ & Hk & _ & _ & Heq)]; [destruct (Hno _ Hp Ha2)|].
  rewrite Hp in Hq. injection Hq as <-. exists cache. rewrite Hk. exact Heq.
Qed.
Lemma kpasswd_mac_unbound_witness :
  let out := handle_kpasswd sample_pbkdf2 5 sample_draw sample_service (sample_bytes "bobs" "ecret password") in
  exists cache, (out.1, kp_directory out.2)
    = change_password sample_pbkdf2 sample_draw (mkKpasswdService sample_directory (kp_krbtgt sample_service) sample_keys cache) (sample_request "bobs" "ecret password")
  /\ out.1 = reply KpasswdResponse_success.
Proof.
  intros out. destruct (kpasswd_mac_unbound sample_pbkdf2 5 sample_draw sample_service (sample_bytes "bobs" "ecret password")
    (sample_request "bob" "secret password") (sample_request "bobs" "ecret password")) as [cache Hc].
  - split; [discriminate|]. split; [eexists _, _; split; reflexivity|reflexivity].
  - vm_compute. reflexivity.
  - reflexivity.
  - reflexivity.
  - exists cache. split; [exact Hc|]. vm_compute. reflexivity.
Defined.
