(* ===== verification/Pac.v ===== *)
(** * Pac: privilege attribute certificates ([adrian-kdc], [pac.rs])

    The structured buffers, the container with its header and buffer table, the
    builder that signs it and the verification of its four checksums.  HMAC-SHA1
    is a parameter.  Sizes and offsets read from the wire are [Z]; an addition of
    them that overflows 64 bits panics. *)
From S2P Require Import Prelude Bytes Text StorageKeys Utf16 SidModel KdcCrypto Kdc.

(** ** Constants *)

Definition LOGON_INFO : Z := 0x01.
Definition CREDENTIAL_TYPE : Z := 0x02.
Definition SERVER_CHECKSUM : Z := 0x04.
Definition PRIVSVR_CHECKSUM : Z := 0x06.
Definition CLIENT_INFO : Z := 0x0A.
Definition UPN_DNS_INFO : Z := 0x0C.
Definition TICKET_CHECKSUM : Z := 0x10.
Definition REQUESTOR : Z := 0x12.
Definition FULL_CHECKSUM : Z := 0x13.
Definition PAC_HEADER_TYPE : Z := 0.
Definition PAC_HEADER_VERSION : Z := 0.
Definition PAC_HEADER_LEN : nat := 16.
Definition PAC_BUFFER_HEADER_LEN : nat := 16.
Definition PAC_ALIGNMENT : nat := 8.
Definition SIG_TYPE_HMAC_SHA1_96_AES256 : Z := 0x12.

(** ** Little-endian integers, text, alignment *)

Definition pac_read_le (width : nat) (buf : bytes) (offset : nat) : Result KdcError Z :=
  if (length buf <? offset + width)%nat then Err (PacError (ReadPastEnd width offset (length buf)))
  else Ok (of_le (take width (drop offset buf))).
Definition pac_read_u16 : bytes -> nat -> Result KdcError Z := pac_read_le 2.
Definition pac_read_u32 : bytes -> nat -> Result KdcError Z := pac_read_le 4.
Definition pac_read_u64 : bytes -> nat -> Result KdcError Z := pac_read_le 8.

Definition string_to_utf16le (s : bytes) : bytes := units_le (encode_utf16 s).
Definition utf16le_to_string (b : bytes) : bytes := from_utf16_lossy (le_units b).

Definition align_up (len : nat) : nat :=
  let rem := (len mod PAC_ALIGNMENT)%nat in
  if (rem =? 0)%nat then len else (len + PAC_ALIGNMENT - rem)%nat.
Definition pad_to_alignment (buf : bytes) : bytes :=
  let rem := (length buf mod PAC_ALIGNMENT)%nat in
  if negb (rem =? 0)%nat then buf ++ replicate (PAC_ALIGNMENT - rem) x00 else buf.

(** Reading fields one after the other: the buffer is fixed, [pos] advances. *)
Definition FieldReader (A : Type) : Type := bytes -> nat -> Result KdcError (A * nat).
Definition fr_ret {A} (a : A) : FieldReader A := fun _ pos => Ok (a, pos).
Definition fr_bind {A B} (d : FieldReader A) (k : A -> FieldReader B) : FieldReader B := fun buf pos =>
  let? r := d buf pos in k r.1 buf r.2.
Notation "'let%' x := d 'in' k" := (fr_bind d (fun x => k))
  (at level 10, x pattern, d at level 200, k at level 200, format "'[v' 'let%'  x  :=  d  'in' '/' k ']'").
Definition field_le (width : nat) : FieldReader Z := fun buf pos =>
  let? v := pac_read_le width buf pos in Ok (v, (pos + width)%nat).
(** [if pos + n > buf.len() { return Err(..) }]. *)
Definition field_guard (n : Z) (f : LogonField) : FieldReader unit := fun buf pos =>
  if Z.of_nat (length buf) <? Z.of_nat pos + n then Err (PacError (LogonTruncated f)) else Ok (tt, pos).
Definition field_text (f : LogonField) : FieldReader bytes :=
  let% len := field_le 2 in
  let% _ := field_guard len f in
  fun buf pos =>
    let? v := slice buf pos (pos + Z.to_nat len) in
    Ok (utf16le_to_string v, (pos + Z.to_nat len)%nat).
Fixpoint field_u32s (count : nat) : FieldReader (list Z) :=
  match count with
  | O => fr_ret []
  | S count => let% v := field_le 4 in let% vs := field_u32s count in fr_ret (v :: vs)
  end.

(** ** Buffers *)

Record LogonInfo := mkLogonInfo {
  logon_time : Z;
  logoff_time : Z;
  kick_off_time : Z;
  password_last_set : Z;
  password_can_change : Z;
  password_must_change : Z;
  effective_name : bytes;
  user_name : bytes;
  logon_domain_name : bytes;
  user_id : Z;
  primary_group_id : Z;
  groups : list Z;
  user_flags : Z;
  logon_server : bytes;
  logon_domain_id : Sid;
}.

Definition put_text (s : bytes) : bytes :=
  let u := string_to_utf16le s in
  to_le 2 (as_u16 (Z.of_nat (length u))) ++ u.
(** The SID is [expect]ed to serialise. *)
Definition LogonInfo_encode (l : LogonInfo) : Result KdcError bytes :=
  match Sid_to_bytes (logon_domain_id l) with
  | Ok sid_bytes =>
      Ok (to_le 8 (logon_time l) ++ to_le 8 (logoff_time l) ++ to_le 8 (kick_off_time l)
          ++ to_le 8 (password_last_set l) ++ to_le 8 (password_can_change l) ++ to_le 8 (password_must_change l)
          ++ put_text (effective_name l) ++ put_text (user_name l) ++ put_text (logon_domain_name l)
          ++ to_le 4 (user_id l) ++ to_le 4 (primary_group_id l)
          ++ to_le 4 (as_u32 (Z.of_nat (length (groups l)))) ++ concat (map (to_le 4) (groups l))
          ++ to_le 4 (user_flags l) ++ put_text (logon_server l) ++ sid_bytes)
  | _ => Panic
  end.

Definition read_logon_info : FieldReader LogonInfo :=
  let% logon_time := field_le 8 in
  let% logoff_time := field_le 8 in
  let% kick_off_time := field_le 8 in
  let% password_last_set := field_le 8 in
  let% password_can_change := field_le 8 in
  let% password_must_change := field_le 8 in
  let% effective_name := field_text LFEffectiveName in
  let% user_name := field_text LFUserName in
  let% logon_domain_name := field_text LFDomainName in
  let% _ := field_guard 4 LFUserId in
  let% user_id := field_le 4 in
  let% primary_group_id := field_le 4 in
  let% _ := field_guard 4 LFGroupsCount in
  let% groups_count := field_le 4 in
  let% needed := (fun _ pos =>
    match uint_checked_mul 64 groups_count 4 with
    | Some n => Ok (n, pos)
    | None => Err (PacError LogonGroupsOverflow)
    end) in
  let% _ := field_guard needed LFGroups in
  let% groups := field_u32s (Z.to_nat groups_count) in
  let% user_flags := field_le 4 in
  let% logon_server := field_text LFServer in
  fun buf pos =>
    if (length buf <=? pos)%nat then Err (PacError (LogonTruncated LFSid))
    else
      let? logon_domain_id := map_err (fun e => PacError (LogonBadSid e)) (Sid_from_bytes (drop pos buf)) in
      Ok (mkLogonInfo logon_time logoff_time kick_off_time password_last_set password_can_change password_must_change
            effective_name user_name logon_domain_name user_id primary_group_id groups user_flags logon_server
            logon_domain_id, length buf).
Definition LogonInfo_decode (buf : bytes) : Result KdcError LogonInfo :=
  if (length buf <? 48)%nat then Err (PacError (LogonTruncated LFHeader))
  else let? r := read_logon_info buf 0%nat in Ok r.1.

Record ClientInfo := mkClientInfo { client_id : Z; client_name : bytes }.
Definition ClientInfo_encode (c : ClientInfo) : bytes := to_le 8 (client_id c) ++ put_text (client_name c).
Definition ClientInfo_decode (buf : bytes) : Result KdcError ClientInfo :=
  if (length buf <? 10)%nat then Err (PacError ClientTruncatedHeader)
  else
    let? client_id := pac_read_u64 buf 0 in
    let? name_len := pac_read_u16 buf 8 in
    if Z.of_nat (length buf) <? 10 + name_len then Err (PacError ClientTruncatedName)
    else
      let? name := slice buf 10 (10 + Z.to_nat name_len) in
      Ok (mkClientInfo client_id (utf16le_to_string name)).

Record UpnDnsInfo := mkUpnDnsInfo { upn : bytes; dns_domain_name : bytes; upn_dns_flags : Z }.
Definition UpnDnsInfo_encode (i : UpnDnsInfo) : Result KdcError bytes :=
  let upn := string_to_utf16le (upn i) in
  let dns := string_to_utf16le (dns_domain_name i) in
  let upn_offset := 12 in
  let? dns_offset := uint_add 16 upn_offset (as_u16 (Z.of_nat (length upn))) in
  Ok (to_le 2 (as_u16 (Z.of_nat (length upn))) ++ to_le 2 upn_offset
      ++ to_le 2 (as_u16 (Z.of_nat (length dns))) ++ to_le 2 dns_offset ++ to_le 4 (upn_dns_flags i) ++ upn ++ dns).
Definition UpnDnsInfo_decode (buf : bytes) : Result KdcError UpnDnsInfo :=
  if (length buf <? 12)%nat then Err (PacError UpnDnsTruncatedHeader)
  else
    let? upn_length := pac_read_u16 buf 0 in
    let? upn_offset := pac_read_u16 buf 2 in
    let? dns_length := pac_read_u16 buf 4 in
    let? dns_offset := pac_read_u16 buf 6 in
    let? flags := pac_read_u32 buf 8 in
    if Z.of_nat (length buf) <? upn_offset + upn_length then Err (PacError UpnOutOfBounds)
    else if Z.of_nat (length buf) <? dns_offset + dns_length then Err (PacError DnsOutOfBounds)
    else
      let? upn := slice buf (Z.to_nat upn_offset) (Z.to_nat (upn_offset + upn_length)) in
      let? dns := slice buf (Z.to_nat dns_offset) (Z.to_nat (dns_offset + dns_length)) in
      Ok (mkUpnDnsInfo (utf16le_to_string upn) (utf16le_to_string dns) flags).

Record RequestorInfo := mkRequestorInfo { requestor_sid : option Sid }.
(** [unwrap_or_default]: a SID that does not serialise encodes as nothing. *)
Definition RequestorInfo_encode (r : RequestorInfo) : bytes :=
  match requestor_sid r with
  | Some sid => match Sid_to_bytes sid with Ok b => b | _ => [] end
  | None => []
  end.
Definition RequestorInfo_decode (buf : bytes) : Result KdcError RequestorInfo :=
  if (length buf =? 0)%nat then Ok (mkRequestorInfo None)
  else let? sid := map_err (fun e => PacError (RequestorBadSid e)) (Sid_from_bytes buf) in Ok (mkRequestorInfo (Some sid)).

Record SignatureData := mkSignatureData { sd_signature_type : Z; sd_signature : bytes }.
Definition SignatureData_encode (s : SignatureData) : bytes := to_le 4 (sd_signature_type s) ++ sd_signature s.
Definition SignatureData_decode (buf : bytes) : Result KdcError SignatureData :=
  if (length buf <? 4)%nat then Err (PacError SignatureTruncatedHeader)
  else let? t := pac_read_u32 buf 0 in Ok (mkSignatureData t (drop 4 buf)).
Definition SignatureData_zeroed : SignatureData :=
  mkSignatureData SIG_TYPE_HMAC_SHA1_96_AES256 (replicate HMAC_SHA1_96_LEN x00).

Record TicketChecksum := mkTicketChecksum { tc_signature_type : Z; tc_signature : bytes }.
Definition TicketChecksum_encode (t : TicketChecksum) : bytes :=
  to_le 4 (tc_signature_type t) ++ to_le 4 (as_u32 (Z.of_nat (length (tc_signature t)))) ++ tc_signature t.
Definition TicketChecksum_decode (buf : bytes) : Result KdcError TicketChecksum :=
  if (length buf <? 8)%nat then Err (PacError TicketTruncatedHeader)
  else
    let? t := pac_read_u32 buf 0 in
    let? signature_length := pac_read_u32 buf 4 in
    if Z.of_nat (length buf) <? 8 + signature_length then Err (PacError TicketTruncatedSignature)
    else
      let? signature := slice buf 8 (8 + Z.to_nat signature_length) in
      Ok (mkTicketChecksum t signature).
Definition TicketChecksum_zeroed : TicketChecksum :=
  mkTicketChecksum SIG_TYPE_HMAC_SHA1_96_AES256 (replicate HMAC_SHA1_96_LEN x00).

(** ** The container *)

Record PacBuffer := mkPacBuffer { ul_type : Z; pac_data : bytes }.
#[global] Instance PacBuffer_eq_dec : EqDecision PacBuffer.
Proof. solve_decision. Defined.
Record Pac := mkPac { total_size : Z; num_buffers : Z; pac_buffers : list PacBuffer }.

(** [for i in 0..num_buffers]; every round reads a 16-byte header within the
    bytes, so their length bounds the number of rounds. *)
Fixpoint parse_buffers (rounds : nat) (bytes : bytes) (i num_buffers : Z) (off : nat) : Result KdcError (list PacBuffer) :=
  if num_buffers <=? i then Ok []
  else if (length bytes <? off + PAC_BUFFER_HEADER_LEN)%nat then Err (PacError (BufferHeaderOutOfBounds i off))
  else
    match rounds with
    | O => Panic
    | S rounds =>
        let? b_type := pac_read_u32 bytes off in
        let? b_size := pac_read_u32 bytes (off + 4) in
        let? b_offset := pac_read_u64 bytes (off + 8) in
        let? b_end := uint_add 64 b_offset b_size in
        if Z.of_nat (length bytes) <? b_end
        then Err (PacError (BufferDataOutOfBounds i b_offset b_size (length bytes)))
        else
          let? data := slice bytes (Z.to_nat b_offset) (Z.to_nat b_end) in
          let? rest := parse_buffers rounds bytes (i + 1) num_buffers (off + PAC_BUFFER_HEADER_LEN) in
          Ok (mkPacBuffer b_type data :: rest)
    end.
Definition Pac_parse (bytes : bytes) : Result KdcError Pac :=
  if (length bytes <? PAC_HEADER_LEN)%nat then Err (PacError (PacHeaderTruncated (length bytes)))
  else
    let? ul_type := pac_read_u32 bytes 0 in
    if negb (ul_type =? PAC_HEADER_TYPE) then Err (PacError (PacHeaderType ul_type))
    else
      let? total_size := pac_read_u32 bytes 4 in
      if negb (total_size =? Z.of_nat (length bytes)) then Err (PacError (PacSizeMismatch total_size (Z.of_nat (length bytes))))
      else
        let? num_buffers := pac_read_u32 bytes 8 in
        let? version := pac_read_u32 bytes 12 in
        if negb (version =? PAC_HEADER_VERSION) then Err (PacError (PacHeaderVersion version))
        else
          let? buffers := parse_buffers (length bytes) bytes 0 num_buffers PAC_HEADER_LEN in
          Ok (mkPac (as_u32 total_size) num_buffers buffers).

Definition find_buffer (pac : Pac) (ty : Z) : option PacBuffer := list_find (fun b => ul_type b = ty) (pac_buffers pac) ≫= fun p => Some p.2.
Definition find_buffer_index (pac : Pac) (ty : Z) : option nat := list_find (fun b => ul_type b = ty) (pac_buffers pac) ≫= fun p => Some p.1.

Definition buffer_data_range (pac : Pac) (raw : bytes) (ty : Z) : Result KdcError (nat * nat) :=
  match find_buffer_index pac ty with
  | None => Err (PacError (BufferNotFound ty))
  | Some idx =>
      if (length (pac_buffers pac) <=? idx)%nat then Err (PacError BufferIndexOutOfRange)
      else
        let buf_header_off := (PAC_HEADER_LEN + idx * PAC_BUFFER_HEADER_LEN)%nat in
        if (length raw <? buf_header_off + PAC_BUFFER_HEADER_LEN)%nat then Err (PacError RangeHeaderOutOfBounds)
        else
          let? data_len := pac_read_u32 raw (buf_header_off + 4) in
          let? data_off := pac_read_u64 raw (buf_header_off + 8) in
          let? data_end := uint_add 64 data_off data_len in
          if Z.of_nat (length raw) <? data_end then Err (PacError RangeDataOutOfBounds)
          else Ok (Z.to_nat data_off, Z.to_nat data_len)
  end.

(** [raw[off..off + v.len()].copy_from_slice(v)]. *)
Definition copy_into {E} (raw : bytes) (off : nat) (v : bytes) : Result E bytes :=
  if (off + length v <=? length raw)%nat then Ok (take off raw ++ v ++ drop (off + length v) raw) else Panic.

(** One signature field set to zero if the buffer is found and long enough;
    [skip] is the length of what precedes the signature in it. *)
Definition zero_signature (pac : Pac) (skip : nat) (ty : Z) (tmp : bytes) : Result KdcError bytes :=
  match buffer_data_range pac tmp ty with
  | Panic => Panic
  | Err _ => Ok tmp
  | Ok (data_off, data_len) =>
      if (skip + HMAC_SHA1_96_LEN <=? data_len)%nat then copy_into tmp (data_off + skip) (replicate HMAC_SHA1_96_LEN x00)
      else Ok tmp
  end.
Definition zero_all_signature_fields (pac : Pac) (raw : bytes) : Result KdcError bytes :=
  let? tmp := zero_signature pac 4 SERVER_CHECKSUM raw in
  let? tmp := zero_signature pac 4 PRIVSVR_CHECKSUM tmp in
  let? tmp := zero_signature pac 4 FULL_CHECKSUM tmp in
  zero_signature pac 8 TICKET_CHECKSUM tmp.

Section Signing.
Context (hmac_sha1 : bytes -> bytes -> bytes).
Abbreviation mac := (hmac_sha1_96 hmac_sha1).

Definition find_checksum (pac : Pac) (ty : Z) : Result KdcError bytes :=
  let? b := ok_or (find_buffer pac ty) (PacError (MissingChecksum ty)) in
  Ok (pac_data b).

Definition verify_server_checksum (pac : Pac) (raw : bytes) (server_key : Aes256Key) : Result KdcError unit :=
  let? srv := find_checksum pac SERVER_CHECKSUM in
  let? sig := SignatureData_decode srv in
  let? (_, data_len) := buffer_data_range pac raw SERVER_CHECKSUM in
  if (data_len <? 4 + HMAC_SHA1_96_LEN)%nat then Err (PacError (ChecksumTooShort SERVER_CHECKSUM))
  else
    let? tmp := zero_all_signature_fields pac raw in
    if negb (bool_decide (mac server_key tmp = sd_signature sig)) then Err (PacError (ChecksumMismatch SERVER_CHECKSUM)) else Ok tt.

Definition verify_privsvr_checksum (pac : Pac) (raw : bytes) (krbtgt_key : Aes256Key) : Result KdcError unit :=
  let? privsvr := find_checksum pac PRIVSVR_CHECKSUM in
  let? priv_sig := SignatureData_decode privsvr in
  let? (srv_data_off, srv_data_len) := buffer_data_range pac raw SERVER_CHECKSUM in
  if (srv_data_len <? 4 + HMAC_SHA1_96_LEN)%nat then Err (PacError (ChecksumTooShort SERVER_CHECKSUM))
  else
    let srv_sig_off := (srv_data_off + 4)%nat in
    let? srv_sig := slice raw srv_sig_off (srv_sig_off + HMAC_SHA1_96_LEN) in
    if negb (bool_decide (mac krbtgt_key srv_sig = sd_signature priv_sig)) then Err (PacError (ChecksumMismatch PRIVSVR_CHECKSUM)) else Ok tt.

Definition verify_full_checksum (pac : Pac) (raw : bytes) (krbtgt_key : Aes256Key) : Result KdcError unit :=
  let? full := find_checksum pac FULL_CHECKSUM in
  let? full_sig := SignatureData_decode full in
  let? (full_data_off, full_data_len) := buffer_data_range pac raw FULL_CHECKSUM in
  if (full_data_len <? 4 + HMAC_SHA1_96_LEN)%nat then Err (PacError (ChecksumTooShort FULL_CHECKSUM))
  else
    let? tmp := copy_into raw (full_data_off + 4) (replicate HMAC_SHA1_96_LEN x00) in
    if negb (bool_decide (mac krbtgt_key tmp = sd_signature full_sig)) then Err (PacError (ChecksumMismatch FULL_CHECKSUM)) else Ok tt.

Definition verify_ticket_checksum (pac : Pac) (krbtgt_key : Aes256Key) (ticket_bytes : bytes) : Result KdcError unit :=
  let? tc := find_checksum pac TICKET_CHECKSUM in
  let? tc_decoded := TicketChecksum_decode tc in
  if negb (bool_decide (mac krbtgt_key ticket_bytes = tc_signature tc_decoded)) then Err (PacError (ChecksumMismatch TICKET_CHECKSUM)) else Ok tt.

(** ** The builder *)

Record PacBuilder := mkPacBuilder {
  pb_client_uuid : Uuid;
  pb_realm : bytes;
  pb_logon_info : LogonInfo;
  pb_client_info : ClientInfo;
  pb_upn_dns_info : UpnDnsInfo;
  pb_requestor : RequestorInfo;
  pb_ticket_bytes : bytes;
}.

(** [Uuid::as_simple]: 32 lower-case hexadecimal digits. *)
Definition uuid_nibble (d : Z) : byte := z2b (if d <? 10 then 48 + d else 87 + d).
Definition uuid_as_simple (u : Uuid) : bytes :=
  concat (map (fun b => [uuid_nibble (b2z b / 16); uuid_nibble (b2z b mod 16)]) (uuid_as_bytes u)).
(** [to_lowercase] is the Unicode function of the standard library. *)
Definition PacBuilder_new (to_lowercase : bytes -> bytes) (client_uuid : Uuid) (client_sid : Sid) (realm : bytes) : PacBuilder :=
  let user_id := default 0 (rid client_sid) in
  let dom := default client_sid (domain_sid client_sid) in
  mkPacBuilder client_uuid realm
    (mkLogonInfo 0 0 0 0 0 0 [] [] realm user_id 513 [] 0 [] dom)
    (mkClientInfo 0 [])
    (mkUpnDnsInfo (uuid_as_simple client_uuid ++ lit "@" ++ to_lowercase realm) (to_lowercase realm) 0)
    (mkRequestorInfo None) [].

(** The buffers of a PAC in the order of the source, signatures zeroed. *)
Definition unsigned_buffers (b : PacBuilder) : Result KdcError (list PacBuffer) :=
  let? logon_bytes := LogonInfo_encode (pb_logon_info b) in
  let? upn_bytes := UpnDnsInfo_encode (pb_upn_dns_info b) in
  Ok [mkPacBuffer LOGON_INFO logon_bytes;
      mkPacBuffer CREDENTIAL_TYPE [];
      mkPacBuffer SERVER_CHECKSUM (SignatureData_encode SignatureData_zeroed);
      mkPacBuffer PRIVSVR_CHECKSUM (SignatureData_encode SignatureData_zeroed);
      mkPacBuffer CLIENT_INFO (ClientInfo_encode (pb_client_info b));
      mkPacBuffer UPN_DNS_INFO upn_bytes;
      mkPacBuffer TICKET_CHECKSUM (TicketChecksum_encode TicketChecksum_zeroed);
      mkPacBuffer REQUESTOR (RequestorInfo_encode (pb_requestor b));
      mkPacBuffer FULL_CHECKSUM (SignatureData_encode SignatureData_zeroed)].
(** The buffer table: each buffer's data starts where the previous one's, rounded
    up, ends. *)
Fixpoint buffer_headers (next_data_off : nat) (bufs : list PacBuffer) : bytes :=
  match bufs with
  | [] => []
  | b :: bufs =>
      to_le 4 (ul_type b) ++ to_le 4 (as_u32 (Z.of_nat (length (pac_data b)))) ++ to_le 8 (as_u64 (Z.of_nat next_data_off))
      ++ buffer_headers (next_data_off + align_up (length (pac_data b))) bufs
  end.
Definition data_size (bufs : list PacBuffer) : nat := list_sum (map (fun b => align_up (length (pac_data b))) bufs).
Definition write_data (out : bytes) (bufs : list PacBuffer) : bytes :=
  fold_left (fun out b => pad_to_alignment (out ++ pac_data b)) bufs out.
Definition write_pac (bufs : list PacBuffer) : Result KdcError bytes :=
  let num_buffers := length bufs in
  let data_start := (PAC_HEADER_LEN + num_buffers * PAC_BUFFER_HEADER_LEN)%nat in
  let total_size := (data_start + data_size bufs)%nat in
  let header := to_le 4 PAC_HEADER_TYPE ++ to_le 4 (as_u32 (Z.of_nat total_size)) ++ to_le 4 (Z.of_nat num_buffers) ++ to_le 4 PAC_HEADER_VERSION in
  let out := write_data (header ++ buffer_headers data_start bufs) bufs in
  if (length out =? total_size)%nat then Ok out else Panic.
Definition build_unsigned (b : PacBuilder) : Result KdcError bytes :=
  let? bufs := unsigned_buffers b in write_pac bufs.

Definition sign_at (pac : Pac) (skip : nat) (ty : Z) (sig raw : bytes) : Result KdcError bytes :=
  let? (data_off, _) := buffer_data_range pac raw ty in
  copy_into raw (data_off + skip) sig.
Definition build (b : PacBuilder) (krbtgt_key : Aes256Key) : Result KdcError bytes :=
  let? bytes := build_unsigned b in
  let? pac := Pac_parse bytes in
  let srv_sig := mac krbtgt_key bytes in
  let? (srv_data_off, _) := buffer_data_range pac bytes SERVER_CHECKSUM in
  let? bytes := copy_into bytes (srv_data_off + 4) srv_sig in
  let? signed := slice bytes (srv_data_off + 4) (srv_data_off + 4 + HMAC_SHA1_96_LEN) in
  let? bytes := sign_at pac 4 PRIVSVR_CHECKSUM (mac krbtgt_key signed) bytes in
  let? bytes := sign_at pac 8 TICKET_CHECKSUM (mac krbtgt_key (pb_ticket_bytes b)) bytes in
  sign_at pac 4 FULL_CHECKSUM (mac krbtgt_key bytes) bytes.
End Signing.
