(* ===== verification/PacProofs.v ===== *)
(** * PacProofs: building and verifying PACs

    [container bufs] is the PAC with the given buffers; writing produces it,
    parsing inverts it, and overwriting a part of a buffer's data in the bytes is
    overwriting it in the buffer.  With these, the builder's and the verifiers'
    byte manipulation is a computation on lists of buffers. *)
From S2P Require Import Prelude Bytes Text StorageKeys Utf16 SidModel KdcCrypto Kdc Pac.

(** ** The container *)

Definition padded_data (d : bytes) : bytes := d ++ replicate (align_up (length d) - length d) x00.
Definition data_start (bufs : list PacBuffer) : nat := (PAC_HEADER_LEN + length bufs * PAC_BUFFER_HEADER_LEN)%nat.
Definition container_size (bufs : list PacBuffer) : nat := (data_start bufs + data_size bufs)%nat.
Definition pac_header (bufs : list PacBuffer) : bytes :=
  to_le 4 PAC_HEADER_TYPE ++ to_le 4 (as_u32 (Z.of_nat (container_size bufs))) ++ to_le 4 (Z.of_nat (length bufs)) ++ to_le 4 PAC_HEADER_VERSION.
Definition all_data (bufs : list PacBuffer) : bytes := concat (map (fun b => padded_data (pac_data b)) bufs).
Definition container (bufs : list PacBuffer) : bytes := pac_header bufs ++ buffer_headers (data_start bufs) bufs ++ all_data bufs.
Definition offset_of (bufs : list PacBuffer) (i : nat) : nat := (data_start bufs + data_size (take i bufs))%nat.

Lemma align_up_spec n : (n <= align_up n < n + 8)%nat /\ (align_up n mod 8 = 0)%nat.
Proof.
  unfold align_up, PAC_ALIGNMENT. pose proof (Nat.div_mod_eq n 8) as Hd. pose proof (Nat.mod_upper_bound n 8 ltac:(lia)).
  destruct (Nat.eqb_spec (n mod 8) 0) as [E|E]; [split; [lia|done]|]. split; [lia|].
  replace (n + 8 - n mod 8)%nat with ((n / 8 + 1) * 8)%nat by lia. apply Nat.Div0.mod_mul.
Qed.
Lemma length_padded d : length (padded_data d) = align_up (length d).
Proof. unfold padded_data. rewrite length_app, length_replicate. pose proof (align_up_spec (length d)). lia. Qed.
Lemma pad_to_alignment_app out d : (length out mod 8 = 0)%nat -> pad_to_alignment (out ++ d) = out ++ padded_data d.
Proof.
  intros Ho. unfold pad_to_alignment, padded_data, align_up, PAC_ALIGNMENT. rewrite length_app.
  rewrite <-Nat.Div0.add_mod_idemp_l, Ho. cbn [Nat.add]. destruct (Nat.eqb_spec (length d mod 8) 0) as [E|E]; cbn [negb].
  - by rewrite Nat.sub_diag, app_nil_r.
  - rewrite <-app_assoc. do 3 f_equal. lia.
Qed.
Lemma data_size_app l l' : data_size (l ++ l') = (data_size l + data_size l')%nat.
Proof. unfold data_size. by rewrite map_app, list_sum_app. Qed.
Lemma data_size_mod l : (data_size l mod 8 = 0)%nat.
Proof.
  induction l as [|b l IH]; [done|]. change (data_size (b :: l)) with (align_up (length (pac_data b)) + data_size l)%nat.
  by rewrite <-Nat.Div0.add_mod_idemp_l, (proj2 (align_up_spec _)).
Qed.
Lemma length_all_data l : length (all_data l) = data_size l.
Proof.
  induction l as [|b l IH]; [done|]. change (all_data (b :: l)) with (padded_data (pac_data b) ++ all_data l).
  rewrite length_app, length_padded, IH. done.
Qed.
Lemma write_data_eq bufs out : (length out mod 8 = 0)%nat -> write_data out bufs = out ++ all_data bufs.
Proof.
  revert out. induction bufs as [|b bufs IH]; intros out Ho; [by rewrite app_nil_r|].
  change (write_data out (b :: bufs)) with (write_data (pad_to_alignment (out ++ pac_data b)) bufs).
  rewrite pad_to_alignment_app by done. rewrite IH.
  - by rewrite <-app_assoc.
  - rewrite length_app, length_padded, <-Nat.Div0.add_mod_idemp_l, Ho. apply align_up_spec.
Qed.
Lemma length_buffer_headers k bufs : length (buffer_headers k bufs) = (length bufs * 16)%nat.
Proof. revert k. induction bufs as [|b bufs IH]; intros k; [done|]. cbn [buffer_headers]. rewrite !length_app, !length_to_le, IH. cbn [length]. lia. Qed.
Lemma buffer_headers_app k pre post :
  buffer_headers k (pre ++ post) = buffer_headers k pre ++ buffer_headers (k + data_size pre) post.
Proof.
  revert k. induction pre as [|b pre IH]; intros k; cbn [buffer_headers app].
  - by rewrite Nat.add_0_r.
  - rewrite IH, <-!app_assoc. do 4 f_equal. change (data_size (b :: pre)) with (align_up (length (pac_data b)) + data_size pre)%nat.
    f_equal. lia.
Qed.
Lemma length_pac_header bufs : length (pac_header bufs) = 16%nat.
Proof. unfold pac_header. by rewrite !length_app, !length_to_le. Qed.
Lemma length_container bufs : length (container bufs) = container_size bufs.
Proof.
  unfold container. rewrite !length_app, length_pac_header, length_buffer_headers, length_all_data.
  unfold container_size, data_start, PAC_HEADER_LEN, PAC_BUFFER_HEADER_LEN. lia.
Qed.
Lemma write_pac_eq bufs : write_pac bufs = Ok (container bufs).
Proof.
  unfold write_pac. fold (data_start bufs). fold (container_size bufs). fold (pac_header bufs).
  rewrite write_data_eq, <-app_assoc. 2: { rewrite length_app, length_pac_header, length_buffer_headers.
    rewrite Nat.Div0.add_mod, Nat.Div0.mul_mod. cbn. by rewrite Nat.mul_0_r. }
  fold (container bufs). by rewrite length_container, Nat.eqb_refl.
Qed.

(** A buffer's table entry and data within the container; neither the rest of
    the table nor the rest of the data depends on the bytes of its data. *)
Definition buffer_entry (b : PacBuffer) (off : nat) : bytes :=
  to_le 4 (ul_type b) ++ to_le 4 (as_u32 (Z.of_nat (length (pac_data b)))) ++ to_le 8 (as_u64 (Z.of_nat off)).
Lemma container_entry pre b post : exists front back,
  container (pre ++ b :: post) = front ++ buffer_entry b (offset_of (pre ++ b :: post) (length pre)) ++ back
  /\ length front = (16 + length pre * 16)%nat.
Proof.
  unfold container. set (bufs := pre ++ b :: post). set (h := pac_header bufs). set (d := all_data bufs).
  unfold bufs at 2. rewrite buffer_headers_app. cbn [buffer_headers].
  assert (data_start bufs + data_size pre = offset_of bufs (length pre))%nat as -> by (unfold offset_of, bufs; by rewrite take_app_length).
  set (rest := buffer_headers _ post). exists (h ++ buffer_headers (data_start bufs) pre), (rest ++ d). split.
  - unfold buffer_entry. by rewrite <-!app_assoc.
  - unfold h. rewrite length_app, length_pac_header, length_buffer_headers. done.
Qed.
Lemma container_data pre ty d0 post : exists front back,
  length front = offset_of (pre ++ mkPacBuffer ty d0 :: post) (length pre)
  /\ forall d, length d = length d0 -> container (pre ++ mkPacBuffer ty d :: post) = front ++ d ++ back.
Proof.
  set (b0 := mkPacBuffer ty d0). set (bufs := pre ++ b0 :: post).
  exists (pac_header bufs ++ buffer_headers (data_start bufs) bufs ++ all_data pre),
    (replicate (align_up (length d0) - length d0) x00 ++ all_data post). split.
  - rewrite !length_app, length_pac_header, length_buffer_headers, length_all_data. unfold offset_of, bufs. rewrite take_app_length.
    unfold data_start, PAC_HEADER_LEN, PAC_BUFFER_HEADER_LEN. lia.
  - intros d Hd. set (bufs' := pre ++ mkPacBuffer ty d :: post).
    assert (length bufs' = length bufs) as Hl by (unfold bufs, bufs'; by rewrite !length_app).
    assert (data_start bufs' = data_start bufs) as Hs by (unfold data_start; by rewrite Hl).
    assert (data_size bufs' = data_size bufs) as Hz.
    { unfold bufs, bufs'. rewrite !data_size_app. f_equal. change (align_up (length d) + data_size post = align_up (length d0) + data_size post)%nat. by rewrite Hd. }
    assert (pac_header bufs' = pac_header bufs) as Hh by (unfold pac_header, container_size; by rewrite Hl, Hs, Hz).
    assert (forall k, buffer_headers k bufs' = buffer_headers k bufs) as Hb.
    { intros k. unfold bufs, bufs'. rewrite !buffer_headers_app. f_equal. cbn [buffer_headers ul_type pac_data b0]. by rewrite Hd. }
    unfold container. rewrite Hh, Hs, Hb, <-!app_assoc. do 2 f_equal. unfold bufs', all_data. rewrite map_app, concat_app. f_equal.
    cbn [map concat pac_data]. unfold padded_data at 1. by rewrite Hd, <-app_assoc.
Qed.

(** ** Reading the container *)

Definition bufs_ok (bufs : list PacBuffer) : Prop :=
  Forall (fun b => is_u32 (ul_type b)) bufs /\ Z.of_nat (container_size bufs) < 2 ^ 32.

Lemma pac_read_le_app n front v back off : length front = off -> 0 <= v < 256 ^ Z.of_nat n ->
  pac_read_le n (front ++ to_le n v ++ back) off = Ok v.
Proof.
  intros <- Hv. unfold pac_read_le. rewrite !length_app, length_to_le, (proj2 (Nat.ltb_ge _ _)) by lia.
  by rewrite drop_app_length, take_app_length' , of_to_le_id by (done || by rewrite length_to_le).
Qed.
Lemma slice_app_end {E} (a b : bytes) i j : length a = i -> j = (i + length b)%nat -> @slice E (a ++ b) i j = Ok b.
Proof. intros Hi ->. rewrite <-(app_nil_r b) at 1. apply slice_app; lia. Qed.
Lemma pac_read_le_head n v back : 0 <= v < 256 ^ Z.of_nat n -> pac_read_le n (to_le n v ++ back) 0 = Ok v.
Proof. by apply (pac_read_le_app n []). Qed.
Lemma data_le_size pre b post : (length (pac_data b) <= data_size (pre ++ b :: post) - data_size pre)%nat.
Proof.
  rewrite data_size_app. change (data_size (b :: post)) with (align_up (length (pac_data b)) + data_size post)%nat.
  pose proof (align_up_spec (length (pac_data b))). lia.
Qed.
Lemma offset_bound pre b post :
  (offset_of (pre ++ b :: post) (length pre) + length (pac_data b) <= container_size (pre ++ b :: post))%nat.
Proof.
  unfold offset_of, container_size. rewrite take_app_length. pose proof (data_le_size pre b post).
  rewrite data_size_app in *. lia.
Qed.

(** The entry of one buffer, read back. *)
Lemma read_entry pre b post : bufs_ok (pre ++ b :: post) ->
  let raw := container (pre ++ b :: post) in
  let off := (16 + length pre * 16)%nat in
  let data_off := offset_of (pre ++ b :: post) (length pre) in
  (off + 16 <= length raw)%nat
  /\ pac_read_u32 raw off = Ok (ul_type b)
  /\ pac_read_u32 raw (off + 4) = Ok (Z.of_nat (length (pac_data b)))
  /\ pac_read_u64 raw (off + 8) = Ok (Z.of_nat data_off)
  /\ Z.of_nat data_off + Z.of_nat (length (pac_data b)) <= Z.of_nat (length raw)
  /\ take (length (pac_data b)) (drop data_off raw) = pac_data b.
Proof.
  intros [Hty Hsz] raw off data_off. pose proof (offset_bound pre b post) as Hb. fold data_off in Hb.
  destruct (container_entry pre b post) as (front & back & E & Hf). fold raw data_off in E. fold off in Hf.
  apply Forall_app in Hty as [_ Hty]. apply Forall_cons_1 in Hty as [Hty _].
  assert (length raw = container_size (pre ++ b :: post)) as Hl by apply length_container.
  assert (as_u32 (Z.of_nat (length (pac_data b))) = Z.of_nat (length (pac_data b))) as E1 by (apply as_uint_id; unfold is_uint; lia).
  assert (as_u64 (Z.of_nat data_off) = Z.of_nat data_off) as E2 by (apply as_uint_id; unfold is_uint; lia).
  unfold buffer_entry in E. rewrite E1, E2 in E. rewrite <-!app_assoc in E. split_and!.
  - rewrite E, !length_app, !length_to_le. lia.
  - rewrite E. apply pac_read_le_app; [done|exact Hty].
  - rewrite E, app_assoc. apply pac_read_le_app; [|lia]. rewrite length_app, length_to_le. lia.
  - rewrite E, (app_assoc front), (app_assoc (front ++ _)). apply pac_read_le_app; [|lia]. rewrite !length_app, !length_to_le. lia.
  - rewrite Hl. lia.
  - destruct b as [ty d0]. destruct (container_data pre ty d0 post) as (f & g & Hfl & Hc). cbn [pac_data] in *.
    unfold raw. rewrite (Hc d0) by done. unfold data_off. rewrite <-Hfl, drop_app_length. apply take_app_length.
Qed.

Lemma parse_buffers_eq bufs pre post rounds : bufs = pre ++ post -> bufs_ok bufs -> (length post <= rounds)%nat ->
  parse_buffers rounds (container bufs) (Z.of_nat (length pre)) (Z.of_nat (length bufs)) (16 + length pre * 16) = Ok post.
Proof.
  intros -> Hok. revert pre rounds Hok. induction post as [|b post IH]; intros pre rounds Hok Hr.
  - rewrite app_nil_r. destruct rounds; cbn [parse_buffers]; by rewrite Z.leb_refl.
  - destruct rounds as [|rounds]; [cbn in Hr; lia|]. destruct (read_entry pre b post Hok) as (H1 & H2 & H3 & H4 & H5 & H6).
    cbn [parse_buffers]. rewrite (proj2 (Z.leb_gt _ _)) by (rewrite length_app; cbn [length]; lia).
    unfold PAC_BUFFER_HEADER_LEN. rewrite (proj2 (Nat.ltb_ge _ _)) by done. rewrite H2, H3, H4. cbn [rbind].
    assert (Z.of_nat (length (container (pre ++ b :: post))) < 2 ^ 32) as Hl by (rewrite length_container; apply Hok).
    rewrite uint_add_Ok by lia. cbn [rbind]. rewrite (proj2 (Z.ltb_ge _ _)) by lia.
    rewrite slice_Ok by lia. cbn [rbind]. rewrite <-Nat2Z.inj_add, !Nat2Z.id, Nat.add_sub', H6.
    specialize (IH (pre ++ [b]) rounds). rewrite <-app_assoc in IH. cbn [app] in IH.
    replace (Z.of_nat (length pre) + 1) with (Z.of_nat (length (pre ++ [b]))) by (rewrite length_app; cbn [length]; lia).
    replace (16 + length pre * 16 + 16)%nat with (16 + length (pre ++ [b]) * 16)%nat by (rewrite length_app; cbn [length]; lia).
    rewrite IH; [|done|cbn in Hr; lia]. cbn [rbind]. by destruct b.
Qed.
Definition pac_of (bufs : list PacBuffer) : Pac := mkPac (Z.of_nat (container_size bufs)) (Z.of_nat (length bufs)) bufs.
Lemma container_size_bound bufs : (length bufs * 16 + 16 <= container_size bufs)%nat.
Proof. unfold container_size, data_start, PAC_HEADER_LEN, PAC_BUFFER_HEADER_LEN. lia. Qed.
(** The four fields of the header. *)
Lemma container_header bufs : bufs_ok bufs ->
  pac_read_u32 (container bufs) 0 = Ok 0 /\ pac_read_u32 (container bufs) 4 = Ok (Z.of_nat (container_size bufs))
  /\ pac_read_u32 (container bufs) 8 = Ok (Z.of_nat (length bufs)) /\ pac_read_u32 (container bufs) 12 = Ok 0.
Proof.
  intros [Hty Hsz]. pose proof (container_size_bound bufs) as Hn.
  assert (as_u32 (Z.of_nat (container_size bufs)) = Z.of_nat (container_size bufs)) as Eu by (apply as_uint_id; unfold is_uint; lia).
  assert (exists back, container bufs = to_le 4 0 ++ to_le 4 (Z.of_nat (container_size bufs)) ++ to_le 4 (Z.of_nat (length bufs)) ++ to_le 4 0 ++ back) as [back E].
  { eexists. unfold container, pac_header. rewrite Eu, <-!app_assoc. reflexivity. }
  rewrite E. split_and!.
  - by apply (pac_read_le_app 4 []).
  - apply (pac_read_le_app 4 (to_le 4 0)); [done|lia].
  - rewrite app_assoc. apply pac_read_le_app; [|lia]. by rewrite !length_app, !length_to_le.
  - rewrite app_assoc, (app_assoc (_ ++ _)). apply pac_read_le_app; [|lia]. by rewrite !length_app, !length_to_le.
Qed.
Lemma Pac_parse_container bufs : bufs_ok bufs -> Pac_parse (container bufs) = Ok (pac_of bufs).
Proof.
  intros Hok. pose proof (length_container bufs) as Hl. pose proof (container_size_bound bufs) as Hn.
  destruct (container_header bufs Hok) as (E1 & E2 & E3 & E4).
  unfold Pac_parse. rewrite E1, E2, E3, E4, Hl. unfold PAC_HEADER_LEN. rewrite (proj2 (Nat.ltb_ge _ _)) by lia.
  cbn [rbind negb Z.eqb]. rewrite Z.eqb_refl. cbn [negb].
  assert (parse_buffers (container_size bufs) (container bufs) 0 (Z.of_nat (length bufs)) 16 = Ok bufs) as ->.
  { apply (parse_buffers_eq bufs [] bufs); [done|done|lia]. }
  cbn [rbind]. rewrite as_uint_id; [done|]. destruct Hok. unfold is_uint. lia.
Qed.

(** ** Locating and overwriting a buffer *)

Definition patch (d : bytes) (skip : nat) (v : bytes) : bytes := take skip d ++ v ++ drop (skip + length v) d.
Lemma length_patch d skip v : (skip + length v <= length d)%nat -> length (patch d skip v) = length d.
Proof. intros H. unfold patch. rewrite !length_app, length_take, length_drop. lia. Qed.
Lemma split_at {A} (l : list A) i b : l !! i = Some b -> exists pre post, l = pre ++ b :: post /\ length pre = i
  /\ forall b', <[i := b']> l = pre ++ b' :: post.
Proof.
  intros H. exists (take i l), (drop (S i) l). pose proof (lookup_lt_Some _ _ _ H). split_and!.
  - by rewrite take_drop_middle.
  - rewrite length_take. lia.
  - intros b'. by rewrite insert_take_drop.
Qed.
Lemma range_container pac bufs ty i b : bufs_ok bufs -> bufs !! i = Some b ->
  find_buffer_index pac ty = Some i -> (i < length (pac_buffers pac))%nat ->
  buffer_data_range pac (container bufs) ty = Ok (offset_of bufs i, length (pac_data b)).
Proof.
  intros Hok Hb Hi Hlt. unfold buffer_data_range. rewrite Hi, (proj2 (Nat.leb_gt _ _)) by done.
  destruct (split_at bufs i b Hb) as (pre & post & -> & <- & _). unfold PAC_HEADER_LEN, PAC_BUFFER_HEADER_LEN.
  destruct (read_entry pre b post Hok) as (H1 & H2 & H3 & H4 & H5 & H6).
  rewrite (proj2 (Nat.ltb_ge _ _)) by done. rewrite H3, H4. cbn [rbind].
  assert (Z.of_nat (length (container (pre ++ b :: post))) < 2 ^ 32) as Hl by (rewrite length_container; apply Hok).
  rewrite uint_add_Ok by lia. cbn [rbind]. rewrite (proj2 (Z.ltb_ge _ _)) by lia. by rewrite !Nat2Z.id.
Qed.
Lemma copy_container {E} bufs i ty d skip v : bufs !! i = Some (mkPacBuffer ty d) -> (skip + length v <= length d)%nat ->
  @copy_into E (container bufs) (offset_of bufs i + skip) v = Ok (container (<[i := mkPacBuffer ty (patch d skip v)]> bufs)).
Proof.
  intros Hb Hv. destruct (split_at bufs i _ Hb) as (pre & post & -> & <- & ->).
  destruct (container_data pre ty d post) as (f & g & Hf & Hc). rewrite (Hc (patch d skip v)) by (by apply length_patch).
  rewrite (Hc d) by done. rewrite <-Hf. unfold copy_into. rewrite !length_app, (proj2 (Nat.leb_le _ _)) by lia. f_equal.
  rewrite take_app_add, <-app_assoc. f_equal. unfold patch. rewrite take_app_le by lia. rewrite <-!app_assoc. do 2 f_equal.
  rewrite <-Nat.add_assoc, drop_app_add. by rewrite drop_app_le by lia.
Qed.
Lemma slice_container {E} bufs i ty d skip n : bufs !! i = Some (mkPacBuffer ty d) -> (skip + n <= length d)%nat ->
  @slice E (container bufs) (offset_of bufs i + skip) (offset_of bufs i + skip + n) = Ok (take n (drop skip d)).
Proof.
  intros Hb Hn. destruct (split_at bufs i _ Hb) as (pre & post & -> & <- & _).
  destruct (container_data pre ty d post) as (f & g & Hf & Hc). rewrite (Hc d) by done. rewrite <-Hf.
  rewrite slice_Ok by (rewrite !length_app; lia). rewrite Nat.add_sub'. rewrite drop_app_add, drop_app_le by lia.
  by rewrite take_app_le by (rewrite length_drop; lia).
Qed.
Lemma bufs_ok_patch bufs i ty d d' : bufs !! i = Some (mkPacBuffer ty d) -> length d' = length d -> bufs_ok bufs ->
  bufs_ok (<[i := mkPacBuffer ty d']> bufs).
Proof.
  intros Hb Hd. destruct (split_at bufs i _ Hb) as (pre & post & -> & _ & ->). intros [Hty Hsz].
  rewrite Forall_app, Forall_cons in Hty. split; [by rewrite Forall_app, Forall_cons|].
  enough (container_size (pre ++ mkPacBuffer ty d' :: post) = container_size (pre ++ mkPacBuffer ty d :: post)) as -> by done.
  unfold container_size, data_start. rewrite !length_app, !data_size_app. cbn [length]. f_equal. f_equal.
  change (align_up (length d') + data_size post = align_up (length d) + data_size post)%nat. by rewrite Hd.
Qed.

(** ** The structured buffers

    [Fields d enc a]: reading with [d] at the start of [enc], the rest of the
    buffer, gives [a]. *)
Definition Fields {A} (d : FieldReader A) (enc : bytes) (a : A) : Prop :=
  forall front, exists pos, d (front ++ enc) (length front) = Ok (a, pos).

Lemma pac_read_le_bind n front v back : 0 <= v < 256 ^ Z.of_nat n ->
  field_le n (front ++ to_le n v ++ back) (length front) = Ok (v, length (front ++ to_le n v)).
Proof. intros Hv. unfold field_le. rewrite pac_read_le_app by done. cbn [rbind]. by rewrite length_app, length_to_le. Qed.
Lemma Fields_le {A} n v (k : Z -> FieldReader A) l a : 0 <= v < 256 ^ Z.of_nat n -> Fields (k v) l a ->
  Fields (let% x := field_le n in k x) (to_le n v ++ l) a.
Proof. intros Hv Hk front. unfold fr_bind. rewrite pac_read_le_bind by done. cbn [rbind fst snd]. rewrite app_assoc. apply Hk. Qed.
Lemma Reads_guard {A} n f (k : unit -> FieldReader A) l a : n <= Z.of_nat (length l) -> Fields (k tt) l a ->
  Fields (let% x := field_guard n f in k x) l a.
Proof.
  intros Hn Hk front. unfold fr_bind, field_guard. rewrite length_app, (proj2 (Z.ltb_ge _ _)) by lia. apply Hk.
Qed.
Definition name_ok (s : bytes) : Prop := utf8_valid s = true /\ Z.of_nat (length (string_to_utf16le s)) < 2 ^ 16.
Lemma utf16le_roundtrip s : utf8_valid s = true -> utf16le_to_string (string_to_utf16le s) = s.
Proof.
  intros Hs. unfold utf16le_to_string, string_to_utf16le. rewrite le_units_units_le by (by apply encode_utf16_units).
  by apply from_encode_utf16_lossy.
Qed.
Lemma name_len s : name_ok s -> as_u16 (Z.of_nat (length (string_to_utf16le s))) = Z.of_nat (length (string_to_utf16le s)).
Proof. intros [_ Hs]. apply as_uint_id. unfold is_uint. lia. Qed.
Lemma Reads_text {A} f s (k : bytes -> FieldReader A) l a : name_ok s -> Fields (k s) l a ->
  Fields (let% x := field_text f in k x) (put_text s ++ l) a.
Proof.
  intros Hs Hk front. unfold put_text. rewrite name_len by done. set (u := string_to_utf16le s).
  assert (Z.of_nat (length u) < 2 ^ 16) as Hu by apply Hs. rewrite <-app_assoc.
  unfold field_text, fr_bind. rewrite pac_read_le_bind by lia. cbn [rbind fst snd]. unfold field_guard.
  rewrite !length_app, length_to_le, (proj2 (Z.ltb_ge _ _)) by lia. cbn [rbind fst snd]. rewrite Nat2Z.id, app_assoc.
  rewrite slice_app by (rewrite ?length_app, ?length_to_le; lia). cbn [rbind fst snd]. unfold u. rewrite utf16le_roundtrip by apply Hs. fold u.
  destruct (Hk ((front ++ to_le 2 (Z.of_nat (length u))) ++ u)) as [pos E]. exists pos. rewrite <-app_assoc, !length_app, length_to_le in E. exact E.
Qed.
Lemma field_u32s_eq vs front back : Forall is_u32 vs ->
  field_u32s (length vs) (front ++ concat (map (to_le 4) vs) ++ back) (length front)
  = Ok (vs, length (front ++ concat (map (to_le 4) vs))).
Proof.
  intros Hvs. revert front. induction Hvs as [|v vs Hv _ IH]; intros front; [by rewrite app_nil_r|].
  cbn [length field_u32s map concat]. rewrite <-app_assoc. unfold fr_bind. rewrite pac_read_le_bind by exact Hv. cbn [rbind fst snd].
  rewrite !app_assoc, <-app_assoc, IH. done.
Qed.
Lemma Reads_u32s {A} vs (k : list Z -> FieldReader A) l a : Forall is_u32 vs -> Fields (k vs) l a ->
  Fields (let% x := field_u32s (length vs) in k x) (concat (map (to_le 4) vs) ++ l) a.
Proof. intros Hvs Hk front. unfold fr_bind. rewrite field_u32s_eq by done. cbn [rbind fst snd]. rewrite app_assoc. apply Hk. Qed.

Definition logon_ok (l : LogonInfo) : Prop :=
  (is_u64 (logon_time l) /\ is_u64 (logoff_time l) /\ is_u64 (kick_off_time l) /\ is_u64 (password_last_set l)
   /\ is_u64 (password_can_change l) /\ is_u64 (password_must_change l))
  /\ (name_ok (effective_name l) /\ name_ok (user_name l) /\ name_ok (logon_domain_name l) /\ name_ok (logon_server l))
  /\ (is_u32 (user_id l) /\ is_u32 (primary_group_id l) /\ is_u32 (user_flags l))
  /\ Forall is_u32 (groups l) /\ Z.of_nat (length (groups l)) < 2 ^ 32 /\ sid_wf (logon_domain_id l).

Lemma length_u32s vs : length (concat (map (to_le 4) vs)) = (4 * length vs)%nat.
Proof. induction vs as [|v vs IH]; [done|]. cbn [map concat length]. rewrite length_app, length_to_le, IH. lia. Qed.
Lemma LogonInfo_roundtrip l : logon_ok l -> exists b, LogonInfo_encode l = Ok b /\ LogonInfo_decode b = Ok l.
Proof.
  intros ((T1 & T2 & T3 & T4 & T5 & T6) & (N1 & N2 & N3 & N4) & (U1 & U2 & U3) & Hg & Hgl & Hsid). unfold LogonInfo_encode.
  rewrite Sid_to_bytes_enc by done. eexists. split; [reflexivity|]. unfold LogonInfo_decode.
  rewrite (proj2 (Nat.ltb_ge _ _)) by (rewrite !length_app, !length_to_le; lia).
  assert (forall b, Fields read_logon_info b l -> (let? r := read_logon_info b 0%nat in Ok r.1) = Ok l) as Hfin.
  { intros b Hr. destruct (Hr []) as [pos E]. cbn [app length] in E. by rewrite E. }
  apply Hfin. unfold read_logon_info.
  do 6 (apply Fields_le; [assumption|]). do 3 (apply Reads_text; [assumption|]).
  apply Reads_guard; [rewrite !length_app, !length_to_le; lia|]. do 2 (apply Fields_le; [assumption|]).
  apply Reads_guard; [rewrite !length_app, !length_to_le; lia|]. rewrite as_uint_id by (unfold is_uint; lia).
  apply Fields_le; [lia|]. intros front. unfold fr_bind at 1. unfold uint_checked_mul. rewrite (proj2 (Z.ltb_lt _ _)) by lia. cbn [rbind fst snd].
  revert front. apply Reads_guard; [rewrite !length_app, length_u32s; lia|]. rewrite Nat2Z.id. apply Reads_u32s; [done|].
  apply Fields_le; [assumption|]. apply Reads_text; [assumption|]. intros front.
  assert ((length (front ++ sid_enc (logon_domain_id l)) <=? length front)%nat = false) as ->.
  { apply Nat.leb_gt. rewrite length_app. unfold sid_enc. cbn. lia. }
  rewrite drop_app_length, Sid_from_bytes_enc by done. cbn [map_err rbind]. exists (length (front ++ sid_enc (logon_domain_id l))). by destruct l.
Qed.

Definition client_info_ok (c : ClientInfo) : Prop := is_u64 (client_id c) /\ name_ok (client_name c).
Lemma ClientInfo_roundtrip c : client_info_ok c -> ClientInfo_decode (ClientInfo_encode c) = Ok c.
Proof.
  intros [Hi Hn]. unfold ClientInfo_encode, ClientInfo_decode, put_text. rewrite name_len by done.
  set (u := string_to_utf16le (client_name c)). assert (Z.of_nat (length u) < 2 ^ 16) as Hu by apply Hn.
  rewrite !length_app, !length_to_le, (proj2 (Nat.ltb_ge _ _)) by lia.
  unfold pac_read_u64, pac_read_u16. rewrite pac_read_le_head by done. rewrite (pac_read_le_app 2 (to_le 8 _)) by (done || lia).
  cbn [rbind]. rewrite (proj2 (Z.ltb_ge _ _)) by lia. rewrite Nat2Z.id, app_assoc.
  rewrite slice_app_end by (rewrite ?length_app, ?length_to_le; lia). cbn [rbind]. unfold u. rewrite utf16le_roundtrip by apply Hn. by destruct c.
Qed.

Definition upn_ok (i : UpnDnsInfo) : Prop :=
  utf8_valid (upn i) = true /\ Z.of_nat (length (string_to_utf16le (upn i))) + 12 < 2 ^ 16
  /\ name_ok (dns_domain_name i) /\ is_u32 (upn_dns_flags i).
Lemma UpnDnsInfo_roundtrip i : upn_ok i -> exists b, UpnDnsInfo_encode i = Ok b /\ UpnDnsInfo_decode b = Ok i.
Proof.
  intros (Hv & Hl & Hd & Hf). unfold UpnDnsInfo_encode. rewrite (name_len (dns_domain_name i)) by done.
  rewrite (name_len (upn i)) by (split; [done|lia]). set (u := string_to_utf16le (upn i)) in *. set (d := string_to_utf16le (dns_domain_name i)).
  assert (Z.of_nat (length d) < 2 ^ 16) as Hdl by apply Hd. rewrite uint_add_Ok by lia. cbn [rbind].
  set (n := Z.of_nat (length u)) in *. set (m := Z.of_nat (length d)) in *. eexists. split; [reflexivity|].
  set (b := to_le 2 n ++ _). unfold UpnDnsInfo_decode. assert (length b = 12 + length u + length d)%nat as Hb.
  { unfold b. rewrite !length_app, !length_to_le. lia. }
  rewrite Hb, (proj2 (Nat.ltb_ge _ _)) by lia. unfold pac_read_u16, pac_read_u32.
  assert (pac_read_le 2 b 0 = Ok n) as ->. { apply (pac_read_le_app 2 []); [done|lia]. }
  assert (pac_read_le 2 b 2 = Ok 12) as ->. { apply (pac_read_le_app 2 (to_le 2 n)); [done|lia]. }
  assert (pac_read_le 2 b 4 = Ok m) as ->. { unfold b. rewrite app_assoc. apply pac_read_le_app; [done|lia]. }
  assert (pac_read_le 2 b 6 = Ok (12 + n)) as ->. { unfold b. rewrite 2!app_assoc. apply pac_read_le_app; [done|lia]. }
  assert (pac_read_le 4 b 8 = Ok (upn_dns_flags i)) as ->. { unfold b. rewrite 3!app_assoc. by apply pac_read_le_app. }
  cbn [rbind]. rewrite !(proj2 (Z.ltb_ge _ _)) by lia.
  assert (@slice KdcError b (Z.to_nat 12) (Z.to_nat (12 + n)) = Ok u) as ->.
  { unfold b. rewrite 4!app_assoc. apply slice_app; [done|lia|lia]. }
  assert (@slice KdcError b (Z.to_nat (12 + n)) (Z.to_nat (12 + n + m)) = Ok d) as ->.
  { unfold b. rewrite 5!app_assoc. apply slice_app_end; [|lia]. rewrite !length_app, !length_to_le. lia. }
  cbn [rbind]. unfold u, d. rewrite !utf16le_roundtrip by (done || apply Hd). by destruct i.
Qed.

Definition requestor_ok (r : RequestorInfo) : Prop := match requestor_sid r with Some sid => sid_wf sid | None => True end.
Lemma RequestorInfo_roundtrip r : requestor_ok r -> RequestorInfo_decode (RequestorInfo_encode r) = Ok r.
Proof.
  destruct r as [[sid|]]; [|done]. unfold requestor_ok, RequestorInfo_encode. cbn [requestor_sid]. intros H. rewrite Sid_to_bytes_enc by done.
  unfold RequestorInfo_decode. rewrite Sid_from_bytes_enc by done. done.
Qed.
Lemma SignatureData_roundtrip t v : is_u32 t ->
  SignatureData_decode (SignatureData_encode (mkSignatureData t v)) = Ok (mkSignatureData t v).
Proof.
  intros Ht. unfold SignatureData_decode, SignatureData_encode. cbn [sd_signature_type sd_signature].
  rewrite length_app, length_to_le, (proj2 (Nat.ltb_ge _ _)) by lia. unfold pac_read_u32. rewrite pac_read_le_head by done.
  cbn [rbind]. done.
Qed.
Lemma TicketChecksum_roundtrip t v : is_u32 t -> Z.of_nat (length v) < 2 ^ 32 ->
  TicketChecksum_decode (TicketChecksum_encode (mkTicketChecksum t v)) = Ok (mkTicketChecksum t v).
Proof.
  intros Ht Hv. unfold TicketChecksum_decode, TicketChecksum_encode. cbn [tc_signature_type tc_signature].
  rewrite as_uint_id by (unfold is_uint; lia). rewrite !length_app, !length_to_le, (proj2 (Nat.ltb_ge _ _)) by lia. unfold pac_read_u32.
  rewrite pac_read_le_head by done. rewrite (pac_read_le_app 4 (to_le 4 t)) by (done || lia). cbn [rbind].
  rewrite (proj2 (Z.ltb_ge _ _)) by lia. rewrite Nat2Z.id, app_assoc.
  by rewrite slice_app_end by (rewrite ?length_app, ?length_to_le; lia).
Qed.
