(* ===== verification/PacSpec.v ===== *)
(** * PacSpec: what the KDC's PACs promise

    A PAC built from well-formed inputs parses back to its nine buffers, every
    structured buffer decodes to the builder's value and all four checksums
    verify; parsing arbitrary bytes; what the checksums protect. *)
From S2P Require Import Prelude Bytes Text StorageKeys Utf16 SidModel KdcCrypto Kdc Pac PacProofs.

Definition builder_ok (b : PacBuilder) : Prop :=
  logon_ok (pb_logon_info b) /\ client_info_ok (pb_client_info b) /\ upn_ok (pb_upn_dns_info b) /\ requestor_ok (pb_requestor b)
  /\ Z.of_nat (length (groups (pb_logon_info b))) < 2 ^ 28.

(** A PAC's buffers, with its four signatures. *)
Record Signatures := mkSignatures { sg_server : bytes; sg_privsvr : bytes; sg_ticket : bytes; sg_full : bytes }.
Definition sig_data (v : bytes) : bytes := SignatureData_encode (mkSignatureData SIG_TYPE_HMAC_SHA1_96_AES256 v).
Definition ticket_data (v : bytes) : bytes := TicketChecksum_encode (mkTicketChecksum SIG_TYPE_HMAC_SHA1_96_AES256 v).
Definition zeros : bytes := replicate HMAC_SHA1_96_LEN x00.
Definition no_signatures : Signatures := mkSignatures zeros zeros zeros zeros.
Record Payload := mkPayload { pl_logon : bytes; pl_client : bytes; pl_upn : bytes; pl_requestor : bytes }.
Definition nine (p : Payload) (s : Signatures) : list PacBuffer :=
  [mkPacBuffer LOGON_INFO (pl_logon p); mkPacBuffer CREDENTIAL_TYPE []; mkPacBuffer SERVER_CHECKSUM (sig_data (sg_server s));
   mkPacBuffer PRIVSVR_CHECKSUM (sig_data (sg_privsvr s)); mkPacBuffer CLIENT_INFO (pl_client p);
   mkPacBuffer UPN_DNS_INFO (pl_upn p); mkPacBuffer TICKET_CHECKSUM (ticket_data (sg_ticket s));
   mkPacBuffer REQUESTOR (pl_requestor p); mkPacBuffer FULL_CHECKSUM (sig_data (sg_full s))].

Definition signatures_ok (s : Signatures) : Prop :=
  length (sg_server s) = 12%nat /\ length (sg_privsvr s) = 12%nat /\ length (sg_ticket s) = 12%nat /\ length (sg_full s) = 12%nat.
Definition payload_size (p : Payload) : nat :=
  (length (pl_logon p) + length (pl_client p) + length (pl_upn p) + length (pl_requestor p))%nat.

Lemma length_sig_data v : length v = 12%nat -> length (sig_data v) = 16%nat.
Proof. intros H. unfold sig_data, SignatureData_encode. cbn [sd_signature_type sd_signature]. by rewrite length_app, length_to_le, H. Qed.
Lemma length_ticket_data v : length v = 12%nat -> length (ticket_data v) = 20%nat.
Proof. intros H. unfold ticket_data, TicketChecksum_encode. cbn [tc_signature_type tc_signature]. by rewrite !length_app, !length_to_le, H. Qed.
Lemma nine_ok p s : signatures_ok s -> Z.of_nat (payload_size p) < 2 ^ 32 - 512 -> bufs_ok (nine p s).
Proof.
  intros (H1 & H2 & H3 & H4) Hp. split; [repeat constructor; by vm_compute|].
  assert (container_size (nine p s) = 160 + (align_up (length (pl_logon p)) + (0 + (16 + (16 + (align_up (length (pl_client p))
    + (align_up (length (pl_upn p)) + (24 + (align_up (length (pl_requestor p)) + (16 + 0))))))))))%nat as ->.
  { unfold container_size, nine, data_size. cbn [map list_sum foldr pac_data]. rewrite !length_sig_data, length_ticket_data by done. reflexivity. }
  pose proof (align_up_spec (length (pl_logon p))). pose proof (align_up_spec (length (pl_client p))).
  pose proof (align_up_spec (length (pl_upn p))). pose proof (align_up_spec (length (pl_requestor p))). unfold payload_size in Hp. lia.
Qed.
Lemma patch_sig_data v v' : length v = 12%nat -> length v' = 12%nat -> patch (sig_data v) 4 v' = sig_data v'.
Proof.
  intros H H'. unfold patch, sig_data, SignatureData_encode. cbn [sd_signature_type sd_signature].
  rewrite take_app_length' by done. f_equal. rewrite drop_ge, app_nil_r; [done|]. rewrite length_app, length_to_le. lia.
Qed.
Lemma patch_ticket_data v v' : length v = 12%nat -> length v' = 12%nat -> patch (ticket_data v) 8 v' = ticket_data v'.
Proof.
  intros H H'. unfold patch, ticket_data, TicketChecksum_encode. cbn [tc_signature_type tc_signature]. rewrite H, H'.
  set (h := to_le 4 _). set (n := to_le 4 _). rewrite (app_assoc h n v), take_app_length' by done. rewrite <-app_assoc. do 2 f_equal.
  rewrite drop_ge, app_nil_r; [done|]. rewrite !length_app, H. done.
Qed.
Lemma decode_sig_data v : SignatureData_decode (sig_data v) = Ok (mkSignatureData SIG_TYPE_HMAC_SHA1_96_AES256 v).
Proof. by apply SignatureData_roundtrip. Qed.
Lemma decode_ticket_data v : length v = 12%nat -> TicketChecksum_decode (ticket_data v) = Ok (mkTicketChecksum SIG_TYPE_HMAC_SHA1_96_AES256 v).
Proof. intros H. apply TicketChecksum_roundtrip; [done|]. rewrite H. done. Qed.

Lemma sig_of_data v : length v = 12%nat -> take HMAC_SHA1_96_LEN (drop 4 (sig_data v)) = v.
Proof.
  intros H. unfold sig_data, SignatureData_encode. cbn [sd_signature_type sd_signature]. rewrite drop_app_length' by done.
  by rewrite take_ge by (rewrite H; done).
Qed.

(** Overwriting a signature in the bytes is replacing it in the buffers. *)
Section Patching.
Context (p : Payload) (Hp : Z.of_nat (payload_size p) < 2 ^ 32 - 512).
Context (s : Signatures) (Hs : signatures_ok s) (s0 : Signatures).
Abbreviation pac := (pac_of (nine p s0)).
Abbreviation raw := (container (nine p s)).

Lemma range_sig ty i d : find_buffer_index pac ty = Some i -> (i < 9)%nat -> nine p s !! i = Some (mkPacBuffer ty d) ->
  buffer_data_range pac raw ty = Ok (offset_of (nine p s) i, length d).
Proof using Hp Hs. intros Hi Hlt Hd. by apply (range_container pac (nine p s) ty i (mkPacBuffer ty d)); [by apply nine_ok|..]. Qed.
Lemma range_server : buffer_data_range pac raw SERVER_CHECKSUM = Ok (offset_of (nine p s) 2, 16%nat).
Proof using Hp Hs. rewrite (range_sig SERVER_CHECKSUM 2 (sig_data (sg_server s))); [|done|lia|done]. rewrite length_sig_data by apply Hs. done. Qed.
Lemma range_privsvr : buffer_data_range pac raw PRIVSVR_CHECKSUM = Ok (offset_of (nine p s) 3, 16%nat).
Proof using Hp Hs. rewrite (range_sig PRIVSVR_CHECKSUM 3 (sig_data (sg_privsvr s))); [|done|lia|done]. rewrite length_sig_data by apply Hs. done. Qed.
Lemma range_ticket : buffer_data_range pac raw TICKET_CHECKSUM = Ok (offset_of (nine p s) 6, 20%nat).
Proof using Hp Hs. rewrite (range_sig TICKET_CHECKSUM 6 (ticket_data (sg_ticket s))); [|done|lia|done]. rewrite length_ticket_data by apply Hs. done. Qed.
Lemma range_full : buffer_data_range pac raw FULL_CHECKSUM = Ok (offset_of (nine p s) 8, 16%nat).
Proof using Hp Hs. rewrite (range_sig FULL_CHECKSUM 8 (sig_data (sg_full s))); [|done|lia|done]. rewrite length_sig_data by apply Hs. done. Qed.

Context (v : bytes) (Hv : length v = 12%nat).
Lemma copy_server {E} : @copy_into E raw (offset_of (nine p s) 2 + 4) v = Ok (container (nine p (mkSignatures v (sg_privsvr s) (sg_ticket s) (sg_full s)))).
Proof using Hs Hv.
  rewrite (copy_container _ 2 SERVER_CHECKSUM (sig_data (sg_server s))); [|done|rewrite length_sig_data by apply Hs; lia].
  rewrite patch_sig_data by (done || apply Hs). done.
Qed.
Lemma copy_privsvr {E} : @copy_into E raw (offset_of (nine p s) 3 + 4) v = Ok (container (nine p (mkSignatures (sg_server s) v (sg_ticket s) (sg_full s)))).
Proof using Hs Hv.
  rewrite (copy_container _ 3 PRIVSVR_CHECKSUM (sig_data (sg_privsvr s))); [|done|rewrite length_sig_data by apply Hs; lia].
  rewrite patch_sig_data by (done || apply Hs). done.
Qed.
Lemma copy_ticket {E} : @copy_into E raw (offset_of (nine p s) 6 + 8) v = Ok (container (nine p (mkSignatures (sg_server s) (sg_privsvr s) v (sg_full s)))).
Proof using Hs Hv.
  rewrite (copy_container _ 6 TICKET_CHECKSUM (ticket_data (sg_ticket s))); [|done|rewrite length_ticket_data by apply Hs; lia].
  rewrite patch_ticket_data by (done || apply Hs). done.
Qed.
Lemma copy_full {E} : @copy_into E raw (offset_of (nine p s) 8 + 4) v = Ok (container (nine p (mkSignatures (sg_server s) (sg_privsvr s) (sg_ticket s) v))).
Proof using Hs Hv.
  rewrite (copy_container _ 8 FULL_CHECKSUM (sig_data (sg_full s))); [|done|rewrite length_sig_data by apply Hs; lia].
  rewrite patch_sig_data by (done || apply Hs). done.
Qed.
End Patching.

(** ** The builder *)

Lemma length_put_text s : name_ok s -> Z.of_nat (length (put_text s)) < 2 + 65536.
Proof. intros [_ H]. unfold put_text. rewrite length_app, length_to_le. lia. Qed.
Lemma length_sid_enc sid : sid_wf sid -> (length (sid_enc sid) <= 68)%nat.
Proof.
  intros (Ha & Hn & _). unfold sid_enc. rewrite !length_app, length_subs_bytes, Ha. unfold MAX_SUB_AUTHORITIES in Hn. cbn [length]. lia.
Qed.
Lemma LogonInfo_size l b : logon_ok l -> Z.of_nat (length (groups l)) < 2 ^ 28 -> LogonInfo_encode l = Ok b -> Z.of_nat (length b) < 2 ^ 31.
Proof.
  intros (_ & (N1 & N2 & N3 & N4) & _ & _ & _ & Hsid) Hg. unfold LogonInfo_encode. rewrite Sid_to_bytes_enc by done.
  intros E. apply Ok_inj in E as <-. rewrite !length_app, !length_to_le, length_u32s.
  apply length_put_text in N1, N2, N3, N4. apply length_sid_enc in Hsid. lia.
Qed.

Definition payload_of (b : PacBuilder) (p : Payload) : Prop :=
  LogonInfo_decode (pl_logon p) = Ok (pb_logon_info b) /\ ClientInfo_decode (pl_client p) = Ok (pb_client_info b)
  /\ UpnDnsInfo_decode (pl_upn p) = Ok (pb_upn_dns_info b) /\ RequestorInfo_decode (pl_requestor p) = Ok (pb_requestor b).
Lemma unsigned_buffers_Ok b : builder_ok b -> exists p, unsigned_buffers b = Ok (nine p no_signatures)
  /\ payload_of b p /\ Z.of_nat (payload_size p) < 2 ^ 32 - 512.
Proof.
  intros (Hl & Hc & Hu & Hr & Hg). destruct (LogonInfo_roundtrip _ Hl) as (lb & El & Dl). destruct (UpnDnsInfo_roundtrip _ Hu) as (ub & Eu & Du).
  exists (mkPayload lb (ClientInfo_encode (pb_client_info b)) ub (RequestorInfo_encode (pb_requestor b))). unfold unsigned_buffers.
  rewrite El. cbn [rbind]. rewrite Eu. cbn [rbind]. split; [reflexivity|]. split.
  { split_and!; cbn [pl_logon pl_client pl_upn pl_requestor]; [done|by apply ClientInfo_roundtrip|done|by apply RequestorInfo_roundtrip]. }
  unfold payload_size. cbn [pl_logon pl_client pl_upn pl_requestor]. pose proof (LogonInfo_size _ lb Hl Hg El) as Sl.
  assert (Z.of_nat (length (ClientInfo_encode (pb_client_info b))) < 10 + 65536) as Sc.
  { unfold ClientInfo_encode. rewrite length_app, length_to_le. destruct Hc as [_ Hc%length_put_text]. lia. }
  assert (Z.of_nat (length ub) < 12 + 65536 + 65536) as Su.
  { destruct Hu as (_ & H1 & [_ H2] & _). unfold UpnDnsInfo_encode in Eu. apply rbind_Ok_inv in Eu as (o & _ & Eu). apply Ok_inj in Eu as <-.
    rewrite !length_app, !length_to_le. lia. }
  assert (length (RequestorInfo_encode (pb_requestor b)) <= 68)%nat as Sr.
  { unfold RequestorInfo_encode. unfold requestor_ok in Hr. destruct (requestor_sid _) as [sid|]; [|cbn; lia].
    rewrite Sid_to_bytes_enc by done. by apply length_sid_enc. }
  lia.
Qed.

Section Built.
Context (hmac_sha1 : bytes -> bytes -> bytes) (Hmac : forall k d, length (hmac_sha1 k d) = 20%nat) (key : Aes256Key).
Abbreviation mac := (hmac_sha1_96 hmac_sha1 key).

(** The signatures [build] computes. *)
Definition signatures_of (p : Payload) (ticket : bytes) : Signatures :=
  let server := mac (container (nine p no_signatures)) in
  let privsvr := mac server in
  let tc := mac ticket in
  mkSignatures server privsvr tc (mac (container (nine p (mkSignatures server privsvr tc zeros)))).
Lemma length_mac d : length (mac d) = 12%nat.
Proof using Hmac. by rewrite length_hmac_sha1_96. Qed.
Lemma signatures_of_ok p ticket : signatures_ok (signatures_of p ticket).
Proof using Hmac. unfold signatures_ok, signatures_of. cbn. by rewrite !length_mac. Qed.

Lemma build_Ok b : builder_ok b -> exists p, payload_of b p /\ Z.of_nat (payload_size p) < 2 ^ 32 - 512
  /\ build_unsigned b = Ok (container (nine p no_signatures))
  /\ build hmac_sha1 b key = Ok (container (nine p (signatures_of p (pb_ticket_bytes b)))).
Proof using Hmac.
  intros Hb. destruct (unsigned_buffers_Ok b Hb) as (p & Hu & Hp & Hsz). exists p. split; [done|]. split; [done|].
  assert (build_unsigned b = Ok (container (nine p no_signatures))) as Hbu by (unfold build_unsigned; rewrite Hu; apply write_pac_eq).
  split; [done|]. unfold build. rewrite Hbu. cbn [rbind]. assert (signatures_ok no_signatures) as H0 by done.
  rewrite Pac_parse_container by (by apply nine_ok). cbn [rbind].
  rewrite range_server by done. cbn [rbind]. set (srv := mac (container _)). assert (length srv = 12%nat) as Hsrv by apply length_mac.
  rewrite copy_server by done. cbn [rbind]. set (s1 := mkSignatures srv _ _ _). assert (signatures_ok s1) as H1 by done.
  change (offset_of (nine p no_signatures) 2) with (offset_of (nine p s1) 2).
  rewrite (slice_container _ 2 SERVER_CHECKSUM (sig_data srv)); [|done|by rewrite length_sig_data]. cbn [rbind].
  rewrite sig_of_data by done.
  assert (length (mac srv) = 12%nat) as Hpriv by apply length_mac. assert (length (mac (pb_ticket_bytes b)) = 12%nat) as Htc by apply length_mac.
  unfold sign_at at 1. rewrite range_privsvr by done. cbn [rbind]. rewrite copy_privsvr by done. cbn [rbind].
  set (s2 := mkSignatures _ _ _ _). assert (signatures_ok s2) as H2 by done.
  unfold sign_at at 1. rewrite range_ticket by done. cbn [rbind]. rewrite copy_ticket by done. cbn [rbind].
  set (s3 := mkSignatures _ _ _ _). assert (signatures_ok s3) as H3 by done.
  unfold sign_at. rewrite range_full by done. cbn [rbind]. rewrite copy_full by (done || apply length_mac). reflexivity.
Qed.

(** Zeroing the signatures of a signed PAC gives the unsigned one. *)
Lemma zero_all_nine p s s0 : signatures_ok s -> Z.of_nat (payload_size p) < 2 ^ 32 - 512 ->
  zero_all_signature_fields (pac_of (nine p s0)) (container (nine p s)) = Ok (container (nine p no_signatures)).
Proof.
  intros (L1 & L2 & L3 & L4) Hp. assert (length zeros = 12%nat) as Hz by done. unfold zero_all_signature_fields, zero_signature. fold zeros.
  rewrite range_server by done. change (4 + HMAC_SHA1_96_LEN <=? 16)%nat with true. cbv iota beta. rewrite copy_server by done. cbn [rbind].
  rewrite range_privsvr by done. change (4 + HMAC_SHA1_96_LEN <=? 16)%nat with true. cbv iota beta. rewrite copy_privsvr by done. cbn [rbind].
  rewrite range_full by done. change (4 + HMAC_SHA1_96_LEN <=? 16)%nat with true. cbv iota beta. rewrite copy_full by done. cbn [rbind].
  rewrite range_ticket by done. change (8 + HMAC_SHA1_96_LEN <=? 20)%nat with true. cbv iota beta. by rewrite copy_ticket.
Qed.
End Built.

(** C27: A PAC the KDC builds from well-formed inputs: building succeeds without
    a panic; the result parses to the nine mandatory buffers in their order; the
    logon, client, UPN and requestor buffers decode to the builder's values; and
    the server, KDC, full and ticket checksums all verify. *)
Theorem pac_build_verifies (hmac_sha1 : bytes -> bytes -> bytes) (key : Aes256Key) (b : PacBuilder) :
  (forall k d, length (hmac_sha1 k d) = 20%nat) -> builder_ok b ->
  exists raw pac, build hmac_sha1 b key = Ok raw /\ Pac_parse raw = Ok pac
    /\ map ul_type (pac_buffers pac) = [LOGON_INFO; CREDENTIAL_TYPE; SERVER_CHECKSUM; PRIVSVR_CHECKSUM; CLIENT_INFO;
         UPN_DNS_INFO; TICKET_CHECKSUM; REQUESTOR; FULL_CHECKSUM]
    /\ (LogonInfo_decode ∘ pac_data) <$> find_buffer pac LOGON_INFO = Some (Ok (pb_logon_info b))
    /\ (ClientInfo_decode ∘ pac_data) <$> find_buffer pac CLIENT_INFO = Some (Ok (pb_client_info b))
    /\ (UpnDnsInfo_decode ∘ pac_data) <$> find_buffer pac UPN_DNS_INFO = Some (Ok (pb_upn_dns_info b))
    /\ (RequestorInfo_decode ∘ pac_data) <$> find_buffer pac REQUESTOR = Some (Ok (pb_requestor b))
    /\ verify_server_checksum hmac_sha1 pac raw key = Ok tt
    /\ verify_privsvr_checksum hmac_sha1 pac raw key = Ok tt
    /\ verify_full_checksum hmac_sha1 pac raw key = Ok tt
    /\ verify_ticket_checksum hmac_sha1 pac key (pb_ticket_bytes b) = Ok tt.
Proof.
  intros Hmac Hb. destruct (build_Ok hmac_sha1 Hmac key b Hb) as (p & (Hl & Hc & Hu & Hr) & Hsz & _ & Hbuild).
  pose proof (signatures_of_ok hmac_sha1 Hmac key p (pb_ticket_bytes b)) as Hs. set (s := signatures_of _ _ _ _) in *.
  exists (container (nine p s)), (pac_of (nine p s)). split; [done|]. split; [by apply Pac_parse_container, nine_ok|].
  split; [reflexivity|]. change (find_buffer (pac_of (nine p s)) LOGON_INFO) with (Some (mkPacBuffer LOGON_INFO (pl_logon p))).
  change (find_buffer (pac_of (nine p s)) CLIENT_INFO) with (Some (mkPacBuffer CLIENT_INFO (pl_client p))).
  change (find_buffer (pac_of (nine p s)) UPN_DNS_INFO) with (Some (mkPacBuffer UPN_DNS_INFO (pl_upn p))).
  change (find_buffer (pac_of (nine p s)) REQUESTOR) with (Some (mkPacBuffer REQUESTOR (pl_requestor p))).
  cbn [fmap option_fmap option_map compose pac_data]. rewrite Hl, Hc, Hu, Hr. do 4 (split; [reflexivity|]). split_and!.
  - unfold verify_server_checksum. change (find_checksum (pac_of (nine p s)) SERVER_CHECKSUM) with (@Ok KdcError _ (sig_data (sg_server s))).
    cbn [rbind]. rewrite decode_sig_data. cbn [rbind]. rewrite range_server by done. cbn [rbind]. rewrite zero_all_nine by done. cbn [rbind sd_signature].
    by rewrite bool_decide_eq_true_2.
  - unfold verify_privsvr_checksum. change (find_checksum (pac_of (nine p s)) PRIVSVR_CHECKSUM) with (@Ok KdcError _ (sig_data (sg_privsvr s))).
    cbn [rbind]. rewrite decode_sig_data. cbn [rbind]. rewrite range_server by done. cbn [rbind].
    rewrite (slice_container _ 2 SERVER_CHECKSUM (sig_data (sg_server s))); [|done|rewrite length_sig_data by apply Hs; done]. cbn [rbind sd_signature].
    rewrite sig_of_data by apply Hs. by rewrite bool_decide_eq_true_2.
  - unfold verify_full_checksum. change (find_checksum (pac_of (nine p s)) FULL_CHECKSUM) with (@Ok KdcError _ (sig_data (sg_full s))).
    cbn [rbind]. rewrite decode_sig_data. cbn [rbind]. rewrite range_full by done. cbn [rbind]. rewrite copy_full by done. cbn [rbind sd_signature].
    by rewrite bool_decide_eq_true_2.
  - unfold verify_ticket_checksum. change (find_checksum (pac_of (nine p s)) TICKET_CHECKSUM) with (@Ok KdcError _ (ticket_data (sg_ticket s))).
    cbn [rbind]. rewrite decode_ticket_data by apply Hs. cbn [rbind tc_signature]. by rewrite bool_decide_eq_true_2.
Qed.
Definition sample_builder : PacBuilder :=
  PacBuilder_new to_ascii_lowercase 77 (mkSid SECURITY_NT_AUTHORITY [21; 1; 2; 3; 1104]) (lit "CORP").
Lemma sample_builder_ok : builder_ok sample_builder.
Proof.
  unfold builder_ok, logon_ok, client_info_ok, upn_ok, requestor_ok, sid_wf, name_ok. split_and!;
    lazymatch goal with
    | |- True => exact I
    | |- Forall _ _ => apply (bool_decide_unpack _); vm_compute; exact I
    | |- is_uint _ _ => apply (bool_decide_unpack _); vm_compute; exact I
    | |- _ => vm_compute; first [reflexivity | lia]
    end.
Qed.
Lemma pac_build_verifies_witness : exists raw pac, build fold_mac sample_builder [x01] = Ok raw /\ Pac_parse raw = Ok pac
  /\ verify_server_checksum fold_mac pac raw [x01] = Ok tt.
Proof.
  destruct (pac_build_verifies fold_mac [x01] sample_builder) as (raw & pac & H1 & H2 & _ & _ & _ & _ & _ & H3 & _).
  - reflexivity.
  - apply sample_builder_ok.
  - exists raw, pac. auto.
Defined.

(** ** Parsing arbitrary bytes *)

(** The table entry of a buffer, as the bytes have it. *)
Definition entry_field (raw : bytes) (i skip width : nat) : Z := of_le (take width (drop (16 + i * 16 + skip) raw)).
Lemma pac_read_le_Ok n raw off : (off + n <= length raw)%nat -> pac_read_le n raw off = Ok (of_le (take n (drop off raw))).
Proof. intros H. unfold pac_read_le. by rewrite (proj2 (Nat.ltb_ge _ _)). Qed.
Lemma of_le_take n (raw : bytes) off : 0 <= of_le (take n (drop off raw)) < 256 ^ Z.of_nat n.
Proof.
  pose proof (of_le_range (take n (drop off raw))) as H. rewrite length_take in H. split; [lia|].
  eapply Z.lt_le_trans; [apply H|]. apply Z.pow_le_mono_r; lia.
Qed.

Definition buffer_of (raw : bytes) (i : nat) (b : PacBuffer) : Prop :=
  ul_type b = entry_field raw i 0 4 /\ Z.of_nat (length (pac_data b)) = entry_field raw i 4 4
  /\ entry_field raw i 8 8 + entry_field raw i 4 4 <= Z.of_nat (length raw)
  /\ pac_data b = take (length (pac_data b)) (drop (Z.to_nat (entry_field raw i 8 8)) raw).
Lemma parse_buffers_spec raw n rounds i : Z.of_nat i <= n -> (length raw <= rounds + i)%nat ->
  match parse_buffers rounds raw (Z.of_nat i) n (16 + i * 16) with
  | Ok bufs => Z.of_nat (i + length bufs) = n /\ forall j b, bufs !! j = Some b -> buffer_of raw (i + j) b
  | Err _ => True
  | Panic => exists j, (16 + j * 16 + 16 <= length raw)%nat /\ Z.of_nat j < n /\ 2 ^ 64 <= entry_field raw j 8 8 + entry_field raw j 4 4
  end.
Proof.
  revert i. induction rounds as [|rounds IH]; intros i Hi Hr; cbn [parse_buffers]; destruct (Z.leb_spec n (Z.of_nat i)) as [Hn|Hn].
  1, 3: by (split; [cbn [length]; lia|]; intros j b; rewrite lookup_nil).
  all: unfold PAC_BUFFER_HEADER_LEN; destruct (Nat.ltb_spec (length raw) (16 + i * 16 + 16)) as [Hl|Hl]; [done|].
  { exfalso. lia. }
  unfold pac_read_u32, pac_read_u64. rewrite !pac_read_le_Ok by lia. cbn [rbind].
  set (ty := of_le (take 4 (drop (16 + i * 16) raw))). set (size := of_le (take 4 _)). set (off := of_le (take 8 _)).
  assert (0 <= size < 2 ^ 32) as Hsz by apply of_le_take. assert (0 <= off < 2 ^ 64) as Hoff by apply of_le_take.
  unfold uint_add. destruct (Z.ltb_spec (off + size) (2 ^ 64)) as [Ho|Ho]; cbn [rbind]; [|by exists i].
  destruct (Z.ltb_spec (Z.of_nat (length raw)) (off + size)) as [Hb|Hb]; [done|]. rewrite slice_Ok by lia. cbn [rbind].
  replace (Z.of_nat i + 1) with (Z.of_nat (S i)) by lia. replace (16 + i * 16 + 16)%nat with (16 + S i * 16)%nat by lia.
  specialize (IH (S i) ltac:(lia) ltac:(lia)). destruct (parse_buffers _ _ _ _ _) as [bufs|e|]; cbn [rbind]; [|done|done].
  destruct IH as [IH1 IH2]. split; [cbn [length]; lia|]. intros [|j] b.
  - intros [= <-]. rewrite Nat.add_0_r. replace (Z.to_nat (off + size) - Z.to_nat off)%nat with (Z.to_nat size) by lia.
    assert (length (take (Z.to_nat size) (drop (Z.to_nat off) raw)) = Z.to_nat size) as Hd by (rewrite length_take, length_drop; lia).
    unfold buffer_of. cbn [ul_type pac_data]. rewrite Hd. unfold entry_field. rewrite Nat.add_0_r. fold ty size off. split_and!; [done|lia|lia|done].
  - intros Hj. replace (i + S j)%nat with (S i + j)%nat by lia. by apply IH2.
Qed.

(** Parsing arbitrary bytes as a PAC: an accepted PAC has the announced
    size and number of buffers, and every buffer is the part of the bytes its
    table entry names; the only panic is a table entry whose offset and size add
    up to 2^64 or more. *)
Theorem pac_parse_spec (raw : bytes) :
  match Pac_parse raw with
  | Ok pac => total_size pac = Z.of_nat (length raw) /\ Z.of_nat (length (pac_buffers pac)) = num_buffers pac
      /\ forall i b, pac_buffers pac !! i = Some b -> buffer_of raw i b
  | Err _ => True
  | Panic => exists i, (16 + i * 16 + 16 <= length raw)%nat /\ 2 ^ 64 <= entry_field raw i 8 8 + entry_field raw i 4 4
  end.
Proof.
  unfold Pac_parse. destruct (Nat.ltb_spec (length raw) PAC_HEADER_LEN) as [H|H]; [done|]. unfold PAC_HEADER_LEN in *. unfold pac_read_u32.
  rewrite !pac_read_le_Ok by lia. cbn [rbind]. destruct (negb _); [done|]. set (t := of_le (take 4 (drop 4 raw))).
  destruct (Z.eqb_spec t (Z.of_nat (length raw))) as [Ht|]; cbn [negb]; [|done]. destruct (negb _); [done|]. set (n := of_le (take 4 (drop 8 raw))).
  assert (0 <= n < 2 ^ 32) as Hn by apply of_le_take. assert (0 <= t < 2 ^ 32) as Ht' by apply of_le_take.
  pose proof (parse_buffers_spec raw n (length raw) 0 ltac:(lia) ltac:(lia)) as Hp. cbn [Nat.mul Nat.add] in Hp.
  change (Z.of_nat 0) with 0 in Hp. destruct (parse_buffers _ _ _ _ _) as [bufs|e|]; cbn [rbind].
  - destruct Hp as [H1 H2]. cbn [total_size num_buffers pac_buffers]. rewrite as_uint_id by done. split_and!; [done|done|exact H2].
  - done.
  - destruct Hp as (j & ? & _ & ?). by exists j.
Qed.
