(* ===== verification/PacValidator.v ===== *)
(** * PacValidator: the service-side PAC validator ([adrian-pac-validator])

    The validator has its own parser and its own way of zeroing signatures; its
    [Pac] and [PacBuffer] are the records of [Pac].  Proved here: it never panics
    on a PAC it has parsed, and what it decides on the PACs the KDC builds. *)
From S2P Require Import Prelude Bytes Text StorageKeys Utf16 SidModel KdcCrypto Kdc Pac PacProofs PacSpec.

(** The messages of [PacValidationError::Malformed]. *)
Inductive MalformedPac :=
| VReadOutOfBounds (width off : nat)
| VHeaderTruncated (len : nat)
| VHeaderType (ul_type : Z)
| VSizeMismatch (total actual : Z)
| VHeaderVersion (version : Z)
| VBufferHeaderOutOfBounds (i : Z) (off : nat)
| VBufferUnaligned (i offset : Z)
| VBufferDataOutOfBounds (i offset size : Z) (len : nat)
| VChecksumTooShort (ty : Z) (len : nat)
| VTooShort.
Inductive PacValidationError :=
| Malformed (p : MalformedPac)
| SignatureMismatch (ty : Z)
| Expired
| MissingBuffer (ty : Z).

Definition validator_read_le (width : nat) (buf : bytes) (off : nat) : Result PacValidationError Z :=
  if (length buf <? off + width)%nat then Err (Malformed (VReadOutOfBounds width off))
  else Ok (of_le (take width (drop off buf))).
Definition validator_read_u32 : bytes -> nat -> Result PacValidationError Z := validator_read_le 4.
Definition validator_read_u64 : bytes -> nat -> Result PacValidationError Z := validator_read_le 8.

(** [for i in 0..num_buffers], bounded as in the KDC's parser. *)
Fixpoint validator_buffers (rounds : nat) (bytes : bytes) (i num_buffers : Z) (off : nat) : Result PacValidationError (list PacBuffer) :=
  if num_buffers <=? i then Ok []
  else if (length bytes <? off + PAC_BUFFER_HEADER_LEN)%nat then Err (Malformed (VBufferHeaderOutOfBounds i off))
  else
    match rounds with
    | O => Panic
    | S rounds =>
        let? b_type := validator_read_u32 bytes off in
        let? b_size := validator_read_u32 bytes (off + 4) in
        let? b_offset := validator_read_u64 bytes (off + 8) in
        if negb (b_offset mod 8 =? 0) then Err (Malformed (VBufferUnaligned i b_offset))
        else
          let? b_end := uint_add 64 b_offset b_size in
          if Z.of_nat (length bytes) <? b_end
          then Err (Malformed (VBufferDataOutOfBounds i b_offset b_size (length bytes)))
          else
            let? data := slice bytes (Z.to_nat b_offset) (Z.to_nat b_end) in
            let? rest := validator_buffers rounds bytes (i + 1) num_buffers (off + PAC_BUFFER_HEADER_LEN) in
            Ok (mkPacBuffer b_type data :: rest)
    end.
Definition validator_parse (bytes : bytes) : Result PacValidationError Pac :=
  if (length bytes <? PAC_HEADER_LEN)%nat then Err (Malformed (VHeaderTruncated (length bytes)))
  else
    let? ul_type := validator_read_u32 bytes 0 in
    if negb (ul_type =? PAC_HEADER_TYPE) then Err (Malformed (VHeaderType ul_type))
    else
      let? total_size := validator_read_u32 bytes 4 in
      if negb (total_size =? Z.of_nat (length bytes)) then Err (Malformed (VSizeMismatch total_size (Z.of_nat (length bytes))))
      else
        let? num_buffers := validator_read_u32 bytes 8 in
        let? version := validator_read_u32 bytes 12 in
        if negb (version =? PAC_HEADER_VERSION) then Err (Malformed (VHeaderVersion version))
        else
          let? buffers := validator_buffers (length bytes) bytes 0 num_buffers PAC_HEADER_LEN in
          Ok (mkPac (as_u32 total_size) num_buffers buffers).

Definition get_buffer (pac : Pac) (buffer_type : Z) : option PacBuffer :=
  list_find (fun b => ul_type b = buffer_type) (pac_buffers pac) ≫= fun p => Some p.2.
Definition logon_info (pac : Pac) : option bytes := pac_data <$> get_buffer pac LOGON_INFO.
Definition client_info (pac : Pac) : option bytes := pac_data <$> get_buffer pac CLIENT_INFO.
Definition upn_dns_info (pac : Pac) : option bytes := pac_data <$> get_buffer pac UPN_DNS_INFO.
Definition server_checksum (pac : Pac) : option bytes := pac_data <$> get_buffer pac SERVER_CHECKSUM.
Definition privsvr_checksum (pac : Pac) : option bytes := pac_data <$> get_buffer pac PRIVSVR_CHECKSUM.
Definition ticket_checksum (pac : Pac) : option bytes := pac_data <$> get_buffer pac TICKET_CHECKSUM.

(** [for _ in 0..num_buffers], leaving the loop where the table ends. *)
Fixpoint search_offset (rounds : nat) (pac_bytes : bytes) (left : Z) (off : nat) (target_type : Z) : Result PacValidationError Z :=
  if left <=? 0 then Err (MissingBuffer target_type)
  else if (length pac_bytes <? off + PAC_BUFFER_HEADER_LEN)%nat then Err (MissingBuffer target_type)
  else
    match rounds with
    | O => Panic
    | S rounds =>
        let? b_type := validator_read_u32 pac_bytes off in
        let? _ := validator_read_u32 pac_bytes (off + 4) in
        let? b_offset := validator_read_u64 pac_bytes (off + 8) in
        if b_type =? target_type then Ok b_offset
        else search_offset rounds pac_bytes (left - 1) (off + PAC_BUFFER_HEADER_LEN) target_type
    end.
Definition find_buffer_offset (pac_bytes : bytes) (target_type : Z) : Result PacValidationError Z :=
  if (length pac_bytes <? PAC_HEADER_LEN)%nat then Err (Malformed VTooShort)
  else
    let? num_buffers := validator_read_u32 pac_bytes 8 in
    search_offset (length pac_bytes) pac_bytes num_buffers PAC_HEADER_LEN target_type.

Definition is_signature (ty : Z) : bool :=
  (ty =? SERVER_CHECKSUM) || (ty =? PRIVSVR_CHECKSUM) || (ty =? TICKET_CHECKSUM) || (ty =? FULL_CHECKSUM).
Definition zero_field (pac_bytes : bytes) (buf : PacBuffer) : Result PacValidationError bytes :=
  if is_signature (ul_type buf) && (16 <=? length (pac_data buf))%nat then
    let? pac_offset := find_buffer_offset pac_bytes (ul_type buf) in
    let? pac_end := uint_add 64 pac_offset 16 in
    if pac_end <=? Z.of_nat (length pac_bytes)
    then copy_into pac_bytes (Z.to_nat pac_offset + 4) (replicate 12 x00)
    else Ok pac_bytes
  else Ok pac_bytes.
Fixpoint zero_signature_fields (pac_bytes : bytes) (buffers : list PacBuffer) : Result PacValidationError bytes :=
  match buffers with
  | [] => Ok pac_bytes
  | buf :: buffers => let? pac_bytes := zero_field pac_bytes buf in zero_signature_fields pac_bytes buffers
  end.

Section Validator.
Context (hmac_sha1 : bytes -> bytes -> bytes).
Definition compute_hmac_sha1_96 (key data : bytes) : bytes := take 12 (hmac_sha1 key data).

Definition checksum_field (ty : Z) (o : option bytes) : Result PacValidationError bytes :=
  let? buf := ok_or o (MissingBuffer ty) in
  if (length buf <? 4 + 12)%nat then Err (Malformed (VChecksumTooShort ty (length buf)))
  else slice buf 4 16.

(** Both buffers are looked up before either is measured. *)
Definition validate_kdc_checksum (pac : Pac) (krbtgt_key : bytes) : Result PacValidationError unit :=
  let? _ := ok_or (server_checksum pac) (MissingBuffer SERVER_CHECKSUM) in
  let? _ := ok_or (privsvr_checksum pac) (MissingBuffer PRIVSVR_CHECKSUM) in
  let? server_sig := checksum_field SERVER_CHECKSUM (server_checksum pac) in
  let? privsvr_sig := checksum_field PRIVSVR_CHECKSUM (privsvr_checksum pac) in
  if negb (bool_decide (compute_hmac_sha1_96 krbtgt_key server_sig = privsvr_sig)) then Err (SignatureMismatch PRIVSVR_CHECKSUM)
  else Ok tt.
Definition validate_service_checksum (pac : Pac) (service_key pac_bytes : bytes) : Result PacValidationError unit :=
  let? stored_sig := checksum_field SERVER_CHECKSUM (server_checksum pac) in
  let? pac_copy := zero_signature_fields pac_bytes (pac_buffers pac) in
  if negb (bool_decide (compute_hmac_sha1_96 service_key pac_copy = stored_sig)) then Err (SignatureMismatch SERVER_CHECKSUM)
  else Ok tt.
Definition validate (pac : Pac) (pac_bytes service_key krbtgt_key : bytes) : Result PacValidationError unit :=
  let? _ := validate_service_checksum pac service_key pac_bytes in
  let? _ := validate_kdc_checksum pac krbtgt_key in
  match ticket_checksum pac with
  | Some ticket_buf =>
      if (4 + 12 <=? length ticket_buf)%nat then
        let? ticket_sig := slice ticket_buf 4 16 in
        if forallb (fun b => bool_decide (b = x00)) ticket_sig then Err (SignatureMismatch TICKET_CHECKSUM) else Ok tt
      else Ok tt
  | None => Ok tt
  end.
End Validator.

(** ** The validator on containers *)

Lemma validator_read_Ok n raw off v : pac_read_le n raw off = Ok v -> validator_read_le n raw off = Ok v.
Proof. unfold pac_read_le, validator_read_le. by destruct (_ <? _)%nat; intros [=->]. Qed.
Lemma offset_aligned bufs i : Z.of_nat (offset_of bufs i) mod 8 = 0.
Proof.
  change 8 with (Z.of_nat 8). rewrite <-Nat2Z.inj_mod. unfold offset_of, data_start, PAC_HEADER_LEN, PAC_BUFFER_HEADER_LEN.
  rewrite Nat.Div0.add_mod, data_size_mod, Nat.add_0_r. rewrite Nat.Div0.add_mod, Nat.Div0.mul_mod.
  change (16 mod 8)%nat with 0%nat. by rewrite Nat.mul_0_r.
Qed.
Lemma validator_buffers_eq bufs pre post rounds : bufs = pre ++ post -> bufs_ok bufs -> (length post <= rounds)%nat ->
  validator_buffers rounds (container bufs) (Z.of_nat (length pre)) (Z.of_nat (length bufs)) (16 + length pre * 16) = Ok post.
Proof.
  intros -> Hok. revert pre rounds Hok. induction post as [|b post IH]; intros pre rounds Hok Hr.
  - rewrite app_nil_r. destruct rounds; cbn [validator_buffers]; by rewrite Z.leb_refl.
  - destruct rounds as [|rounds]; [cbn in Hr; lia|]. destruct (read_entry pre b post Hok) as (H1 & H2 & H3 & H4 & H5 & H6).
    apply validator_read_Ok in H2, H3, H4.
    cbn [validator_buffers]. rewrite (proj2 (Z.leb_gt _ _)) by (rewrite length_app; cbn [length]; lia).
    unfold PAC_BUFFER_HEADER_LEN. rewrite (proj2 (Nat.ltb_ge _ _)) by done. unfold validator_read_u32, validator_read_u64. rewrite H2, H3, H4. cbn [rbind].
    rewrite offset_aligned. cbn [Z.eqb negb].
    assert (Z.of_nat (length (container (pre ++ b :: post))) < 2 ^ 32) as Hl by (rewrite length_container; apply Hok).
    rewrite uint_add_Ok by lia. cbn [rbind]. rewrite (proj2 (Z.ltb_ge _ _)) by lia.
    rewrite slice_Ok by lia. cbn [rbind]. rewrite <-Nat2Z.inj_add, !Nat2Z.id, Nat.add_sub', H6.
    specialize (IH (pre ++ [b]) rounds). rewrite <-app_assoc in IH. cbn [app] in IH.
    replace (Z.of_nat (length pre) + 1) with (Z.of_nat (length (pre ++ [b]))) by (rewrite length_app; cbn [length]; lia).
    replace (16 + length pre * 16 + 16)%nat with (16 + length (pre ++ [b]) * 16)%nat by (rewrite length_app; cbn [length]; lia).
    rewrite IH; [|done|cbn in Hr; lia]. cbn [rbind]. by destruct b.
Qed.
Lemma validator_parse_container bufs : bufs_ok bufs -> validator_parse (container bufs) = Ok (pac_of bufs).
Proof.
  intros Hok. pose proof (length_container bufs) as Hl. pose proof (container_size_bound bufs) as Hn.
  destruct (container_header bufs Hok) as (E1%validator_read_Ok & E2%validator_read_Ok & E3%validator_read_Ok & E4%validator_read_Ok).
  unfold validator_parse, validator_read_u32. rewrite E1, E2, E3, E4, Hl. unfold PAC_HEADER_LEN. rewrite (proj2 (Nat.ltb_ge _ _)) by lia.
  cbn [rbind negb Z.eqb]. rewrite Z.eqb_refl. cbn [negb].
  assert (validator_buffers (container_size bufs) (container bufs) 0 (Z.of_nat (length bufs)) 16 = Ok bufs) as ->.
  { apply (validator_buffers_eq bufs [] bufs); [done|done|lia]. }
  cbn [rbind]. rewrite as_uint_id; [done|]. destruct Hok. unfold is_uint. lia.
Qed.
Lemma search_offset_eq bufs ty seen todo b post rounds : bufs = seen ++ todo ++ b :: post -> bufs_ok bufs ->
  Forall (fun x => ul_type x <> ty) todo -> ul_type b = ty -> (length todo < rounds)%nat ->
  search_offset rounds (container bufs) (Z.of_nat (length bufs) - Z.of_nat (length seen)) (16 + length seen * 16) ty
  = Ok (Z.of_nat (offset_of bufs (length seen + length todo))).
Proof.
  intros E Hok Htodo Hb. revert seen rounds E. induction Htodo as [|x todo Hx _ IH]; intros seen rounds E Hr;
    (destruct rounds as [|rounds]; [cbn in Hr; lia|]); cbn [search_offset].
  - cbn [app] in E. subst bufs. destruct (read_entry seen b post Hok) as (H1 & H2 & H3 & H4 & _). apply validator_read_Ok in H2, H3, H4.
    rewrite (proj2 (Z.leb_gt _ _)) by (rewrite length_app; cbn [length]; lia). unfold PAC_BUFFER_HEADER_LEN.
    rewrite (proj2 (Nat.ltb_ge _ _)) by done. unfold validator_read_u32, validator_read_u64. rewrite H2, H3, H4. cbn [rbind].
    rewrite Hb, Z.eqb_refl. cbn [length]. by rewrite Nat.add_0_r.
  - assert (bufs = seen ++ x :: todo ++ b :: post) as E' by exact E. rewrite E' in Hok. destruct (read_entry seen x _ Hok) as (H1 & H2 & H3 & H4 & _).
    rewrite <-E' in H1, H2, H3, H4. apply validator_read_Ok in H2, H3, H4.
    rewrite (proj2 (Z.leb_gt _ _)) by (rewrite E', length_app; cbn [length]; lia). unfold PAC_BUFFER_HEADER_LEN.
    rewrite (proj2 (Nat.ltb_ge _ _)) by done. unfold validator_read_u32, validator_read_u64. rewrite H2, H3, H4. cbn [rbind].
    rewrite (proj2 (Z.eqb_neq _ _)) by done.
    replace (Z.of_nat (length bufs) - Z.of_nat (length seen) - 1) with (Z.of_nat (length bufs) - Z.of_nat (length (seen ++ [x]))) by (rewrite length_app; cbn [length]; lia).
    replace (16 + length seen * 16 + 16)%nat with (16 + length (seen ++ [x]) * 16)%nat by (rewrite length_app; cbn [length]; lia).
    rewrite IH; [|by rewrite E', <-app_assoc|cbn in Hr; lia]. rewrite length_app. cbn [length]. do 3 f_equal. lia.
Qed.
Lemma find_offset_container bufs pre b post ty : bufs = pre ++ b :: post -> bufs_ok bufs ->
  Forall (fun x => ul_type x <> ty) pre -> ul_type b = ty ->
  find_buffer_offset (container bufs) ty = Ok (Z.of_nat (offset_of bufs (length pre))).
Proof.
  intros E Hok Hpre Hb. pose proof (length_container bufs) as Hl. pose proof (container_size_bound bufs) as Hn.
  destruct (container_header bufs Hok) as (_ & _ & E3%validator_read_Ok & _). unfold find_buffer_offset. rewrite Hl. unfold PAC_HEADER_LEN.
  rewrite (proj2 (Nat.ltb_ge _ _)) by lia. unfold validator_read_u32. rewrite E3. cbn [rbind].
  pose proof (search_offset_eq bufs ty [] pre b post (container_size bufs) E Hok Hpre Hb) as Hs. cbn [length Nat.mul Nat.add] in Hs.
  change (Z.of_nat 0) with 0 in Hs. rewrite Z.sub_0_r in Hs. apply Hs. subst bufs. rewrite length_app in Hn. lia.
Qed.
(** Zeroing the signature field of the first buffer of a type. *)
Lemma zero_field_container bufs pre ty d post : bufs = pre ++ mkPacBuffer ty d :: post -> bufs_ok bufs ->
  Forall (fun x => ul_type x <> ty) pre -> is_signature ty = true -> (16 <= length d)%nat -> forall d0, (16 <= length d0)%nat ->
  zero_field (container bufs) (mkPacBuffer ty d0) = Ok (container (<[length pre := mkPacBuffer ty (patch d 4 zeros)]> bufs)).
Proof.
  intros E Hok Hpre Hs Hd d0 Hd0. unfold zero_field. cbn [ul_type pac_data]. rewrite Hs, (proj2 (Nat.leb_le _ _)) by done. cbn [andb].
  rewrite (find_offset_container bufs pre (mkPacBuffer ty d) post) by done. cbn [rbind].
  pose proof (offset_bound pre (mkPacBuffer ty d) post) as Hb. rewrite <-E in Hb. cbn [pac_data] in Hb.
  assert (Z.of_nat (container_size bufs) < 2 ^ 32) as Hsz by apply Hok. rewrite uint_add_Ok by lia. cbn [rbind].
  rewrite length_container, (proj2 (Z.leb_le _ _)) by lia. rewrite Nat2Z.id. apply copy_container; [|cbn; lia].
  rewrite E. by rewrite list_lookup_middle.
Qed.
Lemma zero_field_skip raw ty d : is_signature ty = false -> zero_field raw (mkPacBuffer ty d) = Ok raw.
Proof. intros H. unfold zero_field. cbn [ul_type]. by rewrite H. Qed.

(** ** The validator on the PACs of the KDC *)

(** The validator takes the bytes 4 to 16 of the ticket checksum for its
    signature; they are its length field and the first eight bytes of it. *)
Definition cleared_ticket (v : bytes) : bytes := to_le 4 SIG_TYPE_HMAC_SHA1_96_AES256 ++ zeros ++ drop 8 v.
Lemma patch_cleared v : length v = 12%nat -> patch (ticket_data v) 4 zeros = cleared_ticket v.
Proof.
  intros H. unfold patch, ticket_data, TicketChecksum_encode, cleared_ticket. cbn [tc_signature_type tc_signature].
  rewrite take_app_length' by done. reflexivity.
Qed.
Definition cleared (p : Payload) (v : bytes) : list PacBuffer :=
  <[6%nat := mkPacBuffer TICKET_CHECKSUM (cleared_ticket v)]> (nine p no_signatures).

Lemma zero_signature_nine p s : signatures_ok s -> Z.of_nat (payload_size p) < 2 ^ 32 - 512 ->
  zero_signature_fields (container (nine p s)) (nine p s) = Ok (container (cleared p (sg_ticket s))).
Proof.
  intros (L1 & L2 & L3 & L4) Hp. assert (length zeros = 12%nat) as Hz by done. cbn [nine zero_signature_fields].
  repeat (rewrite zero_field_skip by done; cbn [rbind]).
  rewrite (zero_field_container (nine p s) (take 2 (nine p s)) SERVER_CHECKSUM (sig_data (sg_server s)) (drop 3 (nine p s)));
    [|reflexivity|by apply nine_ok|by repeat constructor|done|by rewrite length_sig_data|by rewrite length_sig_data].
  rewrite patch_sig_data by done. cbn [rbind]. set (s1 := mkSignatures zeros (sg_privsvr s) (sg_ticket s) (sg_full s)).
  change (<[length (take 2 (nine p s)) := _]> (nine p s)) with (nine p s1). assert (signatures_ok s1) as H1 by done.
  rewrite (zero_field_container (nine p s1) (take 3 (nine p s1)) PRIVSVR_CHECKSUM (sig_data (sg_privsvr s)) (drop 4 (nine p s1)));
    [|reflexivity|by apply nine_ok|by repeat constructor|done|by rewrite length_sig_data|by rewrite length_sig_data].
  rewrite patch_sig_data by done. cbn [rbind]. set (s2 := mkSignatures zeros zeros (sg_ticket s) (sg_full s)).
  change (<[length (take 3 (nine p s1)) := _]> (nine p s1)) with (nine p s2). assert (signatures_ok s2) as H2 by done.
  repeat (rewrite zero_field_skip by done; cbn [rbind]).
  rewrite (zero_field_container (nine p s2) (take 6 (nine p s2)) TICKET_CHECKSUM (ticket_data (sg_ticket s)) (drop 7 (nine p s2)));
    [|reflexivity|by apply nine_ok|by repeat constructor|done|rewrite length_ticket_data by done; lia|rewrite length_ticket_data by done; lia].
  rewrite patch_cleared by done. cbn [rbind]. change (length (take 6 (nine p s2))) with 6%nat. rewrite zero_field_skip by done. cbn [rbind].
  set (bufs := <[6%nat := _]> (nine p s2)). assert (bufs_ok bufs) as Hok.
  { apply (bufs_ok_patch _ _ _ (ticket_data (sg_ticket s))); [done| |by apply nine_ok].
    unfold cleared_ticket. rewrite !length_app, length_to_le, length_drop, length_ticket_data, L3 by done. done. }
  rewrite (zero_field_container bufs (take 8 bufs) FULL_CHECKSUM (sig_data (sg_full s)) []);
    [|reflexivity|done|by repeat constructor|done|by rewrite length_sig_data|by rewrite length_sig_data].
  rewrite patch_sig_data by done. reflexivity.
Qed.
Lemma cleared_differs p v : length v = 12%nat -> container (cleared p v) <> container (nine p no_signatures).
Proof.
  intros Hv E. assert (@slice KdcError (container (nine p no_signatures)) (offset_of (nine p no_signatures) 6 + 4) (offset_of (nine p no_signatures) 6 + 4 + 1) = Ok [x0c]) as H1.
  { rewrite (slice_container _ 6 TICKET_CHECKSUM (ticket_data zeros)); [done|done|by vm_compute; lia]. }
  assert (@slice KdcError (container (cleared p v)) (offset_of (cleared p v) 6 + 4) (offset_of (cleared p v) 6 + 4 + 1) = Ok [x00]) as H2.
  { rewrite (slice_container _ 6 TICKET_CHECKSUM (cleared_ticket v)); [done|done|]. unfold cleared_ticket. rewrite !length_app, length_to_le. cbn. lia. }
  change (offset_of (cleared p v) 6) with (offset_of (nine p no_signatures) 6) in H2. rewrite E, H1 in H2. discriminate.
Qed.

(** C28: The validator and the KDC disagree on the ticket checksum: a PAC the
    KDC has built parses and its KDC checksum validates, but the message the
    validator recomputes the server checksum over is never the message the KDC
    signed; so validation fails, unless the MAC happens to give both messages the
    same tag. *)
Theorem validator_rejects_built (hmac_sha1 : bytes -> bytes -> bytes) (key : Aes256Key) (b : PacBuilder) :
  (forall k d, length (hmac_sha1 k d) = 20%nat) -> builder_ok b ->
  exists raw pac unsigned zeroed, build hmac_sha1 b key = Ok raw /\ validator_parse raw = Ok pac
    /\ validate_kdc_checksum hmac_sha1 pac key = Ok tt
    /\ build_unsigned b = Ok unsigned /\ zero_signature_fields raw (pac_buffers pac) = Ok zeroed /\ zeroed <> unsigned
    /\ (compute_hmac_sha1_96 hmac_sha1 key zeroed <> compute_hmac_sha1_96 hmac_sha1 key unsigned ->
        validate hmac_sha1 pac raw key key = Err (SignatureMismatch SERVER_CHECKSUM)).
Proof.
  intros Hmac Hb. destruct (build_Ok hmac_sha1 Hmac key b Hb) as (p & _ & Hsz & Hbu & Hbuild).
  pose proof (signatures_of_ok hmac_sha1 Hmac key p (pb_ticket_bytes b)) as Hs. set (s := signatures_of _ _ _ _) in *.
  exists (container (nine p s)), (pac_of (nine p s)), (container (nine p no_signatures)), (container (cleared p (sg_ticket s))).
  assert (checksum_field SERVER_CHECKSUM (server_checksum (pac_of (nine p s))) = Ok (sg_server s)) as Hsrv.
  { change (server_checksum (pac_of (nine p s))) with (Some (sig_data (sg_server s))). unfold checksum_field. cbn [ok_or rbind].
    rewrite length_sig_data by apply Hs. cbn [Nat.ltb Nat.leb Nat.add]. rewrite slice_Ok by (rewrite length_sig_data by apply Hs; lia).
    f_equal. apply (sig_of_data (sg_server s)), Hs. }
  assert (checksum_field PRIVSVR_CHECKSUM (privsvr_checksum (pac_of (nine p s))) = Ok (sg_privsvr s)) as Hprv.
  { change (privsvr_checksum (pac_of (nine p s))) with (Some (sig_data (sg_privsvr s))). unfold checksum_field. cbn [ok_or rbind].
    rewrite length_sig_data by apply Hs. cbn [Nat.ltb Nat.leb Nat.add]. rewrite slice_Ok by (rewrite length_sig_data by apply Hs; lia).
    f_equal. apply (sig_of_data (sg_privsvr s)), Hs. }
  assert (zero_signature_fields (container (nine p s)) (nine p s) = Ok (container (cleared p (sg_ticket s)))) as Hzero by (by apply zero_signature_nine).
  split_and!; [done|by apply validator_parse_container, nine_ok| |done|exact Hzero|apply cleared_differs, Hs|].
  - unfold validate_kdc_checksum. change (ok_or (server_checksum (pac_of (nine p s))) _) with (@Ok PacValidationError _ (sig_data (sg_server s))).
    change (ok_or (privsvr_checksum (pac_of (nine p s))) _) with (@Ok PacValidationError _ (sig_data (sg_privsvr s))).
    cbn [rbind]. rewrite Hsrv, Hprv. cbn [rbind]. by rewrite bool_decide_eq_true_2.
  - intros Hne. unfold validate, validate_service_checksum. rewrite Hsrv. cbn [rbind]. cbn [pac_of pac_buffers]. rewrite Hzero. cbn [rbind].
    rewrite bool_decide_eq_false_2; [done|]. exact Hne.
Qed.
Lemma validator_rejects_built_witness : exists raw pac unsigned zeroed,
  build fold_mac sample_builder [x01] = Ok raw /\ validator_parse raw = Ok pac
  /\ build_unsigned sample_builder = Ok unsigned /\ zero_signature_fields raw (pac_buffers pac) = Ok zeroed /\ zeroed <> unsigned.
Proof.
  destruct (validator_rejects_built fold_mac [x01] sample_builder) as (raw & pac & u & z & H1 & H2 & _ & H4 & H5 & H6 & _);
    [reflexivity|exact sample_builder_ok|]. exists raw, pac, u, z. auto 6.
Defined.

(** ** No panic on a parsed PAC

    Zeroing may overwrite the table itself, since a parsed entry may point
    anywhere into the bytes; but it only makes bytes smaller, so an offset that
    is read again stays at most the length. *)
Definition byte_le (a b : byte) : Prop := b2z a <= b2z b.
Lemma of_le_mono l l' : Forall2 byte_le l l' -> of_le l <= of_le l'.
Proof. unfold byte_le. induction 1; cbn [of_le]; lia. Qed.
Lemma of_le_take_mono n off l l' : Forall2 byte_le l l' -> of_le (take n (drop off l)) <= of_le (take n (drop off l')).
Proof. intros. by apply of_le_mono, Forall2_take, Forall2_drop. Qed.
Lemma byte_le_refl l : Forall2 byte_le l l.
Proof. induction l; constructor; unfold byte_le; [lia|done]. Qed.
Lemma byte_le_zeros n l l' : length l = n -> Forall2 byte_le l l' -> Forall2 byte_le (replicate n x00) l'.
Proof.
  intros <-. induction 1 as [|a b l l' _ _ IH]; cbn [length replicate]; constructor; [|done].
  unfold byte_le. change (b2z x00) with 0. apply b2z_range.
Qed.
Lemma byte_le_zeroed off n raw raw' : (off + n <= length raw)%nat -> Forall2 byte_le raw raw' ->
  Forall2 byte_le (take off raw ++ replicate n x00 ++ drop (off + n) raw) raw'.
Proof.
  intros Hlen H. rewrite <-(take_drop off raw'). apply Forall2_app; [by apply Forall2_take|]. apply (Forall2_drop _ _ _ off) in H.
  rewrite <-(take_drop n (drop off raw')). rewrite <-drop_drop. apply Forall2_app; [|by apply Forall2_drop].
  apply (byte_le_zeros _ (take n (drop off raw))); [|by apply Forall2_take]. rewrite length_take, length_drop. lia.
Qed.
Lemma validator_read_in n raw off : (off + n <= length raw)%nat -> validator_read_le n raw off = Ok (of_le (take n (drop off raw))).
Proof. intros. unfold validator_read_le. by rewrite (proj2 (Nat.ltb_ge _ _)). Qed.

(** Every table entry that is in bounds points into the first [bound] bytes. *)
Definition entries_below (raw : bytes) (bound left : Z) (off : nat) : Prop :=
  forall j, Z.of_nat j < left -> (off + j * 16 + 16 <= length raw)%nat -> of_le (take 8 (drop (off + j * 16 + 8) raw)) <= bound.
Lemma entries_below_tail raw bound left off : entries_below raw bound left off -> entries_below raw bound (left - 1) (off + 16).
Proof.
  intros H j Hj Hl. replace (off + 16 + j * 16 + 8)%nat with (off + S j * 16 + 8)%nat by lia. apply H; lia.
Qed.
Lemma entries_below_mono raw raw' bound left left' off : Forall2 byte_le raw' raw -> left' <= left ->
  entries_below raw bound left off -> entries_below raw' bound left' off.
Proof.
  intros Hle Hleft H j Hj Hl. rewrite (Forall2_length _ _ _ Hle) in Hl. etransitivity; [by apply of_le_take_mono|]. apply H; [lia|done].
Qed.
Lemma validator_buffers_below rounds raw i n off bufs : validator_buffers rounds raw i n off = Ok bufs ->
  entries_below raw (Z.of_nat (length raw)) (n - i) off.
Proof.
  revert i off bufs. induction rounds as [|rounds IH]; intros i off bufs; cbn [validator_buffers]; unfold PAC_BUFFER_HEADER_LEN;
    (destruct (Z.leb_spec n i); [intros _ j; lia|]); (destruct (Nat.ltb_spec (length raw) (off + 16)) as [|Hl]; [done|]); [done|].
  unfold validator_read_u32, validator_read_u64. rewrite !validator_read_in by lia. cbn [rbind]. set (bo := of_le (take 8 _)). set (bs := of_le (take 4 (drop (off + 4) raw))).
  destruct (negb _); [done|]. unfold uint_add. destruct (_ <? 2 ^ 64); cbn [rbind]; [|done].
  destruct (Z.ltb_spec (Z.of_nat (length raw)) (bo + bs)) as [|He]; [done|]. destruct (slice _ _ _); cbn [rbind]; [|done|done].
  destruct (validator_buffers _ _ _ _ _) eqn:E; cbn [rbind]; [|done|done]. intros _. apply IH in E. pose proof (of_le_range (take 4 (drop (off + 4) raw))) as Hb.
  fold bs in Hb. intros [|j] Hj Hlj.
  - rewrite Nat.add_0_r. fold bo. lia.
  - replace (off + S j * 16 + 8)%nat with (off + 16 + j * 16 + 8)%nat by lia. apply E; lia.
Qed.
Lemma search_offset_below rounds raw bound left off ty : entries_below raw bound left off -> (length raw < off + 16 + rounds * 16)%nat ->
  match search_offset rounds raw left off ty with Ok v => 0 <= v <= bound | Err _ => True | Panic => False end.
Proof.
  revert left off. induction rounds as [|rounds IH]; intros left off He Hr; cbn [search_offset]; unfold PAC_BUFFER_HEADER_LEN;
    (destruct (Z.leb_spec left 0); [done|]); (destruct (Nat.ltb_spec (length raw) (off + 16)) as [|Hl]; [done|]); [lia|].
  unfold validator_read_u32, validator_read_u64. rewrite !validator_read_in by lia. cbn [rbind]. destruct (_ =? ty).
  - specialize (He 0%nat). rewrite Nat.mul_0_l, Nat.add_0_r in He. split; [apply of_le_range|apply He; lia].
  - apply IH; [by apply entries_below_tail|lia].
Qed.

Section NoPanic.
Context (raw : bytes).
Definition zeroed_from (cur : bytes) : Prop := Forall2 byte_le cur raw.
Context (Hraw : entries_below raw (Z.of_nat (length raw)) (of_le (take 4 (drop 8 raw))) 16) (Hlen : Z.of_nat (length raw) < 2 ^ 32).

Lemma find_offset_zeroed cur ty : zeroed_from cur ->
  match find_buffer_offset cur ty with Ok v => 0 <= v <= Z.of_nat (length raw) | Err _ => True | Panic => False end.
Proof using Hraw.
  intros H. unfold find_buffer_offset. destruct (Nat.ltb_spec (length cur) PAC_HEADER_LEN) as [|Hl]; [done|]. unfold PAC_HEADER_LEN in *.
  unfold validator_read_u32. rewrite validator_read_in by lia. cbn [rbind]. apply search_offset_below; [|lia].
  apply (entries_below_mono raw _ _ (of_le (take 4 (drop 8 raw)))); [done|by apply of_le_take_mono|done].
Qed.
Lemma zero_field_zeroed cur buf : zeroed_from cur ->
  match zero_field cur buf with Ok cur' => zeroed_from cur' | Err _ => True | Panic => False end.
Proof using Hraw Hlen.
  intros H. unfold zero_field. destruct (_ && _); [|done]. pose proof (find_offset_zeroed cur (ul_type buf) H) as Hf.
  destruct (find_buffer_offset _ _) as [v|e|]; cbn [rbind]; [|done|done]. rewrite uint_add_Ok by lia. cbn [rbind].
  destruct (Z.leb_spec (v + 16) (Z.of_nat (length cur))) as [He|]; [|done]. unfold copy_into. rewrite length_replicate.
  rewrite (proj2 (Nat.leb_le _ _)) by lia. apply byte_le_zeroed; [lia|done].
Qed.
Lemma zero_fields_zeroed cur bufs : zeroed_from cur ->
  match zero_signature_fields cur bufs with Ok cur' => zeroed_from cur' | Err _ => True | Panic => False end.
Proof using Hraw Hlen.
  revert cur. induction bufs as [|b bufs IH]; intros cur H; cbn [zero_signature_fields]; [done|].
  pose proof (zero_field_zeroed cur b H) as Hz. destruct (zero_field cur b); cbn [rbind]; [by apply IH|done|done].
Qed.
End NoPanic.
Lemma checksum_field_total ty o : checksum_field ty o <> Panic.
Proof.
  unfold checksum_field. destruct o as [buf|]; cbn [ok_or rbind]; [|done]. destruct (Nat.ltb_spec (length buf) (4 + 12)); [done|].
  by rewrite slice_Ok by lia.
Qed.
Lemma validator_parse_inv raw pac : validator_parse raw = Ok pac ->
  entries_below raw (Z.of_nat (length raw)) (of_le (take 4 (drop 8 raw))) 16 /\ Z.of_nat (length raw) < 2 ^ 32.
Proof.
  unfold validator_parse. destruct (Nat.ltb_spec (length raw) PAC_HEADER_LEN) as [|Hl]; [done|]. unfold PAC_HEADER_LEN in *.
  unfold validator_read_u32. rewrite !validator_read_in by lia. cbn [rbind]. destruct (negb _); [done|]. destruct (Z.eqb_spec (of_le (take 4 (drop 4 raw))) (Z.of_nat (length raw))) as [Ht|]; cbn [negb]; [|done].
  destruct (negb _); [done|]. destruct (validator_buffers _ _ _ _ _) eqn:E; cbn [rbind]; [|done|done]. intros _.
  apply validator_buffers_below in E. rewrite Z.sub_0_r in E. split; [done|]. rewrite <-Ht. apply of_le_take.
Qed.

(** Whatever the bytes, the keys and the hash: the validator returns a
    verdict on every PAC its own parser has accepted.  No offset of the table
    overflows or leaves the bytes, even after zeroing has overwritten parts of
    the table. *)
Theorem validator_no_panic (hmac_sha1 : bytes -> bytes -> bytes) (raw : bytes) (pac : Pac) (service_key krbtgt_key : bytes) :
  validator_parse raw = Ok pac -> validate hmac_sha1 pac raw service_key krbtgt_key <> Panic.
Proof.
  intros [He Hl]%validator_parse_inv. unfold validate, validate_service_checksum.
  pose proof (checksum_field_total SERVER_CHECKSUM (server_checksum pac)) as Hs. pose proof (checksum_field_total PRIVSVR_CHECKSUM (privsvr_checksum pac)) as Hp.
  destruct (checksum_field SERVER_CHECKSUM _) as [sg|e|] eqn:Es; cbn [rbind]; [|done|done].
  pose proof (zero_fields_zeroed raw He Hl raw (pac_buffers pac) (byte_le_refl raw)) as Hz.
  destruct (zero_signature_fields _ _) as [cur|e|]; cbn [rbind]; [|done|done]. destruct (negb _); cbn [rbind]; [done|].
  unfold validate_kdc_checksum. rewrite Es. destruct (server_checksum pac); cbn [ok_or rbind]; [|done]. destruct (privsvr_checksum pac); cbn [ok_or rbind]; [|done].
  destruct (checksum_field PRIVSVR_CHECKSUM _); cbn [rbind]; [|done|done]. destruct (negb _); cbn [rbind]; [done|].
  destruct (ticket_checksum pac) as [t|]; [|done]. destruct (Nat.leb_spec (4 + 12) (length t)); [|done].
  rewrite slice_Ok by lia. cbn [rbind]. by destruct (forallb _ _).
Qed.
Lemma validator_no_panic_witness : exists raw pac, validator_parse raw = Ok pac /\ validate fold_mac pac raw [x01] [x01] <> Panic.
Proof.
  set (raw := to_le 4 PAC_HEADER_TYPE ++ to_le 4 48 ++ to_le 4 1 ++ to_le 4 PAC_HEADER_VERSION
    ++ to_le 4 SERVER_CHECKSUM ++ to_le 4 16 ++ to_le 8 16 ++ replicate 16 x01).
  exists raw, (match validator_parse raw with Ok pac => pac | _ => mkPac 0 0 [] end). split; [reflexivity|].
  apply (validator_no_panic fold_mac raw). reflexivity.
Defined.
