(* ===== verification/Ntlm.v ===== *)
(** * Ntlm: the NTLM client ([adrian-ntlm-client])

    The three messages of MS-NLMP, the NTLMv2 and LMv2 responses and the client.
    MD4, MD5, HMAC-MD5 and Unicode uppercasing are parameters, the clock is an
    argument. *)
From S2P Require Import Prelude Bytes Text Utf16.

Inductive NtlmProblem :=
| NtlmOutOfBounds (width offset : Z)
| ChallengeTooShort
| NoSignature
| NotAChallenge (msg_type : Z)
| ServerChallengeOutOfBounds
| TargetNameOverflow
| TargetNameOutOfBounds
| TargetInfoOverflow
| TargetInfoOutOfBounds.
Inductive NtlmError :=
| NtlmProtocol (text : bytes)
| NtlmAuthFailed (text : bytes)
| ChannelBindingRequired
| CredentialsUnavailable
| NtlmMalformed (p : NtlmProblem).

Inductive NtlmMessageType := NtlmNegotiate | NtlmChallenge | NtlmAuthenticate.
Definition message_type_u32 (t : NtlmMessageType) : Z := match t with NtlmNegotiate => 1 | NtlmChallenge => 2 | NtlmAuthenticate => 3 end.
Definition NTLMSSP_SIGNATURE : bytes := lit "NTLMSSP" ++ [x00].

Definition NEGOTIATE_UNICODE : Z := 0x00000001.
Definition REQUEST_TARGET : Z := 0x00000004.
Definition NEGOTIATE_SIGN : Z := 0x00000010.
Definition NEGOTIATE_SEAL : Z := 0x00000020.
Definition NEGOTIATE_NTLM : Z := 0x00000200.
Definition NEGOTIATE_ALWAYS_SIGN : Z := 0x00008000.
Definition NEGOTIATE_EXTENDED_SESSIONSECURITY : Z := 0x00080000.
Definition REQUEST_TARGET_INFO : Z := 0x00400000.
Definition NEGOTIATE_VERSION : Z := 0x02000000.
Definition NEGOTIATE_128 : Z := 0x20000000.
Definition NEGOTIATE_KEY_EXCH : Z := 0x40000000.
Definition NEGOTIATE_56 : Z := 0x80000000.
Definition NTLM_EPHEMERAL : Z := 0x00000040.
Inductive AvId :=
| AvEol | AvNbComputerName | AvNbDomainName | AvDnsComputerName | AvDnsDomainName | AvDnsTreeName | AvFlags | AvTimestamp | AvSingleHost
| AvTargetName | AvChannelBindings.
Definition av_id_u16 (a : AvId) : Z :=
  match a with
  | AvEol => 0 | AvNbComputerName => 1 | AvNbDomainName => 2 | AvDnsComputerName => 3 | AvDnsDomainName => 4 | AvDnsTreeName => 5 | AvFlags => 6
  | AvTimestamp => 7 | AvSingleHost => 8 | AvTargetName => 9 | AvChannelBindings => 10
  end.

Record ChallengeMessage := mkChallengeMessage {
  cm_server_challenge : bytes;
  cm_negotiate_flags : Z;
  cm_target_name : option bytes;
  cm_target_info : bytes;
}.

(** ** Bytes *)

(** [get(i..j)]: [None] if the range is inverted or ends past the slice. *)
Definition get_range (b : bytes) (i j : Z) : option bytes :=
  if (i <=? j) && (j <=? Z.of_nat (length b)) then Some (take (Z.to_nat (j - i)) (drop (Z.to_nat i) b)) else None.
Definition ntlm_read_le (n : Z) (b : bytes) (offset : Z) : Result NtlmError Z :=
  let? s := ok_or (get_range b offset (offset + n)) (NtlmMalformed (NtlmOutOfBounds n offset)) in Ok (of_le s).
Definition ntlm_read_u16 : bytes -> Z -> Result NtlmError Z := ntlm_read_le 2.
Definition ntlm_read_u32 : bytes -> Z -> Result NtlmError Z := ntlm_read_le 4.
Definition utf16_le (s : bytes) : bytes := units_le (encode_utf16 s).
Definition from_utf16_le (b : bytes) : option bytes :=
  if negb (length b mod 2 =? 0)%nat then None else from_utf16 (le_units b).

(** ** Responses *)

Definition ends_with_eol (target_info : bytes) : bool :=
  if (length target_info <? 4)%nat then false else bool_decide (drop (length target_info - 4) target_info = [x00; x00; x00; x00]).
Definition av_eol : bytes := to_le 2 (av_id_u16 AvEol) ++ to_le 2 0.
Definition build_ntlmv2_blob (timestamp : Z) (client_challenge target_info : bytes) : bytes :=
  to_le 4 1 ++ to_le 4 1 ++ replicate 6 x00 ++ to_le 8 timestamp ++ client_challenge ++ to_le 4 0 ++ target_info
  ++ (if negb (ends_with_eol target_info) then av_eol else []).
(** [current_filetime], of a time since the epoch as seconds and nanoseconds. *)
Definition current_filetime {E} (secs nanos : Z) : Result E Z :=
  let? filetime_seconds := uint_add 64 secs 11644473600 in
  let? ticks := uint_mul 64 filetime_seconds 10000000 in
  uint_add 64 ticks (nanos / 100).

Definition default_negotiate_flags : Z :=
  foldr Z.lor 0 [NEGOTIATE_UNICODE; REQUEST_TARGET; NEGOTIATE_SIGN; NEGOTIATE_SEAL; NEGOTIATE_NTLM; NEGOTIATE_ALWAYS_SIGN;
                 NEGOTIATE_EXTENDED_SESSIONSECURITY; REQUEST_TARGET_INFO; NEGOTIATE_VERSION; NEGOTIATE_128; NEGOTIATE_KEY_EXCH; NEGOTIATE_56].
(** Length, maximal length and offset of a payload; the casts cut them. *)
Definition field_tuple (payload : bytes) (offset : Z) : bytes :=
  to_le 2 (Z.of_nat (length payload)) ++ to_le 2 (Z.of_nat (length payload)) ++ to_le 4 offset.
Definition ntlm_version : bytes := [x06; x01; xb1; x1d; x00; x00; x00; x0f].
Definition build_negotiate (domain workstation : bytes) : bytes :=
  let domain_u16 := utf16_le domain in let ws_u16 := utf16_le workstation in
  let header_len := 40 in let workstation_offset := header_len + Z.of_nat (length domain_u16) in
  NTLMSSP_SIGNATURE ++ to_le 4 (message_type_u32 NtlmNegotiate) ++ to_le 4 default_negotiate_flags
  ++ field_tuple domain_u16 header_len ++ field_tuple ws_u16 workstation_offset ++ ntlm_version ++ domain_u16 ++ ws_u16.

(** A payload named by length and offset; a zero length names nothing. *)
Definition challenge_field (b : bytes) (len offset : Z) (overflow outside : NtlmProblem) : Result NtlmError (option bytes) :=
  if 0 <? len then
    let? e := ok_or (uint_checked_add 64 offset len) (NtlmMalformed overflow) in
    let? s := ok_or (get_range b offset e) (NtlmMalformed outside) in Ok (Some s)
  else Ok None.
Definition parse_challenge (b : bytes) : Result NtlmError ChallengeMessage :=
  if (length b <? 32)%nat then Err (NtlmMalformed ChallengeTooShort)
  else
    let? signature := slice b 0 8 in
    if negb (bool_decide (signature = NTLMSSP_SIGNATURE)) then Err (NtlmMalformed NoSignature)
    else
      let? msg_type := ntlm_read_u32 b 8 in
      if negb (msg_type =? message_type_u32 NtlmChallenge) then Err (NtlmMalformed (NotAChallenge msg_type))
      else
        let? target_name_len := ntlm_read_u16 b 12 in
        let? target_name_offset := ntlm_read_u32 b 16 in
        let? flags := ntlm_read_u32 b 20 in
        let? server_challenge := ok_or (get_range b 24 32) (NtlmMalformed ServerChallengeOutOfBounds) in
        let? (target_info_len, target_info_offset) :=
          (if (48 <=? length b)%nat then let? l := ntlm_read_u16 b 40 in let? o := ntlm_read_u32 b 44 in Ok (l, o) else Ok (0, 0)) in
        let? name := challenge_field b target_name_len target_name_offset TargetNameOverflow TargetNameOutOfBounds in
        let? info := challenge_field b target_info_len target_info_offset TargetInfoOverflow TargetInfoOutOfBounds in
        Ok (mkChallengeMessage server_challenge flags (name ≫= from_utf16_le) (default [] info)).

Section Client.
Context (md4 md5 : bytes -> bytes) (hmac_md5 : bytes -> bytes -> bytes) (to_uppercase : bytes -> bytes).

Definition ntowfv1 (password : bytes) : bytes := md4 (utf16_le password).
Definition ntowfv2 (nt_hash user domain : bytes) : bytes := hmac_md5 nt_hash (utf16_le (to_uppercase user) ++ utf16_le domain).
Definition compute_ntlmv2_response (nt_hash server_challenge target_info : bytes) (timestamp : Z) (client_challenge : bytes) : bytes :=
  let blob := build_ntlmv2_blob timestamp client_challenge target_info in
  hmac_md5 nt_hash (server_challenge ++ blob) ++ blob.
Definition compute_lmv2_response (ntowfv2 server_challenge client_challenge : bytes) : bytes :=
  hmac_md5 ntowfv2 (server_challenge ++ client_challenge) ++ client_challenge.
Definition compute_channel_binding (tls_server_cert_hash : bytes) : bytes :=
  let app_data := lit "tls-server-end-point:" ++ tls_server_cert_hash in
  md5 (to_le 4 0xFFFFFFFF ++ to_le 4 0 ++ to_le 4 0xFFFFFFFF ++ to_le 4 0 ++ to_le 4 (Z.of_nat (length app_data)) ++ app_data).

(** The TargetInfo of the response: the terminator is taken off, the channel
    binding added, the terminator put back. *)
Definition blob_target_info (target_info : bytes) (channel_binding : option bytes) : Result NtlmError bytes :=
  let info := if ends_with_eol target_info then take (length target_info - 4) target_info else target_info in
  let? info := match channel_binding with
               | Some cb => if negb (length cb =? 16)%nat then Err ChannelBindingRequired
                            else Ok (info ++ to_le 2 (av_id_u16 AvChannelBindings) ++ to_le 2 16 ++ cb)
               | None => Ok info
               end in
  Ok (info ++ av_eol).
Definition build_authenticate_with_options (secs nanos : Z) (challenge : ChallengeMessage) (username password domain workstation : bytes)
    (channel_binding client_challenge : option bytes) : Result NtlmError bytes :=
  let cc := default (replicate 8 x00) client_challenge in
  let? info := blob_target_info (cm_target_info challenge) channel_binding in
  let? timestamp := current_filetime secs nanos in
  let ntowf := ntowfv2 (ntowfv1 password) username domain in
  let nt_response := compute_ntlmv2_response ntowf (cm_server_challenge challenge) info timestamp cc in
  let lm_response := compute_lmv2_response ntowf (cm_server_challenge challenge) cc in
  let domain_u16 := utf16_le domain in let user_u16 := utf16_le username in let ws_u16 := utf16_le workstation in
  let enc_session_key : bytes := [] in
  let flags := Z.lor (cm_negotiate_flags challenge) (Z.lor (Z.lor NEGOTIATE_UNICODE NEGOTIATE_NTLM) NEGOTIATE_EXTENDED_SESSIONSECURITY) in
  let flags := match channel_binding with Some _ => Z.lor flags NTLM_EPHEMERAL | None => flags end in
  let lm_offset := 64 in
  let nt_offset := lm_offset + Z.of_nat (length lm_response) in
  let dom_offset := nt_offset + Z.of_nat (length nt_response) in
  let user_offset := dom_offset + Z.of_nat (length domain_u16) in
  let ws_offset := user_offset + Z.of_nat (length user_u16) in
  let esk_offset := ws_offset + Z.of_nat (length ws_u16) in
  Ok (NTLMSSP_SIGNATURE ++ to_le 4 (message_type_u32 NtlmAuthenticate)
      ++ field_tuple lm_response lm_offset ++ field_tuple nt_response nt_offset ++ field_tuple domain_u16 dom_offset
      ++ field_tuple user_u16 user_offset ++ field_tuple ws_u16 ws_offset ++ field_tuple enc_session_key esk_offset ++ to_le 4 flags
      ++ lm_response ++ nt_response ++ domain_u16 ++ user_u16 ++ ws_u16 ++ enc_session_key).
Definition build_authenticate (secs nanos : Z) (challenge : ChallengeMessage) (username password domain workstation : bytes) : Result NtlmError bytes :=
  build_authenticate_with_options secs nanos challenge username password domain workstation None None.

(** ** The client *)

Record NtlmClient := mkNtlmClient {
  nc_domain : bytes;
  nc_workstation : bytes;
  nc_username : option bytes;
  nc_password : option bytes;
}.
Definition NtlmClient_new : NtlmClient := mkNtlmClient [] [] None None.
Definition with_workstation (domain workstation : bytes) : NtlmClient := mkNtlmClient domain workstation None None.
Definition set_credentials (c : NtlmClient) (username password : bytes) : NtlmClient :=
  mkNtlmClient (nc_domain c) (nc_workstation c) (Some username) (Some password).
Definition client_build_negotiate (c : NtlmClient) : Result NtlmError bytes := Ok (build_negotiate (nc_domain c) (nc_workstation c)).
Definition client_build_authenticate (secs nanos : Z) (c : NtlmClient) (challenge : bytes) (channel_binding : option bytes) : Result NtlmError bytes :=
  let? username := ok_or (nc_username c) CredentialsUnavailable in
  let? password := ok_or (nc_password c) CredentialsUnavailable in
  let? parsed := parse_challenge challenge in
  build_authenticate_with_options secs nanos parsed username password (nc_domain c) (nc_workstation c) channel_binding None.
End Client.
