(* ===== verification/NtlmSpec.v ===== *)
(** * NtlmSpec: the NTLM client against a server that checks it

    A server is specified here from MS-NLMP: it issues a challenge, reads the fields
    of the answer by their tuples, recomputes the proof from the password it knows
    and reads the client's blob at the offsets of 2.2.2.7. *)
From S2P Require Import Prelude Bytes Text Utf16 Ntlm.

(** ** Reading by offset *)

Lemma get_range_app a b c i j : i = Z.of_nat (length a) -> j = i + Z.of_nat (length b) -> get_range (a ++ b ++ c) i j = Some b.
Proof.
  intros -> ->. unfold get_range. rewrite !length_app, (proj2 (Z.leb_le _ _)), (proj2 (Z.leb_le _ _)) by lia. cbn [andb].
  f_equal. apply (sub_app a b c); [done| |]; lia.
Qed.
Lemma get_range_in b i j s : 0 <= i -> get_range b i j = Some s -> exists pre post, b = pre ++ s ++ post /\ Z.of_nat (length s) = j - i.
Proof.
  unfold get_range. destruct (Z.leb_spec i j); [|done]. destruct (Z.leb_spec j (Z.of_nat (length b))); [|done]. cbn [andb]. intros Hi [= <-].
  exists (take (Z.to_nat i) b), (drop (Z.to_nat (j - i)) (drop (Z.to_nat i) b)). split; [by rewrite !take_drop|]. rewrite length_take, length_drop. lia.
Qed.
Lemma get_range_some b i j : 0 <= i <= j -> j <= Z.of_nat (length b) -> exists s, get_range b i j = Some s /\ Z.of_nat (length s) = j - i.
Proof.
  intros H H'. unfold get_range. rewrite (proj2 (Z.leb_le _ _)), (proj2 (Z.leb_le _ _)) by lia. cbn [andb]. eexists. split; [done|]. rewrite length_take, length_drop. lia.
Qed.
Lemma read_le_app n a z c i : 0 <= z < 256 ^ Z.of_nat n -> i = Z.of_nat (length a) -> ntlm_read_le (Z.of_nat n) (a ++ to_le n z ++ c) i = Ok z.
Proof.
  intros Hz ->. unfold ntlm_read_le. rewrite (get_range_app a (to_le n z) c) by (rewrite ?length_to_le; lia). cbn [ok_or rbind]. by rewrite of_to_le_id.
Qed.
Lemma read_le_some n b i : 0 <= i -> 0 <= n -> i + n <= Z.of_nat (length b) -> exists z, ntlm_read_le n b i = Ok z /\ 0 <= z < 256 ^ n.
Proof.
  intros Hi Hn Hl. unfold ntlm_read_le. destruct (get_range_some b i (i + n)) as (s & -> & Hs); [lia..|]. cbn [ok_or rbind]. eexists. split; [done|].
  pose proof (of_le_range s) as H. by replace (Z.of_nat (length s)) with n in H by lia.
Qed.
Lemma length_utf16_even s : (length (utf16_le s) mod 2 = 0)%nat.
Proof. unfold utf16_le. rewrite length_units_le, Nat.mul_comm. by apply Nat.Div0.mod_mul. Qed.
Lemma from_utf16_le_id s : utf8_valid s = true -> from_utf16_le (utf16_le s) = Some s.
Proof.
  intros Hs. unfold from_utf16_le. rewrite length_utf16_even. cbn [Nat.eqb negb]. unfold utf16_le. rewrite le_units_units_le by (by apply encode_utf16_units).
  by apply from_encode_utf16.
Qed.

(** ** The server *)

Definition av_pair (p : Z * bytes) : bytes := to_le 2 p.1 ++ to_le 2 (Z.of_nat (length p.2)) ++ p.2.
Definition av_list (pairs : list (Z * bytes)) : bytes := concat (map av_pair pairs) ++ av_eol.
Definition av_ok (p : Z * bytes) : Prop := 0 < p.1 < 65536 /\ Z.of_nat (length p.2) < 65536.
(** The pairs before the terminator. *)
Fixpoint read_av (rounds : nat) (b : bytes) : option (list (Z * bytes)) :=
  match rounds with
  | O => None
  | S rounds =>
      if (length b <? 4)%nat then None
      else
        let id := of_le (take 2 b) in let len := Z.to_nat (of_le (take 2 (drop 2 b))) in
        if id =? 0 then Some []
        else if (length b <? 4 + len)%nat then None
        else cons (id, take len (drop 4 b)) <$> read_av rounds (drop (4 + len) b)
  end.
Definition challenge_bytes (server_challenge : bytes) (flags : Z) (target_name : bytes) (pairs : list (Z * bytes)) (version : bytes) : bytes :=
  let name := utf16_le target_name in let offset := 48 + Z.of_nat (length version) in
  NTLMSSP_SIGNATURE ++ to_le 4 (message_type_u32 NtlmChallenge) ++ field_tuple name offset ++ to_le 4 flags ++ server_challenge ++ replicate 8 x00
  ++ field_tuple (av_list pairs) (offset + Z.of_nat (length name)) ++ version ++ name ++ av_list pairs.
(** The payload whose tuple is at [at]. *)
Definition response_field (msg : bytes) (at_ : Z) : option bytes :=
  match ntlm_read_u16 msg at_, ntlm_read_u32 msg (at_ + 4) with
  | Ok len, Ok offset => get_range msg offset (offset + len)
  | _, _ => None
  end.
Record Identity := mkIdentity { id_user : bytes; id_domain : bytes; id_workstation : bytes }.
Definition identity_of (msg : bytes) : option Identity :=
  match response_field msg 28 ≫= from_utf16_le, response_field msg 36 ≫= from_utf16_le, response_field msg 44 ≫= from_utf16_le with
  | Some d, Some u, Some w => Some (mkIdentity u d w)
  | _, _, _ => None
  end.
(** The identity and the client's blob of an answer whose proof verifies: the keyed
    hash of the server's challenge and the blob (the [temp] of 3.3.2), under the key
    made of the password, the user in upper case and the domain. *)
Definition server_checks (md4 : bytes -> bytes) (hmac_md5 : bytes -> bytes -> bytes) (to_uppercase : bytes -> bytes) (password : bytes -> bytes -> option bytes)
    (server_challenge msg : bytes) : option (Identity * bytes) :=
  match identity_of msg, response_field msg 20 with
  | Some who, Some nt =>
      match password (id_user who) (id_domain who) with
      | Some pw =>
          let key := hmac_md5 (md4 (utf16_le pw)) (utf16_le (to_uppercase (id_user who)) ++ utf16_le (id_domain who)) in
          let blob := drop 16 nt in
          if bool_decide (take 16 nt = hmac_md5 key (server_challenge ++ blob)) then Some (who, blob) else None
      | None => None
      end
  | _, _ => None
  end.
(** The blob as 2.2.2.7 lays it out: two single bytes, six reserved ones, the time,
    the client's challenge, four reserved bytes and, at 28, the attributes. *)
Record ClientChallenge := mkClientChallenge {
  resp_type : Z;
  hi_resp_type : Z;
  cc_timestamp : Z;
  cc_challenge : bytes;
  cc_attributes : option (list (Z * bytes));
}.
Definition read_client_challenge (blob : bytes) : ClientChallenge :=
  mkClientChallenge (of_le (take 1 blob)) (of_le (take 1 (drop 1 blob))) (of_le (take 8 (drop 8 blob))) (take 8 (drop 16 blob)) (read_av (length blob) (drop 28 blob)).
(** Where the client puts its attributes. *)
Definition BLOB_HEADER_LEN : nat := 34.

(** ** Lemmas *)

Lemma length_tuple p o : length (field_tuple p o) = 8%nat.
Proof. unfold field_tuple. by rewrite !length_app, !length_to_le. Qed.
Lemma eol_zeros : av_eol = [x00; x00; x00; x00].
Proof. reflexivity. Qed.
Lemma ends_with_eol_app x : ends_with_eol (x ++ av_eol) = true.
Proof.
  unfold ends_with_eol. rewrite length_app, eol_zeros. cbn [length]. rewrite (proj2 (Nat.ltb_ge _ _)) by lia.
  rewrite Nat.add_sub, drop_app_length. by apply bool_decide_eq_true.
Qed.
Lemma without_eol x : take (length (x ++ av_eol) - 4) (x ++ av_eol) = x.
Proof. rewrite length_app, eol_zeros. cbn [length]. by rewrite Nat.add_sub, take_app_length. Qed.
Lemma blob_target_info_list pairs cb : match cb with Some c => length c = 16%nat | None => True end ->
  blob_target_info (av_list pairs) cb = Ok (av_list (pairs ++ match cb with Some c => [(av_id_u16 AvChannelBindings, c)] | None => [] end)).
Proof.
  intros Hcb. unfold blob_target_info, av_list. rewrite ends_with_eol_app, without_eol. destruct cb as [c|]; cbn [rbind].
  - rewrite Hcb. cbn [Nat.eqb negb rbind]. f_equal. rewrite map_app, concat_app, <-!app_assoc. f_equal. unfold av_pair. cbn [map concat fst snd]. rewrite Hcb, <-!app_assoc. reflexivity.
  - by rewrite app_nil_r.
Qed.
Lemma blob_list timestamp cc pairs : length cc = 8%nat ->
  length (build_ntlmv2_blob timestamp cc (av_list pairs)) = (BLOB_HEADER_LEN + length (av_list pairs))%nat
  /\ drop BLOB_HEADER_LEN (build_ntlmv2_blob timestamp cc (av_list pairs)) = av_list pairs.
Proof.
  intros Hc. assert (ends_with_eol (av_list pairs) = true) as He by apply ends_with_eol_app. unfold build_ntlmv2_blob. rewrite He. cbn [negb]. rewrite app_nil_r. split.
  - rewrite !length_app, !length_to_le, Hc. cbn [length replicate]. unfold BLOB_HEADER_LEN. lia.
  - rewrite !app_assoc. apply (drop_app_end _ _ _ _ eq_refl). rewrite !length_app, !length_to_le, Hc. reflexivity.
Qed.
Lemma blob_documented timestamp pairs :
  read_client_challenge (build_ntlmv2_blob timestamp (replicate 8 x00) (av_list pairs))
  = mkClientChallenge 1 0 (of_le (replicate 6 x00 ++ take 2 (to_le 8 timestamp))) (drop 2 (to_le 8 timestamp) ++ [x00; x00]) (Some []).
Proof.
  unfold build_ntlmv2_blob. set (tail := av_list pairs ++ _). clearbody tail. pose proof (length_to_le 8 timestamp) as Ht. set (ts := to_le 8 timestamp) in *. clearbody ts.
  do 8 (destruct ts as [|? ts]; [discriminate Ht|]). destruct ts; [|discriminate Ht]. reflexivity.
Qed.
Lemma read_av_list pairs rounds : Forall av_ok pairs -> (length pairs < rounds)%nat -> read_av rounds (av_list pairs) = Some pairs.
Proof.
  intros H. revert rounds. induction H as [|[id v] pairs [Hid Hv] _ IH]; intros [|rounds] Hr; cbn [length] in Hr; try lia; [reflexivity|].
  cbn [fst snd] in *. unfold av_list. cbn [map concat]. unfold av_pair at 1. cbn [fst snd]. fold (av_pair). rewrite <-!app_assoc.
  change (concat (map av_pair pairs) ++ av_eol) with (av_list pairs). set (rest := av_list pairs). cbn [read_av].
  rewrite !length_app, !length_to_le, (proj2 (Nat.ltb_ge _ 4)) by lia.
  rewrite (take_app_length' (to_le 2 id)), (drop_app_length' (to_le 2 id)) by (by rewrite length_to_le).
  rewrite (take_app_length' (to_le 2 (Z.of_nat (length v)))) by (by rewrite length_to_le). rewrite !of_to_le_id by (cbn; lia). rewrite Nat2Z.id.
  rewrite (proj2 (Z.eqb_neq _ _)) by lia. rewrite (proj2 (Nat.ltb_ge _ _)) by lia.
  assert (drop 4 (to_le 2 id ++ to_le 2 (Z.of_nat (length v)) ++ v ++ rest) = v ++ rest) as Hd by (rewrite app_assoc; apply (drop_app_end _ _ _ _ eq_refl); by rewrite length_app, !length_to_le).
  rewrite <-drop_drop, Hd, take_app_length, drop_app_length. rewrite IH by lia. reflexivity.
Qed.
Lemma av_list_rounds pairs : (length pairs <= length (av_list pairs))%nat.
Proof.
  unfold av_list. rewrite length_app. induction pairs as [|p pairs IH]; [cbn; lia|].
  cbn [map concat length] in *. rewrite length_app. unfold av_pair at 1. rewrite !length_app, !length_to_le. lia.
Qed.
Lemma read_le_at w b a z c i : b = a ++ to_le (Z.to_nat w) z ++ c -> 0 <= w -> 0 <= z < 256 ^ w -> i = Z.of_nat (length a) -> ntlm_read_le w b i = Ok z.
Proof. intros -> Hw Hz. rewrite <-(Z2Nat.id w) at 1 by done. apply read_le_app. by rewrite Z2Nat.id. Qed.
Lemma get_range_at b a s c i j : b = a ++ s ++ c -> i = Z.of_nat (length a) -> j = i + Z.of_nat (length s) -> get_range b i j = Some s.
Proof. intros ->. apply get_range_app. Qed.
(** A payload is found through its tuple. *)
Lemma response_field_at msg pre p off mid post i : msg = pre ++ field_tuple p off ++ mid ++ p ++ post -> i = Z.of_nat (length pre) ->
  off = Z.of_nat (length pre + 8 + length mid) -> off < 2 ^ 32 -> Z.of_nat (length p) < 65536 -> response_field msg i = Some p.
Proof.
  intros -> -> -> Ho Hp. unfold response_field, ntlm_read_u16, ntlm_read_u32.
  rewrite (read_le_at 2 _ pre (Z.of_nat (length p)) _ _) by first [unfold field_tuple; rewrite <-!app_assoc; reflexivity | cbn; lia].
  rewrite (read_le_at 4 _ (pre ++ to_le 2 (Z.of_nat (length p)) ++ to_le 2 (Z.of_nat (length p))) (Z.of_nat (length pre + 8 + length mid)) (mid ++ p ++ post))
    by first [unfold field_tuple; rewrite <-!app_assoc; reflexivity | rewrite ?length_app, ?length_to_le; cbn -[Z.of_nat]; lia].
  apply (get_range_at _ (pre ++ field_tuple p (Z.of_nat (length pre + 8 + length mid)) ++ mid) p post); [by rewrite <-!app_assoc| |lia].
  rewrite !length_app, length_tuple. lia.
Qed.

Record challenge_ok (server_challenge : bytes) (flags : Z) (target_name : bytes) (pairs : list (Z * bytes)) (version : bytes) : Prop := {
  co_challenge : length server_challenge = 8%nat;
  co_flags : is_u32 flags;
  co_name : utf8_valid target_name = true;
  co_name_len : Z.of_nat (length (utf16_le target_name)) < 65536;
  co_pairs : Forall av_ok pairs;
  co_info : Z.of_nat (length (av_list pairs)) < 65536;
  co_version : Z.of_nat (length version) < 65536;
}.
Ltac piece := first [unfold field_tuple; rewrite <-!app_assoc; reflexivity | rewrite ?length_app, ?length_tuple, ?length_to_le; cbn -[Z.of_nat]; lia].
Lemma utf16_le_nil s : utf8_valid s = true -> utf16_le s = [] -> s = [].
Proof. intros Hs H. pose proof (from_utf16_le_id s Hs) as E. rewrite H in E. by injection E. Qed.
Lemma challenge_field_at b a s c len off e1 e2 : b = a ++ s ++ c -> off = Z.of_nat (length a) -> len = Z.of_nat (length s) -> off + len < 2 ^ 64 ->
  challenge_field b len off e1 e2 = Ok (if decide (s = []) then None else Some s).
Proof.
  intros -> -> -> Ho. unfold challenge_field. destruct s as [|x s]; [reflexivity|]. rewrite decide_False by done. rewrite (proj2 (Z.ltb_lt _ _)) by (cbn [length]; lia).
  unfold uint_checked_add. rewrite (proj2 (Z.ltb_lt _ _)) by done. cbn [ok_or rbind]. rewrite (get_range_at _ a (x :: s) c) by done. reflexivity.
Qed.
Lemma parse_challenge_bytes sc flags name pairs version : challenge_ok sc flags name pairs version ->
  parse_challenge (challenge_bytes sc flags name pairs version)
  = Ok (mkChallengeMessage sc flags (if decide (name = []) then None else Some name) (av_list pairs)).
Proof.
  intros [Hsc Hf Hn Hnl _ Hi Hv]. unfold challenge_bytes. set (nm := utf16_le name) in *. set (info := av_list pairs) in *. set (off := 48 + Z.of_nat (length version)).
  set (ty := to_le 4 (message_type_u32 NtlmChallenge)). assert (length ty = 4%nat) as Lty by apply length_to_le. unfold is_uint in Hf.
  set (b := NTLMSSP_SIGNATURE ++ _). assert (length b = 48 + length version + length nm + length info)%nat as Hb.
  { unfold b. rewrite !length_app, !length_tuple, length_to_le, length_replicate, Lty, Hsc. cbn [length NTLMSSP_SIGNATURE]. unfold NTLMSSP_SIGNATURE. cbn [length app]. cbn. lia. }
  unfold parse_challenge. rewrite Hb, (proj2 (Nat.ltb_ge _ 32)) by lia. rewrite slice_Ok by lia. cbn [rbind].
  rewrite bool_decide_eq_true_2 by reflexivity. cbn [negb]. unfold ntlm_read_u16, ntlm_read_u32.
  set (sg := NTLMSSP_SIGNATURE) in *. assert (length sg = 8%nat) as Lsg by reflexivity. set (tn := field_tuple nm off) in *. assert (length tn = 8%nat) as Ltn by apply length_tuple.
  set (ti := field_tuple info (off + Z.of_nat (length nm))) in *. assert (length ti = 8%nat) as Lti by apply length_tuple.
  set (fl := to_le 4 flags) in *. assert (length fl = 4%nat) as Lfl by apply length_to_le. set (zs := replicate 8 x00) in *. assert (length zs = 8%nat) as Lzs by reflexivity.
  pose (t1 := sc ++ zs ++ ti ++ version ++ nm ++ info). pose (t2 := version ++ nm ++ info).
  rewrite (read_le_at 4 b sg 2 (tn ++ fl ++ t1) 8); [|reflexivity|lia|lia|lia]. cbn [rbind]. rewrite Z.eqb_refl. cbn [negb].
  rewrite (read_le_at 2 b (sg ++ ty) (Z.of_nat (length nm)) (to_le 2 (Z.of_nat (length nm)) ++ to_le 4 off ++ fl ++ t1));
    [|unfold b, tn, field_tuple; rewrite <-!app_assoc; reflexivity|lia|cbn; lia|rewrite length_app; lia]. cbn [rbind].
  rewrite (read_le_at 4 b (sg ++ ty ++ to_le 2 (Z.of_nat (length nm)) ++ to_le 2 (Z.of_nat (length nm))) off (fl ++ t1));
    [|unfold b, tn, field_tuple; rewrite <-!app_assoc; reflexivity|lia|unfold off; cbn; lia|rewrite !length_app, !length_to_le; lia]. cbn [rbind].
  rewrite (read_le_at 4 b (sg ++ ty ++ tn) flags t1); [|unfold b; rewrite <-!app_assoc; reflexivity|lia|cbn; lia|rewrite !length_app; lia]. cbn [rbind].
  rewrite (get_range_at b (sg ++ ty ++ tn ++ fl) sc (zs ++ ti ++ t2)); [|unfold b; rewrite <-!app_assoc; reflexivity|rewrite !length_app; lia|lia]. cbn [ok_or rbind].
  rewrite (proj2 (Nat.leb_le 48 _)) by lia.
  rewrite (read_le_at 2 b (sg ++ ty ++ tn ++ fl ++ sc ++ zs) (Z.of_nat (length info)) (to_le 2 (Z.of_nat (length info)) ++ to_le 4 (off + Z.of_nat (length nm)) ++ t2));
    [|unfold b, ti, field_tuple; rewrite <-!app_assoc; reflexivity|lia|cbn; lia|rewrite !length_app; lia]. cbn [rbind].
  rewrite (read_le_at 4 b (sg ++ ty ++ tn ++ fl ++ sc ++ zs ++ to_le 2 (Z.of_nat (length info)) ++ to_le 2 (Z.of_nat (length info))) (off + Z.of_nat (length nm)) t2);
    [|unfold b, ti, field_tuple; rewrite <-!app_assoc; reflexivity|lia|unfold off; cbn; lia|rewrite !length_app, !length_to_le; lia]. cbn [rbind].
  rewrite (challenge_field_at b (sg ++ ty ++ tn ++ fl ++ sc ++ zs ++ ti ++ version) nm info);
    [|unfold b; rewrite <-!app_assoc; reflexivity|rewrite !length_app; lia|done|unfold off; lia]. cbn [rbind].
  rewrite (challenge_field_at b (sg ++ ty ++ tn ++ fl ++ sc ++ zs ++ ti ++ version ++ nm) info []);
    [|unfold b; rewrite <-!app_assoc, app_nil_r; reflexivity|rewrite !length_app; lia|done|unfold off; lia]. cbn [rbind].
  assert (info <> []) as Hinfo by (unfold info, av_list; by destruct (concat _)). rewrite (decide_False (P := info = [])) by done. cbn [default].
  f_equal. f_equal. destruct (decide (name = [])) as [->|Hne]; [reflexivity|]. rewrite decide_False by (intros E; apply Hne; by apply utf16_le_nil). by apply from_utf16_le_id.
Qed.

(** The answer, by its payloads. *)
Definition answer (lm nt d u w : bytes) (flags : Z) : bytes :=
  let nt_offset := 64 + Z.of_nat (length lm) in let dom_offset := nt_offset + Z.of_nat (length nt) in
  let user_offset := dom_offset + Z.of_nat (length d) in let ws_offset := user_offset + Z.of_nat (length u) in
  NTLMSSP_SIGNATURE ++ to_le 4 (message_type_u32 NtlmAuthenticate) ++ field_tuple lm 64 ++ field_tuple nt nt_offset ++ field_tuple d dom_offset
  ++ field_tuple u user_offset ++ field_tuple w ws_offset ++ field_tuple [] (ws_offset + Z.of_nat (length w)) ++ to_le 4 flags
  ++ lm ++ nt ++ d ++ u ++ w ++ [].
Lemma answer_fields lm nt d u w flags : Forall (fun p => Z.of_nat (length p) < 65536) [lm; nt; d; u; w] ->
  let msg := answer lm nt d u w flags in
  response_field msg 12 = Some lm /\ response_field msg 20 = Some nt /\ response_field msg 28 = Some d /\ response_field msg 36 = Some u /\ response_field msg 44 = Some w.
Proof.
  intros H. rewrite !Forall_cons in H. destruct H as (H1 & H2 & H3 & H4 & H5 & _). cbv zeta. unfold answer.
  set (sg := NTLMSSP_SIGNATURE). set (ty := to_le 4 (message_type_u32 NtlmAuthenticate)). set (fl := to_le 4 flags).
  assert (length sg = 8 /\ length ty = 4 /\ length fl = 4)%nat as (L1 & L2 & L3) by (split_and!; reflexivity || apply length_to_le).
  set (f1 := field_tuple lm _). set (f2 := field_tuple nt _). set (f3 := field_tuple d _). set (f4 := field_tuple u _). set (f5 := field_tuple w _). set (f6 := field_tuple [] _).
  assert (length f1 = 8 /\ length f2 = 8 /\ length f3 = 8 /\ length f4 = 8 /\ length f5 = 8 /\ length f6 = 8)%nat as (M1 & M2 & M3 & M4 & M5 & M6) by (split_and!; apply length_tuple).
  split_and!.
  - apply (response_field_at _ (sg ++ ty) lm 64 (f2 ++ f3 ++ f4 ++ f5 ++ f6 ++ fl) (nt ++ d ++ u ++ w ++ []));
      [fold f1; rewrite <-!app_assoc; reflexivity|rewrite !length_app; lia|rewrite !length_app; lia|lia|done].
  - apply (response_field_at _ (sg ++ ty ++ f1) nt (64 + Z.of_nat (length lm)) (f3 ++ f4 ++ f5 ++ f6 ++ fl ++ lm) (d ++ u ++ w ++ []));
      [fold f2; rewrite <-!app_assoc; reflexivity|rewrite !length_app; lia|rewrite !length_app; lia|lia|done].
  - apply (response_field_at _ (sg ++ ty ++ f1 ++ f2) d (64 + Z.of_nat (length lm) + Z.of_nat (length nt)) (f4 ++ f5 ++ f6 ++ fl ++ lm ++ nt) (u ++ w ++ []));
      [fold f3; rewrite <-!app_assoc; reflexivity|rewrite !length_app; lia|rewrite !length_app; lia|lia|done].
  - apply (response_field_at _ (sg ++ ty ++ f1 ++ f2 ++ f3) u (64 + Z.of_nat (length lm) + Z.of_nat (length nt) + Z.of_nat (length d)) (f5 ++ f6 ++ fl ++ lm ++ nt ++ d) (w ++ []));
      [fold f4; rewrite <-!app_assoc; reflexivity|rewrite !length_app; lia|rewrite !length_app; lia|lia|done].
  - apply (response_field_at _ (sg ++ ty ++ f1 ++ f2 ++ f3 ++ f4) w (64 + Z.of_nat (length lm) + Z.of_nat (length nt) + Z.of_nat (length d) + Z.of_nat (length u)) (f6 ++ fl ++ lm ++ nt ++ d ++ u) []);
      [fold f5; rewrite <-!app_assoc; reflexivity|rewrite !length_app; lia|rewrite !length_app; lia|lia|done].
Qed.
Lemma filetime_Ok {E} secs nanos : 0 <= secs < 2 ^ 40 -> 0 <= nanos < 1000000000 -> exists t, @current_filetime E secs nanos = Ok t.
Proof.
  intros Hs Hn. unfold current_filetime, uint_add, uint_mul. assert (0 <= nanos / 100 <= 10000000) by (split; [apply Z.div_pos|apply Z.div_le_upper_bound]; lia).
  rewrite (proj2 (Z.ltb_lt (secs + 11644473600) _)) by lia. cbn [rbind]. rewrite (proj2 (Z.ltb_lt ((secs + 11644473600) * 10000000) _)) by lia. cbn [rbind].
  rewrite (proj2 (Z.ltb_lt _ _)) by lia. by eexists.
Qed.

Definition text_ok (s : bytes) : Prop := utf8_valid s = true /\ Z.of_nat (length (utf16_le s)) < 65536.
(** The attribute the client adds for a channel binding. *)
Definition binding_attribute (cb : option bytes) : list (Z * bytes) := match cb with Some c => [(av_id_u16 AvChannelBindings, c)] | None => [] end.

Section Handshake.
Context (md4 : bytes -> bytes) (hmac_md5 : bytes -> bytes -> bytes) (to_uppercase : bytes -> bytes) (hmac_len : forall k d, length (hmac_md5 k d) = 16%nat).

Lemma answer_checks sc flags who pw pairs timestamp cc (password : bytes -> bytes -> option bytes) lm :
  length cc = 8%nat -> length lm = 24%nat -> Z.of_nat (length (av_list pairs)) < 65480 ->
  text_ok (id_user who) -> text_ok (id_domain who) -> text_ok (id_workstation who) -> password (id_user who) (id_domain who) = Some pw ->
  let key := ntowfv2 hmac_md5 to_uppercase (ntowfv1 md4 pw) (id_user who) (id_domain who) in
  let nt := compute_ntlmv2_response hmac_md5 key sc (av_list pairs) timestamp cc in
  server_checks md4 hmac_md5 to_uppercase password sc (answer lm nt (utf16_le (id_domain who)) (utf16_le (id_user who)) (utf16_le (id_workstation who)) flags)
  = Some (who, build_ntlmv2_blob timestamp cc (av_list pairs)).
Proof.
  intros Hcc Hlm Hl [U1 U2] [D1 D2] [W1 W2] Hpw key nt. destruct (blob_list timestamp cc pairs Hcc) as [Hbl _].
  unfold compute_ntlmv2_response in nt. cbv zeta in nt. set (blob := build_ntlmv2_blob timestamp cc (av_list pairs)) in *.
  assert (length nt = 16 + length blob)%nat as Hnt by (unfold nt; rewrite length_app, hmac_len; done). unfold BLOB_HEADER_LEN in Hbl.
  destruct (answer_fields lm nt (utf16_le (id_domain who)) (utf16_le (id_user who)) (utf16_le (id_workstation who)) flags) as (_ & F2 & F3 & F4 & F5).
  { repeat constructor; lia || done. }
  unfold server_checks, identity_of. rewrite F2, F3, F4, F5. cbn [mbind option_bind]. rewrite !from_utf16_le_id by done. cbn [id_user id_domain]. rewrite Hpw. fold (ntowfv1 md4 pw).
  fold (ntowfv2 hmac_md5 to_uppercase (ntowfv1 md4 pw) (id_user who) (id_domain who)). fold key.
  assert (drop 16 nt = blob) as -> by (apply (drop_app_end _ _ _ _ eq_refl), hmac_len). assert (take 16 nt = hmac_md5 key (sc ++ blob)) as -> by (unfold nt; by rewrite take_app_length').
  rewrite bool_decide_eq_true_2 by done. by destruct who.
Qed.
Lemma check_needs_mac sc lm pw key blob d u w flags password sc' r :
  Forall (fun p => Z.of_nat (length p) < 65536) [lm; hmac_md5 key (sc ++ blob) ++ blob; utf16_le d; utf16_le u; utf16_le w] -> utf8_valid u = true -> utf8_valid d = true ->
  key = ntowfv2 hmac_md5 to_uppercase (ntowfv1 md4 pw) u d ->
  server_checks md4 hmac_md5 to_uppercase password sc' (answer lm (hmac_md5 key (sc ++ blob) ++ blob) (utf16_le d) (utf16_le u) (utf16_le w) flags) = Some r ->
  exists pw', password u d = Some pw' /\ hmac_md5 (ntowfv2 hmac_md5 to_uppercase (ntowfv1 md4 pw') u d) (sc' ++ blob) = hmac_md5 key (sc ++ blob).
Proof.
  intros Hf Hu Hd Hk Hs. destruct (answer_fields _ _ _ _ _ flags Hf) as (_ & F2 & F3 & F4 & F5). unfold server_checks, identity_of in Hs. rewrite F2, F3, F4, F5 in Hs.
  cbn [mbind option_bind] in Hs. rewrite !(from_utf16_le_id u), !(from_utf16_le_id d) in Hs by done. destruct (from_utf16_le (utf16_le w)) as [w'|]; [|done].
  cbn [id_user id_domain] in Hs. destruct (password u d) as [pw'|]; [|done]. exists pw'. split; [done|]. case_bool_decide as Hm; [|done].
  assert (drop 16 (hmac_md5 key (sc ++ blob) ++ blob) = blob) as Hb by (apply (drop_app_end _ _ _ _ eq_refl), hmac_len). rewrite Hb in Hm.
  rewrite take_app_length' in Hm by done. done.
Qed.
End Handshake.

(** C13: The NTLM handshake, for any hash functions: the client with credentials
    answers every well-formed challenge, the server reads its user, domain and
    workstation, and the proof verifies under the password as MS-NLMP asks, whatever
    the blob is.  The blob is another matter.  The client's list, which is the
    server's own with the channel binding added, is at offset 34; at the offsets
    of 2.2.2.7 a server finds a HiRespType of 0 for 1, a time and a client challenge
    made of shifted bytes, and an empty list of attributes: it sees neither its
    names nor the channel binding.  A server with another password or another
    challenge takes the proof only if the keyed hash gives the same value there. *)
Theorem ntlm_handshake (md4 : bytes -> bytes) (hmac_md5 : bytes -> bytes -> bytes) (to_uppercase : bytes -> bytes) (password : bytes -> bytes -> option bytes)
    (sc name version user pw domain workstation : bytes) (flags secs nanos : Z) (pairs : list (Z * bytes)) (cb : option bytes) :
  (forall k d, length (hmac_md5 k d) = 16%nat) -> challenge_ok sc flags name pairs version -> (forall c, cb = Some c -> length c = 16%nat) ->
  Z.of_nat (length (av_list (pairs ++ binding_attribute cb))) < 65480 -> text_ok user -> text_ok domain -> text_ok workstation ->
  0 <= secs < 2 ^ 40 -> 0 <= nanos < 1000000000 -> password user domain = Some pw ->
  let client := set_credentials (with_workstation domain workstation) user pw in
  let key p := ntowfv2 hmac_md5 to_uppercase (ntowfv1 md4 p) user domain in
  exists msg blob t, client_build_authenticate md4 hmac_md5 to_uppercase secs nanos client (challenge_bytes sc flags name pairs version) cb = Ok msg
    /\ server_checks md4 hmac_md5 to_uppercase password sc msg = Some (mkIdentity user domain workstation, blob)
    /\ @current_filetime NtlmError secs nanos = Ok t
    /\ read_client_challenge blob
       = mkClientChallenge 1 0 (of_le (replicate 6 x00 ++ take 2 (to_le 8 t))) (drop 2 (to_le 8 t) ++ [x00; x00]) (Some [])
    /\ read_av (length blob) (drop BLOB_HEADER_LEN blob) = Some (pairs ++ binding_attribute cb)
    /\ (forall password' sc' r, server_checks md4 hmac_md5 to_uppercase password' sc' msg = Some r ->
          exists pw', password' user domain = Some pw' /\ hmac_md5 (key pw') (sc' ++ blob) = hmac_md5 (key pw) (sc ++ blob)).
Proof.
  intros Hlen Hch Hcb Hl Hu Hd Hw Hs Hn Hpw client key. unfold client_build_authenticate, client. cbn [nc_username nc_password set_credentials ok_or rbind nc_domain nc_workstation with_workstation].
  rewrite parse_challenge_bytes by done. cbn [rbind]. unfold build_authenticate_with_options. cbn [cm_target_info cm_server_challenge cm_negotiate_flags default].
  rewrite blob_target_info_list by (destruct cb; [by apply Hcb|done]). cbn [rbind]. destruct (filetime_Ok (E := NtlmError) secs nanos Hs Hn) as [t Ht]. rewrite Ht. cbn [rbind].
  fold (binding_attribute cb). set (all := pairs ++ binding_attribute cb) in *.
  assert (Forall av_ok all) as Hav.
  { apply Forall_app. split; [apply Hch|]. destruct cb as [c|]; [|constructor]. constructor; [|constructor]. split; cbn [fst snd]; [cbn; lia|]. rewrite (Hcb c eq_refl). cbn. lia. }
  assert (length (replicate 8 x00) = 8%nat) as Hcc by reflexivity. destruct (blob_list t (replicate 8 x00) all Hcc) as [Hbl Hbd]. unfold BLOB_HEADER_LEN in Hbl.
  set (lm := compute_lmv2_response _ _ _ _). assert (length lm = 24%nat) as Hlm by (unfold lm, compute_lmv2_response; by rewrite length_app, Hlen).
  set (fl := match cb with Some _ => Z.lor _ NTLM_EPHEMERAL | None => _ end).
  eexists _, (build_ntlmv2_blob t (replicate 8 x00) (av_list all)), t. split; [reflexivity|]. split; [|split; [done|split; [apply blob_documented|split]]].
  - apply (answer_checks md4 hmac_md5 to_uppercase Hlen sc fl (mkIdentity user domain workstation) pw all t (replicate 8 x00) password lm); done.
  - rewrite Hbd. apply read_av_list; [done|]. pose proof (av_list_rounds all). lia.
  - intros password' sc' r Hr. apply (check_needs_mac md4 hmac_md5 to_uppercase Hlen sc lm pw (key pw) (build_ntlmv2_blob t (replicate 8 x00) (av_list all)) domain user workstation fl password' sc' r); [|apply Hu|apply Hd|done|exact Hr].
    destruct Hu, Hd, Hw. repeat constructor; rewrite ?length_app, ?Hlen; lia || done.
Qed.

Lemma ntlm_handshake_witness :
  let mac k d := take 16 (k ++ d ++ replicate 16 x00) in let known (u d : bytes) := Some (lit "secret") in let pairs := [(1, utf16_le (lit "SRV"))] in
  exists msg, client_build_authenticate id mac id 1700000000 5 (set_credentials (with_workstation (lit "DOM") (lit "PC")) (lit "alice") (lit "secret"))
      (challenge_bytes (lit "12345678") 1 (lit "DOM") pairs []) (Some (replicate 16 x09)) = Ok msg
    /\ exists blob, server_checks id mac id known (lit "12345678") msg = Some (mkIdentity (lit "alice") (lit "DOM") (lit "PC"), blob)
         /\ cc_attributes (read_client_challenge blob) = Some [] /\ read_av (length blob) (drop 34 blob) = Some (pairs ++ [(10, replicate 16 x09)]).
Proof.
  intros mac known pairs. destruct (ntlm_handshake id mac id known (lit "12345678") (lit "DOM") [] (lit "alice") (lit "secret") (lit "DOM") (lit "PC") 1 1700000000 5 pairs
    (Some (replicate 16 x09))) as (msg & blob & t & H1 & H2 & _ & H3 & H4 & _).
  - intros k d. unfold mac. rewrite length_take, !length_app, length_replicate. lia.
  - split; try (vm_compute; reflexivity); [unfold is_uint; lia|]. repeat constructor; vm_compute; congruence.
  - intros c [= <-]. reflexivity.
  - reflexivity.
  - split; reflexivity.
  - split; reflexivity.
  - split; reflexivity.
  - lia.
  - lia.
  - reflexivity.
  - exists msg. split; [exact H1|]. exists blob. split; [exact H2|]. split; [by rewrite H3|exact H4].
Defined.

Lemma challenge_field_cases b len off e1 e2 : 0 <= off -> exists r, challenge_field b len off e1 e2 = r /\ r <> Panic
  /\ forall o, r = Ok o -> exists pre post, b = pre ++ default [] o ++ post.
Proof.
  intros Ho. unfold challenge_field. destruct (0 <? len); [|eexists; split; [done|]; split; [done|]; intros o [= <-]; exists b, []; by rewrite app_nil_r].
  destruct (uint_checked_add 64 off len) as [e|]; cbn [ok_or rbind]; [|eexists; split; [done|]; split; done].
  destruct (get_range b off e) as [s|] eqn:Eg; cbn [ok_or rbind]; (eexists; split; [done|]; split; [done|]; intros o [= <-]).
  destruct (get_range_in b off e s Ho Eg) as (pre & post & -> & _). by exists pre, post.
Qed.
Definition challenge_shape (b : bytes) (m : ChallengeMessage) : Prop :=
  take 8 b = NTLMSSP_SIGNATURE /\ length (cm_server_challenge m) = 8%nat /\ is_u32 (cm_negotiate_flags m)
  /\ (exists pre post, b = pre ++ cm_server_challenge m ++ post) /\ exists pre post, b = pre ++ cm_target_info m ++ post.
Lemma parse_challenge_cases b : parse_challenge b <> Panic /\ forall m, parse_challenge b = Ok m -> challenge_shape b m.
Proof.
  unfold parse_challenge. destruct (Nat.ltb_spec (length b) 32) as [|Hl]; [done|]. rewrite slice_Ok by lia. cbn [rbind]. change (8 - 0)%nat with 8%nat. rewrite drop_0.
  case_bool_decide as Hsig; cbn [negb]; [|done]. unfold ntlm_read_u16, ntlm_read_u32.
  destruct (read_le_some 4 b 8) as (ty & -> & _); [lia..|]. cbn [rbind]. destruct (negb _); [done|].
  destruct (read_le_some 2 b 12) as (nl & -> & _); [lia..|]. destruct (read_le_some 4 b 16) as (no & -> & Hno); [lia..|].
  destruct (read_le_some 4 b 20) as (fl & -> & Hfl); [lia..|]. destruct (get_range_some b 24 32) as (sc & Esc & Hsc); [lia..|]. rewrite Esc. cbn [rbind ok_or].
  set (tif := if (48 <=? length b)%nat then _ else _). assert (exists l o, tif = Ok (l, o) /\ 0 <= o) as (l & o & -> & Ho).
  { unfold tif. destruct (Nat.leb_spec 48 (length b)); [|exists 0, 0; split; [done|lia]]. destruct (read_le_some 2 b 40) as (l & -> & _); [lia..|].
    destruct (read_le_some 4 b 44) as (o & -> & Ho); [lia..|]. exists l, o. cbn [rbind]. split; [done|lia]. }
  cbn [rbind]. destruct (challenge_field_cases b nl no TargetNameOverflow TargetNameOutOfBounds (proj1 Hno)) as (r1 & -> & N1 & _). destruct r1 as [nm|e|]; cbn [rbind]; [|done|done].
  destruct (challenge_field_cases b l o TargetInfoOverflow TargetInfoOutOfBounds Ho) as (r2 & -> & N2 & P2). destruct r2 as [info|e|]; cbn [rbind]; [|done|done].
  split; [done|]. intros m Hm. apply Ok_inj in Hm as <-. destruct (get_range_in b 24 32 sc ltac:(lia) Esc) as (pre & post & Eb & _).
  split; [done|]. cbn [cm_server_challenge cm_negotiate_flags cm_target_info]. split; [lia|]. split; [unfold is_uint; cbn in Hfl; lia|]. split; [by exists pre, post|by apply P2].
Qed.
Lemma client_total md4 hmac_md5 to_uppercase b secs nanos client cb : 0 <= secs < 2 ^ 40 -> 0 <= nanos < 1000000000 ->
  client_build_authenticate md4 hmac_md5 to_uppercase secs nanos client b cb <> Panic.
Proof.
  intros Hs Hn. unfold client_build_authenticate. destruct (nc_username client); cbn [ok_or rbind]; [|done]. destruct (nc_password client); cbn [ok_or rbind]; [|done].
  pose proof (proj1 (parse_challenge_cases b)) as Hp. destruct (parse_challenge b) as [m|e|]; cbn [rbind]; [|done|done].
  unfold build_authenticate_with_options, blob_target_info. set (info := if ends_with_eol _ then _ else _).
  destruct cb as [c|]; [destruct (negb _)|]; cbn [rbind]; [done|..]; destruct (filetime_Ok (E := NtlmError) secs nanos Hs Hn) as [t ->]; done.
Qed.

(** C39: Any bytes as a challenge: parsing returns a message or an error and does
    not panic; a message has an eight-byte challenge and 32-bit flags, and its
    target information is a part of the bytes.  So the client never panics before
    the year 36000, whatever the server sends. *)
Theorem ntlm_challenge_total (md4 : bytes -> bytes) (hmac_md5 : bytes -> bytes -> bytes) (to_uppercase : bytes -> bytes) (b : bytes) :
  parse_challenge b <> Panic
  /\ (forall m, parse_challenge b = Ok m -> take 8 b = NTLMSSP_SIGNATURE /\ length (cm_server_challenge m) = 8%nat /\ is_u32 (cm_negotiate_flags m)
        /\ (exists pre post, b = pre ++ cm_server_challenge m ++ post) /\ exists pre post, b = pre ++ cm_target_info m ++ post)
  /\ (forall secs nanos client cb, 0 <= secs < 2 ^ 40 -> 0 <= nanos < 1000000000 -> client_build_authenticate md4 hmac_md5 to_uppercase secs nanos client b cb <> Panic).
Proof. destruct (parse_challenge_cases b) as [H1 H2]. split; [exact H1|]. split; [exact H2|]. intros. by apply client_total. Qed.
