(* ===== verification/Schema.v ===== *)
(** * Schema: the schema projection and its compiler ([adrian-schema-traits], [adrian-schema-compiler])

    The projection, the built-in baseline schema, the compilation from a
    directory store and the validation of directory objects.  Where the code
    iterates over a hash set, the order is an argument. *)
From S2P Require Import Prelude Bytes Text StorageKeys LdapHandler.

Abbreviation ClassId := Z.
Inductive AttributeSyntax :=
| SyntaxDirectoryString | SyntaxIa5String | SyntaxInteger | SyntaxLargeInteger | SyntaxBoolean | SyntaxOid | SyntaxDn | SyntaxSid
| SyntaxOctetString | SyntaxGeneralizedTime | SyntaxSecurityDescriptor | SyntaxCaseExactString.
#[global] Instance AttributeSyntax_eq_dec : EqDecision AttributeSyntax.
Proof. solve_decision. Defined.
Record AttributeSchema := mkAttributeSchema {
  as_id : Z;
  as_ldap_name : bytes;
  as_syntax : AttributeSyntax;
  as_range_lower : option Z;
  as_range_upper : option Z;
  as_is_single_valued : bool;
  as_search_flags : Z;
  as_is_linked : bool;
  as_link_id : option Z;
}.
Record ClassSchema := mkClassSchema {
  cs_id : ClassId;
  cs_ldap_name : bytes;
  superiors : list ClassId;
  must_contain : list Z;
  may_contain : list Z;
  cs_system_flags : Z;
  cs_category : Z;
}.
#[global] Instance AttributeSchema_eq_dec : EqDecision AttributeSchema.
Proof. solve_decision. Defined.
#[global] Instance ClassSchema_eq_dec : EqDecision ClassSchema.
Proof. solve_decision. Defined.
Record SchemaProjection := mkSchemaProjection {
  attributes : gmap Z AttributeSchema;
  classes : gmap ClassId ClassSchema;
  attribute_name_to_id : gmap bytes Z;
  class_name_to_id : gmap bytes ClassId;
  generation : Z;
}.
Definition SchemaProjection_empty : SchemaProjection := mkSchemaProjection ∅ ∅ ∅ ∅ 0.
Definition u64_saturating_add (a b : Z) : Z := Z.min (a + b) (2 ^ 64 - 1).
Definition next_generation (p : SchemaProjection) : SchemaProjection :=
  mkSchemaProjection (attributes p) (classes p) (attribute_name_to_id p) (class_name_to_id p) (u64_saturating_add (generation p) 1).

(** The messages of [SchemaError::ProjectionCompile]. *)
Inductive CompileProblem :=
| NcHeadUnreadable (e : StorageError)
| StoreFailed (e : StorageError)
| BooleanSyntax (name : bytes) (value : bytes)
| IntegerSyntax (name : bytes) (len : nat)
| StringSyntax (name : bytes)
| SidSyntax (name : bytes) (len : nat).
Inductive SchemaError :=
| UnknownAttributeId (id : Z)
| UnknownAttributeName (name : bytes)
| UnknownClassId (id : ClassId)
| UnknownClassName (name : bytes)
| MissingMustContain (attr : Z) (class : ClassId)
| DisallowedAttribute (attr : Z) (class : ClassId)
| ProjectionCompile (p : CompileProblem).

Definition DISALLOW_DELETE : Z := 0x80000000.
Definition DOMAIN_DISALLOW_MOVE : Z := 0x08000000.
Definition DOMAIN_DISALLOW_RENAME : Z := 0x04000000.

(** ** The baseline schema *)

Definition attr_defs : list (Z * string * AttributeSyntax * bool * bool) := [
  (0x10000, "cn"%string, SyntaxDirectoryString, false, false);
  (0x10001, "name"%string, SyntaxDirectoryString, true, false);
  (0x10002, "objectClass"%string, SyntaxOid, false, false);
  (0x10003, "member"%string, SyntaxDn, false, true);
  (0x10004, "memberOf"%string, SyntaxDn, false, true);
  (0x10005, "objectSid"%string, SyntaxSid, true, false);
  (0x10006, "objectGUID"%string, SyntaxOctetString, true, false);
  (0x10007, "sAMAccountName"%string, SyntaxDirectoryString, true, false);
  (0x10008, "userPrincipalName"%string, SyntaxDirectoryString, true, false);
  (0x10009, "distinguishedName"%string, SyntaxDn, true, true);
  (0x1000A, "whenCreated"%string, SyntaxGeneralizedTime, true, false);
  (0x1000B, "whenChanged"%string, SyntaxGeneralizedTime, true, false);
  (0x1000C, "description"%string, SyntaxDirectoryString, false, false);
  (0x1000D, "nTSecurityDescriptor"%string, SyntaxSecurityDescriptor, true, false);
  (0x1000E, "instanceType"%string, SyntaxInteger, true, false);
  (0x1000F, "systemFlags"%string, SyntaxInteger, true, false);
  (0x10010, "sn"%string, SyntaxDirectoryString, false, false);
  (0x10011, "givenName"%string, SyntaxDirectoryString, false, false);
  (0x10012, "displayName"%string, SyntaxDirectoryString, false, false);
  (0x10013, "userAccountControl"%string, SyntaxInteger, true, false);
  (0x10014, "primaryGroupID"%string, SyntaxInteger, true, false);
  (0x10015, "groupType"%string, SyntaxInteger, true, false);
  (0x10016, "managedBy"%string, SyntaxDn, true, true);
  (0x10017, "managedObjects"%string, SyntaxDn, false, true);
  (0x10018, "manager"%string, SyntaxDn, true, true);
  (0x10019, "directReports"%string, SyntaxDn, false, true)].
Definition extra_attrs : list (Z * string * AttributeSyntax * bool * bool) := [
  (0x1001A, "ou"%string, SyntaxDirectoryString, false, false);
  (0x1001B, "dc"%string, SyntaxDirectoryString, true, false)].
Definition link_id_of (name : string) : option Z :=
  match name with
  | "managedBy" => Some 1
  | "managedObjects" => Some 2
  | "member" => Some 3
  | "memberOf" => Some 4
  | "manager" => Some 8
  | "directReports" => Some 9
  | _ => None
  end%string.
Definition insert_attr (link : string -> option Z) (acc : gmap Z AttributeSchema * gmap bytes Z) (d : Z * string * AttributeSyntax * bool * bool)
    : gmap Z AttributeSchema * gmap bytes Z :=
  let '(id, name, syntax, single, linked) := d in
  (<[id := mkAttributeSchema id (lit name) syntax None None single 0 linked (if linked then link name else None)]> acc.1,
   <[to_ascii_lowercase (lit name) := id]> acc.2).
Definition minimal_attributes : gmap Z AttributeSchema * gmap bytes Z :=
  foldl (insert_attr (fun _ => None)) (foldl (insert_attr link_id_of) (∅, ∅) attr_defs) extra_attrs.

Record ClassDef := mkClassDef {
  cd_id : ClassId; cd_name : string; cd_superiors : list string; cd_must : list string; cd_may : list string; cd_flags : Z; cd_category : Z }.
Definition class_defs : list ClassDef := [
  mkClassDef 0x20000 "top" [] ["objectClass"; "cn"; "instanceType"]
    ["nTSecurityDescriptor"; "whenCreated"; "whenChanged"; "systemFlags"] DISALLOW_DELETE 3;
  mkClassDef 0x20001 "person" ["top"] ["cn"] ["sn"; "givenName"; "displayName"; "description"] 0 1;
  mkClassDef 0x20002 "user" ["person"] ["sAMAccountName"]
    ["userPrincipalName"; "userAccountControl"; "primaryGroupID"; "objectSid"; "managedBy"; "manager"] 0 1;
  mkClassDef 0x20003 "group" ["top"] ["sAMAccountName"; "groupType"] ["member"; "managedBy"; "description"] 0 1;
  mkClassDef 0x20004 "organizationalUnit" ["top"] ["ou"] ["description"] 0 1;
  mkClassDef 0x20005 "domainDNS" ["top"] ["dc"] ["managedBy"; "description"] (Z.lor DOMAIN_DISALLOW_MOVE DOMAIN_DISALLOW_RENAME) 1;
  mkClassDef 0x20006 "container" ["top"] ["cn"] ["description"] 0 1]%string.
(** [expect]: an unknown attribute name panics. *)
Definition attr_id_of (names : gmap bytes Z) (name : string) : Result SchemaError Z :=
  match names !! to_ascii_lowercase (lit name) with Some id => Ok id | None => Panic end.
Fixpoint attr_ids_of (names : gmap bytes Z) (l : list string) : Result SchemaError (list Z) :=
  match l with
  | [] => Ok []
  | n :: l => let? id := attr_id_of names n in let? ids := attr_ids_of names l in Ok (id :: ids)
  end.
Fixpoint build_classes (names : gmap bytes Z) (defs : list ClassDef) (cls : gmap ClassId ClassSchema) (ids : gmap bytes ClassId)
    : Result SchemaError (gmap ClassId ClassSchema * gmap bytes ClassId) :=
  match defs with
  | [] => Ok (cls, ids)
  | d :: defs =>
      let sups := map (fun s => default 0 (ids !! to_ascii_lowercase (lit s))) (cd_superiors d) in
      let? must := attr_ids_of names (cd_must d) in
      let? may := attr_ids_of names (cd_may d) in
      build_classes names defs (<[cd_id d := mkClassSchema (cd_id d) (lit (cd_name d)) sups must may (cd_flags d) (cd_category d)]> cls)
        (<[to_ascii_lowercase (lit (cd_name d)) := cd_id d]> ids)
  end.
Definition minimal_schema : Result SchemaError SchemaProjection :=
  let '(attrs, names) := minimal_attributes in
  let? (cls, ids) := build_classes names class_defs ∅ ∅ in
  Ok (mkSchemaProjection attrs cls names ids 1).

(** ** The compiler *)

Definition WELL_KNOWN_SCHEMA_NC_HEAD : Uuid := 0x7D8.
Definition SCHEMA_NC_DN : bytes := lit "CN=Schema,CN=Configuration,DC=adrian,DC=example,DC=com".
Section Compiler.
Context {S : Type} {DS : DirectoryStore S}.
Record SchemaCompiler := mkSchemaCompiler { sco_store : S; sco_schema_nc_head : Uuid }.
Definition SchemaCompiler_new (store : S) : SchemaCompiler := mkSchemaCompiler store 0.
Definition read_schema_nc_head (store : S) : Result SchemaError Uuid :=
  match ds_get_by_dn store (DistinguishedName_new SCHEMA_NC_DN) with
  | Ok (Some _) => Ok WELL_KNOWN_SCHEMA_NC_HEAD
  | Ok None => Ok WELL_KNOWN_SCHEMA_NC_HEAD
  | Err e => Err (ProjectionCompile (NcHeadUnreadable e))
  | Panic => Panic
  end.
Definition bootstrap (c : SchemaCompiler) : Result SchemaError Uuid * SchemaCompiler :=
  match read_schema_nc_head (sco_store c) with
  | Ok head => (Ok head, mkSchemaCompiler (sco_store c) head)
  | r => (r, c)
  end.
Definition with_generation (p : SchemaProjection) (g : Z) : SchemaProjection :=
  mkSchemaProjection (attributes p) (classes p) (attribute_name_to_id p) (class_name_to_id p) g.
Definition compile_from_directory (store : S) : Result SchemaError SchemaProjection :=
  match ds_get_by_dn store (DistinguishedName_new SCHEMA_NC_DN) with
  | Ok (Some _) => let? proj := minimal_schema in Ok (with_generation proj 1)
  | Ok None => let? proj := minimal_schema in Ok (with_generation proj 1)
  | Err e => Err (ProjectionCompile (StoreFailed e))
  | Panic => Panic
  end.
Definition compile (c : SchemaCompiler) : Result SchemaError SchemaProjection := compile_from_directory (sco_store c).
Definition recompile_and_swap (c : SchemaCompiler) : Result SchemaError Z :=
  let? current := compile c in Ok (u64_saturating_add (generation current) 1).
End Compiler.

(** ** Validation *)

Definition validate_syntax (attr : Attribute) (p : SchemaProjection) : Result SchemaError unit :=
  match attribute_name_to_id p !! to_ascii_lowercase (attr_name attr) ≫= fun id => attributes p !! id with
  | None => Ok tt
  | Some schema =>
      let v := attr_value attr in
      match as_syntax schema with
      | SyntaxBoolean =>
          match v with
          | [b] => if bool_decide (b = x00 \/ b = xff) then Ok tt else Err (ProjectionCompile (BooleanSyntax (attr_name attr) v))
          | _ => Err (ProjectionCompile (BooleanSyntax (attr_name attr) v))
          end
      | SyntaxInteger => if (8 <? length v)%nat then Err (ProjectionCompile (IntegerSyntax (attr_name attr) (length v))) else Ok tt
      | SyntaxDirectoryString | SyntaxIa5String | SyntaxCaseExactString =>
          if utf8_valid v then Ok tt else Err (ProjectionCompile (StringSyntax (attr_name attr)))
      | SyntaxSid =>
          if ((length v <? 8) || (68 <? length v))%nat then Err (ProjectionCompile (SidSyntax (attr_name attr) (length v))) else Ok tt
      | _ => Ok tt
      end
  end.
Definition object_class_values (obj : Object) : list bytes :=
  omap (fun a => if eq_ignore_ascii_case (attr_name a) (lit "objectClass") && utf8_valid (attr_value a) then Some (attr_value a) else None) (obj_attributes obj).
Definition class_id_of (p : SchemaProjection) (name : bytes) : option ClassId := class_name_to_id p !! to_ascii_lowercase name.
(** [while let Some(cid) = queue.pop_front()]. *)
Fixpoint walk_classes (rounds : nat) (p : SchemaProjection) (visited : gset ClassId) (queue : list ClassId) (must may : gset Z)
    : option (gset Z * gset Z) :=
  match queue, rounds with
  | [], _ => Some (must, may)
  | _, O => None
  | cid :: queue, Datatypes.S rounds =>
      if bool_decide (cid ∈ visited) then walk_classes rounds p visited queue must may
      else
        let visited := {[ cid ]} ∪ visited in
        match classes p !! cid with
        | None => walk_classes rounds p visited queue must may
        | Some class =>
            walk_classes rounds p visited (queue ++ superiors class) (must ∪ list_to_set (must_contain class)) (may ∪ list_to_set (may_contain class))
        end
  end.
(** Every class adds its superiors at most once. *)
Definition walk_rounds (p : SchemaProjection) (queue : list ClassId) : nat :=
  (length queue + sum_list_with (fun e => length (superiors e.2)) (map_to_list (classes p)))%nat.
Definition SYSTEM_ATTR_NAMES : list bytes :=
  map lit ["objectclass"; "objectguid"; "objectsid"; "distinguishedname"; "name"; "whencreated"; "whenchanged"; "usnchanged"; "usncreated";
           "ntsecuritydescriptor"; "instancetype"; "systemflags"; "dn"]%string.
Fixpoint check_attributes (p : SchemaProjection) (class_id : ClassId) (must may : gset Z) (attrs : list Attribute) (present : gset Z)
    : Result SchemaError (gset Z) :=
  match attrs with
  | [] => Ok present
  | attr :: attrs =>
      let name_lower := to_ascii_lowercase (attr_name attr) in
      let? _ := validate_syntax attr p in
      if bool_decide (name_lower ∈ SYSTEM_ATTR_NAMES) then check_attributes p class_id must may attrs ({[ attribute_id attr ]} ∪ present)
      else
        match attribute_name_to_id p !! name_lower with
        | Some attr_id =>
            if bool_decide (attr_id ∈ must \/ attr_id ∈ may) then check_attributes p class_id must may attrs ({[ attr_id ]} ∪ present)
            else Err (DisallowedAttribute attr_id class_id)
        | None => check_attributes p class_id must may attrs present
        end
  end.
Fixpoint check_required (class_id : ClassId) (present : gset Z) (required : list Z) : Result SchemaError unit :=
  match required with
  | [] => Ok tt
  | id :: required => if bool_decide (id ∈ present) then check_required class_id present required else Err (MissingMustContain id class_id)
  end.
(** [iter] is the iteration order of the hash set of required attributes. *)
Definition validate_object (iter : gset Z -> list Z) (p : SchemaProjection) (obj : Object) : Result SchemaError unit :=
  match object_class_values obj with
  | [] => Ok tt
  | first :: _ =>
      let queue := omap (class_id_of p) (object_class_values obj) in
      match walk_classes (walk_rounds p queue) p ∅ queue ∅ ∅ with
      | None => Panic
      | Some (must, may) =>
          let class_id := default 0 (class_id_of p first) in
          let? present := check_attributes p class_id must may (obj_attributes obj) ∅ in
          check_required class_id present (iter must)
      end
  end.
