(* ===== verification/SchemaSpec.v ===== *)
(** * SchemaSpec: what validation against the schema means *)
From S2P Require Import Prelude Bytes Text StorageKeys LdapHandler MemStore Schema.

(** ** The class hierarchy *)

Definition superior (p : SchemaProjection) (c d : ClassId) : Prop := exists class, classes p !! c = Some class /\ d ∈ superiors class.
(** The classes at or above one of [roots]. *)
Definition class_of (p : SchemaProjection) (roots : list ClassId) (c : ClassId) : Prop := exists r, r ∈ roots /\ rtc (superior p) r c.
Definition required (p : SchemaProjection) (roots : list ClassId) (a : Z) : Prop :=
  exists c class, class_of p roots c /\ classes p !! c = Some class /\ a ∈ must_contain class.
Definition optional (p : SchemaProjection) (roots : list ClassId) (a : Z) : Prop :=
  exists c class, class_of p roots c /\ classes p !! c = Some class /\ a ∈ may_contain class.

Section Walk.
Context (p : SchemaProjection) (roots : list ClassId).

Definition weight (V : gset ClassId) : nat := sum_list_with (fun e => if bool_decide (e.1 ∈ V) then 0%nat else length (superiors e.2)) (map_to_list (classes p)).
Lemma sum_list_perm {A} (f : A -> nat) l l' : l ≡ₚ l' -> sum_list_with f l = sum_list_with f l'.
Proof. induction 1; cbn; lia. Qed.
Lemma sum_list_ext {A} (f g : A -> nat) l : (forall x, x ∈ l -> f x = g x) -> sum_list_with f l = sum_list_with g l.
Proof. induction l as [|x l IH]; intros H; cbn; [done|]. rewrite H by (apply elem_of_cons; by left). rewrite IH; [done|]. intros y Hy. apply H, elem_of_cons. by right. Qed.
Lemma weight_visit V c class : c ∉ V -> classes p !! c = Some class -> weight V = (length (superiors class) + weight ({[c]} ∪ V))%nat.
Proof.
  intros Hc Hl. unfold weight. pose proof (map_to_list_delete (classes p) c class Hl) as Hp. rewrite <-!(sum_list_perm _ _ _ Hp). cbn [sum_list_with fst snd].
  rewrite bool_decide_eq_false_2 by done. rewrite bool_decide_eq_true_2 by set_solver. cbn. f_equal. apply sum_list_ext. intros [d cl] Hd. cbn [fst snd].
  apply elem_of_map_to_list, lookup_delete_Some in Hd as [Hne _]. destruct (decide (d ∈ V)); [by rewrite !bool_decide_eq_true_2 by set_solver|by rewrite !bool_decide_eq_false_2 by set_solver].
Qed.
Lemma weight_skip V c : classes p !! c = None -> weight ({[c]} ∪ V) = weight V.
Proof.
  intros Hl. unfold weight. apply sum_list_ext. intros [d cl] Hd. cbn [fst snd]. apply elem_of_map_to_list in Hd.
  assert (d <> c) by congruence. destruct (decide (d ∈ V)); [by rewrite !bool_decide_eq_true_2 by set_solver|by rewrite !bool_decide_eq_false_2 by set_solver].
Qed.

Definition collects (get : ClassSchema -> list Z) (V : gset ClassId) (s : gset Z) : Prop :=
  forall a, a ∈ s <-> exists c class, c ∈ V /\ classes p !! c = Some class /\ a ∈ get class.
Record walking (V : gset ClassId) (queue : list ClassId) (must may : gset Z) : Prop := {
  walk_roots : forall r, r ∈ roots -> r ∈ V \/ r ∈ queue;
  walk_closed : forall c d, c ∈ V -> superior p c d -> d ∈ V \/ d ∈ queue;
  walk_sound : forall c, c ∈ V \/ c ∈ queue -> class_of p roots c;
  walk_must : collects must_contain V must;
  walk_may : collects may_contain V may;
}.
Lemma collects_skip get V s c : classes p !! c = None -> collects get V s -> collects get ({[c]} ∪ V) s.
Proof. intros Hc Hs a. rewrite (Hs a). split; intros (d & cl & Hd & Hl & Ha); exists d, cl; (split; [|done]); [set_solver|]. assert (d <> c) by congruence. set_solver. Qed.
Lemma collects_visit get V s c class : classes p !! c = Some class -> collects get V s -> collects get ({[c]} ∪ V) (s ∪ list_to_set (get class)).
Proof.
  intros Hc Hs a. rewrite elem_of_union, elem_of_list_to_set, (Hs a). split.
  - intros [(d & cl & Hd & Hl & Ha)|Ha]; [exists d, cl; set_solver|exists c, class; set_solver].
  - intros (d & cl & Hd & Hl & Ha). apply elem_of_union in Hd as [Hd%elem_of_singleton|Hd]; [right; subst d; congruence|left; by exists d, cl].
Qed.
Lemma walk_done rounds V queue must may : walking V queue must may -> (length queue + weight V <= rounds)%nat ->
  exists must' may' V', walk_classes rounds p V queue must may = Some (must', may') /\ walking V' [] must' may'.
Proof.
  revert V queue must may. induction rounds as [|rounds IH]; intros V [|c queue] must may Hw Hr; cbn [length walk_classes] in *; try lia; [by exists must, may, V..|].
  destruct (bool_decide_reflect (c ∈ V)) as [Hc|Hc].
  - apply IH; [|lia]. destruct Hw as [H1 H2 H3 H4 H5]. split; [..|done|done].
    + intros r Hr'. destruct (H1 r Hr') as [|H]; [by left|]. apply elem_of_cons in H as [->|]; auto.
    + intros x d Hx Hd. destruct (H2 x d Hx Hd) as [|H]; [by left|]. apply elem_of_cons in H as [->|]; auto.
    + intros x [Hx|Hx]; apply H3; [by left|right; apply elem_of_cons; by right].
  - destruct Hw as [H1 H2 H3 H4 H5]. assert (class_of p roots c) as Hroot by (apply H3; right; apply elem_of_cons; by left).
    destruct (classes p !! c) as [class|] eqn:El.
    + apply IH; [|rewrite length_app, (weight_visit V c class) in *; [lia|done..]]. split; [..|by apply collects_visit|by apply collects_visit].
      * intros r Hr'. destruct (H1 r Hr') as [|H]; [left; set_solver|]. apply elem_of_cons in H as [->|]; [left; set_solver|right; apply elem_of_app; by left].
      * intros x d Hx Hd. apply elem_of_union in Hx as [->%elem_of_singleton|Hx].
        -- destruct Hd as (cl & Hl & Hd). rewrite El in Hl. injection Hl as <-. right. apply elem_of_app. by right.
        -- destruct (H2 x d Hx Hd) as [|H]; [left; set_solver|]. apply elem_of_cons in H as [->|]; [left; set_solver|right; apply elem_of_app; by left].
      * intros x [Hx|Hx]; [apply elem_of_union in Hx as [->%elem_of_singleton|Hx]; [done|apply H3; by left]|].
        apply elem_of_app in Hx as [Hx|Hx]; [apply H3; right; apply elem_of_cons; by right|]. destruct Hroot as (r & Hr' & Hrt). exists r. split; [done|].
        eapply rtc_r; [exact Hrt|]. by exists class.
    + apply IH; [|rewrite weight_skip by done; lia]. split; [..|by apply collects_skip|by apply collects_skip].
      * intros r Hr'. destruct (H1 r Hr') as [|H]; [left; set_solver|]. apply elem_of_cons in H as [->|]; [left; set_solver|by right].
      * intros x d Hx Hd. apply elem_of_union in Hx as [->%elem_of_singleton|Hx]; [destruct Hd as (cl & Hl & _); congruence|].
        destruct (H2 x d Hx Hd) as [|H]; [left; set_solver|]. apply elem_of_cons in H as [->|]; [left; set_solver|by right].
      * intros x [Hx|Hx]; [apply elem_of_union in Hx as [->%elem_of_singleton|Hx]; [done|apply H3; by left]|apply H3; right; apply elem_of_cons; by right].
Qed.
Lemma walking_all V must may : walking V [] must may -> forall c, c ∈ V <-> class_of p roots c.
Proof.
  intros [H1 H2 H3 _ _] c. split; [intros Hc; apply H3; by left|]. intros (r & Hr & Hrt). assert (r ∈ V) as HV by (destruct (H1 r Hr) as [|H%elem_of_nil]; done). clear Hr.
  induction Hrt as [|x y z Hxy _ IH]; [done|]. apply IH. destruct (H2 x y HV Hxy) as [|H%elem_of_nil]; done.
Qed.
End Walk.

(** The breadth-first walk ends and collects the attributes of exactly the
    classes at or above the object's. *)
Lemma walk_classes_spec p roots : exists must may, walk_classes (walk_rounds p roots) p ∅ roots ∅ ∅ = Some (must, may)
  /\ (forall a, a ∈ must <-> required p roots a) /\ (forall a, a ∈ may <-> optional p roots a).
Proof.
  destruct (walk_done p roots (walk_rounds p roots) ∅ roots ∅ ∅) as (must & may & V & E & Hw).
  - split; [by right|set_solver| |intros a; set_solver|intros a; set_solver]. intros c [|Hc]; [set_solver|]. exists c. split; [done|constructor].
  - unfold walk_rounds, weight. apply Nat.eq_le_incl. reflexivity.
  - exists must, may. split; [done|]. pose proof (walking_all p roots V must may Hw) as HV. destruct Hw as [_ _ _ Hm Hy].
    split; intros a; [rewrite (Hm a)|rewrite (Hy a)]; split; intros (c & cl & Hc & H); exists c, cl; (split; [by apply HV|done]).
Qed.

(** ** Validity *)

Section Valid.
Context (p : SchemaProjection).
Definition is_system (a : Attribute) : Prop := to_ascii_lowercase (attr_name a) ∈ SYSTEM_ATTR_NAMES.
Definition schema_id (a : Attribute) : option Z := attribute_name_to_id p !! to_ascii_lowercase (attr_name a).
(** The identifier under which an attribute counts as present. *)
Definition counts_as (a : Attribute) : option Z := if decide (to_ascii_lowercase (attr_name a) ∈ SYSTEM_ATTR_NAMES) then Some (attribute_id a) else schema_id a.
Definition allowed (roots : list ClassId) (a : Attribute) : Prop :=
  validate_syntax a p = Ok tt /\ (is_system a \/ forall id, schema_id a = Some id -> required p roots id \/ optional p roots id).
Definition roots_of (obj : Object) : list ClassId := omap (class_id_of p) (object_class_values obj).
Definition has_attribute (obj : Object) (id : Z) : Prop := exists a, a ∈ obj_attributes obj /\ counts_as a = Some id.

Lemma validate_syntax_total a : validate_syntax a p = Ok tt \/ exists e, validate_syntax a p = Err (ProjectionCompile e).
Proof. unfold validate_syntax. repeat case_match; eauto. Qed.
Lemma check_attributes_spec class_id must may attrs present :
  match check_attributes p class_id must may attrs present with
  | Ok present' => Forall (fun a => validate_syntax a p = Ok tt /\ (is_system a \/ forall id, schema_id a = Some id -> id ∈ must \/ id ∈ may)) attrs
                   /\ forall id, id ∈ present' <-> id ∈ present \/ exists a, a ∈ attrs /\ counts_as a = Some id
  | Err (DisallowedAttribute id c) => c = class_id /\ (id ∉ must) /\ (id ∉ may) /\ exists a, a ∈ attrs /\ ~ is_system a /\ schema_id a = Some id
  | Err (ProjectionCompile e) => exists a, a ∈ attrs /\ validate_syntax a p = Err (ProjectionCompile e)
  | _ => False
  end.
Proof.
  revert present. induction attrs as [|a attrs IH]; intros present; cbn [check_attributes]; [split; [constructor|set_solver]|].
  destruct (validate_syntax_total a) as [Hv|[e Hv]]; rewrite Hv; cbn [rbind]; [|exists a; split; [apply elem_of_cons; by left|done]].
  assert (forall present1, (forall id, id ∈ present1 <-> id ∈ present \/ counts_as a = Some id) ->
    (is_system a \/ forall id, schema_id a = Some id -> id ∈ must \/ id ∈ may) ->
    match check_attributes p class_id must may attrs present1 with
    | Ok present' => Forall (fun a => validate_syntax a p = Ok tt /\ (is_system a \/ forall id, schema_id a = Some id -> id ∈ must \/ id ∈ may)) (a :: attrs)
                     /\ forall id, id ∈ present' <-> id ∈ present \/ exists b, b ∈ a :: attrs /\ counts_as b = Some id
    | Err (DisallowedAttribute id c) => c = class_id /\ (id ∉ must) /\ (id ∉ may) /\ exists b, b ∈ a :: attrs /\ ~ is_system b /\ schema_id b = Some id
    | Err (ProjectionCompile e) => exists b, b ∈ a :: attrs /\ validate_syntax b p = Err (ProjectionCompile e)
    | _ => False
    end) as Hstep.
  { intros present1 Hp1 Hok. specialize (IH present1). destruct (check_attributes p class_id must may attrs present1) as [present'|[]|]; try done.
    - destruct IH as [Hf Hi]. split; [by constructor|]. intros id. rewrite (Hi id), (Hp1 id). setoid_rewrite elem_of_cons. naive_solver.
    - destruct IH as (-> & H1 & H2 & b & Hb & H3). split; [done|]. split; [done|]. split; [done|]. exists b. split; [apply elem_of_cons; by right|done].
    - destruct IH as (b & Hb & H1). exists b. split; [apply elem_of_cons; by right|done]. }
  unfold counts_as in Hstep. case_bool_decide as Hs.
  - apply Hstep; [|by left]. intros id. rewrite decide_True by done. rewrite elem_of_union, elem_of_singleton. naive_solver.
  - unfold schema_id in *. destruct (attribute_name_to_id p !! to_ascii_lowercase (attr_name a)) as [id0|] eqn:Eid.
    + case_bool_decide as Hm.
      * apply Hstep; [|right; by intros id [= <-]]. intros id. rewrite decide_False by done. rewrite elem_of_union, elem_of_singleton. naive_solver.
      * split; [done|]. split; [tauto|]. split; [tauto|]. exists a. split; [apply elem_of_cons; by left|]. split; [exact Hs|exact Eid].
    + apply Hstep; [|right; by intros id]. intros id. rewrite decide_False by done. naive_solver.
Qed.
Lemma check_required_spec class_id present l :
  match check_required class_id present l with
  | Ok _ => Forall (fun id => id ∈ present) l
  | Err (MissingMustContain id c) => c = class_id /\ id ∈ l /\ id ∉ present
  | _ => False
  end.
Proof.
  induction l as [|id l IH]; cbn [check_required]; [done|]. case_bool_decide as Hid.
  - destruct (check_required class_id present l) as [[]|[]|]; try done; [by constructor|]. destruct IH as (-> & H1 & H2). split; [done|]. split; [apply elem_of_cons; by right|done].
  - split; [done|]. split; [apply elem_of_cons; by left|done].
Qed.
Definition valid_object (obj : Object) : Prop :=
  object_class_values obj = []
  \/ (Forall (allowed (roots_of obj)) (obj_attributes obj) /\ forall id, required p (roots_of obj) id -> has_attribute obj id).
Lemma validate_object_spec iter obj : (forall X : gset Z, iter X ≡ₚ elements X) ->
  match validate_object iter p obj with
  | Ok _ => valid_object obj
  | Err (MissingMustContain id _) => required p (roots_of obj) id /\ ~ has_attribute obj id
  | Err (DisallowedAttribute id _) => (exists a, a ∈ obj_attributes obj /\ ~ is_system a /\ schema_id a = Some id) /\ ~ required p (roots_of obj) id /\ ~ optional p (roots_of obj) id
  | Err (ProjectionCompile e) => exists a, a ∈ obj_attributes obj /\ validate_syntax a p = Err (ProjectionCompile e)
  | _ => False
  end /\ (valid_object obj -> validate_object iter p obj = Ok tt).
Proof.
  intros Hiter. unfold validate_object, valid_object. fold (roots_of obj). destruct (object_class_values obj) as [|first rest] eqn:Ev; [split; [by left|done]|].
  destruct (walk_classes_spec p (roots_of obj)) as (must & may & -> & Hmust & Hmay). set (cid := default 0 _).
  pose proof (check_attributes_spec cid must may (obj_attributes obj) ∅) as Ha.
  assert (forall id, id ∈ iter must <-> required p (roots_of obj) id) as Hi by (intros id; rewrite (Hiter must), elem_of_elements; apply Hmust).
  destruct (check_attributes p cid must may (obj_attributes obj) ∅) as [present|[]|]; try done; cbn [rbind].
  - destruct Ha as [Hf Hp]. pose proof (check_required_spec cid present (iter must)) as Hr.
    assert (forall id, id ∈ present <-> has_attribute obj id) as Hpres by (intros id; rewrite (Hp id); unfold has_attribute; set_solver).
    assert (Forall (allowed (roots_of obj)) (obj_attributes obj)) as Hall.
    { eapply Forall_impl; [exact Hf|]. intros a [H1 H2]. split; [done|]. destruct H2 as [H2|H2]; [by left|right]. intros id Hid. destruct (H2 id Hid); [left; by apply Hmust|right; by apply Hmay]. }
    destruct (check_required cid present (iter must)) as [[]|[]|]; try done.
    + split; [|done]. right. split; [done|]. intros id Hid. apply Hpres. exact (proj1 (Forall_forall _ _) Hr id (proj2 (Hi id) Hid)).
    + destruct Hr as (-> & Hin & Hno). apply Hi in Hin. rewrite Hpres in Hno. split; [done|]. intros [H|[_ H]]; [done|]. destruct (Hno (H _ Hin)).
  - destruct Ha as (-> & H1 & H2 & Ha). rewrite Hmust in H1. rewrite Hmay in H2. split; [done|]. intros [H|[Hall _]]; [done|].
    destruct Ha as (a & Ha & Hs & Hid). destruct (proj1 (Forall_forall _ _) Hall a Ha) as [_ [H|H]]; [done|]. destruct (H _ Hid); done.
  - split; [done|]. intros [H|[Hall _]]; [done|]. destruct Ha as (a & Ha & He). destruct (proj1 (Forall_forall _ _) Hall a Ha) as [Hv _]. congruence.
Qed.
End Valid.

(** ** The baseline schema *)

Record schema_wf (p : SchemaProjection) : Prop := {
  wf_attributes : map_Forall (fun id s => as_id s = id /\ attribute_name_to_id p !! to_ascii_lowercase (as_ldap_name s) = Some id) (attributes p);
  wf_attribute_names : map_Forall (fun name id => (fun s => to_ascii_lowercase (as_ldap_name s)) <$> attributes p !! id = Some name) (attribute_name_to_id p);
  wf_classes : map_Forall (fun c class => cs_id class = c /\ class_name_to_id p !! to_ascii_lowercase (cs_ldap_name class) = Some c) (classes p);
  wf_class_names : map_Forall (fun name c => (fun class => to_ascii_lowercase (cs_ldap_name class)) <$> classes p !! c = Some name) (class_name_to_id p);
  wf_superiors : map_Forall (fun _ class => Forall (fun d => is_Some (classes p !! d)) (superiors class)) (classes p);
  wf_contents : map_Forall (fun _ class => Forall (fun a => is_Some (attributes p !! a)) (must_contain class ++ may_contain class)) (classes p);
}.
Definition baseline : SchemaProjection := match minimal_schema with Ok p => p | _ => SchemaProjection_empty end.
Definition TOP : ClassId := 0x20000.
Lemma baseline_Ok : minimal_schema = Ok baseline.
Proof.
  assert (match minimal_schema with Ok _ => true | _ => false end = true) as H by (vm_compute; reflexivity).
  unfold baseline. by destruct minimal_schema.
Qed.
Lemma baseline_wf : schema_wf baseline.
Proof. split; apply (bool_decide_unpack _); vm_compute; exact I. Qed.
(** Each class reaches [top] in at most two steps. *)
Definition short_walks (p : SchemaProjection) : Prop := map_Forall (fun c class => c = TOP \/ TOP ∈ superiors class
  \/ Exists (fun d => TOP ∈ default [] (superiors <$> classes p !! d)) (superiors class)) (classes p).
Lemma short_walks_top p c : short_walks p -> is_Some (classes p !! c) -> rtc (superior p) c TOP.
Proof.
  intros Hp [class Hc]. destruct (Hp c class Hc) as [->|[Ht|He]]; [constructor|apply rtc_once; by exists class|].
  apply Exists_exists in He as (d & Hd & Ht). eapply rtc_l; [by exists class|]. apply rtc_once.
  destruct (classes p !! d) as [class'|] eqn:E; cbn in Ht; [by exists class'|by apply elem_of_nil in Ht].
Qed.
Lemma baseline_walks : short_walks baseline.
Proof. apply (bool_decide_unpack _). vm_compute. exact I. Qed.
Lemma baseline_top c : is_Some (classes baseline !! c) -> rtc (superior baseline) c TOP.
Proof. apply short_walks_top, baseline_walks. Qed.
Definition OBJECT_CLASS_ATTR : Z := 0x10002.
Definition CN_ATTR : Z := 0x10000.
Definition INSTANCE_TYPE_ATTR : Z := 0x1000E.
Lemma baseline_top_class : exists class, classes baseline !! TOP = Some class /\ must_contain class = [OBJECT_CLASS_ATTR; CN_ATTR; INSTANCE_TYPE_ATTR].
Proof.
  assert (must_contain <$> classes baseline !! TOP = Some [OBJECT_CLASS_ATTR; CN_ATTR; INSTANCE_TYPE_ATTR]) as H by (vm_compute; reflexivity).
  destruct (classes baseline !! TOP) as [class|]; [|discriminate]. injection H as H. by exists class.
Qed.
#[local] Opaque baseline minimal_schema.
Lemma baseline_required roots c a : c ∈ roots -> is_Some (classes baseline !! c) -> a ∈ [OBJECT_CLASS_ATTR; CN_ATTR; INSTANCE_TYPE_ATTR] -> required baseline roots a.
Proof.
  intros Hr Hc Ha. destruct baseline_top_class as (class & Hl & Hm). exists TOP, class. split; [exists c; split; [done|by apply baseline_top]|]. split; [exact Hl|]. by rewrite Hm.
Qed.
Lemma known_class p obj v c : schema_wf p -> v ∈ object_class_values obj -> class_id_of p v = Some c -> c ∈ roots_of p obj /\ is_Some (classes p !! c).
Proof.
  intros Hp Hv Hc. split; [unfold roots_of; apply list_elem_of_omap; by exists v|]. pose proof (wf_class_names _ Hp _ _ Hc) as H. cbn in H. destruct (classes p !! c); [by eexists|done].
Qed.
Lemma baseline_generation : generation baseline = 1.
Proof. vm_compute. reflexivity. Qed.
Lemma baseline_object_class : (fun s => to_ascii_lowercase (as_ldap_name s)) <$> attributes baseline !! OBJECT_CLASS_ATTR = Some (lit "objectclass").
Proof. vm_compute. reflexivity. Qed.
Lemma with_generation_id p : with_generation p (generation p) = p.
Proof. by destruct p. Qed.
Lemma compile_baseline {T} `{DS : DirectoryStore T} (c : SchemaCompiler (S := T)) o : ds_get_by_dn (sco_store c) (DistinguishedName_new SCHEMA_NC_DN) = Ok o -> compile c = Ok baseline.
Proof.
  intros Ho. unfold compile, compile_from_directory. rewrite Ho, baseline_Ok. cbn [rbind]. rewrite <-baseline_generation, with_generation_id. by destruct o.
Qed.

(** ** What the schema crates promise *)

(** C17: Validation, for any projection and any hash order: the walk over the
    class hierarchy ends, and validation answers [Ok] exactly for the objects
    without a class or whose attributes all have the shape of their syntax, are
    system attributes or unknown or belong to a class at or above the object's
    classes, and that have every attribute those classes require; the error names
    an attribute that is missing, that is not allowed, or whose value is
    malformed; it never panics. *)
Theorem schema_validate_iff (iter : gset Z -> list Z) (p : SchemaProjection) (obj : Object) : (forall X : gset Z, iter X ≡ₚ elements X) ->
  (validate_object iter p obj = Ok tt <->
     object_class_values obj = []
     \/ (Forall (allowed p (roots_of p obj)) (obj_attributes obj) /\ forall id, required p (roots_of p obj) id -> has_attribute p obj id))
  /\ match validate_object iter p obj with
     | Ok _ => True
     | Err (MissingMustContain id _) => required p (roots_of p obj) id /\ ~ has_attribute p obj id
     | Err (DisallowedAttribute id _) => ~ required p (roots_of p obj) id /\ ~ optional p (roots_of p obj) id /\ exists a, a ∈ obj_attributes obj /\ schema_id p a = Some id
     | Err (ProjectionCompile e) => exists a, a ∈ obj_attributes obj /\ validate_syntax a p = Err (ProjectionCompile e)
     | _ => False
     end.
Proof.
  intros Hi. destruct (validate_object_spec p iter obj Hi) as [H1 H2]. split.
  - split; [|exact H2]. intros E. rewrite E in H1. exact H1.
  - destruct (validate_object iter p obj) as [|[]|]; try done. destruct H1 as ((a & Ha & _ & Hid) & H1 & H3). split; [done|]. split; [done|]. by exists a.
Qed.
Definition sample_user (cn_id : Z) : Object :=
  mkObject 7 (mkDN (lit "CN=u")) [mkAttribute OBJECT_CLASS_ATTR (lit "objectClass") (lit "user"); mkAttribute cn_id (lit "cn") (lit "u");
    mkAttribute INSTANCE_TYPE_ATTR (lit "instanceType") [x04]; mkAttribute 0 (lit "sAMAccountName") (lit "u")] 0.
Lemma schema_validate_iff_witness :
  validate_object elements baseline (sample_user 0) = Ok tt
  /\ Forall (allowed baseline (roots_of baseline (sample_user 0))) (obj_attributes (sample_user 0)).
Proof.
  destruct (schema_validate_iff elements baseline (sample_user 0)) as [[H _] _]; [done|]. assert (validate_object elements baseline (sample_user 0) = Ok tt) as E by (vm_compute; reflexivity).
  split; [exact E|]. destruct (H E) as [Hv|[Ha _]]; [vm_compute in Hv; discriminate|exact Ha].
Defined.

(** C38: The baseline schema is built without a panic and is closed: identifiers
    and lower-case names correspond both ways, every superior, required and
    optional attribute exists, every class is below [top].  Compiling from any
    directory store that answers gives this schema as generation 1, so a
    recompilation always reports generation 2.  An object with a known class is
    valid only if it has [objectClass], [cn] and [instanceType]; and since system
    attributes count under the identifier stored with them, an object whose
    attributes all carry the identifier 0, as the LDAP handlers write them, is
    never valid. *)
Theorem schema_baseline :
  minimal_schema = Ok baseline /\ schema_wf baseline /\ (forall c, is_Some (classes baseline !! c) -> rtc (superior baseline) c TOP)
  /\ (forall (S : Type) (DS : DirectoryStore S) (c : SchemaCompiler (S := S)) o, ds_get_by_dn (sco_store c) (DistinguishedName_new SCHEMA_NC_DN) = Ok o ->
        compile c = Ok baseline /\ recompile_and_swap c = Ok 2)
  /\ (forall iter obj v c, (forall X : gset Z, iter X ≡ₚ elements X) -> v ∈ object_class_values obj -> class_id_of baseline v = Some c ->
        (validate_object iter baseline obj = Ok tt -> forall a, a ∈ [OBJECT_CLASS_ATTR; CN_ATTR; INSTANCE_TYPE_ATTR] -> has_attribute baseline obj a)
        /\ (Forall (fun a => attribute_id a = 0) (obj_attributes obj) -> validate_object iter baseline obj <> Ok tt)).
Proof.
  split; [apply baseline_Ok|]. split; [apply baseline_wf|]. split; [apply baseline_top|]. split.
  - intros S DS c o Ho. unfold recompile_and_swap. rewrite (compile_baseline c o Ho). cbn [rbind]. by rewrite baseline_generation.
  - intros iter obj v c Hi Hv Hc. destruct (known_class baseline obj v c baseline_wf Hv Hc) as [Hr Hs].
    assert (validate_object iter baseline obj = Ok tt -> forall a, a ∈ [OBJECT_CLASS_ATTR; CN_ATTR; INSTANCE_TYPE_ATTR] -> has_attribute baseline obj a) as Hneed.
    { intros E a Ha. destruct (validate_object_spec baseline iter obj Hi) as [H1 _]. rewrite E in H1. destruct H1 as [H1|[_ H1]]; [rewrite H1 in Hv; destruct (not_elem_of_nil _ Hv)|].
      apply H1. exact (baseline_required _ c a Hr Hs Ha). }
    split; [exact Hneed|]. intros Hz E. destruct (Hneed E OBJECT_CLASS_ATTR ltac:(apply elem_of_cons; by left)) as (a & Ha & Hid). pose proof (proj1 (Forall_forall _ _) Hz a Ha) as H0. cbn in H0.
    unfold counts_as in Hid. destruct (decide _) as [Hs'|Hs']; [rewrite H0 in Hid; discriminate|].
    pose proof (wf_attribute_names _ baseline_wf _ _ Hid) as Hn. apply (eq_trans (eq_sym baseline_object_class)) in Hn. injection Hn as Hn. apply Hs'. unfold is_system. rewrite <-Hn. clear. apply (bool_decide_unpack _). vm_compute. exact I.
Qed.
