(* ===== verification/Ca.v ===== *)
(** * Ca: the certification authority ([adrian-ca])

    Profiles, certification requests, the service with its ledgers, and the
    certificates and revocation lists it builds.  The structures are those of
    [rasn_pkix] (the fields the code always leaves [None] are left out); their DER
    codecs, the arithmetic of [chrono], the alphabets of the ASN.1 strings and the
    keys, signatures and digests of [ring] are parameters.  A time is a number, an
    [Any] and an [OctetString] their bytes, a [BitString] its bits.  The clock and
    the randomness of an operation are arguments; [time_exact] says which times a
    [GeneralizedTime] represents exactly. *)
From S2P Require Import Prelude Bytes Text.

(** ** Errors *)

Inductive CsrProblem :=
| CsrDerDecode
| UnsupportedKeyAlgorithm (arcs : list Z)
| BadCurveParameter
| UnsupportedCurve (arcs : list Z)
| MissingCurve
| SelfSignatureInvalid.
Inductive CaEncodingProblem := RasnEncode | RasnDecode | BadEkuArc (arc : bytes) | BadEkuOid (oid : bytes) | DnsSan (name : bytes).
Inductive SerialProblem := EmptySerial | SerialTooLong (len : nat).
Inductive CaError :=
| ProfileNotFound (name : bytes)
| ProfileYaml
| CsrInvalid (p : CsrProblem)
| IssuanceDenied (text : bytes)
| CaHsm (text : bytes)
| CaStorage (path : bytes)
| CaEncoding (p : CaEncodingProblem)
| CaCrypto
| CaNotFound (p : SerialProblem).

(** ** Profiles *)

Inductive EnrollmentAuth := Anonymous | DomainAuth | AgentApproval.
Record CertProfile := mkCertProfile {
  cp_name : bytes;
  template_oid : bytes;
  key_usages : list bytes;
  extended_key_usages : list bytes;
  validity_days : Z;
  subject_name_format : bytes;
  san_templates : list bytes;
  enrollment_auth : EnrollmentAuth;
}.
Inductive CertProfileKind := WebServer | ClientCert | CodeSigning | KerberosKdc.
Definition kind_profile (k : CertProfileKind) : CertProfile :=
  match k with
  | WebServer => mkCertProfile (lit "adrian-webserver") (lit "1.3.6.1.4.1.5991.1.10") [lit "digitalSignature"; lit "keyEncipherment"]
      [lit "1.3.6.1.5.5.7.3.1"] 90 (lit "CN={common_name}") [lit "DNS:{dns_name}"] Anonymous
  | ClientCert => mkCertProfile (lit "adrian-client") (lit "1.3.6.1.4.1.5991.1.11") [lit "digitalSignature"]
      [lit "1.3.6.1.5.5.7.3.2"] 365 (lit "CN={common_name}") [lit "UPN:{upn}"] DomainAuth
  | CodeSigning => mkCertProfile (lit "adrian-codesigning") (lit "1.3.6.1.4.1.5991.1.12") [lit "digitalSignature"; lit "keyCertSign"]
      [lit "1.3.6.1.5.5.7.3.3"] 1095 (lit "CN={common_name}") [] AgentApproval
  | KerberosKdc => mkCertProfile (lit "adrian-kdc") (lit "1.3.6.1.4.1.5991.1.1") [lit "digitalSignature"; lit "keyEncipherment"]
      [lit "1.3.6.1.5.2.3.5"] 365 (lit "CN={host}.adrian.dev") [lit "DNS:{host}.adrian.dev"] DomainAuth
  end.
Definition kind_from_name (name : bytes) : option CertProfileKind :=
  if bool_decide (name = lit "adrian-webserver") then Some WebServer
  else if bool_decide (name = lit "adrian-client") then Some ClientCert
  else if bool_decide (name = lit "adrian-codesigning") then Some CodeSigning
  else if bool_decide (name = lit "adrian-kdc") then Some KerberosKdc
  else None.

(** ** The structures of [rasn_pkix] *)

Record Oid := mkOid { arcs : list Z }.
#[global] Instance Oid_eq_dec : EqDecision Oid.
Proof. solve_decision. Defined.
Record PrintableString := mkPrintableString { ps_bytes : bytes }.
Record OctetString := mkOctetString { os_bytes : bytes }.
Record BitString := mkBitString { bits : list bool }.
Record AttributeTypeAndValue := mkAttributeTypeAndValue { atv_type : Oid; atv_value : bytes }.
(** [RdnSequence]: a relative name is a set, here the list [to_vec] gives. *)
Record Name := mkName { rdns : list (list AttributeTypeAndValue) }.
Record AlgorithmIdentifier := mkAlgorithmIdentifier { ai_algorithm : Oid; ai_parameters : option bytes }.
Record SubjectPublicKeyInfo := mkSubjectPublicKeyInfo { spki_algorithm : AlgorithmIdentifier; subject_public_key : BitString }.
Record Extension := mkExtension { extn_id : Oid; critical : bool; extn_value : bytes }.
Record AuthorityKeyIdentifier := mkAuthorityKeyIdentifier { key_identifier : option bytes }.
Record BasicConstraints := mkBasicConstraints { bc_ca : bool; path_len_constraint : option Z }.
Record GeneralName := mkDnsName { dns_name : bytes }.
Inductive X509Version := V1 | V2 | V3.
Record TbsCertificate := mkTbsCertificate {
  tc_version : X509Version;
  serial_number : Z;
  tc_signature : AlgorithmIdentifier;
  tc_issuer : Name;
  not_before : Z;
  not_after : Z;
  tc_subject : Name;
  subject_public_key_info : SubjectPublicKeyInfo;
  tc_extensions : option (list Extension);
}.
Record Certificate := mkCertificate { tbs_certificate : TbsCertificate; signature_algorithm : AlgorithmIdentifier; signature_value : BitString }.
Record RevokedCertificate := mkRevokedCertificate { user_certificate : Z; rc_revocation_date : Z }.
Record TbsCertList := mkTbsCertList {
  tl_version : X509Version;
  tl_signature : AlgorithmIdentifier;
  tl_issuer : Name;
  this_update : Z;
  next_update : option Z;
  revoked_certificates : list RevokedCertificate;
  crl_extensions : option (list Extension);
}.
Record CertificateList := mkCertificateList { tbs_cert_list : TbsCertList; crl_signature_algorithm : AlgorithmIdentifier; crl_signature : BitString }.
Record CertificationRequestInfo := mkCertificationRequestInfo {
  csr_version : Z;
  csr_subject : Name;
  subject_pk_info : SubjectPublicKeyInfo;
  csr_attributes : bytes;
}.
Record CertificationRequest := mkCertificationRequest {
  certification_request_info : CertificationRequestInfo;
  csr_signature_algorithm : AlgorithmIdentifier;
  csr_signature : BitString;
}.

(** ** What the libraries provide *)

Class X509 := {
  oid_valid : list Z -> bool;
  printable_ok : bytes -> bool;
  ia5_ok : bytes -> bool;
  into_vec : BitString -> bytes;
  add_days : Z -> Z -> option Z;
  time_exact : Z -> bool;
  der_oid :: Der Oid;
  der_printable :: Der PrintableString;
  der_octets :: Der OctetString;
  der_bits :: Der BitString;
  der_aki :: Der AuthorityKeyIdentifier;
  der_bc :: Der BasicConstraints;
  der_eku :: Der (list Oid);
  der_san :: Der (list GeneralName);
  der_tbs :: Der TbsCertificate;
  der_cert :: Der Certificate;
  der_tbs_crl :: Der TbsCertList;
  der_crl :: Der CertificateList;
  der_csr_info :: Der CertificationRequestInfo;
  der_csr :: Der CertificationRequest;
}.
Class Ring := {
  EcdsaKeyPair : Type;
  Rng : Type;
  generate_pkcs8 : Rng -> option bytes;
  ring_from_pkcs8 : bytes -> option EcdsaKeyPair;
  public_key : EcdsaKeyPair -> bytes;
  ring_sign : EcdsaKeyPair -> Rng -> bytes -> option bytes;
  ecdsa_verify : bytes -> bytes -> bytes -> bool;
  sha1 : bytes -> bytes;
  sha256 : bytes -> bytes;
}.
(** [BitVec::<u8, Msb0>::from_vec]. *)
Definition msb0_bits (b : byte) : list bool := map (fun i => Z.testbit (b2z b) (7 - Z.of_nat i)) (seq 0 8).
Definition from_vec (b : bytes) : BitString := mkBitString (concat (map msb0_bits b)).

Definition OID_ECDSA_SHA256 : list Z := [1; 2; 840; 10045; 4; 3; 2].
Definition OID_EC_PUBLIC_KEY : list Z := [1; 2; 840; 10045; 2; 1].
Definition OID_SECP256R1 : list Z := [1; 2; 840; 10045; 3; 1; 7].
Definition OID_COMMON_NAME : list Z := [2; 5; 4; 3].
Definition OID_SKI : list Z := [2; 5; 29; 14].
Definition OID_KU : list Z := [2; 5; 29; 15].
Definition OID_SAN : list Z := [2; 5; 29; 17].
Definition OID_BC : list Z := [2; 5; 29; 19].
Definition OID_AKI : list Z := [2; 5; 29; 35].
Definition OID_EKU : list Z := [2; 5; 29; 37].
Definition KU_DIGITAL_SIGNATURE : nat := 0.
Definition KU_KEY_ENCIPHERMENT : nat := 2.
Definition KU_KEY_CERT_SIGN : nat := 5.

Section Ca.
Context {XP : X509} {RI : Ring}.

Definition der_enc {A} `{!Der A} (a : A) : Result CaError bytes := ok_or (der_encode a) (CaEncoding RasnEncode).
(** [ObjectIdentifier::new(..).expect(..)]. *)
Definition oid (l : list Z) : Result CaError Oid := if oid_valid l then Ok (mkOid l) else Panic.

Definition ecdsa_sha256_alg_id : Result CaError AlgorithmIdentifier :=
  let? o := oid OID_ECDSA_SHA256 in Ok (mkAlgorithmIdentifier o None).
Definition ec_p256_pubkey_alg_id : Result CaError AlgorithmIdentifier :=
  let? curve_oid := oid OID_SECP256R1 in
  match der_encode curve_oid with
  | None => Panic
  | Some curve_der => let? o := oid OID_EC_PUBLIC_KEY in Ok (mkAlgorithmIdentifier o (Some curve_der))
  end.
Definition name_from_cn (cn : bytes) : Result CaError Name :=
  if printable_ok cn then
    let? o := oid OID_COMMON_NAME in
    Ok (mkName [[mkAttributeTypeAndValue o (default [] (der_encode (mkPrintableString cn)))]])
  else Panic.

(** ** The key pair *)

Record CaKeyPair := mkCaKeyPair { kp : EcdsaKeyPair; public_sec1 : bytes; ski_bytes : bytes }.
Definition CaKeyPair_from_pkcs8 (pkcs8_der : bytes) : Result CaError CaKeyPair :=
  let? kp := ok_or (ring_from_pkcs8 pkcs8_der) CaCrypto in
  Ok (mkCaKeyPair kp (public_key kp) (sha1 (public_key kp))).
Definition CaKeyPair_generate (rng : Rng) : Result CaError CaKeyPair :=
  let? pkcs8 := ok_or (generate_pkcs8 rng) CaCrypto in CaKeyPair_from_pkcs8 pkcs8.
Definition key_sign (key : CaKeyPair) (rng : Rng) (data : bytes) : Result CaError bytes := ok_or (ring_sign (kp key) rng data) CaCrypto.
Definition spki_of (sec1 : bytes) : Result CaError SubjectPublicKeyInfo :=
  let? alg := ec_p256_pubkey_alg_id in Ok (mkSubjectPublicKeyInfo alg (from_vec sec1)).
Definition spki (key : CaKeyPair) : Result CaError SubjectPublicKeyInfo := spki_of (public_sec1 key).

(** ** Extensions *)

Definition ext_ski (ski : bytes) : Result CaError Extension :=
  let? o := oid OID_SKI in let? v := der_enc (mkOctetString ski) in Ok (mkExtension o false v).
Definition ext_aki (ca_ski : bytes) : Result CaError Extension :=
  let? o := oid OID_AKI in let? v := der_enc (mkAuthorityKeyIdentifier (Some ca_ski)) in Ok (mkExtension o false v).
Definition ext_basic_constraints (ca : bool) (path_len : option Z) : Result CaError Extension :=
  let? o := oid OID_BC in let? v := der_enc (mkBasicConstraints ca path_len) in Ok (mkExtension o true v).
(** [buf[b / 8] |= 1 << (7 - b % 8)] on the two-byte buffer. *)
Fixpoint set_bits (buf : bytes) (positions : list nat) : Result CaError bytes :=
  match positions with
  | [] => Ok buf
  | b :: positions =>
      match buf !! (b / 8)%nat with
      | Some x => set_bits (<[(b / 8)%nat := z2b (Z.lor (b2z x) (Z.shiftl 1 (7 - Z.of_nat (b mod 8))))]> buf) positions
      | None => Panic
      end
  end.
Definition max_nat (l : list nat) : option nat := match l with [] => None | x :: l => Some (foldr Nat.max x l) end.
Definition key_usage_bits (positions : list nat) : Result CaError BitString :=
  let? buf := set_bits [x00; x00] positions in
  let last_used := (default 0 (max_nat positions) mod 8)%nat in
  let unused := (if last_used =? 0 then 0 else 7 - last_used)%nat in
  let needed_bytes := default 1%nat (max_nat (map (fun b => b / 8 + 1)%nat positions)) in
  let? bytes := slice buf 0 needed_bytes in
  Ok (mkBitString (take (needed_bytes * 8 - unused) (bits (from_vec bytes)))).
Definition ext_key_usage (positions : list nat) : Result CaError Extension :=
  let? bv := key_usage_bits positions in
  let? o := oid OID_KU in let? v := der_enc bv in Ok (mkExtension o true v).
Definition parse_arc (a : bytes) : Result CaError Z := ok_or (from_str_radix 32 10 a) (CaEncoding (BadEkuArc a)).
Definition parse_eku (s : bytes) : Result CaError Oid :=
  let? arcs := rmap parse_arc (split_on x2e s) in
  if oid_valid arcs then Ok (mkOid arcs) else Err (CaEncoding (BadEkuOid s)).
Definition ext_eku (ekus : list bytes) : Result CaError Extension :=
  let? oids := rmap parse_eku ekus in
  let? o := oid OID_EKU in let? v := der_enc oids in Ok (mkExtension o false v).
Definition dns_general_name (d : bytes) : Result CaError GeneralName := if ia5_ok d then Ok (mkDnsName d) else Err (CaEncoding (DnsSan d)).
Definition ext_san_dns (dns_names : list bytes) : Result CaError Extension :=
  let? names := rmap dns_general_name dns_names in
  let? o := oid OID_SAN in let? v := der_enc names in Ok (mkExtension o false v).

(** ** Certification requests *)

Definition csr_from_der (der : bytes) : Result CaError CertificationRequest := ok_or (der_decode der) (CsrInvalid CsrDerDecode).
Definition public_key_sec1 (csr : CertificationRequest) : Result CaError bytes :=
  let pk_info := subject_pk_info (certification_request_info csr) in
  let? want_alg := oid OID_EC_PUBLIC_KEY in
  if negb (bool_decide (ai_algorithm (spki_algorithm pk_info) = want_alg)) then Err (CsrInvalid (UnsupportedKeyAlgorithm (arcs (ai_algorithm (spki_algorithm pk_info)))))
  else
    match ai_parameters (spki_algorithm pk_info) with
    | None => Err (CsrInvalid MissingCurve)
    | Some p =>
        let? decoded_oid := ok_or (der_decode p) (CsrInvalid BadCurveParameter) in
        let? want_curve := oid OID_SECP256R1 in
        if negb (bool_decide (decoded_oid = want_curve)) then Err (CsrInvalid (UnsupportedCurve (arcs decoded_oid)))
        else Ok (into_vec (subject_public_key pk_info))
    end.
(** The text of a [PrintableString] is ASCII. *)
Definition subject_cn (csr : CertificationRequest) : option bytes :=
  rdn ← head (rdns (csr_subject (certification_request_info csr)));
  atv ← head rdn;
  if negb (oid_valid OID_COMMON_NAME) then None
  else if negb (bool_decide (atv_type atv = mkOid OID_COMMON_NAME)) then None
  else ps ← der_decode (atv_value atv); Some (from_utf8_lossy (ps_bytes ps)).
Definition verify_signature (csr : CertificationRequest) : Result CaError unit :=
  let? pub_sec1 := public_key_sec1 csr in
  let? tbs_der := der_enc (certification_request_info csr) in
  if ecdsa_verify pub_sec1 tbs_der (into_vec (csr_signature csr)) then Ok tt else Err (CsrInvalid SelfSignatureInvalid).

(** ** Certificates *)

Definition root_extensions (key : CaKeyPair) : Result CaError (list Extension) :=
  let? bc := ext_basic_constraints true (Some 1) in
  let? ku := ext_key_usage [KU_KEY_CERT_SIGN] in
  let? ski := ext_ski (ski_bytes key) in
  let? aki := ext_aki (ski_bytes key) in
  Ok [bc; ku; ski; aki].
(** The TBS part is encoded, signed and wrapped. *)
Definition sign_tbs (key : CaKeyPair) (rng : Rng) (tbs : TbsCertificate) : Result CaError bytes :=
  let? tbs_der := der_enc tbs in
  let? sig := key_sign key rng tbs_der in
  let? alg := ecdsa_sha256_alg_id in
  der_enc (mkCertificate tbs alg (from_vec sig)).
(** [now + Duration::days(n)] panics out of the range of [chrono]. *)
Definition plus_days (now n : Z) : Result CaError Z := match add_days now n with Some t => Ok t | None => Panic end.
Definition build_root_cert (rng : Rng) (now : Z) (key : CaKeyPair) (subject : Name) : Result CaError bytes :=
  let serial := 1 in
  let? not_after := plus_days now 3650 in
  let? spki := spki key in
  let? extensions := root_extensions key in
  let? alg := ecdsa_sha256_alg_id in
  sign_tbs key rng (mkTbsCertificate V3 serial alg subject now not_after subject spki (Some extensions)).
Definition ku_bit (ku : bytes) : option nat :=
  if bool_decide (ku = lit "digitalSignature") then Some KU_DIGITAL_SIGNATURE
  else if bool_decide (ku = lit "keyEncipherment") then Some KU_KEY_ENCIPHERMENT
  else if bool_decide (ku = lit "keyCertSign") then Some KU_KEY_CERT_SIGN
  else None.
Definition end_entity_extensions (ca_key : CaKeyPair) (pub_sec1 : bytes) (profile : CertProfile) (dns_names : list bytes) : Result CaError (list Extension) :=
  let? bc := ext_basic_constraints false None in
  let? ku := ext_key_usage (omap ku_bit (key_usages profile)) in
  let? ski := ext_ski (sha1 pub_sec1) in
  let? aki := ext_aki (ski_bytes ca_key) in
  let? eku := match extended_key_usages profile with [] => Ok [] | ekus => let? e := ext_eku ekus in Ok [e] end in
  let? san := match dns_names with [] => Ok [] | names => let? e := ext_san_dns names in Ok [e] end in
  Ok ([bc; ku; ski; aki] ++ eku ++ san).
Definition build_end_entity_cert (rng : Rng) (ca_key : CaKeyPair) (issuer subject : Name) (pub_sec1 : bytes) (serial not_before not_after : Z)
    (profile : CertProfile) (dns_names : list bytes) : Result CaError bytes :=
  let? extensions := end_entity_extensions ca_key pub_sec1 profile dns_names in
  let? spki := spki_of pub_sec1 in
  let? alg := ecdsa_sha256_alg_id in
  sign_tbs ca_key rng (mkTbsCertificate V3 serial alg issuer not_before not_after subject spki (Some extensions)).

(** ** The service *)

Record IssuedCert := mkIssuedCert { ic_serial : Z; ic_subject_cn : option bytes; ic_not_after : Z; ic_der : bytes }.
Inductive CrlReason :=
| Unspecified | KeyCompromise | CaCompromise | AffiliationChanged | Superseded | CessationOfOperation | CertificateHold | PrivilegeWithdrawn | AaCompromise.
Record RevokedEntry := mkRevokedEntry { re_serial : Z; re_revocation_date : Z; re_reason : CrlReason }.
Definition parse_crl_reason (s : bytes) : CrlReason :=
  if bool_decide (s = lit "keyCompromise") then KeyCompromise
  else if bool_decide (s = lit "caCompromise") then CaCompromise
  else if bool_decide (s = lit "affiliationChanged") then AffiliationChanged
  else if bool_decide (s = lit "superseded") then Superseded
  else if bool_decide (s = lit "cessationOfOperation") then CessationOfOperation
  else if bool_decide (s = lit "certificateHold") then CertificateHold
  else if bool_decide (s = lit "privilegeWithdrawn") then PrivilegeWithdrawn
  else if bool_decide (s = lit "aACompromise") then AaCompromise
  else Unspecified.
Record CaService := mkCaService {
  ca_key : CaKeyPair;
  ca_subject : Name;
  root_der : bytes;
  ca_serial : Z;
  ca_issued : list IssuedCert;
  ca_revoked : list RevokedEntry;
  ca_profiles : gmap bytes CertProfile;
}.
Definition builtin_profiles : gmap bytes CertProfile :=
  foldl (fun ps k => <[cp_name (kind_profile k) := kind_profile k]> ps) ∅ [WebServer; ClientCert; CodeSigning; KerberosKdc].
Definition with_subject_cn (rng sign_rng : Rng) (now : Z) (cn : bytes) : Result CaError CaService :=
  let? key := CaKeyPair_generate rng in
  let? subject := name_from_cn cn in
  let? root_der := build_root_cert sign_rng now key subject in
  Ok (mkCaService key subject root_der 1 [] [] builtin_profiles).
Definition CaService_new (rng sign_rng : Rng) (now : Z) : Result CaError CaService := with_subject_cn rng sign_rng now (lit "Adrian Root CA").
Definition profile (ca : CaService) (name : bytes) : Result CaError CertProfile := ok_or (ca_profiles ca !! name) (ProfileNotFound name).
Definition profile_names (ca : CaService) : list bytes := map fst (btree_iter (ca_profiles ca)).

(** What [issue] checks before it takes a serial number. *)
Definition admit_csr (ca : CaService) (profile_name csr_der : bytes) : Result CaError (CertProfile * CertificationRequest * bytes) :=
  let? profile := profile ca profile_name in
  let? csr := csr_from_der csr_der in
  let? _ := verify_signature csr in
  let? pub_sec1 := public_key_sec1 csr in
  Ok (profile, csr, pub_sec1).
Definition take_serial (ca : CaService) : Z * CaService :=
  (ca_serial ca, mkCaService (ca_key ca) (ca_subject ca) (root_der ca) (as_u64 (ca_serial ca + 1)) (ca_issued ca) (ca_revoked ca) (ca_profiles ca)).
Definition record_issued (ca : CaService) (i : IssuedCert) : CaService :=
  mkCaService (ca_key ca) (ca_subject ca) (root_der ca) (ca_serial ca) (ca_issued ca ++ [i]) (ca_revoked ca) (ca_profiles ca).
Definition issue (rng : Rng) (now : Z) (ca : CaService) (profile_name csr_der : bytes) : Result CaError bytes * CaService :=
  match admit_csr ca profile_name csr_der with
  | Ok (profile, csr, pub_sec1) =>
      let dns_names := match subject_cn csr with Some cn => [cn] | None => [] end in
      let '(serial, ca) := take_serial ca in
      match let? not_after := plus_days now (validity_days profile) in
            let? der := build_end_entity_cert rng (ca_key ca) (ca_subject ca) (csr_subject (certification_request_info csr)) pub_sec1 serial now
                          not_after profile dns_names in
            Ok (not_after, der)
      with
      | Ok (not_after, der) => (Ok der, record_issued ca (mkIssuedCert serial (subject_cn csr) not_after der))
      | Err e => (Err e, ca)
      | Panic => (Panic, ca)
      end
  | Err e => (Err e, ca)
  | Panic => (Panic, ca)
  end.

Definition parse_serial_bytes (b : bytes) : Result CaError Z :=
  if (length b =? 0)%nat then Err (CaNotFound EmptySerial)
  else if (8 <? length b)%nat then Err (CaNotFound (SerialTooLong (length b)))
  else Ok (foldl (fun v byte => Z.lor (as_u64 (Z.shiftl v 8)) (b2z byte)) 0 b).
Definition revoke (now : Z) (ca : CaService) (serial reason : bytes) : Result CaError unit * CaService :=
  match parse_serial_bytes serial with
  | Ok serial_u64 =>
      let entry := mkRevokedEntry serial_u64 now (parse_crl_reason reason) in
      (Ok tt,
       if existsb (fun e => re_serial e =? serial_u64) (ca_revoked ca) then ca
       else mkCaService (ca_key ca) (ca_subject ca) (root_der ca) (ca_serial ca) (ca_issued ca) (ca_revoked ca ++ [entry]) (ca_profiles ca))
  | Err e => (Err e, ca)
  | Panic => (Panic, ca)
  end.
Definition revoked_serials (ca : CaService) : list Z := merge_sort Z.le (map re_serial (ca_revoked ca)).
Definition crl_der (rng : Rng) (now : Z) (ca : CaService) : Result CaError bytes :=
  let? next_update := plus_days now 7 in
  let revoked_entries := map (fun e => mkRevokedCertificate (re_serial e) (re_revocation_date e)) (ca_revoked ca) in
  let? alg := ecdsa_sha256_alg_id in
  let? aki := ext_aki (ski_bytes (ca_key ca)) in
  let tbs := mkTbsCertList V1 alg (ca_subject ca) now (Some next_update) revoked_entries (Some [aki]) in
  let? tbs_der := der_enc tbs in
  let? sig := key_sign (ca_key ca) rng tbs_der in
  der_enc (mkCertificateList tbs alg (from_vec sig)).
(** [read] is the text of the file, [parse] the parser of [serde_yaml]. *)
Definition load_profiles (read : bytes -> option bytes) (parse : bytes -> option (list CertProfile)) (ca : CaService) (path : bytes)
    : Result CaError (list CertProfile) * CaService :=
  match let? yaml := ok_or (read path) (CaStorage path) in ok_or (parse yaml) ProfileYaml with
  | Ok parsed =>
      (Ok parsed, mkCaService (ca_key ca) (ca_subject ca) (root_der ca) (ca_serial ca) (ca_issued ca) (ca_revoked ca)
                    (foldl (fun ps p => <[cp_name p := p]> ps) (ca_profiles ca) parsed))
  | Err e => (Err e, ca)
  | Panic => (Panic, ca)
  end.
End Ca.
