(* ===== verification/CaSpec.v ===== *)
(** * CaSpec: what the certification authority issues and revokes *)
From S2P Require Import Prelude Bytes Text Ca.

#[global] Instance AttributeTypeAndValue_eq_dec : EqDecision AttributeTypeAndValue.
Proof. solve_decision. Defined.
#[global] Instance Name_eq_dec : EqDecision Name.
Proof. solve_decision. Defined.

(** ** The laws of the libraries *)

Section Valid.
Context {XP : X509}.
Definition oid_ok (o : Oid) : Prop := oid_valid (arcs o) = true.
Definition name_ok (n : Name) : Prop := Forall (Forall (fun a => oid_ok (atv_type a))) (rdns n).
Definition alg_ok (a : AlgorithmIdentifier) : Prop := oid_ok (ai_algorithm a).
Definition extensions_ok (l : option (list Extension)) : Prop := Forall (fun e => oid_ok (extn_id e)) (default [] l).
Definition tbs_ok (t : TbsCertificate) : Prop :=
  0 <= serial_number t /\ alg_ok (tc_signature t) /\ name_ok (tc_issuer t) /\ name_ok (tc_subject t) /\ time_exact (not_before t) = true
  /\ time_exact (not_after t) = true /\ alg_ok (spki_algorithm (subject_public_key_info t)) /\ extensions_ok (tc_extensions t).
Definition cert_ok (c : Certificate) : Prop := tbs_ok (tbs_certificate c) /\ alg_ok (signature_algorithm c).
Definition tbs_crl_ok (t : TbsCertList) : Prop :=
  alg_ok (tl_signature t) /\ name_ok (tl_issuer t) /\ time_exact (this_update t) = true /\ Forall (fun n => time_exact n = true) (option_list (next_update t))
  /\ Forall (fun r => 0 <= user_certificate r /\ time_exact (rc_revocation_date r) = true) (revoked_certificates t) /\ extensions_ok (crl_extensions t).
Definition crl_ok (c : CertificateList) : Prop := tbs_crl_ok (tbs_cert_list c) /\ alg_ok (crl_signature_algorithm c).
End Valid.

Class X509Laws {XP : X509} : Prop := {
  oids_valid : Forall (fun l => oid_valid l = true)
    [OID_ECDSA_SHA256; OID_EC_PUBLIC_KEY; OID_SECP256R1; OID_COMMON_NAME; OID_SKI; OID_KU; OID_SAN; OID_BC; OID_AKI; OID_EKU];
  into_from_vec : forall b, into_vec (from_vec b) = b;
  printable_ascii : forall s, printable_ok s = true -> ia5_ok s = true /\ Forall (fun b => b2z b < 128) s;
  decoded_printable : forall b s, der_decode b = Some s -> printable_ok (ps_bytes s) = true;
  decoded_csr : forall b (csr : CertificationRequest), der_decode b = Some csr -> name_ok (csr_subject (certification_request_info csr));
  law_oid : der_law oid_ok;
  law_printable : der_law (fun s => printable_ok (ps_bytes s) = true);
  law_octets : der_law (fun _ : OctetString => True);
  law_bits : der_law (fun _ : BitString => True);
  law_aki : der_law (fun _ : AuthorityKeyIdentifier => True);
  law_bc : der_law (fun b => Forall (fun n => 0 <= n) (option_list (path_len_constraint b)));
  law_eku : der_law (Forall oid_ok);
  law_san : der_law (Forall (fun n => ia5_ok (dns_name n) = true));
  law_tbs : der_law tbs_ok;
  law_cert : der_law cert_ok;
  law_tbs_crl : der_law tbs_crl_ok;
  law_crl : der_law crl_ok;
}.
(** [ring] signs whatever the key and the random numbers, and what it signs verifies
    in the same format: [ECDSA_P256_SHA256_FIXED], the 64 bytes of r and s. *)
Class RingLaws {RI : Ring} : Prop :=
  ring_signs : forall k r m, exists s, ring_sign k r m = Some s /\ ecdsa_verify (public_key k) m s = true /\ length s = 64%nat.

(** ** Key usages *)

Lemma msb0_bits_nth b i : (i < 8)%nat -> nth i (msb0_bits b) false = Z.testbit (b2z b) (7 - Z.of_nat i).
Proof. intros Hi. unfold msb0_bits. rewrite (nth_indep _ _ (Z.testbit (b2z b) (7 - Z.of_nat 0))) by (by rewrite length_map, length_seq).
  change (Z.testbit (b2z b) (7 - Z.of_nat 0)) with ((fun i => Z.testbit (b2z b) (7 - Z.of_nat i)) 0%nat). rewrite map_nth, seq_nth by done. done. Qed.
Lemma testbit_lor_shiftl x n i : 0 <= n -> 0 <= i -> Z.testbit (Z.lor x (Z.shiftl 1 n)) i = Z.testbit x i || (i =? n).
Proof. intros Hn Hi. by rewrite Z.lor_spec, Z.shiftl_1_l, Z.pow2_bits_eqb, (Z.eqb_sym n) by lia. Qed.
Lemma set_bits_spec ps x : Forall (fun p => (p < 8)%nat) ps ->
  exists y, set_bits [x; x00] ps = Ok [y; x00] /\ forall i, (i < 8)%nat -> Z.testbit (b2z y) (7 - Z.of_nat i) = Z.testbit (b2z x) (7 - Z.of_nat i) || bool_decide (i ∈ ps).
Proof.
  revert x. induction ps as [|p ps IH]; intros x Hp; [exists x; split; [done|]; intros i _; by rewrite bool_decide_eq_false_2, orb_false_r by (by apply not_elem_of_nil)|].
  inversion Hp as [|? ? H1 H2]; subst. cbn [set_bits]. rewrite Nat.div_small, Nat.mod_small by done. cbn [lookup list_lookup insert list_insert].
  set (v := Z.lor (b2z x) (Z.shiftl 1 (7 - Z.of_nat p))). assert (0 <= v < 256) as Hv.
  { pose proof (b2z_range x). unfold v. split; [apply Z.lor_nonneg; split; [lia|apply Z.shiftl_nonneg; lia]|].
    destruct (Z.eq_dec (Z.lor (b2z x) (Z.shiftl 1 (7 - Z.of_nat p))) 0) as [->|Hn]; [lia|]. change 256 with (2 ^ 8). apply Z.log2_lt_pow2.
    - assert (0 <= Z.lor (b2z x) (Z.shiftl 1 (7 - Z.of_nat p))); [|lia]. apply Z.lor_nonneg. split; [lia|apply Z.shiftl_nonneg; lia].
    - rewrite Z.log2_lor by (try apply Z.shiftl_nonneg; lia). apply Z.max_lub_lt.
      + destruct (Z.eq_dec (b2z x) 0) as [->|]; [done|]. apply Z.log2_lt_pow2; lia.
      + rewrite Z.log2_shiftl by lia. cbn. lia. }
  destruct (IH (z2b v) H2) as (y & -> & Hy). exists y. split; [done|]. intros i Hi. rewrite Hy by done. rewrite b2z_z2b, (Z.mod_small v) by lia. unfold v. rewrite testbit_lor_shiftl by lia.
  rewrite <-orb_assoc. f_equal. destruct (decide (i = p)) as [->|Hne].
  - rewrite Z.eqb_refl. cbn. symmetry. apply bool_decide_eq_true_2, elem_of_cons. by left.
  - rewrite (proj2 (Z.eqb_neq _ _)) by lia. cbn. apply bool_decide_ext. rewrite elem_of_cons. naive_solver.
Qed.
Lemma foldr_max_le x l i : i ∈ x :: l -> (i <= foldr Nat.max x l)%nat.
Proof. induction l as [|y l IH]; cbn [foldr]; rewrite ?elem_of_cons; intros H; [set_solver by lia|]. destruct H as [->|[->|H]]; [|lia|]; (etrans; [apply IH; set_solver|lia]). Qed.
Lemma key_usage_bits_spec ps : Forall (fun p => (p < 8)%nat) ps ->
  exists bs, key_usage_bits ps = Ok bs /\ forall i, nth i (bits bs) false = bool_decide (i ∈ ps).
Proof.
  intros Hp. unfold key_usage_bits. destruct (set_bits_spec ps x00 Hp) as (y & -> & Hy). cbn [rbind].
  assert (default 1%nat (max_nat (map (fun b => b / 8 + 1)%nat ps)) = 1%nat) as ->.
  { destruct ps as [|p ps]; [done|]. cbn [map max_nat default]. inversion Hp as [|? ? H1 H2]; subst. rewrite Nat.div_small by done. unfold id. cbn [Nat.add].
    clear Hp Hy H1. induction H2 as [|q qs Hq _ IH]; cbn [map foldr]; [done|]. rewrite IH, Nat.div_small by done. done. }
  rewrite slice_Ok by (cbn; lia). cbn [rbind]. change (take (1 - 0) (drop 0 [y; x00])) with [y]. eexists. split; [reflexivity|]. cbn [bits].
  change (bits (from_vec [y])) with (msb0_bits y ++ []). rewrite app_nil_r. intros i.
  set (lu := (default 0 (max_nat ps) mod 8)%nat). set (unused := (if (lu =? 0)%nat then 0 else 7 - lu)%nat).
  assert (length (msb0_bits y) = 8%nat) as Hlen by (unfold msb0_bits; by rewrite length_map, length_seq).
  assert (forall q, q ∈ ps -> (q < 8 - unused)%nat) as Hq.
  { intros q Hq. assert (q <= default 0 (max_nat ps))%nat as Hle by (destruct ps as [|p ps]; [by apply elem_of_nil in Hq|by apply foldr_max_le]).
    assert (default 0 (max_nat ps) < 8)%nat as Hm.
    { clear -Hp. destruct Hp as [|p ps H1 H2]; cbn [max_nat default]; unfold id; [lia|]. induction H2; cbn [foldr]; lia. }
    unfold unused, lu. rewrite Nat.mod_small by done. destruct (Nat.eqb_spec (default 0%nat (max_nat ps)) 0); lia. }
  destruct (decide (i < 8 - unused)%nat) as [Hi|Hi].
  - rewrite nth_firstn, (proj2 (Nat.ltb_lt _ _)) by lia. rewrite msb0_bits_nth by lia. rewrite Hy by lia. cbn. by rewrite Z.bits_0.
  - rewrite nth_overflow by (rewrite length_take; lia). symmetry. apply bool_decide_eq_false_2. intros H. apply Hq in H. lia.
Qed.

(** ** What a certificate says

    The fields of a certificate and the extensions a reader looks up by their
    identifiers. *)
Section Spec.
Context {XP : X509} {RI : Ring}.
Definition find_extension {A} `{!Der A} (l : list Z) (exts : list Extension) : option A :=
  e ← head (filter (fun e => extn_id e = mkOid l) exts); der_decode (extn_value e).
Record CertView := mkCertView {
  v_ca : bool;
  v_subject : Name;
  v_key : bytes;
  v_serial : Z;
  v_usages : list bool;
  v_ekus : option (list Oid);
  v_names : option (list GeneralName);
}.
Definition cert_view (cert : Certificate) : option CertView :=
  let tbs := tbs_certificate cert in
  exts ← tc_extensions tbs;
  bc ← find_extension OID_BC exts;
  usages ← find_extension OID_KU exts;
  Some (mkCertView (bc_ca bc) (tc_subject tbs) (into_vec (subject_public_key (subject_public_key_info tbs))) (serial_number tbs) (bits usages)
          (find_extension OID_EKU exts) (find_extension OID_SAN exts)).
(** The [ECDSA-Sig-Value] X.509 asks for (RFC 3279): a sequence of two integers, in
    DER.  Of 64 bytes it has the header below. *)
Definition sig_value_header (s : bytes) : bool :=
  match s with tag :: len :: rest => bool_decide (tag = x30) && (b2z len =? Z.of_nat (length rest)) | _ => false end.
(** A certificate of an issuer and a key, valid from one time to another, that says
    [view]: its signature value is 64 bytes, r and s, that [ring] verifies over the
    encoding of the signed part. *)
Definition certifies (issuer : Name) (key : bytes) (from until : Z) (view : CertView) (der : bytes) : Prop :=
  exists cert m, der_decode der = Some cert /\ der_encode (tbs_certificate cert) = Some m
    /\ ecdsa_verify key m (into_vec (signature_value cert)) = true /\ length (into_vec (signature_value cert)) = 64%nat
    /\ tc_version (tbs_certificate cert) = V3 /\ tc_issuer (tbs_certificate cert) = issuer
    /\ not_before (tbs_certificate cert) = from /\ not_after (tbs_certificate cert) = until
    /\ cert_view cert = Some view.

Context {XL : X509Laws} {RL : RingLaws}.
Lemma oid_Ok l : l ∈ [OID_ECDSA_SHA256; OID_EC_PUBLIC_KEY; OID_SECP256R1; OID_COMMON_NAME; OID_SKI; OID_KU; OID_SAN; OID_BC; OID_AKI; OID_EKU] ->
  oid l = Ok (mkOid l) /\ oid_ok (mkOid l).
Proof. intros Hl. pose proof (proj1 (Forall_forall _ _) oids_valid l Hl) as H. cbv beta in H. unfold oid, oid_ok. cbn. by rewrite H. Qed.
Lemma der_enc_Ok {A} `{!Der A} (ok : A -> Prop) a : der_law ok -> ok a -> exists b, der_enc a = Ok b /\ der_decode b = Some a.
Proof. intros Hl Ha. destruct (Hl a Ha) as (b & Hb & Hd). exists b. unfold der_enc. by rewrite Hb. Qed.

(** An extension with a known payload. *)
Definition extension_of {A} `{!Der A} (l : list Z) (a : A) (e : Extension) : Prop := extn_id e = mkOid l /\ oid_ok (extn_id e) /\ der_decode (extn_value e) = Some a.
Lemma extension_Ok {A} `{!Der A} (ok : A -> Prop) l c (a : A) : der_law ok -> ok a ->
  l ∈ [OID_ECDSA_SHA256; OID_EC_PUBLIC_KEY; OID_SECP256R1; OID_COMMON_NAME; OID_SKI; OID_KU; OID_SAN; OID_BC; OID_AKI; OID_EKU] ->
  exists e, (let? o := oid l in let? v := der_enc a in Ok (mkExtension o c v)) = Ok e /\ extension_of l a e.
Proof.
  intros Hl Ha Hin. destruct (oid_Ok l Hin) as [-> Ho]. cbn [rbind]. destruct (der_enc_Ok ok a Hl Ha) as (b & -> & Hd). cbn [rbind].
  eexists. split; [reflexivity|]. by split.
Qed.
Ltac oid_in := rewrite !elem_of_cons; tauto.
Lemma find_here {A} `{!Der A} l (a : A) e exts : extension_of l a e -> find_extension l (e :: exts) = Some a.
Proof. intros (He & _ & Hd). unfold find_extension. rewrite filter_cons_True by done. exact Hd. Qed.
Lemma find_next {A B} `{!Der A, !Der B} l l' (b : B) e exts : extension_of l' b e -> l <> l' -> find_extension (A := A) l (e :: exts) = find_extension l exts.
Proof. intros (He & _ & _) Hl. unfold find_extension. rewrite filter_cons_False by (rewrite He; congruence). done. Qed.

Lemma ku_bit_small p : Forall (fun n => (n < 8)%nat) (omap ku_bit (key_usages p)).
Proof.
  apply Forall_forall. intros n Hn. apply list_elem_of_omap in Hn as (u & _ & Hu). unfold ku_bit, KU_DIGITAL_SIGNATURE, KU_KEY_ENCIPHERMENT, KU_KEY_CERT_SIGN in Hu.
  repeat case_bool_decide; simplify_eq; lia.
Qed.
Lemma rmap_parse_ok l oids : rmap parse_eku l = Ok oids -> Forall oid_ok oids /\ (oids = [] <-> l = []).
Proof.
  revert oids. induction l as [|s l IH]; intros oids H; [by injection H as <-|]. cbn [rmap] in H. destruct (parse_eku s) as [o|?|] eqn:Eo; try done. cbn [rbind] in H.
  destruct (rmap parse_eku l) as [os|?|]; try done. injection H as <-. destruct (IH os eq_refl) as [Hos _]. split; [|split; done]. constructor; [|done].
  unfold parse_eku in Eo. destruct (rmap parse_arc (split_on x2e s)) as [a|?|]; try done. cbn [rbind] in Eo. destruct (oid_valid a) eqn:Ea; [|done]. injection Eo as <-. exact Ea.
Qed.
Lemma rmap_dns names : Forall (fun n => ia5_ok n = true) names -> rmap dns_general_name names = Ok (map mkDnsName names).
Proof. induction 1 as [|n names Hn _ IH]; [done|]. cbn [rmap map]. unfold dns_general_name at 1. rewrite Hn. cbn [rbind]. by rewrite IH. Qed.

Definition when_any {A} (l : list A) : option (list A) := match l with [] => None | _ => Some l end.
Lemma fixed_extensions_Ok key pub p : exists bc ku ski aki usages,
  ext_basic_constraints false None = Ok bc /\ ext_key_usage (omap ku_bit (key_usages p)) = Ok ku /\ ext_ski (sha1 pub) = Ok ski /\ ext_aki (ski_bytes key) = Ok aki
  /\ extension_of OID_BC (mkBasicConstraints false None) bc /\ extension_of OID_KU usages ku
  /\ extension_of OID_SKI (mkOctetString (sha1 pub)) ski /\ extension_of OID_AKI (mkAuthorityKeyIdentifier (Some (ski_bytes key))) aki
  /\ forall i, nth i (bits usages) false = bool_decide (i ∈ omap ku_bit (key_usages p)).
Proof.
  unfold ext_basic_constraints, ext_key_usage, ext_ski, ext_aki.
  destruct (extension_Ok _ OID_BC true (mkBasicConstraints false None) law_bc) as (bc & -> & Hbc); [constructor|oid_in|].
  destruct (key_usage_bits_spec _ (ku_bit_small p)) as (usages & -> & Hus). cbn [rbind].
  destruct (extension_Ok _ OID_KU true usages law_bits I) as (ku & -> & Hku); [oid_in|].
  destruct (extension_Ok _ OID_SKI false (mkOctetString (sha1 pub)) law_octets I) as (ski & -> & Hski); [oid_in|].
  destruct (extension_Ok _ OID_AKI false (mkAuthorityKeyIdentifier (Some (ski_bytes key))) law_aki I) as (aki & -> & Haki); [oid_in|].
  by exists bc, ku, ski, aki, usages.
Qed.
Lemma end_entity_extensions_Err key pub p names e : rmap parse_eku (extended_key_usages p) = Err e -> end_entity_extensions key pub p names = Err e.
Proof.
  intros He. unfold end_entity_extensions. destruct (fixed_extensions_Ok key pub p) as (bc & ku & ski & aki & usages & -> & -> & -> & -> & _). cbn [rbind].
  destruct (extended_key_usages p) as [|s l] eqn:El; [done|]. unfold ext_eku. by rewrite He.
Qed.
Lemma rmap_parse_no_panic l : rmap parse_eku l <> Panic.
Proof.
  assert (forall w, rmap parse_arc w <> Panic) as Ha.
  { intros w. induction w as [|x w IH]; [done|]. cbn [rmap]. unfold parse_arc at 1. destruct (from_str_radix 32 10 x); cbn [ok_or rbind]; [|done]. by destruct (rmap parse_arc w). }
  induction l as [|s l IH]; [done|]. cbn [rmap]. unfold parse_eku at 1. specialize (Ha (split_on x2e s)). destruct (rmap parse_arc (split_on x2e s)); cbn [rbind]; [|done..].
  destruct (oid_valid a); cbn [rbind]; [|done]. by destruct (rmap parse_eku l).
Qed.
Lemma end_entity_extensions_Ok key pub p names oids : rmap parse_eku (extended_key_usages p) = Ok oids -> Forall (fun n => ia5_ok n = true) names ->
  exists exts usages, end_entity_extensions key pub p names = Ok exts /\ extensions_ok (Some exts)
    /\ find_extension OID_BC exts = Some (mkBasicConstraints false None)
    /\ find_extension OID_KU exts = Some usages /\ (forall i, nth i (bits usages) false = bool_decide (i ∈ omap ku_bit (key_usages p)))
    /\ find_extension OID_EKU exts = when_any oids /\ find_extension OID_SAN exts = when_any (map mkDnsName names).
Proof.
  intros Hoids Hnames. unfold end_entity_extensions.
  destruct (fixed_extensions_Ok key pub p) as (bc & ku & ski & aki & usages & -> & -> & -> & -> & Hbc & Hku & Hski & Haki & Hus). cbn [rbind].
  destruct (rmap_parse_ok _ _ Hoids) as [Hok Hnil].
  assert (exists eku, match extended_key_usages p with [] => Ok [] | ekus => let? e := ext_eku ekus in Ok [e] end = @Ok CaError _ eku
    /\ match when_any oids with None => eku = [] | Some l => exists e, eku = [e] /\ extension_of OID_EKU l e end) as (eku & -> & Heku).
  { destruct (extended_key_usages p) as [|s l] eqn:El; [exists []; by rewrite (proj2 Hnil eq_refl)|]. unfold ext_eku. rewrite Hoids. cbn [rbind].
    destruct (extension_Ok _ OID_EKU false oids law_eku Hok) as (e & -> & He); [oid_in|]. cbn [rbind]. exists [e]. split; [done|].
    destruct oids as [|o os]; [discriminate (proj1 Hnil eq_refl)|]. cbn. by exists e. }
  assert (exists san, match names with [] => Ok [] | names => let? e := ext_san_dns names in Ok [e] end = @Ok CaError _ san
    /\ match when_any (map mkDnsName names) with None => san = [] | Some l => exists e, san = [e] /\ extension_of OID_SAN l e end) as (san & -> & Hsan).
  { destruct names as [|n names]; [by exists []|]. unfold ext_san_dns. rewrite rmap_dns by done. cbn [rbind].
    destruct (extension_Ok _ OID_SAN false (map mkDnsName (n :: names)) law_san) as (e & -> & He); [by apply Forall_map|oid_in|]. cbn [rbind]. exists [e]. split; [done|]. cbn. by exists e. }
  cbn [rbind]. eexists _, usages. split; [reflexivity|].
  assert (forall A (DA : Der A) l, l <> OID_BC -> l <> OID_KU -> l <> OID_SKI -> l <> OID_AKI ->
    find_extension (A := A) l ([bc; ku; ski; aki] ++ eku ++ san) = find_extension l (eku ++ san)) as Hskip.
  { intros A DA l H1 H2 H3 H4. cbn [app]. rewrite (find_next _ _ _ _ _ Hbc), (find_next _ _ _ _ _ Hku), (find_next _ _ _ _ _ Hski), (find_next _ _ _ _ _ Haki) by done. done. }
  split_and!.
  - unfold extensions_ok. cbn [default id]. rewrite !Forall_app, !Forall_cons. split_and!; try apply Hbc; try apply Hku; try apply Hski; try apply Haki; [constructor|..].
    + destruct (when_any oids); [destruct Heku as (e & -> & He); constructor; [apply He|constructor]|by subst].
    + destruct (when_any (map mkDnsName names)); [destruct Hsan as (e & -> & He); constructor; [apply He|constructor]|by subst].
  - exact (find_here _ _ _ _ Hbc).
  - cbn [app]. rewrite (find_next _ _ _ _ _ Hbc) by done. exact (find_here _ _ _ _ Hku).
  - exact Hus.
  - rewrite Hskip by done. destruct (when_any oids).
    + destruct Heku as (e & -> & He). exact (find_here _ _ _ _ He).
    + subst eku. cbn [app]. destruct (when_any (map mkDnsName names)); [destruct Hsan as (e & -> & He); by rewrite (find_next _ _ _ _ _ He)|by subst].
  - rewrite Hskip by done. destruct (when_any oids); [destruct Heku as (e & -> & He); cbn [app]; rewrite (find_next _ _ _ _ _ He) by done|subst eku; cbn [app]];
      (destruct (when_any (map mkDnsName names)); [destruct Hsan as (e' & -> & He'); exact (find_here _ _ _ _ He')|by subst]).
Qed.

(** ** Issuing *)

Definition key_good (key : CaKeyPair) : Prop := public_sec1 key = public_key (kp key).
Lemma alg_id_Ok : exists a, ecdsa_sha256_alg_id = Ok a /\ alg_ok a.
Proof. unfold ecdsa_sha256_alg_id. destruct (oid_Ok OID_ECDSA_SHA256) as [-> Ho]; [oid_in|]. cbn [rbind]. eexists. by split. Qed.
Lemma spki_Ok pub : exists s, spki_of pub = Ok s /\ alg_ok (spki_algorithm s) /\ into_vec (subject_public_key s) = pub.
Proof.
  unfold spki_of, ec_p256_pubkey_alg_id. destruct (oid_Ok OID_SECP256R1) as [-> Ho]; [oid_in|]. cbn [rbind].
  destruct (law_oid _ Ho) as (b & -> & _). destruct (oid_Ok OID_EC_PUBLIC_KEY) as [-> Ho']; [oid_in|]. cbn [rbind].
  eexists. split; [reflexivity|]. split; [done|]. apply into_from_vec.
Qed.
Lemma sign_tbs_Ok key rng tbs : key_good key -> tbs_ok tbs ->
  exists der cert, sign_tbs key rng tbs = Ok der /\ der_decode der = Some cert /\ tbs_certificate cert = tbs
    /\ exists m, der_encode tbs = Some m /\ ecdsa_verify (public_sec1 key) m (into_vec (signature_value cert)) = true
         /\ length (into_vec (signature_value cert)) = 64%nat.
Proof.
  intros Hk Ht. unfold sign_tbs. destruct (law_tbs tbs Ht) as (m & Hm & _). unfold der_enc at 1. rewrite Hm. cbn [ok_or rbind].
  unfold key_sign. destruct (ring_signs (kp key) rng m) as (sig & -> & Hv & Hl). cbn [ok_or rbind]. destruct alg_id_Ok as (a & -> & Ha). cbn [rbind].
  destruct (der_enc_Ok cert_ok (mkCertificate tbs a (from_vec sig)) law_cert) as (der & -> & Hd); [by split|].
  eexists _, _. split; [reflexivity|]. split; [exact Hd|]. split; [done|]. exists m. split; [done|]. cbn [signature_value]. by rewrite into_from_vec, Hk.
Qed.
Lemma build_end_entity_Ok rng key issuer subject pub serial nb na p names oids :
  key_good key -> name_ok issuer -> name_ok subject -> 0 <= serial -> time_exact nb = true -> time_exact na = true ->
  rmap parse_eku (extended_key_usages p) = Ok oids -> Forall (fun n => ia5_ok n = true) names ->
  exists der usages, build_end_entity_cert rng key issuer subject pub serial nb na p names = Ok der
    /\ (forall i, nth i usages false = bool_decide (i ∈ omap ku_bit (key_usages p)))
    /\ certifies issuer (public_sec1 key) nb na (mkCertView false subject pub serial usages (when_any oids) (when_any (map mkDnsName names))) der.
Proof.
  intros Hk Hi Hs Hser Hnb Hna Hoids Hnames. unfold build_end_entity_cert.
  destruct (end_entity_extensions_Ok key pub p names oids Hoids Hnames) as (exts & usages & -> & Hex & Hbc & Hku & Hus & Heku & Hsan). cbn [rbind].
  destruct (spki_Ok pub) as (s & -> & Hsa & Hsk). cbn [rbind]. destruct alg_id_Ok as (a & -> & Ha). cbn [rbind].
  set (tbs := mkTbsCertificate _ _ _ _ _ _ _ _ _). destruct (sign_tbs_Ok key rng tbs Hk) as (der & cert & Hder & Hd & Ht & m & Hm & Hv & Hl); [by split_and!|].
  exists der, (bits usages). split; [exact Hder|]. split; [exact Hus|]. exists cert, m. unfold cert_view. rewrite Ht. split_and!; try done.
  unfold tbs. cbn [tc_extensions mbind option_bind tc_subject subject_public_key_info serial_number]. rewrite Hbc. cbn [mbind option_bind bc_ca].
  rewrite Hku. cbn [mbind option_bind]. by rewrite Hsk, Heku, Hsan.
Qed.
(** Building does not panic. *)
Lemma build_end_entity_no_panic rng key issuer subject pub serial nb na p names oids :
  rmap parse_eku (extended_key_usages p) = Ok oids -> Forall (fun n => ia5_ok n = true) names ->
  build_end_entity_cert rng key issuer subject pub serial nb na p names <> Panic.
Proof.
  intros Hoids Hnames. unfold build_end_entity_cert. destruct (end_entity_extensions_Ok key pub p names oids Hoids Hnames) as (exts & usages & -> & _). cbn [rbind].
  destruct (spki_Ok pub) as (s & -> & _). cbn [rbind]. destruct alg_id_Ok as (a & Ea & _). rewrite Ea. cbn [rbind].
  unfold sign_tbs, key_sign, der_enc. destruct (der_encode _) as [m|]; [|done]. cbn [ok_or rbind]. destruct (ring_sign _ _ m); [|done]. cbn [ok_or rbind]. rewrite Ea. cbn [rbind].
  by destruct (der_encode _).
Qed.
Lemma subject_cn_ia5 csr : Forall (fun n => ia5_ok n = true) (option_list (subject_cn csr)).
Proof.
  unfold subject_cn. destruct (head (rdns _)) as [rdn|]; [|constructor]. cbn [mbind option_bind]. destruct (head rdn) as [atv|]; [|constructor]. cbn [mbind option_bind].
  destruct (negb _); [constructor|]. destruct (negb _); [constructor|]. destruct (der_decode (atv_value atv)) as [ps|] eqn:Ep; [|constructor]. cbn.
  apply decoded_printable in Ep. destruct (printable_ascii _ Ep) as [Hi Ha]. rewrite from_utf8_lossy_id by (by apply utf8_valid_ascii). by repeat constructor.
Qed.

(** A certification request that decodes and verifies under its own P-256 key. *)
Definition self_signed (csr_der : bytes) (csr : CertificationRequest) (pub : bytes) : Prop :=
  der_decode csr_der = Some csr /\ public_key_sec1 csr = Ok pub
  /\ exists m, der_encode (certification_request_info csr) = Some m /\ ecdsa_verify pub m (into_vec (csr_signature csr)) = true.
Lemma admit_csr_iff ca name csr_der p csr pub :
  admit_csr ca name csr_der = Ok (p, csr, pub) <-> ca_profiles ca !! name = Some p /\ self_signed csr_der csr pub.
Proof.
  unfold admit_csr, profile, csr_from_der, verify_signature, self_signed. destruct (ca_profiles ca !! name) as [p'|]; cbn [ok_or rbind]; [|split; [done|by intros [? _]]].
  destruct (der_decode csr_der) as [csr'|]; cbn [ok_or rbind]; [|split; [done|by intros (_ & ? & _)]].
  destruct (public_key_sec1 csr') as [pub'|?|] eqn:Epk; cbn [rbind]; [|split; [done|intros (_ & [= ->] & ? & _); congruence]..].
  unfold der_enc. destruct (der_encode (certification_request_info csr')) as [m|] eqn:Em; cbn [ok_or rbind]; [|split; [done|intros (_ & [= ->] & _ & ? & ? & _); congruence]].
  destruct (ecdsa_verify pub' m (into_vec (csr_signature csr'))) eqn:Ev; cbn [rbind].
  - split; [intros [= <- <- <-]; split_and!; [done..|by exists m]|]. intros ([= ->] & [= ->] & Hp & _). congruence.
  - split; [done|]. intros (_ & [= ->] & Hp & m' & Hm & Hv). congruence.
Qed.
Definition ca_good (ca : CaService) : Prop := key_good (ca_key ca) /\ name_ok (ca_subject ca) /\ 0 <= ca_serial ca.
Lemma option_list_match {A} (o : option A) : match o with Some x => [x] | None => [] end = option_list o.
Proof. by destruct o. Qed.

(** The certificate of a request. *)
Definition request_view (csr : CertificationRequest) (pub : bytes) (serial : Z) (usages : list bool) (oids : list Oid) : CertView :=
  mkCertView false (csr_subject (certification_request_info csr)) pub serial usages (when_any oids) (when_any (map mkDnsName (option_list (subject_cn csr)))).
Lemma issue_spec rng now ca name csr_der : ca_good ca ->
  (forall p csr pub, ca_profiles ca !! name = Some p -> self_signed csr_der csr pub ->
     match add_days now (validity_days p), rmap parse_eku (extended_key_usages p) with
     | None, _ => (issue rng now ca name csr_der).1 = Panic
     | Some _, Err e => (issue rng now ca name csr_der).1 = Err e
     | Some na, Ok oids => (issue rng now ca name csr_der).1 <> Panic /\ (time_exact now = true -> time_exact na = true ->
         exists der usages, issue rng now ca name csr_der = (Ok der, record_issued (take_serial ca).2 (mkIssuedCert (ca_serial ca) (subject_cn csr) na der))
           /\ (forall i, nth i usages false = bool_decide (i ∈ omap ku_bit (key_usages p)))
           /\ certifies (ca_subject ca) (public_sec1 (ca_key ca)) now na (request_view csr pub (ca_serial ca) usages oids) der)
     | Some _, Panic => False
     end)
  /\ (forall r, admit_csr ca name csr_der = r -> (forall x, r <> Ok x) -> r <> Panic -> exists e, issue rng now ca name csr_der = (Err e, ca)).
Proof.
  intros (Hk & Hn & Hs). split.
  - intros p csr pub Hp Hc. unfold issue. rewrite (proj2 (admit_csr_iff ca name csr_der p csr pub) (conj Hp Hc)). cbn [take_serial ca_key ca_subject].
    rewrite option_list_match. unfold plus_days. destruct (add_days now (validity_days p)) as [na|]; [|done]. cbn [rbind].
    pose proof (rmap_parse_no_panic (extended_key_usages p)) as Hnp. destruct (rmap parse_eku (extended_key_usages p)) as [oids|e|] eqn:Ee; [|unfold build_end_entity_cert; by rewrite (end_entity_extensions_Err _ _ _ _ _ Ee)|done].
    split.
    + pose proof (build_end_entity_no_panic rng (ca_key ca) (ca_subject ca) (csr_subject (certification_request_info csr)) pub (ca_serial ca) now na p
        (option_list (subject_cn csr)) oids Ee (subject_cn_ia5 csr)) as Hb. by destruct (build_end_entity_cert _ _ _ _ _ _ _ _ _ _).
    + intros Hnow Hna. destruct (build_end_entity_Ok rng (ca_key ca) (ca_subject ca) (csr_subject (certification_request_info csr)) pub (ca_serial ca) now na p
        (option_list (subject_cn csr)) oids Hk Hn) as (der & usages & -> & Hus & Hcert); [apply (decoded_csr csr_der), Hc|done..|apply subject_cn_ia5|].
      cbn [rbind]. by exists der, usages.
  - intros r Hr Ho Hp. unfold issue. rewrite Hr. destruct r as [x|e|]; [by destruct (Ho x)|by exists e|done].
Qed.
Lemma admit_no_panic ca name csr_der : admit_csr ca name csr_der <> Panic.
Proof.
  unfold admit_csr, profile, csr_from_der, verify_signature. destruct (ca_profiles ca !! name); cbn [ok_or rbind]; [|done]. destruct (der_decode csr_der) as [csr|]; cbn [ok_or rbind]; [|done].
  assert (public_key_sec1 csr <> Panic) as Hp.
  { unfold public_key_sec1. destruct (oid_Ok OID_EC_PUBLIC_KEY) as [-> _]; [oid_in|]. cbn [rbind]. destruct (negb _); [done|]. destruct (ai_parameters _) as [b|]; [|done].
    destruct (der_decode b); cbn [ok_or rbind]; [|done]. destruct (oid_Ok OID_SECP256R1) as [-> _]; [oid_in|]. cbn [rbind]. by destruct (negb _). }
  destruct (public_key_sec1 csr) as [pub|?|]; cbn [rbind]; [|done..]. unfold der_enc. destruct (der_encode _); cbn [ok_or rbind]; [|done]. by destruct (ecdsa_verify _ _ _).
Qed.

(** ** Runs *)

Lemma root_extensions_Ok key : exists exts, root_extensions key = Ok exts /\ extensions_ok (Some exts).
Proof.
  unfold root_extensions, ext_basic_constraints, ext_key_usage, ext_ski, ext_aki.
  destruct (extension_Ok _ OID_BC true (mkBasicConstraints true (Some 1)) law_bc) as (bc & -> & Hbc); [by repeat constructor|oid_in|]. cbn [rbind].
  destruct (key_usage_bits_spec [KU_KEY_CERT_SIGN]) as (usages & -> & _); [unfold KU_KEY_CERT_SIGN; repeat constructor|]. cbn [rbind].
  destruct (extension_Ok _ OID_KU true usages law_bits I) as (ku & -> & Hku); [oid_in|]. cbn [rbind].
  destruct (extension_Ok _ OID_SKI false (mkOctetString (ski_bytes key)) law_octets I) as (ski & -> & Hski); [oid_in|]. cbn [rbind].
  destruct (extension_Ok _ OID_AKI false (mkAuthorityKeyIdentifier (Some (ski_bytes key))) law_aki I) as (aki & -> & Haki); [oid_in|]. cbn [rbind].
  eexists. split; [reflexivity|]. unfold extensions_ok. cbn. repeat constructor; [apply Hbc|apply Hku|apply Hski|apply Haki].
Qed.
Lemma fresh_ca rng srng t0 cn ca : with_subject_cn rng srng t0 cn = Ok ca ->
  ca_good ca /\ ca_serial ca = 1 /\ ca_issued ca = [] /\ ca_revoked ca = [] /\ ca_profiles ca = builtin_profiles
  /\ (time_exact t0 = true -> (forall na, add_days t0 3650 = Some na -> time_exact na = true) ->
       exists root, der_decode (root_der ca) = Some root /\ serial_number (tbs_certificate root) = 1 /\ tc_issuer (tbs_certificate root) = ca_subject ca).
Proof.
  unfold with_subject_cn, CaKeyPair_generate, CaKeyPair_from_pkcs8, name_from_cn. destruct (generate_pkcs8 rng) as [k8|]; cbn [ok_or rbind]; [|done].
  destruct (ring_from_pkcs8 k8) as [k|]; cbn [ok_or rbind]; [|done]. destruct (printable_ok cn); cbn [rbind]; [|done]. destruct (oid_Ok OID_COMMON_NAME) as [-> Ho]; [oid_in|]. cbn [rbind].
  set (key := mkCaKeyPair _ _ _). set (subject := mkName _). intros H. destruct (build_root_cert srng t0 key subject) as [der|?|] eqn:Er; try done. injection H as <-. cbn.
  assert (key_good key) as Hk by done. assert (name_ok subject) as Hn by (unfold name_ok; cbn; by repeat constructor).
  split_and!; [done..|]. intros Ht Hna. unfold build_root_cert, plus_days in Er. destruct (add_days t0 3650) as [na|]; [|done]. cbn [rbind] in Er. specialize (Hna na eq_refl).
  unfold spki in Er. destruct (spki_Ok (public_sec1 key)) as (sp & Esp & Hsp & _). rewrite Esp in Er. cbn [rbind] in Er. destruct (root_extensions_Ok key) as (exts & Eex & Hex).
  rewrite Eex in Er. cbn [rbind] in Er. destruct alg_id_Ok as (a & Ea & Ha). rewrite Ea in Er. cbn [rbind] in Er.
  match type of Er with sign_tbs _ _ ?tbs = _ => destruct (sign_tbs_Ok key srng tbs Hk) as (der' & cert & Ed & Hd & Hc & _) end; [by split_and!|].
  rewrite Ed in Er. injection Er as <-. exists cert. by rewrite Hc.
Qed.
Inductive CaOp :=
| OpIssue (rng : Rng) (now : Z) (name csr_der : bytes)
| OpRevoke (now : Z) (serial reason : bytes)
| OpLoad (read : bytes -> option bytes) (parse : bytes -> option (list CertProfile)) (path : bytes).
Definition ca_op (ca : CaService) (o : CaOp) : CaService :=
  match o with
  | OpIssue rng now name csr_der => (issue rng now ca name csr_der).2
  | OpRevoke now serial reason => (revoke now ca serial reason).2
  | OpLoad read parse path => (load_profiles read parse ca path).2
  end.
Definition ca_run (ca : CaService) (ops : list CaOp) : CaService := foldl ca_op ca ops.
(** What an operation leaves alone. *)
Lemma ca_op_frame ca o : ca_key (ca_op ca o) = ca_key ca /\ ca_subject (ca_op ca o) = ca_subject ca /\ root_der (ca_op ca o) = root_der ca.
Proof.
  destruct o as [rng now name csr|now serial reason|read parse path]; cbn [ca_op].
  - unfold issue. destruct (admit_csr ca name csr) as [[[p c] pub]|?|]; [|done..]. cbn [take_serial]. by destruct (rbind _ _) as [[na der]|?|].
  - unfold revoke. destruct (parse_serial_bytes serial) as [n|?|]; [|done..]. by destruct (existsb _ _).
  - unfold load_profiles. by destruct (rbind _ _) as [ps|?|].
Qed.
(** An operation takes at most one serial number, and records it if the
    certificate is made. *)
Lemma ca_op_serial ca o :
  (ca_serial (ca_op ca o) = ca_serial ca /\ ca_issued (ca_op ca o) = ca_issued ca)
  \/ (ca_serial (ca_op ca o) = as_u64 (ca_serial ca + 1) /\ exists l, ca_issued (ca_op ca o) = ca_issued ca ++ l /\ (l = [] \/ exists c, l = [c] /\ ic_serial c = ca_serial ca)).
Proof.
  destruct o as [rng now name csr|now serial reason|read parse path]; cbn [ca_op].
  - unfold issue. destruct (admit_csr ca name csr) as [[[p c] pub]|?|]; [|by left..]. cbn [take_serial]. right. destruct (rbind _ _) as [[na der]|?|]; cbn; (split; [done|]).
    + eexists. split; [reflexivity|]. right. by eexists.
    + exists []. rewrite app_nil_r. by split; [|left].
    + exists []. rewrite app_nil_r. by split; [|left].
  - left. unfold revoke. destruct (parse_serial_bytes serial) as [n|?|]; [|done..]. by destruct (existsb _ _).
  - left. unfold load_profiles. by destruct (rbind _ _) as [ps|?|].
Qed.
Definition serials_good (ca : CaService) : Prop :=
  1 <= ca_serial ca /\ StronglySorted Z.lt (map ic_serial (ca_issued ca)) /\ Forall (fun c => 1 <= ic_serial c < ca_serial ca) (ca_issued ca).
Lemma sorted_snoc l x : StronglySorted Z.lt l -> Forall (fun y => y < x) l -> StronglySorted Z.lt (l ++ [x]).
Proof.
  induction 1 as [|y l Hs IH Hy]; intros Hx; cbn; [by repeat constructor|]. inversion Hx; subst. constructor; [by apply IH|]. apply Forall_app. by repeat constructor.
Qed.
Lemma ca_op_serials_good ca o : serials_good ca -> ca_serial ca + 1 < 2 ^ 64 -> serials_good (ca_op ca o) /\ ca_serial (ca_op ca o) <= ca_serial ca + 1.
Proof.
  intros (H1 & H2 & H3) Hb. unfold serials_good. destruct (ca_op_serial ca o) as [[-> ->]|(-> & l & -> & Hl)]; [split; [done|lia]|].
  rewrite as_uint_id by (unfold is_uint; lia). split; [|lia]. split; [lia|].
  assert (Forall (fun c => 1 <= ic_serial c < ca_serial ca + 1) (ca_issued ca)) as H3' by (eapply Forall_impl; [exact H3|]; cbn; lia).
  destruct Hl as [->|(c & -> & Hc)]; [by rewrite app_nil_r|]. rewrite map_app. split.
  - apply sorted_snoc; [done|]. rewrite Forall_map. eapply Forall_impl; [exact H3|]. cbn. lia.
  - apply Forall_app. split; [done|]. repeat constructor; lia.
Qed.
Lemma ca_run_serials ops ca : serials_good ca -> ca_serial ca + Z.of_nat (length ops) < 2 ^ 64 -> serials_good (ca_run ca ops).
Proof.
  revert ca. induction ops as [|o ops IH]; intros ca Hg Hb; [done|]. cbn [length] in Hb. change (ca_run ca (o :: ops)) with (ca_run (ca_op ca o) ops). destruct (ca_op_serials_good ca o Hg ltac:(lia)) as [Hg' Hle]. apply IH; [done|lia].
Qed.
Lemma ca_run_frame ops ca : ca_key (ca_run ca ops) = ca_key ca /\ ca_subject (ca_run ca ops) = ca_subject ca /\ root_der (ca_run ca ops) = root_der ca.
Proof.
  revert ca. induction ops as [|o ops IH]; intros ca; [done|]. change (ca_run ca (o :: ops)) with (ca_run (ca_op ca o) ops). destruct (IH (ca_op ca o)) as (-> & -> & ->). apply ca_op_frame.
Qed.
Lemma ca_run_good ops ca : ca_good ca -> ca_good (ca_run ca ops).
Proof.
  intros (H1 & H2 & H3). unfold ca_good. destruct (ca_run_frame ops ca) as (-> & -> & _). split_and!; [done..|]. revert ca H1 H2 H3. induction ops as [|o ops IH]; intros ca H1 H2 H3; [done|].
  change (ca_run ca (o :: ops)) with (ca_run (ca_op ca o) ops). destruct (ca_op_frame ca o) as (E1 & E2 & _). apply IH; [by rewrite E1|by rewrite E2|]. destruct (ca_op_serial ca o) as [[-> _]|[-> _]]; [done|]. apply Z.mod_pos_bound. lia.
Qed.

(** ** Revocation *)

Lemma parse_serial_fold b : (length b <= 8)%nat -> foldl (fun v byte => Z.lor (as_u64 (Z.shiftl v 8)) (b2z byte)) 0 b = of_be b.
Proof.
  induction b as [|x b IH] using rev_ind; intros Hl; [done|]. rewrite length_app in Hl. cbn [length] in Hl. rewrite foldl_app. cbn [foldl]. rewrite IH by lia.
  pose proof (of_be_range b) as Hr. pose proof (b2z_range x) as Hx. assert (256 ^ Z.of_nat (length b) <= 256 ^ 7) as Hp by (apply Z.pow_le_mono_r; lia).
  assert (of_be (b ++ [x]) = of_be b * 256 + b2z x) as -> by (unfold of_be; rewrite rev_app_distr; cbn [rev app of_le]; lia).
  unfold as_uint. rewrite Z.mod_small by (rewrite Z.shiftl_mul_pow2 by lia; change (2 ^ 8) with 256; change (256 ^ 7) with (2 ^ 56) in Hp; lia).
  rewrite lor_shiftl by lia. done.
Qed.
Lemma parse_serial_iff b n : parse_serial_bytes b = Ok n <-> (1 <= length b <= 8)%nat /\ n = of_be b.
Proof.
  unfold parse_serial_bytes. destruct (Nat.eqb_spec (length b) 0); [split; [done|intros [? _]; lia]|]. destruct (Nat.ltb_spec 8 (length b)); [split; [done|intros [? _]; lia]|].
  rewrite parse_serial_fold by lia. split; [intros [= <-]; split; [lia|done]|by intros [_ ->]].
Qed.
Definition revocation (o : CaOp) : option Z :=
  match o with OpRevoke _ serial _ => match parse_serial_bytes serial with Ok n => Some n | _ => None end | _ => None end.
(** The times at which serial numbers were revoked are exact. *)
Definition revoked_exactly (o : CaOp) : Prop := match o with OpRevoke now _ _ => time_exact now = true | _ => True end.
Definition ledger_good (ops : list CaOp) (ca : CaService) : Prop :=
  NoDup (map re_serial (ca_revoked ca)) /\ (forall n, n ∈ map re_serial (ca_revoked ca) <-> n ∈ omap revocation ops)
  /\ Forall (fun e => 0 <= re_serial e /\ time_exact (re_revocation_date e) = true) (ca_revoked ca).
Lemma existsb_serial n l : existsb (fun e => re_serial e =? n) l = bool_decide (n ∈ map re_serial l).
Proof.
  induction l as [|e l IH]; cbn [existsb map]; [by rewrite bool_decide_eq_false_2 by (by apply not_elem_of_nil)|]. rewrite IH.
  destruct (Z.eqb_spec (re_serial e) n) as [->|Hn]; cbn [orb]; [symmetry; apply bool_decide_eq_true_2, elem_of_cons; by left|].
  apply bool_decide_ext. rewrite elem_of_cons. naive_solver.
Qed.
Lemma ca_op_ledger ops ca o : ledger_good ops ca -> revoked_exactly o -> ledger_good (ops ++ [o]) (ca_op ca o).
Proof.
  intros (H1 & H2 & H3) Ho. unfold ledger_good. rewrite omap_app. destruct o as [rng now name csr|now serial reason|read parse path]; cbn [ca_op revocation omap list_omap].
  - assert (ca_revoked (issue rng now ca name csr).2 = ca_revoked ca) as ->; [|by rewrite app_nil_r].
    unfold issue. destruct (admit_csr ca name csr) as [[[p c] pub]|?|]; [|done..]. cbn [take_serial]. by destruct (rbind _ _) as [[na der]|?|].
  - unfold revoke. destruct (parse_serial_bytes serial) as [n|?|] eqn:En; cbn; [|by rewrite app_nil_r..]. rewrite existsb_serial. case_bool_decide as Hin.
    + split_and!; [done| |done]. intros m. rewrite elem_of_app, list_elem_of_singleton, <-H2. naive_solver.
    + cbn [ca_revoked]. rewrite map_app. cbn [map re_serial]. split_and!.
      * apply NoDup_app. split_and!; [done| |apply NoDup_singleton]. intros m Hm ->%list_elem_of_singleton. done.
      * intros m. rewrite !elem_of_app, !list_elem_of_singleton, H2. done.
      * apply Forall_app. split; [done|]. repeat constructor; [|exact Ho]. cbn. apply parse_serial_iff in En as [_ ->]. apply of_be_range.
  - assert (ca_revoked (load_profiles read parse ca path).2 = ca_revoked ca) as ->; [|by rewrite app_nil_r].
    unfold load_profiles. by destruct (rbind _ _) as [ps|?|].
Qed.
Lemma ca_run_ledger ops pre ca : ledger_good pre ca -> Forall revoked_exactly ops -> ledger_good (pre ++ ops) (ca_run ca ops).
Proof.
  intros H Ho. revert pre ca H. induction Ho as [|o ops Ho _ IH]; intros pre ca H; [by rewrite app_nil_r|].
  change (ca_run ca (o :: ops)) with (ca_run (ca_op ca o) ops). change (o :: ops) with ([o] ++ ops). rewrite app_assoc. apply IH, ca_op_ledger; done.
Qed.
Lemma crl_der_Ok rng now ca ops nu : ca_good ca -> ledger_good ops ca -> time_exact now = true -> add_days now 7 = Some nu -> time_exact nu = true ->
  exists der crl m, crl_der rng now ca = Ok der /\ der_decode der = Some crl /\ der_encode (tbs_cert_list crl) = Some m
    /\ ecdsa_verify (public_sec1 (ca_key ca)) m (into_vec (crl_signature crl)) = true
    /\ tl_issuer (tbs_cert_list crl) = ca_subject ca /\ this_update (tbs_cert_list crl) = now /\ next_update (tbs_cert_list crl) = Some nu
    /\ map user_certificate (revoked_certificates (tbs_cert_list crl)) = map re_serial (ca_revoked ca)
    /\ tl_version (tbs_cert_list crl) = V1 /\ exists e, crl_extensions (tbs_cert_list crl) = Some [e].
Proof.
  intros (Hk & Hn & _) (_ & _ & Hl) Hnow Hnu Htnu. unfold crl_der, plus_days. rewrite Hnu. cbn [rbind]. destruct alg_id_Ok as (a & -> & Ha). cbn [rbind]. unfold ext_aki.
  destruct (extension_Ok _ OID_AKI false (mkAuthorityKeyIdentifier (Some (ski_bytes (ca_key ca)))) law_aki I) as (aki & -> & Haki); [oid_in|]. cbn [rbind].
  set (tbs := mkTbsCertList _ _ _ _ _ _ _). assert (tbs_crl_ok tbs) as Ht.
  { split_and!; try done; cbn; [by repeat constructor| |repeat constructor; apply Haki]. apply Forall_map. exact Hl. }
  destruct (law_tbs_crl tbs Ht) as (m & Hm & _). unfold der_enc at 1. rewrite Hm. cbn [ok_or rbind]. unfold key_sign. destruct (ring_signs (kp (ca_key ca)) rng m) as (sig & -> & Hv & _). cbn [ok_or rbind].
  destruct (der_enc_Ok crl_ok (mkCertificateList tbs a (from_vec sig)) law_crl) as (der & -> & Hd); [by split|].
  exists der, (mkCertificateList tbs a (from_vec sig)), m. cbn [tbs_cert_list crl_signature]. rewrite into_from_vec, Hk. split_and!; try done; [|by exists aki].
  unfold tbs. cbn [revoked_certificates]. by rewrite map_map.
Qed.

(** ** What the certification authority promises *)

(** A validity of so many days from now on that a certificate represents exactly. *)
Definition valid_for (now days : Z) : Prop := exists na, time_exact now = true /\ add_days now days = Some na /\ time_exact na = true.
Lemma header_of_64 s : length s = 64%nat -> sig_value_header s = bool_decide (take 2 s = [x30; x3e]).
Proof.
  intros Hl. destruct s as [|a [|b s]]; [done..|]. cbn [length] in Hl. cbn [sig_value_header]. change (take 2 (a :: b :: s)) with [a; b]. replace (length s) with 62%nat by lia.
  destruct (decide (a = x30)) as [->|Ha]; [|rewrite (bool_decide_false _ Ha), bool_decide_false by congruence; done]. rewrite bool_decide_true by done. cbn [andb].
  destruct (Z.eqb_spec (b2z b) (Z.of_nat 62)) as [E|E].
  - assert (b = x3e) as -> by (apply (inj b2z); rewrite E; reflexivity). by rewrite bool_decide_true.
  - rewrite bool_decide_false; [done|]. intros [= ->]. apply E. reflexivity.
Qed.
Lemma cert_view_serial cert view : cert_view cert = Some view -> serial_number (tbs_certificate cert) = v_serial view.
Proof.
  unfold cert_view. destruct (tc_extensions _) as [exts|]; [|done]. cbn [mbind option_bind]. destruct (find_extension OID_BC exts) as [bc|]; [|done]. cbn [mbind option_bind].
  destruct (find_extension OID_KU exts) as [u|]; [|done]. by intros [= <-].
Qed.
(** What [issue] asks of the profile and the request. *)
Definition issuable (ca : CaService) (now : Z) (name csr_der : bytes) (p : CertProfile) (csr : CertificationRequest) (pub : bytes) (na : Z) (oids : list Oid) : Prop :=
  ca_profiles ca !! name = Some p /\ self_signed csr_der csr pub /\ add_days now (validity_days p) = Some na /\ rmap parse_eku (extended_key_usages p) = Ok oids.
Lemma issue_cases rng now ca name csr_der : ca_good ca ->
  (forall der, (issue rng now ca name csr_der).1 = Ok der -> exists p csr pub na oids, issuable ca now name csr_der p csr pub na oids)
  /\ ((issue rng now ca name csr_der).1 = Panic <-> exists p csr pub, ca_profiles ca !! name = Some p /\ self_signed csr_der csr pub /\ add_days now (validity_days p) = None).
Proof.
  intros Hg. destruct (issue_spec rng now ca name csr_der Hg) as [Hok Herr]. destruct (admit_csr ca name csr_der) as [[[p csr] pub]|e|] eqn:Ea.
  - pose proof Ea as Ha. apply admit_csr_iff in Ha as [Hp Hc]. specialize (Hok p csr pub Hp Hc).
    assert (forall p' csr' pub', ca_profiles ca !! name = Some p' -> self_signed csr_der csr' pub' -> p' = p) as Hsame by (intros p1 c1 k1 H1 _; rewrite Hp in H1; by injection H1 as <-).
    destruct (add_days now (validity_days p)) as [na|] eqn:Et.
    + assert ((issue rng now ca name csr_der).1 <> Panic) as Hnp by (destruct (rmap parse_eku (extended_key_usages p)) as [oids|e|]; [apply Hok|congruence|done]).
      split; [|split; [done|intros (p' & csr' & pub' & Hp' & Hc' & Et'); rewrite (Hsame _ _ _ Hp' Hc') in Et'; congruence]].
      intros der Hd. destruct (rmap parse_eku (extended_key_usages p)) as [oids|e|] eqn:Ee; [by exists p, csr, pub, na, oids|congruence|done].
    + split; [intros der Hd; congruence|]. split; [intros _; by exists p, csr, pub|done].
  - destruct (Herr (Err e) eq_refl) as [e' He]; [done..|]. rewrite He. split; [done|]. split; [done|]. intros (p & csr & pub & Hp & Hc & _).
    rewrite (proj2 (admit_csr_iff ca name csr_der p csr pub) (conj Hp Hc)) in Ea. done.
  - by destruct (admit_no_panic ca name csr_der).
Qed.

(** C11: Issuing, after any run of a new authority.  A certificate is issued only for
    a known profile whose extended usages are object identifiers, whose validity the
    clock can represent, and a request that decodes and verifies under its own P-256
    key; and it is issued for all of those when both ends of the validity are times
    that a certificate represents exactly (a GeneralizedTime has four digits for the
    year, the clock reaches further).  The certificate then names the authority as
    issuer and the request's subject, key and common name, the next serial number, the profile's
    validity, exactly its key usages and its extended usages; it is not one of an
    authority.  Its signature verifies under the authority's key in the format it was
    made in, [ring]'s 64 bytes r and s.  X.509 asks for the DER sequence of the two, as
    the documentation of [sign] says: a reader that does so finds one here only if r
    happens to start with the two bytes of its header.  The call panics exactly if the
    end of the validity is out of the clock's range.  Nothing else of the profile (who
    may enroll, the name formats) is looked at. *)
Theorem ca_issue_verifies (rng0 rng1 rng : Rng) (t0 now : Z) (cn name csr_der : bytes) (ca0 : CaService) (ops : list CaOp) :
  with_subject_cn rng0 rng1 t0 cn = Ok ca0 ->
  let ca := ca_run ca0 ops in
  (forall der, (issue rng now ca name csr_der).1 = Ok der -> exists p csr pub na oids, issuable ca now name csr_der p csr pub na oids)
  /\ (forall p csr pub na oids, issuable ca now name csr_der p csr pub na oids -> time_exact now = true -> time_exact na = true ->
       exists der usages, (issue rng now ca name csr_der).1 = Ok der
         /\ (forall i, nth i usages false = bool_decide (i ∈ omap ku_bit (key_usages p)))
         /\ certifies (ca_subject ca0) (public_sec1 (ca_key ca0)) now na (request_view csr pub (ca_serial ca) usages oids) der)
  /\ (forall issuer key from until view der cert, certifies issuer key from until view der -> der_decode der = Some cert ->
       sig_value_header (into_vec (signature_value cert)) = bool_decide (take 2 (into_vec (signature_value cert)) = [x30; x3e]))
  /\ ((issue rng now ca name csr_der).1 = Panic <-> exists p csr pub, ca_profiles ca !! name = Some p /\ self_signed csr_der csr pub /\ add_days now (validity_days p) = None).
Proof.
  intros Hnew ca. destruct (fresh_ca _ _ _ _ _ Hnew) as (Hg0 & _). pose proof (ca_run_good ops ca0 Hg0) as Hg. fold ca in Hg.
  destruct (ca_run_frame ops ca0) as (Ek & Es & _). fold ca in Ek, Es. destruct (issue_cases rng now ca name csr_der Hg) as [Hi Hp].
  split; [exact Hi|]. split; [|split; [|exact Hp]].
  - intros p csr pub na oids (Hpr & Hc & Et & Ee) Hnow Hna. destruct (issue_spec rng now ca name csr_der Hg) as [Hok _]. specialize (Hok p csr pub Hpr Hc). rewrite Et, Ee in Hok.
    destruct (proj2 Hok Hnow Hna) as (der & usages & -> & Hus & Hv). rewrite <-Ek, <-Es. by exists der, usages.
  - intros issuer key from until view der cert (cert' & m & Hd & _ & _ & Hl & _) Hd'. rewrite Hd in Hd'. injection Hd' as <-. by apply header_of_64.
Qed.

(** C19: Serial numbers, over any run of a new authority that is shorter than
    [2^64 - 1] operations: they strictly increase and stay below the counter, so
    no two issued certificates share one.  But the root certificate has the serial
    number 1 as well, under the same issuer as the first certificate issued: this is
    read from the two certificates, whose validity has to lie in the times a
    certificate represents exactly. *)
Theorem ca_serials (rng0 rng1 : Rng) (t0 : Z) (cn : bytes) (ca0 : CaService) (ops : list CaOp) :
  with_subject_cn rng0 rng1 t0 cn = Ok ca0 -> Z.of_nat (length ops) < 2 ^ 64 - 1 ->
  StronglySorted Z.lt (map ic_serial (ca_issued (ca_run ca0 ops)))
  /\ Forall (fun c => 1 <= ic_serial c < ca_serial (ca_run ca0 ops)) (ca_issued (ca_run ca0 ops))
  /\ (valid_for t0 3650 -> exists root, der_decode (root_der ca0) = Some root /\ serial_number (tbs_certificate root) = 1
       /\ forall rng now name csr_der der p, (issue rng now ca0 name csr_der).1 = Ok der -> ca_profiles ca0 !! name = Some p -> valid_for now (validity_days p) ->
            exists cert, der_decode der = Some cert /\ serial_number (tbs_certificate cert) = serial_number (tbs_certificate root)
              /\ tc_issuer (tbs_certificate cert) = tc_issuer (tbs_certificate root)).
Proof.
  intros Hnew Hlen. destruct (fresh_ca _ _ _ _ _ Hnew) as (Hg & E1 & E2 & _ & _ & Hroot).
  assert (serials_good ca0) as Hs by (unfold serials_good; rewrite E1, E2; split_and!; [lia|constructor|constructor]).
  destruct (ca_run_serials ops ca0 Hs) as (_ & H2 & H3); [rewrite E1; lia|]. split; [exact H2|]. split; [exact H3|].
  intros (na0 & Ht0 & Ena0 & Hna0). destruct Hroot as (root & Hr & Hr1 & Hr2); [done|intros na E; congruence|]. exists root. split; [done|]. split; [done|].
  intros rng now name csr_der der p Hd Hp (na & Hnow & Et & Hna). destruct (proj1 (issue_cases rng now ca0 name csr_der Hg) der Hd) as (p' & csr & pub & na' & oids & Hp' & Hc & Et' & Ee).
  assert (p' = p) as -> by congruence. destruct (issue_spec rng now ca0 name csr_der Hg) as [Hok _]. specialize (Hok p csr pub Hp Hc). rewrite Et, Ee in Hok.
  destruct (proj2 Hok Hnow Hna) as (der' & usages & E & _ & cert & m & Hcd & _ & _ & _ & _ & Hci & _ & _ & Hv). rewrite E in Hd. injection Hd as <-.
  exists cert. split; [done|]. rewrite Hci, Hr1, Hr2. split; [|done]. apply cert_view_serial in Hv. cbn in Hv. by rewrite Hv, E1.
Qed.

(** C20: Revocation, after any run of a new authority: the revocation list is
    signed by the authority and names exactly the serial numbers that were given
    to [revoke], each once, whether or not they were issued; a serial number is
    one to eight bytes, big-endian; revoking twice changes nothing; the list
    returned by [revoked_serials] is the sorted one.  The list carries an
    extension although its version is [V1]. *)
Theorem ca_crl_lists_revoked (rng0 rng1 rng : Rng) (t0 now nu : Z) (cn : bytes) (ca0 : CaService) (ops : list CaOp) :
  with_subject_cn rng0 rng1 t0 cn = Ok ca0 -> Forall revoked_exactly ops -> time_exact now = true -> add_days now 7 = Some nu -> time_exact nu = true ->
  let ca := ca_run ca0 ops in
  (exists der crl m, crl_der rng now ca = Ok der /\ der_decode der = Some crl /\ der_encode (tbs_cert_list crl) = Some m
     /\ ecdsa_verify (public_sec1 (ca_key ca0)) m (into_vec (crl_signature crl)) = true /\ tl_issuer (tbs_cert_list crl) = ca_subject ca0
     /\ NoDup (map user_certificate (revoked_certificates (tbs_cert_list crl)))
     /\ (forall n, n ∈ map user_certificate (revoked_certificates (tbs_cert_list crl)) <-> n ∈ omap revocation ops)
     /\ revoked_serials ca ≡ₚ map user_certificate (revoked_certificates (tbs_cert_list crl)) /\ Sorted Z.le (revoked_serials ca)
     /\ tl_version (tbs_cert_list crl) = V1 /\ exists e, crl_extensions (tbs_cert_list crl) = Some [e])
  /\ (forall b n, parse_serial_bytes b = Ok n <-> (1 <= length b <= 8)%nat /\ n = of_be b)
  /\ (forall t t' serial reason reason', let ca1 := (revoke t ca serial reason).2 in (revoke t' ca1 serial reason').2 = ca1).
Proof.
  intros Hnew Hops Hnow Hnu Htnu ca. destruct (fresh_ca _ _ _ _ _ Hnew) as (Hg0 & _ & _ & E2 & _). pose proof (ca_run_good ops ca0 Hg0) as Hg. fold ca in Hg.
  destruct (ca_run_frame ops ca0) as (Ek & Es & _). fold ca in Ek, Es.
  assert (ledger_good ops ca) as Hl.
  { apply (ca_run_ledger ops [] ca0); [|done]. unfold ledger_good. rewrite E2. split_and!; [constructor|done|constructor]. }
  split_and!.
  - destruct (crl_der_Ok rng now ca ops nu Hg Hl Hnow Hnu Htnu) as (der & crl & m & H1 & H2 & H3 & H4 & H5 & _ & _ & H6 & H7 & H8). destruct Hl as (L1 & L2 & _).
    exists der, crl, m. rewrite H6, <-Ek, <-Es. split_and!; try done; [apply merge_sort_Permutation|apply (Sorted_merge_sort _)].
  - exact parse_serial_iff.
  - intros t t' serial reason reason' ca1. unfold ca1, revoke. destruct (parse_serial_bytes serial) as [n|?|]; cbn; [|done..].
    destruct (existsb (fun e => re_serial e =? n) (ca_revoked ca)) eqn:Ex; cbn [ca_revoked]; [by rewrite Ex|].
    rewrite existsb_app. cbn [existsb re_serial]. by rewrite Z.eqb_refl, orb_true_r.
Qed.
End Spec.

(** ** Libraries that satisfy the laws *)

#[local] Instance Oid_countable : Countable Oid.
Proof. record_countable arcs mkOid. Defined.
#[local] Instance PrintableString_eq_dec : EqDecision PrintableString.
Proof. solve_decision. Defined.
#[local] Instance PrintableString_countable : Countable PrintableString.
Proof. record_countable ps_bytes mkPrintableString. Defined.
#[local] Instance OctetString_eq_dec : EqDecision OctetString.
Proof. solve_decision. Defined.
#[local] Instance OctetString_countable : Countable OctetString.
Proof. record_countable os_bytes mkOctetString. Defined.
#[local] Instance BitString_eq_dec : EqDecision BitString.
Proof. solve_decision. Defined.
#[local] Instance BitString_countable : Countable BitString.
Proof. record_countable bits mkBitString. Defined.
#[local] Instance AuthorityKeyIdentifier_eq_dec : EqDecision AuthorityKeyIdentifier.
Proof. solve_decision. Defined.
#[local] Instance AuthorityKeyIdentifier_countable : Countable AuthorityKeyIdentifier.
Proof. record_countable key_identifier mkAuthorityKeyIdentifier. Defined.
#[local] Instance BasicConstraints_eq_dec : EqDecision BasicConstraints.
Proof. solve_decision. Defined.
#[local] Instance BasicConstraints_countable : Countable BasicConstraints.
Proof. record_countable (fun b => (bc_ca b, path_len_constraint b)) (fun p : bool * option Z => mkBasicConstraints p.1 p.2). Defined.
#[local] Instance GeneralName_eq_dec : EqDecision GeneralName.
Proof. solve_decision. Defined.
#[local] Instance GeneralName_countable : Countable GeneralName.
Proof. record_countable dns_name mkDnsName. Defined.
#[local] Instance AttributeTypeAndValue_countable : Countable AttributeTypeAndValue.
Proof. record_countable (fun a => (atv_type a, atv_value a)) (fun p : Oid * bytes => mkAttributeTypeAndValue p.1 p.2). Defined.
#[local] Instance Name_countable : Countable Name.
Proof. record_countable rdns mkName. Defined.
#[local] Instance AlgorithmIdentifier_eq_dec : EqDecision AlgorithmIdentifier.
Proof. solve_decision. Defined.
#[local] Instance AlgorithmIdentifier_countable : Countable AlgorithmIdentifier.
Proof. record_countable (fun a => (ai_algorithm a, ai_parameters a)) (fun p : Oid * option bytes => mkAlgorithmIdentifier p.1 p.2). Defined.
#[local] Instance SubjectPublicKeyInfo_eq_dec : EqDecision SubjectPublicKeyInfo.
Proof. solve_decision. Defined.
#[local] Instance SubjectPublicKeyInfo_countable : Countable SubjectPublicKeyInfo.
Proof. record_countable (fun a => (spki_algorithm a, subject_public_key a)) (fun p : AlgorithmIdentifier * BitString => mkSubjectPublicKeyInfo p.1 p.2). Defined.
#[local] Instance Extension_eq_dec : EqDecision Extension.
Proof. solve_decision. Defined.
#[local] Instance Extension_countable : Countable Extension.
Proof. record_countable (fun e => (extn_id e, critical e, extn_value e)) (fun p : Oid * bool * bytes => mkExtension p.1.1 p.1.2 p.2). Defined.
#[local] Instance X509Version_eq_dec : EqDecision X509Version.
Proof. solve_decision. Defined.
#[local] Instance X509Version_countable : Countable X509Version.
Proof. apply (inj_countable' (fun v => match v with V1 => 0%nat | V2 => 1%nat | V3 => 2%nat end) (fun n => match n with 0%nat => V1 | 1%nat => V2 | _ => V3 end)). by intros []. Defined.
#[local] Instance TbsCertificate_eq_dec : EqDecision TbsCertificate.
Proof. solve_decision. Defined.
#[local] Instance TbsCertificate_countable : Countable TbsCertificate.
Proof.
  record_countable (fun t => (tc_version t, serial_number t, tc_signature t, tc_issuer t, (not_before t, not_after t), tc_subject t, subject_public_key_info t, tc_extensions t))
    (fun '(v, n, s, i, (b, a), sub, k, e) => mkTbsCertificate v n s i b a sub k e).
Defined.
#[local] Instance Certificate_eq_dec : EqDecision Certificate.
Proof. solve_decision. Defined.
#[local] Instance Certificate_countable : Countable Certificate.
Proof. record_countable (fun c => (tbs_certificate c, signature_algorithm c, signature_value c)) (fun p : TbsCertificate * AlgorithmIdentifier * BitString => mkCertificate p.1.1 p.1.2 p.2). Defined.
#[local] Instance RevokedCertificate_eq_dec : EqDecision RevokedCertificate.
Proof. solve_decision. Defined.
#[local] Instance RevokedCertificate_countable : Countable RevokedCertificate.
Proof. record_countable (fun r => (user_certificate r, rc_revocation_date r)) (fun p : Z * Z => mkRevokedCertificate p.1 p.2). Defined.
#[local] Instance TbsCertList_eq_dec : EqDecision TbsCertList.
Proof. solve_decision. Defined.
#[local] Instance TbsCertList_countable : Countable TbsCertList.
Proof.
  record_countable (fun t => (tl_version t, tl_signature t, tl_issuer t, this_update t, next_update t, revoked_certificates t, crl_extensions t))
    (fun '(v, s, i, t, n, r, e) => mkTbsCertList v s i t n r e).
Defined.
#[local] Instance CertificateList_eq_dec : EqDecision CertificateList.
Proof. solve_decision. Defined.
#[local] Instance CertificateList_countable : Countable CertificateList.
Proof.
  record_countable (fun c => (tbs_cert_list c, crl_signature_algorithm c, crl_signature c)) (fun p : TbsCertList * AlgorithmIdentifier * BitString => mkCertificateList p.1.1 p.1.2 p.2).
Defined.
#[local] Instance CertificationRequestInfo_eq_dec : EqDecision CertificationRequestInfo.
Proof. solve_decision. Defined.
#[local] Instance CertificationRequestInfo_countable : Countable CertificationRequestInfo.
Proof. record_countable (fun c => (csr_version c, csr_subject c, subject_pk_info c, csr_attributes c)) (fun '(v, s, k, a) => mkCertificationRequestInfo v s k a). Defined.
#[local] Instance CertificationRequest_eq_dec : EqDecision CertificationRequest.
Proof. solve_decision. Defined.
#[local] Instance CertificationRequest_countable : Countable CertificationRequest.
Proof.
  record_countable (fun c => (certification_request_info c, csr_signature_algorithm c, csr_signature c))
    (fun p : CertificationRequestInfo * AlgorithmIdentifier * BitString => mkCertificationRequest p.1.1 p.1.2 p.2).
Defined.

(** A space, and the letters, digits and marks up to the lower case. *)
Definition sample_printable (s : bytes) : bool := forallb (fun b => (32 <=? b2z b) && (b2z b <? 123)) s.
Definition byte_of_bits (l : list bool) : byte := z2b (foldl (fun z (b : bool) => 2 * z + (if b then 1 else 0)) 0 l).
Fixpoint pack (l : list bool) : bytes :=
  match l with
  | b0 :: b1 :: b2 :: b3 :: b4 :: b5 :: b6 :: b7 :: l => byte_of_bits [b0; b1; b2; b3; b4; b5; b6; b7] :: pack l
  | _ => []
  end.
Lemma pack_bits b : pack (bits (from_vec b)) = b.
Proof. unfold from_vec. cbn [bits]. induction b as [|x b IH]; [done|]. cbn [map concat]. assert (pack (msb0_bits x ++ concat (map msb0_bits b)) = x :: pack (concat (map msb0_bits b))) as -> by (by destruct x). by rewrite IH. Qed.
Definition sample_x509 : X509 := {|
  oid_valid _ := true;
  printable_ok := sample_printable;
  ia5_ok s := forallb (fun b => b2z b <? 128) s;
  into_vec b := pack (bits b);
  add_days t n := if t + n <? 100000000 then Some (t + n) else None;
  time_exact t := t <? 10000000;
  der_oid := countable_der _;
  der_printable := {| der_encode s := Some (ps_bytes s); der_decode b := if sample_printable b then Some (mkPrintableString b) else None |};
  der_octets := countable_der _; der_bits := countable_der _; der_aki := countable_der _; der_bc := countable_der _; der_eku := countable_der _;
  der_san := countable_der _; der_tbs := countable_der _; der_cert := countable_der _; der_tbs_crl := countable_der _; der_crl := countable_der _;
  der_csr_info := countable_der _; der_csr := countable_der _;
|}.
Lemma sample_x509_laws : @X509Laws sample_x509.
Proof.
  split; try apply countable_der_law.
  - repeat constructor.
  - apply pack_bits.
  - intros s Hs. cbn in *. unfold sample_printable in Hs. rewrite forallb_forall in Hs. split.
    + apply forallb_forall. intros b Hb. specialize (Hs b Hb). lia.
    + apply List.Forall_forall. intros b Hb. specialize (Hs b Hb). lia.
  - intros b s. cbn. destruct (sample_printable b) eqn:E; [|done]. intros [= <-]. exact E.
  - intros b csr _. apply Forall_forall. intros rdn _. apply Forall_forall. by intros a _.
  - intros s Hs. exists (ps_bytes s). cbn in *. rewrite Hs. by destruct s.
Qed.
(** A key signs with itself and the length of the text. *)
Definition sample_sig (k m : bytes) : bytes := take 64 (z2b (Z.of_nat (length m)) :: k ++ replicate 64 x00).
Definition sample_ring : Ring := {|
  EcdsaKeyPair := bytes;
  Rng := nat;
  generate_pkcs8 n := Some [z2b (Z.of_nat n)];
  ring_from_pkcs8 b := Some b;
  public_key k := x04 :: k;
  ring_sign k _ m := Some (sample_sig k m);
  ecdsa_verify p m s := bool_decide (s = sample_sig (drop 1 p) m);
  sha1 b := take 2 b;
  sha256 b := take 2 b;
|}.
Lemma sample_ring_laws : @RingLaws sample_ring.
Proof.
  intros k r m. eexists. split; [reflexivity|]. split; [cbn; by apply bool_decide_eq_true_2|]. unfold sample_sig. rewrite length_take. cbn [length].
  rewrite length_app, length_replicate. lia.
Qed.
#[local] Existing Instances sample_x509 sample_ring sample_x509_laws sample_ring_laws.
Definition sample_ca : Result CaError CaService := with_subject_cn (RI := sample_ring) 1%nat 2%nat 100 (lit "CA").
Definition sample_curve : bytes := default [] (der_encode (mkOid OID_SECP256R1)).
Definition sample_info : CertificationRequestInfo :=
  mkCertificationRequestInfo 0 (mkName [[mkAttributeTypeAndValue (mkOid OID_COMMON_NAME) (lit "web")]])
    (mkSubjectPublicKeyInfo (mkAlgorithmIdentifier (mkOid OID_EC_PUBLIC_KEY) (Some sample_curve)) (from_vec [x04; x07])) [].
Definition sample_request : CertificationRequest :=
  mkCertificationRequest sample_info (mkAlgorithmIdentifier (mkOid OID_ECDSA_SHA256) None)
    (from_vec (default [] (ring_sign (Ring := sample_ring) [x07] 0%nat (default [] (der_encode sample_info))))).
Definition sample_csr : bytes := default [] (der_encode sample_request).
Lemma sample_self_signed : self_signed (RI := sample_ring) sample_csr sample_request [x04; x07].
Proof. split_and!; [vm_compute; reflexivity..|]. eexists. split; vm_compute; reflexivity. Qed.
Lemma ca_issue_verifies_witness :
  match sample_ca with
  | Ok ca0 => exists der usages, (issue (RI := sample_ring) 3%nat 200 ca0 (lit "adrian-webserver") sample_csr).1 = Ok der
      /\ certifies (RI := sample_ring) (ca_subject ca0) (public_sec1 (ca_key ca0)) 200 290
           (request_view sample_request [x04; x07] 1 usages [mkOid [1; 3; 6; 1; 5; 5; 7; 3; 1]]) der
  | _ => False
  end.
Proof.
  assert (is_ok sample_ca = true) as H by (vm_compute; reflexivity). destruct sample_ca as [ca0|e|] eqn:E; [|discriminate H..].
  destruct (fresh_ca _ _ _ _ _ E) as (_ & Hs & _ & _ & Hp & _).
  destruct (ca_issue_verifies (RI := sample_ring) 1%nat 2%nat 3%nat 100 200 (lit "CA") (lit "adrian-webserver") sample_csr ca0 [] E) as (_ & Hok & _).
  change (ca_run ca0 []) with ca0 in Hok. rewrite Hs in Hok.
  destruct (Hok (kind_profile WebServer) sample_request [x04; x07] 290 [mkOid [1; 3; 6; 1; 5; 5; 7; 3; 1]]) as (der & usages & Hd & _ & Hc); [|reflexivity..|by exists der, usages].
  split_and!; [rewrite Hp; vm_compute; reflexivity|exact sample_self_signed|vm_compute; reflexivity|vm_compute; reflexivity].
Defined.
Lemma ca_serials_witness :
  match sample_ca with
  | Ok ca0 => StronglySorted Z.lt (map ic_serial (ca_issued (ca_run ca0 [OpIssue (RI := sample_ring) 3%nat 200 (lit "adrian-webserver") sample_csr])))
      /\ exists root, der_decode (root_der ca0) = Some root /\ serial_number (tbs_certificate root) = 1
  | _ => False
  end.
Proof.
  assert (is_ok sample_ca = true) as H by (vm_compute; reflexivity). destruct sample_ca as [ca0|e|] eqn:E; [|discriminate H..].
  destruct (ca_serials (RI := sample_ring) 1%nat 2%nat 100 (lit "CA") ca0 [OpIssue (RI := sample_ring) 3%nat 200 (lit "adrian-webserver") sample_csr] E eq_refl) as (H1 & _ & Hr).
  split; [exact H1|]. destruct Hr as (root & H2 & H3 & _); [exists 3750; by vm_compute|by exists root].
Defined.
Lemma ca_crl_lists_revoked_witness :
  match sample_ca with
  | Ok ca0 => exists der, crl_der (RI := sample_ring) 4%nat 300 (ca_run ca0 [OpRevoke (RI := sample_ring) 250 [x07] (lit "superseded")]) = Ok der
  | _ => False
  end.
Proof.
  assert (is_ok sample_ca = true) as H by (vm_compute; reflexivity). destruct sample_ca as [ca0|e|] eqn:E; [|discriminate H..].
  destruct (ca_crl_lists_revoked (RI := sample_ring) 1%nat 2%nat 4%nat 100 300 307 (lit "CA") ca0 [OpRevoke (RI := sample_ring) 250 [x07] (lit "superseded")] E) as [(der & _ & _ & Hd & _) _];
    [repeat constructor|reflexivity|vm_compute; reflexivity|reflexivity|by exists der].
Defined.
