(* ===== verification/Acme.v ===== *)
(** * Acme: the ACME server ([adrian-acme-server])

    Signed requests, the server state behind its locks, and one definition per
    endpoint.  [axum], [serde_json] and [base64] are parameters: a request is an
    endpoint with a body (or a body that cannot be read), a response its status,
    its headers and the value that is rendered, and the parsers of the JSON
    structures are given.  What an operation draws (the nonce, the token, the
    identifiers, the expiry text, the time) is an argument. *)
From S2P Require Import Prelude Bytes Text Ca.

(** ** Errors *)

Inductive JwsField := JwsProtected | JwsPayload | JwsSignature | JwkX | JwkY | CsrField.
Inductive MalformedProblem :=
| BodyRead
| JwsBodyJson
| HeaderJson
| PayloadJson
| Base64 (f : JwsField)
| UnsupportedAlg (alg : bytes)
| JwkRequired
| UnsupportedJwk (kty crv : bytes)
| JwkCoordinates
| NotSec1
| BadKidUrl
| IdentifiersEmpty.
Inductive UnauthorizedProblem :=
| UrlMismatch (header expected : bytes)
| BadJwsSignature
| BadNonce (nonce : bytes)
| TermsNotAgreed
| KidRequired
| UnknownAccount (id : bytes).
Inductive NotFoundProblem := NoAuthz (id : bytes) | NoChallenge (id : bytes) | NoOrder (id : bytes) | NoCert (id : bytes).
Inductive AcmeError :=
| Malformed (p : MalformedProblem)
| Unauthorized (p : UnauthorizedProblem)
| RateLimited
| AcmeCa (e : CaError)
| NotFound (p : NotFoundProblem)
| Conflict (text : bytes)
| Internal (text : bytes).
Definition status_code (e : AcmeError) : Z :=
  match e with
  | Malformed _ => 400
  | Unauthorized _ => 401
  | RateLimited => 429
  | AcmeCa _ => 500
  | NotFound _ => 404
  | Conflict _ => 409
  | Internal _ => 500
  end.
(** The [type] of the problem document. *)
Definition error_urn (e : AcmeError) : bytes :=
  lit "urn:ietf:params:acme:error:" ++
  lit match e with
      | Malformed _ => "malformed"
      | Unauthorized _ => "unauthorized"
      | RateLimited => "rateLimited"
      | AcmeCa _ => "serverInternal"
      | NotFound _ => "not-found"
      | Conflict _ => "conflict"
      | Internal _ => "serverInternal"
      end.

(** ** Data *)

Record Jwk := mkJwk { kty : bytes; crv : bytes; jwk_x : bytes; jwk_y : bytes }.
Inductive AccountStatus := AccountValid | AccountDeactivated | AccountRevoked.
Record AcmeAccount := mkAcmeAccount { acct_kid : bytes; acct_contact : list bytes; acct_status : AccountStatus; acct_jwk : Jwk }.
Inductive OrderStatus := OrderPending | OrderReady | OrderProcessing | OrderValid | OrderInvalid.
#[global] Instance OrderStatus_eq_dec : EqDecision OrderStatus.
Proof. solve_decision. Defined.
Record Identifier := mkIdentifier { id_typ : bytes; id_value : bytes }.
Record AcmeOrder := mkAcmeOrder {
  ord_status : OrderStatus;
  ord_expires : bytes;
  ord_identifiers : list Identifier;
  ord_authorizations : list bytes;
  ord_finalize : bytes;
  ord_certificate : option bytes;
}.
Inductive ChallengeStatus := ChallengePending | ChallengeProcessing | ChallengeValid | ChallengeInvalid.
Record Challenge := mkChallenge { ch_typ : bytes; ch_url : bytes; ch_status : ChallengeStatus; ch_token : bytes }.
Inductive AuthzStatus := AuthzPending | AuthzValid | AuthzInvalid.
Record AcmeAuthz := mkAcmeAuthz { az_identifier : Identifier; az_status : AuthzStatus; az_expires : bytes; az_challenges : list Challenge }.
Record JwsProtectedHeader := mkJwsProtectedHeader { jh_alg : bytes; jh_jwk : option Jwk; jh_kid : option bytes; jh_nonce : bytes; jh_url : bytes }.
Record JwsBody := mkJwsBody { jws_protected : bytes; jws_payload : bytes; jws_signature : bytes }.
Record NewAccountReq := mkNewAccountReq { na_contact : list bytes; terms_of_service_agreed : bool }.

(** ** What the libraries provide *)

Class AcmeLibs := {
  b64_encode : bytes -> bytes;
  b64_decode : bytes -> option bytes;
  jws_of_json : bytes -> option JwsBody;
  header_of_json : bytes -> option JwsProtectedHeader;
  new_account_of_json : bytes -> option NewAccountReq;
  new_order_of_json : bytes -> option (list Identifier);
  finalize_of_json : bytes -> option bytes;
  header_value_ok : bytes -> bool;
  authz_order : gmap bytes AcmeAuthz -> list bytes;
}.

Section Jws.
Context {RI : Ring} {AL : AcmeLibs}.

Definition Jwk_from_sec1 (sec1 : bytes) : Result AcmeError Jwk :=
  if negb (length sec1 =? 65)%nat || negb (bool_decide (head sec1 = Some x04)) then Err (Malformed NotSec1)
  else
    let? x := slice sec1 1 33 in
    let? y := slice sec1 33 65 in
    Ok (mkJwk (lit "EC") (lit "P-256") (b64_encode x) (b64_encode y)).
Definition Jwk_to_sec1 (k : Jwk) : Result AcmeError bytes :=
  if negb (bool_decide (kty k = lit "EC")) || negb (bool_decide (crv k = lit "P-256")) then Err (Malformed (UnsupportedJwk (kty k) (crv k)))
  else
    let? x := ok_or (b64_decode (jwk_x k)) (Malformed (Base64 JwkX)) in
    let? y := ok_or (b64_decode (jwk_y k)) (Malformed (Base64 JwkY)) in
    if negb (length x =? 32)%nat || negb (length y =? 32)%nat then Err (Malformed JwkCoordinates)
    else Ok ([x04] ++ x ++ y).
Definition json_quoted (s : bytes) : bytes := [x22] ++ s ++ [x22].
Definition canonical_jwk (k : Jwk) : bytes :=
  lit "{" ++ json_quoted (lit "crv") ++ lit ":" ++ json_quoted (lit "P-256") ++ lit "," ++ json_quoted (lit "kty") ++ lit ":" ++ json_quoted (lit "EC")
  ++ lit "," ++ json_quoted (lit "x") ++ lit ":" ++ json_quoted (jwk_x k) ++ lit "," ++ json_quoted (lit "y") ++ lit ":" ++ json_quoted (jwk_y k) ++ lit "}".
Definition thumbprint (k : Jwk) : Result AcmeError bytes := Ok (b64_encode (sha256 (canonical_jwk k))).
(** [unwrap_or_else(|_| 'unknown')]. *)
Definition jwk_fingerprint (k : Jwk) : bytes := match thumbprint k with Ok t => t | _ => lit "unknown" end.

Definition decoded_header (b : JwsBody) : Result AcmeError JwsProtectedHeader :=
  let? bytes := ok_or (b64_decode (jws_protected b)) (Malformed (Base64 JwsProtected)) in
  ok_or (header_of_json bytes) (Malformed HeaderJson).
Definition decoded_payload (b : JwsBody) : Result AcmeError bytes := ok_or (b64_decode (jws_payload b)) (Malformed (Base64 JwsPayload)).
Definition decoded_signature (b : JwsBody) : Result AcmeError bytes := ok_or (b64_decode (jws_signature b)) (Malformed (Base64 JwsSignature)).
Definition signing_input (b : JwsBody) : bytes := jws_protected b ++ [x2e] ++ jws_payload b.
Definition check_header (header : JwsProtectedHeader) (expected_url : bytes) : Result AcmeError unit :=
  if negb (bool_decide (jh_alg header = lit "ES256")) then Err (Malformed (UnsupportedAlg (jh_alg header)))
  else if negb (bool_decide (jh_url header = expected_url)) then Err (Unauthorized (UrlMismatch (jh_url header) expected_url))
  else Ok tt.
Definition check_signature (b : JwsBody) (jwk : Jwk) : Result AcmeError unit :=
  let? pub_sec1 := Jwk_to_sec1 jwk in
  let? sig := decoded_signature b in
  if ecdsa_verify pub_sec1 (signing_input b) sig then Ok tt else Err (Unauthorized BadJwsSignature).
Definition verify_jws (b : JwsBody) (expected_url : bytes) : Result AcmeError Jwk :=
  let? header := decoded_header b in
  let? _ := check_header header expected_url in
  let? jwk := ok_or (jh_jwk header) (Malformed JwkRequired) in
  let? _ := check_signature b jwk in
  Ok jwk.
Definition verify_jws_with_kid (b : JwsBody) (expected_url : bytes) (jwk : Jwk) : Result AcmeError unit :=
  let? header := decoded_header b in
  let? _ := check_header header expected_url in
  check_signature b jwk.
End Jws.

(** ** The server *)

Section Server.
Context {XP : X509} {RI : Ring} {AL : AcmeLibs}.

Record AcmeState := mkAcmeState {
  base_url : bytes;
  st_ca : CaService;
  nonces : gset bytes;
  accounts : gmap bytes AcmeAccount;
  orders : gmap bytes AcmeOrder;
  authz : gmap bytes AcmeAuthz;
  challenges : gmap bytes Challenge;
  certs : gmap bytes bytes;
  st_profile : bytes;
}.
Definition with_ca (base_url : bytes) (ca : CaService) : AcmeState := mkAcmeState base_url ca ∅ ∅ ∅ ∅ ∅ ∅ (lit "adrian-webserver").
Definition AcmeState_new (rng sign_rng : Rng) (now : Z) (base_url : bytes) : Result AcmeError AcmeState :=
  let? ca := map_err AcmeCa (CaService_new rng sign_rng now) in Ok (with_ca base_url ca).
Definition set_ca (s : AcmeState) v := mkAcmeState (base_url s) v (nonces s) (accounts s) (orders s) (authz s) (challenges s) (certs s) (st_profile s).
Definition set_nonces (s : AcmeState) v := mkAcmeState (base_url s) (st_ca s) v (accounts s) (orders s) (authz s) (challenges s) (certs s) (st_profile s).
Definition set_accounts (s : AcmeState) v := mkAcmeState (base_url s) (st_ca s) (nonces s) v (orders s) (authz s) (challenges s) (certs s) (st_profile s).
Definition set_orders (s : AcmeState) v := mkAcmeState (base_url s) (st_ca s) (nonces s) (accounts s) v (authz s) (challenges s) (certs s) (st_profile s).
Definition set_authz (s : AcmeState) v := mkAcmeState (base_url s) (st_ca s) (nonces s) (accounts s) (orders s) v (challenges s) (certs s) (st_profile s).
Definition set_challenges (s : AcmeState) v := mkAcmeState (base_url s) (st_ca s) (nonces s) (accounts s) (orders s) (authz s) v (certs s) (st_profile s).
Definition set_certs (s : AcmeState) v := mkAcmeState (base_url s) (st_ca s) (nonces s) (accounts s) (orders s) (authz s) (challenges s) v (st_profile s).

Definition url (s : AcmeState) (endpoint : bytes) : bytes := base_url s ++ lit "/" ++ endpoint.
Definition acct_url (s : AcmeState) (id : bytes) : bytes := url s (lit "acct/" ++ id).
Definition order_url (s : AcmeState) (id : bytes) : bytes := url s (lit "order/" ++ id).
Definition authz_url (s : AcmeState) (id : bytes) : bytes := url s (lit "authz/" ++ id).
Definition challenge_url (s : AcmeState) (id : bytes) : bytes := url s (lit "challenge/" ++ id).
Definition finalize_url (s : AcmeState) (id : bytes) : bytes := url s (lit "order/" ++ id ++ lit "/finalize").
Definition cert_url (s : AcmeState) (id : bytes) : bytes := url s (lit "order/" ++ id ++ lit "/cert").

(** What one request draws: random bytes for the nonce and the token, the
    identifiers, the expiry text, the time and the randomness of the signature. *)
Record Fresh := mkFresh {
  fr_nonce : bytes;
  fr_token : bytes;
  fr_order_id : bytes;
  fr_authz_id : bytes;
  fr_chal_id : bytes;
  fr_expires : bytes;
  fr_now : Z;
  fr_rng : Rng;
}.

(** ** Responses *)

Inductive ResponseBody :=
| DirectoryBody (new_nonce new_account new_order revoke_cert key_change : bytes)
| AccountBody (contact : list bytes)
| OrderBody (o : option AcmeOrder)
| AuthzBody (a : AcmeAuthz)
| ChallengeBody (c : Challenge)
| CertBody (der : bytes)
| ErrorBody (e : AcmeError)
| EmptyBody.
Record Response := mkResponse { rs_status : Z; rs_location : option bytes; rs_nonce : option bytes; rs_body : ResponseBody }.
(** [HeaderValue::from_str(..).unwrap_or_else(|_| from_static(''))]. *)
Definition header_value (s : bytes) : bytes := if header_value_ok s then s else [].
Definition problem_response (e : AcmeError) : Response := mkResponse (status_code e) None None (ErrorBody e).

(** ** Handlers *)

(** A handler may fail after it changed the state. *)
Definition A (X : Type) : Type := AcmeState -> Result AcmeError X * AcmeState.
Definition aret {X} (r : Result AcmeError X) : A X := fun s => (r, s).
Definition abind {X Y} (m : A X) (f : X -> A Y) : A Y :=
  fun s => match m s with
           | (Ok x, s) => f x s
           | (Err e, s) => (Err e, s)
           | (Panic, s) => (Panic, s)
           end.
Definition aget : A AcmeState := fun s => (Ok s, s).
Definition amodify (f : AcmeState -> AcmeState) : A unit := fun s => (Ok tt, f s).
Notation "'let*' x := e 'in' k" := (abind e (fun x => k))
  (at level 10, x pattern, e at level 200, k at level 200,
   format "'[v' 'let*'  x  :=  e  'in' '/' k ']'") : adrian_scope.

Definition new_nonce (fr : Fresh) : bytes := b64_encode (fr_nonce fr).
Definition mint_nonce (fr : Fresh) : A bytes :=
  let* _ := amodify (fun s => set_nonces s ({[ new_nonce fr ]} ∪ nonces s)) in aret (Ok (new_nonce fr)).
Definition consume_nonce (nonce : bytes) : A bool :=
  let* s := aget in
  let* _ := amodify (fun s => set_nonces s (nonces s ∖ {[ nonce ]})) in
  aret (Ok (bool_decide (nonce ∈ nonces s))).
Definition parse_body (body : option bytes) : Result AcmeError JwsBody :=
  let? bytes := ok_or body (Malformed BodyRead) in ok_or (jws_of_json bytes) (Malformed JwsBodyJson).
(** [kid.rsplit('/').next()]. *)
Definition last_segment (s : bytes) : option bytes := last (split_on x2f s).
(** The part the handlers of signed requests share: the account of the [kid],
    the signature for the URL of the endpoint, the nonce. *)
Definition authenticate (expected : AcmeState -> bytes) (body : option bytes) : A JwsBody :=
  let* jws := aret (parse_body body) in
  let* header := aret (decoded_header jws) in
  let* kid := aret (ok_or (jh_kid header) (Unauthorized KidRequired)) in
  let* acct_id := aret (ok_or (last_segment kid) (Malformed BadKidUrl)) in
  let* s := aget in
  let* account := aret (ok_or (accounts s !! acct_id) (Unauthorized (UnknownAccount acct_id))) in
  let* _ := aret (verify_jws_with_kid jws (expected s) (acct_jwk account)) in
  let* known := consume_nonce (jh_nonce header) in
  let* _ := aret (if known then Ok tt else Err (Unauthorized (BadNonce (jh_nonce header)))) in
  aret (Ok jws).

Definition directory : A Response :=
  let* s := aget in
  aret (Ok (mkResponse 200 None None
    (DirectoryBody (url s (lit "new-nonce")) (url s (lit "new-account")) (url s (lit "new-order")) (url s (lit "revoke-cert")) (url s (lit "key-change"))))).
Definition new_nonce_handler (fr : Fresh) : A Response :=
  let* nonce := mint_nonce fr in aret (Ok (mkResponse 200 None (Some (header_value nonce)) EmptyBody)).
Definition register_account (fr : Fresh) (jws : JwsBody) (jwk : Jwk) : A Response :=
  let* s := aget in
  let* payload := aret (decoded_payload jws) in
  let* req := aret (ok_or (new_account_of_json payload) (Malformed PayloadJson)) in
  let* _ := aret (if terms_of_service_agreed req then Ok tt else Err (Unauthorized TermsNotAgreed)) in
  let acct_id := jwk_fingerprint jwk in
  let kid := acct_url s acct_id in
  let was_new := bool_decide (accounts s !! acct_id = None) in
  let* _ := amodify (fun s => set_accounts s (<[acct_id := mkAcmeAccount kid (na_contact req) AccountValid jwk]> (accounts s))) in
  let* nonce := mint_nonce fr in
  aret (Ok (mkResponse (if was_new then 201 else 200) (Some (header_value kid)) (Some (header_value nonce)) (AccountBody (na_contact req)))).
Definition new_account (fr : Fresh) (body : option bytes) : A Response :=
  let* jws := aret (parse_body body) in
  let* s := aget in
  let* jwk := aret (verify_jws jws (url s (lit "new-account"))) in
  let* header := aret (decoded_header jws) in
  let* known := consume_nonce (jh_nonce header) in
  let* _ := aret (if known then Ok tt else Err (Unauthorized (BadNonce (jh_nonce header)))) in
  register_account fr jws jwk.
Definition place_order (fr : Fresh) (jws : JwsBody) : A Response :=
  let* payload := aret (decoded_payload jws) in
  let* identifiers := aret (ok_or (new_order_of_json payload) (Malformed PayloadJson)) in
  let* first := aret (ok_or (head identifiers) (Malformed IdentifiersEmpty)) in
  let* s := aget in
  let challenge := mkChallenge (lit "http-01") (challenge_url s (fr_chal_id fr)) ChallengePending (b64_encode (fr_token fr)) in
  let az := mkAcmeAuthz first AuthzPending (fr_expires fr) [challenge] in
  let order := mkAcmeOrder OrderPending (fr_expires fr) identifiers [authz_url s (fr_authz_id fr)] (finalize_url s (fr_order_id fr)) None in
  let* _ := amodify (fun s => set_challenges s (<[fr_chal_id fr := challenge]> (challenges s))) in
  let* _ := amodify (fun s => set_authz s (<[fr_authz_id fr := az]> (authz s))) in
  let* _ := amodify (fun s => set_orders s (<[fr_order_id fr := order]> (orders s))) in
  let* nonce := mint_nonce fr in
  aret (Ok (mkResponse 201 (Some (header_value (order_url s (fr_order_id fr)))) (Some (header_value nonce)) (OrderBody (Some order)))).
Definition new_order (fr : Fresh) (body : option bytes) : A Response :=
  let* jws := authenticate (fun s => url s (lit "new-order")) body in place_order fr jws.
Definition authz_handler (fr : Fresh) (id : bytes) (body : option bytes) : A Response :=
  let* _ := authenticate (fun s => authz_url s id) body in
  let* s := aget in
  let* a := aret (ok_or (authz s !! id) (NotFound (NoAuthz id))) in
  let* nonce := mint_nonce fr in
  aret (Ok (mkResponse 200 None (Some (header_value nonce)) (AuthzBody a))).

(** The first authorization, in the order of the map, with the challenge. *)
Definition has_challenge (url : bytes) (a : AcmeAuthz) : bool := existsb (fun c => bool_decide (ch_url c = url)) (az_challenges a).
Fixpoint mark_authz (url : bytes) (ids : list bytes) (m : gmap bytes AcmeAuthz) : gmap bytes AcmeAuthz :=
  match ids with
  | [] => m
  | id :: ids =>
      match m !! id with
      | Some a =>
          if has_challenge url a then <[id := mkAcmeAuthz (az_identifier a) AuthzValid (az_expires a) (az_challenges a)]> m
          else mark_authz url ids m
      | None => mark_authz url ids m
      end
  end.
Definition mark_order (authz_url : bytes) (o : AcmeOrder) : AcmeOrder :=
  if bool_decide (authz_url ∈ ord_authorizations o)
  then mkAcmeOrder OrderReady (ord_expires o) (ord_identifiers o) (ord_authorizations o) (ord_finalize o) (ord_certificate o)
  else o.
Definition complete_challenge (fr : Fresh) (id : bytes) : A Response :=
  let* s := aget in
  let* c := aret (ok_or (challenges s !! id) (NotFound (NoChallenge id))) in
  let c := mkChallenge (ch_typ c) (ch_url c) ChallengeValid (ch_token c) in
  let* _ := amodify (fun s => set_challenges s (<[id := c]> (challenges s))) in
  let* _ := amodify (fun s => set_authz s (mark_authz (ch_url c) (authz_order (authz s)) (authz s))) in
  let* _ := amodify (fun s => set_orders s (mark_order (authz_url s id) <$> orders s)) in
  let* nonce := mint_nonce fr in
  aret (Ok (mkResponse 200 None (Some (header_value nonce)) (ChallengeBody c))).
Definition challenge_handler (fr : Fresh) (id : bytes) (body : option bytes) : A Response :=
  let* _ := authenticate (fun s => challenge_url s id) body in complete_challenge fr id.
Definition ca_issue (fr : Fresh) (csr_der : bytes) : A bytes :=
  fun s => let '(r, ca) := issue (fr_rng fr) (fr_now fr) (st_ca s) (st_profile s) csr_der in (map_err AcmeCa r, set_ca s ca).
Definition issue_certificate (fr : Fresh) (id : bytes) (jws : JwsBody) : A Response :=
  let* payload := aret (decoded_payload jws) in
  let* csr := aret (ok_or (finalize_of_json payload) (Malformed PayloadJson)) in
  let* csr_der := aret (ok_or (b64_decode csr) (Malformed (Base64 CsrField))) in
  let* cert_der := ca_issue fr csr_der in
  let* _ := amodify (fun s => set_certs s (<[id := cert_der]> (certs s))) in
  let* s := aget in
  let* o := aret (ok_or (orders s !! id) (NotFound (NoOrder id))) in
  let o := mkAcmeOrder OrderValid (ord_expires o) (ord_identifiers o) (ord_authorizations o) (ord_finalize o) (Some (cert_url s id)) in
  let* _ := amodify (fun s => set_orders s (<[id := o]> (orders s))) in
  let* nonce := mint_nonce fr in
  aret (Ok (mkResponse 200 None (Some (header_value nonce)) (OrderBody (Some o)))).
Definition finalize_order (fr : Fresh) (id : bytes) (body : option bytes) : A Response :=
  let* jws := authenticate (fun s => finalize_url s id) body in issue_certificate fr id jws.
Definition get_cert (id : bytes) : A Response :=
  let* s := aget in
  let* cert := aret (ok_or (certs s !! id) (NotFound (NoCert id))) in
  aret (Ok (mkResponse 200 None None (CertBody cert))).

(** ** The router *)

Inductive Request :=
| GetDirectory
| HeadNewNonce
| PostNewAccount (body : option bytes)
| PostNewOrder (body : option bytes)
| PostAuthz (id : bytes) (body : option bytes)
| PostChallenge (id : bytes) (body : option bytes)
| PostFinalize (id : bytes) (body : option bytes)
| GetCert (id : bytes).
Definition route (fr : Fresh) (r : Request) : A Response :=
  match r with
  | GetDirectory => directory
  | HeadNewNonce => new_nonce_handler fr
  | PostNewAccount body => new_account fr body
  | PostNewOrder body => new_order fr body
  | PostAuthz id body => authz_handler fr id body
  | PostChallenge id body => challenge_handler fr id body
  | PostFinalize id body => finalize_order fr id body
  | GetCert id => get_cert id
  end.
(** [None] is a panic of the handler. *)
Definition respond (fr : Fresh) (r : Request) (s : AcmeState) : option Response * AcmeState :=
  match route fr r s with
  | (Ok resp, s) => (Some resp, s)
  | (Err e, s) => (Some (problem_response e), s)
  | (Panic, s) => (None, s)
  end.
End Server.
Notation "'let*' x := e 'in' k" := (abind e (fun x => k))
  (at level 10, x pattern, e at level 200, k at level 200,
   format "'[v' 'let*'  x  :=  e  'in' '/' k ']'") : adrian_scope.
