(* ===== verification/AcmeSpec.v ===== *)
(** * AcmeSpec: what the ACME server promises and what it does not check *)
From S2P Require Import Prelude Bytes Text Ca CaSpec Acme.

Section Spec.
Context {XP : X509} {RI : Ring} {AL : AcmeLibs}.

(** ** Handlers as computations *)

Lemma abind_Ok {X Y} (m : A X) (f : X -> A Y) s y s' : abind m f s = (Ok y, s') -> exists x s1, m s = (Ok x, s1) /\ f x s1 = (Ok y, s').
Proof. unfold abind. destruct (m s) as [[x|e|] s1]; [|done..]. intros H. by exists x, s1. Qed.
Lemma aret_bind {X Y} (r : Result AcmeError X) (f : X -> A Y) s :
  abind (aret r) f s = match r with Ok x => f x s | Err e => (Err e, s) | Panic => (Panic, s) end.
Proof. by destruct r. Qed.
(** Everything but the nonces. *)
Definition core (s : AcmeState) : AcmeState := set_nonces s ∅.

(** ** Signed requests *)

Definition signed_by (jwk : Jwk) (jws : JwsBody) (header : JwsProtectedHeader) (url : bytes) : Prop :=
  decoded_header jws = Ok header /\ jh_alg header = lit "ES256" /\ jh_url header = url
  /\ exists pub sig, Jwk_to_sec1 jwk = Ok pub /\ decoded_signature jws = Ok sig /\ ecdsa_verify pub (signing_input jws) sig = true.
Lemma check_signature_iff jws jwk :
  check_signature jws jwk = Ok tt <-> exists pub sig, Jwk_to_sec1 jwk = Ok pub /\ decoded_signature jws = Ok sig /\ ecdsa_verify pub (signing_input jws) sig = true.
Proof.
  unfold check_signature. destruct (Jwk_to_sec1 jwk) as [pub|e|]; cbn [rbind]; [|split; [done|intros (? & ? & ? & _); done]..].
  destruct (decoded_signature jws) as [sig|e|]; cbn [rbind]; [|split; [done|intros (? & ? & _ & ? & _); done]..].
  destruct (ecdsa_verify pub (signing_input jws) sig) eqn:Ev; (split; [|done || by intros (? & ? & [= <-] & [= <-] & H); rewrite H in Ev]); [|done].
  intros _. by exists pub, sig.
Qed.
Lemma check_header_iff header url : check_header header url = Ok tt <-> jh_alg header = lit "ES256" /\ jh_url header = url.
Proof.
  unfold check_header. destruct (bool_decide_reflect (jh_alg header = lit "ES256")) as [H1|H1]; cbn [negb]; [|split; [done|by intros [? _]]].
  destruct (bool_decide_reflect (jh_url header = url)) as [H2|H2]; cbn [negb]; [done|]. split; [done|by intros [_ ?]].
Qed.
Lemma unit_Ok {E} (r : Result E unit) : is_ok r = true <-> r = Ok tt.
Proof. by destruct r as [[]| |]. Qed.
Lemma verify_kid_iff jws url jwk : verify_jws_with_kid jws url jwk = Ok tt <-> exists header, signed_by jwk jws header url.
Proof.
  unfold verify_jws_with_kid, signed_by. destruct (decoded_header jws) as [header|e|]; cbn [rbind]; [|split; [done|intros (? & ? & _); done]..].
  pose proof (check_header_iff header url) as Hh. destruct (check_header header url) as [[]|e|]; cbn [rbind].
  - rewrite check_signature_iff. destruct (proj1 Hh eq_refl) as [H1 H2]. split; [intros (pub & sig & H); exists header; split_and!; [done..|by exists pub, sig]|].
    intros (h & _ & _ & _ & H). exact H.
  - split; [done|]. intros (h & [= <-] & H1 & H2 & _). by discriminate (proj2 Hh (conj H1 H2)).
  - split; [done|]. intros (h & [= <-] & H1 & H2 & _). by discriminate (proj2 Hh (conj H1 H2)).
Qed.
Lemma verify_jws_iff jws url jwk : verify_jws jws url = Ok jwk <-> exists header, signed_by jwk jws header url /\ jh_jwk header = Some jwk.
Proof.
  unfold verify_jws, signed_by. destruct (decoded_header jws) as [header|e|]; cbn [rbind]; [|split; [done|intros (? & (? & _) & _); done]..].
  pose proof (check_header_iff header url) as Hh. destruct (check_header header url) as [[]|e|]; cbn [rbind].
  - destruct (jh_jwk header) as [k|] eqn:Ek; cbn [ok_or rbind]; [|split; [done|intros (h & ([= <-] & _) & Hk); congruence]].
    pose proof (check_signature_iff jws k) as Hs. destruct (proj1 Hh eq_refl) as [H1 H2]. destruct (check_signature jws k) as [[]|e|]; cbn [rbind].
    + split; [intros [= ->]; exists header; split; [split_and!; [done..|by apply Hs]|done]|]. intros (h & ([= <-] & _) & Hk). congruence.
    + split; [done|]. intros (h & ([= <-] & _ & _ & H) & Hk). rewrite Hk in Ek. injection Ek as <-. by discriminate (proj2 Hs H).
    + split; [done|]. intros (h & ([= <-] & _ & _ & H) & Hk). rewrite Hk in Ek. injection Ek as <-. by discriminate (proj2 Hs H).
  - split; [done|]. intros (h & ([= <-] & H1 & H2 & _) & _). by discriminate (proj2 Hh (conj H1 H2)).
  - split; [done|]. intros (h & ([= <-] & H1 & H2 & _) & _). by discriminate (proj2 Hh (conj H1 H2)).
Qed.

(** The account a request names by its [kid]. *)
Definition account_of (s : AcmeState) (header : JwsProtectedHeader) (a : AcmeAccount) : Prop :=
  exists kid id, jh_kid header = Some kid /\ last_segment kid = Some id /\ accounts s !! id = Some a.
Definition authentic (s : AcmeState) (url : bytes) (body : option bytes) (jws : JwsBody) (header : JwsProtectedHeader) : Prop :=
  exists a, parse_body body = Ok jws /\ account_of s header a /\ signed_by (acct_jwk a) jws header url /\ jh_nonce header ∈ nonces s.
Definition without_nonce (s : AcmeState) (n : bytes) : AcmeState := set_nonces s (nonces s ∖ {[ n ]}).
Lemma authenticate_spec url body s :
  match authenticate url body s with
  | (Ok jws, s') => exists header, authentic s (url s) body jws header /\ s' = without_nonce s (jh_nonce header)
  | (_, s') => core s' = core s /\ nonces s' ⊆ nonces s
  end.
Proof.
  unfold authenticate. rewrite aret_bind. destruct (parse_body body) as [jws|e|] eqn:Eb; [|done..]. rewrite aret_bind. destruct (decoded_header jws) as [header|e|] eqn:Eh; [|done..].
  rewrite aret_bind. destruct (jh_kid header) as [kid|] eqn:Ek; cbn [ok_or]; [|done]. rewrite aret_bind. destruct (last_segment kid) as [id|] eqn:El; cbn [ok_or]; [|done].
  unfold abind at 1. cbn [aget]. rewrite aret_bind. destruct (accounts s !! id) as [a|] eqn:Ea; cbn [ok_or]; [|done]. rewrite aret_bind.
  pose proof (verify_kid_iff jws (url s) (acct_jwk a)) as Hv. destruct (verify_jws_with_kid jws (url s) (acct_jwk a)) as [[]|e|]; [|done..].
  destruct (proj1 Hv eq_refl) as (h & Hs). pose proof Hs as (Hd & _). rewrite Hd in Eh. injection Eh as ->.
  unfold consume_nonce, abind, aget, amodify, aret. case_bool_decide as Hn.
  - exists header. split; [|done]. exists a. split_and!; [done|by exists kid, id|done|done].
  - split; [done|]. cbn. set_solver.
Qed.
Lemma authenticate_iff url body s jws header : authentic s (url s) body jws header -> authenticate url body s = (Ok jws, without_nonce s (jh_nonce header)).
Proof.
  intros (a & Hb & (kid & id & Hk & Hl & Ha) & Hs & Hn). unfold authenticate. rewrite aret_bind, Hb, aret_bind. pose proof Hs as (Hd & _). rewrite Hd, aret_bind, Hk. cbn [ok_or].
  rewrite aret_bind, Hl. cbn [ok_or]. unfold abind at 1. cbn [aget]. rewrite aret_bind, Ha. cbn [ok_or]. rewrite aret_bind.
  rewrite (proj2 (verify_kid_iff jws (url s) (acct_jwk a))) by (by exists header). unfold consume_nonce, abind, aget, amodify, aret. by rewrite bool_decide_eq_true_2.
Qed.

(** ** Nonces *)

(** A computation that adds no nonce but the one it draws. *)
Definition grows {X} (fr : Fresh) (m : A X) : Prop := forall s, nonces (m s).2 ⊆ nonces s ∪ {[ new_nonce fr ]}.
Lemma grows_ret {X} fr (r : Result AcmeError X) : grows fr (aret r).
Proof. intros s. cbn. set_solver. Qed.
Lemma grows_get fr : grows fr aget.
Proof. intros s. cbn. set_solver. Qed.
Lemma grows_bind {X Y} fr (m : A X) (f : X -> A Y) : grows fr m -> (forall x, grows fr (f x)) -> grows fr (abind m f).
Proof.
  intros Hm Hf s. specialize (Hm s). unfold abind. destruct (m s) as [[x|e|] s1]; cbn in *; [|done..]. specialize (Hf x s1). set_solver.
Qed.
Lemma grows_modify fr f : (forall s, nonces (f s) ⊆ nonces s ∪ {[ new_nonce fr ]}) -> grows fr (amodify f).
Proof. intros H s. apply H. Qed.
Lemma grows_mint fr : grows fr (mint_nonce fr).
Proof. apply grows_bind; [apply grows_modify; intros s; cbn; set_solver|intros []; apply grows_ret]. Qed.
Lemma grows_consume fr n : grows fr (consume_nonce n).
Proof. apply grows_bind; [apply grows_get|intros s]. apply grows_bind; [apply grows_modify; intros s'; cbn; set_solver|intros []; apply grows_ret]. Qed.
Lemma grows_issue fr csr : grows fr (ca_issue fr csr).
Proof. intros s. unfold ca_issue. destruct (issue _ _ _ _ _) as [r ca]. cbn. set_solver. Qed.
Lemma grows_authenticate fr url body : grows fr (authenticate url body).
Proof.
  intros s. pose proof (authenticate_spec url body s) as H. destruct (authenticate url body s) as [[jws|e|] s']; cbn.
  - destruct H as (header & _ & ->). cbn. set_solver.
  - destruct H as [_ H]. set_solver.
  - destruct H as [_ H]. set_solver.
Qed.
Lemma grows_frame fr f : (forall s, nonces (f s) = nonces s) -> grows fr (amodify f).
Proof. intros H. apply grows_modify. intros s. rewrite H. set_solver. Qed.
Ltac grows := repeat match goal with
  | |- grows _ (aret _) => apply grows_ret
  | |- grows _ aget => apply grows_get
  | |- grows _ (mint_nonce _) => apply grows_mint
  | |- grows _ (ca_issue _ _) => apply grows_issue
  | |- grows _ (amodify _) => apply grows_frame; reflexivity
  | |- grows _ (abind _ _) => apply grows_bind; [|intros ?]
  end.

Lemma new_account_split fr body s :
  match new_account fr body s with
  | (_, s') => (core s' = core s /\ nonces s' ⊆ nonces s)
     \/ exists jws header jwk, parse_body body = Ok jws /\ signed_by jwk jws header (url s (lit "new-account")) /\ jh_jwk header = Some jwk /\ jh_nonce header ∈ nonces s
          /\ new_account fr body s = register_account fr jws jwk (without_nonce s (jh_nonce header))
  end.
Proof.
  destruct (new_account fr body s) as [r s'] eqn:E. revert E. unfold new_account. rewrite aret_bind. destruct (parse_body body) as [jws|e|] eqn:Eb; [|intros [= _ <-]; by left..].
  unfold abind at 1. cbn [aget]. rewrite aret_bind. pose proof (verify_jws_iff jws (url s (lit "new-account"))) as Hv.
  destruct (verify_jws jws (url s (lit "new-account"))) as [jwk|e|] eqn:Ev; [|intros [= _ <-]; by left..]. destruct (proj1 (Hv jwk) eq_refl) as (header & Hs & Hk).
  rewrite aret_bind. pose proof Hs as (-> & _). unfold consume_nonce. unfold abind at 1 2 3. cbn [aget amodify aret]. fold (without_nonce s (jh_nonce header)).
  case_bool_decide as Hn; rewrite aret_bind; [|intros [= _ <-]; left; cbn; split; [done|set_solver]]. intros E. right. exists jws, header, jwk.
  split_and!; [done..|]. rewrite <-E. reflexivity.
Qed.
Lemma signed_split {X} url body (k : JwsBody -> A X) s :
  (core (abind (authenticate url body) k s).2 = core s /\ nonces (abind (authenticate url body) k s).2 ⊆ nonces s)
  \/ exists jws header, authentic s (url s) body jws header /\ abind (authenticate url body) k s = k jws (without_nonce s (jh_nonce header)).
Proof.
  pose proof (authenticate_spec url body s) as H. unfold abind. destruct (authenticate url body s) as [[jws|e|] s'].
  - destruct H as (header & Ha & ->). right. by exists jws, header.
  - by left.
  - by left.
Qed.

(** ** The effect of a request *)

Definition endpoint (s : AcmeState) (r : Request) : option (bytes * option bytes) :=
  match r with
  | PostNewAccount body => Some (url s (lit "new-account"), body)
  | PostNewOrder body => Some (url s (lit "new-order"), body)
  | PostAuthz id body => Some (authz_url s id, body)
  | PostChallenge id body => Some (challenge_url s id, body)
  | PostFinalize id body => Some (finalize_url s id, body)
  | _ => None
  end.
(** The key that has to sign: the one in the header of a new account, else the
    one of the account. *)
Definition signing_key (s : AcmeState) (r : Request) (header : JwsProtectedHeader) (jwk : Jwk) : Prop :=
  match r with
  | PostNewAccount _ => jh_jwk header = Some jwk
  | _ => exists a, account_of s header a /\ acct_jwk a = jwk
  end.
Definition accepted (s : AcmeState) (r : Request) (header : JwsProtectedHeader) : Prop :=
  exists url body jws jwk, endpoint s r = Some (url, body) /\ parse_body body = Ok jws /\ signing_key s r header jwk /\ signed_by jwk jws header url
    /\ jh_nonce header ∈ nonces s.
Definition step (s : AcmeState) (x : Fresh * Request) : AcmeState := (respond x.1 x.2 s).2.
Lemma step_route s fr r : step s (fr, r) = (route fr r s).2.
Proof. unfold step, respond. cbn. by destruct (route fr r s) as [[]]. Qed.
Lemma route_effect fr r s :
  (core (route fr r s).2 = core s /\ nonces (route fr r s).2 ⊆ nonces s ∪ {[ new_nonce fr ]})
  \/ exists header, accepted s r header /\ nonces (route fr r s).2 ⊆ nonces s ∖ {[ jh_nonce header ]} ∪ {[ new_nonce fr ]}.
Proof.
  assert (forall X url body (k : JwsBody -> A X), endpoint s r = Some (url s, body) -> (forall header jwk, (exists a, account_of s header a /\ acct_jwk a = jwk) -> signing_key s r header jwk) ->
    (forall jws, grows fr (k jws)) ->
    (core (abind (authenticate url body) k s).2 = core s /\ nonces (abind (authenticate url body) k s).2 ⊆ nonces s ∪ {[ new_nonce fr ]})
    \/ exists header, accepted s r header /\ nonces (abind (authenticate url body) k s).2 ⊆ nonces s ∖ {[ jh_nonce header ]} ∪ {[ new_nonce fr ]}) as Hsigned.
  { intros X url body k He Hkey Hk. destruct (signed_split url body k s) as [[H1 H2]|(jws & header & (a & Hb & Ha & Hs & Hn) & ->)].
    - left. split; [exact H1|set_solver].
    - right. exists header. split; [|apply (Hk jws)]. exists (url s), body, jws, (acct_jwk a). split_and!; [done..|apply Hkey; by exists a|done|done]. }
  destruct r as [| |body|body|id body|id body|id body|id]; cbn [route].
  - left. cbn. split; [done|set_solver].
  - left. cbn. split; [done|set_solver].
  - pose proof (new_account_split fr body s) as H. destruct (new_account fr body s) as [r' s'] eqn:E. destruct H as [[H1 H2]|(jws & header & jwk & Hb & Hs & Hk & Hn & H)].
    + left. cbn. split; [exact H1|set_solver].
    + right. exists header. split; [by exists (url s (lit "new-account")), body, jws, jwk|]. assert (s' = (register_account fr jws jwk (without_nonce s (jh_nonce header))).2) as -> by (by rewrite <-H).
      assert (grows fr (register_account fr jws jwk)) as Hg by (unfold register_account; grows). apply Hg.
  - apply Hsigned; [done|done|]. intros jws. unfold place_order. grows.
  - apply Hsigned; [done|done|]. intros jws. grows.
  - apply Hsigned; [done|done|]. intros jws. unfold complete_challenge. grows.
  - apply Hsigned; [done|done|]. intros jws. unfold issue_certificate. grows.
  - left. unfold get_cert, abind, aget. cbn. destruct (certs s !! id); cbn; (split; [done|set_solver]).
Qed.
Lemma accepted_fun s r h1 h2 : accepted s r h1 -> accepted s r h2 -> h1 = h2.
Proof.
  intros (u1 & b1 & j1 & k1 & E1 & P1 & _ & (D1 & _) & _) (u2 & b2 & j2 & k2 & E2 & P2 & _ & (D2 & _) & _).
  rewrite E1 in E2. injection E2 as <- <-. rewrite P1 in P2. injection P2 as <-. congruence.
Qed.
Definition acme_run (s : AcmeState) (trace : list (Fresh * Request)) : AcmeState := foldl step s trace.
Lemma core_base s s' : core s' = core s -> base_url s' = base_url s.
Proof. unfold core. destruct s, s'. cbn. by intros [=]. Qed.
Lemma step_nonces s x : nonces (step s x) ⊆ nonces s ∪ {[ new_nonce x.1 ]}.
Proof. destruct x as [fr r]. rewrite step_route. destruct (route_effect fr r s) as [[_ H]|(h & _ & H)]; [exact H|]. cbn. set_solver. Qed.
Lemma run_nonces s trace n : n ∉ nonces s -> Forall (fun x => new_nonce x.1 <> n) trace -> n ∉ nonces (acme_run s trace).
Proof.
  revert s. induction trace as [|x trace IH]; intros s Hn Hf; [done|]. inversion Hf; subst. change (acme_run s (x :: trace)) with (acme_run (step s x) trace).
  apply IH; [|done]. pose proof (step_nonces s x). set_solver.
Qed.
(** The header a request carries does not depend on the state. *)
Definition header_of (r : Request) : option JwsProtectedHeader :=
  let body := match r with PostNewAccount b | PostNewOrder b | PostAuthz _ b | PostChallenge _ b | PostFinalize _ b => b | _ => None end in
  match let? jws := parse_body body in decoded_header jws with Ok h => Some h | _ => None end.
Lemma accepted_header s r h : accepted s r h -> header_of r = Some h.
Proof.
  intros (u & b & j & k & E & P & _ & (D & _) & _). unfold header_of. destruct r; try discriminate E; injection E as _ <-; rewrite P; cbn [rbind]; by rewrite D.
Qed.

(** C10: A request changes what the server keeps besides nonces (accounts, orders,
    authorizations, challenges, certificates, the authority) only if it is signed
    for the URL of its endpoint by the key in its header (a new account) or by the
    key of an account the server knows, with a nonce the server issued; and the
    nonce is used up, so the same request never has an effect again, whatever the
    server is asked in between, as long as no later draw repeats the nonce. *)
Theorem acme_effects_signed (s : AcmeState) (fr : Fresh) (r : Request) : core (step s (fr, r)) <> core s ->
  exists header, accepted s r header
    /\ (new_nonce fr <> jh_nonce header -> forall trace fr', Forall (fun x => new_nonce x.1 <> jh_nonce header) trace ->
          let later := acme_run (step s (fr, r)) trace in core (step later (fr', r)) = core later).
Proof.
  rewrite step_route. intros Hc. destruct (route_effect fr r s) as [[H _]|(header & Ha & Hn)]; [done|]. exists header. split; [exact Ha|]. intros Hfr trace fr' Hf later.
  rewrite step_route. destruct (route_effect fr' r later) as [[H _]|(h' & Ha' & _)]; [exact H|].
  assert (h' = header) as -> by (apply accepted_header in Ha, Ha'; congruence). destruct Ha' as (? & ? & ? & ? & _ & _ & _ & _ & Hin).
  destruct (run_nonces (route fr r s).2 trace (jh_nonce header)); [set_solver|done|done].
Qed.

(** ** A program logic for handlers

    [P] holds before, [Q] after a result, [I] after an error. *)
Definition triple {X} (I P : AcmeState -> Prop) (m : A X) (Q : X -> AcmeState -> Prop) : Prop :=
  forall s, P s -> match m s with (Ok x, s') => Q x s' | (_, s') => I s' end.
Lemma triple_bind {X Y} I P (m : A X) (f : X -> A Y) R Q : triple I P m R -> (forall x, triple I (R x) (f x) Q) -> triple I P (abind m f) Q.
Proof. intros Hm Hf s Hs. specialize (Hm s Hs). unfold abind. destruct (m s) as [[x|e|] s1]; [|exact Hm..]. exact (Hf x s1 Hm). Qed.
Lemma triple_ret {X} I (P : AcmeState -> Prop) (r : Result AcmeError X) Q : (forall s, P s -> I s) -> (forall x s, r = Ok x -> P s -> Q x s) -> triple I P (aret r) Q.
Proof. intros HI HQ s Hs. cbn. destruct r; [by apply HQ|by apply HI..]. Qed.
Lemma triple_get I (P : AcmeState -> Prop) : triple I P aget (fun x s => x = s /\ P s).
Proof. by intros s Hs. Qed.
Lemma triple_modify I (P : AcmeState -> Prop) f (Q : unit -> AcmeState -> Prop) : (forall s, P s -> Q tt (f s)) -> triple I P (amodify f) Q.
Proof. intros H s Hs. by apply H. Qed.
Lemma triple_weaken {X} (I P P' : AcmeState -> Prop) (m : A X) Q : (forall s, P s -> P' s) -> triple I P' m Q -> triple I P m Q.
Proof. intros H Hm s Hs. by apply Hm, H. Qed.
Lemma triple_step (I : AcmeState -> Prop) fr r s : triple I I (route fr r) (fun _ => I) -> I s -> I (step s (fr, r)).
Proof. intros Ht Hs. rewrite step_route. specialize (Ht s Hs). by destruct (route fr r s) as [[]]. Qed.
(** A predicate that does not look at the nonces. *)
Definition nonce_free (I : AcmeState -> Prop) : Prop := forall s n, I s -> I (set_nonces s n).
Lemma triple_mint I fr : nonce_free I -> triple I I (mint_nonce fr) (fun _ => I).
Proof. intros Hn s Hs. cbn. by apply Hn. Qed.
Lemma core_nonces s s' : core s' = core s -> exists n, s' = set_nonces s n.
Proof. unfold core. intros H. exists (nonces s'). destruct s, s'. cbn in *. injection H. by intros -> -> -> -> -> -> -> ->. Qed.
Lemma triple_signed I url body (k : JwsBody -> A Response) : nonce_free I -> (forall jws, triple I I (k jws) (fun _ => I)) -> triple I I (abind (authenticate url body) k) (fun _ => I).
Proof.
  intros Hn Hk. apply (triple_bind I I _ _ (fun _ => I)); [|exact Hk]. intros s Hs. pose proof (authenticate_spec url body s) as H. destruct (authenticate url body s) as [[jws|e|] s'].
  - destruct H as (h & _ & ->). by apply Hn.
  - destruct H as [H _]. apply core_nonces in H as [n ->]. by apply Hn.
  - destruct H as [H _]. apply core_nonces in H as [n ->]. by apply Hn.
Qed.

(** ** The life of an order *)

Section Orders.
Context (base : bytes) (chal_ids authz_ids : gset bytes) (Hdisjoint : chal_ids ## authz_ids).
Definition order_ok (s : AcmeState) (id : bytes) (o : AcmeOrder) : Prop :=
  (exists z, z ∈ authz_ids /\ ord_authorizations o = [authz_url s z])
  /\ ((ord_status o = OrderPending /\ ord_certificate o = None) \/ (ord_status o = OrderValid /\ ord_certificate o = Some (cert_url s id) /\ is_Some (certs s !! id))).
Definition orders_ok (s : AcmeState) : Prop :=
  base_url s = base /\ (forall id c, challenges s !! id = Some c -> id ∈ chal_ids) /\ (forall id o, orders s !! id = Some o -> order_ok s id o).
Lemma orders_ok_nonces : nonce_free orders_ok.
Proof. intros s n H. exact H. Qed.
Lemma authz_url_inj s s' a b : base_url s = base_url s' -> authz_url s a = authz_url s' b -> a = b.
Proof. unfold authz_url, url. intros -> H. by apply app_inv_head, app_inv_head, app_inv_head in H. Qed.
Lemma place_order_ok fr jws : fr_chal_id fr ∈ chal_ids -> fr_authz_id fr ∈ authz_ids -> triple orders_ok orders_ok (place_order fr jws) (fun _ => orders_ok).
Proof.
  intros Hc Hz. unfold place_order. do 3 (eapply triple_bind; [apply (triple_ret _ orders_ok _ (fun _ => orders_ok)); done|intros ?]).
  eapply triple_bind; [apply triple_get|intros s0]. intros s [-> (Hb & Hch & Ho)]. cbn. split_and!; [done|..].
  - intros id c. cbn. rewrite lookup_insert_Some. intros [[<- _]|[_ H]]; [done|by apply (Hch id c)].
  - intros id o. cbn. rewrite lookup_insert_Some. intros [[<- <-]|[_ H]]; [|exact (Ho id o H)]. split; [by exists (fr_authz_id fr)|by left].
Qed.
Lemma complete_challenge_ok fr id : triple orders_ok orders_ok (complete_challenge fr id) (fun _ => orders_ok).
Proof.
  unfold complete_challenge. eapply triple_bind; [apply triple_get|intros s0]. intros s [-> Hs]. pose proof Hs as (Hb & Hch & Ho). rewrite aret_bind.
  destruct (challenges s !! id) as [c|] eqn:Ec; cbn [ok_or]; [|exact Hs]. cbn. split_and!; [done|..].
  - intros i c'. cbn. rewrite lookup_insert_Some. intros [[<- _]|[_ H]]; [by apply (Hch id c)|by apply (Hch i c')].
  - intros i o. cbn. rewrite lookup_fmap. destruct (orders s !! i) as [o'|] eqn:Eo; [|done]. cbn. intros [= <-]. pose proof (Ho i o' Eo) as Hok. destruct Hok as [(z & Hz & Ha) Hst].
    unfold mark_order. rewrite bool_decide_eq_false_2; [exact (Ho i o' Eo)|]. rewrite Ha, list_elem_of_singleton. intros H. apply authz_url_inj in H as ->; [|done].
    specialize (Hch z c Ec). set_solver.
Qed.
Lemma issue_certificate_ok fr id jws : triple orders_ok orders_ok (issue_certificate fr id jws) (fun _ => orders_ok).
Proof.
  unfold issue_certificate. do 3 (eapply triple_bind; [apply (triple_ret _ orders_ok _ (fun _ => orders_ok)); done|intros ?]). intros s Hs. pose proof Hs as (Hb & Hch & Ho).
  unfold abind at 1, ca_issue. destruct (issue _ _ _ _ _) as [r ca]. destruct r as [der|e|]; cbn [map_err]; [|exact Hs..]. cbn.
  assert (forall i o, orders s !! i = Some o -> order_ok (set_certs (set_ca s ca) (<[id := der]> (certs s))) i o) as Ho'.
  { intros i o Hi. destruct (Ho i o Hi) as [Hz Hst]. split; [exact Hz|]. destruct Hst as [Hp|(H1 & H2 & H3)]; [by left|right]. split_and!; [done|done|]. cbn.
    destruct (decide (id = i)) as [->|Hne]; [by rewrite lookup_insert_eq|by rewrite lookup_insert_ne]. }
  destruct (orders s !! id) as [o|] eqn:Eo; cbn; [|split_and!; done]. split_and!; [done|done|]. intros i o'. cbn. rewrite lookup_insert_Some. intros [[<- <-]|[_ H]]; [|exact (Ho' i o' H)].
  destruct (Ho id o Eo) as [Hz _]. split; [exact Hz|]. right. split_and!; [done|done|]. cbn. by rewrite lookup_insert_eq.
Qed.
Lemma new_account_ok fr body : triple orders_ok orders_ok (new_account fr body) (fun _ => orders_ok).
Proof.
  intros s Hs. pose proof (new_account_split fr body s) as H. destruct (new_account fr body s) as [r s'] eqn:E. assert (orders_ok s') as Hs'; [|by destruct r].
  destruct H as [[H _]|(jws & h & jwk & _ & _ & _ & _ & H)]; [apply core_nonces in H as [n ->]; by apply orders_ok_nonces|].
  assert (triple orders_ok orders_ok (register_account fr jws jwk) (fun _ => orders_ok)) as Ht.
  { unfold register_account. eapply triple_bind; [apply triple_get|intros s0]. do 3 (eapply triple_bind; [apply (triple_ret _ _ _ (fun _ => orders_ok)); naive_solver|intros ?]).
    eapply triple_bind; [apply (triple_modify _ _ _ (fun _ => orders_ok)); done|intros ?]. eapply triple_bind; [apply triple_mint, orders_ok_nonces|intros ?]. by apply triple_ret. }
  specialize (Ht (without_nonce s (jh_nonce h)) ltac:(by apply orders_ok_nonces)). rewrite <-H in Ht. by destruct r.
Qed.
Lemma step_orders_ok s x : fr_chal_id x.1 ∈ chal_ids -> fr_authz_id x.1 ∈ authz_ids -> orders_ok s -> orders_ok (step s x).
Proof.
  intros Hc Hz. destruct x as [fr r]. cbn in Hc, Hz. apply triple_step. destruct r as [| |body|body|id body|id body|id body|id]; cbn [route].
  - by intros s' Hs.
  - by intros s' Hs.
  - apply new_account_ok.
  - apply triple_signed; [apply orders_ok_nonces|]. intros jws. by apply place_order_ok.
  - apply triple_signed; [apply orders_ok_nonces|]. intros jws. eapply triple_bind; [apply triple_get|intros s0].
    eapply triple_bind; [apply (triple_ret _ _ _ (fun _ => orders_ok)); naive_solver|intros ?]. eapply triple_bind; [apply triple_mint, orders_ok_nonces|intros ?]. by apply triple_ret.
  - apply triple_signed; [apply orders_ok_nonces|]. intros jws. apply complete_challenge_ok.
  - apply triple_signed; [apply orders_ok_nonces|]. intros jws. apply issue_certificate_ok.
  - eapply triple_bind; [apply triple_get|intros s0]. intros s' [-> Hs]. rewrite aret_bind. by destruct (certs s' !! id).
Qed.
End Orders.

(** C21: The life of an order, over any run of a new server in which no challenge
    draws the identifier of an authorization: an order is pending without a
    certificate, or valid with one, and never ready, whatever challenges were
    answered (the handler looks for the authorization under the challenge's
    identifier); and it has one authorization, however many names it asks for. *)
Theorem acme_orders_never_ready (base : bytes) (ca : CaService) (trace : list (Fresh * Request)) :
  (forall x y, x ∈ trace -> y ∈ trace -> fr_chal_id x.1 <> fr_authz_id y.1) ->
  let s := acme_run (with_ca base ca) trace in
  forall id o, orders s !! id = Some o ->
    (exists z, ord_authorizations o = [authz_url s z])
    /\ ((ord_status o = OrderPending /\ ord_certificate o = None)
        \/ (ord_status o = OrderValid /\ ord_certificate o = Some (cert_url s id) /\ is_Some (certs s !! id))).
Proof.
  intros Hd s. set (cs := list_to_set (map (fun x => fr_chal_id x.1) trace) : gset bytes). set (zs := list_to_set (map (fun x => fr_authz_id x.1) trace) : gset bytes).
  assert (cs ## zs) as Hdis.
  { intros i. unfold cs, zs. rewrite !elem_of_list_to_set, !list_elem_of_fmap. intros (x & -> & Hx) (y & Hy & Hy'). exact (Hd x y Hx Hy' Hy). }
  assert (forall l s0, l ⊆ trace -> orders_ok base cs zs s0 -> orders_ok base cs zs (acme_run s0 l)) as Hrun.
  { intros l. induction l as [|x l IH]; intros s0 Hl Hs; [done|]. change (acme_run s0 (x :: l)) with (acme_run (step s0 x) l). apply IH; [set_solver|].
    assert (x ∈ trace) as Hx by set_solver. apply step_orders_ok; [done|..|done]; unfold cs, zs; apply elem_of_list_to_set, list_elem_of_fmap; by exists x. }
  destruct (Hrun trace (with_ca base ca)) as (_ & _ & H); [done|split_and!; [done|intros ? ?; cbn; by rewrite lookup_empty..]|]. intros id o Ho. destruct (H id o Ho) as [(z & _ & Hz) Hst]. split; [by exists z|exact Hst].
Qed.

(** ** Certificates *)

(** A signed request that carries a certification request. *)
Definition finalize_request (s : AcmeState) (id : bytes) (body : option bytes) (csr_der : bytes) : Prop :=
  exists jws header payload csr, authentic s (finalize_url s id) body jws header /\ decoded_payload jws = Ok payload /\ finalize_of_json payload = Some csr
    /\ b64_decode csr = Some csr_der.
Definition validated (s : AcmeState) (id : bytes) (o : AcmeOrder) : AcmeOrder :=
  mkAcmeOrder OrderValid (ord_expires o) (ord_identifiers o) (ord_authorizations o) (ord_finalize o) (Some (cert_url s id)).
Lemma issue_certificate_run fr id jws s payload csr csr_der :
  decoded_payload jws = Ok payload -> finalize_of_json payload = Some csr -> b64_decode csr = Some csr_der ->
  let '(r, ca) := issue (fr_rng fr) (fr_now fr) (st_ca s) (st_profile s) csr_der in
  issue_certificate fr id jws s
  = match r with
    | Ok der =>
        let s1 := set_certs (set_ca s ca) (<[id := der]> (certs s)) in
        match orders s !! id with
        | Some o => (Ok (mkResponse 200 None (Some (header_value (new_nonce fr))) (OrderBody (Some (validated s id o)))),
                     set_nonces (set_orders s1 (<[id := validated s id o]> (orders s))) ({[ new_nonce fr ]} ∪ nonces s))
        | None => (Err (NotFound (NoOrder id)), s1)
        end
    | Err e => (Err (AcmeCa e), set_ca s ca)
    | Panic => (Panic, set_ca s ca)
    end.
Proof.
  intros Hp Hf Hb. destruct (issue (fr_rng fr) (fr_now fr) (st_ca s) (st_profile s) csr_der) as [r ca] eqn:Ei. unfold issue_certificate.
  rewrite aret_bind, Hp, aret_bind, Hf. cbn [ok_or]. rewrite aret_bind, Hb. cbn [ok_or]. unfold abind at 1, ca_issue. rewrite Ei. destruct r as [der|e|]; cbn [map_err]; [|done..].
  cbn. destruct (orders s !! id) as [o|]; done.
Qed.
Lemma finalize_spec s fr id body csr_der : finalize_request s id body csr_der ->
  match (issue (fr_rng fr) (fr_now fr) (st_ca s) (st_profile s) csr_der).1 with
  | Ok der => certs (step s (fr, PostFinalize id body)) = <[id := der]> (certs s)
      /\ (respond fr (PostFinalize id body) s).1
         = Some match orders s !! id with
                | Some o => mkResponse 200 None (Some (header_value (new_nonce fr))) (OrderBody (Some (validated s id o)))
                | None => problem_response (NotFound (NoOrder id))
                end
  | _ => certs (step s (fr, PostFinalize id body)) = certs s
  end.
Proof.
  intros (jws & header & payload & csr & Ha & Hp & Hf & Hb). pose proof (authenticate_iff (fun s => finalize_url s id) body s jws header Ha) as Hau.
  assert (route fr (PostFinalize id body) s = issue_certificate fr id jws (without_nonce s (jh_nonce header))) as E by (cbn [route]; unfold finalize_order, abind at 1; by rewrite Hau).
  pose proof (issue_certificate_run fr id jws (without_nonce s (jh_nonce header)) payload csr csr_der Hp Hf Hb) as Hr.
  unfold step, respond. cbn [fst snd]. rewrite E. cbn [without_nonce set_nonces st_ca st_profile orders certs] in Hr. destruct (issue _ _ (st_ca s) _ _) as [r ca]. cbn [fst].
  rewrite Hr. destruct r as [der|e|]; [|done..]. by destruct (orders s !! id) as [o|].
Qed.
Lemma certs_kept fr r s : match r with PostFinalize _ _ => False | _ => True end -> certs (step s (fr, r)) = certs s.
Proof.
  intros Hr. set (c0 := certs s). set (I := fun s => certs s = c0). assert (nonce_free I) as Hn by (intros s' n H; exact H). apply (triple_step I); [|done].
  assert (forall jws, triple I I (place_order fr jws) (fun _ => I)) as Hpo.
  { intros jws. unfold place_order. do 3 (eapply triple_bind; [apply (triple_ret _ I _ (fun _ => I)); done|intros ?]).
    eapply triple_bind; [apply triple_get|intros s0]. by intros s' [-> Hs]. }
  destruct r as [| |body|body|id body|id body|id body|id]; cbn [route]; [by intros s' Hs|by intros s' Hs|..|done|].
  - intros s' Hs. pose proof (new_account_split fr body s') as H. destruct (new_account fr body s') as [r2 s2] eqn:E. assert (I s2) as Hs2; [|by destruct r2].
    destruct H as [[H _]|(jws & h & jwk & _ & _ & _ & _ & H)]; [apply core_nonces in H as [n ->]; by apply Hn|]. revert H. unfold register_account, abind at 1. cbn [aget]. rewrite aret_bind.
    destruct (decoded_payload jws) as [payload|?|]; [|by intros [= _ ->]..]. rewrite aret_bind. destruct (new_account_of_json payload) as [req|]; cbn [ok_or]; [|by intros [= _ ->]].
    rewrite aret_bind. destruct (terms_of_service_agreed req); [|by intros [= _ ->]]. cbn. by intros [= _ ->].
  - apply triple_signed; [exact Hn|exact Hpo].
  - apply triple_signed; [exact Hn|]. intros jws s' Hs. unfold abind at 1. cbn [aget]. rewrite aret_bind. by destruct (authz s' !! id).
  - apply triple_signed; [exact Hn|]. intros jws s' Hs. unfold complete_challenge, abind at 1. cbn [aget]. rewrite aret_bind. by destruct (challenges s' !! id).
  - intros s' Hs. unfold get_cert, abind. cbn [aget]. by destruct (certs s' !! id).
Qed.

(** C29: What a certificate takes: the store of certificates changes exactly when
    a finalize request is signed by some account with a fresh nonce and carries a
    request the authority signs.  Nothing else is asked: not the state of the order
    or its authorizations, not whose order it is, not that the names agree, not
    even that the order exists (the answer is 404, and the certificate can be
    fetched all the same). *)
Theorem acme_finalize_unchecked (s : AcmeState) (fr : Fresh) (r : Request) :
  (forall id body csr_der der, r = PostFinalize id body -> finalize_request s id body csr_der ->
     (issue (fr_rng fr) (fr_now fr) (st_ca s) (st_profile s) csr_der).1 = Ok der ->
     certs (step s (fr, r)) = <[id := der]> (certs s)
     /\ (forall fr', (respond fr' (GetCert id) (step s (fr, r))).1 = Some (mkResponse 200 None None (CertBody der)))
     /\ rs_status <$> (respond fr r s).1 = Some (match orders s !! id with Some _ => 200 | None => 404 end))
  /\ (certs (step s (fr, r)) <> certs s ->
     exists id body csr_der der, r = PostFinalize id body /\ finalize_request s id body csr_der
       /\ (issue (fr_rng fr) (fr_now fr) (st_ca s) (st_profile s) csr_der).1 = Ok der).
Proof.
  split.
  - intros id body csr_der der -> Hf Hi. pose proof (finalize_spec s fr id body csr_der Hf) as H. rewrite Hi in H. destruct H as [Hc Hr]. split_and!; [done| |].
    + intros fr'. unfold respond. cbn [route]. unfold get_cert, abind at 1. cbn [aget]. by rewrite aret_bind, Hc, lookup_insert_eq.
    + rewrite Hr. by destruct (orders s !! id).
  - intros Hc. destruct r as [| |body|body|id body|id body|id body|id]; try (by destruct Hc; apply certs_kept). rewrite step_route in Hc. cbn [route] in Hc.
    unfold finalize_order in Hc. destruct (signed_split (fun s => finalize_url s id) body (fun jws => issue_certificate fr id jws) s) as [[H _]|(jws & header & Ha & H)].
    + apply core_nonces in H as [n H]. rewrite H in Hc. done.
    + rewrite H in Hc. set (s1 := without_nonce s (jh_nonce header)) in Hc.
      assert (exists payload csr csr_der, decoded_payload jws = Ok payload /\ finalize_of_json payload = Some csr /\ b64_decode csr = Some csr_der) as (payload & csr & csr_der & Hp & Hf & Hb).
      { revert Hc. unfold issue_certificate. rewrite aret_bind. destruct (decoded_payload jws) as [payload|e|]; [|done..]. rewrite aret_bind.
        destruct (finalize_of_json payload) as [csr|] eqn:Ef; cbn [ok_or]; [|done]. rewrite aret_bind. destruct (b64_decode csr) as [csr_der|] eqn:Eb; cbn [ok_or]; [|done].
        intros _. by exists payload, csr, csr_der. }
      pose proof (issue_certificate_run fr id jws s1 payload csr csr_der Hp Hf Hb) as Hr. cbn [s1 without_nonce set_nonces st_ca st_profile] in Hr.
      destruct (issue _ _ (st_ca s) (st_profile s) csr_der) as [ri ca] eqn:Ei. exists id, body, csr_der. rewrite Hr in Hc. rewrite Ei. destruct ri as [der|e|]; [|done..]. exists der. split_and!; [done| |done].
      by exists jws, header, payload, csr.
Qed.

(** ** A client *)

Context {XL : X509Laws} {RL : RingLaws}.
Definition visible (b : byte) : Prop := 33 <= b2z b < 127 /\ b <> x2f.
Class AcmeLaws : Prop := {
  b64_law : forall b, b64_decode (b64_encode b) = Some b;
  b64_text : forall b, Forall visible (b64_encode b);
}.
Context {LL : AcmeLaws}.
(** The parts of the state a client relies on from one request to the next. *)
Definition same_setup (s s' : AcmeState) : Prop := base_url s' = base_url s /\ st_ca s' = st_ca s /\ st_profile s' = st_profile s.
Lemma same_setup_urls s s' : same_setup s s' -> (forall e, url s' e = url s e).
Proof. intros (H & _). intros e. unfold url. by rewrite H. Qed.

End Spec.

(** ** Libraries that satisfy the laws

    Base64 is hexadecimal here, and the bodies and payloads are one-byte names of
    the messages of a sample session. *)
Definition hex_pair (b : byte) : bytes := [digit_char (b2z b / 16); digit_char (b2z b mod 16)].
Definition hex (b : bytes) : bytes := concat (map hex_pair b).
Fixpoint unhex (b : bytes) : option bytes :=
  match b with
  | [] => Some []
  | hi :: lo :: b => h ← to_digit 16 hi; l ← to_digit 16 lo; rest ← unhex b; Some (z2b (h * 16 + l) :: rest)
  | _ => None
  end.
Lemma unhex_hex b : unhex (hex b) = Some b.
Proof.
  induction b as [|x b IH]; [done|]. unfold hex in *. cbn [map concat]. unfold hex_pair at 1. cbn [app unhex]. pose proof (b2z_range x).
  assert (forall z, 0 <= z < 16 -> to_digit 16 (digit_char z) = Some z) as Hd.
  { intros z Hz. assert (exists n, z = Z.of_nat n /\ (n < 16)%nat) as (n & -> & Hn) by (exists (Z.to_nat z); lia). do 16 (destruct n as [|n]; [reflexivity|]). lia. }
  rewrite !Hd by first [apply Z.mod_pos_bound; lia|split; [apply Z.div_pos; lia|apply Z.div_lt_upper_bound; lia]]. cbn [mbind option_bind]. rewrite IH. cbn.
  do 2 f_equal. rewrite Z.mul_comm, <-Z.div_mod by lia. apply z2b_b2z.
Qed.
Lemma hex_visible b : Forall visible (hex b).
Proof.
  unfold hex. induction b as [|x b IH]; [constructor|]. cbn [map concat]. apply Forall_app. split; [|exact IH]. unfold visible. destruct x; repeat constructor; by vm_compute.
Qed.
#[local] Existing Instances sample_x509 sample_ring sample_x509_laws sample_ring_laws.
Definition sample_key : bytes := replicate 64 x07.
Definition sample_base : bytes := lit "https://ca.adrian.dev/acme".
Definition sample_fresh (n : byte) : Fresh (RI := sample_ring) :=
  mkFresh (RI := sample_ring) [n] [n] ([x6f] ++ hex [n]) ([x61] ++ hex [n]) ([x63] ++ hex [n]) (lit "later") 200 3%nat.
Definition sample_jwk : Jwk := mkJwk (lit "EC") (lit "P-256") (hex (replicate 32 x07)) (hex (replicate 32 x07)).
Definition sample_kid : bytes := sample_base ++ lit "/acct/" ++ hex (lit "{" ++ [x22]).
Definition sample_header (name : bytes) : option JwsProtectedHeader :=
  match name with
  | [x01] => Some (mkJwsProtectedHeader (lit "ES256") (Some sample_jwk) None (hex [x00]) (sample_base ++ lit "/new-account"))
  | [x02] => Some (mkJwsProtectedHeader (lit "ES256") None (Some sample_kid) (hex [x01]) (sample_base ++ lit "/new-order"))
  | [x03] => Some (mkJwsProtectedHeader (lit "ES256") None (Some sample_kid) (hex [x02]) (sample_base ++ lit "/challenge/" ++ [x63] ++ hex [x02]))
  | [x04] => Some (mkJwsProtectedHeader (lit "ES256") None (Some sample_kid) (hex [x03]) (sample_base ++ lit "/order/" ++ [x6f] ++ hex [x02] ++ lit "/finalize"))
  | _ => None
  end.
Definition sample_acme : AcmeLibs := {|
  b64_encode := hex;
  b64_decode := unhex;
  jws_of_json b := Some (mkJwsBody (hex b) (hex b) (hex (sample_sig sample_key (replicate 5 x00))));
  header_of_json := sample_header;
  new_account_of_json _ := Some (mkNewAccountReq [] true);
  new_order_of_json _ := Some [mkIdentifier (lit "dns") (lit "web")];
  finalize_of_json _ := Some (hex sample_csr);
  header_value_ok _ := true;
  authz_order m := elements (dom m);
|}.
Lemma sample_acme_laws : @AcmeLaws sample_acme.
Proof. split; [exact unhex_hex|exact hex_visible]. Qed.
#[local] Existing Instances sample_acme sample_acme_laws.
Lemma acme_effects_signed_witness :
  match sample_ca with
  | Ok ca0 => exists header, accepted (step (with_ca (RI := sample_ring) sample_base ca0) (sample_fresh x00, HeadNewNonce)) (PostNewAccount (Some [x01])) header
  | _ => False
  end.
Proof.
  assert (is_ok sample_ca = true) as H by (vm_compute; reflexivity). destruct sample_ca as [ca0|e|] eqn:E; [|discriminate H..].
  destruct (acme_effects_signed (RI := sample_ring) (step (with_ca (RI := sample_ring) sample_base ca0) (sample_fresh x00, HeadNewNonce)) (sample_fresh x01)
    (PostNewAccount (Some [x01]))) as (header & Ha & _); [|by exists header].
  intros Hc. apply (f_equal (fun s => bool_decide (accounts s !! hex (lit "{" ++ [x22]) = None))) in Hc. vm_compute in Hc. discriminate Hc.
Defined.
Lemma acme_orders_never_ready_witness :
  match sample_ca with
  | Ok ca0 =>
      let s := acme_run (with_ca (RI := sample_ring) sample_base ca0) [(sample_fresh x00, HeadNewNonce); (sample_fresh x01, PostNewAccount (Some [x01]));
                 (sample_fresh x02, PostNewOrder (Some [x02])); (sample_fresh x03, PostChallenge ([x63] ++ hex [x02]) (Some [x03]))] in
      match orders s !! ([x6f] ++ hex [x02]) with Some o => ord_status o = OrderPending \/ ord_status o = OrderValid | None => False end
  | _ => False
  end.
Proof.
  assert (is_ok sample_ca = true) as H by (vm_compute; reflexivity). destruct sample_ca as [ca0|e|] eqn:E; [|discriminate H..]. set (trace := [_; _; _; _]). cbv zeta.
  assert (is_Some (orders (acme_run (with_ca (RI := sample_ring) sample_base ca0) trace) !! ([x6f] ++ hex [x02]))) as Ho by (vm_compute; by eexists).
  destruct (orders _ !! _) as [o|] eqn:Eo; [|by destruct Ho].
  destruct (acme_orders_never_ready (RI := sample_ring) sample_base ca0 trace) with (id := [x6f] ++ hex [x02]) (o := o) as [_ [[Hst _]|[Hst _]]]; [|exact Eo|by left|by right].
  intros x y Hx Hy. assert (Forall (fun x => Forall (fun y => fr_chal_id x.1 <> fr_authz_id y.1) trace) trace) as Hf by (repeat constructor; discriminate).
  pose proof (proj1 (Forall_forall _ _) Hf x Hx) as Hf'. exact (proj1 (Forall_forall _ _) Hf' y Hy).
Defined.
