(* ===== verification/Operator.v ===== *)
(** * Operator: the Kubernetes operator ([adrian-operator])

    The snapshot of a stateful set, the decision of a reconcile pass, the manifest
    the operator builds and the pass itself; the second resource definition with the
    manifests and the Helm chart generated from it.  A [serde_json::Value] is the
    tree [Json].  The structures of [k8s_openapi] keep the fields the crate reads or
    sets through them and those the API server compares or acts on (the service name,
    the selector, the finalizers); their deserializer, the API server and the YAML
    printer are parameters.  The watch loop is left to the controller runtime. *)
From S2P Require Import Prelude Bytes Text.

(** ** JSON values *)

Inductive Json :=
| JNull
| JBool (b : bool)
| JNumber (n : Z)
| JString (s : bytes)
| JArray (l : list Json)
| JObject (fields : list (bytes * Json)).
Definition jstr (s : string) : Json := JString (lit s).
Definition jobj (fields : list (string * Json)) : Json := JObject (map (fun '(k, v) => (lit k, v)) fields).

(** ** Structures of the API *)

Record EnvVar := mkEnvVar { ev_name : bytes; ev_value : option bytes }.
Record Container := mkContainer { c_image : option bytes; c_env : option (list EnvVar) }.
Record PodSpec := mkPodSpec { containers : list Container }.
Record ResourceRequirements := mkResourceRequirements { requests : option (gmap bytes bytes) }.
Record ClaimSpec := mkClaimSpec { access_modes : option (list bytes); resources : option ResourceRequirements }.
Record VolumeClaim := mkVolumeClaim { vc_name : option bytes; vc_spec : option ClaimSpec }.
Record StatefulSetSpec := mkStatefulSetSpec {
  sss_replicas : option Z;
  sss_service_name : option bytes;
  match_labels : option (gmap bytes bytes);
  template_spec : option PodSpec;
  volume_claim_templates : option (list VolumeClaim);
}.
Record StatefulSet := mkStatefulSet { ss_name : option bytes; ss_finalizers : list bytes; ss_spec : option StatefulSetSpec }.
Inductive KubeError := KubeApi (code : Z) | KubeOther (text : bytes).

Inductive OperatorError :=
| Kube (e : KubeError)
| ReconcileJson
| CrdValidation (text : bytes).

(** ** The resource *)

Record DomainControllerSpec := mkDomainControllerSpec {
  dcs_replicas : Z;
  dcs_image : bytes;
  dcs_storage_size : bytes;
  dcs_domain_name : bytes;
  dcs_netbios_name : bytes;
}.
(** The struct the derive macro generates, with the metadata the operator reads. *)
Record DomainController := mkDomainController {
  dc_name : option bytes;
  dc_namespace : option bytes;
  dc_deletion_timestamp : option Z;
  dc_spec : DomainControllerSpec;
}.
Inductive ReconcileResult := Created | Updated | Deleted | ResultNoOp | Requeue.
Inductive ReconcileAction := ActCreate | ActUpdate | ActDelete | ActNoOp.

(** ** Snapshots *)

Record StatefulSetSnapshot := mkStatefulSetSnapshot {
  sn_replicas : Z;
  sn_image : bytes;
  sn_storage_size : bytes;
  sn_domain_name : bytes;
  sn_netbios_name : bytes;
}.
#[global] Instance StatefulSetSnapshot_eq_dec : EqDecision StatefulSetSnapshot.
Proof. solve_decision. Defined.
Definition from_spec (spec : DomainControllerSpec) : StatefulSetSnapshot :=
  mkStatefulSetSnapshot (dcs_replicas spec) (dcs_image spec) (dcs_storage_size spec) (dcs_domain_name spec) (dcs_netbios_name spec).
(** [env.iter().find(|e| e.name == name).and_then(|e| e.value.clone())]. *)
Definition env_value (name : bytes) (env : list EnvVar) : option bytes :=
  e ← head (filter (fun e => ev_name e = name) env); ev_value e.
Definition from_statefulset (ss : StatefulSet) : option StatefulSetSnapshot :=
  spec ← ss_spec ss;
  let replicas := default 0 (sss_replicas spec) in
  pod ← template_spec spec;
  container ← head (containers pod);
  image ← c_image container;
  let env := default [] (c_env container) in
  domain_name ← env_value (lit "ADRIAN_DOMAIN_NAME") env;
  netbios_name ← env_value (lit "ADRIAN_NETBIOS_NAME") env;
  storage_size ← (vcts ← volume_claim_templates spec; vc ← head vcts; s ← vc_spec vc; r ← resources s; reqs ← requests r; reqs !! lit "storage");
  Some (mkStatefulSetSnapshot replicas image storage_size domain_name netbios_name).
Definition decide_reconcile_action (current : option StatefulSetSnapshot) (desired : DomainControllerSpec) (deletion_timestamp : option Z) : ReconcileAction :=
  match deletion_timestamp with
  | Some _ => ActDelete
  | None =>
      match current with
      | None => ActCreate
      | Some current => if bool_decide (current = from_spec desired) then ActNoOp else ActUpdate
      end
  end.
Definition not_found_to_none {T} (result : Result KubeError T) : Result OperatorError (option T) :=
  match result with
  | Ok value => Ok (Some value)
  | Err (KubeApi code) => if code =? 404 then Ok None else Err (Kube (KubeApi code))
  | Err e => Err (Kube e)
  | Panic => Panic
  end.

(** ** The manifest of a controller *)

Definition statefulset_name (dc : DomainController) : bytes :=
  match dc_name dc with
  | Some (b :: base) => lit "adrian-dc-" ++ b :: base
  | _ => lit "adrian-dc"
  end.
Definition named_port (name : string) (port : Z) : Json := jobj [("name", jstr name); ("containerPort", JNumber port)].
Definition container_ports : Json :=
  JArray [named_port "ldap" 389; named_port "ldaps" 636; named_port "kerberos" 88; named_port "kpasswd" 464; named_port "dns" 53; named_port "smb" 445;
          named_port "metrics" 9100].
Definition env_var (name : string) (value : bytes) : Json := jobj [("name", jstr name); ("value", JString value)].
Definition tcp_socket (port : string) : Json := jobj [("port", jstr port)].
Definition liveness_probe : Json :=
  jobj [("tcpSocket", tcp_socket "ldap"); ("initialDelaySeconds", JNumber 30); ("periodSeconds", JNumber 10); ("failureThreshold", JNumber 6)].
Definition readiness_probe : Json := jobj [("tcpSocket", tcp_socket "kerberos"); ("periodSeconds", JNumber 5)].
Definition startup_probe : Json := jobj [("tcpSocket", tcp_socket "ldap"); ("failureThreshold", JNumber 30); ("periodSeconds", JNumber 10)].
Definition security_context : Json := jobj [("runAsUser", JNumber 10001); ("runAsGroup", JNumber 10001); ("fsGroup", JNumber 10001)].
Definition statefulset_json (dc : DomainController) : Json :=
  let name := statefulset_name dc in
  let namespace := default (lit "default") (dc_namespace dc) in
  let dc_name := default [] (dc_name dc) in
  let headless_service := if (length dc_name =? 0)%nat then lit "adrian-dc-headless" else lit "adrian-dc-" ++ dc_name ++ lit "-headless" in
  jobj [
    ("apiVersion", jstr "apps/v1");
    ("kind", jstr "StatefulSet");
    ("metadata", jobj [
      ("name", JString name);
      ("namespace", JString namespace);
      ("labels", jobj [
        ("app.kubernetes.io/name", jstr "adrian-dc");
        ("app.kubernetes.io/managed-by", jstr "adrian-operator");
        ("adrian.io/domain-controller", JString dc_name)])]);
    ("spec", jobj [
      ("replicas", JNumber (dcs_replicas (dc_spec dc)));
      ("serviceName", JString headless_service);
      ("selector", jobj [("matchLabels", jobj [("app.kubernetes.io/name", jstr "adrian-dc"); ("adrian.io/domain-controller", JString dc_name)])]);
      ("template", jobj [
        ("metadata", jobj [("labels", jobj [("app.kubernetes.io/name", jstr "adrian-dc"); ("adrian.io/domain-controller", JString dc_name)])]);
        ("spec", jobj [
          ("securityContext", security_context);
          ("containers", JArray [jobj [
            ("name", jstr "adrian-dc");
            ("image", JString (dcs_image (dc_spec dc)));
            ("ports", container_ports);
            ("env", JArray [env_var "ADRIAN_DOMAIN_NAME" (dcs_domain_name (dc_spec dc)); env_var "ADRIAN_NETBIOS_NAME" (dcs_netbios_name (dc_spec dc))]);
            ("volumeMounts", JArray [jobj [("name", jstr "dit"); ("mountPath", jstr "/var/lib/adrian/dit")]]);
            ("livenessProbe", liveness_probe);
            ("readinessProbe", readiness_probe);
            ("startupProbe", startup_probe)]])])]);
      ("volumeClaimTemplates", JArray [jobj [
        ("name", jstr "dit");
        ("spec", jobj [
          ("accessModes", JArray [jstr "ReadWriteOnce"]);
          ("resources", jobj [("requests", jobj [("storage", JString (dcs_storage_size (dc_spec dc)))])])])]])])].

(** ** A reconcile pass *)

Class Kubernetes (Cluster : Type) := {
  statefulset_of_json : Json -> option StatefulSet;
  api_get : Cluster -> bytes -> bytes -> Result KubeError (option StatefulSet);
  api_create : Cluster -> bytes -> StatefulSet -> Result KubeError unit * Cluster;
  api_patch : Cluster -> bytes -> bytes -> StatefulSet -> Result KubeError unit * Cluster;
  api_delete : Cluster -> bytes -> bytes -> Result KubeError unit * Cluster;
}.
Section Reconcile.
Context {Cluster : Type} `{!Kubernetes Cluster}.

Definition build_statefulset_for (dc : DomainController) : Result OperatorError StatefulSet := ok_or (statefulset_of_json (statefulset_json dc)) ReconcileJson.
Definition apply_action (c : Cluster) (namespace name : bytes) (dc : DomainController) (action : ReconcileAction) : Result OperatorError ReconcileResult * Cluster :=
  match action with
  | ActDelete =>
      let '(r, c) := api_delete c namespace name in
      ((let? _ := not_found_to_none r in Ok Deleted), c)
  | ActCreate =>
      match build_statefulset_for dc with
      | Ok ss => let '(r, c) := api_create c namespace ss in ((let? _ := map_err Kube r in Ok Created), c)
      | Err e => (Err e, c)
      | Panic => (Panic, c)
      end
  | ActUpdate =>
      match build_statefulset_for dc with
      | Ok ss => let '(r, c) := api_patch c namespace name ss in ((let? _ := map_err Kube r in Ok Updated), c)
      | Err e => (Err e, c)
      | Panic => (Panic, c)
      end
  | ActNoOp => (Ok ResultNoOp, c)
  end.
Definition reconcile (c : Cluster) (obj : DomainController) : Result OperatorError ReconcileResult * Cluster :=
  let namespace := default (lit "default") (dc_namespace obj) in
  let ss_name := statefulset_name obj in
  match map_err Kube (api_get c namespace ss_name) with
  | Ok current_opt =>
      let current_snapshot := ss ← current_opt; from_statefulset ss in
      apply_action c namespace ss_name obj (decide_reconcile_action current_snapshot (dc_spec obj) (dc_deletion_timestamp obj))
  | Err e => (Err e, c)
  | Panic => (Panic, c)
  end.
(** What the controller does next: requeue after the seconds, or wait. *)
Definition next_action (r : Result OperatorError ReconcileResult) : option Z :=
  match r with Ok Requeue | Err _ => Some 30 | _ => None end.
End Reconcile.

(** ** The generated manifests *)

Record ObjectMeta := mkObjectMeta { om_name : option bytes; om_namespace : option bytes; om_labels : gmap bytes bytes; om_annotations : gmap bytes bytes }.
Record DcSpec := mkDcSpec { dcs2_replicas : Z; domain_dn : bytes; krbtgt_hsm_key_id : bytes; fdb_cluster_file : bytes; dcs2_image : bytes }.
Record Condition := mkCondition { cond_type : bytes; cond_status : bytes; cond_reason : bytes; cond_message : bytes; last_transition_time : bytes }.
Record DcStatus := mkDcStatus { st_ready : bool; st_replicas : Z; st_conditions : list Condition }.
Record DomainControllerCrd := mkDomainControllerCrd {
  crd_api_version : bytes;
  crd_kind : bytes;
  crd_metadata : ObjectMeta;
  crd_spec : DcSpec;
  crd_status : DcStatus;
}.
Definition DomainControllerCrd_new (metadata : ObjectMeta) (spec : DcSpec) : DomainControllerCrd :=
  mkDomainControllerCrd (lit "adrian.io/v1") (lit "DomainController") metadata spec (mkDcStatus false 0 []).

(** The derived serializers: fields by their name, renamed where an attribute says
    so, left out where it says so. *)
Definition string_map_json (m : gmap bytes bytes) : Json := JObject (map (fun '(k, v) => (k, JString v)) (btree_iter m)).
Definition optional_field (name : string) (v : option Json) : list (bytes * Json) := match v with Some v => [(lit name, v)] | None => [] end.
Definition metadata_json (m : ObjectMeta) : Json :=
  JObject (optional_field "name" (JString <$> om_name m) ++ optional_field "namespace" (JString <$> om_namespace m)
           ++ optional_field "labels" (if bool_decide (om_labels m = ∅) then None else Some (string_map_json (om_labels m)))
           ++ optional_field "annotations" (if bool_decide (om_annotations m = ∅) then None else Some (string_map_json (om_annotations m)))).
Definition dc_spec_json (s : DcSpec) : Json :=
  jobj [("replicas", JNumber (dcs2_replicas s)); ("domain_dn", JString (domain_dn s)); ("krbtgt_hsm_key_id", JString (krbtgt_hsm_key_id s));
        ("fdb_cluster_file", JString (fdb_cluster_file s)); ("image", JString (dcs2_image s))].
Definition condition_json (c : Condition) : Json :=
  jobj [("type", JString (cond_type c)); ("status", JString (cond_status c)); ("reason", JString (cond_reason c)); ("message", JString (cond_message c));
        ("lastTransitionTime", JString (last_transition_time c))].
Definition dc_status_json (s : DcStatus) : Json :=
  jobj [("ready", JBool (st_ready s)); ("replicas", JNumber (st_replicas s)); ("conditions", JArray (map condition_json (st_conditions s)))].
Definition serialize_crd (crd : DomainControllerCrd) : Json :=
  jobj [("apiVersion", JString (crd_api_version crd)); ("kind", JString (crd_kind crd)); ("metadata", metadata_json (crd_metadata crd));
        ("spec", dc_spec_json (crd_spec crd)); ("status", dc_status_json (crd_status crd))].

Definition of_type (t : string) : Json := jobj [("type", jstr t)].
Definition crd_definition : Json :=
  jobj [
    ("apiVersion", jstr "apiextensions.k8s.io/v1");
    ("kind", jstr "CustomResourceDefinition");
    ("metadata", jobj [("name", jstr "domaincontrollers.adrian.io")]);
    ("spec", jobj [
      ("group", jstr "adrian.io");
      ("names", jobj [("kind", jstr "DomainController"); ("plural", jstr "domaincontrollers"); ("singular", jstr "domaincontroller");
                      ("shortNames", JArray [jstr "dc"; jstr "dcs"])]);
      ("scope", jstr "Namespaced");
      ("versions", JArray [jobj [
        ("name", jstr "v1");
        ("served", JBool true);
        ("storage", JBool true);
        ("schema", jobj [("openAPIV3Schema", jobj [
          ("type", jstr "object");
          ("properties", jobj [
            ("spec", jobj [
              ("type", jstr "object");
              ("required", JArray [jstr "replicas"; jstr "domainDn"; jstr "krbtgtHsmKeyId"; jstr "fdbClusterFile"; jstr "image"]);
              ("properties", jobj [
                ("replicas", jobj [("type", jstr "integer"); ("minimum", JNumber 1); ("format", jstr "int32")]);
                ("domainDn", of_type "string");
                ("krbtgtHsmKeyId", of_type "string");
                ("fdbClusterFile", of_type "string");
                ("image", of_type "string")])]);
            ("status", jobj [
              ("type", jstr "object");
              ("properties", jobj [
                ("ready", of_type "boolean");
                ("replicas", of_type "integer");
                ("conditions", jobj [
                  ("type", jstr "array");
                  ("items", jobj [
                    ("type", jstr "object");
                    ("properties", jobj [
                      ("type", of_type "string");
                      ("status", of_type "string");
                      ("reason", of_type "string");
                      ("message", of_type "string");
                      ("lastTransitionTime", jobj [("type", jstr "string"); ("format", jstr "date-time")])])])])])])])])])]])])].
Definition generate_statefulset (spec : DcSpec) : Json :=
  jobj [
    ("apiVersion", jstr "apps/v1");
    ("kind", jstr "StatefulSet");
    ("metadata", jobj [("name", jstr "adrian-dc"); ("labels", jobj [("app.kubernetes.io/name", jstr "adrian-dc")])]);
    ("spec", jobj [
      ("replicas", JNumber (dcs2_replicas spec));
      ("serviceName", jstr "adrian-dc");
      ("selector", jobj [("matchLabels", jobj [("app.kubernetes.io/name", jstr "adrian-dc")])]);
      ("template", jobj [
        ("metadata", jobj [("labels", jobj [("app.kubernetes.io/name", jstr "adrian-dc")])]);
        ("spec", jobj [
          ("securityContext", security_context);
          ("containers", JArray [jobj [
            ("name", jstr "adrian-dc");
            ("image", JString (dcs2_image spec));
            ("ports", container_ports);
            ("env", JArray [env_var "ADRIAN_DOMAIN_DN" (domain_dn spec); env_var "ADRIAN_KRBTGT_HSM_KEY_ID" (krbtgt_hsm_key_id spec);
                            env_var "ADRIAN_FDB_CLUSTER_FILE" (fdb_cluster_file spec)]);
            ("volumeMounts", JArray [jobj [("name", jstr "dit"); ("mountPath", jstr "/var/lib/adrian/dit")];
                                     jobj [("name", jstr "fdb-cluster"); ("mountPath", jstr "/etc/foundationdb"); ("readOnly", JBool true)]]);
            ("livenessProbe", liveness_probe);
            ("readinessProbe", readiness_probe);
            ("startupProbe", startup_probe)]])])]);
      ("volumeClaimTemplates", JArray [jobj [
        ("name", jstr "dit");
        ("spec", jobj [
          ("accessModes", JArray [jstr "ReadWriteOnce"]);
          ("storageClassName", jstr "fast-ssd");
          ("resources", jobj [("requests", jobj [("storage", jstr "50Gi")])])])]])])].

Record HelmChart := mkHelmChart { chart_yaml : bytes; values_yaml : bytes; templates : list (bytes * bytes) }.
Section Helm.
(** The YAML printer, or the text of its error. *)
Context (yaml_to_string : Json -> bytes + bytes).

Definition lines (l : list string) : bytes := concat (map (fun s => text_line (lit s)) l).
Definition quoted_line (name : string) (v : bytes) : bytes := text_line (lit name ++ lit ": " ++ [x22] ++ v ++ [x22]).
Definition render_yaml (j : Json) : bytes := match yaml_to_string j with inl t => t | inr e => lit "# error: " ++ e end.
Definition generate_helm_chart (spec : DcSpec) : HelmChart :=
  mkHelmChart
    (lines ["apiVersion: v2"; "name: adrian-dc"; "description: Adrian DomainController Helm chart (ADR-058)"; "type: application"; "version: 0.1.0"]
     ++ text_line (lit "appVersion: " ++ [x22] ++ lit "0.1.0" ++ [x22]))
    (text_line (lit "# Default values for adrian-dc (ADR-058).")
     ++ text_line (lit "replicas: " ++ print_dec (dcs2_replicas spec))
     ++ quoted_line "domainDn" (domain_dn spec)
     ++ quoted_line "krbtgtHsmKeyId" (krbtgt_hsm_key_id spec)
     ++ quoted_line "fdbClusterFile" (fdb_cluster_file spec)
     ++ quoted_line "image" (dcs2_image spec))
    [ (lit "templates/statefulset.yaml", render_yaml (generate_statefulset spec));
      (lit "templates/crd.yaml", render_yaml crd_definition);
      (lit "templates/service.yaml",
       lines ["apiVersion: v1"; "kind: Service"; "metadata:"; "  name: adrian-dc"; "  labels:"; "    app.kubernetes.io/name: adrian-dc"; "spec:";
              "  clusterIP: None"; "  selector:"; "    app.kubernetes.io/name: adrian-dc"; "  ports:"; "  - name: ldap"; "    port: 389";
              "  - name: kerberos"; "    port: 88"; "  - name: metrics"; "    port: 9100"]) ].
End Helm.
