(* ===== verification/OperatorSpec.v ===== *)
(** * OperatorSpec: what a reconcile pass achieves

    [Server] is the documented behaviour of the API server on stateful sets: what it
    stores of what it is sent ([canonical]), what it refuses, and that a request
    touches one object.  [reads_manifests] says that the deserializer reads the fields
    of the manifest by their names; [map_server] is a server that has it.  A pass per case, a
    fleet of controllers, and what is wrong with the generated manifests. *)
From S2P Require Import Prelude Bytes Text Operator.

(** ** Reading JSON by field names *)

Fixpoint jget_in (k : bytes) (fields : list (bytes * Json)) : option Json :=
  match fields with [] => None | (k', v) :: fields => if bool_decide (k = k') then Some v else jget_in k fields end.
Definition jget (k : string) (j : Json) : option Json := match j with JObject fields => jget_in (lit k) fields | _ => None end.
Definition jtext (j : Json) : option bytes := match j with JString s => Some s | _ => None end.
Definition jnumber (j : Json) : option Z := match j with JNumber n => Some n | _ => None end.
Definition jlist (j : Json) : option (list Json) := match j with JArray l => Some l | _ => None end.
Definition jtext_at (k : string) (j : Json) : option bytes := jget k j ≫= jtext.
Definition jlist_at (k : string) (j : Json) : option (list Json) := jget k j ≫= jlist.
Definition jpath (ks : list string) (j : Json) : option Json := foldl (fun o k => o ≫= jget k) (Some j) ks.
Definition text_map (j : Json) : option (gmap bytes bytes) :=
  match j with JObject fields => Some (list_to_map (omap (fun '(k, v) => t ← jtext v; Some (k, t)) fields)) | _ => None end.
Definition read_env (j : Json) : EnvVar := mkEnvVar (default [] (jtext_at "name" j)) (jtext_at "value" j).
Definition read_container (j : Json) : Container := mkContainer (jtext_at "image" j) (map read_env <$> (jlist_at "env" j)).
Definition read_resources (j : Json) : ResourceRequirements := mkResourceRequirements (m ← jget "requests" j; text_map m).
Definition read_texts (l : list Json) : list bytes := omap jtext l.
Definition read_claim_spec (j : Json) : ClaimSpec := mkClaimSpec (read_texts <$> jlist_at "accessModes" j) (read_resources <$> jget "resources" j).
Definition read_claim (j : Json) : VolumeClaim := mkVolumeClaim (jtext_at "name" j) (read_claim_spec <$> jget "spec" j).
Definition read_spec (j : Json) : StatefulSetSpec :=
  mkStatefulSetSpec (jget "replicas" j ≫= jnumber) (jtext_at "serviceName" j) (jpath ["selector"; "matchLabels"] j ≫= text_map)
    ((fun t => mkPodSpec (map read_container (default [] (jlist_at "containers" t)))) <$> jpath ["template"; "spec"] j)
    (map read_claim <$> (jlist_at "volumeClaimTemplates" j)).
Definition read_statefulset (j : Json) : option StatefulSet :=
  match j with
  | JObject _ => Some (mkStatefulSet (jpath ["metadata"; "name"] j ≫= jtext) (default [] (read_texts <$> (jpath ["metadata"; "finalizers"] j ≫= jlist))) (read_spec <$> jget "spec" j))
  | _ => None
  end.

(** What the manifest of a controller asks for. *)
Definition claim_of (dc : DomainController) : VolumeClaim :=
  mkVolumeClaim (Some (lit "dit"))
    (Some (mkClaimSpec (Some [lit "ReadWriteOnce"]) (Some (mkResourceRequirements (Some {[lit "storage" := dcs_storage_size (dc_spec dc)]}))))).
Definition service_of (dc : DomainController) : bytes :=
  let name := default [] (dc_name dc) in if (length name =? 0)%nat then lit "adrian-dc-headless" else lit "adrian-dc-" ++ name ++ lit "-headless".
Definition labels_of (dc : DomainController) : gmap bytes bytes :=
  list_to_map [(lit "app.kubernetes.io/name", lit "adrian-dc"); (lit "adrian.io/domain-controller", default [] (dc_name dc))].
Definition desired (dc : DomainController) : StatefulSet :=
  mkStatefulSet (Some (statefulset_name dc)) []
    (Some (mkStatefulSetSpec (Some (dcs_replicas (dc_spec dc))) (Some (service_of dc)) (Some (labels_of dc))
       (Some (mkPodSpec [mkContainer (Some (dcs_image (dc_spec dc)))
                           (Some [mkEnvVar (lit "ADRIAN_DOMAIN_NAME") (Some (dcs_domain_name (dc_spec dc)));
                                  mkEnvVar (lit "ADRIAN_NETBIOS_NAME") (Some (dcs_netbios_name (dc_spec dc)))])]))
       (Some [claim_of dc]))).
Lemma read_manifest dc : read_statefulset (statefulset_json dc) = Some (desired dc).
Proof. reflexivity. Qed.

(** ** The server *)

(** What the server stores of what it is sent: a quantity is printed in its canonical
    form, and a text that is empty is left out. *)
Section Canonical.
Context (canon : bytes -> bytes).
Definition kept (s : bytes) : option bytes := match s with [] => None | _ => Some s end.
Definition canonical_container (c : Container) : Container :=
  mkContainer (c_image c ≫= kept) (map (fun e => mkEnvVar (ev_name e) (ev_value e ≫= kept)) <$> c_env c).
Definition canonical_claim (v : VolumeClaim) : VolumeClaim :=
  mkVolumeClaim (vc_name v)
    ((fun c => mkClaimSpec (access_modes c) ((fun r => mkResourceRequirements ((fun m : gmap bytes bytes => canon <$> m) <$> requests r)) <$> resources c)) <$> vc_spec v).
Definition canonical_spec (s : StatefulSetSpec) : StatefulSetSpec :=
  mkStatefulSetSpec (sss_replicas s) (sss_service_name s ≫= kept) (match_labels s) ((fun p => mkPodSpec (map canonical_container (containers p))) <$> template_spec s)
    (map canonical_claim <$> volume_claim_templates s).
Definition canonical (ss : StatefulSet) : StatefulSet := mkStatefulSet (ss_name ss) (ss_finalizers ss) (canonical_spec <$> ss_spec ss).
End Canonical.

Definition claims (ss : StatefulSet) : option (list VolumeClaim) := spec ← ss_spec ss; volume_claim_templates spec.
(** The fields an update must not change. *)
Definition immutable (ss : StatefulSet) : option (option bytes * option (gmap bytes bytes) * option (list VolumeClaim)) :=
  (fun spec => (sss_service_name spec, match_labels spec, volume_claim_templates spec)) <$> ss_spec ss.
(** The server may fill in more fields, not these. *)
Definition same_view (a b : StatefulSet) : Prop := from_statefulset a = from_statefulset b /\ immutable a = immutable b.
(** A merge patch leaves nothing of what is read to the object it is applied to. *)
Definition complete (ss : StatefulSet) : Prop := exists r sv labels pod vcs, ss_spec ss = Some (mkStatefulSetSpec (Some r) (Some sv) (Some labels) (Some pod) (Some vcs)).

(** A server that answers.  [canon] is the canonical form of a quantity, [valid] what
    validation and admission say of an object in a namespace: they may refuse it,
    but neither change it nor look at what else is stored.  An object that is deleted
    stays while it has finalizers.  The fields a [StatefulSet] leaves out (a storage
    class, say) are taken to have the server's defaults, which no update changes. *)
Record Server {Cluster} `{!Kubernetes Cluster} (stored : Cluster -> bytes -> bytes -> option StatefulSet) (canon : bytes -> bytes) (valid : bytes -> StatefulSet -> bool) : Prop := mkServer {
  srv_canon q : canon (canon q) = canon q;
  srv_get c ns n : api_get c ns n = Ok (stored c ns n);
  srv_create_frame c ns n ss ns' n' : ss_name ss = Some n -> (ns', n') <> (ns, n) -> stored (api_create c ns ss).2 ns' n' = stored c ns' n';
  srv_patch_frame c ns n ss ns' n' : (ns', n') <> (ns, n) -> stored (api_patch c ns n ss).2 ns' n' = stored c ns' n';
  srv_delete_frame c ns n ns' n' : (ns', n') <> (ns, n) -> stored (api_delete c ns n).2 ns' n' = stored c ns' n';
  srv_create c ns n ss : valid ns ss = true -> ss_name ss = Some n -> stored c ns n = None ->
    exists c' ss', api_create c ns ss = (Ok tt, c') /\ stored c' ns n = Some ss' /\ same_view ss' (canonical canon ss);
  srv_conflict c ns n ss : valid ns ss = true -> ss_name ss = Some n -> is_Some (stored c ns n) -> api_create c ns ss = (Err (KubeApi 409), c);
  srv_invalid_create c ns ss : valid ns ss = false -> exists e, api_create c ns ss = (Err e, c);
  srv_patch c ns n ss old : valid ns ss = true -> stored c ns n = Some old -> complete ss -> immutable (canonical canon ss) = immutable old ->
    exists c' ss', api_patch c ns n ss = (Ok tt, c') /\ stored c' ns n = Some ss' /\ same_view ss' (canonical canon ss);
  srv_immutable c ns n ss old : valid ns ss = true -> stored c ns n = Some old -> complete ss -> claims (canonical canon ss) <> claims old ->
    api_patch c ns n ss = (Err (KubeApi 422), c);
  srv_invalid_patch c ns n ss old : valid ns ss = false -> stored c ns n = Some old -> complete ss -> exists e, api_patch c ns n ss = (Err e, c);
  srv_delete c ns n old : stored c ns n = Some old -> ss_finalizers old = [] -> exists c', api_delete c ns n = (Ok tt, c') /\ stored c' ns n = None;
  srv_missing c ns n : stored c ns n = None -> api_delete c ns n = (Err (KubeApi 404), c);
}.
Definition reads_manifests {Cluster} `{!Kubernetes Cluster} : Prop := forall dc, statefulset_of_json (statefulset_json dc) = read_statefulset (statefulset_json dc).

(** *** A server that keeps a map

    Its quantities have binary suffixes; the canonical one has the largest suffix
    that leaves a whole number.  It refuses a negative number of replicas. *)
Fixpoint lift_unit (n : Z) (units : list bytes) : bytes :=
  match units with
  | u :: ((_ :: _) as units) => if n mod 1024 =? 0 then lift_unit (n / 1024) units else print_dec n ++ u
  | [u] => print_dec n ++ u
  | [] => print_dec n
  end.
Fixpoint canon_from (units : list bytes) (n : Z) (suffix : bytes) : option bytes :=
  match units with
  | [] => None
  | u :: units' => if bool_decide (suffix = u) then Some (lift_unit n units) else canon_from units' n suffix
  end.
Definition BINARY_UNITS : list bytes := [lit "Ki"; lit "Mi"; lit "Gi"; lit "Ti"].
Definition binary_canon (q : bytes) : bytes :=
  default q (n ← from_str_radix 64 10 (take (length q - 2) q); if 0 <? n then canon_from BINARY_UNITS n (drop (length q - 2) q) else None).
Lemma lift_unit_shape n units : units <> [] -> 0 < n -> exists m u, lift_unit n units = print_dec m ++ u /\ 0 < m <= n /\ (exists pre post, units = pre ++ u :: post /\ (post <> [] -> m mod 1024 <> 0)).
Proof.
  revert n. induction units as [|u units IH]; intros n Hu Hn; [done|]. destruct units as [|v units]; [exists n, u; split; [done|]; split; [lia|]; by exists [], []|].
  change (lift_unit n (u :: v :: units)) with (if n mod 1024 =? 0 then lift_unit (n / 1024) (v :: units) else print_dec n ++ u).
  destruct (Z.eqb_spec (n mod 1024) 0) as [E|E]; [|exists n, u; split; [done|]; split; [lia|]; by exists [], (v :: units)].
  pose proof (Z.div_mod n 1024 ltac:(lia)). destruct (IH (n / 1024)) as (m & w & -> & Hm & pre & post & Ew & Hp); [done|lia|]. exists m, w. split; [done|]. split; [lia|].
  exists (u :: pre), post. by rewrite Ew.
Qed.
Lemma canon_from_tail units n s r : canon_from units n s = Some r -> exists pre post, units = pre ++ post /\ post <> [] /\ r = lift_unit n post.
Proof.
  induction units as [|u units IH]; cbn [canon_from]; [done|]. case_bool_decide; [intros [= <-]; by exists [], (u :: units)|].
  intros H'. destruct (IH H') as (pre & post & -> & Hp). by exists (u :: pre), post.
Qed.
Lemma canon_from_found pre u post m : u ∉ pre -> canon_from (pre ++ u :: post) m u = Some (lift_unit m (u :: post)).
Proof.
  induction pre as [|v pre IH]; cbn [app canon_from]; intros H; [by rewrite bool_decide_true|]. apply not_elem_of_cons in H as [H1 H2]. rewrite bool_decide_false by done. by apply IH.
Qed.
Lemma binary_canon_idem q : binary_canon (binary_canon q) = binary_canon q.
Proof.
  destruct (decide (binary_canon q = q)) as [E|Hq]; [by rewrite !E|]. remember (binary_canon q) as r eqn:Er. unfold binary_canon in Er.
  destruct (from_str_radix 64 10 (take (length q - 2) q)) as [n|] eqn:En; [|by rewrite Er in Hq]. cbn [mbind option_bind] in Er.
  destruct (Z.ltb_spec 0 n) as [Hn|]; [|by rewrite Er in Hq]. destruct (canon_from _ n _) as [x|] eqn:Ec; [|by rewrite Er in Hq]. cbn in Er. subst x.
  apply from_str_radix_range in En; [|lia]. apply canon_from_tail in Ec as (pre & post & Eu & Hp & ->).
  destruct (lift_unit_shape n post Hp Hn) as (m & u & -> & Hm & pre' & post' & -> & Hstop). rewrite app_assoc in Eu. set (before := pre ++ pre') in *.
  assert (NoDup BINARY_UNITS) as Hnd by (apply (bool_decide_unpack _); vm_compute; exact I).
  assert (length u = 2%nat) as Hu.
  { assert (Forall (fun u => length u = 2%nat) BINARY_UNITS) as Hf by repeat constructor. rewrite Eu in Hf. apply Forall_app in Hf as [_ Hf]. by inversion Hf. }
  unfold binary_canon. rewrite length_app, Hu, Nat.add_sub, take_app_length, drop_app_length. unfold print_dec.
  rewrite from_str_print by (lia || unfold is_uint in *; lia). cbn [mbind option_bind]. rewrite (proj2 (Z.ltb_lt _ _)) by lia. rewrite Eu in Hnd |- *.
  rewrite canon_from_found by (apply NoDup_app in Hnd as (_ & Hnd & _); intros Hin; by apply (Hnd u Hin), elem_of_cons; left).
  cbn [default]. destruct post' as [|v post']; [done|]. unfold id. cbn [lift_unit]. by rewrite (proj2 (Z.eqb_neq _ _)) by (by apply Hstop).
Qed.

#[global] Instance EnvVar_eq_dec : EqDecision EnvVar.
Proof. solve_decision. Defined.
#[global] Instance ResourceRequirements_eq_dec : EqDecision ResourceRequirements.
Proof. solve_decision. Defined.
#[global] Instance ClaimSpec_eq_dec : EqDecision ClaimSpec.
Proof. solve_decision. Defined.
#[global] Instance VolumeClaim_eq_dec : EqDecision VolumeClaim.
Proof. solve_decision. Defined.
Definition map_valid (ns : bytes) (ss : StatefulSet) : bool := match ss_spec ss ≫= sss_replicas with Some r => 0 <=? r | None => true end.
Definition patched (old ss : StatefulSet) : StatefulSet := mkStatefulSet (ss_name old) (ss_finalizers old) (ss_spec ss).
#[local] Instance map_server : Kubernetes (gmap (bytes * bytes) StatefulSet) := {
  statefulset_of_json := read_statefulset;
  api_get c ns n := Ok (c !! (ns, n));
  api_create c ns ss :=
    match ss_name ss with
    | None => (Err (KubeApi 422), c)
    | Some n =>
        if negb (map_valid ns ss) then (Err (KubeApi 422), c)
        else match c !! (ns, n) with Some _ => (Err (KubeApi 409), c) | None => (Ok tt, <[(ns, n) := canonical binary_canon ss]> c) end
    end;
  api_patch c ns n ss :=
    match c !! (ns, n) with
    | None => (Err (KubeApi 404), c)
    | Some old =>
        if negb (map_valid ns ss) then (Err (KubeApi 422), c)
        else if bool_decide (immutable (canonical binary_canon ss) = immutable old) then (Ok tt, <[(ns, n) := patched old (canonical binary_canon ss)]> c)
        else (Err (KubeApi 422), c)
    end;
  api_delete c ns n :=
    match c !! (ns, n) with
    | None => (Err (KubeApi 404), c)
    | Some old => (Ok tt, if bool_decide (ss_finalizers old = []) then delete (ns, n) c else c)
    end;
}.
Definition map_stored (c : gmap (bytes * bytes) StatefulSet) (ns n : bytes) : option StatefulSet := c !! (ns, n).
Lemma immutable_claims a b : immutable a = immutable b -> claims a = claims b.
Proof. unfold immutable, claims. destruct (ss_spec a), (ss_spec b); cbn; congruence. Qed.
Lemma map_server_ok : Server map_stored binary_canon map_valid.
Proof.
  split; cbv [api_get api_create api_patch api_delete map_server map_stored].
  - exact binary_canon_idem.
  - done.
  - intros c ns n ss ns' n' -> H. destruct (negb _); [done|]. destruct (c !! (ns, n)); [done|]. cbn. by rewrite lookup_insert_ne by congruence.
  - intros c ns n ss ns' n' H. destruct (c !! (ns, n)); [|done]. destruct (negb _); [done|]. case_bool_decide; [|done]. cbn. by rewrite lookup_insert_ne by congruence.
  - intros c ns n ns' n' H. destruct (c !! (ns, n)); [|done]. case_bool_decide; [|done]. cbn. by rewrite lookup_delete_ne by congruence.
  - intros c ns n ss -> -> ->. eexists _, _. split; [done|]. rewrite lookup_insert_eq. by split.
  - by intros c ns n ss -> -> [? ->].
  - intros c ns ss ->. cbn [negb]. destruct (ss_name ss); by eexists.
  - intros c ns n ss old -> -> _ E. cbn [negb]. rewrite bool_decide_true by done. eexists _, _. split; [done|]. rewrite lookup_insert_eq. split; [done|]. by split.
  - intros c ns n ss old -> -> _ E. cbn [negb]. rewrite bool_decide_false; [done|]. intros Ei. by apply E, immutable_claims.
  - intros c ns n ss old -> -> _. by eexists.
  - intros c ns n old -> ->. rewrite bool_decide_true by done. eexists. split; [done|]. by rewrite lookup_delete_eq.
  - by intros c ns n ->.
Qed.

(** ** A pass *)

Definition namespace_of (dc : DomainController) : bytes := default (lit "default") (dc_namespace dc).
Definition place (dc : DomainController) : bytes * bytes := (namespace_of dc, statefulset_name dc).
(** The texts the server would leave out if they were empty. *)
Definition named (dc : DomainController) : Prop := dcs_image (dc_spec dc) <> [] /\ dcs_domain_name (dc_spec dc) <> [] /\ dcs_netbios_name (dc_spec dc) <> [].
Section Pass.
Context {Cluster : Type} `{!Kubernetes Cluster} (stored : Cluster -> bytes -> bytes -> option StatefulSet) (canon : bytes -> bytes) (valid : bytes -> StatefulSet -> bool).
Hypotheses (HS : Server stored canon valid) (HM : reads_manifests).

(** What the resource asks for, as it is read back from the server. *)
Definition target (dc : DomainController) : StatefulSetSnapshot :=
  mkStatefulSetSnapshot (dcs_replicas (dc_spec dc)) (dcs_image (dc_spec dc)) (canon (dcs_storage_size (dc_spec dc))) (dcs_domain_name (dc_spec dc)) (dcs_netbios_name (dc_spec dc)).
Definition at_place (c : Cluster) (dc : DomainController) : option StatefulSet := stored c (namespace_of dc) (statefulset_name dc).
(** The stateful set of a controller is what its resource asks for. *)
Definition in_sync (c : Cluster) (dc : DomainController) : Prop :=
  exists ss, at_place c dc = Some ss /\ from_statefulset ss = Some (target dc) /\ immutable ss = immutable (canonical canon (desired dc)).
(** A pass can bring it there: the server admits its manifest, and it is missing, or it
    is the operator's and differs in nothing that must not change. *)
Definition reachable (c : Cluster) (dc : DomainController) : Prop :=
  valid (namespace_of dc) (desired dc) = true
  /\ (at_place c dc = None \/ exists ss s, at_place c dc = Some ss /\ from_statefulset ss = Some s /\ immutable ss = immutable (canonical canon (desired dc))).
Definition elsewhere (c c' : Cluster) (dc : DomainController) : Prop := forall ns n, (ns, n) <> place dc -> stored c' ns n = stored c ns n.

Lemma build_desired dc : build_statefulset_for dc = Ok (desired dc).
Proof using HM. unfold build_statefulset_for. by rewrite HM, read_manifest. Qed.
Lemma desired_complete dc : complete (desired dc).
Proof. by eexists _, _, _, _, _. Qed.
Lemma canonical_snapshot dc : from_statefulset (canonical canon (desired dc))
  = match dcs_image (dc_spec dc), dcs_domain_name (dc_spec dc), dcs_netbios_name (dc_spec dc) with [], _, _ | _, [], _ | _, _, [] => None | _, _, _ => Some (target dc) end.
Proof.
  unfold target. destruct (dcs_image (dc_spec dc)) as [|i im] eqn:Ei, (dcs_domain_name (dc_spec dc)) as [|d dn] eqn:Ed, (dcs_netbios_name (dc_spec dc)) as [|n nb] eqn:En;
    unfold from_statefulset; cbn; rewrite Ei; cbn; try done; unfold env_value; cbn; rewrite ?Ed, ?En; cbn; try done.
Qed.
Lemma named_snapshot dc : named dc -> from_statefulset (canonical canon (desired dc)) = Some (target dc).
Proof. intros (H1 & H2 & H3). rewrite canonical_snapshot. by destruct (dcs_image (dc_spec dc)), (dcs_domain_name (dc_spec dc)), (dcs_netbios_name (dc_spec dc)). Qed.
Lemma unnamed_snapshot dc : ~ named dc -> from_statefulset (canonical canon (desired dc)) = None.
Proof. intros H. rewrite canonical_snapshot. destruct (dcs_image (dc_spec dc)) eqn:E1, (dcs_domain_name (dc_spec dc)) eqn:E2, (dcs_netbios_name (dc_spec dc)) eqn:E3; try done. destruct H. unfold named. by rewrite E1, E2, E3. Qed.
Lemma snapshot_size ss s : from_statefulset ss = Some s ->
  exists vc cs r reqs rest, claims ss = Some (mkVolumeClaim vc (Some (mkClaimSpec cs (Some r))) :: rest) /\ requests r = Some reqs /\ reqs !! lit "storage" = Some (sn_storage_size s).
Proof.
  unfold from_statefulset, claims. destruct (ss_spec ss) as [spec|]; [|done]. cbn [mbind option_bind]. destruct (template_spec spec) as [pod|]; [|done]. cbn [mbind option_bind].
  destruct (head (containers pod)) as [c|]; [|done]. cbn [mbind option_bind]. destruct (c_image c) as [i|]; [|done]. cbn [mbind option_bind].
  destruct (env_value (lit "ADRIAN_DOMAIN_NAME") _) as [d|]; [|done]. cbn [mbind option_bind]. destruct (env_value (lit "ADRIAN_NETBIOS_NAME") _) as [n|]; [|done]. cbn [mbind option_bind].
  destruct (volume_claim_templates spec) as [[|[vc [[cs [r|]]|]] rest]|]; cbn; try done. destruct (requests r) as [reqs|] eqn:Er; [|done]. cbn [mbind option_bind].
  destruct (reqs !! _) as [q|] eqn:Eq; [|done]. intros [= <-]. by exists vc, cs, r, reqs, rest.
Qed.
(** One that is the operator's and agrees with the manifest has its size. *)
Lemma own_size ss s dc : from_statefulset ss = Some s -> immutable ss = immutable (canonical canon (desired dc)) -> sn_storage_size s = canon (dcs_storage_size (dc_spec dc)).
Proof.
  intros Hs Hi. apply immutable_claims in Hi. destruct (snapshot_size ss s Hs) as (vc & cs & r & reqs & rest & Hc & Hr & Hq). rewrite Hc in Hi. injection Hi as -> -> -> ->.
  injection Hr as <-. rewrite lookup_fmap, lookup_singleton_eq in Hq. by injection Hq as <-.
Qed.
Lemma target_eq dc : canon (dcs_storage_size (dc_spec dc)) = dcs_storage_size (dc_spec dc) -> target dc = from_spec (dc_spec dc).
Proof. intros H. unfold target. by rewrite H. Qed.
Lemma reconcile_eq c dc : reconcile c dc =
  apply_action c (namespace_of dc) (statefulset_name dc) dc (decide_reconcile_action (ss ← at_place c dc; from_statefulset ss) (dc_spec dc) (dc_deletion_timestamp dc)).
Proof using HS. unfold reconcile. by rewrite (srv_get _ _ _ HS). Qed.

(** A pass touches nothing else, whatever it finds, and never asks to be repeated. *)
Lemma pass_elsewhere c dc : elsewhere c (reconcile c dc).2 dc.
Proof using HS HM.
  intros ns n Hn. rewrite reconcile_eq. destruct (decide_reconcile_action _ _ _); cbn [apply_action].
  - rewrite build_desired. pose proof (srv_create_frame _ _ _ HS c (namespace_of dc) (statefulset_name dc) (desired dc) ns n eq_refl Hn) as H. by destruct (api_create _ _ _).
  - rewrite build_desired. pose proof (srv_patch_frame _ _ _ HS c (namespace_of dc) (statefulset_name dc) (desired dc) ns n Hn) as H. by destruct (api_patch _ _ _ _).
  - pose proof (srv_delete_frame _ _ _ HS c (namespace_of dc) (statefulset_name dc) ns n Hn) as H. by destruct (api_delete _ _ _).
  - done.
Qed.
Lemma pass_no_requeue c dc : (reconcile c dc).1 <> Ok Requeue.
Proof using HS HM.
  rewrite reconcile_eq. destruct (decide_reconcile_action _ _ _); cbn [apply_action].
  - rewrite build_desired. by destruct (api_create _ _ _) as [[| |] ?].
  - rewrite build_desired. by destruct (api_patch _ _ _ _) as [[| |] ?].
  - destruct (api_delete _ _ _) as [[|[code|]|] ?]; cbn; try done. by destruct (code =? 404).
  - done.
Qed.
Lemma pass_settled c dc : dc_deletion_timestamp dc = None -> canon (dcs_storage_size (dc_spec dc)) = dcs_storage_size (dc_spec dc) -> in_sync c dc ->
  reconcile c dc = (Ok ResultNoOp, c).
Proof using HS. intros Hd Hc (ss & E & Hs & _). rewrite reconcile_eq, E, Hd. cbn [mbind option_bind]. rewrite Hs, target_eq by done. cbn. by rewrite bool_decide_true. Qed.
(** The manifest of the controller is sent and stored. *)
Lemma pass_update c dc ss s : dc_deletion_timestamp dc = None -> valid (namespace_of dc) (desired dc) = true -> named dc -> at_place c dc = Some ss -> from_statefulset ss = Some s ->
  s <> from_spec (dc_spec dc) -> immutable ss = immutable (canonical canon (desired dc)) -> (reconcile c dc).1 = Ok Updated /\ in_sync (reconcile c dc).2 dc.
Proof using HS HM.
  intros Hd Hv Hn E Hs Hne Hi. rewrite reconcile_eq, E, Hd. cbn [mbind option_bind decide_reconcile_action]. rewrite Hs, bool_decide_false by done. cbn [apply_action]. rewrite build_desired.
  destruct (srv_patch _ _ _ HS c (namespace_of dc) (statefulset_name dc) (desired dc) ss Hv E (desired_complete dc) (eq_sym Hi)) as (c' & ss' & -> & Es & Hv1 & Hv2).
  split; [done|]. exists ss'. rewrite Hv1, Hv2. split; [exact Es|]. split; [by apply named_snapshot|done].
Qed.
Lemma pass_create c dc : dc_deletion_timestamp dc = None -> valid (namespace_of dc) (desired dc) = true -> at_place c dc = None ->
  exists c' ss', reconcile c dc = (Ok Created, c') /\ at_place c' dc = Some ss' /\ same_view ss' (canonical canon (desired dc)).
Proof using HS HM.
  intros Hd Hv E. rewrite reconcile_eq, E, Hd. cbn [mbind option_bind decide_reconcile_action apply_action]. rewrite build_desired.
  destruct (srv_create _ _ _ HS c (namespace_of dc) (statefulset_name dc) (desired dc) Hv eq_refl E) as (c' & ss' & -> & Es & Hs). by exists c', ss'.
Qed.
Lemma pass_live c dc : dc_deletion_timestamp dc = None -> named dc -> reachable c dc -> is_ok (reconcile c dc).1 = true /\ in_sync (reconcile c dc).2 dc.
Proof using HS HM.
  intros Hd Hn [Hv [E|(ss & s & E & Hs & Hi)]].
  - destruct (pass_create c dc Hd Hv E) as (c' & ss' & -> & Es & Hv1 & Hv2). split; [done|]. exists ss'. rewrite Hv1, Hv2. split; [done|]. split; [by apply named_snapshot|done].
  - destruct (decide (s = from_spec (dc_spec dc))) as [Es|Es]; [|destruct (pass_update c dc ss s Hd Hv Hn E Hs Es Hi) as [-> H]; by split].
    pose proof (own_size ss s dc Hs Hi) as Hz. rewrite Es in Hz. cbn in Hz. symmetry in Hz.
    assert (in_sync c dc) as Hin by (exists ss; rewrite target_eq by done; by rewrite Hs, Es). by rewrite pass_settled.
Qed.
Lemma pass_deleted c dc : is_Some (dc_deletion_timestamp dc) -> (forall ss, at_place c dc = Some ss -> ss_finalizers ss = []) ->
  (reconcile c dc).1 = Ok Deleted /\ at_place (reconcile c dc).2 dc = None.
Proof using HS.
  intros [t Hd] Hf. rewrite reconcile_eq, Hd. cbn [decide_reconcile_action apply_action]. destruct (at_place c dc) as [ss|] eqn:E.
  - destruct (srv_delete _ _ _ HS c (namespace_of dc) (statefulset_name dc) ss E (Hf ss eq_refl)) as (c' & -> & H). by split.
  - by rewrite (srv_missing _ _ _ HS c _ _ E).
Qed.
Lemma pass_foreign c dc ss : dc_deletion_timestamp dc = None -> valid (namespace_of dc) (desired dc) = true -> at_place c dc = Some ss -> from_statefulset ss = None ->
  reconcile c dc = (Err (Kube (KubeApi 409)), c).
Proof using HS HM.
  intros Hd Hv E Hs. rewrite reconcile_eq, Hd, E. cbn [mbind option_bind]. rewrite Hs. cbn [decide_reconcile_action apply_action]. rewrite build_desired.
  by rewrite (srv_conflict _ _ _ HS c (namespace_of dc) (statefulset_name dc)) by (done || by exists ss).
Qed.
Lemma pass_resized c dc ss s : dc_deletion_timestamp dc = None -> valid (namespace_of dc) (desired dc) = true -> at_place c dc = Some ss -> from_statefulset ss = Some s ->
  s <> from_spec (dc_spec dc) -> claims ss <> claims (canonical canon (desired dc)) -> reconcile c dc = (Err (Kube (KubeApi 422)), c).
Proof using HS HM.
  intros Hd Hv E Hs Hn Hc. rewrite reconcile_eq, Hd, E. cbn [mbind option_bind]. rewrite Hs. cbn [decide_reconcile_action]. rewrite bool_decide_false by done. cbn [apply_action]. rewrite build_desired.
  by rewrite (srv_immutable _ _ _ HS c _ _ (desired dc) ss Hv E (desired_complete dc) (not_eq_sym Hc)).
Qed.
Lemma pass_invalid c dc : dc_deletion_timestamp dc = None -> valid (namespace_of dc) (desired dc) = false -> (ss ← at_place c dc; from_statefulset ss) <> Some (from_spec (dc_spec dc)) ->
  exists e, reconcile c dc = (Err (Kube e), c).
Proof using HS HM.
  intros Hd Hv Hn. rewrite reconcile_eq, Hd. unfold decide_reconcile_action. destruct (at_place c dc) as [ss|] eqn:E; cbn [mbind option_bind] in *.
  - destruct (from_statefulset ss) as [s|] eqn:Es.
    + rewrite bool_decide_false by congruence. cbn [apply_action]. rewrite build_desired. destruct (srv_invalid_patch _ _ _ HS c _ _ (desired dc) ss Hv E (desired_complete dc)) as [e ->]. by exists e.
    + cbn [apply_action]. rewrite build_desired. destruct (srv_invalid_create _ _ _ HS c _ (desired dc) Hv) as [e ->]. by exists e.
  - cbn [apply_action]. rewrite build_desired. destruct (srv_invalid_create _ _ _ HS c _ (desired dc) Hv) as [e ->]. by exists e.
Qed.
End Pass.

(** ** Passes over a fleet *)

Section Fleet.
Context {Cluster : Type} `{!Kubernetes Cluster} (stored : Cluster -> bytes -> bytes -> option StatefulSet) (canon : bytes -> bytes) (valid : bytes -> StatefulSet -> bool).
Hypotheses (HS : Server stored canon valid) (HM : reads_manifests).

Definition passes (c : Cluster) (dcs : list DomainController) : Cluster := foldl (fun c dc => (reconcile c dc).2) c dcs.
(** A controller that is not being deleted, with its texts, whose stateful set a pass
    can bring to what it asks for. *)
Definition live (c : Cluster) (dc : DomainController) : Prop := dc_deletion_timestamp dc = None /\ named dc /\ reachable stored canon valid c dc.
(** Its storage size is written the way the server writes it. *)
Definition size_canonical (dc : DomainController) : Prop := canon (dcs_storage_size (dc_spec dc)) = dcs_storage_size (dc_spec dc).

Lemma place_inj dc dc' dcs : NoDup (map place dcs) -> dc ∈ dcs -> dc' ∈ dcs -> place dc = place dc' -> dc = dc'.
Proof.
  induction dcs as [|x dcs IH]; cbn; intros Hn H H' E; [by apply elem_of_nil in H|]. apply NoDup_cons in Hn as [Hx Hn].
  apply elem_of_cons in H, H'. destruct H as [->|H], H' as [->|H'].
  - done.
  - destruct Hx. rewrite E. by apply list_elem_of_fmap_2.
  - destruct Hx. rewrite <- E. by apply list_elem_of_fmap_2.
  - by apply IH.
Qed.
Lemma in_sync_reachable c dc : valid (namespace_of dc) (desired dc) = true -> in_sync stored canon c dc -> reachable stored canon valid c dc.
Proof. intros Hv (ss & E & Hs & Hi). split; [done|]. right. by exists ss, (target canon dc). Qed.
(** One pass keeps the fleet live and what is in sync in sync. *)
Lemma pass_fleet c dcs dc : NoDup (map place dcs) -> Forall (live c) dcs -> dc ∈ dcs ->
  let c' := (reconcile c dc).2 in
  Forall (live c') dcs /\ in_sync stored canon c' dc /\ forall dc', dc' ∈ dcs -> in_sync stored canon c dc' -> in_sync stored canon c' dc'.
Proof using HS HM.
  intros Hn Hl Hdc c'. destruct (proj1 (Forall_forall _ _) Hl dc Hdc) as (Hd & Hnd & Hr). destruct (pass_live stored canon valid HS HM c dc Hd Hnd Hr) as [_ Hs].
  pose proof (pass_elsewhere stored canon valid HS HM c dc) as He.
  assert (forall dc', dc' ∈ dcs -> dc' = dc \/ at_place stored c' dc' = at_place stored c dc') as Hp.
  { intros dc' Hdc'. destruct (decide (place dc' = place dc)) as [E|E]; [left; by eapply place_inj|right; by apply He]. }
  split; [|split; [done|]].
  - apply Forall_forall. intros dc' Hdc'. destruct (proj1 (Forall_forall _ _) Hl dc' Hdc') as (Hd' & Hnd' & Hr'). split; [done|]. split; [done|].
    destruct (Hp dc' Hdc') as [->|E]; [by apply in_sync_reachable; [apply Hr'|]|]. unfold reachable. by rewrite E.
  - intros dc' Hdc' Hs'. destruct (Hp dc' Hdc') as [->|E]; [done|]. unfold in_sync. by rewrite E.
Qed.
Lemma passes_fleet dcs : NoDup (map place dcs) -> forall l c, Forall (live c) dcs -> Forall (.∈ dcs) l ->
  Forall (live (passes c l)) dcs /\ forall dc, dc ∈ dcs -> dc ∈ l \/ in_sync stored canon c dc -> in_sync stored canon (passes c l) dc.
Proof using HS HM.
  intros Hn l. induction l as [|x l IH]; intros c Hl Hin; [split; [done|]; intros dc Hdc [H|H]; [by apply elem_of_nil in H|done]|].
  apply Forall_cons in Hin as [Hx Hin]. destruct (pass_fleet c dcs x Hn Hl Hx) as (Hl' & Hs & Hk). destruct (IH _ Hl' Hin) as [Hl'' H]. split; [exact Hl''|].
  intros dc Hdc [Hdl|Hdl]; apply (H dc Hdc); [|right; by apply Hk]. apply elem_of_cons in Hdl as [->|Hdl]; auto.
Qed.
(** What a pass over a controller in sync says. *)
Definition settled_result (dc : DomainController) : ReconcileResult := if bool_decide (size_canonical dc) then ResultNoOp else Updated.
Lemma pass_in_sync c dc : live c dc -> in_sync stored canon c dc -> (reconcile c dc).1 = Ok (settled_result dc).
Proof using HS HM.
  intros (Hd & Hnd & Hv & _) Hs. unfold settled_result. case_bool_decide as Hc; [by rewrite (pass_settled stored canon valid HS)|].
  destruct Hs as (ss & E & Hs & Hi). apply (pass_update stored canon valid HS HM c dc ss (target canon dc)); [done..| |done].
  intros H. by apply (f_equal sn_storage_size) in H.
Qed.
Lemma passes_idle c l : Forall (fun dc => dc_deletion_timestamp dc = None /\ size_canonical dc /\ in_sync stored canon c dc) l -> passes c l = c.
Proof using HS. induction 1 as [|dc l (Hd & Hc & Hs) _ IH]; [done|]. cbn. by rewrite (pass_settled stored canon valid HS c dc Hd Hc Hs). Qed.
End Fleet.

(** C14: A fleet of controllers with different places, none being deleted and none
    with an empty image or name, whose manifests the server admits, and each of whose
    stateful sets is missing or the operator's own with the service name, selector and
    claim the manifest has.  The server answers, stores a quantity in its canonical
    form ([canon]) and leaves out what is empty ([Server]).  Once every controller had
    a pass, in any order and however often, every stateful set is what its resource
    asks for, and further passes keep it so.  A further pass changes nothing and says
    so when the storage size is written canonically; when it is not, the operator
    takes the server's form for a difference and patches the stateful set in every
    pass. *)
Theorem operator_fleet {Cluster} `{!Kubernetes Cluster} (stored : Cluster -> bytes -> bytes -> option StatefulSet) (canon : bytes -> bytes)
    (valid : bytes -> StatefulSet -> bool) (c : Cluster) (dcs l more : list DomainController) :
  Server stored canon valid -> reads_manifests -> NoDup (map place dcs) -> Forall (live stored canon valid c) dcs -> (forall dc, dc ∈ l <-> dc ∈ dcs) -> Forall (.∈ dcs) more ->
  let c' := passes (passes c l) more in
  Forall (in_sync stored canon c') dcs
  /\ (forall dc, dc ∈ dcs -> (reconcile c' dc).1 = Ok (if bool_decide (canon (dcs_storage_size (dc_spec dc)) = dcs_storage_size (dc_spec dc)) then ResultNoOp else Updated))
  /\ (Forall (size_canonical canon) more -> c' = passes c l).
Proof.
  intros HS HM Hn Hl Hin Hm c'. destruct (passes_fleet stored canon valid HS HM dcs Hn l c Hl) as [Hl1 H1]; [apply Forall_forall; intros x Hx; by apply Hin|].
  destruct (passes_fleet stored canon valid HS HM dcs Hn more (passes c l) Hl1 Hm) as [Hl2 H2].
  assert (forall dc, dc ∈ dcs -> in_sync stored canon (passes c l) dc) as Hs1 by (intros dc Hdc; apply H1; [done|]; left; by apply Hin).
  assert (forall dc, dc ∈ dcs -> in_sync stored canon c' dc) as Hs2 by (intros dc Hdc; apply H2; [done|]; right; by apply Hs1).
  split; [by apply Forall_forall|]. split.
  - intros dc Hdc. apply (pass_in_sync stored canon valid HS HM); [by apply (proj1 (Forall_forall _ _) Hl2)|by apply Hs2].
  - intros Hc. apply (passes_idle stored canon valid HS). rewrite Forall_forall in Hc, Hm, Hl1. apply Forall_forall. intros dc Hdc. specialize (Hm dc Hdc).
    split; [by destruct (Hl1 dc Hm)|]. split; [by apply Hc|by apply Hs1].
Qed.
Definition sample_controller (n size : string) : DomainController :=
  mkDomainController (Some (lit n)) None None (mkDomainControllerSpec 3 (lit "img") (lit size) (lit "adrian.dev") (lit "ADRIAN")).
Lemma operator_fleet_witness :
  let dcs := [sample_controller "east" "50Gi"; sample_controller "west" "1024Mi"] in
  let c' := passes (passes (∅ : gmap (bytes * bytes) StatefulSet) (dcs ++ dcs)) dcs in
  Forall (in_sync map_stored binary_canon c') dcs
  /\ (forall dc, dc ∈ dcs -> (reconcile c' dc).1 = Ok (if bool_decide (binary_canon (dcs_storage_size (dc_spec dc)) = dcs_storage_size (dc_spec dc)) then ResultNoOp else Updated))
  /\ (Forall (size_canonical binary_canon) dcs -> c' = passes ∅ (dcs ++ dcs))
  /\ binary_canon (lit "50Gi") = lit "50Gi" /\ binary_canon (lit "1024Mi") = lit "1Gi".
Proof.
  intros dcs c'. destruct (operator_fleet map_stored binary_canon map_valid ∅ dcs (dcs ++ dcs) dcs map_server_ok (fun _ => eq_refl)) as (H1 & H2 & H3).
  - apply (bool_decide_unpack _). vm_compute. exact I.
  - repeat constructor; discriminate.
  - intros dc. rewrite elem_of_app. tauto.
  - apply Forall_forall. intros dc Hdc. exact Hdc.
  - split; [exact H1|]. split; [exact H2|]. split; [exact H3|]. split; vm_compute; reflexivity.
Defined.
(** C26: The other cases of a pass, with the server of [Server].  A controller that is
    being deleted loses its stateful set, unless that has finalizers, and the pass says
    so whether or not there was one.  For one that is not being deleted: a manifest the
    server does not admit fails unless the stateful set already is what is asked for; a
    stateful set under its name that the operator cannot read as its own is refused by
    the server at every pass, and so is a claim that differs from the manifest's in the
    server's form; one with an empty image or name is created once, and fails from
    then on, since the server leaves out what is empty.  Nothing else in the cluster
    is touched, and no pass asks to be repeated. *)
Theorem operator_pass {Cluster} `{!Kubernetes Cluster} (stored : Cluster -> bytes -> bytes -> option StatefulSet) (canon : bytes -> bytes)
    (valid : bytes -> StatefulSet -> bool) (c : Cluster) (dc : DomainController) :
  Server stored canon valid -> reads_manifests ->
  (is_Some (dc_deletion_timestamp dc) -> (forall ss, at_place stored c dc = Some ss -> ss_finalizers ss = []) ->
     (reconcile c dc).1 = Ok Deleted /\ at_place stored (reconcile c dc).2 dc = None)
  /\ (dc_deletion_timestamp dc = None ->
        (valid (namespace_of dc) (desired dc) = false -> (ss ← at_place stored c dc; from_statefulset ss) <> Some (from_spec (dc_spec dc)) ->
           exists e, reconcile c dc = (Err (Kube e), c))
        /\ (valid (namespace_of dc) (desired dc) = true ->
              (forall ss, at_place stored c dc = Some ss ->
                 (from_statefulset ss = None -> reconcile c dc = (Err (Kube (KubeApi 409)), c))
                 /\ (forall s, from_statefulset ss = Some s -> s <> from_spec (dc_spec dc) -> claims ss <> claims (canonical canon (desired dc)) ->
                       reconcile c dc = (Err (Kube (KubeApi 422)), c)))
              /\ (~ named dc -> at_place stored c dc = None ->
                    let '(r, c') := reconcile c dc in r = Ok Created /\ reconcile c' dc = (Err (Kube (KubeApi 409)), c'))))
  /\ elsewhere stored c (reconcile c dc).2 dc
  /\ (reconcile c dc).1 <> Ok Requeue.
Proof.
  intros HS HM. split; [by apply (pass_deleted stored canon valid)|]. split; [|split; [by apply (pass_elsewhere stored canon valid)|by apply (pass_no_requeue stored canon valid)]].
  intros Hd. split; [by apply (pass_invalid stored canon valid)|]. intros Hv. split.
  - intros ss E. split; [by apply (pass_foreign stored canon valid)|]. intros s. by apply (pass_resized stored canon valid).
  - intros Hn E. destruct (pass_create stored canon valid HS HM c dc Hd Hv E) as (c' & ss' & -> & E' & Hs & _). split; [done|].
    apply (pass_foreign stored canon valid HS HM c' dc ss' Hd Hv E'). rewrite Hs. by apply unnamed_snapshot.
Qed.
Lemma operator_pass_witness :
  let spec := dc_spec (sample_controller "east" "50Gi") in
  let dc := mkDomainController (Some (lit "east")) None (Some 7) spec in
  let blank := mkDomainController (Some (lit "west")) None None (mkDomainControllerSpec 3 [] (lit "50Gi") (lit "adrian.dev") (lit "ADRIAN")) in
  let c := {[ place dc := desired dc ]} : gmap (bytes * bytes) StatefulSet in
  (reconcile c dc).1 = Ok Deleted /\ (reconcile c dc).1 <> Ok Requeue
  /\ let '(r, c') := reconcile c blank in r = Ok Created /\ reconcile c' blank = (Err (Kube (KubeApi 409)), c').
Proof.
  intros spec dc blank c. destruct (operator_pass map_stored binary_canon map_valid c dc map_server_ok (fun _ => eq_refl)) as (H & _ & _ & Hr).
  destruct (operator_pass map_stored binary_canon map_valid c blank map_server_ok (fun _ => eq_refl)) as (_ & Hb & _).
  split; [|split; [exact Hr|]].
  - apply H; [by exists 7|]. intros ss E. unfold at_place, map_stored, c in E. change (namespace_of dc, statefulset_name dc) with (place dc) in E.
    rewrite lookup_singleton_eq in E. injection E as <-. reflexivity.
  - apply Hb; [reflexivity|vm_compute; reflexivity| |vm_compute; reflexivity]. intros (Hn & _). exact (Hn eq_refl).
Defined.

(** ** The manifests *)

Definition texts_at (k : string) (l : list Json) : list bytes := omap (jtext_at k) l.
Definition list_at (ks : list string) (j : Json) : list Json := default [] (jpath ks j ≫= jlist).
Definition pod_path : list string := ["spec"; "template"; "spec"].
Definition pod_containers (j : Json) : list Json := list_at (pod_path ++ ["containers"]) j.
(** The volumes a stateful set gives its pods, and those its containers mount. *)
Definition volumes (j : Json) : list bytes := texts_at "name" (list_at (pod_path ++ ["volumes"]) j) ++ texts_at "name" (list_at ["spec"; "volumeClaimTemplates"] j).
Definition mounts (j : Json) : list bytes := flat_map (fun c => texts_at "name" (list_at ["volumeMounts"] c)) (pod_containers j).
(** A probe names a port of its container; the selector matches the pods' labels. *)
Definition probe_ports (c : Json) : list bytes := omap (fun p => jpath [p; "tcpSocket"; "port"] c ≫= jtext) ["livenessProbe"; "readinessProbe"; "startupProbe"].
Definition probes_ok (j : Json) : Prop := Forall (fun c => probe_ports c ⊆ texts_at "name" (list_at ["ports"] c)) (pod_containers j).
Definition selector_ok (j : Json) : Prop :=
  exists want have, (jpath ["spec"; "selector"; "matchLabels"] j ≫= text_map) = Some want
    /\ (jpath ["spec"; "template"; "metadata"; "labels"] j ≫= text_map) = Some have /\ want ⊆ have /\ want <> ∅.
Definition runnable (j : Json) : Prop := probes_ok j /\ selector_ok j /\ pod_containers j <> [].
(** The names a schema requires and an object lacks. *)
Definition missing (schema object : Json) : list bytes :=
  filter (fun k => (match object with JObject fields => jget_in k fields | _ => None end) = None) (omap jtext (list_at ["required"] schema)).
Definition definition_versions : list Json := list_at ["spec"; "versions"] crd_definition.
Definition spec_schema (version : Json) : Json := default JNull (jpath ["schema"; "openAPIV3Schema"; "properties"; "spec"] version).
(** The serializer derived for the operator's own resource. *)
Definition domain_controller_spec_json (s : DomainControllerSpec) : Json :=
  jobj [("replicas", JNumber (dcs_replicas s)); ("image", JString (dcs_image s)); ("storageSize", JString (dcs_storage_size s));
        ("domainName", JString (dcs_domain_name s)); ("netbiosName", JString (dcs_netbios_name s))].

(** C31: The manifests.  Both stateful sets select their pods, and every probe names a
    port of its container.  The pods of the operator's stateful set mount what it
    claims; those of the generated one mount [fdb-cluster] as well, which nothing
    provides.  The operator's carries no owner.  The generated resource definition has
    the one version [v1], whose required fields neither the generated resources nor
    the operator's own have. *)
Theorem operator_manifests (dc : DomainController) (spec : DcSpec) (crd : DomainControllerCrd) :
  runnable (statefulset_json dc) /\ mounts (statefulset_json dc) ⊆ volumes (statefulset_json dc)
  /\ jpath ["metadata"; "ownerReferences"] (statefulset_json dc) = None
  /\ runnable (generate_statefulset spec) /\ (forall v, v ∈ mounts (generate_statefulset spec) -> v ∈ volumes (generate_statefulset spec) \/ v = lit "fdb-cluster")
  /\ lit "fdb-cluster" ∈ mounts (generate_statefulset spec) /\ lit "fdb-cluster" ∉ volumes (generate_statefulset spec)
  /\ exists v, definition_versions = [v] /\ jtext_at "name" v = Some (lit "v1")
       /\ (exists s, jget "spec" (serialize_crd crd) = Some s /\ missing (spec_schema v) s = [lit "domainDn"; lit "krbtgtHsmKeyId"; lit "fdbClusterFile"])
       /\ missing (spec_schema v) (domain_controller_spec_json (dc_spec dc)) = [lit "domainDn"; lit "krbtgtHsmKeyId"; lit "fdbClusterFile"].
Proof.
  assert (forall j, pod_containers j <> [] -> probes_ok j -> selector_ok j -> runnable j) as Hr by (intros j H1 H2 H3; by split; [|split]).
  split; [|split; [|split; [|split; [|split; [|split; [|split]]]]]].
  - apply Hr; [done| |].
    + apply Forall_cons; split; [|by apply Forall_nil]. intros x; cbn; set_solver.
    + eexists _, _. split; [reflexivity|]. split; [reflexivity|]. split; [|intros H; apply (f_equal (lookup (lit "app.kubernetes.io/name"))) in H; discriminate].
      done.
  - intros x H; cbn in H |- *. set_solver.
  - reflexivity.
  - apply Hr; [done| |].
    + apply Forall_cons; split; [|by apply Forall_nil]. intros x; cbn; set_solver.
    + eexists _, _. split; [reflexivity|]. split; [reflexivity|]. split; [|intros H; apply (f_equal (lookup (lit "app.kubernetes.io/name"))) in H; discriminate].
      done.
  - intros x H; cbn in H |- *. set_solver.
  - cbn. set_solver.
  - cbn. intros H. repeat (apply elem_of_cons in H as [H|H]; [discriminate|]). by apply elem_of_nil in H.
  - eexists. split; [reflexivity|]. split; [reflexivity|]. split; [eexists; split; reflexivity|reflexivity].
Qed.
