(* ===== verification/Admx.v ===== *)
(** * Admx: administrative templates ([adrian-admx-compiler])

    The template parser as a step on the events of [quick_xml], and the translation of
    its policies to a declarative policy.  The XML reader is a parameter: the parser is
    given the events it reports, the text of an event with its entities resolved or the
    error of doing so, and the attributes with their raw values. *)
From S2P Require Import Prelude Bytes Text PolicyCore.

(** ** Policies *)

Inductive AdmxError :=
| AdmxParse
| PolicyMissingName
| UnknownClass (other : bytes).
Inductive AdmxClass := ClassMachine | ClassUser | ClassBoth.
Definition AdmxClass_parse (s : bytes) : Result AdmxError AdmxClass :=
  let lower := to_ascii_lowercase s in
  if bool_decide (lower = lit "machine") then Ok ClassMachine
  else if bool_decide (lower = lit "user") then Ok ClassUser
  else if bool_decide (lower = lit "both") then Ok ClassBoth
  else Err (UnknownClass lower).
Definition AdmxClass_as_str (c : AdmxClass) : bytes :=
  match c with ClassMachine => lit "Machine" | ClassUser => lit "User" | ClassBoth => lit "Both" end.
Inductive AdmxElement :=
| ElBoolean (value_name : bytes)
| ElText (value_name : bytes)
| ElInteger (value_name : bytes) (min max : option Z)
| ElEnum (value_name : bytes) (items : list (bytes * bytes)).
Record AdmxPolicy := mkAdmxPolicy {
  ad_name : bytes;
  display_name : bytes;
  explanation : bytes;
  ad_class : AdmxClass;
  supported_on : option bytes;
  ad_key : bytes;
  ad_value_name : option bytes;
  ad_elements : list AdmxElement;
}.
Definition AdmxPolicy_new (name : bytes) (class : AdmxClass) (key : bytes) : AdmxPolicy := mkAdmxPolicy name [] [] class None key None [].

(** ** Events *)

Definition Attributes := list (bytes * bytes).
Inductive XmlEvent :=
| EvStart (name : bytes) (attrs : Attributes)
| EvEmpty (name : bytes) (attrs : Attributes)
| EvEnd (name : bytes)
| EvText (unescaped : option bytes)
| EvCData (raw : bytes)
| EvOther
| EvError.
Fixpoint position (c : byte) (s : bytes) : option nat :=
  match s with [] => None | b :: s => if bool_decide (b = c) then Some 0%nat else S <$> position c s end.
Definition split_ns (name : bytes) : option bytes * bytes :=
  match position x3a name with Some i => (Some (take i name), drop (i + 1) name) | None => (None, name) end.
Fixpoint attr (attrs : Attributes) (local : bytes) : option bytes :=
  match attrs with
  | [] => None
  | (key, value) :: attrs => if bool_decide ((split_ns key).2 = local) then Some (from_utf8_lossy value) else attr attrs local
  end.
(** [str::parse::<i64>]. *)
Definition parse_i64 (s : bytes) : option Z :=
  match s with
  | x2d :: ds =>
      match ds with
      | [] => None
      | _ => v ← digits_val 10 0 ds; if v <=? 2 ^ 63 then Some (- v) else None
      end
  | _ => from_str_radix 63 10 s
  end.

(** ** The parser *)

(** [AdmxElementBuilder] has the constructors of an element; [current_enum_items],
    which the parser only clears, is left out. *)
Inductive AdmxElementBuilder :=
| BuBoolean (value_name : bytes)
| BuText (value_name : bytes)
| BuInteger (value_name : bytes) (min max : option Z)
| BuEnum (value_name : bytes) (items : list (bytes * bytes)).
Definition build (b : AdmxElementBuilder) : AdmxElement :=
  match b with
  | BuBoolean value_name => ElBoolean value_name
  | BuText value_name => ElText value_name
  | BuInteger value_name min max => ElInteger value_name min max
  | BuEnum value_name items => ElEnum value_name items
  end.
Definition is_enum (b : option AdmxElementBuilder) : bool := match b with Some (BuEnum _ _) => true | _ => false end.
Record ParserState := mkParserState {
  pa_policies : list AdmxPolicy;
  current_policy : option AdmxPolicy;
  current_element : option AdmxElementBuilder;
  item_display : option bytes;
  item_value : option bytes;
  in_enum_item : bool;
  in_enum_item_value : bool;
}.
Definition parser_init : ParserState := mkParserState [] None None None None false false.
Definition set_policy (st : ParserState) v := mkParserState (pa_policies st) v (current_element st) (item_display st) (item_value st) (in_enum_item st) (in_enum_item_value st).
Definition set_element (st : ParserState) v := mkParserState (pa_policies st) (current_policy st) v (item_display st) (item_value st) (in_enum_item st) (in_enum_item_value st).
Definition set_display (st : ParserState) v := mkParserState (pa_policies st) (current_policy st) (current_element st) v (item_value st) (in_enum_item st) (in_enum_item_value st).
Definition set_value (st : ParserState) v := mkParserState (pa_policies st) (current_policy st) (current_element st) (item_display st) v (in_enum_item st) (in_enum_item_value st).
Definition set_in_item (st : ParserState) v := mkParserState (pa_policies st) (current_policy st) (current_element st) (item_display st) (item_value st) v (in_enum_item_value st).
Definition set_in_value (st : ParserState) v := mkParserState (pa_policies st) (current_policy st) (current_element st) (item_display st) (item_value st) (in_enum_item st) v.

Definition with_supported_on (r : bytes) (p : AdmxPolicy) : AdmxPolicy :=
  mkAdmxPolicy (ad_name p) (display_name p) (explanation p) (ad_class p) (Some r) (ad_key p) (ad_value_name p) (ad_elements p).
Definition push_element (e : AdmxElement) (p : AdmxPolicy) : AdmxPolicy :=
  mkAdmxPolicy (ad_name p) (display_name p) (explanation p) (ad_class p) (supported_on p) (ad_key p) (ad_value_name p) (ad_elements p ++ [e]).
Definition start_policy (attrs : Attributes) : Result AdmxError AdmxPolicy :=
  let? name := ok_or (attr attrs (lit "name")) PolicyMissingName in
  let? class := AdmxClass_parse (default (lit "Machine") (attr attrs (lit "class"))) in
  Ok (mkAdmxPolicy name (default [] (attr attrs (lit "displayName"))) (default [] (attr attrs (lit "explainText"))) class None
        (default [] (attr attrs (lit "key"))) (attr attrs (lit "valueName")) []).
Definition supported_on_event (attrs : Attributes) (st : ParserState) : ParserState :=
  match attr attrs (lit "ref") with Some r => set_policy st (with_supported_on r <$> current_policy st) | None => st end.
Definition is_decimal (local : bytes) : bool := bool_decide (local = lit "decimal") || bool_decide (local = lit "longDecimal").
Definition bound (attrs : Attributes) (name : string) : option Z := s ← attr attrs (lit name); parse_i64 s.

Definition start_event (local : bytes) (attrs : Attributes) (st : ParserState) : Result AdmxError ParserState :=
  let value_name := attr attrs (lit "valueName") in
  let element b := match value_name with Some vn => set_element st (Some (b vn)) | None => st end in
  if bool_decide (local = lit "policy") then let? p := start_policy attrs in Ok (set_policy st (Some p))
  else if bool_decide (local = lit "supportedOn") then Ok (supported_on_event attrs st)
  else if bool_decide (local = lit "text") then Ok (element BuText)
  else if bool_decide (local = lit "boolean") then Ok (element BuBoolean)
  else if is_decimal local then Ok (element (fun vn => BuInteger vn (bound attrs "minValue") (bound attrs "maxValue")))
  else if bool_decide (local = lit "enum") then Ok (element (fun vn => BuEnum vn []))
  else if bool_decide (local = lit "item") && is_enum (current_element st) then Ok (set_value (set_display (set_in_item st true) None) None)
  else if bool_decide (local = lit "displayName") then Ok (if in_enum_item st then set_display st (Some []) else st)
  else if bool_decide (local = lit "value") && in_enum_item st then Ok (set_in_value st true)
  else Ok st.
Definition empty_event (local : bytes) (attrs : Attributes) (st : ParserState) : ParserState :=
  let push e := set_policy st (push_element e <$> current_policy st) in
  let element b := match attr attrs (lit "valueName") with Some vn => push (b vn) | None => st end in
  if bool_decide (local = lit "boolean") then element ElBoolean
  else if bool_decide (local = lit "text") then element ElText
  else if is_decimal local then
    if in_enum_item_value st then match attr attrs (lit "value") with Some v => set_value st (Some v) | None => st end
    else element (fun vn => ElInteger vn (bound attrs "minValue") (bound attrs "maxValue"))
  else if bool_decide (local = lit "supportedOn") then supported_on_event attrs st
  else st.
(** The element under construction is added to the policy. *)
Definition take_element (st : ParserState) : ParserState :=
  match current_element st with
  | Some b => set_policy (set_element st None) (push_element (build b) <$> current_policy st)
  | None => st
  end.
Definition end_item (st : ParserState) : ParserState :=
  let pair := (default [] (item_value st), default [] (item_display st)) in
  let element := match current_element st with Some (BuEnum vn items) => Some (BuEnum vn (items ++ [pair])) | e => e end in
  set_in_item (set_element (set_value (set_display st None) None) element) false.
Definition end_event (local : bytes) (st : ParserState) : ParserState :=
  if bool_decide (local = lit "policy") then
    match current_policy st with
    | Some p =>
        let st := set_policy st None in
        mkParserState (pa_policies st ++ [p]) (current_policy st) (current_element st) (item_display st) (item_value st) (in_enum_item st) (in_enum_item_value st)
    | None => st
    end
  else if bool_decide (local = lit "text") || bool_decide (local = lit "boolean") || is_decimal local || bool_decide (local = lit "enum") then take_element st
  else if bool_decide (local = lit "item") then if in_enum_item st then end_item st else st
  else if bool_decide (local = lit "value") then set_in_value st false
  else st.
Definition text_event (text : bytes) (st : ParserState) : ParserState :=
  if in_enum_item st then set_display st ((fun d => d ++ text) <$> item_display st) else st.
Definition admx_event (ev : XmlEvent) (st : ParserState) : Result AdmxError ParserState :=
  match ev with
  | EvStart name attrs => start_event (split_ns name).2 attrs st
  | EvEmpty name attrs => Ok (empty_event (split_ns name).2 attrs st)
  | EvEnd name => Ok (end_event (split_ns name).2 st)
  | EvText t => let? text := ok_or t AdmxParse in Ok (text_event text st)
  | EvCData raw => Ok (text_event (from_utf8_lossy raw) st)
  | EvOther => Ok st
  | EvError => Err AdmxParse
  end.
Fixpoint admx_events (evs : list XmlEvent) (st : ParserState) : Result AdmxError ParserState :=
  match evs with [] => Ok st | ev :: evs => let? st := admx_event ev st in admx_events evs st end.
Definition parse_admx (evs : list XmlEvent) : Result AdmxError (list AdmxPolicy) := let? st := admx_events evs parser_init in Ok (pa_policies st).

(** ** The declarative policy *)

Definition registry_setting_key (key value_name : bytes) : bytes := lit "registry." ++ key ++ [x5c] ++ value_name.
Definition element_setting (key : bytes) (e : AdmxElement) : PolicySetting :=
  match e with
  | ElBoolean vn => mkPolicySetting (registry_setting_key key vn) (PBoolean false) []
  | ElText vn => mkPolicySetting (registry_setting_key key vn) (PString []) []
  | ElInteger vn min _ => mkPolicySetting (registry_setting_key key vn) (PInteger (default 0 min)) []
  | ElEnum vn items => mkPolicySetting (registry_setting_key key vn) (PString (default [] (fst <$> head items))) []
  end.
Definition policy_settings (p : AdmxPolicy) : list PolicySetting :=
  match ad_value_name p with
  | Some vn => [mkPolicySetting (registry_setting_key (ad_key p) vn) (PBoolean true) []]
  | None => []
  end ++ map (element_setting (ad_key p)) (ad_elements p).
Definition admx_to_declarative (policies : list AdmxPolicy) : DeclarativePolicy :=
  mkDeclarativePolicy 1 (lit "admx-imported") (lit "Imported from " ++ print_dec (Z.of_nat (length policies)) ++ lit " ADMX policies")
    (flat_map policy_settings policies).

(** ** Files *)

Section Compile.
(** The file system, and the events the reader reports of a text. *)
Context (read_to_string : bytes -> option bytes) (xml_events : bytes -> list XmlEvent).

(** [uuid::Uuid::nil()] is 0. *)
Definition admx_compile (admx_path adml_path : bytes) : Result AdmxError (list PolicyDoc) :=
  let? admx_text := ok_or (read_to_string admx_path) AdmxParse in
  let? _ := ok_or (read_to_string adml_path) AdmxParse in
  let? policies := parse_admx (xml_events admx_text) in
  let decl := admx_to_declarative policies in
  Ok [mkPolicyDoc 0 (dp_name decl) (lit "v" ++ print_dec (dp_version decl)) [] None (mkPolicyScope [] [] [])].
End Compile.
