(* ===== verification/AdmxSpec.v ===== *)
(** * AdmxSpec: what an administrative template becomes

    [document] is a template as the events a reader reports for it; it is parsed back
    to its policies, whatever prefix its names carry and however its elements are
    closed, and its policies reach the registry file with their keys, names and default
    values. *)
From S2P Require Import Prelude Bytes Text Utf16 Preg PregProofs PolicyCore PolicySpec Admx.

(** ** Printing *)

Definition qname (ns : option bytes) (local : bytes) : bytes := match ns with Some p => p ++ [x3a] ++ local | None => local end.
Definition optional_attr (name : string) (v : option bytes) : Attributes := match v with Some v => [(lit name, v)] | None => [] end.
Section Print.
(** The prefix of the names, and whether an empty element has an end tag of its own. *)
Context (ns : option bytes) (long : bool).
Definition element_events (local : bytes) (attrs : Attributes) : list XmlEvent :=
  if long then [EvStart (qname ns local) attrs; EvEnd (qname ns local)] else [EvEmpty (qname ns local) attrs].
Definition item_events (item : bytes * bytes) : list XmlEvent :=
  [EvStart (qname ns (lit "item")) []; EvStart (qname ns (lit "displayName")) []; EvText (Some item.2); EvEnd (qname ns (lit "displayName"));
   EvStart (qname ns (lit "value")) []; EvEmpty (qname ns (lit "decimal")) [(lit "value", item.1)]; EvEnd (qname ns (lit "value")); EvEnd (qname ns (lit "item"))].
Definition print_element (e : AdmxElement) : list XmlEvent :=
  match e with
  | ElBoolean vn => element_events (lit "boolean") [(lit "valueName", vn)]
  | ElText vn => element_events (lit "text") [(lit "valueName", vn)]
  | ElInteger vn min max =>
      element_events (lit "decimal") ([(lit "valueName", vn)] ++ optional_attr "minValue" (print_i64 <$> min) ++ optional_attr "maxValue" (print_i64 <$> max))
  | ElEnum vn items => [EvStart (qname ns (lit "enum")) [(lit "valueName", vn)]] ++ flat_map item_events items ++ [EvEnd (qname ns (lit "enum"))]
  end.
Definition policy_attrs (p : AdmxPolicy) : Attributes :=
  [(lit "name", ad_name p); (lit "class", AdmxClass_as_str (ad_class p)); (lit "displayName", display_name p); (lit "explainText", explanation p); (lit "key", ad_key p)]
  ++ optional_attr "valueName" (ad_value_name p).
Definition policy_events (p : AdmxPolicy) : list XmlEvent :=
  [EvStart (qname ns (lit "policy")) (policy_attrs p)]
  ++ match supported_on p with Some r => element_events (lit "supportedOn") [(lit "ref", r)] | None => [] end
  ++ [EvStart (qname ns (lit "elements")) []] ++ flat_map print_element (ad_elements p) ++ [EvEnd (qname ns (lit "elements")); EvEnd (qname ns (lit "policy"))].
Definition document (ps : list AdmxPolicy) : list XmlEvent :=
  [EvOther; EvStart (qname ns (lit "policyDefinitions")) []; EvStart (qname ns (lit "policies")) []] ++ flat_map policy_events ps
  ++ [EvEnd (qname ns (lit "policies")); EvEnd (qname ns (lit "policyDefinitions"))].
End Print.

Definition text_ok (s : bytes) : Prop := utf8_valid s = true.
Definition bound_ok (b : option Z) : Prop := match b with Some n => is_i64 n | None => True end.
Definition element_ok (e : AdmxElement) : Prop :=
  match e with
  | ElBoolean vn | ElText vn => text_ok vn
  | ElInteger vn min max => text_ok vn /\ bound_ok min /\ bound_ok max
  | ElEnum vn items => text_ok vn /\ Forall (fun i => text_ok i.1) items
  end.
Definition optional_ok (v : option bytes) : Prop := match v with Some v => text_ok v | None => True end.
Definition policy_ok (p : AdmxPolicy) : Prop :=
  text_ok (ad_name p) /\ text_ok (display_name p) /\ text_ok (explanation p) /\ text_ok (ad_key p) /\ optional_ok (ad_value_name p) /\ optional_ok (supported_on p)
  /\ Forall element_ok (ad_elements p).

(** ** Lemmas *)

Lemma position_app c p s : c ∉ p -> position c (p ++ c :: s) = Some (length p).
Proof.
  induction p as [|b p IH]; intros Hp; cbn [app position length]; [by rewrite bool_decide_true|]. apply not_elem_of_cons in Hp as [Hb Hp]. rewrite bool_decide_false by done. by rewrite IH.
Qed.
Lemma position_none c s : c ∉ s -> position c s = None.
Proof. induction s as [|b s IH]; intros Hs; cbn [position]; [done|]. apply not_elem_of_cons in Hs as [Hb Hs]. rewrite bool_decide_false by done. by rewrite IH. Qed.
Definition ns_ok (ns : option bytes) : Prop := match ns with Some p => x3a ∉ p | None => True end.
Lemma local_qname ns local : ns_ok ns -> x3a ∉ local -> (split_ns (qname ns local)).2 = local.
Proof.
  intros Hns Hl. unfold split_ns, qname. destruct ns as [p|].
  - cbn [app]. rewrite position_app by done. cbn [snd]. rewrite drop_app_ge by lia. replace (length p + 1 - length p)%nat with 1%nat by lia. reflexivity.
  - by rewrite position_none.
Qed.
Lemma print_dec_val n : 0 <= n -> digits_val 10 0 (print_dec n) = Some n.
Proof.
  intros Hn. apply print_digits_val; [lia|]. rewrite Nat2Z.inj_succ, Z2Nat.id by apply Z.log2_nonneg. destruct (Z.eq_dec n 0) as [->|]; [cbn; lia|].
  split; [lia|]. apply Z.log2_spec. lia.
Qed.
Lemma print_i64_ascii n : Forall (fun b => b2z b < 128) (print_i64 n).
Proof.
  assert (forall m, 0 <= m -> Forall (fun b => b2z b < 128) (print_dec m)) as H.
  { intros m Hm. eapply Forall_impl; [by apply print_dec_digits|]. cbn. lia. }
  unfold print_i64. destruct (Z.ltb_spec n 0); [|by apply H]. apply Forall_app. split; [|apply H; lia]. by apply Forall_singleton.
Qed.
Lemma parse_print_i64 n : is_i64 n -> parse_i64 (print_i64 n) = Some n.
Proof.
  intros Hn. unfold is_i64 in Hn. unfold print_i64. destruct (Z.ltb_spec n 0).
  - pose proof (print_dec_val (- n) ltac:(lia)) as Hv. change (lit "-" ++ print_dec (- n)) with (x2d :: print_dec (- n)). unfold parse_i64.
    destruct (print_dec (- n)) as [|b ds] eqn:E; [by apply print_radix_nonempty in E|].
    rewrite Hv. cbn. rewrite (proj2 (Z.leb_le _ _)) by lia. f_equal. lia.
  - pose proof (print_dec_no n x2d ltac:(lia) ltac:(cbn; lia)) as Hno. pose proof (from_str_print 10 ltac:(lia) 63 n ltac:(unfold is_uint; lia)) as Hp. fold (print_dec n) in Hp.
    unfold parse_i64. destruct (print_dec n) as [|b ds]; [done|]. apply not_elem_of_cons in Hno as [Hb _]. destruct b; done.
Qed.

Lemma utf8_i64 n : from_utf8_lossy (print_i64 n) = print_i64 n.
Proof. apply from_utf8_lossy_id, utf8_valid_ascii, print_i64_ascii. Qed.

(** *** Events under a prefix *)

Ltac no_colon := apply (bool_decide_unpack _); vm_compute; exact I.
Section Events.
Context (ns : option bytes) (Hns : ns_ok ns).
Lemma ev_start local attrs st evs : x3a ∉ local ->
  admx_events (EvStart (qname ns local) attrs :: evs) st = (let? st := start_event local attrs st in admx_events evs st).
Proof using Hns. intros Hl. cbn [admx_events admx_event]. by rewrite local_qname. Qed.
Lemma ev_empty local attrs st evs : x3a ∉ local -> admx_events (EvEmpty (qname ns local) attrs :: evs) st = admx_events evs (empty_event local attrs st).
Proof using Hns. intros Hl. cbn [admx_events admx_event]. by rewrite local_qname. Qed.
Lemma ev_end local st evs : x3a ∉ local -> admx_events (EvEnd (qname ns local) :: evs) st = admx_events evs (end_event local st).
Proof using Hns. intros Hl. cbn [admx_events admx_event]. by rewrite local_qname. Qed.
Lemma ev_text t st evs : admx_events (EvText (Some t) :: evs) st = admx_events evs (text_event t st).
Proof. done. Qed.

(** Between two elements of a policy, and within an enumeration. *)
Definition idle (pols : list AdmxPolicy) (cur : option AdmxPolicy) : ParserState := mkParserState pols cur None None None false false.
Definition in_enum (pols : list AdmxPolicy) (cur : option AdmxPolicy) (vn : bytes) (items : list (bytes * bytes)) : ParserState :=
  mkParserState pols cur (Some (BuEnum vn items)) None None false false.

Lemma item_ok item pols cur vn items evs : text_ok item.1 ->
  admx_events (item_events ns item ++ evs) (in_enum pols cur vn items) = admx_events evs (in_enum pols cur vn (items ++ [item])).
Proof using Hns.
  intros Hi. unfold item_events. cbn [app]. rewrite ev_start by no_colon.
  change (start_event _ _ _) with (Ok (E := AdmxError) (mkParserState pols cur (Some (BuEnum vn items)) None None true false)). cbn [rbind]. rewrite ev_start by no_colon.
  change (start_event _ _ _) with (Ok (E := AdmxError) (mkParserState pols cur (Some (BuEnum vn items)) (Some []) None true false)).
  cbn [rbind]. rewrite ev_text, ev_end, ev_start by no_colon.
  change (start_event _ _ _) with (Ok (E := AdmxError) (mkParserState pols cur (Some (BuEnum vn items)) (Some item.2) None true true)).
  cbn [rbind]. rewrite ev_empty, !ev_end by no_colon.
  match goal with |- admx_events evs ?s = _ => change s with (in_enum pols cur vn (items ++ [(from_utf8_lossy item.1, item.2)])) end.
  rewrite from_utf8_lossy_id by done. by destruct item.
Qed.
Lemma items_ok l pols cur vn items evs : Forall (fun i => text_ok i.1) l ->
  admx_events (flat_map (item_events ns) l ++ evs) (in_enum pols cur vn items) = admx_events evs (in_enum pols cur vn (items ++ l)).
Proof using Hns.
  intros Hl. revert items. induction Hl as [|i l Hi _ IH]; intros items; cbn [flat_map app]; [by rewrite app_nil_r|].
  rewrite <-app_assoc, item_ok by done. rewrite IH. by rewrite <-app_assoc.
Qed.
Lemma element_ok_events long e pols p evs : element_ok e ->
  admx_events (print_element ns long e ++ evs) (idle pols (Some p)) = admx_events evs (idle pols (Some (push_element e p))).
Proof using Hns.
  intros He. destruct e as [vn|vn|vn min max|vn items]; cbn [element_ok print_element] in *.
  - unfold element_events. destruct long; cbn [app].
    + rewrite ev_start by no_colon.
      change (start_event _ _ _) with (Ok (E := AdmxError) (set_element (idle pols (Some p)) (Some (BuBoolean (from_utf8_lossy vn))))). cbn [rbind].
      rewrite ev_end by no_colon. rewrite from_utf8_lossy_id by done. reflexivity.
    + rewrite ev_empty by no_colon. change (empty_event _ _ _) with (idle pols (Some (push_element (ElBoolean (from_utf8_lossy vn)) p))). by rewrite from_utf8_lossy_id.
  - unfold element_events. destruct long; cbn [app].
    + rewrite ev_start by no_colon.
      change (start_event _ _ _) with (Ok (E := AdmxError) (set_element (idle pols (Some p)) (Some (BuText (from_utf8_lossy vn))))). cbn [rbind].
      rewrite ev_end by no_colon. rewrite from_utf8_lossy_id by done. reflexivity.
    + rewrite ev_empty by no_colon. change (empty_event _ _ _) with (idle pols (Some (push_element (ElText (from_utf8_lossy vn)) p))). by rewrite from_utf8_lossy_id.
  - destruct He as (Hv & Hmin & Hmax).
    assert (forall b, bound_ok b -> (s ← (fun n => from_utf8_lossy (print_i64 n)) <$> b; parse_i64 s) = b) as Hb.
    { intros [n|] Hn; [|done]. cbn. by rewrite utf8_i64, parse_print_i64. }
    set (attrs := [(lit "valueName", vn)] ++ optional_attr "minValue" (print_i64 <$> min) ++ optional_attr "maxValue" (print_i64 <$> max)).
    assert (bound attrs "minValue" = min) as Emin by (etrans; [|exact (Hb min Hmin)]; subst attrs; destruct min, max; reflexivity).
    assert (bound attrs "maxValue" = max) as Emax by (etrans; [|exact (Hb max Hmax)]; subst attrs; destruct min, max; reflexivity).
    unfold element_events. destruct long; cbn [app].
    + rewrite ev_start by no_colon.
      change (start_event _ _ _) with (Ok (E := AdmxError) (set_element (idle pols (Some p)) (Some (BuInteger (from_utf8_lossy vn) (bound attrs "minValue") (bound attrs "maxValue"))))).
      cbn [rbind]. rewrite ev_end by no_colon. rewrite Emin, Emax, from_utf8_lossy_id by done. reflexivity.
    + rewrite ev_empty by no_colon.
      change (empty_event _ _ _) with (idle pols (Some (push_element (ElInteger (from_utf8_lossy vn) (bound attrs "minValue") (bound attrs "maxValue")) p))).
      by rewrite Emin, Emax, from_utf8_lossy_id.
  - destruct He as [Hv Hi]. cbn [app]. rewrite ev_start by no_colon. change (start_event _ _ _) with (Ok (E := AdmxError) (in_enum pols (Some p) (from_utf8_lossy vn) [])).
    cbn [rbind]. rewrite <-app_assoc, items_ok by done. cbn [app]. rewrite ev_end by no_colon. rewrite from_utf8_lossy_id by done. reflexivity.
Qed.
Lemma elements_ok_events long l pols p evs : Forall element_ok l ->
  admx_events (flat_map (print_element ns long) l ++ evs) (idle pols (Some p))
  = admx_events evs (idle pols (Some (mkAdmxPolicy (ad_name p) (display_name p) (explanation p) (ad_class p) (supported_on p) (ad_key p) (ad_value_name p) (ad_elements p ++ l)))).
Proof using Hns.
  intros Hl. revert p. induction Hl as [|e l He _ IH]; intros p; cbn [flat_map app]; [rewrite app_nil_r; by destruct p|].
  rewrite <-app_assoc, element_ok_events by done. rewrite IH. cbn. by rewrite <-app_assoc.
Qed.
Lemma start_policy_ok p : policy_ok p ->
  start_policy (policy_attrs p) = Ok (mkAdmxPolicy (ad_name p) (display_name p) (explanation p) (ad_class p) None (ad_key p) (ad_value_name p) []).
Proof.
  intros (H1 & H2 & H3 & H4 & H5 & _). unfold start_policy.
  assert (attr (policy_attrs p) (lit "name") = Some (ad_name p)) as -> by (change (Some (from_utf8_lossy (ad_name p)) = Some (ad_name p)); by rewrite from_utf8_lossy_id).
  assert (attr (policy_attrs p) (lit "class") = Some (AdmxClass_as_str (ad_class p))) as ->.
  { change (Some (from_utf8_lossy (AdmxClass_as_str (ad_class p))) = Some (AdmxClass_as_str (ad_class p))). by destruct (ad_class p). }
  assert (attr (policy_attrs p) (lit "displayName") = Some (display_name p)) as -> by (change (Some (from_utf8_lossy (display_name p)) = Some (display_name p)); by rewrite from_utf8_lossy_id).
  assert (attr (policy_attrs p) (lit "explainText") = Some (explanation p)) as -> by (change (Some (from_utf8_lossy (explanation p)) = Some (explanation p)); by rewrite from_utf8_lossy_id).
  assert (attr (policy_attrs p) (lit "key") = Some (ad_key p)) as -> by (change (Some (from_utf8_lossy (ad_key p)) = Some (ad_key p)); by rewrite from_utf8_lossy_id).
  assert (attr (policy_attrs p) (lit "valueName") = ad_value_name p) as ->.
  { unfold policy_attrs. destruct (ad_value_name p) as [vn|]; [|reflexivity]. change (Some (from_utf8_lossy vn) = Some vn). by rewrite from_utf8_lossy_id. }
  cbn. by destruct (ad_class p).
Qed.
Lemma policy_ok_events long p pols cur evs : policy_ok p -> admx_events (policy_events ns long p ++ evs) (idle pols cur) = admx_events evs (idle (pols ++ [p]) None).
Proof using Hns.
  intros Hp. unfold policy_events. cbn [app]. rewrite ev_start by no_colon. change (start_event _ _ _) with (let? p := start_policy (policy_attrs p) in Ok (idle pols (Some p))).
  rewrite start_policy_ok by done. cbn [rbind]. destruct Hp as (_ & _ & _ & _ & _ & Hs & Hl). set (q := mkAdmxPolicy _ _ _ _ _ _ _ _).
  rewrite <-!app_assoc.
  assert (forall k, admx_events (match supported_on p with Some r => element_events ns long (lit "supportedOn") [(lit "ref", r)] | None => [] end ++ k) (idle pols (Some q))
            = admx_events k (idle pols (Some (mkAdmxPolicy (ad_name p) (display_name p) (explanation p) (ad_class p) (supported_on p) (ad_key p) (ad_value_name p) [])))) as Hk.
  { intros k. destruct (supported_on p) as [r|]; [|reflexivity]. cbn in Hs. unfold element_events. destruct long; cbn [app].
    - rewrite ev_start by no_colon. change (start_event _ _ _) with (Ok (E := AdmxError) (idle pols (Some (with_supported_on (from_utf8_lossy r) q)))). cbn [rbind].
      rewrite ev_end by no_colon. by rewrite from_utf8_lossy_id.
    - rewrite ev_empty by no_colon. change (empty_event _ _ _) with (idle pols (Some (with_supported_on (from_utf8_lossy r) q))). by rewrite from_utf8_lossy_id. }
  rewrite Hk. cbn [app]. rewrite ev_start by no_colon. change (start_event _ _ ?s) with (Ok (E := AdmxError) s). cbn [rbind].
  rewrite <-app_assoc, elements_ok_events by done. cbn [app]. rewrite !ev_end by no_colon. cbn -[admx_events]. by destruct p.
Qed.
Lemma policies_ok_events long ps pols evs : Forall policy_ok ps ->
  admx_events (flat_map (policy_events ns long) ps ++ evs) (idle pols None) = admx_events evs (idle (pols ++ ps) None).
Proof using Hns.
  intros Hps. revert pols. induction Hps as [|p ps Hp _ IH]; intros pols; cbn [flat_map app]; [by rewrite app_nil_r|].
  rewrite <-app_assoc, policy_ok_events by done. rewrite IH. by rewrite <-app_assoc.
Qed.
Lemma document_parses long ps : Forall policy_ok ps -> parse_admx (document ns long ps) = Ok ps.
Proof using Hns.
  intros Hps. unfold parse_admx, document. change parser_init with (idle [] None). cbn [app].
  change (admx_events (EvOther :: ?evs) ?st) with (admx_events evs st). do 2 (rewrite ev_start by no_colon; change (start_event _ _ ?s) with (Ok (E := AdmxError) s); cbn [rbind]).
  rewrite policies_ok_events by done. by rewrite !ev_end by no_colon.
Qed.
End Events.

(** ** From a template to a registry file *)

Definition defaults (p : AdmxPolicy) : list (bytes * bytes * PolicyValue) :=
  match ad_value_name p with Some vn => [(ad_key p, vn, PBoolean true)] | None => [] end
  ++ map (fun e => match e with
                   | ElBoolean vn => (ad_key p, vn, PBoolean false)
                   | ElText vn => (ad_key p, vn, PString [])
                   | ElInteger vn min _ => (ad_key p, vn, PInteger (default 0 min))
                   | ElEnum vn items => (ad_key p, vn, PString (default [] (fst <$> head items)))
                   end) (ad_elements p).
Definition value_name_ok (r : bytes * bytes * PolicyValue) : Prop := x5c ∉ r.1.2.
Lemma registry_path_key key vn : x5c ∉ vn -> registry_path (key ++ [x5c] ++ vn) = (key, vn).
Proof.
  intros Hv. unfold registry_path. cbn [app]. rewrite rfind_app by done. rewrite take_app_length, drop_app_ge by lia.
  by replace (length key + 1 - length key)%nat with 1%nat by lia.
Qed.
Lemma setting_of_key key vn v : x5c ∉ vn -> registry_setting (mkPolicySetting (registry_setting_key key vn) v []) = Some (key, vn, v).
Proof.
  intros Hv. unfold registry_setting, registry_setting_key. cbn [ps_key ps_value]. unfold REGISTRY_PREFIX. rewrite strip_prefix_app. cbn [mbind option_bind].
  by rewrite registry_path_key.
Qed.
Lemma omap_all {A B C} (f : A -> option B) (g : C -> A) (h : C -> B) l : (forall x, x ∈ l -> f (g x) = Some (h x)) -> omap f (map g l) = map h l.
Proof.
  induction l as [|x l IH]; intros H; [done|]. cbn [map omap list_omap]. rewrite H by left. cbn. f_equal. apply IH. intros y Hy. apply H. by right.
Qed.
Lemma policy_settings_registry p : Forall value_name_ok (defaults p) -> omap registry_setting (policy_settings p) = defaults p.
Proof.
  unfold policy_settings, defaults. intros H. apply Forall_app in H as [H1 H2]. rewrite omap_app. f_equal.
  - destruct (ad_value_name p) as [vn|]; [|done]. apply Forall_cons in H1 as [H1 _]. cbn [omap list_omap]. by rewrite (setting_of_key _ _ _ H1).
  - apply omap_all. intros e He. rewrite Forall_map, Forall_forall in H2. specialize (H2 e He). unfold value_name_ok in H2. destruct e; cbn [element_setting fst snd] in *; by apply setting_of_key.
Qed.
Lemma settings_registry ps : Forall value_name_ok (flat_map defaults ps) -> omap registry_setting (flat_map policy_settings ps) = flat_map defaults ps.
Proof.
  induction ps as [|p ps IH]; intros H; [done|]. cbn [flat_map] in *. apply Forall_app in H as [H1 H2]. rewrite omap_app, policy_settings_registry, IH by done. done.
Qed.
Lemma length_settings ps : length (flat_map policy_settings ps) = length (flat_map defaults ps).
Proof.
  induction ps as [|p ps IH]; [done|]. cbn [flat_map]. rewrite !length_app, IH. f_equal. unfold policy_settings, defaults. rewrite !length_app, !length_map.
  by destruct (ad_value_name p).
Qed.
Lemma key_dotted key vn : x2e ∈ registry_setting_key key vn.
Proof. unfold registry_setting_key. apply elem_of_app. left. apply (bool_decide_unpack _). vm_compute. exact I. Qed.
Lemma settings_dotted ps : Forall setting_ok (flat_map policy_settings ps).
Proof.
  apply Forall_forall. intros s Hs. apply list_elem_of_In, in_flat_map in Hs as (p & _ & Hs). unfold policy_settings in Hs. apply in_app_or in Hs as [Hs|Hs].
  - destruct (ad_value_name p); [|done]. destruct Hs as [<-|[]]. split; [apply key_dotted|done].
  - apply in_map_iff in Hs as (e & <- & _). destruct e; (split; [apply key_dotted|done]).
Qed.

(** An item as the schema of the templates has it: the name is an attribute, the
    value a number or a text. *)
Definition schema_item (ns : option bytes) (decimal : bool) (v d : bytes) : list XmlEvent :=
  [EvStart (qname ns (lit "item")) [(lit "displayName", d)]; EvStart (qname ns (lit "value")) []]
  ++ (if decimal then [EvEmpty (qname ns (lit "decimal")) [(lit "value", v)]]
      else [EvStart (qname ns (lit "string")) []; EvText (Some v); EvEnd (qname ns (lit "string"))])
  ++ [EvEnd (qname ns (lit "value")); EvEnd (qname ns (lit "item"))].
Lemma schema_item_read ns decimal v d pols cur vn items evs : ns_ok ns -> text_ok v ->
  admx_events (schema_item ns decimal v d ++ evs) (in_enum pols cur vn items) = admx_events evs (in_enum pols cur vn (items ++ [(if decimal then v else [], [])])).
Proof.
  intros Hns Hv. unfold schema_item. cbn [app]. rewrite ev_start by (done || no_colon).
  change (start_event _ _ _) with (Ok (E := AdmxError) (mkParserState pols cur (Some (BuEnum vn items)) None None true false)). cbn [rbind]. rewrite ev_start by (done || no_colon).
  change (start_event _ _ _) with (Ok (E := AdmxError) (mkParserState pols cur (Some (BuEnum vn items)) None None true true)). cbn [rbind]. destruct decimal; cbn [app].
  - rewrite ev_empty, !ev_end by (done || no_colon).
    match goal with |- admx_events evs ?s = _ => change s with (in_enum pols cur vn (items ++ [(from_utf8_lossy v, [])])) end. by rewrite from_utf8_lossy_id.
  - rewrite ev_start by (done || no_colon). change (start_event _ _ ?s) with (Ok (E := AdmxError) s). cbn [rbind]. rewrite ev_text, !ev_end by (done || no_colon). reflexivity.
Qed.

(** C23: A template of well-formed policies, whatever prefix its names carry and
    however its elements are closed, is parsed to them; they become registry settings,
    which validation accepts if there is one, and the file compiled from these parses
    back and holds, in order, every key and value name with its default.  The class of
    a policy plays no part.  An item in the form of the template schema loses its name
    and, unless it is a number, its value. *)
Theorem admx_import (ns : option bytes) (long : bool) (ps : list AdmxPolicy) :
  ns_ok ns -> Forall policy_ok ps -> Forall value_name_ok (flat_map defaults ps) -> Forall registry_ok (flat_map defaults ps) ->
  parse_admx (document ns long ps) = Ok ps
  /\ (let file := compile_to_preg (admx_to_declarative ps) in
      decode_preg_file (encode_preg_file file) = Ok file
      /\ map (fun e => (preg_key e, value_name e, read_registry e)) (preg_entries file) = map (fun '(k, n, v) => (k, n, Ok (registry_view v))) (flat_map defaults ps))
  /\ (validate_declarative (admx_to_declarative ps) = Ok tt <-> flat_map defaults ps <> [])
  /\ forall decimal v d pols cur vn items evs, text_ok v ->
       admx_events (schema_item ns decimal v d ++ evs) (in_enum pols cur vn items)
       = admx_events evs (in_enum pols cur vn (items ++ [(if decimal then v else [], [])])).
Proof.
  intros Hns Hps Hvn Hreg. pose proof (settings_registry ps Hvn) as Hs. split; [by apply document_parses|]. split; [|split].
  - pose proof (preg_policy_ok (admx_to_declarative ps)) as H. cbn [admx_to_declarative dp_settings] in H. rewrite Hs in H. by apply H.
  - rewrite validate_declarative_iff. cbn [admx_to_declarative dp_settings dp_name dp_version]. pose proof (length_settings ps) as Hl. pose proof (settings_dotted ps).
    split; [intros (_ & _ & H' & _)|intros H'; split_and!; [done|lia| |done]]; intros E; apply H'; apply nil_length_inv; rewrite E in Hl; cbn in Hl; lia.
  - intros decimal v d pols cur vn items evs Hv. by apply schema_item_read.
Qed.
Definition sample_template : AdmxPolicy :=
  mkAdmxPolicy (lit "Pol") (lit "$(string.Pol)") [] ClassUser (Some (lit "SUPPORTED")) (lit "Software\Contoso") (Some (lit "Enabled"))
    [ElInteger (lit "Level") (Some (-3)) (Some 9); ElText (lit "Title"); ElEnum (lit "Mode") [(lit "2", lit "Two"); (lit "1", lit "One")]].
Lemma admx_import_witness :
  parse_admx (document (Some (lit "gp")) true [sample_template]) = Ok [sample_template]
  /\ map (fun e => (preg_key e, value_name e, read_registry e)) (preg_entries (compile_to_preg (admx_to_declarative [sample_template])))
     = [(lit "Software\Contoso", lit "Enabled", Ok (PInteger 1)); (lit "Software\Contoso", lit "Level", Ok (PInteger 0));
        (lit "Software\Contoso", lit "Title", Ok (PString [])); (lit "Software\Contoso", lit "Mode", Ok (PString (lit "2")))].
Proof.
  destruct (admx_import (Some (lit "gp")) true [sample_template]) as (H1 & [_ H2] & _).
  - apply (bool_decide_unpack _). vm_compute. exact I.
  - repeat constructor; (reflexivity || (cbn; lia)).
  - repeat constructor; apply (bool_decide_unpack _); vm_compute; exact I.
  - repeat constructor; (reflexivity || by apply (bool_decide_unpack _)).
  - split; [exact H1|]. rewrite H2. reflexivity.
Defined.
