(* ===== verification/Executor.v ===== *)
(** * Executor: the platform executors ([adrian-policy-executor])

    The files each executor makes of a declarative policy.  The JSON printer is a
    parameter; [apply], [rollback] and [verify] are the constant answers of the code. *)
From S2P Require Import Prelude Bytes Text Preg PolicyCore.

(** ** Types *)

Inductive Platform := Windows | MacOs | Linux.
#[global] Instance Platform_eq_dec : EqDecision Platform.
Proof. solve_decision. Defined.
Definition Platform_as_str (p : Platform) : bytes := match p with Windows => lit "windows" | MacOs => lit "macos" | Linux => lit "linux" end.
Record AppliedPolicy := mkAppliedPolicy { ap_platform : Platform; ap_files : list (bytes * bytes); ap_summary : bytes }.
Definition AppliedPolicy_new (platform : Platform) : AppliedPolicy := mkAppliedPolicy platform [] [].
Definition push_file (out : AppliedPolicy) (path : string) (contents : bytes) : AppliedPolicy :=
  mkAppliedPolicy (ap_platform out) (ap_files out ++ [(lit path, contents)]) (ap_summary out).
Definition with_summary (out : AppliedPolicy) (summary : bytes) : AppliedPolicy := mkAppliedPolicy (ap_platform out) (ap_files out) summary.
Record ApplyResult := mkApplyResult { transaction_id : Z; areas_applied : Z; areas_failed : Z; ar_errors : list bytes }.
Record VerifyResult := mkVerifyResult { verified : bool; failed_areas : list bytes }.

Definition has_prefix (p : bytes) (s : PolicySetting) : bool := starts_with (ps_key s) p.
Definition any_prefix (p : string) (policy : DeclarativePolicy) : bool := existsb (has_prefix (lit p)) (dp_settings policy).

Section Synthesize.
Context (to_string_pretty : DeclarativePolicy -> option bytes).
Definition policy_json (policy : DeclarativePolicy) : bytes := default (lit "{}") (to_string_pretty policy).

(** ** Windows *)

Definition script_line (s : PolicySetting) : option bytes :=
  rest ← strip_prefix (lit "scripts.startup.") (ps_key s);
  Some (text_line (rest ++ lit "=" ++ match ps_value s with PString v => v | _ => [] end)).
Definition preference_line (s : PolicySetting) : option bytes :=
  if has_prefix REGISTRY_PREFIX s then Some (text_line (lit "  <Preference key=" ++ [x22] ++ ps_key s ++ [x22] ++ lit "/>")) else None.
Definition gpt_tmpl (policy : DeclarativePolicy) : bytes :=
  text_line (lit "[Unicode]") ++ text_line (lit "Unicode=yes") ++ text_line (lit "[Version]") ++ text_line (lit "signature=" ++ quoted "$CHICAGO$")
  ++ text_line (lit "Revision=1") ++ text_line (lit "[General]") ++ text_line (lit "DisplayName=" ++ dp_name policy).
Definition scripts_ini (policy : DeclarativePolicy) : bytes :=
  text_line (lit "[Startup]") ++ text_line (lit "[Shutdown]") ++ concat (omap script_line (dp_settings policy)).
Definition gpp_xml (policy : DeclarativePolicy) : bytes :=
  text_line (lit "<?xml version=" ++ quoted "1.0" ++ lit " encoding=" ++ quoted "utf-8" ++ lit "?>") ++ text_line (lit "<Preferences>")
  ++ concat (omap preference_line (dp_settings policy)) ++ text_line (lit "</Preferences>").
Definition windows_synthesize (policy : DeclarativePolicy) : AppliedPolicy :=
  let out := AppliedPolicy_new Windows in
  let preg := compile_to_preg policy in
  let out := push_file out "Machine/Registry.pol" (encode_preg_file preg) in
  let out := push_file out "Machine/Microsoft/Windows NT/SecEdit/GptTmpl.inf" (gpt_tmpl policy) in
  let out := push_file out "Machine/Scripts/Startup/Scripts.ini" (scripts_ini policy) in
  let out := push_file out "Machine/Preferences/Registry.xml" (gpp_xml policy) in
  let out := push_file out "Adrian/policy.json" (policy_json policy) in
  with_summary out (lit "Windows GPT synthesised: " ++ print_dec (Z.of_nat (length (preg_entries preg)))
                    ++ lit " Registry.pol entries, GptTmpl.inf, Scripts.ini, GPP XML, Adrian/policy.json").

(** ** macOS *)

Definition firewall_plist : bytes :=
  text_line (lit "<?xml version=" ++ quoted "1.0" ++ lit " encoding=" ++ quoted "UTF-8" ++ lit "?>")
  ++ text_line (lit "<!DOCTYPE plist PUBLIC " ++ quoted "-//Apple//DTD PLIST 1.0//EN" ++ lit " " ++ quoted "http://www.apple.com/DTDs/PropertyList-1.0.dtd" ++ lit ">")
  ++ text_line (lit "<plist version=" ++ quoted "1.0" ++ lit ">") ++ text_line (lit "<dict>")
  ++ text_line (lit "  <key>PayloadType</key>") ++ text_line (lit "  <string>com.apple.security.firewall</string>")
  ++ text_line (lit "  <key>EnableFirewall</key>") ++ text_line (lit "  <true/>")
  ++ text_line (lit "  <key>BlockAllIncoming</key>") ++ text_line (lit "  <false/>")
  ++ text_line (lit "</dict>") ++ text_line (lit "</plist>").
Definition macos_synthesize (policy : DeclarativePolicy) : AppliedPolicy :=
  let out := AppliedPolicy_new MacOs in
  let out := push_file out "Configuration/com.adrian.managed-client.plist" (compile_to_configuration_profile policy) in
  let has_firewall := any_prefix "firewall." policy in
  let out := if has_firewall then push_file out "Configuration/com.adrian.firewall.plist" firewall_plist else out in
  let out := push_file out "Configuration/com.adrian.manifest.json" (policy_json policy) in
  with_summary out (lit "macOS MDM payloads synthesised: managed-client preferences" ++ (if has_firewall then lit " + firewall" else []) ++ lit ", manifest.json").

(** ** Linux *)

(** [str::splitn(n, c)]. *)
Fixpoint split_once (sep : byte) (s : bytes) : option (bytes * bytes) :=
  match s with
  | [] => None
  | b :: s => if bool_decide (b = sep) then Some ([], s) else '(w, r) ← split_once sep s; Some (b :: w, r)
  end.
Fixpoint splitn (n : nat) (sep : byte) (s : bytes) : list bytes :=
  match n with
  | O => []
  | S O => [s]
  | S n => match split_once sep s with Some (w, r) => w :: splitn n sep r | None => [s] end
  end.
(** [str::replace] of one ASCII character by another. *)
Definition replace_char (from to : byte) (s : bytes) : bytes := map (fun b => if bool_decide (b = from) then to else b) s.

Definition service_line (s : PolicySetting) : option bytes :=
  rest ← strip_prefix (lit "firewall.allow.") (ps_key s);
  match ps_value s with
  | PBoolean true => Some (text_line (lit "  <service name=" ++ [x22] ++ rest ++ [x22] ++ lit "/>"))
  | _ => None
  end.
Definition limit_value (v : PolicyValue) : bytes := match v with PInteger n => print_i64 n | PString s => s | _ => [] end.
Definition limit_line (s : PolicySetting) : option bytes :=
  rest ← strip_prefix (lit "limits.") (ps_key s);
  match splitn 3 x2e rest with
  | [domain; ty; item] => Some (text_line (domain ++ lit " " ++ ty ++ lit " " ++ item ++ lit " " ++ limit_value (ps_value s)))
  | _ => None
  end.
Definition audit_line (s : PolicySetting) : option bytes :=
  rest ← strip_prefix (lit "audit.") (ps_key s);
  match ps_value s with
  | PBoolean true => Some (text_line (lit "-w /" ++ replace_char x2e x2f rest ++ lit " -p wa -k adrian_audit"))
  | _ => None
  end.
Definition firewalld_zone (policy : DeclarativePolicy) : bytes :=
  text_line (lit "<?xml version=" ++ quoted "1.0" ++ lit " encoding=" ++ quoted "utf-8" ++ lit "?>") ++ text_line (lit "<zone>")
  ++ text_line (lit "  <short>Adrian managed zone</short>") ++ concat (omap service_line (dp_settings policy)) ++ text_line (lit "</zone>").
Definition limits_conf (policy : DeclarativePolicy) : bytes := text_line (lit "# Adrian-managed limits") ++ concat (omap limit_line (dp_settings policy)).
Definition audit_rules (policy : DeclarativePolicy) : bytes := text_line (lit "# Adrian-managed audit rules") ++ concat (omap audit_line (dp_settings policy)).
Definition linux_synthesize (policy : DeclarativePolicy) : AppliedPolicy :=
  let out := AppliedPolicy_new Linux in
  let profile := compile_to_authselect_profile policy in
  let out := push_file out "etc/authselect/adrian.conf" (text_line (lit "# Adrian-managed authselect profile") ++ text_line profile) in
  let has_firewall := any_prefix "firewall." policy in
  let out := if has_firewall then push_file out "etc/firewalld/zones/adrian.xml" (firewalld_zone policy) else out in
  let has_limits := any_prefix "limits." policy in
  let out := if has_limits then push_file out "etc/security/limits.conf.d/99-adrian.conf" (limits_conf policy) else out in
  let has_audit := any_prefix "audit." policy in
  let out := if has_audit then push_file out "etc/audit/rules.d/99-adrian.rules" (audit_rules policy) else out in
  let out := push_file out "etc/adrian/policy.json" (policy_json policy) in
  with_summary out (lit "Linux config files synthesised: authselect profile `" ++ profile ++ lit "`" ++ (if has_firewall then lit " + firewalld" else [])
                    ++ (if has_limits then lit " + limits.conf.d" else []) ++ (if has_audit then lit " + audit.rules.d" else [])).

(** ** The trait *)

(** [synthesize] of the executor [executor_for] returns; the host is not used. *)
Definition synthesize (platform : Platform) (policy : DeclarativePolicy) (target_host : bytes) : Result PolicyError AppliedPolicy :=
  Ok match platform with Windows => windows_synthesize policy | MacOs => macos_synthesize policy | Linux => linux_synthesize policy end.
End Synthesize.
(** The other methods answer the same on every platform. *)
Definition executor_apply (platform : Platform) (doc : PolicyDoc) (target_host : bytes) : Result PolicyError ApplyResult := Ok (mkApplyResult 0 0 0 []).
Definition executor_rollback (platform : Platform) (transaction_id : Z) : Result PolicyError unit := Ok tt.
Definition executor_verify (platform : Platform) (doc : PolicyDoc) : Result PolicyError VerifyResult := Ok (mkVerifyResult true []).
