(* ===== verification/ExecutorSpec.v ===== *)
(** * ExecutorSpec: the files of the executors, read back

    Readers of the line formats of [limits.conf] and of the audit rules, and what a
    rule or a watch that is read says of the setting it stands for; the files of each
    platform give back the settings they were made of, when these hold no separator
    of the format, and more than that when they do. *)
From S2P Require Import Prelude Bytes Text Preg PregProofs PolicyCore PolicySpec Executor.

Definition file_at (path : string) (out : AppliedPolicy) : option bytes := snd <$> head (filter (fun f => f.1 = lit path) (ap_files out)).
Definition words (line : bytes) : list bytes := split_on x20 line.
(** A rule of [limits.conf]: domain, type, item, value; a line after [#] is none. *)
Definition limit_of_line (line : bytes) : option (bytes * bytes * bytes * bytes) :=
  if bool_decide (head line = Some x23) then None else match words line with [d; t; i; v] => Some (d, t, i, v) | _ => None end.
Definition read_limits (file : bytes) : list (bytes * bytes * bytes * bytes) := omap limit_of_line (text_lines file).
(** A watch of the audit rules. *)
Definition watch_of_line (line : bytes) : option bytes :=
  match words line with
  | w :: path :: _ => if bool_decide (w = lit "-w") then Some path else None
  | _ => None
  end.
Definition read_watches (file : bytes) : list bytes := omap watch_of_line (text_lines file).

(** *** What the settings ask for

    A limit is a setting whose key is [limits.], a domain, a type and an item with
    dots between them; the item may have more dots.  The text of a rule is the string of the setting
    or stands for its integer; any other value leaves it empty. *)
Definition is_limit (s : PolicySetting) : bool :=
  match strip_prefix (lit "limits.") (ps_key s) with Some rest => (2 <=? length (filter (fun b => b = x2e) rest))%nat | None => false end.
Definition value_text (v : PolicyValue) (w : bytes) : Prop := match v with PInteger n => read_i64 w = Some n | PString s => w = s | _ => w = [] end.
Definition asks_limit (s : PolicySetting) (rule : bytes * bytes * bytes * bytes) : Prop :=
  let '(domain, ty, item, w) := rule in
  ps_key s = lit "limits." ++ domain ++ [x2e] ++ ty ++ [x2e] ++ item /\ (x2e ∉ domain) /\ (x2e ∉ ty) /\ value_text (ps_value s) w.
(** A watch is a setting [audit.] and a path, the separators written as dots, that
    is switched on. *)
Definition is_watch (s : PolicySetting) : bool := starts_with (ps_key s) (lit "audit.") && match ps_value s with PBoolean true => true | _ => false end.
Definition asks_watch (s : PolicySetting) (path : bytes) : Prop :=
  exists rest, ps_key s = lit "audit." ++ rest /\ path = x2f :: join_with x2f (split_on x2e rest).

(** No blank and no line feed in what is written, and no comment made of a domain. *)
Definition clean (w : bytes) : Prop := (x20 ∉ w) /\ (x0a ∉ w).
Definition limit_clean (s : PolicySetting) : Prop :=
  is_limit s = true -> clean (ps_key s) /\ (forall rest, ps_key s <> lit "limits.#" ++ rest) /\ match ps_value s with PString v => clean v | _ => True end.
Definition watch_clean (s : PolicySetting) : Prop := is_watch s = true -> clean (ps_key s).

(** *** What the executor writes *)
Definition limit_of (s : PolicySetting) : option (bytes * bytes * bytes * bytes) :=
  rest ← strip_prefix (lit "limits.") (ps_key s);
  match splitn 3 x2e rest with [d; t; i] => Some (d, t, i, limit_value (ps_value s)) | _ => None end.
Definition watch_of (s : PolicySetting) : option bytes :=
  rest ← strip_prefix (lit "audit.") (ps_key s);
  match ps_value s with PBoolean true => Some (x2f :: replace_char x2e x2f rest) | _ => None end.
Definition limit_ok (s : PolicySetting) : Prop :=
  match limit_of s with Some (d, t, i, v) => clean d /\ clean t /\ clean i /\ clean v /\ head d <> Some x23 | None => True end.
Definition watch_ok (s : PolicySetting) : Prop := match watch_of s with Some path => clean path | None => True end.

Lemma strip_prefix_eq p s r : strip_prefix p s = Some r -> s = p ++ r.
Proof.
  revert s. induction p as [|c p IH]; intros s E; [by injection E as ->|]. destruct s as [|b s]; [done|]. cbn [strip_prefix] in E.
  destruct (decide _) as [->|]; [|done]. cbn [app]. f_equal. by apply IH.
Qed.
Lemma split_once_spec sep s : match split_once sep s with Some (w, r) => s = w ++ [sep] ++ r /\ sep ∉ w | None => sep ∉ s end.
Proof.
  induction s as [|b s IH]; cbn [split_once]; [apply not_elem_of_nil|]. case_bool_decide as Hb; [subst; split; [done|apply not_elem_of_nil]|].
  destruct (split_once sep s) as [[w r]|]; cbn [mbind option_bind]; [destruct IH as [-> Hw]; split; [done|]|]; apply not_elem_of_cons; by split.
Qed.
Lemma dots_app a b : length (filter (fun b => b = x2e) (a ++ [x2e] ++ b)) = (length (filter (fun b => b = x2e) a) + S (length (filter (fun b => b = x2e) b)))%nat.
Proof. rewrite filter_app, length_app. cbn [app]. by rewrite filter_cons_True. Qed.
Lemma no_dots w : x2e ∉ w -> length (filter (fun b => b = x2e) w) = 0%nat.
Proof. intros H. apply length_zero_iff_nil. induction w as [|b w IH]; [done|]. apply not_elem_of_cons in H as [Hb Hw]. rewrite filter_cons_False by congruence. by apply IH. Qed.
Lemma limit_value_text v : value_ok v -> value_text v (limit_value v).
Proof. destruct v; cbn; try done. intros H. by apply i64_roundtrip. Qed.
Lemma limit_of_asks s : value_ok (ps_value s) -> match limit_of s with Some r => is_limit s = true /\ asks_limit s r | None => is_limit s = false end.
Proof.
  intros Hv. unfold limit_of, is_limit, asks_limit. destruct (strip_prefix _ (ps_key s)) as [rest|] eqn:E; [|done]. apply strip_prefix_eq in E. cbn [mbind option_bind splitn].
  pose proof (split_once_spec x2e rest) as H. destruct (split_once x2e rest) as [[d r]|]; [|by rewrite no_dots]. destruct H as [-> Hd].
  pose proof (split_once_spec x2e r) as H. rewrite dots_app, no_dots by done. destruct (split_once x2e r) as [[t i]|]; [|by rewrite no_dots]. destruct H as [-> Ht].
  rewrite dots_app. split; [apply Nat.leb_le; lia|]. split_and!; [done..|by apply limit_value_text].
Qed.
Lemma replace_join w : replace_char x2e x2f w = join_with x2f (split_on x2e w).
Proof.
  induction w as [|c w IH]; [done|]. change (replace_char x2e x2f (c :: w)) with ((if bool_decide (c = x2e) then x2f else c) :: replace_char x2e x2f w). rewrite IH.
  cbn [split_on]. destruct (split_on x2e w) as [|v vs] eqn:E; [destruct w as [|b w]; [discriminate E|]; cbn [split_on] in E; by repeat case_match|].
  destruct (decide (c = x2e)) as [->|Hc]; [by rewrite bool_decide_true|by rewrite bool_decide_false].
Qed.
Lemma watch_of_asks s : match watch_of s with Some path => is_watch s = true /\ asks_watch s path | None => is_watch s = false end.
Proof.
  unfold watch_of, is_watch. destruct (strip_prefix _ (ps_key s)) as [rest|] eqn:E.
  - apply strip_prefix_eq in E. cbn [mbind option_bind]. assert (starts_with (ps_key s) (lit "audit.") = true) as Hs by (apply starts_with_iff; by exists rest).
    rewrite Hs. destruct (ps_value s) as [| |[]| |]; try done. split; [done|]. exists rest. split; [done|]. by rewrite replace_join.
  - cbn [mbind option_bind]. destruct (starts_with (ps_key s) (lit "audit.")) eqn:Hs; [|done]. apply starts_with_iff in Hs as [r Hr]. rewrite Hr, strip_prefix_app in E. done.
Qed.
Lemma omap_asks {A} (f : PolicySetting -> option A) (test : PolicySetting -> bool) (asks : PolicySetting -> A -> Prop) (l : list PolicySetting) :
  Forall (fun s => match f s with Some r => test s = true /\ asks s r | None => test s = false end) l -> Forall2 asks (filter (fun s => test s = true) l) (omap f l).
Proof.
  induction 1 as [|s l Hs _ IH]; [constructor|]. cbn [omap list_omap]. destruct (f s) as [r|].
  - destruct Hs as [Hi Ha]. rewrite filter_cons_True by done. by constructor.
  - by rewrite filter_cons_False by congruence.
Qed.
Lemma clean_part a b c : clean (a ++ b ++ c) -> clean b.
Proof. intros [H1 H2]. rewrite !not_elem_of_app in H1, H2. split; tauto. Qed.
Lemma limit_value_clean s : match ps_value s with PString v => clean v | _ => True end -> clean (limit_value (ps_value s)).
Proof.
  destruct (ps_value s) as [t|n|b|b|l]; cbn [limit_value]; intros H; try (by split; apply not_elem_of_nil); [done|].
  assert (forall m c, 0 <= m -> b2z c < 48 -> c ∉ print_dec m) as Hd by (intros m c Hm Hc; apply print_dec_no; [done|lia]).
  unfold print_i64. destruct (Z.ltb_spec n 0); split; rewrite ?not_elem_of_app; try split; try (apply Hd; [lia|by vm_compute]); by apply (bool_decide_unpack _).
Qed.
Lemma limit_clean_ok s : value_ok (ps_value s) -> limit_clean s -> limit_ok s.
Proof.
  intros Hv Hc. unfold limit_ok. pose proof (limit_of_asks s Hv) as H. destruct (limit_of s) as [[[[d t] i] v]|] eqn:El; [|done]. destruct H as [Hi (Hk & _)].
  destruct (Hc Hi) as (Hkc & Hn & Hvc). rewrite Hk in Hkc. split_and!.
  - by apply (clean_part _ d) in Hkc.
  - apply (clean_part (lit "limits." ++ d ++ [x2e]) t ([x2e] ++ i)). by rewrite <-!app_assoc.
  - apply (clean_part (lit "limits." ++ d ++ [x2e] ++ t ++ [x2e]) i []). by rewrite app_nil_r, <-!app_assoc.
  - unfold limit_of in El. destruct (strip_prefix _ _) as [rest|]; [|done]. cbn [mbind option_bind] in El. destruct (splitn 3 x2e rest) as [|? [|? [|? [|]]]]; try done.
    injection El as <- <- <- <-. by apply limit_value_clean.
  - intros Hh. destruct d as [|b d]; [done|]. injection Hh as ->. apply (Hn (d ++ [x2e] ++ t ++ [x2e] ++ i)). rewrite Hk. reflexivity.
Qed.
Lemma watch_clean_ok s : watch_clean s -> watch_ok s.
Proof.
  intros Hc. unfold watch_ok. pose proof (watch_of_asks s) as H. unfold watch_of in *. destruct (strip_prefix _ (ps_key s)) as [rest|] eqn:E; [|done]. apply strip_prefix_eq in E.
  cbn [mbind option_bind] in *. destruct (ps_value s) as [| |[]| |]; try done. destruct H as [Hi _]. specialize (Hc Hi). rewrite E in Hc.
  rewrite <-(app_nil_r rest) in Hc. apply clean_part in Hc. destruct Hc as [H1 H2]. unfold replace_char.
  split; apply not_elem_of_cons; (split; [done|]); intros (b & Eb & Hb)%list_elem_of_fmap; case_bool_decide; congruence.
Qed.

(** ** Lines *)

Lemma concat_omap_lines {A} (f : A -> option bytes) (g : A -> option bytes) l :
  (forall x, f x = text_line <$> g x) -> concat (omap f l) = concat (map text_line (omap g l)).
Proof.
  intros H. induction l as [|x l IH]; [done|]. cbn [omap list_omap]. rewrite H. destruct (g x); cbn; [by rewrite IH|done].
Qed.
Lemma clean_app a b : clean a -> clean b -> clean (a ++ b).
Proof. intros [] []. split; rewrite elem_of_app; tauto. Qed.

(** The lines without their line feeds. *)
Definition limit_text (s : PolicySetting) : option bytes := '(d, t, i, v) ← limit_of s; Some (d ++ lit " " ++ t ++ lit " " ++ i ++ lit " " ++ v).
Definition watch_text (s : PolicySetting) : option bytes := path ← watch_of s; Some (lit "-w " ++ path ++ lit " -p wa -k adrian_audit").
Lemma limit_line_eq s : limit_line s = text_line <$> limit_text s.
Proof.
  unfold limit_line, limit_text, limit_of. destruct (strip_prefix _ _) as [rest|]; [|done]. cbn [mbind option_bind].
  destruct (splitn 3 x2e rest) as [|d [|t [|i [|]]]]; done.
Qed.
Lemma audit_line_eq s : audit_line s = text_line <$> watch_text s.
Proof.
  unfold audit_line, watch_text, watch_of. destruct (strip_prefix _ _) as [rest|]; [|done]. cbn [mbind option_bind]. destruct (ps_value s) as [| |[]| |]; done.
Qed.
Lemma limit_text_read s l : limit_ok s -> limit_text s = Some l -> x0a ∉ l /\ limit_of_line l = limit_of s.
Proof.
  unfold limit_ok, limit_text. destruct (limit_of s) as [[[[d t] i] v]|]; [|done]. intros ([Hd Hd'] & [Ht Ht'] & [Hi Hi'] & [Hv Hv'] & Hh) [= <-]. split.
  - change (lit " ") with [x20]. repeat (rewrite not_elem_of_app || rewrite not_elem_of_cons). by split_and!.
  - unfold limit_of_line, words. rewrite bool_decide_false by (destruct d; cbn; [congruence|done]). cbn [lit String.list_byte_of_string app].
    change (lit " ") with [x20]. cbn [app]. rewrite !split_on_app by done. by rewrite split_on_word.
Qed.
Lemma watch_text_read s l : watch_ok s -> watch_text s = Some l -> x0a ∉ l /\ watch_of_line l = watch_of s.
Proof.
  unfold watch_ok, watch_text. destruct (watch_of s) as [path|]; [|done]. intros [Hp Hp'] [= <-]. split.
  - repeat (rewrite not_elem_of_app || rewrite not_elem_of_cons). split_and!; try done. by apply (bool_decide_unpack _).
  - unfold watch_of_line, words. change (lit " -p wa -k adrian_audit") with (x20 :: lit "-p wa -k adrian_audit").
    match goal with |- context [split_on x20 ?l] => change l with (lit "-w" ++ x20 :: path ++ x20 :: lit "-p wa -k adrian_audit") end.
    rewrite split_on_app by (by apply (bool_decide_unpack _)). rewrite split_on_app by done. reflexivity.
Qed.
Lemma read_lines {A} (parse : bytes -> option A) (of_setting : PolicySetting -> option A) (text : PolicySetting -> option bytes) (ok : PolicySetting -> Prop) header l :
  (forall s t, ok s -> text s = Some t -> x0a ∉ t /\ parse t = of_setting s) -> (forall s, text s = None -> of_setting s = None) ->
  parse [] = None -> x0a ∉ header -> parse header = None -> Forall ok l ->
  omap parse (text_lines (text_line header ++ concat (map text_line (omap text l)))) = omap of_setting l.
Proof.
  intros Ht Hn H0 Hh Hp Hl. change (text_line header ++ concat (map text_line (omap text l))) with (concat (map text_line (header :: omap text l))).
  rewrite text_lines_of.
  - cbn [app omap list_omap]. rewrite Hp. rewrite omap_app. cbn [omap list_omap]. rewrite H0, app_nil_r.
    induction Hl as [|s l Hs _ IH]; [done|]. cbn [omap list_omap]. destruct (text s) as [t|] eqn:E; [|by rewrite Hn].
    destruct (Ht s t Hs E) as [_ Hpt]. cbn [omap list_omap]. rewrite Hpt. destruct (of_setting s); [by f_equal|done].
  - apply Forall_cons. split; [done|]. induction Hl as [|s l Hs _ IH]; [done|]. cbn [omap list_omap]. destruct (text s) as [t|] eqn:E; [|done].
    apply Forall_cons. split; [by apply (Ht s t)|done].
Qed.
Lemma read_limits_ok policy : Forall limit_ok (dp_settings policy) -> read_limits (limits_conf policy) = omap limit_of (dp_settings policy).
Proof.
  intros H. unfold read_limits, limits_conf. rewrite (concat_omap_lines limit_line limit_text) by apply limit_line_eq.
  apply (read_lines _ _ _ limit_ok); [apply limit_text_read| |done|by apply (bool_decide_unpack _)|done|done].
  intros s. unfold limit_text. by destruct (limit_of s) as [[[[? ?] ?] ?]|].
Qed.
Lemma read_watches_ok policy : Forall watch_ok (dp_settings policy) -> read_watches (audit_rules policy) = omap watch_of (dp_settings policy).
Proof.
  intros H. unfold read_watches, audit_rules. rewrite (concat_omap_lines audit_line watch_text) by apply audit_line_eq.
  apply (read_lines _ _ _ watch_ok); [apply watch_text_read| |done|by apply (bool_decide_unpack _)|done|done].
  intros s. unfold watch_text. by destruct (watch_of s).
Qed.
(** A dot of the key always becomes a separator of the path. *)
Lemma watch_no_dot s path : watch_of s = Some path -> x2e ∉ path.
Proof.
  unfold watch_of. destruct (strip_prefix _ _) as [rest|]; [|done]. cbn. destruct (ps_value s) as [| |[]| |]; intros [= <-]. apply not_elem_of_cons. split; [done|].
  unfold replace_char. intros (b & E & _)%list_elem_of_fmap. case_bool_decide; [discriminate|congruence].
Qed.

(** ** Files *)

Lemma paths_distinct platform json policy host out : synthesize json platform policy host = Ok out -> NoDup (map fst (ap_files out)) /\ ap_platform out = platform.
Proof.
  intros [= <-]. destruct platform; unfold windows_synthesize, macos_synthesize, linux_synthesize; cbn zeta; repeat case_match;
    (split; [apply (bool_decide_unpack _); vm_compute; exact I|reflexivity]).
Qed.
Lemma existsb_omap {A B} (f : A -> option B) p l : existsb p l = false -> (forall x, p x = false -> f x = None) -> omap f l = [].
Proof.
  intros H Hf. induction l as [|x l IH]; [done|]. cbn in H. apply orb_false_iff in H as [Hx Hl]. cbn [omap list_omap]. rewrite Hf by done. by apply IH.
Qed.
Lemma no_prefix p s : has_prefix p s = false -> strip_prefix p (ps_key s) = None.
Proof.
  unfold has_prefix. destruct (strip_prefix p (ps_key s)) as [r|] eqn:E; [|done]. intros H. apply strip_prefix_eq in E.
  enough (starts_with (ps_key s) p = true) by congruence. apply starts_with_iff. by exists r.
Qed.
(** The file of an area is there if a setting of the area is; without one there are
    no rules to read. *)
Lemma limits_file json policy : default [] (read_limits <$> file_at "etc/security/limits.conf.d/99-adrian.conf" (linux_synthesize json policy))
  = if any_prefix "limits." policy then read_limits (limits_conf policy) else [].
Proof. unfold linux_synthesize. cbn zeta. destruct (any_prefix "firewall." policy), (any_prefix "limits." policy), (any_prefix "audit." policy); reflexivity. Qed.
Lemma audit_file json policy : default [] (read_watches <$> file_at "etc/audit/rules.d/99-adrian.rules" (linux_synthesize json policy))
  = if any_prefix "audit." policy then read_watches (audit_rules policy) else [].
Proof. unfold linux_synthesize. cbn zeta. destruct (any_prefix "firewall." policy), (any_prefix "limits." policy), (any_prefix "audit." policy); reflexivity. Qed.
Lemma limits_absent policy : any_prefix "limits." policy = false -> omap limit_of (dp_settings policy) = [].
Proof. intros H. eapply existsb_omap; [exact H|]. intros s Hs. unfold limit_of. by rewrite no_prefix. Qed.
Lemma watches_absent policy : any_prefix "audit." policy = false -> omap watch_of (dp_settings policy) = [].
Proof. intros H. eapply existsb_omap; [exact H|]. intros s Hs. unfold watch_of. by rewrite no_prefix. Qed.

(** A setting whose value is two lines. *)
Definition two_lines (v : bytes) (d t i w : bytes) : PolicySetting :=
  mkPolicySetting (lit "limits.a.b.c") (PString (v ++ [x0a] ++ d ++ [x20] ++ t ++ [x20] ++ i ++ [x20] ++ w)) [].
Lemma two_lines_read name v d t i w : clean v -> clean d -> clean t -> clean i -> clean w -> head d <> Some x23 -> head d <> None ->
  read_limits (limits_conf (mkDeclarativePolicy 1 name [] [two_lines v d t i w])) = [(lit "a", lit "b", lit "c", v); (d, t, i, w)].
Proof.
  intros [Hv Hv'] [Hd Hd'] [Ht Ht'] [Hi Hi'] [Hw Hw'] Hh Hn. unfold read_limits, limits_conf. cbn [dp_settings omap list_omap].
  change (limit_line (two_lines v d t i w)) with (Some (text_line (lit "a b c " ++ v ++ [x0a] ++ d ++ [x20] ++ t ++ [x20] ++ i ++ [x20] ++ w))). cbn [concat].
  rewrite app_nil_r.
  assert (text_line (lit "# Adrian-managed limits") ++ text_line (lit "a b c " ++ v ++ [x0a] ++ d ++ [x20] ++ t ++ [x20] ++ i ++ [x20] ++ w)
          = concat (map text_line [lit "# Adrian-managed limits"; lit "a b c " ++ v; d ++ [x20] ++ t ++ [x20] ++ i ++ [x20] ++ w])) as ->.
  { cbn [map concat]. unfold text_line. by rewrite app_nil_r, <-!app_assoc. }
  rewrite text_lines_of.
  - change (omap limit_of_line [lit "# Adrian-managed limits"; lit "a b c " ++ v; d ++ [x20] ++ t ++ [x20] ++ i ++ [x20] ++ w; []] = [(lit "a", lit "b", lit "c", v); (d, t, i, w)]). cbn [omap list_omap].
    change (limit_of_line (lit "# Adrian-managed limits")) with (@None (bytes * bytes * bytes * bytes)). change (limit_of_line []) with (@None (bytes * bytes * bytes * bytes)).
    assert (limit_of_line (lit "a b c " ++ v) = Some (lit "a", lit "b", lit "c", v)) as ->.
    { unfold limit_of_line, words. rewrite bool_decide_false by (cbn; congruence). change (lit "a b c " ++ v) with (lit "a" ++ x20 :: lit "b" ++ x20 :: lit "c" ++ x20 :: v).
      rewrite !split_on_app by (by apply (bool_decide_unpack _)). by rewrite split_on_word. }
    assert (limit_of_line (d ++ [x20] ++ t ++ [x20] ++ i ++ [x20] ++ w) = Some (d, t, i, w)) as ->; [|done].
    unfold limit_of_line, words. rewrite bool_decide_false by (destruct d; cbn in *; congruence). cbn [app]. rewrite !split_on_app by done. by rewrite split_on_word.
  - repeat constructor; [by apply (bool_decide_unpack _)|..]; repeat (rewrite not_elem_of_app || rewrite not_elem_of_cons); split_and!; try done; by apply (bool_decide_unpack _).
Qed.

(** C22: What the executors write, read back, for a policy whose version is a
    32-bit number, whose integers have 64 bits, whose registry settings the registry
    file can hold (no semicolon in a key or a value name, no string that ends in NUL, no empty
    string and no NUL in a list, data below [2^32] bytes) and whose limits and watches hold no
    blank or line feed and start no comment.  The files of a platform have distinct
    paths.  The registry file of Windows decodes to the compiled policy, and its
    entries to the registry settings; the payload of macOS to name, description,
    version and every setting.  The limits of Linux are, in order, those of the
    settings that name a domain, a type and an item, and the watches those that are
    switched on.  Not all of it is what [PolicyValue] promises for a Linux
    configuration: a string is not quoted, and a boolean (for [yes] or [no]), bytes (for
    their hexadecimal digits) or a list (for a line each) leave a rule without a
    value.  A watch never has a dot in its path, and a value of two lines becomes two
    rules.  [apply] writes nothing and counts nothing, and [verify] accepts
    everything. *)
Theorem executor_files (json : DeclarativePolicy -> option bytes) (policy : DeclarativePolicy) (host : bytes) :
  is_u32 (dp_version policy) -> Forall (fun s => value_ok (ps_value s)) (dp_settings policy) -> Forall registry_ok (omap registry_setting (dp_settings policy)) ->
  Forall limit_clean (dp_settings policy) -> Forall watch_clean (dp_settings policy) ->
  let limits := default [] (read_limits <$> file_at "etc/security/limits.conf.d/99-adrian.conf" (linux_synthesize json policy)) in
  let watches := default [] (read_watches <$> file_at "etc/audit/rules.d/99-adrian.rules" (linux_synthesize json policy)) in
  (forall platform, exists out, synthesize json platform policy host = Ok out /\ NoDup (map fst (ap_files out)) /\ ap_platform out = platform)
  /\ (decode_preg_file <$> file_at "Machine/Registry.pol" (windows_synthesize json policy)) = Some (Ok (compile_to_preg policy))
  /\ map (fun e => (preg_key e, value_name e, read_registry e)) (preg_entries (compile_to_preg policy))
     = map (fun '(k, n, v) => (k, n, Ok (registry_view v))) (omap registry_setting (dp_settings policy))
  /\ (f ← file_at "Configuration/com.adrian.managed-client.plist" (macos_synthesize json policy); read_profile f)
     = Some (dp_name policy, dp_description policy, dp_version policy, map (fun s => (ps_key s, ps_value s)) (dp_settings policy))
  /\ Forall2 asks_limit (filter (fun s => is_limit s = true) (dp_settings policy)) limits
  /\ Forall2 asks_watch (filter (fun s => is_watch s = true) (dp_settings policy)) watches
  /\ Forall (fun path => x2e ∉ path) watches
  /\ (forall name v d t i w, clean v -> clean d -> clean t -> clean i -> clean w -> head d <> Some x23 -> head d <> None ->
        read_limits (limits_conf (mkDeclarativePolicy 1 name [] [two_lines v d t i w])) = [(lit "a", lit "b", lit "c", v); (d, t, i, w)])
  /\ (forall platform doc, executor_apply platform doc host = Ok (mkApplyResult 0 0 0 []) /\ executor_verify platform doc = Ok (mkVerifyResult true [])).
Proof.
  intros Hv Hs Hr Hl Hw limits watches.
  assert (limits = omap limit_of (dp_settings policy)) as El.
  { unfold limits. rewrite limits_file. destruct (any_prefix "limits." policy) eqn:E; [|by rewrite limits_absent]. apply read_limits_ok, Forall_forall.
    intros s Hin. apply limit_clean_ok; [by apply (proj1 (Forall_forall _ _) Hs)|by apply (proj1 (Forall_forall _ _) Hl)]. }
  assert (watches = omap watch_of (dp_settings policy)) as Ew.
  { unfold watches. rewrite audit_file. destruct (any_prefix "audit." policy) eqn:E; [|by rewrite watches_absent]. apply read_watches_ok.
    eapply Forall_impl; [exact Hw|]. intros s. apply watch_clean_ok. }
  split; [|split; [|split; [|split; [|split; [|split; [|split; [|split]]]]]]].
  - intros platform. eexists. split; [reflexivity|]. by apply (paths_distinct platform json policy host).
  - change (file_at _ _) with (Some (encode_preg_file (compile_to_preg policy))). cbn [fmap option_fmap option_map]. f_equal. by apply preg_policy_ok.
  - by apply preg_policy_ok.
  - assert (file_at "Configuration/com.adrian.managed-client.plist" (macos_synthesize json policy) = Some (compile_to_configuration_profile policy)) as ->
      by (unfold macos_synthesize; cbn zeta; by destruct (any_prefix "firewall." policy)). cbn [mbind option_bind]. by apply read_profile_ok.
  - rewrite El. apply omap_asks. eapply Forall_impl; [exact Hs|]. intros s. apply limit_of_asks.
  - rewrite Ew. apply omap_asks, Forall_forall. intros s _. apply watch_of_asks.
  - rewrite Ew. apply Forall_forall. intros path (s & _ & Hp)%list_elem_of_omap. by eapply watch_no_dot.
  - intros. by apply two_lines_read.
  - by intros.
Qed.
Definition sample_settings : list PolicySetting :=
  [mkPolicySetting (lit "limits.admin.hard.nofile") (PInteger 4096) []; mkPolicySetting (lit "audit.etc.krb5.conf") (PBoolean true) [];
   mkPolicySetting (lit "registry.Software\Adrian\Enabled") (PBoolean true) []; mkPolicySetting (lit "limits.x") (PInteger 1) [];
   mkPolicySetting (lit "limits.admin.soft.core") (PBoolean true) []].
Definition sample_limits : list PolicySetting :=
  [mkPolicySetting (lit "limits.admin.hard.nofile") (PInteger 4096) []; mkPolicySetting (lit "limits.admin.soft.core") (PBoolean true) []].
Lemma executor_files_witness :
  let out := linux_synthesize (fun _ => None) (mkDeclarativePolicy 2 (lit "base") [] sample_settings) in
  Forall2 asks_limit sample_limits (default [] (read_limits <$> file_at "etc/security/limits.conf.d/99-adrian.conf" out))
  /\ default [] (read_limits <$> file_at "etc/security/limits.conf.d/99-adrian.conf" out)
     = [(lit "admin", lit "hard", lit "nofile", lit "4096"); (lit "admin", lit "soft", lit "core", [])]
  /\ default [] (read_watches <$> file_at "etc/audit/rules.d/99-adrian.rules" out) = [lit "/etc/krb5/conf"].
Proof.
  destruct (executor_files (fun _ => None) (mkDeclarativePolicy 2 (lit "base") [] sample_settings) []) as (_ & _ & _ & _ & H1 & H2 & _).
  - split; vm_compute; congruence.
  - repeat constructor; vm_compute; congruence.
  - repeat constructor; (reflexivity || by apply (bool_decide_unpack _)).
  - repeat constructor; try (by apply (bool_decide_unpack _)); intros rest Hr; discriminate Hr.
  - repeat constructor; by apply (bool_decide_unpack _).
  - split; [exact H1|]. split; vm_compute; reflexivity.
Defined.
