(* ===== verification/Monitor.v ===== *)
(** * Monitor: metrics and audit events ([adrian-monitor])

    The registry of metrics with its text exposition, the audit sinks and the service
    that holds both.  [f64] with its order, sum and printer, the JSON form of an event
    and the clock are parameters; the log is a list of lines.  The axum router is the
    pair of answers it gives. *)
From S2P Require Import Prelude Bytes Text.

(** [f64]: [value <= bound] is false of a NaN. *)
Class Float64 := {
  f64 : Type;
  f64_le : f64 -> f64 -> bool;
  f64_add : f64 -> f64 -> f64;
  f64_zero : f64;
  f64_lit : string -> f64;
  f64_print : f64 -> bytes;
}.

(** ** Audit events *)

Inductive MonitorError := Prometheus (text : bytes) | OtelNotImplemented.
Inductive AuditError := SinkError (text : bytes) | SerializeError.
Inductive AuditEventType := KerberosAsReq | KerberosTgsReq | LdapBind | LdapModify | PasswordChange | CertEnroll | SmbShareMount | KrbtgtRotation | DcSyncAttempt.
Definition as_event_name (t : AuditEventType) : bytes :=
  match t with
  | KerberosAsReq => lit "adrian.kerberos.as_req"
  | KerberosTgsReq => lit "adrian.kerberos.tgs_req"
  | LdapBind => lit "adrian.ldap.bind"
  | LdapModify => lit "adrian.ldap.modify"
  | PasswordChange => lit "adrian.identity.password_change"
  | CertEnroll => lit "adrian.pki.cert_enroll"
  | SmbShareMount => lit "adrian.file.share_mount"
  | KrbtgtRotation => lit "adrian.kdc.krbtgt_rotation"
  | DcSyncAttempt => lit "adrian.security.dcsync_attempt"
  end.
Inductive AuditOutcome := AuditSuccess | AuditFailure (error : bytes) | AuditDenied.
(** The details are a [serde_json::Value], given as its text. *)
Record AuditEvent := mkAuditEvent {
  ae_timestamp : Z;
  ae_event_type : AuditEventType;
  ae_principal : option bytes;
  ae_source_ip : option bytes;
  ae_outcome : AuditOutcome;
  ae_details : bytes;
}.
Definition AuditEvent_new (now : Z) (event_type : AuditEventType) (outcome : AuditOutcome) : AuditEvent :=
  mkAuditEvent now event_type None None outcome (lit "null").
(** The two sinks with what they keep: the lines logged, the events counted. *)
Inductive AuditSink := LogAuditSink (lines : list bytes) | OtelAuditSink (events_seen : Z).
Definition events_seen (s : AuditSink) : Z := match s with OtelAuditSink n => n | LogAuditSink _ => 0 end.
Definition sink_write (event_json : AuditEvent -> option bytes) (s : AuditSink) (event : AuditEvent) : Result AuditError unit * AuditSink :=
  match s with
  | LogAuditSink lines =>
      match event_json event with
      | Some json => (Ok tt, LogAuditSink (lines ++ [json]))
      | None => (Err SerializeError, s)
      end
  | OtelAuditSink n => (Ok tt, OtelAuditSink (as_u64 (n + 1)))
  end.

Section Monitor.
Context {FL : Float64}.

(** ** Histograms *)

Record HistogramState := mkHistogramState { bucket_counts : list Z; h_count : Z; h_sum : f64 }.
Definition HistogramState_default : HistogramState := mkHistogramState [] 0 f64_zero.
Definition BUCKET_NAMES : list string := ["0.001"; "0.005"; "0.01"; "0.05"; "0.1"; "0.5"; "1.0"; "5.0"].
Definition DEFAULT_BUCKETS : list f64 := map f64_lit BUCKET_NAMES.
(** [iter().position(|&b| value <= b)]. *)
Fixpoint bucket_idx (value : f64) (buckets : list f64) : option nat :=
  match buckets with [] => None | b :: buckets => if f64_le value b then Some 0%nat else S <$> bucket_idx value buckets end.
Definition resized (counts : list Z) : list Z :=
  if (length counts =? 0)%nat then replicate (length DEFAULT_BUCKETS) 0
  else if (length counts <? length DEFAULT_BUCKETS)%nat then counts ++ replicate (length DEFAULT_BUCKETS - length counts) 0
  else counts.
Definition observe (value : f64) (h : HistogramState) : Result Empty_set HistogramState :=
  let counts := resized (bucket_counts h) in
  let? counts :=
    match bucket_idx value DEFAULT_BUCKETS with
    | Some idx => match counts !! idx with Some n => let? n := u64_add n 1 in Ok (<[idx := n]> counts) | None => Panic end
    | None => Ok counts
    end in
  let? count := u64_add (h_count h) 1 in
  Ok (mkHistogramState counts count (f64_add (h_sum h) value)).

(** ** The registry *)

Record MetricsInner := mkMetricsInner {
  as_req_total : gmap (bytes * bytes) Z;
  as_req_duration_seconds : HistogramState;
  ldap_query_duration_seconds : gmap bytes HistogramState;
  fdb_operations_total : gmap bytes Z;
  replication_lag_seconds : gmap (bytes * bytes) f64;
  rid_pool_remaining : gmap bytes f64;
  krbtgt_key_age_seconds : f64;
}.
Definition MetricsRegistry_new : MetricsInner := mkMetricsInner ∅ HistogramState_default ∅ ∅ ∅ ∅ f64_zero.
Definition inc_as_req (m : MetricsInner) (realm etype : bytes) : Result Empty_set MetricsInner :=
  let? n := u64_add (default 0 (as_req_total m !! (realm, etype))) 1 in
  Ok (mkMetricsInner (<[(realm, etype) := n]> (as_req_total m)) (as_req_duration_seconds m) (ldap_query_duration_seconds m) (fdb_operations_total m)
        (replication_lag_seconds m) (rid_pool_remaining m) (krbtgt_key_age_seconds m)).
Definition observe_as_req_duration (m : MetricsInner) (seconds : f64) : Result Empty_set MetricsInner :=
  let? h := observe seconds (as_req_duration_seconds m) in
  Ok (mkMetricsInner (as_req_total m) h (ldap_query_duration_seconds m) (fdb_operations_total m) (replication_lag_seconds m) (rid_pool_remaining m) (krbtgt_key_age_seconds m)).
Definition observe_ldap_query_duration (m : MetricsInner) (scope : bytes) (seconds : f64) : Result Empty_set MetricsInner :=
  let? h := observe seconds (default HistogramState_default (ldap_query_duration_seconds m !! scope)) in
  Ok (mkMetricsInner (as_req_total m) (as_req_duration_seconds m) (<[scope := h]> (ldap_query_duration_seconds m)) (fdb_operations_total m) (replication_lag_seconds m)
        (rid_pool_remaining m) (krbtgt_key_age_seconds m)).
Definition inc_fdb_operation (m : MetricsInner) (op_type : bytes) : Result Empty_set MetricsInner :=
  let? n := u64_add (default 0 (fdb_operations_total m !! op_type)) 1 in
  Ok (mkMetricsInner (as_req_total m) (as_req_duration_seconds m) (ldap_query_duration_seconds m) (<[op_type := n]> (fdb_operations_total m)) (replication_lag_seconds m)
        (rid_pool_remaining m) (krbtgt_key_age_seconds m)).
Definition set_replication_lag (m : MetricsInner) (source_dc target_dc : bytes) (lag_seconds : f64) : MetricsInner :=
  mkMetricsInner (as_req_total m) (as_req_duration_seconds m) (ldap_query_duration_seconds m) (fdb_operations_total m)
    (<[(source_dc, target_dc) := lag_seconds]> (replication_lag_seconds m)) (rid_pool_remaining m) (krbtgt_key_age_seconds m).
Definition set_rid_pool_remaining (m : MetricsInner) (domain_sid : bytes) (remaining : f64) : MetricsInner :=
  mkMetricsInner (as_req_total m) (as_req_duration_seconds m) (ldap_query_duration_seconds m) (fdb_operations_total m) (replication_lag_seconds m)
    (<[domain_sid := remaining]> (rid_pool_remaining m)) (krbtgt_key_age_seconds m).
Definition set_krbtgt_key_age (m : MetricsInner) (age_seconds : f64) : MetricsInner :=
  mkMetricsInner (as_req_total m) (as_req_duration_seconds m) (ldap_query_duration_seconds m) (fdb_operations_total m) (replication_lag_seconds m) (rid_pool_remaining m) age_seconds.

(** ** The exposition *)

Definition label (name : string) (v : bytes) : bytes := lit name ++ lit "=" ++ [x22] ++ v ++ [x22].
Definition braces (s : bytes) : bytes := lit "{" ++ s ++ lit "}".
(** Entries sorted by their key; a pair of strings is compared by its first first. *)
Definition pair_le {V} (x y : (bytes * bytes) * V) : Prop := key_lt x.1.1 y.1.1 \/ (x.1.1 = y.1.1 /\ key_le x.1.2 y.1.2).
#[global] Instance pair_le_dec {V} (x y : (bytes * bytes) * V) : Decision (pair_le x y).
Proof. unfold pair_le, key_lt, key_le. apply _. Defined.
Definition pair_entries {V} (m : gmap (bytes * bytes) V) : list ((bytes * bytes) * V) := merge_sort pair_le (map_to_list m).
Fixpoint bucket_lines (name label_prefix : bytes) (cumulative : Z) (i : nat) (names : list string) (counts : list Z) : Result Empty_set bytes :=
  match names with
  | [] => Ok []
  | bound :: names =>
      let bucket_count := default 0 (counts !! i) in
      let? cumulative := u64_add cumulative bucket_count in
      let? rest := bucket_lines name label_prefix cumulative (S i) names counts in
      Ok (text_line (name ++ lit "_bucket" ++ braces (label_prefix ++ label "le" (f64_print (f64_lit bound))) ++ lit " " ++ print_dec cumulative) ++ rest)
  end.
Definition join_labels (labels : list (string * bytes)) : bytes := join_with x2c (map (fun '(k, v) => label k v) labels).
Definition render_histogram (name : bytes) (extra_labels : list (string * bytes)) (h : HistogramState) : Result Empty_set bytes :=
  let label_prefix := match extra_labels with [] => [] | _ => join_labels extra_labels ++ lit "," end in
  let? buckets := bucket_lines name label_prefix 0 0 BUCKET_NAMES (bucket_counts h) in
  let inf := text_line (name ++ lit "_bucket" ++ braces (label_prefix ++ label "le" (lit "+Inf")) ++ lit " " ++ print_dec (h_count h)) in
  let labels := match extra_labels with [] => [] | _ => braces (join_labels extra_labels) end in
  Ok (buckets ++ inf ++ text_line (name ++ lit "_sum" ++ labels ++ lit " " ++ f64_print (h_sum h))
      ++ text_line (name ++ lit "_count" ++ labels ++ lit " " ++ print_dec (h_count h))).
Definition metric_head (name help ty : string) : bytes :=
  text_line (lit "# HELP " ++ lit name ++ lit " " ++ lit help) ++ text_line (lit "# TYPE " ++ lit name ++ lit " " ++ lit ty).
Definition ldap_histogram (e : bytes * HistogramState) : Result Empty_set bytes :=
  render_histogram (lit "adrian_ldap_query_duration_seconds") [("scope", e.1)] e.2.
Definition as_req_sample (e : (bytes * bytes) * Z) : bytes :=
  lit "adrian_as_req_total" ++ braces (label "realm" e.1.1 ++ lit "," ++ label "etype" e.1.2) ++ lit " " ++ print_dec e.2.
Definition fdb_sample (e : bytes * Z) : bytes := lit "adrian_fdb_operations_total" ++ braces (label "op_type" e.1) ++ lit " " ++ print_dec e.2.
Definition lag_sample (e : (bytes * bytes) * f64) : bytes :=
  lit "adrian_replication_lag_seconds" ++ braces (label "source_dc" e.1.1 ++ lit "," ++ label "target_dc" e.1.2) ++ lit " " ++ f64_print e.2.
Definition rid_sample (e : bytes * f64) : bytes := lit "adrian_rid_pool_remaining" ++ braces (label "domain_sid" e.1) ++ lit " " ++ f64_print e.2.
Definition sample_lines {A} (f : A -> bytes) (l : list A) : bytes := concat (map (fun x => text_line (f x)) l).
Definition render_prometheus (m : MetricsInner) : Result Empty_set bytes :=
  let? as_req := render_histogram (lit "adrian_as_req_duration_seconds") [] (as_req_duration_seconds m) in
  let? ldap := rmap ldap_histogram (btree_iter (ldap_query_duration_seconds m)) in
  Ok (metric_head "adrian_as_req_total" "Total Kerberos AS-REQs received." "counter" ++ sample_lines as_req_sample (pair_entries (as_req_total m))
      ++ metric_head "adrian_as_req_duration_seconds" "Latency of Kerberos AS-REQ handling." "histogram" ++ as_req
      ++ metric_head "adrian_ldap_query_duration_seconds" "Latency of LDAP query handling." "histogram" ++ concat ldap
      ++ metric_head "adrian_fdb_operations_total" "Total FoundationDB operations." "counter" ++ sample_lines fdb_sample (btree_iter (fdb_operations_total m))
      ++ metric_head "adrian_replication_lag_seconds" "Replication lag between DCs (seconds)." "gauge" ++ sample_lines lag_sample (pair_entries (replication_lag_seconds m))
      ++ metric_head "adrian_rid_pool_remaining" "Remaining RIDs in the pool (per domain SID)." "gauge" ++ sample_lines rid_sample (btree_iter (rid_pool_remaining m))
      ++ metric_head "adrian_krbtgt_key_age_seconds" "Age of the krbtgt account key (seconds)." "gauge"
      ++ text_line (lit "adrian_krbtgt_key_age_seconds " ++ f64_print (krbtgt_key_age_seconds m))).

(** ** The service *)

Record MonitorService := mkMonitorService { ms_metrics : MetricsInner; ms_audit_pipeline : AuditSink }.
Definition with_sink (sink : AuditSink) : MonitorService := mkMonitorService MetricsRegistry_new sink.
Definition MonitorService_new : MonitorService := with_sink (LogAuditSink []).
Definition emit_audit (event_json : AuditEvent -> option bytes) (s : MonitorService) (event : AuditEvent) : Result AuditError unit * MonitorService :=
  let '(r, sink) := sink_write event_json (ms_audit_pipeline s) event in (r, mkMonitorService (ms_metrics s) sink).
Definition install_otel (s : MonitorService) : Result MonitorError unit := Err OtelNotImplemented.
(** [GET /metrics] and [GET /healthz]: the content type, if it is set, and the body. *)
Definition get_metrics (s : MonitorService) : Result Empty_set (option bytes * bytes) :=
  let? body := render_prometheus (ms_metrics s) in Ok (Some (lit "text/plain; version=0.0.4; charset=utf-8"), body).
Definition get_healthz (s : MonitorService) : option bytes * bytes := (None, lit "ok").
End Monitor.
