(* ===== verification/MonitorSpec.v ===== *)
(** * MonitorSpec: what a scrape reports

    [expected] says which samples a scrape shows after a run of operations, from the
    operations alone; a scrape shows exactly these. *)
From S2P Require Import Prelude Bytes Text Monitor.

Section Spec.
Context {FL : Float64}.

(** ** Operations *)

Inductive MetricOp :=
| IncAsReq (realm etype : bytes)
| ObserveAsReq (seconds : f64)
| ObserveLdap (scope : bytes) (seconds : f64)
| IncFdb (op_type : bytes)
| SetLag (source_dc target_dc : bytes) (seconds : f64)
| SetRid (domain_sid : bytes) (remaining : f64)
| SetAge (seconds : f64).
Definition apply_op (m : MetricsInner) (o : MetricOp) : Result Empty_set MetricsInner :=
  match o with
  | IncAsReq realm etype => inc_as_req m realm etype
  | ObserveAsReq v => observe_as_req_duration m v
  | ObserveLdap scope v => observe_ldap_query_duration m scope v
  | IncFdb op_type => inc_fdb_operation m op_type
  | SetLag s t v => Ok (set_replication_lag m s t v)
  | SetRid sid v => Ok (set_rid_pool_remaining m sid v)
  | SetAge v => Ok (set_krbtgt_key_age m v)
  end.
Fixpoint run_ops (m : MetricsInner) (ops : list MetricOp) : Result Empty_set MetricsInner :=
  match ops with [] => Ok m | o :: ops => let? m := apply_op m o in run_ops m ops end.

(** What the operations say about one series. *)
Definition as_reqs (ops : list MetricOp) : list (bytes * bytes) := omap (fun o => match o with IncAsReq r e => Some (r, e) | _ => None end) ops.
Definition fdb_ops (ops : list MetricOp) : list bytes := omap (fun o => match o with IncFdb t => Some t | _ => None end) ops.
Definition as_req_obs (ops : list MetricOp) : list f64 := omap (fun o => match o with ObserveAsReq v => Some v | _ => None end) ops.
Definition ldap_obs (scope : bytes) (ops : list MetricOp) : list f64 :=
  omap (fun o => match o with ObserveLdap s v => if bool_decide (s = scope) then Some v else None | _ => None end) ops.
Definition lags (k : bytes * bytes) (ops : list MetricOp) : list f64 :=
  omap (fun o => match o with SetLag s t v => if bool_decide ((s, t) = k) then Some v else None | _ => None end) ops.
Definition rids (sid : bytes) (ops : list MetricOp) : list f64 :=
  omap (fun o => match o with SetRid s v => if bool_decide (s = sid) then Some v else None | _ => None end) ops.
Definition ages (ops : list MetricOp) : list f64 := omap (fun o => match o with SetAge v => Some v | _ => None end) ops.
Definition count {A} `{!EqDecision A} (a : A) (l : list A) : Z := Z.of_nat (length (filter (fun x => x = a) l)).
Definition at_most (b : f64) (obs : list f64) : Z := Z.of_nat (length (filter (fun v => f64_le v b = true) obs)).
Definition total (obs : list f64) : f64 := foldl f64_add f64_zero obs.

(** ** Histograms *)

(** The bounds increase. *)
Definition bounds_increase : Prop := forall v i j bi bj, (i <= j)%nat -> DEFAULT_BUCKETS !! i = Some bi -> DEFAULT_BUCKETS !! j = Some bj ->
  f64_le v bi = true -> f64_le v bj = true.
Definition in_bucket (i : nat) (obs : list f64) : Z := Z.of_nat (length (filter (fun v => bucket_idx v DEFAULT_BUCKETS = Some i) obs)).
Definition holds_histogram (h : HistogramState) (obs : list f64) : Prop :=
  h_count h = Z.of_nat (length obs) /\ h_sum h = total obs /\ (bucket_counts h = [] \/ length (bucket_counts h) = 8%nat)
  /\ forall i, (i < 8)%nat -> default 0 (bucket_counts h !! i) = in_bucket i obs.

Lemma in_bucket_snoc i obs v : in_bucket i (obs ++ [v]) = in_bucket i obs + (if decide (bucket_idx v DEFAULT_BUCKETS = Some i) then 1 else 0).
Proof. unfold in_bucket. rewrite filter_app, length_app. cbn [filter list_filter]. destruct (decide _); cbn [length]; lia. Qed.
Lemma bucket_idx_range v buckets i : bucket_idx v buckets = Some i -> (i < length buckets)%nat.
Proof.
  revert i. induction buckets as [|b buckets IH]; intros i H; [done|]. cbn [bucket_idx length] in *. destruct (f64_le v b); [injection H as <-; lia|].
  destruct (bucket_idx v buckets) as [j|]; [|done]. injection H as <-. specialize (IH j eq_refl). lia.
Qed.
Lemma bucket_idx_le v buckets i b : (forall j k bj bk, (j <= k)%nat -> buckets !! j = Some bj -> buckets !! k = Some bk -> f64_le v bj = true -> f64_le v bk = true) ->
  buckets !! i = Some b -> (f64_le v b = true <-> exists k, bucket_idx v buckets = Some k /\ (k <= i)%nat).
Proof.
  revert i. induction buckets as [|a buckets IH]; intros i Hm Hb; [done|]. cbn [bucket_idx]. destruct (f64_le v a) eqn:E.
  - split; [intros _; exists 0%nat; split; [done|lia]|]. intros _. apply (Hm 0%nat i a b); [lia|done..].
  - destruct i as [|i]; [injection Hb as ->; split; [congruence|intros (k & Hk & Hi); destruct (bucket_idx v buckets); [injection Hk as <-; lia|done]]|].
    cbn in Hb. rewrite (IH i); [|intros j k bj bk Hjk Hj Hk; apply (Hm (S j) (S k)); [lia|done..]|done].
    split; intros (k & Hk & Hi); [exists (S k); rewrite Hk; split; [done|lia]|].
    destruct (bucket_idx v buckets) as [k'|]; [|done]. injection Hk as <-. exists k'. split; [done|lia].
Qed.
Lemma resized_ok counts : counts = [] \/ length counts = 8%nat -> length (resized counts) = 8%nat /\ forall i, default 0 (resized counts !! i) = default 0 (counts !! i).
Proof.
  intros [->|H].
  - split; [done|]. intros i. unfold resized. cbn [length Nat.eqb]. rewrite lookup_nil. cbn [default].
    destruct (replicate (length DEFAULT_BUCKETS) 0 !! i) as [z|] eqn:E; [|done]. apply lookup_replicate in E as [-> _]. done.
  - unfold resized. rewrite H. split; [done|]. done.
Qed.
Lemma observe_ok v h obs : Z.of_nat (length obs) < 2 ^ 64 - 1 -> holds_histogram h obs -> exists h', observe v h = Ok h' /\ holds_histogram h' (obs ++ [v]).
Proof.
  intros Hl (Hc & Hs & Hb & Hi). unfold observe. destruct (resized_ok _ Hb) as [Hlen Hd].
  assert (forall i, (i < 8)%nat -> exists n, resized (bucket_counts h) !! i = Some n /\ n = in_bucket i obs /\ 0 <= n < 2 ^ 64 - 1) as Hn.
  { intros i Hlt. destruct (lookup_lt_is_Some_2 (resized (bucket_counts h)) i) as [n E]; [lia|]. exists n. split; [done|].
    assert (n = in_bucket i obs) as -> by (rewrite <-Hi by done; rewrite <-Hd; by rewrite E). split; [done|].
    unfold in_bucket. pose proof (length_filter (fun v => bucket_idx v DEFAULT_BUCKETS = Some i) obs). lia. }
  assert (u64_add (E := Empty_set) (h_count h) 1 = Ok (Z.of_nat (length (obs ++ [v])))) as Hcount.
  { rewrite Hc. unfold u64_add. rewrite length_app. cbn [length]. rewrite (proj2 (Z.ltb_lt _ _)) by lia. f_equal. lia. }
  assert (f64_add (h_sum h) v = total (obs ++ [v])) as Hsum by (unfold total; rewrite foldl_app; cbn; by rewrite Hs).
  destruct (bucket_idx v DEFAULT_BUCKETS) as [idx|] eqn:Ev.
  - pose proof (bucket_idx_range _ _ _ Ev) as Hr. destruct (Hn idx Hr) as (n & E & En & Hrange). rewrite E. unfold u64_add at 1. rewrite (proj2 (Z.ltb_lt _ _)) by lia.
    cbn [rbind]. rewrite Hcount. cbn [rbind]. eexists. split; [reflexivity|]. split; [done|]. split; [done|]. cbn [bucket_counts]. split; [right; by rewrite length_insert|].
    intros i Hlt. rewrite in_bucket_snoc, Ev. destruct (decide (idx = i)) as [<-|Hne].
    + rewrite list_lookup_insert_eq by lia. rewrite decide_True by done. cbn. lia.
    + rewrite list_lookup_insert_ne by done. rewrite decide_False by congruence. rewrite Hd, Hi by done. lia.
  - cbn [rbind]. rewrite Hcount. cbn [rbind]. eexists. split; [reflexivity|]. split; [done|]. split; [done|]. cbn [bucket_counts]. split; [by right|].
    intros i Hlt. rewrite in_bucket_snoc, Ev. rewrite decide_False by done. rewrite Hd, Hi by done. lia.
Qed.
Lemma empty_histogram : holds_histogram HistogramState_default [].
Proof. split; [done|]. split; [done|]. split; [by left|]. intros i _. done. Qed.

(** The counts of the first buckets add up to the observations at most the bound. *)
Definition is_below (n : nat) (v : f64) : bool := match bucket_idx v DEFAULT_BUCKETS with Some k => (k <? n)%nat | None => false end.
Definition below (n : nat) (obs : list f64) : Z := Z.of_nat (length (filter (fun v => is_below n v = true) obs)).
Lemma below_S n obs : below (S n) obs = below n obs + in_bucket n obs.
Proof.
  unfold below, in_bucket. induction obs as [|v obs IH]; [done|]. rewrite !filter_cons.
  assert ((is_below (S n) v = true <-> is_below n v = true \/ bucket_idx v DEFAULT_BUCKETS = Some n)
          /\ ~ (is_below n v = true /\ bucket_idx v DEFAULT_BUCKETS = Some n)) as [Hi Hx].
  { unfold is_below. destruct (bucket_idx v DEFAULT_BUCKETS) as [k|]; [|naive_solver]. rewrite !Nat.ltb_lt.
    split; [split|].
    - intros Hk. destruct (decide (k = n)) as [->|Hne]; [by right|]. left. lia.
    - intros [Hk|E]; [lia|]. injection E as ->. lia.
    - intros [Hk E]. injection E as ->. lia. }
  destruct (decide (is_below (S n) v = true)), (decide (is_below n v = true)), (decide (bucket_idx v DEFAULT_BUCKETS = Some n)); cbn [length]; (tauto || lia).
Qed.
Lemma below_at_most i b obs : bounds_increase -> DEFAULT_BUCKETS !! i = Some b -> below (S i) obs = at_most b obs.
Proof.
  intros Hm Hb. unfold below, at_most. do 2 f_equal. apply list_filter_iff. intros v. unfold is_below.
  rewrite (bucket_idx_le v DEFAULT_BUCKETS i b); [|intros j k bj bk; by apply Hm|done].
  destruct (bucket_idx v DEFAULT_BUCKETS) as [k|]; [|split; [done|by intros (k & H & _)]]. rewrite Nat.ltb_lt.
  split; [intros Hk; exists k; split; [done|lia]|intros (k' & [= <-] & Hk); lia].
Qed.
Lemma below_bound n obs : below n obs <= Z.of_nat (length obs).
Proof. unfold below. pose proof (length_filter (fun v => is_below n v = true) obs). lia. Qed.

(** The lines of a histogram. *)
Definition prefix_of (labels : list (string * bytes)) : bytes := match labels with [] => [] | _ => join_labels labels ++ lit "," end.
Definition bucket_line (name : bytes) (labels : list (string * bytes)) (obs : list f64) (bound : string) : bytes :=
  name ++ lit "_bucket" ++ braces (prefix_of labels ++ label "le" (f64_print (f64_lit bound))) ++ lit " " ++ print_dec (at_most (f64_lit bound) obs).
Definition histogram_lines (name : bytes) (labels : list (string * bytes)) (obs : list f64) : list bytes :=
  let n := Z.of_nat (length obs) in
  let braced := match labels with [] => [] | _ => braces (join_labels labels) end in
  map (bucket_line name labels obs) BUCKET_NAMES
  ++ [name ++ lit "_bucket" ++ braces (prefix_of labels ++ label "le" (lit "+Inf")) ++ lit " " ++ print_dec n;
      name ++ lit "_sum" ++ braced ++ lit " " ++ f64_print (total obs); name ++ lit "_count" ++ braced ++ lit " " ++ print_dec n].
Lemma bucket_lines_ok name labels h obs i names : bounds_increase -> holds_histogram h obs -> Z.of_nat (length obs) < 2 ^ 64 ->
  names = drop i BUCKET_NAMES -> (i <= 8)%nat ->
  bucket_lines name (prefix_of labels) (below i obs) i names (bucket_counts h) = Ok (concat (map (fun b => text_line (bucket_line name labels obs b)) names)).
Proof.
  intros Hm (_ & _ & _ & Hi) Hl. revert i. induction names as [|b names IH]; intros i Hn Hlt; [done|]. cbn [bucket_lines map concat].
  assert (BUCKET_NAMES !! i = Some b) as Hb by (rewrite <-(Nat.add_0_r i), <-lookup_drop, <-Hn; done).
  assert (i < 8)%nat as Hlt' by (apply lookup_lt_Some in Hb; exact Hb).
  rewrite Hi by done. unfold u64_add. rewrite <-below_S. pose proof (below_bound (S i) obs). rewrite (proj2 (Z.ltb_lt _ _)) by lia. cbn [rbind].
  rewrite IH; [|change names with (drop 1 (b :: names)); rewrite Hn, drop_drop; f_equal; lia|lia]. cbn [rbind].
  rewrite (below_at_most i (f64_lit b) obs Hm); [done|]. unfold DEFAULT_BUCKETS. by rewrite list_lookup_fmap, Hb.
Qed.
Lemma below_0 obs : below 0 obs = 0.
Proof. unfold below. induction obs as [|v obs IH]; [done|]. rewrite filter_cons, decide_False; [exact IH|]. unfold is_below. destruct (bucket_idx _ _); done. Qed.
Lemma render_histogram_ok name labels h obs : bounds_increase -> holds_histogram h obs -> Z.of_nat (length obs) < 2 ^ 64 ->
  render_histogram name labels h = Ok (concat (map text_line (histogram_lines name labels obs))).
Proof.
  intros Hm Hh Hl. unfold render_histogram. change (match labels with [] => [] | _ => join_labels labels ++ lit "," end) with (prefix_of labels).
  rewrite <-(below_0 obs). rewrite (bucket_lines_ok name labels h obs) by (done || lia). cbn [rbind]. destruct Hh as (-> & -> & _). f_equal.
  unfold histogram_lines. rewrite map_app, concat_app, map_map. f_equal. cbn [map concat]. by rewrite app_nil_r.
Qed.

(** ** The registry *)

Record holds (m : MetricsInner) (ops : list MetricOp) : Prop := mkHolds {
  ho_as_req k : as_req_total m !! k = if decide (k ∈ as_reqs ops) then Some (count k (as_reqs ops)) else None;
  ho_as_req_obs : holds_histogram (as_req_duration_seconds m) (as_req_obs ops);
  ho_ldap s : match ldap_query_duration_seconds m !! s with
              | Some h => ldap_obs s ops <> [] /\ holds_histogram h (ldap_obs s ops)
              | None => ldap_obs s ops = []
              end;
  ho_fdb t : fdb_operations_total m !! t = if decide (t ∈ fdb_ops ops) then Some (count t (fdb_ops ops)) else None;
  ho_lag k : replication_lag_seconds m !! k = last (lags k ops);
  ho_rid s : rid_pool_remaining m !! s = last (rids s ops);
  ho_age : krbtgt_key_age_seconds m = default f64_zero (last (ages ops));
}.
Lemma holds_new : holds MetricsRegistry_new [].
Proof. split; cbn; intros; try (by rewrite lookup_empty); try done; try exact empty_histogram. Qed.
Lemma count_snoc {A} `{!EqDecision A} (a x : A) l : count a (l ++ [x]) = count a l + (if decide (x = a) then 1 else 0).
Proof. unfold count. rewrite filter_app, length_app. cbn [filter list_filter]. destruct (decide _); cbn [length]; lia. Qed.
Lemma count_none {A} `{!EqDecision A} (a : A) l : a ∉ l -> count a l = 0.
Proof.
  unfold count. induction l as [|x l IH]; intros Hn; [done|]. apply not_elem_of_cons in Hn as [Hx Hn]. rewrite filter_cons, decide_False by congruence. by apply IH.
Qed.
Lemma counter_snoc {A} `{!EqDecision A, !Countable A} (g : gmap A Z) (l : list A) (x : A) :
  (forall k, g !! k = if decide (k ∈ l) then Some (count k l) else None) -> Z.of_nat (length l) < 2 ^ 64 - 1 ->
  exists n, u64_add (E := Empty_set) (default 0 (g !! x)) 1 = Ok n
    /\ forall k, <[x := n]> g !! k = if decide (k ∈ l ++ [x]) then Some (count k (l ++ [x])) else None.
Proof.
  intros Hg Hl. assert (default 0 (g !! x) = count x l) as E by (rewrite Hg; destruct (decide _); [done|by rewrite count_none]).
  assert (count x l <= Z.of_nat (length l)) as Hc by (unfold count; pose proof (length_filter (fun y => y = x) l); lia).
  exists (count x l + 1). split; [unfold u64_add; rewrite E, (proj2 (Z.ltb_lt _ _)) by lia; done|]. intros k. rewrite count_snoc.
  destruct (decide (x = k)) as [<-|Hne].
  - rewrite lookup_insert_eq, decide_True by (apply elem_of_app; right; by apply list_elem_of_singleton). done.
  - rewrite lookup_insert_ne, Hg by done. rewrite Z.add_0_r. destruct (decide (k ∈ l)) as [Hk|Hk]; [rewrite decide_True by (apply elem_of_app; by left); done|].
    rewrite decide_False; [done|]. rewrite elem_of_app, list_elem_of_singleton. naive_solver.
Qed.
Lemma length_omap_le {A B} (f : A -> option B) l : (length (omap f l) <= length l)%nat.
Proof. induction l as [|x l IH]; [done|]. cbn [omap list_omap]. destruct (f x); cbn [length]; lia. Qed.
Lemma omap_snoc {A B} (f : A -> option B) l x : omap f (l ++ [x]) = omap f l ++ match f x with Some y => [y] | None => [] end.
Proof. by rewrite omap_app. Qed.
Ltac snoc := unfold as_reqs, fdb_ops, as_req_obs, ldap_obs, lags, rids, ages in *; rewrite !omap_snoc; cbn beta iota; rewrite ?app_nil_r.
Lemma last_write {K} `{!EqDecision K, !Countable K} (g : gmap K f64) (k : K) (v : f64) (l : K -> list f64) :
  (forall k', g !! k' = last (l k')) -> forall k', <[k := v]> g !! k' = last (l k' ++ match (if bool_decide (k = k') then Some v else None) with Some y => [y] | None => [] end).
Proof.
  intros Hg k'. case_bool_decide as E; [subst; by rewrite lookup_insert_eq, last_snoc|]. by rewrite lookup_insert_ne, app_nil_r.
Qed.
Lemma step_ok m ops o : holds m ops -> Z.of_nat (length ops) < 2 ^ 64 - 1 -> exists m', apply_op m o = Ok m' /\ holds m' (ops ++ [o]).
Proof.
  intros [H1 H2 H3 H4 H5 H6 H7] Hl.
  assert (forall {B} (f : MetricOp -> option B), Z.of_nat (length (omap f ops)) < 2 ^ 64 - 1) as Hlen by (intros B f; pose proof (length_omap_le f ops); lia).
  destruct o as [r e|v|s v|t|sd td v|sid v|v]; cbn [apply_op].
  - destruct (counter_snoc _ _ (r, e) H1 (Hlen _ _)) as (n & E & Hk). unfold inc_as_req. rewrite E. eexists. split; [reflexivity|].
    split; intros; snoc; cbn; (apply Hk || apply H2 || apply H3 || apply H4 || apply H5 || apply H6 || apply H7).
  - destruct (observe_ok v _ _ (Hlen _ _) H2) as (h & E & Hh). unfold observe_as_req_duration. rewrite E. eexists. split; [reflexivity|].
    split; intros; snoc; cbn; (apply H1 || apply Hh || apply H3 || apply H4 || apply H5 || apply H6 || apply H7).
  - assert (holds_histogram (default HistogramState_default (ldap_query_duration_seconds m !! s)) (ldap_obs s ops)) as Hd.
    { specialize (H3 s). destruct (_ !! s); [apply H3|]. rewrite H3. exact empty_histogram. }
    destruct (observe_ok v _ _ (Hlen _ _) Hd) as (h & E & Hh). unfold observe_ldap_query_duration. rewrite E. eexists. split; [reflexivity|].
    split; intros; snoc; cbn; try (apply H1 || apply H2 || apply H4 || apply H5 || apply H6 || apply H7).
    destruct (decide (s = s0)) as [<-|Hne].
    + rewrite lookup_insert_eq, bool_decide_true by done. split; [intros E2; by apply app_nil in E2 as [_ ?]|exact Hh].
    + rewrite lookup_insert_ne, bool_decide_false by done. rewrite app_nil_r. apply H3.
  - destruct (counter_snoc _ _ t H4 (Hlen _ _)) as (n & E & Hk). unfold inc_fdb_operation. rewrite E. eexists. split; [reflexivity|].
    split; intros; snoc; cbn; (apply Hk || apply H1 || apply H2 || apply H3 || apply H5 || apply H6 || apply H7).
  - eexists. split; [reflexivity|]. split; intros; snoc; cbn; try (apply H1 || apply H2 || apply H3 || apply H4 || apply H6 || apply H7).
    by apply (last_write _ (sd, td) v (fun k => lags k ops)).
  - eexists. split; [reflexivity|]. split; intros; snoc; cbn; try (apply H1 || apply H2 || apply H3 || apply H4 || apply H5 || apply H7).
    by apply (last_write _ sid v (fun s => rids s ops)).
  - eexists. split; [reflexivity|]. split; intros; snoc; cbn; try (apply H1 || apply H2 || apply H3 || apply H4 || apply H5 || apply H6). by rewrite last_snoc.
Qed.
Lemma run_holds ops : Z.of_nat (length ops) < 2 ^ 64 -> exists m, run_ops MetricsRegistry_new ops = Ok m /\ holds m ops.
Proof.
  enough (forall pre m, holds m pre -> Z.of_nat (length (pre ++ ops)) < 2 ^ 64 -> exists m', run_ops m ops = Ok m' /\ holds m' (pre ++ ops)) as H.
  { intros Hl. apply (H [] MetricsRegistry_new holds_new Hl). }
  induction ops as [|o ops IH]; intros pre m Hm Hl; cbn [run_ops]; [exists m; by rewrite app_nil_r|].
  rewrite length_app in Hl. cbn [length] in Hl. destruct (step_ok m pre o Hm ltac:(lia)) as (m1 & -> & Hm1). cbn [rbind].
  destruct (IH (pre ++ [o]) m1 Hm1) as (m' & -> & Hm'); [rewrite !length_app; cbn [length]; lia|]. exists m'. split; [done|]. by rewrite <-app_assoc in Hm'.
Qed.

(** ** The exposition *)

(** The samples a scrape shows, from the operations. *)
Inductive expected (ops : list MetricOp) : bytes -> Prop :=
| ex_as_req k : k ∈ as_reqs ops -> expected ops (as_req_sample (k, count k (as_reqs ops)))
| ex_as_req_obs l : l ∈ histogram_lines (lit "adrian_as_req_duration_seconds") [] (as_req_obs ops) -> expected ops l
| ex_ldap scope l : ldap_obs scope ops <> [] ->
    l ∈ histogram_lines (lit "adrian_ldap_query_duration_seconds") [("scope"%string, scope)] (ldap_obs scope ops) -> expected ops l
| ex_fdb t : t ∈ fdb_ops ops -> expected ops (fdb_sample (t, count t (fdb_ops ops)))
| ex_lag k v : last (lags k ops) = Some v -> expected ops (lag_sample (k, v))
| ex_rid sid v : last (rids sid ops) = Some v -> expected ops (rid_sample (sid, v))
| ex_age : expected ops (lit "adrian_krbtgt_key_age_seconds " ++ f64_print (default f64_zero (last (ages ops)))).
(** The lines of a text that are not comments. *)
Definition is_sample (l : bytes) : bool := match l with [] => false | b :: _ => negb (bool_decide (b = x23)) end.
Definition samples (text : bytes) : list bytes := filter (fun l => is_sample l = true) (text_lines text).
Definition op_clean (o : MetricOp) : Prop :=
  match o with
  | IncAsReq r e => (x0a ∉ r) /\ (x0a ∉ e)
  | ObserveLdap s _ => x0a ∉ s
  | IncFdb t => x0a ∉ t
  | SetLag s t _ => (x0a ∉ s) /\ (x0a ∉ t)
  | SetRid s _ => x0a ∉ s
  | ObserveAsReq _ | SetAge _ => True
  end.

Definition heads (name help ty : string) : list bytes := [lit "# HELP " ++ lit name ++ lit " " ++ lit help; lit "# TYPE " ++ lit name ++ lit " " ++ lit ty].
Definition ldap_lines (ops : list MetricOp) (e : bytes * HistogramState) : list bytes :=
  histogram_lines (lit "adrian_ldap_query_duration_seconds") [("scope"%string, e.1)] (ldap_obs e.1 ops).
Definition all_lines (m : MetricsInner) (ops : list MetricOp) : list bytes :=
  heads "adrian_as_req_total" "Total Kerberos AS-REQs received." "counter" ++ map as_req_sample (pair_entries (as_req_total m))
  ++ heads "adrian_as_req_duration_seconds" "Latency of Kerberos AS-REQ handling." "histogram" ++ histogram_lines (lit "adrian_as_req_duration_seconds") [] (as_req_obs ops)
  ++ heads "adrian_ldap_query_duration_seconds" "Latency of LDAP query handling." "histogram" ++ concat (map (ldap_lines ops) (btree_iter (ldap_query_duration_seconds m)))
  ++ heads "adrian_fdb_operations_total" "Total FoundationDB operations." "counter" ++ map fdb_sample (btree_iter (fdb_operations_total m))
  ++ heads "adrian_replication_lag_seconds" "Replication lag between DCs (seconds)." "gauge" ++ map lag_sample (pair_entries (replication_lag_seconds m))
  ++ heads "adrian_rid_pool_remaining" "Remaining RIDs in the pool (per domain SID)." "gauge" ++ map rid_sample (btree_iter (rid_pool_remaining m))
  ++ heads "adrian_krbtgt_key_age_seconds" "Age of the krbtgt account key (seconds)." "gauge"
  ++ [lit "adrian_krbtgt_key_age_seconds " ++ f64_print (krbtgt_key_age_seconds m)].

Lemma elem_of_iter {V} (g : gmap bytes V) e : e ∈ btree_iter g <-> g !! e.1 = Some e.2.
Proof. unfold btree_iter. rewrite merge_sort_Permutation. destruct e as [k v]. apply elem_of_map_to_list. Qed.
Lemma elem_of_pairs {V} (g : gmap (bytes * bytes) V) e : e ∈ pair_entries g <-> g !! e.1 = Some e.2.
Proof. unfold pair_entries. rewrite merge_sort_Permutation. destruct e as [k v]. apply elem_of_map_to_list. Qed.
Lemma concat_lines {A} (f : A -> list bytes) l : concat (map (fun x => concat (map text_line (f x))) l) = concat (map text_line (concat (map f l))).
Proof. induction l as [|x l IH]; [done|]. cbn [map concat]. by rewrite map_app, concat_app, IH. Qed.
Lemma sample_lines_eq {A} (f : A -> bytes) l : sample_lines f l = concat (map text_line (map f l)).
Proof. unfold sample_lines. by rewrite map_map. Qed.
Lemma metric_head_eq name help ty : metric_head name help ty = concat (map text_line (heads name help ty)).
Proof. unfold metric_head, heads. cbn [map concat]. by rewrite app_nil_r. Qed.
Lemma render_ok m ops : bounds_increase -> holds m ops -> Z.of_nat (length ops) < 2 ^ 64 -> render_prometheus m = Ok (concat (map text_line (all_lines m ops))).
Proof.
  intros Hm [H1 H2 H3 H4 H5 H6 H7] Hl.
  assert (forall {B} (f : MetricOp -> option B), Z.of_nat (length (omap f ops)) < 2 ^ 64) as Hlen by (intros B f; pose proof (length_omap_le f ops); lia).
  unfold render_prometheus. rewrite (render_histogram_ok _ _ _ (as_req_obs ops) Hm H2 (Hlen _ _)). cbn [rbind].
  rewrite (rmap_Ok _ (fun e => concat (map text_line (ldap_lines ops e)))).
  - cbn [rbind]. f_equal. unfold all_lines. rewrite !map_app, !concat_app, <-!metric_head_eq, <-!sample_lines_eq, <-concat_lines. cbn [map concat]. by rewrite app_nil_r.
  - intros [s h] He%elem_of_iter. specialize (H3 s). cbn in He. rewrite He in H3. unfold ldap_histogram, ldap_lines. apply render_histogram_ok; [done|apply H3|apply Hlen].
Qed.
Definition comments : list bytes :=
  heads "adrian_as_req_total" "Total Kerberos AS-REQs received." "counter"
  ++ heads "adrian_as_req_duration_seconds" "Latency of Kerberos AS-REQ handling." "histogram"
  ++ heads "adrian_ldap_query_duration_seconds" "Latency of LDAP query handling." "histogram"
  ++ heads "adrian_fdb_operations_total" "Total FoundationDB operations." "counter"
  ++ heads "adrian_replication_lag_seconds" "Replication lag between DCs (seconds)." "gauge"
  ++ heads "adrian_rid_pool_remaining" "Remaining RIDs in the pool (per domain SID)." "gauge"
  ++ heads "adrian_krbtgt_key_age_seconds" "Age of the krbtgt account key (seconds)." "gauge".
Lemma comments_ok : Forall (fun l => (x0a ∉ l) /\ is_sample l = false) comments.
Proof. apply (bool_decide_unpack _). vm_compute. exact I. Qed.
Lemma all_lines_iff m ops l : holds m ops -> (l ∈ all_lines m ops <-> l ∈ comments \/ expected ops l).
Proof.
  intros [H1 H2 H3 H4 H5 H6 H7]. unfold all_lines, comments. rewrite !elem_of_app. split.
  - intros [H|[H|[H|[H|[H|[H|[H|[H|[H|[H|[H|[H|[H|H]]]]]]]]]]]]]; try (left; tauto); right.
    + apply list_elem_of_fmap in H as ([k n] & -> & He%elem_of_pairs). cbn in He. rewrite H1 in He. destruct (decide _); [|done]. injection He as <-. by constructor.
    + by apply ex_as_req_obs.
    + apply list_elem_of_In, in_concat in H as (ls & Hls & Hl). apply in_map_iff in Hls as ([s h] & <- & He%list_elem_of_In%elem_of_iter).
      cbn in He. specialize (H3 s). rewrite He in H3. apply (ex_ldap _ s); [apply H3|by apply list_elem_of_In].
    + apply list_elem_of_fmap in H as ([k n] & -> & He%elem_of_iter). cbn in He. rewrite H4 in He. destruct (decide _); [|done]. injection He as <-. by constructor.
    + apply list_elem_of_fmap in H as ([k v] & -> & He%elem_of_pairs). cbn in He. rewrite H5 in He. by constructor.
    + apply list_elem_of_fmap in H as ([k v] & -> & He%elem_of_iter). cbn in He. rewrite H6 in He. by constructor.
    + apply list_elem_of_singleton in H as ->. rewrite H7. apply ex_age.
  - intros [H|[k Hk|l' Hl|s l' Hne Hl|t Ht|k v Hv|s v Hv|]]; [tauto|..].
    + right. left. apply list_elem_of_fmap. exists (k, count k (as_reqs ops)). split; [done|]. apply elem_of_pairs. cbn. by rewrite H1, decide_True.
    + do 3 right. by left.
    + do 5 right. left. specialize (H3 s). destruct (ldap_query_duration_seconds m !! s) as [h|] eqn:E; [|done].
      apply list_elem_of_In, in_concat. exists (ldap_lines ops (s, h)). split; [|by apply list_elem_of_In]. apply in_map_iff. exists (s, h). split; [done|].
      apply list_elem_of_In, elem_of_iter. done.
    + do 7 right. left. apply list_elem_of_fmap. exists (t, count t (fdb_ops ops)). split; [done|]. apply elem_of_iter. cbn. by rewrite H4, decide_True.
    + do 9 right. left. apply list_elem_of_fmap. exists (k, v). split; [done|]. apply elem_of_pairs. cbn. by rewrite H5.
    + do 11 right. left. apply list_elem_of_fmap. exists (s, v). split; [done|]. apply elem_of_iter. cbn. by rewrite H6.
    + do 13 right. apply list_elem_of_singleton. by rewrite H7.
Qed.

(** *** Lines without line feeds *)

Definition prints_clean : Prop := forall v, x0a ∉ f64_print v.
Lemma dec_clean n : 0 <= n -> x0a ∉ print_dec n.
Proof. intros Hn Hin. pose proof (print_radix_chars 10 ltac:(lia) n Hn) as H. rewrite Forall_forall in H. specialize (H x0a Hin). cbn in H. lia. Qed.
Lemma count_nonneg {A} `{!EqDecision A} (a : A) l : 0 <= count a l.
Proof. unfold count. lia. Qed.
Lemma label_clean name v : x0a ∉ lit name -> x0a ∉ v -> x0a ∉ label name v.
Proof. intros H1 H2. unfold label. rewrite !not_elem_of_app. split_and!; try done; by apply (bool_decide_unpack _). Qed.
Lemma braces_clean v : x0a ∉ v -> x0a ∉ braces v.
Proof. intros Hv. unfold braces. rewrite !not_elem_of_app. split_and!; try done; by apply (bool_decide_unpack _). Qed.
Ltac closed := apply (bool_decide_unpack _); vm_compute; exact I.
Ltac no_feed := repeat (rewrite not_elem_of_app); split_and?; try (apply braces_clean); repeat (rewrite not_elem_of_app); split_and?; try (apply label_clean); try done; try closed.
Definition sample_ok (l : bytes) : Prop := (x0a ∉ l) /\ is_sample l = true.
Lemma histogram_clean name labels obs : prints_clean -> x0a ∉ name -> is_sample name = true -> x0a ∉ prefix_of labels -> x0a ∉ join_labels labels ->
  Forall sample_ok (histogram_lines name labels obs).
Proof.
  intros Hp Hn Hs Hl Hj. unfold histogram_lines.
  assert (forall rest, x0a ∉ rest -> sample_ok (name ++ rest)) as Hok by (intros rest Hr; split; [rewrite not_elem_of_app; auto|by destruct name]).
  assert (x0a ∉ match labels with [] => [] | _ => braces (join_labels labels) end) as Hb by (destruct labels; [by apply not_elem_of_nil|by apply braces_clean]).
  apply Forall_app. split.
  - apply Forall_map, Forall_forall. intros b _. apply Hok. no_feed; (apply Hp || (apply dec_clean; unfold at_most; lia)).
  - repeat apply Forall_cons_2; [..|apply Forall_nil_2]; apply Hok; no_feed; (apply Hp || (apply dec_clean; lia)).
Qed.
Lemma expected_clean ops l : prints_clean -> Forall op_clean ops -> expected ops l -> sample_ok l.
Proof.
  intros Hp Hc.
  assert (forall {B} (f : MetricOp -> option B) (P : B -> Prop), (forall o b, op_clean o -> f o = Some b -> P b) -> Forall P (omap f ops)) as Hall.
  { intros B f P H. apply Forall_forall. intros b (o & Ho & E)%list_elem_of_omap. rewrite Forall_forall in Hc. eauto. }
  intros [[r e] Hk|l' Hl|s l' Hne Hl|t Ht|[sd td] v Hv|s v Hv|].
  - assert ((x0a ∉ r) /\ x0a ∉ e) as [Hr He].
    { pose proof (Hall _ (fun o => match o with IncAsReq r e => Some (r, e) | _ => None end) (fun k => (x0a ∉ k.1) /\ x0a ∉ k.2)) as H.
      rewrite Forall_forall in H. apply (H ltac:(by intros [] b Ho [= <-]) _ Hk). }
    split; [|reflexivity]. unfold as_req_sample. cbn [fst snd]. no_feed; apply dec_clean, count_nonneg.
  - pose proof (histogram_clean (lit "adrian_as_req_duration_seconds") [] (as_req_obs ops) Hp ltac:(closed) eq_refl ltac:(closed) ltac:(closed)) as H.
    rewrite Forall_forall in H. by apply H.
  - assert (x0a ∉ s) as Hs.
    { destruct (ldap_obs s ops) as [|v vs] eqn:E; [done|]. assert (v ∈ ldap_obs s ops) as Hin by (rewrite E; left). apply list_elem_of_omap in Hin as (o & Ho & Ev).
      rewrite Forall_forall in Hc. specialize (Hc o Ho). destruct o; try done. case_bool_decide; [by subst|done]. }
    assert (x0a ∉ join_labels [("scope"%string, s)]) as Hj by (unfold join_labels; cbn [map join_with concat]; rewrite app_nil_r; apply label_clean; [closed|done]).
    assert (x0a ∉ prefix_of [("scope"%string, s)]) as Hx by (unfold prefix_of; rewrite not_elem_of_app; split; [done|closed]).
    pose proof (histogram_clean (lit "adrian_ldap_query_duration_seconds") [("scope"%string, s)] (ldap_obs s ops) Hp ltac:(closed) eq_refl Hx Hj) as H.
    rewrite Forall_forall in H. by apply H.
  - assert (x0a ∉ t) as Ht'.
    { pose proof (Hall _ (fun o => match o with IncFdb t => Some t | _ => None end) (fun k => x0a ∉ k)) as H.
      rewrite Forall_forall in H. apply (H ltac:(by intros [] b Ho [= <-]) _ Ht). }
    split; [|reflexivity]. unfold fdb_sample. cbn [fst snd]. no_feed; apply dec_clean, count_nonneg.
  - assert ((x0a ∉ sd) /\ x0a ∉ td) as [Hr He].
    { apply last_Some_elem_of in Hv. apply list_elem_of_omap in Hv as (o & Ho & Ev). rewrite Forall_forall in Hc. specialize (Hc o Ho). destruct o; try done.
      case_bool_decide as E; [|done]. by injection E as -> ->. }
    split; [|reflexivity]. unfold lag_sample. cbn [fst snd]. no_feed; apply Hp.
  - assert (x0a ∉ s) as Hs.
    { apply last_Some_elem_of in Hv. apply list_elem_of_omap in Hv as (o & Ho & Ev). rewrite Forall_forall in Hc. specialize (Hc o Ho). destruct o; try done.
      case_bool_decide as E; [|done]. by subst. }
    split; [|reflexivity]. unfold rid_sample. cbn [fst snd]. no_feed; apply Hp.
  - split; [|reflexivity]. no_feed; apply Hp.
Qed.
Lemma lines_clean m ops : holds m ops -> prints_clean -> Forall op_clean ops -> Forall (fun l => x0a ∉ l) (all_lines m ops).
Proof.
  intros Hh Hp Hc. apply Forall_forall. intros l [Hl|Hl]%(all_lines_iff m ops l Hh); [|apply (expected_clean ops l Hp Hc Hl)].
  pose proof comments_ok as H. rewrite Forall_forall in H. by apply H.
Qed.
Lemma render_samples m ops l : holds m ops -> prints_clean -> Forall op_clean ops -> l ∈ samples (concat (map text_line (all_lines m ops))) <-> expected ops l.
Proof.
  intros Hh Hp Hc. unfold samples. rewrite text_lines_of by (by apply lines_clean). rewrite list_elem_of_filter, elem_of_app, (all_lines_iff m ops l Hh), list_elem_of_singleton.
  split.
  - intros [Hs [[Hl|Hl]| ->]]; [|done|done]. pose proof comments_ok as H. rewrite Forall_forall in H. destruct (H l Hl). congruence.
  - intros Hl. split; [apply (expected_clean ops l Hp Hc Hl)|auto].
Qed.
End Spec.

(** C15: A scrape after any run of operations on a new registry, whose labels have no
    line feed: no operation and no rendering panics, and the samples shown are exactly
    those [expected]: for each realm and etype, and each kind of storage operation, the
    number of times it was counted; for each histogram and each bound the number of
    observations at most the bound, their number and their sum; for each gauge the last
    value set. *)
Theorem monitor_scrape {FL : Float64} (ops : list MetricOp) :
  bounds_increase -> prints_clean -> Forall op_clean ops -> Z.of_nat (length ops) < 2 ^ 64 ->
  exists m text, run_ops MetricsRegistry_new ops = Ok m /\ get_metrics (mkMonitorService m (LogAuditSink [])) = Ok (Some (lit "text/plain; version=0.0.4; charset=utf-8"), text)
    /\ forall l, l ∈ samples text <-> expected ops l.
Proof.
  intros Hm Hp Hc Hl. destruct (run_holds ops Hl) as (m & Hr & Hh). exists m, (concat (map text_line (all_lines m ops))). split; [done|]. split.
  - unfold get_metrics. cbn [ms_metrics]. by rewrite (render_ok m ops).
  - intros l. by apply render_samples.
Qed.

(** Numbers of thousandths in place of [f64]. *)
Definition sample_bound (s : string) : Z :=
  if bool_decide (s = "0.001"%string) then 1 else if bool_decide (s = "0.005"%string) then 5 else if bool_decide (s = "0.01"%string) then 10
  else if bool_decide (s = "0.05"%string) then 50 else if bool_decide (s = "0.1"%string) then 100 else if bool_decide (s = "0.5"%string) then 500
  else if bool_decide (s = "1.0"%string) then 1000 else 5000.
#[local] Instance sample_float : Float64 := {
  f64 := Z; f64_le := Z.leb; f64_add := Z.add; f64_zero := 0; f64_lit := sample_bound; f64_print := fun z => print_dec (Z.abs z);
}.
Lemma monitor_scrape_witness :
  let ops := [IncAsReq (lit "ADRIAN.DEV") (lit "18"); ObserveAsReq (7 : Z); IncAsReq (lit "ADRIAN.DEV") (lit "18"); ObserveAsReq (400 : Z)] in
  Z.of_nat (length ops) < 2 ^ 64
  /\ exists m text, run_ops MetricsRegistry_new ops = Ok m /\ get_metrics (mkMonitorService m (LogAuditSink [])) = Ok (Some (lit "text/plain; version=0.0.4; charset=utf-8"), text)
     /\ forall l, l ∈ samples text <-> expected ops l.
Proof.
  intros ops. split; [vm_compute; reflexivity|]. apply (monitor_scrape ops).
  - intros v i j bi bj Hij Hi Hj. cbn [f64_le sample_float]. rewrite !Z.leb_le. intros Hv.
    assert (bi <= bj); [|lia].
    do 8 (destruct i as [|i]; [do 8 (destruct j as [|j]; [first [lia | (cbv in Hi, Hj; injection Hi as <-; injection Hj as <-; lia)]|]); cbv in Hj; by destruct j|]).
    cbv in Hi. by destruct i.
  - intros v. apply dec_clean. cbn. lia.
  - repeat constructor; cbn; apply (bool_decide_unpack _); vm_compute; exact I.
  - vm_compute. reflexivity.
Defined.
