(* ===== verification/Sdk.v ===== *)
(** * Sdk: the unified client library ([adrian-sdk])

    The modules are the trait objects of the library, each a record of its
    operations over the [World] of the KDC; the Kerberos module drives the KDC's own
    handler in process.  The other modules answer errors that name the missing
    backend.  Error messages are constructors with the values they interpolate.  The second part shows what
    it can authenticate. *)
From S2P Require Import Prelude Bytes Text Utf16 StorageKeys KdcCrypto Kdc KdcWire KdcWireProofs KdcHandlers KdcSpec.

Inductive AuthProblem :=
| AuthNotSet
| KdcNotConfigured (principal : bytes)
| InvalidPrincipal (principal : bytes)
| AsReqFailed (principal : bytes) (e : KdcError)
| AsRepUndecodable (principal : bytes) (e : DecodeError)
| NtlmNotWired (principal : bytes)
| CertAuthNotWired
| OAuth2NotWired.
Inductive DirectoryProblem := DirectoryNotSet | SearchNotWired (filter : bytes) | GetNotWired (dn : bytes) | ModifyNotWired (dn : bytes).
Inductive PolicyProblem := PolicyNotSet | ApplyNotWired (name version : bytes) | RollbackNotWired (name version : bytes).
Inductive FileProblem := FileNotSet | MountNotWired (server share : bytes).
Inductive CertProblem := CertNotSet | EnrollNotWired (profile subject : bytes).
Inductive SdkError :=
| Auth (p : AuthProblem)
| Directory (p : DirectoryProblem)
| File (p : FileProblem)
| SdkPolicy (p : PolicyProblem)
| Cert (p : CertProblem)
| NotJoined.

(** ** Data types *)

Inductive AuthTokenKind := TokenKerberos | TokenNtlm | TokenCert | TokenOAuth2.
Record AuthToken := mkAuthToken { at_principal : bytes; at_expiry : option Z; at_kind : AuthTokenKind }.
Record DirEntry := mkDirEntry { de_dn : bytes; de_attributes : list (bytes * bytes) }.
Inductive ModifyOp := OpAdd | OpReplace | OpDelete.
Record ModifyEntry := mkModifyEntry { me_attribute : bytes; me_operation : ModifyOp; me_values : list bytes }.
Record DeclarativePolicy := mkDeclarativePolicy { sp_name : bytes; sp_version : bytes; sp_settings : list (bytes * bytes) }.
Record AppliedPolicy := mkAppliedPolicy { sa_name : bytes; sa_version : bytes; applied_at : option Z; rollback_token : bytes }.
Record MountedShare := mkMountedShare { ms_server : bytes; ms_share : bytes; mount_path : bytes }.
Record CertEnrollRequest := mkCertEnrollRequest { ce_profile : bytes; ce_csr : bytes; ce_subject : bytes }.

(** ** The module traits *)

Definition Call (A : Type) : Type := World -> Result SdkError A * World.
(** A call that only answers. *)
Definition answer {A} (r : Result SdkError A) : Call A := fun w => (r, w).
Record AuthModule := mkAuthModule {
  authenticate_kerberos : bytes -> bytes -> Call AuthToken;
  authenticate_ntlm : bytes -> bytes -> Call AuthToken;
  authenticate_cert : bytes -> bytes -> Call AuthToken;
  authenticate_oauth2 : bytes -> Call AuthToken;
}.
Record DirectoryModule := mkDirectoryModule {
  dir_search : bytes -> Call (list DirEntry);
  dir_get_by_dn : bytes -> Call DirEntry;
  dir_modify : bytes -> list ModifyEntry -> Call unit;
}.
Record PolicyModule := mkPolicyModule { policy_apply : DeclarativePolicy -> Call AppliedPolicy; policy_rollback : AppliedPolicy -> Call unit }.
Record FileModule := mkFileModule { mount_share : bytes -> bytes -> AuthToken -> Call MountedShare }.
Record CertModule := mkCertModule { enroll : CertEnrollRequest -> Call bytes }.

(** ** The framework's modules *)

Definition parse_kerberos_principal (principal : bytes) : option (bytes * list bytes) :=
  pos ← rfind x40 principal;
  let name := take pos principal in
  let realm := drop (S pos) principal in
  if (length name =? 0)%nat || (length realm =? 0)%nat then None
  else if contains_byte name x2f then None
  else Some (to_ascii_uppercase realm, [name]).

Record KdcBackend := mkKdcBackend { kb_store : PrincipalStore; kb_krbtgt_key : Aes256Key }.
Record KerberosAuthModule := mkKerberosAuthModule { ka_kdc : option KdcBackend }.
Definition KerberosAuthModule_new : KerberosAuthModule := mkKerberosAuthModule None.
Definition with_kdc (store : PrincipalStore) (krbtgt_key : Aes256Key) : KerberosAuthModule := mkKerberosAuthModule (Some (mkKdcBackend store krbtgt_key)).
Definition is_kdc_wired (m : KerberosAuthModule) : bool := bool_decide (is_Some (ka_kdc m)).

Section Modules.
Context (encrypt_block decrypt_block : Aes256Key -> bytes -> bytes) (hmac_sha1 : bytes -> bytes -> bytes).
Context {RK : Rasn}.

Definition kinit_request (realm : bytes) (cname : list bytes) (till : Z) : AsReq :=
  mkAsReq PVNO MSG_TYPE_AS_REQ realm cname 1 [Aes256CtsHmacSha1_96] [] till.
(** The exchange itself, its errors those of the KDC. *)
Definition kdc_exchange (kdc : KdcBackend) (realm : bytes) (cname : list bytes) : K bytes :=
  let* now := now_secs in
  let* till := kret (i64_add now 3600) in
  handle_as_req encrypt_block decrypt_block hmac_sha1 (PS := kb_store kdc) (kb_krbtgt_key kdc) (encode_as_req (kinit_request realm cname till)).
Definition kerberos_token (principal rep_bytes : bytes) : Result SdkError AuthToken :=
  let? rep := map_err (fun e => Auth (AsRepUndecodable principal e)) (decode_as_rep rep_bytes) in
  Ok (mkAuthToken (join_with x2f (rep_cname rep)) (Some (tkt_kvno (rep_ticket rep))) TokenKerberos).
Definition kerberos_authenticate (m : KerberosAuthModule) (principal password : bytes) : Call AuthToken :=
  fun w =>
    match ka_kdc m with
    | None => (Err (Auth (KdcNotConfigured principal)), w)
    | Some kdc =>
        match parse_kerberos_principal principal with
        | None => (Err (Auth (InvalidPrincipal principal)), w)
        | Some (realm, cname) =>
            let '(r, w) := kdc_exchange kdc realm cname w in
            ((let? rep_bytes := map_err (fun e => Auth (AsReqFailed principal e)) r in kerberos_token principal rep_bytes), w)
        end
    end.
Definition KerberosAuthModule_ops (m : KerberosAuthModule) : AuthModule :=
  mkAuthModule (kerberos_authenticate m)
    (fun principal _ => answer (Err (Auth (NtlmNotWired principal))))
    (fun _ _ => answer (Err (Auth CertAuthNotWired)))
    (fun _ => answer (Err (Auth OAuth2NotWired))).
Definition LdapDirectoryModule_new : DirectoryModule :=
  mkDirectoryModule (fun filter => answer (Err (Directory (SearchNotWired filter))))
    (fun dn => answer (Err (Directory (GetNotWired dn))))
    (fun dn _ => answer (Err (Directory (ModifyNotWired dn)))).
Definition DeclarativePolicyModule_new : PolicyModule :=
  mkPolicyModule (fun p => answer (Err (SdkPolicy (ApplyNotWired (sp_name p) (sp_version p)))))
    (fun a => answer (Err (SdkPolicy (RollbackNotWired (sa_name a) (sa_version a))))).
Definition SmbFileModule_new : FileModule := mkFileModule (fun server share _ => answer (Err (File (MountNotWired server share)))).
Definition AcmeCertModule_new : CertModule := mkCertModule (fun request => answer (Err (Cert (EnrollNotWired (ce_profile request) (ce_subject request))))).

(** ** The library and its builder *)

Record AdrianSdk := mkAdrianSdk { sdk_auth : AuthModule; sdk_directory : DirectoryModule; sdk_policy : PolicyModule; sdk_file : FileModule; sdk_cert : CertModule }.
Record SdkBuilder := mkSdkBuilder {
  b_auth : option AuthModule;
  b_directory : option DirectoryModule;
  b_policy : option PolicyModule;
  b_file : option FileModule;
  b_cert : option CertModule;
}.
Definition SdkBuilder_new : SdkBuilder := mkSdkBuilder None None None None None.
Definition with_defaults : SdkBuilder :=
  mkSdkBuilder (Some (KerberosAuthModule_ops KerberosAuthModule_new)) (Some LdapDirectoryModule_new) (Some DeclarativePolicyModule_new)
    (Some SmbFileModule_new) (Some AcmeCertModule_new).
Definition set_auth (b : SdkBuilder) m := mkSdkBuilder (Some m) (b_directory b) (b_policy b) (b_file b) (b_cert b).
Definition set_directory (b : SdkBuilder) m := mkSdkBuilder (b_auth b) (Some m) (b_policy b) (b_file b) (b_cert b).
Definition set_policy_module (b : SdkBuilder) m := mkSdkBuilder (b_auth b) (b_directory b) (Some m) (b_file b) (b_cert b).
Definition set_file (b : SdkBuilder) m := mkSdkBuilder (b_auth b) (b_directory b) (b_policy b) (Some m) (b_cert b).
Definition set_cert (b : SdkBuilder) m := mkSdkBuilder (b_auth b) (b_directory b) (b_policy b) (b_file b) (Some m).
Definition sdk_build (b : SdkBuilder) : Result SdkError AdrianSdk :=
  let? auth := ok_or (b_auth b) (Auth AuthNotSet) in
  let? directory := ok_or (b_directory b) (Directory DirectoryNotSet) in
  let? policy := ok_or (b_policy b) (SdkPolicy PolicyNotSet) in
  let? file := ok_or (b_file b) (File FileNotSet) in
  let? cert := ok_or (b_cert b) (Cert CertNotSet) in
  Ok (mkAdrianSdk auth directory policy file cert).
(** [expect] on an error panics. *)
Definition with_default_stubs : Result Empty_set AdrianSdk := match sdk_build with_defaults with Ok s => Ok s | _ => Panic end.

(** The older client. *)
Definition AdrianClient_join (domain : bytes) : Result SdkError unit := Err NotJoined.
End Modules.

Section Sdk.
Context (E D : Aes256Key -> bytes -> bytes) (hmac_sha1 : bytes -> bytes -> bytes).
Context {RK : Rasn} {RL : RasnLaws}.

(** ** Principals *)

(** [name@REALM], split at the last [@], neither part empty and the name without [/]. *)
Definition kinit_form (principal name realm : bytes) : Prop :=
  principal = name ++ [x40] ++ realm /\ (x40 ∉ realm) /\ name <> [] /\ realm <> [] /\ x2f ∉ name.
Lemma kinit_parse principal name realm : kinit_form principal name realm -> parse_kerberos_principal principal = Some (to_ascii_uppercase realm, [name]).
Proof.
  intros (-> & Hr & Hn & Hr0 & Hs). unfold parse_kerberos_principal. cbn [app]. rewrite rfind_app by done. cbn [mbind option_bind].
  rewrite take_app_length, drop_app_ge by lia. replace (S (length name) - length name)%nat with 1%nat by lia. cbn [drop].
  unfold contains_byte. rewrite (bool_decide_false _ Hs). by destruct name, realm.
Qed.
Lemma parse_kinit principal : match parse_kerberos_principal principal with
                              | Some (realm', cname) => exists name realm, kinit_form principal name realm /\ realm' = to_ascii_uppercase realm /\ cname = [name]
                              | None => forall name realm, ~ kinit_form principal name realm
                              end.
Proof.
  destruct (parse_kerberos_principal principal) as [[realm' cname]|] eqn:Hp.
  - unfold parse_kerberos_principal in Hp. pose proof (rfind_split x40 principal) as Hf. destruct (rfind x40 principal) as [i|]; [|done].
    destruct Hf as (name & realm & -> & Hr & <-). cbn [mbind option_bind] in Hp.
    rewrite take_app_length, drop_app_ge in Hp by lia. replace (S (length name) - length name)%nat with 1%nat in Hp by lia. cbn [drop] in Hp.
    exists name, realm. destruct name as [|b name]; [done|]. destruct realm as [|c realm]; [done|]. cbn [length Nat.eqb orb] in Hp.
    unfold contains_byte in Hp. case_bool_decide as Hs; [done|]. injection Hp as <- <-. by repeat split.
  - intros name realm Hk. by rewrite (kinit_parse _ _ _ Hk) in Hp.
Qed.

Lemma utf8_upper s : utf8_valid s = true -> utf8_valid (to_ascii_uppercase s) = true.
Proof.
  apply utf8_map_ascii; intros b Hb; unfold ascii_upper; destruct ((97 <=? b2z b) && (b2z b <=? 122)) eqn:Hc; try done.
  - rewrite b2z_z2b_small by (pose proof (b2z_range b); lia). lia.
  - lia.
Qed.
Lemma kinit_valid principal name realm : utf8_valid principal = true -> kinit_form principal name realm ->
  utf8_valid name = true /\ utf8_valid (to_ascii_uppercase realm) = true.
Proof. intros H (-> & _). destruct (utf8_split_ascii name x40 realm) as [Hn Hr]; [done..|]. split; [done|]. by apply utf8_upper. Qed.

(** *** On the wire

    A text the library has no [GeneralString] for is sent as an empty one; a name
    with such a component is sent without components. *)
Definition wire_name (cname : list bytes) : list bytes := if forallb general_string_ok cname then cname else [].
Lemma general_string_text s : utf8_valid s = true -> text_ok (general_string s).
Proof using RL. intros Hs. unfold general_string. destruct (general_string_ok s) eqn:Es; [by split|]. split; [done|]. by apply general_string_ascii. Qed.
Lemma wire_name_text cname : Forall (fun s => utf8_valid s = true) cname -> Forall text_ok (wire_name cname).
Proof.
  intros H. unfold wire_name. destruct (forallb _ _) eqn:Ef; [|constructor]. apply Forall_forall. intros s Hs.
  split; [by apply (proj1 (Forall_forall _ _) H)|]. rewrite forallb_forall in Ef. by apply Ef, list_elem_of_In.
Qed.
Lemma wire_request realm cname till : encode_as_req (kinit_request realm cname till) = encode_as_req (kinit_request (general_string realm) (wire_name cname) till).
Proof using RL.
  unfold encode_as_req. cbn [kinit_request ar_pvno ar_msg_type ar_padata ar_cname ar_realm ar_till ar_nonce ar_etypes].
  assert (general_string (general_string realm) = general_string realm) as ->.
  { unfold general_string. destruct (general_string_ok realm) eqn:Er; [by rewrite Er|]. by rewrite general_string_ascii by constructor. }
  unfold to_principal_name, wire_name. destruct (forallb general_string_ok cname) eqn:Ef; [by rewrite Ef|done].
Qed.

(** ** The exchange *)

(** What the KDC answers a request without pre-authentication data, and what the
    module makes of it. *)
Definition refusal {PS : PrincipalStore} (realm : bytes) (cname : list bytes) : Result KdcError bytes :=
  match lookup_principal realm cname with
  | Ok (Some _) => Err PreauthRequired
  | Ok None => Err (PrincipalNotFound realm (join_with x2f cname))
  | Err e => Err (Storage (PrincipalLookupFailed e))
  | Panic => Panic
  end.
Definition refused {PS : PrincipalStore} (principal realm : bytes) (cname : list bytes) : Result SdkError AuthToken :=
  match lookup_principal realm cname with
  | Ok (Some _) => Err (Auth (AsReqFailed principal PreauthRequired))
  | Ok None => Err (Auth (AsReqFailed principal (PrincipalNotFound realm (join_with x2f cname))))
  | Err e => Err (Auth (AsReqFailed principal (Storage (PrincipalLookupFailed e))))
  | Panic => Panic
  end.
Definition after_tick (w : World) : World := mkWorld (clock w) (S (ticks w)) (entropy w) (draws w) (metric_calls w).
Lemma kinit_request_ok realm cname till : text_ok realm -> Forall text_ok cname -> krb_time_ok till -> as_req_ok (kinit_request realm cname till).
Proof.
  intros Hr Hn Ht. split; cbn [kinit_request ar_pvno ar_msg_type ar_realm ar_cname ar_nonce ar_padata ar_till];
    [unfold is_uint, PVNO; lia|unfold is_uint, MSG_TYPE_AS_REQ; lia|done|done|unfold is_uint; lia|constructor|done].
Qed.
Lemma kdc_exchange_refused kdc realm cname w : utf8_valid realm = true -> Forall (fun s => utf8_valid s = true) cname -> krb_time_ok (clock w (ticks w) + 3600) ->
  kdc_exchange E D hmac_sha1 kdc realm cname w = (refusal (PS := kb_store kdc) (general_string realm) (wire_name cname), after_tick w).
Proof using RL.
  intros Hr Hn Ht. unfold kdc_exchange. erewrite kbind_Ok; [|reflexivity]. change (mkWorld _ _ _ _ _) with (after_tick w).
  erewrite kbind_ret; [|unfold i64_add; rewrite i64_checked_add_Some by (unfold krb_time_ok, is_i64 in *; lia); reflexivity].
  unfold handle_as_req, handle_as_req_with_metrics. rewrite wire_request.
  erewrite kbind_ret; [|unfold decoded; rewrite as_req_roundtrip by (apply kinit_request_ok; [by apply general_string_text|by apply wire_name_text|done]); reflexivity].
  erewrite kbind_ret; [|reflexivity]. erewrite kbind_Ok; [|reflexivity]. cbn [kinit_request ar_realm ar_cname ar_padata find_pa_enc_timestamp].
  unfold refusal, kbind, kret. destruct (lookup_principal _ (wire_name cname)) as [[client|]|e|]; reflexivity.
Qed.

(** C30: The Kerberos module never authenticates anyone, and the password plays no
    part in its answer, for any text as principal and as long as the clock, an hour
    on, is between 1970 and the end of the year 9999.  Without a backend it says so;
    a principal that is not [name@REALM], split at its last [@], is refused; any other
    reaches the KDC through the wire form of a request that carries no
    pre-authentication data.  The wire form holds the upper-case realm and the name as
    they are when they are general strings, and nothing in their place when they are
    not.  The principal that arrives is looked up: one of the store is told that
    pre-authentication is required, an unknown one that it was not found, and a
    failing store's error is passed on.  One reading of the clock is all the exchange
    leaves behind. *)
Theorem sdk_authentication (m : KerberosAuthModule) (principal password : bytes) (w : World) :
  utf8_valid principal = true -> krb_time_ok (clock w (ticks w) + 3600) ->
  let run := authenticate_kerberos (KerberosAuthModule_ops E D hmac_sha1 m) principal password w in
  (ka_kdc m = None -> run = (Err (Auth (KdcNotConfigured principal)), w))
  /\ (forall kdc, ka_kdc m = Some kdc ->
       ((forall name realm, ~ kinit_form principal name realm) -> run = (Err (Auth (InvalidPrincipal principal)), w))
       /\ (forall name realm, kinit_form principal name realm ->
             run = (refused (PS := kb_store kdc) principal (general_string (to_ascii_uppercase realm)) (wire_name [name]), after_tick w)))
  /\ (forall token w', run <> (Ok token, w')).
Proof using RL.
  intros Ha Ht run. assert (forall kdc, ka_kdc m = Some kdc -> forall name realm, kinit_form principal name realm ->
    run = (refused (PS := kb_store kdc) principal (general_string (to_ascii_uppercase realm)) (wire_name [name]), after_tick w)) as Hgood.
  { intros kdc Hk name realm Hf. destruct (kinit_valid _ _ _ Ha Hf) as [Hn Hr]. unfold run. cbn [KerberosAuthModule_ops authenticate_kerberos]. unfold kerberos_authenticate.
    rewrite Hk, (kinit_parse _ _ _ Hf). rewrite kdc_exchange_refused by (done || by repeat constructor). f_equal. unfold refusal, refused. by destruct (lookup_principal _ _) as [[client|]|e|]. }
  assert (forall kdc, ka_kdc m = Some kdc -> (forall name realm, ~ kinit_form principal name realm) -> run = (Err (Auth (InvalidPrincipal principal)), w)) as Hbad.
  { intros kdc Hk Hf. pose proof (parse_kinit principal) as Hp. unfold run. cbn [KerberosAuthModule_ops authenticate_kerberos]. unfold kerberos_authenticate. rewrite Hk.
    destruct (parse_kerberos_principal principal) as [[realm cname]|]; [|done]. destruct Hp as (n & r & Hnr & _). by destruct (Hf n r). }
  assert (ka_kdc m = None -> run = (Err (Auth (KdcNotConfigured principal)), w)) as Hnone.
  { intros Hk. unfold run. cbn [KerberosAuthModule_ops authenticate_kerberos]. unfold kerberos_authenticate. by rewrite Hk. }
  split; [exact Hnone|]. split; [intros kdc Hk; split; [exact (Hbad kdc Hk)|exact (Hgood kdc Hk)]|].
  intros token w'. destruct (ka_kdc m) as [kdc|] eqn:Hk; [|by rewrite (Hnone eq_refl)].
  pose proof (parse_kinit principal) as Hp. destruct (parse_kerberos_principal principal) as [[realm' cname]|].
  - destruct Hp as (name & realm & Hf & _). rewrite (Hgood kdc eq_refl name realm Hf). unfold refused. by destruct (lookup_principal _ _) as [[client|]|e|].
  - by rewrite (Hbad kdc eq_refl Hp).
Qed.
End Sdk.

(** Alice's key and password are right, and she is told to pre-authenticate. *)
Lemma sdk_authentication_witness :
  authenticate_kerberos (@KerberosAuthModule_ops rotate_block rotate_block fold_mac sample_rasn (with_kdc (InMemoryPrincipalStore_store sample_store) (replicate 32 x0c)))
    (lit "alice@example.com") (lit "secret") (sample_world 1700000000)
  = (Err (Auth (AsReqFailed (lit "alice@example.com") PreauthRequired)), after_tick (sample_world 1700000000)).
Proof.
  destruct (@sdk_authentication rotate_block rotate_block fold_mac sample_rasn sample_rasn_laws (with_kdc (InMemoryPrincipalStore_store sample_store) (replicate 32 x0c))
    (lit "alice@example.com") (lit "secret") (sample_world 1700000000)) as (_ & Hk & _).
  - vm_compute. reflexivity.
  - unfold krb_time_ok. cbn. lia.
  - destruct (Hk _ eq_refl) as [_ H]. refine (H (lit "alice") (lit "example.com") _).
    split; [reflexivity|]. split; [apply (bool_decide_unpack _); vm_compute; exact I|]. split; [done|]. split; [done|]. apply (bool_decide_unpack _). vm_compute. exact I.
Defined.
